(* ===== verification/_CoqProject ===== *)
-Q . S2P
Prelude.v
FreeQueue.v
RequestModel.v
BlockHash.v
KVCacheMetrics.v
BlockPool.v
KVCacheInterface.v
KVCacheConfig.v
KVCacheSizing.v
SingleTypeManager.v
Ownership.v
CacheHit.v
Coordinator.v
KVCacheManager.v
KVCacheSafety.v
KVService.v
SchedUtils.v
EncoderCache.v
SmCtrl.v
Heapq.v
RequestQueue.v
SchedulerState.v
Scheduler.v
SchedulerUpdate.v
Engine.v
SchedulerInv.v
SchedulerSafety.v
EngineSafety.v
EngineReach.v
EngineDrain.v
EngineInit.v
Ngram.v
OffloadPolicy.v
OffloadManager.v
Detokenizer.v
RequestOutputs.v
OutputProcessor.v
Arrays.v
BlockTable.v
InputBatch.v
InputBatchInv.v
InputBatchOps.v
InputBatchAdd.v
InputBatchRuns.v
Reorder.v
ModelRunner.v
RunnerRows.v
RunnerStep.v
RunnerStates.v
RunnerSampling.v
RunnerRuns.v
EngineRunner.v
SchedulerRuns.v
