(* ===== verification/Prelude.v ===== *)
(** * The core of vLLM's v1 engine

    This library models the part of vLLM (src/vllm/vllm) that decides, step by
    step, which requests the workers run and which blocks of the KV cache they
    use, and the part that turns sampled tokens into the outputs of the client,
    and proves them correct.  The definitions are executable translations of
    the Python code; a Python call is a computation of the monad [M S A] below,
    which threads a mutable state and returns a value or an exception, the
    state being kept in both cases.  Python objects that are shared and mutated
    (cache blocks, requests) live in heaps and are referred to by name.

    ** The program and its parts

    An engine core ([v1/engine/core.py]) receives requests and calls the
    scheduler ([v1/core/sched/scheduler.py]) in a loop: [schedule] chooses the
    next batch, the workers run it, [update_from_output] takes in the sampled
    tokens.  The scheduler keeps requests ([v1/request.py]) in a running list
    and in waiting queues ([request_queue.py]); it asks the KV-cache manager
    ([kv_cache_manager.py]) for the blocks of each request.  The manager works
    through a coordinator ([kv_cache_coordinator.py]) over one manager per
    group of layers ([single_type_kv_cache_manager.py]); all of them draw from
    one block pool ([block_pool.py]), whose free blocks form a doubly linked
    list ([kv_cache_utils.py]).  Full blocks are cached under a chain of hashes
    of their tokens, so that a later request with the same prefix reuses them.

    On the other side of the engine core the output processor
    ([v1/engine/output_processor.py]) keeps a state per request, turns new tokens
    into text and looks for stop strings ([detokenizer.py]), joins the samples of
    one request ([parallel_sampling.py]) and hands outputs to the client
    ([outputs.py]); it tells the engine core what to abort.  Beside the scheduler
    stand the n-gram drafter ([spec_decode/ngram_proposer.py]) and the manager of
    blocks offloaded to CPU memory ([kv_offload]).

    On the workers the model runner ([v1/worker/gpu_model_runner.py]) keeps a cached
    state per request and a persistent batch of rows ([gpu_input_batch.py]) with the
    block tables of each group ([block_table.py]).  Each step it applies the
    scheduler's output to both, closes the gaps in the batch, orders the rows for the
    attention backend ([attention/backends/utils.py]), runs the model, and records
    the sampled tokens.

    ** Files

    - Prelude: exceptions, the monad and its weakest preconditions ([wp],
      [wp_step]), Python integers, ranges and slices, list lemmas.
    - FreeQueue: KVCacheBlock and FreeKVCacheBlockQueue on a heap of blocks.
    - RequestModel: Request, RequestStatus and the data a request carries.
    - BlockHash: block hashes, extra keys, the request block hasher, coarse
      hash lists.  The hash function is a parameter; [CollisionFree] names what
      prefix caching relies on, and has an instance.
    - KVCacheMetrics: the residency-metrics collector.
    - BlockPool: BlockHashToBlockMap and BlockPool.
    - KVCacheInterface: the KV-cache specs, page sizes, merging.
    - KVCacheConfig: get_kv_cache_configs ([kv_cache_utils.py]): how layers are
      grouped, how many blocks the memory of all workers gives, the model length
      that fits; KVCacheSizing: its properties.
    - SingleTypeManager: the managers of one group, every class; Ownership: who
      holds which block; CacheHit: find_longest_cache_hit of every class.
    - Coordinator, KVCacheManager: the layers above; KVCacheSafety: their
      invariant and the contracts of allocate_slots, free, get_computed_blocks.
    - KVService: what the manager promises to the scheduler, as a class, and
      the instance for one full-attention group with prefix caching.
    - SchedUtils (stop conditions), EncoderCache (both encoder cache managers),
      SmCtrl (v1/libsmctrl.py: SM masks), Heapq and RequestQueue (waiting
      queues over the binary heap of the standard library).
    - SchedulerState, Scheduler, SchedulerUpdate: the scheduler's state, then
      schedule(), then update_from_output() and all other calls, for the plain
      and the async scheduler.  Engine: the engine core's calls and steps.
    - SchedulerInv: the invariant of the scheduler; SchedulerSafety: schedule();
      EngineSafety: every other call; EngineReach: the engine as a state
      machine, and the claims; EngineDrain: it finishes its requests.
    - EngineInit: start-up ([_initialize_kv_caches] and the scheduler over it);
      SchedulerRuns: runs outside the fragment of the invariant.
    - Ngram: the n-gram proposer, search and batch.
    - OffloadPolicy: the replacement policies LRU and ARC behind the class
      [CachePolicy], with its laws [CachePolicySpec] and an instance for each;
      OffloadManager: CPUOffloadingManager and the reuse filter, proved against
      the class.
    - Detokenizer: stop strings, incremental text, the slow and the fast decoder.
    - RequestOutputs: outputs and how they merge, the collector, parent requests;
      OutputProcessor: RequestState and every call of OutputProcessor.
    - Arrays: numpy slices and their assignments.  BlockTable: BlockTable,
      MultiGroupBlockTable and the slot-mapping kernel.
    - InputBatch: CachedRequestState, the batch-update builder and InputBatch;
      InputBatchInv: its invariant, what a row shows of a request ([view]), and
      condense; InputBatchOps: removal; InputBatchAdd: addition; InputBatchRuns:
      a small batch, on which the theorems and some defects are seen.
    - Reorder: the split of decodes and prefills.
    - ModelRunner: the runner's states, _update_states and the recording of sampled
      tokens; RunnerRows: changes of single rows; RunnerStep: each phase's effect;
      RunnerStates: the phases composed; RunnerSampling: sampled tokens;
      RunnerRuns: two steps of a small runner; EngineRunner: the scheduler's output
      meets what the runner expects.

    ** What the theorems show

    - The free list refines a plain list of blocks; the pool refines an
      abstract pool of free, referenced and cached blocks; nothing is lost.
    - Block hashes: the incremental hasher computes the reference chain, and
      with a collision-free hash the blocks of two requests have equal hashes
      exactly when their prefixes agree in tokens and extra keys, as long as a
      later run finds all multimodal items but the last in hashed blocks.
    - Sizing: the groups partition the layers, the tensors fit the memory of
      every worker and have the blocks of one request of the maximal length, the
      null block counted among them, auto-fit finds the largest length; start-up
      then gives a fresh engine.
    - Lookup: each manager class returns the longest hit its layers allow (the
      sliding window without EAGLE or with blocks of the alignment), and the
      hybrid fixed point, with at most one full-attention entry, terminates with
      a length all groups agree on.
    - Manager: allocate_slots, free and reset_prefix_cache keep ownership (a
      block is in the free list or in block tables, with the right count) and
      never raise on inputs that meet their contract; allocate_slots refuses
      exactly when the pool lacks the blocks.
    - Engine: for text generation without connectors, grammars, adapters and
      draft tokens ([PlainConfig]), every state reached by any sequence of
      calls satisfies the invariant, and every further call returns.  It
      follows that batches keep to the token and request limits, that requests
      are never lost or duplicated, and that no block leaks.
    - Progress: when one request of the maximal length fits the blocks without the
      null block, schedule() puts a token into the batch of an unpaused engine with
      a request left, with chunked prefill and positive limits, under FCFS or with
      nothing running, and a head of the running list that is not in flight; and an
      FCFS engine that gets no new requests finishes all of them within requests
      times model-length steps.
    - Queues and stopping: both waiting queues keep their order, and check_stop
      is decided on every request.
    - Outputs: the windowed stop check equals a search of the whole text behind
      the first min_tokens tokens, the
      streamed pieces join to the text returned at once, the collector loses
      nothing; the tables of the output processor agree in every reachable state,
      and it drops a request exactly when the engine core ended it or is told to.
    - Drafts and offloading: the n-gram search equals an exhaustive one; with
      either policy no CPU slot is lost or used twice, a block being read stays,
      and a store is refused only when the policy finds nothing to evict.
    - Workers: block tables refine lists of rows, and the kernel maps every token to
      the slot of its own request, never one slot for two places.  Adding, removing,
      condensing and reordering keep what every row shows: tokens, counts, blocks,
      adapter, sampling parameters, generator, banned words, embeddings and drafts.
      The rows of the mask of allowed tokens are no part of it; condense moves them
      along, the swaps of the reordering do not.  A step of _update_states without
      streaming updates makes the batch exactly what the scheduler scheduled, every row showing its
      cached request with its drafts, and recording the sampled tokens re-establishes
      the invariant of the next step.  What the scheduler of a reachable engine sends,
      a ready worker takes in, and their counts of computed tokens agree.
    - Some theorems exhibit behaviour the code does not intend: stale block
      hashes of streaming sessions, lost sessions, a failing LoRA assertion, an
      engine that starts one block short, a stop string left in the text, an ARC
      cache that refuses although blocks are idle, parent requests that stay, masks of
      allowed tokens that stay behind or are duplicated when rows move.

    ** Bounds and fuel

    Integers of Python are unbounded and are [Z] here; the 64-bit truncation of
    SM masks and the C fields of an offloaded block are written out, and the
    target of ARC, a Python float, is a rational rounded to 53 bits.  Loops that are not structural carry fuel, and the
    theorems show that the fuel given is enough: the running loop of schedule()
    takes one round per running request, its preemption loop removes a running
    request per round, the waiting loop removes a queued request per round, the
    hybrid lookup shrinks the hit length per pass, the search for the model
    length halves an interval that starts at the model length, the n-gram search
    decreases a measure of at most twice the tokens, aborting goes from
    parents to children once, condense fills one gap per round, and a walk along a
    cycle of the reordering puts one request in its place per swap.

    ** Not modelled

    Statistics, log output, events with timestamps, tracing and event
    publishing; KV connectors, encoder-cache connectors, grammars and the
    workers as the engine core calls them (parameters of the definitions, with the documented behaviour the
    theorems need as hypotheses); the tokenizer library (a parameter too); of the
    model runner, the tensors it builds from its states, M-RoPE and XD-RoPE
    positions, the n-gram proposer on the GPU and late interaction, while random
    generators, the rounding to 32-bit floats and the pooler's changes of parameters
    are parameters; its step is proved for synchronous scheduling on the last rank,
    the definitions cover the other cases; log
    probabilities; the copies between GPU and CPU memory; the servers, model code,
    kernels, distributed execution and configuration parsing, which are tensor
    code or I/O. *)

From Stdlib Require Export Strings.Byte.
From stdpp Require Export base numbers strings gmap sets list.

#[global] Open Scope Z_scope.

(** ** Python exceptions and the state-and-error monad

    A Python call either returns a value or raises; in both cases the heap
    mutations it made so far stay.  [M S A] is that: the final state is
    returned next to the result, also when the result is [Raise e]. *)

Inductive exn :=
  | AssertionError
  | ValueError
  | RuntimeError
  | IndexError
  | KeyError
  | AttributeError
  | NotImplementedError
  | OverflowError
  | TypeError
  | StopIteration
  | ZeroDivisionError
  | OutOfFuel.

Inductive res (A : Type) :=
  | Ok (a : A)
  | Raise (e : exn).
Arguments Ok {A} a.
Arguments Raise {A} e.

#[global] Instance exn_eq_dec : EqDecision exn.
Proof. solve_decision. Defined.

#[global] Instance res_eq_dec {A} `{EqDecision A} : EqDecision (res A).
Proof. solve_decision. Defined.

Definition M (S A : Type) : Type := S → res A * S.

Definition ret {S A} (a : A) : M S A := λ s, (Ok a, s).

Definition bind {S A B} (m : M S A) (k : A → M S B) : M S B := λ s,
  match m s with
  | (Ok a, s') => k a s'
  | (Raise e, s') => (Raise e, s')
  end.

Definition raise {S A} (e : exn) : M S A := λ s, (Raise e, s).

Definition gets {S A} (f : S → A) : M S A := λ s, (Ok (f s), s).

Definition modify {S} (f : S → S) : M S unit := λ s, (Ok tt, f s).

(** [assert b] *)
Definition py_assert {S} (b : bool) : M S unit :=
  if b then ret tt else raise AssertionError.

(** An operation on a component of the state. *)
Definition zoom {S T A} (get : S → T) (put : T → S → S) (m : M T A) : M S A := λ s,
  let '(r, t) := m (get s) in (r, put t s).

(** A call that neither reads nor changes the state. *)
Definition lift {S A} (r : res A) : M S A := λ s, (r, s).

Definition res_bind {A B} (r : res A) (k : A → res B) : res B :=
  match r with Ok a => k a | Raise e => Raise e end.

Declare Scope py_scope.
Delimit Scope py_scope with py.
#[global] Open Scope py_scope.

Notation "'let!' x ':=' m 'in' k" := (bind m (λ x, k))
  (at level 100, x binder, m at next level, k at level 200, right associativity) : py_scope.
Notation "m ';;;' k" := (bind m (λ _, k))
  (at level 100, k at level 200, right associativity) : py_scope.

Notation "'let?' x ':=' m 'in' k" := (res_bind m (λ x, k))
  (at level 100, x binder, m at next level, k at level 200, right associativity) : py_scope.

(** [[f(x) for x in l]] for a call without state *)
Fixpoint map_res {A B} (f : A → res B) (l : list A) : res (list B) :=
  match l with
  | [] => Ok []
  | x :: l => let? y := f x in let? ys := map_res f l in Ok (y :: ys)
  end.

(** [for x in l: f(x)] *)
Fixpoint for_each {S B} (l : list B) (f : B → M S unit) : M S unit :=
  match l with
  | [] => ret tt
  | x :: l => f x ;;; for_each l f
  end.

(** [[f(x) for x in l]] *)
Fixpoint map_m {S B C} (l : list B) (f : B → M S C) : M S (list C) :=
  match l with
  | [] => ret []
  | x :: l => let! y := f x in let! ys := map_m l f in ret (y :: ys)
  end.

(** ** Weakest preconditions: the call returns and its result satisfies [Q]. *)

Definition wp {S A} (m : M S A) (Q : A → S → Prop) (s : S) : Prop :=
  match m s with
  | (Ok a, s') => Q a s'
  | (Raise _, _) => False
  end.

Section wp.
Context {S : Type}.
Implicit Type s : S.

Lemma wp_run {A} (m : M S A) Q s :
  wp m Q s ↔ ∃ a s', m s = (Ok a, s') ∧ Q a s'.
Proof.
  unfold wp. split.
  - destruct (m s) as [[a|e] s'] eqn:E; [by eauto | done].
  - by intros (a & s' & -> & HQ).
Qed.

Lemma bind_ok {A B} (m : M S A) (k : A → M S B) s a s' : m s = (Ok a, s') → bind m k s = k a s'.
Proof. unfold bind. by intros ->. Qed.

Lemma bind_inv {A B} (m : M S A) (k : A → M S B) s b s' : bind m k s = (Ok b, s') → ∃ a s1, m s = (Ok a, s1) ∧ k a s1 = (Ok b, s').
Proof. unfold bind. destruct (m s) as [[a|e] s1]; [|done]. eauto. Qed.

Lemma assert_inv (b : bool) s u s' : py_assert b s = (Ok u, s') → b = true ∧ s' = s.
Proof. destruct b; [by intros [= <- <-]|done]. Qed.

Lemma wp_ok {A} (m : M S A) Q s a s' : m s = (Ok a, s') → wp m Q s → Q a s'.
Proof. unfold wp. by intros ->. Qed.

Lemma wp_final {A} (m : M S A) (P : S → Prop) s : wp m (λ _ s', P s') s → P (m s).2.
Proof. unfold wp. by destruct (m s) as [[a|e] s']. Qed.

Lemma wp_mono {A} (m : M S A) (Q Q' : A → S → Prop) s :
  wp m Q s → (∀ a s', Q a s' → Q' a s') → wp m Q' s.
Proof. unfold wp. destruct (m s) as [[a|e] s']; auto. Qed.

Lemma wp_and {A} (m : M S A) (Q Q' : A → S → Prop) s :
  wp m Q s → wp m Q' s → wp m (λ a s', Q a s' ∧ Q' a s') s.
Proof. unfold wp. destruct (m s) as [[a|e] s']; auto. Qed.

Lemma wp_ret {A} (a : A) (Q : A → S → Prop) s : Q a s → wp (ret a) Q s.
Proof. done. Qed.

Lemma wp_bind {A B} (m : M S A) (k : A → M S B) Q s :
  wp m (λ a s', wp (k a) Q s') s → wp (bind m k) Q s.
Proof. unfold wp, bind. destruct (m s) as [[a|e] s']; auto. Qed.

Lemma wp_bind_ok {A B} (m : M S A) (k : A → M S B) Q s a s' : m s = (Ok a, s') → wp (k a) Q s' → wp (bind m k) Q s.
Proof. unfold wp, bind. by intros ->. Qed.

Lemma wp_bind_assoc {A B C} (m : M S A) (k : A → M S B) (h : B → M S C) Q s :
  wp (bind m k) (λ b s', wp (h b) Q s') s → wp (bind m (λ a, bind (k a) h)) Q s.
Proof. unfold wp, bind. destruct (m s) as [[a|e] s']; [|done]. by destruct (k a s') as [[b|e] s'']. Qed.

Lemma wp_gets {A} (f : S → A) Q s : Q (f s) s → wp (gets f) Q s.
Proof. done. Qed.

Lemma wp_modify (f : S → S) Q s : Q tt (f s) → wp (modify f) Q s.
Proof. done. Qed.

Lemma wp_assert (b : bool) Q s : b = true → Q tt s → wp (py_assert b) Q s.
Proof. by intros ->. Qed.

Lemma wp_zoom {T A} (get : S → T) put (m : M T A) Q s :
  wp m (λ a t, Q a (put t s)) (get s) → wp (zoom get put m) Q s.
Proof. unfold wp, zoom. by destruct (m (get s)) as [[a|e] t]. Qed.

(** Loop rule: the invariant is indexed by the elements already visited. *)
Lemma wp_for_each {B} (I : list B → S → Prop) (l : list B) (f : B → M S unit) s :
  I [] s →
  (∀ pre x post s, l = pre ++ x :: post → I pre s →
     wp (f x) (λ _ s', I (pre ++ [x]) s') s) →
  wp (for_each l f) (λ _ s', I l s') s.
Proof.
  intros HI Hstep.
  cut (∀ post pre s, l = pre ++ post → I pre s →
         wp (for_each post f) (λ _ s', I l s') s).
  { intros Hc. by apply (Hc l []). }
  induction post as [|x post IH]; intros pre s0 Hl Hpre.
  - rewrite app_nil_r in Hl. subst pre. by apply wp_ret.
  - apply wp_bind. eapply wp_mono; [by eapply Hstep|].
    intros [] s1 H1. apply (IH (pre ++ [x])); [|done].
    by rewrite Hl, <-app_assoc.
Qed.

Lemma for_each_fmap {B C} (g : B → C) (l : list B) (f : C → M S unit) :
  for_each (g <$> l) f = for_each l (λ x, f (g x)).
Proof. induction l as [|x l IH]; [done|]. cbn. by rewrite IH. Qed.

Lemma wp_map_m {B C} (I : list B → list C → S → Prop) (l : list B) (f : B → M S C) s :
  I [] [] s →
  (∀ pre x post ys s, l = pre ++ x :: post → I pre ys s →
     wp (f x) (λ y s', I (pre ++ [x]) (ys ++ [y]) s') s) →
  wp (map_m l f) (λ ys s', I l ys s') s.
Proof.
  intros HI Hstep.
  cut (∀ post pre ys s, l = pre ++ post → I pre ys s →
         wp (map_m post f) (λ zs s', I l (ys ++ zs) s') s).
  { intros Hc. apply (Hc l [] []); auto. }
  induction post as [|x post IH]; intros pre ys s0 Hl Hpre.
  - rewrite app_nil_r in Hl. subst pre. apply wp_ret. by rewrite app_nil_r.
  - apply wp_bind. eapply wp_mono; [by eapply Hstep|].
    intros y s1 H1. apply wp_bind. eapply wp_mono.
    { apply (IH (pre ++ [x]) (ys ++ [y])); [|done]. by rewrite Hl, <-app_assoc. }
    intros zs s2 H2. apply wp_ret. cbn beta in H2. by rewrite <-app_assoc in H2.
Qed.

End wp.

(** [wp_step] peels one primitive of the monad off the goal. *)
Ltac wp_step :=
  lazymatch goal with
  | |- wp (bind _ _) _ _ => apply wp_bind
  | |- wp (ret _) _ _ => apply wp_ret
  | |- wp (gets _) _ _ => apply wp_gets
  | |- wp (modify _) _ _ => apply wp_modify
  | |- wp (zoom _ _ _) _ _ => apply wp_zoom
  end.
Ltac wp_steps := repeat wp_step; cbn beta.

(** ** Python integers, ranges, slices *)

(** [len(l)] *)
Definition len {A} (l : list A) : Z := Z.of_nat (length l).

(** [cdiv] of vllm/utils/math_utils.py: [-(a // -b)]; [Z.div] floors like
    Python's [//]. *)
Definition cdiv (a b : Z) : Z := - (a / - b).

(** [a // b] *)
Definition py_div (a b : Z) : res Z := if b =? 0 then Raise ZeroDivisionError else Ok (a / b).

(** [cdiv(a, b)], which raises for [b = 0] *)
Definition py_cdiv (a b : Z) : res Z := if b =? 0 then Raise ZeroDivisionError else Ok (cdiv a b).

(** [min(l)] and [max(l)] *)
Definition py_min (l : list Z) : res Z := match l with [] => Raise ValueError | x :: l => Ok (foldr Z.min x l) end.
Definition py_max (l : list Z) : res Z := match l with [] => Raise ValueError | x :: l => Ok (foldr Z.max x l) end.

(** Slice bounds: a negative bound counts from the end, both are clamped. *)
Definition slice_bound (n i : Z) : Z :=
  if i <? 0 then Z.max 0 (i + n) else Z.min i n.

(** [l[a:b]] *)
Definition py_slice {A} (l : list A) (a b : Z) : list A :=
  let a' := slice_bound (len l) a in
  let b' := slice_bound (len l) b in
  take (Z.to_nat (b' - a')) (drop (Z.to_nat a') l).

(** [l[a:]] *)
Definition py_slice_from {A} (l : list A) (a : Z) : list A :=
  drop (Z.to_nat (slice_bound (len l) a)) l.

(** [l[:b]] *)
Definition py_slice_to {A} (l : list A) (b : Z) : list A :=
  take (Z.to_nat (slice_bound (len l) b)) l.

(** [l[i]]; [None] is IndexError. *)
Definition py_get {A} (l : list A) (i : Z) : option A :=
  if i <? 0 then (if i + len l <? 0 then None else l !! Z.to_nat (i + len l))
  else l !! Z.to_nat i.

(** [l[i]] in the monad. *)
Definition py_index {S A} (l : list A) (i : Z) : M S A :=
  match py_get l i with Some a => ret a | None => raise IndexError end.

(** [l[i::n]] for [0 <= i] and [0 < n] *)
Definition py_stride {A} (l : list A) (i n : Z) : list A :=
  snd <$> filter (λ x, i ≤ x.1 ∧ (x.1 - i) mod n = 0) (imap (λ j x, (Z.of_nat j, x)) l).

(** [range(a, b)] *)
Definition py_range (a b : Z) : list Z := seqZ a (b - a).

(** [[x] * n] *)
Definition py_repeat {A} (x : A) (n : Z) : list A := replicate (Z.to_nat n) x.

Lemma len_nonneg {A} (l : list A) : 0 ≤ len l.
Proof. unfold len. lia. Qed.

Lemma len_nil {A} : len (@nil A) = 0.
Proof. done. Qed.

Lemma len_cons {A} (x : A) l : len (x :: l) = len l + 1.
Proof. unfold len. simpl. lia. Qed.

Lemma len_app {A} (l k : list A) : len (l ++ k) = len l + len k.
Proof. unfold len. rewrite length_app. lia. Qed.

Lemma len_fmap {A B} (f : A → B) l : len (f <$> l) = len l.
Proof. unfold len. by rewrite length_fmap. Qed.

Lemma len_repeat {A} (x : A) n : len (py_repeat x n) = Z.max 0 n.
Proof. unfold len, py_repeat. rewrite length_replicate. lia. Qed.

Lemma len_reverse {A} (l : list A) : len (reverse l) = len l.
Proof. unfold len. by rewrite length_reverse. Qed.

Lemma cdiv_spec a b : 0 < b → cdiv a b = (a + b - 1) / b.
Proof.
  intros Hb. unfold cdiv.
  pose proof (Z.div_mod a (-b) ltac:(lia)) as H1.
  pose proof (Z.mod_neg_bound a (-b) ltac:(lia)) as H2.
  pose proof (Z.div_mod (a + b - 1) b ltac:(lia)) as H3.
  pose proof (Z.mod_pos_bound (a + b - 1) b Hb) as H4.
  nia.
Qed.

(** [cdiv a b] is the least [q] with [a ≤ q * b]. *)
Lemma cdiv_le_iff a b q : 0 < b → cdiv a b ≤ q ↔ a ≤ q * b.
Proof.
  intros Hb. rewrite cdiv_spec by done. split; intros H.
  - pose proof (Z.div_mod (a + b - 1) b ltac:(lia)) as H1.
    pose proof (Z.mod_pos_bound (a + b - 1) b Hb) as H2. nia.
  - apply Z.lt_succ_r. apply Z.div_lt_upper_bound; nia.
Qed.

Lemma cdiv_mul_ge a b : 0 < b → a ≤ cdiv a b * b.
Proof. intros Hb. by apply cdiv_le_iff. Qed.

Lemma cdiv_mono a a' b : 0 < b → a ≤ a' → cdiv a b ≤ cdiv a' b.
Proof. intros Hb Ha. apply cdiv_le_iff; [done|]. pose proof (cdiv_mul_ge a' b Hb). lia. Qed.

Lemma cdiv_nonneg a b : 0 < b → 0 ≤ a → 0 ≤ cdiv a b.
Proof. intros. rewrite cdiv_spec by done. apply Z.div_pos; lia. Qed.

Lemma cdiv_mul q b : 0 < b → cdiv (q * b) b = q.
Proof.
  intros Hb. apply Z.le_antisymm; [by apply cdiv_le_iff|].
  pose proof (cdiv_mul_ge (q * b) b Hb). nia.
Qed.

Lemma div_le_cdiv a b : 0 < b → a / b ≤ cdiv a b.
Proof.
  intros Hb. pose proof (cdiv_mul_ge a b Hb).
  apply Z.lt_succ_r, Z.div_lt_upper_bound; nia.
Qed.

Lemma slice_bound_nonneg n i : 0 ≤ n → 0 ≤ slice_bound n i ≤ n.
Proof. intros. unfold slice_bound. destruct (Z.ltb_spec i 0); lia. Qed.

Lemma py_slice_nonneg {A} (l : list A) a b :
  0 ≤ a → 0 ≤ b →
  py_slice l a b = take (Z.to_nat (b - a)) (drop (Z.to_nat a) l).
Proof.
  intros Ha Hb. unfold py_slice, slice_bound, len.
  destruct (Z.ltb_spec a 0), (Z.ltb_spec b 0); try lia.
  destruct (decide (a ≤ Z.of_nat (length l))) as [Hal|Hal].
  - rewrite (Z.min_l a) by lia.
    destruct (decide (b ≤ Z.of_nat (length l))).
    { by rewrite Z.min_l by lia. }
    rewrite Z.min_r by lia. rewrite !take_ge; rewrite ?length_drop; try done; lia.
  - rewrite !drop_ge by lia. by rewrite !take_nil.
Qed.

Lemma py_slice_from_nonneg {A} (l : list A) a :
  0 ≤ a → py_slice_from l a = drop (Z.to_nat a) l.
Proof.
  intros Ha. unfold py_slice_from, slice_bound, len.
  destruct (Z.ltb_spec a 0); [lia|].
  destruct (decide (a ≤ Z.of_nat (length l))); [by rewrite Z.min_l by lia|].
  rewrite !drop_ge by lia. done.
Qed.

Lemma py_slice_to_nonneg {A} (l : list A) b :
  0 ≤ b → py_slice_to l b = take (Z.to_nat b) l.
Proof.
  intros Hb. unfold py_slice_to, slice_bound, len.
  destruct (Z.ltb_spec b 0); [lia|].
  destruct (decide (b ≤ Z.of_nat (length l))); [by rewrite Z.min_l by lia|].
  rewrite !take_ge by lia. done.
Qed.

Lemma py_get_nonneg {A} (l : list A) i : 0 ≤ i → py_get l i = l !! Z.to_nat i.
Proof. intros. unfold py_get. destruct (Z.ltb_spec i 0); [lia|done]. Qed.

Lemma py_get_last {A} (l : list A) : py_get l (-1) = last l.
Proof.
  unfold py_get. change (-1 <? 0) with true. cbn [negb].
  destruct l as [|x l _] using rev_ind; [done|].
  rewrite last_snoc, len_app, len_cons, len_nil. pose proof (len_nonneg l).
  destruct (Z.ltb_spec (-1 + (len l + (0 + 1))) 0); [lia|].
  rewrite lookup_app_r by (unfold len; lia). unfold len.
  replace (Z.to_nat _ - length l)%nat with 0%nat by lia. done.
Qed.

Lemma py_range_seq a b : 0 ≤ a → py_range a b = Z.of_nat <$> seq (Z.to_nat a) (Z.to_nat (b - a)).
Proof.
  intros Ha. apply list_eq. intros i. unfold py_range. rewrite list_lookup_fmap.
  destruct (decide (Z.of_nat i < b - a)).
  - rewrite lookup_seqZ_lt, lookup_seq_lt by lia. cbn. f_equal. lia.
  - rewrite lookup_seqZ_ge, lookup_seq_ge by lia. done.
Qed.

Lemma wp_py_index {S A} (l : list A) i a (Q : A → S → Prop) s :
  py_get l i = Some a → Q a s → wp (py_index l i) Q s.
Proof. intros H HQ. unfold py_index. by rewrite H. Qed.

(** ** Calls without state *)

Lemma res_bind_ok {A B} (r : res A) (k : A → res B) b :
  res_bind r k = Ok b ↔ ∃ a, r = Ok a ∧ k a = Ok b.
Proof. destruct r; cbn; naive_solver. Qed.

Lemma wp_lift {S A} (r : res A) a (Q : A → S → Prop) s : r = Ok a → Q a s → wp (lift r) Q s.
Proof. by intros ->. Qed.

Lemma map_res_ok {A B} (f : A → res B) l ys : map_res f l = Ok ys ↔ Forall2 (λ x y, f x = Ok y) l ys.
Proof.
  revert ys. induction l as [|x l IH]; intros ys; cbn.
  - split; [by intros [= <-]|by inversion 1].
  - rewrite res_bind_ok. split.
    + intros (y & Hy & (zs & Hz & [= <-])%res_bind_ok). constructor; [done|by apply IH].
    + inversion 1 as [|? y ? zs Hy Hz]; subst. exists y. split; [done|]. rewrite (proj2 (IH zs) Hz). done.
Qed.

Lemma map_res_all {A B} (f : A → res B) (Q : A → B → Prop) l :
  (∀ x, x ∈ l → ∃ y, f x = Ok y ∧ Q x y) → ∃ ys, map_res f l = Ok ys ∧ Forall2 Q l ys.
Proof.
  induction l as [|x l IH]; intros Hl; [by exists []|]. destruct (Hl x) as (y & Hy & HQ); [by left|].
  destruct IH as (ys & Hys & HQ'); [intros z Hz; apply Hl; by right|]. exists (y :: ys). cbn [map_res]. rewrite Hy, Hys. split; [done|by constructor].
Qed.

Lemma py_div_ok a b q : py_div a b = Ok q ↔ b ≠ 0 ∧ q = a / b.
Proof. unfold py_div. destruct (Z.eqb_spec b 0); naive_solver. Qed.

Lemma py_cdiv_ok a b q : py_cdiv a b = Ok q ↔ b ≠ 0 ∧ q = cdiv a b.
Proof. unfold py_cdiv. destruct (Z.eqb_spec b 0); naive_solver. Qed.

Lemma foldr_best (f : Z → Z → Z) (R : Z → Z → Prop) `{!PreOrder R} x l :
  (∀ y z, (f y z = y ∨ f y z = z) ∧ R (f y z) y ∧ R (f y z) z) →
  foldr f x l ∈ x :: l ∧ ∀ y, y ∈ x :: l → R (foldr f x l) y.
Proof.
  intros Hf. induction l as [|y l [IH1 IH2]]; cbn [foldr].
  - split; [by left|]. by intros y ->%list_elem_of_singleton.
  - destruct (Hf y (foldr f x l)) as (Hor & Hy & Hz). split; [destruct Hor as [->| ->]; set_solver|].
    intros z [->|[->|Hin]%elem_of_cons]%elem_of_cons; [|done|]; etrans; try exact Hz; apply IH2; set_solver.
Qed.

Lemma py_min_ok l m : py_min l = Ok m ↔ m ∈ l ∧ ∀ x, x ∈ l → m ≤ x.
Proof.
  destruct l as [|x l]; cbn; [by split; [|intros [?%elem_of_nil _]]|].
  destruct (foldr_best Z.min Z.le x l) as [H1 H2]; [lia|]. split; [by intros [= <-]|].
  intros [H3 H4]. f_equal. specialize (H2 m H3). specialize (H4 _ H1). lia.
Qed.

Lemma py_max_ok l m : py_max l = Ok m ↔ m ∈ l ∧ ∀ x, x ∈ l → x ≤ m.
Proof.
  destruct l as [|x l]; cbn; [by split; [|intros [?%elem_of_nil _]]|].
  destruct (foldr_best Z.max (flip Z.le) x l) as [H1 H2]; [cbn; lia|]. split; [by intros [= <-]|].
  intros [H3 H4]. f_equal. specialize (H2 m H3). cbn in H2. specialize (H4 _ H1). lia.
Qed.

(** The residue classes of the positions partition a list. *)
Lemma concat_classes {X} (P : Z → X → Prop) `{!∀ i x, Decision (P i x)} (ks : list Z) (l : list X) :
  NoDup ks → (∀ x, x ∈ l → ∃ k, k ∈ ks ∧ ∀ i, i ∈ ks → P i x ↔ i = k) →
  concat ((λ i, filter (P i) l) <$> ks) ≡ₚ l.
Proof.
  intros Hnd. induction l as [|x l IH]; intros Hl.
  - clear Hnd Hl. induction ks; cbn; auto.
  - destruct (Hl x) as (k & Hk & Hx); [by left|]. transitivity (x :: concat ((λ i, filter (P i) l) <$> ks));
      [|f_equiv; apply IH; intros y Hy; apply Hl; by right]. clear IH Hl.
    induction ks as [|i ks IH]; [by apply elem_of_nil in Hk|]. apply NoDup_cons in Hnd as [Hi Hnd]. rewrite !fmap_cons, !concat_cons.
    assert (k ∈ ks ∨ i = k ∧ k ∉ ks) as [Hin|[-> Hout]] by (apply elem_of_cons in Hk as [->|Hk]; auto).
    + rewrite filter_cons_False by (rewrite (Hx i) by (by left); congruence). cbn.
      rewrite IH; [by rewrite Permutation_middle|done|done|]. intros j Hj. apply Hx. by right.
    + rewrite filter_cons_True by (by apply Hx; [left|]). rewrite <-app_comm_cons. f_equiv. f_equiv. apply reflexive_eq. f_equal.
      apply list_fmap_ext. intros j i Hj. apply list_elem_of_lookup_2 in Hj. rewrite filter_cons_False; [done|].
      rewrite (Hx i) by (by right). by intros ->.
Qed.

Lemma concat_stride {A} (l : list A) n : 0 < n → concat ((λ i, py_stride l i n) <$> py_range 0 n) ≡ₚ l.
Proof.
  intros Hn. unfold py_stride. set (ps := imap (λ j x, (Z.of_nat j, x)) l).
  assert (ps.*2 = l) as Hps by (unfold ps; rewrite fmap_imap; etrans; [apply (imap_const id)|apply list_fmap_id]). rewrite <-Hps at 1.
  assert (∀ ks, concat ((λ i, (filter (λ x : Z * A, i ≤ x.1 ∧ (x.1 - i) mod n = 0) ps).*2) <$> ks) =
    (concat ((λ i, filter (λ x : Z * A, i ≤ x.1 ∧ (x.1 - i) mod n = 0) ps) <$> ks)).*2) as ->
    by (intros ks; induction ks as [|i ks IH]; [done|]; rewrite !fmap_cons, !concat_cons, fmap_app; by rewrite IH).
  f_equiv.
  apply concat_classes; [apply NoDup_seqZ|]. intros [j x] Hx. apply elem_of_lookup_imap in Hx as (k & y & [= -> ->] & _). cbn.
  exists (Z.of_nat k mod n). pose proof (Z.mod_pos_bound (Z.of_nat k) n Hn). unfold py_range.
  split; [apply elem_of_seqZ; lia|]. intros i Hi%elem_of_seqZ. split.
  - intros [Hle Hm]. apply Z.mod_divide in Hm as [q Hq]; [|lia]. apply (Z.mod_unique_pos _ _ q); lia.
  - intros ->. pose proof (Z.mod_le (Z.of_nat k) n ltac:(lia) Hn). split; [done|].
    rewrite Zminus_mod_idemp_r, Z.sub_diag. by rewrite Zmod_0_l.
Qed.

Lemma stride_len {A} (l : list A) i n m : 0 < n → 0 ≤ i → len l ≤ n * m → len (py_stride l i n) ≤ Z.max 0 m.
Proof.
  intros Hn Hi Hl. unfold py_stride. rewrite len_fmap. set (ps := imap (λ j x, (Z.of_nat j, x)) l). set (qs := filter _ ps).
  assert (∀ x, x ∈ qs → 0 ≤ x.1 < len l ∧ (x.1 - i) mod n = 0) as Hin.
  { intros [j x] ([_ Hm] & Hx)%list_elem_of_filter. split; [|done]. apply elem_of_lookup_imap in Hx as (k & y & [= -> ->] & Hk).
    apply lookup_lt_Some in Hk. cbn. unfold len. lia. }
  assert (NoDup qs) as Hnd.
  { apply NoDup_filter, (NoDup_fmap_1 fst). unfold ps. rewrite fmap_imap.
    replace (imap _ l) with (Z.of_nat <$> seq 0 (length l)) by (symmetry; apply (imap_seq_0 l Z.of_nat)).
    apply NoDup_fmap_2; [apply _|]. apply NoDup_seq. }
  assert ((λ x, x.1 / n) <$> qs ⊆+ seqZ 0 m) as Hs%submseteq_length.
  { apply NoDup_submseteq.
    - apply NoDup_fmap_2_strong; [|done]. intros [j x] [k y] Hj Hk. cbn. intros Heq. destruct (Hin _ Hj) as [_ Hmj]. destruct (Hin _ Hk) as [_ Hmk].
      cbn in Hmj, Hmk. assert (j = k) as ->.
      { apply Z.mod_divide in Hmj as [a Ha]; [|lia]. apply Z.mod_divide in Hmk as [b Hb]; [|lia].
        assert (j mod n = k mod n) as Hm by (replace j with (i + a * n) by lia; replace k with (i + b * n) by lia; by rewrite !Z.mod_add by lia).
        rewrite (Z.div_mod j n), (Z.div_mod k n) by lia. by rewrite Heq, Hm. }
      f_equal. apply list_elem_of_filter in Hj as [_ (p & ? & [= Hp ->] & Hx)%elem_of_lookup_imap].
      apply list_elem_of_filter in Hk as [_ (q & ? & [= Hq ->] & Hy)%elem_of_lookup_imap]. assert (p = q) as -> by lia. congruence.
    - intros z (x & -> & Hx)%list_elem_of_fmap. destruct (Hin x Hx) as [Hb _]. apply elem_of_seqZ.
      split; [apply Z.div_pos; lia|]. apply Z.div_lt_upper_bound; lia. }
  rewrite length_fmap, length_seqZ in Hs. unfold len. lia.
Qed.

Lemma stride_nonempty {A} (l : list A) i n : 0 ≤ i < len l → py_stride l i n ≠ [].
Proof.
  intros Hi. destruct (lookup_lt_is_Some_2 l (Z.to_nat i)) as [x Hx]; [unfold len in Hi; lia|].
  intros Hnil. assert (x ∈ py_stride l i n) as Hin; [|rewrite Hnil in Hin; by apply elem_of_nil in Hin].
  apply list_elem_of_fmap. exists (i, x). split; [done|]. apply list_elem_of_filter. split.
  - cbn. rewrite Z.sub_diag, Zmod_0_l. lia.
  - apply elem_of_lookup_imap. exists (Z.to_nat i), x. split; [|done]. f_equal. lia.
Qed.

(** ** Lists without duplicates *)

Lemma nodup_take_drop {A} k (l : list A) :
  NoDup l → NoDup (take k l) ∧ NoDup (drop k l) ∧ (∀ x, x ∈ take k l → x ∉ drop k l).
Proof. intros H. rewrite <-(take_drop k l) in H. apply NoDup_app in H. naive_solver. Qed.

Lemma take_sub {A} k (l : list A) x : x ∈ take k l → x ∈ l.
Proof. rewrite <-(take_drop k l) at 2. rewrite elem_of_app. auto. Qed.

Lemma drop_sub {A} k (l : list A) x : x ∈ drop k l → x ∈ l.
Proof. rewrite <-(take_drop k l) at 2. rewrite elem_of_app. auto. Qed.

Lemma filter_id {A} (P : A → Prop) `{!∀ x, Decision (P x)} (l : list A) :
  (∀ x, x ∈ l → P x) → filter P l = l.
Proof.
  induction l as [|x l IH]; intros Hall; [done|].
  rewrite filter_cons_True, IH; [done| |apply Hall, elem_of_cons; by left].
  intros y Hy. apply Hall, elem_of_cons. by right.
Qed.

Lemma in_concat {A} (ls : list (list A)) l x : l ∈ ls → x ∈ l → x ∈ concat ls.
Proof.
  intros Hl Hx. induction ls as [|k ls IH]; [by apply elem_of_nil in Hl|].
  cbn. apply elem_of_app. apply elem_of_cons in Hl as [->|Hl]; auto.
Qed.

(** The next element of a duplicate-free list has not been visited. *)
Lemma nodup_next {A} (l pre : list A) x post :
  NoDup l → l = pre ++ x :: post → x ∉ pre ∧ x ∈ l.
Proof.
  intros Hnd ->. rewrite elem_of_app, elem_of_cons. split; [|auto].
  apply NoDup_app in Hnd as (_ & Hd & _). intros Hx. apply (Hd x Hx), elem_of_cons. by left.
Qed.

(** ** Bytes as map keys *)

#[global] Instance byte_eq_dec : EqDecision byte := Byte.byte_eq_dec.
#[global] Program Instance byte_countable : Countable byte :=
  inj_countable Byte.to_N Byte.of_N _.
Next Obligation. intros b. apply Byte.of_to_N. Qed.

Abbreviation bytes := (list byte).

(** ** Automation *)

Create HintDb vllm.
#[export] Hint Resolve len_nonneg cdiv_nonneg cdiv_mul_ge : vllm.

(** Case analysis on the decisions in the goal. *)
Ltac dec_cases := repeat match goal with |- context [decide ?P] => destruct (decide P) end.

(** Splits conjunctions in the goal and closes the routine leaves. *)
Ltac split_done := repeat split; auto with vllm; try done; try lia.
