(* ===== verification/FreeQueue.v ===== *)
(** * KVCacheBlock and FreeKVCacheBlockQueue (vllm/v1/core/kv_cache_utils.py)

    The free queue is a doubly linked list threaded through the block
    objects themselves.  The model keeps the object store explicit: a [ref]
    is an object identity, [heap] maps it to the object's fields, and every
    assignment of the source is a write into the store.

    The second half proves that the linked list refines a plain list of
    block numbers: [rep q l] says that walking the links of [q] visits
    exactly [l]; each operation is then an operation on [l]. *)

From S2P Require Import Prelude.

(** ** Data *)

(** Object identities: the pool's blocks are created once, as
    [KVCacheBlock(idx) for idx in range(num_gpu_blocks)], so [Blk i] is the
    object [blocks[i]]; the two sentinels have identities of their own. *)
Inductive ref :=
  | FakeHead
  | FakeTail
  | Blk (i : nat).

#[global] Instance ref_eq_dec : EqDecision ref.
Proof. solve_decision. Defined.

#[global] Program Instance ref_countable : Countable ref :=
  inj_countable
    (λ r, match r with FakeHead => inl false | FakeTail => inl true | Blk i => inr i end)
    (λ x, Some match x with inl false => FakeHead | inl true => FakeTail | inr i => Blk i end) _.
Next Obligation. by intros []. Qed.

#[global] Instance Blk_inj : Inj (=) (=) Blk.
Proof. by intros i j [=]. Qed.

Record KVCacheBlock := MkBlock {
  block_id : Z;
  ref_cnt : Z;
  block_hash : option bytes;
  prev_free_block : option ref;
  next_free_block : option ref;
  is_null : bool;
}.

(** [KVCacheBlock(block_id=i)] *)
Definition new_block (i : Z) : KVCacheBlock := MkBlock i 0 None None None false.

Definition with_ref_cnt (n : Z) (b : KVCacheBlock) : KVCacheBlock :=
  MkBlock (block_id b) n (block_hash b) (prev_free_block b) (next_free_block b) (is_null b).
Definition with_hash (h : option bytes) (b : KVCacheBlock) : KVCacheBlock :=
  MkBlock (block_id b) (ref_cnt b) h (prev_free_block b) (next_free_block b) (is_null b).
Definition with_prev (r : option ref) (b : KVCacheBlock) : KVCacheBlock :=
  MkBlock (block_id b) (ref_cnt b) (block_hash b) r (next_free_block b) (is_null b).
Definition with_next (r : option ref) (b : KVCacheBlock) : KVCacheBlock :=
  MkBlock (block_id b) (ref_cnt b) (block_hash b) (prev_free_block b) r (is_null b).
Definition with_null (n : bool) (b : KVCacheBlock) : KVCacheBlock :=
  MkBlock (block_id b) (ref_cnt b) (block_hash b) (prev_free_block b) (next_free_block b) n.

(** [block.reset_hash()] *)
Definition reset_hash : KVCacheBlock → KVCacheBlock := with_hash None.

(** The [block_hash] property's setter asserts that no hash is set. *)
Definition set_block_hash (h : bytes) (b : KVCacheBlock) : option KVCacheBlock :=
  match block_hash b with None => Some (with_hash (Some h) b) | Some _ => None end.

Record Queue := MkQueue {
  heap : gmap ref KVCacheBlock;
  num_free_blocks : Z;
}.

(** ** Store primitives *)

(** Reading the fields of the object [r]. *)
Definition deref (r : ref) : M Queue KVCacheBlock := λ q,
  match heap q !! r with Some b => (Ok b, q) | None => (Raise AttributeError, q) end.

Definition upd (f : KVCacheBlock → KVCacheBlock) (r : ref) (q : Queue) : Queue :=
  MkQueue (alter f r (heap q)) (num_free_blocks q).

(** [r.next_free_block = v], [r.prev_free_block = v] *)
Definition set_next (r : ref) (v : option ref) : M Queue unit := modify (upd (with_next v) r).
Definition set_prev (r : ref) (v : option ref) : M Queue unit := modify (upd (with_prev v) r).

Definition add_num_free (n : Z) : M Queue unit :=
  modify (λ q, MkQueue (heap q) (num_free_blocks q + n)).

(** ** Operations *)

(** Body of the loop of [FreeKVCacheBlockQueue.__init__]. *)
Definition init_step (blocks : list ref) (i : Z) : M Queue unit :=
  (if 0 <? i then
     let! b := py_index blocks i in
     let! p := py_index blocks (i - 1) in set_prev b (Some p)
   else ret tt) ;;;
  (if i <? len blocks - 1 then
     let! b := py_index blocks i in
     let! s := py_index blocks (i + 1) in set_next b (Some s)
   else ret tt).

(** The end of [__init__]: the sentinels are connected. *)
Definition init_sentinels (blocks : list ref) : M Queue unit :=
  if 0 <? len blocks then
    let! first := py_index blocks 0 in
    let! last := py_index blocks (-1) in
    set_next FakeHead (Some first) ;;;
    set_prev first (Some FakeHead) ;;;
    set_prev FakeTail (Some last) ;;;
    set_next last (Some FakeTail)
  else
    set_next FakeHead (Some FakeTail) ;;;
    set_prev FakeTail (Some FakeHead).

(** [FreeKVCacheBlockQueue.__init__(blocks)] *)
Definition init_links (blocks : list ref) : M Queue unit :=
  modify (λ q, MkQueue (heap q) (len blocks)) ;;;
  for_each (py_range 0 (len blocks)) (init_step blocks) ;;;
  modify (λ q, MkQueue (<[FakeHead := new_block (-1)]>
                        (<[FakeTail := new_block (-1)]> (heap q))) (num_free_blocks q)) ;;;
  init_sentinels blocks.

(** [popleft()] *)
Definition popleft : M Queue ref :=
  let! head := deref FakeHead in
  match next_free_block head with
  | None | Some FakeTail =>
      let! n := gets num_free_blocks in
      py_assert (n =? 0) ;;;
      raise ValueError
  | Some first =>
      let! fb := deref first in
      match next_free_block fb with
      | None => raise RuntimeError
      | Some nx =>
          set_next FakeHead (Some nx) ;;;
          set_prev nx (Some FakeHead) ;;;
          set_prev first None ;;;
          set_next first None ;;;
          add_num_free (-1) ;;;
          ret first
      end
  end.

(** The [for _ in range(n)] loop of [popleft_n]. *)
Fixpoint popleft_n_loop (n : nat) (curr : option ref) (acc : list ref)
    : M Queue (option ref * list ref) :=
  match n with
  | O => ret (curr, acc)
  | S n =>
      match curr with
      | None => raise AssertionError
      | Some c =>
          let! b := deref c in
          set_prev c None ;;;
          set_next c None ;;;
          popleft_n_loop n (next_free_block b) (acc ++ [c])
      end
  end.

(** [popleft_n(n)] *)
Definition popleft_n (n : Z) : M Queue (list ref) :=
  if n =? 0 then ret [] else
  let! free := gets num_free_blocks in
  py_assert (n <=? free) ;;;
  add_num_free (- n) ;;;
  let! head := deref FakeHead in
  let! r := popleft_n_loop (Z.to_nat n) (next_free_block head) [] in
  match r.1 with
  | Some curr =>
      set_next FakeHead (Some curr) ;;;
      set_prev curr (Some FakeHead)
  | None => ret tt
  end ;;;
  ret r.2.

(** [remove(block)] *)
Definition remove (block : ref) : M Queue unit :=
  let! b := deref block in
  match prev_free_block b, next_free_block b with
  | Some p, Some s =>
      set_next p (Some s) ;;;
      set_prev s (Some p) ;;;
      set_prev block None ;;;
      set_next block None ;;;
      add_num_free (-1)
  | _, _ => raise RuntimeError
  end.

(** [append(block)] *)
Definition append (block : ref) : M Queue unit :=
  let! tail := deref FakeTail in
  match prev_free_block tail with
  | None => raise RuntimeError
  | Some last =>
      set_next last (Some block) ;;;
      set_prev block (Some last) ;;;
      set_next block (Some FakeTail) ;;;
      set_prev FakeTail (Some block) ;;;
      add_num_free 1
  end.

(** The [for block in blocks] loop of [append_n]; returns [last_block]. *)
Fixpoint append_n_loop (last : ref) (blocks : list ref) : M Queue ref :=
  match blocks with
  | [] => ret last
  | b :: blocks =>
      set_prev b (Some last) ;;;
      set_next last (Some b) ;;;
      append_n_loop b blocks
  end.

(** [append_n(blocks)] *)
Definition append_n (blocks : list ref) : M Queue unit :=
  if len blocks =? 0 then ret tt else
  let! tail := deref FakeTail in
  match prev_free_block tail with
  | None => raise AssertionError
  | Some last =>
      let! last' := append_n_loop last blocks in
      set_next last' (Some FakeTail) ;;;
      set_prev FakeTail (Some last') ;;;
      add_num_free (len blocks)
  end.

(** The [while curr_block.next_free_block is not None] loop; [fuel] bounds
    the number of objects walked over. *)
Fixpoint walk (fuel : nat) (curr : ref) (acc : list ref) : M Queue (list ref) :=
  match fuel with
  | O => raise OutOfFuel
  | S fuel =>
      let! b := deref curr in
      match next_free_block b with
      | None => ret acc
      | Some nx => walk fuel nx (acc ++ [curr])
      end
  end.

(** [get_all_free_blocks()]; every object is visited at most once, so the
    size of the store is enough fuel. *)
Definition get_all_free_blocks : M Queue (list ref) :=
  let! head := deref FakeHead in
  match next_free_block head with
  | None => raise RuntimeError
  | Some first => λ q, walk (size (heap q)) first [] q
  end.

(** ** The representation predicate *)

Definition nxt (h : gmap ref KVCacheBlock) (r : ref) : option ref := h !! r ≫= next_free_block.
Definition prv (h : gmap ref KVCacheBlock) (r : ref) : option ref := h !! r ≫= prev_free_block.

(** Neighbours in [l] point at each other. *)
Fixpoint linked (h : gmap ref KVCacheBlock) (l : list ref) : Prop :=
  match l with
  | a :: ((b :: _) as t) => nxt h a = Some b ∧ prv h b = Some a ∧ linked h t
  | _ => True
  end.

(** The queue [q] holds exactly the blocks [l], in this order. *)
Record rep (q : Queue) (l : list nat) : Prop := {
  rep_linked : linked (heap q) (FakeHead :: (Blk <$> l) ++ [FakeTail]);
  rep_nodup : NoDup l;
  rep_num : num_free_blocks q = len l;
  rep_tail : nxt (heap q) FakeTail = None;
  rep_detached i : i ∉ l → nxt (heap q) (Blk i) = None ∧ prv (heap q) (Blk i) = None;
}.

(** What the queue operations leave alone: everything but the links. *)
Definition meta (b : KVCacheBlock) : Z * Z * option bytes * bool :=
  (block_id b, ref_cnt b, block_hash b, is_null b).
Definition same_meta (h h' : gmap ref KVCacheBlock) : Prop :=
  ∀ r, meta <$> h' !! r = meta <$> h !! r.

(** ** Store lemmas *)

Lemma nxt_with_next h r v r' :
  nxt (alter (with_next v) r h) r' = if decide (r = r' ∧ is_Some (h !! r)) then v else nxt h r'.
Proof.
  unfold nxt. rewrite lookup_alter. case_decide as Hd; case_decide as He; simplify_eq.
  - by destruct He as [_ [b ->]].
  - destruct (h !! r') as [b|]; [|done]. destruct He; eauto.
  - naive_solver.
  - done.
Qed.

Lemma prv_with_prev h r v r' :
  prv (alter (with_prev v) r h) r' = if decide (r = r' ∧ is_Some (h !! r)) then v else prv h r'.
Proof.
  unfold prv. rewrite lookup_alter. case_decide as Hd; case_decide as He; simplify_eq.
  - by destruct He as [_ [b ->]].
  - destruct (h !! r') as [b|]; [|done]. destruct He; eauto.
  - naive_solver.
  - done.
Qed.

Lemma prv_with_next h r v r' : prv (alter (with_next v) r h) r' = prv h r'.
Proof. unfold prv. rewrite lookup_alter. case_decide; simplify_eq; [by destruct (h !! r')|done]. Qed.

Lemma nxt_with_prev h r v r' : nxt (alter (with_prev v) r h) r' = nxt h r'.
Proof. unfold nxt. rewrite lookup_alter. case_decide; simplify_eq; [by destruct (h !! r')|done]. Qed.

Lemma nxt_with_next_ne h r v r' : r ≠ r' → nxt (alter (with_next v) r h) r' = nxt h r'.
Proof. intros. rewrite nxt_with_next, decide_False; naive_solver. Qed.

Lemma prv_with_prev_ne h r v r' : r ≠ r' → prv (alter (with_prev v) r h) r' = prv h r'.
Proof. intros. rewrite prv_with_prev, decide_False; naive_solver. Qed.

Lemma alive_alter {f : KVCacheBlock → KVCacheBlock} (h : gmap ref KVCacheBlock) r r' :
  is_Some (alter f r h !! r') ↔ is_Some (h !! r').
Proof. rewrite lookup_alter. case_decide; subst; [by rewrite fmap_is_Some|done]. Qed.

Lemma nxt_alive h r r' : nxt h r = Some r' → is_Some (h !! r).
Proof. unfold nxt. destruct (h !! r); [by eauto|done]. Qed.

Lemma prv_alive h r r' : prv h r = Some r' → is_Some (h !! r).
Proof. unfold prv. destruct (h !! r); [by eauto|done]. Qed.

Lemma same_meta_refl h : same_meta h h.
Proof. done. Qed.

Lemma same_meta_trans h1 h2 h3 : same_meta h1 h2 → same_meta h2 h3 → same_meta h1 h3.
Proof. intros H1 H2 r. by rewrite H2, H1. Qed.

Lemma same_meta_alter (h h' : gmap ref KVCacheBlock) r (f : KVCacheBlock → KVCacheBlock) :
  (∀ b, meta (f b) = meta b) → same_meta h h' → same_meta h (alter f r h').
Proof.
  intros Hf H r'. rewrite lookup_alter. case_decide; subst; [|apply H].
  rewrite <-H. destruct (h' !! r'); simpl; [by rewrite Hf|done].
Qed.

Lemma same_meta_next h h' r v : same_meta h h' → same_meta h (alter (with_next v) r h').
Proof. by apply same_meta_alter. Qed.

Lemma same_meta_prev h h' r v : same_meta h h' → same_meta h (alter (with_prev v) r h').
Proof. by apply same_meta_alter. Qed.

Lemma same_meta_alive (h h' : gmap ref KVCacheBlock) r : same_meta h h' → is_Some (h' !! r) ↔ is_Some (h !! r).
Proof. intros H. specialize (H r). destruct (h !! r), (h' !! r); naive_solver. Qed.

Lemma wp_deref r Q q b :
  heap q !! r = Some b → Q b q → wp (deref r) Q q.
Proof. intros Hb HQ. unfold wp, deref. by rewrite Hb. Qed.

Lemma wp_set_next r v Q q :
  Q tt (MkQueue (alter (with_next v) r (heap q)) (num_free_blocks q)) → wp (set_next r v) Q q.
Proof. done. Qed.

Lemma wp_set_prev r v Q q :
  Q tt (MkQueue (alter (with_prev v) r (heap q)) (num_free_blocks q)) → wp (set_prev r v) Q q.
Proof. done. Qed.

Lemma wp_add_num_free n Q q :
  Q tt (MkQueue (heap q) (num_free_blocks q + n)) → wp (add_num_free n) Q q.
Proof. done. Qed.

(** Runs straight-line store code. *)
Ltac queue_steps :=
  repeat (first [wp_step | apply wp_set_next | apply wp_set_prev | apply wp_add_num_free]);
  unfold upd; cbn [heap num_free_blocks fst snd].

(** ** Segments *)

Lemma linked_app h xs y ys :
  linked h (xs ++ y :: ys) ↔ linked h (xs ++ [y]) ∧ linked h (y :: ys).
Proof.
  induction xs as [|a [|b xs] IH]; simpl in *; [tauto| tauto |].
  rewrite IH. tauto.
Qed.

Lemma linked_cons2 h a b t :
  linked h (a :: b :: t) ↔ nxt h a = Some b ∧ prv h b = Some a ∧ linked h (b :: t).
Proof. done. Qed.

(** A segment survives a write outside of it, to the forward link of its last
    node or to the backward link of its first one. *)
Lemma linked_next_notin h r v l : r ∉ l → linked h l → linked (alter (with_next v) r h) l.
Proof.
  induction l as [|a [|b l] IH]; intros Hr Hl; [done..|].
  destruct Hl as (H1 & H2 & H3). rewrite linked_cons2, prv_with_next.
  rewrite nxt_with_next_ne by set_solver. split_and!; auto. apply IH; [set_solver|done].
Qed.

Lemma linked_prev_notin h r v l : r ∉ l → linked h l → linked (alter (with_prev v) r h) l.
Proof.
  induction l as [|a [|b l] IH]; intros Hr Hl; [done..|].
  destruct Hl as (H1 & H2 & H3). rewrite linked_cons2, nxt_with_prev.
  rewrite prv_with_prev_ne by set_solver. split_and!; auto. apply IH; [set_solver|done].
Qed.

Lemma linked_next_last h r v l :
  r ∉ l → linked h (l ++ [r]) → linked (alter (with_next v) r h) (l ++ [r]).
Proof.
  induction l as [|a [|b l] IH]; intros Hr Hl; [done| |]; simpl app in *;
    destruct Hl as (H1 & H2 & H3); rewrite linked_cons2, prv_with_next;
    rewrite nxt_with_next_ne by set_solver; split_and!; auto.
  apply IH; [set_solver|done].
Qed.

Lemma linked_prev_first h r v l :
  r ∉ l → linked h (r :: l) → linked (alter (with_prev v) r h) (r :: l).
Proof.
  destruct l as [|b l]; intros Hr Hl; [done|]. destruct Hl as (H1 & H2 & H3).
  rewrite linked_cons2, nxt_with_prev, prv_with_prev_ne by set_solver.
  split_and!; auto. by apply linked_prev_notin.
Qed.

Create HintDb links.
#[export] Hint Resolve linked_next_notin linked_prev_notin linked_next_last
  linked_prev_first same_meta_next same_meta_prev same_meta_refl : links.

(** A node with two neighbours is unlinked by joining them. *)
Definition unlink (p x s : ref) (h : gmap ref KVCacheBlock) : gmap ref KVCacheBlock :=
  alter (with_next None) x (alter (with_prev None) x
    (alter (with_prev (Some p)) s (alter (with_next (Some s)) p h))).

Lemma linked_unlink h xs p x s ys :
  NoDup (xs ++ p :: x :: s :: ys) →
  linked h (xs ++ p :: x :: s :: ys) →
  linked (unlink p x s h) (xs ++ p :: s :: ys).
Proof.
  intros Hnd. rewrite linked_app. intros [Hl (Hpx & Hxp & Hxs & Hsx & Hr)].
  apply NoDup_app in Hnd as (Hnd1 & Hdis & Hnd2).
  rewrite !NoDup_cons in Hnd2. destruct Hnd2 as (Hp & Hx & Hs & Hnd2).
  assert (x ∉ xs ∧ s ∉ xs ∧ p ∉ xs) as (? & ? & ?) by set_solver.
  unfold unlink. rewrite linked_app. split; [|rewrite linked_cons2; split_and!].
  - apply linked_next_notin, linked_prev_notin, linked_prev_notin, linked_next_last; set_solver.
  - rewrite nxt_with_next_ne by set_solver. rewrite !nxt_with_prev, nxt_with_next.
    apply decide_True. split; [done|by eapply nxt_alive].
  - rewrite prv_with_next, prv_with_prev_ne by set_solver. rewrite prv_with_prev.
    apply decide_True. split; [done|]. apply alive_alter. by eapply prv_alive.
  - apply linked_next_notin, linked_prev_notin, linked_prev_first, linked_next_notin; set_solver.
Qed.

Lemma unlink_clears p x s (h : gmap ref KVCacheBlock) :
  p ≠ x → s ≠ x → is_Some (h !! x) →
  nxt (unlink p x s h) x = None ∧ prv (unlink p x s h) x = None.
Proof.
  intros Hp Hs Hx. unfold unlink. split.
  - rewrite nxt_with_next, decide_True; [done|]. by rewrite !alive_alter.
  - rewrite prv_with_next, prv_with_prev, decide_True; [done|]. by rewrite !alive_alter.
Qed.

Lemma unlink_frame p x s h r :
  r ≠ p → r ≠ x → nxt (unlink p x s h) r = nxt h r.
Proof.
  intros. unfold unlink. rewrite nxt_with_next_ne by done.
  by rewrite !nxt_with_prev, nxt_with_next_ne.
Qed.

Lemma unlink_frame_prev p x s h r :
  r ≠ s → r ≠ x → prv (unlink p x s h) r = prv h r.
Proof.
  intros. unfold unlink. rewrite prv_with_next, !prv_with_prev_ne by done.
  by rewrite prv_with_next.
Qed.

Lemma unlink_meta p x s h : same_meta h (unlink p x s h).
Proof. unfold unlink. auto 10 with links. Qed.

(** ** Operations against the representation *)

Lemma nodup_nodes l : NoDup l → NoDup (FakeHead :: (Blk <$> l) ++ [FakeTail]).
Proof.
  intros Hl. apply NoDup_cons. split; [set_solver|].
  apply NoDup_app. split_and!; [by apply NoDup_fmap; [apply _|]|set_solver|apply NoDup_singleton].
Qed.

Lemma nodup_middle {A} (xs : list A) x ys : NoDup (xs ++ x :: ys) → NoDup (xs ++ ys) ∧ x ∉ xs ++ ys.
Proof. intros H. rewrite <-Permutation_middle, NoDup_cons in H. tauto. Qed.

(** The successor of a node is the head of what follows it. *)
Lemma next_node l : ∃ s t, (Blk <$> l) ++ [FakeTail] = s :: t.
Proof. destruct l; simpl; eauto. Qed.

Lemma next_node_ne l s t j : (Blk <$> l) ++ [FakeTail] = s :: t → j ∉ l → s ≠ Blk j.
Proof. destruct l; intros [= <- <-]; [done|]. intros Hj [= ->]. apply Hj. by left. Qed.

Lemma prev_node l : ∃ t p, FakeHead :: (Blk <$> l) = t ++ [p].
Proof.
  destruct l as [|i l _] using rev_ind; [by exists [], FakeHead|].
  rewrite fmap_app. by exists (FakeHead :: (Blk <$> l)), (Blk i).
Qed.

(** Unlinking the block [i] of the queue, whatever its neighbours are. *)
Lemma rep_unlink q l1 i l2 :
  rep q (l1 ++ i :: l2) →
  ∃ p s, nxt (heap q) (Blk i) = Some s ∧ prv (heap q) (Blk i) = Some p ∧
    (l1 = [] → p = FakeHead) ∧
    (∀ n, n = num_free_blocks q - 1 → rep (MkQueue (unlink p (Blk i) s (heap q)) n) (l1 ++ l2)).
Proof.
  intros [Hl Hnd Hn Ht Hd].
  destruct (next_node l2) as (s & t2 & Hs), (prev_node l1) as (t1 & p & Hp).
  assert (FakeHead :: (Blk <$> l1 ++ i :: l2) ++ [FakeTail] = t1 ++ p :: Blk i :: s :: t2) as Heq.
  { rewrite fmap_app, fmap_cons, <-app_assoc. simpl. rewrite Hs.
    rewrite app_comm_cons, Hp, <-app_assoc. done. }
  assert (FakeHead :: (Blk <$> l1 ++ l2) ++ [FakeTail] = t1 ++ p :: s :: t2) as Heq'.
  { rewrite fmap_app, <-app_assoc, Hs, app_comm_cons, Hp, <-app_assoc. done. }
  pose proof (nodup_nodes _ Hnd) as Hnd'. rewrite Heq in Hl, Hnd'.
  pose proof (linked_unlink _ _ _ _ _ _ Hnd' Hl) as Hl'.
  apply linked_app in Hl as [_ (Hpx & Hxp & Hxs & Hsx & _)].
  apply NoDup_app in Hnd' as (_ & Hdis & Hnd'). rewrite !NoDup_cons in Hnd'.
  destruct Hnd' as (Hpn & Hxn & Hsn & _).
  assert (Blk i ≠ p ∧ Blk i ≠ s) as [Hip His] by set_solver.
  assert (FakeTail ≠ p) as Htp.
  { intros <-. assert (FakeTail ∈ FakeHead :: (Blk <$> l1)) by (rewrite Hp; set_solver). set_solver. }
  apply nodup_middle in Hnd as [Hnd Hi].
  exists p, s. split_and!; [done..| |].
  { intros ->. simpl in Hp. destruct t1 as [|? []]; by simplify_eq/=. }
  intros n ->. constructor; cbn [heap num_free_blocks].
  - by rewrite Heq'.
  - done.
  - rewrite Hn, !len_app, len_cons. lia.
  - by rewrite unlink_frame.
  - intros j Hj. destruct (decide (j = i)) as [->|Hji].
    + apply unlink_clears; [done..|by eapply nxt_alive].
    + assert (j ∉ l1 ++ i :: l2) as Hj' by set_solver. destruct (Hd j Hj') as [Hjn Hjp].
      assert (Blk j ∉ t1 ++ p :: Blk i :: s :: t2) as Hjj.
      { rewrite <-Heq. clear -Hj'. set_solver. }
      rewrite unlink_frame, unlink_frame_prev by set_solver. done.
Qed.

Lemma nxt_inv h r r' : nxt h r = Some r' → ∃ b, h !! r = Some b ∧ next_free_block b = Some r'.
Proof. unfold nxt. destruct (h !! r); [by eauto|done]. Qed.

(** The fields of a node, read off the two link functions. *)
Lemma node_inv h r o o' :
  nxt h r = o → prv h r = o' → is_Some (h !! r) →
  ∃ b, h !! r = Some b ∧ next_free_block b = o ∧ prev_free_block b = o'.
Proof. unfold nxt, prv. intros <- <- [b ->]. by exists b. Qed.

Lemma rep_head q i l : rep q (i :: l) → nxt (heap q) FakeHead = Some (Blk i).
Proof. intros [H _ _ _ _]. apply H. Qed.

Lemma popleft_rep q i l :
  rep q (i :: l) →
  wp popleft (λ r q', r = Blk i ∧ rep q' l ∧ same_meta (heap q) (heap q')) q.
Proof.
  intros Hrep. destruct (rep_unlink q [] i l Hrep) as (p & s & Hs & Hp & Hp' & Hrep').
  rewrite Hp' in * by done.
  destruct (nxt_inv _ _ _ (rep_head _ _ _ Hrep)) as (hd & Hhd & Hhdn).
  destruct (nxt_inv _ _ _ Hs) as (b & Hb & Hbn).
  unfold popleft. wp_step. eapply wp_deref; [done|]. rewrite Hhdn.
  wp_step. eapply wp_deref; [done|]. rewrite Hbn. queue_steps.
  split_and!; [done|apply Hrep'; lia|apply unlink_meta].
Qed.

Lemma popleft_empty q : rep q [] → popleft q = (Raise ValueError, q).
Proof.
  intros [Hl _ Hn _ _]. simpl in Hl. destruct Hl as [Hl _].
  destruct (nxt_inv _ _ _ Hl) as (hd & Hhd & Hhdn).
  unfold popleft, bind, deref. rewrite Hhd, Hhdn. unfold gets, py_assert.
  by rewrite Hn.
Qed.

Lemma remove_rep q l1 i l2 :
  rep q (l1 ++ i :: l2) →
  wp (remove (Blk i)) (λ _ q', rep q' (l1 ++ l2) ∧ same_meta (heap q) (heap q')) q.
Proof.
  intros Hrep. destruct (rep_unlink q l1 i l2 Hrep) as (p & s & Hs & Hp & _ & Hrep').
  destruct (node_inv _ _ _ _ Hs Hp) as (b & Hb & Hbn & Hbp); [by eapply nxt_alive|].
  unfold remove. wp_step. eapply wp_deref; [done|]. rewrite Hbn, Hbp. queue_steps.
  split; [apply Hrep'; lia|apply unlink_meta].
Qed.

Lemma remove_absent q l i :
  rep q l → i ∉ l → is_Some (heap q !! Blk i) → remove (Blk i) q = (Raise RuntimeError, q).
Proof.
  intros Hrep Hi [b Hb]. destruct (rep_detached _ _ Hrep i Hi) as [Hn Hp].
  unfold nxt, prv in *. rewrite Hb in *. simpl in *.
  unfold remove, bind, deref. by rewrite Hb, Hn, Hp.
Qed.

(** The nodes from a point of the queue to its end. *)
Definition nodes (l : list nat) : list ref := (Blk <$> l) ++ [FakeTail].

Lemma nodes_notin i l : i ∉ l → Blk i ∉ nodes l.
Proof.
  intros Hi [(j & [= <-] & Hj)%list_elem_of_fmap|Hj%list_elem_of_singleton]%elem_of_app; done.
Qed.

(** Heaps that differ only in the links of the nodes [rs]. *)
Definition frame (h h' : gmap ref KVCacheBlock) (rs : list ref) : Prop :=
  ∀ r, r ∉ rs → nxt h' r = nxt h r ∧ prv h' r = prv h r.

(** [popleft_n]'s loop takes [n] blocks off the front, clearing their links. *)
Lemma popleft_n_loop_spec n l q acc :
  (n ≤ length l)%nat → NoDup l → linked (heap q) (nodes l) →
  wp (popleft_n_loop n (head (nodes l)) acc) (λ r q',
    r = (head (nodes (drop n l)), acc ++ (Blk <$> take n l)) ∧
    linked (heap q') (nodes (drop n l)) ∧
    num_free_blocks q' = num_free_blocks q ∧
    same_meta (heap q) (heap q') ∧
    frame (heap q) (heap q') (Blk <$> take n l) ∧
    (∀ j, j ∈ take n l → nxt (heap q') (Blk j) = None ∧ prv (heap q') (Blk j) = None)) q.
Proof.
  revert l q acc. induction n as [|n IH]; intros l q acc Hn Hnd Hl.
  { simpl. apply wp_ret. rewrite app_nil_r. split_and!; auto with links; [done|set_solver]. }
  destruct l as [|i l]; [simpl in Hn; lia|]. simpl in Hn. apply NoDup_cons in Hnd as [Hi Hnd].
  destruct (next_node l) as (s & t & Hs).
  assert (nodes (i :: l) = Blk i :: s :: t ∧ head (nodes l) = Some s) as [Hno Hh].
  { change (nodes (i :: l)) with (Blk i :: nodes l). unfold nodes. by rewrite Hs. }
  rewrite Hno in Hl. destruct Hl as (Hx & Hx' & Hl).
  assert (linked (heap q) (nodes l)) as Hl' by (unfold nodes; by rewrite Hs).
  destruct (nxt_inv _ _ _ Hx) as (b & Hb & Hbn).
  simpl. wp_step. eapply wp_deref; [done|]. queue_steps. rewrite Hbn, <-Hh.
  pose proof (nodes_notin _ _ Hi).
  eapply wp_mono; [apply IH; [lia|done|]|]; cbn [heap num_free_blocks].
  { auto with links. }
  intros r q' (-> & H1 & H2 & H3 & H4 & H5).
  split_and!; [by rewrite <-app_assoc|done..| | |].
  - eapply same_meta_trans; [|done]. auto with links.
  - intros r [Hr1 Hr2]%not_elem_of_cons. destruct (H4 r Hr2) as [-> ->].
    by rewrite nxt_with_next_ne, prv_with_next, nxt_with_prev, prv_with_prev_ne by done.
  - intros j [->|Hj]%elem_of_cons; [|by apply H5].
    destruct (H4 (Blk i)) as [-> ->].
    { intros (j & [= <-] & (k & Hk & _)%elem_of_take)%list_elem_of_fmap.
      apply Hi. by eapply list_elem_of_lookup_2. }
    rewrite nxt_with_next, prv_with_next, prv_with_prev, !decide_True; [done|..];
      rewrite ?alive_alter; eauto.
Qed.

(** Closing a gap: the sentinel is linked to the node in front of the rest. *)
Lemma linked_join h a l s t :
  l = s :: t → a ∉ l → s ∉ t → is_Some (h !! a) → is_Some (h !! s) → linked h l →
  linked (alter (with_prev (Some a)) s (alter (with_next (Some s)) a h)) (a :: l).
Proof.
  intros -> Ha Hs Haa Hsa Hl. rewrite linked_cons2. split_and!.
  - by rewrite nxt_with_prev, nxt_with_next, decide_True.
  - rewrite prv_with_prev, decide_True; [done|]. by rewrite alive_alter.
  - auto with links.
Qed.

Lemma linked_alive_tail h l : linked h (FakeHead :: nodes l) → is_Some (h !! FakeTail).
Proof.
  unfold nodes. destruct l as [|i l _] using rev_ind; [intros (_ & H & _); by eapply prv_alive|].
  rewrite fmap_app, <-app_assoc. intros Hl.
  rewrite app_comm_cons in Hl. apply linked_app in Hl as [_ (_ & H & _)]. by eapply prv_alive.
Qed.

Lemma linked_alive h l i : linked h (FakeHead :: nodes l) → i ∈ l → is_Some (h !! Blk i).
Proof.
  intros Hl (l1 & l2 & ->)%list_elem_of_split. unfold nodes in Hl.
  rewrite fmap_app, fmap_cons, <-app_assoc, <-app_comm_cons in Hl.
  destruct (next_node l2) as (s & t & Hs). rewrite Hs, app_comm_cons in Hl.
  apply linked_app in Hl as [_ (H & _)]. by eapply nxt_alive.
Qed.

Lemma rep_alive q l i : rep q l → i ∈ l → is_Some (heap q !! Blk i).
Proof. intros [Hl _ _ _ _]. by apply linked_alive. Qed.

Lemma popleft_n_rep q l n :
  rep q l → 0 ≤ n ≤ len l →
  wp (popleft_n n) (λ rs q', rs = Blk <$> take (Z.to_nat n) l ∧
    rep q' (drop (Z.to_nat n) l) ∧ same_meta (heap q) (heap q')) q.
Proof.
  intros Hrep Hn. unfold popleft_n. destruct (Z.eqb_spec n 0) as [->|Hn0].
  { apply wp_ret. split_and!; auto with links. }
  pose proof Hrep as [Hl Hnd Hnum Ht Hd]. fold (nodes l) in Hl.
  assert (Hhead : nxt (heap q) FakeHead = head (nodes l) ∧ linked (heap q) (nodes l)).
  { destruct (next_node l) as (s & t & Hs). unfold nodes in *. rewrite Hs in *. by destruct Hl as (?&?&?). }
  destruct Hhead as [Hh Hl'].
  destruct (node_inv _ _ _ _ Hh eq_refl) as (hd & Hhd & Hhdn & _).
  { destruct (next_node l) as (s & t & Hs). unfold nodes in Hh. rewrite Hs in Hh. by eapply nxt_alive. }
  do 2 wp_step. wp_step. apply wp_assert; [lia|]. queue_steps.
  eapply wp_deref; [done|]. wp_step. rewrite Hhdn.
  set (k := Z.to_nat n). assert (k ≤ length l)%nat by (unfold len in *; lia).
  eapply wp_mono; [by apply popleft_n_loop_spec|]. cbn [heap num_free_blocks].
  intros r q' (-> & H1 & H2 & H3 & H4 & H5). cbn [fst snd app].
  destruct (next_node (drop k l)) as (s & t & Hs). unfold nodes at 1. rewrite Hs. cbn [head].
  queue_steps.
  assert (NoDup (drop k l)) as Hndd.
  { rewrite <-(take_drop k l) in Hnd. apply NoDup_app in Hnd. tauto. }
  pose proof (nodup_nodes _ Hndd) as Hnd'.
  rewrite Hs, !NoDup_cons in Hnd'. destruct Hnd' as (Hf & Hst & _).
  assert (is_Some (heap q' !! s)) as Hsa.
  { apply (same_meta_alive (heap q)); [done|]. destruct (drop k l) as [|j d] eqn:Edr; simplify_eq/=.
    - by eapply linked_alive_tail.
    - eapply linked_alive; [done|]. rewrite <-(take_drop k l), Edr. set_solver. }
  assert (is_Some (heap q' !! FakeHead)) by (apply (same_meta_alive (heap q)); eauto).
  split_and!; [done| |eapply same_meta_trans; [done|auto with links]].
  constructor; cbn [heap num_free_blocks].
  - rewrite Hs. apply (linked_join _ _ _ s t); [done..|]. by rewrite <-Hs.
  - done.
  - rewrite H2, Hnum. unfold len. rewrite length_drop. lia.
  - rewrite nxt_with_prev, nxt_with_next_ne by done. destruct (H4 FakeTail) as [-> _]; [set_solver|done].
  - intros j Hj. pose proof (next_node_ne _ _ _ _ Hs Hj).
    rewrite nxt_with_prev, nxt_with_next_ne, prv_with_prev_ne, prv_with_next by done.
    destruct (decide (j ∈ take k l)) as [|Hj']; [by apply H5|].
    destruct (H4 (Blk j)) as [-> ->]; [by intros (? & [= <-] & ?)%list_elem_of_fmap|].
    apply Hd. rewrite <-(take_drop k l). by intros []%elem_of_app.
Qed.

Lemma popleft_n_short q l n :
  rep q l → len l < n → popleft_n n q = (Raise AssertionError, q).
Proof.
  intros [_ _ Hn _ _] Hlt. pose proof (len_nonneg l).
  unfold popleft_n. destruct (Z.eqb_spec n 0); [lia|].
  unfold bind, gets, py_assert. destruct (Z.leb_spec n (num_free_blocks q)); [lia|done].
Qed.

(** Linking the sentinel behind the last node closes the queue. *)
Lemma rep_close h n l ys z :
  NoDup l → FakeHead :: (Blk <$> l) = ys ++ [z] → linked h (ys ++ [z]) →
  is_Some (h !! z) → is_Some (h !! FakeTail) → nxt h FakeTail = None → n = len l →
  (∀ j, j ∉ l → nxt h (Blk j) = None ∧ prv h (Blk j) = None) →
  rep (MkQueue (alter (with_prev (Some z)) FakeTail (alter (with_next (Some FakeTail)) z h)) n) l.
Proof.
  intros Hnd Heq Hl Hz Htl Hnt -> Hd. pose proof (nodup_nodes _ Hnd) as Hnd'.
  rewrite app_comm_cons, Heq in Hnd'. apply NoDup_app in Hnd' as (Hnd1 & Htail & _).
  apply NoDup_app in Hnd1 as (_ & Hzy & _).
  assert (z ≠ FakeTail) as Hzt.
  { intros ->. apply (Htail FakeTail); [apply elem_of_app; right|]; by left. }
  assert (z ∉ ys) by (intros H%Hzy; apply H; by left).
  assert (FakeTail ∉ ys ++ [z]) by (intros H0%Htail; apply H0; by left).
  constructor; cbn [heap num_free_blocks]; [|done..| |].
  - rewrite app_comm_cons, Heq, <-app_assoc. apply linked_app. split.
    + apply linked_prev_notin; [done|]. by apply linked_next_last.
    + simpl. rewrite nxt_with_prev, nxt_with_next, prv_with_prev, !decide_True; [done|..];
        by rewrite ?alive_alter.
  - by rewrite nxt_with_prev, nxt_with_next_ne.
  - intros j Hj. assert (z ≠ Blk j).
    { intros ->. assert (Blk j ∈ FakeHead :: (Blk <$> l)) as Hin.
      { rewrite Heq. apply elem_of_app. right. by left. }
      apply elem_of_cons in Hin as [?|(i & [= <-] & ?)%list_elem_of_fmap]; done. }
    rewrite nxt_with_prev, nxt_with_next_ne, prv_with_prev_ne, prv_with_next by done. by apply Hd.
Qed.

(** The last node of a queue and what is known of it. *)
Lemma rep_last q l :
  rep q l → ∃ ys p, FakeHead :: (Blk <$> l) = ys ++ [p] ∧ p ≠ FakeTail ∧ (∀ j, j ∉ l → p ≠ Blk j) ∧
    linked (heap q) (ys ++ [p]) ∧ is_Some (heap q !! p) ∧
    ∃ tl, heap q !! FakeTail = Some tl ∧ prev_free_block tl = Some p.
Proof.
  intros [Hl Hnd _ Ht Hd]. destruct (prev_node l) as (ys & p & Hp). exists ys, p.
  rewrite app_comm_cons, Hp, <-app_assoc in Hl. apply linked_app in Hl as [Hl1 (Hpt & Htp & _)].
  split_and!; [done|congruence| |done|by eapply nxt_alive|].
  - intros j Hj ->. destruct (Hd j Hj). congruence.
  - unfold prv in Htp. destruct (heap q !! FakeTail) as [tl|]; [|done]. by exists tl.
Qed.

(** [append_n]'s loop links the new blocks behind [y]. *)
Lemma append_n_loop_spec bs xs y q :
  NoDup (xs ++ y :: bs) → (∀ b, b ∈ y :: bs → is_Some (heap q !! b)) →
  linked (heap q) (xs ++ [y]) →
  wp (append_n_loop y bs) (λ z q',
    z ∈ y :: bs ∧ (∃ ys, xs ++ y :: bs = ys ++ [z]) ∧ linked (heap q') (xs ++ y :: bs) ∧
    num_free_blocks q' = num_free_blocks q ∧ same_meta (heap q) (heap q') ∧
    frame (heap q) (heap q') (y :: bs)) q.
Proof.
  revert xs y q. induction bs as [|b bs IH]; intros xs y q Hnd Ha Hl.
  { apply wp_ret. split_and!; auto with links; [by left|by eexists|done]. }
  simpl append_n_loop. queue_steps.
  assert (y ∉ xs ∧ b ∉ xs ∧ b ≠ y) as (Hyx & Hbx & Hby).
  { apply NoDup_app in Hnd as (_ & Hdis & Hnd). apply NoDup_cons in Hnd as [Hy Hnd].
    split_and!; [intros H%Hdis; apply H; by left|intros H%Hdis; apply H; right; by left|].
    intros ->. apply Hy. by left. }
  eapply wp_mono; [apply (IH (xs ++ [y]))|]; cbn [heap num_free_blocks].
  - by rewrite <-app_assoc.
  - intros r Hr. rewrite !alive_alter. apply Ha. by right.
  - rewrite <-app_assoc. simpl. apply linked_app. split.
    + apply linked_next_last; [done|]. apply linked_prev_notin; [|done].
      intros [?|?%list_elem_of_singleton]%elem_of_app; done.
    + simpl. rewrite nxt_with_next, prv_with_next, prv_with_prev, !decide_True; [done|..];
        rewrite ?alive_alter; (split; [done|]); apply Ha; [right|]; left.
  - intros z q' (Hz & [ys Hys] & H1 & H2 & H3 & H4). rewrite <-app_assoc in H1, Hys.
    split_and!; [by right|by exists ys|done..| |].
    + eapply same_meta_trans; [|done]. auto with links.
    + intros r [Hr1 Hr2]%not_elem_of_cons. destruct (H4 r Hr2) as [-> ->].
      apply not_elem_of_cons in Hr2 as [Hr2 _].
      by rewrite nxt_with_next_ne, nxt_with_prev, prv_with_next, prv_with_prev_ne.
Qed.

Lemma append_n_rep q l bs :
  rep q l → NoDup (l ++ bs) → (∀ i, i ∈ bs → is_Some (heap q !! Blk i)) →
  wp (append_n (Blk <$> bs)) (λ _ q', rep q' (l ++ bs) ∧ same_meta (heap q) (heap q')) q.
Proof.
  intros Hrep Hnd Halive. unfold append_n. rewrite len_fmap.
  destruct (Z.eqb_spec (len bs) 0) as [Hz|Hz].
  { destruct bs; [|rewrite len_cons in Hz; pose proof (len_nonneg bs); lia].
    rewrite app_nil_r. apply wp_ret. auto with links. }
  destruct (rep_last _ _ Hrep) as (t & p & Hp & Hpt & Hpj & Hl & Hpa & tl & Htl & Htp).
  wp_step. eapply wp_deref; [done|]. rewrite Htp. wp_step.
  assert (FakeHead :: (Blk <$> l ++ bs) = t ++ p :: (Blk <$> bs)) as Hall.
  { rewrite fmap_app, app_comm_cons, Hp, <-app_assoc. done. }
  pose proof (nodup_nodes _ Hnd) as Hnd1. rewrite app_comm_cons, Hall in Hnd1.
  apply NoDup_app in Hnd1 as (Hnd1 & _ & _).
  assert (Hal : ∀ b, b ∈ p :: (Blk <$> bs) → is_Some (heap q !! b)).
  { intros r [->|(i & -> & Hi)%list_elem_of_fmap]%elem_of_cons; auto. }
  eapply wp_mono; [by apply (append_n_loop_spec _ t)|].
  intros z q' (Hz' & [ys Hys] & H1 & H2 & H3 & H4). queue_steps.
  split; [|eapply same_meta_trans; [done|auto with links]].
  destruct Hrep as [_ _ Hnum Ht Hd].
  apply (rep_close _ _ _ ys); [done|by rewrite Hall|by rewrite <-Hys|..].
  - apply (same_meta_alive (heap q)); auto.
  - apply (same_meta_alive (heap q)); [done|by eexists].
  - destruct (H4 FakeTail) as [-> _]; [|done].
    by intros [<-|(i & ? & _)%list_elem_of_fmap]%elem_of_cons.
  - rewrite H2, Hnum, len_app. lia.
  - intros j [Hj1 Hj2]%not_elem_of_app. destruct (H4 (Blk j)) as [-> ->]; [|by apply Hd].
    intros [<-|(i & [= <-] & Hi)%list_elem_of_fmap]%elem_of_cons; [|done]. by apply (Hpj j).
Qed.

Lemma append_rep q l i :
  rep q l → i ∉ l → is_Some (heap q !! Blk i) →
  wp (append (Blk i)) (λ _ q', rep q' (l ++ [i]) ∧ same_meta (heap q) (heap q')) q.
Proof.
  intros Hrep Hi Ha.
  destruct (rep_last _ _ Hrep) as (t & p & Hp & Hpt & Hpj & Hl & Hpa & tl & Htl & Htp).
  destruct Hrep as [_ Hndl Hnum Ht Hd].
  unfold append. wp_step. eapply wp_deref; [done|]. rewrite Htp. queue_steps.
  split; [|auto 10 with links].
  assert (Blk i ∉ t ++ [p]) as Hit.
  { rewrite <-Hp. by intros [?|(j & [= <-] & ?)%list_elem_of_fmap]%elem_of_cons. }
  assert (p ∉ t) as Hpt'.
  { pose proof (nodup_nodes _ Hndl) as Hn. rewrite app_comm_cons, Hp in Hn.
    apply NoDup_app in Hn as (Hn & _ & _). apply NoDup_app in Hn as (_ & Hn & _).
    intros H%Hn. apply H. by left. }
  apply (rep_close _ _ _ (t ++ [p])).
  - apply NoDup_app. split_and!; [done| |apply NoDup_singleton].
    by intros j Hj ->%list_elem_of_singleton.
  - by rewrite fmap_app, app_comm_cons, Hp.
  - rewrite <-app_assoc. apply linked_app. split.
    + apply linked_prev_notin; [done|]. by apply linked_next_last.
    + simpl. rewrite nxt_with_prev, nxt_with_next, prv_with_prev, !decide_True; [done|..];
        by rewrite ?alive_alter.
  - by rewrite !alive_alter.
  - rewrite !alive_alter. by eexists.
  - by rewrite nxt_with_prev, nxt_with_next_ne.
  - rewrite Hnum, len_app. done.
  - intros j [Hj1 Hj2%not_elem_of_cons]%not_elem_of_app.
    rewrite nxt_with_prev, nxt_with_next_ne, prv_with_prev_ne, prv_with_next by naive_solver.
    by apply Hd.
Qed.

Lemma walk_spec fuel l q acc :
  (length l < fuel)%nat → linked (heap q) (nodes l) → is_Some (heap q !! FakeTail) →
  nxt (heap q) FakeTail = None →
  ∀ c, head (nodes l) = Some c → walk fuel c acc q = (Ok (acc ++ (Blk <$> l)), q).
Proof.
  revert l acc. induction fuel as [|fuel IH]; intros l acc Hlen Hl [tl Htl] Ht c Hc; [lia|].
  destruct l as [|i l].
  - injection Hc as <-. simpl. unfold bind, deref. rewrite Htl.
    unfold nxt in Ht. rewrite Htl in Ht. simpl in Ht. by rewrite Ht, app_nil_r.
  - injection Hc as <-. destruct (next_node l) as (s & t & Hs).
    assert (nxt (heap q) (Blk i) = Some s ∧ linked (heap q) (nodes l)) as [Hx Hl'].
    { change (nodes (i :: l)) with (Blk i :: nodes l) in Hl. unfold nodes in *.
      rewrite Hs in *. by destruct Hl as (?&?&?). }
    destruct (nxt_inv _ _ _ Hx) as (b & Hb & Hbn).
    simpl walk. unfold bind, deref. rewrite Hb, Hbn.
    rewrite (IH l); [by rewrite <-app_assoc|simpl in Hlen; lia|done|by eexists|done|].
    unfold nodes. by rewrite Hs.
Qed.

Lemma rep_fuel q l : rep q l → (length l < size (heap q))%nat.
Proof.
  intros [Hl Hnd _ _ _]. pose proof (linked_alive_tail _ _ Hl) as Ht.
  rewrite <-(size_dom (D := gset ref)).
  assert (NoDup (nodes l)) as Hnd' by (apply nodup_nodes, NoDup_cons in Hnd as [_ ?]; done).
  assert (length (nodes l) = S (length l)) as Hlen.
  { unfold nodes. rewrite length_app, length_fmap. simpl. lia. }
  enough (size (list_to_set (nodes l) : gset ref) ≤ size (dom (heap q)))%nat as Hle.
  { rewrite size_list_to_set in Hle by done. lia. }
  apply subseteq_size. intros r Hr%elem_of_list_to_set. apply elem_of_dom.
  apply elem_of_app in Hr as [(i & -> & Hi)%list_elem_of_fmap|Hr%list_elem_of_singleton];
    [by eapply linked_alive|by subst].
Qed.

(** [get_all_free_blocks] terminates and lists the queue from front to back. *)
Lemma get_all_free_blocks_rep q l :
  rep q l → get_all_free_blocks q = (Ok (Blk <$> l), q).
Proof.
  intros Hrep. pose proof (rep_fuel _ _ Hrep). pose proof Hrep as [Hl _ _ Ht _].
  destruct (next_node l) as (s & t & Hs).
  pose proof (linked_alive_tail _ _ Hl).
  assert (nxt (heap q) FakeHead = Some s ∧ linked (heap q) (nodes l)) as [Hx Hl'].
  { unfold nodes. rewrite Hs in *. by destruct Hl as (?&?&?). }
  destruct (nxt_inv _ _ _ Hx) as (hd & Hhd & Hhdn).
  unfold get_all_free_blocks, bind, deref. rewrite Hhd, Hhdn.
  rewrite (walk_spec _ l); auto. unfold nodes. by rewrite Hs.
Qed.

(** ** Construction *)

Lemma linked_lookup h l :
  (∀ i a b, l !! i = Some a → l !! S i = Some b → nxt h a = Some b ∧ prv h b = Some a) →
  linked h l.
Proof.
  induction l as [|a [|b l] IH]; intros H; [done..|].
  apply linked_cons2. destruct (H 0%nat a b) as [H1 H2]; [done..|]. split_and!; [done..|].
  apply IH. intros i. apply (H (S i)).
Qed.

(** State of [__init__]'s loop after the indices below [k]. *)
Definition init_inv (bl : list ref) (k : nat) (h : gmap ref KVCacheBlock) : Prop :=
  ∀ i a, (i < k)%nat → bl !! i = Some a →
    (∀ b, bl !! S i = Some b → nxt h a = Some b) ∧
    (∀ j b, i = S j → bl !! j = Some b → prv h a = Some b).

(** One iteration of it. *)
Lemma init_inv_step bl k h a h1 h2 :
  NoDup bl → bl !! k = Some a → is_Some (h !! a) → init_inv bl k h →
  h1 = match k with O => h | S j => alter (with_prev (bl !! j)) a h end →
  h2 = match bl !! S k with None => h1 | Some s => alter (with_next (Some s)) a h1 end →
  init_inv bl (S k) h2.
Proof.
  intros Hnd Ha Hal HI -> ->. intros i b Hi Hb.
  destruct (decide (i = k)) as [->|Hik].
  - simplify_eq. split.
    + intros s Hs. rewrite Hs, nxt_with_next, decide_True; [done|].
      split; [done|]. destruct k; by rewrite ?alive_alter.
    + intros j c -> Hc. rewrite Hc.
      assert (prv (alter (with_prev (Some c)) a h) a = Some c) as Hp.
      { by rewrite prv_with_prev, decide_True. }
      destruct (bl !! S (S j)); [by rewrite prv_with_next|done].
  - assert (a ≠ b) as Hab.
    { intros ->. apply Hik. by eapply NoDup_lookup. }
    destruct (HI i b ltac:(lia) Hb) as [H1 H2].
    split; [intros s Hs; rewrite <-(H1 s Hs)|intros j c Hj Hc; rewrite <-(H2 j c Hj Hc)];
      destruct (bl !! S k), k; rewrite ?prv_with_next, ?nxt_with_next_ne, ?nxt_with_prev,
        ?prv_with_prev_ne by done; done.
Qed.

Lemma init_step_spec bl k q :
  NoDup bl → (k < length bl)%nat → (∀ r, r ∈ bl → is_Some (heap q !! r)) →
  init_inv bl k (heap q) →
  wp (init_step bl (Z.of_nat k)) (λ _ q', init_inv bl (S k) (heap q') ∧
    num_free_blocks q' = num_free_blocks q ∧ same_meta (heap q) (heap q') ∧
    frame (heap q) (heap q') bl) q.
Proof.
  intros Hnd Hk Hal HI. destruct (lookup_lt_is_Some_2 _ _ Hk) as [a Ha].
  assert (Hain : a ∈ bl) by by eapply list_elem_of_lookup_2.
  pose proof (init_inv_step bl k (heap q) a _ _ Hnd Ha (Hal _ Hain) HI eq_refl eq_refl) as HI'.
  assert (Hidx : ∀ i j : nat, Z.of_nat i = Z.of_nat j → py_get bl (Z.of_nat j) = bl !! i).
  { intros i j Hij. rewrite py_get_nonneg by lia. f_equal. lia. }
  unfold init_step. wp_step.
  set (h1 := match k with O => heap q | S j => alter (with_prev (bl !! j)) a (heap q) end) in *.
  apply (wp_mono _ (λ _ q', q' = MkQueue h1 (num_free_blocks q))).
  { unfold h1. destruct k as [|j]; [by destruct q|].
    destruct (lookup_lt_is_Some_2 bl j) as [p Hp]; [lia|].
    destruct (Z.ltb_spec 0 (Z.of_nat (S j))); [|lia]. wp_step. apply (wp_py_index _ _ a); [by rewrite (Hidx (S j))|]. wp_step.
    replace (Z.of_nat (S j) - 1) with (Z.of_nat j) by lia.
    apply (wp_py_index _ _ p); [by rewrite (Hidx j)|]. queue_steps. by rewrite Hp. }
  intros [] q' ->.
  assert (same_meta (heap q) h1 ∧ frame (heap q) h1 bl) as [Hm1 Hf1].
  { unfold h1. destruct k; [by split|]. split; [auto with links|].
    intros r Hr. rewrite nxt_with_prev, prv_with_prev_ne by (by intros ->). done. }
  destruct (Z.ltb_spec (Z.of_nat k) (len bl - 1)) as [Hlt|Hge].
  - destruct (lookup_lt_is_Some_2 bl (S k)) as [s Hs]; [unfold len in *; lia|].
    wp_step. apply (wp_py_index _ _ a); [by rewrite (Hidx k)|]. wp_step.
    replace (Z.of_nat k + 1) with (Z.of_nat (S k)) by lia.
    apply (wp_py_index _ _ s); [by rewrite (Hidx (S k))|]. queue_steps.
    rewrite Hs in HI'. split_and!; [done..|auto with links|].
    intros r Hr. rewrite prv_with_next, nxt_with_next_ne by (by intros ->). by apply Hf1.
  - apply wp_ret. rewrite (lookup_ge_None_2 bl (S k)) in HI' by (unfold len in *; lia). done.
Qed.

Lemma init_loop_spec bl q :
  NoDup bl → (∀ r, r ∈ bl → is_Some (heap q !! r)) →
  wp (for_each (py_range 0 (len bl)) (init_step bl)) (λ _ q',
    linked (heap q') bl ∧ num_free_blocks q' = num_free_blocks q ∧
    same_meta (heap q) (heap q') ∧ frame (heap q) (heap q') bl) q.
Proof.
  intros Hnd Hal. eapply wp_mono.
  { apply (wp_for_each (λ pre q', init_inv bl (length pre) (heap q') ∧
      num_free_blocks q' = num_free_blocks q ∧ same_meta (heap q) (heap q') ∧
      frame (heap q) (heap q') bl)).
    - split_and!; auto with links; [|done]. intros i a Hi. simpl in Hi. lia.
    - intros pre x post q1 Heq (HI & Hn & Hm & Hf).
      assert (py_range 0 (len bl) !! length pre = Some x) as Hx.
      { rewrite Heq, lookup_app_r, Nat.sub_diag by lia. done. }
      unfold py_range in Hx. apply lookup_seqZ in Hx as [-> Hlt]. rewrite Z.add_0_l.
      rewrite length_app, Nat.add_1_r. eapply wp_mono.
      { apply init_step_spec; [done|unfold len in *; lia| |done].
        intros r Hr. apply (same_meta_alive (heap q)); auto. }
      intros [] q2 (H1 & H2 & H3 & H4). split_and!; [done|congruence| |].
      + by eapply same_meta_trans.
      + intros r Hr. destruct (H4 r Hr) as [-> ->]. by apply Hf. }
  intros [] q' (HI & Hn & Hm & Hf). split_and!; [|done..].
  apply linked_lookup. unfold py_range in HI. rewrite length_seqZ in HI.
  intros i a b Ha Hb.
  pose proof (lookup_lt_Some _ _ _ Ha). pose proof (lookup_lt_Some _ _ _ Hb).
  destruct (HI i a) as [Hx _]; [unfold len; lia|done|].
  destruct (HI (S i) b) as [_ Hy]; [unfold len; lia|done|]. eauto.
Qed.

(** The end of [__init__]: both sentinels are joined to the linked blocks. *)
Lemma init_close q ids :
  NoDup ids → linked (heap q) (Blk <$> ids) → num_free_blocks q = len ids →
  is_Some (heap q !! FakeHead) → is_Some (heap q !! FakeTail) → nxt (heap q) FakeTail = None →
  (∀ i, i ∈ ids → is_Some (heap q !! Blk i)) →
  (∀ j, j ∉ ids → nxt (heap q) (Blk j) = None ∧ prv (heap q) (Blk j) = None) →
  wp (init_sentinels (Blk <$> ids)) (λ _ q', rep q' ids ∧ same_meta (heap q) (heap q')) q.
Proof.
  intros Hnd Hl Hn Hh Ht Htn Hal Hd. unfold init_sentinels.
  destruct ids as [|i0 ids0].
  { simpl. queue_steps. split; [by apply (rep_close _ _ _ [] FakeHead)|auto with links]. }
  destruct (last (Blk <$> (i0 :: ids0))) as [z|] eqn:Hlast; [|by apply last_None in Hlast].
  apply last_Some in Hlast as Hz. destruct Hz as [ys Hz].
  assert (z ∈ Blk <$> (i0 :: ids0)) as Hzin by (rewrite Hz; apply elem_of_app; right; by left).
  apply list_elem_of_fmap in Hzin as (k & Hk & Hkin).
  rewrite len_fmap, len_cons. pose proof (len_nonneg ids0).
  destruct (Z.ltb_spec 0 (len ids0 + 1)); [|lia].
  wp_step. apply (wp_py_index _ _ (Blk i0)); [done|]. wp_step.
  apply (wp_py_index _ _ z); [by rewrite py_get_last|]. queue_steps.
  split; [|auto 10 with links]. rewrite alter_alter_ne by by subst z.
  apply NoDup_cons in Hnd as Hnd'. destruct Hnd' as [Hi0 _].
  apply (rep_close _ _ _ (FakeHead :: ys)); [done|by rewrite Hz|..].
  - rewrite <-app_comm_cons, <-Hz. apply (linked_join _ _ _ (Blk i0) (Blk <$> ids0)); auto.
    + by intros (? & ? & _)%list_elem_of_fmap.
    + by intros (? & [= <-] & ?)%list_elem_of_fmap.
    + apply Hal. by left.
  - rewrite !alive_alter, Hk. auto.
  - by rewrite !alive_alter.
  - by rewrite nxt_with_prev, nxt_with_next_ne.
  - done.
  - intros j Hj. rewrite nxt_with_prev, nxt_with_next_ne, prv_with_prev_ne, prv_with_next; auto.
    intros [= ->]. apply Hj. by left.
Qed.

(** The constructor links the given blocks in their order. *)
Lemma init_links_rep q ids :
  NoDup ids → (∀ i, i ∈ ids → is_Some (heap q !! Blk i)) →
  (∀ i, i ∉ ids → nxt (heap q) (Blk i) = None ∧ prv (heap q) (Blk i) = None) →
  wp (init_links (Blk <$> ids)) (λ _ q', rep q' ids ∧
    ∀ i, meta <$> heap q' !! Blk i = meta <$> heap q !! Blk i) q.
Proof.
  intros Hnd Hal Hdet. unfold init_links. wp_step. wp_step. wp_step.
  eapply wp_mono; [apply init_loop_spec|]; cbn [heap num_free_blocks].
  { by apply NoDup_fmap; [apply _|]. }
  { intros r (i & -> & Hi)%list_elem_of_fmap. auto. }
  intros [] q1 (Hl & Hn & Hm & Hf). wp_step. wp_step.
  set (h2 := <[FakeHead:=_]> _).
  assert (Hh2 : ∀ i, h2 !! Blk i = heap q1 !! Blk i).
  { intros i. unfold h2. by rewrite !lookup_insert_ne. }
  assert (Hn2 : ∀ i, nxt h2 (Blk i) = nxt (heap q1) (Blk i) ∧ prv h2 (Blk i) = prv (heap q1) (Blk i)).
  { intros i. unfold nxt, prv. by rewrite Hh2. }
  assert (Hal1 : ∀ i, i ∈ ids → is_Some (heap q1 !! Blk i)).
  { intros i Hi. apply (same_meta_alive (heap q)); auto. }
  eapply wp_mono; [apply init_close|]; cbn [heap num_free_blocks].
  - done.
  - clear -Hl Hn2. induction ids as [|a [|b ids] IH]; [done..|]. destruct Hl as (H1 & H2 & H3).
    rewrite !fmap_cons, linked_cons2. destruct (Hn2 a) as [-> _], (Hn2 b) as [_ ->]. auto.
  - rewrite Hn. by rewrite len_fmap.
  - unfold h2. by rewrite lookup_insert_eq.
  - unfold h2. by rewrite lookup_insert_ne, lookup_insert_eq.
  - unfold nxt, h2. by rewrite lookup_insert_ne, lookup_insert_eq.
  - intros i Hi. rewrite Hh2. auto.
  - intros j Hj. destruct (Hn2 j) as [-> ->], (Hf (Blk j)) as [-> ->]; [|by apply Hdet].
    by intros (i & [= <-] & Hi)%list_elem_of_fmap.
  - intros [] q2 [Hrep Hm2]. split; [done|]. intros i. by rewrite Hm2, Hh2, Hm.
Qed.

(** ** Refinement of a plain list *)

(** The first occurrence of [i] taken out of [l]. *)
Fixpoint del (i : nat) (l : list nat) : list nat :=
  match l with
  | [] => []
  | j :: l => if decide (j = i) then l else j :: del i l
  end.

Lemma del_split i l : i ∈ l → ∃ l1 l2, l = l1 ++ i :: l2 ∧ del i l = l1 ++ l2.
Proof.
  induction l as [|j l IH]; [by intros ?%elem_of_nil|]. intros Hi. simpl.
  destruct (decide (j = i)) as [->|Hji]; [by exists [], l|].
  apply elem_of_cons in Hi as [->|Hi]; [done|].
  destruct (IH Hi) as (l1 & l2 & -> & ->). by exists (j :: l1), l2.
Qed.

Lemma elem_of_del i j l : NoDup l → j ∈ del i l ↔ j ∈ l ∧ j ≠ i.
Proof.
  intros Hnd. destruct (decide (i ∈ l)) as [Hi|Hi].
  - destruct (del_split _ _ Hi) as (l1 & l2 & -> & ->). apply nodup_middle in Hnd as [_ Hn].
    rewrite !elem_of_app, elem_of_cons in *. naive_solver.
  - assert (del i l = l) as ->; [|naive_solver]. clear Hnd.
    induction l as [|k l IH]; [done|]. simpl. apply not_elem_of_cons in Hi as [Hk Hi].
    rewrite decide_False by done. by rewrite IH.
Qed.

Inductive qop :=
  | PopLeft
  | PopLeftN (n : Z)
  | Remove (i : nat)
  | Append (i : nat)
  | AppendN (bs : list nat)
  | GetAll.

(** The queue's methods; the result is the list of returned blocks. *)
Definition run_op (o : qop) : M Queue (list ref) :=
  match o with
  | PopLeft => let! r := popleft in ret [r]
  | PopLeftN n => popleft_n n
  | Remove i => remove (Blk i) ;;; ret []
  | Append i => append (Blk i) ;;; ret []
  | AppendN bs => append_n (Blk <$> bs) ;;; ret []
  | GetAll => get_all_free_blocks
  end.

(** The same on a plain list: returned blocks and the new queue; [None] where
    the caller breaks the contract. *)
Definition spec_op (o : qop) (l : list nat) : option (list nat * list nat) :=
  match o with
  | PopLeft => match l with [] => None | i :: l => Some ([i], l) end
  | PopLeftN n =>
      if bool_decide (0 ≤ n ≤ len l) then Some (take (Z.to_nat n) l, drop (Z.to_nat n) l) else None
  | Remove i => if bool_decide (i ∈ l) then Some ([], del i l) else None
  | Append i => if bool_decide (i ∈ l) then None else Some ([], l ++ [i])
  | AppendN bs => if bool_decide (NoDup (l ++ bs)) then Some ([], l ++ bs) else None
  | GetAll => Some (l, l)
  end.

(** The blocks a call mentions are objects of the store. *)
Definition op_alive (q : Queue) (o : qop) : Prop :=
  match o with
  | Append i => is_Some (heap q !! Blk i)
  | AppendN bs => ∀ i, i ∈ bs → is_Some (heap q !! Blk i)
  | _ => True
  end.

Lemma run_op_refines q l o out l' :
  rep q l → op_alive q o → spec_op o l = Some (out, l') →
  wp (run_op o) (λ rs q', rs = Blk <$> out ∧ rep q' l' ∧ same_meta (heap q) (heap q')) q.
Proof.
  intros Hrep Hal Hs. destruct o; simpl in *; repeat case_bool_decide; simplify_eq; [..|].
  - destruct l; simplify_eq. wp_step. eapply wp_mono; [by apply popleft_rep|].
    intros r q' (-> & ? & ?). by wp_step.
  - by apply popleft_n_rep.
  - destruct (del_split i l) as (l1 & l2 & -> & ->); [done|].
    wp_step. eapply wp_mono; [by apply remove_rep|]. intros r q' (? & ?). by wp_step.
  - wp_step. eapply wp_mono; [by apply append_rep|]. intros r q' (? & ?). by wp_step.
  - wp_step. eapply wp_mono; [by apply append_n_rep|]. intros r q' (? & ?). by wp_step.
  - unfold wp. rewrite (get_all_free_blocks_rep _ _ Hrep). auto with links.
Qed.

(** A sequence of calls, and the same sequence on a plain list. *)
Fixpoint run_ops (os : list qop) : M Queue (list (list ref)) :=
  match os with
  | [] => ret []
  | o :: os => let! r := run_op o in let! rs := run_ops os in ret (r :: rs)
  end.

Fixpoint spec_ops (os : list qop) (l : list nat) : option (list (list nat) * list nat) :=
  match os with
  | [] => Some ([], l)
  | o :: os =>
      match spec_op o l with
      | Some (out, l') =>
          match spec_ops os l' with
          | Some (outs, l'') => Some (out :: outs, l'')
          | None => None
          end
      | None => None
      end
  end.

Lemma op_alive_meta q q' o : same_meta (heap q) (heap q') → op_alive q o → op_alive q' o.
Proof.
  intros Hm. destruct o; simpl; try done.
  - by apply same_meta_alive.
  - intros Ha i Hi. apply (same_meta_alive (heap q)); auto.
Qed.

(** C16.  The doubly linked free list implements a plain FIFO list with removal
    from the middle: from a queue that represents [l], every sequence of
    [popleft], [popleft_n], [remove], [append], [append_n] and
    [get_all_free_blocks] calls that is legal on [l] returns, hands out
    exactly the blocks the plain list hands out, in the same order, ends in a
    queue that represents the resulting list, and changes nothing of the
    blocks but their links. *)
Theorem free_queue_refines_list q l os outs l' :
  rep q l → Forall (op_alive q) os → spec_ops os l = Some (outs, l') →
  wp (run_ops os) (λ rs q', rs = (λ o : list nat, Blk <$> o) <$> outs ∧ rep q' l' ∧
    num_free_blocks q' = len l' ∧ same_meta (heap q) (heap q')) q.
Proof.
  revert q l outs. induction os as [|o os IH]; intros q l outs Hrep Hal Hs; simpl in Hs; simplify_eq.
  { apply wp_ret. split_and!; auto with links. apply Hrep. }
  destruct (spec_op o l) as [[out l1]|] eqn:Ho; [|done].
  destruct (spec_ops os l1) as [[outs1 l2]|] eqn:Hos; simplify_eq.
  apply Forall_cons in Hal as [Ho1 Hal]. simpl. wp_step.
  eapply wp_mono; [by eapply run_op_refines|]. intros r q1 (-> & Hrep1 & Hm1). wp_step.
  eapply wp_mono; [eapply IH; [done| |done]|].
  { eapply Forall_impl; [done|]. intros. by eapply op_alive_meta. }
  intros rs q2 (-> & ? & ? & ?). wp_step. split_and!; auto. by eapply same_meta_trans.
Qed.

(** The queue of [n] fresh blocks, as [BlockPool.__init__] builds it. *)
Definition fresh_heap (n : nat) : gmap ref KVCacheBlock :=
  list_to_map ((λ i, (Blk i, new_block (Z.of_nat i))) <$> seq 0 n).
Definition fresh_queue (n : nat) : Queue :=
  (init_links (Blk <$> seq 0 n) (MkQueue (fresh_heap n) 0)).2.

(** Misuse is detected and harmless: on a queue that represents [l],
    [popleft] of an empty queue raises [ValueError], [popleft_n] of more
    blocks than there are raises [AssertionError], [remove] of a block that is
    not in the queue raises [RuntimeError]; none of them changes the queue. *)
Theorem free_queue_errors q l :
  rep q l →
  (l = [] → popleft q = (Raise ValueError, q)) ∧
  (∀ n, len l < n → popleft_n n q = (Raise AssertionError, q)) ∧
  (∀ i, i ∉ l → is_Some (heap q !! Blk i) → remove (Blk i) q = (Raise RuntimeError, q)).
Proof.
  intros Hrep. split_and!.
  - intros ->. by apply popleft_empty.
  - intros n. by apply popleft_n_short.
  - intros i. by apply remove_absent.
Qed.

Lemma fresh_heap_lookup n i :
  fresh_heap n !! Blk i = if decide (i < n)%nat then Some (new_block (Z.of_nat i)) else None.
Proof.
  unfold fresh_heap. case_decide as Hi.
  - apply elem_of_list_to_map_1.
    + rewrite <-list_fmap_compose. apply NoDup_fmap_2; [by intros ?? [=]|apply NoDup_ListNoDup, seq_NoDup].
    + apply list_elem_of_fmap. exists i. split; [done|]. apply elem_of_seq. lia.
  - apply not_elem_of_list_to_map_1. rewrite <-list_fmap_compose.
    intros (j & [= ->] & Hj%elem_of_seq)%list_elem_of_fmap. lia.
Qed.

(** A freshly constructed queue holds the blocks in the order of their ids. *)
Lemma fresh_queue_rep n :
  rep (fresh_queue n) (seq 0 n) ∧
  ∀ i, (i < n)%nat → meta <$> heap (fresh_queue n) !! Blk i = Some (Z.of_nat i, 0, None, false).
Proof.
  unfold fresh_queue.
  assert (wp (init_links (Blk <$> seq 0 n)) (λ _ q', rep q' (seq 0 n) ∧
    ∀ i, meta <$> heap q' !! Blk i = meta <$> fresh_heap n !! Blk i) (MkQueue (fresh_heap n) 0)) as Hwp.
  { apply init_links_rep; cbn [heap].
    - apply NoDup_ListNoDup, seq_NoDup.
    - intros i Hi%elem_of_seq. rewrite fresh_heap_lookup, decide_True by lia. done.
    - intros i Hi. unfold nxt, prv. rewrite fresh_heap_lookup. by case_decide. }
  apply wp_run in Hwp as (u & q' & -> & Hrep & Hm). simpl. split; [done|].
  intros i Hi. by rewrite Hm, fresh_heap_lookup, decide_True.
Qed.

(** Witness: four blocks, two taken, the third removed, the first given back. *)
Lemma free_queue_refines_list_witness :
  wp (run_ops [PopLeftN 2; Remove 2; AppendN [0%nat]; GetAll])
    (λ rs q', rs = (λ o : list nat, Blk <$> o) <$> [[0%nat; 1%nat]; []; []; [3%nat; 0%nat]] ∧ rep q' [3%nat; 0%nat] ∧
      num_free_blocks q' = 2 ∧ same_meta (heap (fresh_queue 4)) (heap q')) (fresh_queue 4).
Proof.
  apply (free_queue_refines_list (fresh_queue 4) (seq 0 4)).
  - apply fresh_queue_rep.
  - repeat constructor. intros i ->%list_elem_of_singleton. vm_compute. eauto.
  - vm_compute. reflexivity.
Defined.

Lemma free_queue_errors_witness :
  popleft (fresh_queue 0) = (Raise ValueError, fresh_queue 0).
Proof. apply (free_queue_errors (fresh_queue 0) []); [apply (fresh_queue_rep 0)|done]. Defined.
