(* ===== verification/RequestModel.v ===== *)
(** * Requests (vllm/v1/request.py) and the input data they carry

    [Request] is the record the scheduler, the KV-cache manager and the block
    hasher share; every attribute those components read or write is a field.
    [use_structured_output] and [grammar_ready] stand for
    [structured_output_request is not None] and for its compiled grammar being
    available.  Timestamps are only compared, so they are integers here. *)

From S2P Require Import Prelude.

(** ** RequestStatus *)

Inductive RequestStatus :=
  | WAITING
  | WAITING_FOR_STRUCTURED_OUTPUT_GRAMMAR
  | WAITING_FOR_REMOTE_KVS
  | WAITING_FOR_STREAMING_REQ
  | RUNNING
  | PREEMPTED
  | FINISHED_STOPPED
  | FINISHED_LENGTH_CAPPED
  | FINISHED_ABORTED
  | FINISHED_IGNORED
  | FINISHED_ERROR
  | FINISHED_REPETITION.

#[global] Instance RequestStatus_eq_dec : EqDecision RequestStatus.
Proof. solve_decision. Defined.

(** The [enum.auto()] values: an IntEnum starting at 1. *)
Definition status_value (s : RequestStatus) : Z :=
  match s with
  | WAITING => 1
  | WAITING_FOR_STRUCTURED_OUTPUT_GRAMMAR => 2
  | WAITING_FOR_REMOTE_KVS => 3
  | WAITING_FOR_STREAMING_REQ => 4
  | RUNNING => 5
  | PREEMPTED => 6
  | FINISHED_STOPPED => 7
  | FINISHED_LENGTH_CAPPED => 8
  | FINISHED_ABORTED => 9
  | FINISHED_IGNORED => 10
  | FINISHED_ERROR => 11
  | FINISHED_REPETITION => 12
  end.

(** [RequestStatus.is_finished]: [status > RequestStatus.PREEMPTED]. *)
Definition status_is_finished (s : RequestStatus) : bool := status_value PREEMPTED <? status_value s.

Inductive FinishReason := STOP | LENGTH | ABORT | ERROR | REPETITION.

(** [_FINISHED_REASON_MAP] *)
Definition get_finished_reason (s : RequestStatus) : option FinishReason :=
  match s with
  | FINISHED_STOPPED => Some STOP
  | FINISHED_LENGTH_CAPPED => Some LENGTH
  | FINISHED_ABORTED => Some ABORT
  | FINISHED_IGNORED => Some LENGTH
  | FINISHED_ERROR => Some ERROR
  | WAITING_FOR_STREAMING_REQ => Some STOP
  | FINISHED_REPETITION => Some REPETITION
  | _ => None
  end.

(** ** Inputs *)

(** [PlaceholderRange] and [MultiModalFeatureSpec] of
    vllm/multimodal/inputs.py; [is_embed] is the boolean mask. *)
Record PlaceholderRange := MkRange {
  offset : Z;
  length_ : Z;
  is_embed : option (list bool);
}.

Record MultiModalFeatureSpec := MkFeature {
  identifier : string;
  mm_position : PlaceholderRange;
}.

(** [embeds_cumsum]: prefix sums of the mask. *)
Fixpoint cumsum (acc : Z) (l : list bool) : list Z :=
  match l with
  | [] => []
  | b :: l => let acc := acc + (if b then 1 else 0) in acc :: cumsum acc l
  end.
Definition embeds_cumsum (p : PlaceholderRange) : option (list Z) := cumsum 0 <$> is_embed p.

(** [get_num_embeds] *)
Definition get_num_embeds (p : PlaceholderRange) : Z :=
  match embeds_cumsum p with
  | None => length_ p
  | Some c => default 0 (last c)
  end.

(** [get_embeds_indices_in_range]; [None] is an IndexError. *)
Definition get_embeds_indices_in_range (p : PlaceholderRange) (start_idx end_idx : Z)
    : option (Z * Z) :=
  match embeds_cumsum p with
  | None => Some (start_idx, end_idx)
  | Some c =>
      s ← (if 0 <? start_idx then py_get c (start_idx - 1) else Some 0);
      e ← (if 0 <? end_idx then py_get c (end_idx - 1) else Some 0);
      Some (s, e)
  end.

Record LoRARequest := MkLoRA {
  lora_name : string;
  lora_int_id : Z;
}.

Record RepetitionDetectionParams := MkRep {
  max_pattern_size : Z;
  min_pattern_size : Z;
  min_count : Z;
}.

(** The fields of [SamplingParams] the core reads; [structured_outputs] says
    whether a structured-output constraint is set. *)
Record SamplingParams := MkSampling {
  sp_max_tokens : option Z;
  structured_outputs : bool;
  sp_skip_reading_prefix_cache : option bool;
  min_tokens : Z;
  eos_token_id : option Z;
  stop_token_ids : list Z;
  repetition_detection : option RepetitionDetectionParams;
}.

Record PoolingParams := MkPooling {
  pp_skip_reading_prefix_cache : option bool;
}.

Inductive StopReason :=
  | StopToken (t : Z)
  | StopString (s : string).

(** [StreamingUpdate]: the next input chunk of a streaming session. *)
Record StreamingUpdate := MkUpdate {
  su_mm_features : list MultiModalFeatureSpec;
  su_prompt_token_ids : option (list Z);
  su_max_tokens : Z;
  su_arrival_time : Z;
  su_sampling_params : option SamplingParams;
}.

(** ** Request *)

(** [PrefillStats] of vllm/v1/metrics/stats.py *)
Record PrefillStats := MkPrefillStats {
  ps_num_prompt_tokens : Z;
  ps_num_computed_tokens : Z;
  ps_num_cached_tokens : Z;
  ps_num_local_cached_tokens : Z;
  ps_num_external_cached_tokens : Z;
}.
Definition new_prefill_stats : PrefillStats := MkPrefillStats 0 0 0 0 0.

(** [PrefillStats.set] *)
Definition prefill_stats_set (num_prompt_tokens num_local_cached_tokens num_external_cached_tokens : Z) : res PrefillStats :=
  let num_cached_tokens := num_local_cached_tokens + num_external_cached_tokens in
  if num_cached_tokens <=? num_prompt_tokens
  then Ok (MkPrefillStats num_prompt_tokens (num_prompt_tokens - num_cached_tokens) num_cached_tokens
             num_local_cached_tokens num_external_cached_tokens)
  else Raise AssertionError.

Record Request := MkRequest {
  request_id : string;
  client_index : Z;
  priority : Z;
  arrival_time : Z;
  sampling_params : option SamplingParams;
  pooling_params : option PoolingParams;
  lora_request : option LoRARequest;
  use_structured_output : bool;
  grammar_ready : bool;
  status : RequestStatus;
  stop_reason : option StopReason;
  max_tokens : Z;
  prompt_token_ids : option (list Z);
  prompt_embeds : option (list bytes);
  prompt_embeds_per_block_hashes : gmap (Z * Z) bytes;
  num_prompt_tokens : Z;
  output_token_ids : list Z;
  all_token_ids : list Z;
  num_output_placeholders : Z;
  discard_latest_async_tokens : bool;
  spec_token_ids : list Z;
  num_computed_tokens : Z;
  cache_salt : option string;
  mm_features : list MultiModalFeatureSpec;
  is_prefill_chunk : bool;
  num_nans_in_logits : Z;
  num_preemptions : Z;
  prefill_stats : option PrefillStats;
  block_hashes : list bytes;
  skip_reading_prefix_cache : bool;
  resumable : bool;
  streaming_queue : option (list (option StreamingUpdate));
}.

(** Attribute assignments. *)
Definition set_arrival_time (v : Z) (r : Request) : Request :=
  MkRequest (request_id r) (client_index r) (priority r) v (sampling_params r) (pooling_params r)
    (lora_request r) (use_structured_output r) (grammar_ready r) (status r) (stop_reason r)
    (max_tokens r) (prompt_token_ids r) (prompt_embeds r) (prompt_embeds_per_block_hashes r)
    (num_prompt_tokens r) (output_token_ids r) (all_token_ids r) (num_output_placeholders r)
    (discard_latest_async_tokens r) (spec_token_ids r) (num_computed_tokens r) (cache_salt r)
    (mm_features r) (is_prefill_chunk r) (num_nans_in_logits r) (num_preemptions r)
    (prefill_stats r) (block_hashes r) (skip_reading_prefix_cache r) (resumable r)
    (streaming_queue r).
Definition set_sampling_params (v : option SamplingParams) (r : Request) : Request :=
  MkRequest (request_id r) (client_index r) (priority r) (arrival_time r) v (pooling_params r)
    (lora_request r) (use_structured_output r) (grammar_ready r) (status r) (stop_reason r)
    (max_tokens r) (prompt_token_ids r) (prompt_embeds r) (prompt_embeds_per_block_hashes r)
    (num_prompt_tokens r) (output_token_ids r) (all_token_ids r) (num_output_placeholders r)
    (discard_latest_async_tokens r) (spec_token_ids r) (num_computed_tokens r) (cache_salt r)
    (mm_features r) (is_prefill_chunk r) (num_nans_in_logits r) (num_preemptions r)
    (prefill_stats r) (block_hashes r) (skip_reading_prefix_cache r) (resumable r)
    (streaming_queue r).
Definition set_grammar_ready (v : bool) (r : Request) : Request :=
  MkRequest (request_id r) (client_index r) (priority r) (arrival_time r) (sampling_params r)
    (pooling_params r) (lora_request r) (use_structured_output r) v (status r) (stop_reason r)
    (max_tokens r) (prompt_token_ids r) (prompt_embeds r) (prompt_embeds_per_block_hashes r)
    (num_prompt_tokens r) (output_token_ids r) (all_token_ids r) (num_output_placeholders r)
    (discard_latest_async_tokens r) (spec_token_ids r) (num_computed_tokens r) (cache_salt r)
    (mm_features r) (is_prefill_chunk r) (num_nans_in_logits r) (num_preemptions r)
    (prefill_stats r) (block_hashes r) (skip_reading_prefix_cache r) (resumable r)
    (streaming_queue r).
Definition set_status (v : RequestStatus) (r : Request) : Request :=
  MkRequest (request_id r) (client_index r) (priority r) (arrival_time r) (sampling_params r)
    (pooling_params r) (lora_request r) (use_structured_output r) (grammar_ready r) v
    (stop_reason r) (max_tokens r) (prompt_token_ids r) (prompt_embeds r)
    (prompt_embeds_per_block_hashes r) (num_prompt_tokens r) (output_token_ids r) (all_token_ids r)
    (num_output_placeholders r) (discard_latest_async_tokens r) (spec_token_ids r)
    (num_computed_tokens r) (cache_salt r) (mm_features r) (is_prefill_chunk r)
    (num_nans_in_logits r) (num_preemptions r) (prefill_stats r) (block_hashes r)
    (skip_reading_prefix_cache r) (resumable r) (streaming_queue r).
Definition set_stop_reason (v : option StopReason) (r : Request) : Request :=
  MkRequest (request_id r) (client_index r) (priority r) (arrival_time r) (sampling_params r)
    (pooling_params r) (lora_request r) (use_structured_output r) (grammar_ready r) (status r) v
    (max_tokens r) (prompt_token_ids r) (prompt_embeds r) (prompt_embeds_per_block_hashes r)
    (num_prompt_tokens r) (output_token_ids r) (all_token_ids r) (num_output_placeholders r)
    (discard_latest_async_tokens r) (spec_token_ids r) (num_computed_tokens r) (cache_salt r)
    (mm_features r) (is_prefill_chunk r) (num_nans_in_logits r) (num_preemptions r)
    (prefill_stats r) (block_hashes r) (skip_reading_prefix_cache r) (resumable r)
    (streaming_queue r).
Definition set_prompt_token_ids (v : option (list Z)) (r : Request) : Request :=
  MkRequest (request_id r) (client_index r) (priority r) (arrival_time r) (sampling_params r)
    (pooling_params r) (lora_request r) (use_structured_output r) (grammar_ready r) (status r)
    (stop_reason r) (max_tokens r) v (prompt_embeds r) (prompt_embeds_per_block_hashes r)
    (num_prompt_tokens r) (output_token_ids r) (all_token_ids r) (num_output_placeholders r)
    (discard_latest_async_tokens r) (spec_token_ids r) (num_computed_tokens r) (cache_salt r)
    (mm_features r) (is_prefill_chunk r) (num_nans_in_logits r) (num_preemptions r)
    (prefill_stats r) (block_hashes r) (skip_reading_prefix_cache r) (resumable r)
    (streaming_queue r).
Definition set_prompt_embeds_per_block_hashes (v : gmap (Z * Z) bytes) (r : Request) : Request :=
  MkRequest (request_id r) (client_index r) (priority r) (arrival_time r) (sampling_params r)
    (pooling_params r) (lora_request r) (use_structured_output r) (grammar_ready r) (status r)
    (stop_reason r) (max_tokens r) (prompt_token_ids r) (prompt_embeds r) v (num_prompt_tokens r)
    (output_token_ids r) (all_token_ids r) (num_output_placeholders r)
    (discard_latest_async_tokens r) (spec_token_ids r) (num_computed_tokens r) (cache_salt r)
    (mm_features r) (is_prefill_chunk r) (num_nans_in_logits r) (num_preemptions r)
    (prefill_stats r) (block_hashes r) (skip_reading_prefix_cache r) (resumable r)
    (streaming_queue r).
Definition set_num_prompt_tokens (v : Z) (r : Request) : Request :=
  MkRequest (request_id r) (client_index r) (priority r) (arrival_time r) (sampling_params r)
    (pooling_params r) (lora_request r) (use_structured_output r) (grammar_ready r) (status r)
    (stop_reason r) (max_tokens r) (prompt_token_ids r) (prompt_embeds r)
    (prompt_embeds_per_block_hashes r) v (output_token_ids r) (all_token_ids r)
    (num_output_placeholders r) (discard_latest_async_tokens r) (spec_token_ids r)
    (num_computed_tokens r) (cache_salt r) (mm_features r) (is_prefill_chunk r)
    (num_nans_in_logits r) (num_preemptions r) (prefill_stats r) (block_hashes r)
    (skip_reading_prefix_cache r) (resumable r) (streaming_queue r).
Definition set_output_token_ids (v : list Z) (r : Request) : Request :=
  MkRequest (request_id r) (client_index r) (priority r) (arrival_time r) (sampling_params r)
    (pooling_params r) (lora_request r) (use_structured_output r) (grammar_ready r) (status r)
    (stop_reason r) (max_tokens r) (prompt_token_ids r) (prompt_embeds r)
    (prompt_embeds_per_block_hashes r) (num_prompt_tokens r) v (all_token_ids r)
    (num_output_placeholders r) (discard_latest_async_tokens r) (spec_token_ids r)
    (num_computed_tokens r) (cache_salt r) (mm_features r) (is_prefill_chunk r)
    (num_nans_in_logits r) (num_preemptions r) (prefill_stats r) (block_hashes r)
    (skip_reading_prefix_cache r) (resumable r) (streaming_queue r).
Definition set_all_token_ids (v : list Z) (r : Request) : Request :=
  MkRequest (request_id r) (client_index r) (priority r) (arrival_time r) (sampling_params r)
    (pooling_params r) (lora_request r) (use_structured_output r) (grammar_ready r) (status r)
    (stop_reason r) (max_tokens r) (prompt_token_ids r) (prompt_embeds r)
    (prompt_embeds_per_block_hashes r) (num_prompt_tokens r) (output_token_ids r) v
    (num_output_placeholders r) (discard_latest_async_tokens r) (spec_token_ids r)
    (num_computed_tokens r) (cache_salt r) (mm_features r) (is_prefill_chunk r)
    (num_nans_in_logits r) (num_preemptions r) (prefill_stats r) (block_hashes r)
    (skip_reading_prefix_cache r) (resumable r) (streaming_queue r).
Definition set_num_output_placeholders (v : Z) (r : Request) : Request :=
  MkRequest (request_id r) (client_index r) (priority r) (arrival_time r) (sampling_params r)
    (pooling_params r) (lora_request r) (use_structured_output r) (grammar_ready r) (status r)
    (stop_reason r) (max_tokens r) (prompt_token_ids r) (prompt_embeds r)
    (prompt_embeds_per_block_hashes r) (num_prompt_tokens r) (output_token_ids r) (all_token_ids r)
    v (discard_latest_async_tokens r) (spec_token_ids r) (num_computed_tokens r) (cache_salt r)
    (mm_features r) (is_prefill_chunk r) (num_nans_in_logits r) (num_preemptions r)
    (prefill_stats r) (block_hashes r) (skip_reading_prefix_cache r) (resumable r)
    (streaming_queue r).
Definition set_discard_latest_async_tokens (v : bool) (r : Request) : Request :=
  MkRequest (request_id r) (client_index r) (priority r) (arrival_time r) (sampling_params r)
    (pooling_params r) (lora_request r) (use_structured_output r) (grammar_ready r) (status r)
    (stop_reason r) (max_tokens r) (prompt_token_ids r) (prompt_embeds r)
    (prompt_embeds_per_block_hashes r) (num_prompt_tokens r) (output_token_ids r) (all_token_ids r)
    (num_output_placeholders r) v (spec_token_ids r) (num_computed_tokens r) (cache_salt r)
    (mm_features r) (is_prefill_chunk r) (num_nans_in_logits r) (num_preemptions r)
    (prefill_stats r) (block_hashes r) (skip_reading_prefix_cache r) (resumable r)
    (streaming_queue r).
Definition set_spec_token_ids (v : list Z) (r : Request) : Request :=
  MkRequest (request_id r) (client_index r) (priority r) (arrival_time r) (sampling_params r)
    (pooling_params r) (lora_request r) (use_structured_output r) (grammar_ready r) (status r)
    (stop_reason r) (max_tokens r) (prompt_token_ids r) (prompt_embeds r)
    (prompt_embeds_per_block_hashes r) (num_prompt_tokens r) (output_token_ids r) (all_token_ids r)
    (num_output_placeholders r) (discard_latest_async_tokens r) v (num_computed_tokens r)
    (cache_salt r) (mm_features r) (is_prefill_chunk r) (num_nans_in_logits r) (num_preemptions r)
    (prefill_stats r) (block_hashes r) (skip_reading_prefix_cache r) (resumable r)
    (streaming_queue r).
Definition set_num_computed_tokens (v : Z) (r : Request) : Request :=
  MkRequest (request_id r) (client_index r) (priority r) (arrival_time r) (sampling_params r)
    (pooling_params r) (lora_request r) (use_structured_output r) (grammar_ready r) (status r)
    (stop_reason r) (max_tokens r) (prompt_token_ids r) (prompt_embeds r)
    (prompt_embeds_per_block_hashes r) (num_prompt_tokens r) (output_token_ids r) (all_token_ids r)
    (num_output_placeholders r) (discard_latest_async_tokens r) (spec_token_ids r) v (cache_salt r)
    (mm_features r) (is_prefill_chunk r) (num_nans_in_logits r) (num_preemptions r)
    (prefill_stats r) (block_hashes r) (skip_reading_prefix_cache r) (resumable r)
    (streaming_queue r).
Definition set_mm_features (v : list MultiModalFeatureSpec) (r : Request) : Request :=
  MkRequest (request_id r) (client_index r) (priority r) (arrival_time r) (sampling_params r)
    (pooling_params r) (lora_request r) (use_structured_output r) (grammar_ready r) (status r)
    (stop_reason r) (max_tokens r) (prompt_token_ids r) (prompt_embeds r)
    (prompt_embeds_per_block_hashes r) (num_prompt_tokens r) (output_token_ids r) (all_token_ids r)
    (num_output_placeholders r) (discard_latest_async_tokens r) (spec_token_ids r)
    (num_computed_tokens r) (cache_salt r) v (is_prefill_chunk r) (num_nans_in_logits r)
    (num_preemptions r) (prefill_stats r) (block_hashes r) (skip_reading_prefix_cache r)
    (resumable r) (streaming_queue r).
Definition set_is_prefill_chunk (v : bool) (r : Request) : Request :=
  MkRequest (request_id r) (client_index r) (priority r) (arrival_time r) (sampling_params r)
    (pooling_params r) (lora_request r) (use_structured_output r) (grammar_ready r) (status r)
    (stop_reason r) (max_tokens r) (prompt_token_ids r) (prompt_embeds r)
    (prompt_embeds_per_block_hashes r) (num_prompt_tokens r) (output_token_ids r) (all_token_ids r)
    (num_output_placeholders r) (discard_latest_async_tokens r) (spec_token_ids r)
    (num_computed_tokens r) (cache_salt r) (mm_features r) v (num_nans_in_logits r)
    (num_preemptions r) (prefill_stats r) (block_hashes r) (skip_reading_prefix_cache r)
    (resumable r) (streaming_queue r).
Definition set_num_nans_in_logits (v : Z) (r : Request) : Request :=
  MkRequest (request_id r) (client_index r) (priority r) (arrival_time r) (sampling_params r)
    (pooling_params r) (lora_request r) (use_structured_output r) (grammar_ready r) (status r)
    (stop_reason r) (max_tokens r) (prompt_token_ids r) (prompt_embeds r)
    (prompt_embeds_per_block_hashes r) (num_prompt_tokens r) (output_token_ids r) (all_token_ids r)
    (num_output_placeholders r) (discard_latest_async_tokens r) (spec_token_ids r)
    (num_computed_tokens r) (cache_salt r) (mm_features r) (is_prefill_chunk r) v
    (num_preemptions r) (prefill_stats r) (block_hashes r) (skip_reading_prefix_cache r)
    (resumable r) (streaming_queue r).
Definition set_num_preemptions (v : Z) (r : Request) : Request :=
  MkRequest (request_id r) (client_index r) (priority r) (arrival_time r) (sampling_params r)
    (pooling_params r) (lora_request r) (use_structured_output r) (grammar_ready r) (status r)
    (stop_reason r) (max_tokens r) (prompt_token_ids r) (prompt_embeds r)
    (prompt_embeds_per_block_hashes r) (num_prompt_tokens r) (output_token_ids r) (all_token_ids r)
    (num_output_placeholders r) (discard_latest_async_tokens r) (spec_token_ids r)
    (num_computed_tokens r) (cache_salt r) (mm_features r) (is_prefill_chunk r)
    (num_nans_in_logits r) v (prefill_stats r) (block_hashes r) (skip_reading_prefix_cache r)
    (resumable r) (streaming_queue r).
Definition set_prefill_stats (v : option PrefillStats) (r : Request) : Request :=
  MkRequest (request_id r) (client_index r) (priority r) (arrival_time r) (sampling_params r)
    (pooling_params r) (lora_request r) (use_structured_output r) (grammar_ready r) (status r)
    (stop_reason r) (max_tokens r) (prompt_token_ids r) (prompt_embeds r)
    (prompt_embeds_per_block_hashes r) (num_prompt_tokens r) (output_token_ids r) (all_token_ids r)
    (num_output_placeholders r) (discard_latest_async_tokens r) (spec_token_ids r)
    (num_computed_tokens r) (cache_salt r) (mm_features r) (is_prefill_chunk r)
    (num_nans_in_logits r) (num_preemptions r) v (block_hashes r) (skip_reading_prefix_cache r)
    (resumable r) (streaming_queue r).
Definition set_block_hashes (v : list bytes) (r : Request) : Request :=
  MkRequest (request_id r) (client_index r) (priority r) (arrival_time r) (sampling_params r)
    (pooling_params r) (lora_request r) (use_structured_output r) (grammar_ready r) (status r)
    (stop_reason r) (max_tokens r) (prompt_token_ids r) (prompt_embeds r)
    (prompt_embeds_per_block_hashes r) (num_prompt_tokens r) (output_token_ids r) (all_token_ids r)
    (num_output_placeholders r) (discard_latest_async_tokens r) (spec_token_ids r)
    (num_computed_tokens r) (cache_salt r) (mm_features r) (is_prefill_chunk r)
    (num_nans_in_logits r) (num_preemptions r) (prefill_stats r) v (skip_reading_prefix_cache r)
    (resumable r) (streaming_queue r).
Definition set_resumable (v : bool) (r : Request) : Request :=
  MkRequest (request_id r) (client_index r) (priority r) (arrival_time r) (sampling_params r)
    (pooling_params r) (lora_request r) (use_structured_output r) (grammar_ready r) (status r)
    (stop_reason r) (max_tokens r) (prompt_token_ids r) (prompt_embeds r)
    (prompt_embeds_per_block_hashes r) (num_prompt_tokens r) (output_token_ids r) (all_token_ids r)
    (num_output_placeholders r) (discard_latest_async_tokens r) (spec_token_ids r)
    (num_computed_tokens r) (cache_salt r) (mm_features r) (is_prefill_chunk r)
    (num_nans_in_logits r) (num_preemptions r) (prefill_stats r) (block_hashes r)
    (skip_reading_prefix_cache r) v (streaming_queue r).
Definition set_streaming_queue (v : option (list (option StreamingUpdate))) (r : Request) : Request :=
  MkRequest (request_id r) (client_index r) (priority r) (arrival_time r) (sampling_params r)
    (pooling_params r) (lora_request r) (use_structured_output r) (grammar_ready r) (status r)
    (stop_reason r) (max_tokens r) (prompt_token_ids r) (prompt_embeds r)
    (prompt_embeds_per_block_hashes r) (num_prompt_tokens r) (output_token_ids r) (all_token_ids r)
    (num_output_placeholders r) (discard_latest_async_tokens r) (spec_token_ids r)
    (num_computed_tokens r) (cache_salt r) (mm_features r) (is_prefill_chunk r)
    (num_nans_in_logits r) (num_preemptions r) (prefill_stats r) (block_hashes r)
    (skip_reading_prefix_cache r) (resumable r) v.

(** Properties of [Request]. *)
Definition num_tokens (r : Request) : Z := len (all_token_ids r).
Definition num_tokens_with_spec (r : Request) : Z := len (all_token_ids r) + len (spec_token_ids r).
Definition num_output_tokens (r : Request) : Z := len (output_token_ids r).
Definition num_encoder_inputs (r : Request) : Z := len (mm_features r).
Definition has_encoder_inputs (r : Request) : bool := 0 <? num_encoder_inputs r.
Definition is_finished (r : Request) : bool := status_is_finished (status r).

(** [get_num_encoder_embeds(input_id)]; out of range is an AssertionError. *)
Definition get_num_encoder_embeds (r : Request) (input_id : nat) : option Z :=
  f ← mm_features r !! input_id; Some (get_num_embeds (mm_position f)).

(** [StreamingUpdate.from_request] *)
Definition update_from_request (r : Request) : option StreamingUpdate :=
  if resumable r then
    Some (MkUpdate (mm_features r) (prompt_token_ids r) (max_tokens r) (arrival_time r) (sampling_params r))
  else None.

(** String comparison by code points, as Python's [<] on [str]. *)
Definition string_ltb (a b : string) : bool :=
  match String.compare a b with Lt => true | _ => false end.

(** [Request.__lt__] on requests with different ids (the last resort of the
    source compares object addresses). *)
Definition request_lt (a b : Request) : bool :=
  if negb (priority a =? priority b) then priority a <? priority b
  else if negb (arrival_time a =? arrival_time b) then arrival_time a <? arrival_time b
  else string_ltb (request_id a) (request_id b).

(** ** Construction *)

(** [length_from_prompt_token_ids_or_embeds] of vllm/utils/__init__.py *)
Definition length_from_prompt_token_ids_or_embeds (tokens : option (list Z)) (embeds : option (list bytes))
    : res Z :=
  match tokens, embeds with
  | None, None => Raise ValueError
  | None, Some e => Ok (len e)
  | Some t, None => Ok (len t)
  | Some t, Some e => if len e =? len t then Ok (len t) else Raise ValueError
  end.

(** [get_skip_reading_prefix_cache] *)
Definition get_skip_reading_prefix_cache (sp : option SamplingParams) (pp : option PoolingParams) : bool :=
  match sp ≫= sp_skip_reading_prefix_cache with
  | Some b => b
  | None => default false (pp ≫= pp_skip_reading_prefix_cache)
  end.

(** The arguments of [Request.__init__]; [arrival_time] is always supplied by
    the engine. *)
Record RequestArgs := MkArgs {
  a_request_id : string;
  a_prompt_token_ids : option (list Z);
  a_sampling_params : option SamplingParams;
  a_pooling_params : option PoolingParams;
  a_client_index : Z;
  a_arrival_time : Z;
  a_prompt_embeds : option (list bytes);
  a_mm_features : list MultiModalFeatureSpec;
  a_lora_request : option LoRARequest;
  a_cache_salt : option string;
  a_priority : Z;
  a_resumable : bool;
}.

(** [max_tokens] and the initial status. *)
Definition init_max_tokens (a : RequestArgs) : res (Z * RequestStatus) :=
  match a_pooling_params a, a_sampling_params a with
  | Some _, _ => Ok (1, WAITING)
  | None, Some sp =>
      match sp_max_tokens sp with
      | None => Raise AssertionError
      | Some m => Ok (m, if structured_outputs sp then WAITING_FOR_STRUCTURED_OUTPUT_GRAMMAR else WAITING)
      end
  | None, None => Raise ValueError
  end.

(** [Request.__init__] up to [update_block_hashes()], which is applied to the
    result by [BlockHash.request_init]. *)
Definition request_init_fields (a : RequestArgs) : res Request :=
  match init_max_tokens a with
  | Raise e => Raise e
  | Ok (max_tokens, status) =>
      match length_from_prompt_token_ids_or_embeds (a_prompt_token_ids a) (a_prompt_embeds a) with
      | Raise e => Raise e
      | Ok n =>
          Ok (MkRequest (a_request_id a) (a_client_index a) (a_priority a) (a_arrival_time a)
            (a_sampling_params a) (a_pooling_params a) (a_lora_request a)
            (match a_sampling_params a with Some sp => structured_outputs sp | None => false end)
            false status None max_tokens (a_prompt_token_ids a) (a_prompt_embeds a) ∅ n []
            (match a_prompt_token_ids a with Some t => t | None => py_repeat 0 n end)
            0 false [] 0 (a_cache_salt a) (a_mm_features a) false 0 0 (Some new_prefill_stats) []
            (get_skip_reading_prefix_cache (a_sampling_params a) (a_pooling_params a))
            (a_resumable a) None)
      end
  end.

(** A plain text request, used in examples. *)
Definition text_args (id : string) (tokens : list Z) (lora : option LoRARequest) (salt : option string)
    (feats : list MultiModalFeatureSpec) : RequestArgs :=
  MkArgs id (Some tokens) (Some (MkSampling (Some 16) false None 0 None [] None)) None 0 0 None feats lora salt 0 false.
Definition text_request (id : string) (tokens : list Z) (lora : option LoRARequest) (salt : option string)
    (feats : list MultiModalFeatureSpec) : Request :=
  MkRequest id 0 0 0 (Some (MkSampling (Some 16) false None 0 None [] None)) None lora false false
    WAITING None 16 (Some tokens) None ∅ (len tokens) [] tokens 0 false [] 0 salt feats false 0 0 (Some new_prefill_stats) []
    false false None.
