(* ===== verification/BlockHash.v ===== *)
(** * Block hashing for prefix caching (vllm/v1/core/kv_cache_utils.py)

    - group-tagged keys ([make_block_hash_with_group_id] and its inverses);
    - the extra keys of a block (LoRA name, multimodal items, cache salt,
      prompt embeddings) and the chain of block hashes of a request;
    - [BlockHashListWithBlockSize], the view at a coarser granularity.

    The hash function and [NONE_HASH] are parameters, as in the source, where
    they are chosen by configuration; [CollisionFree] names what prefix
    caching relies on. *)

From S2P Require Import Prelude RequestModel.

(** ** Group-tagged keys *)

(** [n.to_bytes(4, "big", signed=False)] *)
Definition byte_of_Z (z : Z) : byte := default x00 (Byte.of_N (Z.to_N z)).
Definition Z_of_byte (b : byte) : Z := Z.of_N (Byte.to_N b).

Definition to_bytes4 (n : Z) : res bytes :=
  if (0 <=? n) && (n <? 2 ^ 32) then
    Ok [byte_of_Z (n / 2 ^ 24 mod 256); byte_of_Z (n / 2 ^ 16 mod 256);
        byte_of_Z (n / 2 ^ 8 mod 256); byte_of_Z (n mod 256)]
  else Raise OverflowError.

(** [int.from_bytes(b, "big")] *)
Definition from_bytes (b : bytes) : Z := foldl (λ acc x, acc * 256 + Z_of_byte x) 0 b.

Definition make_block_hash_with_group_id (block_hash : bytes) (group_id : Z) : res bytes :=
  match to_bytes4 group_id with
  | Ok g => Ok (block_hash ++ g)
  | Raise e => Raise e
  end.

(** [key[:-4]], [int.from_bytes(key[-4:], "big")] *)
Definition get_block_hash (key : bytes) : bytes := py_slice_to key (-4).
Definition get_group_id (key : bytes) : Z := from_bytes (py_slice_from key (-4)).

(** [ExternalBlockHash = bytes | int] *)
Inductive ExternalBlockHash :=
  | ExtBytes (b : bytes)
  | ExtInt (z : Z).

(** [maybe_convert_block_hash]; the flag is VLLM_KV_EVENTS_USE_INT_BLOCK_HASHES. *)
Definition maybe_convert_block_hash (use_int : bool) (hash_bytes : bytes) : ExternalBlockHash :=
  if negb use_int then ExtBytes hash_bytes
  else ExtInt (Z.land (from_bytes hash_bytes) (Z.shiftl 1 64 - 1)).

(** ** Extra keys *)

(** The elements of an [extra_keys] tuple.  A LoRA name and a cache salt are
    both plain [str] values. *)
Inductive extra_key :=
  | KStr (s : string)
  | KItem (identifier : string) (rel_offset : Z)
  | KBytes (b : bytes).

#[global] Instance extra_key_eq_dec : EqDecision extra_key.
Proof. solve_decision. Defined.

Definition need_extra_keys (r : Request) : bool :=
  (0 <? len (mm_features r)) || bool_decide (is_Some (lora_request r))
  || bool_decide (is_Some (cache_salt r)).

Definition mm_end (f : MultiModalFeatureSpec) : Z := offset (mm_position f) + length_ (mm_position f).

(** The [while] loop of [_gen_mm_extra_hash_keys] on the features from
    [curr_mm_idx] on. *)
Fixpoint mm_keys_loop (feats : list MultiModalFeatureSpec) (curr_mm_idx start_token_idx end_token_idx : Z)
    : list extra_key * Z :=
  match feats with
  | [] => ([], curr_mm_idx)
  | f :: feats =>
      let off := offset (mm_position f) in
      if off <? end_token_idx then
        if mm_end f <=? start_token_idx then
          mm_keys_loop feats (curr_mm_idx + 1) start_token_idx end_token_idx
        else
          let key := KItem (identifier f) (off - start_token_idx) in
          if mm_end f <=? end_token_idx then
            let '(ks, i) := mm_keys_loop feats (curr_mm_idx + 1) start_token_idx end_token_idx in
            (key :: ks, i)
          else ([key], curr_mm_idx)
      else ([], curr_mm_idx)
  end.

(** [_gen_mm_extra_hash_keys] *)
Definition gen_mm_extra_hash_keys (r : Request) (start_token_idx end_token_idx start_mm_idx : Z)
    : res (list extra_key * Z) :=
  match last (mm_features r) with
  | None => Ok ([], start_mm_idx)
  | Some lastf =>
      if mm_end lastf <=? start_token_idx then Ok ([], start_mm_idx)
      else if (start_mm_idx <? 0) && (len (mm_features r) <? - start_mm_idx) then Raise AssertionError
      else
        let idx := if start_mm_idx <? 0 then len (mm_features r) + start_mm_idx else start_mm_idx in
        Ok (mm_keys_loop (drop (Z.to_nat idx) (mm_features r)) idx start_token_idx end_token_idx)
  end.

(** [_gen_lora_extra_hash_keys] *)
Definition gen_lora_extra_hash_keys (r : Request) : list extra_key :=
  match lora_request r with None => [] | Some l => [KStr (lora_name l)] end.

(** [[request.cache_salt] if (start_token_idx == 0 and request.cache_salt) else []];
    the empty string is falsy. *)
Definition cache_salt_keys (r : Request) (start_token_idx : Z) : list extra_key :=
  match cache_salt r with
  | Some s => if (start_token_idx =? 0) && negb (String.eqb s EmptyString) then [KStr s] else []
  | None => []
  end.

Definition falsy (h : option bytes) : bool :=
  match h with None | Some [] => true | Some (_ :: _) => false end.

Section hashing.
(** [hashlib.sha256(..).digest()] on the raw embeddings, [caching_hash_fn] and
    [NONE_HASH]. *)
Variable sha256 : bytes → bytes.
Variable hash_function : bytes * list Z * option (list extra_key) → bytes.
Variable NONE_HASH : bytes.

(** [_gen_prompt_embeds_extra_hash_keys], with its memo on the request. *)
Definition gen_prompt_embeds_extra_hash_keys (start_token_idx end_token_idx : Z)
    : M Request (list extra_key) :=
  let! r := gets id in
  match prompt_embeds r with
  | None => ret []
  | Some embeds =>
      let block_range := (start_token_idx, end_token_idx) in
      match prompt_embeds_per_block_hashes r !! block_range with
      | Some h => ret [KBytes h]
      | None =>
          let h := sha256 (concat (py_slice embeds start_token_idx end_token_idx)) in
          modify (λ r, set_prompt_embeds_per_block_hashes
                         (<[block_range := h]> (prompt_embeds_per_block_hashes r)) r) ;;;
          ret [KBytes h]
      end
  end.

(** [generate_block_hash_extra_keys] *)
Definition generate_block_hash_extra_keys (start_token_idx end_token_idx start_mm_idx : Z)
    : M Request (option (list extra_key) * Z) :=
  let! r := gets id in
  match gen_mm_extra_hash_keys r start_token_idx end_token_idx start_mm_idx with
  | Raise e => raise e
  | Ok (mm_extra_keys, new_start_mm_idx) =>
      let lora_extra_keys := gen_lora_extra_hash_keys r in
      let salt_keys := cache_salt_keys r start_token_idx in
      let! prompt_embeds_keys := gen_prompt_embeds_extra_hash_keys start_token_idx end_token_idx in
      let extra_keys := lora_extra_keys ++ mm_extra_keys ++ salt_keys ++ prompt_embeds_keys in
      ret (match extra_keys with [] => None | _ => Some extra_keys end, new_start_mm_idx)
  end.

(** [hash_block_tokens]; [not parent_block_hash] also holds of empty bytes. *)
Definition hash_block_tokens (parent_block_hash : option bytes) (curr_block_token_ids : list Z)
    (extra_keys : option (list extra_key)) : bytes :=
  let parent := if falsy parent_block_hash then NONE_HASH else default NONE_HASH parent_block_hash in
  hash_function (parent, curr_block_token_ids, extra_keys).

(** The [while True] loop of [request_block_hasher]. *)
Fixpoint block_hasher_loop (fuel : nat) (block_size start_token_idx curr_mm_idx : Z)
    (prev : option bytes) (new_block_hashes : list bytes) : M Request (list bytes) :=
  match fuel with
  | O => raise OutOfFuel
  | S fuel =>
      let! r := gets id in
      let end_token_idx := start_token_idx + block_size in
      if num_tokens r <? end_token_idx then ret new_block_hashes
      else
        let! ek := generate_block_hash_extra_keys start_token_idx end_token_idx curr_mm_idx in
        let block_tokens := py_slice (all_token_ids r) start_token_idx end_token_idx in
        let block_hash := hash_block_tokens prev block_tokens ek.1 in
        block_hasher_loop fuel block_size (start_token_idx + block_size) ek.2
          (Some block_hash) (new_block_hashes ++ [block_hash])
  end.

(** [get_request_block_hasher(block_size, caching_hash_fn)(request)].  Each
    iteration consumes [block_size] tokens, so for a positive block size
    [num_tokens + 1] iterations are enough. *)
Definition request_block_hasher (block_size : Z) : M Request (list bytes) :=
  let! r := gets id in
  let start_token_idx := len (block_hashes r) * block_size in
  if num_tokens r <? start_token_idx + block_size then ret []
  else
    let curr_mm_idx := if 0 <? start_token_idx then -1 else 0 in
    block_hasher_loop (S (Z.to_nat (num_tokens r))) block_size start_token_idx curr_mm_idx
      (last (block_hashes r)) [].

(** [Request.update_block_hashes()]; no hasher is installed when prefix caching is off. *)
Definition update_block_hashes (block_hasher : option Z) : M Request unit :=
  match block_hasher with
  | None => ret tt
  | Some block_size =>
      let! hs := request_block_hasher block_size in
      modify (λ r, set_block_hashes (block_hashes r ++ hs) r)
  end.

(** [Request.append_output_token_ids(token_ids)] *)
Definition append_output_token_ids (block_hasher : option Z) (token_ids : list Z) : M Request unit :=
  modify (λ r, set_output_token_ids (output_token_ids r ++ token_ids) r) ;;;
  modify (λ r, set_all_token_ids (all_token_ids r ++ token_ids) r) ;;;
  update_block_hashes block_hasher.

(** [Request.__init__(..., block_hasher)] *)
Definition request_init (a : RequestArgs) (block_hasher : option Z) : res Request :=
  match request_init_fields a with
  | Raise e => Raise e
  | Ok r =>
      match update_block_hashes block_hasher r with
      | (Ok _, r') => Ok r'
      | (Raise e, _) => Raise e
      end
  end.

End hashing.

(** ** BlockHashListWithBlockSize *)

Record BlockHashListWithBlockSize := MkHashList {
  hl_block_hashes : list bytes;
  scale_factor : Z;
}.

(** [__init__] *)
Definition mk_hash_list (block_hashes : list bytes) (hash_block_size target_block_size : Z)
    : res BlockHashListWithBlockSize :=
  if target_block_size mod hash_block_size =? 0 then
    Ok (MkHashList block_hashes (target_block_size / hash_block_size))
  else Raise AssertionError.

(** [__len__] *)
Definition hl_len (hl : BlockHashListWithBlockSize) : Z := len (hl_block_hashes hl) / scale_factor hl.

(** [_get_value_at(idx)]; [None] is an IndexError. *)
Definition hl_get (hl : BlockHashListWithBlockSize) (idx : Z) : option bytes :=
  let base := idx * scale_factor hl in
  let end_ := base + scale_factor hl in
  first ← py_get (hl_block_hashes hl) base;
  foldl (λ acc i, m ← acc; h ← py_get (hl_block_hashes hl) i; Some (m ++ h)) (Some first)
    (py_range (base + 1) end_).

(** [hl[start:]] and iteration: [[_get_value_at(i) for i in range(start, len(self))]]. *)
Definition hl_slice_from (hl : BlockHashListWithBlockSize) (start : Z) : option (list bytes) :=
  mapM (hl_get hl) (py_range (slice_bound (hl_len hl) start) (hl_len hl)).

(** [BlockHashList = list[BlockHash] | BlockHashListWithBlockSize] *)
Inductive BlockHashList :=
  | PlainHashes (l : list bytes)
  | ScaledHashes (hl : BlockHashListWithBlockSize).

Definition bhl_get (l : BlockHashList) (i : Z) : option bytes :=
  match l with PlainHashes l => py_get l i | ScaledHashes hl => hl_get hl i end.
Definition bhl_slice_from (l : BlockHashList) (i : Z) : option (list bytes) :=
  match l with PlainHashes l => Some (py_slice_from l i) | ScaledHashes hl => hl_slice_from hl i end.
Definition bhl_len (l : BlockHashList) : Z :=
  match l with PlainHashes l => len l | ScaledHashes hl => hl_len hl end.

(** ** Group keys: round trip *)

Lemma byte_of_Z_to z : 0 ≤ z < 256 → Z_of_byte (byte_of_Z z) = z.
Proof.
  intros Hz. unfold Z_of_byte, byte_of_Z.
  destruct (Byte.of_N (Z.to_N z)) as [b|] eqn:E; simpl.
  - apply Byte.to_of_N in E. rewrite E. lia.
  - apply Byte.of_N_None_iff in E. lia.
Qed.

Lemma to_bytes4_spec n :
  0 ≤ n < 2 ^ 32 → ∃ g, to_bytes4 n = Ok g ∧ len g = 4 ∧ from_bytes g = n.
Proof.
  intros Hn. unfold to_bytes4.
  destruct (Z.leb_spec 0 n), (Z.ltb_spec n (2 ^ 32)); try lia. simpl.
  eexists. split_and!; [done..|]. unfold from_bytes. simpl.
  rewrite !byte_of_Z_to by (apply Z.mod_pos_bound; lia).
  replace (n / 2 ^ 24 mod 256) with (n / 2 ^ 24) by (symmetry; apply Z.mod_small; split;
    [apply Z.div_pos; lia|apply Z.div_lt_upper_bound; lia]).
  change (2 ^ 24) with (256 * 256 * 256). change (2 ^ 16) with (256 * 256). change (2 ^ 8) with 256.
  rewrite <-!Z.div_div by lia.
  pose proof (Z.div_mod n 256 ltac:(lia)). pose proof (Z.div_mod (n / 256) 256 ltac:(lia)).
  pose proof (Z.div_mod (n / 256 / 256) 256 ltac:(lia)). lia.
Qed.

Lemma slice_last4 (h g : bytes) :
  len g = 4 → py_slice_to (h ++ g) (-4) = h ∧ py_slice_from (h ++ g) (-4) = g.
Proof.
  intros Hg. unfold py_slice_to, py_slice_from, slice_bound. rewrite len_app, Hg.
  change (-4 <? 0) with true. cbn match. pose proof (len_nonneg h).
  replace (Z.to_nat (Z.max 0 (-4 + (len h + 4)))) with (length h) by (unfold len in *; lia).
  by rewrite take_app_length, drop_app_length.
Qed.

Lemma make_key_inv h g k :
  make_block_hash_with_group_id h g = Ok k →
  0 ≤ g < 2 ^ 32 ∧ get_block_hash k = h ∧ get_group_id k = g.
Proof.
  unfold make_block_hash_with_group_id. intros Hk.
  assert (0 ≤ g < 2 ^ 32) as Hg.
  { unfold to_bytes4 in Hk. destruct (Z.leb_spec 0 g), (Z.ltb_spec g (2 ^ 32)); simpl in Hk; done. }
  destruct (to_bytes4_spec g Hg) as (b & Hb & Hl & Hf). rewrite Hb in Hk. simplify_eq.
  unfold get_block_hash, get_group_id. destruct (slice_last4 h b Hl) as [-> ->]. done.
Qed.

(** A block hash and a KV-cache group id are packed into one key without
    loss: for every group id that fits four bytes the packing succeeds and
    both parts are recovered; any other id raises [OverflowError]; and two
    (hash, group) pairs with the same key are equal, so groups never share
    cache entries. *)
Theorem group_key_roundtrip (h : bytes) (g : Z) :
  (0 ≤ g < 2 ^ 32 → ∃ k, make_block_hash_with_group_id h g = Ok k ∧
     get_block_hash k = h ∧ get_group_id k = g) ∧
  (¬ 0 ≤ g < 2 ^ 32 → make_block_hash_with_group_id h g = Raise OverflowError) ∧
  (∀ k h' g', make_block_hash_with_group_id h g = Ok k →
     make_block_hash_with_group_id h' g' = Ok k → h = h' ∧ g = g').
Proof.
  split_and!.
  - intros Hg. destruct (to_bytes4_spec g Hg) as (b & Hb & Hl & Hf).
    assert (make_block_hash_with_group_id h g = Ok (h ++ b)) as Hm
      by (unfold make_block_hash_with_group_id; by rewrite Hb).
    exists (h ++ b). split; [done|]. by apply make_key_inv in Hm as (_ & ? & ?).
  - intros Hg. unfold make_block_hash_with_group_id, to_bytes4.
    by destruct (Z.leb_spec 0 g), (Z.ltb_spec g (2 ^ 32)); simpl; try lia.
  - intros k h' g' (_ & <- & <-)%make_key_inv (_ & <- & <-)%make_key_inv. done.
Qed.

(** ** Multimodal keys against a declarative definition *)

(** All items that overlap the token range, with their offset in it. *)
Definition overlap_keys (feats : list MultiModalFeatureSpec) (s e : Z) : list extra_key :=
  omap (λ f, if (offset (mm_position f) <? e) && (s <? mm_end f)
             then Some (KItem (identifier f) (offset (mm_position f) - s)) else None) feats.

(** "we assume mm_features are sorted by mm_position.offset": items follow
    each other without overlap. *)
Fixpoint mm_sorted (feats : list MultiModalFeatureSpec) : Prop :=
  match feats with
  | [] => True
  | f :: rest => 0 ≤ length_ (mm_position f) ∧
      Forall (λ g, mm_end f ≤ offset (mm_position g)) rest ∧ mm_sorted rest
  end.

Lemma overlap_keys_after feats s e :
  Forall (λ g, e ≤ offset (mm_position g)) feats → overlap_keys feats s e = [].
Proof.
  induction 1 as [|g feats Hg _ IH]; [done|]. unfold overlap_keys in *. simpl.
  destruct (Z.ltb_spec (offset (mm_position g)) e); [lia|]. simpl. apply IH.
Qed.

Lemma overlap_keys_before feats s e :
  Forall (λ g, mm_end g ≤ s) feats → overlap_keys feats s e = [].
Proof.
  induction 1 as [|g feats Hg _ IH]; [done|]. unfold overlap_keys in *. simpl.
  destruct (Z.ltb_spec s (mm_end g)); [lia|]. rewrite andb_false_r. apply IH.
Qed.

Lemma overlap_keys_drop k feats s e :
  Forall (λ g, mm_end g ≤ s) (take k feats) → overlap_keys (drop k feats) s e = overlap_keys feats s e.
Proof.
  intros H. rewrite <-(take_drop k feats) at 2. unfold overlap_keys. rewrite omap_app.
  change (omap _ (take k feats)) with (overlap_keys (take k feats) s e).
  by rewrite overlap_keys_before.
Qed.

Lemma mm_sorted_drop k feats : mm_sorted feats → mm_sorted (drop k feats).
Proof. revert feats. induction k as [|k IH]; intros [|f feats]; auto. intros (_ & _ & H). by apply IH. Qed.

(** The loop finds exactly the overlapping items, and the index it returns has
    only items behind it that end within the block. *)
Lemma mm_keys_loop_spec feats idx s e :
  mm_sorted feats → s ≤ e →
  ∃ k, (k ≤ length feats)%nat ∧ Forall (λ g, mm_end g ≤ e) (take k feats) ∧
    mm_keys_loop feats idx s e = (overlap_keys feats s e, idx + Z.of_nat k).
Proof.
  revert idx. induction feats as [|f feats IH]; intros idx Hsort Hse.
  { exists 0%nat. simpl. rewrite Z.add_0_r. split_and!; [lia|constructor|done]. }
  destruct Hsort as (Hlen & Hrest & Hsort). simpl.
  unfold overlap_keys. simpl. fold (overlap_keys feats s e).
  destruct (Z.ltb_spec (offset (mm_position f)) e) as [Ho|Ho]; simpl.
  - destruct (IH (idx + 1) Hsort Hse) as (k & Hk & HF & Heq).
    destruct (Z.leb_spec (mm_end f) s) as [Hs|Hs], (Z.ltb_spec s (mm_end f)); try lia.
    + exists (S k). rewrite Heq. split_and!; [simpl; lia|constructor; [lia|done]|f_equal; lia].
    + destruct (Z.leb_spec (mm_end f) e) as [He|He].
      * exists (S k). rewrite Heq. split_and!; [simpl; lia|by constructor|f_equal; lia].
      * exists 0%nat. split_and!; [lia|constructor|]. rewrite Z.add_0_r.
        change (omap _ feats) with (overlap_keys feats s e).
        rewrite overlap_keys_after; [done|]. eapply Forall_impl; [done|]. simpl. lia.
  - exists 0%nat. split_and!; [lia|constructor|]. rewrite Z.add_0_r.
    change (omap _ feats) with (overlap_keys feats s e).
    rewrite overlap_keys_after; [done|]. eapply Forall_impl; [done|]. unfold mm_end. simpl. lia.
Qed.

(** A starting index that skips only items lying before [s]; a negative index
    counts from the end. *)
Definition idx_ok (feats : list MultiModalFeatureSpec) (s idx : Z) : Prop :=
  feats = [] ∨ ∃ k, (k ≤ length feats)%nat ∧ Forall (λ g, mm_end g ≤ s) (take k feats) ∧
    (idx = Z.of_nat k ∨ idx < 0 ∧ idx + len feats = Z.of_nat k).

Lemma mm_sorted_last feats lastf :
  mm_sorted feats → last feats = Some lastf → Forall (λ g, mm_end g ≤ mm_end lastf) feats.
Proof.
  intros Hs Hl. induction feats as [|f feats IH]; [done|]. destruct Hs as (H0 & Hf & Hs).
  destruct feats as [|g feats].
  { simpl in Hl. simplify_eq. repeat constructor. lia. }
  rewrite last_cons_cons in Hl. specialize (IH Hs Hl). constructor; [|done].
  apply Forall_cons in Hf as [Hfg _]. apply Forall_cons in IH as [Hg _].
  destruct Hs as (Hg0 & _ & _). unfold mm_end in *. lia.
Qed.

Lemma Forall_mono_end feats s e :
  s ≤ e → Forall (λ g, mm_end g ≤ s) feats → Forall (λ g, mm_end g ≤ e) feats.
Proof. intros. eapply Forall_impl; [done|]. simpl. lia. Qed.

Lemma gen_mm_extra_hash_keys_spec r s e idx :
  mm_sorted (mm_features r) → s ≤ e → idx_ok (mm_features r) s idx →
  ∃ idx', gen_mm_extra_hash_keys r s e idx = Ok (overlap_keys (mm_features r) s e, idx') ∧
    idx_ok (mm_features r) e idx'.
Proof.
  intros Hsort Hse Hidx. unfold gen_mm_extra_hash_keys.
  destruct (last (mm_features r)) as [lastf|] eqn:Hl.
  2:{ apply last_None in Hl. exists idx. rewrite Hl. split; [done|]. by left. }
  destruct Hidx as [Hidx|(k & Hk & HF & Hidx)]; [by rewrite Hidx in Hl|].
  destruct (Z.leb_spec (mm_end lastf) s) as [Hls|Hls].
  - exists idx. pose proof (mm_sorted_last _ _ Hsort Hl) as HL.
    rewrite overlap_keys_before by (eapply Forall_impl; [done|]; simpl; lia).
    split; [done|]. right. exists k. split_and!; [done|by eapply Forall_mono_end|done].
  - assert (∃ i, (if idx <? 0 then len (mm_features r) + idx else idx) = i ∧ i = Z.of_nat k ∧
      (idx <? 0) && (len (mm_features r) <? - idx) = false) as (i & -> & -> & ->).
    { eexists. split; [done|]. destruct (Z.ltb_spec idx 0), Hidx; try lia. }
    rewrite Nat2Z.id.
    destruct (mm_keys_loop_spec (drop k (mm_features r)) (Z.of_nat k) s e) as (k' & Hk' & HF' & ->).
    { by apply mm_sorted_drop. }
    { done. }
    rewrite overlap_keys_drop by done. eexists. split; [done|]. right.
    exists (k + k')%nat. rewrite length_drop in Hk'. split_and!; [lia| |left; lia].
    rewrite <-take_take_drop. apply Forall_app. split; [by eapply Forall_mono_end|done].
Qed.

(** ** The hash chain *)

Section chain.
Variable sha256 : bytes → bytes.
Variable hash_function : bytes * list Z * option (list extra_key) → bytes.
Variable NONE_HASH : bytes.

(** The extra keys of the token range [s, e), from the request's data alone. *)
Definition ref_extra (r : Request) (s e : Z) : option (list extra_key) :=
  let embeds := match prompt_embeds r with
                | None => []
                | Some em => [KBytes (sha256 (concat (py_slice em s e)))]
                end in
  match gen_lora_extra_hash_keys r ++ overlap_keys (mm_features r) s e ++ cache_salt_keys r s ++ embeds with
  | [] => None
  | ks => Some ks
  end.

Definition ref_block_hash (r : Request) (block_size : Z) (parent : option bytes) (s : Z) : bytes :=
  hash_block_tokens hash_function NONE_HASH parent (py_slice (all_token_ids r) s (s + block_size))
    (ref_extra r s (s + block_size)).

(** The hashes of the [n] blocks from token [s] on, each over its parent. *)
Fixpoint ref_chain (r : Request) (block_size : Z) (parent : option bytes) (s : Z) (n : nat) : list bytes :=
  match n with
  | O => []
  | S n =>
      let h := ref_block_hash r block_size parent s in
      h :: ref_chain r block_size (Some h) (s + block_size) n
  end.

(** The hashes of all full blocks of the request. *)
Definition ref_hashes (r : Request) (block_size : Z) : list bytes :=
  ref_chain r block_size None 0 (Z.to_nat (num_tokens r / block_size)).

(** The memo of the embeddings' hashes only holds true hashes. *)
Definition memo_ok (r : Request) : Prop :=
  ∀ a b h em, prompt_embeds_per_block_hashes r !! (a, b) = Some h → prompt_embeds r = Some em →
    h = sha256 (concat (py_slice em a b)).

(** [r'] is [r] with more tokens at the end; only what hashing does not read
    may differ besides. *)
Definition extends (r r' : Request) : Prop :=
  (∃ t, all_token_ids r' = all_token_ids r ++ t) ∧ prompt_embeds r' = prompt_embeds r ∧
  mm_features r' = mm_features r ∧ lora_request r' = lora_request r ∧ cache_salt r' = cache_salt r.

Lemma extends_memo m r : extends r (set_prompt_embeds_per_block_hashes m r).
Proof. split_and!; try done. exists []. by rewrite app_nil_r. Qed.

Lemma ref_extra_extends r r' s e : extends r r' → ref_extra r' s e = ref_extra r s e.
Proof.
  intros (_ & He & Hm & Hl & Hs). unfold ref_extra, gen_lora_extra_hash_keys, cache_salt_keys.
  by rewrite He, Hm, Hl, Hs.
Qed.

Lemma py_slice_app_le {A} (l t : list A) a b :
  0 ≤ a → a ≤ b → b ≤ len l → py_slice (l ++ t) a b = py_slice l a b.
Proof.
  intros Ha Hab Hb. rewrite !py_slice_nonneg by lia. unfold len in Hb.
  rewrite drop_app_le by lia. rewrite take_app_le; [done|]. rewrite length_drop. lia.
Qed.

Lemma ref_chain_extends r r' bs p s n :
  extends r r' → 0 < bs → 0 ≤ s → s + Z.of_nat n * bs ≤ num_tokens r →
  ref_chain r' bs p s n = ref_chain r bs p s n.
Proof.
  intros Hx Hbs. revert p s. induction n as [|n IH]; intros p s Hs Hn; [done|].
  cbn [ref_chain]. unfold ref_block_hash. rewrite (ref_extra_extends _ _ _ _ Hx).
  destruct Hx as ((t & Ht) & Hx). rewrite Ht. unfold num_tokens in Hn.
  rewrite (py_slice_app_le _ _ s) by nia. f_equal. apply IH; unfold num_tokens; nia.
Qed.

Lemma ref_chain_app r bs p s n m :
  ref_chain r bs p s (n + m) =
  ref_chain r bs p s n ++
    ref_chain r bs (match last (ref_chain r bs p s n) with Some h => Some h | None => p end)
      (s + Z.of_nat n * bs) m.
Proof.
  revert p s. induction n as [|n IH]; intros p s.
  { cbn [ref_chain last app Nat.add]. by rewrite Z.add_0_r. }
  cbn [Nat.add ref_chain app]. f_equal. rewrite IH. f_equal.
  replace (s + bs + Z.of_nat n * bs) with (s + Z.of_nat (S n) * bs) by lia.
  f_equal. destruct n; [done|]. cbn [ref_chain]. rewrite last_cons_cons, !last_cons. by destruct (last _).
Qed.

Lemma ref_chain_length r bs p s n : length (ref_chain r bs p s n) = n.
Proof. revert p s. induction n as [|n IH]; intros; simpl; [done|]. by rewrite IH. Qed.

(** One call of [generate_block_hash_extra_keys]. *)
Lemma generate_extra_keys_spec r s e idx :
  mm_sorted (mm_features r) → s ≤ e → idx_ok (mm_features r) s idx → memo_ok r →
  wp (generate_block_hash_extra_keys sha256 s e idx) (λ ek r', ∃ m,
    r' = set_prompt_embeds_per_block_hashes m r ∧ memo_ok r' ∧
    ek.1 = ref_extra r s e ∧ idx_ok (mm_features r) e ek.2) r.
Proof.
  intros Hsort Hse Hidx Hmemo. unfold generate_block_hash_extra_keys. wp_step. wp_step. unfold id.
  destruct (gen_mm_extra_hash_keys_spec r s e idx) as (idx' & -> & Hidx'); try done.
  unfold ref_extra, gen_prompt_embeds_extra_hash_keys. wp_step. wp_step. wp_step. unfold id.
  destruct (prompt_embeds r) as [em|] eqn:Hem; 
    [|wp_steps; exists (prompt_embeds_per_block_hashes r); split_and!; [by destruct r|done|by destruct (_ ++ _)|done]].
  destruct (prompt_embeds_per_block_hashes r !! (s, e)) as [h|] eqn:Hh.
  - rewrite <-(Hmemo _ _ _ _ Hh Hem). wp_steps.
    exists (prompt_embeds_per_block_hashes r); split_and!; [by destruct r|done|by destruct (_ ++ _)|done].
  - wp_steps. eexists. split; [done|]. split; [|by destruct (_ ++ _)].
    intros a b h em' Hh' Hem'. cbn in Hh', Hem'. rewrite Hem in Hem'. simplify_eq.
    apply lookup_insert_Some in Hh' as [[[= -> ->] <-]|[_ Hh']]; [done|]. by eapply Hmemo.
Qed.

Lemma ref_chain_memo m r bs p s n :
  ref_chain (set_prompt_embeds_per_block_hashes m r) bs p s n = ref_chain r bs p s n.
Proof.
  revert p s. induction n as [|n IH]; intros; [done|]. cbn [ref_chain]. by rewrite IH.
Qed.

(** The loop produces the rest of the chain; [fuel] exceeding the number of
    full blocks left is enough. *)
Lemma block_hasher_loop_spec fuel r bs s idx p acc :
  0 < bs → 0 ≤ s ≤ num_tokens r → mm_sorted (mm_features r) → memo_ok r → idx_ok (mm_features r) s idx →
  num_tokens r - s < Z.of_nat fuel * bs →
  wp (block_hasher_loop sha256 hash_function NONE_HASH fuel bs s idx p acc) (λ hs r', ∃ m,
    r' = set_prompt_embeds_per_block_hashes m r ∧ memo_ok r' ∧
    hs = acc ++ ref_chain r bs p s (Z.to_nat ((num_tokens r - s) / bs))) r.
Proof.
  intros Hbs. revert r s idx p acc. induction fuel as [|fuel IH]; intros r s idx p acc Hs Hsort Hmemo Hidx Hf; [lia|].
  cbn [block_hasher_loop]. wp_step. wp_step. unfold id.
  destruct (Z.ltb_spec (num_tokens r) (s + bs)) as [Hlt|Hge].
  { wp_step. exists (prompt_embeds_per_block_hashes r). rewrite Z.div_small by lia.
    cbn [ref_chain]. rewrite app_nil_r. split_and!; [by destruct r|done|done]. }
  wp_step. eapply wp_mono; [apply (generate_extra_keys_spec r s (s + bs) idx); auto; lia|].
  intros ek r' (m & -> & Hmemo' & Hek & Hidx').
  eapply wp_mono; [apply IH; auto|].
  { change (num_tokens _) with (num_tokens r). lia. }
  { change (num_tokens _) with (num_tokens r). lia. }
  intros hs r' (m' & -> & Hm' & ->). exists m'. split_and!; [by destruct r|done|].
  change (num_tokens _) with (num_tokens r). rewrite ref_chain_memo.
  replace (num_tokens r - s) with (num_tokens r - (s + bs) + 1 * bs) by lia.
  rewrite Z.div_add by lia.
  assert (0 ≤ (num_tokens r - (s + bs)) / bs) by (apply Z.div_pos; lia).
  rewrite Z2Nat.inj_add, Nat.add_comm by lia. change (Z.to_nat 1) with 1%nat.
  cbn [Nat.add ref_chain]. unfold ref_block_hash. by rewrite <-Hek, <-app_assoc.
Qed.

(** What the hasher needs of the items when it resumes after the first call:
    it restarts at the last item ([curr_mm_idx = -1]), so all items before the
    last one must end inside the blocks hashed already. *)
Definition items_hashed (r : Request) (block_size : Z) : Prop :=
  block_hashes r = [] ∨
  Forall (λ g, mm_end g ≤ len (block_hashes r) * block_size)
    (take (length (mm_features r) - 1) (mm_features r)).

(** The hasher extends a correct prefix of the chain to the full chain. *)
Lemma request_block_hasher_spec r bs n :
  0 < bs → mm_sorted (mm_features r) → memo_ok r → items_hashed r bs →
  Z.of_nat n * bs ≤ num_tokens r → block_hashes r = ref_chain r bs None 0 n →
  wp (request_block_hasher sha256 hash_function NONE_HASH bs) (λ hs r', ∃ m,
    r' = set_prompt_embeds_per_block_hashes m r ∧ memo_ok r' ∧
    block_hashes r ++ hs = ref_hashes r bs) r.
Proof.
  intros Hbs Hsort Hmemo Hitems Hn Hbh. unfold request_block_hasher, ref_hashes.
  assert (len (block_hashes r) = Z.of_nat n) as Hlen by (unfold len; by rewrite Hbh, ref_chain_length).
  wp_step. wp_step. unfold id. rewrite Hlen.
  assert (Z.of_nat n ≤ num_tokens r / bs) as Hq by (apply Z.div_le_lower_bound; lia).
  destruct (Z.ltb_spec (num_tokens r) (Z.of_nat n * bs + bs)) as [Hlt|Hge].
  - wp_step. exists (prompt_embeds_per_block_hashes r). split_and!; [by destruct r|done|].
    assert (num_tokens r / bs = Z.of_nat n) as ->.
    { symmetry. apply (Z.div_unique_pos _ _ _ (num_tokens r - Z.of_nat n * bs)); lia. }
    by rewrite Nat2Z.id, app_nil_r.
  - eapply wp_mono; [apply block_hasher_loop_spec; auto; [lia| |]|].
    + destruct (mm_features r) as [|f fs] eqn:Hfs; [by left|rewrite <-Hfs in *].
      assert (0 < length (mm_features r))%nat by (rewrite Hfs; simpl; lia). right.
      destruct (Z.ltb_spec 0 (Z.of_nat n * bs)) as [Hp|Hp].
      * exists (length (mm_features r) - 1)%nat. split_and!; [lia| |right; unfold len; lia].
        destruct Hitems as [He|Hi]; [rewrite He, len_nil in Hlen; nia|by rewrite Hlen in Hi].
      * exists 0%nat. split_and!; [lia|constructor|lia].
    + nia.
    + intros hs r' (m & -> & Hm & ->). exists m. split_and!; [done..|].
      assert (Z.to_nat (num_tokens r / bs) =
        (n + Z.to_nat ((num_tokens r - Z.of_nat n * bs) / bs))%nat) as ->.
      { replace (num_tokens r - _) with (num_tokens r + (- Z.of_nat n) * bs) by lia.
        rewrite Z.div_add by lia. lia. }
      rewrite ref_chain_app, Hbh, Z.add_0_l. cbn [app]. by destruct (last _).
Qed.

End chain.

Section hash_properties.
Variable sha256 : bytes → bytes.
Variable hash_function : bytes * list Z * option (list extra_key) → bytes.
Variable NONE_HASH : bytes.

(** [update_block_hashes] on a request without hashes. *)
Lemma fresh_hashes_wp (r : Request) (block_size : Z) :
  0 < block_size → mm_sorted (mm_features r) → block_hashes r = [] → prompt_embeds_per_block_hashes r = ∅ →
  wp (update_block_hashes sha256 hash_function NONE_HASH (Some block_size)) (λ _ r', ∃ m,
    r' = set_block_hashes (ref_hashes sha256 hash_function NONE_HASH r block_size) (set_prompt_embeds_per_block_hashes m r) ∧
    memo_ok sha256 r') r.
Proof.
  intros Hbs Hsort Hb He. unfold update_block_hashes. wp_step. eapply wp_mono.
  { apply (request_block_hasher_spec sha256 hash_function NONE_HASH r block_size 0); try done.
    - intros a b h em. by rewrite He, lookup_empty.
    - by left.
    - unfold num_tokens. pose proof (len_nonneg (all_token_ids r)). lia. }
  intros hs r1 (m & -> & Hm & Hhs). wp_step. exists m. by rewrite <-Hhs.
Qed.

(** A new request gets the right prefix-cache keys: construction fails
    only for the argument errors the constructor names (no parameters, no
    [max_tokens], missing or inconsistent prompt), and otherwise the request
    carries the hash chain of all its full prompt blocks, each hash computed
    from its parent, the block's tokens and all its extra keys (LoRA,
    overlapping multimodal items, salt, embeddings). *)
Theorem request_init_hashes (a : RequestArgs) (block_size : Z) :
  0 < block_size → mm_sorted (a_mm_features a) →
  match request_init sha256 hash_function NONE_HASH a (Some block_size) with
  | Ok r => block_hashes r = ref_hashes sha256 hash_function NONE_HASH r block_size ∧
      memo_ok sha256 r ∧ mm_features r = a_mm_features a ∧ len (block_hashes r) = num_tokens r / block_size
  | Raise _ => (∃ e, init_max_tokens a = Raise e) ∨
      length_from_prompt_token_ids_or_embeds (a_prompt_token_ids a) (a_prompt_embeds a) = Raise ValueError
  end.
Proof.
  intros Hbs Hsort. unfold request_init, request_init_fields.
  destruct (init_max_tokens a) as [[mt st]|e]; [|eauto].
  destruct (length_from_prompt_token_ids_or_embeds _ _) as [n|e] eqn:Hn.
  2:{ right. unfold length_from_prompt_token_ids_or_embeds in Hn. by repeat case_match; simplify_eq. }
  match goal with |- context [update_block_hashes _ _ _ _ ?x] => set (r := x) end.
  pose proof (fresh_hashes_wp r block_size Hbs Hsort eq_refl eq_refl) as Hwp.
  apply wp_run in Hwp as ([] & r' & -> & m & -> & Hm).
  assert (∀ n, ref_chain sha256 hash_function NONE_HASH
    (set_block_hashes (ref_hashes sha256 hash_function NONE_HASH r block_size)
      (set_prompt_embeds_per_block_hashes m r)) block_size None 0 n =
    ref_chain sha256 hash_function NONE_HASH r block_size None 0 n) as Hch.
  { intros k. generalize (@None bytes) 0. induction k as [|k IH]; intros p z; [done|].
    cbn [ref_chain]. by rewrite IH. }
  split_and!; [by unfold ref_hashes; rewrite Hch|done..|].
  cbn [block_hashes set_block_hashes]. unfold ref_hashes, len. rewrite ref_chain_length, Z2Nat.id; [done|].
  apply Z.div_pos; [apply len_nonneg|done].
Qed.

(** [append_output_token_ids] on a request with a correct chain. *)
Lemma append_output_wp (r : Request) (block_size : Z) (token_ids : list Z) :
  0 < block_size → mm_sorted (mm_features r) → memo_ok sha256 r → items_hashed r block_size →
  block_hashes r = ref_hashes sha256 hash_function NONE_HASH r block_size →
  wp (append_output_token_ids sha256 hash_function NONE_HASH (Some block_size) token_ids) (λ _ r', ∃ m hs,
    r' = set_block_hashes hs (set_prompt_embeds_per_block_hashes m
           (set_all_token_ids (all_token_ids r ++ token_ids) (set_output_token_ids (output_token_ids r ++ token_ids) r))) ∧
    block_hashes r' = ref_hashes sha256 hash_function NONE_HASH r' block_size ∧ memo_ok sha256 r') r.
Proof.
  intros Hbs Hsort Hmemo Hitems Hbh. unfold append_output_token_ids, update_block_hashes. wp_steps.
  set (r1 := set_all_token_ids _ _).
  assert (extends r r1) as Hx by (split_and!; try done; by exists token_ids).
  assert (num_tokens r1 = num_tokens r + len token_ids) as Hnt by apply len_app.
  pose proof (Z.div_mod (num_tokens r) block_size ltac:(lia)) as Hdm.
  pose proof (Z.mod_pos_bound (num_tokens r) block_size Hbs) as Hmb.
  pose proof (len_nonneg token_ids). pose proof (len_nonneg (all_token_ids r)).
  assert (0 ≤ num_tokens r / block_size) by (apply Z.div_pos; unfold num_tokens; lia).
  eapply wp_mono.
  { apply (request_block_hasher_spec sha256 hash_function NONE_HASH r1 block_size
      (Z.to_nat (num_tokens r / block_size))); auto.
    - rewrite Hnt. lia.
    - change (block_hashes r1) with (block_hashes r). rewrite Hbh. unfold ref_hashes.
      symmetry. apply ref_chain_extends; auto; lia. }
  intros hs r2 (m & -> & Hm & Hhs). wp_step. exists m, (block_hashes r1 ++ hs). split_and!; [done| |done].
  unfold ref_hashes. change (num_tokens _) with (num_tokens r1).
  change (block_hashes (set_block_hashes ?v ?x)) with v.
  change (block_hashes (set_prompt_embeds_per_block_hashes m r1)) with (block_hashes r1). rewrite Hhs.
  unfold ref_hashes. rewrite <-(ref_chain_memo _ _ _ m). symmetry. apply ref_chain_extends; try lia.
  - split_and!; try done. exists []. by rewrite app_nil_r.
  - change (num_tokens (set_prompt_embeds_per_block_hashes m r1)) with (num_tokens r1).
    pose proof (Z.mul_div_le (num_tokens r1) block_size Hbs).
    assert (0 ≤ num_tokens r1 / block_size) by (apply Z.div_pos; lia). lia.
Qed.

(** Prefix-cache keys stay correct while a request decodes: appending any
    output tokens terminates without error, stores the tokens, and leaves the
    request with exactly the hash chain of all its full blocks, each hash
    computed from its parent, the block's tokens and all its extra keys
    (LoRA, overlapping multimodal items, salt, embeddings), provided the items
    before the last one end in blocks hashed before. *)
Theorem append_output_keeps_chain (r : Request) (block_size : Z) (token_ids : list Z) :
  0 < block_size → mm_sorted (mm_features r) → memo_ok sha256 r → items_hashed r block_size →
  block_hashes r = ref_hashes sha256 hash_function NONE_HASH r block_size →
  wp (append_output_token_ids sha256 hash_function NONE_HASH (Some block_size) token_ids) (λ _ r',
    block_hashes r' = ref_hashes sha256 hash_function NONE_HASH r' block_size ∧
    all_token_ids r' = all_token_ids r ++ token_ids ∧
    output_token_ids r' = output_token_ids r ++ token_ids ∧ memo_ok sha256 r') r.
Proof.
  intros Hbs Hsort Hmemo Hitems Hbh. eapply wp_mono; [by apply append_output_wp|].
  by intros _ r' (m & hs & -> & H1 & H2).
Qed.

(** What prefix caching relies on of [caching_hash_fn] and [NONE_HASH]. *)
Class CollisionFree : Prop := {
  hash_inj : Inj (=) (=) hash_function;
  hash_not_empty x : hash_function x ≠ [];
  hash_not_none x : hash_function x ≠ NONE_HASH;
}.

Context `{CollisionFree}.

Lemma ref_block_hash_inj r1 r2 bs p1 p2 s1 s2 :
  (∀ h, p1 = Some h → ∃ x, h = hash_function x) → (∀ h, p2 = Some h → ∃ x, h = hash_function x) →
  ref_block_hash sha256 hash_function NONE_HASH r1 bs p1 s1 =
  ref_block_hash sha256 hash_function NONE_HASH r2 bs p2 s2 →
  p1 = p2 ∧ py_slice (all_token_ids r1) s1 (s1 + bs) = py_slice (all_token_ids r2) s2 (s2 + bs) ∧
  ref_extra sha256 r1 s1 (s1 + bs) = ref_extra sha256 r2 s2 (s2 + bs).
Proof.
  intros Hp1 Hp2 Heq. apply hash_inj in Heq as [= Hp -> ->]. split_and!; [|done..].
  assert (∀ x, falsy (Some (hash_function x)) = false) as Hf.
  { intros x. pose proof (hash_not_empty x). unfold falsy. by destruct (hash_function x). }
  destruct p1 as [h1|], p2 as [h2|]; try done.
  - destruct (Hp1 h1) as [x1 ->], (Hp2 h2) as [x2 ->]; try done. rewrite !Hf in Hp. cbn in Hp. by f_equal.
  - destruct (Hp1 h1) as [x1 ->]; [done|]. rewrite Hf in Hp. by apply hash_not_none in Hp.
  - destruct (Hp2 h2) as [x2 ->]; [done|]. rewrite Hf in Hp. symmetry in Hp. by apply hash_not_none in Hp.
Qed.

Lemma ref_chain_lookup r bs p s n i h :
  ref_chain sha256 hash_function NONE_HASH r bs p s n !! i = Some h →
  h = ref_block_hash sha256 hash_function NONE_HASH r bs
        (match i with O => p | S i => ref_chain sha256 hash_function NONE_HASH r bs p s n !! i end)
        (s + Z.of_nat i * bs).
Proof.
  revert p s i. induction n as [|n IH]; intros p s i; [done|]. cbn [ref_chain].
  destruct i as [|i]; [intros [= <-]; by rewrite Z.add_0_r|].
  cbn [lookup]. intros Hi. rewrite (IH _ _ _ Hi) at 1.
  replace (s + bs + Z.of_nat i * bs) with (s + Z.of_nat (S i) * bs) by lia. by destruct i.
Qed.

Lemma ref_chain_is_hash r bs p s n i h :
  ref_chain sha256 hash_function NONE_HASH r bs p s n !! i = Some h → ∃ x, h = hash_function x.
Proof. intros ->%ref_chain_lookup. unfold ref_block_hash, hash_block_tokens. eauto. Qed.

Lemma equal_hash_prefix (r1 r2 : Request) (block_size : Z) (i j : nat) (h : bytes) :
  ref_hashes sha256 hash_function NONE_HASH r1 block_size !! i = Some h →
  ref_hashes sha256 hash_function NONE_HASH r2 block_size !! j = Some h →
  i = j ∧ ∀ k, (k ≤ i)%nat →
    let s := Z.of_nat k * block_size in let e := s + block_size in
    py_slice (all_token_ids r1) s e = py_slice (all_token_ids r2) s e ∧
    ref_extra sha256 r1 s e = ref_extra sha256 r2 s e.
Proof.
  unfold ref_hashes. revert j h. induction i as [|i IH]; intros j h H1 H2.
  all: pose proof (ref_chain_lookup _ _ _ _ _ _ _ H1) as E1.
  all: pose proof (ref_chain_lookup _ _ _ _ _ _ _ H2) as E2.
  all: rewrite E1 in E2; apply ref_block_hash_inj in E2 as (Hp & Ht & He);
    [| by intros h0 Hh0; first [done|eapply ref_chain_is_hash]
     | by intros h0 Hh0; destruct j; [done|eapply ref_chain_is_hash]].
  - destruct j as [|j]; [|symmetry in Hp; apply lookup_ge_None in Hp; apply lookup_lt_Some in H2; lia].
    split; [done|]. intros k Hk. assert (k = 0%nat) as -> by lia. done.
  - destruct j as [|j]; [apply lookup_ge_None in Hp; apply lookup_lt_Some in H1; lia|].
    destruct (lookup_lt_is_Some_2 (ref_chain sha256 hash_function NONE_HASH r1 block_size None 0
      (Z.to_nat (num_tokens r1 / block_size))) i) as [h0 Hh0]; [apply lookup_lt_Some in H1; lia|].
    destruct (IH j h0) as [-> HIH]; [done|by rewrite <-Hp|]. split; [done|].
    intros k Hk. destruct (decide (k = S j)) as [->|]; [done|]. apply HIH. lia.
Qed.

(** The block hashes of one request are pairwise distinct. *)
Lemma ref_hashes_nodup r block_size : NoDup (ref_hashes sha256 hash_function NONE_HASH r block_size).
Proof. apply NoDup_alt. intros i j h Hi Hj. by destruct (equal_hash_prefix _ _ _ _ _ _ Hi Hj). Qed.

(** The converse: the chain is a function of the tokens and the extra keys. *)
Lemma equal_prefix_hash (r1 r2 : Request) (block_size : Z) (i : nat) :
  (∀ k, (k ≤ i)%nat →
    let s := Z.of_nat k * block_size in let e := s + block_size in
    py_slice (all_token_ids r1) s e = py_slice (all_token_ids r2) s e ∧
    ref_extra sha256 r1 s e = ref_extra sha256 r2 s e) →
  ∀ h1 h2, ref_hashes sha256 hash_function NONE_HASH r1 block_size !! i = Some h1 →
  ref_hashes sha256 hash_function NONE_HASH r2 block_size !! i = Some h2 → h1 = h2.
Proof.
  unfold ref_hashes. induction i as [|i IH]; intros Hk h1 h2 H1 H2.
  all: rewrite (ref_chain_lookup _ _ _ _ _ _ _ H1), (ref_chain_lookup _ _ _ _ _ _ _ H2); unfold ref_block_hash.
  { destruct (Hk 0%nat) as [Ht He]; [lia|]. rewrite Z.add_0_l. by rewrite Ht, He. }
  destruct (Hk (S i)) as [Ht He]; [lia|]. rewrite !Z.add_0_l, Ht, He. f_equal.
  apply lookup_lt_Some in H1, H2.
  destruct (lookup_lt_is_Some_2 (ref_chain sha256 hash_function NONE_HASH r1 block_size None 0
    (Z.to_nat (num_tokens r1 / block_size))) i) as [g1 Hg1]; [lia|].
  destruct (lookup_lt_is_Some_2 (ref_chain sha256 hash_function NONE_HASH r2 block_size None 0
    (Z.to_nat (num_tokens r2 / block_size))) i) as [g2 Hg2]; [lia|].
  rewrite Hg1, Hg2. f_equal. apply IH; [|done..]. intros k Hki. apply Hk. lia.
Qed.

(** The requests the code makes: constructed with the block hasher, then fed
    with output tokens.  A step that would hash blocks after the first call
    finds all items but the last one in blocks hashed before. *)
Inductive hashed_request (block_size : Z) : Request → Prop :=
  | hashed_init a r : mm_sorted (a_mm_features a) →
      request_init sha256 hash_function NONE_HASH a (Some block_size) = Ok r → hashed_request block_size r
  | hashed_append r token_ids r' : hashed_request block_size r → items_hashed r block_size →
      append_output_token_ids sha256 hash_function NONE_HASH (Some block_size) token_ids r = (Ok tt, r') →
      hashed_request block_size r'.

Lemma hashed_request_chain block_size r :
  0 < block_size → hashed_request block_size r →
  mm_sorted (mm_features r) ∧ memo_ok sha256 r ∧ block_hashes r = ref_hashes sha256 hash_function NONE_HASH r block_size.
Proof.
  intros Hbs. induction 1 as [a r Hs Hr|r token_ids r' _ (Hs & Hm & Hb) Hi Hrun].
  - pose proof (request_init_hashes a block_size Hbs Hs) as Hinit. rewrite Hr in Hinit.
    destruct Hinit as (H1 & H2 & H3 & _). by rewrite H3.
  - pose proof (append_output_wp r block_size token_ids Hbs Hs Hm Hi Hb) as Hwp.
    unfold wp in Hwp. rewrite Hrun in Hwp. by destruct Hwp as (m & hs & -> & H1 & H2).
Qed.

(** Appending always returns, so the requests can be extended for ever. *)
Lemma hashed_append_run block_size r token_ids :
  0 < block_size → hashed_request block_size r → items_hashed r block_size →
  hashed_request block_size (append_output_token_ids sha256 hash_function NONE_HASH (Some block_size) token_ids r).2.
Proof.
  intros Hbs Hr Hi. destruct (hashed_request_chain block_size r Hbs Hr) as (Hs & Hm & Hb).
  pose proof (append_output_wp r block_size token_ids Hbs Hs Hm Hi Hb) as Hwp.
  apply wp_run in Hwp as ([] & r' & Hrun & _). rewrite Hrun. by eapply hashed_append.
Qed.

(** C17.  A prefix-cache key identifies a prefix: take two requests built by
    the constructor with the block hasher and then extended by any runs of
    output tokens (before each run, all multimodal items but the last one end
    in blocks hashed already).  Each carries one hash per full block, and with
    a collision-free hash function block [i] of one and block [j] of the other
    have the same hash exactly when [i = j] and every block up to it has the
    same tokens and the same list of extra keys, which are made from the name of
    the adapter, the overlapping multimodal items with their place, the salt
    and the digests of the embeddings (in that list an adapter's name and a salt
    are both plain strings, see [lora_name_aliases_salt]). *)
Theorem equal_hash_equal_prefix (r1 r2 : Request) (block_size : Z) :
  0 < block_size → hashed_request block_size r1 → hashed_request block_size r2 →
  len (block_hashes r1) = num_tokens r1 / block_size ∧
  ∀ (i j : nat) h1 h2, block_hashes r1 !! i = Some h1 → block_hashes r2 !! j = Some h2 →
    h1 = h2 ↔
    i = j ∧ ∀ k, (k ≤ i)%nat →
      let s := Z.of_nat k * block_size in let e := s + block_size in
      py_slice (all_token_ids r1) s e = py_slice (all_token_ids r2) s e ∧
      ref_extra sha256 r1 s e = ref_extra sha256 r2 s e.
Proof.
  intros Hbs Hr1 Hr2. apply hashed_request_chain in Hr1 as (_ & _ & E1), Hr2 as (_ & _ & E2); [|done..].
  rewrite E1, E2. split.
  - unfold ref_hashes, len. rewrite ref_chain_length, Z2Nat.id; [done|]. apply Z.div_pos; [apply len_nonneg|done].
  - intros i j h1 h2 H1 H2. split; [intros ->; by eapply equal_hash_prefix|].
    intros [-> Hk]. by eapply equal_prefix_hash.
Qed.

End hash_properties.

(** ** The coarser view *)

(** The concatenation of the fine hashes that make up coarse block [i]. *)
Definition coarse_hash (hashes : list bytes) (sf i : nat) : bytes :=
  concat (take sf (drop (i * sf) hashes)).

Lemma hl_get_fold (l : list bytes) (base : nat) (acc : bytes) (n : nat) :
  foldl (λ acc i, m ← acc; h ← py_get l i; Some (m ++ h)) (Some acc)
    (seqZ (Z.of_nat base) (Z.of_nat n)) =
  if decide (base + n ≤ length l)%nat then Some (acc ++ concat (take n (drop base l)))
  else if decide (n = 0)%nat then Some acc else None.
Proof.
  revert base acc. induction n as [|n IH]; intros base acc.
  { rewrite seqZ_nil by lia. cbn [foldl]. rewrite take_0. cbn [concat]. rewrite app_nil_r.
    by repeat case_decide. }
  rewrite seqZ_cons by lia. cbn [foldl].
  replace (Z.succ (Z.of_nat base)) with (Z.of_nat (S base)) by lia.
  replace (Z.pred (Z.of_nat (S n))) with (Z.of_nat n) by lia.
  rewrite py_get_nonneg, Nat2Z.id by lia. cbn [mbind option_bind].
  assert (∀ xs, foldl (λ (acc : option bytes) (i : Z), m ← acc; h ← py_get l i; Some (m ++ h)) None xs = None) as Hnone
    by (induction xs; auto).
  destruct (l !! base) as [h|] eqn:Hh; cbn [mbind option_bind].
  - pose proof (lookup_lt_Some _ _ _ Hh). rewrite IH, (drop_S _ _ _ Hh). cbn [take concat].
    rewrite app_assoc. repeat case_decide; try lia; done.
  - apply lookup_ge_None in Hh. rewrite Hnone. repeat case_decide; try lia; done.
Qed.

Lemma hl_get_coarse (hashes : list bytes) (q : Z) (i : nat) :
  0 < q → hl_get (MkHashList hashes q) (Z.of_nat i) =
    (if decide (Z.of_nat i < hl_len (MkHashList hashes q)) then Some (coarse_hash hashes (Z.to_nat q) i) else None).
Proof.
  intros Hq. unfold hl_get, hl_len, coarse_hash. cbn [scale_factor hl_block_hashes]. unfold py_range.
  replace (Z.of_nat i * q + q - (Z.of_nat i * q + 1)) with (Z.of_nat (Z.to_nat (q - 1))) by lia.
  replace (Z.of_nat i * q + 1) with (Z.of_nat (S (i * Z.to_nat q))) by lia.
  replace (Z.of_nat i * q) with (Z.of_nat (i * Z.to_nat q)) by lia.
  rewrite py_get_nonneg, Nat2Z.id by lia.
  assert (Z.of_nat i < len hashes / q ↔ (i * Z.to_nat q + Z.to_nat q ≤ length hashes)%nat) as Hiff.
  { rewrite <-(Z.le_succ_l (Z.of_nat i)). split; intros Hi.
    - pose proof (Z.mul_div_le (len hashes) q ltac:(lia)). unfold len in *. nia.
    - apply Z.div_le_lower_bound; [lia|]. unfold len. nia. }
  destruct (hashes !! (i * Z.to_nat q)%nat) as [h|] eqn:Eh; cbn [mbind option_bind].
  - pose proof (lookup_lt_Some _ _ _ Eh). rewrite hl_get_fold, (drop_S _ _ _ Eh).
    replace (Z.to_nat q) with (S (Z.to_nat (q - 1))) in * by lia.
    cbn [take concat]. repeat case_decide; try done; try (exfalso; lia).
  - apply lookup_ge_None in Eh. case_decide; [|done]. exfalso. lia.
Qed.

(** The whole coarse list. *)
Definition coarse_hashes (hashes : list bytes) (sf : Z) : list bytes :=
  coarse_hash hashes (Z.to_nat sf) <$> seq 0 (Z.to_nat (len hashes / sf)).

Lemma len_coarse_hashes hashes sf : 0 < sf → len (coarse_hashes hashes sf) = len hashes / sf.
Proof.
  intros Hsf. unfold coarse_hashes. rewrite len_fmap. unfold len at 1. rewrite length_seq.
  rewrite Z2Nat.id; [done|]. apply Z.div_pos; [apply len_nonneg|done].
Qed.

Lemma hl_slice_from_coarse hashes q k :
  0 < q → 0 ≤ k → hl_slice_from (MkHashList hashes q) k = Some (drop (Z.to_nat k) (coarse_hashes hashes q)).
Proof.
  intros Hq Hk. unfold hl_slice_from, slice_bound. destruct (Z.ltb_spec k 0); [lia|].
  pose proof (Z.div_pos (len hashes) q (len_nonneg _) Hq).
  change (hl_len (MkHashList hashes q)) with (len hashes / q). set (n := len hashes / q) in *.
  rewrite py_range_seq by lia. unfold coarse_hashes. fold n. rewrite <-fmap_drop, drop_seq.
  assert (∃ m, seq (Z.to_nat (k `min` n)) (Z.to_nat (n - k `min` n)) = seq (0 + Z.to_nat k) m ∧
    m = (Z.to_nat n - Z.to_nat k)%nat ∧ Z.of_nat m + k ≤ Z.max n k) as (m & -> & <- & Hm).
  { exists (Z.to_nat n - Z.to_nat k)%nat. split_and!; [|done|lia]. destruct (decide (k ≤ n)).
    - rewrite Z.min_l by lia. f_equal; lia.
    - rewrite Z.min_r by lia. by replace (Z.to_nat (n - n)) with 0%nat by lia;
        replace (Z.to_nat n - Z.to_nat k)%nat with 0%nat by lia. }
  apply mapM_Some, Forall2_fmap, Forall_Forall2_diag, Forall_forall. intros i Hi%elem_of_seq.
  rewrite hl_get_coarse by done. rewrite decide_True; [done|].
  change (hl_len (MkHashList hashes q)) with n. lia.
Qed.

(** [BlockHashListWithBlockSize] is the list of coarse block hashes: for a
    target block size that is [sf] times the hash block size, entry [i] is the
    concatenation of the [sf] fine hashes of that block when all of them
    exist and an [IndexError] otherwise, slicing from [k] yields the entries
    from [k] on, the length counts exactly the complete blocks, and a target
    size that is not a multiple is rejected. *)
Theorem hash_list_coarse (hashes : list bytes) (hbs tbs : Z) (i : nat) :
  0 < hbs → 0 < tbs →
  match mk_hash_list hashes hbs tbs with
  | Ok hl => tbs = scale_factor hl * hbs ∧
      hl_get hl (Z.of_nat i) =
        (if decide (Z.of_nat i < hl_len hl)
         then Some (coarse_hash hashes (Z.to_nat (scale_factor hl)) i) else None) ∧
      hl_slice_from hl (Z.of_nat i) = Some (drop i (coarse_hashes hashes (scale_factor hl)))
  | Raise e => e = AssertionError ∧ tbs mod hbs ≠ 0
  end.
Proof.
  intros Hh Ht. unfold mk_hash_list. destruct (Z.eqb_spec (tbs mod hbs) 0) as [Hm|]; [|done].
  apply Z.mod_divide in Hm as [q ->]; [|lia]. assert (0 < q) by nia.
  rewrite Z.div_mul by lia. split_and!; [done|by apply hl_get_coarse|].
  rewrite hl_slice_from_coarse, Nat2Z.id by lia. done.
Qed.

(** ** Concrete instances *)

#[global] Program Instance extra_key_countable : Countable extra_key :=
  inj_countable
    (λ k, match k with KStr s => inl s | KItem s z => inr (inl (s, z)) | KBytes b => inr (inr b) end)
    (λ x, Some match x with inl s => KStr s | inr (inl (s, z)) => KItem s z | inr (inr b) => KBytes b end) _.
Next Obligation. by intros []. Qed.

Fixpoint pos_bytes (p : positive) : bytes :=
  match p with xH => [] | xO p => x00 :: pos_bytes p | xI p => x01 :: pos_bytes p end.

(** An injective hash function: the input's binary code. *)
Definition code_hash (x : bytes * list Z * option (list extra_key)) : bytes := x02 :: pos_bytes (encode x).

#[global] Instance pos_bytes_inj : Inj (=) (=) pos_bytes.
Proof. intros p. induction p as [p IH|p IH|]; intros [q|q|]; simpl; try done; intros [= ?]; f_equal; auto. Qed.

#[global] Instance code_hash_collision_free : CollisionFree code_hash [x03].
Proof.
  split; [|done|done]. intros x y Hxy. unfold code_hash in Hxy.
  apply (inj encode), (inj pos_bytes). by injection Hxy.
Qed.

Definition toy_image : MultiModalFeatureSpec := MkFeature "img" (MkRange 1 2 None).
Definition toy_request : Request := text_request "r" [1; 2; 3; 4; 5] None None [toy_image].
Definition toy_hashed : Request :=
  (update_block_hashes id code_hash [x03] (Some 2) toy_request).2.

Lemma request_init_hashes_witness :
  match request_init id code_hash [x03] (text_args "r" [1; 2; 3; 4; 5] None None [toy_image]) (Some 2) with
  | Ok r => len (block_hashes r) = 2
  | Raise _ => False
  end.
Proof.
  pose proof (request_init_hashes id code_hash [x03]
    (text_args "r" [1; 2; 3; 4; 5] None None [toy_image]) 2 ltac:(lia) ltac:(by repeat constructor)) as H.
  vm_compute in H |- *. apply H.
Defined.

Lemma append_output_keeps_chain_witness :
  wp (append_output_token_ids id code_hash [x03] (Some 2) [6; 7; 8])
    (λ _ r', block_hashes r' = ref_hashes id code_hash [x03] r' 2 ∧
      all_token_ids r' = all_token_ids toy_hashed ++ [6; 7; 8] ∧
      output_token_ids r' = output_token_ids toy_hashed ++ [6; 7; 8] ∧ memo_ok id r') toy_hashed.
Proof.
  apply (append_output_keeps_chain id code_hash [x03]).
  - lia.
  - by repeat constructor.
  - intros a b h em Hh Hem. vm_compute in Hem. done.
  - right. constructor.
  - vm_compute. reflexivity.
Defined.

(** A request that is constructed and then decodes two tokens, and one whose
    prompt starts with the same four tokens: their second blocks have the same
    hash, so by the theorem the same tokens. *)
Definition decoding_request : Request :=
  match request_init id code_hash [x03] (text_args "a" [1; 2; 3] None None []) (Some 2) with
  | Ok r => (append_output_token_ids id code_hash [x03] (Some 2) [4; 9] r).2
  | Raise _ => toy_request
  end.
Definition prompt_request : Request :=
  match request_init id code_hash [x03] (text_args "b" [1; 2; 3; 4] None None []) (Some 2) with
  | Ok r => r
  | Raise _ => toy_request
  end.

Lemma decoding_request_hashed : hashed_request id code_hash [x03] 2 decoding_request.
Proof.
  unfold decoding_request. destruct (request_init _ _ _ _ _) as [r|e] eqn:E; [|vm_compute in E; discriminate].
  apply hashed_append_run; [lia|by eapply hashed_init, E; constructor|].
  pose proof (request_init_hashes id code_hash [x03] (text_args "a" [1; 2; 3] None None []) 2 ltac:(lia) I) as H.
  rewrite E in H. destruct H as (_ & _ & Hm & _). right. rewrite Hm. constructor.
Qed.

Lemma prompt_request_hashed : hashed_request id code_hash [x03] 2 prompt_request.
Proof.
  unfold prompt_request. destruct (request_init _ _ _ _ _) as [r|e] eqn:E; [|vm_compute in E; discriminate].
  by eapply hashed_init, E; constructor.
Qed.

Lemma equal_hash_equal_prefix_witness :
  len (block_hashes decoding_request) = 2 ∧ block_hashes decoding_request !! 1%nat = block_hashes prompt_request !! 1%nat ∧
  py_slice (all_token_ids decoding_request) 2 4 = py_slice (all_token_ids prompt_request) 2 4.
Proof.
  destruct (equal_hash_equal_prefix id code_hash [x03] decoding_request prompt_request 2 ltac:(lia)
    decoding_request_hashed prompt_request_hashed) as [Hl Hh].
  split; [rewrite Hl; vm_compute; reflexivity|]. split; [vm_compute; reflexivity|].
  destruct (block_hashes decoding_request !! 1%nat) as [h1|] eqn:E1; [|vm_compute in E1; discriminate].
  destruct (block_hashes prompt_request !! 1%nat) as [h2|] eqn:E2; [|vm_compute in E2; discriminate].
  destruct (proj1 (Hh 1%nat 1%nat h1 h2 E1 E2)) as [_ H].
  - vm_compute in E1, E2. congruence.
  - exact (proj1 (H 1%nat ltac:(lia))).
Defined.

Lemma hash_list_coarse_witness :
  hl_get (MkHashList [[x00]; [x01]; [x02]; [x03]; [x04]] 2) 1 = Some [x02; x03].
Proof.
  pose proof (hash_list_coarse [[x00]; [x01]; [x02]; [x03]; [x04]] 16 32 1 ltac:(lia) ltac:(lia)) as (_ & H & _).
  exact H.
Defined.

Lemma group_key_roundtrip_witness : ∃ k, make_block_hash_with_group_id [x07] 3 = Ok k ∧ get_block_hash k = [x07] ∧ get_group_id k = 3.
Proof. apply (proj1 (group_key_roundtrip [x07] 3)). lia. Defined.

(** ** Where the keys are coarser than the data *)

(** Six prompt tokens, two one-token items at positions 4 and 5, blocks of four
    tokens; two decoded tokens complete the second block. *)
Definition late_item_run sha256 hash_function NONE_HASH (id : string) : res unit * Request :=
  (update_block_hashes sha256 hash_function NONE_HASH (Some 4) ;;;
   append_output_token_ids sha256 hash_function NONE_HASH (Some 4) [7; 8])
  (text_request "r" [1; 2; 3; 4; 5; 6] None None
     [MkFeature id (MkRange 4 1 None); MkFeature "tail" (MkRange 5 1 None)]).

(** When the block that holds the end of the prompt is completed by
    decoded tokens, only the last multimodal item enters its hash: two requests
    whose second block contains different items (before a common last one) get
    identical block hashes, for every hash function. *)
Theorem late_block_drops_items sha256 hash_function NONE_HASH :
  let r1 := late_item_run sha256 hash_function NONE_HASH "cat" in
  let r2 := late_item_run sha256 hash_function NONE_HASH "dog" in
  r1.1 = Ok tt ∧ r2.1 = Ok tt ∧ len (block_hashes r1.2) = 2 ∧ block_hashes r1.2 = block_hashes r2.2 ∧
  ref_extra sha256 r1.2 4 8 ≠ ref_extra sha256 r2.2 4 8.
Proof. by split_and!. Qed.

(** A LoRA adapter's name and a cache salt enter the first block's key in
    the same way: a request for the adapter named [s] and a base-model request
    with cache salt [s] have the same first-block hash. *)
Theorem lora_name_aliases_salt sha256 hash_function NONE_HASH (s : string) (toks : list Z) (bs : Z) :
  s ≠ EmptyString → 0 < bs ≤ len toks →
  ∃ h, ref_hashes sha256 hash_function NONE_HASH (text_request "a" toks (Some (MkLoRA s 1)) None []) bs !! 0%nat = Some h ∧
       ref_hashes sha256 hash_function NONE_HASH (text_request "b" toks None (Some s) []) bs !! 0%nat = Some h.
Proof.
  intros Hs Hbs. unfold ref_hashes. change (num_tokens _) with (len toks).
  assert (1 ≤ len toks / bs) by (apply Z.div_le_lower_bound; lia).
  destruct (Z.to_nat (len toks / bs)) as [|n] eqn:E; [lia|].
  eexists. split; [done|]. cbn [ref_chain lookup list_lookup].
  unfold ref_block_hash, ref_extra, cache_salt_keys. cbn.
  apply String.eqb_neq in Hs. by rewrite Hs.
Qed.

Lemma lora_name_aliases_salt_witness :
  ∃ h, ref_hashes id code_hash [x03] (text_request "a" [1; 2] (Some (MkLoRA "x" 1)) None []) 2 !! 0%nat = Some h ∧
       ref_hashes id code_hash [x03] (text_request "b" [1; 2] None (Some "x") []) 2 !! 0%nat = Some h.
Proof. apply (lora_name_aliases_salt id code_hash [x03] "x" [1; 2] 2); [done|cbv; split; congruence]. Defined.
