(* ===== verification/KVCacheMetrics.v ===== *)
(** * KV-cache residency metrics (vllm/v1/core/kv_cache_metrics.py)

    The collector reads a clock and a random source; both are parameters, given
    as the sequence of readings, and the collector counts how many it has
    taken.  Durations are kept in nanoseconds (the source divides by 1e9 at
    the end, in floating point). *)

From S2P Require Import Prelude.

(** ** Data *)

Record BlockMetricsState := MkMetrics {
  birth_time_ns : Z;
  last_access_ns : Z;
  access_history : list Z;
}.

Record KVCacheEvictionEvent := MkEviction {
  lifetime_ns : Z;
  idle_ns : Z;
  reuse_gaps_ns : list Z;
}.

(** [time.monotonic_ns()] and [random.random() < sample_rate]: the [n]-th
    reading of each. *)
Record MetricsEnv := MkEnv {
  monotonic_ns : nat → Z;
  sampled : nat → bool;
}.

Record Collector := MkCollector {
  block_metrics : gmap Z BlockMetricsState;
  eviction_events : list KVCacheEvictionEvent;
  clock_reads : nat;
  coin_reads : nat;
}.

Section collector.
Variable env : MetricsEnv.

(** ** Operations *)

Definition read_clock : M Collector Z := λ c,
  (Ok (monotonic_ns env (clock_reads c)),
   MkCollector (block_metrics c) (eviction_events c) (S (clock_reads c)) (coin_reads c)).

Definition should_sample_block : M Collector bool := λ c,
  (Ok (sampled env (coin_reads c)),
   MkCollector (block_metrics c) (eviction_events c) (clock_reads c) (S (coin_reads c))).

Lemma wp_read_clock Q c :
  Q (monotonic_ns env (clock_reads c))
    (MkCollector (block_metrics c) (eviction_events c) (S (clock_reads c)) (coin_reads c)) → wp read_clock Q c.
Proof. done. Qed.

Lemma wp_sample Q c :
  Q (sampled env (coin_reads c))
    (MkCollector (block_metrics c) (eviction_events c) (clock_reads c) (S (coin_reads c))) →
  wp should_sample_block Q c.
Proof. done. Qed.

Definition set_metrics (m : gmap Z BlockMetricsState) (c : Collector) : Collector :=
  MkCollector m (eviction_events c) (clock_reads c) (coin_reads c).

(** [deque(maxlen=4).append(x)] *)
Definition deque4_append (l : list Z) (x : Z) : list Z :=
  let l' := l ++ [x] in drop (length l' - 4) l'.

(** [record_access] *)
Definition record_access (now : Z) (m : BlockMetricsState) : BlockMetricsState :=
  MkMetrics (birth_time_ns m) now (deque4_append (access_history m) now).

(** [get_reuse_gaps_seconds]: [history[i] - history[i-1]] for [i >= 1]. *)
Fixpoint reuse_gaps (h : list Z) : list Z :=
  match h with
  | a :: ((b :: _) as t) => (b - a) :: reuse_gaps t
  | _ => []
  end.

(** [on_block_allocated] *)
Definition on_block_allocated (block_id : Z) : M Collector unit :=
  let! s := should_sample_block in
  if (s : bool) then
    let! now := read_clock in
    modify (λ c, set_metrics (<[block_id := MkMetrics now now []]> (block_metrics c)) c)
  else ret tt.

(** [on_block_accessed] *)
Definition on_block_accessed (block_id : Z) : M Collector unit :=
  let! ms := gets block_metrics in
  match ms !! block_id with
  | None => ret tt
  | Some m =>
      let! now := read_clock in
      modify (λ c, set_metrics (<[block_id := record_access now m]> (block_metrics c)) c)
  end.

(** [on_block_evicted] *)
Definition on_block_evicted (block_id : Z) : M Collector unit :=
  let! ms := gets block_metrics in
  modify (λ c, set_metrics (delete block_id (block_metrics c)) c) ;;;
  match ms !! block_id with
  | None => ret tt
  | Some m =>
      let! t1 := read_clock in
      let! t2 := read_clock in
      modify (λ c, MkCollector (block_metrics c)
        (eviction_events c ++
          [MkEviction (t1 - birth_time_ns m) (t2 - last_access_ns m) (reuse_gaps (access_history m))])
        (clock_reads c) (coin_reads c))
  end.

(** [reset] *)
Definition collector_reset : M Collector unit :=
  modify (λ c, MkCollector ∅ [] (clock_reads c) (coin_reads c)).

(** [drain_events] *)
Definition drain_events : M Collector (list KVCacheEvictionEvent) :=
  let! es := gets eviction_events in
  modify (λ c, MkCollector (block_metrics c) [] (clock_reads c) (coin_reads c)) ;;;
  ret es.

(** A call sequence, as the block pool issues it. *)
Inductive metric_op :=
  | Allocated (b : Z)
  | Accessed (b : Z)
  | Evicted (b : Z)
  | Reset
  | Drain.

Definition run_metric (o : metric_op) : M Collector (list KVCacheEvictionEvent) :=
  match o with
  | Allocated b => on_block_allocated b ;;; ret []
  | Accessed b => on_block_accessed b ;;; ret []
  | Evicted b => on_block_evicted b ;;; ret []
  | Reset => collector_reset ;;; ret []
  | Drain => drain_events
  end.

Definition new_collector : Collector := MkCollector ∅ [] 0 0.

(** ** Sane residency times *)

Fixpoint ascending (h : list Z) : Prop :=
  match h with
  | a :: ((b :: _) as t) => a ≤ b ∧ ascending t
  | _ => True
  end.

Definition event_ok (e : KVCacheEvictionEvent) : Prop :=
  0 ≤ lifetime_ns e ∧ 0 ≤ idle_ns e ∧
  Forall (λ g, 0 ≤ g) (reuse_gaps_ns e) ∧ (length (reuse_gaps_ns e) ≤ 3)%nat.

(** All times recorded so far are in order and not after the next reading. *)
Definition metrics_ok (now : Z) (m : BlockMetricsState) : Prop :=
  birth_time_ns m ≤ last_access_ns m ≤ now ∧ ascending (access_history m) ∧
  Forall (λ t, t ≤ now) (access_history m) ∧ (length (access_history m) ≤ 4)%nat.

Definition collector_ok (c : Collector) : Prop :=
  map_Forall (λ _ m, metrics_ok (monotonic_ns env (clock_reads c)) m) (block_metrics c) ∧
  Forall event_ok (eviction_events c).

Context (clock_mono : ∀ i j, (i ≤ j)%nat → monotonic_ns env i ≤ monotonic_ns env j).

Lemma metrics_ok_mono t t' m : t ≤ t' → metrics_ok t m → metrics_ok t' m.
Proof.
  intros Ht (H1 & H2 & H3 & H4). split_and!; auto; try lia.
  eapply Forall_impl; [done|]. simpl. lia.
Qed.

Lemma metrics_ok_reads c n :
  (clock_reads c ≤ n)%nat → map_Forall (λ _ m, metrics_ok (monotonic_ns env (clock_reads c)) m) (block_metrics c) →
  map_Forall (λ _ m, metrics_ok (monotonic_ns env n) m) (block_metrics c).
Proof.
  intros Hn Hall. eapply map_Forall_impl; [done|]. intros k m.
  apply metrics_ok_mono. by apply clock_mono.
Qed.

Lemma ascending_drop k h : ascending h → ascending (drop k h).
Proof.
  revert h. induction k as [|k IH]; intros [|a [|b h]]; try done.
  - by destruct k.
  - intros [_ Hh]. by apply IH.
Qed.

Lemma ascending_snoc h x : ascending h → Forall (λ t, t ≤ x) h → ascending (h ++ [x]).
Proof.
  induction h as [|a h IH]; [done|]. intros Ha (Hax & Hx)%Forall_cons.
  destruct h as [|b h]; [done|]. destruct Ha as [Hab Ha]. by split; [|apply IH].
Qed.

Lemma reuse_gaps_ok h :
  ascending h → Forall (λ g, 0 ≤ g) (reuse_gaps h) ∧ length (reuse_gaps h) = (length h - 1)%nat.
Proof.
  induction h as [|a [|b h] IH]; try done. intros [Hab Hh].
  destruct (IH Hh) as [IH1 IH2]. split; [constructor; [lia|done]|].
  change (length (reuse_gaps (a :: b :: h))) with (S (length (reuse_gaps (b :: h)))). rewrite IH2. simpl. lia.
Qed.

Lemma record_access_ok now m : metrics_ok now m → metrics_ok now (record_access now m).
Proof.
  intros ((? & ?) & H2 & H3 & H4). unfold metrics_ok, record_access, deque4_append. cbn.
  split_and!; try lia.
  - apply ascending_drop, ascending_snoc; [done|]. done.
  - apply Forall_drop, Forall_app. by split; [|repeat constructor].
  - rewrite length_drop, length_app. simpl. lia.
Qed.

(** Residency metrics are sane under a monotonic clock: from a state in
    which all recorded times are in order, every call of the collector
    returns, keeps that state, and every eviction event, whether still queued
    or drained, has non-negative lifetime, idle time and reuse gaps, and at
    most three gaps (the access history holds at most four entries). *)
Theorem metric_op_sane (c : Collector) (o : metric_op) :
  collector_ok c → wp (run_metric o) (λ es c', collector_ok c' ∧ Forall event_ok es) c.
Proof.
  intros [Hm He]. destruct o as [b|b|b| |]; cbn [run_metric]; try wp_step.
  - unfold on_block_allocated. wp_step. apply wp_sample.
    destruct (sampled env (coin_reads c)); [|by wp_steps; split; [split|]; cbn].
    wp_step. apply wp_read_clock. wp_steps. split; [|done]. split; [|done].
    apply map_Forall_insert_2; cbn.
    + pose proof (clock_mono (clock_reads c) (S (clock_reads c)) ltac:(lia)).
      split_and!; cbn; try done; lia.
    + by apply (metrics_ok_reads c (S (clock_reads c))); [lia|].
  - unfold on_block_accessed. wp_step. wp_step.
    destruct (block_metrics c !! b) as [m|] eqn:Hb; [|by wp_steps; split; [split|]; cbn].
    wp_step. apply wp_read_clock. wp_steps. split; [|done]. split; [|done].
    apply map_Forall_insert_2; cbn.
    + eapply metrics_ok_mono; [apply (clock_mono (clock_reads c)); lia|].
      apply record_access_ok. by apply (Hm b).
    + by apply (metrics_ok_reads c (S (clock_reads c))); [lia|].
  - unfold on_block_evicted. wp_step. wp_step. wp_step. wp_step.
    destruct (block_metrics c !! b) as [m|] eqn:Hb.
    2:{ wp_steps. split; [split|]; try done. cbn. by apply map_Forall_delete. }
    wp_step. apply wp_read_clock. wp_step. apply wp_read_clock. wp_steps.
    split; [|done]. split; cbn.
    + apply map_Forall_delete. by apply (metrics_ok_reads c); [lia|].
    + apply Forall_app. split; [done|]. apply Forall_singleton.
      destruct (Hm b m Hb) as ((? & ?) & Ha & _ & Hlen).
      destruct (reuse_gaps_ok _ Ha) as [Hg Hgl].
      pose proof (clock_mono (clock_reads c) (S (clock_reads c)) ltac:(lia)).
      split_and!; cbn; try done; lia.
  - unfold collector_reset. wp_steps. split; [split; cbn|]; [apply map_Forall_empty|constructor|constructor].
  - unfold drain_events. wp_steps. split; [split; cbn|]; [done|constructor|done].
Qed.

End collector.

Lemma metric_op_sane_witness :
  wp (run_metric (MkEnv Z.of_nat (λ _, true)) (Allocated 3))
    (λ es c', collector_ok (MkEnv Z.of_nat (λ _, true)) c' ∧ Forall event_ok es) new_collector.
Proof.
  apply (metric_op_sane (MkEnv Z.of_nat (λ _, true))).
  - cbn. lia.
  - split; cbn; [apply map_Forall_empty|constructor].
Defined.
