(* ===== verification/BlockPool.v ===== *)
(** * BlockPool and BlockHashToBlockMap (vllm/v1/core/block_pool.py)

    The pool owns the block objects (the store of [FreeQueue.Queue]), the free
    queue and the prefix cache.  [pool_inv] is the contract the rest of the
    system relies on; every operation is shown to keep it, with its effect on
    the free list, the reference counts and the cached hashes. *)

From Stdlib Require Import QArith.
From stdpp Require Import functions.
From S2P Require Import Prelude FreeQueue RequestModel BlockHash KVCacheMetrics.
#[local] Open Scope Z_scope.

(** ** BlockHashToBlockMap *)

(** A key maps to one block or to a dict from block id to block, in insertion
    order. *)
Inductive cache_entry :=
  | OneBlock (b : ref)
  | ManyBlocks (d : list (Z * ref)).

Abbreviation BlockHashToBlockMap := (gmap bytes cache_entry).

(** [d[k] = v] and [d.pop(k, None)] on an insertion-ordered dict. *)
Fixpoint dict_set {V} (d : list (Z * V)) (k : Z) (v : V) : list (Z * V) :=
  match d with
  | [] => [(k, v)]
  | (k', v') :: d => if k' =? k then (k, v) :: d else (k', v') :: dict_set d k v
  end.
Fixpoint dict_pop {V} (d : list (Z * V)) (k : Z) : option V * list (Z * V) :=
  match d with
  | [] => (None, [])
  | (k', v') :: d =>
      if k' =? k then (Some v', d)
      else let '(o, d') := dict_pop d k in (o, (k', v') :: d')
  end.

(** [get_one_block]; [next(iter({}.values()))] raises [StopIteration]. *)
Definition get_one_block (c : BlockHashToBlockMap) (key : bytes) : res (option ref) :=
  match c !! key with
  | None => Ok None
  | Some (OneBlock b) => Ok (Some b)
  | Some (ManyBlocks []) => Raise StopIteration
  | Some (ManyBlocks ((_, b) :: _)) => Ok (Some b)
  end.

(** [insert]; [id_of] reads a block's [block_id]. *)
Definition map_insert (id_of : ref → Z) (c : BlockHashToBlockMap) (key : bytes) (block : ref) : BlockHashToBlockMap :=
  match c !! key with
  | None => <[key := OneBlock block]> c
  | Some (OneBlock b0) =>
      <[key := ManyBlocks (dict_set [(id_of b0, b0)] (id_of block) block)]> c
  | Some (ManyBlocks d) => <[key := ManyBlocks (dict_set d (id_of block) block)]> c
  end.

(** [pop] *)
Definition map_pop (id_of : ref → Z) (c : BlockHashToBlockMap) (key : bytes) (block_id : Z)
    : option ref * BlockHashToBlockMap :=
  match c !! key with
  | None => (None, c)
  | Some (OneBlock b0) => if id_of b0 =? block_id then (Some b0, delete key c) else (None, c)
  | Some (ManyBlocks d) =>
      let '(o, d') := dict_pop d block_id in
      (o, if 0 <? len d' then <[key := ManyBlocks d']> c else delete key c)
  end.

(** ** KV events (vllm/distributed/kv_events.py) *)

Inductive KVCacheEvent :=
  | BlockStored (block_hashes : list ExternalBlockHash) (parent_block_hash : option ExternalBlockHash)
      (token_ids : list Z) (block_size : Z) (lora_id : option Z) (lora_name : option string)
      (extra_keys : option (list (option (list extra_key)))) (group_idx : Z)
  | BlockRemoved (block_hashes : list ExternalBlockHash) (group_idx : Z)
  | AllBlocksCleared.

(** ** BlockPool *)

(** [use_int_hashes] is the environment switch that [maybe_convert_block_hash]
    reads, [metrics_env] the clock and random source of the collector. *)
Record BlockPool := MkPool {
  num_gpu_blocks : Z;
  enable_caching : bool;
  hash_block_size : Z;
  blocks : list ref;
  free_block_queue : Queue;
  cached_block_hash_to_block : BlockHashToBlockMap;
  null_block : ref;
  enable_kv_cache_events : bool;
  kv_event_queue : list KVCacheEvent;
  metrics_collector : option Collector;
  use_int_hashes : bool;
  metrics_env : MetricsEnv;
}.

Definition set_queue (q : Queue) (p : BlockPool) : BlockPool :=
  MkPool (num_gpu_blocks p) (enable_caching p) (hash_block_size p) (blocks p) q
    (cached_block_hash_to_block p) (null_block p) (enable_kv_cache_events p) (kv_event_queue p)
    (metrics_collector p) (use_int_hashes p) (metrics_env p).
Definition set_cache (c : BlockHashToBlockMap) (p : BlockPool) : BlockPool :=
  MkPool (num_gpu_blocks p) (enable_caching p) (hash_block_size p) (blocks p) (free_block_queue p)
    c (null_block p) (enable_kv_cache_events p) (kv_event_queue p)
    (metrics_collector p) (use_int_hashes p) (metrics_env p).
Definition set_events (es : list KVCacheEvent) (p : BlockPool) : BlockPool :=
  MkPool (num_gpu_blocks p) (enable_caching p) (hash_block_size p) (blocks p) (free_block_queue p)
    (cached_block_hash_to_block p) (null_block p) (enable_kv_cache_events p) es
    (metrics_collector p) (use_int_hashes p) (metrics_env p).
Definition set_collector (c : option Collector) (p : BlockPool) : BlockPool :=
  MkPool (num_gpu_blocks p) (enable_caching p) (hash_block_size p) (blocks p) (free_block_queue p)
    (cached_block_hash_to_block p) (null_block p) (enable_kv_cache_events p) (kv_event_queue p)
    c (use_int_hashes p) (metrics_env p).

Definition on_queue {A} (m : M Queue A) : M BlockPool A := zoom free_block_queue set_queue m.
Definition on_block (r : ref) : M BlockPool KVCacheBlock := on_queue (deref r).
Definition upd_block (f : KVCacheBlock → KVCacheBlock) (r : ref) : M BlockPool unit :=
  on_queue (modify (upd f r)).
Definition emit (e : KVCacheEvent) : M BlockPool unit :=
  modify (λ p, set_events (kv_event_queue p ++ [e]) p).

(** [if self.metrics_collector: self.metrics_collector.m(block)] *)
Definition on_collector (m : MetricsEnv → M Collector unit) : M BlockPool unit := λ p,
  match metrics_collector p with
  | None => (Ok tt, p)
  | Some c => let '(r, c') := m (metrics_env p) c in (r, set_collector (Some c') p)
  end.

(** Reading a [block_id] out of the store. *)
Definition id_in (h : gmap ref KVCacheBlock) (r : ref) : Z :=
  match h !! r with Some b => block_id b | None => -1 end.

(** [BlockPool.__init__]; the queue is built over the fresh block objects and
    the first block becomes the null block. *)
Definition pool_init (num_gpu_blocks : Z) (enable_caching : bool) (hash_block_size : Z)
    (enable_kv_cache_events : bool) (metrics_collector : option Collector) (use_int : bool) (env : MetricsEnv)
    : res BlockPool :=
  if 0 <? num_gpu_blocks then
    let n := Z.to_nat num_gpu_blocks in
    match (init_links (Blk <$> seq 0 n) ;;;
           let! nb := popleft in
           modify (upd (with_null true) nb) ;;; ret nb) (MkQueue (fresh_heap n) 0) with
    | (Ok nb, q) =>
        Ok (MkPool num_gpu_blocks enable_caching hash_block_size (Blk <$> seq 0 n) q ∅ nb
              enable_kv_cache_events [] metrics_collector use_int env)
    | (Raise e, _) => Raise e
    end
  else Raise AssertionError.

(** [get_cached_block(block_hash, kv_cache_group_ids)] *)
Fixpoint get_cached_block (block_hash : bytes) (kv_cache_group_ids : list Z) : M BlockPool (option (list ref)) :=
  match kv_cache_group_ids with
  | [] => ret (Some [])
  | g :: gs =>
      match make_block_hash_with_group_id block_hash g with
      | Raise e => raise e
      | Ok key =>
          let! c := gets cached_block_hash_to_block in
          match get_one_block c key with
          | Raise e => raise e
          | Ok None => ret None
          | Ok (Some b) =>
              let! rest := get_cached_block block_hash gs in
              ret (match rest with Some bs => Some (b :: bs) | None => None end)
          end
      end
  end.

(** [get_num_free_blocks()] *)
Definition get_num_free_blocks (p : BlockPool) : Z := num_free_blocks (free_block_queue p).

(** [_maybe_evict_cached_block(block)] *)
Definition maybe_evict_cached_block (block : ref) : M BlockPool bool :=
  let! b := on_block block in
  on_collector (λ env, on_block_evicted env (block_id b)) ;;;
  match block_hash b with
  | None => ret false
  | Some h =>
      let! p := gets id in
      let '(popped, c') := map_pop (id_in (heap (free_block_queue p))) (cached_block_hash_to_block p) h (block_id b) in
      modify (set_cache c') ;;;
      match popped with
      | None => ret false
      | Some _ =>
          upd_block reset_hash block ;;;
          (if enable_kv_cache_events p then
             emit (BlockRemoved [maybe_convert_block_hash (use_int_hashes p) (get_block_hash h)] (get_group_id h))
           else ret tt) ;;;
          ret true
      end
  end.

(** [assert block.ref_cnt == 0; block.ref_cnt += 1; on_block_allocated(block)] *)
Definition take_block (block : ref) : M BlockPool unit :=
  let! b := on_block block in
  py_assert (ref_cnt b =? 0) ;;;
  upd_block (λ b, with_ref_cnt (ref_cnt b + 1) b) block ;;;
  on_collector (λ env, on_block_allocated env (block_id b)).

(** [get_new_blocks(num_blocks)] *)
Definition get_new_blocks (num_blocks : Z) : M BlockPool (list ref) :=
  let! p := gets id in
  if get_num_free_blocks p <? num_blocks then raise ValueError
  else
    let! bs := on_queue (popleft_n num_blocks) in
    (if enable_caching p then for_each bs (λ b, maybe_evict_cached_block b ;;; take_block b)
     else for_each bs take_block) ;;;
    ret bs.

(** [touch(blocks)] *)
Definition touch_one (block : ref) : M BlockPool unit :=
  let! b := on_block block in
  (if (ref_cnt b =? 0) && negb (is_null b) then on_queue (remove block) else ret tt) ;;;
  upd_block (λ b, with_ref_cnt (ref_cnt b + 1) b) block ;;;
  on_collector (λ env, on_block_accessed env (block_id b)).
Definition touch (blocks : list ref) : M BlockPool unit := for_each blocks touch_one.

(** [[block for block in blocks if block.ref_cnt == 0 and not block.is_null]] *)
Definition is_freed (h : gmap ref KVCacheBlock) (r : ref) : bool :=
  match h !! r with Some b => (ref_cnt b =? 0) && negb (is_null b) | None => false end.
Definition freed_now (h : gmap ref KVCacheBlock) (blocks : list ref) : list ref :=
  filter (λ r, is_freed h r = true) blocks.

(** [free_blocks(ordered_blocks)] *)
Definition free_blocks (ordered_blocks : list ref) : M BlockPool unit :=
  for_each ordered_blocks (upd_block (λ b, with_ref_cnt (ref_cnt b - 1) b)) ;;;
  let! p := gets id in
  on_queue (append_n (freed_now (heap (free_block_queue p)) ordered_blocks)).

(** [evict_blocks(block_ids)] *)
Definition evict_blocks (block_ids : list Z) : M BlockPool unit :=
  for_each block_ids (λ block_id,
    let! p := gets id in
    py_assert (block_id <? len (blocks p)) ;;;
    let! block := py_index (blocks p) block_id in
    maybe_evict_cached_block block ;;;
    ret tt).

(** [reset_prefix_cache()] *)
Definition reset_prefix_cache : M BlockPool bool :=
  let! p := gets id in
  let num_used_blocks := num_gpu_blocks p - get_num_free_blocks p in
  if negb (num_used_blocks =? 1) then ret false
  else
    modify (set_cache ∅) ;;;
    for_each (blocks p) (upd_block reset_hash) ;;;
    on_collector (λ _, collector_reset) ;;;
    (if enable_kv_cache_events p then emit AllBlocksCleared else ret tt) ;;;
    ret true.

(** [get_usage()]; the floating-point division is exact here. *)
Definition get_usage (p : BlockPool) : Q :=
  let total_gpu_blocks := num_gpu_blocks p - 1 in
  if total_gpu_blocks =? 0 then 0%Q
  else (1 - inject_Z (get_num_free_blocks p) / inject_Z total_gpu_blocks)%Q.

(** [take_events()] *)
Definition take_events : M BlockPool (list KVCacheEvent) :=
  let! p := gets id in
  if enable_kv_cache_events p then modify (set_events []) ;;; ret (kv_event_queue p)
  else ret [].

(** ** cache_full_blocks *)

(** [block_hashes] at the granularity of the group's block size. *)
Definition hashes_at (p : BlockPool) (r : Request) (block_size : Z) : res BlockHashList :=
  if block_size =? hash_block_size p then Ok (PlainHashes (RequestModel.block_hashes r))
  else if negb (block_size mod hash_block_size p =? 0) then Raise AssertionError
  else match mk_hash_list (RequestModel.block_hashes r) (hash_block_size p) block_size with
       | Ok hl => Ok (ScaledHashes hl)
       | Raise e => Raise e
       end.

(** The loop over [enumerate(new_full_blocks)]: block [i] gets hash [i]; the
    result is [new_hashes]. *)
Fixpoint cache_blocks_loop (new_full_blocks : list ref) (new_block_hashes : list bytes) (i : Z)
    (kv_cache_group_id : Z) : M BlockPool (list ExternalBlockHash) :=
  match new_full_blocks with
  | [] => ret []
  | blk :: rest =>
      let! b := on_block blk in
      if is_null b then cache_blocks_loop rest new_block_hashes (i + 1) kv_cache_group_id
      else
        py_assert (bool_decide (block_hash b = None)) ;;;
        let! bh := py_index new_block_hashes i in
        match make_block_hash_with_group_id bh kv_cache_group_id with
        | Raise e => raise e
        | Ok key =>
            (match set_block_hash key b with
             | Some _ => upd_block (with_hash (Some key)) blk
             | None => raise AssertionError
             end) ;;;
            modify (λ p, set_cache (map_insert (id_in (heap (free_block_queue p)))
                                      (cached_block_hash_to_block p) key blk) p) ;;;
            let! p := gets id in
            let! hs := cache_blocks_loop rest new_block_hashes (i + 1) kv_cache_group_id in
            ret (maybe_convert_block_hash (use_int_hashes p) bh :: hs)
        end
  end.

Section events.
Variable sha256 : bytes → bytes.

(** The loop that collects [extra_keys_list] for the event. *)
Fixpoint extra_keys_loop (blocks : list ref) (idxs : list Z) (block_size curr_mm_idx : Z) (r : Request)
    : M BlockPool (list (option (list extra_key)) * Request) :=
  match idxs with
  | [] => ret ([], r)
  | i :: idxs =>
      let! blk := py_index blocks i in
      let! b := on_block blk in
      if is_null b then extra_keys_loop blocks idxs block_size curr_mm_idx r
      else
        let block_start := i * block_size in
        let block_end := block_start + block_size in
        match generate_block_hash_extra_keys sha256 block_start block_end curr_mm_idx r with
        | (Raise e, _) => raise e
        | (Ok (ek, mm), r') =>
            let! rest := extra_keys_loop blocks idxs block_size mm r' in
            ret (ek :: rest.1, rest.2)
        end
  end.

(** [cache_full_blocks(request, blocks, num_cached_blocks, num_full_blocks,
    block_size, kv_cache_group_id)].  The request is returned because the
    event path fills its memo of embedding hashes. *)
Definition cache_full_blocks (r : Request) (bs : list ref) (num_cached_blocks num_full_blocks : Z)
    (block_size kv_cache_group_id : Z) : M BlockPool Request :=
  if num_full_blocks <=? num_cached_blocks then ret r
  else
    let new_full_blocks := py_slice bs num_cached_blocks num_full_blocks in
    py_assert (num_full_blocks <=? len (RequestModel.block_hashes r)) ;;;
    let! p := gets id in
    match hashes_at p r block_size with
    | Raise e => raise e
    | Ok bhl =>
        match bhl_slice_from bhl num_cached_blocks with
        | None => raise IndexError
        | Some new_block_hashes =>
            let! new_hashes := cache_blocks_loop new_full_blocks new_block_hashes 0 kv_cache_group_id in
            if enable_kv_cache_events p then
              let! parent :=
                (if num_cached_blocks =? 0 then ret None
                 else match bhl_get bhl (num_cached_blocks - 1) with
                      | Some h => ret (Some (maybe_convert_block_hash (use_int_hashes p) h))
                      | None => raise IndexError
                      end) in
              let! ek := extra_keys_loop bs (py_range num_cached_blocks num_full_blocks) block_size 0 r in
              emit (BlockStored new_hashes parent
                (py_slice (all_token_ids r) (num_cached_blocks * block_size) (num_full_blocks * block_size))
                block_size (lora_int_id <$> lora_request r) (lora_name <$> lora_request r)
                (match ek.1 with [] => None | l => Some l end) kv_cache_group_id) ;;;
              ret ek.2
            else ret r
        end
    end.

End events.

(** ** The prefix cache as a relation between hashes and blocks *)

Definition entry_ids (e : cache_entry) : list nat :=
  match e with
  | OneBlock (Blk i) => [i]
  | OneBlock _ => []
  | ManyBlocks d => omap (λ kr : Z * ref, match kr.2 with Blk i => Some i | _ => None end) d
  end.

(** A dict entry is never empty and its keys are the ids of its blocks. *)
Definition dict_of (l : list nat) : list (Z * ref) := (λ i, (Z.of_nat i, Blk i)) <$> l.
Definition entry_ok (e : cache_entry) : Prop :=
  match e with
  | OneBlock r => ∃ i, r = Blk i
  | ManyBlocks d => ∃ l, l ≠ [] ∧ NoDup l ∧ d = dict_of l
  end.

Definition in_cache (c : BlockHashToBlockMap) (key : bytes) (i : nat) : Prop :=
  ∃ e, c !! key = Some e ∧ i ∈ entry_ids e.

(** The cache holds exactly the blocks with a hash, under their hash. *)
Definition cache_rep (n : nat) (c : BlockHashToBlockMap) (hf : nat → option bytes) : Prop :=
  (∀ key e, c !! key = Some e → entry_ok e) ∧
  (∀ key i, in_cache c key i ↔ (i < n)%nat ∧ hf i = Some key).

Lemma entry_ids_dict l : entry_ids (ManyBlocks (dict_of l)) = l.
Proof. unfold entry_ids, dict_of. induction l as [|i l IH]; [done|]. cbn in *. by f_equal. Qed.

Lemma dict_set_of l i : i ∉ l → dict_set (dict_of l) (Z.of_nat i) (Blk i) = dict_of (l ++ [i]).
Proof.
  induction l as [|j l IH]; [done|]. intros [Hj Hl]%not_elem_of_cons. cbn.
  destruct (Z.eqb_spec (Z.of_nat j) (Z.of_nat i)); [lia|]. f_equal. by apply IH.
Qed.

Lemma dict_pop_of l1 i l2 :
  i ∉ l1 → dict_pop (dict_of (l1 ++ i :: l2)) (Z.of_nat i) = (Some (Blk i), dict_of (l1 ++ l2)).
Proof.
  induction l1 as [|j l1 IH]; intros Hi; cbn; [by rewrite Z.eqb_refl|].
  apply not_elem_of_cons in Hi as [Hij Hi].
  destruct (Z.eqb_spec (Z.of_nat j) (Z.of_nat i)); [lia|].
  unfold dict_of in *. by rewrite IH.
Qed.

(** The effect of replacing one entry. *)
Lemma cache_rep_update n c hf hf' key e :
  cache_rep n c hf →
  (∀ e', e = Some e' → entry_ok e') →
  (∀ i, (∃ e', e = Some e' ∧ i ∈ entry_ids e') ↔ (i < n)%nat ∧ hf' i = Some key) →
  (∀ i key', key' ≠ key → hf' i = Some key' ↔ hf i = Some key') →
  cache_rep n (partial_alter (λ _, e) key c) hf'.
Proof.
  intros [Hok Hin] He Hkey Hoth. split.
  - intros k e'. destruct (decide (k = key)) as [->|Hk].
    + rewrite lookup_partial_alter_eq. apply He.
    + rewrite lookup_partial_alter_ne by done. apply Hok.
  - intros k i. unfold in_cache. destruct (decide (k = key)) as [->|Hk].
    + rewrite lookup_partial_alter_eq. apply Hkey.
    + rewrite lookup_partial_alter_ne, Hoth by done. apply Hin.
Qed.

Lemma cache_rep_ids n c hf key e i :
  cache_rep n c hf → c !! key = Some e → i ∈ entry_ids e ↔ (i < n)%nat ∧ hf i = Some key.
Proof. intros [_ Hin] He. rewrite <-Hin. unfold in_cache. rewrite He. naive_solver. Qed.

Lemma cache_rep_none n c hf key i : cache_rep n c hf → c !! key = None → (i < n)%nat → hf i ≠ Some key.
Proof. intros [_ Hin] He Hi Hh. assert (in_cache c key i) as (e & He' & _) by by apply Hin. congruence. Qed.

Lemma map_insert_rep n id_of c hf key i :
  cache_rep n c hf → (i < n)%nat → hf i = None → (∀ j, (j < n)%nat → id_of (Blk j) = Z.of_nat j) →
  cache_rep n (map_insert id_of c key (Blk i)) (<[i := Some key]> hf).
Proof.
  intros Hc Hi Hhi Hid.
  assert (∀ e, (∀ j, j ∈ entry_ids e ↔ j = i ∨ (j < n)%nat ∧ hf j = Some key) → entry_ok e →
    cache_rep n (<[key := e]> c) (<[i := Some key]> hf)) as Hupd.
  { intros e He Hok. apply (cache_rep_update n c hf); try done.
    - by intros e' [= <-].
    - intros j. destruct (decide (j = i)) as [->|Hj].
      + rewrite fn_lookup_insert. split; [done|]. intros _. exists e. split; [done|]. apply He. by left.
      + rewrite fn_lookup_insert_ne by done. naive_solver.
    - intros j k Hk. destruct (decide (j = i)) as [->|Hj].
      + rewrite fn_lookup_insert, Hhi. naive_solver.
      + by rewrite fn_lookup_insert_ne. }
  assert (∀ l, NoDup l → (∀ j, j ∈ l ↔ (j < n)%nat ∧ hf j = Some key) →
    cache_rep n (<[key := ManyBlocks (dict_set (dict_of l) (id_of (Blk i)) (Blk i))]> c) (<[i := Some key]> hf)) as Hmany.
  { intros l Hnd Hids. assert (i ∉ l) by (intros [_ ?]%Hids; congruence).
    rewrite Hid, dict_set_of by done. apply Hupd.
    - intros j. rewrite entry_ids_dict, elem_of_app, list_elem_of_singleton, Hids. tauto.
    - exists (l ++ [i]). split_and!; [by destruct l| |done].
      apply NoDup_app. split_and!; [done| |apply NoDup_singleton].
      intros j Hj ->%list_elem_of_singleton. done. }
  unfold map_insert. destruct (c !! key) as [[r|d]|] eqn:Ek.
  - pose proof (λ j, cache_rep_ids n c hf key _ j Hc Ek) as Hids.
    destruct (proj1 Hc _ _ Ek) as [j ->]. cbn in Hids.
    assert (j < n)%nat by (apply (Hids j); by apply list_elem_of_singleton).
    rewrite (Hid j) by done. apply (Hmany [j]); [apply NoDup_singleton|done].
  - pose proof (λ j, cache_rep_ids n c hf key _ j Hc Ek) as Hids.
    destruct (proj1 Hc _ _ Ek) as (l & Hl & Hnd & ->). setoid_rewrite entry_ids_dict in Hids. by apply Hmany.
  - apply Hupd; [|by exists i]. intros j. cbn. rewrite list_elem_of_singleton. split; [by left|].
    intros [?|[Hj Hh]]; [done|]. by apply (cache_rep_none n c hf key j) in Hh.
Qed.

Lemma map_pop_rep n id_of c hf key i :
  cache_rep n c hf → (i < n)%nat → hf i = Some key → (∀ j, (j < n)%nat → id_of (Blk j) = Z.of_nat j) →
  ∃ c', map_pop id_of c key (Z.of_nat i) = (Some (Blk i), c') ∧ cache_rep n c' (<[i := None]> hf).
Proof.
  intros Hc Hi Hhi Hid.
  assert (∀ e, (∀ e', e = Some e' → entry_ok e') →
    (∀ j, (∃ e', e = Some e' ∧ j ∈ entry_ids e') ↔ j ≠ i ∧ (j < n)%nat ∧ hf j = Some key) →
    cache_rep n (partial_alter (λ _, e) key c) (<[i := None]> hf)) as Hupd.
  { intros e Hok He. apply (cache_rep_update n c hf); try done.
    - intros j. rewrite He. destruct (decide (j = i)) as [->|Hj].
      + rewrite fn_lookup_insert. naive_solver.
      + rewrite fn_lookup_insert_ne by done. naive_solver.
    - intros j k Hk. destruct (decide (j = i)) as [->|Hj].
      + rewrite fn_lookup_insert, Hhi. naive_solver.
      + by rewrite fn_lookup_insert_ne. }
  assert (in_cache c key i) as (e & Ek & Hie) by by apply Hc.
  pose proof (λ j, cache_rep_ids n c hf key _ j Hc Ek) as Hids.
  unfold map_pop. rewrite Ek. destruct e as [r|d]; destruct (proj1 Hc _ _ Ek) as [l Hl].
  - subst r. cbn in Hie, Hids. apply list_elem_of_singleton in Hie as ->.
    rewrite Hid, Z.eqb_refl by done. eexists. split; [done|]. apply Hupd; [done|].
    intros j. rewrite <-Hids, list_elem_of_singleton. naive_solver.
  - destruct Hl as (Hne & Hnd & ->). rewrite entry_ids_dict in Hie. setoid_rewrite entry_ids_dict in Hids.
    apply list_elem_of_split in Hie as (l1 & l2 & ->).
    destruct (nodup_middle _ _ _ Hnd) as [Hnd' Hi'].
    rewrite dict_pop_of by (intros ?; apply Hi', elem_of_app; by left).
    eexists. split; [done|].
    assert (∀ j, j ∈ l1 ++ l2 ↔ j ≠ i ∧ (j < n)%nat ∧ hf j = Some key) as Hl12.
    { intros j. rewrite <-Hids. rewrite !elem_of_app, elem_of_cons in *. split; [|naive_solver].
      intros Hj. split; [|naive_solver]. by intros ->. }
    unfold dict_of at 1. rewrite len_fmap. destruct (Z.ltb_spec 0 (len (l1 ++ l2))) as [Hpos|Hz].
    + apply Hupd; [|intros j; rewrite <-Hl12; split].
      * intros e' [= <-]. exists (l1 ++ l2). split_and!; [|done|done]. intros Hnil. rewrite Hnil in Hpos. by vm_compute in Hpos.
      * intros (e' & [= <-] & Hj). by rewrite entry_ids_dict in Hj.
      * intros Hj. eexists. split; [done|]. by rewrite entry_ids_dict.
    + apply Hupd; [done|]. intros j. split; [naive_solver|]. intros Hj%Hl12.
      assert (l1 ++ l2 = []) as Hnil by (apply nil_length_inv; unfold len in Hz; lia).
      rewrite Hnil in Hj. by apply elem_of_nil in Hj.
Qed.

Lemma get_one_block_rep n c hf key :
  cache_rep n c hf →
  (∃ i, get_one_block c key = Ok (Some (Blk i)) ∧ (i < n)%nat ∧ hf i = Some key) ∨
  (get_one_block c key = Ok None ∧ ∀ i, (i < n)%nat → hf i ≠ Some key).
Proof.
  intros Hc. unfold get_one_block. destruct (c !! key) as [e|] eqn:Ek.
  2:{ right. split; [done|]. intros i. by apply (cache_rep_none n c). }
  left. pose proof (λ j, cache_rep_ids n c hf key _ j Hc Ek) as Hids.
  destruct e as [r|d]; destruct (proj1 Hc _ _ Ek) as [i Hi].
  - subst r. exists i. split; [done|]. apply Hids. by apply list_elem_of_singleton.
  - destruct Hi as (Hne & _ & ->). rename i into l. destruct l as [|i l]; [done|].
    exists i. split; [done|]. apply Hids. rewrite entry_ids_dict. apply elem_of_cons. by left.
Qed.

(** ** The abstract pool *)

(** What clients see of the pool: the free list, the reference counts and the
    hash under which each block is cached. *)
Record APool := MkAPool {
  a_free : list nat;
  a_ref : nat → Z;
  a_hash : nat → option bytes;
}.

(** The fields no operation changes. *)
Definition pool_config (p : BlockPool) :=
  (num_gpu_blocks p, enable_caching p, hash_block_size p, blocks p, null_block p,
   enable_kv_cache_events p, use_int_hashes p, metrics_env p).

Definition pool_size (p : BlockPool) : nat := Z.to_nat (num_gpu_blocks p).

Lemma config_size p p' : pool_config p' = pool_config p → pool_size p' = pool_size p.
Proof. unfold pool_config, pool_size. by intros [= -> _]. Qed.

(** The pool [p] implements the abstract pool [a]. *)
Record pool_rep (p : BlockPool) (a : APool) : Prop := {
  pr_pos : 0 < num_gpu_blocks p;
  pr_blocks : blocks p = Blk <$> seq 0 (pool_size p);
  pr_null : null_block p = Blk 0;
  pr_queue : rep (free_block_queue p) (a_free a);
  pr_meta i : (i < pool_size p)%nat → meta <$> heap (free_block_queue p) !! Blk i =
                Some (Z.of_nat i, a_ref a i, a_hash a i, bool_decide (i = 0%nat));
  pr_cache : cache_rep (pool_size p) (cached_block_hash_to_block p) (a_hash a);
}.

(** The abstract invariant: exactly the unreferenced blocks are free, no count
    is negative, and the null block (block 0) is neither free nor cached. *)
Record pool_ok (n : nat) (a : APool) : Prop := {
  ok_free i : i ∈ a_free a ↔ (i < n)%nat ∧ i ≠ 0%nat ∧ a_ref a i = 0;
  ok_nodup : NoDup (a_free a);
  ok_ref i : i ≠ 0%nat → 0 ≤ a_ref a i;
  ok_null : a_hash a 0 = None;
}.

Definition pool_inv (p : BlockPool) (a : APool) : Prop := pool_rep p a ∧ pool_ok (pool_size p) a.

Definition set_free (l : list nat) (a : APool) : APool := MkAPool l (a_ref a) (a_hash a).
Definition set_ref (i : nat) (z : Z) (a : APool) : APool := MkAPool (a_free a) (<[i := z]> (a_ref a)) (a_hash a).
Definition set_hash (i : nat) (h : option bytes) (a : APool) : APool :=
  MkAPool (a_free a) (a_ref a) (<[i := h]> (a_hash a)).

(** Abstract pools are compared pointwise. *)
#[global] Instance apool_equiv : Equiv APool := λ a b,
  a_free a = a_free b ∧ (∀ i, a_ref a i = a_ref b i) ∧ (∀ i, a_hash a i = a_hash b i).

#[global] Instance apool_equivalence : Equivalence (≡@{APool}).
Proof.
  split.
  - by intros a.
  - intros a b (H1 & H2 & H3). split_and!; auto.
  - intros a b c (H1 & H2 & H3) (H4 & H5 & H6). split_and!; [congruence|..];
      intros i; [by rewrite H2|by rewrite H3].
Qed.

#[global] Instance cache_rep_proper n c : Proper (pointwise_relation _ (=) ==> iff) (cache_rep n c).
Proof. intros f g Hfg. unfold cache_rep. by setoid_rewrite Hfg. Qed.

#[global] Instance pool_rep_proper : Proper ((=) ==> (≡) ==> iff) pool_rep.
Proof.
  intros p ? <-.
  assert (∀ a b : APool, a ≡ b → pool_rep p a → pool_rep p b) as Himp.
  { intros a b (H1 & H2 & H3) [Hp Hb Hn Hq Hm Hc]. split; try done.
    - by rewrite <-H1.
    - intros i Hi. rewrite <-H2, <-H3. by apply Hm.
    - by eapply cache_rep_proper; [symmetry; exact H3|]. }
  intros a b Hab. split; apply Himp; [done|by symmetry].
Qed.

(** ** Primitive steps *)

Lemma rep_upd f r q l :
  (∀ b, next_free_block (f b) = next_free_block b) → (∀ b, prev_free_block (f b) = prev_free_block b) →
  rep q l → rep (upd f r q) l.
Proof.
  intros Hn Hp [Hl Hnd Hnum Ht Hd].
  assert (∀ r', nxt (alter f r (heap q)) r' = nxt (heap q) r') as Hnxt.
  { intros r'. unfold nxt. rewrite lookup_alter. case_decide; subst; [|done].
    destruct (heap q !! r'); simpl; auto. }
  assert (∀ r', prv (alter f r (heap q)) r' = prv (heap q) r') as Hprv.
  { intros r'. unfold prv. rewrite lookup_alter. case_decide; subst; [|done].
    destruct (heap q !! r'); simpl; auto. }
  assert (∀ l, linked (heap q) l → linked (alter f r (heap q)) l) as Hlink.
  { induction l0 as [|x [|y l0] IH]; try done. intros (H1 & H2 & H3). split_and!; [by rewrite Hnxt|by rewrite Hprv|by apply IH]. }
  split; cbn [heap num_free_blocks upd]; auto; [by rewrite Hnxt|].
  intros i Hi. rewrite Hnxt, Hprv. by apply Hd.
Qed.

Lemma meta_block p a i :
  pool_rep p a → (i < pool_size p)%nat → ∃ b, heap (free_block_queue p) !! Blk i = Some b ∧
    block_id b = Z.of_nat i ∧ ref_cnt b = a_ref a i ∧ block_hash b = a_hash a i ∧
    is_null b = bool_decide (i = 0%nat).
Proof.
  intros Hr Hi. pose proof (pr_meta _ _ Hr i Hi) as Hm.
  destruct (heap (free_block_queue p) !! Blk i) as [b|]; [|done].
  unfold meta in Hm. cbn in Hm. injection Hm as ????. exists b. done.
Qed.

Lemma id_in_pool p a j :
  pool_rep p a → (j < pool_size p)%nat → id_in (heap (free_block_queue p)) (Blk j) = Z.of_nat j.
Proof. intros Hr Hj. destruct (meta_block p a j Hr Hj) as (b & Hb & Hid & _). unfold id_in. by rewrite Hb. Qed.

(** A queue operation: only the free list changes. *)
Lemma wp_queue {A} (m : M Queue A) p a (Q : A → list nat → Prop) (R : A → BlockPool → Prop) :
  pool_rep p a →
  wp m (λ x q', ∃ l', Q x l' ∧ rep q' l' ∧ same_meta (heap (free_block_queue p)) (heap q')) (free_block_queue p) →
  (∀ x p' l', Q x l' → pool_rep p' (set_free l' a) → pool_config p' = pool_config p → R x p') →
  wp (on_queue m) R p.
Proof.
  intros Hr Hm HR. apply wp_zoom. eapply wp_mono; [done|]. intros x q' (l' & HQ & Hrep & Hmeta).
  eapply HR; [done| |done]. destruct Hr. split; try done.
  intros i Hi. cbn. rewrite Hmeta. by apply pr_meta0.
Qed.

Lemma wp_on_block p a i (R : KVCacheBlock → BlockPool → Prop) :
  pool_rep p a → (i < pool_size p)%nat →
  (∀ b, block_id b = Z.of_nat i → ref_cnt b = a_ref a i → block_hash b = a_hash a i →
     is_null b = bool_decide (i = 0%nat) → R b p) →
  wp (on_block (Blk i)) R p.
Proof.
  intros Hr Hi HR. destruct (meta_block p a i Hr Hi) as (b & Hb & ? & ? & ? & ?).
  apply wp_zoom. eapply wp_deref; [done|]. replace (set_queue _ p) with p by by destruct p. auto.
Qed.

(** Everything but the cache. *)
Definition pool_base (p : BlockPool) (a : APool) : Prop :=
  0 < num_gpu_blocks p ∧ blocks p = Blk <$> seq 0 (pool_size p) ∧ null_block p = Blk 0 ∧
  rep (free_block_queue p) (a_free a) ∧
  (∀ i, (i < pool_size p)%nat → meta <$> heap (free_block_queue p) !! Blk i =
          Some (Z.of_nat i, a_ref a i, a_hash a i, bool_decide (i = 0%nat))).

Lemma pool_rep_base p a :
  pool_rep p a ↔ pool_base p a ∧ cache_rep (pool_size p) (cached_block_hash_to_block p) (a_hash a).
Proof. split; [by intros []|]. by intros [(?&?&?&?&?) ?]. Qed.

(** An assignment to the count or the hash of one block. *)
Lemma pool_base_upd p a f i rc h :
  pool_base p a → (i < pool_size p)%nat →
  (∀ b, next_free_block (f b) = next_free_block b ∧ prev_free_block (f b) = prev_free_block b ∧
        block_id (f b) = block_id b ∧ is_null (f b) = is_null b) →
  (∀ b, ref_cnt b = a_ref a i → block_hash b = a_hash a i → ref_cnt (f b) = rc ∧ block_hash (f b) = h) →
  pool_base (set_queue (upd f (Blk i) (free_block_queue p)) p) (set_ref i rc (set_hash i h a)).
Proof.
  intros (Hp & Hbl & Hn & Hq & Hm) Hi Hf Hv. split_and!; try done; [apply rep_upd; [apply Hf..|done]|].
  intros j Hj. cbn [set_queue free_block_queue upd heap set_ref set_hash a_ref a_hash].
  rewrite lookup_alter. case_decide as Hij.
  - injection Hij as <-. rewrite !fn_lookup_insert. specialize (Hm i Hi).
    destruct (heap (free_block_queue p) !! Blk i) as [b|]; [|done]. cbn in *.
    destruct (Hf b) as (_ & _ & Hid' & Hnl'). injection Hm as Hid Hrc Hh Hnl.
    destruct (Hv b) as [Hv1 Hv2]; [done..|]. unfold meta. by rewrite Hid', Hnl', Hv1, Hv2, Hid, Hnl.
  - rewrite !fn_lookup_insert_ne by congruence. by apply Hm.
Qed.

(** ... with a matching change of the cache. *)
Lemma pool_rep_upd p a f i rc h c :
  pool_rep p a → (i < pool_size p)%nat →
  (∀ b, next_free_block (f b) = next_free_block b ∧ prev_free_block (f b) = prev_free_block b ∧
        block_id (f b) = block_id b ∧ is_null (f b) = is_null b) →
  (∀ b, ref_cnt b = a_ref a i → block_hash b = a_hash a i → ref_cnt (f b) = rc ∧ block_hash (f b) = h) →
  cache_rep (pool_size p) c (<[i := h]> (a_hash a)) →
  pool_rep (set_cache c (set_queue (upd f (Blk i) (free_block_queue p)) p)) (set_ref i rc (set_hash i h a)).
Proof.
  intros [Hb _]%pool_rep_base Hi Hf Hv Hc. apply pool_rep_base. split; [|done].
  exact (pool_base_upd p a f i rc h Hb Hi Hf Hv).
Qed.

Lemma fn_insert_id {T} (f : nat → T) i j : <[i := f i]> f j = f j.
Proof. unfold insert, fn_insert. by case_decide; subst. Qed.

(** [block.ref_cnt += d] *)
Lemma wp_add_ref p a d i (R : unit → BlockPool → Prop) :
  pool_rep p a → (i < pool_size p)%nat →
  (∀ p', pool_rep p' (set_ref i (a_ref a i + d) a) → pool_config p' = pool_config p → R tt p') →
  wp (upd_block (λ b, with_ref_cnt (ref_cnt b + d) b) (Blk i)) R p.
Proof.
  intros Hr Hi HR. apply wp_zoom, wp_modify, HR; [|done].
  eapply pool_rep_proper; [done| |].
  2:{ eapply (pool_rep_upd p a _ i (a_ref a i + d) (a_hash a i) (cached_block_hash_to_block p)); try done.
      - by intros b <- ?.
      - eapply cache_rep_proper; [intros j; apply fn_insert_id|apply Hr]. }
  split_and!; try done. intros j. cbn. by rewrite fn_insert_id.
Qed.

Lemma on_collector_ok p a (m : MetricsEnv → M Collector unit) (R : unit → BlockPool → Prop) :
  pool_rep p a → (∀ env c, (m env c).1 = Ok tt) →
  (∀ p', pool_rep p' a → pool_config p' = pool_config p → R tt p') →
  wp (on_collector m) R p.
Proof.
  intros Hr Hm HR. unfold wp, on_collector. destruct (metrics_collector p) as [c|] eqn:Hc; [|by apply HR].
  specialize (Hm (metrics_env p) c). destruct (m (metrics_env p) c) as [r c']. cbn in Hm. subst r.
  apply HR; [|done]. by destruct Hr.
Qed.

Lemma collector_calls env i c :
  (on_block_allocated env i c).1 = Ok tt ∧ (on_block_accessed env i c).1 = Ok tt ∧
  (on_block_evicted env i c).1 = Ok tt.
Proof.
  unfold on_block_allocated, on_block_accessed, on_block_evicted, should_sample_block, read_clock,
    bind, gets, modify, ret. repeat case_match; simplify_eq; auto.
Qed.

Lemma emit_rep p a e (R : unit → BlockPool → Prop) :
  pool_rep p a → (∀ p', pool_rep p' a → pool_config p' = pool_config p → R tt p') → wp (emit e) R p.
Proof. intros Hr HR. apply wp_modify, HR; [|done]. by destruct Hr. Qed.

(** Number of occurrences. *)
Definition occ (i : nat) (l : list nat) : Z := len (filter (λ j, j = i) l).

Lemma occ_nil i : occ i [] = 0.
Proof. done. Qed.

Lemma occ_app i l k : occ i (l ++ k) = occ i l + occ i k.
Proof. unfold occ. by rewrite filter_app, len_app. Qed.

Lemma occ_cons i j l : occ i (j :: l) = (if decide (j = i) then 1 else 0) + occ i l.
Proof. unfold occ. rewrite filter_cons. case_decide; [rewrite len_cons; lia|lia]. Qed.

Lemma occ_nonneg i l : 0 ≤ occ i l.
Proof. apply len_nonneg. Qed.

Lemma occ_notin i l : i ∉ l → occ i l = 0.
Proof.
  induction l as [|j l IH]; [done|]. intros [Hj Hl]%not_elem_of_cons. rewrite occ_cons, IH by done.
  by rewrite decide_False.
Qed.

Lemma occ_in i l : i ∈ l → 0 < occ i l.
Proof.
  intros (l1 & l2 & ->)%list_elem_of_split. rewrite occ_app, occ_cons, decide_True by done.
  pose proof (occ_nonneg i l1). pose proof (occ_nonneg i l2). lia.
Qed.

Lemma occ_nodup i l : NoDup l → i ∈ l → occ i l = 1.
Proof.
  intros Hnd (l1 & l2 & ->)%list_elem_of_split. apply nodup_middle in Hnd as [_ Hi].
  rewrite not_elem_of_app in Hi. destruct Hi. rewrite occ_app, occ_cons, decide_True, !occ_notin by done. lia.
Qed.

(** Abstract operations. *)
Definition a_alloc (caching : bool) (k : nat) (a : APool) : APool :=
  let ids := take k (a_free a) in
  MkAPool (drop k (a_free a)) (λ i, if decide (i ∈ ids) then 1 else a_ref a i)
    (λ i, if decide (caching = true ∧ i ∈ ids) then None else a_hash a i).
Definition a_touch (ids : list nat) (a : APool) : APool :=
  MkAPool (filter (λ i, i ∉ ids) (a_free a)) (λ i, a_ref a i + occ i ids) (a_hash a).
Definition a_release (ids : list nat) (a : APool) : APool :=
  let rf := λ i, a_ref a i - occ i ids in
  MkAPool (a_free a ++ filter (λ i, i ≠ 0%nat ∧ rf i = 0) ids) rf (a_hash a).
Definition a_evict (ids : list nat) (a : APool) : APool :=
  MkAPool (a_free a) (a_ref a) (λ i, if decide (i ∈ ids) then None else a_hash a i).

(** ** Eviction and allocation *)

Ltac a_cbn := cbn [a_evict a_alloc a_touch a_release set_ref set_hash set_free a_free a_ref a_hash].

Lemma evict_rep p a i (R : bool → BlockPool → Prop) :
  pool_rep p a → (i < pool_size p)%nat →
  (∀ p', pool_rep p' (a_evict [i] a) → pool_config p' = pool_config p → R (bool_decide (is_Some (a_hash a i))) p') →
  wp (maybe_evict_cached_block (Blk i)) R p.
Proof.
  intros Hr Hi HR. unfold maybe_evict_cached_block. wp_step. apply (wp_on_block p a i); [done..|].
  intros b Hid Hrc Hh Hnl. wp_step. apply (on_collector_ok p a); [done|intros; apply collector_calls|].
  intros p1 Hr1 Hcfg1. rewrite Hh.
  pose proof (config_size _ _ Hcfg1) as Hsz. rewrite <-Hsz in Hi.
  destruct (a_hash a i) as [h|] eqn:Eh.
  2:{ wp_step. apply HR; [|done]. eapply pool_rep_proper; [done| |exact Hr1].
      split_and!; try done. intros j. a_cbn. destruct (decide (j ∈ [i])) as [Hj|Hj]; [|done].
      apply list_elem_of_singleton in Hj as ->. by rewrite Eh. }
  wp_step. wp_step. unfold id. rewrite Hid.
  destruct (map_pop_rep (pool_size p1) (id_in (heap (free_block_queue p1)))
    (cached_block_hash_to_block p1) (a_hash a) h i) as (c' & -> & Hc'); [apply Hr1|done|done| |].
  { intros j Hj. by eapply id_in_pool. }
  wp_step. wp_step. wp_step. unfold upd_block. apply wp_zoom, wp_modify. cbn beta.
  set (p2 := set_queue _ _).
  assert (pool_rep p2 (a_evict [i] a)) as Hr2.
  { eapply pool_rep_proper; [done| |apply (pool_rep_upd p1 a reset_hash i (a_ref a i) None c'); try done].
    - split_and!; try done; intros j; a_cbn; [by rewrite fn_insert_id|].
      unfold insert, fn_insert. destruct (decide (i = j)) as [->|Hij].
      + rewrite decide_True; [done|]. by apply list_elem_of_singleton.
      + rewrite decide_False; [done|]. intros ->%list_elem_of_singleton. done. }
  destruct (enable_kv_cache_events p1).
  - wp_step. apply (emit_rep p2 (a_evict [i] a)); [done|]. intros p3 Hr3 Hcfg3. wp_step.
    apply HR; [done|]. by rewrite Hcfg3.
  - wp_steps. by apply HR.
Qed.

Lemma take_rep p a i (R : unit → BlockPool → Prop) :
  pool_rep p a → (i < pool_size p)%nat → a_ref a i = 0 →
  (∀ p', pool_rep p' (set_ref i 1 a) → pool_config p' = pool_config p → R tt p') →
  wp (take_block (Blk i)) R p.
Proof.
  intros Hr Hi H0 HR. unfold take_block. wp_step. apply (wp_on_block p a i); [done..|].
  intros b Hid Hrc _ _. wp_step. apply wp_assert; [by rewrite Hrc, H0|]. wp_step.
  apply (wp_add_ref p a 1 i); [done..|]. rewrite H0. intros p1 Hr1 Hcfg1.
  apply (on_collector_ok p1 (set_ref i 1 a)); [done|intros; apply collector_calls|].
  intros p2 Hr2 Hcfg2. apply HR; [done|]. by rewrite Hcfg2.
Qed.

Lemma pool_ok_lt n a i : pool_ok n a → i ∈ a_free a → (i < n)%nat.
Proof. intros Hok Hi. by apply Hok in Hi as (? & ? & ?). Qed.

(** [get_new_blocks]: the first [k] free blocks, with count one and no hash. *)
Lemma get_new_blocks_rep p a k :
  pool_inv p a → 0 ≤ k ≤ len (a_free a) →
  wp (get_new_blocks k) (λ bs p', bs = Blk <$> take (Z.to_nat k) (a_free a) ∧
    pool_rep p' (a_alloc (enable_caching p) (Z.to_nat k) a) ∧ pool_config p' = pool_config p) p.
Proof.
  intros [Hr Hok] Hk. unfold get_new_blocks. wp_step. wp_step. unfold id, get_num_free_blocks.
  rewrite (rep_num _ _ (pr_queue _ _ Hr)). destruct (Z.ltb_spec (len (a_free a)) k) as [|_]; [lia|].
  set (ids := take (Z.to_nat k) (a_free a)).
  wp_step. eapply (wp_queue _ p a (λ bs l', bs = Blk <$> ids ∧ l' = drop (Z.to_nat k) (a_free a))); [done| |].
  { eapply wp_mono; [apply popleft_n_rep; [apply Hr|lia]|]. intros bs q' (-> & Hrep & Hm). eauto. }
  intros bs p1 l' [-> ->] Hr1 Hcfg1. wp_step.
  pose proof (config_size _ _ Hcfg1) as Hsz.
  assert (NoDup ids) as Hnd by apply (nodup_take_drop _ _ (ok_nodup _ _ Hok)).
  assert (∀ i, i ∈ ids → (i < pool_size p)%nat ∧ a_ref a i = 0) as Hids.
  { intros i Hi. destruct (proj1 (ok_free _ _ Hok i)) as (? & _ & ?); [by eapply take_sub|done]. }
  pose (I := λ (pre : list nat) (p' : BlockPool),
    pool_rep p' (MkAPool (drop (Z.to_nat k) (a_free a)) (λ i, if decide (i ∈ pre) then 1 else a_ref a i)
      (λ i, if decide (enable_caching p = true ∧ i ∈ pre) then None else a_hash a i)) ∧
    pool_config p' = pool_config p).
  assert (I [] p1) as HI0.
  { split; [|done]. eapply pool_rep_proper; [done| |exact Hr1]. split_and!; [done|..]; intros i; a_cbn.
    - by rewrite decide_False by apply not_elem_of_nil.
    - rewrite decide_False; [done|]. by intros [_ ?%elem_of_nil]. }
  assert (wp (if enable_caching p then for_each (Blk <$> ids) (λ b, maybe_evict_cached_block b ;;; take_block b)
              else for_each (Blk <$> ids) take_block) (λ _ p', I ids p') p1) as Hloop.
  2:{ eapply wp_mono; [exact Hloop|]. intros _ p' [Hr' Hcfg']. wp_step. split_and!; done. }
  destruct (enable_caching p) eqn:Hcache; rewrite for_each_fmap; apply (wp_for_each I); [done| |done|].
  all: intros pre i post p' Hsplit [Hr' Hcfg']; destruct (nodup_next _ _ _ _ Hnd Hsplit) as [Hipre Hi];
    destruct (Hids i Hi) as [Hin Hi0]; rewrite <-(config_size _ _ Hcfg') in Hin.
  - wp_step. eapply (evict_rep p'); [done..|]. intros p2 Hr2 Hcfg2.
    eapply (take_rep p2); [done|by rewrite (config_size _ _ Hcfg2)|a_cbn; by rewrite decide_False|].
    intros p3 Hr3 Hcfg3. split; [|by rewrite Hcfg3, Hcfg2].
    eapply pool_rep_proper; [done| |exact Hr3].
    split_and!; [done|..]; intros j; a_cbn; unfold insert, fn_insert; dec_cases;
      rewrite ?elem_of_app, ?list_elem_of_singleton in *; naive_solver.
  - eapply (take_rep p'); [done|done|a_cbn; by rewrite decide_False|].
    intros p3 Hr3 Hcfg3. split; [|by rewrite Hcfg3].
    eapply pool_rep_proper; [done| |exact Hr3].
    split_and!; [done|..]; intros j; a_cbn; unfold insert, fn_insert; dec_cases; 
      rewrite ?elem_of_app, ?list_elem_of_singleton in *; naive_solver.
Qed.

Lemma a_alloc_ok n c k a : pool_ok n a → pool_ok n (a_alloc c k a).
Proof.
  intros [Hf Hnd Hrc Hn]. destruct (nodup_take_drop k _ Hnd) as (H1 & H2 & H3). split; a_cbn; auto.
  - intros i. destruct (decide (i ∈ take k (a_free a))) as [Hi|Hi].
    + split; [by intros ?%H3|lia].
    + rewrite <-Hf. split; [apply drop_sub|].
      rewrite <-(take_drop k (a_free a)) at 1. rewrite elem_of_app. tauto.
  - intros i Hi. destruct (decide (i ∈ take k (a_free a))); [lia|auto].
  - by destruct (decide _).
Qed.

(** ** Touching and releasing *)

Lemma filter_del i l : NoDup l → filter (λ j, j ≠ i) l = del i l.
Proof.
  induction 1 as [|j l Hj Hnd IH]; [done|]. rewrite filter_cons. cbn [del].
  destruct (decide (j = i)) as [->|Hji].
  - rewrite decide_False by tauto. rewrite IH. clear -Hj. induction l as [|k l IH]; [done|].
    apply not_elem_of_cons in Hj as [? ?]. cbn. rewrite decide_False by done. by rewrite IH.
  - by rewrite decide_True, IH.
Qed.

Lemma filter_twice (l : list nat) i pre :
  filter (λ j, j ∉ pre ++ [i]) l = filter (λ j, j ≠ i) (filter (λ j, j ∉ pre) l).
Proof.
  rewrite list_filter_filter. apply list_filter_iff. intros j.
  rewrite elem_of_app, list_elem_of_singleton. tauto.
Qed.

Lemma a_touch_ok n ids a : pool_ok n a → pool_ok n (a_touch ids a).
Proof.
  intros [Hf Hnd Hrc Hn]. split; a_cbn; auto.
  - intros i. rewrite list_elem_of_filter, Hf. split.
    + intros (Hi & ? & ? & ?). rewrite occ_notin by done. split_and!; auto; lia.
    + intros (? & Hi & H0). pose proof (Hrc i Hi). pose proof (occ_nonneg i ids).
      assert (¬ 0 < occ i ids) by lia. split_and!; auto; [|lia]. by intros ?%occ_in.
  - by apply NoDup_filter.
  - intros i Hi. pose proof (Hrc i Hi). pose proof (occ_nonneg i ids). lia.
Qed.

Lemma a_touch_nil a : a_touch [] a ≡ a.
Proof.
  split_and!; a_cbn; [|intros i; rewrite occ_nil; lia|done].
  apply filter_id. intros i _. apply not_elem_of_nil.
Qed.

Lemma a_touch_snoc ids i a : a_touch (ids ++ [i]) a ≡ a_touch [i] (a_touch ids a).
Proof.
  split_and!; a_cbn; [|intros j; rewrite occ_app; lia|done].
  rewrite filter_twice. apply list_filter_iff. intros j. by rewrite list_elem_of_singleton.
Qed.

#[global] Instance pool_ok_proper n : Proper ((≡) ==> iff) (pool_ok n).
Proof.
  assert (∀ a b : APool, a ≡ b → pool_ok n a → pool_ok n b) as Himp.
  { intros a b (H1 & H2 & H3) [Hf Hnd Hrc Hn]. split.
    - intros i. by rewrite <-H1, <-H2.
    - by rewrite <-H1.
    - intros i. rewrite <-H2. apply Hrc.
    - by rewrite <-H3. }
  intros a b Hab. split; apply Himp; [done|by symmetry].
Qed.

Lemma touch_one_rep p a i :
  pool_inv p a → (i < pool_size p)%nat →
  wp (touch_one (Blk i)) (λ _ p', pool_rep p' (a_touch [i] a) ∧ pool_config p' = pool_config p) p.
Proof.
  intros [Hr Hok] Hi. unfold touch_one. wp_step. apply (wp_on_block p a i); [done..|].
  intros b Hid Hrc _ Hnl. wp_step.
  assert (wp (if (ref_cnt b =? 0) && negb (is_null b) then on_queue (remove (Blk i)) else ret tt)
    (λ _ p', pool_rep p' (set_free (del i (a_free a)) a) ∧ pool_config p' = pool_config p) p) as Hrm.
  { rewrite Hrc, Hnl. destruct ((a_ref a i =? 0) && negb (bool_decide (i = 0%nat))) eqn:E.
    - apply andb_true_iff in E as [E0%Z.eqb_eq E1]. apply negb_true_iff, bool_decide_eq_false in E1.
      assert (i ∈ a_free a) as Hin by by apply Hok.
      destruct (del_split i _ Hin) as (l1 & l2 & Hl & Hd).
      eapply (wp_queue _ p a (λ _ l', l' = del i (a_free a))); [done| |intros ??? -> ? ?; done].
      eapply wp_mono; [apply (remove_rep _ l1 i l2); rewrite <-Hl; apply Hr|].
      intros _ q' [Hrep Hm]. rewrite Hd. eauto.
    - wp_step. split; [|done]. eapply pool_rep_proper; [done| |exact Hr]. split_and!; try done. a_cbn.
      rewrite <-filter_del by apply Hok. apply filter_id. intros j Hj ->.
      apply Hok in Hj as (_ & Hj0 & Hr0). rewrite Hr0 in E. by rewrite bool_decide_false in E. }
  eapply wp_mono; [exact Hrm|]. intros _ p1 [Hr1 Hcfg1]. wp_step.
  eapply (wp_add_ref p1 _ 1 i); [done|by rewrite (config_size _ _ Hcfg1)|]. intros p2 Hr2 Hcfg2.
  eapply (on_collector_ok p2); [done|intros; apply collector_calls|]. intros p3 Hr3 Hcfg3.
  split; [|by rewrite Hcfg3, Hcfg2]. eapply pool_rep_proper; [done| |exact Hr3].
  split_and!; try done; a_cbn.
  - rewrite <-filter_del by apply Hok. apply list_filter_iff. intros j. by rewrite list_elem_of_singleton.
  - intros j. rewrite occ_cons, occ_nil. unfold insert, fn_insert. dec_cases; subst; lia.
Qed.

(** [touch]: every mention adds one to the count; touched blocks leave the
    free list. *)
Lemma touch_rep p a ids :
  pool_inv p a → Forall (λ i, (i < pool_size p)%nat) ids →
  wp (touch (Blk <$> ids)) (λ _ p', pool_rep p' (a_touch ids a) ∧ pool_config p' = pool_config p) p.
Proof.
  intros [Hr Hok] Hids. unfold touch. rewrite for_each_fmap.
  apply (wp_for_each (λ pre p', pool_rep p' (a_touch pre a) ∧ pool_config p' = pool_config p)).
  - split; [|done]. by rewrite a_touch_nil.
  - intros pre i post p' -> [Hr' Hcfg']. apply Forall_app in Hids as [_ [Hi _]%Forall_cons].
    eapply wp_mono; [apply touch_one_rep; [split; [exact Hr'|]|by rewrite (config_size _ _ Hcfg')]|].
    { rewrite (config_size _ _ Hcfg'). by apply a_touch_ok. }
    intros _ p2 [Hr2 Hcfg2]. split; [by rewrite a_touch_snoc|by rewrite Hcfg2].
Qed.

(** What [free_blocks] may be given: blocks of the pool, each non-null one
    mentioned once and held at least once. *)
Definition releasable (n : nat) (ids : list nat) (a : APool) : Prop :=
  Forall (λ i, (i < n)%nat ∧ (i ≠ 0%nat → 0 < a_ref a i)) ids ∧ NoDup (filter (λ i, i ≠ 0%nat) ids).

Lemma occ_filter_ne i l : i ≠ 0%nat → occ i (filter (λ j, j ≠ 0%nat) l) = occ i l.
Proof.
  intros Hi. induction l as [|j l IH]; [done|]. rewrite filter_cons, occ_cons.
  destruct (decide (j ≠ 0%nat)) as [Hj|Hj]; [rewrite occ_cons; lia|].
  rewrite decide_False by (intros ->; tauto). lia.
Qed.

Lemma releasable_occ n ids a i : releasable n ids a → i ∈ ids → i ≠ 0%nat → occ i ids = 1.
Proof.
  intros [_ Hnd] Hi Hi0. rewrite <-occ_filter_ne by done. apply occ_nodup; [done|].
  by apply list_elem_of_filter.
Qed.

Lemma a_release_ok n ids a : pool_ok n a → releasable n ids a → pool_ok n (a_release ids a).
Proof.
  intros [Hf Hnd Hrc Hn] Hrel. pose proof Hrel as [Hall Hnd'].
  assert (∀ i, i ∈ ids → i ≠ 0%nat → (i < n)%nat ∧ 0 < a_ref a i) as Hin.
  { intros i Hi Hi0. apply Forall_forall with (x := i) in Hall as [? Hr]; auto. }
  assert (∀ i, i ≠ 0%nat → 0 ≤ a_ref a i - occ i ids) as Hge.
  { intros i Hi0. destruct (decide (i ∈ ids)) as [Hi|Hi].
    - rewrite (releasable_occ n ids a i) by done. destruct (Hin i Hi Hi0). lia.
    - rewrite occ_notin by done. specialize (Hrc i Hi0). lia. }
  split; a_cbn; auto.
  - intros i. rewrite elem_of_app, list_elem_of_filter, Hf. split.
    + intros [(Hlt & Hi0 & H0)|((Hi0 & H0) & Hi)].
      * split_and!; auto. destruct (decide (i ∈ ids)) as [Hi|Hi]; [|rewrite occ_notin by done; lia].
        destruct (Hin i Hi Hi0). lia.
      * by destruct (Hin i Hi Hi0).
    + intros (Hlt & Hi0 & H0). destruct (decide (i ∈ ids)) as [Hi|Hi]; [by right|left].
      rewrite occ_notin in H0 by done. split_and!; auto. lia.
  - apply NoDup_app. split_and!; [done| |].
    + intros i Hi ((Hi0 & H0) & Hi')%list_elem_of_filter. destruct (Hin i Hi' Hi0). apply Hf in Hi. lia.
    + assert (filter (λ i, i ≠ 0%nat ∧ a_ref a i - occ i ids = 0) ids =
        filter (λ i, a_ref a i - occ i ids = 0) (filter (λ i, i ≠ 0%nat) ids)) as ->.
      { rewrite list_filter_filter. apply list_filter_iff. tauto. }
      by apply NoDup_filter.
Qed.

Lemma freed_now_rep p a ids :
  pool_rep p a → Forall (λ i, (i < pool_size p)%nat) ids →
  freed_now (heap (free_block_queue p)) (Blk <$> ids) = Blk <$> filter (λ i, i ≠ 0%nat ∧ a_ref a i = 0) ids.
Proof.
  intros Hr Hids. unfold freed_now. induction Hids as [|i ids Hi _ IH]; [done|].
  rewrite fmap_cons, !filter_cons, IH. destruct (meta_block p a i Hr Hi) as (b & Hb & _ & Hrc & _ & Hnl).
  assert (is_freed (heap (free_block_queue p)) (Blk i) = true ↔ i ≠ 0%nat ∧ a_ref a i = 0) as Hiff.
  { unfold is_freed. rewrite Hb, Hrc, Hnl, andb_true_iff, Z.eqb_eq, negb_true_iff, bool_decide_eq_false. tauto. }
  dec_cases; tauto || done.
Qed.

(** [free_blocks]: every mention takes one off the count; blocks that reach
    zero join the end of the free list in the given order. *)
Lemma free_blocks_rep p a ids :
  pool_inv p a → releasable (pool_size p) ids a →
  wp (free_blocks (Blk <$> ids)) (λ _ p', pool_rep p' (a_release ids a) ∧ pool_config p' = pool_config p) p.
Proof.
  intros [Hr Hok] Hrel. unfold free_blocks. wp_step. rewrite for_each_fmap.
  assert (Forall (λ i, (i < pool_size p)%nat) ids) as Hlt
    by (eapply Forall_impl; [apply Hrel|]; naive_solver).
  eapply wp_mono.
  { apply (wp_for_each (λ pre p', pool_rep p' (MkAPool (a_free a) (λ i, a_ref a i - occ i pre) (a_hash a)) ∧
      pool_config p' = pool_config p)).
    - split; [|done]. eapply pool_rep_proper; [done| |exact Hr]. split_and!; try done.
      intros i. a_cbn. rewrite occ_nil. lia.
    - intros pre i post p' -> [Hr' Hcfg']. apply Forall_app in Hlt as [_ [Hi _]%Forall_cons].
      eapply (wp_add_ref p' _ (-1) i); [done|by rewrite (config_size _ _ Hcfg')|].
      intros p2 Hr2 Hcfg2. split; [|by rewrite Hcfg2].
      eapply pool_rep_proper; [done| |exact Hr2]. split_and!; try done. intros j. a_cbn.
      rewrite occ_app, occ_cons, occ_nil. unfold insert, fn_insert. dec_cases; subst; lia. }
  intros _ p1 [Hr1 Hcfg1]. cbn beta in *. wp_step. wp_step. unfold id.
  rewrite (freed_now_rep p1 _ ids Hr1) by by rewrite (config_size _ _ Hcfg1).
  pose proof (a_release_ok _ _ _ Hok Hrel) as Hok'. pose proof (ok_nodup _ _ Hok') as Hnd.
  eapply (wp_queue _ p1 _ (λ _ l', l' = a_free (a_release ids a)) _ Hr1); [|intros ? p' ? -> Hr' Hcfg'; split; [|by rewrite Hcfg']].
  2: by eapply pool_rep_proper; [done| |exact Hr'].
  a_cbn. eapply wp_mono; [apply append_n_rep; [apply Hr1|exact Hnd|]|].
  - intros i (_ & Hi)%list_elem_of_filter. apply Forall_forall with (x := i) in Hlt; [|done].
    rewrite <-(config_size _ _ Hcfg1) in Hlt. destruct (meta_block _ _ i Hr1 Hlt) as (b & -> & _). done.
  - intros _ q' [Hrep Hm]. eauto.
Qed.

(** ** Eviction by id and reset *)

Lemma a_evict_ok n ids a : pool_ok n a → pool_ok n (a_evict ids a).
Proof. intros [Hf Hnd Hrc Hn]. split; a_cbn; auto. by destruct (decide _). Qed.

Lemma evict_blocks_rep p a ids :
  pool_rep p a → Forall (λ i, (i < pool_size p)%nat) ids →
  wp (evict_blocks (Z.of_nat <$> ids)) (λ _ p', pool_rep p' (a_evict ids a) ∧ pool_config p' = pool_config p) p.
Proof.
  intros Hr Hids. unfold evict_blocks. rewrite for_each_fmap.
  apply (wp_for_each (λ pre p', pool_rep p' (a_evict pre a) ∧ pool_config p' = pool_config p)).
  - split; [|done]. eapply pool_rep_proper; [done| |exact Hr]. split_and!; try done.
  - intros pre i post p' -> [Hr' Hcfg']. apply Forall_app in Hids as [_ [Hi _]%Forall_cons].
    rewrite <-(config_size _ _ Hcfg') in Hi. wp_step. wp_step. unfold id.
    rewrite (pr_blocks _ _ Hr'). wp_step. apply wp_assert.
    { apply Z.ltb_lt. rewrite len_fmap. unfold len. rewrite length_seq. lia. }
    wp_step. apply (wp_py_index _ _ (Blk i)).
    { rewrite py_get_nonneg, Nat2Z.id, list_lookup_fmap, lookup_seq_lt by lia. done. }
    wp_step. eapply (evict_rep p'); [done..|]. intros p2 Hr2 Hcfg2. wp_step. split; [|by rewrite Hcfg2].
    eapply pool_rep_proper; [done| |exact Hr2]. split_and!; try done. intros j. a_cbn. dec_cases; try done;
      rewrite ?elem_of_app, ?list_elem_of_singleton in *; naive_solver.
Qed.

(** [reset_prefix_cache]: refused while a block is in use. *)
Definition a_reset (n : nat) (a : APool) : bool * APool :=
  if decide (Z.of_nat n - len (a_free a) = 1) then (true, MkAPool (a_free a) (a_ref a) (λ _, None))
  else (false, a).

Lemma pool_base_ext p a b : a ≡ b → pool_base p a → pool_base p b.
Proof.
  intros (H1 & H2 & H3) (? & ? & ? & ? & Hm). split_and!; try done; [by rewrite <-H1|].
  intros i Hi. rewrite <-H2, <-H3. by apply Hm.
Qed.

Lemma reset_rep p a :
  pool_rep p a →
  wp reset_prefix_cache (λ b p', b = (a_reset (pool_size p) a).1 ∧
    pool_rep p' (a_reset (pool_size p) a).2 ∧ pool_config p' = pool_config p) p.
Proof.
  intros Hr. pose proof (pr_pos _ _ Hr) as Hpos. unfold reset_prefix_cache, a_reset. wp_step. wp_step.
  unfold id, get_num_free_blocks. rewrite (rep_num _ _ (pr_queue _ _ Hr)).
  assert (Z.of_nat (pool_size p) = num_gpu_blocks p) as -> by (unfold pool_size; lia).
  destruct (Z.eqb_spec (num_gpu_blocks p - len (a_free a)) 1) as [E|E]; cbn [negb].
  2:{ rewrite decide_False by done. by wp_step. }
  rewrite decide_True by done. cbn [fst snd]. wp_step. wp_step. wp_step. rewrite (pr_blocks _ _ Hr), for_each_fmap.
  eapply wp_mono.
  { apply (wp_for_each (λ pre p', pool_base p' (a_evict pre a) ∧ cached_block_hash_to_block p' = ∅ ∧
      pool_config p' = pool_config p)).
    - split_and!; try done. eapply pool_base_ext; [|by apply pool_rep_base in Hr as [Hb _]]. done.
    - intros pre i post p' Hsplit (Hb & Hc & Hcfg). pose proof (config_size _ _ Hcfg) as Hsz.
      assert (i < pool_size p)%nat as Hi.
      { assert (i ∈ seq 0 (pool_size p)) as ?%elem_of_seq; [|lia].
        rewrite Hsplit, elem_of_app, elem_of_cons. auto. }
      apply wp_zoom, wp_modify. split_and!; [|done..]. rewrite <-Hsz in Hi.
      eapply pool_base_ext; [|apply (pool_base_upd p' (a_evict pre a) reset_hash i (a_ref a i) None Hb Hi); done].
      split_and!; [done|..]; intros j; a_cbn; [by rewrite fn_insert_id|].
      unfold insert, fn_insert. dec_cases; rewrite ?elem_of_app, ?list_elem_of_singleton in *; naive_solver. }
  intros _ p1 (Hb & Hc & Hcfg1). cbn beta in *. pose proof (config_size _ _ Hcfg1) as Hsz.
  assert (pool_rep p1 (MkAPool (a_free a) (a_ref a) (λ _, None))) as Hr1.
  { apply pool_rep_base. split.
    - destruct Hb as (? & ? & ? & ? & Hm). split_and!; try done. intros i Hi. rewrite Hm by done. a_cbn.
      rewrite decide_True; [done|]. apply elem_of_seq. lia.
    - rewrite Hc. split; [done|]. intros key i. split; [|naive_solver]. by intros (e & ? & _). }
  wp_step. apply (on_collector_ok p1 _ _ _ Hr1); [done|]. intros p2 Hr2 Hcfg2.
  destruct (enable_kv_cache_events p); wp_step.
  - apply (emit_rep p2 _ _ _ Hr2). intros p3 Hr3 Hcfg3. wp_step. split_and!; [done..|]. by rewrite Hcfg3, Hcfg2.
  - wp_steps. split_and!; [done..|]. by rewrite Hcfg2.
Qed.

(** ** Lookup *)

(** [get_cached_block]: one cached block per group, or a miss because some
    group has no block under this hash. *)
Lemma get_cached_block_rep p a h gs :
  pool_rep p a → Forall (λ g, 0 ≤ g < 2 ^ 32) gs →
  (∃ ids, get_cached_block h gs p = (Ok (Some (Blk <$> ids)), p) ∧
     Forall2 (λ g i, (i < pool_size p)%nat ∧ ∃ key, make_block_hash_with_group_id h g = Ok key ∧ a_hash a i = Some key) gs ids) ∨
  (get_cached_block h gs p = (Ok None, p) ∧
     ∃ g key, g ∈ gs ∧ make_block_hash_with_group_id h g = Ok key ∧
       ∀ i, (i < pool_size p)%nat → a_hash a i ≠ Some key).
Proof.
  intros Hr. induction gs as [|g gs IH]; intros Hgs.
  { left. exists []. split; [done|constructor]. }
  apply Forall_cons in Hgs as [Hg Hgs]. cbn [get_cached_block].
  destruct (to_bytes4_spec g Hg) as (b4 & Hb4 & _).
  assert (make_block_hash_with_group_id h g = Ok (h ++ b4)) as Hk
    by (unfold make_block_hash_with_group_id; by rewrite Hb4).
  rewrite Hk. unfold bind, gets.
  destruct (get_one_block_rep (pool_size p) _ _ (h ++ b4) (pr_cache _ _ Hr)) as [(i & -> & Hi & Hhi)|[-> Hnone]].
  - destruct (IH Hgs) as [(ids & -> & HF)|[-> (g' & key & Hg' & Hkey & Hn)]].
    + left. exists (i :: ids). split; [done|]. constructor; eauto.
    + right. split; [done|]. exists g', key. rewrite elem_of_cons. eauto.
  - right. split; [done|]. exists g, (h ++ b4). rewrite elem_of_cons. eauto.
Qed.

(** ** Caching full blocks *)

(** The key under which a block with hash [h] is cached in group [g]. *)
Definition group_key (h : bytes) (g : Z) : bytes :=
  match make_block_hash_with_group_id h g with Ok k => k | Raise _ => [] end.

(** Block [ids[k]] gets hash [hs[k]]; the null block is skipped. *)
Fixpoint a_cache (ids : list nat) (hs : list bytes) (g : Z) (a : APool) : APool :=
  match ids, hs with
  | i :: ids, h :: hs => a_cache ids hs g (if decide (i = 0%nat) then a else set_hash i (Some (group_key h g)) a)
  | _, _ => a
  end.

(** What [cache_full_blocks] may be given: uncached blocks of the pool, each
    non-null one once. *)
Definition cacheable (n : nat) (ids : list nat) (a : APool) : Prop :=
  Forall (λ i, (i < n)%nat ∧ (i ≠ 0%nat → a_hash a i = None)) ids ∧ NoDup (filter (λ i, i ≠ 0%nat) ids).

Lemma make_key_ok h g : 0 ≤ g < 2 ^ 32 → make_block_hash_with_group_id h g = Ok (group_key h g).
Proof.
  intros Hg. unfold group_key, make_block_hash_with_group_id.
  by destruct (to_bytes4_spec g Hg) as (b4 & -> & _).
Qed.

Lemma cacheable_tail n i ids h g a :
  cacheable n (i :: ids) a →
  cacheable n ids (if decide (i = 0%nat) then a else set_hash i (Some (group_key h g)) a).
Proof.
  intros [Hall Hnd]. apply Forall_cons in Hall as [_ Hall]. rewrite filter_cons in Hnd.
  destruct (decide (i = 0%nat)) as [->|Hi].
  - rewrite decide_False in Hnd by tauto. done.
  - rewrite decide_True in Hnd by done. apply NoDup_cons in Hnd as [Hn Hnd]. split; [|done].
    apply Forall_forall. intros j Hj. apply Forall_forall with (x := j) in Hall as [Hlt Hh]; [|done].
    split; [done|]. intros Hj0. a_cbn. rewrite fn_lookup_insert_ne; [auto|].
    intros ->. apply Hn. by apply list_elem_of_filter.
Qed.

Lemma cache_blocks_loop_rep ids hs k p a g :
  pool_rep p a → 0 ≤ g < 2 ^ 32 → 0 ≤ k → (length ids ≤ length (drop (Z.to_nat k) hs))%nat →
  cacheable (pool_size p) ids a →
  wp (cache_blocks_loop (Blk <$> ids) hs k g) (λ _ p',
    pool_rep p' (a_cache ids (drop (Z.to_nat k) hs) g a) ∧ pool_config p' = pool_config p) p.
Proof.
  revert k p a. induction ids as [|i ids IH]; intros k p a Hr Hg Hk Hlen Hca.
  { cbn [fmap list_fmap cache_blocks_loop]. wp_step. split; [|done]. by destruct (drop _ _). }
  pose proof Hca as [Hall _]. apply Forall_cons in Hall as [[Hi Hh0] _].
  pose proof (λ h, cacheable_tail _ i ids h g a Hca) as Htail.
  destruct (drop (Z.to_nat k) hs) as [|h rest] eqn:Hd; [cbn in Hlen; lia|].
  assert (hs !! Z.to_nat k = Some h) as Hh.
  { rewrite <-(Nat.add_0_r (Z.to_nat k)), <-lookup_drop, Hd. done. }
  assert (drop (Z.to_nat (k + 1)) hs = rest) as Hrest.
  { replace (Z.to_nat (k + 1)) with (Z.to_nat k + 1)%nat by lia. by rewrite <-drop_drop, Hd. }
  cbn in Hlen. change (Blk <$> i :: ids) with (Blk i :: (Blk <$> ids)).
  cbn [cache_blocks_loop a_cache]. wp_step. apply (wp_on_block p a i); [done..|].
  intros b Hid Hrc Hbh Hnl. rewrite Hnl. destruct (bool_decide_reflect (i = 0%nat)) as [->|Hi0].
  - rewrite decide_True by done. specialize (Htail h). rewrite decide_True in Htail by done.
    eapply wp_mono; [apply (IH (k + 1) p a)|]; rewrite ?Hrest; auto; lia.
  - rewrite decide_False by done. specialize (Htail h). rewrite decide_False in Htail by done.
    specialize (Hh0 Hi0). rewrite Hh0 in Hbh. wp_step. apply wp_assert; [by rewrite Hbh|].
    wp_step. apply (wp_py_index _ _ h); [by rewrite py_get_nonneg|]. rewrite (make_key_ok h g Hg).
    wp_step. unfold set_block_hash. rewrite Hbh. apply wp_zoom, wp_modify. cbn beta.
    wp_step. wp_step. set (p1 := set_queue _ p). set (p2 := set_cache _ p1).
    assert (pool_rep p2 (set_hash i (Some (group_key h g)) a)) as Hr2.
    { eapply pool_rep_proper; [done| |apply (pool_rep_upd p a (with_hash (Some (group_key h g))) i (a_ref a i)
        (Some (group_key h g)) (cached_block_hash_to_block p2))]; try done.
      - split_and!; try done. intros j. a_cbn. by rewrite fn_insert_id.
      - cbn. apply map_insert_rep; [apply Hr|done|done|]. intros j Hj. unfold id_in.
        rewrite lookup_alter. destruct (meta_block p a j Hr Hj) as (b' & Hb' & Hid' & _).
        case_decide as Hij; [injection Hij as <-|]; by rewrite Hb'. }
    wp_step. wp_step. wp_step. eapply wp_mono; [apply (IH (k + 1) p2 _ Hr2 Hg)|]; rewrite ?Hrest; auto; try lia.
Qed.

Lemma a_cache_frame ids hs g a : a_free (a_cache ids hs g a) = a_free a ∧ a_ref (a_cache ids hs g a) = a_ref a.
Proof.
  revert hs a. induction ids as [|i ids IH]; intros [|h hs] a; try done. cbn [a_cache].
  destruct (IH hs (if decide (i = 0%nat) then a else set_hash i (Some (group_key h g)) a)) as [-> ->].
  by case_decide.
Qed.

Lemma a_cache_other ids hs g a i : i = 0%nat ∨ i ∉ ids → a_hash (a_cache ids hs g a) i = a_hash a i.
Proof.
  intros Hi. revert hs a Hi. induction ids as [|j ids IH]; intros [|h hs] a Hi; try done. cbn [a_cache].
  rewrite not_elem_of_cons in Hi. rewrite IH by tauto. case_decide; [done|]. a_cbn.
  apply fn_lookup_insert_ne. destruct Hi as [->|[? ?]]; [done|congruence].
Qed.

Lemma a_cache_ok n ids hs g a : pool_ok n a → pool_ok n (a_cache ids hs g a).
Proof.
  intros [Hf Hnd Hrc Hn]. destruct (a_cache_frame ids hs g a) as [E1 E2].
  split; rewrite ?E1, ?E2; auto. rewrite a_cache_other; auto.
Qed.

Lemma a_cache_lookup n ids hs g a k i h :
  cacheable n ids a → ids !! k = Some i → i ≠ 0%nat → hs !! k = Some h →
  a_hash (a_cache ids hs g a) i = Some (group_key h g).
Proof.
  revert hs k a. induction ids as [|j ids IH]; intros hs k a Hca Hk Hi0 Hh; [done|].
  destruct hs as [|h0 hs]; [done|]. cbn [a_cache]. pose proof (cacheable_tail n j ids h0 g a Hca) as Hca'.
  destruct k as [|k]; cbn in Hk, Hh; simplify_eq.
  - rewrite a_cache_other; [rewrite decide_False by done; apply fn_lookup_insert|]. right. intros Hin.
    destruct Hca as [_ Hnd]. rewrite filter_cons_True in Hnd by done. apply NoDup_cons in Hnd as [Hnd _].
    apply Hnd. by apply list_elem_of_filter.
  - by apply (IH _ k).
Qed.

(** The hashes of the request at the granularity of the group. *)
Definition hash_view (p : BlockPool) (r : Request) (block_size : Z) : list bytes :=
  if decide (block_size = hash_block_size p) then RequestModel.block_hashes r
  else coarse_hashes (RequestModel.block_hashes r) (block_size / hash_block_size p).

Lemma hashes_at_view p r bs :
  0 < hash_block_size p → 0 < bs → bs mod hash_block_size p = 0 →
  len (hash_view p r bs) ≤ len (RequestModel.block_hashes r) ∧
  ∃ bhl, hashes_at p r bs = Ok bhl ∧
    (∀ k, 0 ≤ k → bhl_slice_from bhl k = Some (drop (Z.to_nat k) (hash_view p r bs))) ∧
    (∀ k, 0 ≤ k < len (hash_view p r bs) → is_Some (bhl_get bhl k)).
Proof.
  intros Hh Hbs Hm. unfold hashes_at, hash_view. destruct (Z.eqb_spec bs (hash_block_size p)) as [->|Hne].
  - rewrite decide_True by done. split; [done|]. eexists. split; [done|]. cbn. split.
    + intros k Hk. by rewrite py_slice_from_nonneg.
    + intros k Hk. rewrite py_get_nonneg by lia. apply lookup_lt_is_Some_2. unfold len in Hk. lia.
  - rewrite decide_False, Hm by done. cbn. unfold mk_hash_list. rewrite Hm. cbn.
    apply Z.mod_divide in Hm as [q ->]; [|lia]. rewrite Z.div_mul by lia. assert (0 < q) by nia.
    split.
    + rewrite len_coarse_hashes by done. apply Z.div_le_upper_bound; [done|].
      pose proof (len_nonneg (RequestModel.block_hashes r)). nia.
    + eexists. split; [done|]. cbn. split; [intros; by apply hl_slice_from_coarse|].
      intros k Hk. rewrite len_coarse_hashes in Hk by done.
      rewrite <-(Z2Nat.id k) by lia. rewrite hl_get_coarse by done. rewrite decide_True; [done|].
      change (hl_len _) with (len (RequestModel.block_hashes r) / q). lia.
Qed.

Lemma mm_keys_loop_idx feats idx s e : idx ≤ (mm_keys_loop feats idx s e).2.
Proof.
  revert idx. induction feats as [|f feats IH]; intros idx; cbn; [lia|].
  specialize (IH (idx + 1)). repeat case_match; cbn in *; simplify_eq; cbn in *; lia.
Qed.

(** From a non-negative item index no call of the key generator fails. *)
Lemma generate_keys_total sha256 s e idx r :
  0 ≤ idx → ∃ ek m, generate_block_hash_extra_keys sha256 s e idx r =
    (Ok ek, set_prompt_embeds_per_block_hashes m r) ∧ 0 ≤ ek.2.
Proof.
  intros Hidx. unfold generate_block_hash_extra_keys, bind, gets, id.
  assert (∃ ks idx', gen_mm_extra_hash_keys r s e idx = Ok (ks, idx') ∧ 0 ≤ idx') as (ks & idx' & -> & Hidx').
  { unfold gen_mm_extra_hash_keys. destruct (last (mm_features r)); [|eauto]. case_match; [eauto|].
    destruct (Z.ltb_spec idx 0); [lia|]. cbn [andb].
    pose proof (mm_keys_loop_idx (drop (Z.to_nat idx) (mm_features r)) idx s e) as H1.
    destruct (mm_keys_loop _ _ _ _) as [ks idx']. exists ks, idx'. split; [done|]. cbn in H1. lia. }
  assert (r = set_prompt_embeds_per_block_hashes (prompt_embeds_per_block_hashes r) r) as Hr by by destruct r.
  unfold gen_prompt_embeds_extra_hash_keys, bind, gets, ret, modify, id.
  destruct (prompt_embeds r) as [em|]; [destruct (_ !! _) as [h|]|].
  1,3: by eexists _, (prompt_embeds_per_block_hashes r); rewrite <-Hr.
  by eexists _, _.
Qed.

Lemma extra_keys_loop_total sha256 p a ids idxs bs mm r (R : list (option (list extra_key)) * Request → BlockPool → Prop) :
  pool_rep p a → Forall (λ i, (i < pool_size p)%nat) ids →
  Forall (λ k, 0 ≤ k < len ids) idxs → 0 ≤ mm →
  (∀ l m, R (l, set_prompt_embeds_per_block_hashes m r) p) →
  wp (extra_keys_loop sha256 (Blk <$> ids) idxs bs mm r) R p.
Proof.
  intros Hr Hids Hidx. revert mm r R. induction Hidx as [|k idxs Hk _ IH]; intros mm r R Hmm HR.
  { cbn [extra_keys_loop]. wp_step. replace r with (set_prompt_embeds_per_block_hashes (prompt_embeds_per_block_hashes r) r) by by destruct r.
    apply HR. }
  cbn [extra_keys_loop].
  destruct (lookup_lt_is_Some_2 ids (Z.to_nat k)) as [i Hi]; [unfold len in Hk; lia|].
  wp_step. apply (wp_py_index _ _ (Blk i)); [by rewrite py_get_nonneg, list_lookup_fmap, Hi by lia|].
  wp_step. apply (wp_on_block p a i); [done|by apply (Forall_lookup_1 _ _ _ _ Hids Hi)|].
  intros b _ _ _ Hnl. destruct (is_null b); [by apply IH|].
  destruct (generate_keys_total sha256 (k * bs) (k * bs + bs) mm r Hmm) as ([ek mm'] & m & -> & Hmm').
  wp_step. apply IH; [done|]. intros l m'. wp_step. apply (HR _ m').
Qed.

(** [cache_full_blocks]: the new full blocks are registered under the hashes of
    their positions; counts and free list stay as they are. *)
Lemma cache_full_blocks_rep sha256 p a r ids nc nf bs g :
  pool_rep p a → 0 < hash_block_size p → 0 < bs → bs mod hash_block_size p = 0 → 0 ≤ g < 2 ^ 32 →
  0 ≤ nc → nf ≤ len (hash_view p r bs) → nf ≤ len ids → Forall (λ i, (i < pool_size p)%nat) ids →
  cacheable (pool_size p) (py_slice ids nc nf) a →
  wp (cache_full_blocks sha256 r (Blk <$> ids) nc nf bs g) (λ r' p',
    (∃ m, r' = set_prompt_embeds_per_block_hashes m r) ∧
    pool_rep p' (if decide (nc < nf) then a_cache (py_slice ids nc nf) (drop (Z.to_nat nc) (hash_view p r bs)) g a else a) ∧
    pool_config p' = pool_config p) p.
Proof.
  intros Hr Hh Hbs Hm Hg Hnc Hnf Hnf' Hids Hca. unfold cache_full_blocks.
  assert (r = set_prompt_embeds_per_block_hashes (prompt_embeds_per_block_hashes r) r) as Hself by by destruct r.
  destruct (Z.leb_spec nf nc) as [Hle|Hlt].
  { rewrite decide_False by lia. wp_step. eauto. }
  rewrite decide_True by done. destruct (hashes_at_view p r bs Hh Hbs Hm) as (Hlen & bhl & Hbhl & Hsl & Hget).
  wp_step. apply wp_assert; [apply Z.leb_le; lia|]. wp_step. wp_step. unfold id. rewrite Hbhl, (Hsl nc Hnc).
  assert (py_slice (Blk <$> ids) nc nf = Blk <$> py_slice ids nc nf) as ->.
  { rewrite !py_slice_nonneg by lia. by rewrite <-fmap_drop, fmap_take. }
  wp_step. eapply wp_mono; [apply (cache_blocks_loop_rep _ _ 0 p a g); auto; [lia|]|].
  { rewrite drop_0, py_slice_nonneg, length_take, !length_drop by lia. unfold len in *. lia. }
  intros hs p1 [Hr1 Hcfg1]. rewrite drop_0 in Hr1. pose proof (config_size _ _ Hcfg1) as Hsz.
  destruct (enable_kv_cache_events p); [|wp_step; eauto].
  wp_step. assert (∀ (R : option ExternalBlockHash → BlockPool → Prop), (∀ o, R o p1) →
    wp (if nc =? 0 then ret None else
        match bhl_get bhl (nc - 1) with
        | Some h => ret (Some (maybe_convert_block_hash (use_int_hashes p) h))
        | None => raise IndexError
        end) R p1) as Hparent.
  { intros R HR. destruct (Z.eqb_spec nc 0); [by wp_step|].
    destruct (Hget (nc - 1)) as [h ->]; [lia|by wp_step]. }
  apply Hparent. intros parent. wp_step.
  apply (extra_keys_loop_total _ p1 _ ids _ _ _ _ _ Hr1); [by rewrite Hsz| |lia|].
  { rewrite py_range_seq by lia. apply Forall_fmap, Forall_forall. intros k ?%elem_of_seq. cbn. lia. }
  intros l m. wp_step. apply (emit_rep p1 _ _ _ Hr1). intros p2 Hr2 Hcfg2. wp_step.
  split_and!; [eauto|done|by rewrite Hcfg2].
Qed.

(** ** Construction *)

Definition fresh_apool (n : nat) : APool := MkAPool (seq 1 (n - 1)) (λ _, 0) (λ _, None).

Lemma fresh_apool_ok n : pool_ok n (fresh_apool n).
Proof.
  unfold fresh_apool; split; a_cbn; try done.
  - intros i. rewrite elem_of_seq. lia.
  - apply NoDup_ListNoDup, seq_NoDup.
Qed.

Lemma pool_init_rep n caching hbs ev mc ui env :
  (0 < n)%nat → ∃ p, pool_init (Z.of_nat n) caching hbs ev mc ui env = Ok p ∧ pool_inv p (fresh_apool n) ∧
    pool_size p = n ∧ enable_caching p = caching ∧ hash_block_size p = hbs.
Proof.
  intros Hn. unfold pool_init. destruct (Z.ltb_spec 0 (Z.of_nat n)); [|lia]. rewrite Nat2Z.id.
  assert (wp (init_links (Blk <$> seq 0 n) ;;;
    let! nb := popleft in modify (upd (with_null true) nb) ;;; ret nb) (λ nb q, nb = Blk 0 ∧ rep q (seq 1 (n - 1)) ∧
      ∀ i, (i < n)%nat → meta <$> heap q !! Blk i = Some (Z.of_nat i, 0, None, bool_decide (i = 0%nat)))
    (MkQueue (fresh_heap n) 0)) as Hwp.
  { wp_step. pose proof (fresh_queue_rep n) as [Hrep Hm]. unfold fresh_queue in *.
    destruct (init_links (Blk <$> seq 0 n) (MkQueue (fresh_heap n) 0)) as [r q] eqn:E.
    assert (wp (init_links (Blk <$> seq 0 n)) (λ _ _, True) (MkQueue (fresh_heap n) 0)) as Hinit.
    { eapply wp_mono; [apply init_links_rep|done]; cbn [heap].
      - apply NoDup_ListNoDup, seq_NoDup.
      - intros i Hi%elem_of_seq. rewrite fresh_heap_lookup, decide_True by lia. done.
      - intros i Hi. unfold nxt, prv. rewrite fresh_heap_lookup. by case_decide. }
    unfold wp at 1 in Hinit. rewrite E in Hinit. destruct r as [[]|]; [|done]. unfold wp at 1. rewrite E.
    cbn [snd] in Hrep, Hm. wp_step.
    destruct n as [|n]; [lia|]. cbn [seq] in Hrep. replace (S n - 1)%nat with n by lia.
    eapply wp_mono; [by apply popleft_rep|]. intros nb q' (-> & Hrep' & Hmeta). wp_steps.
    split_and!; [done|by apply rep_upd|]. intros i Hi. cbn [heap upd]. rewrite lookup_alter.
    specialize (Hm i Hi). rewrite <-Hmeta in Hm. destruct (heap q' !! Blk i) as [b|] eqn:Eb; [|done].
    cbn in Hm. injection Hm as E1 E2 E3 E4. case_decide as Hd.
    - injection Hd as <-. rewrite Eb. cbn. unfold meta. cbn. by rewrite E1, E2, E3.
    - cbn. unfold meta. rewrite E1, E2, E3, E4, bool_decide_false; [done|]. by intros ->. }
  apply wp_run in Hwp as (nb & q & -> & -> & Hrep & Hm). eexists. split; [done|].
  assert (∀ p, num_gpu_blocks p = Z.of_nat n → pool_size p = n) as Hsz by (unfold pool_size; lia).
  split_and!; [|by apply Hsz|done..]. split; [|rewrite Hsz by done; apply fresh_apool_ok].
  split; rewrite ?Hsz by done; try done.
  split; [done|]. intros key i. split; [by intros (e & ? & _)|by intros [_ ?]].
Qed.

(** ** The pool as a state machine *)

Inductive pool_op :=
  | PNew (num_blocks : Z)
  | PTouch (ids : list nat)
  | PFree (ids : list nat)
  | PEvict (ids : list nat)
  | PReset
  | PCache (r : Request) (ids : list nat) (nc nf bs g : Z).

(** What the calls return, as far as clients use it. *)
Inductive pool_out :=
  | OBlocks (ids : list ref)
  | OBool (b : bool)
  | OUnit.

Definition run_pool_op (sha256 : bytes → bytes) (o : pool_op) : M BlockPool pool_out :=
  match o with
  | PNew k => let! bs := get_new_blocks k in ret (OBlocks bs)
  | PTouch ids => touch (Blk <$> ids) ;;; ret OUnit
  | PFree ids => free_blocks (Blk <$> ids) ;;; ret OUnit
  | PEvict ids => evict_blocks (Z.of_nat <$> ids) ;;; ret OUnit
  | PReset => let! b := reset_prefix_cache in ret (OBool b)
  | PCache r ids nc nf bs g => cache_full_blocks sha256 r (Blk <$> ids) nc nf bs g ;;; ret OUnit
  end.

(** The step relation of the abstract pool: [in_pool ids] says that the blocks
    exist; each rule's premises are what the caller owes. *)
Definition in_pool (p : BlockPool) (ids : list nat) : Prop := Forall (λ i, (i < pool_size p)%nat) ids.

Inductive a_step (p : BlockPool) (a : APool) : pool_op → pool_out → APool → Prop :=
  | step_new k :
      0 ≤ k ≤ len (a_free a) →
      a_step p a (PNew k) (OBlocks (Blk <$> take (Z.to_nat k) (a_free a))) (a_alloc (enable_caching p) (Z.to_nat k) a)
  | step_touch ids : in_pool p ids → a_step p a (PTouch ids) OUnit (a_touch ids a)
  | step_free ids : releasable (pool_size p) ids a → a_step p a (PFree ids) OUnit (a_release ids a)
  | step_evict ids : in_pool p ids → a_step p a (PEvict ids) OUnit (a_evict ids a)
  | step_reset : a_step p a PReset (OBool (a_reset (pool_size p) a).1) (a_reset (pool_size p) a).2
  | step_cache r ids nc nf bs g :
      0 < bs → bs mod hash_block_size p = 0 → 0 ≤ g < 2 ^ 32 → 0 ≤ nc → nf ≤ len (hash_view p r bs) →
      nf ≤ len ids → in_pool p ids → cacheable (pool_size p) (py_slice ids nc nf) a →
      a_step p a (PCache r ids nc nf bs g) OUnit
        (if decide (nc < nf) then a_cache (py_slice ids nc nf) (drop (Z.to_nat nc) (hash_view p r bs)) g a else a).

Lemma a_step_ok p a o out a' : pool_ok (pool_size p) a → a_step p a o out a' → pool_ok (pool_size p) a'.
Proof.
  intros Hok Hs. destruct Hs; auto using a_alloc_ok, a_touch_ok, a_release_ok, a_evict_ok.
  - unfold a_reset. case_decide; [|done]. by destruct Hok.
  - case_decide; [by apply a_cache_ok|done].
Qed.

Lemma run_pool_op_rep sha256 p a o out a' :
  pool_inv p a → 0 < hash_block_size p → a_step p a o out a' →
  wp (run_pool_op sha256 o) (λ out' p', out' = out ∧ pool_inv p' a' ∧ pool_config p' = pool_config p) p.
Proof.
  intros Hinv Hh Hs. pose proof (a_step_ok _ _ _ _ _ (proj2 Hinv) Hs) as Hok'.
  assert (∀ p', pool_rep p' a' ∧ pool_config p' = pool_config p → pool_inv p' a' ∧ pool_config p' = pool_config p) as Hup.
  { intros p' [Hr Hcfg]. split; [|done]. split; [done|]. by rewrite (config_size _ _ Hcfg). }
  pose proof Hinv as [Hr Hok].
  destruct Hs; cbn [run_pool_op]; wp_step;
    (eapply wp_mono;
      [first [by apply get_new_blocks_rep|by apply touch_rep|by apply free_blocks_rep
             |by apply evict_blocks_rep|by apply reset_rep|by apply cache_full_blocks_rep]|]);
    intros x p' Hpost; cbn beta in Hpost; wp_step; destruct_and? Hpost; subst; (split; [done|by apply Hup]).
Qed.

Fixpoint run_pool_ops (sha256 : bytes → bytes) (os : list pool_op) : M BlockPool (list pool_out) :=
  match os with
  | [] => ret []
  | o :: os => let! x := run_pool_op sha256 o in let! xs := run_pool_ops sha256 os in ret (x :: xs)
  end.

Inductive a_steps (p : BlockPool) : APool → list pool_op → list pool_out → APool → Prop :=
  | steps_nil a : a_steps p a [] [] a
  | steps_cons a o out a1 os outs a2 :
      a_step p a o out a1 → a_steps p a1 os outs a2 → a_steps p a (o :: os) (out :: outs) a2.

Lemma hash_view_config p p' r bs : pool_config p' = pool_config p → hash_view p' r bs = hash_view p r bs.
Proof. unfold pool_config, hash_view. by intros [= _ _ -> _]. Qed.

Lemma a_step_config p p' a o out a' : pool_config p' = pool_config p → a_step p a o out a' → a_step p' a o out a'.
Proof.
  intros Hcfg Hs. pose proof (config_size _ _ Hcfg) as Hsz.
  assert (enable_caching p' = enable_caching p ∧ hash_block_size p' = hash_block_size p) as [Hec Hhb]
    by (unfold pool_config in Hcfg; split; congruence).
  destruct Hs; rewrite <-?Hec, <-?Hsz, <-?(hash_view_config _ _ _ _ Hcfg) in *;
    constructor; unfold in_pool in *; rewrite ?Hsz, ?Hhb, ?(hash_view_config _ _ _ _ Hcfg) in *; auto.
Qed.

(** ** Properties *)

(** C15.  The block pool refines its abstract specification: from a pool that
    satisfies the invariant, every sequence of allocate / touch / free / evict
    / reset / cache calls that obeys the callers' obligations runs without
    raising, returns exactly what the abstract pool returns, and ends in a
    pool that implements the resulting abstract state and satisfies the
    invariant again: a block is free exactly when its count is zero, counts
    are never negative, the null block is never handed out, and the prefix
    cache holds exactly the blocks that carry a hash. *)
Theorem pool_refines sha256 p a os outs a' :
  pool_inv p a → 0 < hash_block_size p → a_steps p a os outs a' →
  wp (run_pool_ops sha256 os) (λ outs' p', outs' = outs ∧ pool_inv p' a' ∧ pool_config p' = pool_config p) p.
Proof.
  intros Hinv Hh Hs. remember p as p0 eqn:Hp0. rewrite Hp0 in Hinv, Hh |- *.
  assert (pool_config p = pool_config p0) as Hcfg by by rewrite Hp0. clear Hp0.
  revert p Hinv Hh Hcfg. induction Hs as [a|a o out a1 os outs a2 H1 _ IH]; intros p Hinv Hh Hcfg.
  { cbn [run_pool_ops]. by wp_step. }
  cbn [run_pool_ops]. wp_step.
  eapply wp_mono; [eapply run_pool_op_rep; [done|done|by eapply a_step_config]|].
  intros x p1 (-> & Hinv1 & Hcfg1). wp_step.
  eapply wp_mono; [apply (IH p1)|]; [done| |by rewrite Hcfg1|].
  { unfold pool_config in Hcfg1. congruence. }
  intros xs p2 (-> & Hinv2 & Hcfg2). wp_step. split_and!; auto. by rewrite Hcfg2.
Qed.

(** A new pool satisfies the invariant with every block but the null block
    free; a pool of no blocks is rejected. *)
Theorem pool_init_inv n caching hbs ev mc ui env :
  (n ≤ 0 → pool_init n caching hbs ev mc ui env = Raise AssertionError) ∧
  (0 < n → ∃ p, pool_init n caching hbs ev mc ui env = Ok p ∧
     pool_inv p (fresh_apool (Z.to_nat n)) ∧ get_num_free_blocks p = n - 1 ∧ (get_usage p == 0)%Q).
Proof.
  split.
  - intros Hn. unfold pool_init. destruct (Z.ltb_spec 0 n); [lia|done].
  - intros Hn. destruct (pool_init_rep (Z.to_nat n) caching hbs ev mc ui env) as (p & Hp & Hinv & Hsz & _); [lia|].
    rewrite Z2Nat.id in Hp by lia. exists p. split_and!; [done..| |].
    + unfold get_num_free_blocks. rewrite (rep_num _ _ (pr_queue _ _ (proj1 Hinv))). cbn.
      unfold len. rewrite length_seq. lia.
    + unfold get_usage, get_num_free_blocks. rewrite (rep_num _ _ (pr_queue _ _ (proj1 Hinv))).
      pose proof (pr_pos _ _ (proj1 Hinv)). unfold pool_size in Hsz.
      assert (num_gpu_blocks p = n) as -> by lia. cbn. unfold len. rewrite length_seq.
      destruct (Z.eqb_spec (n - 1) 0); [done|]. replace (Z.of_nat _) with (n - 1) by lia.
      unfold Qeq, Qdiv, Qinv, inject_Z. cbn. destruct (n - 1) as [|z|z] eqn:E; try lia. cbn. lia.
Qed.

(** The blocks in use. *)
Definition used_blocks (n : nat) (a : APool) : list nat := filter (λ i, 0 < a_ref a i) (seq 1 (n - 1)).

Lemma free_used_perm n a : pool_ok n a → a_free a ++ used_blocks n a ≡ₚ seq 1 (n - 1).
Proof.
  intros [Hf Hnd Hrc _]. apply NoDup_Permutation.
  - apply NoDup_app. split_and!; [done| |apply NoDup_filter, NoDup_ListNoDup, seq_NoDup].
    intros i Hi (Hr & _)%list_elem_of_filter. apply Hf in Hi. lia.
  - apply NoDup_ListNoDup, seq_NoDup.
  - intros i. unfold used_blocks. rewrite elem_of_app, list_elem_of_filter, Hf, elem_of_seq. split; [lia|].
    intros Hi. specialize (Hrc i ltac:(lia)). destruct (decide (a_ref a i = 0)); [left|right]; lia.
Qed.

(** No block is lost or duplicated: in every pool that satisfies the
    invariant, the free blocks, the blocks in use and the null block add up to
    the size of the pool, and the reported usage is the used share, between 0
    and 1. *)
Theorem pool_conservation p a :
  pool_inv p a →
  get_num_free_blocks p + len (used_blocks (pool_size p) a) + 1 = num_gpu_blocks p ∧
  (0 <= get_usage p <= 1)%Q.
Proof.
  intros [Hr Hok]. pose proof (free_used_perm _ _ Hok) as Hperm%Permutation_length.
  rewrite length_app, length_seq in Hperm. pose proof (pr_pos _ _ Hr) as Hpos.
  unfold get_usage, get_num_free_blocks. rewrite (rep_num _ _ (pr_queue _ _ Hr)). unfold pool_size in *.
  assert (0 ≤ len (a_free a) ≤ num_gpu_blocks p - 1) by (unfold len; lia).
  split; [unfold len; lia|]. destruct (Z.eqb_spec (num_gpu_blocks p - 1) 0) as [E|E]; [done|].
  destruct (num_gpu_blocks p - 1) as [|z|z] eqn:Ez; try lia.
  unfold Qle, Qminus, Qplus, Qopp, Qdiv, Qmult, Qinv, inject_Z. cbn. lia.
Qed.

(** C36.  Allocation never oversubscribes: asking for more blocks than are free
    raises [ValueError] and changes nothing; otherwise exactly that many
    distinct blocks are returned, all of them unused before, and their old
    cache entries are gone, so no later lookup can hit a block being rewritten. *)
Theorem get_new_blocks_safe p a k :
  pool_inv p a → 0 ≤ k → enable_caching p = true →
  (len (a_free a) < k → get_new_blocks k p = (Raise ValueError, p)) ∧
  (k ≤ len (a_free a) → wp (get_new_blocks k) (λ bs p', ∃ ids, bs = Blk <$> ids ∧ len ids = k ∧ NoDup ids ∧
     (∀ i, i ∈ ids → a_ref a i = 0 ∧ i ≠ 0%nat) ∧ get_num_free_blocks p' = get_num_free_blocks p - k ∧
     (∀ key c, cached_block_hash_to_block p' = c → ∀ i, i ∈ ids → ¬ in_cache c key i)) p).
Proof.
  intros Hinv Hk Hc. pose proof Hinv as [Hr Hok]. split.
  - intros Hlt. unfold get_new_blocks, bind, gets, id, get_num_free_blocks.
    rewrite (rep_num _ _ (pr_queue _ _ Hr)). destruct (Z.ltb_spec (len (a_free a)) k); [done|lia].
  - intros Hle. eapply wp_mono; [by apply (get_new_blocks_rep p a k)|].
    intros bs p' (-> & Hr' & Hcfg). exists (take (Z.to_nat k) (a_free a)). split_and!; [done|..].
    + unfold len. rewrite length_take. unfold len in Hle. lia.
    + apply nodup_take_drop, Hok.
    + intros i Hi%take_sub. apply Hok in Hi. tauto.
    + unfold get_num_free_blocks. rewrite (rep_num _ _ (pr_queue _ _ Hr)), (rep_num _ _ (pr_queue _ _ Hr')).
      a_cbn. unfold len in *. rewrite length_drop. lia.
    + intros key c <- i Hi Hin. apply (pr_cache _ _ Hr') in Hin as [_ Hin]. a_cbn. revert Hin. a_cbn.
      by rewrite decide_True.
Qed.

(** Prefix-cache round trip: after [cache_full_blocks], looking up the hash
    of any newly cached, non-null block in its group hits, the block found
    carries exactly that (hash, group) key, and no count and no entry of the
    free list has changed. *)
Theorem cache_then_lookup sha256 p a r ids nc nf bs g k i h :
  pool_inv p a → 0 < hash_block_size p → 0 < bs → bs mod hash_block_size p = 0 → 0 ≤ g < 2 ^ 32 →
  0 ≤ nc < nf → nf ≤ len (hash_view p r bs) → nf ≤ len ids → in_pool p ids →
  cacheable (pool_size p) (py_slice ids nc nf) a →
  nc ≤ Z.of_nat k < nf → ids !! k = Some i → i ≠ 0%nat → hash_view p r bs !! k = Some h →
  wp (cache_full_blocks sha256 r (Blk <$> ids) nc nf bs g) (λ _ p', ∃ a' j,
    pool_inv p' a' ∧ a_free a' = a_free a ∧ a_ref a' = a_ref a ∧
    get_cached_block h [g] p' = (Ok (Some [Blk j]), p') ∧ a_hash a' j = Some (group_key h g) ∧
    a_hash a' i = Some (group_key h g)) p.
Proof.
  intros [Hr Hok] Hh Hbs Hm Hg Hnc Hnf Hnf' Hids Hca Hk Hi Hi0 Hhk.
  eapply wp_mono; [apply (cache_full_blocks_rep sha256 p a); auto; lia|].
  intros r' p' (_ & Hr' & Hcfg). rewrite decide_True in Hr' by lia.
  set (a' := a_cache _ _ _ _) in Hr'. destruct (a_cache_frame (py_slice ids nc nf)
    (drop (Z.to_nat nc) (hash_view p r bs)) g a) as [Hfree Href].
  assert (a_hash a' i = Some (group_key h g)) as Hai.
  { apply (a_cache_lookup (pool_size p) _ _ _ _ (k - Z.to_nat nc)); [done| |done|].
    - rewrite py_slice_nonneg, lookup_take_lt, lookup_drop by lia. rewrite <-Hi. f_equal. lia.
    - rewrite lookup_drop, <-Hhk. f_equal. lia. }
  destruct (get_cached_block_rep p' a' h [g] Hr') as [(js & Hget & HF)|[_ (g' & key & Hg' & Hkey & Hn)]].
  { by apply Forall_singleton. }
  - apply Forall2_cons_inv_l in HF as (j & js' & (_ & key & Hkey & Hj) & HF%Forall2_nil_inv_l & ->). subst js'.
    exists a', j. split_and!; auto; [split; [done|]; rewrite (config_size _ _ Hcfg); by apply a_cache_ok|].
    rewrite Hj. unfold group_key. by rewrite Hkey.
  - exfalso. apply list_elem_of_singleton in Hg' as ->. apply (Hn i).
    + rewrite (config_size _ _ Hcfg). apply (Forall_lookup_1 _ _ _ _ Hids Hi).
    + rewrite Hai. unfold group_key. by rewrite Hkey.
Qed.

(** ** Concrete pools *)

Definition no_metrics : MetricsEnv := MkEnv (λ _, 0) (λ _, false).
Definition empty_pool (n : Z) (caching : bool) (hbs : Z) : BlockPool :=
  match pool_init n caching hbs true None false no_metrics with
  | Ok p => p
  | Raise _ => MkPool 0 false 0 [] (MkQueue ∅ 0) ∅ FakeHead false [] None false no_metrics
  end.

Lemma empty_pool_inv n caching hbs :
  (0 < n)%nat → pool_inv (empty_pool (Z.of_nat n) caching hbs) (fresh_apool n) ∧
    pool_size (empty_pool (Z.of_nat n) caching hbs) = n ∧
    enable_caching (empty_pool (Z.of_nat n) caching hbs) = caching ∧
    hash_block_size (empty_pool (Z.of_nat n) caching hbs) = hbs.
Proof.
  intros Hn. unfold empty_pool.
  by destruct (pool_init_rep n caching hbs true None false no_metrics Hn) as (p & -> & ?).
Qed.

Lemma pool_refines_witness :
  wp (run_pool_ops id [PNew 2; PCache toy_hashed [1; 2]%nat 0 2 2 0; PFree [2; 1]%nat; PTouch [1]%nat; PReset])
    (λ outs' p', outs' = [OBlocks [Blk 1; Blk 2]; OUnit; OUnit; OUnit; OBool false] ∧
       get_num_free_blocks p' = 2) (empty_pool 4 true 2).
Proof.
  destruct (empty_pool_inv 4 true 2 ltac:(lia)) as (Hinv & Hsz & Hec & Hhb).
  pose (a1 := a_alloc true 2 (fresh_apool 4)).
  pose (a2 := if decide (0 < 2) then a_cache (py_slice [1; 2]%nat 0 2)
    (drop (Z.to_nat 0) (hash_view (empty_pool (Z.of_nat 4) true 2) toy_hashed 2)) 0 a1 else a1).
  pose (a3 := a_release [2; 1]%nat a2). pose (a4 := a_touch [1]%nat a3).
  eapply wp_mono.
  - apply (pool_refines id (empty_pool (Z.of_nat 4) true 2) (fresh_apool 4) _
      [OBlocks [Blk 1; Blk 2]; OUnit; OUnit; OUnit; OBool false] a4 Hinv).
    + by rewrite Hhb.
    + eapply (steps_cons _ _ _ _ a1).
      { pose proof (step_new (empty_pool (Z.of_nat 4) true 2) (fresh_apool 4) 2 ltac:(vm_compute; split; congruence)) as Hst.
        rewrite Hec in Hst. exact Hst. }
      eapply (steps_cons _ a1 _ _ a2).
      { apply (step_cache _ a1 toy_hashed [1; 2]%nat 0 2 2 0); try done; try (vm_compute; congruence).
        all: unfold in_pool, cacheable; rewrite ?Hsz.
        - repeat constructor.
        - split; [|apply (bool_decide_unpack _); vm_compute; exact I].
          repeat constructor. }
      eapply (steps_cons _ a2 _ _ a3).
      { apply (step_free _ a2 [2; 1]%nat). unfold releasable. rewrite Hsz.
        split; [|apply (bool_decide_unpack _); vm_compute; exact I]. repeat constructor. }
      eapply (steps_cons _ a3 _ _ a4).
      { apply (step_touch _ a3 [1]%nat). unfold in_pool. rewrite Hsz. repeat constructor. }
      eapply steps_cons; [|apply steps_nil].
      assert (a_reset (pool_size (empty_pool (Z.of_nat 4) true 2)) a4 = (false, a4)) as Hreset.
      { rewrite Hsz. vm_compute. reflexivity. }
      pose proof (step_reset (empty_pool (Z.of_nat 4) true 2) a4) as Hst. by rewrite Hreset in Hst.
  - intros outs p' (-> & [Hr' _] & _). split; [done|]. unfold get_num_free_blocks.
    by rewrite (rep_num _ _ (pr_queue _ _ Hr')).
Defined.

Lemma pool_init_inv_witness :
  ∃ p, pool_init 4 true 16 false None false no_metrics = Ok p ∧ pool_inv p (fresh_apool 4) ∧
    get_num_free_blocks p = 3 ∧ (get_usage p == 0)%Q.
Proof. apply (proj2 (pool_init_inv 4 true 16 false None false no_metrics)). lia. Defined.

Lemma pool_conservation_witness :
  get_num_free_blocks (empty_pool 4 true 2) + len (used_blocks 4 (fresh_apool 4)) + 1 = 4.
Proof.
  destruct (empty_pool_inv 4 true 2 ltac:(lia)) as (Hinv & _).
  exact (proj1 (pool_conservation (empty_pool 4 true 2) (fresh_apool 4) Hinv)).
Defined.

Lemma get_new_blocks_safe_witness :
  get_new_blocks 7 (empty_pool 4 true 2) = (Raise ValueError, empty_pool 4 true 2).
Proof.
  destruct (empty_pool_inv 4 true 2 ltac:(lia)) as (Hinv & _ & Hec & _).
  exact (proj1 (get_new_blocks_safe (empty_pool 4 true 2) (fresh_apool 4) 7 Hinv ltac:(lia) Hec) ltac:(by vm_compute)).
Defined.

(** The first block of the toy request, held by a fresh allocation. *)
Lemma cache_then_lookup_witness :
  wp (cache_full_blocks id toy_hashed (Blk <$> [1; 2]%nat) 0 2 2 0) (λ _ p', ∃ a' j h,
    hash_view (empty_pool 4 true 2) toy_hashed 2 !! 0%nat = Some h ∧
    get_cached_block h [0] p' = (Ok (Some [Blk j]), p') ∧ a_hash a' j = Some (group_key h 0)) (empty_pool 4 true 2).
Proof.
  destruct (empty_pool_inv 4 true 2 ltac:(lia)) as (Hinv & Hsz & Hec & Hhb).
  destruct (lookup_lt_is_Some_2 (hash_view (empty_pool 4 true 2) toy_hashed 2) 0) as [h Hv]; [vm_compute; lia|].
  eapply wp_mono.
  - apply (cache_then_lookup id (empty_pool (Z.of_nat 4) true 2) (fresh_apool 4) toy_hashed [1; 2]%nat 0 2 2 0 0 1 h Hinv);
      try done.
    + repeat constructor.
    + unfold cacheable. rewrite Hsz. split; [|apply (bool_decide_unpack _); vm_compute; exact I]. repeat constructor.
  - intros r' p' (a' & j & _ & _ & _ & Hget & Hj & _). by exists a', j, h.
Defined.
