(* ===== verification/KVCacheInterface.v ===== *)
(** * KV-cache specifications (vllm/v1/kv_cache_interface.py)

    The spec classes as constructors, page sizes and worst-case memory per
    layer, merging of the specs of one group, and [UniformTypeKVCacheSpecs]. *)

From S2P Require Import Prelude.

(** ** Data *)

Inductive KVQuantMode := QUANT_NONE | FP8_PER_TENSOR | INT8_PER_TOKEN_HEAD | FP8_PER_TOKEN_HEAD | NVFP4.

#[global] Instance KVQuantMode_eq_dec : EqDecision KVQuantMode.
Proof. solve_decision. Defined.

Definition is_per_token_head (m : KVQuantMode) : bool :=
  match m with INT8_PER_TOKEN_HEAD | FP8_PER_TOKEN_HEAD => true | _ => false end.
Definition is_nvfp4 (m : KVQuantMode) : bool := match m with NVFP4 => true | _ => false end.

(** [get_kv_quant_mode(kv_cache_dtype)] *)
Definition get_kv_quant_mode (kv_cache_dtype : string) : KVQuantMode :=
  if String.eqb kv_cache_dtype "int8_per_token_head" then INT8_PER_TOKEN_HEAD
  else if String.eqb kv_cache_dtype "fp8_per_token_head" then FP8_PER_TOKEN_HEAD
  else if String.eqb kv_cache_dtype "nvfp4" then NVFP4
  else if String.prefix "fp8" kv_cache_dtype then FP8_PER_TENSOR
  else QUANT_NONE.

(** A [torch.dtype]: its name and [get_dtype_size] of it. *)
Record dtype := MkDtype { dtype_name : string; dtype_size : Z }.

#[global] Instance dtype_eq_dec : EqDecision dtype.
Proof. solve_decision. Defined.

(** The fields of [AttentionSpec] (besides [block_size]) and those
    [FullAttentionSpec] adds. *)
Record AttentionFields := MkAttention {
  num_kv_heads : Z;
  head_size : Z;
  kv_dtype : dtype;
  kv_quant_mode : KVQuantMode;
  page_size_padded : option Z;
}.
Record FullFields := MkFull {
  head_size_v : Z;
  sliding_window : option Z;
  attention_chunk_size : option Z;
}.
Record MambaFields := MkMamba {
  shapes : list (list Z);
  dtypes : list dtype;
  mamba_page_size_padded : option Z;
  mamba_type : string;
  mamba_cache_mode : string;
  num_speculative_blocks : Z;
}.

#[global] Instance AttentionFields_eq_dec : EqDecision AttentionFields.
Proof. solve_decision. Defined.
#[global] Instance FullFields_eq_dec : EqDecision FullFields.
Proof. solve_decision. Defined.
#[global] Instance MambaFields_eq_dec : EqDecision MambaFields.
Proof. solve_decision. Defined.

(** The spec of one layer; the constructors carry the class hierarchy. *)
Inductive KVCacheSpec :=
  | FullAttentionSpec (bs : Z) (at_ : AttentionFields) (full : FullFields)
  | TQFullAttentionSpec (bs : Z) (at_ : AttentionFields) (full : FullFields) (tq_slot_size : Z)
  | MLAAttentionSpec (bs : Z) (at_ : AttentionFields) (full : FullFields) (cache_dtype_str : option string)
  | SinkFullAttentionSpec (bs : Z) (at_ : AttentionFields) (full : FullFields) (sink_len : option Z)
  | ChunkedLocalAttentionSpec (bs : Z) (at_ : AttentionFields) (chunk_size : Z)
  | SlidingWindowSpec (bs : Z) (at_ : AttentionFields) (window : Z)
  | MambaSpec (bs : Z) (mamba : MambaFields)
  | EncoderOnlyAttentionSpec (bs : Z) (at_ : AttentionFields)
  | CrossAttentionSpec (bs : Z) (at_ : AttentionFields).

#[global] Instance KVCacheSpec_eq_dec : EqDecision KVCacheSpec.
Proof. solve_decision. Defined.

Definition block_size (s : KVCacheSpec) : Z :=
  match s with
  | FullAttentionSpec bs _ _ | TQFullAttentionSpec bs _ _ _ | MLAAttentionSpec bs _ _ _
  | SinkFullAttentionSpec bs _ _ _ | ChunkedLocalAttentionSpec bs _ _ | SlidingWindowSpec bs _ _
  | MambaSpec bs _ | EncoderOnlyAttentionSpec bs _ | CrossAttentionSpec bs _ => bs
  end.

(** [copy_with_new_block_size] *)
Definition copy_with_new_block_size (s : KVCacheSpec) (bs : Z) : KVCacheSpec :=
  match s with
  | FullAttentionSpec _ a f => FullAttentionSpec bs a f
  | TQFullAttentionSpec _ a f t => TQFullAttentionSpec bs a f t
  | MLAAttentionSpec _ a f c => MLAAttentionSpec bs a f c
  | SinkFullAttentionSpec _ a f l => SinkFullAttentionSpec bs a f l
  | ChunkedLocalAttentionSpec _ a c => ChunkedLocalAttentionSpec bs a c
  | SlidingWindowSpec _ a w => SlidingWindowSpec bs a w
  | MambaSpec _ m => MambaSpec bs m
  | EncoderOnlyAttentionSpec _ a => EncoderOnlyAttentionSpec bs a
  | CrossAttentionSpec _ a => CrossAttentionSpec bs a
  end.

(** [isinstance(spec, FullAttentionSpec)] *)
Definition is_full_attention (s : KVCacheSpec) : bool :=
  match s with
  | FullAttentionSpec _ _ _ | TQFullAttentionSpec _ _ _ _ | MLAAttentionSpec _ _ _ _
  | SinkFullAttentionSpec _ _ _ _ => true
  | _ => false
  end.
Definition is_mamba (s : KVCacheSpec) : bool := match s with MambaSpec _ _ => true | _ => false end.

(** The parts of [VllmConfig] the specs read. *)
Record VllmConfig := MkVllmConfig {
  max_model_len : Z;
  decode_context_parallel_size : Z;
  prefill_context_parallel_size : Z;
  max_num_batched_tokens : Z;
  max_num_encoder_input_tokens : Z;
  config_mamba_cache_mode : string;
}.

(** ** Page sizes *)

(** [nvfp4_kv_cache_full_dim] of vllm/utils/torch_utils.py *)
Definition nvfp4_kv_cache_full_dim (head_size : Z) : Z := head_size / 2 + head_size / 16.

Definition float32_size : Z := 4.

Definition full_real_page_size (bs : Z) (a : AttentionFields) (f : FullFields) : Z :=
  if is_nvfp4 (kv_quant_mode a) then
    bs * num_kv_heads a * (nvfp4_kv_cache_full_dim (head_size a) + nvfp4_kv_cache_full_dim (head_size_v f))
      * dtype_size (kv_dtype a)
  else bs * num_kv_heads a * (head_size a + head_size_v f) * dtype_size (kv_dtype a).

Definition attention_real_page_size (bs : Z) (a : AttentionFields) : Z :=
  2 * bs * num_kv_heads a * head_size a * dtype_size (kv_dtype a).

Definition tq_real_page_size (bs : Z) (a : AttentionFields) (f : FullFields) (tq_slot_size : Z) : Z :=
  if 0 <? tq_slot_size then bs * num_kv_heads a * tq_slot_size else full_real_page_size bs a f.

(** The [fp8_ds_mla] layout has 656 bytes per token. *)
Definition mla_real_page_size (bs : Z) (a : AttentionFields) (cache_dtype_str : option string) : Z :=
  if bool_decide (cache_dtype_str = Some "fp8_ds_mla") then bs * 656
  else bs * num_kv_heads a * head_size a * dtype_size (kv_dtype a).

(** [real_page_size_bytes] of the attention specs. *)
Definition real_page_size_bytes (s : KVCacheSpec) : Z :=
  match s with
  | FullAttentionSpec bs a f | SinkFullAttentionSpec bs a f _ => full_real_page_size bs a f
  | TQFullAttentionSpec bs a f slot => tq_real_page_size bs a f slot
  | MLAAttentionSpec bs a _ c => mla_real_page_size bs a c
  | ChunkedLocalAttentionSpec bs a _ | SlidingWindowSpec bs a _ | EncoderOnlyAttentionSpec bs a
  | CrossAttentionSpec bs a => attention_real_page_size bs a
  | MambaSpec _ _ => 0
  end.

(** [sum(prod(shape) * get_dtype_size(dtype) for (shape, dtype) in zip(shapes, dtypes))] *)
Definition mamba_state_bytes (m : MambaFields) : Z :=
  foldr Z.add 0 (zip_with (λ shape d, foldr Z.mul 1 shape * dtype_size d) (shapes m) (dtypes m)).

(** The padded size must not be smaller than the data. *)
Definition pad_page_size (padded : option Z) (real : Z) : res Z :=
  match padded with
  | Some p => if real <=? p then Ok p else Raise AssertionError
  | None => Ok real
  end.

Definition attention_page_size (s : KVCacheSpec) (a : AttentionFields) : res Z :=
  pad_page_size (page_size_padded a)
    (real_page_size_bytes s +
      (if is_per_token_head (kv_quant_mode a) then 2 * block_size s * num_kv_heads a * float32_size else 0)).

(** [page_size_bytes] *)
Definition page_size_bytes (s : KVCacheSpec) : res Z :=
  match s with
  | FullAttentionSpec _ a _ | TQFullAttentionSpec _ a _ _ | MLAAttentionSpec _ a _ _
  | SinkFullAttentionSpec _ a _ _ | ChunkedLocalAttentionSpec _ a _ | SlidingWindowSpec _ a _
  | EncoderOnlyAttentionSpec _ a | CrossAttentionSpec _ a => attention_page_size s a
  | MambaSpec _ m => pad_page_size (mamba_page_size_padded m) (mamba_state_bytes m)
  end.

(** ** Worst-case memory of one request *)

Definition full_max_pages (c : VllmConfig) (bs : Z) : res Z :=
  let world := decode_context_parallel_size c * prefill_context_parallel_size c in
  let len := if 1 <? world then cdiv (max_model_len c) world else max_model_len c in
  py_cdiv len bs.

Definition chunked_max_pages (c : VllmConfig) (bs attention_chunk_size : Z) : res Z :=
  py_cdiv (Z.min (attention_chunk_size + max_num_batched_tokens c) (max_model_len c)) bs.

(** One more block: the window may not start at a block boundary. *)
Definition sw_max_pages (c : VllmConfig) (bs sliding_window : Z) : res Z :=
  if decode_context_parallel_size c =? 1 then
    let? n := py_cdiv (Z.min (sliding_window - 1 + max_num_batched_tokens c) (max_model_len c)) bs in Ok (n + 1)
  else Raise AssertionError.

Definition mamba_max_pages (c : VllmConfig) (bs : Z) (m : MambaFields) : res Z :=
  if String.eqb (config_mamba_cache_mode c) "all" then py_cdiv (max_model_len c) bs
  else if String.eqb (config_mamba_cache_mode c) "align" then Ok (2 + num_speculative_blocks m)
  else Ok (1 + num_speculative_blocks m).

Definition cross_max_pages (c : VllmConfig) (bs : Z) : res Z := py_cdiv (max_num_encoder_input_tokens c) bs.

(** The number of pages [max_memory_usage_bytes] pays for. *)
Definition max_pages (c : VllmConfig) (s : KVCacheSpec) : res Z :=
  match s with
  | FullAttentionSpec bs _ _ | TQFullAttentionSpec bs _ _ _ | MLAAttentionSpec bs _ _ _
  | SinkFullAttentionSpec bs _ _ _ => full_max_pages c bs
  | ChunkedLocalAttentionSpec bs _ chunk => chunked_max_pages c bs chunk
  | SlidingWindowSpec bs _ window => sw_max_pages c bs window
  | MambaSpec bs m => mamba_max_pages c bs m
  | EncoderOnlyAttentionSpec _ _ => Ok 0
  | CrossAttentionSpec bs _ => cross_max_pages c bs
  end.

(** [max_memory_usage_bytes]; the encoder-only spec returns 0 without looking
    at its page size. *)
Definition max_memory_usage_bytes (c : VllmConfig) (s : KVCacheSpec) : res Z :=
  match s with
  | EncoderOnlyAttentionSpec _ _ => Ok 0
  | _ => let? n := max_pages c s in let? p := page_size_bytes s in Ok (n * p)
  end.

(** ** Merging *)

(** [merge_window_sizes]: the set of the window sizes that are set. *)
Definition merge_window_sizes (ws : list Z) : res (option Z) :=
  match remove_dups ws with
  | [] => Ok None
  | [w] => Ok (Some w)
  | _ => Raise ValueError
  end.

Definition full_parts (s : KVCacheSpec) : option (Z * AttentionFields * FullFields) :=
  match s with
  | FullAttentionSpec bs a f | TQFullAttentionSpec bs a f _ | MLAAttentionSpec bs a f _
  | SinkFullAttentionSpec bs a f _ => Some (bs, a, f)
  | _ => None
  end.
Definition is_mla (s : KVCacheSpec) : bool := match s with MLAAttentionSpec _ _ _ _ => true | _ => false end.

(** The common part of [FullAttentionSpec.merge] and its overrides: every
    layer must agree on the [AttentionSpec] fields. *)
Definition merge_full (specs : list KVCacheSpec) : res (Z * AttentionFields * FullFields) :=
  match mapM full_parts specs with
  | None => Raise AssertionError
  | Some parts =>
      if existsb is_mla specs then Raise AssertionError
      else match parts with
      | [] => Raise IndexError
      | (bs, a, f) :: _ =>
          match merge_window_sizes (omap (λ x : Z * AttentionFields * FullFields, sliding_window x.2) parts),
                merge_window_sizes (omap (λ x : Z * AttentionFields * FullFields, attention_chunk_size x.2) parts) with
          | Ok w, Ok ch =>
              if forallb (λ x : Z * AttentionFields * FullFields, bool_decide (x.1 = (bs, a))) parts then
                if bool_decide (is_Some w) && bool_decide (is_Some ch) then Raise AssertionError
                else Ok (bs, a, MkFull (head_size_v f) w ch)
              else Raise AssertionError
          | Raise e, _ => Raise e
          | _, Raise e => Raise e
          end
      end
  end.

(** [all(s.tq_slot_size == t for s in specs)]: a layer of another class has no
    such attribute. *)
Fixpoint all_tq_slot_size (t : Z) (specs : list KVCacheSpec) : res bool :=
  match specs with
  | [] => Ok true
  | TQFullAttentionSpec _ _ _ t' :: rest => if t' =? t then all_tq_slot_size t rest else Ok false
  | _ :: _ => Raise AttributeError
  end.

Definition full_merge (specs : list KVCacheSpec) : res KVCacheSpec :=
  match merge_full specs with Ok (bs, a, f) => Ok (FullAttentionSpec bs a f) | Raise e => Raise e end.

(** [TQFullAttentionSpec.merge]: the merged spec, with the common slot size. *)
Definition tq_merge (tq_slot_size : Z) (specs : list KVCacheSpec) : res KVCacheSpec :=
  match merge_full specs with
  | Ok (bs, a, f) =>
      match all_tq_slot_size tq_slot_size specs with
      | Ok true => Ok (TQFullAttentionSpec bs a f tq_slot_size)
      | Ok false => Raise AssertionError
      | Raise e => Raise e
      end
  | Raise e => Raise e
  end.

Definition sink_merge (sink_len : option Z) (specs : list KVCacheSpec) : res KVCacheSpec :=
  match merge_full specs with Ok (bs, a, f) => Ok (SinkFullAttentionSpec bs a f sink_len) | Raise e => Raise e end.

(** [MLAAttentionSpec.merge]: only the cache dtype is compared. *)
Definition mla_merge (bs : Z) (a : AttentionFields) (cache_dtype_str : option string) (specs : list KVCacheSpec)
    : res KVCacheSpec :=
  if forallb is_mla specs then
    if forallb (λ s, match s with MLAAttentionSpec _ _ _ c' => bool_decide (c' = cache_dtype_str) | _ => false end) specs
    then Ok (MLAAttentionSpec bs a (MkFull (head_size a) None None) cache_dtype_str)
    else Raise AssertionError
  else Raise AssertionError.

(** [KVCacheSpec.merge]: all specs equal. *)
Definition base_merge (s : KVCacheSpec) (rest : list KVCacheSpec) : res KVCacheSpec :=
  if forallb (λ s', bool_decide (s' = s)) rest then Ok s else Raise AssertionError.

(** [type(specs[0]).merge(specs)] *)
Definition merge (specs : list KVCacheSpec) : res KVCacheSpec :=
  match specs with
  | [] => Raise IndexError
  | FullAttentionSpec _ _ _ :: _ => full_merge specs
  | TQFullAttentionSpec _ _ _ t :: _ => tq_merge t specs
  | SinkFullAttentionSpec _ _ _ l :: _ => sink_merge l specs
  | MLAAttentionSpec bs a _ c :: _ => mla_merge bs a c specs
  | s :: rest => base_merge s rest
  end.

(** ** Groups *)

Record KVCacheTensor := MkTensor {
  tensor_size : Z;
  shared_by : list string;
}.

(** A group's spec is that of one layer, or [UniformTypeKVCacheSpecs] with the
    specs of its layers. *)
Inductive GroupSpec :=
  | LayerSpec (s : KVCacheSpec)
  | UniformTypeKVCacheSpecs (bs : Z) (kv_cache_specs : list (string * KVCacheSpec)).

Record KVCacheGroupSpec := MkGroup {
  layer_names : list string;
  kv_cache_spec : GroupSpec;
}.

Record KVCacheConfig := MkKVCacheConfig {
  num_blocks : Z;
  kv_cache_tensors : list KVCacheTensor;
  kv_cache_groups : list KVCacheGroupSpec;
}.

(** [UniformTypeKVCacheSpecs.is_uniform_type] *)
Definition is_uniform_type (specs : list (string * KVCacheSpec)) : res bool :=
  match specs with
  | [] => Raise StopIteration
  | (_, one) :: _ =>
      if negb (forallb (λ x, block_size x.2 =? block_size one) specs) then Ok false
      else
        let all_ f := Ok (forallb (λ x : string * KVCacheSpec, f x.2) specs) in
        match one with
        | FullAttentionSpec _ _ _ | TQFullAttentionSpec _ _ _ _ | MLAAttentionSpec _ _ _ _
        | SinkFullAttentionSpec _ _ _ _ => all_ is_full_attention
        | CrossAttentionSpec _ _ => all_ (λ s, match s with CrossAttentionSpec _ _ => true | _ => false end)
        | SlidingWindowSpec _ _ w =>
            all_ (λ s, match s with SlidingWindowSpec _ _ w' => w' =? w | _ => false end)
        | ChunkedLocalAttentionSpec _ _ c =>
            all_ (λ s, match s with ChunkedLocalAttentionSpec _ _ c' => c' =? c | _ => false end)
        | MambaSpec _ m =>
            all_ (λ s, match s with MambaSpec _ m' => num_speculative_blocks m' =? num_speculative_blocks m | _ => false end)
        | EncoderOnlyAttentionSpec _ _ => Raise NotImplementedError
        end
  end.

(** [UniformTypeKVCacheSpecs.from_specs] *)
Definition from_specs (specs : list (string * KVCacheSpec)) : res (option GroupSpec) :=
  match is_uniform_type specs with
  | Raise e => Raise e
  | Ok false => Ok None
  | Ok true =>
      match specs with
      | [] => Raise StopIteration
      | (_, one) :: _ => Ok (Some (UniformTypeKVCacheSpecs (block_size one) specs))
      end
  end.

Definition sum_res (l : list (res Z)) : res Z := let? l := map_res id l in Ok (foldr Z.add 0 l).

Definition group_page_size_bytes (g : GroupSpec) : res Z :=
  match g with
  | LayerSpec s => page_size_bytes s
  | UniformTypeKVCacheSpecs _ specs => sum_res ((λ x : string * KVCacheSpec, page_size_bytes x.2) <$> specs)
  end.

Definition group_block_size (g : GroupSpec) : Z :=
  match g with LayerSpec s => block_size s | UniformTypeKVCacheSpecs bs _ => bs end.

(** [UniformTypeKVCacheSpecs.max_memory_usage_bytes]: the largest number of
    pages any layer needs, for all layers. *)
Definition num_pages_of (c : VllmConfig) (s : KVCacheSpec) : res Z :=
  let? m := max_memory_usage_bytes c s in let? p := page_size_bytes s in py_cdiv m p.

Definition group_max_memory_usage_bytes (c : VllmConfig) (g : GroupSpec) : res Z :=
  match g with
  | LayerSpec s => max_memory_usage_bytes c s
  | UniformTypeKVCacheSpecs _ specs =>
      let? pages := map_res (num_pages_of c) specs.*2 in
      let? n := py_max pages in
      let? p := group_page_size_bytes g in
      Ok (n * p)
  end.

(** ** Properties *)

Lemma merge_full_inv specs bs a f :
  merge_full specs = Ok (bs, a, f) →
  Forall (λ s, ∃ f', full_parts s = Some (bs, a, f') ∧ is_mla s = false) specs ∧
  (∃ s0 rest f0, specs = s0 :: rest ∧ full_parts s0 = Some (bs, a, f0) ∧ head_size_v f = head_size_v f0).
Proof.
  unfold merge_full. destruct (mapM full_parts specs) as [parts|] eqn:Hp; [|done].
  destruct (existsb is_mla specs) eqn:Hmla; [done|]. destruct parts as [|[[bs0 a0] f0] rest]; [done|].
  destruct (merge_window_sizes _) as [w|]; [|done].
  destruct (merge_window_sizes (omap _ _)) as [ch|]; [|done].
  destruct (forallb _ _) eqn:Hall; [|done]. case_match; [done|]. intros [= <- <- <-].
  apply mapM_Some in Hp. split.
  - apply Forall_forall. intros s Hs. apply list_elem_of_lookup in Hs as [i Hi].
    destruct (Forall2_lookup_l _ _ _ _ _ Hp Hi) as ([[bs' a'] f'] & Hi' & Hfp).
    rewrite forallb_forall in Hall. specialize (Hall (bs', a', f')).
    assert (In (bs', a', f') ((bs0, a0, f0) :: rest)) as Hin
      by (apply list_elem_of_In; by eapply list_elem_of_lookup_2).
    apply Hall, bool_decide_eq_true in Hin. cbn in Hin. simplify_eq. exists f'. split; [done|].
    destruct (is_mla s) eqn:Em; [|done]. apply list_elem_of_lookup_2, list_elem_of_In in Hi.
    rewrite <-Hmla. symmetry. apply existsb_exists. eauto.
  - inversion Hp; subst. eauto 10.
Qed.

(** C39.  Merging full-attention layers is sound for memory: when
    [FullAttentionSpec.merge] succeeds on layers of class [FullAttentionSpec]
    that have the same value head size, the merged spec has the block size and
    the page size of every layer of the group, so a block table shared by the
    group addresses every layer's cache correctly. *)
Theorem merge_page_size (specs : list KVCacheSpec) (bs : Z) (a : AttentionFields) (f : FullFields) (hv : Z) :
  merge specs = Ok (FullAttentionSpec bs a f) →
  Forall (λ s, ∃ bs' a' f', s = FullAttentionSpec bs' a' f' ∧ head_size_v f' = hv) specs →
  Forall (λ s, block_size s = bs ∧ page_size_bytes s = page_size_bytes (FullAttentionSpec bs a f)) specs.
Proof.
  intros Hm Hall. destruct specs as [|s0 rest]; [done|].
  pose proof Hall as [(bs0 & a0 & f0 & -> & H0) _]%Forall_cons. cbn [merge] in Hm.
  unfold full_merge in Hm. destruct (merge_full _) as [[[bs1 a1] f1]|e] eqn:Em; [|done]. simplify_eq.
  destruct (merge_full_inv _ _ _ _ Em) as [HF (s1 & r1 & f1' & Heq & Hfp & Hhv)].
  injection Heq as <- <-. cbn in Hfp. simplify_eq.
  apply Forall_forall. intros s Hs. apply Forall_forall with (x := s) in Hall as (bs' & a' & f' & -> & Hv); [|done].
  apply Forall_forall with (x := FullAttentionSpec bs' a' f') in HF as (f'' & Hfp' & _); [|done].
  cbn in Hfp'. simplify_eq. split; [done|]. cbn. unfold attention_page_size. cbn.
  unfold full_real_page_size. by rewrite Hhv, Hv.
Qed.

Definition bf16 : dtype := MkDtype "bfloat16" 2.
Definition toy_attention : AttentionFields := MkAttention 8 128 bf16 QUANT_NONE None.
Definition toy_full (hv : Z) : KVCacheSpec := FullAttentionSpec 16 toy_attention (MkFull hv None None).

Lemma merge_page_size_witness :
  Forall (λ s, block_size s = 16 ∧ page_size_bytes s = page_size_bytes (toy_full 128)) [toy_full 128; toy_full 128].
Proof.
  apply (merge_page_size [toy_full 128; toy_full 128] 16 toy_attention (MkFull 128 None None) 128).
  - reflexivity.
  - repeat constructor; repeat eexists.
Defined.

(** The value head size is not among the fields [FullAttentionSpec.merge]
    compares: layers with different value head sizes merge without error into
    a spec whose page is smaller than the page one of the layers needs. *)
Theorem merge_ignores_head_size_v :
  merge [toy_full 64; toy_full 128] = Ok (toy_full 64) ∧
  page_size_bytes (toy_full 64) = Ok 49152 ∧ page_size_bytes (toy_full 128) = Ok 65536.
Proof. done. Qed.

Lemma run_pages start len bs :
  0 < bs → 0 ≤ len → cdiv (start + len) bs - start / bs ≤ cdiv len bs + 1.
Proof.
  intros Hp Hl. enough (cdiv (start + len) bs ≤ cdiv len bs + 1 + start / bs) by lia.
  apply cdiv_le_iff; [done|]. pose proof (cdiv_mul_ge len bs Hp).
  pose proof (Z.div_mod start bs ltac:(lia)). pose proof (Z.mod_pos_bound start bs Hp). nia.
Qed.

Lemma aligned_run_pages start len bs :
  0 < bs → start mod bs = 0 → cdiv (start + len) bs - start / bs ≤ cdiv len bs.
Proof.
  intros Hp Hs. enough (cdiv (start + len) bs ≤ cdiv len bs + start / bs) by lia.
  apply cdiv_le_iff; [done|]. pose proof (cdiv_mul_ge len bs Hp). pose proof (Z.div_mod start bs ltac:(lia)). nia.
Qed.

(** Worst-case memory covers what the KV-cache manager can need.  For
    full attention, [max_memory_usage_bytes] pays for enough pages to hold
    [max_model_len] tokens over the context-parallel ranks; for a sliding
    window, for enough pages to hold any run of the last [window - 1] computed
    tokens plus one full batch (capped at the model length), wherever that run
    starts inside a block; for chunked local attention, for a run of a chunk
    plus one batch that starts at a block boundary (there is no spare page);
    for cross attention, for the longest encoder input. *)
Theorem max_pages_cover (c : VllmConfig) (s : KVCacheSpec) (n start : Z) :
  0 < block_size s → 0 ≤ start → 0 ≤ max_model_len c → 0 ≤ max_num_batched_tokens c →
  max_pages c s = Ok n →
  match s with
  | FullAttentionSpec _ _ _ | TQFullAttentionSpec _ _ _ _ | MLAAttentionSpec _ _ _ _ | SinkFullAttentionSpec _ _ _ _ =>
      let world := decode_context_parallel_size c * prefill_context_parallel_size c in
      1 ≤ world → max_model_len c ≤ n * block_size s * world
  | SlidingWindowSpec bs _ w =>
      let run := Z.min (w - 1 + max_num_batched_tokens c) (max_model_len c) in
      1 ≤ w → cdiv (start + run) bs - start / bs ≤ n
  | ChunkedLocalAttentionSpec bs _ chunk =>
      let run := Z.min (chunk + max_num_batched_tokens c) (max_model_len c) in
      start mod bs = 0 → cdiv (start + run) bs - start / bs ≤ n
  | CrossAttentionSpec bs _ => max_num_encoder_input_tokens c ≤ n * bs
  | _ => True
  end.
Proof.
  intros Hbs Hst Hm Hb Hn.
  destruct s; cbn in Hn, Hbs |- *; try done.
  1-4: apply py_cdiv_ok in Hn as [_ ->]; intros Hw;
       destruct (Z.ltb_spec 1 (decode_context_parallel_size c * prefill_context_parallel_size c));
       set (w := decode_context_parallel_size c * prefill_context_parallel_size c) in *;
       [pose proof (cdiv_mul_ge (max_model_len c) w ltac:(lia)); pose proof (cdiv_mul_ge (cdiv (max_model_len c) w) bs Hbs); nia
       |pose proof (cdiv_mul_ge (max_model_len c) bs Hbs); nia].
  - apply py_cdiv_ok in Hn as [_ ->]. intros Hal. by apply aligned_run_pages.
  - unfold sw_max_pages in Hn. destruct (decode_context_parallel_size c =? 1); [|done]. apply res_bind_ok in Hn as (k & [_ ->]%py_cdiv_ok & [= <-]).
    intros Hw. apply run_pages; [done|lia].
  - apply py_cdiv_ok in Hn as [_ ->]. by apply cdiv_mul_ge.
Qed.

Definition toy_config : VllmConfig := MkVllmConfig 4096 1 1 512 0 "none".

Lemma max_pages_cover_witness : cdiv (10 + 1023) 16 - 10 / 16 ≤ 65.
Proof.
  exact (max_pages_cover toy_config (SlidingWindowSpec 16 toy_attention 512) 65 10
    ltac:(cbn; lia) ltac:(lia) ltac:(cbn; lia) ltac:(cbn; lia) eq_refl ltac:(lia)).
Defined.
