(* ===== verification/KVCacheConfig.v ===== *)
(** * Sizing the KV cache (vllm/v1/core/kv_cache_utils.py)

    From the specs of the layers of every worker and the memory of every
    worker, [get_kv_cache_configs] decides how layers are grouped, how many
    blocks there are and which tensors hold them.  A layer dictionary is an
    association list in insertion order. *)

From S2P Require Import Prelude KVCacheInterface.

(** ** Data *)

Abbreviation Specs := (list (string * KVCacheSpec)).

(** The parts of [VllmConfig] that matter here; [max_model_len] is assigned to
    while the configuration is computed. *)
Record Config := MkConfig {
  spec_config : VllmConfig;
  original_max_model_len : Z;
  disable_hybrid_kv_cache_manager : bool;
  num_gpu_blocks_override : option Z;
}.

Definition with_max_model_len (n : Z) (c : VllmConfig) : VllmConfig :=
  MkVllmConfig n (decode_context_parallel_size c) (prefill_context_parallel_size c) (max_num_batched_tokens c)
    (max_num_encoder_input_tokens c) (config_mamba_cache_mode c).
Definition set_max_model_len (n : Z) (c : Config) : Config :=
  MkConfig (with_max_model_len n (spec_config c)) (original_max_model_len c) (disable_hybrid_kv_cache_manager c)
    (num_gpu_blocks_override c).
Abbreviation model_len c := (max_model_len (spec_config c)).

Abbreviation MC := (M Config).

(** [kv_cache_spec[layer_name]] *)
Fixpoint spec_at (d : Specs) (name : string) : res KVCacheSpec :=
  match d with
  | [] => Raise KeyError
  | (n, s) :: d => if String.eqb n name then Ok s else spec_at d name
  end.

(** [layer_name in kv_cache_spec] *)
Definition has_layer (d : Specs) (name : string) : bool := existsb (λ x, String.eqb x.1 name) d.

(** ** Worst-case memory and the model length that fits *)

(** [max_memory_usage_bytes(vllm_config, kv_cache_specs)] *)
Definition total_max_memory_usage_bytes (c : VllmConfig) (specs : list GroupSpec) : res Z :=
  sum_res (group_max_memory_usage_bytes c <$> specs).

(** [try: m finally: vllm_config.model_config.max_model_len = n] *)
Definition restoring (n : Z) {A} (m : MC A) : MC A := λ c, let '(r, c') := m c in (r, set_max_model_len n c').

(** The binary search of both estimates: the largest length in
    [[left, right]] that fits, or [result]. *)
Fixpoint search_max_len (fuel : nat) (fits : Z → MC bool) (left right result : Z) : MC Z :=
  match fuel with
  | O => raise OutOfFuel
  | S fuel =>
      if left <=? right then
        let mid := (left + right) / 2 in
        let! ok := fits mid in
        if ok then search_max_len fuel fits (mid + 1) right mid
        else search_max_len fuel fits left (mid - 1) result
      else ret result
  end.

(** The local [fits_in_memory]: it sets the model length. *)
Definition fits_in_memory (needed : VllmConfig → res Z) (available_memory model_len : Z) : MC bool :=
  modify (set_max_model_len model_len) ;;;
  let! c := gets spec_config in
  let! memory_needed := lift (needed c) in
  ret (memory_needed <=? available_memory).

Definition estimate_with (needed : VllmConfig → res Z) (available_memory : Z) : MC Z :=
  let! original := gets (λ c, model_len c) in
  let fits := fits_in_memory needed available_memory in
  restoring original
    (let! one := fits 1 in
     if one then search_max_len (S (Z.to_nat original)) fits 1 original 1 else ret 0).

Definition estimate_max_model_len (kv_cache_spec : Specs) (available_memory : Z) : MC Z :=
  estimate_with (λ c, total_max_memory_usage_bytes c (LayerSpec <$> kv_cache_spec.*2)) available_memory.

(** [_check_enough_kv_cache_memory]: the estimate goes into the message. *)
Definition check_enough_memory (available_memory : Z) (get_needed_memory : MC Z) (estimate : Z → MC Z) : MC unit :=
  if available_memory <=? 0 then raise ValueError
  else
    let! needed := get_needed_memory in
    if available_memory <? needed then estimate available_memory ;;; raise ValueError
    else ret tt.

Definition check_enough_kv_cache_memory (kv_cache_spec : Specs) (available_memory : Z) : MC unit :=
  match kv_cache_spec with
  | [] => ret tt
  | _ =>
      check_enough_memory available_memory
        (let! c := gets spec_config in lift (total_max_memory_usage_bytes c (LayerSpec <$> kv_cache_spec.*2)))
        (estimate_max_model_len kv_cache_spec)
  end.

(** ** Grouping layers *)

Definition create_group (d : Specs) (names : list string) : res KVCacheGroupSpec :=
  let? specs := map_res (spec_at d) names in
  let? merged := merge specs in
  Ok (MkGroup names (LayerSpec merged)).
Definition create_kv_cache_group_specs (d : Specs) (grouped_layer_names : list (list string)) : res (list KVCacheGroupSpec) :=
  map_res (create_group d) grouped_layer_names.

(** Only an AssertionError of [merge] means "not uniform". *)
Definition is_kv_cache_spec_uniform (d : Specs) : res bool :=
  match d with
  | [] => Ok true
  | _ =>
      match merge d.*2 with
      | Ok _ => Ok true
      | Raise AssertionError => Ok false
      | Raise e => Raise e
      end
  end.

(** [{layer.page_size_bytes for layer in specs}] *)
Definition page_sizes (specs : list GroupSpec) : res (list Z) :=
  let? l := map_res group_page_size_bytes specs in Ok (remove_dups l).

Definition get_uniform_page_size (specs : list GroupSpec) : res Z :=
  let? sizes := page_sizes specs in
  match sizes with [p] => Ok p | _ => Raise AssertionError end.

Definition is_kv_cache_page_size_uniform (d : Specs) : res bool :=
  let? sizes := page_sizes (LayerSpec <$> d.*2) in Ok (len sizes =? 1).

(** One layer of [unify_kv_cache_spec_page_size]: a larger block for a layer
    whose page is smaller. *)
Definition unify_page_size (max_page_size : Z) (x : string * KVCacheSpec) : res (string * KVCacheSpec) :=
  let? p := page_size_bytes x.2 in
  if p =? max_page_size then Ok x
  else if p =? 0 then Raise ZeroDivisionError
  else if negb (max_page_size mod p =? 0) then Raise NotImplementedError
  else
    let ratio := max_page_size / p in
    let new_spec := copy_with_new_block_size x.2 (block_size x.2 * ratio) in
    let? q := page_size_bytes new_spec in
    if q =? max_page_size then Ok (x.1, new_spec) else Raise AssertionError.

Definition unify_kv_cache_spec_page_size (d : Specs) : res Specs :=
  let? sizes := page_sizes (LayerSpec <$> d.*2) in
  if len sizes <=? 1 then Ok d
  else let? max_page_size := py_max sizes in map_res (unify_page_size max_page_size) d.

Definition is_kv_cache_type_attention_free (d : Specs) : bool := match d with [] => true | _ => false end.

Definition get_kv_cache_groups_uniform_spec (d : Specs) : res (list KVCacheGroupSpec) :=
  create_kv_cache_group_specs d [d.*1].

Definition get_kv_cache_groups_uniform_type (bs : Z) (specs : Specs) : list KVCacheGroupSpec :=
  [MkGroup specs.*1 (UniformTypeKVCacheSpecs bs specs)].

(** [same_type_layers[layer_spec].append(layer_name)] *)
Fixpoint add_layer (name : string) (s : KVCacheSpec) (same : list (KVCacheSpec * list string)) : list (KVCacheSpec * list string) :=
  match same with
  | [] => [(s, [name])]
  | (s', names) :: same => if decide (s' = s) then (s', names ++ [name]) :: same else (s', names) :: add_layer name s same
  end.
Definition same_type_layers (d : Specs) : list (KVCacheSpec * list string) :=
  foldl (λ same x, add_layer x.1 x.2 same) [] d.

(** The number of layers per group: the smallest class, or the largest when it
    is less than 1.5 times the smallest. *)
Definition choose_group_size (classes : list (list string)) : res Z :=
  let? min_num_layers := py_min (len <$> classes) in
  let? max_num_layers := py_max (len <$> classes) in
  Ok (if 2 * max_num_layers <? 3 * min_num_layers then max_num_layers else min_num_layers).

(** The groups of one class: [layers[i::num_groups]] for each [i]. *)
Definition split_class (group_size : Z) (layers : list string) : res (list (list string)) :=
  let? num_groups := py_cdiv (len layers) group_size in
  Ok ((λ i, py_stride layers i num_groups) <$> py_range 0 num_groups).

Definition get_kv_cache_groups_uniform_page_size (d : Specs) : res (list KVCacheGroupSpec) :=
  let classes := (same_type_layers d).*2 in
  let? group_size := choose_group_size classes in
  let? grouped_layers := map_res (split_class group_size) classes in
  create_kv_cache_group_specs d (concat grouped_layers).

(** One layer of [unify_hybrid_kv_cache_specs]: the new spec keeps the fields
    that are passed; the rest has the default values. *)
Definition to_full_attention (s : KVCacheSpec) : KVCacheSpec :=
  let plain a := MkAttention (num_kv_heads a) (head_size a) (kv_dtype a) QUANT_NONE (page_size_padded a) in
  match s with
  | SlidingWindowSpec bs a window => FullAttentionSpec bs (plain a) (MkFull (head_size a) (Some window) None)
  | ChunkedLocalAttentionSpec bs a chunk => FullAttentionSpec bs (plain a) (MkFull (head_size a) None (Some chunk))
  | _ => s
  end.

Definition is_sliding_window (s : KVCacheSpec) : bool := match s with SlidingWindowSpec _ _ _ => true | _ => false end.
Definition is_chunked_local (s : KVCacheSpec) : bool := match s with ChunkedLocalAttentionSpec _ _ _ => true | _ => false end.

(** [is_kv_cache_spec_uniform(d) or UniformTypeKVCacheSpecs.is_uniform_type(d)] *)
Definition uniform_or_uniform_type (d : Specs) : res bool :=
  let? u := is_kv_cache_spec_uniform d in
  if u then Ok true else is_uniform_type d.

(** [unify_hybrid_kv_cache_specs] changes its argument. *)
Definition unify_hybrid_kv_cache_specs : M Specs unit :=
  let! d := gets id in
  let! u := lift (uniform_or_uniform_type d) in
  if u then ret tt
  else
    let any f := existsb f d.*2 in
    (if any is_full_attention && (any is_sliding_window || any is_chunked_local)
     then modify (fmap (λ x, (x.1, to_full_attention x.2))) else ret tt) ;;;
    let! d := gets id in
    let! u := lift (uniform_or_uniform_type d) in
    if u then ret tt else raise ValueError.

Definition get_kv_cache_groups (disable_hybrid : bool) : M Specs (list KVCacheGroupSpec) :=
  (if disable_hybrid then unify_hybrid_kv_cache_specs else ret tt) ;;;
  let! d := gets id in
  if is_kv_cache_type_attention_free d then ret []
  else
    let! u := lift (is_kv_cache_spec_uniform d) in
    if u then lift (get_kv_cache_groups_uniform_spec d)
    else
      let! uniform_spec := lift (from_specs d) in
      match uniform_spec with
      | Some (UniformTypeKVCacheSpecs bs specs) => ret (get_kv_cache_groups_uniform_type bs specs)
      | _ =>
          let! d := lift (unify_kv_cache_spec_page_size d) in
          lift (get_kv_cache_groups_uniform_page_size d)
      end.

(** ** The number of blocks and the tensors *)

Definition may_override_num_blocks (override : option Z) (num_blocks : Z) : Z := default num_blocks override.

Definition get_num_blocks (override : option Z) (num_layers available_memory page_size : Z) : res Z :=
  let? n := py_div available_memory page_size in
  let? n := py_div n num_layers in
  Ok (may_override_num_blocks override (Z.max n 0)).

(** The layers that share tensor [i]: the [i]-th of each group. *)
Definition shared_layers (groups : list KVCacheGroupSpec) (i : Z) : list string :=
  omap (λ g, layer_names g !! Z.to_nat i) groups.

(** [len(groups) == 1 and isinstance(groups[0].kv_cache_spec, UniformTypeKVCacheSpecs)] *)
Definition sole_uniform_type (groups : list KVCacheGroupSpec) : option (list string * Z * Specs) :=
  match groups with
  | [MkGroup names (UniformTypeKVCacheSpecs bs specs)] => Some (names, bs, specs)
  | _ => None
  end.

Definition get_kv_cache_config_from_groups (override : option Z) (groups : list KVCacheGroupSpec) (available_memory : Z)
    : res KVCacheConfig :=
  match groups, sole_uniform_type groups with
  | [], _ => Ok (MkKVCacheConfig 1 [] groups)
  | _, Some (names, bs, specs) =>
      let? page := group_page_size_bytes (UniformTypeKVCacheSpecs bs specs) in
      let? n := py_div available_memory page in
      let num_blocks := may_override_num_blocks override n in
      let? tensors := map_res (λ name, let? s := spec_at specs name in let? p := page_size_bytes s in
                                        Ok (MkTensor (p * num_blocks) [name])) names in
      Ok (MkKVCacheConfig num_blocks tensors groups)
  | _, None =>
      let? group_size := py_max ((λ g, len (layer_names g)) <$> groups) in
      let? page_size := get_uniform_page_size (kv_cache_spec <$> groups) in
      if negb (0 <? group_size) then Raise AssertionError
      else
        let? num_blocks := get_num_blocks override group_size available_memory page_size in
        Ok (MkKVCacheConfig num_blocks
              ((λ i, MkTensor (page_size * num_blocks) (shared_layers groups i)) <$> py_range 0 group_size) groups)
  end.

(** [next(iter(group.kv_cache_spec.kv_cache_specs.values()))] *)
Definition scheduler_group (g : KVCacheGroupSpec) : res KVCacheGroupSpec :=
  match kv_cache_spec g with
  | LayerSpec _ => Ok g
  | UniformTypeKVCacheSpecs _ [] => Raise StopIteration
  | UniformTypeKVCacheSpecs _ ((_, s) :: _) => Ok (MkGroup (layer_names g) (LayerSpec s))
  end.

Definition generate_scheduler_kv_cache_config (configs : list KVCacheConfig) : res KVCacheConfig :=
  match configs with
  | [] => Raise IndexError
  | cfg :: _ =>
      if forallb (λ c, num_blocks c =? num_blocks cfg) configs then
        let? groups := map_res scheduler_group (kv_cache_groups cfg) in
        Ok (MkKVCacheConfig (num_blocks cfg) (kv_cache_tensors cfg) groups)
      else Raise AssertionError
  end.

(** [get_max_concurrency_for_kv_cache_config]: the number of blocks and the
    blocks of one request, whose quotient is returned. *)
Definition get_max_concurrency_for_kv_cache_config (c : VllmConfig) (cfg : KVCacheConfig) : res (Z * Z) :=
  let groups := kv_cache_groups cfg in
  let? num_layer_per_group := py_max ((λ g, len (layer_names g)) <$> groups) in
  let? usage := total_max_memory_usage_bytes c (kv_cache_spec <$> groups) in
  let? page := match groups with g :: _ => group_page_size_bytes (kv_cache_spec g) | [] => Raise IndexError end in
  let? n := py_cdiv (num_layer_per_group * usage) (page * num_layer_per_group) in
  if n =? 0 then Raise ZeroDivisionError else Ok (num_blocks cfg, n).

(** [_report_kv_cache_config]: the two numbers it logs. *)
Definition report_kv_cache_config (c : VllmConfig) (cfg : KVCacheConfig) : res (Z * (Z * Z)) :=
  let groups := kv_cache_groups cfg in
  let? min_block_size := py_min ((λ g, group_block_size (kv_cache_spec g)) <$> groups) in
  let? per_group := py_div (num_blocks cfg) (len groups) in
  let num_tokens := per_group * min_block_size in
  let cp := prefill_context_parallel_size c * decode_context_parallel_size c in
  let num_tokens := if 1 <? cp then num_tokens * cp else num_tokens in
  let? max_concurrency := get_max_concurrency_for_kv_cache_config c cfg in
  Ok (num_tokens, max_concurrency).

(** ** All workers *)

Definition max_memory_usage_bytes_from_groups (c : VllmConfig) (groups : list KVCacheGroupSpec) : res Z :=
  match groups, sole_uniform_type groups with
  | [], _ => Ok 0
  | _, Some (_, _, specs) => sum_res (max_memory_usage_bytes c <$> specs.*2)
  | _, None =>
      let? group_size := py_max ((λ g, len (layer_names g)) <$> groups) in
      let? page_size := get_uniform_page_size (kv_cache_spec <$> groups) in
      let? blocks_needed :=
        sum_res ((λ g, let? m := group_max_memory_usage_bytes c (kv_cache_spec g) in py_cdiv m page_size) <$> groups) in
      Ok (group_size * page_size * blocks_needed)
  end.

Definition estimate_max_model_len_from_groups (groups : list KVCacheGroupSpec) (available_memory : Z) : MC Z :=
  estimate_with (λ c, max_memory_usage_bytes_from_groups c groups) available_memory.

(** [if not groups] *)
Definition no_groups (groups : list KVCacheGroupSpec) : bool := match groups with [] => true | _ => false end.

(** The loop of [_auto_fit_max_model_len]. *)
Fixpoint fit_workers (ws : list (list KVCacheGroupSpec * Z)) (auto_fit_max : Z) : MC Z :=
  match ws with
  | [] => ret auto_fit_max
  | (groups, avail_mem) :: ws =>
      if no_groups groups then fit_workers ws auto_fit_max
      else
        let! worker_max := estimate_max_model_len_from_groups groups avail_mem in
        fit_workers ws (if worker_max <? auto_fit_max then worker_max else auto_fit_max)
  end.

Definition auto_fit_max_model_len (projected : list (list KVCacheGroupSpec)) (available_memory : list Z) : MC unit :=
  let! original_max := gets (λ c, model_len c) in
  if forallb no_groups projected then ret tt
  else match available_memory with
  | [] => raise IndexError
  | _ =>
      let! auto_fit_max := fit_workers (zip projected available_memory) original_max in
      if auto_fit_max <=? 0 then raise ValueError
      else if original_max <=? auto_fit_max then ret tt
      else modify (set_max_model_len auto_fit_max)
  end.

(** [_project_kv_cache_groups_to_worker] *)
Definition project_group (worker_spec : Specs) (g : KVCacheGroupSpec) : res KVCacheGroupSpec :=
  let names := filter (λ n, has_layer worker_spec n = true) (layer_names g) in
  match kv_cache_spec g, names with
  | UniformTypeKVCacheSpecs bs specs, _ :: _ =>
      let? kept := map_res (λ n, let? s := spec_at specs n in Ok (n, s)) names in
      Ok (MkGroup names (UniformTypeKVCacheSpecs bs kept))
  | spec, _ => Ok (MkGroup names spec)
  end.
Definition project_kv_cache_groups_to_worker (groups : list KVCacheGroupSpec) (worker_spec : Specs) : res (list KVCacheGroupSpec) :=
  map_res (project_group worker_spec) groups.

(** The layers of all workers; two workers with the same layer must agree. *)
Fixpoint add_worker_layers (merged layers : Specs) : res Specs :=
  match layers with
  | [] => Ok merged
  | (n, s) :: layers =>
      match spec_at merged n with
      | Raise _ => add_worker_layers (merged ++ [(n, s)]) layers
      | Ok s' => if decide (s' = s) then add_worker_layers merged layers else Raise AssertionError
      end
  end.
Fixpoint merge_worker_specs (merged : Specs) (workers : list Specs) : res Specs :=
  match workers with
  | [] => Ok merged
  | w :: workers => let? m := add_worker_layers merged w in merge_worker_specs m workers
  end.

(** The memory check of every worker. *)
Definition check_workers (ws : list (list KVCacheGroupSpec * Z)) : MC unit :=
  for_each ws (λ w,
    if no_groups w.1 then ret tt
    else check_enough_memory w.2 (let! c := gets spec_config in lift (max_memory_usage_bytes_from_groups c w.1))
           (estimate_max_model_len_from_groups w.1)).

Definition worker_config (override : option Z) (w : list KVCacheGroupSpec * (Specs * Z)) : res KVCacheConfig :=
  if foldr Z.add 0 ((λ g, len (layer_names g)) <$> w.1) =? len w.2.1
  then get_kv_cache_config_from_groups override w.1 w.2.2
  else Raise AssertionError.

(** [tensor.size = tensor.size // num_blocks_old * min_num_blocks] *)
Definition shrink_tensor (old new : Z) (t : KVCacheTensor) : res KVCacheTensor :=
  if old =? 0 then Raise ZeroDivisionError
  else if negb (tensor_size t mod old =? 0) then Raise AssertionError
  else Ok (MkTensor (tensor_size t / old * new) (shared_by t)).

Definition shrink_config (c : VllmConfig) (min_num_blocks : Z) (cfg : KVCacheConfig) : res KVCacheConfig :=
  let? tensors := map_res (shrink_tensor (num_blocks cfg) min_num_blocks) (kv_cache_tensors cfg) in
  let cfg := MkKVCacheConfig min_num_blocks tensors (kv_cache_groups cfg) in
  if no_groups (kv_cache_groups cfg) then Ok cfg
  else let? _ := report_kv_cache_config c cfg in Ok cfg.

Definition get_kv_cache_configs (kv_cache_specs : list Specs) (available_memory : list Z) : MC (list KVCacheConfig) :=
  let! merged := lift (merge_worker_specs [] kv_cache_specs) in
  let! disable := gets disable_hybrid_kv_cache_manager in
  let! groups := lift (get_kv_cache_groups disable merged).1 in
  let! projected := lift (map_res (project_kv_cache_groups_to_worker groups) kv_cache_specs) in
  let! auto := gets (λ c, original_max_model_len c =? -1) in
  (if auto then auto_fit_max_model_len projected available_memory else ret tt) ;;;
  check_workers (zip projected available_memory) ;;;
  let! override := gets num_gpu_blocks_override in
  let! configs := lift (map_res (worker_config override) (zip projected (zip kv_cache_specs available_memory))) in
  let! min_num_blocks := lift (py_min (num_blocks <$> configs)) in
  let! c := gets spec_config in
  lift (map_res (shrink_config c min_num_blocks) configs).
