(* ===== verification/KVCacheSizing.v ===== *)
(** * The KV cache fits the memory and holds a request

    Properties of [KVCacheConfig]: the search for the model length, the
    grouping of layers, and the configuration of all workers. *)

From S2P Require Import Prelude KVCacheInterface KVCacheConfig.

(** ** Amounts that grow with the model length *)

(** Whether the amount is defined does not depend on the length, and it grows
    with it. *)
Definition grows_with_len (f : Z → res Z) : Prop :=
  ∀ n a, f n = Ok a → ∀ m, ∃ b, f m = Ok b ∧ (n ≤ m → a ≤ b).

Lemma grows_const r : grows_with_len (λ _, r).
Proof. intros n a H m. exists a. auto with lia. Qed.

Lemma grows_bind f p (k : Z → Z → res Z) :
  grows_with_len f → (∀ q, p = Ok q → ∀ a c, k a q = Ok c → ∀ b, ∃ d, k b q = Ok d ∧ (a ≤ b → c ≤ d)) →
  grows_with_len (λ n, let? a := f n in let? q := p in k a q).
Proof.
  intros Hf Hk n c (a & Ha & (q & Hq & Hc)%res_bind_ok)%res_bind_ok m. destruct (Hf n a Ha m) as (b & Hb & Hab).
  destruct (Hk q Hq a c Hc b) as (d & Hd & Hcd). exists d. rewrite Hb, Hq. cbn. auto.
Qed.

Lemma grows_cdiv f p : 0 ≤ p → grows_with_len f → grows_with_len (λ n, let? a := f n in py_cdiv a p).
Proof.
  intros Hp Hf. apply (grows_bind f (Ok p) (λ a q, py_cdiv a q)); [done|].
  intros q [= <-] a c [H0 ->]%py_cdiv_ok b. exists (cdiv b p). split; [by apply py_cdiv_ok|]. apply cdiv_mono. lia.
Qed.

Lemma grows_mul f r : grows_with_len f → (∀ p, r = Ok p → 0 ≤ p) → grows_with_len (λ n, let? a := f n in let? p := r in Ok (a * p)).
Proof.
  intros Hf Hr. apply grows_bind; [done|]. intros q Hq a c [= <-] b. exists (b * q). split; [done|]. specialize (Hr q Hq). nia.
Qed.

Lemma sum_res_cons r l z : sum_res (r :: l) = Ok z ↔ ∃ a b, r = Ok a ∧ sum_res l = Ok b ∧ z = a + b.
Proof.
  unfold sum_res. cbn [map_res]. change (id r) with r. split.
  - intros (l' & (a & Ha & (l'' & Hl & [= <-])%res_bind_ok)%res_bind_ok & [= <-])%res_bind_ok. exists a, (foldr Z.add 0 l'').
    by rewrite Hl.
  - intros (a & b & -> & (l' & -> & [= <-])%res_bind_ok & ->). done.
Qed.

Lemma grows_sum {X} (f : X → Z → res Z) l :
  Forall (λ x, grows_with_len (f x)) l → grows_with_len (λ n, sum_res ((λ x, f x n) <$> l)).
Proof.
  induction 1 as [|x l Hx _ IH]; [apply (grows_const (Ok 0))|]. intros n z (a & b & Ha & Hb & ->)%sum_res_cons m.
  destruct (Hx n a Ha m) as (a' & Ha' & H1). destruct (IH n b Hb m) as (b' & Hb' & H2).
  exists (a' + b'). split; [apply sum_res_cons; eauto 10|]. intros Hle. specialize (H1 Hle). specialize (H2 Hle). lia.
Qed.

Lemma grows_max {X} (f : X → Z → res Z) l :
  Forall (λ x, grows_with_len (f x)) l → grows_with_len (λ n, let? zs := map_res (λ x, f x n) l in py_max zs).
Proof.
  intros Hall n z (zs & Hzs%map_res_ok & [Hin Hz]%py_max_ok)%res_bind_ok m.
  assert (∃ ws, Forall2 (λ x w, f x m = Ok w) l ws ∧ (n ≤ m → Forall2 Z.le zs ws)) as (ws & Hws & Hle).
  { clear Hin Hz. induction Hzs as [|x z0 l zs Hx _ IH]; [by exists []|]. apply Forall_cons in Hall as [Hg Hall].
    destruct (IH Hall) as (ws & Hws & Hle). destruct (Hg n z0 Hx m) as (w & Hw & Hzw). exists (w :: ws). split; [by constructor|].
    intros H. constructor; auto. }
  destruct (py_max ws) as [w|e] eqn:Ew.
  - exists w. split; [by rewrite (proj2 (map_res_ok _ _ _) Hws)|]. intros H. specialize (Hle H).
    apply list_elem_of_lookup in Hin as [i Hi]. destruct (Forall2_lookup_l _ _ _ _ _ Hle Hi) as (y & Hy & ?).
    apply py_max_ok in Ew as [_ Hmax]. specialize (Hmax y (list_elem_of_lookup_2 _ _ _ Hy)). lia.
  - destruct ws; [|done]. inversion Hws; subst. inversion Hzs; subst. by apply elem_of_nil in Hin.
Qed.

(** ** Memory of a layer and of a group grows with the model length *)

Section grows.
Context (c : VllmConfig).
Abbreviation at_len n := (with_max_model_len n c).

(** Specs of real layers: positive blocks and pages. *)
Definition spec_ok (s : KVCacheSpec) : Prop := 0 < block_size s ∧ ∃ p, page_size_bytes s = Ok p ∧ 0 < p.

Lemma max_pages_grows s : 0 < block_size s → grows_with_len (λ n, max_pages (at_len n) s).
Proof.
  assert (∀ (g : Z → Z) bs, 0 < bs → (∀ n m, n ≤ m → g n ≤ g m) → grows_with_len (λ n, py_cdiv (g n) bs)) as Hcd.
  { intros g bs Hbs Hg n a [H0 ->]%py_cdiv_ok m. exists (cdiv (g m) bs). split; [by apply py_cdiv_ok|].
    intros. apply cdiv_mono; auto. }
  intros Hbs. destruct s; cbn in Hbs |- *; try apply grows_const.
  1-4: unfold full_max_pages; cbn; set (w := _ * _); destruct (Z.ltb_spec 1 w);
    (apply Hcd; [done|intros ???; try apply cdiv_mono; lia]).
  - apply (Hcd (λ n, Z.min (chunk_size + max_num_batched_tokens c) n)); [done|]. intros n m Hnm. lia.
  - unfold sw_max_pages. cbn. destruct (_ =? 1); [|apply grows_const].
    intros n a (k & Hk & [= <-])%res_bind_ok m. destruct (Hcd (λ n, Z.min (window - 1 + max_num_batched_tokens c) n) bs Hbs ltac:(intros ???; cbv beta; lia) n k Hk m) as (b & Hb & Hle).
    exists (b + 1). rewrite Hb. cbn. split; [done|]. intros H%Hle. lia.
  - unfold mamba_max_pages. cbn. destruct (String.eqb _ "all"); [apply (Hcd (λ n, n)); [done|intros; lia]|]. destruct (String.eqb _ "align"); apply grows_const.
  - unfold cross_max_pages. cbn. apply grows_const.
Qed.

Lemma max_memory_grows s : spec_ok s → grows_with_len (λ n, max_memory_usage_bytes (at_len n) s).
Proof.
  intros (Hbs & p & Hp & Hpos). assert (grows_with_len (λ n, let? k := max_pages (at_len n) s in let? p := page_size_bytes s in Ok (k * p))) as H.
  { apply grows_mul; [by apply max_pages_grows|]. intros q. rewrite Hp. intros [= <-]. lia. }
  destruct s; try exact H. apply (grows_const (Ok 0)).
Qed.

Lemma num_pages_grows s : spec_ok s → grows_with_len (λ n, num_pages_of (at_len n) s).
Proof.
  intros Hs. pose proof (max_memory_grows s Hs) as H. destruct Hs as (_ & p & Hp & Hpos). unfold num_pages_of. rewrite Hp. cbn.
  apply grows_cdiv; [lia|done].
Qed.

Definition group_ok (g : GroupSpec) : Prop :=
  match g with LayerSpec s => spec_ok s | UniformTypeKVCacheSpecs _ specs => Forall spec_ok specs.*2 end.

Lemma sum_res_pos (l : list KVCacheSpec) z : Forall spec_ok l → sum_res (page_size_bytes <$> l) = Ok z → 0 ≤ z ∧ (l ≠ [] → 0 < z).
Proof.
  intros Hl. revert z. induction Hl as [|s l (_ & p & Hp & Hpos) _ IH]; intros z; [by intros [= <-]|].
  intros (a & b & Ha & Hb & ->)%sum_res_cons. rewrite Hp in Ha. injection Ha as <-. destruct (IH b Hb). lia.
Qed.

Lemma group_page_layers bs specs : group_page_size_bytes (UniformTypeKVCacheSpecs bs specs) = sum_res (page_size_bytes <$> specs.*2).
Proof. cbn. by rewrite <-list_fmap_compose. Qed.

Lemma group_memory_grows g : group_ok g → grows_with_len (λ n, group_max_memory_usage_bytes (at_len n) g).
Proof.
  destruct g as [s|bs specs]; [apply max_memory_grows|]. intros Hok. cbn [group_max_memory_usage_bytes].
  pose proof (grows_max (λ s n, num_pages_of (at_len n) s) specs.*2) as H.
  assert (grows_with_len (λ n, let? z := (let? zs := map_res (num_pages_of (at_len n)) specs.*2 in py_max zs) in
    let? p := group_page_size_bytes (UniformTypeKVCacheSpecs bs specs) in Ok (z * p))) as Hg.
  { apply grows_mul; [apply H; eapply Forall_impl; [exact Hok|]; intros; by apply num_pages_grows|].
    intros p. rewrite group_page_layers. intros Hp. by apply (sum_res_pos specs.*2). }
  intros n a Ha m. specialize (Hg n a). cbn beta in Hg. destruct Hg with (m := m) as (b & Hb & Hle).
  - destruct (map_res _ _); [|done]. cbn in Ha |- *. done.
  - exists b. split; [|done]. destruct (map_res (num_pages_of (at_len m)) _); [|done]. done.
Qed.

Lemma group_page_nonneg g p : group_ok g → group_page_size_bytes g = Ok p → 0 ≤ p.
Proof.
  destruct g as [s|bs specs].
  - intros (_ & q & Hq & Hpos). cbn. rewrite Hq. intros [= <-]. lia.
  - rewrite group_page_layers. intros Hok Hp. by apply (sum_res_pos specs.*2).
Qed.

Lemma uniform_page_all gs p : get_uniform_page_size gs = Ok p ↔ gs ≠ [] ∧ Forall (λ g, group_page_size_bytes g = Ok p) gs.
Proof.
  unfold get_uniform_page_size, page_sizes. split.
  - intros (sizes & (l & Hl%map_res_ok & [= <-])%res_bind_ok & Hs)%res_bind_ok.
    destruct (remove_dups l) as [|q [|? ?]] eqn:El; try done. injection Hs as ->. split.
    + intros ->. inversion Hl; subst. done.
    + apply Forall_forall. intros g [i Hi]%list_elem_of_lookup. destruct (Forall2_lookup_l _ _ _ _ _ Hl Hi) as (q & Hq & ->).
      apply list_elem_of_lookup_2 in Hq. rewrite <-elem_of_remove_dups, El in Hq. by apply list_elem_of_singleton in Hq as ->.
  - intros [Hne Hall]. assert (map_res group_page_size_bytes gs = Ok (replicate (length gs) p)) as ->.
    { apply map_res_ok. clear Hne. induction Hall; cbn; constructor; auto. }
    cbn. destruct gs as [|g gs]; [done|]. clear Hne Hall. cbn [length]. set (l := replicate _ p).
    assert (∀ x, x ∈ remove_dups l ↔ x = p) as Hl.
    { intros x. rewrite elem_of_remove_dups. unfold l. split; [by intros [-> _]%elem_of_replicate|intros ->; by left]. }
    pose proof (NoDup_remove_dups l) as Hnd. destruct (remove_dups l) as [|a [|b k]].
    + destruct (elem_of_nil p) as [Hx _]. by destruct Hx; apply Hl.
    + by rewrite (proj1 (Hl a)) by (by left).
    + exfalso. apply NoDup_cons in Hnd as [Hn _]. apply Hn. rewrite (proj1 (Hl a)), (proj1 (Hl b)) by set_solver. by left.
Qed.

Lemma groups_memory_grows groups :
  Forall (λ g, group_ok (kv_cache_spec g)) groups → grows_with_len (λ n, max_memory_usage_bytes_from_groups (at_len n) groups).
Proof.
  intros Hok. destruct groups as [|g0 gs]; [apply (grows_const (Ok 0))|]. unfold max_memory_usage_bytes_from_groups. set (groups := g0 :: gs) in *.
  destruct (sole_uniform_type groups) as [[[names bs] specs]|] eqn:Es.
  - apply (grows_sum (λ s n, max_memory_usage_bytes (at_len n) s)).
    assert (groups = [MkGroup names (UniformTypeKVCacheSpecs bs specs)]) as Eg by (unfold sole_uniform_type in Es; repeat case_match; naive_solver).
    rewrite Eg in Hok. apply Forall_cons in Hok as [Hok _]. eapply Forall_impl; [exact Hok|]. intros s. by apply max_memory_grows.
  - destruct (py_max _) as [gsize|e] eqn:Eg; [|apply (grows_const (Raise e))].
    destruct (get_uniform_page_size _) as [p|e] eqn:Ep; [|apply (grows_const (Raise e))].
    apply py_max_ok in Eg as [Hin _]. assert (0 ≤ gsize) as Hsize by (apply list_elem_of_fmap in Hin as (? & -> & _); apply len_nonneg).
    assert (0 ≤ p) as Hp.
    { apply uniform_page_all in Ep as [_ Ha]. apply Forall_cons in Hok as [Hok _]. eapply group_page_nonneg; [exact Hok|].
      by apply Forall_cons in Ha as [Ha _]. } cbn [res_bind].
    assert (grows_with_len (λ n, let? b := sum_res ((λ g, let? m := group_max_memory_usage_bytes (at_len n) (kv_cache_spec g) in py_cdiv m p) <$> groups) in
      let? q := Ok (gsize * p) in Ok (b * q))) as H.
    { apply grows_mul; [|intros ? [= <-]; nia].
      apply (grows_sum (λ g n, let? m := group_max_memory_usage_bytes (at_len n) (kv_cache_spec g) in py_cdiv m p)).
      eapply Forall_impl; [exact Hok|]. intros g Hg. apply grows_cdiv; [done|]. by apply group_memory_grows. }
    intros n a Ha m. cbn beta in Ha. destruct (H n a) with (m := m) as (b & Hb & Hle).
    + destruct (sum_res _); [|done]. cbn in Ha |- *. injection Ha as <-. f_equal. lia.
    + exists b. split; [|done]. cbn beta in Hb. clear Ha. destruct (sum_res _); [|done]. cbn in Hb |- *. injection Hb as <-. f_equal. lia.
Qed.

End grows.

(** ** The search for the model length *)

Lemma set_model_len n c : model_len (set_max_model_len n c) = n.
Proof. done. Qed.
Lemma set_set_len n m c : set_max_model_len n (set_max_model_len m c) = set_max_model_len n c.
Proof. done. Qed.
Lemma set_same_len c : set_max_model_len (model_len c) c = c.
Proof. by destruct c as [[] ? ? ?]. Qed.

Section search.
Context (needed : VllmConfig → res Z) (available_memory : Z) (c0 : Config).
Abbreviation need n := (needed (with_max_model_len n (spec_config c0))).
Context (Hgrows : grows_with_len (λ n, need n)) (Hdef : ∃ m, need 1 = Ok m).

Definition fits (n : Z) : Prop := ∃ m, need n = Ok m ∧ m ≤ available_memory.

Lemma fits_mono n m : n ≤ m → fits m → fits n.
Proof.
  intros Hle (b & Hb & Hbm). destruct Hdef as [a Ha]. destruct (Hgrows 1 a Ha n) as (x & Hx & _). destruct (Hgrows n x Hx m) as (y & Hy & Hxy).
  exists x. split; [done|]. assert (Ok y = Ok b) as [= ->] by by rewrite <-Hy, <-Hb. specialize (Hxy Hle). lia.
Qed.

Abbreviation fits_call := (fits_in_memory needed available_memory).

Lemma fits_call_run n k : ∃ b : bool, fits_call n (set_max_model_len k c0) = (Ok b, set_max_model_len n c0) ∧ (b = true ↔ fits n).
Proof.
  destruct Hdef as [a Ha]. destruct (Hgrows 1 a Ha n) as (m & Hm & _). exists (m <=? available_memory).
  unfold fits_in_memory, modify, bind, gets, lift.
  change (spec_config (set_max_model_len n (set_max_model_len k c0))) with (with_max_model_len n (spec_config c0)). rewrite Hm. split; [done|]. rewrite Z.leb_le.
  split; [by exists m|]. intros (m' & Hm' & Hle). rewrite Hm in Hm'. by injection Hm' as <-.
Qed.

(** All lengths above [right] fail; [result] is the last length that fitted. *)
Lemma search_exact fuel : ∀ left right result k,
  (Z.to_nat (right - left + 1) < fuel)%nat → fits result → left - 1 ≤ result ≤ left → result ≤ right →
  (∀ n, right < n ≤ model_len c0 → ¬ fits n) →
  ∃ r k', search_max_len fuel fits_call left right result (set_max_model_len k c0) = (Ok r, set_max_model_len k' c0) ∧
    fits r ∧ result ≤ r ≤ right ∧ ∀ n, r < n ≤ model_len c0 → ¬ fits n.
Proof.
  induction fuel as [|fuel IH]; intros left right result k Hfuel Hres Hl Hr Hno; [lia|]. cbn [search_max_len].
  destruct (Z.leb_spec left right) as [Hle|Hgt].
  - set (mid := (left + right) / 2). assert (left ≤ mid ≤ right) as Hmid.
    { unfold mid. split; [apply Z.div_le_lower_bound|apply Z.div_le_upper_bound]; lia. }
    destruct (fits_call_run mid k) as (b & Hrun & Hb). unfold bind. rewrite Hrun. destruct b.
    + destruct (IH (mid + 1) right mid mid) as (r & k' & H1 & H2 & H3 & H4); [lia|by apply Hb|lia|lia|done|].
      exists r, k'. split_and!; try done; lia.
    + assert (¬ fits mid) as Hn by (intros Hx%Hb; done).
      assert (result < mid) as Hlt by (apply Z.nle_gt; intros Hx; apply Hn; by eapply fits_mono).
      destruct (IH left (mid - 1) result mid) as (r & k' & H1 & H2 & H3 & H4); [lia|done|lia|lia| |].
      { intros n Hn' Hf. apply Hn. apply (fits_mono mid n); [lia|done]. }
      exists r, k'. split_and!; try done; lia.
  - exists result, k. split_and!; try done. intros n Hn. apply Hno. lia.
Qed.

Lemma estimate_run :
  1 ≤ model_len c0 → ∃ r, estimate_with needed available_memory c0 = (Ok r, c0) ∧
    (r = 0 ∧ ¬ fits 1 ∨ 1 ≤ r ≤ model_len c0 ∧ fits r ∧ ∀ n, r < n ≤ model_len c0 → ¬ fits n).
Proof.
  intros Hlen. unfold estimate_with, restoring. unfold bind at 1. cbn [gets].
  destruct (fits_call_run 1 (model_len c0)) as (b & Hrun & Hb). rewrite set_same_len in Hrun. unfold bind. rewrite Hrun. destruct b.
  - destruct (search_exact (S (Z.to_nat (model_len c0))) 1 (model_len c0) 1 1) as (r & k & -> & H1 & H2 & H3); [lia|by apply Hb|lia|lia|lia|].
    exists r. rewrite set_set_len, set_same_len. split; [done|]. right. auto.
  - cbn. exists 0. rewrite set_set_len, set_same_len. split; [done|]. left. split; [done|]. intros Hx%Hb. done.
Qed.
End search.

(** ** The model length that fits all workers *)

Section autofit.
Context (c : Config) (Hlen : 1 ≤ model_len c).
Abbreviation memory groups n := (max_memory_usage_bytes_from_groups (with_max_model_len n (spec_config c)) groups).

(** A worker whose memory bound is defined. *)
Definition worker_ok (groups : list KVCacheGroupSpec) : Prop :=
  Forall (λ g, group_ok (kv_cache_spec g)) groups ∧ ∃ n m, memory groups n = Ok m.

(** Every worker with a KV cache has room for one request of length [n]. *)
Definition all_fit (ws : list (list KVCacheGroupSpec * Z)) (n : Z) : Prop :=
  ∀ groups mem, (groups, mem) ∈ ws → groups ≠ [] → ∃ m, memory groups n = Ok m ∧ m ≤ mem.

Lemma worker_defined groups n : worker_ok groups → ∃ m, memory groups n = Ok m.
Proof.
  intros [Hok (k & m & Hm)]. destruct (groups_memory_grows (spec_config c) groups Hok k m Hm n) as (b & Hb & _). by exists b.
Qed.

Lemma estimate_groups_run groups mem :
  worker_ok groups → ∃ r, estimate_max_model_len_from_groups groups mem c = (Ok r, c) ∧
    0 ≤ r ≤ model_len c ∧ ∀ n, 1 ≤ n ≤ model_len c → (∃ m, memory groups n = Ok m ∧ m ≤ mem) ↔ n ≤ r.
Proof.
  intros Hw. pose proof (groups_memory_grows (spec_config c) groups (proj1 Hw)) as Hg. pose proof (worker_defined groups 1 Hw) as Hd.
  pose proof (fits_mono (λ c, max_memory_usage_bytes_from_groups c groups) mem c Hg Hd) as Hmono.
  destruct (estimate_run (λ c, max_memory_usage_bytes_from_groups c groups) mem c Hg Hd Hlen) as (r & Hr & Hcase).
  exists r. split; [exact Hr|]. destruct Hcase as [[-> H1]|(H1 & H2 & H3)].
  - split; [lia|]. intros n Hn. split; [|lia]. intros Hf. exfalso. apply H1. apply (Hmono 1 n); [lia|exact Hf].
  - split; [lia|]. intros n Hn. split.
    + intros Hf. apply Z.nlt_ge. intros Hlt. by apply (H3 n); [lia|].
    + intros Hle. exact (Hmono n r Hle H2).
Qed.

Lemma fit_workers_run ws : ∀ acc,
  Forall (λ w, w.1 ≠ [] → worker_ok w.1) ws → 0 ≤ acc ≤ model_len c →
  ∃ r, fit_workers ws acc c = (Ok r, c) ∧ 0 ≤ r ≤ acc ∧ ∀ n, 1 ≤ n ≤ acc → all_fit ws n ↔ n ≤ r.
Proof.
  induction ws as [|[groups mem] ws IH]; intros acc Hws Hacc; cbn [fit_workers].
  - exists acc. split; [done|]. split; [lia|]. intros n Hn. split; [lia|]. intros _ g m Hin. by apply elem_of_nil in Hin.
  - apply Forall_cons in Hws as [Hw Hws]. cbn in Hw. destruct groups as [|g0 gs]; cbn [no_groups].
    + destruct (IH acc Hws Hacc) as (r & Hr & Hb & Hn). exists r. split; [done|]. split; [done|]. intros n Hn'. rewrite <-(Hn n Hn').
      split; intros H groups m Hin Hne; [apply (H groups m); [by right|done]|].
      apply elem_of_cons in Hin as [[= -> ->]|Hin]; [done|by apply (H groups m)].
    + destruct (estimate_groups_run (g0 :: gs) mem (Hw ltac:(done))) as (w & Hrun & Hwb & Hfit).
      rewrite (bind_ok _ _ _ _ _ Hrun). set (acc' := if w <? acc then w else acc).
      assert (acc' = Z.min w acc) as Hacc' by (unfold acc'; destruct (Z.ltb_spec w acc); lia).
      destruct (IH acc' Hws) as (r & Hr & Hb & Hn); [lia|]. exists r. split; [done|]. split; [lia|]. intros n Hn'.
      transitivity ((∃ m, memory (g0 :: gs) n = Ok m ∧ m ≤ mem) ∧ all_fit ws n).
      { split.
        - intros H. split; [apply (H (g0 :: gs)); [by left|done]|]. intros groups m Hin. apply H. by right.
        - intros [H1 H2] groups m Hin Hne. apply elem_of_cons in Hin as [[= -> ->]|Hin]; [done|by apply H2]. }
      rewrite (Hfit n) by lia. destruct (decide (n ≤ acc')) as [Hle|Hgt]; [rewrite (Hn n) by lia; lia|]. split; [lia|]. lia.
Qed.
End autofit.

(** C31.  Fitting the model length is exact: [_auto_fit_max_model_len] sets the
    largest length, up to the model's own, at which one request of that length
    fits into the memory of every worker with a KV cache; it raises
    [ValueError], changing nothing, exactly when not even one token fits. *)
Theorem auto_fit_exact (c : Config) (projected : list (list KVCacheGroupSpec)) (available_memory : list Z) :
  1 ≤ model_len c → length projected = length available_memory → Exists (λ g, g ≠ []) projected →
  Forall (λ g, g ≠ [] → worker_ok c g) projected →
  let ws := zip projected available_memory in
  match auto_fit_max_model_len projected available_memory c with
  | (Ok _, c') => ∃ n, c' = set_max_model_len n c ∧ 1 ≤ n ≤ model_len c ∧ all_fit c ws n ∧
      ∀ m, n < m ≤ model_len c → ¬ all_fit c ws m
  | (Raise e, c') => e = ValueError ∧ c' = c ∧ ∀ n, 1 ≤ n ≤ model_len c → ¬ all_fit c ws n
  end.
Proof.
  intros Hlen Heq Hex Hok. destruct available_memory as [|m0 ms]; [destruct projected; [by apply Exists_nil in Hex|done]|].
  intros ws. unfold auto_fit_max_model_len. cbn match. rewrite (bind_ok (gets (λ c, model_len c)) _ c (model_len c) c eq_refl).
  assert (forallb no_groups projected = false) as ->.
  { apply not_true_iff_false. rewrite forallb_forall. intros H. apply Exists_exists in Hex as (g & Hg & Hne).
    specialize (H g (proj1 (list_elem_of_In _ _) Hg)). by destruct g. }
  assert (Forall (λ w, w.1 ≠ [] → worker_ok c w.1) ws) as Hws.
  { apply Forall_forall. intros [g m] Hin%elem_of_zip_l. by apply (Forall_forall _ _) with (x := g) in Hok. }
  destruct (fit_workers_run c Hlen ws (model_len c) Hws ltac:(lia)) as (r & Hrun & Hb & Hfit).
  rewrite (bind_ok _ _ _ _ _ Hrun). destruct (Z.leb_spec r 0) as [H0|H0].
  - split_and!; [done|done|]. intros n Hn Hf%Hfit; lia.
  - assert (all_fit c ws r ∧ ∀ m, r < m ≤ model_len c → ¬ all_fit c ws m) as [H1 H2]
      by (split; [apply Hfit; lia|intros m Hm Hf%Hfit; lia]).
    destruct (Z.leb_spec (model_len c) r) as [Hle|Hlt]; cbn; exists r; split_and!; auto; try lia.
    replace r with (model_len c) by lia. by rewrite set_same_len.
Qed.

(** ** Layer dictionaries *)

Lemma spec_at_in d n s : NoDup d.*1 → spec_at d n = Ok s ↔ (n, s) ∈ d.
Proof.
  induction d as [|[k x] d IH]; cbn; [by rewrite elem_of_nil|]. intros [Hk Hnd]%NoDup_cons. rewrite elem_of_cons.
  destruct (String.eqb_spec k n) as [->|Hne].
  - split; [intros [= ->]; by left|]. intros [[= ->]|Hin]; [done|]. exfalso. apply Hk, list_elem_of_fmap. by exists (n, s).
  - rewrite IH by done. naive_solver.
Qed.

Lemma spec_at_key d n : (∃ s, spec_at d n = Ok s) ↔ n ∈ d.*1.
Proof.
  induction d as [|[k x] d IH]; cbn; [rewrite elem_of_nil; naive_solver|]. rewrite elem_of_cons, <-IH.
  destruct (String.eqb_spec k n); naive_solver.
Qed.

Lemma has_layer_in d n : has_layer d n = true ↔ n ∈ d.*1.
Proof.
  unfold has_layer. rewrite existsb_exists, list_elem_of_fmap. split.
  - intros (x & Hx%list_elem_of_In & <-%String.eqb_eq). by exists x.
  - intros (x & -> & Hx). exists x. split; [by apply list_elem_of_In|apply String.eqb_refl].
Qed.

(** ** Merging keeps the shape of the first layer *)

Definition same_shape (s s' : KVCacheSpec) : Prop := block_size s' = block_size s ∧ page_size_bytes s' = page_size_bytes s.

Lemma full_shape bs a f f' : head_size_v f = head_size_v f' → full_real_page_size bs a f = full_real_page_size bs a f'.
Proof. unfold full_real_page_size. by intros ->. Qed.

Lemma merge_shape s rest s' : merge (s :: rest) = Ok s' → same_shape s s' ∧ (∀ c, max_pages c s' = max_pages c s).
Proof.
  unfold merge, full_merge, tq_merge, sink_merge, mla_merge, base_merge.
  destruct s as [bs a f|bs a f t|bs a f dt|bs a f sink|bs a ch|bs a w|bs m|bs a|bs a]; cbn beta iota.
  1,2,4: destruct (merge_full _) as [[[bs' a'] f']|] eqn:Em; [|done];
    apply merge_full_inv in Em as [_ (s0 & r0 & f0 & [= <- <-] & [= -> -> ->] & Hf)].
  - intros [= <-]. repeat split. cbn. unfold attention_page_size. cbn. by rewrite (full_shape _ _ _ _ Hf).
  - destruct (all_tq_slot_size _ _) as [[]|]; intros [= <-]. repeat split. cbn. unfold attention_page_size. cbn. unfold tq_real_page_size.
    by rewrite (full_shape _ _ _ _ Hf).
  - intros [= <-]. repeat split. cbn. unfold attention_page_size. cbn. by rewrite (full_shape _ _ _ _ Hf).
  - destruct (forallb _ _); [|done]. destruct (forallb _ _); intros [= <-]. repeat split.
  - destruct (forallb _ _); intros [= <-]; repeat split.
  - destruct (forallb _ _); intros [= <-]; repeat split.
  - destruct (forallb _ _); intros [= <-]; repeat split.
  - destruct (forallb _ _); intros [= <-]; repeat split.
  - destruct (forallb _ _); intros [= <-]; repeat split.
Qed.

Lemma shape_ok s s' : same_shape s s' → spec_ok s → spec_ok s'.
Proof. intros [H1 H2] (Hb & p & Hp & Hpos). split; [by rewrite H1|]. exists p. by rewrite H2. Qed.

(** ** Groups *)

(** What [create_kv_cache_group_specs] builds of the names of a group. *)
Definition built_from (d : Specs) (names : list string) (g : KVCacheGroupSpec) : Prop :=
  layer_names g = names ∧ ∃ specs s, Forall2 (λ n s, spec_at d n = Ok s) names specs ∧ merge specs = Ok s ∧ kv_cache_spec g = LayerSpec s.

Lemma create_groups_ok d parts groups :
  create_kv_cache_group_specs d parts = Ok groups → Forall2 (built_from d) parts groups.
Proof.
  intros H%map_res_ok. eapply Forall2_impl; [exact H|]. intros names g (specs & Hs%map_res_ok & (s & Hm & [= <-])%res_bind_ok)%res_bind_ok.
  split; [done|]. by exists specs, s.
Qed.

Lemma built_names d parts groups : Forall2 (built_from d) parts groups → layer_names <$> groups = parts.
Proof. induction 1 as [|p g ps gs [Hn _] _ IH]; cbn; [done|]. by rewrite Hn, IH. Qed.

Lemma built_first d names g : built_from d names g → ∃ n names' s0 s,
  names = n :: names' ∧ spec_at d n = Ok s0 ∧ kv_cache_spec g = LayerSpec s ∧ same_shape s0 s.
Proof.
  intros [_ (specs & s & Hs & Hm & Hg)]. destruct Hs as [|n s0 names specs Hn _]; [done|].
  exists n, names, s0, s. split_and!; try done. by eapply merge_shape.
Qed.

(** The layers by spec *)

Definition classes_of (d : Specs) (same : list (KVCacheSpec * list string)) : Prop :=
  concat same.*2 ≡ₚ d.*1 ∧ Forall (λ x, x.2 ≠ [] ∧ Forall (λ n, (n, x.1) ∈ d) x.2) same.

Lemma add_layer_classes d same n s : classes_of d same → classes_of (d ++ [(n, s)]) (add_layer n s same).
Proof.
  intros [Hp Hall]. split.
  - rewrite fmap_app. cbn. rewrite <-Hp. clear. induction same as [|[s' names] same IH]; cbn; [done|].
    destruct (decide (s' = s)); cbn; [by rewrite <-!app_assoc, (Permutation_app_comm [n])|]. by rewrite IH, app_assoc.
  - clear Hp. induction same as [|[s' names] same IH]; cbn.
    + constructor; [|constructor]. cbn. split; [done|]. constructor; [|constructor]. set_solver.
    + apply Forall_cons in Hall as [[H1 H2] Hall]. cbn in H1, H2.
      assert (Forall (λ k, (k, s') ∈ d ++ [(n, s)]) names) as H2' by (eapply Forall_impl; [exact H2|]; set_solver).
      destruct (decide (s' = s)) as [->|]; constructor; cbn; auto.
      * split; [by destruct names|]. apply Forall_app. split; [done|]. constructor; [|constructor]. set_solver.
      * eapply Forall_impl; [exact Hall|]. intros [t ns] [H3 H4]. split; [done|]. eapply Forall_impl; [exact H4|]. set_solver.
Qed.

Lemma same_type_classes d : classes_of d (same_type_layers d).
Proof.
  unfold same_type_layers. assert (∀ d' d0 acc, classes_of d0 acc → classes_of (d0 ++ d') (foldl (λ same x, add_layer x.1 x.2 same) acc d')) as H.
  { induction d' as [|[n s] d' IH]; intros d0 acc H; cbn; [by rewrite app_nil_r|].
    replace (d0 ++ (n, s) :: d') with ((d0 ++ [(n, s)]) ++ d') by by rewrite <-app_assoc. by apply IH, add_layer_classes. }
  apply (H d [] []). split; constructor.
Qed.

Lemma split_class_ok size layers parts :
  0 < size → split_class size layers = Ok parts →
  concat parts ≡ₚ layers ∧ Forall (λ p, p ≠ [] ∧ len p ≤ size) parts.
Proof.
  intros Hsize (n & [_ Hn]%py_cdiv_ok & [= <-])%res_bind_ok. pose proof (len_nonneg layers).
  pose proof (cdiv_mul_ge (len layers) size Hsize) as Hmul. rewrite <-Hn in Hmul.
  assert (n ≤ len layers) as Hle by (rewrite Hn; apply cdiv_le_iff; nia).
  destruct (decide (0 < n)) as [Hpos|Hz].
  - split; [by apply concat_stride|]. apply Forall_forall. intros p (i & -> & Hi%elem_of_seqZ)%list_elem_of_fmap.
    split; [apply stride_nonempty; lia|]. pose proof (stride_len layers i n size Hpos ltac:(lia) ltac:(lia)). lia.
  - assert (layers = []) as -> by (destruct layers; [done|]; rewrite len_cons in *; pose proof (len_nonneg layers); nia).
    unfold py_range. rewrite seqZ_nil by lia. split; [done|constructor].
Qed.

Lemma choose_group_size_ok classes size :
  Forall (λ l, l ≠ []) classes → choose_group_size classes = Ok size → 0 < size.
Proof.
  intros Hne (a & [Ha _]%py_min_ok & (b & [Hb _]%py_max_ok & [= <-])%res_bind_ok)%res_bind_ok.
  assert (∀ z, z ∈ len <$> classes → 0 < z) as Hpos.
  { intros z (l & -> & Hl)%list_elem_of_fmap. apply (Forall_forall _ _) with (x := l) in Hne; [|done]. destruct l; [done|].
    rewrite len_cons. pose proof (len_nonneg l). lia. }
  destruct (_ <? _); by apply Hpos.
Qed.

Lemma concat_perm {A} (ps qs : list (list A)) : Forall2 (≡ₚ) ps qs → concat ps ≡ₚ concat qs.
Proof. induction 1 as [|p q ps qs Hp _ IH]; cbn; [done|]. by rewrite Hp, IH. Qed.

(** The parts of the classes: every layer once, no part empty, the layers of a
    part all of one spec. *)
Definition parts_of (d : Specs) (parts : list (list string)) : Prop :=
  concat parts ≡ₚ d.*1 ∧ Forall (λ p, p ≠ [] ∧ ∃ s, Forall (λ n, (n, s) ∈ d) p) parts.

Lemma split_classes_ok d size parts :
  0 < size → map_res (split_class size) (same_type_layers d).*2 = Ok parts →
  parts_of d (concat parts) ∧ Forall (λ p, len p ≤ size) (concat parts).
Proof.
  intros Hsize Hp%map_res_ok. destruct (same_type_classes d) as [Hperm Hall].
  assert (Forall2 (λ x ps, concat ps ≡ₚ x.2 ∧ Forall (λ p, p ≠ [] ∧ len p ≤ size) ps) (same_type_layers d) parts) as Hx.
  { clear Hperm Hall. revert parts Hp. induction (same_type_layers d) as [|[s l] same IH]; intros parts Hp; [inversion Hp; constructor|].
    inversion Hp as [|? ps ? pss Hs Hr]; subst. constructor; [by eapply split_class_ok|by apply IH]. }
  clear Hp. split; [split|].
  - rewrite <-Hperm. clear Hperm Hall. induction Hx as [|[s l] ps same pss [H1 _] _ IH]; cbn; [done|].
    rewrite concat_app, IH. by rewrite H1.
  - clear Hperm. apply Forall_concat. induction Hx as [|[s l] ps same pss [H1 H2] _ IH]; [constructor|].
    apply Forall_cons in Hall as [[_ Hl] Hall]. constructor; [|by apply IH]. apply Forall_forall. intros p Hin.
    pose proof (proj1 (Forall_forall _ _) H2 p Hin) as [Hne _]. split; [done|]. exists s. apply Forall_forall. intros n Hn.
    apply (proj1 (Forall_forall _ _) Hl). cbn. rewrite <-H1. by eapply in_concat.
  - apply Forall_concat. clear Hperm Hall. induction Hx as [|[s l] ps same pss [_ H2] _ IH]; constructor; [|done].
    eapply Forall_impl; [exact H2|]. by intros p [_ ?].
Qed.

(** Unifying page sizes: all layers get the largest page. *)
Lemma unify_page_size_ok P x y : unify_page_size P x = Ok y → y.1 = x.1 ∧ page_size_bytes y.2 = Ok P.
Proof.
  unfold unify_page_size. intros (p & Hp & H)%res_bind_ok. destruct (Z.eqb_spec p P) as [->|]; [injection H as <-; done|].
  destruct (p =? 0); [done|]. destruct (negb _); [done|]. apply res_bind_ok in H as (q & Hq & H).
  destruct (Z.eqb_spec q P) as [->|]; [|done]. by injection H as <-.
Qed.

Lemma unify_pages d d' : unify_kv_cache_spec_page_size d = Ok d' → d'.*1 = d.*1 ∧ ∃ P, Forall (λ x, page_size_bytes x.2 = Ok P) d'.
Proof.
  unfold unify_kv_cache_spec_page_size. intros (sizes & Hs & H)%res_bind_ok. destruct (Z.leb_spec (len sizes) 1) as [Hle|Hgt].
  - injection H as <-. split; [done|]. destruct d as [|x d]; [by exists 0|].
    apply res_bind_ok in Hs as (l & Hl%map_res_ok & [= <-]). destruct (remove_dups l) as [|P [|? ?]] eqn:El.
    + exists 0. exfalso. inversion Hl as [|? z ? ? _ _]; subst. assert (z ∈ remove_dups (z :: l')) as Hz by (apply elem_of_remove_dups; by left).
      rewrite El in Hz. by apply elem_of_nil in Hz.
    + exists P. apply Forall_forall. intros y Hy. assert (LayerSpec y.2 ∈ LayerSpec <$> (x :: d).*2) as Hin.
      { apply list_elem_of_fmap. exists y.2. split; [done|]. apply list_elem_of_fmap. by exists y. }
      apply list_elem_of_lookup in Hin as [i Hi]. destruct (Forall2_lookup_l _ _ _ _ _ Hl Hi) as (q & Hq & Hpage). cbn in Hpage. rewrite Hpage.
      apply list_elem_of_lookup_2 in Hq. rewrite <-elem_of_remove_dups, El in Hq. by apply list_elem_of_singleton in Hq as ->.
    + rewrite !len_cons in Hle. pose proof (len_nonneg l0). lia.
  - apply res_bind_ok in H as (P & _ & Hd%map_res_ok). split.
    + clear Hs Hgt. induction Hd as [|x y d d' Hx _ IH]; [done|]. cbn. apply unify_page_size_ok in Hx as [-> _]. by rewrite IH.
    + exists P. clear Hs Hgt. induction Hd as [|x y d d' Hx _ IH]; constructor; [|done]. by apply unify_page_size_ok in Hx as [_ ?].
Qed.

Lemma uniform_page_groups d groups :
  NoDup d.*1 → get_kv_cache_groups_uniform_page_size d = Ok groups →
  ∃ parts, parts_of d parts ∧ Forall2 (built_from d) parts groups ∧
    ∃ size, 0 < size ∧ Forall (λ p, len p ≤ size) parts ∧ choose_group_size (same_type_layers d).*2 = Ok size.
Proof.
  intros Hnd (size & Hsize & (parts & Hparts & Hg)%res_bind_ok)%res_bind_ok.
  assert (0 < size) as Hpos.
  { eapply choose_group_size_ok; [|exact Hsize]. destruct (same_type_classes d) as [_ Hall]. apply Forall_fmap. eapply Forall_impl; [exact Hall|].
    by intros x [? _]. }
  destruct (split_classes_ok d size parts Hpos Hparts) as [H1 H2]. exists (concat parts). split; [done|]. split; [by apply create_groups_ok|].
  by exists size.
Qed.

Lemma unify_ok P x y : 0 < P → unify_page_size P x = Ok y → spec_ok x.2 → spec_ok y.2.
Proof.
  intros HP Hy Hx. split; [|exists P; split; [by eapply unify_page_size_ok|done]]. destruct Hx as (Hb & q & Hq & Hpos). unfold unify_page_size in Hy.
  apply res_bind_ok in Hy as (p & Hp & H). rewrite Hq in Hp. injection Hp as <-.
  destruct (q =? P); [injection H as <-; done|]. destruct (q =? 0); [done|]. destruct (Z.eqb_spec (P mod q) 0) as [Hm|]; [|done].
  apply res_bind_ok in H as (q' & _ & H). destruct (_ =? _); [|done]. injection H as <-. cbn.
  assert (block_size (copy_with_new_block_size x.2 (block_size x.2 * (P / q))) = block_size x.2 * (P / q)) as -> by by destruct x as [? []].
  apply Z.mul_pos_pos; [done|]. apply Z.mod_divide in Hm as [k ->]; [|lia]. rewrite Z.div_mul by lia. nia.
Qed.

Lemma unify_all_ok d d' : unify_kv_cache_spec_page_size d = Ok d' → Forall spec_ok d.*2 → Forall spec_ok d'.*2.
Proof.
  intros H Hok. unfold unify_kv_cache_spec_page_size in H. apply res_bind_ok in H as (sizes & Hs & H). destruct (_ <=? _); [by injection H as <-|].
  apply res_bind_ok in H as (P & HP & Hd%map_res_ok). assert (0 < P) as Hpos.
  { apply py_max_ok in HP as [HP _]. apply res_bind_ok in Hs as (l & Hl%map_res_ok & [= <-]). rewrite elem_of_remove_dups in HP.
    apply list_elem_of_lookup in HP as [i Hi]. destruct (Forall2_lookup_r _ _ _ _ _ Hl Hi) as (g & Hg & Hpage).
    apply list_elem_of_lookup_2, list_elem_of_fmap in Hg as (s & -> & Hin). apply (proj1 (Forall_forall _ _) Hok) in Hin as (_ & p & Hp & Hpos).
    cbn in Hpage. rewrite Hp in Hpage. by injection Hpage as ->. }
  clear HP Hs. induction Hd as [|x y d d' Hx _ IH]; cbn; [constructor|]. apply Forall_cons in Hok as [H1 H2]. constructor; [by eapply unify_ok|by apply IH].
Qed.

(** A layer whose spec, or its full-attention replacement, is that of a real
    layer. *)
Definition layer_ok (s : KVCacheSpec) : Prop := spec_ok s ∧ spec_ok (to_full_attention s).

Lemma unify_hybrid_run d d' : unify_hybrid_kv_cache_specs d = (Ok tt, d') → Forall layer_ok d.*2 → d'.*1 = d.*1 ∧ Forall spec_ok d'.*2.
Proof.
  intros H Hok. assert (Forall spec_ok d.*2) as Hok1 by (eapply Forall_impl; [exact Hok|]; by intros s [? _]).
  assert (d' = d ∨ d' = (λ x, (x.1, to_full_attention x.2)) <$> d) as [->| ->]; [|done|].
  - unfold unify_hybrid_kv_cache_specs, bind, gets, lift, modify in H. cbn in H. unfold id in H.
    destruct (uniform_or_uniform_type d) as [[|]|]; [by injection H as <-; left| |done].
    destruct (_ && _); cbn in H; destruct (uniform_or_uniform_type _) as [[|]|]; try done; injection H as <-; auto.
  - rewrite <-!list_fmap_compose. split; [done|]. rewrite Forall_fmap in Hok |- *. eapply Forall_impl; [exact Hok|]. by intros x [_ ?].
Qed.

(** The three forms of the result of [get_kv_cache_groups]. *)
Definition grouping (groups : list KVCacheGroupSpec) : Prop :=
  groups = [] ∨
  (groups ≠ [] ∧ ∃ P, 0 < P ∧ Forall (λ g, ∃ s, kv_cache_spec g = LayerSpec s ∧ spec_ok s ∧ page_size_bytes s = Ok P) groups) ∨
  (∃ bs specs, groups = [MkGroup specs.*1 (UniformTypeKVCacheSpecs bs specs)] ∧ is_uniform_type specs = Ok true ∧
     NoDup specs.*1 ∧ Forall spec_ok specs.*2).

Lemma built_grouping d parts groups :
  NoDup d.*1 → Forall spec_ok d.*2 → Forall2 (built_from d) parts groups → groups ≠ [] →
  (length groups = 1%nat ∨ ∃ P, Forall (λ x, page_size_bytes x.2 = Ok P) d) → grouping groups.
Proof.
  intros Hnd Hok Hb Hne Hcase. right. left. split; [done|].
  assert (Forall (λ g, ∃ s s0 n, kv_cache_spec g = LayerSpec s ∧ same_shape s0 s ∧ (n, s0) ∈ d ∧ spec_ok s) groups) as Hall.
  { clear Hne Hcase. induction Hb as [|p g ps gs Hg _ IH]; constructor; [|done]. destruct (built_first d p g Hg) as (n & p' & s0 & s & _ & Hn & Hs & Hsh).
    apply spec_at_in in Hn; [|done]. exists s, s0, n. split_and!; try done. eapply shape_ok; [done|]. apply (proj1 (Forall_forall _ _) Hok).
    apply list_elem_of_fmap. by exists (n, s0). }
  destruct Hcase as [H1|[P HP]].
  - destruct groups as [|g [|? ?]]; try done. apply Forall_cons in Hall as [(s & s0 & n & Hs & _ & _ & Hsok) _].
    pose proof Hsok as (_ & P & HP & Hpos). exists P. split; [done|]. constructor; [|constructor]. by exists s.
  - destruct groups as [|g groups]; [done|]. assert (0 < P) as Hpos.
    { apply Forall_cons in Hall as [(s & s0 & n & _ & _ & Hin & _) _]. apply (proj1 (Forall_forall _ _) HP) in Hin as Hp. cbn in Hp.
      assert (s0 ∈ d.*2) as Hs0 by (apply list_elem_of_fmap; by exists (n, s0)). apply (proj1 (Forall_forall _ _) Hok) in Hs0 as (_ & q & Hq & Hpos).
      rewrite Hp in Hq. by injection Hq as ->. }
    exists P. split; [done|]. eapply Forall_impl; [exact Hall|]. intros x (s & s0 & n & Hs & [_ Hsh] & Hin & Hsok). exists s. split_and!; try done.
    rewrite Hsh. by apply (proj1 (Forall_forall _ _) HP) in Hin.
Qed.

Lemma groups_of_specs dis d groups d' :
  NoDup d.*1 → Forall layer_ok d.*2 → get_kv_cache_groups dis d = (Ok groups, d') →
  concat (layer_names <$> groups) ≡ₚ d.*1 ∧ Forall (λ g, layer_names g ≠ []) groups ∧ grouping groups.
Proof.
  intros Hnd Hok H. unfold get_kv_cache_groups, bind at 1 in H.
  destruct ((if dis then unify_hybrid_kv_cache_specs else ret tt) d) as [[[]|e] d1] eqn:E1; [|done].
  assert (d1.*1 = d.*1 ∧ Forall spec_ok d1.*2) as [Hk Hok1].
  { destruct dis; [by apply unify_hybrid_run|]. injection E1 as <-. split; [done|]. eapply Forall_impl; [exact Hok|]. by intros s [? _]. }
  rewrite <-Hk in Hnd |- *. clear E1 Hk Hok. unfold bind, gets, lift, ret, id in H. cbv beta iota zeta in H.
  destruct d1 as [|x0 d2] eqn:Ed; [cbn in H; injection H as <- _; split_and!; [done|constructor|by left]|].
  rewrite <-Ed in *. assert (d1 ≠ []) as Hne by by rewrite Ed. clear Ed x0 d2. destruct (is_kv_cache_type_attention_free d1) eqn:Ef; [by destruct d1|].
  destruct (is_kv_cache_spec_uniform d1) as [[|]|] eqn:Eu; [| |done].
  - destruct (get_kv_cache_groups_uniform_spec d1) as [gs|] eqn:Eg; [|done]. injection H as <- _.
    apply create_groups_ok in Eg. pose proof (built_names _ _ _ Eg) as Hn. pose proof (Forall2_length _ _ _ Eg) as Hlen. cbn in Hlen.
    split_and!; [rewrite Hn; cbn; by rewrite app_nil_r| |eapply built_grouping; eauto; by intros ->].
    apply (Forall_fmap layer_names (λ l, l ≠ [])). rewrite Hn. constructor; [by destruct d1|constructor].
  - destruct (from_specs d1) as [[g|]|] eqn:Ef'; [| |done].
    + unfold from_specs in Ef'. destruct (is_uniform_type d1) as [[|]|] eqn:Et; try done. destruct d1 as [|[k s] d1]; [done|].
      injection Ef' as <-. injection H as <- _. split_and!; [cbn; by rewrite app_nil_r|by constructor|].
      right. right. by exists (block_size s), ((k, s) :: d1).
    + destruct (unify_kv_cache_spec_page_size d1) as [d2|] eqn:E2; [|done]. destruct (get_kv_cache_groups_uniform_page_size d2) as [gs|] eqn:Eg; [|done].
      injection H as <- _. destruct (unify_pages d1 d2 E2) as [Hk HP]. rewrite <-Hk in Hnd |- *.
      destruct (uniform_page_groups d2 gs Hnd Eg) as (parts & [Hp1 Hp2] & Hb & _). pose proof (built_names _ _ _ Hb) as Hn. rewrite Hn.
      assert (Forall (λ g, layer_names g ≠ []) gs) as Hnames.
      { apply (Forall_fmap layer_names (λ l, l ≠ [])). rewrite Hn. eapply Forall_impl; [exact Hp2|]. by intros p [? _]. }
      split_and!; [done|done|]. eapply built_grouping; [exact Hnd|by eapply unify_all_ok|exact Hb| |by right].
      intros ->. inversion Hb; subst. cbn in Hp1. apply Permutation_nil_l in Hp1. destruct d2; [|done]. by destruct d1.
Qed.

(** ** A worker's share of the groups *)

Lemma project_names w g g' : project_group w g = Ok g' → layer_names g' = filter (λ n, has_layer w n = true) (layer_names g).
Proof.
  unfold project_group. destruct (kv_cache_spec g) as [s|bs specs]; [by intros [= <-]|]. destruct (filter _ _) as [|n ns] eqn:Ef; [by intros [= <-]|].
  by intros (kept & _ & [= <-])%res_bind_ok.
Qed.

Lemma filter_concat_names {A} (f : A → bool) (ls : list (list A)) :
  concat ((λ l, filter (λ x, f x = true) l) <$> ls) = filter (λ x, f x = true) (concat ls).
Proof. induction ls as [|l ls IH]; [done|]. rewrite fmap_cons, !concat_cons, filter_app. by rewrite IH. Qed.

(** Every layer of the worker is in exactly one of its groups. *)
Lemma project_partition groups w projected names :
  project_kv_cache_groups_to_worker groups w = Ok projected → NoDup names → NoDup w.*1 → concat (layer_names <$> groups) ≡ₚ names →
  (∀ n, n ∈ w.*1 → n ∈ names) → concat (layer_names <$> projected) ≡ₚ w.*1.
Proof.
  intros H%map_res_ok Hn Hw Hp Hsub.
  assert (layer_names <$> projected = (λ l, filter (λ n, has_layer w n = true) l) <$> (layer_names <$> groups)) as ->.
  { clear Hp. induction H as [|g g' gs gs' Hg _ IH]; [done|]. cbn. rewrite (project_names _ _ _ Hg). by rewrite IH. }
  rewrite filter_concat_names. apply NoDup_Permutation; [apply NoDup_filter; by rewrite Hp|done|].
  intros n. rewrite list_elem_of_filter, has_layer_in, Hp. naive_solver.
Qed.

Lemma sum_lengths groups : foldr Z.add 0 ((λ g, len (layer_names g)) <$> groups) = len (concat (layer_names <$> groups)).
Proof. induction groups as [|g gs IH]; [done|]. cbn. rewrite len_app. by rewrite IH. Qed.

(** The specs of the groups of a worker are those of the model. *)
Definition layer_groups (P : Z) (groups : list KVCacheGroupSpec) : Prop :=
  Forall (λ g, ∃ s, kv_cache_spec g = LayerSpec s ∧ spec_ok s ∧ page_size_bytes s = Ok P) groups.

Lemma project_layer_groups P groups w projected :
  layer_groups P groups → project_kv_cache_groups_to_worker groups w = Ok projected →
  layer_groups P projected ∧ kv_cache_spec <$> projected = kv_cache_spec <$> groups.
Proof.
  intros Hg H%map_res_ok. induction H as [|g g' gs gs' Hx _ IH]; [done|]. apply Forall_cons in Hg as [(s & Hs & Hok) Hg].
  destruct (IH Hg) as [IH1 IH2]. assert (kv_cache_spec g' = kv_cache_spec g) as Heq.
  { unfold project_group in Hx. rewrite Hs in Hx. by injection Hx as <-. }
  split; [|cbn; by rewrite Heq, IH2]. constructor; [|done]. exists s. by rewrite Heq.
Qed.

Lemma project_uniform bs specs w projected :
  NoDup specs.*1 → project_kv_cache_groups_to_worker [MkGroup specs.*1 (UniformTypeKVCacheSpecs bs specs)] w = Ok projected →
  ∃ names kept, projected = [MkGroup names (UniformTypeKVCacheSpecs bs kept)] ∧ (∀ x, x ∈ kept → x ∈ specs) ∧
    NoDup names ∧ (names = [] ∧ kept = specs ∨ names ≠ [] ∧ kept.*1 = names).
Proof.
  intros Hnd (g & Hg & (gs & [= <-] & [= <-])%res_bind_ok)%res_bind_ok. unfold project_group in Hg. cbn [kv_cache_spec layer_names] in Hg.
  set (names := filter _ specs.*1) in Hg. assert (NoDup names) as Hn by by apply NoDup_filter.
  destruct names as [|n ns]; [injection Hg as <-; exists [], specs; auto 10|].
  apply res_bind_ok in Hg as (kept & Hk%map_res_ok & [= <-]). exists (n :: ns), kept.
  assert (∀ l k, Forall2 (λ n x, (let? s := spec_at specs n in Ok (n, s)) = Ok x) l k → k.*1 = l ∧ ∀ x, x ∈ k → x ∈ specs) as Hkey.
  { induction 1 as [|m x l k Hx _ [IH1 IH2]]; [split; [done|]; by intros x ?%elem_of_nil|]. apply res_bind_ok in Hx as (s & Hs & [= <-]).
    apply spec_at_in in Hs; [|done]. cbn. rewrite IH1. split; [done|]. intros x [->|Hx]%elem_of_cons; auto. }
  destruct (Hkey _ _ Hk) as [H1 H2]. split_and!; auto.
Qed.

(** ** Tensors *)

Lemma concat_app_perm {A B} (f g : B → list A) (l : list B) : concat ((λ i, f i ++ g i) <$> l) ≡ₚ concat (f <$> l) ++ concat (g <$> l).
Proof.
  induction l as [|i l IH]; [done|]. cbn. rewrite IH. rewrite <-!app_assoc. f_equiv. rewrite !app_assoc. f_equiv. apply Permutation_app_comm.
Qed.

Lemma concat_lookup {A} (l : list A) n : concat ((λ i : nat, option_list (l !! i)) <$> seq 0 n) = take n l.
Proof.
  induction n as [|n IH]; [done|]. rewrite seq_S, fmap_app, concat_app, IH. cbn. rewrite app_nil_r. destruct (l !! n) as [x|] eqn:Hx.
  - by rewrite (take_S_r l n x Hx).
  - apply lookup_ge_None in Hx. rewrite !take_ge by lia. cbn. apply app_nil_r.
Qed.

(** The tensors hold every layer once. *)
Lemma shared_layers_perm groups size :
  0 ≤ size → Forall (λ g, len (layer_names g) ≤ size) groups →
  concat (shared_layers groups <$> py_range 0 size) ≡ₚ concat (layer_names <$> groups).
Proof.
  intros Hs. induction 1 as [|g gs Hg _ IH]; cbn [fmap list_fmap concat].
  - induction (py_range 0 size); cbn; auto.
  - rewrite <-IH.
    transitivity (concat ((λ i, option_list (layer_names g !! Z.to_nat i) ++ shared_layers gs i) <$> py_range 0 size)).
    { apply reflexive_eq. f_equal. apply list_fmap_ext. intros _ i _. unfold shared_layers. cbn. by destruct (layer_names g !! Z.to_nat i). }
    rewrite concat_app_perm. f_equiv. rewrite py_range_seq by lia. rewrite <-list_fmap_compose.
    replace (_ <$> seq _ _) with ((λ i : nat, option_list (layer_names g !! i)) <$> seq 0 (Z.to_nat size)).
    + rewrite concat_lookup, take_ge; [done|]. unfold len in Hg. lia.
    + rewrite Z.sub_0_r. apply list_fmap_ext. intros _ i _. cbn. by rewrite Nat2Z.id.
Qed.

(** The page a layer uses. *)
Definition layer_page (g : GroupSpec) (n : string) : res Z :=
  match g with
  | LayerSpec s => page_size_bytes s
  | UniformTypeKVCacheSpecs _ specs => let? s := spec_at specs n in page_size_bytes s
  end.

(** A configuration of [groups] in [mem] bytes: tensor [i] has [num_blocks]
    pages of [ps !! i] bytes, each layer is in one tensor, whose pages are
    those of the layer. *)
Record sized (groups : list KVCacheGroupSpec) (mem : Z) (cfg : KVCacheConfig) (ps : list Z) : Prop := {
  sz_groups : kv_cache_groups cfg = groups;
  sz_blocks : 0 ≤ num_blocks cfg;
  sz_pages : Forall2 (λ t p, 0 < p ∧ tensor_size t = p * num_blocks cfg) (kv_cache_tensors cfg) ps;
  sz_memory : foldr Z.add 0 ps * num_blocks cfg ≤ mem;
  sz_layers : concat (shared_by <$> kv_cache_tensors cfg) ≡ₚ concat (layer_names <$> groups);
  sz_tensor g n : g ∈ groups → n ∈ layer_names g → ∃ i t p, kv_cache_tensors cfg !! i = Some t ∧ ps !! i = Some p ∧
    n ∈ shared_by t ∧ layer_page (kv_cache_spec g) n = Ok p;
}.

Lemma layer_groups_sole P groups : layer_groups P groups → sole_uniform_type groups = None.
Proof. destruct groups as [|[names [s|]] [|]]; try done. intros [(s & Hs & _) _]%Forall_cons. done. Qed.

Lemma layer_groups_page P groups : groups ≠ [] → layer_groups P groups → get_uniform_page_size (kv_cache_spec <$> groups) = Ok P.
Proof.
  intros Hne Hg. apply uniform_page_all. split; [by destruct groups|]. apply Forall_fmap. eapply Forall_impl; [exact Hg|].
  intros g (s & Hs & _ & Hp). cbn. by rewrite Hs.
Qed.

Lemma sum_replicate n p : foldr Z.add 0 (replicate n p) = Z.of_nat n * p.
Proof. induction n as [|n IH]; [done|]. cbn [replicate foldr]. rewrite IH. lia. Qed.

Lemma general_sized P groups mem cfg :
  groups ≠ [] → 0 < P → 0 < mem → layer_groups P groups → get_kv_cache_config_from_groups None groups mem = Ok cfg →
  ∃ ps, sized groups mem cfg ps.
Proof.
  intros Hne HP Hmem Hg H. unfold get_kv_cache_config_from_groups in H.
  destruct groups as [|g0 gs] eqn:Eg; [done|]. rewrite <-Eg in *. clear Eg. rewrite (layer_groups_sole P) in H by done. apply res_bind_ok in H as (size & [_ Hmax]%py_max_ok & H).
  rewrite (layer_groups_page P) in H by done. cbn [res_bind] in H. destruct (Z.ltb_spec 0 size) as [Hsize|]; [|done]. cbn [negb] in H.
  apply res_bind_ok in H as (n & Hn & [= <-]). apply res_bind_ok in Hn as (a & [_ ->]%py_div_ok & (b & [_ ->]%py_div_ok & [= <-])%res_bind_ok).
  assert (Forall (λ g, len (layer_names g) ≤ size) groups) as Hall.
  { apply Forall_forall. intros g Hin. apply Hmax, list_elem_of_fmap. by exists g. }
  cbn [may_override_num_blocks default from_option]. unfold may_override_num_blocks. cbn. set (n := Z.max _ 0).
  assert (0 ≤ n ∧ size * P * n ≤ mem) as [Hn0 Hn].
  { unfold n. rewrite Z.div_div by lia. split; [lia|]. pose proof (Z.div_pos mem (P * size) ltac:(lia) ltac:(nia)).
    rewrite Z.max_l by lia. pose proof (Z.mul_div_le mem (P * size) ltac:(nia)). nia. }
  exists (replicate (Z.to_nat size) P). split; cbn [kv_cache_groups num_blocks kv_cache_tensors]; auto.
  - apply Forall2_same_length_lookup_2; [rewrite length_replicate, length_fmap; unfold py_range; rewrite length_seqZ; f_equal; lia|].
    intros i t p Ht [-> _]%lookup_replicate. apply list_lookup_fmap_Some in Ht as (j & -> & _). cbn. lia.
  - rewrite sum_replicate. rewrite Z2Nat.id by lia. lia.
  - rewrite <-list_fmap_compose. rewrite <-(shared_layers_perm groups size) by (auto; lia). done.
  - intros g k Hin Hk. apply list_elem_of_lookup in Hk as [i Hi].
    assert (Z.of_nat i < size) as Hlt.
    { apply lookup_lt_Some in Hi. apply (proj1 (Forall_forall _ _) Hall) in Hin. unfold len in Hin. lia. }
    exists i, (MkTensor (P * n) (shared_layers groups (Z.of_nat i))), P. split_and!.
    + apply list_lookup_fmap_Some. exists (Z.of_nat i). split; [done|]. unfold py_range. by rewrite lookup_seqZ_lt by lia.
    + apply lookup_replicate. split; [done|lia].
    + cbn. unfold shared_layers. apply list_elem_of_omap. exists g. by rewrite Nat2Z.id.
    + apply (proj1 (Forall_forall _ _) Hg) in Hin as (s & Hs & _ & Hp). by rewrite Hs.
Qed.

Lemma pages_sum specs ps page :
  NoDup specs.*1 → Forall2 (λ name p, ∃ s, spec_at specs name = Ok s ∧ page_size_bytes s = Ok p ∧ 0 < p) specs.*1 ps →
  sum_res (page_size_bytes <$> specs.*2) = Ok page → page = foldr Z.add 0 ps.
Proof.
  intros Hnd Hps (l & Hl%map_res_ok & [= <-])%res_bind_ok. f_equal. apply list_eq. intros i.
  rewrite <-list_fmap_compose in Hl. destruct (specs !! i) as [[n s]|] eqn:Hi.
  - destruct (Forall2_lookup_l _ _ _ i n Hps) as (p & -> & s' & Hs & Hp & _); [by rewrite list_lookup_fmap, Hi|].
    assert (spec_at specs n = Ok s) as Hs2 by (apply spec_at_in; [done|by eapply list_elem_of_lookup_2]).
    rewrite Hs in Hs2. injection Hs2 as ->.
    destruct (Forall2_lookup_l _ _ _ i (page_size_bytes s) Hl) as (q & -> & Hq); [by rewrite list_lookup_fmap, Hi|]. cbn in Hq. unfold id in Hq. congruence.
  - apply Forall2_length in Hps, Hl. rewrite length_fmap in Hps. rewrite length_fmap in Hl. apply lookup_ge_None in Hi.
    rewrite !(proj2 (lookup_ge_None _ _)) by lia. done.
Qed.

Lemma uniform_sized bs specs names mem cfg :
  0 < mem → Forall spec_ok specs.*2 → NoDup specs.*1 → (names = [] ∨ specs.*1 = names) → specs ≠ [] →
  get_kv_cache_config_from_groups None [MkGroup names (UniformTypeKVCacheSpecs bs specs)] mem = Ok cfg →
  ∃ ps, sized [MkGroup names (UniformTypeKVCacheSpecs bs specs)] mem cfg ps.
Proof.
  intros Hmem Hok Hnd Hnames Hne H. set (groups := [_]) in *. unfold get_kv_cache_config_from_groups in H. cbn [sole_uniform_type groups] in H.
  rewrite group_page_layers in H. apply res_bind_ok in H as (page & Hpage & H). destruct (sum_res_pos specs.*2 page Hok Hpage) as [_ Hpos].
  specialize (Hpos ltac:(by destruct specs)). apply res_bind_ok in H as (n & [_ ->]%py_div_ok & H). cbn [may_override_num_blocks default] in H.
  unfold may_override_num_blocks in H. cbn [default] in H. set (n := mem / page) in H. cbn in H. fold n in H.
  apply res_bind_ok in H as (tensors & Ht%map_res_ok & [= <-]).
  assert (0 ≤ n ∧ page * n ≤ mem) as [Hn0 Hn] by (unfold n; split; [apply Z.div_pos|apply Z.mul_div_le]; lia).
  assert (∃ ps, Forall2 (λ name p, ∃ s, spec_at specs name = Ok s ∧ page_size_bytes s = Ok p ∧ 0 < p) names ps ∧
    Forall2 (λ t p, 0 < p ∧ tensor_size t = p * n) tensors ps ∧ shared_by <$> tensors = (λ x, [x]) <$> names) as (ps & Hps & Htp & Hsh).
  { clear Hnames groups. induction Ht as [|name t names tensors Hx _ (ps & IH1 & IH2 & IH3)]; [by exists []|].
    apply res_bind_ok in Hx as (s & Hs & (p & Hp & [= <-])%res_bind_ok).
    assert (0 < p) as Hp0.
    { apply spec_at_in in Hs; [|done]. assert (s ∈ specs.*2) as Hin by (apply list_elem_of_fmap; by exists (name, s)).
      apply (proj1 (Forall_forall _ _) Hok) in Hin as (_ & q & Hq & ?). rewrite Hp in Hq. by injection Hq as ->. }
    exists (p :: ps). split_and!; [constructor; [by exists s|done]|by constructor|]. cbn. by rewrite IH3. }
  exists ps. split; cbn [kv_cache_groups num_blocks kv_cache_tensors]; try done.
  - destruct Hnames as [->|<-]; [inversion Hps; subst; cbn; lia|]. by rewrite <-(pages_sum specs ps page Hnd Hps Hpage).
  - rewrite Hsh. cbn. rewrite app_nil_r. apply reflexive_eq. clear. induction names as [|x l IH]; [done|]. cbn. by rewrite IH.
  - intros g name ->%list_elem_of_singleton Hin. cbn in Hin. apply list_elem_of_lookup in Hin as [i Hi].
    destruct (Forall2_lookup_l _ _ _ _ _ Hps Hi) as (p & Hp & s & Hs & Hsp & _). destruct (Forall2_lookup_r _ _ _ _ _ Htp Hp) as (t & Ht' & _).
    exists i, t, p. split_and!; try done; [|cbn; by rewrite Hs].
    assert ((shared_by <$> tensors) !! i = Some [name]) as Hx by (rewrite Hsh, list_lookup_fmap, Hi; done).
    rewrite list_lookup_fmap, Ht' in Hx. injection Hx as ->. by left.
Qed.

(** ** The blocks of one request *)

(** The pages a request of the model length needs of a group. *)
Definition group_pages (c : VllmConfig) (g : GroupSpec) : res Z :=
  match g with
  | LayerSpec s => num_pages_of c s
  | UniformTypeKVCacheSpecs _ [] => Raise StopIteration
  | UniformTypeKVCacheSpecs _ ((_, s) :: _) => num_pages_of c s
  end.
Definition request_blocks (c : VllmConfig) (groups : list KVCacheGroupSpec) : res Z :=
  sum_res ((λ g, group_pages c (kv_cache_spec g)) <$> groups).

Lemma general_holds P c groups mem m cfg :
  groups ≠ [] → 0 < P → layer_groups P groups → max_memory_usage_bytes_from_groups c groups = Ok m → m ≤ mem →
  get_kv_cache_config_from_groups None groups mem = Ok cfg →
  ∃ need, request_blocks c groups = Ok need ∧ need ≤ num_blocks cfg.
Proof.
  intros Hne HP Hg Hm Hle H. unfold get_kv_cache_config_from_groups in H. unfold max_memory_usage_bytes_from_groups in Hm.
  destruct groups as [|g0 gs] eqn:Eg; [done|]. rewrite <-Eg in *. clear Eg. rewrite (layer_groups_sole P) in H, Hm by done.
  apply res_bind_ok in H as (size & Hsize & H). rewrite Hsize in Hm. rewrite (layer_groups_page P) in H, Hm by done. cbn [res_bind] in H, Hm.
  destruct (Z.ltb_spec 0 size) as [Hpos|]; [|done]. cbn [negb] in H. apply res_bind_ok in H as (n & Hn & [= <-]).
  apply res_bind_ok in Hn as (a & [_ ->]%py_div_ok & (b & [_ ->]%py_div_ok & [= <-])%res_bind_ok).
  apply res_bind_ok in Hm as (need & Hneed & [= <-]). exists need. split.
  - rewrite <-Hneed. unfold request_blocks. f_equal. clear Hne Hsize Hneed. induction Hg as [|g gs' (s & Hs & _ & Hp) _ IH]; [done|].
    cbn. rewrite IH, Hs. cbn. unfold num_pages_of. by rewrite Hp.
  - cbn. unfold may_override_num_blocks. cbn. apply Z.le_trans with (mem / P / size); [|lia]. rewrite Z.div_div by lia. apply Z.div_le_lower_bound; nia.
Qed.

(** Layers of one type need the same number of pages. *)
Lemma uniform_type_pages specs c s0 s :
  is_uniform_type specs = Ok true → s0 ∈ specs.*2 → s ∈ specs.*2 → max_pages c s = max_pages c s0.
Proof.
  assert (∀ one rest n, is_uniform_type ((n, one) :: rest) = Ok true → ∀ s, s ∈ ((n, one) :: rest).*2 → max_pages c s = max_pages c one) as Hone.
  { intros one rest n H s' Hin. apply list_elem_of_fmap in Hin as ([k x] & -> & Hin%list_elem_of_In). cbn [snd]. cbn [is_uniform_type] in H.
    destruct (forallb _ _) eqn:Hbs; [|done]. cbn [negb] in H. apply (proj1 (forallb_forall _ _)) with (x := (k, x)) in Hbs; [|done]. apply Z.eqb_eq in Hbs.
    cbn [snd] in Hbs. assert (∀ a b : bool, Ok a = Ok b → a = b) as Hinj by congruence.
    destruct one; try done; apply Hinj in H; apply (proj1 (forallb_forall _ _)) with (x := (k, x)) in H; try done;
      cbn [snd] in H; destruct x; try done; cbn in Hbs |- *; subst; try done; apply Z.eqb_eq in H; subst; try done.
    unfold mamba_max_pages. by rewrite H. }
  destruct specs as [|[n one] rest]; [done|]. intros H H0 Hs. by rewrite (Hone one rest n H s Hs), (Hone one rest n H s0 H0).
Qed.

Lemma num_pages_max c s n : spec_ok s → max_pages c s = Ok n → num_pages_of c s = Ok n ∧ ∀ p, page_size_bytes s = Ok p → max_memory_usage_bytes c s = Ok (n * p).
Proof.
  intros (_ & p & Hp & Hpos) Hn. assert (max_memory_usage_bytes c s = Ok (n * p)) as Hm.
  { unfold max_memory_usage_bytes. destruct s; try (rewrite Hn; cbn [res_bind]; rewrite Hp; done). cbn in Hn. by injection Hn as <-. }
  unfold num_pages_of. rewrite Hm, Hp. cbn [res_bind]. unfold py_cdiv. destruct (Z.eqb_spec p 0); [lia|]. rewrite cdiv_mul by done.
  split; [done|]. by intros q [= <-].
Qed.

Lemma max_pages_defined c s m : max_memory_usage_bytes c s = Ok m → ∃ n, max_pages c s = Ok n.
Proof. unfold max_memory_usage_bytes. destruct s; try (intros (n & Hn & _)%res_bind_ok; by exists n). by exists 0. Qed.

Lemma memory_sum c n (l : list KVCacheSpec) m page :
  Forall (λ s, spec_ok s ∧ max_pages c s = Ok n) l → sum_res (max_memory_usage_bytes c <$> l) = Ok m →
  sum_res (page_size_bytes <$> l) = Ok page → m = n * page.
Proof.
  intros Hl. revert m page. induction Hl as [|s l [Hok Hn] _ IH]; intros m page; [intros [= <-] [= <-]; lia|].
  intros (a & b & Ha & Hb & ->)%sum_res_cons (p & q & Hp & Hq & ->)%sum_res_cons. rewrite (IH b q Hb Hq).
  rewrite (proj2 (num_pages_max c s n Hok Hn) p Hp) in Ha. injection Ha as <-. lia.
Qed.

Lemma uniform_holds c bs all kept names mem m cfg :
  is_uniform_type all = Ok true → (∀ x, x ∈ kept → x ∈ all) → kept ≠ [] → Forall spec_ok all.*2 →
  let groups := [MkGroup names (UniformTypeKVCacheSpecs bs kept)] in
  max_memory_usage_bytes_from_groups c groups = Ok m → m ≤ mem → get_kv_cache_config_from_groups None groups mem = Ok cfg →
  ∃ need, request_blocks c groups = Ok need ∧ need ≤ num_blocks cfg ∧ ∀ s, s ∈ all.*2 → max_pages c s = Ok need.
Proof.
  intros Hu Hsub Hne Hok groups Hm Hle H. unfold get_kv_cache_config_from_groups in H. unfold max_memory_usage_bytes_from_groups in Hm.
  cbn [sole_uniform_type groups] in H, Hm. rewrite group_page_layers in H. apply res_bind_ok in H as (page & Hpage & H).
  apply res_bind_ok in H as (k & [_ ->]%py_div_ok & (tensors & _ & [= <-])%res_bind_ok).
  assert (∀ s, s ∈ kept.*2 → s ∈ all.*2) as Hsub2.
  { intros s (x & -> & Hx)%list_elem_of_fmap. apply list_elem_of_fmap. exists x. auto. }
  assert (Forall spec_ok kept.*2) as Hokk by (apply Forall_forall; intros s Hs%Hsub2; by apply (proj1 (Forall_forall _ _) Hok)).
  destruct kept as [|[k0 s0] rest] eqn:Ek; [done|]. assert (s0 ∈ all.*2) as Hs0 by (apply Hsub2; by left).
  assert (∃ n, max_pages c s0 = Ok n) as [n Hn] by (apply sum_res_cons in Hm as (a & _ & Ha & _); by apply max_pages_defined in Ha).
  assert (∀ s, s ∈ all.*2 → max_pages c s = Ok n) as Hall by (intros s Hs; by rewrite (uniform_type_pages all c s0 s)).
  rewrite <-Ek in *. exists n. split_and!; [| |done].
  - unfold request_blocks, groups. rewrite ?Ek. cbn [fmap list_fmap kv_cache_spec group_pages]. apply sum_res_cons. exists n, 0.
    split_and!; [|done|lia]. apply num_pages_max; [|done]. by apply (proj1 (Forall_forall _ _) Hok).
  - cbn. unfold may_override_num_blocks. cbn. destruct (sum_res_pos kept.*2 page Hokk Hpage) as [_ Hpos]. specialize (Hpos ltac:(by rewrite Ek)).
    apply Z.div_le_lower_bound; [done|]. rewrite (memory_sum c n kept.*2 m page) in Hle; [lia| |done|done].
    apply Forall_forall. intros s Hs. split; [by apply (proj1 (Forall_forall _ _) Hokk)|auto].
Qed.

(** ** Shrinking to the smallest worker *)

Lemma shrink_sized c groups mem cfg ps N cfg' :
  sized groups mem cfg ps → 0 ≤ N ≤ num_blocks cfg → shrink_config c N cfg = Ok cfg' → sized groups mem cfg' ps ∧ num_blocks cfg' = N.
Proof.
  intros [H1 H2 H3 H4 H5 H6] HN H. unfold shrink_config in H. apply res_bind_ok in H as (tensors & Ht%map_res_ok & H).
  assert (cfg' = MkKVCacheConfig N tensors (kv_cache_groups cfg)) as ->.
  { cbn [kv_cache_groups] in H. destruct (no_groups _); [by injection H as <-|]. by apply res_bind_ok in H as (? & _ & [= <-]). }
  clear H. assert (shared_by <$> tensors = shared_by <$> kv_cache_tensors cfg) as Hsh.
  { clear -Ht. induction Ht as [|t t' ts ts' Hx _ IH]; [done|]. cbn. rewrite IH. f_equal. unfold shrink_tensor in Hx. repeat case_match; naive_solver. }
  split; [|done]. split; cbn [kv_cache_groups num_blocks kv_cache_tensors]; try done; [lia| | |by rewrite Hsh|].
  - clear H4 H5 H6 Hsh. revert ps H3. induction Ht as [|t t' ts ts' Hx _ IH]; intros ps H3; inversion H3 as [|? p ? ps' [Hp Hsz] Hr]; subst; constructor.
    + split; [done|]. unfold shrink_tensor in Hx. destruct (Z.eqb_spec (num_blocks cfg) 0); [done|]. destruct (negb _); [done|]. injection Hx as <-. cbn.
      rewrite Hsz, Z.div_mul by done. done.
    + by apply IH.
  - assert (0 ≤ foldr Z.add 0 ps); [|nia]. clear -H3. induction H3 as [|t p ts ps [Hp _] _ IH]; cbn; lia.
  - intros g n Hg Hn. destruct (H6 g n Hg Hn) as (i & t & p & Hi & Hp & Hin & Hpage). destruct (Forall2_lookup_l _ _ _ _ _ Ht Hi) as (t' & Ht' & _).
    exists i, t', p. split_and!; try done. assert ((shared_by <$> tensors) !! i = Some (shared_by t)) as Hx by by rewrite Hsh, list_lookup_fmap, Hi.
    rewrite list_lookup_fmap, Ht' in Hx. by injection Hx as ->.
Qed.

(** ** All workers *)

Lemma add_worker_layers_ok layers : ∀ m m', NoDup m.*1 → add_worker_layers m layers = Ok m' →
  NoDup m'.*1 ∧ (∀ n, n ∈ m.*1 ∨ n ∈ layers.*1 → n ∈ m'.*1) ∧ (∀ x, x ∈ m' → x ∈ m ∨ x ∈ layers).
Proof.
  induction layers as [|[n s] layers IH]; intros m m' Hnd; cbn [add_worker_layers].
  - intros [= <-]. split_and!; auto. by intros n [?|?%elem_of_nil].
  - destruct (spec_at m n) as [s'|e] eqn:Es.
    + destruct (decide (s' = s)); [|done]. intros H. destruct (IH m m' Hnd H) as (H1 & H2 & H3). split_and!; [done| |].
      * intros k [Hk|[->|Hk]%elem_of_cons]; apply H2; auto. left. apply spec_at_key. by exists s'.
      * intros x [Hx|Hx]%H3; auto. right. by right.
    + assert (n ∉ m.*1) as Hn by (intros [x Hx]%spec_at_key; congruence). intros H.
      destruct (IH (m ++ [(n, s)]) m') as (H1 & H2 & H3); [|done|].
      { rewrite fmap_app. apply NoDup_app. split_and!; [done| |apply NoDup_singleton]. by intros k Hk ->%list_elem_of_singleton. }
      split_and!; [done| |].
      * intros k Hk. apply H2. rewrite fmap_app, elem_of_app. cbn in Hk |- *. set_solver.
      * intros x [Hx|Hx]%H3; set_solver.
Qed.

Lemma merge_workers_ok ws : ∀ m m', NoDup m.*1 → merge_worker_specs m ws = Ok m' →
  NoDup m'.*1 ∧ (∀ n, n ∈ m.*1 ∨ (∃ w, w ∈ ws ∧ n ∈ w.*1) → n ∈ m'.*1) ∧ (∀ x, x ∈ m' → x ∈ m ∨ ∃ w, w ∈ ws ∧ x ∈ w).
Proof.
  induction ws as [|w ws IH]; intros m m' Hnd; cbn [merge_worker_specs].
  - intros [= <-]. split_and!; auto. intros n [?|(w & Hw & _)]; [done|]. by apply elem_of_nil in Hw.
  - intros (m1 & H1 & H2)%res_bind_ok. destruct (add_worker_layers_ok w m m1 Hnd H1) as (A1 & A2 & A3). destruct (IH m1 m' A1 H2) as (B1 & B2 & B3).
    split_and!; [done| |].
    + intros n [Hn|(v & [->|Hv]%elem_of_cons & Hn)]; apply B2; [left; apply A2; auto..|]. right. by exists v.
    + intros x [[Hx|Hx]%A3|(v & Hv & Hx)]%B3; [by left|right; exists w; by split; [left|]|right; exists v; by split; [right|]].
Qed.

Lemma check_workers_ok ws : ∀ c c', check_workers ws c = (Ok tt, c') →
  c' = c ∧ ∀ groups mem, (groups, mem) ∈ ws → groups ≠ [] →
    0 < mem ∧ ∃ m, max_memory_usage_bytes_from_groups (spec_config c) groups = Ok m ∧ m ≤ mem.
Proof.
  unfold check_workers. induction ws as [|[g mem] ws IH]; intros c c'; cbn [for_each].
  - intros [= <-]. split; [done|]. intros groups mem Hin. by apply elem_of_nil in Hin.
  - unfold bind at 1. cbn [fst snd]. destruct (no_groups g) eqn:Eg.
    + cbn [ret]. intros H. destruct (IH c c' H) as [-> Hall]. split; [done|]. intros groups m [[= -> ->]|Hin]%elem_of_cons Hne; [by destruct g|auto].
    + unfold check_enough_memory. destruct (Z.leb_spec mem 0); [done|]. unfold bind at 1, bind at 1, gets, lift.
      destruct (max_memory_usage_bytes_from_groups (spec_config c) g) as [m|] eqn:Em; [|done]. destruct (Z.ltb_spec mem m).
      * unfold bind at 1. destruct (estimate_max_model_len_from_groups g mem c) as [[r|] c1]; done.
      * cbn [ret]. intros Hrun. destruct (IH c c' Hrun) as [-> Hall]. split; [done|].
        intros groups m' [[= -> ->]|Hin]%elem_of_cons Hne; [|auto]. split; [done|]. by exists m.
Qed.

Lemma request_blocks_specs c gs gs' : kv_cache_spec <$> gs' = kv_cache_spec <$> gs → request_blocks c gs = request_blocks c gs'.
Proof.
  intros H. assert (∀ l, (λ g, group_pages c (kv_cache_spec g)) <$> l = group_pages c <$> (kv_cache_spec <$> l)) as Hc
    by (intros l; by rewrite <-list_fmap_compose).
  unfold request_blocks. by rewrite !Hc, H.
Qed.

Lemma worker_sized c groups w pg mem m cfg :
  grouping groups → groups ≠ [] → project_kv_cache_groups_to_worker groups w = Ok pg → 0 < mem →
  max_memory_usage_bytes_from_groups c pg = Ok m → m ≤ mem → get_kv_cache_config_from_groups None pg mem = Ok cfg →
  ∃ ps need, sized pg mem cfg ps ∧ request_blocks c groups = Ok need ∧ request_blocks c pg = Ok need ∧ need ≤ num_blocks cfg.
Proof.
  intros Hg Hne Hp Hmem Hm Hle Hcfg. destruct Hg as [->|[[_ (P & HP & Hl)]|(bs & specs & -> & Hu & Hnd & Hok)]]; [done| |].
  - destruct (project_layer_groups P groups w pg Hl Hp) as [Hlp Hsp]. assert (pg ≠ []) as Hnp by (intros ->; by destruct groups).
    destruct (general_sized P pg mem cfg Hnp HP Hmem Hlp Hcfg) as [ps Hps]. destruct (general_holds P c pg mem m cfg Hnp HP Hlp Hm Hle Hcfg) as (need & H1 & H2).
    exists ps, need. split_and!; try done. rewrite <-H1. by apply request_blocks_specs.
  - destruct (project_uniform bs specs w pg Hnd Hp) as (names & kept & -> & Hsub & Hn & Hcase).
    assert (specs ≠ []) as Hs by by intros ->. assert (kept ≠ []) as Hk by (destruct Hcase as [[_ ->]|[Hx <-]]; [done|]; by intros ->).
    destruct (uniform_holds c bs specs kept names mem m cfg Hu Hsub Hk Hok Hm Hle Hcfg) as (need & H1 & H2 & H3).
    destruct (uniform_sized bs kept names mem cfg) as [ps Hps]; auto.
    + apply Forall_forall. intros s (x & -> & Hx)%list_elem_of_fmap. apply (proj1 (Forall_forall _ _) Hok). apply list_elem_of_fmap. exists x. auto.
    + destruct Hcase as [[_ ->]|[_ ->]]; done.
    + destruct Hcase as [[-> _]|[_ <-]]; auto.
    + exists ps, need. split_and!; try done. unfold request_blocks. destruct specs as [|[k s] specs]; [done|]. cbn [fmap list_fmap kv_cache_spec group_pages].
      apply sum_res_cons. exists need, 0. split_and!; [|done|lia]. apply num_pages_max; [by apply Forall_cons in Hok as [? _]|apply H3; by left].
Qed.

(** Only the model length changes. *)
Definition keeps {A} (m : MC A) : Prop := ∀ c, num_gpu_blocks_override (m c).2 = num_gpu_blocks_override c.

Lemma keeps_bind {A B} (m : MC A) (k : A → MC B) : keeps m → (∀ a, keeps (k a)) → keeps (bind m k).
Proof.
  intros Hm Hk c. specialize (Hm c). unfold bind. destruct (m c) as [[a|e] c1]; [|exact Hm]. cbn in Hm. by rewrite (Hk a c1), Hm.
Qed.

Lemma estimate_keeps needed mem : keeps (estimate_with needed mem).
Proof.
  assert (∀ n, keeps (fits_in_memory needed mem n)) as Hf.
  { intros n c. unfold fits_in_memory, bind, modify, gets, lift. by destruct (needed _). }
  assert (∀ fuel l r x, keeps (search_max_len fuel (fits_in_memory needed mem) l r x)) as Hs.
  { induction fuel as [|fuel IH]; intros l r x; cbn [search_max_len]; [done|]. destruct (_ <=? _); [|done]. apply keeps_bind; [apply Hf|]. intros []; apply IH. }
  apply keeps_bind; [done|]. intros n c. unfold restoring.
  assert (keeps (let! one := fits_in_memory needed mem 1 in if one then search_max_len (S (Z.to_nat n)) (fits_in_memory needed mem) 1 n 1 else ret 0)) as Hk
    by (apply keeps_bind; [apply Hf|]; intros []; [apply Hs|done]).
  specialize (Hk c). destruct (bind (fits_in_memory needed mem 1) _ c) as [r c1]. exact Hk.
Qed.

Lemma auto_fit_keeps projected mems : keeps (auto_fit_max_model_len projected mems).
Proof.
  apply keeps_bind; [done|]. intros n. destruct (forallb _ _); [done|]. destruct mems; [done|]. apply keeps_bind.
  - generalize n. induction (zip projected (z :: mems)) as [|[g m] ws IH]; intros acc; cbn [fit_workers]; [done|]. destruct (no_groups g); [apply IH|].
    apply keeps_bind; [apply estimate_keeps|]. intros r. apply IH.
  - intros r. destruct (_ <=? 0); [done|]. by destruct (_ <=? _).
Qed.

Lemma scheduler_group_pages c g g' : scheduler_group g = Ok g' → group_pages c (kv_cache_spec g') = group_pages c (kv_cache_spec g).
Proof. unfold scheduler_group. destruct (kv_cache_spec g) as [s|bs [|[n s] specs]] eqn:E; intros [= <-]; cbn; by rewrite ?E. Qed.

(** The scheduler's configuration exists and needs as many blocks. *)
Lemma scheduler_config_ok c N configs cfg need :
  configs !! 0%nat = Some cfg → Forall (λ x, num_blocks x = N) configs → request_blocks c (kv_cache_groups cfg) = Ok need →
  ∃ k, generate_scheduler_kv_cache_config configs = Ok k ∧ num_blocks k = N ∧ request_blocks c (kv_cache_groups k) = Ok need.
Proof.
  intros H0 Hall Hneed. destruct configs as [|x configs]; [done|]. injection H0 as ->. unfold generate_scheduler_kv_cache_config.
  assert (num_blocks cfg = N) as HN by by apply Forall_cons in Hall as [? _].
  assert (forallb (λ x, num_blocks x =? num_blocks cfg) (cfg :: configs) = true) as ->.
  { apply forallb_forall. intros y Hy%list_elem_of_In. apply Z.eqb_eq. rewrite HN. by apply (proj1 (Forall_forall _ _) Hall). }
  assert (∃ gs, map_res scheduler_group (kv_cache_groups cfg) = Ok gs ∧ request_blocks c gs = Ok need) as (gs & -> & Hgs).
  { clear -Hneed. unfold request_blocks in *. revert need Hneed. induction (kv_cache_groups cfg) as [|g gs IH]; intros need Hneed; [by exists []|].
    apply sum_res_cons in Hneed as (a & b & Ha & Hb & ->). destruct (IH b Hb) as (gs' & H1 & H2).
    assert (∃ g', scheduler_group g = Ok g') as [g' Hg'].
    { unfold scheduler_group. destruct (kv_cache_spec g) as [s|bs [|[n s] specs]]; cbn in Ha; try done; eauto. }
    exists (g' :: gs'). cbn [map_res]. rewrite Hg', H1. split; [done|]. apply sum_res_cons. exists a, b. split_and!; [|done|done].
    by rewrite (scheduler_group_pages c g g' Hg'). }
  exists (MkKVCacheConfig (num_blocks cfg) (kv_cache_tensors cfg) gs). done.
Qed.

Lemma config_groups override groups mem cfg : get_kv_cache_config_from_groups override groups mem = Ok cfg → kv_cache_groups cfg = groups.
Proof.
  unfold get_kv_cache_config_from_groups. destruct groups as [|g gs]; [by intros [= <-]|]. destruct (sole_uniform_type _) as [[[names bs] specs]|].
  - by intros (p & _ & (n & _ & (t & _ & [= <-])%res_bind_ok)%res_bind_ok)%res_bind_ok.
  - intros (p & _ & (n & _ & H)%res_bind_ok)%res_bind_ok. destruct (negb _); [done|]. by apply res_bind_ok in H as (k & _ & [= <-]).
Qed.

Lemma shrink_groups c N cfg cfg' : shrink_config c N cfg = Ok cfg' → kv_cache_groups cfg' = kv_cache_groups cfg ∧ num_blocks cfg' = N.
Proof.
  unfold shrink_config. intros (ts & _ & H)%res_bind_ok. cbn [kv_cache_groups] in H. destruct (no_groups _); [by injection H as <-|].
  by apply res_bind_ok in H as (? & _ & [= <-]).
Qed.

Lemma sized_total groups mem cfg ps : sized groups mem cfg ps → foldr Z.add 0 (tensor_size <$> kv_cache_tensors cfg) ≤ mem.
Proof.
  intros [_ _ Hp Hm _ _]. enough (foldr Z.add 0 (tensor_size <$> kv_cache_tensors cfg) = foldr Z.add 0 ps * num_blocks cfg) by lia.
  clear Hm. induction Hp as [|t p ts ps [_ Ht] _ IH]; [done|]. cbn. rewrite IH, Ht. lia.
Qed.

(** What the first three parts of [get_kv_cache_configs] establish for every
    worker [i]: its groups [pg], its memory and its configuration. *)
Record worker_view (c : VllmConfig) (groups : list KVCacheGroupSpec) (w : Specs) (mem : Z) (cfg : KVCacheConfig) : Prop := {
  wv_layers : concat (layer_names <$> kv_cache_groups cfg) ≡ₚ w.*1;
  wv_empty : groups = [] → cfg = MkKVCacheConfig 1 [] [];
  wv_sized : groups ≠ [] → ∃ ps need, sized (kv_cache_groups cfg) mem cfg ps ∧ request_blocks c groups = Ok need ∧
    request_blocks c (kv_cache_groups cfg) = Ok need ∧ need ≤ num_blocks cfg;
}.

Lemma worker_view_ok c groups w pg mem cfg names :
  grouping groups → NoDup names → concat (layer_names <$> groups) ≡ₚ names → NoDup w.*1 → (∀ n, n ∈ w.*1 → n ∈ names) →
  project_kv_cache_groups_to_worker groups w = Ok pg →
  (pg ≠ [] → 0 < mem ∧ ∃ m, max_memory_usage_bytes_from_groups c pg = Ok m ∧ m ≤ mem) →
  worker_config None (pg, (w, mem)) = Ok cfg → worker_view c groups w mem cfg.
Proof.
  intros Hg Hnd Hp Hw Hsub Hpr Hfit H. unfold worker_config in H. cbn [fst snd] in H. destruct (_ =? _); [|done].
  pose proof (config_groups None pg mem cfg H) as Hcg. split.
  - rewrite Hcg. eapply (project_partition groups w pg names); eauto.
  - intros ->. injection Hpr as <-. by injection H as <-.
  - intros Hne. assert (pg ≠ []) as Hpg by (intros ->; apply map_res_ok in Hpr; inversion Hpr; subst; done).
    destruct (Hfit Hpg) as (Hmem & m & Hm & Hle). rewrite Hcg. by eapply worker_sized.
Qed.

(** The assertion that every layer is in a group holds. *)
Lemma worker_config_counts groups w pg mem names :
  NoDup names → concat (layer_names <$> groups) ≡ₚ names → NoDup w.*1 → (∀ n, n ∈ w.*1 → n ∈ names) →
  project_kv_cache_groups_to_worker groups w = Ok pg → worker_config None (pg, (w, mem)) = get_kv_cache_config_from_groups None pg mem.
Proof.
  intros Hnd Hp Hw Hsub Hpr. unfold worker_config. cbn [fst snd]. rewrite sum_lengths.
  assert (len (concat (layer_names <$> pg)) = len w) as ->; [|by rewrite Z.eqb_refl].
  unfold len. rewrite (project_partition groups w pg names) by done. by rewrite length_fmap.
Qed.

(** The parts of a successful run. *)
Lemma configs_run c specs mems configs c' :
  num_gpu_blocks_override c = None → length specs = length mems → Forall (λ w, NoDup w.*1 ∧ Forall layer_ok w.*2) specs →
  get_kv_cache_configs specs mems c = (Ok configs, c') →
  ∃ groups configs0 N, Forall2 (λ cfg0 cfg, shrink_config (spec_config c') N cfg0 = Ok cfg) configs0 configs ∧
    py_min (num_blocks <$> configs0) = Ok N ∧ length configs0 = length specs ∧
    ∀ i w mem cfg0, specs !! i = Some w → mems !! i = Some mem → configs0 !! i = Some cfg0 → worker_view (spec_config c') groups w mem cfg0.
Proof.
  intros Hov Hlen Hok H. unfold get_kv_cache_configs in H.
  apply bind_inv in H as (merged & ? & [= Hm <-] & H). apply bind_inv in H as (dis & ? & [= <- <-] & H).
  apply bind_inv in H as (groups & ? & [= Hg <-] & H). apply bind_inv in H as (projected & ? & [= Hp <-] & H).
  apply bind_inv in H as (auto & ? & [= <- <-] & H). apply bind_inv in H as ([] & c1 & Hauto & H).
  apply bind_inv in H as ([] & c2 & Hcheck & H). apply bind_inv in H as (ov & ? & [= <- <-] & H).
  apply bind_inv in H as (configs0 & ? & [= Hc <-] & H). apply bind_inv in H as (N & ? & [= HN <-] & H).
  apply bind_inv in H as (vc & ? & [= <- <-] & H). injection H as Hs <-.
  apply check_workers_ok in Hcheck as [-> Hfit].
  assert (num_gpu_blocks_override c1 = None) as Hov1.
  { destruct (original_max_model_len c =? -1); [|by injection Hauto as <-]. pose proof (auto_fit_keeps projected mems c) as Hk. rewrite Hauto in Hk. by rewrite <-Hov, <-Hk. }
  destruct (get_kv_cache_groups (disable_hybrid_kv_cache_manager c) merged) as [r d'] eqn:Eg. cbn in Hg. subst r.
  destruct (merge_workers_ok specs [] merged ltac:(constructor) Hm) as (Hnd & Hkeys & Horig).
  assert (Forall layer_ok merged.*2) as Hlok.
  { apply Forall_forall. intros s (x & -> & Hx)%list_elem_of_fmap. apply Horig in Hx as [Hx|(w & Hw & Hx)]; [by apply elem_of_nil in Hx|].
    apply (proj1 (Forall_forall _ _) Hok) in Hw as [_ Hw]. apply (proj1 (Forall_forall _ _) Hw). apply list_elem_of_fmap. by exists x. }
  destruct (groups_of_specs _ _ _ _ Hnd Hlok Eg) as (Hperm & _ & Hgr).
  exists groups, configs0, N. apply map_res_ok in Hs, Hc, Hp. split_and!; [exact Hs|done| |].
  - apply Forall2_length in Hc, Hp. rewrite !length_zip_with in Hc. lia.
  - intros i w mem cfg0 Hw Hmem Hcfg. destruct (Forall2_lookup_l _ _ _ _ _ Hp Hw) as (pg & Hpg & Hpr).
    destruct (Forall2_lookup_r _ _ _ _ _ Hc Hcfg) as (x & Hx & Hwc). apply lookup_zip_with_Some in Hx as (pg' & y & -> & Hpg' & Hy).
    apply lookup_zip_with_Some in Hy as (w' & mem' & -> & Hw' & Hmem'). simplify_eq. rewrite Hov1 in Hwc.
    pose proof (proj1 (Forall_forall _ _) Hok w (list_elem_of_lookup_2 _ _ _ Hw)) as [Hwnd _].
    apply (worker_view_ok _ groups w pg mem cfg0 merged.*1); auto.
    + intros n Hn. apply Hkeys. right. exists w. split; [by eapply list_elem_of_lookup_2|done].
    + intros Hne. apply (Hfit pg mem); [|done]. apply (list_elem_of_lookup_2 _ i). apply lookup_zip_with_Some. eauto.
Qed.

(** The smallest number of blocks holds a request. *)
Lemma min_holds c groups N (configs0 : list KVCacheConfig) cfgN :
  N = num_blocks cfgN → cfgN ∈ configs0 → (∀ cfg, cfg ∈ configs0 → ∃ w mem, worker_view c groups w mem cfg) →
  ∃ need, 0 ≤ N ∧ need ≤ N ∧ ∀ cfg, cfg ∈ configs0 → request_blocks c (kv_cache_groups cfg) = Ok need.
Proof.
  intros -> Hin Hv. destruct (Hv cfgN Hin) as (w & mem & [_ Hempty Hsized]). destruct groups as [|g0 gs].
  - exists 0. rewrite (Hempty eq_refl). cbn. split_and!; [lia|lia|]. intros cfg (w' & mem' & [_ He _])%Hv. by rewrite (He eq_refl).
  - destruct (Hsized ltac:(done)) as (ps & need & Hps & Hneed & _ & Hle). exists need. split_and!; [apply Hps|done|].
    intros cfg (w' & mem' & [_ _ Hs])%Hv. destruct (Hs ltac:(done)) as (ps' & need' & _ & Hneed' & Hx & _). rewrite Hneed in Hneed'. by injection Hneed' as ->.
Qed.

Lemma configs_sound c specs mems configs c' :
  num_gpu_blocks_override c = None → length specs = length mems → Forall (λ w, NoDup w.*1 ∧ Forall layer_ok w.*2) specs →
  get_kv_cache_configs specs mems c = (Ok configs, c') →
  (∃ k need, generate_scheduler_kv_cache_config configs = Ok k ∧ request_blocks (spec_config c') (kv_cache_groups k) = Ok need ∧
     need ≤ num_blocks k ∧ Forall (λ cfg, num_blocks cfg = num_blocks k) configs) ∧
  length configs = length specs ∧
  ∀ i cfg w mem, configs !! i = Some cfg → specs !! i = Some w → mems !! i = Some mem → kv_cache_groups cfg ≠ [] →
    concat (shared_by <$> kv_cache_tensors cfg) ≡ₚ w.*1 ∧ foldr Z.add 0 (tensor_size <$> kv_cache_tensors cfg) ≤ mem ∧
    ∀ g n, g ∈ kv_cache_groups cfg → n ∈ layer_names g → ∃ t p, t ∈ kv_cache_tensors cfg ∧ n ∈ shared_by t ∧
      layer_page (kv_cache_spec g) n = Ok p ∧ tensor_size t = p * num_blocks cfg.
Proof.
  intros Hov Hlen Hok H. destruct (configs_run c specs mems configs c' Hov Hlen Hok H) as (groups & configs0 & N & Hs & HN & Hl0 & Hview). clear Hok H.
  assert (∀ i cfg0, configs0 !! i = Some cfg0 → ∃ w mem, worker_view (spec_config c') groups w mem cfg0) as Hv.
  { intros i cfg0 Hi. pose proof (lookup_lt_Some _ _ _ Hi) as Hlt. destruct (lookup_lt_is_Some_2 specs i) as [w Hw]; [lia|].
    destruct (lookup_lt_is_Some_2 mems i) as [mem Hmem]; [lia|]. exists w, mem. by apply (Hview i). }
  apply py_min_ok in HN as [HNin HNle]. apply list_elem_of_fmap in HNin as (cfgN & HN & [j Hj]%list_elem_of_lookup).
  destruct (min_holds (spec_config c') groups N configs0 cfgN) as (need & HN0 & Hneed & Hall); [done|by eapply list_elem_of_lookup_2| |].
  { intros cfg0 [i Hi]%list_elem_of_lookup. by eapply Hv. }
  assert (∀ i cfg, configs !! i = Some cfg → ∃ cfg0, configs0 !! i = Some cfg0 ∧ shrink_config (spec_config c') N cfg0 = Ok cfg) as Hback.
  { intros i cfg Hi. by destruct (Forall2_lookup_r _ _ _ _ _ Hs Hi) as (cfg0 & ? & ?); eauto. }
  assert (Forall (λ cfg, num_blocks cfg = N) configs) as HallN.
  { apply Forall_forall. intros cfg [i Hi]%list_elem_of_lookup. destruct (Hback i cfg Hi) as (cfg0 & _ & Hx). by apply shrink_groups in Hx as [_ ?]. }
  split_and!.
  - destruct configs0 as [|x0 configs0]; [done|]. destruct configs as [|x configs]; [inversion Hs|].
    destruct (Hback 0%nat x eq_refl) as (cfg0 & [= <-] & Hx). apply shrink_groups in Hx as [Hxg _].
    destruct (scheduler_config_ok (spec_config c') N (x :: configs) x need) as (k & Hk & HkN & Hkr); [done|done|rewrite Hxg; apply Hall; by left|].
    exists k, need. rewrite HkN. auto.
  - apply Forall2_length in Hs. lia.
  - intros i cfg w mem Hi Hw Hmem Hne. destruct (Hback i cfg Hi) as (cfg0 & Hi0 & Hx). pose proof (shrink_groups _ _ _ _ Hx) as [Hxg _].
    pose proof (Hview i w mem cfg0 Hw Hmem Hi0) as [Hlayers Hempty Hsized]. destruct groups as [|g0 gs]; [rewrite Hempty in Hxg by done; done|].
    destruct (Hsized ltac:(done)) as (ps & _ & Hps & _). apply (shrink_sized (spec_config c') _ _ _ _ N cfg) in Hps as [Hps _]; [| |done].
    2: { split; [done|]. apply HNle, list_elem_of_fmap. exists cfg0. split; [done|]. by eapply list_elem_of_lookup_2. }
    split_and!; [by rewrite (sz_layers _ _ _ _ Hps)|by eapply sized_total|]. intros g n Hg Hn. rewrite Hxg in Hg.
    destruct (sz_tensor _ _ _ _ Hps g n Hg Hn) as (q & t & p & Ht & Hp & Hin & Hpage). exists t, p.
    destruct (Forall2_lookup_l _ _ _ _ _ (sz_pages _ _ _ _ Hps) Ht) as (p' & Hp' & _ & Hsz). simplify_eq. split_and!; try done. by eapply list_elem_of_lookup_2.
Qed.

(** C13.  Sizing the KV cache is sound: when [get_kv_cache_configs] returns (no
    override of the number of blocks), all workers and the scheduler get the
    same number of blocks, at least as many as one request of the maximal
    length needs in all groups together (the null block, which the pool sets
    aside, is not counted in addition); on every worker with a KV cache each
    layer lies in exactly one tensor, every tensor has a page of the right size
    for every block, and all tensors fit into the memory of the worker. *)
Theorem kv_cache_configs_sound c specs mems configs c' :
  num_gpu_blocks_override c = None → length specs = length mems → Forall (λ w, NoDup w.*1 ∧ Forall layer_ok w.*2) specs →
  get_kv_cache_configs specs mems c = (Ok configs, c') →
  (∃ k need, generate_scheduler_kv_cache_config configs = Ok k ∧ request_blocks (spec_config c') (kv_cache_groups k) = Ok need ∧
     need ≤ num_blocks k ∧ Forall (λ cfg, num_blocks cfg = num_blocks k) configs) ∧
  length configs = length specs ∧
  ∀ i cfg w mem, configs !! i = Some cfg → specs !! i = Some w → mems !! i = Some mem → kv_cache_groups cfg ≠ [] →
    concat (shared_by <$> kv_cache_tensors cfg) ≡ₚ w.*1 ∧ foldr Z.add 0 (tensor_size <$> kv_cache_tensors cfg) ≤ mem ∧
    ∀ g n, g ∈ kv_cache_groups cfg → n ∈ layer_names g → ∃ t p, t ∈ kv_cache_tensors cfg ∧ n ∈ shared_by t ∧
      layer_page (kv_cache_spec g) n = Ok p ∧ tensor_size t = p * num_blocks cfg.
Proof. apply configs_sound. Qed.

(** C32.  Grouping is a partition: the groups [get_kv_cache_groups] returns hold
    every layer exactly once, none is empty, and when there are several they
    have one page size, so that a block of the pool serves any of them. *)
Theorem groups_partition_layers dis d groups d' :
  NoDup d.*1 → Forall layer_ok d.*2 → get_kv_cache_groups dis d = (Ok groups, d') →
  concat (layer_names <$> groups) ≡ₚ d.*1 ∧ Forall (λ g, layer_names g ≠ []) groups ∧
  ((2 ≤ length groups)%nat → ∃ P, 0 < P ∧ Forall (λ g, group_page_size_bytes (kv_cache_spec g) = Ok P) groups).
Proof.
  intros Hnd Hok H. destruct (groups_of_specs dis d groups d' Hnd Hok H) as (H1 & H2 & H3). split_and!; [done|done|]. intros Hlen.
  destruct H3 as [->|[[_ (P & HP & Hl)]|(bs & specs & -> & _)]]; [cbn in Hlen; lia| |cbn in Hlen; lia].
  exists P. split; [done|]. eapply Forall_impl; [exact Hl|]. intros g (s & -> & _ & Hp). exact Hp.
Qed.

(** ** Concrete models *)

Definition quantized (m : KVQuantMode) : AttentionFields := MkAttention 8 128 bf16 m None.
Definition full_layer (m : KVQuantMode) : KVCacheSpec := FullAttentionSpec 16 (quantized m) (MkFull 128 None None).
Definition window_layer (m : KVQuantMode) (window : Z) : KVCacheSpec := SlidingWindowSpec 16 (quantized m) window.

Definition hybrid_layers : Specs :=
  [("full.0", full_layer QUANT_NONE); ("sw.0", window_layer QUANT_NONE 512); ("sw.1", window_layer QUANT_NONE 512); ("sw.2", window_layer QUANT_NONE 512)].
Definition stage0 : Specs := take 2 hybrid_layers.
Definition stage1 : Specs := ("full.1", full_layer QUANT_NONE) :: drop 2 hybrid_layers.
Definition plain_config (len original : Z) : Config := MkConfig (MkVllmConfig len 1 1 512 0 "none") original false None.

Lemma stage_layers_ok : Forall (λ w, NoDup w.*1 ∧ Forall layer_ok w.*2) [stage0; stage1].
Proof.
  repeat constructor; try (cbn; lia); try (eexists; split; [vm_compute; reflexivity|lia]); cbn;
    repeat (apply not_elem_of_cons; split; [discriminate|]); apply not_elem_of_nil.
Qed.

(** Two pipeline stages with different memory. *)
Lemma kv_cache_configs_sound_witness : ∃ configs k need,
  (get_kv_cache_configs [stage0; stage1] [100000000; 80000000] (plain_config 4096 4096)).1 = Ok configs ∧
  generate_scheduler_kv_cache_config configs = Ok k ∧ request_blocks (spec_config (plain_config 4096 4096)) (kv_cache_groups k) = Ok need ∧ need ≤ num_blocks k.
Proof.
  destruct (get_kv_cache_configs [stage0; stage1] [100000000; 80000000] (plain_config 4096 4096)) as [r c'] eqn:E.
  pose proof (f_equal fst E) as E1. pose proof (f_equal snd E) as E2. vm_compute in E1, E2. cbn in E1, E2. subst r c'. eexists _.
  destruct (kv_cache_configs_sound (plain_config 4096 4096) [stage0; stage1] [100000000; 80000000] _ _ eq_refl eq_refl stage_layers_ok E)
    as ((k & need & H1 & H2 & H3 & _) & _).
  exists k, need. split; [reflexivity|]. split; [exact H1|]. split; [exact H2|exact H3].
Defined.

Lemma groups_partition_layers_witness : ∃ groups,
  (get_kv_cache_groups false hybrid_layers).1 = Ok groups ∧ concat (layer_names <$> groups) ≡ₚ ["full.0"; "sw.0"; "sw.1"; "sw.2"].
Proof.
  destruct (get_kv_cache_groups false hybrid_layers) as [r d'] eqn:E. pose proof (f_equal fst E) as E1. vm_compute in E1. cbn in E1. subst r.
  eexists. split; [reflexivity|]. apply (groups_partition_layers false hybrid_layers _ d').
  - repeat constructor; cbn; repeat (apply not_elem_of_cons; split; [discriminate|]); apply not_elem_of_nil.
  - repeat constructor; try (cbn; lia); (eexists; split; [vm_compute; reflexivity|lia]).
  - exact E.
Defined.

Definition one_group : list KVCacheGroupSpec := [MkGroup ["full.0"] (LayerSpec (full_layer QUANT_NONE))].

Lemma auto_fit_exact_witness : ∃ n,
  (auto_fit_max_model_len [one_group] [1000000] (plain_config 4096 (-1))).2 = set_max_model_len n (plain_config 4096 (-1)) ∧ 1 ≤ n.
Proof.
  pose proof (auto_fit_exact (plain_config 4096 (-1)) [one_group] [1000000] ltac:(cbn; lia) eq_refl ltac:(by left)) as H.
  destruct (auto_fit_max_model_len [one_group] [1000000] (plain_config 4096 (-1))) as [r c'] eqn:E. pose proof (f_equal fst E) as E1. vm_compute in E1.
  cbn in E1. subst r. destruct H as (n & -> & Hn & _).
  - repeat constructor; try (cbn; lia); [eexists; split; [vm_compute; reflexivity|lia]|]. exists 1. eexists. vm_compute. reflexivity.
  - exists n. split; [reflexivity|lia].
Defined.

(** ** Behaviour that is not intended *)

(** Turning a sliding-window layer into a full-attention layer forgets its
    quantization: the scales of the layer, which share the memory of its pages,
    are no longer paid for. *)
Theorem unify_drops_quant_mode :
  let d := [("full", full_layer INT8_PER_TOKEN_HEAD); ("sw", window_layer INT8_PER_TOKEN_HEAD 512)] in
  ∃ d' s, unify_hybrid_kv_cache_specs d = (Ok tt, d') ∧ spec_at d' "sw" = Ok s ∧
    page_size_bytes (window_layer INT8_PER_TOKEN_HEAD 512) = Ok 66560 ∧ page_size_bytes s = Ok 65536 ∧
    from_specs d' = Ok (Some (UniformTypeKVCacheSpecs 16 d')).
Proof. eexists _, _. do 4 (split; [vm_compute; reflexivity|]). vm_compute. reflexivity. Qed.

(** A Mamba layer whose state divides the largest page cannot be enlarged by
    its block size; the failure is an AssertionError. *)
Theorem unify_mamba_asserts :
  let mamba := MambaSpec 16 (MkMamba [[128; 128]] [bf16] None "mamba2" "none" 0) in
  page_size_bytes mamba = Ok 32768 ∧ page_size_bytes (full_layer QUANT_NONE) = Ok 65536 ∧
  unify_kv_cache_spec_page_size [("full", full_layer QUANT_NONE); ("mamba", mamba)] = Raise AssertionError.
Proof. done. Qed.

(** Full-attention layers with different windows (as [unify_hybrid_kv_cache_specs]
    makes them) are one type, but the test for equal specs raises ValueError
    before the test for equal types is made. *)
Theorem two_windows_raise :
  let d := [("full", full_layer QUANT_NONE); ("sw.0", window_layer QUANT_NONE 512); ("sw.1", window_layer QUANT_NONE 1024)] in
  (unify_hybrid_kv_cache_specs d).1 = Raise ValueError ∧ is_uniform_type (unify_hybrid_kv_cache_specs d).2 = Ok true.
Proof. done. Qed.

(** A pipeline stage without attention layers fails an assertion. *)
Theorem stage_without_layers_asserts :
  (get_kv_cache_configs [[("full", full_layer QUANT_NONE)]; []] [100000000; 100000000] (plain_config 4096 4096)).1 = Raise AssertionError.
Proof. done. Qed.
