(* ===== verification/SingleTypeManager.v ===== *)
(** * Single-type KV-cache managers (vllm/v1/core/single_type_kv_cache_manager.py)

    One manager per KV-cache group: it maps requests to the blocks they hold.
    The class hierarchy is a [ManagerClass] tag; each method is the base-class
    body plus the overrides, dispatched on the tag.  A manager and the shared
    block pool form the state of every method. *)

From S2P Require Import Prelude FreeQueue RequestModel BlockHash BlockPool KVCacheInterface.

(** ** Data *)

Inductive ManagerClass :=
  | FullAttentionManager
  | SlidingWindowManager
  | ChunkedLocalAttentionManager
  | MambaManager
  | CrossAttentionManager
  | SinkFullAttentionManager.

#[global] Instance ManagerClass_eq_dec : EqDecision ManagerClass.
Proof. solve_decision. Defined.

(** [spec_manager_map]; a missing key is a [KeyError]. *)
Definition spec_manager_map (s : KVCacheSpec) : option ManagerClass :=
  match s with
  | FullAttentionSpec _ _ _ | TQFullAttentionSpec _ _ _ _ | MLAAttentionSpec _ _ _ _ => Some FullAttentionManager
  | SlidingWindowSpec _ _ _ => Some SlidingWindowManager
  | ChunkedLocalAttentionSpec _ _ _ => Some ChunkedLocalAttentionManager
  | MambaSpec _ _ => Some MambaManager
  | CrossAttentionSpec _ _ => Some CrossAttentionManager
  | SinkFullAttentionSpec _ _ _ _ => Some SinkFullAttentionManager
  | EncoderOnlyAttentionSpec _ _ => None
  end.

(** The attributes of a manager; the last four belong to the Mamba and sink
    managers. *)
Record Manager := MkManager {
  m_block_size : Z;
  m_spec : KVCacheSpec;
  m_class : ManagerClass;
  m_enable_caching : bool;
  new_block_ids : list Z;
  req_to_blocks : gmap string (list ref);
  num_cached_block : gmap string Z;
  kv_cache_group_id : Z;
  m_null_block : ref;
  cached_blocks_this_step : gset bytes;
  last_state_block_idx : gmap string Z;
  allocated_block_reqs : gset string;
  sink_blocks : list ref;
}.

Definition set_new_block_ids (v : list Z) (m : Manager) : Manager :=
  MkManager (m_block_size m) (m_spec m) (m_class m) (m_enable_caching m) v (req_to_blocks m)
    (num_cached_block m) (kv_cache_group_id m) (m_null_block m) (cached_blocks_this_step m)
    (last_state_block_idx m) (allocated_block_reqs m) (sink_blocks m).
Definition set_req_to_blocks (v : gmap string (list ref)) (m : Manager) : Manager :=
  MkManager (m_block_size m) (m_spec m) (m_class m) (m_enable_caching m) (new_block_ids m) v
    (num_cached_block m) (kv_cache_group_id m) (m_null_block m) (cached_blocks_this_step m)
    (last_state_block_idx m) (allocated_block_reqs m) (sink_blocks m).
Definition set_num_cached_block (v : gmap string Z) (m : Manager) : Manager :=
  MkManager (m_block_size m) (m_spec m) (m_class m) (m_enable_caching m) (new_block_ids m) (req_to_blocks m)
    v (kv_cache_group_id m) (m_null_block m) (cached_blocks_this_step m)
    (last_state_block_idx m) (allocated_block_reqs m) (sink_blocks m).
Definition set_cached_this_step (v : gset bytes) (m : Manager) : Manager :=
  MkManager (m_block_size m) (m_spec m) (m_class m) (m_enable_caching m) (new_block_ids m) (req_to_blocks m)
    (num_cached_block m) (kv_cache_group_id m) (m_null_block m) v
    (last_state_block_idx m) (allocated_block_reqs m) (sink_blocks m).
Definition set_last_state (v : gmap string Z) (m : Manager) : Manager :=
  MkManager (m_block_size m) (m_spec m) (m_class m) (m_enable_caching m) (new_block_ids m) (req_to_blocks m)
    (num_cached_block m) (kv_cache_group_id m) (m_null_block m) (cached_blocks_this_step m)
    v (allocated_block_reqs m) (sink_blocks m).
Definition set_allocated_reqs (v : gset string) (m : Manager) : Manager :=
  MkManager (m_block_size m) (m_spec m) (m_class m) (m_enable_caching m) (new_block_ids m) (req_to_blocks m)
    (num_cached_block m) (kv_cache_group_id m) (m_null_block m) (cached_blocks_this_step m)
    (last_state_block_idx m) v (sink_blocks m).

(** A manager with the pool it shares. *)
Abbreviation MS := (Manager * BlockPool)%type.

Definition on_pool {A} (m : M BlockPool A) : M MS A := zoom snd (λ p s, (s.1, p)) m.
Definition mod_mgr (f : Manager → Manager) : M MS unit := modify (λ s, (f s.1, s.2)).
Definition get_mgr : M MS Manager := gets fst.

(** [self.req_to_blocks[request_id]] on a defaultdict inserts the empty list. *)
Definition get_req_blocks (request_id : string) : M MS (list ref) :=
  let! m := get_mgr in
  match req_to_blocks m !! request_id with
  | Some bs => ret bs
  | None => mod_mgr (λ m, set_req_to_blocks (<[request_id := []]> (req_to_blocks m)) m) ;;; ret []
  end.
Definition put_req_blocks (request_id : string) (bs : list ref) : M MS unit :=
  mod_mgr (λ m, set_req_to_blocks (<[request_id := bs]> (req_to_blocks m)) m).

(** [len(self.req_to_blocks.get(request_id, ()))] *)
Definition num_req_blocks_of (m : Manager) (request_id : string) : Z :=
  len (default [] (req_to_blocks m !! request_id)).

(** ** Construction *)

(** [SinkFullAttentionManager.__init__]: the sink blocks leave the free queue. *)
Definition sink_blocks_init (sink_len : option Z) (bs : Z) : M BlockPool (list ref) :=
  match sink_len with
  | None => raise AssertionError
  | Some l => py_assert ((0 <? l) && (l mod bs =? 0)) ;;; on_queue (popleft_n (l / bs))
  end.

(** [SingleTypeKVCacheManager.__init__], [get_manager_for_kv_cache_spec] *)
Definition new_manager (spec : KVCacheSpec) (enable_caching : bool) (group_id dcp pcp : Z) : M BlockPool Manager :=
  match spec_manager_map spec with
  | None => raise KeyError
  | Some cls =>
      let! p := gets id in
      let bs := if 1 <? dcp * pcp then block_size spec * (dcp * pcp) else block_size spec in
      let mk sinks := MkManager bs spec cls enable_caching [] ∅ ∅ group_id (null_block p) ∅ ∅ ∅ sinks in
      match spec with
      | SinkFullAttentionSpec _ _ _ sink_len =>
          let! sinks := sink_blocks_init sink_len bs in
          ret (mk sinks)
      | _ => ret (mk [])
      end
  end.

(** ** Skipped tokens *)

(** Tokens before the window of the next token. *)
Definition sw_num_skipped_tokens (sliding_window num_computed_tokens : Z) : Z :=
  Z.max 0 (num_computed_tokens - sliding_window + 1).
#[global] Arguments sw_num_skipped_tokens _ _ /.

(** Tokens before the chunk of the next token. *)
Definition chunked_num_skipped_tokens (attention_chunk_size num_computed_tokens : Z) : Z :=
  num_computed_tokens / attention_chunk_size * attention_chunk_size.
#[global] Arguments chunked_num_skipped_tokens _ _ /.

(** Only the last state is needed. *)
Definition mamba_num_skipped_tokens (num_computed_tokens : Z) : Z := num_computed_tokens - 1.
#[global] Arguments mamba_num_skipped_tokens _ /.

(** [get_num_skipped_tokens]: none in the base class. *)
Definition get_num_skipped_tokens (m : Manager) (num_computed_tokens : Z) : Z :=
  match m_class m, m_spec m with
  | SlidingWindowManager, SlidingWindowSpec _ _ w => sw_num_skipped_tokens w num_computed_tokens
  | ChunkedLocalAttentionManager, ChunkedLocalAttentionSpec _ _ c => chunked_num_skipped_tokens c num_computed_tokens
  | MambaManager, _ => mamba_num_skipped_tokens num_computed_tokens
  | _, _ => 0
  end.

(** ** Capacity *)

(** [_get_num_evictable_blocks]: blocks with count zero that are not null. *)
Definition get_num_evictable_blocks (p : BlockPool) (bs : list ref) : Z :=
  len (filter (λ r, is_freed (heap (free_block_queue p)) r = true) bs).

(** [SingleTypeKVCacheManager.get_num_blocks_to_allocate] *)
Definition base_num_blocks_to_allocate (request_id : string) (num_tokens : Z) (new_computed_blocks : list ref)
    (total_computed_tokens : Z) : M MS Z :=
  let! m := get_mgr in
  let! p := gets snd in
  let num_required_blocks := cdiv num_tokens (m_block_size m) in
  let num_req_blocks := num_req_blocks_of m request_id in
  match num_cached_block m !! request_id with
  | Some _ =>
      py_assert (len new_computed_blocks =? 0) ;;;
      ret (Z.max (num_required_blocks - num_req_blocks) 0)
  | None =>
      let num_skipped_tokens := get_num_skipped_tokens m total_computed_tokens in
      let num_local_computed_blocks := len new_computed_blocks + num_req_blocks in
      let num_skipped_blocks := num_skipped_tokens / m_block_size m in
      let num_new_blocks :=
        Z.max (num_required_blocks - Z.max num_skipped_blocks num_local_computed_blocks) 0 in
      let num_skipped_new_computed_blocks := Z.max 0 (num_skipped_blocks - num_req_blocks) in
      ret (num_new_blocks +
           get_num_evictable_blocks p (py_slice_from new_computed_blocks num_skipped_new_computed_blocks))
  end.

Definition mamba_fields (s : KVCacheSpec) : MambaFields :=
  match s with MambaSpec _ m => m | _ => MkMamba [] [] None "" "" 0 end.
Definition num_spec_blocks (m : Manager) : Z := num_speculative_blocks (mamba_fields (m_spec m)).
Definition align_mode (m : Manager) : bool := String.eqb (mamba_cache_mode (mamba_fields (m_spec m))) "align".

(** [new_computed_blocks[-1].block_hash in self.cached_blocks_this_step] *)
Definition hit_this_step (m : Manager) (p : BlockPool) (new_computed_blocks : list ref) : bool :=
  match last new_computed_blocks with
  | None => false
  | Some r =>
      match heap (free_block_queue p) !! r ≫= block_hash with
      | Some h => bool_decide (h ∈ cached_blocks_this_step m)
      | None => false
      end
  end.

(** [MambaManager.get_num_blocks_to_allocate] *)
Definition mamba_num_blocks_to_allocate (request_id : string) (num_tokens : Z) (new_computed_blocks : list ref)
    (total_computed_tokens num_tokens_main_model : Z) : M MS Z :=
  let! m := get_mgr in
  let! p := gets snd in
  if hit_this_step m p new_computed_blocks then ret (num_gpu_blocks p + 1)
  else if negb (align_mode m) then
    let num_tokens :=
      if 0 <? num_spec_blocks m then num_tokens + block_size (m_spec m) * num_spec_blocks m else num_tokens in
    base_num_blocks_to_allocate request_id num_tokens new_computed_blocks total_computed_tokens
  else
    let num_required_blocks := cdiv num_tokens_main_model (m_block_size m) + num_spec_blocks m in
    let! req := get_req_blocks request_id in
    let num_new_blocks := num_required_blocks - len new_computed_blocks - len req in
    let num_new_blocks :=
      if 0 <? num_new_blocks then
        (if bool_decide (request_id ∈ allocated_block_reqs m) then 1 else 1 + num_spec_blocks m)
      else num_new_blocks in
    ret (num_new_blocks + get_num_evictable_blocks p new_computed_blocks).

(** [get_num_blocks_to_allocate] *)
Definition get_num_blocks_to_allocate (request_id : string) (num_tokens : Z) (new_computed_blocks : list ref)
    (total_computed_tokens num_tokens_main_model : Z) : M MS Z :=
  let! m := get_mgr in
  match m_class m with
  | MambaManager =>
      mamba_num_blocks_to_allocate request_id num_tokens new_computed_blocks total_computed_tokens num_tokens_main_model
  | _ => base_num_blocks_to_allocate request_id num_tokens new_computed_blocks total_computed_tokens
  end.

(** ** Allocation *)

(** [self.new_block_ids.extend(...)], for plain full attention only. *)
Definition record_new_ids (bs : list ref) : M MS unit :=
  let! p := gets snd in
  mod_mgr (λ m,
    match m_spec m with
    | FullAttentionSpec _ _ _ | TQFullAttentionSpec _ _ _ _ =>
        set_new_block_ids (new_block_ids m ++ (id_in (heap (free_block_queue p)) <$> bs)) m
    | _ => m
    end).

(** [allocate_new_computed_blocks] *)
Definition base_allocate_new_computed_blocks (request_id : string) (new_computed_blocks : list ref)
    (num_local_computed_tokens num_external_computed_tokens : Z) : M MS unit :=
  let! m := get_mgr in
  match num_cached_block m !! request_id with
  | Some _ => py_assert (len new_computed_blocks =? 0)
  | None =>
      let! req_blocks := get_req_blocks request_id in
      py_assert (len req_blocks =? 0) ;;;
      let num_total_computed_tokens := num_local_computed_tokens + num_external_computed_tokens in
      let num_skipped_tokens := get_num_skipped_tokens m num_total_computed_tokens in
      let num_skipped_blocks := num_skipped_tokens / m_block_size m in
      let skip := 0 <? num_skipped_blocks in
      let computed := if skip then py_slice_from new_computed_blocks num_skipped_blocks else new_computed_blocks in
      let external := if skip then Z.min (num_total_computed_tokens - num_skipped_tokens) num_external_computed_tokens
                      else num_external_computed_tokens in
      (if m_enable_caching m then on_pool (touch computed)
       else py_assert (len computed =? 0)) ;;;
      let req_blocks := req_blocks ++ py_repeat (m_null_block m) num_skipped_blocks ++ computed in
      put_req_blocks request_id req_blocks ;;;
      mod_mgr (λ m, set_num_cached_block (<[request_id := len req_blocks]> (num_cached_block m)) m) ;;;
      if 0 <? external then
        let! allocated := on_pool (get_new_blocks (cdiv num_total_computed_tokens (m_block_size m) - len req_blocks)) in
        put_req_blocks request_id (req_blocks ++ allocated) ;;;
        record_new_ids allocated
      else ret tt
  end.
(** [CrossAttentionManager.allocate_new_computed_blocks] *)
Definition cross_allocate_new_computed_blocks (new_computed_blocks : list ref) : M MS unit :=
  py_assert (len new_computed_blocks =? 0).
Definition allocate_new_computed_blocks (request_id : string) (new_computed_blocks : list ref)
    (num_local_computed_tokens num_external_computed_tokens : Z) : M MS unit :=
  let! m := get_mgr in
  match m_class m with
  | CrossAttentionManager => cross_allocate_new_computed_blocks new_computed_blocks
  | _ => base_allocate_new_computed_blocks request_id new_computed_blocks
           num_local_computed_tokens num_external_computed_tokens
  end.

(** [SingleTypeKVCacheManager.allocate_new_blocks] *)
Definition base_allocate_new_blocks (request_id : string) (num_tokens : Z) : M MS (list ref) :=
  let! req_blocks := get_req_blocks request_id in
  let! m := get_mgr in
  let num_required_blocks := cdiv num_tokens (m_block_size m) in
  let num_new_blocks := num_required_blocks - len req_blocks in
  if num_new_blocks <=? 0 then ret []
  else
    let! new_blocks := on_pool (get_new_blocks num_new_blocks) in
    put_req_blocks request_id (req_blocks ++ new_blocks) ;;;
    record_new_ids new_blocks ;;;
    ret new_blocks.

(** The loop that moves the speculative blocks of the previous step behind the
    null padding; [range(prev - num_spec, prev)] with its early [break]. *)
Fixpoint reuse_spec_blocks (idxs : list Z) (num_skipped_blocks : Z) (null : ref) (req_blocks : list ref)
    : M MS (list ref) :=
  match idxs with
  | [] => ret req_blocks
  | i :: idxs =>
      if i <? num_skipped_blocks then
        let! b := py_index req_blocks i in
        let j := if i <? 0 then i + len (req_blocks ++ [b]) else i in
        reuse_spec_blocks idxs num_skipped_blocks null (<[Z.to_nat j := null]> (req_blocks ++ [b]))
      else ret req_blocks
  end.

(** [MambaManager.allocate_new_blocks] in align mode *)
Definition mamba_align_allocate (request_id : string) (num_tokens : Z) : M MS (list ref) :=
  let! req_blocks := get_req_blocks request_id in
  let! m := get_mgr in
  let nspec := num_spec_blocks m in
  let num_required_blocks := cdiv num_tokens (m_block_size m) + nspec in
  if num_required_blocks =? len req_blocks then ret []
  else
    py_assert (len req_blocks <? num_required_blocks) ;;;
    let prev_block_len := len req_blocks in
    let blocks_allocated := bool_decide (request_id ∈ allocated_block_reqs m) in
    (if (blocks_allocated : bool) then
       mod_mgr (λ m, set_last_state (<[request_id := prev_block_len - 1 - nspec]> (last_state_block_idx m)) m)
     else if 0 <? prev_block_len then
       mod_mgr (λ m, set_last_state (<[request_id := prev_block_len - 1]> (last_state_block_idx m)) m)
     else ret tt) ;;;
    let num_skipped_blocks := num_required_blocks - nspec - 1 in
    let padded :=
      if prev_block_len <? num_skipped_blocks
      then req_blocks ++ py_repeat (m_null_block m) (num_skipped_blocks - prev_block_len) else req_blocks in
    let! moved :=
      (if (blocks_allocated : bool) then
         reuse_spec_blocks (py_range (prev_block_len - nspec) prev_block_len) num_skipped_blocks (m_null_block m) padded
       else ret padded) in
    put_req_blocks request_id moved ;;;
    let num_new_blocks := num_required_blocks - len moved in
    py_assert (if (blocks_allocated : bool) then num_new_blocks <=? 1 else num_new_blocks <=? nspec + 1) ;;;
    let! new_blocks := on_pool (get_new_blocks num_new_blocks) in
    put_req_blocks request_id (moved ++ new_blocks) ;;;
    mod_mgr (λ m, set_allocated_reqs ({[ request_id ]} ∪ allocated_block_reqs m) m) ;;;
    ret (py_slice_from (moved ++ new_blocks) prev_block_len).

(** [MambaManager.allocate_new_blocks] *)
Definition mamba_allocate_new_blocks (request_id : string) (num_tokens num_tokens_main_model : Z) : M MS (list ref) :=
  let! m := get_mgr in
  if negb (align_mode m) then
    base_allocate_new_blocks request_id
      (if 0 <? num_spec_blocks m then num_tokens + m_block_size m * num_spec_blocks m else num_tokens)
  else mamba_align_allocate request_id num_tokens_main_model.

(** [allocate_new_blocks] *)
Definition allocate_new_blocks (request_id : string) (num_tokens num_tokens_main_model : Z) : M MS (list ref) :=
  let! m := get_mgr in
  match m_class m with
  | MambaManager => mamba_allocate_new_blocks request_id num_tokens num_tokens_main_model
  | _ => base_allocate_new_blocks request_id num_tokens
  end.

(** [take_new_block_ids] *)
Definition take_new_block_ids : M MS (list Z) :=
  let! m := get_mgr in
  mod_mgr (set_new_block_ids []) ;;;
  ret (new_block_ids m).

(** ** Caching, freeing *)

Section caching.
Variable sha256 : bytes → bytes.

(** [SingleTypeKVCacheManager.cache_blocks] *)
Definition base_cache_blocks (r : Request) (num_tokens : Z) : M MS Request :=
  let! m := get_mgr in
  let num_cached_blocks := default 0 (num_cached_block m !! request_id r) in
  let num_full_blocks := num_tokens / m_block_size m in
  if num_full_blocks <=? num_cached_blocks then ret r
  else
    let! bs := get_req_blocks (request_id r) in
    let! r' := on_pool (cache_full_blocks sha256 r bs num_cached_blocks num_full_blocks
                          (m_block_size m) (kv_cache_group_id m)) in
    mod_mgr (λ m, set_num_cached_block (<[request_id r := num_full_blocks]> (num_cached_block m)) m) ;;;
    ret r'.

(** [MambaManager.cache_blocks] remembers the hashes cached in this step. *)
Definition note_cached (block : ref) : M MS unit :=
  let! b := on_pool (on_block block) in
  if is_null b then ret tt
  else match block_hash b with
       | None => raise AssertionError
       | Some h => mod_mgr (λ m, set_cached_this_step ({[ h ]} ∪ cached_blocks_this_step m) m)
       end.

Definition mamba_cache_blocks (r : Request) (num_tokens : Z) : M MS Request :=
  let! m := get_mgr in
  let before := default 0 (num_cached_block m !! request_id r) in
  let! r' := base_cache_blocks r num_tokens in
  let! m' := get_mgr in
  let after := default 0 (num_cached_block m' !! request_id r) in
  (if before <? after then
     let! bs := get_req_blocks (request_id r) in
     for_each (py_slice bs before after) note_cached
   else ret tt) ;;;
  ret r'.

(** [CrossAttentionManager.cache_blocks]: cross-attention has no prefix cache. *)
Definition cross_cache_blocks : M MS Request := raise ValueError.

(** [cache_blocks] *)
Definition cache_blocks (r : Request) (num_tokens : Z) : M MS Request :=
  let! m := get_mgr in
  match m_class m with
  | CrossAttentionManager => cross_cache_blocks
  | MambaManager => mamba_cache_blocks r num_tokens
  | _ => base_cache_blocks r num_tokens
  end.

End caching.

(** [MambaManager.free] forgets the state of the request first. *)
Definition mamba_forget (request_id : string) : M MS unit :=
  let! m := get_mgr in
  if bool_decide (m_class m = MambaManager) && align_mode m then
    mod_mgr (λ m, set_last_state (delete request_id (last_state_block_idx m))
                    (set_allocated_reqs (allocated_block_reqs m ∖ {[ request_id ]}) m))
  else ret tt.

(** [free] *)
Definition free (request_id : string) : M MS unit :=
  let! m := get_mgr in
  mamba_forget request_id ;;;
  let req_blocks := default [] (req_to_blocks m !! request_id) in
  mod_mgr (λ m, set_req_to_blocks (delete request_id (req_to_blocks m)) m) ;;;
  on_pool (free_blocks (reverse req_blocks)) ;;;
  mod_mgr (λ m, set_num_cached_block (delete request_id (num_cached_block m)) m).

(** The loop of [remove_skipped_blocks] over [range(n - 1, -1, -1)]: removed
    blocks, and the blocks with those entries replaced. *)
Fixpoint remove_loop (n : nat) (null : ref) (bs removed : list ref) : list ref * list ref :=
  match n with
  | O => (removed, bs)
  | S i =>
      match bs !! i with
      | None => (removed, bs)
      | Some b =>
          if decide (b = null) then (removed, bs)
          else remove_loop i null (<[i := null]> bs) (removed ++ [b])
      end
  end.

(** [SingleTypeKVCacheManager.remove_skipped_blocks] *)
Definition base_remove_skipped_blocks (request_id : string) (total_computed_tokens : Z) : M MS unit :=
  let! m := get_mgr in
  let num_skipped_tokens := get_num_skipped_tokens m total_computed_tokens in
  if num_skipped_tokens <=? 0 then ret tt
  else
    let! blocks := get_req_blocks request_id in
    let num_skipped_blocks := Z.min (num_skipped_tokens / m_block_size m) (len blocks) in
    let '(removed, blocks') := remove_loop (Z.to_nat num_skipped_blocks) (m_null_block m) blocks [] in
    put_req_blocks request_id blocks' ;;;
    on_pool (free_blocks removed).

(** [MambaManager.remove_skipped_blocks] *)
Definition mamba_remove_skipped_blocks (request_id : string) (num_computed_tokens : Z) : M MS unit :=
  let! m := get_mgr in
  let num_computed_tokens := Z.max 0 (num_computed_tokens - num_spec_blocks m) in
  base_remove_skipped_blocks request_id num_computed_tokens ;;;
  if align_mode m then
    match last_state_block_idx m !! request_id with
    | Some i =>
        if i <? cdiv num_computed_tokens (m_block_size m) - 1 then
          let! blocks := get_req_blocks request_id in
          let! b := py_index blocks i in
          if decide (b = m_null_block m) then ret tt
          else
            on_pool (free_blocks [b]) ;;;
            let j := if i <? 0 then i + len blocks else i in
            put_req_blocks request_id (<[Z.to_nat j := m_null_block m]> blocks)
        else ret tt
    | None => ret tt
    end
  else ret tt.

(** [remove_skipped_blocks] *)
Definition remove_skipped_blocks (request_id : string) (num_computed_tokens : Z) : M MS unit :=
  let! m := get_mgr in
  match m_class m with
  | MambaManager => mamba_remove_skipped_blocks request_id num_computed_tokens
  | _ => base_remove_skipped_blocks request_id num_computed_tokens
  end.

(** [new_step_starts] *)
Definition new_step_starts : M MS unit :=
  mod_mgr (λ m, match m_class m with MambaManager => set_cached_this_step ∅ m | _ => m end).

(** ** Common prefix *)

Fixpoint count_common (h : gmap ref KVCacheBlock) (n : Z) (bs : list ref) : Z :=
  match bs with
  | [] => 0
  | b :: bs =>
      match h !! b with
      | Some blk => if ref_cnt blk =? n then 1 + count_common h n bs else 0
      | None => 0
      end
  end.

(** [FullAttentionManager.get_num_common_prefix_blocks] *)
Definition full_num_common_prefix_blocks (request_id : string) : M MS Z :=
  let! blocks := get_req_blocks request_id in
  let! s := gets id in
  ret (count_common (heap (free_block_queue s.2)) (Z.of_nat (size (req_to_blocks s.1))) blocks).

(** [get_num_common_prefix_blocks]: only full attention counts. *)
Definition get_num_common_prefix_blocks (request_id : string) : M MS Z :=
  let! m := get_mgr in
  match m_class m with
  | FullAttentionManager | SinkFullAttentionManager => full_num_common_prefix_blocks request_id
  | _ => ret 0
  end.
