(* ===== verification/Ownership.v ===== *)
(** * Who holds which block

    Reference counts are conserved: the count of every block is the number of
    times requests hold it.  [req_inv] states this for one request against the
    rest of the system, [mgr_inv] for one manager; every pool operation a
    manager performs is shown to keep them.  Blocks behind the cached prefix of
    a request are fresh: unhashed and held exactly once. *)

From S2P Require Import Prelude FreeQueue RequestModel BlockHash.
From S2P Require Import KVCacheMetrics BlockPool KVCacheInterface SingleTypeManager.

(** ** One request *)

Definition nonnull (ids : list nat) : list nat := filter (λ i, i ≠ 0%nat) ids.

(** A request holds [ids], of which the first [nc] are cached; [extra] counts
    the references of everybody else and [U] are the fresh blocks of others. *)
Record req_inv (extra : nat → Z) (U : nat → Prop) (ids : list nat) (nc : Z) (p : BlockPool) (a : APool) : Prop := {
  ri_pool : pool_inv p a;
  ri_off : enable_caching p = false → ∀ i, a_hash a i = None;
  ri_lt : Forall (λ i, (i < pool_size p)%nat) ids;
  ri_nodup : NoDup (nonnull ids);
  ri_ref i : i ≠ 0%nat → a_ref a i = extra i + occ i ids;
  ri_U i : U i → i ≠ 0%nat ∧ 1 ≤ extra i ∧ a_hash a i = None ∧ a_ref a i = 1;
  ri_fresh k i : ids !! k = Some i → i ≠ 0%nat → nc ≤ Z.of_nat k → a_hash a i = None ∧ a_ref a i = 1;
}.

Lemma nonnull_occ i ids : i ≠ 0%nat → NoDup (nonnull ids) → i ∈ ids → occ i ids = 1.
Proof. intros Hi Hnd Hin. rewrite <-occ_filter_ne by done. apply occ_nodup; [done|]. by apply list_elem_of_filter. Qed.

Lemma nonnull_app ids ids' : nonnull (ids ++ ids') = nonnull ids ++ nonnull ids'.
Proof. apply filter_app. Qed.

Lemma nonnull_nulls n : nonnull (replicate n 0%nat) = [].
Proof. apply elem_of_nil_inv. intros i [Hi [-> _]%elem_of_replicate]%list_elem_of_filter. done. Qed.

Lemma occ_nulls i n : i ≠ 0%nat → occ i (replicate n 0%nat) = 0.
Proof. intros Hi. apply occ_notin. intros [-> _]%elem_of_replicate. done. Qed.

Lemma occ_le_1 i ids : i ≠ 0%nat → NoDup (nonnull ids) → occ i ids ≤ 1.
Proof.
  intros Hi Hnd. destruct (decide (i ∈ ids)); [rewrite nonnull_occ by done; lia|rewrite occ_notin by done; lia].
Qed.

Lemma pool_config_caching p p' : pool_config p' = pool_config p → enable_caching p' = enable_caching p.
Proof. by intros [=]. Qed.

Lemma pool_config_hbs p p' : pool_config p' = pool_config p → hash_block_size p' = hash_block_size p.
Proof. by intros [=]. Qed.

(** A held or fresh block is not free. *)
Lemma ri_not_free extra U ids nc p a i : req_inv extra U ids nc p a → 0 < a_ref a i → i ∉ a_free a.
Proof. intros H Hr Hi. apply (proj2 (ri_pool _ _ _ _ _ _ H)) in Hi. lia. Qed.

Section req.
Context (extra : nat → Z) (U : nat → Prop).

(** [get_new_blocks] appends fresh blocks to the request. *)
Lemma req_alloc ids nc p a k :
  req_inv extra U ids nc p a → (∀ i, 0 ≤ extra i) → 0 ≤ k ≤ len (a_free a) →
  wp (get_new_blocks k) (λ bs p', ∃ new a', bs = Blk <$> new ∧ len new = k ∧
    req_inv extra U (ids ++ new) nc p' a' ∧ len (a_free a') = len (a_free a) - k ∧
    pool_config p' = pool_config p) p.
Proof.
  intros H Hex Hk. pose proof (ri_pool _ _ _ _ _ _ H) as [Hr Hok].
  eapply wp_mono; [by apply (get_new_blocks_rep p a k)|]. intros bs p' (-> & Hr' & Hcfg).
  set (new := take (Z.to_nat k) (a_free a)) in *. exists new, (a_alloc (enable_caching p) (Z.to_nat k) a).
  pose proof (config_size _ _ Hcfg) as Hsz. pose proof (pool_config_caching _ _ Hcfg) as Hcc.
  assert (∀ i, i ∈ new → i ∈ a_free a) as Hnew by (intros i; apply take_sub).
  assert (∀ i, 0 < a_ref a i → i ∉ new) as Hkeep.
  { intros i Hi Hin. by apply (ri_not_free _ _ _ _ _ _ i H), Hnew. }
  assert (∀ i, i ∈ new → i ≠ 0%nat ∧ (i < pool_size p)%nat ∧ extra i = 0 ∧ occ i ids = 0) as Hz.
  { intros i Hi%Hnew. apply Hok in Hi as (Hlt & Hi0 & Hrf). pose proof (ri_ref _ _ _ _ _ _ H i Hi0).
    pose proof (Hex i). pose proof (occ_nonneg i ids). split_and!; auto; lia. }
  assert (NoDup new) as Hnd by apply nodup_take_drop, Hok.
  assert (∀ i, i ∈ new → a_hash (a_alloc (enable_caching p) (Z.to_nat k) a) i = None ∧
                         a_ref (a_alloc (enable_caching p) (Z.to_nat k) a) i = 1) as Hfresh.
  { intros i Hi. a_cbn. fold new. rewrite (decide_True (P := i ∈ new)) by done. split; [|done].
    destruct (enable_caching p) eqn:E; [by rewrite decide_True by done|].
    rewrite decide_False by naive_solver. by apply (ri_off _ _ _ _ _ _ H). }
  assert (∀ i, 0 < a_ref a i → a_hash (a_alloc (enable_caching p) (Z.to_nat k) a) i = a_hash a i ∧
                         a_ref (a_alloc (enable_caching p) (Z.to_nat k) a) i = a_ref a i) as Hsame.
  { intros i Hi%Hkeep. a_cbn. fold new. by rewrite !decide_False by naive_solver. }
  split_and!; [done| | | |done].
  { unfold len, new in *. rewrite length_take. lia. }
  2:{ a_cbn. unfold len in *. rewrite length_drop. lia. }
  split.
  - split; [done|]. rewrite Hsz. by apply a_alloc_ok.
  - rewrite Hcc. intros E i. a_cbn. rewrite E, decide_False by naive_solver. by apply (ri_off _ _ _ _ _ _ H).
  - rewrite Hsz. apply Forall_app. split; [apply H|]. apply Forall_forall. intros i Hi. by apply Hz.
  - rewrite nonnull_app. apply NoDup_app. split_and!; [apply H| |by apply NoDup_filter].
    intros i [_ Hi]%list_elem_of_filter [_ Hi']%list_elem_of_filter. apply Hz in Hi' as (_ & _ & _ & Ho).
    apply occ_in in Hi. lia.
  - intros i Hi0. rewrite occ_app. a_cbn. fold new. destruct (decide (i ∈ new)) as [Hi|Hi].
    + destruct (Hz i Hi) as (_ & _ & -> & ->). rewrite occ_nodup by done. lia.
    + rewrite (occ_notin i new) by done. rewrite (ri_ref _ _ _ _ _ _ H i Hi0). lia.
  - intros i Hi. destruct (ri_U _ _ _ _ _ _ H i Hi) as (H0 & H1 & H2 & H3).
    destruct (Hsame i) as [-> ->]; [lia|]. done.
  - intros j i Hj Hi0 Hnc. destruct (decide (i ∈ new)) as [Hi|Hi]; [by apply Hfresh|].
    apply lookup_app_Some in Hj as [Hj|[_ Hj]]; [|exfalso; apply Hi; by eapply list_elem_of_lookup_2].
    destruct (ri_fresh _ _ _ _ _ _ H j i Hj Hi0 Hnc) as [H1 H2]. destruct (Hsame i) as [-> ->]; [lia|]. done.
Qed.

(** Releasing [rel] leaves the request with [ids']: some entries of [ids],
    at their places, and nulls. *)
Lemma req_release ids ids' rel nc p a :
  req_inv extra U ids nc p a → (∀ i, 0 ≤ extra i) →
  Forall (λ i, (i < pool_size p)%nat) rel → Forall (λ i, (i < pool_size p)%nat) ids' →
  (∀ i, i ≠ 0%nat → occ i ids = occ i ids' + occ i rel) →
  (∀ k i, ids' !! k = Some i → i ≠ 0%nat → ids !! k = Some i) →
  wp (free_blocks (Blk <$> rel)) (λ _ p', ∃ a', req_inv extra U ids' nc p' a' ∧ len (a_free a) ≤ len (a_free a') ∧
    a_hash a' = a_hash a ∧ (∀ i, a_ref a' i ≤ a_ref a i) ∧ pool_config p' = pool_config p) p.
Proof.
  intros H Hex Hrel Hlt Hocc Hpos. pose proof (ri_pool _ _ _ _ _ _ H) as Hinv.
  assert (∀ i, i ≠ 0%nat → i ∈ rel → 0 < a_ref a i) as Hheld.
  { intros i Hi0 Hi%occ_in. rewrite (ri_ref _ _ _ _ _ _ H i Hi0), (Hocc i Hi0).
    pose proof (Hex i). pose proof (occ_nonneg i ids'). lia. }
  assert (∀ i, i ≠ 0%nat → occ i ids' + occ i rel ≤ 1) as Hle1.
  { intros i Hi0. rewrite <-Hocc by done. apply occ_le_1; [done|apply H]. }
  assert (∀ l, (∀ i, i ≠ 0%nat → occ i l ≤ 1) → NoDup (nonnull l)) as Hnd.
  { induction l as [|i l IH]; intros Hl; [apply NoDup_nil_2|]. unfold nonnull in *. rewrite filter_cons.
    assert (NoDup (filter (λ i, i ≠ 0%nat) l)) as Hl'.
    { apply IH. intros j Hj. specialize (Hl j Hj). rewrite occ_cons in Hl. destruct (decide (i = j)); lia. }
    destruct (decide (i ≠ 0%nat)) as [Hi|Hi]; [|done]. apply NoDup_cons. split; [|done].
    intros [_ Hin]%list_elem_of_filter. apply occ_in in Hin. specialize (Hl i Hi).
    rewrite occ_cons, decide_True in Hl by done. lia. }
  assert (releasable (pool_size p) rel a) as Hrl.
  { split; [|apply Hnd; intros i Hi0; pose proof (Hle1 i Hi0); pose proof (occ_nonneg i ids'); lia].
    apply Forall_forall. intros i Hi. split; [by apply (proj1 (Forall_forall _ _) Hrel)|]. intros. by apply Hheld. }
  eapply wp_mono; [by apply (free_blocks_rep p a)|]. intros _ p' [Hr' Hcfg].
  pose proof (config_size _ _ Hcfg) as Hsz. pose proof (pool_config_caching _ _ Hcfg) as Hcc.
  exists (a_release rel a). split_and!; [|a_cbn; rewrite len_app; pose proof (len_nonneg (filter (λ i, i ≠ 0%nat ∧ a_ref a i - occ i rel = 0) rel)); lia|done| |done].
  2:{ intros i. a_cbn. pose proof (occ_nonneg i rel). lia. }
  split.
  - split; [done|]. rewrite Hsz. by apply a_release_ok; [apply Hinv|].
  - rewrite Hcc. intros E i. a_cbn. by apply (ri_off _ _ _ _ _ _ H).
  - by rewrite Hsz.
  - apply Hnd. intros i Hi0. pose proof (Hle1 i Hi0). pose proof (occ_nonneg i rel). lia.
  - intros i Hi0. a_cbn. rewrite (ri_ref _ _ _ _ _ _ H i Hi0), (Hocc i Hi0). lia.
  - intros i Hi. destruct (ri_U _ _ _ _ _ _ H i Hi) as (H0 & H1 & H2 & H3). a_cbn. split_and!; auto.
    pose proof (ri_ref _ _ _ _ _ _ H i H0) as Hr. rewrite (Hocc i H0) in Hr.
    pose proof (occ_nonneg i ids'). pose proof (occ_nonneg i rel). lia.
  - intros k i Hk Hi0 Hnc. destruct (ri_fresh _ _ _ _ _ _ H k i (Hpos k i Hk Hi0) Hi0 Hnc) as [H1 H2]. a_cbn.
    split; [done|]. pose proof (Hle1 i Hi0). apply list_elem_of_lookup_2, occ_in in Hk.
    pose proof (occ_nonneg i rel). lia.
Qed.

(** [touch] on cached blocks, for a request that holds nothing but padding. *)
Lemma req_touch ids nc p a c n :
  req_inv extra U ids nc p a → (∀ i, i ≠ 0%nat → occ i ids = 0) → (∀ i, 0 ≤ extra i) →
  Forall (λ i, (i < pool_size p)%nat ∧ (i ≠ 0%nat → a_hash a i ≠ None)) c → NoDup (nonnull c) → (0 < pool_size p)%nat →
  wp (touch (Blk <$> c)) (λ _ p', ∃ a', req_inv extra U (replicate n 0%nat ++ c) (Z.of_nat n + len c) p' a' ∧
    len (a_free a) - get_num_evictable_blocks p (Blk <$> c) ≤ len (a_free a') ∧
    a_hash a' = a_hash a ∧ (∀ i, a_ref a i ≤ a_ref a' i) ∧ pool_config p' = pool_config p) p.
Proof.
  intros H Hz Hex Hc Hnd Hpos. pose proof (ri_pool _ _ _ _ _ _ H) as [Hr Hok].
  assert (Forall (λ i, (i < pool_size p)%nat) c) as Hlt by (eapply Forall_impl; [exact Hc|naive_solver]).
  eapply wp_mono; [by apply (touch_rep p a c)|]. intros _ p' [Hr' Hcfg].
  pose proof (config_size _ _ Hcfg) as Hsz. pose proof (pool_config_caching _ _ Hcfg) as Hcc.
  exists (a_touch c a). split_and!; [|..|done].
  - split.
    + split; [done|]. rewrite Hsz. by apply a_touch_ok.
    + rewrite Hcc. intros E i. a_cbn. by apply (ri_off _ _ _ _ _ _ H).
    + rewrite Hsz. apply Forall_app. split; [|done]. apply Forall_replicate. lia.
    + by rewrite nonnull_app, nonnull_nulls.
    + intros i Hi0. a_cbn. rewrite (ri_ref _ _ _ _ _ _ H i Hi0), (Hz i Hi0), occ_app, occ_nulls by done. lia.
    + intros i Hi. destruct (ri_U _ _ _ _ _ _ H i Hi) as (H0 & H1 & H2 & H3). a_cbn. split_and!; auto.
      rewrite occ_notin; [lia|]. intros Hin. apply (proj1 (Forall_forall _ _) Hc) in Hin as [_ Hh]. by apply Hh.
    + intros k i Hk Hi0 Hnc. apply lookup_lt_Some in Hk. rewrite length_app, length_replicate in Hk. unfold len in Hnc. lia.
  - a_cbn. unfold get_num_evictable_blocks. fold (freed_now (heap (free_block_queue p)) (Blk <$> c)).
    rewrite (freed_now_rep p a c Hr Hlt), len_fmap.
    set (k := filter _ c). set (f := filter _ (a_free a)).
    assert (length (a_free a) ≤ length (f ++ k))%nat as Hle; [|unfold len; rewrite length_app in Hle; lia].
    apply submseteq_length, NoDup_submseteq; [apply Hok|]. intros i Hi. rewrite elem_of_app.
    destruct (decide (i ∈ c)) as [Hin|Hin]; [right|left]; apply list_elem_of_filter; split; auto.
    apply Hok in Hi. naive_solver.
  - done.
  - intros i. a_cbn. pose proof (occ_nonneg i c). lia.
Qed.

Lemma a_cache_sub ids hs g a i : a_hash (a_cache ids hs g a) i ≠ a_hash a i → i ∈ ids ∧ i ≠ 0%nat.
Proof.
  intros Hne. split.
  - destruct (decide (i ∈ ids)); [done|]. by rewrite a_cache_other in Hne by auto.
  - intros ->. by rewrite a_cache_other in Hne by auto.
Qed.

(** [cache_full_blocks] moves the end of the cached prefix to [nf]. *)
Lemma req_cache sha256 r ids nc nf bs g p a :
  req_inv extra U ids nc p a → (∀ i, 0 ≤ extra i) → enable_caching p = true →
  0 < hash_block_size p → 0 < bs → bs mod hash_block_size p = 0 → 0 ≤ g < 2 ^ 32 →
  0 ≤ nc < nf → nf ≤ len (hash_view p r bs) → nf ≤ len ids →
  wp (cache_full_blocks sha256 r (Blk <$> ids) nc nf bs g) (λ r' p', ∃ a',
    (∃ m, r' = set_prompt_embeds_per_block_hashes m r) ∧ req_inv extra U ids nf p' a' ∧
    a_free a' = a_free a ∧ pool_config p' = pool_config p) p.
Proof.
  intros H Hex Hen Hh Hbs Hm Hg Hnc Hnf Hnf'. pose proof (ri_pool _ _ _ _ _ _ H) as [Hr Hok].
  assert (py_slice ids nc nf = take (Z.to_nat (nf - nc)) (drop (Z.to_nat nc) ids)) as Esl by (apply py_slice_nonneg; lia).
  assert (∀ i, i ∈ py_slice ids nc nf → ∃ k, ids !! k = Some i ∧ nc ≤ Z.of_nat k < nf) as Hsl.
  { intros i Hi. rewrite Esl in Hi. apply list_elem_of_lookup in Hi as [k Hk]. apply lookup_take_Some in Hk as [Hk Hlt].
    rewrite lookup_drop in Hk. eexists. split; [exact Hk|lia]. }
  assert (cacheable (pool_size p) (py_slice ids nc nf) a) as Hca.
  { split.
    - apply Forall_forall. intros i Hi. destruct (Hsl i Hi) as (k & Hk & Hlt). split.
      + apply (Forall_lookup_1 _ _ _ _ (ri_lt _ _ _ _ _ _ H) Hk).
      + intros Hi0. apply (ri_fresh _ _ _ _ _ _ H k i Hk Hi0). lia.
    - rewrite Esl. pose proof (ri_nodup _ _ _ _ _ _ H) as Hnd.
      rewrite <-(take_drop (Z.to_nat nc) ids), nonnull_app in Hnd. apply NoDup_app in Hnd as (_ & _ & Hnd).
      rewrite <-(take_drop (Z.to_nat (nf - nc)) (drop _ ids)), nonnull_app in Hnd. by apply NoDup_app in Hnd as (Hnd & _). }
  eapply wp_mono; [apply (cache_full_blocks_rep sha256 p a); auto; try lia; apply H|].
  intros r' p' (Hr'' & Hr' & Hcfg). rewrite decide_True in Hr' by lia. set (a' := a_cache _ _ _ _) in Hr'.
  pose proof (config_size _ _ Hcfg) as Hsz. pose proof (pool_config_caching _ _ Hcfg) as Hcc.
  destruct (a_cache_frame (py_slice ids nc nf) (drop (Z.to_nat nc) (hash_view p r bs)) g a) as [Hfree Href].
  fold a' in Hfree, Href.
  exists a'. split_and!; [done| |done|done]. split.
  - split; [done|]. rewrite Hsz. by apply a_cache_ok.
  - rewrite Hcc, Hen. done.
  - rewrite Hsz. apply H.
  - apply H.
  - intros i Hi0. rewrite Href. by apply H.
  - intros i Hi. destruct (ri_U _ _ _ _ _ _ H i Hi) as (H0 & H1 & H2 & H3). rewrite Href. split_and!; auto.
    unfold a'. rewrite a_cache_other; [done|]. right. intros (k & Hk & _)%Hsl.
    apply list_elem_of_lookup_2, occ_in in Hk. pose proof (ri_ref _ _ _ _ _ _ H i H0). lia.
  - intros k i Hk Hi0 Hle. rewrite Href. destruct (ri_fresh _ _ _ _ _ _ H k i Hk Hi0) as [H1 H2]; [lia|].
    split; [|done]. unfold a'. rewrite a_cache_other; [done|]. right. intros (j & Hj & Hlt)%Hsl.
    assert (occ i ids = 1) as Ho by (apply nonnull_occ; [done|apply H|by eapply list_elem_of_lookup_2]).
    rewrite <-(take_drop k ids), occ_app in Ho.
    assert (0 < occ i (take k ids)).
    { apply occ_in. apply (list_elem_of_lookup_2 _ j). rewrite lookup_take_lt by lia. exact Hj. }
    assert (0 < occ i (drop k ids)).
    { apply occ_in. apply (list_elem_of_lookup_2 _ 0). by rewrite lookup_drop, Nat.add_0_r. }
    lia.
Qed.

End req.

(** ** One manager *)

(** How often the requests of a manager hold block [i]. *)
Definition rocc (i : nat) (bs : list ref) : Z := len (filter (λ r, r = Blk i) bs).
Definition held_in (m : gmap string (list ref)) (i : nat) : Z := map_fold (λ _ bs acc, rocc i bs + acc) 0 m.
Abbreviation held m := (held_in (req_to_blocks m)).

Lemma rocc_blk i ids : rocc i (Blk <$> ids) = occ i ids.
Proof.
  unfold rocc, occ, len. f_equal. induction ids as [|j ids IH]; [done|]. rewrite fmap_cons, !filter_cons.
  destruct (decide (Blk j = Blk i)), (decide (j = i)); cbn; congruence.
Qed.

Lemma rocc_nonneg i bs : 0 ≤ rocc i bs.
Proof. apply len_nonneg. Qed.

Lemma held_insert m rid bs i : m !! rid = None → held_in (<[rid := bs]> m) i = rocc i bs + held_in m i.
Proof. intros Hm. unfold held_in. rewrite map_fold_insert_L; [done|intros; lia|done]. Qed.

Lemma held_split m rid i : held_in m i = rocc i (default [] (m !! rid)) + held_in (delete rid m) i.
Proof.
  destruct (m !! rid) as [bs|] eqn:E.
  - rewrite <-(insert_delete_id m rid bs E) at 1. rewrite held_insert; [done|]. apply lookup_delete_eq.
  - rewrite delete_id by done. done.
Qed.

Lemma held_nonneg m i : 0 ≤ held_in m i.
Proof.
  induction m as [|rid bs m Hm IH] using map_ind; [done|]. rewrite held_insert by done.
  pose proof (rocc_nonneg i bs). lia.
Qed.

Lemma held_in_ge m rid bs i : m !! rid = Some bs → Blk i ∈ bs → 1 ≤ held_in m i.
Proof.
  intros Hm Hi. rewrite (held_split m rid), Hm. cbn. pose proof (held_nonneg (delete rid m) i).
  assert (0 < rocc i bs); [|lia]. unfold rocc, len.
  destruct (filter (λ r, r = Blk i) bs) as [|x l] eqn:E; [|cbn; lia]. exfalso.
  apply (filter_nil_not_elem_of _ _ (Blk i) E); auto.
Qed.

(** Block [i] is behind the cached prefix of request [rid]. *)
Definition fresh_of (m : Manager) (rid : string) (i : nat) : Prop :=
  ∃ bs k, req_to_blocks m !! rid = Some bs ∧ bs !! k = Some (Blk i) ∧ i ≠ 0%nat ∧
    default 0 (num_cached_block m !! rid) ≤ Z.of_nat k.

(** The attributes a constructed manager never changes. *)
Definition manager_wf (m : Manager) : Prop :=
  m_null_block m = Blk 0 ∧ 0 < m_block_size m ∧ 0 ≤ kv_cache_group_id m < 2 ^ 32 ∧
  match m_class m, m_spec m with
  | FullAttentionManager, (FullAttentionSpec _ _ _ | TQFullAttentionSpec _ _ _ _ | MLAAttentionSpec _ _ _ _) => True
  | SlidingWindowManager, SlidingWindowSpec _ _ w => 0 < w
  | ChunkedLocalAttentionManager, ChunkedLocalAttentionSpec _ _ c => 0 < c
  | _, _ => False
  end.

Definition block_list_ok (n : nat) (bs : list ref) : Prop :=
  ∃ ids, bs = Blk <$> ids ∧ Forall (λ i, (i < n)%nat) ids ∧ NoDup (nonnull ids).

Record mgr_inv (extra : nat → Z) (U : nat → Prop) (m : Manager) (p : BlockPool) (a : APool) : Prop := {
  mi_pool : pool_inv p a;
  mi_off : enable_caching p = false → ∀ i, a_hash a i = None;
  mi_wf : manager_wf m;
  mi_blocks rid bs : req_to_blocks m !! rid = Some bs → block_list_ok (pool_size p) bs;
  mi_ref i : i ≠ 0%nat → a_ref a i = extra i + held m i;
  mi_U i : U i → i ≠ 0%nat ∧ 1 ≤ extra i ∧ a_hash a i = None ∧ a_ref a i = 1;
  mi_fresh rid i : fresh_of m rid i → a_hash a i = None ∧ a_ref a i = 1;
  mi_cached rid c : num_cached_block m !! rid = Some c → 0 ≤ c;
}.

(** What the other requests of the manager contribute. *)
Definition rest (extra : nat → Z) (m : Manager) (rid : string) (i : nat) : Z :=
  extra i + held_in (delete rid (req_to_blocks m)) i.
Definition rest_fresh (U : nat → Prop) (m : Manager) (rid : string) (i : nat) : Prop :=
  U i ∨ ∃ rid', rid' ≠ rid ∧ fresh_of m rid' i.
Abbreviation cached_of m rid := (default 0 (num_cached_block m !! rid)).

(** The attributes fixed at construction. *)
Definition manager_config (m : Manager) :=
  (m_block_size m, m_spec m, m_class m, m_enable_caching m, kv_cache_group_id m, m_null_block m).

Lemma manager_config_wf m m' : manager_config m' = manager_config m → manager_wf m → manager_wf m'.
Proof. unfold manager_wf. by intros [= -> -> -> _ -> ->]. Qed.

Lemma fresh_of_in m rid i : fresh_of m rid i → ∃ bs, req_to_blocks m !! rid = Some bs ∧ Blk i ∈ bs ∧ i ≠ 0%nat.
Proof. intros (bs & k & Hbs & Hk & Hi & _). exists bs. split_and!; auto. by eapply list_elem_of_lookup_2. Qed.

Lemma rest_nonneg extra m rid : (∀ i, 0 ≤ extra i) → ∀ i, 0 ≤ rest extra m rid i.
Proof. intros Hex i. unfold rest. pose proof (held_nonneg (delete rid (req_to_blocks m)) i). specialize (Hex i). lia. Qed.

(** Focus on one request of a manager ... *)
Lemma mgr_open extra U m p a rid :
  mgr_inv extra U m p a → (∀ i, 0 ≤ extra i) →
  ∃ ids, default [] (req_to_blocks m !! rid) = Blk <$> ids ∧
    req_inv (rest extra m rid) (rest_fresh U m rid) ids (cached_of m rid) p a.
Proof.
  intros H Hex.
  assert (∃ ids, default [] (req_to_blocks m !! rid) = Blk <$> ids ∧ Forall (λ i, (i < pool_size p)%nat) ids ∧
    NoDup (nonnull ids)) as (ids & Hids & Hlt & Hnd).
  { destruct (req_to_blocks m !! rid) as [bs|] eqn:E; [by apply (mi_blocks _ _ _ _ _ H) in E|].
    exists []. split_and!; [done|by apply Forall_nil_2|apply NoDup_nil_2]. }
  exists ids. split; [done|]. split; try done; try apply H.
  - intros i Hi. rewrite (mi_ref _ _ _ _ _ H i Hi), (held_split _ rid), Hids, rocc_blk. unfold rest. lia.
  - intros i [Hi|(rid' & Hne & Hi)].
    + destruct (mi_U _ _ _ _ _ H i Hi) as (? & ? & ? & ?). unfold rest.
      pose proof (held_nonneg (delete rid (req_to_blocks m)) i). split_and!; auto. lia.
    + destruct (mi_fresh _ _ _ _ _ H rid' i Hi) as [? ?]. apply fresh_of_in in Hi as (bs & Hbs & Hi & Hi0).
      split_and!; auto. unfold rest. specialize (Hex i).
      pose proof (held_in_ge (delete rid (req_to_blocks m)) rid' bs i). rewrite lookup_delete_ne in * by done. naive_solver lia.
  - intros k i Hk Hi0 Hnc. apply (mi_fresh _ _ _ _ _ H rid i).
    destruct (req_to_blocks m !! rid) as [bs|] eqn:E; cbn in Hids.
    + exists bs, k. split_and!; auto. by rewrite Hids, list_lookup_fmap, Hk.
    + by destruct ids.
Qed.

(** ... and put its new blocks back. *)
Lemma mgr_close extra U m p a rid m' p' a' ids' nc' :
  mgr_inv extra U m p a →
  req_inv (rest extra m rid) (rest_fresh U m rid) ids' nc' p' a' →
  pool_config p' = pool_config p → manager_config m' = manager_config m →
  default [] (req_to_blocks m' !! rid) = Blk <$> ids' → delete rid (req_to_blocks m') = delete rid (req_to_blocks m) →
  (ids' = [] ∨ cached_of m' rid = nc') → 0 ≤ cached_of m' rid →
  delete rid (num_cached_block m') = delete rid (num_cached_block m) →
  mgr_inv extra U m' p' a'.
Proof.
  intros H Hq Hcfg Hm Hids Hdel Hnc Hge Hcd. pose proof (config_size _ _ Hcfg) as Hsz.
  assert (∀ rid', rid' ≠ rid → req_to_blocks m' !! rid' = req_to_blocks m !! rid' ∧
                               num_cached_block m' !! rid' = num_cached_block m !! rid') as Hoth.
  { intros rid' Hne. rewrite <-(lookup_delete_ne (req_to_blocks m') rid rid'), <-(lookup_delete_ne (num_cached_block m') rid rid') by done.
    by rewrite Hdel, Hcd, !lookup_delete_ne by done. }
  split; try apply Hq.
  - by eapply manager_config_wf, H.
  - intros rid' bs Hbs. destruct (decide (rid' = rid)) as [->|Hne].
    + rewrite Hbs in Hids. cbn in Hids. exists ids'. split_and!; auto; apply Hq.
    + destruct (Hoth rid' Hne) as [E _]. rewrite E in Hbs. rewrite Hsz. by apply (mi_blocks _ _ _ _ _ H rid').
  - intros i Hi. rewrite (ri_ref _ _ _ _ _ _ Hq i Hi), (held_split _ rid), Hids, rocc_blk, Hdel. unfold rest. lia.
  - intros i Hi. destruct (ri_U _ _ _ _ _ _ Hq i (or_introl Hi)) as (? & _ & ? & ?).
    destruct (mi_U _ _ _ _ _ H i Hi) as (_ & ? & _). auto.
  - intros rid' i (bs & k & Hbs & Hk & Hi0 & Hle). destruct (decide (rid' = rid)) as [->|Hne].
    + rewrite Hbs in Hids. cbn in Hids. subst bs. rewrite list_lookup_fmap in Hk.
      destruct (ids' !! k) as [j|] eqn:Ej; [|done]. cbn in Hk. injection Hk as ->.
      destruct Hnc as [->|Hnc]; [done|]. apply (ri_fresh _ _ _ _ _ _ Hq k i Ej Hi0). lia.
    + destruct (Hoth rid' Hne) as [E1 E2]. rewrite E1 in Hbs. rewrite E2 in Hle.
      destruct (ri_U _ _ _ _ _ _ Hq i) as (_ & _ & ? & ?); [|done]. right. exists rid'. split; [done|]. by exists bs, k.
  - intros rid' c Hc. destruct (decide (rid' = rid)) as [->|Hne]; [by rewrite Hc in Hge|].
    destruct (Hoth rid' Hne) as [_ E]. rewrite E in Hc. by apply (mi_cached _ _ _ _ _ H rid').
Qed.

(** ** The operations of a manager *)

Definition blocks_of (m : Manager) (rid : string) : list ref := default [] (req_to_blocks m !! rid).
Definition with_blocks (rid : string) (bs : list ref) (m : Manager) : Manager :=
  set_req_to_blocks (<[rid := bs]> (req_to_blocks m)) m.

Lemma with_blocks_twice rid bs bs' m : with_blocks rid bs (with_blocks rid bs' m) = with_blocks rid bs m.
Proof. unfold with_blocks. cbn. by rewrite insert_insert_eq. Qed.

Lemma wp_get_req_blocks rid m p (Q : list ref → MS → Prop) :
  Q (blocks_of m rid) (with_blocks rid (blocks_of m rid) m, p) → wp (get_req_blocks rid) Q (m, p).
Proof.
  intros HQ. unfold get_req_blocks, get_mgr. wp_step. wp_step. unfold with_blocks, blocks_of in HQ. cbn [fst].
  destruct (req_to_blocks m !! rid) as [bs|] eqn:E; cbn in HQ; wp_step.
  - rewrite insert_id in HQ by done. by destruct m.
  - exact HQ.
Qed.

(** A request's blocks change, its cached prefix does not. *)
Lemma mgr_put extra U m p a rid m' p' a' ids' :
  mgr_inv extra U m p a → req_inv (rest extra m rid) (rest_fresh U m rid) ids' (cached_of m rid) p' a' →
  pool_config p' = pool_config p → manager_config m' = manager_config m →
  req_to_blocks m' = <[rid := Blk <$> ids']> (req_to_blocks m) → num_cached_block m' = num_cached_block m →
  mgr_inv extra U m' p' a'.
Proof.
  intros H Hq Hp Hm Hb Hc. eapply (mgr_close extra U m p a rid); eauto.
  - by rewrite Hb, lookup_insert_eq.
  - by rewrite Hb, delete_insert_eq.
  - right. by rewrite Hc.
  - rewrite Hc. destruct (num_cached_block m !! rid) as [c|] eqn:E; [|done]. by apply (mi_cached _ _ _ _ _ H rid).
  - by rewrite Hc.
Qed.

Lemma wp_record_new_ids bs m p (Q : unit → MS → Prop) :
  (∀ ids, Q tt (set_new_block_ids ids m, p)) → wp (record_new_ids bs) Q (m, p).
Proof.
  intros HQ. unfold record_new_ids, mod_mgr. wp_steps. cbn [fst snd].
  assert (m = set_new_block_ids (new_block_ids m) m) as Hm by by destruct m.
  destruct (m_spec m); try apply HQ; rewrite Hm at 1; apply HQ.
Qed.

Definition blocks_needed (m : Manager) (rid : string) (num_tokens : Z) : Z :=
  Z.max 0 (cdiv num_tokens (m_block_size m) - len (blocks_of m rid)).

(** [allocate_new_blocks] gives the request exactly the missing blocks. *)
Lemma allocate_new_blocks_inv extra U m p a rid nt ntm :
  mgr_inv extra U m p a → (∀ i, 0 ≤ extra i) → blocks_needed m rid nt ≤ len (a_free a) →
  wp (allocate_new_blocks rid nt ntm) (λ bs s, ∃ a', mgr_inv extra U s.1 s.2 a' ∧
    manager_config s.1 = manager_config m ∧ pool_config s.2 = pool_config p ∧
    req_to_blocks s.1 = <[rid := blocks_of m rid ++ bs]> (req_to_blocks m) ∧
    num_cached_block s.1 = num_cached_block m ∧
    len bs = blocks_needed m rid nt ∧ len (a_free a') = len (a_free a) - blocks_needed m rid nt) (m, p).
Proof.
  intros H Hex Hneed. pose proof (mi_wf _ _ _ _ _ H) as (Hnull & Hbs & _ & Hcls).
  destruct (mgr_open extra U m p a rid H Hex) as (ids & Hids & Hq). fold (blocks_of m rid) in Hids.
  assert (wp (base_allocate_new_blocks rid nt) (λ bs s, ∃ a', mgr_inv extra U s.1 s.2 a' ∧
    manager_config s.1 = manager_config m ∧ pool_config s.2 = pool_config p ∧
    req_to_blocks s.1 = <[rid := blocks_of m rid ++ bs]> (req_to_blocks m) ∧
    num_cached_block s.1 = num_cached_block m ∧
    len bs = blocks_needed m rid nt ∧ len (a_free a') = len (a_free a) - blocks_needed m rid nt) (m, p)) as Hbase.
  2:{ unfold allocate_new_blocks, get_mgr. wp_step. wp_step. cbn [fst]. by destruct (m_class m), (m_spec m). }
  unfold base_allocate_new_blocks, get_mgr. wp_step. apply wp_get_req_blocks. wp_step. wp_step. cbn [fst].
  change (m_block_size (with_blocks rid (blocks_of m rid) m)) with (m_block_size m).
  unfold blocks_needed in *. rewrite Hids in *. set (k := cdiv nt (m_block_size m) - len (Blk <$> ids)) in *.
  destruct (Z.leb_spec k 0) as [Hk|Hk].
  - rewrite Z.max_l in * by lia. wp_step. exists a. rewrite app_nil_r. split_and!; try done; [|lia].
    by apply (mgr_put extra U m p a rid _ _ _ ids).
  - rewrite Z.max_r in * by lia. wp_step. apply wp_zoom. cbn [snd].
    eapply wp_mono; [apply (req_alloc _ _ _ _ _ _ k Hq); [by apply rest_nonneg|lia]|].
    intros bs p' (new & a' & -> & Hlen & Hq' & Hfree & Hcfg). cbn [fst]. wp_step. unfold put_req_blocks, mod_mgr. wp_step. wp_step.
    apply wp_record_new_ids. intros nids. wp_step. cbn [fst snd]. exists a'. rewrite len_fmap. split_and!; try done.
    + apply (mgr_put extra U m p a rid _ _ _ (ids ++ new)); try done.
      cbn. by rewrite insert_insert_eq, fmap_app.
    + cbn. by rewrite insert_insert_eq.
Qed.

(** [free] releases every block of the request, once each. *)
Lemma free_inv extra U m p a rid :
  mgr_inv extra U m p a → (∀ i, 0 ≤ extra i) →
  wp (free rid) (λ _ s, ∃ a', mgr_inv extra U s.1 s.2 a' ∧
    manager_config s.1 = manager_config m ∧ pool_config s.2 = pool_config p ∧
    req_to_blocks s.1 = delete rid (req_to_blocks m) ∧ num_cached_block s.1 = delete rid (num_cached_block m) ∧
    len (a_free a) ≤ len (a_free a') ∧ a_hash a' = a_hash a ∧ (∀ i, a_ref a' i ≤ a_ref a i)) (m, p).
Proof.
  intros H Hex. pose proof (mi_wf _ _ _ _ _ H) as (_ & _ & _ & Hcls).
  destruct (mgr_open extra U m p a rid H Hex) as (ids & Hids & Hq).
  unfold free, mamba_forget, get_mgr. do 5 wp_step. cbn [fst].
  rewrite bool_decide_eq_false_2 by (intros E; rewrite E in Hcls; done). cbn [andb].
  unfold mod_mgr. wp_step. wp_step. wp_step. wp_step. apply wp_zoom. cbn [fst snd].
  rewrite Hids, <-fmap_reverse.
  assert (Forall (λ i, (i < pool_size p)%nat) (reverse ids)) as Hlt by (apply Forall_reverse, Hq).
  eapply wp_mono; [apply (req_release _ _ ids [] (reverse ids) _ p a Hq); auto|].
  - by apply rest_nonneg.
  - intros i _. rewrite occ_nil. unfold occ, len. by rewrite (reverse_Permutation ids).
  - done.
  - intros _ p' (a' & Hq' & Hfree & Hh & Hrf & Hcfg). cbn [fst snd]. wp_step. cbn [fst snd].
    exists a'. split_and!; try done. apply (mgr_close extra U m p a rid _ _ _ [] (cached_of m rid)); try done; cbn.
    + by rewrite lookup_delete_eq.
    + by rewrite delete_delete_eq.
    + by left.
    + by rewrite lookup_delete_eq.
    + by rewrite delete_delete_eq.
Qed.

(** The loop of [remove_skipped_blocks] moves entries from the list to
    [removed], leaving nulls. *)
Lemma remove_loop_spec n ids removed sz :
  (0 < sz)%nat → Forall (λ i, (i < sz)%nat) ids →
  ∃ rel ids', remove_loop n (Blk 0) (Blk <$> ids) removed = (removed ++ (Blk <$> rel), Blk <$> ids') ∧
    length ids' = length ids ∧ Forall (λ i, (i < sz)%nat) rel ∧ Forall (λ i, (i < sz)%nat) ids' ∧
    (∀ i, i ≠ 0%nat → occ i ids = occ i ids' + occ i rel) ∧
    (∀ k i, ids' !! k = Some i → i ≠ 0%nat → ids !! k = Some i).
Proof.
  intros Hsz. revert ids removed. induction n as [|n IH]; intros ids removed Hlt.
  { exists [], ids. rewrite app_nil_r. split_and!; auto. intros. rewrite occ_nil. lia. }
  assert (∃ rel ids', (removed, Blk <$> ids) = (removed ++ (Blk <$> rel), Blk <$> ids') ∧
    length ids' = length ids ∧ Forall (λ i, (i < sz)%nat) rel ∧ Forall (λ i, (i < sz)%nat) ids' ∧
    (∀ i, i ≠ 0%nat → occ i ids = occ i ids' + occ i rel) ∧
    (∀ k i, ids' !! k = Some i → i ≠ 0%nat → ids !! k = Some i)) as Hstop.
  { exists [], ids. rewrite app_nil_r. split_and!; auto. intros. rewrite occ_nil. lia. }
  cbn. rewrite list_lookup_fmap. destruct (ids !! n) as [j|] eqn:Ej; [|done]. cbn.
  destruct (decide (Blk j = Blk 0)) as [Heq|Hj]; [done|].
  assert (<[n := Blk 0]> (Blk <$> ids) = Blk <$> <[n := 0%nat]> ids) as -> by by rewrite list_fmap_insert.
  destruct (IH (<[n := 0%nat]> ids) (removed ++ [Blk j])) as (rel & ids' & -> & Hlen & H1 & H2 & Hocc & Hpos).
  { by apply Forall_insert. }
  exists (j :: rel), ids'. rewrite length_insert in Hlen. pose proof (lookup_lt_Some _ _ _ Ej) as Hn. split_and!; auto.
  - by rewrite <-app_assoc.
  - apply Forall_cons. split; [|done]. by apply (Forall_lookup_1 _ _ _ _ Hlt Ej).
  - intros i Hi. rewrite occ_cons. specialize (Hocc i Hi). rewrite insert_take_drop, !occ_app, !occ_cons in Hocc by done.
    rewrite decide_False in Hocc by done. rewrite <-(take_drop_middle ids n j Ej) at 1. rewrite occ_app, occ_cons.
    destruct (decide (j = i)); lia.
  - intros k i Hk Hi. specialize (Hpos k i Hk Hi). destruct (decide (k = n)) as [->|Hkn].
    + rewrite list_lookup_insert_eq in Hpos by done. by injection Hpos as <-.
    + by rewrite list_lookup_insert_ne in Hpos by done.
Qed.

Lemma pool_inv_size p a : pool_inv p a → (0 < pool_size p)%nat.
Proof. intros [Hr _]. pose proof (pr_pos _ _ Hr). unfold pool_size. lia. Qed.

(** [remove_skipped_blocks] keeps the length of every block list. *)
Lemma remove_skipped_inv extra U m p a rid t :
  mgr_inv extra U m p a → (∀ i, 0 ≤ extra i) →
  wp (remove_skipped_blocks rid t) (λ _ s, ∃ a', mgr_inv extra U s.1 s.2 a' ∧
    manager_config s.1 = manager_config m ∧ pool_config s.2 = pool_config p ∧
    (∀ rid', len (blocks_of s.1 rid') = len (blocks_of m rid')) ∧ num_cached_block s.1 = num_cached_block m ∧
    len (a_free a) ≤ len (a_free a') ∧ a_hash a' = a_hash a) (m, p).
Proof.
  intros H Hex. pose proof (mi_wf _ _ _ _ _ H) as (Hnull & Hbs & _ & Hcls).
  destruct (mgr_open extra U m p a rid H Hex) as (ids & Hids & Hq). fold (blocks_of m rid) in Hids.
  assert (wp (base_remove_skipped_blocks rid t) (λ _ s, ∃ a', mgr_inv extra U s.1 s.2 a' ∧
    manager_config s.1 = manager_config m ∧ pool_config s.2 = pool_config p ∧
    (∀ rid', len (blocks_of s.1 rid') = len (blocks_of m rid')) ∧ num_cached_block s.1 = num_cached_block m ∧
    len (a_free a) ≤ len (a_free a') ∧ a_hash a' = a_hash a) (m, p)) as Hbase.
  2:{ unfold remove_skipped_blocks, get_mgr. wp_step. wp_step. cbn [fst]. by destruct (m_class m), (m_spec m). }
  unfold base_remove_skipped_blocks, get_mgr. wp_step. wp_step. cbn [fst].
  destruct (get_num_skipped_tokens m t <=? 0); [wp_step; exists a; split_and!; auto; lia|].
  wp_step. apply wp_get_req_blocks. rewrite Hids, Hnull. set (n := Z.to_nat _).
  destruct (remove_loop_spec n ids [] (pool_size p)) as (rel & ids' & -> & Hlen & H1 & H2 & Hocc & Hpos).
  { eapply pool_inv_size, H. } { apply Hq. }
  cbn [app]. wp_step. unfold put_req_blocks, mod_mgr. wp_step. apply wp_zoom. cbn [fst snd].
  eapply wp_mono; [apply (req_release _ _ ids ids' rel _ p a Hq); auto; by apply rest_nonneg|].
  intros _ p' (a' & Hq' & Hfree & Hh & _ & Hcfg). cbn [fst snd]. exists a'. split_and!; try done.
  - apply (mgr_put extra U m p a rid _ _ _ ids'); try done. cbn. by rewrite insert_insert_eq.
  - intros rid'. unfold blocks_of. cbn. rewrite insert_insert_eq. destruct (decide (rid' = rid)) as [->|Hne].
    + rewrite lookup_insert_eq. cbn. fold (blocks_of m rid). rewrite Hids. unfold len. rewrite !length_fmap. lia.
    + by rewrite lookup_insert_ne.
Qed.

(** Skipped tokens are computed tokens. *)
Lemma skipped_bounds m t : manager_wf m → 0 ≤ t → 0 ≤ get_num_skipped_tokens m t ≤ t.
Proof.
  intros (_ & _ & _ & Hcls) Ht. unfold get_num_skipped_tokens, sw_num_skipped_tokens, chunked_num_skipped_tokens.
  destruct (m_class m), (m_spec m); try done; try lia.
  pose proof (Z.mul_div_le t chunk_size Hcls). pose proof (Z.div_pos t chunk_size Ht Hcls). nia.
Qed.

(** The prefix-cache hit of a request in one group: cached blocks, each
    non-null one once, covering exactly the local computed tokens. *)
Definition hit_ok (m : Manager) (p : BlockPool) (a : APool) (c : list nat) (local : Z) : Prop :=
  Forall (λ i, (i < pool_size p)%nat ∧ (i ≠ 0%nat → a_hash a i ≠ None)) c ∧ NoDup (nonnull c) ∧
  len c * m_block_size m = local ∧ (m_enable_caching m = true ∨ c = []).

(** Blocks in front of the attention window once [t] tokens are computed. *)
Definition skipped_blocks (m : Manager) (t : Z) : Z := get_num_skipped_tokens m t / m_block_size m.
(** The part of a hit that is touched, and the blocks the request then has. *)
Definition touched (m : Manager) (t : Z) (c : list nat) : list nat := drop (Z.to_nat (skipped_blocks m t)) c.
Definition prefix_len (m : Manager) (t : Z) (c : list nat) : Z := Z.max (skipped_blocks m t) (len c).

Lemma skipped_blocks_bounds m t : manager_wf m → 0 ≤ t → 0 ≤ skipped_blocks m t ∧ skipped_blocks m t * m_block_size m ≤ t.
Proof.
  intros Hwf Ht. pose proof (skipped_bounds m t Hwf Ht). destruct Hwf as (_ & Hbs & _). unfold skipped_blocks.
  pose proof (Z.mul_div_le (get_num_skipped_tokens m t) (m_block_size m) Hbs).
  pose proof (Z.div_pos (get_num_skipped_tokens m t) (m_block_size m)). lia.
Qed.

Lemma prefix_len_le m t c local ext p a :
  manager_wf m → hit_ok m p a c local → 0 ≤ local → 0 ≤ ext → t = local + ext →
  prefix_len m t c ≤ cdiv t (m_block_size m).
Proof.
  intros Hwf (_ & _ & Hl & _) H1 H2 ->. destruct (skipped_blocks_bounds m (local + ext) Hwf) as [H3 H4]; [lia|].
  destruct Hwf as (_ & Hbs & _). pose proof (cdiv_mul_ge (local + ext) (m_block_size m) Hbs). unfold prefix_len. nia.
Qed.

Lemma hit_ok_drop m p a c local n :
  hit_ok m p a c local →
  Forall (λ i, (i < pool_size p)%nat ∧ (i ≠ 0%nat → a_hash a i ≠ None)) (drop n c) ∧ NoDup (nonnull (drop n c)).
Proof.
  intros (Hc & Hnd & _). split; [by apply Forall_drop|].
  rewrite <-(take_drop n c), nonnull_app in Hnd. by apply NoDup_app in Hnd as (_ & _ & Hnd).
Qed.

(** What [allocate_new_computed_blocks] leaves for a request seen the first
    time: padding, the touched blocks, blocks for the external tokens. *)
Definition computed_post (extra : nat → Z) (U : nat → Prop) (m : Manager) (p : BlockPool) (a : APool) (rid : string)
    (c : list nat) (t ext : Z) (m' : Manager) (p' : BlockPool) : Prop :=
  ∃ a' got, mgr_inv extra U m' p' a' ∧ manager_config m' = manager_config m ∧ pool_config p' = pool_config p ∧
    len (blocks_of m' rid) = prefix_len m t c + got ∧ num_cached_block m' = <[rid := prefix_len m t c]> (num_cached_block m) ∧
    delete rid (req_to_blocks m') = delete rid (req_to_blocks m) ∧
    0 ≤ got ∧ (0 < got → prefix_len m t c + got = cdiv t (m_block_size m)) ∧
    len (a_free a) - get_num_evictable_blocks p (Blk <$> touched m t c) - got ≤ len (a_free a') ∧
    (ext = 0 → got = 0 ∧ a_hash a' = a_hash a ∧ ∀ i, a_ref a i ≤ a_ref a' i).

Lemma touched_len m t c : manager_wf m → 0 ≤ t → len (touched m t c) = prefix_len m t c - skipped_blocks m t.
Proof.
  intros Hwf Ht. destruct (skipped_blocks_bounds m t Hwf Ht). unfold touched, prefix_len, len. rewrite length_drop. lia.
Qed.

(** Installing a new prefix for a request without blocks. *)
Lemma mgr_put_prefix extra U m p a rid m' p' a' ids' nc' :
  mgr_inv extra U m p a → req_inv (rest extra m rid) (rest_fresh U m rid) ids' nc' p' a' → 0 ≤ nc' →
  pool_config p' = pool_config p → manager_config m' = manager_config m →
  req_to_blocks m' = <[rid := Blk <$> ids']> (req_to_blocks m) →
  num_cached_block m' = <[rid := nc']> (num_cached_block m) →
  mgr_inv extra U m' p' a'.
Proof.
  intros H Hq Hnc Hp Hm Hb Hc. eapply (mgr_close extra U m p a rid); eauto.
  - by rewrite Hb, lookup_insert_eq.
  - by rewrite Hb, delete_insert_eq.
  - right. by rewrite Hc, lookup_insert_eq.
  - by rewrite Hc, lookup_insert_eq.
  - by rewrite Hc, delete_insert_eq.
Qed.

(** The request holds the padding and the touched blocks. *)
Definition touch_post (extra : nat → Z) (U : nat → Prop) (m : Manager) (p : BlockPool) (a : APool) (rid : string)
    (c : list nat) (t : Z) (p' : BlockPool) : Prop :=
  ∃ a', req_inv (rest extra m rid) (rest_fresh U m rid)
      (replicate (Z.to_nat (skipped_blocks m t)) 0%nat ++ touched m t c) (prefix_len m t c) p' a' ∧
    len (a_free a) - get_num_evictable_blocks p (Blk <$> touched m t c) ≤ len (a_free a') ∧
    a_hash a' = a_hash a ∧ (∀ i, a_ref a i ≤ a_ref a' i) ∧ pool_config p' = pool_config p.

Lemma touch_prefix extra U m p a rid c local t :
  mgr_inv extra U m p a → (∀ i, 0 ≤ extra i) → blocks_of m rid = [] → hit_ok m p a c local → 0 ≤ t →
  wp (if m_enable_caching m then on_pool (touch (Blk <$> touched m t c)) else py_assert (len (Blk <$> touched m t c) =? 0))
    (λ _ s, s.1 = with_blocks rid [] m ∧ touch_post extra U m p a rid c t s.2) (with_blocks rid [] m, p).
Proof.
  intros H Hex Hempty Hhit Ht. pose proof (mi_wf _ _ _ _ _ H) as Hwf.
  destruct (mgr_open extra U m p a rid H Hex) as (ids & Hids & Hq). fold (blocks_of m rid) in Hids.
  rewrite Hempty in Hids. symmetry in Hids. apply fmap_nil_inv in Hids as ->.
  destruct (skipped_blocks_bounds m t Hwf Ht) as [Hs0 _].
  destruct (hit_ok_drop m p a c local (Z.to_nat (skipped_blocks m t)) Hhit) as [Hc Hnd].
  assert (wp (on_pool (touch (Blk <$> touched m t c)))
    (λ _ s, s.1 = with_blocks rid [] m ∧ touch_post extra U m p a rid c t s.2) (with_blocks rid [] m, p)) as Htouch.
  { apply wp_zoom. cbn [snd].
    eapply wp_mono; [apply (req_touch _ _ [] (cached_of m rid) p a (touched m t c) (Z.to_nat (skipped_blocks m t)) Hq); auto|].
    - by apply rest_nonneg.
    - eapply pool_inv_size, H.
    - intros _ p' (a' & Hq' & Hr). cbn [fst snd]. split; [done|]. exists a'. split; [|done].
      rewrite touched_len in Hq' by auto.
      by replace (Z.of_nat _ + _) with (prefix_len m t c) in Hq' by lia. }
  destruct (m_enable_caching m) eqn:Ee; [done|]. destruct Hhit as (_ & _ & _ & [?| ->]); [congruence|].
  assert (touched m t [] = []) as E0 by apply drop_nil. rewrite E0 in *. apply wp_assert; [done|]. exact Htouch.
Qed.

Lemma allocate_computed_new extra U m p a rid c local ext :
  mgr_inv extra U m p a → (∀ i, 0 ≤ extra i) → num_cached_block m !! rid = None → blocks_of m rid = [] →
  hit_ok m p a c local → 0 ≤ local → 0 ≤ ext →
  (0 < ext → get_num_evictable_blocks p (Blk <$> touched m (local + ext) c) +
     (cdiv (local + ext) (m_block_size m) - prefix_len m (local + ext) c) ≤ len (a_free a)) →
  wp (allocate_new_computed_blocks rid (Blk <$> c) local ext)
    (λ _ s, computed_post extra U m p a rid c (local + ext) ext s.1 s.2) (m, p).
Proof.
  intros H Hex Hnone Hempty Hhit Hlocal Hext Hbudget. pose proof (mi_wf _ _ _ _ _ H) as Hwf.
  pose proof Hwf as (Hnull & Hbs & _ & Hcls). set (t := local + ext) in *.
  destruct (skipped_blocks_bounds m t Hwf) as [Hs0 Hs1]; [lia|].
  pose proof (prefix_len_le m t c local ext p a Hwf Hhit Hlocal Hext eq_refl) as Hple.
  cut (wp (base_allocate_new_computed_blocks rid (Blk <$> c) local ext)
         (λ _ s, computed_post extra U m p a rid c t ext s.1 s.2) (m, p)).
  { intros Hbase. unfold allocate_new_computed_blocks, get_mgr. wp_step. wp_step. cbn [fst]. by destruct (m_class m). }
  unfold base_allocate_new_computed_blocks, get_mgr. wp_step. wp_step. cbn [fst]. rewrite Hnone. wp_step.
  apply wp_get_req_blocks. rewrite Hempty. wp_step. apply wp_assert; [done|]. fold t. fold (skipped_blocks m t).
  set (s := skipped_blocks m t) in *.
  assert ((if 0 <? s then py_slice_from (Blk <$> c) s else Blk <$> c) = Blk <$> touched m t c) as ->.
  { unfold touched. fold s. rewrite fmap_drop. destruct (Z.ltb_spec 0 s); [by rewrite py_slice_from_nonneg by lia|].
    by replace s with 0 by lia. }
  assert (py_repeat (m_null_block m) s = Blk <$> replicate (Z.to_nat s) 0%nat) as ->.
  { unfold py_repeat. by rewrite Hnull, fmap_replicate. }
  set (e := if 0 <? s then _ else ext).
  assert (0 < e → 0 < ext) as He. { unfold e. destruct (0 <? s); lia. }
  pose proof (touch_prefix extra U m p a rid c local t H Hex Hempty Hhit ltac:(lia)) as Htouch.
  wp_step. eapply wp_mono; [exact Htouch|]. intros _ [m1 p1] [Hm1 (a1 & Hq1 & Hf1 & Hh1 & Hrf1 & Hcfg1)].
  cbn [fst snd] in *. subst m1. cbn [app]. rewrite <-fmap_app. set (ids1 := replicate _ _ ++ _) in *.
  assert (len ids1 = prefix_len m t c) as Hl1.
  { unfold ids1. rewrite len_app, touched_len by (auto; lia). unfold len. rewrite length_replicate. lia. }
  wp_step. unfold put_req_blocks, mod_mgr. wp_step. wp_step. wp_step. cbn [fst snd]. rewrite len_fmap, Hl1.
  assert (0 ≤ prefix_len m t c) as Hpl by (unfold prefix_len; lia).
  destruct (Z.ltb_spec 0 e) as [He1|He1].
  - wp_step. apply wp_zoom. cbn [snd].
    eapply wp_mono; [apply (req_alloc _ _ _ _ _ _ (cdiv t (m_block_size m) - prefix_len m t c) Hq1);
      [by apply rest_nonneg|specialize (Hbudget (He He1)); lia]|].
    intros bs p' (new & a' & -> & Hlen & Hq' & Hfree & Hcfg). cbn [fst]. wp_step. wp_step.
    apply wp_record_new_ids. intros nids. cbn [fst snd]. exists a', (len new). split_and!.
    + eapply (mgr_put_prefix extra U m p a rid _ _ _ (ids1 ++ new)); try done; [by rewrite Hcfg|].
      cbn. by rewrite !insert_insert_eq, fmap_app.
    + done.
    + by rewrite Hcfg.
    + unfold blocks_of. cbn. rewrite lookup_insert_eq. cbn. rewrite <-fmap_app, len_fmap, len_app. lia.
    + done.
    + cbn. by rewrite !delete_insert_eq.
    + apply len_nonneg.
    + lia.
    + lia.
    + specialize (He He1). lia.
  - wp_step. cbn [fst snd]. exists a1, 0. split_and!; try done; try lia.
    + eapply (mgr_put_prefix extra U m p a rid _ _ _ ids1); try done. cbn. by rewrite !insert_insert_eq.
    + unfold blocks_of. cbn. rewrite lookup_insert_eq. cbn. rewrite len_fmap. lia.
    + cbn. by rewrite !delete_insert_eq.
Qed.

(** [allocate_new_computed_blocks] does nothing for a request already seen. *)
Lemma allocate_computed_seen m p rid local ext x (Q : unit → MS → Prop) :
  num_cached_block m !! rid = Some x → Q tt (m, p) → wp (allocate_new_computed_blocks rid [] local ext) Q (m, p).
Proof.
  intros Hx HQ. unfold allocate_new_computed_blocks, get_mgr. wp_step. wp_step. cbn [fst].
  assert (wp (base_allocate_new_computed_blocks rid [] local ext) Q (m, p)) as Hbase.
  { unfold base_allocate_new_computed_blocks, get_mgr. wp_step. wp_step. cbn [fst]. rewrite Hx. by apply wp_assert. }
  destruct (m_class m); try exact Hbase. by apply wp_assert.
Qed.

(** The number [get_num_blocks_to_allocate] computes. *)
Definition num_to_allocate (m : Manager) (p : BlockPool) (rid : string) (nt : Z) (c : list nat) (t : Z) : Z :=
  match num_cached_block m !! rid with
  | Some _ => blocks_needed m rid nt
  | None =>
      let nreq := len (blocks_of m rid) in
      Z.max (cdiv nt (m_block_size m) - Z.max (skipped_blocks m t) (len c + nreq)) 0 +
      get_num_evictable_blocks p (Blk <$> drop (Z.to_nat (Z.max 0 (skipped_blocks m t - nreq))) c)
  end.

Lemma get_num_blocks_run m p rid nt c t ntm :
  manager_wf m → (is_Some (num_cached_block m !! rid) → c = []) →
  get_num_blocks_to_allocate rid nt (Blk <$> c) t ntm (m, p) = (Ok (num_to_allocate m p rid nt c t), (m, p)).
Proof.
  intros (_ & _ & _ & Hcls) Hc. unfold get_num_blocks_to_allocate, get_mgr. erewrite bind_ok by reflexivity. cbn [fst].
  assert (base_num_blocks_to_allocate rid nt (Blk <$> c) t (m, p) = (Ok (num_to_allocate m p rid nt c t), (m, p))) as Hbase.
  2:{ destruct (m_class m); try exact Hbase. done. }
  unfold base_num_blocks_to_allocate, get_mgr, num_to_allocate, blocks_needed. erewrite bind_ok by reflexivity.
  erewrite bind_ok by reflexivity. cbn [fst snd]. unfold num_req_blocks_of. fold (blocks_of m rid).
  destruct (num_cached_block m !! rid) as [x|].
  - rewrite (Hc ltac:(eauto)). cbn. by rewrite Z.max_comm.
  - unfold ret. rewrite len_fmap. fold (skipped_blocks m t). by rewrite py_slice_from_nonneg, fmap_drop by lia.
Qed.

(** [cache_blocks] registers the full blocks up to [nt] tokens. *)
Lemma cache_blocks_inv sha256 extra U m p a r nt :
  mgr_inv extra U m p a → (∀ i, 0 ≤ extra i) → enable_caching p = true →
  0 < hash_block_size p → m_block_size m mod hash_block_size p = 0 →
  nt / m_block_size m ≤ len (blocks_of m (request_id r)) →
  nt / m_block_size m ≤ len (hash_view p r (m_block_size m)) →
  wp (cache_blocks sha256 r nt) (λ r' s, ∃ a', (∃ e, r' = set_prompt_embeds_per_block_hashes e r) ∧
    mgr_inv extra U s.1 s.2 a' ∧ manager_config s.1 = manager_config m ∧ pool_config s.2 = pool_config p ∧
    (∀ rid, blocks_of s.1 rid = blocks_of m rid) ∧ a_free a' = a_free a) (m, p).
Proof.
  intros H Hex Hen Hh Hmod Hlb Hlh. pose proof (mi_wf _ _ _ _ _ H) as (Hnull & Hbs & Hg & Hcls).
  set (rid := request_id r) in *.
  destruct (mgr_open extra U m p a rid H Hex) as (ids & Hids & Hq). fold (blocks_of m rid) in Hids.
  assert (∃ e, r = set_prompt_embeds_per_block_hashes e r) as Hself by (exists (prompt_embeds_per_block_hashes r); by destruct r).
  assert (wp (base_cache_blocks sha256 r nt) (λ r' s, ∃ a', (∃ e, r' = set_prompt_embeds_per_block_hashes e r) ∧
    mgr_inv extra U s.1 s.2 a' ∧ manager_config s.1 = manager_config m ∧ pool_config s.2 = pool_config p ∧
    (∀ rid, blocks_of s.1 rid = blocks_of m rid) ∧ a_free a' = a_free a) (m, p)) as Hbase.
  2:{ unfold cache_blocks, get_mgr. wp_step. wp_step. cbn [fst]. by destruct (m_class m), (m_spec m). }
  unfold base_cache_blocks, get_mgr. wp_step. wp_step. cbn [fst]. fold rid.
  destruct (Z.leb_spec (nt / m_block_size m) (cached_of m rid)) as [Hle|Hlt].
  { wp_step. cbn [fst snd]. exists a. split_and!; auto. }
  assert (0 ≤ cached_of m rid) as Hc0.
  { destruct (num_cached_block m !! rid) as [x|] eqn:E; [|done]. by apply (mi_cached _ _ _ _ _ H rid). }
  rewrite Hids, len_fmap in Hlb. wp_step. apply wp_get_req_blocks. rewrite Hids. wp_step. apply wp_zoom. cbn [snd].
  eapply wp_mono; [eapply (req_cache _ _ sha256 r ids (cached_of m rid) (nt / m_block_size m) (m_block_size m)
    (kv_cache_group_id m) p a Hq); auto; by apply rest_nonneg|].
  intros r' p' (a' & Hr' & Hq' & Hfree & Hcfg). cbn [fst]. wp_step. unfold mod_mgr. wp_step. wp_step. cbn [fst snd].
  exists a'. split_and!; try done.
  - eapply (mgr_put_prefix extra U m p a rid _ _ _ ids (nt / m_block_size m)); try done. lia.
  - intros rid'. unfold blocks_of. cbn. destruct (decide (rid' = rid)) as [->|Hne].
    + rewrite lookup_insert_eq. cbn. by fold (blocks_of m rid).
    + by rewrite lookup_insert_ne.
Qed.
