(* ===== verification/CacheHit.v ===== *)
(** * Prefix-cache lookup of the managers ([find_longest_cache_hit])

    The class methods of vllm/v1/core/single_type_kv_cache_manager.py that find
    the longest usable prefix of a request in the cache.  They read the pool
    and return, per group, the list of cached blocks, with null blocks for
    positions the attention type does not need. *)

From S2P Require Import Prelude FreeQueue RequestModel BlockHash BlockPool KVCacheInterface SingleTypeManager.

(** ** Definitions *)

(** [if cached_block := block_pool.get_cached_block(h, ids)]: an empty list is
    falsy. *)
Definition lookup_block (h : bytes) (gids : list Z) : M BlockPool (option (list ref)) :=
  let! r := get_cached_block h gids in
  ret (match r with Some (b :: bs) => Some (b :: bs) | _ => None end).

(** [for computed, cached in zip(computed_blocks, cached_block): computed.append(cached)] *)
Definition append_each (computed : list (list ref)) (cached : list ref) : list (list ref) :=
  zip_with (λ c b, c ++ [b]) computed cached ++ drop (length cached) computed.

(** [computed[i] = cached] *)
Definition assign_each (i : nat) (computed : list (list ref)) (cached : list ref) : list (list ref) :=
  zip_with (λ c b, <[i := b]> c) computed cached ++ drop (length cached) computed.

(** [len(computed_blocks[0])] *)
Definition first_len (computed : list (list ref)) : M BlockPool Z :=
  let! c := py_index computed 0 in ret (len c).

(** [for computed in computed_blocks: computed.pop()] *)
Definition pop_each (computed : list (list ref)) : M BlockPool (list (list ref)) :=
  map_m computed (λ c, match c with [] => raise IndexError | _ => ret (removelast c) end).

(** [while block_size != alignment_tokens and len * block_size % alignment_tokens != 0: pop];
    one round per block is enough. *)
Fixpoint align_loop (fuel : nat) (block_size alignment_tokens : Z) (computed : list (list ref))
    : M BlockPool (list (list ref)) :=
  let! n := first_len computed in
  if negb (block_size =? alignment_tokens) && negb (n * block_size mod alignment_tokens =? 0) then
    match fuel with
    | O => raise OutOfFuel
    | S fuel => let! c := pop_each computed in align_loop fuel block_size alignment_tokens c
    end
  else ret computed.
Definition align_blocks (block_size alignment_tokens : Z) (computed : list (list ref)) : M BlockPool (list (list ref)) :=
  let! n := first_len computed in align_loop (Z.to_nat n) block_size alignment_tokens computed.

(** [list(itertools.islice(block_hashes, n))] *)
Definition bhl_prefix (l : BlockHashList) (n : Z) : M BlockPool (list bytes) :=
  if n <? 0 then raise ValueError
  else match mapM (bhl_get l) (py_range 0 (Z.min n (bhl_len l))) with
       | Some hs => ret hs
       | None => raise IndexError
       end.

Definition bhl_index (l : BlockHashList) (i : Z) : M BlockPool bytes :=
  match bhl_get l i with Some h => ret h | None => raise IndexError end.

Fixpoint full_hit_loop (hashes : list bytes) (gids : list Z) (computed : list (list ref))
    : M BlockPool (list (list ref)) :=
  match hashes with
  | [] => ret computed
  | h :: hashes =>
      let! r := lookup_block h gids in
      match r with
      | Some cached => full_hit_loop hashes gids (append_each computed cached)
      | None => ret computed
      end
  end.

(** [FullAttentionManager.find_longest_cache_hit] *)
Definition full_find (hashes : BlockHashList) (max_length : Z) (gids : list Z) (spec : KVCacheSpec)
    (use_eagle : bool) (alignment_tokens dcp pcp : Z) : M BlockPool (list (list ref)) :=
  py_assert (is_full_attention spec || match spec with ChunkedLocalAttentionSpec _ _ _ => true | _ => false end) ;;;
  let bs := if 1 <? dcp * pcp then block_size spec * (dcp * pcp) else block_size spec in
  let! hs := bhl_prefix hashes (max_length / bs) in
  let! computed := full_hit_loop hs gids (replicate (length gids) []) in
  let! n := (if use_eagle then first_len computed else ret 0) in
  let! computed := (if use_eagle && (0 <? n) then pop_each computed else ret computed) in
  align_blocks bs alignment_tokens computed.

(** The right-to-left scan of the sliding-window manager at indices below [i];
    returns the blocks, [num_contiguous_blocks] and [match_found]. *)
Fixpoint sw_loop (i : nat) (hashes : BlockHashList) (gids : list Z) (bs alignment_tokens needed : Z)
    (computed : list (list ref)) (num_contiguous_blocks : Z) : M BlockPool (list (list ref) * Z * bool) :=
  match i with
  | O => ret (computed, num_contiguous_blocks, false)
  | S i =>
      let! h := bhl_index hashes (Z.of_nat i) in
      let! r := lookup_block h gids in
      match r with
      | Some cached =>
          if (num_contiguous_blocks =? 0) && negb (bs =? alignment_tokens)
             && negb ((Z.of_nat i + 1) * bs mod alignment_tokens =? 0)
          then sw_loop i hashes gids bs alignment_tokens needed computed num_contiguous_blocks
          else
            let computed := assign_each i computed cached in
            let n := num_contiguous_blocks + 1 in
            if needed <=? n then ret ((λ c, py_slice_to c (Z.of_nat i + n)) <$> computed, n, true)
            else sw_loop i hashes gids bs alignment_tokens needed computed n
      | None => sw_loop i hashes gids bs alignment_tokens needed computed 0
      end
  end.

(** [SlidingWindowManager.find_longest_cache_hit] *)
Definition sw_find (hashes : BlockHashList) (max_length : Z) (gids : list Z) (spec : KVCacheSpec)
    (use_eagle : bool) (alignment_tokens dcp pcp : Z) : M BlockPool (list (list ref)) :=
  match spec with
  | SlidingWindowSpec bs _ window =>
      py_assert ((dcp =? 1) && (pcp =? 1)) ;;;
      let needed := cdiv (window - 1) bs + (if use_eagle then 1 else 0) in
      let max_num_blocks := max_length / bs in
      let! p := gets id in
      let! r := sw_loop (Z.to_nat max_num_blocks) hashes gids bs alignment_tokens needed
                  (replicate (length gids) (py_repeat (null_block p) max_num_blocks)) 0 in
      let '(computed, n, match_found) := r in
      let! computed :=
        (if (match_found : bool) then ret computed
         else align_blocks bs alignment_tokens ((λ c, py_slice_to c n) <$> computed)) in
      let! k := (if use_eagle then first_len computed else ret 0) in
      if use_eagle && (0 <? k) then
        let! computed := pop_each computed in align_blocks bs alignment_tokens computed
      else ret computed
  | _ => raise AssertionError
  end.

Fixpoint chunked_loop (idxs : list Z) (hashes : BlockHashList) (gids : list Z) (computed : list (list ref))
    : M BlockPool (list (list ref)) :=
  match idxs with
  | [] => ret computed
  | i :: idxs =>
      let! h := bhl_index hashes i in
      let! r := lookup_block h gids in
      match r with
      | Some cached => chunked_loop idxs hashes gids (append_each computed cached)
      | None => ret computed
      end
  end.

(** [ChunkedLocalAttentionManager.find_longest_cache_hit] *)
Definition chunked_find (hashes : BlockHashList) (max_length : Z) (gids : list Z) (spec : KVCacheSpec)
    (use_eagle : bool) (alignment_tokens dcp pcp : Z) : M BlockPool (list (list ref)) :=
  match spec with
  | ChunkedLocalAttentionSpec bs _ chunk =>
      py_assert (negb use_eagle && (dcp =? 1) && (pcp =? 1) && (bs =? alignment_tokens)) ;;;
      let max_num_blocks := max_length / bs in
      let start := if 0 <? max_length then max_length / chunk * chunk else 0 in
      let start_block := start / bs in
      let! p := gets id in
      chunked_loop (py_range start_block max_num_blocks) hashes gids
        (replicate (length gids) (py_repeat (null_block p) start_block))
  | _ => raise AssertionError
  end.

Fixpoint mamba_loop (i : nat) (hashes : BlockHashList) (gids : list Z) (bs alignment_tokens : Z) (null : ref)
    : M BlockPool (list (list ref)) :=
  match i with
  | O => ret (replicate (length gids) [])
  | S i =>
      let! h := bhl_index hashes (Z.of_nat i) in
      let! r := lookup_block h gids in
      match r with
      | Some cached =>
          if negb (bs =? alignment_tokens) && negb ((Z.of_nat i + 1) * bs mod alignment_tokens =? 0)
          then mamba_loop i hashes gids bs alignment_tokens null
          else ret ((λ b, replicate i null ++ [b]) <$> cached)
      | None => mamba_loop i hashes gids bs alignment_tokens null
      end
  end.

(** [MambaManager.find_longest_cache_hit] *)
Definition mamba_find (hashes : BlockHashList) (max_length : Z) (gids : list Z) (spec : KVCacheSpec)
    (alignment_tokens dcp pcp : Z) : M BlockPool (list (list ref)) :=
  match spec with
  | MambaSpec bs _ =>
      py_assert ((dcp =? 1) && (pcp =? 1)) ;;;
      let! p := gets id in
      mamba_loop (Z.to_nat (max_length / bs)) hashes gids bs alignment_tokens (null_block p)
  | _ => raise AssertionError
  end.

(** [CrossAttentionManager.find_longest_cache_hit] *)
Definition cross_find (spec : KVCacheSpec) : M BlockPool (list (list ref)) :=
  match spec with
  | CrossAttentionSpec _ _ => raise NotImplementedError
  | _ => raise AssertionError
  end.

(** [manager_cls.find_longest_cache_hit(...)] *)
Definition find_longest_cache_hit (cls : ManagerClass) (hashes : BlockHashList) (max_length : Z) (gids : list Z)
    (spec : KVCacheSpec) (use_eagle : bool) (alignment_tokens dcp pcp : Z) : M BlockPool (list (list ref)) :=
  match cls with
  | FullAttentionManager | SinkFullAttentionManager =>
      full_find hashes max_length gids spec use_eagle alignment_tokens dcp pcp
  | SlidingWindowManager => sw_find hashes max_length gids spec use_eagle alignment_tokens dcp pcp
  | ChunkedLocalAttentionManager => chunked_find hashes max_length gids spec use_eagle alignment_tokens dcp pcp
  | MambaManager => mamba_find hashes max_length gids spec alignment_tokens dcp pcp
  | CrossAttentionManager => cross_find spec
  end.

(** ** Counterexample: the re-alignment after an EAGLE drop *)

(** Six cached blocks (block [k + 1] of the pool holds hash [k]); window 33
    over blocks of 16 tokens, so two blocks before the next token must be
    present; alignment of 32 tokens. *)
Definition hash_of (k : nat) : bytes := [byte_of_Z (Z.of_nat k)].
Definition six_cached : BlockPool :=
  (run_pool_ops id
     [PNew 6; PCache (set_block_hashes (hash_of <$> seq 0 6) toy_request) [1; 2; 3; 4; 5; 6]%nat 0 6 16 0]
     (empty_pool 8 true 16)).2.
Definition window_33 : KVCacheSpec := SlidingWindowSpec 16 toy_attention 33.

(** With EAGLE and a coarser alignment, the sliding-window lookup can
    return a hit whose window is not in the cache: for a window that needs the
    last two blocks, all six blocks of the prompt cached and an alignment of two
    blocks, the result claims four cached blocks but the second last of them,
    inside the window, is the null block, although the block is in the cache. *)
Theorem sw_eagle_realign_breaks_window :
  (sw_find (PlainHashes (hash_of <$> seq 0 6)) 96 [0] window_33 true 32 1 1 six_cached).1 =
    Ok [[Blk 0; Blk 0; Blk 0; Blk 4]] ∧
  cdiv (33 - 1) 16 = 2 ∧ null_block six_cached = Blk 0 ∧
  (get_cached_block (hash_of 2) [0] six_cached).1 = Ok (Some [Blk 3]).
Proof. by vm_compute. Qed.

(** ** What a lookup may return *)

(** The hash list [l] is a view of the plain list [hs]. *)
Definition bhl_is (l : BlockHashList) (hs : list bytes) : Prop :=
  bhl_len l = len hs ∧ ∀ i : nat, bhl_get l (Z.of_nat i) = hs !! i.

Lemma bhl_is_plain hs : bhl_is (PlainHashes hs) hs.
Proof. split; [done|]. intros i. cbn. by rewrite py_get_nonneg, Nat2Z.id by lia. Qed.

Lemma bhl_is_scaled hashes q : 0 < q → bhl_is (ScaledHashes (MkHashList hashes q)) (coarse_hashes hashes q).
Proof.
  intros Hq. split; [by rewrite len_coarse_hashes|]. intros i. cbn. rewrite hl_get_coarse by done.
  change (hl_len _) with (len hashes / q). unfold coarse_hashes. rewrite list_lookup_fmap. case_decide.
  - by rewrite lookup_seq_lt by lia.
  - by rewrite lookup_seq_ge by lia.
Qed.

(** Block counts that are multiples of the alignment. *)
Definition aligned (bs al : Z) (n : nat) : Prop := bs = al ∨ Z.of_nat n * bs mod al = 0.

Lemma take_0_each (cs : list (list ref)) : take 0 <$> cs = replicate (length cs) [].
Proof. induction cs as [|c cs IH]; [done|]. cbn. by f_equal. Qed.

Lemma zip_each_spec (gids : list Z) (f : list ref → ref → list ref) cs rs
    (Q R : Z → list ref → Prop) (G : Z → ref → Prop) :
  Forall2 Q gids cs → Forall2 G gids rs → (∀ g c r, Q g c → G g r → R g (f c r)) →
  Forall2 R gids (zip_with f cs rs ++ drop (length rs) cs).
Proof.
  intros HQ HG Hf. rewrite drop_ge, app_nil_r.
  2:{ by rewrite <-(Forall2_length _ _ _ HQ), <-(Forall2_length _ _ _ HG). }
  revert rs HG. induction HQ as [|g c gs cs Hq _ IH]; intros rs HG; inversion HG; subst; cbn; constructor; auto.
Qed.

Section hits.
Context (p : BlockPool) (a : APool) (gids : list Z) (hs : list bytes).
Context (Hinv : pool_inv p a).
Context (Hgids : gids ≠ [] ∧ Forall (λ g, 0 ≤ g < 2 ^ 32) gids).

(** [r] is a cached block for position [k] of group [g]. *)
Definition good_at (g : Z) (k : nat) (r : ref) : Prop :=
  ∃ h i, hs !! k = Some h ∧ r = Blk i ∧ (i < pool_size p)%nat ∧ a_hash a i = Some (group_key h g).

(** Position [k] is cached for every group. *)
Definition Hit (k : nat) : Prop :=
  ∃ h, hs !! k = Some h ∧ ∀ g, g ∈ gids → ∃ i, (i < pool_size p)%nat ∧ a_hash a i = Some (group_key h g).

(** Per group a list of [n] blocks, each satisfying [P]. *)
Definition shape (n : nat) (P : Z → nat → ref → Prop) (computed : list (list ref)) : Prop :=
  Forall2 (λ g c, length c = n ∧ ∀ k r, c !! k = Some r → P g k r) gids computed.

Lemma good_not_null g k r : good_at g k r → r ≠ null_block p.
Proof.
  destruct Hinv as [Hr Hok]. intros (h & i & _ & -> & _ & Hh). rewrite (pr_null _ _ Hr).
  intros [= ->]. by rewrite (ok_null _ _ Hok) in Hh.
Qed.

Lemma lookup_block_spec k h :
  hs !! k = Some h →
  (∃ rs, lookup_block h gids p = (Ok (Some rs), p) ∧ Forall2 (λ g r, good_at g k r) gids rs ∧ Hit k) ∨
  (lookup_block h gids p = (Ok None, p) ∧ ¬ Hit k).
Proof.
  intros Hk. destruct Hinv as [Hr Hok], Hgids as [Hne Hgs]. unfold lookup_block, bind.
  destruct (get_cached_block_rep p a h gids Hr Hgs) as [(ids & -> & HF)|[-> (g & key & Hg & Hkey & Hn)]].
  - left. exists (Blk <$> ids). split_and!.
    + destruct ids as [|i ids]; [by inversion HF|done].
    + apply Forall2_fmap_r. eapply Forall2_impl; [exact HF|]. intros g i (Hi & key & Hkey & Hh).
      exists h, i. split_and!; auto. unfold group_key. by rewrite Hkey.
    + exists h. split; [done|]. intros g Hg. apply list_elem_of_lookup in Hg as [j Hj].
      destruct (Forall2_lookup_l _ _ _ _ _ HF Hj) as (i & _ & Hi & key & Hkey & Hh).
      exists i. split; [done|]. unfold group_key. by rewrite Hkey.
  - right. split; [done|]. intros (h' & Hh' & Hall). simplify_eq.
    destruct (Hall g Hg) as (i & Hi & Hh). apply (Hn i Hi). rewrite Hh. unfold group_key. by rewrite Hkey.
Qed.

(** ** Shapes under the list operations *)

Lemma shape_impl n (P Q : Z → nat → ref → Prop) cs :
  (∀ g k r, (k < n)%nat → P g k r → Q g k r) → shape n P cs → shape n Q cs.
Proof.
  intros HPQ Hs. eapply Forall2_impl; [exact Hs|]. intros g c [Hl Hc]. split; [done|].
  intros k r Hk. apply HPQ; [|auto]. rewrite <-Hl. by eapply lookup_lt_Some.
Qed.

Lemma shape_init n (P : Z → nat → ref → Prop) x :
  (∀ g k, P g k x) → shape n P (replicate (length gids) (replicate n x)).
Proof.
  intros HP. apply Forall2_same_length_lookup. split; [by rewrite length_replicate|].
  intros j g c Hg Hc. apply lookup_replicate in Hc as [-> _]. split; [apply length_replicate|].
  intros k r Hk. by apply lookup_replicate in Hk as [-> _].
Qed.

Lemma shape_nil (P : Z → nat → ref → Prop) : shape 0 P (replicate (length gids) []).
Proof.
  apply Forall2_same_length_lookup. split; [by rewrite length_replicate|].
  intros j g c Hg Hc. by apply lookup_replicate in Hc as [-> _].
Qed.

Lemma append_each_shape n (P : Z → nat → ref → Prop) cs rs :
  shape n P cs → Forall2 (λ g r, P g n r) gids rs → shape (S n) P (append_each cs rs).
Proof.
  intros Hs Hr. eapply zip_each_spec; [exact Hs|exact Hr|].
  intros g c r [Hl Hc] HP. split; [rewrite length_app, Hl; cbn; lia|].
  intros k x [Hx|[Hge Hx]]%lookup_app_Some; [auto|].
  apply list_lookup_singleton_Some in Hx as [Hk ->]. by replace k with n by lia.
Qed.

Lemma assign_each_shape n i (P Q : Z → nat → ref → Prop) cs rs :
  shape n P cs → Forall2 (λ g r, Q g i r) gids rs → (∀ g k r, k ≠ i → P g k r → Q g k r) →
  shape n Q (assign_each i cs rs).
Proof.
  intros Hs Hr HPQ. eapply zip_each_spec; [exact Hs|exact Hr|].
  intros g c r [Hl Hc] HQ. split; [by rewrite length_insert|].
  intros k x Hx. apply list_lookup_insert_Some in Hx as [(<- & <- & _)|[Hne Hx]]; auto.
Qed.

Lemma take_shape n m (P : Z → nat → ref → Prop) cs :
  (m ≤ n)%nat → shape n P cs → shape m P (take m <$> cs).
Proof.
  intros Hm Hs. apply Forall2_fmap_r. eapply Forall2_impl; [exact Hs|]. intros g c [Hl Hc].
  cbn. split; [rewrite length_take; lia|]. intros k r [Hk _]%lookup_take_Some. auto.
Qed.

Lemma shape_first n P cs : shape n P cs → first_len cs p = (Ok (Z.of_nat n), p).
Proof.
  intros Hs. destruct Hgids as [Hne _]. destruct Hs as [|g c gs cs' [Hl _]]; [done|].
  by rewrite <-Hl.
Qed.

Lemma pop_each_shape n (P : Z → nat → ref → Prop) cs :
  shape (S n) P cs → pop_each cs p = (Ok (take n <$> cs), p).
Proof.
  intros Hs. unfold pop_each. destruct Hgids as [_ _]. clear -Hs.
  assert (Forall (λ c, length c = S n) cs) as Hl.
  { apply Forall_forall. intros c Hc. apply list_elem_of_lookup in Hc as [j Hj].
    by destruct (Forall2_lookup_r _ _ _ _ _ Hs Hj) as (g & _ & Hlen & _). }
  clear Hs. induction Hl as [|c cs Hc _ IH]; [done|]. cbn [map_m fmap list_fmap].
  unfold bind at 1. destruct c as [|x c]; [done|].
  assert (removelast (x :: c) = take n (x :: c)) as Hrm.
  { destruct (x :: c) as [|y l'] eqn:E using rev_ind; [done|].
    rewrite removelast_last. rewrite length_app in Hc. cbn in Hc. rewrite take_app_le by lia. rewrite take_ge by lia. done. }
  unfold ret at 1. rewrite Hrm. unfold bind. by rewrite IH.
Qed.

Lemma take_each_all n P cs : shape n P cs → take n <$> cs = cs.
Proof.
  intros Hs. rewrite <-(list_fmap_id cs) at 2. apply list_fmap_ext. intros j c Hj.
  destruct (Forall2_lookup_r _ _ _ _ _ Hs Hj) as (g & _ & Hl & _). by rewrite take_ge by lia.
Qed.

Lemma take_each_take n m cs : (m ≤ n)%nat → take m <$> (take n <$> cs : list (list ref)) = take m <$> cs.
Proof.
  intros Hm. rewrite <-list_fmap_compose. apply list_fmap_ext. intros j c _. cbn.
  rewrite take_take. f_equal. lia.
Qed.

(** Popping down to the alignment gives the largest aligned length. *)
Lemma align_blocks_spec bs al m P cs :
  shape m P cs → ∃ L, align_blocks bs al cs p = (Ok (take L <$> cs), p) ∧ (L ≤ m)%nat ∧
    aligned bs al L ∧ ∀ L', (L < L' ≤ m)%nat → ¬ aligned bs al L'.
Proof.
  intros Hs. unfold align_blocks, bind. rewrite (shape_first _ _ _ Hs). rewrite Nat2Z.id.
  revert cs Hs. induction m as [|m IH]; intros cs Hs.
  - exists 0%nat. cbn [align_loop]. unfold bind. rewrite (shape_first _ _ _ Hs). cbn.
    rewrite andb_false_r, (take_each_all _ _ _ Hs). split_and!; [done|lia|by right|lia].
  - cbn [align_loop]. unfold bind at 1. rewrite (shape_first _ _ _ Hs).
    destruct (negb (bs =? al) && negb (Z.of_nat (S m) * bs mod al =? 0)) eqn:E.
    + apply andb_true_iff in E as [E1%negb_true_iff%Z.eqb_neq E2%negb_true_iff%Z.eqb_neq].
      unfold bind. rewrite (pop_each_shape _ _ _ Hs).
      destruct (IH (take m <$> cs)) as (L & -> & HL & Hal & Hmax); [by eapply take_shape; [|done]; lia|].
      exists L. rewrite take_each_take by done. split_and!; [done|lia|done|].
      intros L' HL'. destruct (decide (L' = S m)) as [->|]; [|apply Hmax; lia]. by intros [?|?].
    + exists (S m). unfold ret. rewrite (take_each_all _ _ _ Hs). split_and!; [done|lia| |lia].
      apply andb_false_iff in E as [E|E]; apply negb_false_iff, Z.eqb_eq in E; [by left|by right].
Qed.

(** ** Full attention *)

Lemma full_hit_loop_spec j rest cs :
  rest = drop j hs ∨ (∃ cap, rest = drop j (take cap hs)) →
  shape j good_at cs → (∀ k, (k < j)%nat → Hit k) →
  ∃ m cs', full_hit_loop rest gids cs p = (Ok cs', p) ∧ shape m good_at cs' ∧
    (j ≤ m ≤ j + length rest)%nat ∧ (∀ k, (k < m)%nat → Hit k) ∧ (m = (j + length rest)%nat ∨ ¬ Hit m).
Proof.
  intros Hrest. revert j cs Hrest. induction rest as [|h rest IH]; intros j cs Hrest Hs Hhit.
  { exists j, cs. split_and!; auto; cbn; lia. }
  assert (hs !! j = Some h ∧ (rest = drop (S j) hs ∨ ∃ cap, rest = drop (S j) (take cap hs))) as [Hj Hrest'].
  { destruct Hrest as [Hr|[cap Hr]].
    - split; [rewrite <-(Nat.add_0_r j), <-lookup_drop, <-Hr; done|left].
      replace (S j) with (j + 1)%nat by lia. by rewrite <-drop_drop, <-Hr.
    - split; [|right; exists cap; replace (S j) with (j + 1)%nat by lia; by rewrite <-drop_drop, <-Hr].
      assert (take cap hs !! j = Some h) as Ht by (rewrite <-(Nat.add_0_r j), <-lookup_drop, <-Hr; done).
      by apply lookup_take_Some in Ht as [? _]. }
  cbn [full_hit_loop length]. unfold bind.
  destruct (lookup_block_spec j h Hj) as [(rs & -> & HF & Hhere)|[-> Hmiss]].
  - destruct (IH (S j) (append_each cs rs) Hrest') as (m & cs' & Heq & Hs' & Hm & Hall & Hmax).
    { by apply append_each_shape. }
    { intros k Hk. destruct (decide (k = j)) as [->|]; [done|apply Hhit; lia]. }
    exists m, cs'. split_and!; auto; try lia. destruct Hmax; [left; lia|by right].
  - exists j, cs. split_and!; auto; try lia.
Qed.

Lemma bhl_prefix_spec l n :
  bhl_is l hs → 0 ≤ n → bhl_prefix l n p = (Ok (take (Z.to_nat n) hs), p).
Proof.
  intros [Hlen Hget] Hn. unfold bhl_prefix. destruct (Z.ltb_spec n 0); [lia|]. rewrite Hlen.
  assert (mapM (bhl_get l) (py_range 0 (n `min` len hs)) = Some (take (Z.to_nat n) hs)) as ->; [|done].
  rewrite py_range_seq by lia. apply mapM_Some, Forall2_fmap_l, Forall2_same_length_lookup.
  rewrite length_seq, length_take. unfold len. split; [lia|].
  intros i x h [-> Hi]%lookup_seq [Hh _]%lookup_take_Some. cbn. by rewrite Hget.
Qed.

(** What the caller gets: [L] blocks per group, all cached. *)
Definition drop_eagle (use_eagle : bool) : nat := if use_eagle then 1 else 0.

Lemma full_find_spec l max_length spec use_eagle al dcp pcp :
  bhl_is l hs → is_full_attention spec = true → 0 < block_size spec → dcp * pcp ≤ 1 → 0 ≤ max_length →
  ∃ L cs, full_find l max_length gids spec use_eagle al dcp pcp p = (Ok cs, p) ∧
    shape L good_at cs ∧ Z.of_nat L * block_size spec ≤ max_length ∧ aligned (block_size spec) al L ∧
    (∀ k, (k < L)%nat → Hit k) ∧
    (∀ L', aligned (block_size spec) al L' →
       Z.of_nat (L' + drop_eagle use_eagle) * block_size spec ≤ max_length → (L' + drop_eagle use_eagle ≤ length hs)%nat →
       (∀ k, (k < L' + drop_eagle use_eagle)%nat → Hit k) → (L' ≤ L)%nat).
Proof.
  intros Hl Hfull Hbs Hw Hmax. unfold full_find, bind. rewrite Hfull. cbn [orb py_assert ret].
  destruct (Z.ltb_spec 1 (dcp * pcp)); [lia|]. set (bs := block_size spec) in *.
  assert (0 ≤ max_length / bs) as Hn by (apply Z.div_pos; lia).
  rewrite (bhl_prefix_spec l _ Hl Hn).
  destruct (full_hit_loop_spec 0 (take (Z.to_nat (max_length / bs)) hs) (replicate (length gids) []))
    as (m & cs & -> & Hs & Hm & Hhit & Hstop).
  { right. by exists (Z.to_nat (max_length / bs)). }
  { apply shape_nil. }
  { lia. }
  cbn [Nat.add] in Hm, Hstop. rewrite length_take in Hm, Hstop.
  pose (m' := (m - drop_eagle use_eagle)%nat).
  assert (∃ n, (if use_eagle then first_len cs else ret 0) p = (Ok n, p) ∧
    (if use_eagle && (0 <? n) then pop_each cs else ret cs) p = (Ok (take m' <$> cs), p)) as (n & -> & ->).
  { unfold m', drop_eagle. destruct use_eagle.
    - exists (Z.of_nat m). split; [by eapply shape_first|]. cbn [andb]. destruct (Z.ltb_spec 0 (Z.of_nat m)).
      + destruct m as [|m]; [lia|]. rewrite (pop_each_shape _ _ _ Hs). by replace (S m - 1)%nat with m by lia.
      + replace m with 0%nat in * by lia. change (0 - 1)%nat with 0%nat. by rewrite (take_each_all _ _ _ Hs).
    - exists 0. split; [done|]. replace (m - 0)%nat with m by lia. by rewrite (take_each_all _ _ _ Hs). }
  pose proof (take_shape m m' good_at cs ltac:(lia) Hs) as Hs'.
  destruct (align_blocks_spec bs al m' good_at _ Hs') as (L & -> & HL & Hal & Hmaxl).
  exists L, (take L <$> (take m' <$> cs)). split_and!; auto.
  - by apply (take_shape m').
  - pose proof (Z.mul_div_le max_length bs Hbs). nia.
  - intros k Hk. apply Hhit. lia.
  - intros L' Hal' Hle Hlen Hall. destruct (decide (L' ≤ L)%nat) as [|Hgt]; [done|]. exfalso.
    apply (Hmaxl L'); [|done]. split; [lia|]. unfold m'.
    assert (Z.of_nat (L' + drop_eagle use_eagle) ≤ max_length / bs) by (apply Z.div_le_lower_bound; lia).
    destruct (decide (L' + drop_eagle use_eagle ≤ m)%nat) as [|Hgt']; [lia|]. exfalso.
    destruct Hstop as [->|Hmiss]; [lia|]. apply Hmiss, Hall. lia.
Qed.

(** ** Sliding window *)

(** A usable length: aligned, and the last [needed] blocks are cached. *)
Definition window_ok (bs al : Z) (needed L : nat) : Prop :=
  aligned bs al L ∧ ∀ k, (L ≤ k + needed)%nat → (k < L)%nat → Hit k.

Definition null_or_good (g : Z) (k : nat) (r : ref) : Prop := r = null_block p ∨ good_at g k r.

Lemma null_or_good_shape L needed (P : Z → nat → ref → Prop) n cs :
  (L ≤ n)%nat → shape n P cs →
  (∀ g k r, (k < L)%nat → P g k r → null_or_good g k r ∧ ((L ≤ k + needed)%nat → good_at g k r)) →
  shape L (λ g k r, null_or_good g k r ∧ ((L ≤ k + needed)%nat → good_at g k r)) (take L <$> cs).
Proof. intros HL Hs HP. eapply shape_impl; [exact HP|]. by eapply take_shape. Qed.

(** The scan finds the longest usable length. *)
Lemma sw_loop_spec l bs al needed N i nc cs :
  bhl_is l hs → (N ≤ length hs)%nat → (i + nc ≤ N)%nat → (nc < needed)%nat →
  shape N (λ g k r, null_or_good g k r ∧ ((i ≤ k < i + nc)%nat → good_at g k r)) cs →
  (nc = 0%nat ∨ aligned bs al (i + nc)) → (∀ k, (i ≤ k < i + nc)%nat → Hit k) →
  (∀ L', (i + nc < L' ≤ N)%nat → ¬ window_ok bs al needed L') →
  ∃ cs' n found L,
    sw_loop i l gids bs al (Z.of_nat needed) cs (Z.of_nat nc) p = (Ok (cs', Z.of_nat n, found), p) ∧
    (found = false → n = L) ∧
    shape L (λ g k r, null_or_good g k r ∧ ((L ≤ k + needed)%nat → good_at g k r))
      (if found then cs' else take n <$> cs') ∧
    (L ≤ N)%nat ∧ window_ok bs al needed L ∧ ∀ L', (L < L' ≤ N)%nat → ¬ window_ok bs al needed L'.
Proof.
  intros Hl HN. revert nc cs. induction i as [|i IH]; intros nc cs Hi Hnc Hs Hal Hhit Hmax.
  { exists cs, nc, false, nc. cbn [sw_loop]. split_and!; try done.
    - eapply null_or_good_shape; [|exact Hs|]; [lia|]. intros g k r Hk [H1 H2]. split; [done|].
      intros _. apply H2. lia.
    - split; [destruct Hal as [->|Hal]; [by right|done]|].
      intros k _ Hk. apply Hhit. lia. }
  cbn [sw_loop]. unfold bhl_index, bind at 1. destruct Hl as [Hlen Hget]. rewrite Hget.
  destruct (lookup_lt_is_Some_2 hs i ltac:(lia)) as [h Hh]. rewrite Hh. cbn [ret]. unfold bind at 1.
  destruct (lookup_block_spec i h Hh) as [(rs & -> & HF & Hhere)|[-> Hmiss]].
  - destruct ((Z.of_nat nc =? 0) && negb (bs =? al) && negb ((Z.of_nat i + 1) * bs mod al =? 0)) eqn:E.
    + apply andb_true_iff in E as [[E1%Z.eqb_eq E2%negb_true_iff%Z.eqb_neq]%andb_true_iff E3%negb_true_iff%Z.eqb_neq].
      assert (nc = 0%nat) as -> by lia. apply (IH 0%nat); auto; try lia.
      * eapply shape_impl; [|exact Hs]. intros g k r _ [H1 _]. split; [done|]. lia.
      * intros L' HL'. destruct (decide (L' = S i)) as [->|]; [|apply Hmax; lia].
        intros [[?|Hal'] _]; [done|]. apply E3. rewrite <-Hal'. f_equal. lia.
    + assert (aligned bs al (i + S nc)) as Hal'.
      { destruct Hal as [->|Hal]; [|by replace (i + S nc)%nat with (S i + nc)%nat by lia].
        apply andb_false_iff in E as [[E|E]%andb_false_iff|E].
        - by apply Z.eqb_neq in E.
        - left. by apply negb_false_iff, Z.eqb_eq in E.
        - right. apply negb_false_iff, Z.eqb_eq in E. rewrite <-E. f_equal. lia. }
      assert (shape N (λ g k r, null_or_good g k r ∧ ((i ≤ k < i + S nc)%nat → good_at g k r)) (assign_each i cs rs)) as Hs'.
      { eapply assign_each_shape; [exact Hs| |].
        - eapply Forall2_impl; [exact HF|]. intros g r Hg. cbn. split; [by right|done].
        - intros g k r Hk [H1 H2]. split; [done|]. intros. apply H2. lia. }
      assert (∀ k, (i ≤ k < i + S nc)%nat → Hit k) as Hhit'.
      { intros k Hk. destruct (decide (k = i)) as [->|]; [done|apply Hhit; lia]. }
      assert (∀ L', (i + S nc < L' ≤ N)%nat → ¬ window_ok bs al needed L') as Hmax' by (intros; apply Hmax; lia).
      replace (Z.of_nat nc + 1) with (Z.of_nat (S nc)) by lia.
      destruct (Z.leb_spec (Z.of_nat needed) (Z.of_nat (S nc))) as [Hge|Hlt].
      * eexists _, (S nc), true, (i + S nc)%nat. split_and!; [done|done| |lia| |exact Hmax'].
        -- replace (Z.of_nat i + Z.of_nat (S nc)) with (Z.of_nat (i + S nc)) by lia.
           assert (((λ c : list ref, py_slice_to c (Z.of_nat (i + S nc))) <$> assign_each i cs rs) =
             (take (i + S nc) <$> assign_each i cs rs)) as ->.
           { apply list_fmap_ext. intros j c _. rewrite py_slice_to_nonneg, Nat2Z.id by lia. done. }
           eapply null_or_good_shape; [|exact Hs'|]; [lia|]. intros g k r Hk [H1 H2]. split; [done|].
           intros. apply H2. lia.
        -- split; [done|]. intros k H1 H2. apply Hhit'. lia.
      * apply (IH (S nc)); auto; lia.
  - apply (IH 0%nat); auto; try lia.
    + eapply shape_impl; [|exact Hs]. intros g k r _ [H1 _]. split; [done|]. lia.
    + intros L' HL' Hwok. destruct (decide (S i + nc < L')%nat); [by apply (Hmax L'); [lia|]|].
      apply Hmiss, Hwok; lia.
Qed.

Lemma sw_find_spec l max_length bs at_ window use_eagle al :
  bhl_is l hs → 0 < bs → 2 ≤ window → 0 ≤ max_length → max_length / bs ≤ len hs →
  use_eagle = false ∨ bs = al →
  let needed := Z.to_nat (cdiv (window - 1) bs) in
  let e := drop_eagle use_eagle in
  ∃ L cs, sw_find l max_length gids (SlidingWindowSpec bs at_ window) use_eagle al 1 1 p = (Ok cs, p) ∧
    shape L (λ g k r, null_or_good g k r ∧ ((L ≤ k + needed)%nat → good_at g k r)) cs ∧
    Z.of_nat L * bs ≤ max_length ∧ aligned bs al L ∧
    (∀ k, (L ≤ k + needed)%nat → (k < L)%nat → Hit k) ∧
    (∀ L', aligned bs al L' → Z.of_nat (L' + e) * bs ≤ max_length →
       (∀ k, (L' ≤ k + needed)%nat → (k < L' + e)%nat → Hit k) → (L' ≤ L)%nat).
Proof.
  intros Hl Hbs Hw Hmax Hhs Hcase needed e. unfold sw_find.
  erewrite bind_ok by reflexivity. erewrite bind_ok by reflexivity. unfold id.
  assert (1 ≤ cdiv (window - 1) bs) as Hw1.
  { rewrite cdiv_spec by done. apply Z.div_le_lower_bound; lia. }
  assert (0 ≤ max_length / bs) as Hn0 by (apply Z.div_pos; lia).
  set (N := Z.to_nat (max_length / bs)).
  replace (cdiv (window - 1) bs + (if use_eagle then 1 else 0)) with (Z.of_nat (needed + e))
    by (unfold needed, e, drop_eagle; destruct use_eagle; lia).
  destruct (sw_loop_spec l bs al (needed + e) N N 0 (replicate (length gids) (py_repeat (null_block p) (max_length / bs))))
    as (cs & n & found & L1 & Hloop & Hfound & Hs & HL1 & Hok & Hmaxl); try lia; try done.
  { unfold len in Hhs. lia. }
  { apply shape_init. intros g k. split; [by left|lia]. }
  erewrite bind_ok by exact Hloop.
  set (cs1 := if found then cs else take n <$> cs) in *.
  assert ((if found then ret cs else align_blocks bs al ((λ c : list ref, py_slice_to c (Z.of_nat n)) <$> cs)) p = (Ok cs1, p)) as Hal1.
  { unfold cs1. destruct found; [done|]. specialize (Hfound eq_refl). subst n.
    assert (((λ c : list ref, py_slice_to c (Z.of_nat L1)) <$> cs) = (take L1 <$> cs)) as ->.
    { apply list_fmap_ext. intros j c _. rewrite py_slice_to_nonneg, Nat2Z.id by lia. done. }
    pose proof Hs as Hs0. change cs1 with (take L1 <$> cs) in Hs0.
    destruct (align_blocks_spec bs al L1 _ _ Hs0) as (L & -> & HL & HLal & HLm).
    assert (L = L1) as ->; [|by rewrite (take_each_all _ _ _ Hs0)].
    destruct (decide (L = L1)); [done|]. exfalso. apply (HLm L1); [lia|]. apply Hok. }
  cbv beta iota. erewrite bind_ok by exact Hal1.
  pose proof (Z.mul_div_le max_length bs Hbs) as Hdiv.
  destruct use_eagle; unfold e, drop_eagle in *.
  - destruct Hcase as [?|<-]; [done|]. erewrite bind_ok by exact (shape_first _ _ _ Hs). cbn [andb].
    destruct (Z.ltb_spec 0 (Z.of_nat L1)) as [Hpos|Hz].
    + destruct L1 as [|L]; [lia|]. erewrite bind_ok by exact (pop_each_shape _ _ _ Hs).
      pose proof (take_shape (S L) L _ _ ltac:(lia) Hs) as Hs2.
      destruct (align_blocks_spec bs bs L _ _ Hs2) as (L2 & -> & HL2 & _ & Hm2).
      assert (L2 = L) as ->.
      { destruct (decide (L2 = L)); [done|]. exfalso. apply (Hm2 L); [lia|by left]. }
      rewrite (take_each_all _ _ _ Hs2). exists L, (take L <$> cs1). split_and!; auto; [|nia|by left| |].
      * eapply shape_impl; [|exact Hs2]. intros g k r Hk [H1 H2]. split; [done|]. intros. apply H2. lia.
      * intros k H1 H2. apply Hok; lia.
      * intros L' _ Hle HL'. destruct (decide (L' ≤ L)%nat); [done|]. exfalso.
        assert (Z.of_nat (L' + 1) ≤ max_length / bs) by (apply Z.div_le_lower_bound; lia).
        apply (Hmaxl (L' + 1)%nat); [lia|]. split; [by left|]. intros k H1 H2. apply HL'; lia.
    + assert (L1 = 0%nat) as -> by lia. exists 0%nat, cs1. split_and!; auto; [|by left|intros; lia|].
      * eapply shape_impl; [|exact Hs]. intros; lia.
      * intros L' _ Hle HL'. destruct (decide (L' ≤ 0)%nat); [done|]. exfalso.
        assert (Z.of_nat (L' + 1) ≤ max_length / bs) by (apply Z.div_le_lower_bound; lia).
        apply (Hmaxl (L' + 1)%nat); [lia|]. split; [by left|]. intros k H1 H2. apply HL'; lia.
  - erewrite bind_ok by reflexivity. cbn [andb]. exists L1, cs1. rewrite Nat.add_0_r in *. split_and!; auto; [nia|apply Hok|apply Hok|].
    intros L' HLal Hle HL'. rewrite Nat.add_0_r in Hle. destruct (decide (L' ≤ L1)%nat); [done|]. exfalso.
    assert (Z.of_nat L' ≤ max_length / bs) by (apply Z.div_le_lower_bound; lia).
    apply (Hmaxl L'); [lia|]. split; [done|]. intros k H1 H2. apply HL'; lia.
Qed.

(** ** Mamba *)

Lemma mamba_loop_spec l bs al i :
  bhl_is l hs → (i ≤ length hs)%nat →
  ∃ L cs, mamba_loop i l gids bs al (null_block p) p = (Ok cs, p) ∧
    shape L (λ g k r, if decide (S k = L) then good_at g k r else r = null_block p) cs ∧
    (L ≤ i)%nat ∧ aligned bs al L ∧ (L ≠ 0%nat → Hit (L - 1)) ∧
    (∀ L', (0 < L' ≤ i)%nat → aligned bs al L' → Hit (L' - 1) → (L' ≤ L)%nat).
Proof.
  intros Hl Hi. induction i as [|i IH].
  { exists 0%nat, (replicate (length gids) []). split_and!; [done|apply shape_nil|lia|by right|done|lia]. }
  cbn [mamba_loop]. pose proof Hl as [_ Hget].
  destruct (lookup_lt_is_Some_2 hs i ltac:(lia)) as [h Hh].
  erewrite bind_ok by (unfold bhl_index; by rewrite Hget, Hh).
  destruct (IH ltac:(lia)) as (L & cs & Heq & Hs & HL & Hal & Hhit & Hmax).
  destruct (lookup_block_spec i h Hh) as [(rs & Hlk & HF & Hhere)|[Hlk Hmiss]]; erewrite bind_ok by exact Hlk.
  - destruct (negb (bs =? al) && negb ((Z.of_nat i + 1) * bs mod al =? 0)) eqn:E.
    + apply andb_true_iff in E as [E1%negb_true_iff%Z.eqb_neq E2%negb_true_iff%Z.eqb_neq].
      exists L, cs. split_and!; auto. intros L' HL' Hal' Hh'.
      destruct (decide (L' = S i)) as [->|]; [|apply Hmax; auto; lia].
      destruct Hal' as [?|Hal']; [done|]. exfalso. apply E2. rewrite <-Hal'. f_equal. lia.
    + exists (S i). eexists. split_and!; [done| |lia| | |lia].
      * apply Forall2_fmap_r. eapply Forall2_impl; [exact HF|]. intros g r Hg. cbn.
        split; [rewrite length_app, length_replicate; cbn; lia|]. intros k x Hx.
        apply lookup_app_Some in Hx as [[-> Hk]%lookup_replicate|[Hge Hx]].
        -- rewrite decide_False; [done|lia].
        -- rewrite length_replicate in *. apply list_lookup_singleton_Some in Hx as [Hk ->].
           assert (k = i) as -> by lia. by rewrite decide_True.
      * apply andb_false_iff in E as [E|E]; apply negb_false_iff, Z.eqb_eq in E; [by left|right].
        rewrite <-E. f_equal. lia.
      * intros _. by replace (S i - 1)%nat with i by lia.
  - exists L, cs. split_and!; auto. intros L' HL' Hal' Hh'.
    destruct (decide (L' = S i)) as [->|]; [|apply Hmax; auto; lia].
    replace (S i - 1)%nat with i in Hh' by lia. done.
Qed.

(** ** Chunked local attention *)

Lemma chunked_loop_spec l start cnt cs :
  bhl_is l hs → (start + cnt ≤ length hs)%nat → ∀ j, (start ≤ j)%nat → (j + cnt ≤ length hs)%nat →
  shape j (λ g k r, if decide (k < start)%nat then r = null_block p else good_at g k r) cs →
  (∀ k, (start ≤ k < j)%nat → Hit k) →
  ∃ L cs', chunked_loop (Z.of_nat <$> seq j cnt) l gids cs p = (Ok cs', p) ∧
    shape L (λ g k r, if decide (k < start)%nat then r = null_block p else good_at g k r) cs' ∧
    (j ≤ L ≤ j + cnt)%nat ∧ (∀ k, (start ≤ k < L)%nat → Hit k) ∧ (L = (j + cnt)%nat ∨ ¬ Hit L).
Proof.
  intros Hl _. revert cs. induction cnt as [|cnt IH]; intros cs j Hj Hlen Hs Hhit.
  { exists j, cs. split_and!; auto; lia. }
  cbn [seq fmap list_fmap chunked_loop]. pose proof Hl as [_ Hget].
  destruct (lookup_lt_is_Some_2 hs j ltac:(lia)) as [h Hh].
  erewrite bind_ok by (unfold bhl_index; by rewrite Hget, Hh).
  destruct (lookup_block_spec j h Hh) as [(rs & Hlk & HF & Hhere)|[Hlk Hmiss]]; erewrite bind_ok by exact Hlk.
  - destruct (IH (append_each cs rs) (S j)) as (L & cs' & Heq & Hs' & HL & Hall & Hmax); try lia.
    + apply append_each_shape; [done|]. eapply Forall2_impl; [exact HF|]. intros g r Hg. cbn.
      by rewrite decide_False by lia.
    + intros k Hk. destruct (decide (k = j)) as [->|]; [done|apply Hhit; lia].
    + exists L, cs'. split_and!; auto; try lia. destruct Hmax; [left; lia|by right].
  - exists j, cs. split_and!; auto; lia.
Qed.

Lemma chunked_find_spec l max_length bs at_ chunk :
  bhl_is l hs → 0 < bs → 0 < chunk → 0 ≤ max_length → max_length / bs ≤ len hs →
  let start := Z.to_nat (max_length / chunk * chunk / bs) in
  ∃ L cs, chunked_find l max_length gids (ChunkedLocalAttentionSpec bs at_ chunk) false bs 1 1 p = (Ok cs, p) ∧
    shape L (λ g k r, if decide (k < start)%nat then r = null_block p else good_at g k r) cs ∧
    (start ≤ L)%nat ∧ Z.of_nat L * bs ≤ max_length ∧ (∀ k, (start ≤ k < L)%nat → Hit k) ∧
    (Z.of_nat L = max_length / bs ∨ ¬ Hit L).
Proof.
  intros Hl Hbs Hc Hmax Hhs start. unfold chunked_find. erewrite bind_ok by (unfold py_assert; by rewrite !Z.eqb_refl).
  erewrite bind_ok by reflexivity. unfold id.
  pose proof (Z.mul_div_le max_length chunk Hc). pose proof (Z.div_pos max_length chunk Hmax Hc).
  assert ((if 0 <? max_length then max_length / chunk * chunk else 0) = max_length / chunk * chunk) as ->.
  { destruct (Z.ltb_spec 0 max_length); [done|]. assert (max_length = 0) as -> by lia. by rewrite Z.div_0_l by lia. }
  assert (0 ≤ max_length / chunk * chunk / bs ≤ max_length / bs) as Hst.
  { split; [apply Z.div_pos; nia|apply Z.div_le_mono; lia]. }
  rewrite py_range_seq by lia. unfold len in Hhs.
  destruct (chunked_loop_spec l start (Z.to_nat (max_length / bs - max_length / chunk * chunk / bs))
    (replicate (length gids) (py_repeat (null_block p) (max_length / chunk * chunk / bs))) Hl
    ltac:(unfold start; lia) start ltac:(lia) ltac:(unfold start; lia)) as (L & cs & Heq & Hs & HL & Hall & Hm).
  - apply (shape_impl start (λ _ _ r, r = null_block p)); [|by apply shape_init].
    intros g k r Hk ->. by rewrite decide_True.
  - lia.
  - exists L, cs. pose proof (Z.mul_div_le max_length bs Hbs). unfold start in *.
    split_and!; auto; [lia|nia|]. destruct Hm; [left; lia|by right].
Qed.

End hits.

(** ** Properties *)


(** C34.  The sliding-window lookup finds the longest length whose window is
    cached: it returns, and yields [L] blocks per group of which the last
    [cdiv (window - 1) block_size] (all of them if there are fewer) are cached
    blocks of their positions and the others null or cached; [L] is aligned
    and maximal.  This holds without EAGLE, and with EAGLE when the group's
    block size is the alignment. *)
Theorem sliding_window_longest_hit p a gids hs l max_length bs at_ window use_eagle al :
  pool_inv p a → gids ≠ [] ∧ Forall (λ g, 0 ≤ g < 2 ^ 32) gids → bhl_is l hs →
  0 < bs → 2 ≤ window → 0 ≤ max_length → max_length / bs ≤ len hs → use_eagle = false ∨ bs = al →
  let needed := Z.to_nat (cdiv (window - 1) bs) in
  let e := drop_eagle use_eagle in
  ∃ L cs, find_longest_cache_hit SlidingWindowManager l max_length gids (SlidingWindowSpec bs at_ window)
            use_eagle al 1 1 p = (Ok cs, p) ∧
    shape gids L (λ g k r, null_or_good p a hs g k r ∧ ((L ≤ k + needed)%nat → good_at p a hs g k r)) cs ∧
    Z.of_nat L * bs ≤ max_length ∧ aligned bs al L ∧
    (∀ L', aligned bs al L' → Z.of_nat (L' + e) * bs ≤ max_length →
       (∀ k, (L' ≤ k + needed)%nat → (k < L' + e)%nat → Hit p a gids hs k) → (L' ≤ L)%nat).
Proof.
  intros Hinv Hg Hl Hbs Hw Hm Hhs Hc needed e.
  destruct (sw_find_spec p a gids hs Hinv Hg l max_length bs at_ window use_eagle al) as (L & cs & ? & ? & ? & ? & ? & ?);
    try done. by exists L, cs.
Qed.

(** Mamba layers restore from the last cached state: the lookup returns
    [L] blocks per group, null except the last one, which is cached under its
    position's hash; [L] is aligned and no longer aligned length has a cached
    last block. *)
Theorem mamba_longest_hit p a gids hs l max_length bs mf use_eagle al :
  pool_inv p a → gids ≠ [] ∧ Forall (λ g, 0 ≤ g < 2 ^ 32) gids → bhl_is l hs →
  0 < bs → 0 ≤ max_length → max_length / bs ≤ len hs →
  ∃ L cs, find_longest_cache_hit MambaManager l max_length gids (MambaSpec bs mf) use_eagle al 1 1 p = (Ok cs, p) ∧
    shape gids L (λ g k r, if decide (S k = L) then good_at p a hs g k r else r = null_block p) cs ∧
    Z.of_nat L * bs ≤ max_length ∧ aligned bs al L ∧
    (∀ L', (0 < L')%nat → Z.of_nat L' * bs ≤ max_length → aligned bs al L' → Hit p a gids hs (L' - 1) → (L' ≤ L)%nat).
Proof.
  intros Hinv Hg Hl Hbs Hm Hhs. cbn [find_longest_cache_hit]. unfold mamba_find.
  erewrite bind_ok by reflexivity. erewrite bind_ok by reflexivity. unfold id.
  pose proof (Z.mul_div_le max_length bs Hbs). pose proof (Z.div_pos max_length bs Hm Hbs).
  destruct (mamba_loop_spec p a gids hs Hinv Hg l bs al (Z.to_nat (max_length / bs)) Hl) as
    (L & cs & ? & ? & HL & ? & ? & Hmax); [unfold len in Hhs; lia|].
  exists L, cs. split_and!; auto; [nia|]. intros L' Hpos HL' Hal Hh. apply Hmax; auto.
  assert (Z.of_nat L' ≤ max_length / bs) by (apply Z.div_le_lower_bound; lia). lia.
Qed.

(** Chunked local attention: everything before the chunk of the next token
    counts as computed without a lookup (null blocks), and inside the chunk
    the lookup takes cached blocks up to the first miss. *)
Theorem chunked_longest_hit p a gids hs l max_length bs at_ chunk :
  pool_inv p a → gids ≠ [] ∧ Forall (λ g, 0 ≤ g < 2 ^ 32) gids → bhl_is l hs →
  0 < bs → 0 < chunk → 0 ≤ max_length → max_length / bs ≤ len hs →
  let start := Z.to_nat (max_length / chunk * chunk / bs) in
  ∃ L cs, find_longest_cache_hit ChunkedLocalAttentionManager l max_length gids
            (ChunkedLocalAttentionSpec bs at_ chunk) false bs 1 1 p = (Ok cs, p) ∧
    shape gids L (λ g k r, if decide (k < start)%nat then r = null_block p else good_at p a hs g k r) cs ∧
    (start ≤ L)%nat ∧ Z.of_nat L * bs ≤ max_length ∧ (∀ k, (start ≤ k < L)%nat → Hit p a gids hs k) ∧
    (Z.of_nat L = max_length / bs ∨ ¬ Hit p a gids hs L).
Proof. intros. by apply chunked_find_spec. Qed.

(** ** Concrete lookups *)

(** The pool of the counterexample above satisfies the invariant. *)
Lemma six_cached_inv : ∃ a, pool_inv six_cached a.
Proof.
  destruct (empty_pool_inv 8 true 16 ltac:(lia)) as (Hinv & Hsz & Hec & Hhb).
  unfold six_cached. set (r := set_block_hashes (hash_of <$> seq 0 6) toy_request).
  apply (wp_final _ (λ p, ∃ a, pool_inv p a)).
  cbn [run_pool_ops]. wp_step.
  change (empty_pool 8 true 16) with (empty_pool (Z.of_nat 8) true 16). set (p0 := empty_pool (Z.of_nat 8) true 16) in *.
  pose proof (step_new p0 (fresh_apool 8) 6 ltac:(split; vm_compute; congruence)) as Hst. rewrite Hec in Hst.
  eapply wp_mono; [eapply (run_pool_op_rep id); [exact Hinv|by rewrite Hhb|exact Hst]|].
  intros x p1 (_ & Hinv1 & Hcfg1). wp_step. wp_step. pose proof (config_size _ _ Hcfg1) as Hsz1.
  assert (hash_block_size p1 = 16) as Hhb1 by (unfold pool_config in Hcfg1; congruence).
  assert (hash_view p1 r 16 = hash_of <$> seq 0 6) as Hv by (unfold hash_view; by rewrite Hhb1, decide_True).
  eapply wp_mono.
  { eapply (run_pool_op_rep id); [exact Hinv1|by rewrite Hhb1|].
    apply (step_cache _ _ r [1; 2; 3; 4; 5; 6]%nat 0 6 16 0); rewrite ?Hv, ?Hhb1; try done.
    - unfold in_pool. rewrite Hsz1, Hsz. repeat constructor.
    - unfold cacheable. rewrite Hsz1, Hsz. split; [|apply (bool_decide_unpack _); vm_compute; exact I]. repeat constructor. }
  intros y p2 (_ & Hinv2 & _). wp_steps. eauto.
Qed.

Lemma gid0_ok : [0] ≠ [] ∧ Forall (λ g, 0 ≤ g < 2 ^ 32) [0].
Proof. split; [done|]. apply Forall_singleton. lia. Qed.

Definition six_hashes : list bytes := hash_of <$> seq 0 6.


Lemma sliding_window_longest_hit_witness :
  ∃ L cs, find_longest_cache_hit SlidingWindowManager (PlainHashes six_hashes) 96 [0] window_33 false 32 1 1 six_cached
            = (Ok cs, six_cached) ∧ Z.of_nat L * 16 ≤ 96.
Proof.
  destruct six_cached_inv as [a Ha].
  destruct (sliding_window_longest_hit six_cached a [0] six_hashes (PlainHashes six_hashes) 96 16 toy_attention 33 false 32
    Ha gid0_ok (bhl_is_plain _) ltac:(lia) ltac:(lia) ltac:(lia) ltac:(by vm_compute) ltac:(by left)) as (L & cs & H1 & _ & H2 & _).
  exact (ex_intro _ L (ex_intro _ cs (conj H1 H2))).
Defined.

Lemma mamba_longest_hit_witness :
  ∃ L cs, find_longest_cache_hit MambaManager (PlainHashes six_hashes) 96 [0]
            (MambaSpec 16 (MkMamba [] [] None "mamba2" "all" 0)) false 16 1 1 six_cached
            = (Ok cs, six_cached) ∧ Z.of_nat L * 16 ≤ 96.
Proof.
  destruct six_cached_inv as [a Ha].
  destruct (mamba_longest_hit six_cached a [0] six_hashes (PlainHashes six_hashes) 96 16
    (MkMamba [] [] None "mamba2" "all" 0) false 16
    Ha gid0_ok (bhl_is_plain _) ltac:(lia) ltac:(lia) ltac:(by vm_compute)) as (L & cs & H1 & _ & H2 & _).
  exact (ex_intro _ L (ex_intro _ cs (conj H1 H2))).
Defined.

Lemma chunked_longest_hit_witness :
  ∃ L cs, find_longest_cache_hit ChunkedLocalAttentionManager (PlainHashes six_hashes) 90 [0]
            (ChunkedLocalAttentionSpec 16 toy_attention 64) false 16 1 1 six_cached = (Ok cs, six_cached) ∧
    Z.of_nat L * 16 ≤ 90.
Proof.
  destruct six_cached_inv as [a Ha].
  destruct (chunked_longest_hit six_cached a [0] six_hashes (PlainHashes six_hashes) 90 16 toy_attention 64
    Ha gid0_ok (bhl_is_plain _) ltac:(lia) ltac:(lia) ltac:(lia) ltac:(by vm_compute)) as (L & cs & H1 & _ & _ & H2 & _).
  exact (ex_intro _ L (ex_intro _ cs (conj H1 H2))).
Defined.
