(* ===== verification/Coordinator.v ===== *)
(** * KV-cache coordinators (vllm/v1/core/kv_cache_coordinator.py)

    A coordinator owns the block pool and one manager per KV-cache group and
    forwards every call to all of them; the three subclasses differ in how
    they look up the prefix cache. *)

From S2P Require Import Prelude FreeQueue RequestModel BlockHash.
From S2P Require Import KVCacheMetrics BlockPool KVCacheInterface SingleTypeManager CacheHit.

(** ** Data *)

(** One entry of [attention_groups]: the spec, the ids of its groups and the
    manager class. *)
Record AttentionGroup := MkAttentionGroup {
  ag_spec : KVCacheSpec;
  ag_ids : list Z;
  ag_class : ManagerClass;
}.

(** The subclass with its own attributes. *)
Inductive CoordinatorKind :=
  | NoPrefixCache
  | Unitary (u_spec : KVCacheSpec) (u_block_size u_dcp u_pcp : Z)
  | Hybrid (attention_groups : list AttentionGroup) (lcm_block_size h_hash_block_size : Z).

Record Coordinator := MkCoordinator {
  c_kind : CoordinatorKind;
  c_block_pool : BlockPool;
  single_type_managers : list Manager;
  c_use_eagle : bool;
  c_enable_caching : bool;
}.

Definition set_managers (ms : list Manager) (p : BlockPool) (c : Coordinator) : Coordinator :=
  MkCoordinator (c_kind c) p ms (c_use_eagle c) (c_enable_caching c).

Definition on_block_pool {A} (m : M BlockPool A) : M Coordinator A :=
  zoom c_block_pool (λ p c, set_managers (single_type_managers c) p c) m.

(** A loop over [enumerate(self.single_type_managers)] with an accumulator. *)
Fixpoint fold_managers {B} (i : nat) (ms : list Manager) (f : nat → B → M MS B) (acc : B) (p : BlockPool)
    : res B * (list Manager * BlockPool) :=
  match ms with
  | [] => (Ok acc, ([], p))
  | m :: ms =>
      match f i acc (m, p) with
      | (Ok b, (m', p')) =>
          let '(r, (ms', p'')) := fold_managers (S i) ms f b p' in (r, (m' :: ms', p''))
      | (Raise e, (m', p')) => (Raise e, (m' :: ms, p'))
      end
  end.

Definition each_manager {B} (f : nat → B → M MS B) (acc : B) : M Coordinator B := λ c,
  let '(r, (ms, p)) := fold_managers 0 (single_type_managers c) f acc (c_block_pool c) in
  (r, set_managers ms p c).

(** [new_computed_blocks[i]] *)
Definition nth_group {A} (bs : list (list A)) (i : nat) : M MS (list A) := py_index bs (Z.of_nat i).

(** ** Forwarded operations *)

(** [get_num_blocks_to_allocate] *)
Definition coord_num_blocks_to_allocate (request_id : string) (num_tokens : Z) (new_computed_blocks : list (list ref))
    (num_encoder_tokens total_computed_tokens num_tokens_main_model : Z) : M Coordinator Z :=
  each_manager (λ i acc,
    let! m := get_mgr in
    let! n :=
      (if decide (m_class m = CrossAttentionManager) then
         get_num_blocks_to_allocate request_id num_encoder_tokens [] 0 num_encoder_tokens
       else
         let! bs := nth_group new_computed_blocks i in
         get_num_blocks_to_allocate request_id num_tokens bs total_computed_tokens num_tokens_main_model) in
    ret (acc + n)) 0.

(** [allocate_new_computed_blocks] *)
Definition coord_allocate_new_computed_blocks (request_id : string) (new_computed_blocks : list (list ref))
    (num_local_computed_tokens num_external_computed_tokens : Z) : M Coordinator unit :=
  each_manager (λ i _,
    let! bs := nth_group new_computed_blocks i in
    allocate_new_computed_blocks request_id bs num_local_computed_tokens num_external_computed_tokens) tt.

(** [allocate_new_blocks] *)
Definition coord_allocate_new_blocks (request_id : string) (num_tokens num_tokens_main_model num_encoder_tokens : Z)
    : M Coordinator (list (list ref)) :=
  each_manager (λ _ acc,
    let! m := get_mgr in
    let! bs := allocate_new_blocks request_id
                 (if decide (m_class m = CrossAttentionManager) then num_encoder_tokens else num_tokens)
                 num_tokens_main_model in
    ret (acc ++ [bs])) [].

(** [cache_blocks] *)
Definition coord_cache_blocks (sha256 : bytes → bytes) (r : Request) (num_computed_tokens : Z) : M Coordinator Request :=
  each_manager (λ _ r, cache_blocks sha256 r num_computed_tokens) r.

(** [free] *)
Definition coord_free (request_id : string) : M Coordinator unit :=
  each_manager (λ _ _, free request_id) tt.

(** [get_num_common_prefix_blocks] *)
Definition coord_num_common_prefix_blocks (request_id : string) : M Coordinator (list Z) :=
  let! c := gets id in
  match c_kind c with
  | NoPrefixCache => ret (py_repeat 0 (len (single_type_managers c)))
  | _ => each_manager (λ _ acc, let! n := get_num_common_prefix_blocks request_id in ret (acc ++ [n])) []
  end.

(** [remove_skipped_blocks] *)
Definition coord_remove_skipped_blocks (request_id : string) (total_computed_tokens : Z) : M Coordinator unit :=
  each_manager (λ _ _, remove_skipped_blocks request_id total_computed_tokens) tt.

(** [get_blocks] *)
Definition coord_get_blocks (c : Coordinator) (request_id : string) : list (list ref) :=
  (λ m, default [] (req_to_blocks m !! request_id)) <$> single_type_managers c.

(** [new_step_starts] *)
Definition coord_new_step_starts : M Coordinator unit := each_manager (λ _ _, new_step_starts) tt.

(** ** Construction *)

Fixpoint new_managers (i : Z) (specs : list KVCacheSpec) (caching : bool) (dcp pcp : Z) : M BlockPool (list Manager) :=
  match specs with
  | [] => ret []
  | s :: specs =>
      let! m := new_manager s caching i dcp pcp in
      let! ms := new_managers (i + 1) specs caching dcp pcp in
      ret (m :: ms)
  end.

(** Add group [i] to the entry with the same spec, or a new entry at the end. *)
Fixpoint add_attention_group (i : Z) (spec : KVCacheSpec) (cls : ManagerClass) (gs : list AttentionGroup)
    : res (list AttentionGroup) :=
  match gs with
  | [] => Ok [MkAttentionGroup spec [i] cls]
  | g :: gs =>
      if decide (ag_spec g = spec) then
        if decide (cls = ag_class g) then Ok (MkAttentionGroup (ag_spec g) (ag_ids g ++ [i]) (ag_class g) :: gs)
        else Raise AssertionError
      else match add_attention_group i spec cls gs with
           | Ok gs' => Ok (g :: gs')
           | Raise e => Raise e
           end
  end.
Fixpoint split_groups (i : Z) (ms : list Manager) (gs : list AttentionGroup) : res (list AttentionGroup) :=
  match ms with
  | [] => Ok gs
  | m :: ms =>
      match add_attention_group i (m_spec m) (m_class m) gs with
      | Ok gs' => split_groups (i + 1) ms gs'
      | Raise e => Raise e
      end
  end.

(** [verify_and_split_kv_cache_groups]: full attention first (a stable sort on
    a boolean key), and the least common multiple of the block sizes. *)
Definition verify_and_split_kv_cache_groups (ms : list Manager) : res (list AttentionGroup * Z) :=
  match split_groups 0 ms [] with
  | Raise e => Raise e
  | Ok gs =>
      if 1 <? len gs then
        Ok (filter (λ g, is_full_attention (ag_spec g) = true) gs ++ filter (λ g, is_full_attention (ag_spec g) = false) gs,
            foldr Z.lcm 1 ((λ g, block_size (ag_spec g)) <$> gs))
      else Raise AssertionError
  end.

(** [get_kv_cache_coordinator] with the constructors of the three classes; a
    group's spec is that of one layer here. *)
Definition get_kv_cache_coordinator (num_blocks : Z) (specs : list KVCacheSpec) (use_eagle enable_caching : bool)
    (enable_kv_cache_events : bool) (dcp pcp hash_block_size : Z) (mc : option Collector) (use_int : bool) (env : MetricsEnv)
    : res Coordinator :=
  match pool_init num_blocks enable_caching hash_block_size enable_kv_cache_events mc use_int env with
  | Raise e => Raise e
  | Ok p =>
      match new_managers 0 specs enable_caching dcp pcp p with
      | (Raise e, _) => Raise e
      | (Ok ms, p) =>
          if negb enable_caching then Ok (MkCoordinator NoPrefixCache p ms use_eagle false)
          else
            match specs with
            | [spec] =>
                let bs := block_size spec * (if 1 <? dcp then dcp else 1) * (if 1 <? pcp then pcp else 1) in
                if hash_block_size =? bs then Ok (MkCoordinator (Unitary spec bs dcp pcp) p ms use_eagle true)
                else Raise AssertionError
            | _ =>
                if forallb (λ s, block_size s mod hash_block_size =? 0) specs && (dcp =? 1) && (pcp =? 1) then
                  match verify_and_split_kv_cache_groups ms with
                  | Ok (gs, l) => Ok (MkCoordinator (Hybrid gs l hash_block_size) p ms use_eagle true)
                  | Raise e => Raise e
                  end
                else Raise AssertionError
            end
      end
  end.

(** ** Prefix-cache lookup *)

(** [_get_block_hashes(kv_cache_spec)] *)
Definition group_hashes (block_hashes : list bytes) (hash_block_size : Z) (spec : KVCacheSpec) : M BlockPool BlockHashList :=
  if block_size spec =? hash_block_size then ret (PlainHashes block_hashes)
  else match mk_hash_list block_hashes hash_block_size (block_size spec) with
       | Ok hl => ret (ScaledHashes hl)
       | Raise e => raise e
       end.

(** [hit_blocks_by_group[group_id] = blocks] for the groups of one entry. *)
Definition store_hits (ids : list Z) (hits : list (list ref)) (by_group : gmap Z (list ref)) : gmap Z (list ref) :=
  foldr (λ kv, insert kv.1 kv.2) by_group (reverse (zip ids hits)).

Section lookup.
(** The lookup of one attention group; instantiated below with the managers'
    class methods. *)
Variable find : AttentionGroup → Z → M BlockPool (list (list ref)).

(** The [for spec, group_ids, manager_cls in self.attention_groups] loop. *)
Fixpoint hybrid_pass (gs : list AttentionGroup) (curr_hit_length : Z) (by_group : gmap Z (list ref))
    : M BlockPool (Z * gmap Z (list ref)) :=
  match gs with
  | [] => ret (curr_hit_length, by_group)
  | g :: gs =>
      let! first := py_index (ag_ids g) 0 in
      let bs := block_size (ag_spec g) in
      if is_full_attention (ag_spec g) && bool_decide (is_Some (by_group !! first)) then
        hybrid_pass gs (curr_hit_length / bs * bs) by_group
      else
        let! hits := find g curr_hit_length in
        let! c0 := py_index hits 0 in
        hybrid_pass gs (len c0 * bs) (store_hits (ag_ids g) hits by_group)
  end.

(** The [while True] loop: it continues only when the length has shrunk, so
    [max_cache_hit_length + 1] rounds are enough. *)
Fixpoint hybrid_loop (fuel : nat) (gs : list AttentionGroup) (is_simple_hybrid : bool) (hit_length : Z)
    (by_group : gmap Z (list ref)) : M BlockPool (Z * gmap Z (list ref)) :=
  match fuel with
  | O => raise OutOfFuel
  | S fuel =>
      let! r := hybrid_pass gs hit_length by_group in
      let '(curr, by_group) := r in
      if hit_length <=? curr then ret (hit_length, by_group)
      else if is_simple_hybrid then ret (curr, by_group)
      else hybrid_loop fuel gs is_simple_hybrid curr by_group
  end.

(** [del blks[num_blocks:]] for the groups of the first entry. *)
Definition truncate_first (gs : list AttentionGroup) (hit_length : Z) (by_group : gmap Z (list ref)) : gmap Z (list ref) :=
  match gs with
  | [] => by_group
  | g :: _ =>
      if is_full_attention (ag_spec g) then
        foldr (λ i m, alter (λ blks, py_slice_to blks (hit_length / block_size (ag_spec g))) i m) by_group (ag_ids g)
      else by_group
  end.

(** [HybridKVCacheCoordinator.find_longest_cache_hit] over [num_groups] groups. *)
Definition hybrid_find (num_groups : nat) (gs : list AttentionGroup) (max_cache_hit_length : Z)
    : M BlockPool (list (list ref) * Z) :=
  let is_simple_hybrid :=
    (len gs =? 2) && match gs with g :: _ => is_full_attention (ag_spec g) | [] => false end in
  let! r := hybrid_loop (S (Z.to_nat max_cache_hit_length)) gs is_simple_hybrid max_cache_hit_length ∅ in
  let '(hit_length, by_group) := r in
  let by_group := truncate_first gs hit_length by_group in
  ret ((λ i, default [] (by_group !! Z.of_nat i)) <$> seq 0 num_groups, hit_length).

End lookup.

(** The lookup of the managers at the granularity of each group. *)
Definition manager_find (block_hashes : list bytes) (hash_block_size lcm_block_size : Z) (use_eagle : bool)
    (g : AttentionGroup) (max_length : Z) : M BlockPool (list (list ref)) :=
  let! hs := group_hashes block_hashes hash_block_size (ag_spec g) in
  find_longest_cache_hit (ag_class g) hs max_length (ag_ids g) (ag_spec g) use_eagle lcm_block_size 1 1.

(** [KVCacheCoordinatorNoPrefixCache.find_longest_cache_hit] *)
Definition noprefix_find (c : Coordinator) : list (list ref) * Z :=
  (replicate (length (single_type_managers c)) [], 0).

(** [UnitaryKVCacheCoordinator.find_longest_cache_hit] *)
Definition unitary_find (spec : KVCacheSpec) (bs dcp pcp : Z) (block_hashes : list bytes) (max_cache_hit_length : Z)
    : M Coordinator (list (list ref) * Z) :=
  let! c := gets id in
  match single_type_managers c with
  | [] => raise IndexError
  | m :: _ =>
      let! hits := on_block_pool (find_longest_cache_hit (m_class m) (PlainHashes block_hashes)
                     max_cache_hit_length [0] spec (c_use_eagle c) bs dcp pcp) in
      match hits with
      | [] => raise IndexError
      | h :: _ => ret (hits, len h * bs)
      end
  end.

(** [find_longest_cache_hit(block_hashes, max_cache_hit_length)] *)
Definition coord_find_longest_cache_hit (block_hashes : list bytes) (max_cache_hit_length : Z)
    : M Coordinator (list (list ref) * Z) :=
  let! c := gets id in
  match c_kind c with
  | NoPrefixCache => ret (noprefix_find c)
  | Unitary spec bs dcp pcp => unitary_find spec bs dcp pcp block_hashes max_cache_hit_length
  | Hybrid gs lcm_block_size hash_block_size =>
      on_block_pool (hybrid_find (manager_find block_hashes hash_block_size lcm_block_size (c_use_eagle c))
        (length (single_type_managers c)) gs max_cache_hit_length)
  end.

(** ** The hybrid lookup against the managers' contract *)

(** What a manager's lookup promises to the coordinator: it returns one list
    per group, all of one length, covering at most [max] tokens and a multiple
    of the alignment, and it does not change the pool. *)
Class CacheHitFinder (p : BlockPool) (find : AttentionGroup → Z → M BlockPool (list (list ref)))
    (al cap : Z) (gs : list AttentionGroup) : Prop := {
  finder_law g max : g ∈ gs → 0 ≤ max ≤ cap → ∃ n cs, find g max p = (Ok cs, p) ∧
    length cs = length (ag_ids g) ∧ Forall (λ c, len c = n) cs ∧
    n * block_size (ag_spec g) ≤ max ∧ (al | n * block_size (ag_spec g));
}.

(** The entries partition the groups, and every block size divides the
    alignment. *)
Record groups_wf (al : Z) (gs : list AttentionGroup) : Prop := {
  gw_ids : NoDup (concat (ag_ids <$> gs));
  gw_nonempty : Forall (λ g, ag_ids g ≠ []) gs;
  gw_size : Forall (λ g, 0 < block_size (ag_spec g) ∧ (block_size (ag_spec g) | al)) gs;
}.

Lemma store_hits_lookup ids hits bg id :
  NoDup ids → length hits = length ids →
  store_hits ids hits bg !! id =
    match list_find (λ x, x = id) ids with Some (k, _) => hits !! k | None => bg !! id end.
Proof.
  revert hits bg. unfold store_hits. induction ids as [|i ids IH] using rev_ind; intros hits bg Hnd Hlen.
  { by destruct hits. }
  destruct hits as [|h hits _] using rev_ind; [rewrite length_app in Hlen; cbn in Hlen; lia|].
  rewrite !length_app in Hlen. cbn in Hlen. assert (length hits = length ids) as Hl by lia.
  apply NoDup_app in Hnd as (Hnd & Hni & _).
  rewrite zip_with_app, reverse_app by done. cbn [zip_with zip reverse rev_append app foldr fst snd].
  destruct (decide (i = id)) as [->|Hne].
  - cbn. rewrite lookup_insert_eq.
    assert (list_find (λ x, x = id) ids = None) as Hnone.
    { apply list_find_None, Forall_forall. intros x Hx ->. apply (Hni _ Hx), list_elem_of_singleton. done. }
    rewrite list_find_app_r by done. cbn. rewrite decide_True by done. cbn.
    rewrite <-Hl. by rewrite list_lookup_middle.
  - cbn. rewrite lookup_insert_ne by done. rewrite IH by done.
    destruct (list_find (λ x, x = id) ids) as [[k x]|] eqn:E.
    + erewrite list_find_app_l by done. apply list_find_Some in E as (Hk & _).
      rewrite lookup_app_l; [done|]. rewrite Hl. by eapply lookup_lt_Some.
    + rewrite list_find_app_r by done. cbn. by rewrite decide_False.
Qed.

Lemma store_hits_in ids hits bg id n :
  NoDup ids → length hits = length ids → Forall (λ c, len c = n) hits → id ∈ ids →
  ∃ c, store_hits ids hits bg !! id = Some c ∧ len c = n.
Proof.
  intros Hnd Hlen HF Hid. rewrite store_hits_lookup by done.
  destruct (list_find (λ x, x = id) ids) as [[k x]|] eqn:E.
  - apply list_find_Some in E as (Hk & _). pose proof (lookup_lt_Some _ _ _ Hk).
    destruct (lookup_lt_is_Some_2 hits k ltac:(lia)) as [c Hc]. exists c. split; [done|].
    apply (Forall_lookup_1 _ _ _ _ HF Hc).
  - apply list_find_None in E. by apply (Forall_forall _ _) with (x := id) in E.
Qed.

Lemma store_hits_out ids hits bg id :
  NoDup ids → length hits = length ids → id ∉ ids → store_hits ids hits bg !! id = bg !! id.
Proof.
  intros Hnd Hlen Hid. rewrite store_hits_lookup by done.
  destruct (list_find (λ x, x = id) ids) as [[k x]|] eqn:E; [|done].
  apply list_find_Some in E as (Hk & -> & _). by apply list_elem_of_lookup_2 in Hk.
Qed.

Section hybrid.
Context (p : BlockPool) (find : AttentionGroup → Z → M BlockPool (list (list ref))) (al cap : Z).
Context (all_gs : list AttentionGroup).
Context `{!CacheHitFinder p find al cap all_gs}.

(** The stored lists of group [g] cover at least [lo] tokens. *)
Definition stored (bg : gmap Z (list ref)) (g : AttentionGroup) (Q : Z → Prop) : Prop :=
  ∀ id, id ∈ ag_ids g → ∃ c, bg !! id = Some c ∧ Q (len c * block_size (ag_spec g)) ∧
    (al | len c * block_size (ag_spec g)).

(** A previous round has stored full-attention lists that are long enough. *)
Definition reusable (bg : gmap Z (list ref)) (gs : list AttentionGroup) (curr : Z) : Prop :=
  ∀ g id, g ∈ gs → id ∈ ag_ids g → is_full_attention (ag_spec g) = true → is_Some (bg !! id) →
    (al | curr) ∧ stored bg g (λ n, curr ≤ n).

Lemma hybrid_pass_spec gs curr bg :
  groups_wf al gs → (∀ g, g ∈ gs → g ∈ all_gs) → 0 ≤ curr ≤ cap → reusable bg gs curr →
  ∃ curr' bg', hybrid_pass find gs curr bg p = (Ok (curr', bg'), p) ∧ 0 ≤ curr' ≤ curr ∧
    (gs = [] → curr' = curr ∧ bg' = bg) ∧ (gs ≠ [] → (al | curr')) ∧ (∀ id, id ∉ concat (ag_ids <$> gs) → bg' !! id = bg !! id) ∧
    (∀ g, g ∈ gs → stored bg' g (λ n, curr' ≤ n ∧ (is_full_attention (ag_spec g) = false → n ≤ curr))) ∧
    (∀ g, last gs = Some g →
       is_full_attention (ag_spec g) = false ∨ (∀ id, id ∈ ag_ids g → bg !! id = None) →
       stored bg' g (λ n, n = curr')).
Proof.
  revert curr bg. induction gs as [|g gs IH]; intros curr bg Hwf Hsub Hcurr Hre.
  { exists curr, bg. split_and!; try done; try lia. intros g Hg. by apply elem_of_nil in Hg. }
  destruct Hwf as [Hids Hne Hsz]. cbn [fmap list_fmap concat] in Hids.
  apply NoDup_app in Hids as (Hnd & Hdisj & Hnds). apply Forall_cons in Hne as [Hg0 Hne], Hsz as [[Hbs Hdiv] Hsz].
  assert (g ∈ all_gs) as Hgall by (apply Hsub, elem_of_cons; by left).
  assert (∀ g', g' ∈ gs → g' ∈ all_gs) as Hsub' by (intros; apply Hsub, elem_of_cons; by right).
  destruct (ag_ids g) as [|first rest] eqn:Eids; [done|]. cbn [hybrid_pass]. rewrite Eids.
  erewrite bind_ok by reflexivity. set (bs := block_size (ag_spec g)) in *.
  assert (∃ (c1 : Z) bg1,
    (if is_full_attention (ag_spec g) && bool_decide (is_Some (bg !! first)) then hybrid_pass find gs (curr / bs * bs) bg
     else let! hits := find g curr in let! c0 := py_index hits 0 in
          hybrid_pass find gs (len c0 * bs) (store_hits (first :: rest) hits bg)) p = hybrid_pass find gs c1 bg1 p ∧
    0 ≤ c1 ≤ curr ∧ (al | c1) ∧ (∀ id, id ∉ first :: rest → bg1 !! id = bg !! id) ∧
    stored bg1 g (λ n, c1 ≤ n ∧ (is_full_attention (ag_spec g) = false → n ≤ curr)) ∧
    (is_full_attention (ag_spec g) = false ∨ (∀ id, id ∈ first :: rest → bg !! id = None) → stored bg1 g (λ n, n = c1)))
    as (c1 & bg1 & -> & Hc1 & Hal1 & Hout1 & Hst1 & Hlast1).
  { destruct (is_full_attention (ag_spec g) && bool_decide (is_Some (bg !! first))) eqn:E.
    - apply andb_true_iff in E as [Efull Esome%bool_decide_eq_true].
      destruct (Hre g first) as [Hal Hst]; [apply elem_of_cons; by left|rewrite Eids; apply elem_of_cons; by left|done..|].
      destruct (Z.divide_trans _ _ _ Hdiv Hal) as [q Hq].
      assert (curr / bs * bs = curr) as Hcb by (rewrite Hq, Z.div_mul by lia; done).
      exists curr, bg. rewrite Hcb. split_and!; auto; try lia.
      + intros id Hid. destruct (Hst id Hid) as (c & Hc & Hle & Hd). exists c. split_and!; auto. by rewrite Efull.
      + intros [?|Hbg]; [congruence|]. rewrite Hbg in Esome by (apply elem_of_cons; by left). by destruct Esome.
    - destruct (finder_law g curr Hgall Hcurr) as (n & cs & Hf & Hl & HF & Hn & Hd). fold bs in Hn, Hd.
      rewrite Eids in Hl. destruct cs as [|c0 cs]; [done|].
      assert (len c0 = n) as Hc0 by by apply Forall_cons in HF as [? _].
      erewrite bind_ok by exact Hf. erewrite bind_ok by reflexivity.
      exists (len c0 * bs), (store_hits (first :: rest) (c0 :: cs) bg). rewrite Hc0.
      assert (0 ≤ n) by (rewrite <-Hc0; apply len_nonneg).
      assert (stored (store_hits (first :: rest) (c0 :: cs) bg) g (λ m, m = n * bs)) as Hst.
      { intros id Hid. rewrite Eids in Hid.
        destruct (store_hits_in _ _ bg id n Hnd Hl HF Hid) as (c & Hc & Hcn). exists c. fold bs. by rewrite Hcn. }
      split_and!; auto; try nia.
      + intros id Hid. by apply store_hits_out.
      + intros id Hid. destruct (Hst id Hid) as (c & Hc & Heq & Hdc). exists c. fold bs in Heq, Hdc |- *. split_and!; auto; lia. }
  destruct (IH c1 bg1) as (curr' & bg' & -> & Hc' & Hnil' & Hal' & Hout' & Hst' & Hlast'); [by split|done|lia| |].
  { intros g' id Hg' Hid Hfull Hsome.
    assert (∀ x, x ∈ ag_ids g' → bg1 !! x = bg !! x) as Heq.
    { intros x Hx. apply Hout1. intros Hx'. apply (Hdisj _ Hx'). eapply in_concat; [|exact Hx].
      by apply list_elem_of_fmap_2. }
    rewrite Heq in Hsome by done.
    destruct (Hre g' id) as [_ Hst]; [apply elem_of_cons; by right|done..|]. split; [done|].
    intros x Hx. destruct (Hst x Hx) as (c & Hc & Hle & Hd). exists c. rewrite Heq by done. split_and!; auto. lia. }
  assert (∀ x, x ∈ first :: rest → bg' !! x = bg1 !! x) as Hkeep by (intros x Hx; apply Hout'; by apply Hdisj).
  exists curr', bg'. split_and!; auto; try lia; try done.
  - intros _. destruct gs as [|g' gs]; [|by apply Hal']. by destruct (Hnil' eq_refl) as [-> _].
  - intros id [Hid1 Hid2]%not_elem_of_app. rewrite Eids in Hid1. rewrite Hout' by done. by apply Hout1.
  - intros g' [->|Hg']%elem_of_cons.
    + intros id Hid. destruct (Hst1 id Hid) as (c & Hc & (Hle & Hup) & Hd). exists c. rewrite Eids in Hid.
      rewrite Hkeep by done. split_and!; auto. lia.
    + intros id Hid. destruct (Hst' g' Hg' id Hid) as (c & Hc & (Hle & Hup) & Hd). exists c. split_and!; auto.
      intros Hnf. specialize (Hup Hnf). lia.
  - intros g' Hlast Hnf. destruct gs as [|g2 gs].
    + cbn in Hlast. injection Hlast as <-. destruct (Hnil' eq_refl) as [-> ->]. apply Hlast1. by rewrite Eids in Hnf.
    + rewrite last_cons_cons in Hlast. apply Hlast'; [done|]. destruct Hnf as [Hnf|Hbg]; [by left|right].
      intros id Hid. rewrite Hout1; [by apply Hbg|]. intros Hid'. apply (Hdisj _ Hid').
      eapply in_concat; [|exact Hid]. apply list_elem_of_fmap_2, last_Some_elem_of. done.
Qed.

(** The fixed point: every round but the last shortens the hit. *)
Lemma hybrid_loop_spec fuel simple hit bg :
  groups_wf al all_gs → all_gs ≠ [] → 0 ≤ hit ≤ cap → hit < Z.of_nat fuel → reusable bg all_gs hit →
  (simple = true → (∀ id, bg !! id = None) ∧ ∃ g1 g2, all_gs = [g1; g2] ∧ is_full_attention (ag_spec g1) = true) →
  ∃ hit' bg', hybrid_loop find fuel all_gs simple hit bg p = (Ok (hit', bg'), p) ∧ 0 ≤ hit' ≤ hit ∧ (al | hit') ∧
    (∀ g, g ∈ all_gs → stored bg' g (λ n, hit' ≤ n)) ∧
    (∀ g, g ∈ all_gs → is_full_attention (ag_spec g) = false → stored bg' g (λ n, n = hit')).
Proof.
  intros Hwf Hne. revert hit bg. induction fuel as [|fuel IH]; intros hit bg Hhit Hfuel Hre Hsimple; [lia|].
  cbn [hybrid_loop].
  destruct (hybrid_pass_spec all_gs hit bg Hwf (λ _ H, H) Hhit Hre)
    as (curr & bg1 & Hpass & Hcurr & _ & Hal & _ & Hst & Hlast).
  erewrite bind_ok by exact Hpass. cbv beta iota.
  destruct (Z.leb_spec hit curr) as [Hle|Hlt].
  - assert (curr = hit) as -> by lia. exists hit, bg1. split_and!; auto; try lia.
    + intros g Hg id Hid. destruct (Hst g Hg id Hid) as (c & Hc & (H1 & _) & Hd). eauto.
    + intros g Hg Hnf id Hid. destruct (Hst g Hg id Hid) as (c & Hc & (H1 & H2) & Hd).
      exists c. split_and!; auto. specialize (H2 Hnf). lia.
  - assert (∀ g, g ∈ all_gs → stored bg1 g (λ n, curr ≤ n)) as Hst1.
    { intros g Hg id Hid. destruct (Hst g Hg id Hid) as (c & Hc & (H1 & _) & Hd). eauto. }
    destruct simple.
    + destruct (Hsimple eq_refl) as [Hbg (g1 & g2 & E & Hfull)]. exists curr, bg1. split_and!; auto; try lia.
      intros g Hg Hnf. apply Hlast; [|by left]. rewrite E in Hg |- *.
      apply elem_of_cons in Hg as [->|Hg%list_elem_of_singleton]; [congruence|by subst].
    + destruct (IH curr bg1) as (hit' & bg' & Heq & Hh & Hrest); try done; try lia.
      { intros g id Hg Hid Hf Hs. split; [by apply Hal|by apply Hst1]. }
      exists hit', bg'. split_and!; try done; try lia; apply Hrest.
Qed.

End hybrid.

Lemma alter_each_lookup (f : list ref → list ref) ids (m : gmap Z (list ref)) id :
  NoDup ids → foldr (λ i m, alter f i m) m ids !! id = (if decide (id ∈ ids) then f <$> m !! id else m !! id).
Proof.
  induction 1 as [|i ids Hi Hnd IH]; [done|]. cbn [foldr]. rewrite lookup_alter.
  destruct (decide (i = id)) as [->|Hne].
  - rewrite IH, decide_False by done. rewrite decide_True; [done|]. apply elem_of_cons. by left.
  - rewrite IH. destruct (decide (id ∈ ids)) as [Hin|Hnin].
    + rewrite decide_True; [done|]. apply elem_of_cons. by right.
    + rewrite decide_False; [done|]. intros [?|?]%elem_of_cons; [congruence|done].
Qed.

(** C29.  The hybrid lookup terminates and is consistent across attention types:
    for any managers that keep the lookup contract and at most one
    full-attention entry (which comes first), the fixed-point iteration
    returns a hit length between 0 and the given maximum that is a multiple of
    the alignment, and every group's list of blocks covers exactly that many
    tokens. *)
Theorem hybrid_hit_consistent (p : BlockPool) find (al cap : Z) (gs : list AttentionGroup) (n : nat) (max : Z)
    `{!CacheHitFinder p find al cap gs} :
  groups_wf al gs → gs ≠ [] → 0 ≤ max ≤ cap →
  Forall (λ g, is_full_attention (ag_spec g) = false) (tail gs) →
  Forall (λ g, Forall (λ i, 0 ≤ i < Z.of_nat n) (ag_ids g)) gs →
  ∃ blocks hit, hybrid_find find n gs max p = (Ok (blocks, hit), p) ∧ 0 ≤ hit ≤ max ∧ (al | hit) ∧ length blocks = n ∧
    ∀ g i, g ∈ gs → Z.of_nat i ∈ ag_ids g →
      ∃ c, blocks !! i = Some c ∧ len c * block_size (ag_spec g) = hit.
Proof.
  intros Hwf Hne Hmax Htail Hids. unfold hybrid_find. set (simple := (len gs =? 2) && _).
  destruct (hybrid_loop_spec p find al cap gs (S (Z.to_nat max)) simple max ∅ Hwf Hne Hmax) as
    (hit & bg & Hloop & Hhit & Hal & Hst & Hex); [lia|by intros g id _ _ _ []%lookup_empty_is_Some| |].
  { unfold simple. intros [Hl%Z.eqb_eq Hf]%andb_true_iff. split; [done|].
    destruct gs as [|g1 [|g2 [|]]]; try (unfold len in Hl; cbn in Hl; lia). eauto. }
  erewrite bind_ok by exact Hloop. cbv beta iota. eexists _, hit. split_and!; [done|lia|lia|done| |].
  { by rewrite length_fmap, length_seq. }
  intros g i Hg Hi.
  assert (i < n)%nat as Hin.
  { apply Forall_forall with (x := g) in Hids; [|done]. apply Forall_forall with (x := Z.of_nat i) in Hids; [lia|done]. }
  assert (∃ c, truncate_first gs hit bg !! Z.of_nat i = Some c ∧ len c * block_size (ag_spec g) = hit) as (c & Hc & Hlen).
  2:{ exists c. split; [|done]. rewrite list_lookup_fmap, lookup_seq_lt by done. cbn. by rewrite Hc. }
  destruct gs as [|g0 rest]; [done|]. unfold truncate_first. destruct Hwf as [Hnd _ Hsz].
  cbn [fmap list_fmap concat] in Hnd. apply NoDup_app in Hnd as (Hnd0 & Hdisj & _).
  destruct (is_full_attention (ag_spec g)) eqn:Ef.
  - assert (g = g0) as ->.
    { apply elem_of_cons in Hg as [|Hg]; [done|]. cbn in Htail. apply Forall_forall with (x := g) in Htail; [congruence|done]. }
    rewrite Ef, alter_each_lookup, decide_True by done.
    destruct (Hst g0 Hg _ Hi) as (c & Hc & Hle & Hd). rewrite Hc. cbn. eexists. split; [done|].
    apply Forall_cons in Hsz as [[Hbs Hdiv] _]. set (bs := block_size (ag_spec g0)) in *.
    destruct (Z.divide_trans _ _ _ Hdiv Hal) as [q Hq]. rewrite Hq, Z.div_mul by lia.
    rewrite py_slice_to_nonneg by nia. unfold len in *. rewrite length_take. nia.
  - assert (stored al (truncate_first (g0 :: rest) hit bg) g (λ m, m = hit)) as Hs.
    2:{ destruct (Hs _ Hi) as (c & Hc & Heq & _). exists c. done. }
    intros id Hid. destruct (Hex g Hg Ef id Hid) as (c & Hc & Heq & Hd). exists c. split_and!; auto.
    unfold truncate_first. destruct (is_full_attention (ag_spec g0)) eqn:E0; [|done].
    rewrite alter_each_lookup by done. rewrite decide_False; [done|]. intros Hid0.
    apply elem_of_cons in Hg as [->|Hg]; [congruence|]. apply (Hdisj _ Hid0).
    eapply in_concat; [|exact Hid]. by apply list_elem_of_fmap_2.
Qed.

(** ** The managers keep the contract *)

(** Which entries the managers' lookups serve. *)
Definition finder_ready (use_eagle : bool) (al : Z) (g : AttentionGroup) : Prop :=
  match ag_class g, ag_spec g with
  | FullAttentionManager, s => is_full_attention s = true
  | SlidingWindowManager, SlidingWindowSpec bs _ w => 2 ≤ w ∧ (use_eagle = false ∨ bs = al)
  | MambaManager, MambaSpec _ _ => True
  | ChunkedLocalAttentionManager, ChunkedLocalAttentionSpec bs _ c => 0 < c ∧ use_eagle = false ∧ bs = al
  | _, _ => False
  end.

Lemma aligned_divide bs al n : al ≠ 0 → aligned bs al n → (al | Z.of_nat n * bs).
Proof. intros Hal [->|Hm]; [apply Z.divide_factor_r|by apply Z.mod_divide]. Qed.

Lemma shape_lens gids n P cs : shape gids n P cs → length cs = length gids ∧ Forall (λ c, len c = Z.of_nat n) cs.
Proof.
  intros Hs. split; [by rewrite (Forall2_length _ _ _ Hs)|]. apply Forall_forall. intros c Hc.
  apply list_elem_of_lookup in Hc as [j Hj]. destruct (Forall2_lookup_r _ _ _ _ _ Hs Hj) as (g & _ & Hl & _).
  unfold len. by rewrite Hl.
Qed.

Lemma group_hashes_spec block_hashes hbs spec p :
  0 < hbs → 0 < block_size spec → block_size spec mod hbs = 0 →
  ∃ l hs, group_hashes block_hashes hbs spec p = (Ok l, p) ∧ bhl_is l hs ∧
    ∀ cap, 0 ≤ cap → cap / hbs ≤ len block_hashes → cap / block_size spec ≤ len hs.
Proof.
  intros Hh Hb Hm. unfold group_hashes. destruct (Z.eqb_spec (block_size spec) hbs) as [->|Hne].
  { eexists _, block_hashes. split_and!; [done|apply bhl_is_plain|done]. }
  unfold mk_hash_list. rewrite Hm. cbn. apply Z.mod_divide in Hm as [q Hq]; [|lia]. rewrite Hq, Z.div_mul by lia.
  assert (0 < q) by nia. eexists _, (coarse_hashes block_hashes q). split_and!; [done|by apply bhl_is_scaled|].
  intros cap Hc Hcap. rewrite len_coarse_hashes by done. rewrite Z.mul_comm, <-Z.div_div by lia. by apply Z.div_le_mono.
Qed.

(** The lookups of the four manager classes discharge the contract. *)
#[global] Instance manager_finder p a block_hashes hbs al use_eagle cap gs
    (Hinv : pool_inv p a) (Hh : 0 < hbs) (Hal : 0 < al) (Hcap : cap / hbs ≤ len block_hashes)
    (Hgs : Forall (λ g, finder_ready use_eagle al g ∧ 0 < block_size (ag_spec g) ∧ block_size (ag_spec g) mod hbs = 0 ∧
       ag_ids g ≠ [] ∧ Forall (λ i, 0 ≤ i < 2 ^ 32) (ag_ids g)) gs) :
  CacheHitFinder p (manager_find block_hashes hbs al use_eagle) al cap gs.
Proof.
  split. intros g max Hg Hmax. destruct (proj1 (Forall_forall _ _) Hgs g Hg) as (Hready & Hbs & Hmod & Hne & Hids).
  unfold manager_find. destruct (group_hashes_spec block_hashes hbs (ag_spec g) p Hh Hbs Hmod) as (l & hs & Hgh & Hl & Hlen).
  erewrite bind_ok by exact Hgh.
  assert (max / block_size (ag_spec g) ≤ len hs) as Hm.
  { etrans; [apply Z.div_le_mono; [done|apply Hmax]|]. apply Hlen; [lia|done]. }
  assert (∀ L P cs r, r = (Ok cs, p) → shape (ag_ids g) L P cs → Z.of_nat L * block_size (ag_spec g) ≤ max →
    aligned (block_size (ag_spec g)) al L →
    ∃ n cs, r = (Ok cs, p) ∧ length cs = length (ag_ids g) ∧ Forall (λ c, len c = n) cs ∧
      n * block_size (ag_spec g) ≤ max ∧ (al | n * block_size (ag_spec g))) as Hdone.
  { intros L P cs r -> Hs HL Ha. destruct (shape_lens _ _ _ _ Hs) as [H1 H2].
    exists (Z.of_nat L), cs. split_and!; auto. apply aligned_divide; [lia|done]. }
  unfold finder_ready in Hready. destruct (ag_class g), (ag_spec g) eqn:Es; try done; cbn [find_longest_cache_hit].
  1-4: destruct (full_find_spec p a (ag_ids g) hs Hinv (conj Hne Hids) l max (ag_spec g) use_eagle al 1 1)
         as (L & cs & H1 & H2 & H3 & H4 & _); rewrite ?Es; try done; try lia;
       rewrite Es in *; by eapply Hdone.
  - destruct Hready as [Hw Hc].
    destruct (sw_find_spec p a (ag_ids g) hs Hinv (conj Hne Hids) l max bs at_ window use_eagle al)
      as (L & cs & H1 & H2 & H3 & H4 & _); try done; try lia. by eapply Hdone.
  - destruct Hready as (Hc & -> & <-).
    destruct (chunked_find_spec p a (ag_ids g) hs Hinv (conj Hne Hids) l max bs at_ chunk_size)
      as (L & cs & H1 & H2 & _ & H3 & _); try done; try lia. eapply Hdone; [done..|by left].
  - unfold mamba_find. erewrite bind_ok by reflexivity. erewrite bind_ok by reflexivity. unfold id. cbn in *.
    destruct (mamba_loop_spec p a (ag_ids g) hs Hinv (conj Hne Hids) l bs al (Z.to_nat (max / bs)) Hl)
      as (L & cs & H1 & H2 & H3 & H4 & _); [unfold len in Hm; lia|].
    eapply Hdone; [done..| |done]. pose proof (Z.mul_div_le max bs Hbs). pose proof (Z.div_pos max bs ltac:(lia) Hbs). nia.
Qed.

(** ** Concrete hybrid lookups *)

Definition fa_spec : KVCacheSpec := toy_full 128.
Definition sw_spec : KVCacheSpec := SlidingWindowSpec 16 toy_attention 33.
Definition two_groups : list AttentionGroup :=
  [MkAttentionGroup fa_spec [0] FullAttentionManager; MkAttentionGroup sw_spec [1] SlidingWindowManager].

Lemma hybrid_hit_consistent_witness :
  ∃ blocks hit, hybrid_find (manager_find six_hashes 16 16 false) 2 two_groups 95 six_cached =
      (Ok (blocks, hit), six_cached) ∧ 0 ≤ hit ≤ 95.
Proof.
  destruct six_cached_inv as [a Ha].
  assert (CacheHitFinder six_cached (manager_find six_hashes 16 16 false) 16 95 two_groups) as Hfind.
  { apply (manager_finder six_cached a six_hashes 16 16 false 95 two_groups Ha); [lia|lia|by vm_compute|].
    repeat apply Forall_cons_2; [..|apply Forall_nil_2]; cbn; split_and!; try done; try lia; try (by left);
      apply Forall_singleton; lia. }
  destruct (hybrid_hit_consistent six_cached (manager_find six_hashes 16 16 false) 16 95 two_groups 2 95)
    as (blocks & hit & H1 & H2 & _).
  - split; [apply (bool_decide_unpack _); vm_compute; exact I|repeat constructor; done|].
    repeat apply Forall_cons_2; [..|apply Forall_nil_2]; cbn; (split; [lia|apply Z.divide_refl]).
  - done.
  - lia.
  - by repeat constructor.
  - repeat apply Forall_cons_2; try apply Forall_nil_2; cbn; lia.
  - exact (ex_intro _ blocks (ex_intro _ hit (conj H1 H2))).
Defined.

(** A lookup with two different full-attention entries and a third group that
    accepts at most one block. *)
Definition three_groups : list AttentionGroup :=
  [MkAttentionGroup (toy_full 128) [0] FullAttentionManager; MkAttentionGroup (toy_full 64) [1] FullAttentionManager;
   MkAttentionGroup sw_spec [2] SlidingWindowManager].
Definition three_find (g : AttentionGroup) (max : Z) : M BlockPool (list (list ref)) :=
  if is_full_attention (ag_spec g) then ret [py_repeat (Blk 1) (max / 16)]
  else ret [py_repeat (Blk 2) (Z.min 1 (max / 16))].

(** Only the first full-attention entry is cut to the final hit length:
    with two different full-attention specs and another group that shortens
    the hit, the second full-attention group is returned with more blocks than
    the hit covers, although every group's lookup keeps its contract. *)
Theorem hybrid_second_full_not_truncated :
  (hybrid_find three_find 3 three_groups 64 six_cached).1 =
    Ok ([[Blk 1]; [Blk 1; Blk 1; Blk 1; Blk 1]; [Blk 2]], 16) ∧
  CacheHitFinder six_cached three_find 16 64 three_groups.
Proof.
  split; [by vm_compute|]. split. intros g max Hg Hmax. pose proof (Z.mul_div_le max 16 ltac:(lia)).
  pose proof (Z.div_pos max 16 ltac:(lia) ltac:(lia)).
  assert (block_size (ag_spec g) = 16 ∧ length (ag_ids g) = 1%nat) as [Hb Hi].
  { unfold three_groups in Hg. rewrite !elem_of_cons, elem_of_nil in Hg.
    by destruct Hg as [->|[->|[->|[]]]]. }
  rewrite Hb, Hi. unfold three_find. destruct (is_full_attention (ag_spec g)).
  - exists (max / 16). eexists. split_and!; [done..| |lia|apply Z.divide_factor_r].
    apply Forall_singleton. rewrite len_repeat. lia.
  - exists (Z.min 1 (max / 16)). eexists. split_and!; [done..| |lia|apply Z.divide_factor_r].
    apply Forall_singleton. rewrite len_repeat. lia.
Qed.
