(* ===== verification/KVCacheManager.v ===== *)
(** * KVCacheManager (vllm/v1/core/kv_cache_manager.py)

    The interface of the scheduler to the KV cache: prefix-cache lookup, slot
    allocation, release.  The system invariant of all managers with their pool
    is proved for every operation, and the capacity check of [allocate_slots]
    is proved sufficient: it never raises and never hands out a held block. *)

From Stdlib Require Import QArith.
From S2P Require Import Prelude FreeQueue RequestModel BlockHash KVCacheMetrics.
From S2P Require Import BlockPool KVCacheInterface SingleTypeManager Ownership CacheHit Coordinator.
#[local] Open Scope Z_scope.

(** ** Statistics (vllm/v1/metrics/stats.py) *)

Record PrefixCacheStats := MkPrefixCacheStats {
  st_reset : bool;
  st_requests : Z;
  st_queries : Z;
  st_hits : Z;
  preempted_requests : Z;
  preempted_queries : Z;
  preempted_hits : Z;
}.
Definition new_stats : PrefixCacheStats := MkPrefixCacheStats false 0 0 0 0 0 0.

(** [PrefixCacheStats.record] *)
Definition record_stats (num_tokens num_hits : Z) (preempted : bool) (s : PrefixCacheStats) : PrefixCacheStats :=
  if preempted then
    MkPrefixCacheStats (st_reset s) (st_requests s) (st_queries s) (st_hits s)
      (preempted_requests s + 1) (preempted_queries s + num_tokens) (preempted_hits s + num_hits)
  else
    MkPrefixCacheStats (st_reset s) (st_requests s + 1) (st_queries s + num_tokens) (st_hits s + num_hits)
      (preempted_requests s) (preempted_queries s) (preempted_hits s).
Definition stats_set_reset (s : PrefixCacheStats) : PrefixCacheStats :=
  MkPrefixCacheStats true (st_requests s) (st_queries s) (st_hits s)
    (preempted_requests s) (preempted_queries s) (preempted_hits s).

(** ** KVCacheBlocks *)

(** [allocate_slots] compares by identity with the pre-constructed empty
    object, which is kept apart from other values. *)
Inductive KVCacheBlocks :=
  | SharedEmpty (num_groups : nat)
  | Blocks (groups : list (list ref)).

Definition blocks_field (b : KVCacheBlocks) : list (list ref) :=
  match b with SharedEmpty n => replicate n [] | Blocks gs => gs end.
Definition is_shared_empty (b : KVCacheBlocks) : bool :=
  match b with SharedEmpty _ => true | Blocks _ => false end.

(** [__add__] *)
Definition blocks_add (a b : KVCacheBlocks) : KVCacheBlocks :=
  Blocks (zip_with app (blocks_field a) (blocks_field b)).

(** [get_block_ids(allow_none)] *)
Definition blocks_get_ids (h : gmap ref KVCacheBlock) (allow_none : bool) (b : KVCacheBlocks) : option (list (list Z)) :=
  if allow_none && forallb (λ g, len g =? 0) (blocks_field b) then None
  else Some ((λ g : list ref, id_in h <$> g) <$> blocks_field b).

Definition unhashed (h : gmap ref KVCacheBlock) (r : ref) : bool :=
  match h !! r with Some b => match block_hash b with None => true | Some _ => false end | None => false end.
Definition null_in (h : gmap ref KVCacheBlock) (r : ref) : bool :=
  match h !! r with Some b => is_null b | None => false end.

(** [get_unhashed_block_ids] *)
Definition get_unhashed_block_ids (h : gmap ref KVCacheBlock) (b : KVCacheBlocks) : res (list Z) :=
  match blocks_field b with
  | [g] => Ok (id_in h <$> filter (λ r, unhashed h r = true) g)
  | _ => Raise AssertionError
  end.

(** [get_unhashed_block_ids_all_groups] *)
Definition get_unhashed_block_ids_all_groups (h : gmap ref KVCacheBlock) (b : KVCacheBlocks) : list (list Z) :=
  (λ g : list ref, id_in h <$> filter (λ r, unhashed h r && negb (null_in h r) = true) g) <$> blocks_field b.

(** [new_empty] *)
Definition new_empty (b : KVCacheBlocks) : KVCacheBlocks := Blocks (replicate (length (blocks_field b)) []).

(** ** KVCacheManager *)

Record KVCacheManager := MkKVCacheManager {
  km_max_model_len : Z;
  km_enable_caching : bool;
  km_log_stats : bool;
  prefix_cache_stats : option PrefixCacheStats;
  coordinator : Coordinator;
  num_kv_cache_groups : nat;
}.

Definition set_coordinator (c : Coordinator) (k : KVCacheManager) : KVCacheManager :=
  MkKVCacheManager (km_max_model_len k) (km_enable_caching k) (km_log_stats k) (prefix_cache_stats k) c (num_kv_cache_groups k).
Definition set_stats (s : option PrefixCacheStats) (k : KVCacheManager) : KVCacheManager :=
  MkKVCacheManager (km_max_model_len k) (km_enable_caching k) (km_log_stats k) s (coordinator k) (num_kv_cache_groups k).

Definition on_coordinator {A} (m : M Coordinator A) : M KVCacheManager A := zoom coordinator set_coordinator m.
Definition on_pool_of {A} (m : M BlockPool A) : M KVCacheManager A := on_coordinator (on_block_pool m).
Definition pool_of (k : KVCacheManager) : BlockPool := c_block_pool (coordinator k).
Definition empty_kv_cache_blocks (k : KVCacheManager) : KVCacheBlocks := SharedEmpty (num_kv_cache_groups k).

(** The spec of a group; the scheduler's configuration has no
    [UniformTypeKVCacheSpecs], which [spec_manager_map] does not know. *)
Fixpoint layer_specs (gs : list KVCacheGroupSpec) : res (list KVCacheSpec) :=
  match gs with
  | [] => Ok []
  | g :: gs =>
      match kv_cache_spec g, layer_specs gs with
      | LayerSpec s, Ok ss => Ok (s :: ss)
      | _, _ => Raise KeyError
      end
  end.

(** [KVCacheManager.__init__] *)
Definition kv_manager_init (cfg : KVCacheConfig) (max_model_len hash_block_size : Z)
    (enable_caching use_eagle log_stats enable_kv_cache_events : bool) (dcp pcp : Z) (mc : option Collector)
    (use_int : bool) (env : MetricsEnv) : res KVCacheManager :=
  match layer_specs (kv_cache_groups cfg) with
  | Raise e => Raise e
  | Ok specs =>
      match get_kv_cache_coordinator (num_blocks cfg) specs use_eagle enable_caching enable_kv_cache_events
              dcp pcp hash_block_size mc use_int env with
      | Raise e => Raise e
      | Ok c => Ok (MkKVCacheManager max_model_len enable_caching log_stats
                      (if log_stats then Some new_stats else None) c (length (kv_cache_groups cfg)))
      end
  end.

(** [usage] *)
Definition usage (k : KVCacheManager) : Q := get_usage (pool_of k).

(** [make_prefix_cache_stats] *)
Definition make_prefix_cache_stats : M KVCacheManager (option PrefixCacheStats) :=
  let! k := gets id in
  if negb (km_log_stats k) then ret None
  else modify (set_stats (Some new_stats)) ;;; ret (prefix_cache_stats k).

(** [create_kv_cache_blocks] *)
Definition create_kv_cache_blocks (k : KVCacheManager) (blocks : list (list ref)) : KVCacheBlocks :=
  if existsb (λ g, 0 <? len g) blocks then Blocks blocks else empty_kv_cache_blocks k.

(** [get_computed_blocks] *)
Definition get_computed_blocks (r : Request) : M KVCacheManager (KVCacheBlocks * Z) :=
  let! k := gets id in
  if negb (km_enable_caching k) || skip_reading_prefix_cache r then ret (empty_kv_cache_blocks k, 0)
  else
    let max_cache_hit_length := num_tokens r - 1 in
    let! hit := on_coordinator (coord_find_longest_cache_hit (RequestModel.block_hashes r) max_cache_hit_length) in
    let '(computed_blocks, num_new_computed_tokens) := hit in
    (if km_log_stats k then
       match prefix_cache_stats k with
       | None => raise AssertionError
       | Some s => modify (set_stats (Some (record_stats (num_tokens r) num_new_computed_tokens (0 <? num_preemptions r) s)))
       end
     else ret tt) ;;;
    ret (create_kv_cache_blocks k computed_blocks, num_new_computed_tokens).

(** [can_fit_full_sequence] *)
Definition can_fit_full_sequence (r : Request) (num_new_computed_tokens : Z) (new_computed_blocks : option KVCacheBlocks)
    (num_external_computed_tokens num_encoder_tokens : Z) : M KVCacheManager bool :=
  let! k := gets id in
  let new_computed := blocks_field (default (empty_kv_cache_blocks k) new_computed_blocks) in
  let num_local_computed_tokens := num_computed_tokens r + num_new_computed_tokens in
  let total_computed_tokens := Z.min (num_local_computed_tokens + num_external_computed_tokens) (km_max_model_len k) in
  let full_num_tokens := Z.min (num_tokens r) (km_max_model_len k) in
  let! num_blocks_to_allocate :=
    on_coordinator (coord_num_blocks_to_allocate (request_id r) full_num_tokens new_computed num_encoder_tokens
                      total_computed_tokens full_num_tokens) in
  let! k := gets id in
  ret (num_blocks_to_allocate <=? get_num_free_blocks (pool_of k)).

Section allocate.
Variable sha256 : bytes → bytes.

(** [allocate_slots]; the request is returned because caching fills its
    per-block embedding hashes. *)
Definition allocate_slots (r : Request) (num_new_tokens num_new_computed_tokens : Z)
    (new_computed_blocks : option KVCacheBlocks) (num_lookahead_tokens num_external_computed_tokens : Z)
    (delay_cache_blocks : bool) (num_encoder_tokens : Z) : M KVCacheManager (option KVCacheBlocks * Request) :=
  if (num_new_tokens =? 0) && (num_external_computed_tokens =? 0) then raise ValueError
  else
    let! k := gets id in
    let new_computed_obj := default (empty_kv_cache_blocks k) new_computed_blocks in
    let new_computed := blocks_field new_computed_obj in
    let num_local_computed_tokens := num_computed_tokens r + num_new_computed_tokens in
    let total_computed_tokens := Z.min (num_local_computed_tokens + num_external_computed_tokens) (km_max_model_len k) in
    let num_tokens_main_model := total_computed_tokens + num_new_tokens in
    let num_tokens_need_slot := Z.min (num_tokens_main_model + num_lookahead_tokens) (km_max_model_len k) in
    on_coordinator (coord_remove_skipped_blocks (request_id r) total_computed_tokens) ;;;
    let! num_blocks_to_allocate :=
      on_coordinator (coord_num_blocks_to_allocate (request_id r) num_tokens_need_slot new_computed num_encoder_tokens
                        (num_local_computed_tokens + num_external_computed_tokens) num_tokens_main_model) in
    let! k := gets id in
    if get_num_free_blocks (pool_of k) <? num_blocks_to_allocate then ret (None, r)
    else
      (if negb (is_shared_empty new_computed_obj) || (0 <? num_external_computed_tokens) then
         on_coordinator (coord_allocate_new_computed_blocks (request_id r) new_computed
                           num_local_computed_tokens num_external_computed_tokens)
       else ret tt) ;;;
      let! new_blocks := on_coordinator (coord_allocate_new_blocks (request_id r) num_tokens_need_slot
                                           num_tokens_main_model num_encoder_tokens) in
      if negb (km_enable_caching k) || delay_cache_blocks then ret (Some (create_kv_cache_blocks k new_blocks), r)
      else
        let num_tokens_to_cache := Z.min (total_computed_tokens + num_new_tokens) (num_tokens r) in
        let! r' := on_coordinator (coord_cache_blocks sha256 r num_tokens_to_cache) in
        ret (Some (create_kv_cache_blocks k new_blocks), r').

(** [cache_blocks] *)
Definition kv_cache_blocks (r : Request) (num_computed_tokens : Z) : M KVCacheManager Request :=
  let! k := gets id in
  if km_enable_caching k then on_coordinator (coord_cache_blocks sha256 r num_computed_tokens) else ret r.

End allocate.

(** [free] *)
Definition kv_free (r : Request) : M KVCacheManager unit := on_coordinator (coord_free (request_id r)).

(** [remove_skipped_blocks] *)
Definition kv_remove_skipped_blocks (request_id : string) (total_computed_tokens : Z) : M KVCacheManager unit :=
  on_coordinator (coord_remove_skipped_blocks request_id total_computed_tokens).

(** [evict_blocks] *)
Definition kv_evict_blocks (block_ids : list Z) : M KVCacheManager unit := on_pool_of (evict_blocks block_ids).

(** [reset_prefix_cache] *)
Definition kv_reset_prefix_cache : M KVCacheManager bool :=
  let! ok := on_pool_of reset_prefix_cache in
  if negb ok then ret false
  else
    let! k := gets id in
    (if km_log_stats k then
       match prefix_cache_stats k with
       | None => raise AssertionError
       | Some s => modify (set_stats (Some (stats_set_reset s)))
       end
     else ret tt) ;;;
    ret true.

(** [get_num_common_prefix_blocks] *)
Definition kv_num_common_prefix_blocks (running_request_id : string) : M KVCacheManager (list Z) :=
  on_coordinator (coord_num_common_prefix_blocks running_request_id).

(** [take_events] *)
Definition kv_take_events : M KVCacheManager (list KVCacheEvent) := on_pool_of take_events.

(** [get_blocks], [get_block_ids] *)
Definition get_blocks (k : KVCacheManager) (request_id : string) : KVCacheBlocks :=
  create_kv_cache_blocks k (coord_get_blocks (coordinator k) request_id).
Definition get_block_ids (k : KVCacheManager) (request_id : string) : list (list Z) :=
  (λ g : list ref, id_in (heap (free_block_queue (pool_of k))) <$> g) <$> blocks_field (get_blocks k request_id).

(** [take_new_block_ids] *)
Definition kv_take_new_block_ids : M KVCacheManager (list Z) :=
  on_coordinator (each_manager (λ _ ids, let! l := take_new_block_ids in ret (ids ++ l)) []).

(** [new_step_starts] *)
Definition kv_new_step_starts : M KVCacheManager unit := on_coordinator coord_new_step_starts.
