(* ===== verification/KVCacheSafety.v ===== *)
(** * The KV cache as a whole: conservation of blocks and capacity

    [sys_inv] relates all managers of a coordinator to the pool they share:
    the reference count of every block is the number of times requests hold
    it, and blocks behind a cached prefix are unhashed and unshared.  The
    operations of [KVCacheManager] keep it, and [allocate_slots] is shown to
    succeed exactly when its capacity check does. *)

From S2P Require Import Prelude FreeQueue RequestModel BlockHash KVCacheMetrics BlockPool.
From S2P Require Import KVCacheInterface SingleTypeManager Ownership CacheHit Coordinator KVCacheManager.

(** ** All managers *)

Definition held_all (ms : list Manager) (i : nat) : Z := foldr (λ m acc, held m i + acc) 0 ms.

Lemma held_all_app ms ms' i : held_all (ms ++ ms') i = held_all ms i + held_all ms' i.
Proof. induction ms as [|m ms IH]; [done|]. cbn. unfold held_all in *. lia. Qed.

Lemma held_all_nonneg ms i : 0 ≤ held_all ms i.
Proof. induction ms as [|m ms IH]; [done|]. cbn. pose proof (held_nonneg (req_to_blocks m) i). unfold held_all in *. lia. Qed.

Lemma held_all_in ms m rid bs i : m ∈ ms → req_to_blocks m !! rid = Some bs → Blk i ∈ bs → 1 ≤ held_all ms i.
Proof.
  intros Hm Hbs Hi. apply list_elem_of_split in Hm as (l1 & l2 & ->). rewrite held_all_app. cbn.
  pose proof (held_in_ge _ _ _ _ Hbs Hi). pose proof (held_all_nonneg l1 i). pose proof (held_all_nonneg l2 i).
  unfold held_all in *. lia.
Qed.

Record sys_inv (ms : list Manager) (p : BlockPool) (a : APool) : Prop := {
  si_pool : pool_inv p a;
  si_off : enable_caching p = false → ∀ i, a_hash a i = None;
  si_wf : Forall manager_wf ms;
  si_blocks m rid bs : m ∈ ms → req_to_blocks m !! rid = Some bs → block_list_ok (pool_size p) bs;
  si_ref i : i ≠ 0%nat → a_ref a i = held_all ms i;
  si_fresh m rid i : m ∈ ms → fresh_of m rid i → a_hash a i = None ∧ a_ref a i = 1;
  si_cached m rid c : m ∈ ms → num_cached_block m !! rid = Some c → 0 ≤ c;
}.

Definition fresh_any (ms : list Manager) (i : nat) : Prop := ∃ m rid, m ∈ ms ∧ fresh_of m rid i.

Lemma in_hole {A} (pre post : list A) x y : y ∈ pre ++ x :: post ↔ y = x ∨ y ∈ pre ++ post.
Proof. rewrite !elem_of_app, elem_of_cons. tauto. Qed.

(** Focus on one manager ... *)
Lemma sys_open pre m post p a :
  sys_inv (pre ++ m :: post) p a → mgr_inv (held_all (pre ++ post)) (fresh_any (pre ++ post)) m p a.
Proof.
  intros H. assert (m ∈ pre ++ m :: post) as Hm by (apply in_hole; by left).
  split; try apply H.
  - by apply (proj1 (Forall_forall _ _) (si_wf _ _ _ H)).
  - intros rid bs. by apply (si_blocks _ _ _ H m).
  - intros i Hi. rewrite (si_ref _ _ _ H i Hi), !held_all_app. cbn. unfold held_all. lia.
  - intros i (m' & rid & Hm' & Hf). destruct (si_fresh _ _ _ H m' rid i) as [H1 H2]; [apply in_hole; by right|done|].
    destruct (fresh_of_in _ _ _ Hf) as (bs & Hbs & Hi & Hi0). split_and!; auto. by eapply held_all_in.
  - intros rid i. by apply (si_fresh _ _ _ H m).
  - intros rid c. by apply (si_cached _ _ _ H m).
Qed.

(** ... and put it back. *)
Lemma sys_close pre m post p a m' p' a' :
  sys_inv (pre ++ m :: post) p a → mgr_inv (held_all (pre ++ post)) (fresh_any (pre ++ post)) m' p' a' →
  pool_config p' = pool_config p → sys_inv (pre ++ m' :: post) p' a'.
Proof.
  intros H Hm Hcfg. pose proof (config_size _ _ Hcfg) as Hsz. split; try apply Hm.
  - apply Forall_app. pose proof (si_wf _ _ _ H) as [H1 H2]%Forall_app. apply Forall_cons in H2 as [_ H2].
    split; [done|]. apply Forall_cons. split; [apply Hm|done].
  - intros m1 rid bs [->|Hin]%in_hole Hbs; [by apply (mi_blocks _ _ _ _ _ Hm rid)|].
    rewrite Hsz. eapply (si_blocks _ _ _ H m1); [apply in_hole; by right|done].
  - intros i Hi. rewrite (mi_ref _ _ _ _ _ Hm i Hi), !held_all_app. cbn. unfold held_all. lia.
  - intros m1 rid i [->|Hin]%in_hole Hf; [by apply (mi_fresh _ _ _ _ _ Hm rid)|].
    destruct (mi_U _ _ _ _ _ Hm i) as (_ & _ & ? & ?); [by exists m1, rid|done].
  - intros m1 rid c [->|Hin]%in_hole Hc; [by apply (mi_cached _ _ _ _ _ Hm rid)|].
    eapply (si_cached _ _ _ H m1); [apply in_hole; by right|done].
Qed.

(** ** Loops over the managers *)

Section each.
Context {B : Type} (f : nat → B → M MS B).

Lemma wp_fold_managers (I : list Manager → list Manager → B → BlockPool → Prop) :
  (∀ pre m post acc p, I pre (m :: post) acc p →
     wp (f (length pre) acc) (λ b s, I (pre ++ [s.1]) post b s.2) (m, p)) →
  ∀ ms pre acc p, I pre ms acc p →
    ∃ b ms' p', fold_managers (length pre) ms f acc p = (Ok b, (ms', p')) ∧ I (pre ++ ms') [] b p'.
Proof.
  intros Hstep. induction ms as [|m ms IH]; intros pre acc p HI; cbn.
  { exists acc, [], p. by rewrite app_nil_r. }
  specialize (Hstep pre m ms acc p HI). apply wp_run in Hstep as (b & [m' p'] & -> & HI'). cbn [fst snd] in HI'.
  destruct (IH (pre ++ [m']) b p' HI') as (b2 & ms' & p2 & Hrun & HI2).
  rewrite length_app, Nat.add_comm in Hrun. cbn in Hrun. rewrite Hrun.
  exists b2, (m' :: ms'), p2. by rewrite <-app_assoc in HI2.
Qed.

(** Each manager in turn, with the system invariant: [R] relates a manager
    before and after, [J pre] holds once the managers have become [pre]. *)
Lemma wp_each_manager (R : nat → Manager → Manager → Prop) (J : list Manager → B → BlockPool → APool → Prop) c acc a :
  sys_inv (single_type_managers c) (c_block_pool c) a → J [] acc (c_block_pool c) a →
  (∀ pre m acc p a extra U, single_type_managers c !! length pre = Some m → mgr_inv extra U m p a → (∀ i, 0 ≤ extra i) →
     pool_config p = pool_config (c_block_pool c) → J pre acc p a →
     wp (f (length pre) acc) (λ b s, ∃ a', mgr_inv extra U s.1 s.2 a' ∧ manager_config s.1 = manager_config m ∧
       pool_config s.2 = pool_config p ∧ R (length pre) m s.1 ∧ J (pre ++ [s.1]) b s.2 a') (m, p)) →
  wp (each_manager f acc) (λ b c', ∃ ms' p' a', c' = set_managers ms' p' c ∧ sys_inv ms' p' a' ∧
    pool_config p' = pool_config (c_block_pool c) ∧ length ms' = length (single_type_managers c) ∧
    (∀ k m m', single_type_managers c !! k = Some m → ms' !! k = Some m' → manager_config m' = manager_config m ∧ R k m m') ∧
    J ms' b p' a') c.
Proof.
  intros Hsys HJ Hstep. set (ms0 := single_type_managers c) in *. set (p0 := c_block_pool c) in *.
  set (I := λ pre post b p, ∃ a, drop (length pre) ms0 = post ∧ sys_inv (pre ++ post) p a ∧
    pool_config p = pool_config p0 ∧ (length pre ≤ length ms0)%nat ∧
    (∀ k m m', ms0 !! k = Some m → pre !! k = Some m' → manager_config m' = manager_config m ∧ R k m m') ∧
    J pre b p a).
  destruct (wp_fold_managers I) with (ms := ms0) (pre := @nil Manager) (acc := acc) (p := p0) as (b & ms' & p' & Hrun & HI).
  - intros pre m post acc' p (a1 & Hdrop & Hs & Hcfg & Hlen & HR & HJ').
    assert (ms0 !! length pre = Some m) as Hm.
    { rewrite <-(Nat.add_0_r (length pre)), <-lookup_drop, Hdrop. done. }
    eapply wp_mono; [apply (Hstep pre m acc' p a1 _ _ Hm (sys_open _ _ _ _ _ Hs)); auto|].
    { intros i. apply held_all_nonneg. }
    intros b [m' p2] (a2 & Hmi & Hmc & Hpc & HRm & HJ2). cbn [fst snd] in *. exists a2.
    rewrite length_app, Nat.add_comm. cbn. rewrite <-app_assoc. cbn. split_and!; auto.
    + by rewrite <-Nat.add_1_r, <-drop_drop, Hdrop.
    + by eapply sys_close.
    + by rewrite Hpc.
    + apply lookup_lt_Some in Hm. lia.
    + intros k m1 m2 Hk1 Hk2. apply lookup_app_Some in Hk2 as [Hk2|[Hge Hk2]]; [by apply HR|].
      destruct (k - length pre)%nat as [|x] eqn:Ek; cbn in Hk2; [|by destruct x]. injection Hk2 as <-.
      replace k with (length pre) in * by lia. rewrite Hm in Hk1. by injection Hk1 as <-.
  - exists a. cbn. rewrite drop_0. split_and!; auto; lia || done.
  - cbn in Hrun, HI. destruct HI as (a' & Hdrop & Hs & Hcfg & Hlen & HR & HJ').
    unfold wp, each_manager. fold ms0 p0. rewrite Hrun. exists ms', p', a'. rewrite app_nil_r in Hs. split_and!; auto.
    assert (length (drop (length ms') ms0) = 0%nat) as H0 by by rewrite Hdrop. rewrite length_drop in H0. lia.
Qed.

End each.

(** ** The operations of the coordinator *)

Abbreviation managers c := (single_type_managers c).

(** [free]: every manager forgets the request and releases its blocks. *)
Lemma coord_free_inv c a rid :
  sys_inv (managers c) (c_block_pool c) a →
  wp (coord_free rid) (λ _ c', ∃ ms' p' a', c' = set_managers ms' p' c ∧ sys_inv ms' p' a' ∧
    pool_config p' = pool_config (c_block_pool c) ∧ length ms' = length (managers c) ∧
    (∀ k m m', managers c !! k = Some m → ms' !! k = Some m' → manager_config m' = manager_config m ∧
       req_to_blocks m' = delete rid (req_to_blocks m) ∧ num_cached_block m' = delete rid (num_cached_block m)) ∧
    len (a_free a) ≤ len (a_free a') ∧ a_hash a' = a_hash a) c.
Proof.
  intros Hs. apply (wp_each_manager (λ _ _, free rid)
    (λ _ m m', req_to_blocks m' = delete rid (req_to_blocks m) ∧ num_cached_block m' = delete rid (num_cached_block m))
    (λ _ _ p a', len (a_free a) ≤ len (a_free a') ∧ a_hash a' = a_hash a) c tt a Hs); [by split; [lia|]|].
  intros pre m _ p a1 extra U _ Hm Hex _ [H1 H2].
  eapply wp_mono; [by apply (free_inv extra U m p a1 rid)|].
  intros _ s (a' & H3 & H4 & H5 & H6 & H7 & H8 & H9 & _). exists a'. split_and!; auto; [lia|congruence].
Qed.

Lemma coord_remove_inv c a rid t :
  sys_inv (managers c) (c_block_pool c) a →
  wp (coord_remove_skipped_blocks rid t) (λ _ c', ∃ ms' p' a', c' = set_managers ms' p' c ∧ sys_inv ms' p' a' ∧
    pool_config p' = pool_config (c_block_pool c) ∧ length ms' = length (managers c) ∧
    (∀ k m m', managers c !! k = Some m → ms' !! k = Some m' → manager_config m' = manager_config m ∧
       (∀ rid', len (blocks_of m' rid') = len (blocks_of m rid')) ∧ num_cached_block m' = num_cached_block m) ∧
    len (a_free a) ≤ len (a_free a') ∧ a_hash a' = a_hash a) c.
Proof.
  intros Hs. apply (wp_each_manager (λ _ _, remove_skipped_blocks rid t)
    (λ _ m m', (∀ rid', len (blocks_of m' rid') = len (blocks_of m rid')) ∧ num_cached_block m' = num_cached_block m)
    (λ _ _ p a', len (a_free a) ≤ len (a_free a') ∧ a_hash a' = a_hash a) c tt a Hs); [by split; [lia|]|].
  intros pre m _ p a1 extra U _ Hm Hex _ [H1 H2].
  eapply wp_mono; [by apply (remove_skipped_inv extra U m p a1 rid)|].
  intros _ s (a' & H3 & H4 & H5 & H6 & H7 & H8 & H9). exists a'. split_and!; auto; [lia|congruence].
Qed.

(** ** Counting *)

(** The sum over the groups of what [get_num_blocks_to_allocate] returns. *)
Fixpoint total_to_allocate (ms : list Manager) (css : list (list nat)) (p : BlockPool) (rid : string) (nt t : Z) : Z :=
  match ms, css with
  | m :: ms, c :: css => num_to_allocate m p rid nt c t + total_to_allocate ms css p rid nt t
  | _, _ => 0
  end.

(** The blocks of a hit, one list per group. *)
Definition hit_refs (css : list (list nat)) : list (list ref) := (λ c : list nat, Blk <$> c) <$> css.

Lemma nth_group_run css i c (s : MS) : css !! i = Some c → nth_group (hit_refs css) i s = (Ok (Blk <$> c), s).
Proof.
  intros Hc. unfold nth_group, py_index, hit_refs. rewrite py_get_nonneg, Nat2Z.id, list_lookup_fmap, Hc by lia. done.
Qed.

Lemma coord_num_run c css rid nt enc t ntm :
  Forall manager_wf (managers c) → length css = length (managers c) →
  (∀ k m cs, managers c !! k = Some m → css !! k = Some cs → is_Some (num_cached_block m !! rid) → cs = []) →
  coord_num_blocks_to_allocate rid nt (hit_refs css) enc t ntm c =
    (Ok (total_to_allocate (managers c) css (c_block_pool c) rid nt t), c).
Proof.
  intros Hwf Hlen Hseen. unfold coord_num_blocks_to_allocate, each_manager. set (f := λ i acc, _).
  assert (∀ ms pre acc, managers c = pre ++ ms →
    fold_managers (length pre) ms f acc (c_block_pool c) =
      (Ok (acc + total_to_allocate ms (drop (length pre) css) (c_block_pool c) rid nt t), (ms, c_block_pool c))) as Hrun.
  2:{ specialize (Hrun (managers c) [] 0 eq_refl). cbn [length] in Hrun. rewrite Hrun, drop_0. cbn. f_equal. by destruct c. }
  induction ms as [|m ms IH]; intros pre acc Heq; cbn [fold_managers].
  { destruct (drop (length pre) css); cbn; by rewrite Z.add_0_r. }
  assert (managers c !! length pre = Some m) as Hm by by rewrite Heq, list_lookup_middle.
  assert (is_Some (css !! length pre)) as [cs Hcs].
  { apply lookup_lt_is_Some. rewrite Hlen. by eapply lookup_lt_Some. }
  pose proof (Forall_lookup_1 _ _ _ _ Hwf Hm) as Hw.
  assert (f (length pre) acc (m, c_block_pool c) =
    (Ok (acc + num_to_allocate m (c_block_pool c) rid nt cs t), (m, c_block_pool c))) as ->.
  { unfold f, get_mgr. erewrite bind_ok by reflexivity. cbn [fst]. rewrite decide_False.
    2:{ intros E. destruct Hw as (_ & _ & _ & Hw). by rewrite E in Hw. }
    erewrite bind_ok; [done|]. erewrite bind_ok by by apply nth_group_run.
    apply get_num_blocks_run; [done|]. intros Hx. by eapply Hseen. }
  specialize (IH (pre ++ [m]) (acc + num_to_allocate m (c_block_pool c) rid nt cs t)).
  rewrite length_app, Nat.add_1_r in IH. rewrite IH by by rewrite <-app_assoc.
  rewrite (drop_S _ _ _ Hcs). cbn [total_to_allocate]. do 2 f_equal. lia.
Qed.

(** Blocks still missing for [nt] tokens, over all groups. *)
Fixpoint total_needed (ms : list Manager) (rid : string) (nt : Z) : Z :=
  match ms with [] => 0 | m :: ms => blocks_needed m rid nt + total_needed ms rid nt end.

Lemma blocks_needed_nonneg m rid nt : 0 ≤ blocks_needed m rid nt.
Proof. unfold blocks_needed. lia. Qed.

Lemma total_needed_nonneg ms rid nt : 0 ≤ total_needed ms rid nt.
Proof. induction ms as [|m ms IH]; cbn; [done|]. pose proof (blocks_needed_nonneg m rid nt). lia. Qed.

Lemma total_needed_snoc ms m rid nt : total_needed (ms ++ [m]) rid nt = total_needed ms rid nt + blocks_needed m rid nt.
Proof. induction ms as [|m' ms IH]; cbn; lia. Qed.

Lemma num_to_allocate_nonneg m p rid nt c t : 0 ≤ num_to_allocate m p rid nt c t.
Proof.
  unfold num_to_allocate. destruct (num_cached_block m !! rid); [apply blocks_needed_nonneg|].
  unfold get_num_evictable_blocks. cbv zeta. match goal with |- context [len ?l] => pose proof (len_nonneg l) end.
  match goal with |- 0 ≤ _ + len ?l => pose proof (len_nonneg l) end. lia.
Qed.

Lemma total_to_allocate_nonneg ms : ∀ css p rid nt t, 0 ≤ total_to_allocate ms css p rid nt t.
Proof.
  induction ms as [|m ms IH]; intros [|c css] p rid nt t; cbn; try lia.
  pose proof (num_to_allocate_nonneg m p rid nt c t). specialize (IH css p rid nt t). lia.
Qed.

Lemma total_to_allocate_drop ms css p rid nt t k m c :
  ms !! k = Some m → css !! k = Some c →
  total_to_allocate (drop k ms) (drop k css) p rid nt t =
    num_to_allocate m p rid nt c t + total_to_allocate (drop (S k) ms) (drop (S k) css) p rid nt t.
Proof. intros Hm Hc. by rewrite (drop_S _ _ _ Hm), (drop_S _ _ _ Hc). Qed.

(** Touching more blocks leaves fewer evictable ones. *)
Lemma evictable_mono p a p' a' c :
  pool_inv p a → pool_inv p' a' → pool_size p' = pool_size p → Forall (λ i, (i < pool_size p)%nat) c →
  (∀ i, a_ref a i ≤ a_ref a' i) →
  get_num_evictable_blocks p' (Blk <$> c) ≤ get_num_evictable_blocks p (Blk <$> c).
Proof.
  intros [Hr Hok] [Hr' Hok'] Hsz Hc Hle. unfold get_num_evictable_blocks.
  fold (freed_now (heap (free_block_queue p)) (Blk <$> c)). fold (freed_now (heap (free_block_queue p')) (Blk <$> c)).
  rewrite (freed_now_rep p a c Hr Hc), (freed_now_rep p' a' c Hr') by by rewrite Hsz. rewrite !len_fmap. clear Hc.
  induction c as [|i c IH]; [done|]. rewrite !filter_cons. specialize (Hle i).
  destruct (decide (i ≠ 0%nat ∧ a_ref a' i = 0)) as [[Hi H0]|Hn]; destruct (decide (i ≠ 0%nat ∧ a_ref a i = 0)) as [|Hn'];
    rewrite ?len_cons; try lia. pose proof (ok_ref _ _ Hok i Hi). naive_solver lia.
Qed.

(** How a request can stand with a group before [allocate_slots]: its blocks
    were allocated before, or it is new and comes with its prefix-cache hit. *)
Definition seen_by (m : Manager) (rid : string) (c : list nat) : Prop :=
  is_Some (num_cached_block m !! rid) ∧ c = [].
Definition new_to (m : Manager) (p : BlockPool) (a : APool) (rid : string) (c : list nat) (local : Z) : Prop :=
  num_cached_block m !! rid = None ∧ blocks_of m rid = [] ∧ hit_ok m p a c local.

(** One group: what it spends now and needs later is covered by its count. *)
Lemma computed_step extra U m p a p0 a0 rid c local ext nt :
  mgr_inv extra U m p a → (∀ i, 0 ≤ extra i) → pool_inv p0 a0 → pool_config p = pool_config p0 →
  0 ≤ local → 0 ≤ ext → local + ext ≤ nt →
  seen_by m rid c ∨ new_to m p0 a0 rid c local → a_hash a = a_hash a0 → (∀ i, a_ref a0 i ≤ a_ref a i) →
  num_to_allocate m p0 rid nt c (local + ext) ≤ len (a_free a) →
  wp (allocate_new_computed_blocks rid (Blk <$> c) local ext) (λ _ s, ∃ a',
    mgr_inv extra U s.1 s.2 a' ∧ manager_config s.1 = manager_config m ∧ pool_config s.2 = pool_config p ∧
    len (a_free a) - num_to_allocate m p0 rid nt c (local + ext) + blocks_needed s.1 rid nt ≤ len (a_free a') ∧
    (ext = 0 → a_hash a' = a_hash a ∧ ∀ i, a_ref a i ≤ a_ref a' i)) (m, p).
Proof.
  intros Hm Hex Hp0 Hcfg Hl He Hnt [[[x Hx] ->]|(Hnone & Hempty & Hhit)] Hh Hrf Hn.
  - eapply allocate_computed_seen; [exact Hx|]. exists a. cbn [fst snd]. split_and!; auto; [|done].
    unfold num_to_allocate. rewrite Hx. lia.
  - pose proof (mi_wf _ _ _ _ _ Hm) as Hwf. destruct (skipped_blocks_bounds m (local + ext) Hwf) as [Hs0 _]; [lia|].
    assert (hit_ok m p a c local) as Hhit'.
    { unfold hit_ok in *. by rewrite Hh, (config_size _ _ Hcfg). }
    pose proof (evictable_mono p0 a0 p a (touched m (local + ext) c) Hp0 (mi_pool _ _ _ _ _ Hm) (config_size _ _ Hcfg)) as Hev.
    specialize (Hev ltac:(apply Forall_drop; eapply Forall_impl; [apply Hhit|naive_solver]) Hrf).
    pose proof (prefix_len_le m _ c local ext p a Hwf Hhit' Hl He eq_refl) as Hpl.
    pose proof (cdiv_mono (local + ext) nt (m_block_size m) (proj1 (proj2 Hwf)) Hnt) as Hcd.
    assert (num_to_allocate m p0 rid nt c (local + ext) =
      Z.max (cdiv nt (m_block_size m) - prefix_len m (local + ext) c) 0 +
      get_num_evictable_blocks p0 (Blk <$> touched m (local + ext) c)) as En.
    { unfold num_to_allocate. rewrite Hnone, Hempty. change (len []) with 0. rewrite Z.add_0_r, Z.sub_0_r, (Z.max_r 0 (skipped_blocks m _)) by lia. done. }
    rewrite En in *.
    eapply wp_mono; [apply (allocate_computed_new extra U m p a rid c local ext); auto; lia|].
    intros _ [m' p'] (a' & got & H1 & H2 & H3 & H4 & H5 & H6 & H7 & H8 & H9 & H10). cbn [fst snd] in *. exists a'.
    split_and!; auto; [|naive_solver].
    assert (m_block_size m' = m_block_size m) as Ebs by by injection H2.
    unfold blocks_needed. rewrite Ebs, H4. destruct (decide (0 < got)) as [Hg|Hg]; [specialize (H8 Hg)|]; lia.
Qed.

Lemma coord_computed_inv c a css rid local ext nt :
  sys_inv (managers c) (c_block_pool c) a → length css = length (managers c) →
  0 ≤ local → 0 ≤ ext → local + ext ≤ nt → ext = 0 ∨ (length (managers c) ≤ 1)%nat →
  (∀ k m cs, managers c !! k = Some m → css !! k = Some cs →
     seen_by m rid cs ∨ new_to m (c_block_pool c) a rid cs local) →
  total_to_allocate (managers c) css (c_block_pool c) rid nt (local + ext) ≤ len (a_free a) →
  wp (coord_allocate_new_computed_blocks rid (hit_refs css) local ext) (λ _ c', ∃ ms' p' a', c' = set_managers ms' p' c ∧
    sys_inv ms' p' a' ∧ pool_config p' = pool_config (c_block_pool c) ∧ length ms' = length (managers c) ∧
    (∀ k m m', managers c !! k = Some m → ms' !! k = Some m' → manager_config m' = manager_config m) ∧
    total_needed ms' rid nt ≤ len (a_free a')) c.
Proof.
  intros Hs Hlen Hl He Hnt Hone Hready Htot. set (p0 := c_block_pool c) in *.
  eapply wp_mono; [apply (wp_each_manager _ (λ _ _ _, True) (λ pre _ p1 a1,
    total_to_allocate (drop (length pre) (managers c)) (drop (length pre) css) p0 rid nt (local + ext) +
      total_needed pre rid nt ≤ len (a_free a1) ∧
    (ext = 0 ∨ pre = [] → a_hash a1 = a_hash a ∧ ∀ i, a_ref a i ≤ a_ref a1 i)) c tt a Hs)|].
  - cbn. rewrite !drop_0. split; [lia|done].
  - intros pre m _ p1 a1 extra U Hm Hmi Hex Hcfg [HJ1 HJ2].
    assert (is_Some (css !! length pre)) as [cs Hcs].
    { apply lookup_lt_is_Some. rewrite Hlen. by eapply lookup_lt_Some. }
    rewrite (total_to_allocate_drop _ _ _ _ _ _ _ _ _ Hm Hcs) in HJ1.
    pose proof (total_to_allocate_nonneg (drop (S (length pre)) (managers c)) (drop (S (length pre)) css) p0 rid nt (local + ext)).
    pose proof (total_needed_nonneg pre rid nt).
    assert (ext = 0 ∨ pre = []) as Hcase.
    { destruct Hone as [|Hone]; [by left|right]. apply lookup_lt_Some in Hm. destruct pre; [done|cbn in Hm; lia]. }
    destruct (HJ2 Hcase) as [Hh Hrf].
    eapply wp_bind_ok; [by apply nth_group_run|].
    eapply wp_mono; [apply (computed_step extra U m p1 a1 p0 a rid cs local ext nt); auto; [apply Hs|by apply (Hready (length pre))|lia]|].
    intros _ [m' p'] (a' & H1 & H2 & H3 & H4 & H5). cbn [fst snd] in *. exists a'. split_and!; auto.
    + rewrite length_app, Nat.add_1_r, total_needed_snoc. lia.
    + intros [->|Hp]; [|by destruct pre]. destruct (H5 eq_refl) as [-> H6]. split; [done|]. intros i. specialize (Hrf i). specialize (H6 i). lia.
  - intros _ c' (ms' & p' & a' & -> & H1 & H2 & H3 & H4 & H5 & _). exists ms', p', a'. split_and!; auto.
    + intros k m m' Hk Hk'. by apply (H4 k).
    + pose proof (total_to_allocate_nonneg (drop (length ms') (managers c)) (drop (length ms') css) p0 rid nt (local + ext)). lia.
Qed.

(** Every token of [nt] has a slot in every group. *)
Definition covers (ms : list Manager) (rid : string) (nt : Z) : Prop :=
  Forall (λ m, nt ≤ len (blocks_of m rid) * m_block_size m) ms.

Lemma blocks_needed_cover m m' rid nt bs :
  0 < m_block_size m → m_block_size m' = m_block_size m → blocks_of m' rid = blocks_of m rid ++ bs →
  len bs = blocks_needed m rid nt → nt ≤ len (blocks_of m' rid) * m_block_size m'.
Proof.
  intros Hbs -> -> Hl. rewrite len_app, Hl. unfold blocks_needed. pose proof (cdiv_mul_ge nt (m_block_size m) Hbs). nia.
Qed.

(** [allocate_new_blocks]: the lists returned are what each group gained. *)
Lemma coord_allocate_inv c a rid nt ntm enc :
  sys_inv (managers c) (c_block_pool c) a → total_needed (managers c) rid nt ≤ len (a_free a) →
  wp (coord_allocate_new_blocks rid nt ntm enc) (λ bss c', ∃ ms' p' a', c' = set_managers ms' p' c ∧
    sys_inv ms' p' a' ∧ pool_config p' = pool_config (c_block_pool c) ∧ length ms' = length (managers c) ∧
    (∀ k m m', managers c !! k = Some m → ms' !! k = Some m' → manager_config m' = manager_config m) ∧
    covers ms' rid nt ∧ length bss = length ms' ∧
    (∀ k m m' bs, managers c !! k = Some m → ms' !! k = Some m' → bss !! k = Some bs →
       blocks_of m' rid = blocks_of m rid ++ bs)) c.
Proof.
  intros Hs Htot. pose proof (si_wf _ _ _ Hs) as Hwf.
  eapply wp_mono; [apply (wp_each_manager _
    (λ _ m m', ∃ bs, blocks_of m' rid = blocks_of m rid ++ bs ∧ len bs = blocks_needed m rid nt)
    (λ pre bss p1 a1, total_needed (drop (length pre) (managers c)) rid nt ≤ len (a_free a1) ∧ length bss = length pre ∧
      ∀ k m m' bs, managers c !! k = Some m → pre !! k = Some m' → bss !! k = Some bs →
        blocks_of m' rid = blocks_of m rid ++ bs) c [] a Hs)|].
  - cbn. rewrite drop_0. split_and!; [done|done|]. intros k m m' bs _ Hk. done.
  - intros pre m bss p1 a1 extra U Hm Hmi Hex Hcfg (HJ1 & HJ2 & HJ3). rewrite (drop_S _ _ _ Hm) in HJ1.
    cbn [total_needed] in HJ1. pose proof (total_needed_nonneg (drop (S (length pre)) (managers c)) rid nt).
    pose proof (mi_wf _ _ _ _ _ Hmi) as (_ & Hbs & _ & Hcls).
    eapply wp_bind_ok; [done|]. cbn [fst]. rewrite decide_False by (intros E; by rewrite E in Hcls).
    wp_step. eapply wp_mono; [apply (allocate_new_blocks_inv extra U m p1 a1 rid nt ntm Hmi Hex); lia|].
    intros bs [m' p'] (a' & H1 & H2 & H3 & H4 & H5 & H6 & H7). wp_step. cbn [fst snd] in *. exists a'.
    assert (blocks_of m' rid = blocks_of m rid ++ bs) as Hb by (unfold blocks_of at 1; by rewrite H4, lookup_insert_eq).
    split_and!; eauto.
    + rewrite length_app, Nat.add_1_r. lia.
    + rewrite !length_app. cbn. lia.
    + intros k m1 m2 bs2 Hk1 [Hk2|[Hge Hk2]]%lookup_app_Some Hk3.
      * rewrite lookup_app_l in Hk3 by (rewrite HJ2; by eapply lookup_lt_Some). by eapply HJ3.
      * apply list_lookup_singleton_Some in Hk2 as [Hk <-]. replace k with (length pre) in * by lia.
        rewrite lookup_app_r, HJ2, Nat.sub_diag in Hk3 by lia. injection Hk3 as <-. rewrite Hm in Hk1. by injection Hk1 as <-.
  - intros bss c' (ms' & p' & a' & -> & H1 & H2 & H3 & H4 & (_ & H6 & H7)). exists ms', p', a'. split_and!; auto.
    + intros k m m' Hk Hk'. by apply (H4 k).
    + apply Forall_lookup. intros k m' Hk'.
      destruct (lookup_lt_is_Some_2 (managers c) k) as [m Hk]; [rewrite <-H3; by eapply lookup_lt_Some|].
      destruct (H4 k m m' Hk Hk') as (Hc & bs & Hb & Hl).
      apply (blocks_needed_cover m m' rid nt bs); auto; [by apply (Forall_lookup_1 _ _ _ _ Hwf Hk)|by injection Hc].
Qed.

(** The request's hashes reach [nt] tokens at the granularity of a group. *)
Lemma hash_view_len p r bs nt :
  0 < hash_block_size p → 0 < bs → bs mod hash_block_size p = 0 → 0 ≤ nt → nt / hash_block_size p ≤ len (RequestModel.block_hashes r) →
  nt / bs ≤ len (hash_view p r bs).
Proof.
  intros Hh Hb Hm Hnt Hlen. unfold hash_view. destruct (decide (bs = hash_block_size p)) as [->|Hne]; [done|].
  apply Z.mod_divide in Hm as [q ->]; [|lia]. rewrite Z.div_mul by lia. assert (0 < q) by nia.
  rewrite len_coarse_hashes by done. rewrite Z.mul_comm, <-Z.div_div by lia. by apply Z.div_le_mono.
Qed.

Lemma hash_view_embeds p p' e r bs :
  pool_config p' = pool_config p → hash_view p' (set_prompt_embeds_per_block_hashes e r) bs = hash_view p r bs.
Proof. intros H. by rewrite (hash_view_config _ _ _ _ H). Qed.

(** [cache_blocks] over all groups. *)
Lemma coord_cache_inv sha256 c a r nt :
  sys_inv (managers c) (c_block_pool c) a → enable_caching (c_block_pool c) = true →
  0 < hash_block_size (c_block_pool c) → Forall (λ m, m_block_size m mod hash_block_size (c_block_pool c) = 0) (managers c) →
  0 ≤ nt → nt / hash_block_size (c_block_pool c) ≤ len (RequestModel.block_hashes r) → covers (managers c) (request_id r) nt →
  wp (coord_cache_blocks sha256 r nt) (λ r' c', ∃ ms' p' a', c' = set_managers ms' p' c ∧
    sys_inv ms' p' a' ∧ pool_config p' = pool_config (c_block_pool c) ∧ length ms' = length (managers c) ∧
    (∀ k m m', managers c !! k = Some m → ms' !! k = Some m' →
       manager_config m' = manager_config m ∧ ∀ rid, blocks_of m' rid = blocks_of m rid) ∧
    (∃ e, r' = set_prompt_embeds_per_block_hashes e r) ∧ a_free a' = a_free a) c.
Proof.
  intros Hs Hen Hh Hmod Hnt Hlen Hcov. set (p0 := c_block_pool c) in *.
  eapply wp_mono; [apply (wp_each_manager _ (λ _ m m', ∀ rid, blocks_of m' rid = blocks_of m rid)
    (λ _ r' p1 a1, (∃ e, r' = set_prompt_embeds_per_block_hashes e r) ∧ a_free a1 = a_free a) c r a Hs)|].
  - split; [|done]. exists (prompt_embeds_per_block_hashes r). by destruct r.
  - intros pre m r1 p1 a1 extra U Hm Hmi Hex Hcfg [[e ->] Hfree]. pose proof (mi_wf _ _ _ _ _ Hmi) as (_ & Hbs & _).
    pose proof (Forall_lookup_1 _ _ _ _ Hmod Hm) as Hmm. pose proof (Forall_lookup_1 _ _ _ _ Hcov Hm) as Hcm. cbn beta in *.
    assert (hash_block_size p1 = hash_block_size p0) as Ehb by by apply pool_config_hbs.
    eapply wp_mono; [apply (cache_blocks_inv sha256 extra U m p1 a1 (set_prompt_embeds_per_block_hashes e r) nt Hmi Hex)|].
    + by rewrite (pool_config_caching _ _ Hcfg).
    + by rewrite Ehb.
    + by rewrite Ehb.
    + apply Z.div_le_upper_bound; [done|]. change (request_id (set_prompt_embeds_per_block_hashes e r)) with (request_id r). lia.
    + rewrite (hash_view_embeds p0) by done. by apply hash_view_len.
    + intros r' [m' p'] (a' & [e' ->] & H1 & H2 & H3 & H4 & H5). cbn [fst snd] in *. exists a'. split_and!; auto; [|congruence].
      by exists e'.
  - intros r' c' (ms' & p' & a' & -> & H1 & H2 & H3 & H4 & H5 & H6). exists ms', p', a'. split_and!; auto.
Qed.

(** ** allocate_slots *)

Abbreviation managers_of k := (single_type_managers (coordinator k)).
Definition kv_inv (k : KVCacheManager) (a : APool) : Prop := sys_inv (managers_of k) (pool_of k) a.

(** A request with blocks that no [allocate_new_computed_blocks] or
    [cache_blocks] has recorded: caching is off or delayed. *)
Definition unrecorded (m : Manager) (rid : string) (c : list nat) (local : Z) : Prop :=
  num_cached_block m !! rid = None ∧ c = [] ∧ local ≤ len (blocks_of m rid) * m_block_size m.

(** Whether [allocate_slots] calls [allocate_new_computed_blocks]. *)
Definition records_prefix (k : KVCacheManager) (ncb : option KVCacheBlocks) (ext : Z) : bool :=
  negb (is_shared_empty (default (empty_kv_cache_blocks k) ncb)) || (0 <? ext).

(** What the scheduler guarantees when it calls [allocate_slots]. *)
Record slots_ready (k : KVCacheManager) (a : APool) (r : Request) (new comp look ext : Z)
    (ncb : option KVCacheBlocks) (css : list (list nat)) : Prop := {
  sr_inv : kv_inv k a;
  sr_some : new ≠ 0 ∨ ext ≠ 0;
  sr_nonneg : 0 ≤ new ∧ 0 ≤ look ∧ 0 ≤ ext ∧ 0 ≤ num_computed_tokens r + comp;
  sr_hits : blocks_field (default (empty_kv_cache_blocks k) ncb) = hit_refs css ∧ length css = length (managers_of k);
  sr_max : num_computed_tokens r + comp + ext ≤ km_max_model_len k;
  sr_ext : ext = 0 ∨ (length (managers_of k) ≤ 1)%nat;
  sr_group j m c : managers_of k !! j = Some m → css !! j = Some c →
    seen_by m (request_id r) c ∨ new_to m (pool_of k) a (request_id r) c (num_computed_tokens r + comp) ∨
    (records_prefix k ncb ext = false ∧ unrecorded m (request_id r) c (num_computed_tokens r + comp));
}.

(** What caching needs: hashes for all tokens, block sizes that the hash block
    size divides, and no token beyond the model length. *)
Definition cache_ready (k : KVCacheManager) (r : Request) (new comp ext : Z) : Prop :=
  km_enable_caching k = true → enable_caching (pool_of k) = true ∧ 0 < hash_block_size (pool_of k) ∧
    Forall (λ m, m_block_size m mod hash_block_size (pool_of k) = 0) (managers_of k) ∧
    num_tokens r / hash_block_size (pool_of k) ≤ len (RequestModel.block_hashes r) ∧
    Z.min (num_computed_tokens r + comp + ext + new) (num_tokens r) ≤ km_max_model_len k.

(** Removing skipped blocks does not change how a request stands. *)
Lemma group_stands m m' p p' a a' rid c local :
  manager_config m' = manager_config m → len (blocks_of m' rid) = len (blocks_of m rid) →
  num_cached_block m' = num_cached_block m → pool_config p' = pool_config p → a_hash a' = a_hash a →
  (seen_by m rid c → seen_by m' rid c) ∧ (new_to m p a rid c local → new_to m' p' a' rid c local) ∧
  (unrecorded m rid c local → unrecorded m' rid c local).
Proof.
  intros [= Ebs Esp Ecl Eca Eid Enl] Hl Hc Hp Hh. unfold seen_by, new_to, unrecorded, hit_ok.
  rewrite Hc, Hl, Hh, Ebs, Eca, (config_size _ _ Hp). split; [done|split; [|done]].
  intros (? & He & ?). rewrite He in Hl. split; [done|split; [|done]].
  destruct (blocks_of m' rid); [done|]. unfold len in Hl. cbn in Hl. lia.
Qed.

(** Without [allocate_new_computed_blocks] nothing is spent before the new
    blocks are allocated. *)
Lemma needed_le_total ms css p a rid nt local :
  Forall manager_wf ms → 0 ≤ local → length css = length ms →
  (∀ j m c, ms !! j = Some m → css !! j = Some c → c = [] ∧
     (seen_by m rid c ∨ new_to m p a rid c local ∨ unrecorded m rid c local)) →
  total_needed ms rid nt ≤ total_to_allocate ms css p rid nt local.
Proof.
  intros Hwf Hl. revert css. induction Hwf as [|m ms Hm _ IH]; intros [|c css] Hlen Hst; try done. cbn.
  destruct (Hst 0%nat m c eq_refl eq_refl) as [-> Hc].
  specialize (IH css ltac:(by injection Hlen) (λ j m c Hj, Hst (S j) m c Hj)).
  cut (blocks_needed m rid nt ≤ num_to_allocate m p rid nt [] local); [lia|].
  unfold num_to_allocate. destruct (num_cached_block m !! rid) as [x|] eqn:E; [lia|].
  destruct (skipped_blocks_bounds m local Hm Hl) as [H1 H2].
  assert (skipped_blocks m local ≤ len (blocks_of m rid)) as Hs.
  { destruct Hm as (_ & Hbs & _). destruct Hc as [[[x Hx] _]|[(_ & -> & _ & _ & Hz & _)|(_ & _ & Hz)]]; [congruence| |nia].
    change (len []) with 0 in *. nia. }
  unfold blocks_needed, get_num_evictable_blocks. rewrite drop_nil. cbn. change (len []) with 0. lia.
Qed.

(** The slots [allocate_slots] provides: for the computed, new and lookahead
    tokens, up to the model length. *)
Definition need_slot (k : KVCacheManager) (r : Request) (new comp look ext : Z) : Z :=
  Z.min (num_computed_tokens r + comp + ext + new + look) (km_max_model_len k).

(** The outcome of [allocate_slots] in manager [k'] for the hit [css].  Blocks
    that the computed tokens leave behind are released first, which gives [k1]
    and keeps the length of every list; the pool of [k1] decides. *)
Definition slots_post (k k' : KVCacheManager) (r : Request) (new comp look ext : Z) (css : list (list nat))
    (out : option KVCacheBlocks) : Prop :=
  ∃ k1, on_coordinator (coord_remove_skipped_blocks (request_id r) (num_computed_tokens r + comp + ext)) k = (Ok tt, k1) ∧
    (∀ j m m1 rid, managers_of k !! j = Some m → managers_of k1 !! j = Some m1 →
       len (blocks_of m1 rid) = len (blocks_of m rid)) ∧
    (out = None ↔ get_num_free_blocks (pool_of k1) < total_to_allocate (managers_of k1) css (pool_of k1) (request_id r)
          (need_slot k r new comp look ext) (num_computed_tokens r + comp + ext)) ∧
    match out with
    | None => k' = k1
    | Some b =>
        covers (managers_of k') (request_id r) (need_slot k r new comp look ext) ∧
        (∀ j m' bs, managers_of k' !! j = Some m' → blocks_field b !! j = Some bs →
           ∃ old, blocks_of m' (request_id r) = old ++ bs)
    end.

Lemma create_blocks_suffix k bss j bs : blocks_field (create_kv_cache_blocks k bss) !! j = Some bs → bss !! j = Some bs ∨ bs = [].
Proof.
  unfold create_kv_cache_blocks. destruct (existsb _ bss); cbn; [by left|]. intros [-> _]%lookup_replicate. by right.
Qed.

(** The first two stages: skipped blocks are released, the blocks counted. *)
Lemma slots_count k a r new comp look ext ncb css :
  slots_ready k a r new comp look ext ncb css →
  wp (on_coordinator (coord_remove_skipped_blocks (request_id r) (num_computed_tokens r + comp + ext)))
    (λ _ k1, ∃ a1, slots_ready k1 a1 r new comp look ext ncb css ∧ pool_config (pool_of k1) = pool_config (pool_of k) ∧
      k1 = set_coordinator (coordinator k1) k ∧ length (managers_of k1) = length (managers_of k) ∧
      (∀ j m m', managers_of k !! j = Some m → managers_of k1 !! j = Some m' → manager_config m' = manager_config m ∧
         ∀ rid, len (blocks_of m' rid) = len (blocks_of m rid))) k.
Proof.
  intros H. apply wp_zoom. eapply wp_mono; [apply (coord_remove_inv (coordinator k) a), H|].
  intros _ c' (ms1 & p1 & a1 & -> & H1 & H2 & H3 & H4 & H5 & H6). exists a1. split_and!; auto; [|naive_solver].
  split; try apply H; [exact H1| | |]; cbn.
  - destruct (sr_hits _ _ _ _ _ _ _ _ _ H) as [? ?]. split; [done|]. congruence.
  - rewrite H3. apply H.
  - intros j m' c Hj Hc. destruct (lookup_lt_is_Some_2 (managers_of k) j) as [m Hm]; [rewrite <-H3; by eapply lookup_lt_Some|].
    destruct (H4 j m m' Hm Hj) as (Hcf & Hl & Hnc).
    destruct (group_stands m m' (pool_of k) p1 a a1 (request_id r) c (num_computed_tokens r + comp) Hcf (Hl _) Hnc H2 H6) as (S1 & S2 & S3).
    destruct (sr_group _ _ _ _ _ _ _ _ _ H j m c Hm Hc) as [?|[?|[? ?]]]; [left; auto|right; left; auto|right; right; auto].
Qed.

Lemma num_free_len p a : pool_inv p a → get_num_free_blocks p = len (a_free a).
Proof. intros [Hr _]. apply (rep_num _ _ (pr_queue _ _ Hr)). Qed.

(** The middle stages: prefix recorded, new blocks allocated. *)
Lemma slots_allocate k a r new comp look ext ncb css ntm enc :
  slots_ready k a r new comp look ext ncb css →
  let local := num_computed_tokens r + comp in let nt := need_slot k r new comp look ext in
  total_to_allocate (managers_of k) css (pool_of k) (request_id r) nt (local + ext) ≤ get_num_free_blocks (pool_of k) →
  wp ((if records_prefix k ncb ext
       then on_coordinator (coord_allocate_new_computed_blocks (request_id r) (hit_refs css) local ext) else ret tt) ;;;
      on_coordinator (coord_allocate_new_blocks (request_id r) nt ntm enc))
    (λ bss k', ∃ a', kv_inv k' a' ∧ pool_config (pool_of k') = pool_config (pool_of k) ∧
      k' = set_coordinator (coordinator k') k ∧ length (managers_of k') = length (managers_of k) ∧
      (∀ j m m', managers_of k !! j = Some m → managers_of k' !! j = Some m' → manager_config m' = manager_config m) ∧
      covers (managers_of k') (request_id r) nt ∧
      (∀ j m' bs, managers_of k' !! j = Some m' → bss !! j = Some bs → ∃ old, blocks_of m' (request_id r) = old ++ bs)) k.
Proof.
  intros H local nt Hcap. pose proof (sr_nonneg _ _ _ _ _ _ _ _ _ H) as (Hnew & Hlook & Hext & Hloc).
  pose proof (sr_max _ _ _ _ _ _ _ _ _ H) as Hmax. destruct (sr_hits _ _ _ _ _ _ _ _ _ H) as [Hcs Hlen].
  pose proof (sr_inv _ _ _ _ _ _ _ _ _ H) as Hs.
  rewrite (num_free_len _ a) in Hcap by apply Hs.
  assert (wp (if records_prefix k ncb ext
       then on_coordinator (coord_allocate_new_computed_blocks (request_id r) (hit_refs css) local ext) else ret tt)
    (λ _ k1, ∃ a1, kv_inv k1 a1 ∧ pool_config (pool_of k1) = pool_config (pool_of k) ∧
      k1 = set_coordinator (coordinator k1) k ∧ length (managers_of k1) = length (managers_of k) ∧
      (∀ j m m', managers_of k !! j = Some m → managers_of k1 !! j = Some m' → manager_config m' = manager_config m) ∧
      total_needed (managers_of k1) (request_id r) nt ≤ len (a_free a1)) k) as Hfirst.
  { destruct (records_prefix k ncb ext) eqn:Erec.
    - apply wp_zoom. eapply wp_mono; [apply (coord_computed_inv (coordinator k) a css (request_id r) local ext nt Hs Hlen); auto|].
      + unfold nt, need_slot. lia.
      + apply H.
      + intros j m c Hm Hc. destruct (sr_group _ _ _ _ _ _ _ _ _ H j m c Hm Hc) as [?|[?|[? _]]]; [by left|by right|congruence].
      + intros _ c' (ms1 & p1 & a1 & -> & G1 & G2 & G3 & G4 & G5). exists a1. split_and!; done.
    - wp_step. exists a. split_and!; auto; [by destruct k|congruence|].
      unfold records_prefix in Erec. apply orb_false_iff in Erec as [Esh Eext].
      assert (ext = 0) as -> by lia. rewrite Z.add_0_r in Hcap. etrans; [|exact Hcap].
      apply (needed_le_total _ _ _ a); auto; [apply Hs|]. intros j m c Hm Hc. split.
      + destruct (default (empty_kv_cache_blocks k) ncb) as [n|]; [|done]. cbn in Hcs.
        assert (hit_refs css !! j = Some (Blk <$> c)) as Hj by (unfold hit_refs; by rewrite list_lookup_fmap, Hc).
        rewrite <-Hcs in Hj. apply lookup_replicate in Hj as [Hj _]. by destruct c.
      + destruct (sr_group _ _ _ _ _ _ _ _ _ H j m c Hm Hc) as [?|[?|[_ ?]]]; auto. }
  wp_step. eapply wp_mono; [exact Hfirst|]. intros _ k1 (a1 & H1 & H2 & H3 & H4 & H5 & H6).
  apply wp_zoom. eapply wp_mono; [by apply (coord_allocate_inv (coordinator k1) a1)|].
  intros bss c' (ms' & p' & a' & -> & H7 & H8 & H9 & H10 & H11 & H12 & H13). exists a'. cbn. split_and!; auto.
  - by rewrite H8.
  - by rewrite H3.
  - congruence.
  - intros j m m' Hm Hm'. destruct (lookup_lt_is_Some_2 (managers_of k1) j) as [m1 Hm1]; [rewrite H4; by eapply lookup_lt_Some|].
    rewrite (H10 j m1 m' Hm1 Hm'). by apply (H5 j).
  - intros j m' bs Hm' Hbs. destruct (lookup_lt_is_Some_2 (managers_of k1) j) as [m1 Hm1]; [rewrite <-H9; by eapply lookup_lt_Some|].
    eexists. by apply (H13 j m1).
Qed.

Lemma allocate_slots_wp sha256 k a r new comp look ext delay enc ncb css :
  slots_ready k a r new comp look ext ncb css → cache_ready k r new comp ext →
  wp (allocate_slots sha256 r new comp ncb look ext delay enc) (λ out k', ∃ a',
    kv_inv k' a' ∧ pool_config (pool_of k') = pool_config (pool_of k) ∧
    (∃ e, out.2 = set_prompt_embeds_per_block_hashes e r) ∧
    slots_post k k' r new comp look ext css out.1) k.
Proof.
  intros H Hcr. pose proof (sr_nonneg _ _ _ _ _ _ _ _ _ H) as (Hnew & Hlook & Hext & Hloc).
  pose proof (sr_max _ _ _ _ _ _ _ _ _ H) as Hmax. destruct (sr_hits _ _ _ _ _ _ _ _ _ H) as [Hcs Hlen].
  assert (∃ e, r = set_prompt_embeds_per_block_hashes e r) as Hself by (exists (prompt_embeds_per_block_hashes r); by destruct r).
  unfold allocate_slots. destruct ((new =? 0) && (ext =? 0)) eqn:E0.
  { apply andb_true_iff in E0 as [->%Z.eqb_eq ->%Z.eqb_eq]. by destruct (sr_some _ _ _ _ _ _ _ _ _ H). }
  wp_step. wp_step. change (id k) with k. rewrite Hcs, Z.min_l by lia. fold (need_slot k r new comp look ext).
  set (nt := need_slot k r new comp look ext).
  destruct (proj1 (wp_run _ _ _) (slots_count k a r new comp look ext ncb css H)) as ([] & k1 & Hrel & a1 & H1 & Hp1 & Hk1 & Hl1 & Hm1).
  eapply wp_bind_ok; [exact Hrel|].
  assert (need_slot k1 r new comp look ext = nt) as Ent by by rewrite Hk1.
  eapply wp_bind_ok.
  { unfold on_coordinator, zoom. rewrite coord_num_run; [done|apply (sr_inv _ _ _ _ _ _ _ _ _ H1)|congruence|].
    intros j m c Hm Hc [x Hx]. destruct (sr_group _ _ _ _ _ _ _ _ _ H1 j m c Hm Hc) as [[_ ?]|[[? _]|[_ [? _]]]]; congruence. }
  replace (set_coordinator (coordinator k1) k1) with k1 by by destruct k1. wp_step. wp_step. change (id k1) with k1. fold (pool_of k1).
  destruct (Z.ltb_spec (get_num_free_blocks (pool_of k1))
    (total_to_allocate (managers_of k1) css (pool_of k1) (request_id r) nt (num_computed_tokens r + comp + ext))) as [Hlt|Hge].
  { wp_step. exists a1. split_and!; auto; [apply H1|]. exists k1. split_and!; try done. intros j m m' rid Hj Hj'. by apply (Hm1 j). }
  assert (∀ k' b, (covers (managers_of k') (request_id r) nt ∧ (∀ j m' bs, managers_of k' !! j = Some m' → blocks_field b !! j = Some bs →
    ∃ old, blocks_of m' (request_id r) = old ++ bs)) → slots_post k k' r new comp look ext css (Some b)) as Hpost.
  { intros k' b Hb. exists k1. split; [done|]. split; [intros j m m' rid Hj Hj'; by apply (Hm1 j)|]. split; [|done]. split; [done|]. fold nt. lia. }
  apply wp_bind_assoc.
  replace (negb _ || _) with (records_prefix k1 ncb ext) by (by rewrite Hk1).
  eapply wp_mono; [rewrite <-Ent; apply (slots_allocate k1 a1 r new comp look ext ncb css _ _ H1); by rewrite Ent|].
  intros bss k2 (a2 & H2 & Hp2 & Hk2 & Hl2 & Hm2 & Hcov & Hsuf). rewrite Ent in Hcov.
  assert (∀ k3 bss', create_kv_cache_blocks k3 bss = bss' → ∀ j m' bs, managers_of k2 !! j = Some m' → blocks_field bss' !! j = Some bs →
    ∃ old, blocks_of m' (request_id r) = old ++ bs) as Hsuf'.
  { intros k3 bss' <- j m' bs Hj [Hb| ->]%create_blocks_suffix; [by eapply Hsuf|]. eexists. by rewrite app_nil_r. }
  destruct (negb (km_enable_caching k1) || delay) eqn:Ec.
  { wp_step. exists a2. split_and!; auto; [by rewrite Hp2|]. apply Hpost. split; [done|]. by eapply Hsuf'. }
  apply orb_false_iff in Ec as [Ec%negb_false_iff _].
  destruct Hcr as (C1 & C2 & C3 & C4 & C5); [by rewrite Hk1 in Ec|].
  assert (pool_config (pool_of k2) = pool_config (pool_of k)) as Hp by by rewrite Hp2.
  pose proof (pool_config_hbs _ _ Hp) as Ehb. unfold pool_of in Ehb.
  wp_step. apply wp_zoom. eapply wp_mono; [apply (coord_cache_inv sha256 (coordinator k2) a2); auto|].
  - etrans; [exact (pool_config_caching _ _ Hp)|exact C1].
  - by rewrite Ehb.
  - rewrite Ehb. apply Forall_lookup. intros j m2 Hj.
    destruct (lookup_lt_is_Some_2 (managers_of k) j) as [m Hm]; [rewrite <-Hl1, <-Hl2; by eapply lookup_lt_Some|].
    destruct (lookup_lt_is_Some_2 (managers_of k1) j) as [m1 Hj1]; [rewrite <-Hl2; by eapply lookup_lt_Some|].
    assert (m_block_size m2 = m_block_size m) as ->.
    { pose proof (Hm2 j m1 m2 Hj1 Hj) as E1. pose proof (proj1 (Hm1 j m m1 Hm Hj1)) as E2. rewrite E2 in E1. by injection E1. }
    apply (Forall_lookup_1 _ _ _ _ C3 Hm).
  - pose proof (len_nonneg (all_token_ids r)). unfold num_tokens. lia.
  - rewrite Ehb. etrans; [|exact C4]. apply Z.div_le_mono; [exact C2|lia].
  - eapply Forall_impl; [exact Hcov|]. intros m Hm. cbn beta in Hm. unfold nt, need_slot in Hm. lia.
  - intros r' c' (ms' & p' & a' & -> & G1 & G2 & G3 & G4 & G5 & G6). wp_step. exists a'. cbn [fst snd]. split_and!; auto.
    { cbn. by rewrite G2. }
    apply Hpost. split.
    + cbn. apply Forall_lookup. intros j m3 Hj3. destruct (lookup_lt_is_Some_2 (managers_of k2) j) as [m2 Hj2]; [rewrite <-G3; by eapply lookup_lt_Some|].
      destruct (G4 j m2 m3 Hj2 Hj3) as [E Hb]. rewrite Hb. assert (m_block_size m3 = m_block_size m2) as -> by by injection E.
      apply (Forall_lookup_1 _ _ _ _ Hcov Hj2).
    + cbn. intros j m3 bs Hj3 Hbs. destruct (lookup_lt_is_Some_2 (managers_of k2) j) as [m2 Hj2]; [rewrite <-G3; by eapply lookup_lt_Some|].
      destruct (G4 j m2 m3 Hj2 Hj3) as [_ Hb]. rewrite Hb. by eapply Hsuf'.
Qed.


(** ** Construction *)

(** The specs served by the attention managers. *)
Definition attention_spec (s : KVCacheSpec) : Prop :=
  0 < block_size s ∧
  match s with
  | FullAttentionSpec _ _ _ | TQFullAttentionSpec _ _ _ _ | MLAAttentionSpec _ _ _ _ => True
  | SlidingWindowSpec _ _ w => 0 < w
  | ChunkedLocalAttentionSpec _ _ c => 0 < c
  | _ => False
  end.

Lemma new_manager_run s caching g dcp pcp p :
  attention_spec s → null_block p = Blk 0 → 0 ≤ g < 2 ^ 32 →
  ∃ m, new_manager s caching g dcp pcp p = (Ok m, p) ∧ manager_wf m ∧ req_to_blocks m = ∅ ∧ num_cached_block m = ∅.
Proof.
  intros [Hbs Hs] Hnull Hg. unfold new_manager.
  destruct s; cbn in Hs; try done; cbn [spec_manager_map]; eexists; (split; [reflexivity|]); unfold id;
    (split; [|done]); split_and!; cbn in *; auto; try lia; try (destruct (Z.ltb_spec 1 (dcp * pcp)); nia).
Qed.

Lemma new_managers_run specs : ∀ i caching dcp pcp p,
  Forall attention_spec specs → null_block p = Blk 0 → 0 ≤ i → i + len specs ≤ 2 ^ 32 →
  ∃ ms, new_managers i specs caching dcp pcp p = (Ok ms, p) ∧ length ms = length specs ∧
    Forall (λ m, manager_wf m ∧ req_to_blocks m = ∅ ∧ num_cached_block m = ∅) ms.
Proof.
  induction specs as [|s specs IH]; intros i caching dcp pcp p Hs Hnull Hi Hle; cbn.
  { exists []. split_and!; done. }
  apply Forall_cons in Hs as [H1 H2]. rewrite len_cons in Hle. pose proof (len_nonneg specs).
  destruct (new_manager_run s caching i dcp pcp p H1 Hnull) as (m & Hm & ?); [lia|].
  destruct (IH (i + 1) caching dcp pcp p H2 Hnull) as (ms & Hms & Hl & Hall); [lia|lia|].
  erewrite bind_ok by exact Hm. erewrite bind_ok by exact Hms. exists (m :: ms). split_and!; [done|cbn; lia|by apply Forall_cons].
Qed.

(** Managers without requests hold nothing. *)
Lemma sys_inv_fresh n ms p :
  pool_inv p (fresh_apool n) → Forall (λ m, manager_wf m ∧ req_to_blocks m = ∅ ∧ num_cached_block m = ∅) ms →
  sys_inv ms p (fresh_apool n).
Proof.
  intros Hp Hms. assert (∀ m, m ∈ ms → req_to_blocks m = ∅ ∧ num_cached_block m = ∅) as Hempty.
  { intros m Hm. apply (proj1 (Forall_forall _ _) Hms m) in Hm. tauto. }
  split; auto.
  - eapply Forall_impl; [exact Hms|]. by intros m [? _].
  - intros m rid bs [-> _]%Hempty Hbs. by rewrite lookup_empty in Hbs.
  - intros i _. cbn. clear Hp Hempty. induction Hms as [|m ms (_ & E & _) _ IH]; [done|]. cbn. unfold held_all in *.
    rewrite E, <-IH. done.
  - intros m rid i [E _]%Hempty (bs & Hbs & _)%fresh_of_in. by rewrite E, lookup_empty in Hbs.
  - intros m rid c [_ ->]%Hempty Hc. by rewrite lookup_empty in Hc.
Qed.

Lemma coordinator_init n specs use_eagle caching ev dcp pcp hbs mc ui env c :
  get_kv_cache_coordinator (Z.of_nat n) specs use_eagle caching ev dcp pcp hbs mc ui env = Ok c →
  (0 < n)%nat → Forall attention_spec specs → len specs ≤ 2 ^ 32 →
  sys_inv (managers c) (c_block_pool c) (fresh_apool n) ∧ length (managers c) = length specs ∧
    enable_caching (c_block_pool c) = caching ∧ hash_block_size (c_block_pool c) = hbs.
Proof.
  intros Hrun Hn Hs Hl. unfold get_kv_cache_coordinator in Hrun.
  destruct (pool_init_rep n caching hbs ev mc ui env Hn) as (p & Hp & Hinv & Hsz & Hc & Hh). rewrite Hp in Hrun.
  destruct (new_managers_run specs 0 caching dcp pcp p Hs (pr_null _ _ (proj1 Hinv))) as (ms & Hms & Hlen & Hall); [lia|lia|].
  rewrite Hms in Hrun. pose proof (sys_inv_fresh n ms p Hinv Hall) as Hsys.
  assert (managers c = ms ∧ c_block_pool c = p) as [-> ->]; [|done].
  destruct caching; cbn [negb] in Hrun.
  - repeat case_match; simplify_eq; done.
  - by injection Hrun as <-.
Qed.

Lemma layer_specs_length gs : ∀ specs, layer_specs gs = Ok specs → length specs = length gs.
Proof.
  induction gs as [|g gs IH]; intros specs Hs; cbn in Hs; [by injection Hs as <-|].
  destruct (kv_cache_spec g), (layer_specs gs) as [ss|]; try done. injection Hs as <-. cbn. by rewrite (IH ss).
Qed.

(** A manager that [KVCacheManager.__init__] builds for attention groups
    satisfies the system invariant: all blocks but the null block are free,
    nothing is cached and no request holds anything. *)
Theorem kv_init_inv n tensors groups specs mml hbs caching use_eagle log ev dcp pcp mc ui env k :
  kv_manager_init (MkKVCacheConfig (Z.of_nat n) tensors groups) mml hbs caching use_eagle log ev dcp pcp mc ui env = Ok k →
  layer_specs groups = Ok specs → (0 < n)%nat → Forall attention_spec specs → len specs ≤ 2 ^ 32 →
  kv_inv k (fresh_apool n) ∧ length (managers_of k) = length groups ∧
  km_enable_caching k = enable_caching (pool_of k) ∧ hash_block_size (pool_of k) = hbs.
Proof.
  intros Hk Hls Hn Hs Hl. unfold kv_manager_init in Hk. cbn [kv_cache_groups num_blocks] in Hk. rewrite Hls in Hk.
  destruct (get_kv_cache_coordinator _ _ _ _ _ _ _ _ _ _ _) as [c|] eqn:Ec; [|done]. injection Hk as <-.
  destruct (coordinator_init n specs _ _ _ _ _ _ _ _ _ _ Ec Hn Hs Hl) as (H1 & H2 & H3 & H4).
  split_and!; try done. cbn. by rewrite H2, (layer_specs_length _ _ Hls).
Qed.

(** ** Release and reset *)

Lemma held_zero m i : (∀ rid, Blk i ∉ blocks_of m rid) → held m i = 0.
Proof.
  unfold blocks_of. generalize (req_to_blocks m). intros mp. induction mp as [|rid bs mp Hm IH] using map_ind; intros Hn; [done|].
  rewrite held_insert by done. rewrite IH.
  - pose proof (Hn rid) as Hr. rewrite lookup_insert_eq in Hr. cbn in Hr. rewrite Z.add_0_r. unfold rocc, len.
    destruct (filter (λ r, r = Blk i) bs) as [|x l] eqn:E; [done|]. exfalso. apply Hr.
    assert (x ∈ filter (λ r, r = Blk i) bs) as Hx by (rewrite E; apply elem_of_cons; by left).
    by apply list_elem_of_filter in Hx as [-> Hx].
  - intros rid'. pose proof (Hn rid') as Hr. destruct (decide (rid = rid')) as [<-|Hne]; [by rewrite Hm; apply not_elem_of_nil|].
    by rewrite lookup_insert_ne in Hr.
Qed.

Lemma held_all_zero ms i : (∀ m rid, m ∈ ms → Blk i ∉ blocks_of m rid) → held_all ms i = 0.
Proof.
  induction ms as [|m ms IH]; intros Hn; [done|]. cbn. rewrite held_zero by (intros rid; apply Hn, elem_of_cons; by left).
  apply IH. intros m' rid Hm'. apply Hn, elem_of_cons. by right.
Qed.

Lemma kv_free_wp k a r :
  kv_inv k a →
  wp (kv_free r) (λ _ k', ∃ a', kv_inv k' a' ∧ pool_config (pool_of k') = pool_config (pool_of k) ∧
    a_hash a' = a_hash a ∧
    (∀ j m m', managers_of k !! j = Some m → managers_of k' !! j = Some m' →
       blocks_of m' (request_id r) = [] ∧ num_cached_block m' !! request_id r = None ∧
       ∀ rid, rid ≠ request_id r → blocks_of m' rid = blocks_of m rid) ∧
    (∀ i, (i < pool_size (pool_of k))%nat → i ≠ 0%nat →
       (∀ m rid, m ∈ managers_of k → rid ≠ request_id r → Blk i ∉ blocks_of m rid) → i ∈ a_free a')) k.
Proof.
  intros Hs. apply wp_zoom. eapply wp_mono; [by apply (coord_free_inv (coordinator k) a)|].
  intros _ c' (ms' & p' & a' & -> & H1 & H2 & H3 & H4 & H5 & H6). exists a'. cbn. split_and!; auto.
  - intros j m m' Hm Hm'. destruct (H4 j m m' Hm Hm') as (_ & Hb & Hc). unfold blocks_of. rewrite Hb, Hc, !lookup_delete_eq.
    split_and!; auto. intros rid Hne. by rewrite lookup_delete_ne.
  - intros i Hi Hi0 Hn. apply (proj2 (si_pool _ _ _ H1)). rewrite (config_size _ _ H2). split_and!; auto.
    rewrite (si_ref _ _ _ H1 i Hi0). apply held_all_zero. intros m' rid Hm'. apply list_elem_of_lookup in Hm' as [j Hj].
    destruct (lookup_lt_is_Some_2 (managers_of k) j) as [m Hm]; [rewrite <-H3; by eapply lookup_lt_Some|].
    destruct (H4 j m m' Hm Hj) as (_ & Hb & _). unfold blocks_of. rewrite Hb. destruct (decide (rid = request_id r)) as [->|Hne].
    + rewrite lookup_delete_eq. apply not_elem_of_nil.
    + rewrite lookup_delete_ne by done. apply (Hn m rid); [by eapply list_elem_of_lookup_2|done].
Qed.

(** [free] gives back everything a request holds: it never raises and
    keeps the system invariant, afterwards no group knows the request, every
    block nobody else holds is free again, every other request keeps its
    blocks, and the cached contents stay available for reuse. *)
Theorem kv_free_releases k a r :
  kv_inv k a →
  wp (kv_free r) (λ _ k', ∃ a', kv_inv k' a' ∧ pool_config (pool_of k') = pool_config (pool_of k) ∧
    a_hash a' = a_hash a ∧
    (∀ j m m', managers_of k !! j = Some m → managers_of k' !! j = Some m' →
       blocks_of m' (request_id r) = [] ∧ num_cached_block m' !! request_id r = None ∧
       ∀ rid, rid ≠ request_id r → blocks_of m' rid = blocks_of m rid) ∧
    (∀ i, (i < pool_size (pool_of k))%nat → i ≠ 0%nat →
       (∀ m rid, m ∈ managers_of k → rid ≠ request_id r → Blk i ∉ blocks_of m rid) → i ∈ a_free a')) k.
Proof. apply kv_free_wp. Qed.

(** The invariant only mentions hashes of fresh blocks. *)
Lemma sys_inv_unhash ms p a p' f :
  sys_inv ms p a → pool_rep p' (MkAPool (a_free a) (a_ref a) f) → pool_config p' = pool_config p →
  (∀ i, f i = None ∨ f i = a_hash a i) → sys_inv ms p' (MkAPool (a_free a) (a_ref a) f).
Proof.
  intros H Hr Hcfg Hf. pose proof (config_size _ _ Hcfg) as Hsz. pose proof (proj2 (si_pool _ _ _ H)) as Hok.
  split; cbn; try apply H.
  - split; [done|]. rewrite Hsz. split; cbn; try apply Hok. destruct (Hf 0%nat) as [->| ->]; [done|apply Hok].
  - rewrite (pool_config_caching _ _ Hcfg). intros E i. destruct (Hf i) as [->| ->]; [done|by apply (si_off _ _ _ H)].
  - rewrite Hsz. apply H.
  - intros m rid i Hm Hi. destruct (si_fresh _ _ _ H m rid i Hm Hi) as [H1 H2]. split; [|done]. by destruct (Hf i) as [->| ->].
Qed.

(** All blocks but the null block are free exactly when nothing is held. *)
Lemma idle_iff ms p a :
  sys_inv ms p a →
  Z.of_nat (pool_size p) - len (a_free a) = 1 ↔ ∀ i m rid, m ∈ ms → i ≠ 0%nat → Blk i ∉ blocks_of m rid.
Proof.
  intros Hs. pose proof (si_pool _ _ _ Hs) as [Hr Hok]. pose proof (free_used_perm _ _ Hok) as Hperm. apply Permutation_length in Hperm.
  rewrite length_app, length_seq in Hperm. pose proof (pool_inv_size _ _ (si_pool _ _ _ Hs)). unfold len. split.
  - intros Hlen i m rid Hm Hi0 Hin.
    assert (used_blocks (pool_size p) a = []) as Hu by (apply length_zero_iff_nil; lia).
    apply (filter_nil_not_elem_of _ _ i Hu).
    + rewrite (si_ref _ _ _ Hs i Hi0). unfold blocks_of in Hin. destruct (req_to_blocks m !! rid) as [bs|] eqn:E; [|by apply elem_of_nil in Hin].
      pose proof (held_all_in _ _ _ _ _ Hm E Hin). lia.
    + unfold blocks_of in Hin. destruct (req_to_blocks m !! rid) as [bs|] eqn:E; [|by apply elem_of_nil in Hin].
      destruct (si_blocks _ _ _ Hs m rid bs Hm E) as (ids & -> & Hlt & _). apply list_elem_of_fmap in Hin as (j & [= ->] & Hj).
      apply (proj1 (Forall_forall _ _) Hlt) in Hj. apply elem_of_seq. lia.
  - intros Hn. assert (used_blocks (pool_size p) a = []) as Hu; [|rewrite Hu in Hperm; cbn in Hperm; lia].
    apply elem_of_nil_inv. intros i [Hi Hi']%list_elem_of_filter. apply elem_of_seq in Hi'.
    rewrite (si_ref _ _ _ Hs i), held_all_zero in Hi by first [lia|intros m rid Hm; apply Hn; [done|lia]]. lia.
Qed.

(** The manager after a reset: only the pool and the statistics differ. *)
Definition reset_of (k k' : KVCacheManager) : Prop := ∃ p' st,
  k' = set_stats st (set_coordinator (set_managers (managers_of k) p' (coordinator k)) k) ∧
  pool_config p' = pool_config (pool_of k) ∧ (km_log_stats k = true → is_Some st).

Lemma kv_reset_wp k a :
  kv_inv k a → (km_log_stats k = true → is_Some (prefix_cache_stats k)) →
  wp kv_reset_prefix_cache (λ b k', ∃ a', kv_inv k' a' ∧
    (b = true ↔ ∀ i m rid, m ∈ managers_of k → i ≠ 0%nat → Blk i ∉ blocks_of m rid) ∧
    (if (b : bool) then (∀ i, a_hash a' i = None) ∧ (km_log_stats k = true → st_reset <$> prefix_cache_stats k' = Some true)
     else a' = a ∧ prefix_cache_stats k' = prefix_cache_stats k) ∧
    a_free a' = a_free a ∧ reset_of k k') k.
Proof.
  intros Hs Hstat. pose proof (si_pool _ _ _ Hs) as [Hr Hok]. unfold kv_reset_prefix_cache. wp_step. apply wp_zoom, wp_zoom.
  eapply wp_mono; [by apply (reset_rep (pool_of k) a)|]. intros b p' (-> & Hr' & Hcfg). fold (pool_of k).
  pose proof (idle_iff _ _ _ Hs) as Hiff. fold (pool_of k) in *.
  unfold a_reset in *. destruct (decide _) as [E|E]; cbn [fst snd negb] in *.
  - pose proof (sys_inv_unhash _ _ _ _ _ Hs Hr' Hcfg (λ _, or_introl eq_refl)) as Hs'. wp_step. wp_step. unfold id. cbn [km_log_stats set_coordinator].
    destruct (km_log_stats k) eqn:El; wp_step.
    + cbn [prefix_cache_stats set_coordinator]. destruct (Hstat eq_refl) as [s ->]. wp_step. wp_step. exists (MkAPool (a_free a) (a_ref a) (λ _, None)).
      split_and!; try done; [tauto..|]. by exists p', (Some (stats_set_reset s)).
    + wp_step. wp_step. exists (MkAPool (a_free a) (a_ref a) (λ _, None)). split_and!; try done; [tauto..|].
      exists p', (prefix_cache_stats k). split_and!; try done. congruence.
  - wp_step. exists a. split_and!; try done; [|by split; [|intros Hn%Hiff]|by exists p', (prefix_cache_stats k)].
    eapply (sys_inv_unhash _ _ _ p' (a_hash a)) in Hs; [|by destruct a|done|by right]. by destruct a.
Qed.

(** [reset_prefix_cache] succeeds exactly when no request holds a block;
    then the cache is empty, so no later lookup can hit, and the statistics of
    the step are marked as reset.  Otherwise nothing changes. *)
Theorem kv_reset_when_idle k a :
  kv_inv k a → (km_log_stats k = true → is_Some (prefix_cache_stats k)) →
  wp kv_reset_prefix_cache (λ b k', ∃ a', kv_inv k' a' ∧
    (b = true ↔ ∀ i m rid, m ∈ managers_of k → i ≠ 0%nat → Blk i ∉ blocks_of m rid) ∧
    (if (b : bool) then (∀ i, a_hash a' i = None) ∧ (km_log_stats k = true → st_reset <$> prefix_cache_stats k' = Some true)
     else a' = a ∧ prefix_cache_stats k' = prefix_cache_stats k) ∧
    a_free a' = a_free a ∧ managers_of k' = managers_of k) k.
Proof.
  intros Hs Hstat. eapply wp_mono; [by apply (kv_reset_wp k a)|]. intros b k' (a' & H1 & H2 & H3 & H4 & p' & st & -> & _).
  exists a'. by split_and!.
Qed.

(** ** From lookup to allocation *)

(** A prefix-caching manager with one full-attention group. *)
Definition unitary_full (k : KVCacheManager) (m : Manager) : Prop :=
  ∃ spec, c_kind (coordinator k) = Unitary spec (block_size spec) 1 1 ∧ is_full_attention spec = true ∧
    0 < block_size spec ∧ managers_of k = [m] ∧ m_class m = FullAttentionManager ∧ m_block_size m = block_size spec ∧
    m_enable_caching m = true ∧ km_enable_caching k = true ∧ num_kv_cache_groups k = 1%nat.

Lemma group_key_inj h h' g : 0 ≤ g < 2 ^ 32 → group_key h g = group_key h' g → h = h'.
Proof.
  intros Hg Heq. pose proof (make_key_ok h g Hg) as H1. pose proof (make_key_ok h' g Hg) as H2. rewrite <-Heq in H2.
  apply make_key_inv in H1 as (_ & H1 & _). apply make_key_inv in H2 as (_ & H2 & _). congruence.
Qed.

(** Blocks cached under distinct hashes are distinct. *)
Lemma good_blocks p a hs c :
  pool_inv p a → NoDup hs → (∀ k r, c !! k = Some r → good_at p a hs 0 k r) →
  ∃ ids, c = Blk <$> ids ∧ Forall (λ i, (i < pool_size p)%nat ∧ (i ≠ 0%nat → a_hash a i ≠ None)) ids ∧ NoDup (nonnull ids).
Proof.
  intros Hinv Hnd Hc.
  assert (∃ ids, c = Blk <$> ids) as [ids ->].
  { clear Hnd. revert Hc. generalize hs. induction c as [|r c IH]; intros hs' Hc; [by exists []|].
    destruct (Hc 0%nat r eq_refl) as (h & i & _ & -> & _). destruct (IH (tail hs')) as [ids ->].
    - intros k r' Hk. destruct (Hc (S k) r' Hk) as (h' & i' & Hh' & ?). exists h', i'. split; [|done]. by destruct hs'.
    - by exists (i :: ids). }
  assert (∀ k i, ids !! k = Some i → ∃ h, hs !! k = Some h ∧ (i < pool_size p)%nat ∧ a_hash a i = Some (group_key h 0)) as Hids.
  { intros k i Hk. destruct (Hc k (Blk i)) as (h & j & Hh & [= <-] & ? & ?); [by rewrite list_lookup_fmap, Hk|]. by exists h. }
  exists ids. split_and!; [done| |].
  - apply Forall_lookup. intros k i Hk. destruct (Hids k i Hk) as (h & _ & ? & Hh). split; [done|]. congruence.
  - apply NoDup_filter, NoDup_alt. intros k1 k2 i H1 H2. destruct (Hids _ _ H1) as (h1 & E1 & _ & G1).
    destruct (Hids _ _ H2) as (h2 & E2 & _ & G2). rewrite G1 in G2. injection G2 as G2. apply group_key_inj in G2; [|lia]. subst h2.
    by eapply NoDup_lookup.
Qed.

Lemma computed_blocks_wp k a m r new look ext :
  kv_inv k a → unitary_full k m → skip_reading_prefix_cache r = false → NoDup (RequestModel.block_hashes r) →
  (km_log_stats k = true → is_Some (prefix_cache_stats k)) →
  0 < num_tokens r → num_computed_tokens r = 0 → num_cached_block m !! request_id r = None → blocks_of m (request_id r) = [] →
  0 ≤ new → 0 ≤ look → 0 ≤ ext → new ≠ 0 ∨ ext ≠ 0 → num_tokens r + ext ≤ km_max_model_len k →
  wp (get_computed_blocks r) (λ bn k', 0 ≤ bn.2 < num_tokens r ∧
    (∃ st, k' = set_stats st k ∧ (km_log_stats k = true → is_Some st)) ∧
    ∃ css, slots_ready k' a r new bn.2 look ext (Some bn.1) css) k.
Proof.
  intros Hs (spec & Hkind & Hfull & Hbs & Hms & Hcls & Hmbs & Hmc & Hkc & Hng) Hskip Hnd Hstat Hnt Hnc Hnone Hempty Hnew Hlook Hext Hsome Hmax.
  unfold get_computed_blocks. wp_step. wp_step. change (id k) with k. rewrite Hkc, Hskip. cbn [negb orb].
  pose proof (si_pool _ _ _ Hs) as Hp.
  destruct (full_find_spec (pool_of k) a [0] (RequestModel.block_hashes r) Hp) with (l := PlainHashes (RequestModel.block_hashes r))
    (max_length := num_tokens r - 1) (spec := spec) (use_eagle := c_use_eagle (coordinator k)) (al := block_size spec) (dcp := 1) (pcp := 1)
    as (L & cs & Hrun & Hshape & HL & _); try done; try lia.
  { split; [done|]. apply Forall_singleton. lia. } { apply bhl_is_plain. }
  apply Forall2_cons_inv_l in Hshape as (c & cs' & [Hcl Hgood] & Hnil%Forall2_nil_inv_l & ->). subst cs'.
  destruct (good_blocks _ _ _ _ Hp Hnd Hgood) as (ids & -> & Hlt & Hndi). rewrite length_fmap in Hcl.
  assert (coord_find_longest_cache_hit (RequestModel.block_hashes r) (num_tokens r - 1) (coordinator k) =
    (Ok ([Blk <$> ids], len (Blk <$> ids) * block_size spec), coordinator k)) as Hfind.
  { unfold coord_find_longest_cache_hit. erewrite bind_ok by reflexivity. change (id (coordinator k)) with (coordinator k).
    rewrite Hkind. unfold unitary_find. erewrite bind_ok by reflexivity. change (id (coordinator k)) with (coordinator k).
    rewrite Hms. erewrite bind_ok.
    2:{ unfold on_block_pool, zoom. rewrite Hcls. cbn [find_longest_cache_hit].
        change (c_block_pool (coordinator k)) with (pool_of k). by rewrite Hrun. }
    unfold ret. f_equal. unfold pool_of. by destruct (coordinator k). }
  eapply wp_bind_ok.
  { unfold on_coordinator, zoom. rewrite Hfind. replace (set_coordinator (coordinator k) k) with k by by destruct k. done. }
  set (n := len (Blk <$> ids) * block_size spec).
  assert (n = Z.of_nat L * block_size spec) as En by (unfold n, len; by rewrite length_fmap, Hcl).
  assert (∀ k', coordinator k' = coordinator k → km_max_model_len k' = km_max_model_len k → num_kv_cache_groups k' = num_kv_cache_groups k →
    slots_ready k' a r new n look ext (Some (create_kv_cache_blocks k [Blk <$> ids])) [ids]) as Hready.
  { intros k' Hk' Hmx Hng'. split; try done; unfold kv_inv, pool_of; rewrite ?Hk', ?Hmx; try done.
    - lia.
    - split; [|by rewrite Hms]. cbn [default from_option id]. unfold create_kv_cache_blocks, empty_kv_cache_blocks. rewrite Hng.
      by destruct ids.
    - lia.
    - right. rewrite Hms. cbn. lia.
    - intros j m' c' Hj Hc'. rewrite Hms in Hj. apply list_lookup_singleton_Some in Hj as [-> <-]. injection Hc' as <-.
      right; left. split_and!; try done. split_and!; try done; [|by left]. rewrite Hmbs. unfold n. rewrite len_fmap, Hnc. lia. }
  cbv beta iota. wp_step. destruct (km_log_stats k) eqn:Elog.
  - destruct (Hstat eq_refl) as [s Hst]. rewrite Hst. wp_step. wp_step. cbn [fst snd]. split; [nia|]. split; [by eexists|].
    exists [ids]. by apply Hready.
  - wp_step. wp_step. cbn [fst snd]. split; [nia|]. split; [exists (prefix_cache_stats k); by destruct k|]. exists [ids]. by apply Hready.
Qed.

(** The result of [get_computed_blocks] is what [allocate_slots] expects:
    for a new request of a manager with one full-attention group and distinct
    block hashes, the lookup returns without changing the cache, leaves at
    least one token to compute, and its blocks and length meet the contract of
    [allocate_slots] for that request. *)
Theorem computed_blocks_ready k a m r new look ext :
  kv_inv k a → unitary_full k m → skip_reading_prefix_cache r = false → NoDup (RequestModel.block_hashes r) →
  (km_log_stats k = true → is_Some (prefix_cache_stats k)) →
  0 < num_tokens r → num_computed_tokens r = 0 → num_cached_block m !! request_id r = None → blocks_of m (request_id r) = [] →
  0 ≤ new → 0 ≤ look → 0 ≤ ext → new ≠ 0 ∨ ext ≠ 0 → num_tokens r + ext ≤ km_max_model_len k →
  wp (get_computed_blocks r) (λ bn k', 0 ≤ bn.2 < num_tokens r ∧ coordinator k' = coordinator k ∧
    ∃ css, slots_ready k' a r new bn.2 look ext (Some bn.1) css) k.
Proof.
  intros. eapply wp_mono; [apply (computed_blocks_wp k a m r new look ext); assumption|].
  intros bn k' (Hn & (st & -> & _) & Hr). split; [exact Hn|]. split; [reflexivity|exact Hr].
Qed.

(** ** A concrete manager *)

Definition toy_spec : KVCacheSpec := FullAttentionSpec 2 toy_attention (MkFull 128 None None).
Definition toy_groups : list KVCacheGroupSpec := [MkGroup ["layer0"%string] (LayerSpec toy_spec)].
Definition idle_kv : KVCacheManager :=
  MkKVCacheManager 0 false false None (MkCoordinator NoPrefixCache (empty_pool 1 false 1) [] false false) 0.
Definition toy_kv : KVCacheManager :=
  match kv_manager_init (MkKVCacheConfig 8 [] toy_groups) 64 2 true false true true 1 1 None false no_metrics with
  | Ok k => k
  | Raise _ => idle_kv
  end.

Lemma kv_init_inv_witness : kv_inv toy_kv (fresh_apool 8) ∧ length (managers_of toy_kv) = 1%nat.
Proof.
  destruct (kv_init_inv 8 [] toy_groups [toy_spec] 64 2 true false true true 1 1 None false no_metrics toy_kv) as (H1 & H2 & _).
  - vm_compute. reflexivity.
  - reflexivity.
  - lia.
  - apply Forall_singleton. split; [cbn; lia|exact I].
  - vm_compute. discriminate.
  - exact (conj H1 H2).
Defined.

Lemma toy_kv_inv : kv_inv toy_kv (fresh_apool 8).
Proof.
  apply (coordinator_init 8 [toy_spec] false true true 1 1 2 None false no_metrics (coordinator toy_kv)).
  - vm_compute. reflexivity.
  - lia.
  - apply Forall_singleton. split; [cbn; lia|exact I].
  - vm_compute. discriminate.
Qed.

Definition toy_manager : Manager := MkManager 2 toy_spec FullAttentionManager true [] ∅ ∅ 0 (Blk 0) ∅ ∅ ∅ [].
Lemma toy_managers : managers_of toy_kv = [toy_manager].
Proof. vm_compute. reflexivity. Qed.

Lemma toy_slots_ready : slots_ready toy_kv (fresh_apool 8) toy_hashed 5 0 0 0 None [[]].
Proof.
  split.
  - exact toy_kv_inv.
  - by left.
  - vm_compute. repeat split; discriminate.
  - rewrite toy_managers. split; reflexivity.
  - vm_compute. discriminate.
  - by left.
  - intros j m c Hj Hc. rewrite toy_managers in Hj. apply list_lookup_singleton_Some in Hj as [<- <-]. apply list_lookup_singleton_Some in Hc as [_ <-].
    right; left. split; [reflexivity|]. split; [reflexivity|]. split_and!.
    + by apply Forall_nil_2.
    + apply NoDup_nil_2.
    + reflexivity.
    + by left.
Qed.

Lemma toy_cache_ready : cache_ready toy_kv toy_hashed 5 0 0.
Proof.
  intros _. rewrite toy_managers. split_and!; [vm_compute; reflexivity..|apply Forall_singleton; vm_compute; reflexivity| |];
    vm_compute; discriminate.
Qed.

Lemma toy_unitary : unitary_full toy_kv toy_manager.
Proof. exists toy_spec. rewrite toy_managers. repeat split; vm_compute; reflexivity. Qed.

Lemma toy_hashes_nodup : NoDup (RequestModel.block_hashes toy_hashed).
Proof. apply (bool_decide_unpack _). vm_compute. exact I. Qed.

Lemma toy_stats : km_log_stats toy_kv = true → is_Some (prefix_cache_stats toy_kv).
Proof. intros _. exists new_stats. vm_compute. reflexivity. Qed.


Lemma kv_free_releases_witness : ∃ k' a', kv_free toy_hashed toy_kv = (Ok tt, k') ∧ kv_inv k' a'.
Proof.
  destruct (proj1 (wp_run _ _ _) (kv_free_releases toy_kv (fresh_apool 8) toy_hashed toy_kv_inv)) as ([] & k' & Hrun & a' & Hinv & _).
  exact (ex_intro _ k' (ex_intro _ a' (conj Hrun Hinv))).
Defined.

Lemma kv_reset_when_idle_witness : ∃ b k' a', kv_reset_prefix_cache toy_kv = (Ok b, k') ∧ kv_inv k' a'.
Proof.
  destruct (proj1 (wp_run _ _ _) (kv_reset_when_idle toy_kv (fresh_apool 8) toy_kv_inv toy_stats)) as (b & k' & Hrun & a' & Hinv & _).
  exact (ex_intro _ b (ex_intro _ k' (ex_intro _ a' (conj Hrun Hinv)))).
Defined.

Lemma computed_blocks_ready_witness : ∃ b n k', get_computed_blocks toy_hashed toy_kv = (Ok (b, n), k') ∧ 0 ≤ n < num_tokens toy_hashed.
Proof.
  destruct (proj1 (wp_run _ _ _) (computed_blocks_ready toy_kv (fresh_apool 8) toy_manager toy_hashed 5 0 0 toy_kv_inv
    toy_unitary eq_refl toy_hashes_nodup toy_stats eq_refl eq_refl eq_refl eq_refl
    ltac:(lia) ltac:(lia) ltac:(lia) ltac:(by left) ltac:(vm_compute; discriminate))) as ([b n] & k' & Hrun & Hn & _).
  exact (ex_intro _ b (ex_intro _ n (ex_intro _ k' (conj Hrun Hn)))).
Defined.

(** ** External tokens with several groups *)

(** A sliding-window group beside a full-attention group, 14 free blocks. *)
Definition pair_groups : list KVCacheGroupSpec :=
  [MkGroup ["layer0"%string] (LayerSpec toy_spec); MkGroup ["layer1"%string] (LayerSpec (SlidingWindowSpec 2 toy_attention 64))].
Definition pair_kv : KVCacheManager :=
  match kv_manager_init (MkKVCacheConfig 15 [] pair_groups) 64 2 true false false false 1 1 None false no_metrics with
  | Ok k => k
  | Raise _ => idle_kv
  end.
Definition hashed (rid : string) (tokens : list Z) : Request :=
  (update_block_hashes id code_hash [x03] (Some 2) (text_request rid tokens None None [])).2.

(** Two requests run and finish, then a third hits the first one's prefix and
    loads eight more tokens from a connector. *)
Definition req_a : Request := hashed "a" [1; 2; 3; 4; 5].
Definition req_b : Request := hashed "b" [1; 2; 3; 4; 5; 6; 7; 8; 9; 10; 11; 12; 13].
Definition req_c : Request := hashed "c" [21; 22; 23; 24; 25; 26; 27; 28].
Definition external_run : M KVCacheManager (Z * option (list (list Z)) * list (list Z)) :=
  allocate_slots id req_a 5 0 None 0 0 false 0 ;;;
  allocate_slots id req_c 8 0 None 0 0 false 0 ;;;
  kv_free req_a ;;; kv_free req_c ;;;
  let! hit := get_computed_blocks req_b in
  let! k := gets id in
  let hit_ids := blocks_get_ids (heap (free_block_queue (pool_of k))) false hit.1 in
  allocate_slots id req_b 1 hit.2 (Some hit.1) 0 8 true 0 ;;;
  let! k := gets id in
  ret (hit.2, hit_ids, get_block_ids k "b").

(** With external tokens and more than one group, [allocate_slots] can
    give one physical block to two groups: [allocate_new_computed_blocks]
    touches and allocates group by group, so the blocks allocated for the
    external tokens of the first group can be the second group's prefix-cache
    hits, which are not touched yet.  Here the hits of the second group are
    blocks 4 and 5; afterwards the first group holds 4 and 5 for its external
    tokens and the second group still uses them as its cached prefix. *)
Theorem external_blocks_alias :
  (external_run pair_kv).1 =
    Ok (4, Some [[1; 2]; [4; 5]], [[1; 2; 3; 6; 5; 4; 14]; [4; 5; 10; 9; 8; 7; 13]]).
Proof. vm_compute. reflexivity. Qed.

(** A group with two sink tokens, which occupy one block. *)
Definition sink_groups : list KVCacheGroupSpec :=
  [MkGroup ["layer0"%string] (LayerSpec (SinkFullAttentionSpec 2 toy_attention (MkFull 128 None None) (Some 2)))].
Definition sink_kv : KVCacheManager :=
  match kv_manager_init (MkKVCacheConfig 8 [] sink_groups) 64 2 true false false false 1 1 None false no_metrics with
  | Ok k => k
  | Raise _ => idle_kv
  end.

(** With a sink group the prefix cache can never be reset: the sink blocks
    are taken from the free queue when the manager is built, so the number of
    used blocks is never one, and [reset_prefix_cache] returns [False] although
    no request holds a block. *)
Theorem sink_blocks_prevent_reset :
  (kv_reset_prefix_cache sink_kv).1 = Ok false ∧
  sink_blocks <$> managers_of sink_kv = [[Blk 1]] ∧ req_to_blocks <$> managers_of sink_kv = [∅].
Proof. split_and!; vm_compute; reflexivity. Qed.
