(* ===== verification/KVService.v ===== *)
(** * What the KV-cache manager promises to the scheduler

    [KVService] is the interface: an invariant that records, for every request
    that holds KV-cache blocks, how many of its tokens have a slot, and what
    each call of the scheduler does to that record.  The second half shows that
    the manager with one full-attention group and prefix caching implements it,
    from the safety lemmas of KVCacheSafety and from the fact that a call on
    behalf of one request leaves the entries of all others alone. *)

From S2P Require Import Prelude FreeQueue RequestModel BlockHash KVCacheMetrics BlockPool KVCacheInterface.
From S2P Require Import SingleTypeManager Ownership CacheHit Coordinator KVCacheManager KVCacheSafety.

(** ** Calls on behalf of one request *)

(** Every other request keeps its entries, and the manager its attributes. *)
Definition others_same (rid : string) (m m' : Manager) : Prop :=
  manager_config m' = manager_config m ∧
  ∀ rid', rid' ≠ rid → req_to_blocks m' !! rid' = req_to_blocks m !! rid' ∧
    num_cached_block m' !! rid' = num_cached_block m !! rid'.

#[global] Instance others_same_preorder rid : PreOrder (others_same rid).
Proof.
  split; [done|]. intros m1 m2 m3 [E1 H1] [E2 H2]. split; [congruence|]. intros rid' Hne.
  destruct (H1 rid' Hne), (H2 rid' Hne). split; congruence.
Qed.

Definition frames {A} (rid : string) (op : M (Manager * BlockPool) A) : Prop := ∀ s, others_same rid s.1 (op s).2.1.

Section frames.
Context (rid : string).

Lemma frames_ret {A} (a : A) : frames rid (ret a).
Proof. by intros s. Qed.
Lemma frames_raise {A} e : frames rid (@raise _ A e).
Proof. by intros s. Qed.
Lemma frames_gets {A} (f : Manager * BlockPool → A) : frames rid (gets f).
Proof. by intros s. Qed.
Lemma frames_bind {A B} (m : M _ A) (k : A → M _ B) : frames rid m → (∀ a, frames rid (k a)) → frames rid (bind m k).
Proof.
  intros Hm Hk s. unfold bind. specialize (Hm s). destruct (m s) as [[a|e] s']; [|done]. etrans; [exact Hm|apply Hk].
Qed.
Lemma frames_get_mgr : frames rid get_mgr.
Proof. by intros s. Qed.
Lemma frames_on_pool {A} (m : M BlockPool A) : frames rid (on_pool m).
Proof. intros s. unfold on_pool, zoom. by destruct (m s.2). Qed.
Lemma frames_mod f : (∀ m, others_same rid m (f m)) → frames rid (mod_mgr f).
Proof. intros Hf s. apply Hf. Qed.
Lemma frames_assert b : frames rid (py_assert b).
Proof. by destruct b. Qed.
Lemma frames_index {A} (l : list A) i : frames rid (py_index l i).
Proof. intros s. unfold py_index. by destruct (py_get l i). Qed.
Lemma frames_for_each {B} (l : list B) f : (∀ x, frames rid (f x)) → frames rid (for_each l f).
Proof. intros Hf. induction l; [apply frames_ret|]. by apply frames_bind. Qed.

Lemma blocks_same bs m : others_same rid m (set_req_to_blocks (<[rid := bs]> (req_to_blocks m)) m).
Proof. split; [done|]. intros rid' Hne. cbn. by rewrite lookup_insert_ne. Qed.
Lemma unblocks_same m : others_same rid m (set_req_to_blocks (delete rid (req_to_blocks m)) m).
Proof. split; [done|]. intros rid' Hne. cbn. by rewrite lookup_delete_ne. Qed.
Lemma cached_same n m : others_same rid m (set_num_cached_block (<[rid := n]> (num_cached_block m)) m).
Proof. split; [done|]. intros rid' Hne. cbn. by rewrite lookup_insert_ne. Qed.
Lemma uncached_same m : others_same rid m (set_num_cached_block (delete rid (num_cached_block m)) m).
Proof. split; [done|]. intros rid' Hne. cbn. by rewrite lookup_delete_ne. Qed.

End frames.

Create HintDb frames.
#[export] Hint Resolve frames_ret frames_raise frames_gets frames_get_mgr frames_on_pool frames_assert frames_index blocks_same unblocks_same
  cached_same uncached_same : frames.

(** Walks through the body of an operation. *)
Ltac frames_tac :=
  repeat first
    [ progress auto with frames
    | apply frames_bind; [|intros ?]
    | apply frames_for_each; intros ?
    | apply frames_mod; intros m; by destruct (m_spec m)
    | apply frames_mod; intros ?; done
    | apply frames_mod; intros ?; progress auto with frames
    | match goal with
      | |- frames _ (match ?x with _ => _ end) => destruct x
      | |- frames _ (let '(_, _) := ?x in _) => destruct x
      end ].

Section operations.
Context (rid : string).

Lemma frames_get_req_blocks : frames rid (get_req_blocks rid).
Proof. unfold get_req_blocks, get_mgr. frames_tac. Qed.
Lemma frames_put_req_blocks bs : frames rid (put_req_blocks rid bs).
Proof. unfold put_req_blocks. frames_tac. Qed.
#[local] Hint Resolve frames_get_req_blocks frames_put_req_blocks : frames.

Lemma frames_record_new_ids bs : frames rid (record_new_ids bs).
Proof. unfold record_new_ids, get_mgr. frames_tac. Qed.
#[local] Hint Resolve frames_record_new_ids : frames.

Lemma frames_remove_skipped n : frames rid (remove_skipped_blocks rid n).
Proof.
  unfold remove_skipped_blocks, mamba_remove_skipped_blocks, base_remove_skipped_blocks, get_mgr. frames_tac.
Qed.
Lemma frames_num_to_allocate nt bs t n : frames rid (get_num_blocks_to_allocate rid nt bs t n).
Proof.
  unfold get_num_blocks_to_allocate, mamba_num_blocks_to_allocate, base_num_blocks_to_allocate, get_mgr. frames_tac.
Qed.
Lemma frames_computed bs l e : frames rid (allocate_new_computed_blocks rid bs l e).
Proof.
  unfold allocate_new_computed_blocks, cross_allocate_new_computed_blocks, base_allocate_new_computed_blocks, get_mgr. frames_tac.
Qed.
Lemma frames_reuse idxs k null : ∀ bs, frames rid (reuse_spec_blocks idxs k null bs).
Proof. induction idxs; intros bs; cbn; frames_tac. Qed.
#[local] Hint Resolve frames_reuse : frames.
Lemma frames_allocate nt n : frames rid (allocate_new_blocks rid nt n).
Proof.
  unfold allocate_new_blocks, mamba_allocate_new_blocks, mamba_align_allocate, base_allocate_new_blocks, get_mgr. frames_tac.
Qed.
Lemma frames_free : frames rid (free rid).
Proof. unfold free, mamba_forget, get_mgr. frames_tac. Qed.
Lemma frames_common : frames rid (get_num_common_prefix_blocks rid).
Proof. unfold get_num_common_prefix_blocks, full_num_common_prefix_blocks, get_mgr. frames_tac. Qed.
Lemma frames_cache sha256 r nt : request_id r = rid → frames rid (cache_blocks sha256 r nt).
Proof.
  intros <-. unfold cache_blocks, mamba_cache_blocks, cross_cache_blocks, base_cache_blocks, note_cached, get_mgr. frames_tac.
Qed.

(** The other operations of a step leave all entries alone. *)
Lemma frames_new_step : frames rid new_step_starts.
Proof. unfold new_step_starts. apply frames_mod. intros m. by destruct (m_class m). Qed.
Lemma frames_take_ids : frames rid take_new_block_ids.
Proof. unfold take_new_block_ids. frames_tac. Qed.

End operations.
#[export] Hint Resolve frames_remove_skipped frames_num_to_allocate frames_computed frames_allocate frames_free frames_common
  frames_cache : frames.

(** ** Calls on the manager of all groups *)

(** What no call changes: the configuration, and the entries of the other
    requests in every group. *)
Definition kv_same (rid : string) (k k' : KVCacheManager) : Prop :=
  c_kind (coordinator k') = c_kind (coordinator k) ∧ km_max_model_len k' = km_max_model_len k ∧
  km_enable_caching k' = km_enable_caching k ∧ km_log_stats k' = km_log_stats k ∧ prefix_cache_stats k' = prefix_cache_stats k ∧
  num_kv_cache_groups k' = num_kv_cache_groups k ∧ Forall2 (others_same rid) (managers_of k) (managers_of k').

#[global] Instance kv_same_preorder rid : PreOrder (kv_same rid).
Proof.
  split; [intros k; by split_and!|]. intros k1 k2 k3 (A1 & A2 & A3 & A4 & A5 & A6 & A7) (B1 & B2 & B3 & B4 & B5 & B6 & B7).
  split_and!; try congruence. by etrans.
Qed.

(** An operation of the manager with one group on behalf of request [rid]. *)
Definition kv_frames {A} (rid : string) (op : M KVCacheManager A) : Prop :=
  ∀ k, length (managers_of k) = 1%nat → kv_same rid k (op k).2.

Lemma kv_same_length rid k k' : kv_same rid k k' → length (managers_of k') = length (managers_of k).
Proof. intros (_ & _ & _ & _ & _ & _ & H). symmetry. by eapply Forall2_length. Qed.

Section kv_frames.
Context (rid : string).

Lemma kv_frames_ret {A} (a : A) : kv_frames rid (ret a).
Proof. by intros k _. Qed.
Lemma kv_frames_raise {A} e : kv_frames rid (@raise _ A e).
Proof. by intros k _. Qed.
Lemma kv_frames_gets {A} (f : KVCacheManager → A) : kv_frames rid (gets f).
Proof. by intros k _. Qed.
Lemma kv_frames_bind {A B} (m : M _ A) (k : A → M _ B) : kv_frames rid m → (∀ a, kv_frames rid (k a)) → kv_frames rid (bind m k).
Proof.
  intros Hm Hk s Hs. unfold bind. specialize (Hm s Hs). destruct (m s) as [[a|e] s']; [|done].
  etrans; [exact Hm|]. apply Hk. pose proof (kv_same_length _ _ _ Hm) as Hl. cbn in Hl. congruence.
Qed.
Lemma kv_frames_each {B} (f : nat → B → M MS B) acc : frames rid (f 0%nat acc) → kv_frames rid (on_coordinator (each_manager f acc)).
Proof.
  intros Hf k Hk. unfold on_coordinator, zoom, each_manager.
  destruct (managers_of k) as [|m [|]] eqn:Em; try done. cbn. specialize (Hf (m, c_block_pool (coordinator k))).
  destruct (f 0%nat acc _) as [[b|e] [m' p']]; cbn in *; split_and!; try done; cbn; rewrite Em; by constructor.
Qed.

End kv_frames.
#[export] Hint Resolve kv_frames_ret kv_frames_raise kv_frames_gets : frames.

Lemma frames_nth_group {A} rid (bs : list (list A)) i : frames rid (nth_group bs i).
Proof. apply frames_index. Qed.
#[export] Hint Resolve frames_nth_group : frames.

Ltac kv_frames_tac :=
  repeat first
    [ progress auto with frames
    | apply kv_frames_each
    | apply kv_frames_bind; [|intros ?]
    | match goal with
      | |- kv_frames _ (match ?x with _ => _ end) => destruct x
      | |- kv_frames _ (let '(_, _) := ?x in _) => destruct x
      end
    | progress frames_tac ].

Lemma kv_frames_allocate sha256 r new comp ncb look ext delay enc :
  kv_frames (request_id r) (allocate_slots sha256 r new comp ncb look ext delay enc).
Proof.
  unfold allocate_slots, coord_remove_skipped_blocks, coord_num_blocks_to_allocate, coord_allocate_new_computed_blocks,
    coord_allocate_new_blocks, coord_cache_blocks.
  kv_frames_tac.
Qed.
Lemma kv_frames_free r : kv_frames (request_id r) (kv_free r).
Proof. unfold kv_free, coord_free. kv_frames_tac. Qed.

(** ** The interface *)

(** What the scheduler guarantees about a request it passes to the manager: its
    full blocks have pairwise distinct hashes. *)
Definition hashable (bs : Z) (r : Request) : Prop :=
  num_tokens r / bs ≤ len (RequestModel.block_hashes r) ∧ NoDup (RequestModel.block_hashes r).

(** [Slots σ k]: in the manager [k], exactly the requests in [σ] hold blocks,
    and request [rid] has slots for its first [σ !! rid] tokens.  [Hit k rid b
    n]: the blocks [b] are cached contents for the first [n] tokens of [rid].
    [cap] blocks can be handed out; when they suffice for one request of the
    maximal length, an allocation fails only because others hold slots. *)
Class KVService (max_model_len bs cap : Z) (Slots : gmap string Z → KVCacheManager → Prop)
    (Hit : KVCacheManager → string → KVCacheBlocks → Z → Prop) : Prop := {
  svc_new_step σ k : Slots σ k → wp kv_new_step_starts (λ _, Slots σ) k;
  svc_extend sha256 σ k r c new look :
    Slots σ k → hashable bs r → σ !! request_id r = Some c → 0 ≤ num_computed_tokens r ≤ c → 0 < new → 0 ≤ look →
    num_computed_tokens r + new ≤ max_model_len →
    wp (allocate_slots sha256 r new 0 None look 0 false 0) (λ out k', (∃ e, out.2 = set_prompt_embeds_per_block_hashes e r) ∧
      match out.1 with
      | None => Slots σ k' ∧ (cdiv max_model_len bs ≤ cap → ∃ rid, rid ≠ request_id r ∧ is_Some (σ !! rid))
      | Some _ => Slots (<[request_id r := Z.min (num_computed_tokens r + new + look) max_model_len]> σ) k'
      end) k;
  svc_lookup σ k r :
    Slots σ k → hashable bs r → σ !! request_id r = None → 0 < num_tokens r ≤ max_model_len → num_computed_tokens r = 0 →
    wp (get_computed_blocks r) (λ bn k', 0 ≤ bn.2 < num_tokens r ∧ Slots σ k' ∧ Hit k' (request_id r) bn.1 bn.2) k;
  svc_fit σ k r b n :
    Slots σ k → Hit k (request_id r) b n → 0 ≤ n < num_tokens r → num_computed_tokens r = 0 → num_tokens r ≤ max_model_len →
    wp (can_fit_full_sequence r n (Some b) 0 0) (λ fits k', k' = k ∧
      (fits = false → cdiv max_model_len bs ≤ cap → ∃ rid, rid ≠ request_id r ∧ is_Some (σ !! rid))) k;
  svc_start sha256 σ k r b n new look :
    Slots σ k → hashable bs r → σ !! request_id r = None → Hit k (request_id r) b n → 0 ≤ n → num_computed_tokens r = 0 →
    0 < new → 0 ≤ look → n + new ≤ max_model_len →
    wp (allocate_slots sha256 r new n (Some b) look 0 false 0) (λ out k', (∃ e, out.2 = set_prompt_embeds_per_block_hashes e r) ∧
      match out.1 with
      | None => Slots σ k' ∧ (cdiv max_model_len bs ≤ cap → ∃ rid, rid ≠ request_id r ∧ is_Some (σ !! rid))
      | Some _ => Slots (<[request_id r := Z.min (n + new + look) max_model_len]> σ) k'
      end) k;
  svc_free σ k r : Slots σ k → wp (kv_free r) (λ _, Slots (delete (request_id r) σ)) k;
  svc_common σ k rid : Slots σ k → is_Some (σ !! rid) → wp (kv_num_common_prefix_blocks rid) (λ _, Slots σ) k;
  svc_take_ids σ k : Slots σ k → wp kv_take_new_block_ids (λ _, Slots σ) k;
  svc_take_events σ k : Slots σ k → wp kv_take_events (λ _, Slots σ) k;
  svc_reset σ k : Slots σ k → wp kv_reset_prefix_cache (λ b k', Slots σ k' ∧ (σ = ∅ → b = true)) k;
}.

(** ** The implementation: one full-attention group with prefix caching *)

Definition holds (bs : Z) (m : Manager) (rid : string) (slots : option Z) : Prop :=
  match slots with
  | None => blocks_of m rid = [] ∧ num_cached_block m !! rid = None
  | Some c => 0 < c ≤ len (blocks_of m rid) * bs
  end.

Definition kv_slots (mml bs cap : Z) (σ : gmap string Z) (k : KVCacheManager) : Prop := ∃ a m,
  kv_inv k a ∧ unitary_full k m ∧ m_block_size m = bs ∧ km_max_model_len k = mml ∧
  enable_caching (pool_of k) = true ∧ (hash_block_size (pool_of k) = bs ∧ num_gpu_blocks (pool_of k) = cap + 1) ∧
  (km_log_stats k = true → is_Some (prefix_cache_stats k)) ∧ ∀ rid, holds bs m rid (σ !! rid).

(** The blocks [b] meet the contract of [allocate_slots] for request [rid]. *)
Definition kv_hit (k : KVCacheManager) (rid : string) (b : KVCacheBlocks) (n : Z) : Prop := ∃ a css,
  kv_inv k a ∧ blocks_field b = hit_refs css ∧ length css = length (managers_of k) ∧
  ∀ j m c, managers_of k !! j = Some m → css !! j = Some c →
    seen_by m rid c ∨ new_to m (pool_of k) a rid c n ∨ (is_shared_empty b = true ∧ unrecorded m rid c n).

Lemma pool_config_num p p' : pool_config p' = pool_config p → num_gpu_blocks p' = num_gpu_blocks p.
Proof. by intros [= ]. Qed.

Lemma unitary_same rid k k' m :
  unitary_full k m → kv_same rid k k' → ∃ m', unitary_full k' m' ∧ others_same rid m m' ∧ managers_of k = [m] ∧ managers_of k' = [m'].
Proof.
  intros (spec & H1 & H2 & H3 & H4 & H5 & H6 & H7 & H8 & H9) (S1 & S2 & S3 & S4 & S5 & S6 & S7).
  rewrite H4 in S7. apply Forall2_cons_inv_l in S7 as (m' & ms & Hm & Hnil%Forall2_nil_inv_l & Hms). subst ms.
  exists m'. destruct Hm as [[= E1 E2 E3 E4 E5 E6] Hm]. split_and!; [|by split; [unfold manager_config; congruence|]|done|done].
  exists spec. split_and!; congruence.
Qed.

(** Operations that leave a state as it is. *)
Definition reads {S A} (s : S) (op : M S A) : Prop := (op s).2 = s.

Lemma reads_bind {S A B} (s : S) (m : M S A) (k : A → M S B) : reads s m → (∀ a, reads s (k a)) → reads s (bind m k).
Proof. unfold reads, bind. intros Hm Hk. destruct (m s) as [[a|e] s']; cbn in Hm; subst; auto. Qed.
Lemma reads_gets {S A B} (s : S) (f : S → A) (k : A → M S B) : reads s (k (f s)) → reads s (bind (gets f) k).
Proof. done. Qed.
Lemma reads_assert {S} (s : S) b : reads s (py_assert b).
Proof. by destruct b. Qed.
Lemma reads_index {S A} (s : S) (l : list A) i : reads s (py_index l i).
Proof. unfold py_index. by destruct (py_get l i). Qed.

Lemma set_managers_id c m : single_type_managers c = [m] → set_managers [m] (c_block_pool c) c = c.
Proof. intros <-. by destruct c. Qed.
Lemma set_coordinator_id k : set_coordinator (coordinator k) k = k.
Proof. by destruct k. Qed.

Lemma reads_each {B} k m (f : nat → B → M MS B) acc :
  managers_of k = [m] → reads (m, pool_of k) (f 0%nat acc) → reads k (on_coordinator (each_manager f acc)).
Proof.
  intros Hm Hf. unfold reads, on_coordinator, zoom, each_manager in *. rewrite Hm. cbn [fold_managers]. unfold pool_of in Hf.
  destruct (f 0%nat acc _) as [[b|e] [m' p']]; cbn in Hf |- *; injection Hf as -> ->;
    by rewrite set_managers_id, set_coordinator_id.
Qed.

(** The reads of a full-attention manager. *)
Lemma remove_skipped_full k m rid t : unitary_full k m → on_coordinator (coord_remove_skipped_blocks rid t) k = (Ok tt, k).
Proof.
  intros (spec & _ & _ & _ & H4 & H5 & _). unfold on_coordinator, zoom, coord_remove_skipped_blocks, each_manager. rewrite H4. cbn [fold_managers].
  assert (remove_skipped_blocks rid t (m, c_block_pool (coordinator k)) = (Ok tt, (m, c_block_pool (coordinator k)))) as ->.
  { unfold remove_skipped_blocks, base_remove_skipped_blocks, get_mgr, bind, gets, get_num_skipped_tokens. cbn [fst]. rewrite H5.
    cbn [fst]. rewrite H5. done. }
  by rewrite set_managers_id, set_coordinator_id.
Qed.

Lemma num_to_allocate_full k m rid nt ncb enc t ntm :
  unitary_full k m → reads k (on_coordinator (coord_num_blocks_to_allocate rid nt ncb enc t ntm)).
Proof.
  intros (spec & _ & _ & _ & H4 & H5 & _). apply (reads_each k m); [done|]. apply reads_gets. cbn [fst]. rewrite H5.
  apply reads_bind; [|done]. cbn. apply reads_bind; [apply reads_index|]. intros bs.
  unfold get_num_blocks_to_allocate, get_mgr. apply reads_gets. cbn [fst]. rewrite H5.
  unfold base_num_blocks_to_allocate, get_mgr. do 2 apply reads_gets. cbn [fst snd].
  destruct (num_cached_block m !! rid); [|done]. by apply reads_bind; [apply reads_assert|].
Qed.

Lemma allocate_slots_none sha256 k m r new comp ncb look ext delay enc r' k' :
  unitary_full k m → allocate_slots sha256 r new comp ncb look ext delay enc k = (Ok (None, r'), k') → k' = k.
Proof.
  intros Hu. unfold allocate_slots. destruct ((new =? 0) && (ext =? 0)); [done|]. unfold bind at 1, gets at 1.
  erewrite bind_ok by by eapply remove_skipped_full. unfold bind at 1.
  match goal with |- context [on_coordinator (coord_num_blocks_to_allocate ?a ?b ?c ?d ?e ?f) k] =>
    pose proof (num_to_allocate_full k m a b c d e f Hu) as Hr; unfold reads in Hr;
    destruct (on_coordinator (coord_num_blocks_to_allocate a b c d e f) k) as [[n|er] k1] end; cbn in Hr; subst k1; [|done].
  unfold bind at 1, gets at 1. case_match; [by intros [= <- <-]|]. unfold bind. intros Heq. repeat case_match; simplify_eq.
Qed.

Section service.
Context (mml bs cap : Z).

(** A call on behalf of [rid] changes the record at [rid] only. *)
Lemma kv_slots_update σ σ' k k' a' rid :
  kv_slots mml bs cap σ k → kv_same rid k k' → kv_inv k' a' → pool_config (pool_of k') = pool_config (pool_of k) →
  (∀ m', managers_of k' = [m'] → m_block_size m' = bs → holds bs m' rid (σ' !! rid)) →
  (∀ rid', rid' ≠ rid → σ' !! rid' = σ !! rid') → kv_slots mml bs cap σ' k'.
Proof.
  intros (a & m & _ & Hu & Hb & Hl & Hc & [Hh Hcap] & Hs & Hold) Hsame Hinv Hcfg Hrid Hother.
  destruct (unitary_same _ _ _ _ Hu Hsame) as (m' & Hu' & [Hmc Hm] & _ & Hms).
  destruct Hsame as (_ & S2 & S3 & S4 & S5 & _). assert (m_block_size m' = bs) as Hb' by (injection Hmc; congruence).
  exists a', m'. split_and!; try congruence; auto.
  - by rewrite (pool_config_caching _ _ Hcfg).
  - by rewrite (pool_config_hbs _ _ Hcfg).
  - by rewrite (pool_config_num _ _ Hcfg).
  - by rewrite S4, S5.
  - intros rid'. destruct (decide (rid' = rid)) as [->|Hne]; [by apply Hrid|]. rewrite (Hother rid' Hne).
    specialize (Hold rid'). destruct (Hm rid' Hne) as [E1 E2]. unfold holds, blocks_of in *. by rewrite E1, E2.
Qed.

(** The blocks that are neither free nor the null block are in the tables of
    the holders. *)
Lemma free_alone σ k m a rid :
  kv_slots mml bs cap σ k → kv_inv k a → managers_of k = [m] → (∀ rid', rid' ≠ rid → σ !! rid' = None) →
  cap ≤ len (a_free a) + len (blocks_of m rid).
Proof.
  intros (a0 & m0 & _ & Hu & _ & _ & _ & [_ Hcap] & _ & Hold) Hs Hms Halone. unfold kv_inv in Hs. rewrite Hms in Hs.
  pose proof Hu as (spec & _ & _ & _ & Hms0 & _). rewrite Hms in Hms0. injection Hms0 as <-.
  pose proof (si_pool _ _ _ Hs) as [Hr Hok]. pose proof (Permutation_length (free_used_perm _ _ Hok)) as Hperm.
  rewrite length_app, length_seq in Hperm. assert (used_blocks (pool_size (pool_of k)) a ⊆+ omap (λ x, match x with Blk i => Some i | _ => None end) (blocks_of m rid)) as Hsub.
  { apply NoDup_submseteq; [apply NoDup_filter, NoDup_ListNoDup, seq_NoDup|]. intros i [Hi Hi']%list_elem_of_filter. apply elem_of_seq in Hi'.
    destruct (decide (Blk i ∈ blocks_of m rid)) as [Hin|Hn]; [apply list_elem_of_omap; by exists (Blk i)|].
    exfalso. rewrite (si_ref _ _ _ Hs i), held_all_zero in Hi; [lia| |lia]. intros m' rid' ->%list_elem_of_singleton.
    destruct (decide (rid' = rid)) as [->|Hne]; [done|]. specialize (Hold rid'). rewrite Halone in Hold by done. destruct Hold as [-> _]. apply not_elem_of_nil. }
  apply submseteq_length in Hsub. assert (length (omap (λ x, match x with Blk i => Some i | _ => None end) (blocks_of m rid)) ≤ length (blocks_of m rid))%nat as Hl.
  { clear. induction (blocks_of m rid) as [|x l IH]; cbn; [done|]. destruct x; cbn; lia. }
  unfold pool_size in Hperm, Hsub. unfold len. lia.
Qed.

Lemma evictable_le p l : 0 ≤ get_num_evictable_blocks p l ≤ len l.
Proof. unfold get_num_evictable_blocks. pose proof (length_filter (λ r, is_freed (heap (free_block_queue p)) r = true) l). unfold len. lia. Qed.

(** When one request may hold all blocks, it gets what it needs. *)
Lemma room_alone σ k m a rid nt c t n :
  kv_slots mml bs cap σ k → kv_inv k a → managers_of k = [m] → (∀ rid', rid' ≠ rid → σ !! rid' = None) → cdiv mml bs ≤ cap → nt ≤ mml →
  n ≤ nt → seen_by m rid c ∨ (∃ p a, new_to m p a rid c n) ∨ (∃ l, unrecorded m rid c l) →
  num_to_allocate m (pool_of k) rid nt c t ≤ get_num_free_blocks (pool_of k).
Proof.
  intros Hk Hs Hms Halone Hroom Hnt Hn Hhit. pose proof (free_alone σ k m a rid Hk Hs Hms Halone) as Hfree.
  pose proof Hk as (_ & m0 & _ & Hu & Hmb & _). pose proof Hu as (spec & _ & _ & Hbs & Hms0 & Hcl & Hmbs & _). rewrite Hms in Hms0. injection Hms0 as <-.
  assert (0 < bs) as Hpos by congruence. rewrite (num_free_len _ a) by apply Hs. pose proof (cdiv_mono nt mml bs Hpos Hnt) as Hcd. pose proof (len_nonneg (a_free a)).
  assert (skipped_blocks m t = 0) as Hskip by (unfold skipped_blocks, get_num_skipped_tokens; rewrite Hcl; apply Z.div_0_l; lia).
  unfold num_to_allocate, blocks_needed. rewrite Hskip, Hmb. destruct Hhit as [[[x ->] _]|[(p & a' & -> & Hnil & _ & _ & Hl & _)|(l & -> & -> & _)]].
  - lia.
  - rewrite Hnil in *. change (len []) with 0 in *. rewrite Hmb in Hl. cbn [Z.max Z.sub Z.compare Z.to_nat drop].
    pose proof (evictable_le (pool_of k) (Blk <$> c)) as He. rewrite len_fmap in He.
    assert (len c ≤ cdiv nt bs) by (apply Z.lt_pred_le; pose proof (cdiv_mul_ge nt bs Hpos); nia).
    change (Z.to_nat (Z.max 0 (0 - 0))) with 0%nat. rewrite drop_0. lia.
  - rewrite drop_nil. cbn [fmap list_fmap]. unfold get_num_evictable_blocks. cbn. change (len []) with 0. lia.
Qed.

Lemma others_hold (σ : gmap string Z) rid : ¬ (∀ rid', rid' ≠ rid → σ !! rid' = None) → ∃ rid', rid' ≠ rid ∧ is_Some (σ !! rid').
Proof.
  intros Hn. destruct (decide (delete rid σ = ∅)) as [He|He].
  - destruct Hn. intros rid' Hne. rewrite <-(lookup_delete_ne σ rid rid') by done. by rewrite He.
  - apply map_choose in He as (rid' & x & Hx). apply lookup_delete_Some in Hx as [Hne Hx]. by exists rid'.
Qed.

(** [allocate_slots] with a hit that meets its contract. *)
Lemma kv_slots_allocate sha256 σ k r new comp look ncb :
  kv_slots mml bs cap σ k → hashable bs r → kv_hit k (request_id r) (default (empty_kv_cache_blocks k) ncb) (num_computed_tokens r + comp) →
  0 ≤ num_computed_tokens r + comp → 0 < new → 0 ≤ look → num_computed_tokens r + comp + new ≤ mml →
  wp (allocate_slots sha256 r new comp ncb look 0 false 0) (λ out k', (∃ e, out.2 = set_prompt_embeds_per_block_hashes e r) ∧
    match out.1 with
    | None => kv_slots mml bs cap σ k' ∧ (cdiv mml bs ≤ cap → ∃ rid, rid ≠ request_id r ∧ is_Some (σ !! rid))
    | Some _ => kv_slots mml bs cap (<[request_id r := Z.min (num_computed_tokens r + comp + new + look) mml]> σ) k'
    end) k.
Proof.
  intros Hk [Hh Hnd] (a & css & Hinv & Hb & Hl & Hg) Hc0 Hnew Hlook Hmax.
  pose proof Hk as (a0 & m & _ & Hu & Hmb & Hml & Hen & [Hhb Hcap] & _ & Hold). pose proof Hu as (spec & _ & _ & Hbs & Hms & _ & Hmbs & _).
  assert (slots_ready k a r new comp look 0 ncb css) as Hr.
  { split; try done; try lia. intros j m1 c Hj Hc. destruct (Hg j m1 c Hj Hc) as [?|[?|[Hs ?]]]; auto. right. right. split; [|done].
    unfold records_prefix. by rewrite Hs. }
  assert (cache_ready k r new comp 0) as Hcr.
  { intros _. rewrite Hhb. split_and!; auto; [lia| |lia]. rewrite Hms. apply Forall_singleton. rewrite Hmb. apply Z.mod_same. lia. }
  destruct (proj1 (wp_run _ _ _) (allocate_slots_wp sha256 k a r new comp look 0 false 0 ncb css Hr Hcr))
    as ([out r'] & k' & Hrun & a' & Hinv' & Hcfg & He & Hpost).
  unfold wp. rewrite Hrun. split; [exact He|]. cbn [fst] in *. destruct Hpost as (k1 & _ & _ & Hnone & Hpost). destruct out as [b|].
  2:{ apply (allocate_slots_none _ _ _ _ _ _ _ _ _ _ _ _ _ Hu) in Hrun as ->. split; [done|]. intros Hroom. subst k1.
      apply (others_hold σ). intros Halone. pose proof (proj1 Hnone eq_refl) as Hlt. apply Z.lt_nge in Hlt. apply Hlt. rewrite Hms in Hl, Hg |- *.
      destruct css as [|c []]; [done| |done]. cbn [total_to_allocate]. rewrite Z.add_0_r.
      apply (room_alone σ k m a _ _ c _ (num_computed_tokens r + comp)); auto; [unfold need_slot; lia..|].
      destruct (Hg 0%nat m c) as [?|[?|[_ ?]]]; [done|done|by left|right; left; by eauto|right; right; by eauto]. }
  pose proof (kv_frames_allocate sha256 r new comp ncb look 0 false 0 k ltac:(by rewrite Hms)) as Hsame. rewrite Hrun in Hsame.
  eapply kv_slots_update; eauto.
  - intros m' Hms' Hmb'. rewrite lookup_insert_eq. destruct Hpost as [Hcov _]. cbn in Hms'. rewrite Hms' in Hcov.
    apply Forall_inv in Hcov. cbn beta in Hcov. unfold need_slot in Hcov. rewrite Hmb', Hml, Z.add_0_r in Hcov. unfold holds. lia.
  - intros rid' Hne. by rewrite lookup_insert_ne.
Qed.

Lemma kv_slots_hit_none σ k r c : kv_slots mml bs cap σ k → σ !! request_id r = Some c → num_computed_tokens r ≤ c →
  kv_hit k (request_id r) (empty_kv_cache_blocks k) (num_computed_tokens r).
Proof.
  intros (a & m & Hinv & Hu & Hmb & _ & _ & _ & _ & Hold) Hc Hle. pose proof Hu as (spec & _ & _ & _ & Hms & _ & _ & _ & _ & Hng).
  exists a, [[]]. rewrite Hms. split_and!; auto; [unfold empty_kv_cache_blocks; by rewrite Hng|].
  intros j m' cs Hj Hcs. apply list_lookup_singleton_Some in Hj as [-> <-]. injection Hcs as <-.
  specialize (Hold (request_id r)). rewrite Hc in Hold. unfold holds in Hold.
  destruct (num_cached_block m !! request_id r) eqn:E; [left; by split|]. right. right. split; [done|]. split_and!; auto. rewrite Hmb. lia.
Qed.

Lemma kv_slots_lookup σ k r :
  kv_slots mml bs cap σ k → hashable bs r → σ !! request_id r = None → 0 < num_tokens r ≤ mml → num_computed_tokens r = 0 →
  wp (get_computed_blocks r) (λ bn k', 0 ≤ bn.2 < num_tokens r ∧ kv_slots mml bs cap σ k' ∧ kv_hit k' (request_id r) bn.1 bn.2) k.
Proof.
  intros Hk [Hh Hnd] Hnone Hnt Hnc. pose proof Hk as (a & m & Hinv & Hu & Hmb & Hml & Hen & [Hhb Hcap] & Hst & Hold).
  pose proof Hu as (spec & _ & _ & Hbs & Hms & _ & Hmbs & Hmc & Hkc & Hng).
  specialize (Hold (request_id r)) as Hr. rewrite Hnone in Hr. destruct Hr as [Hb0 Hn0].
  destruct (skip_reading_prefix_cache r) eqn:Eskip.
  - unfold get_computed_blocks. wp_step. wp_step. change (id k) with k. rewrite Hkc, Eskip. cbn [negb orb]. wp_step. cbn [fst snd].
    split; [lia|]. split; [done|]. exists a, [[]]. rewrite Hms. split_and!; auto; [unfold empty_kv_cache_blocks; by rewrite Hng|].
    intros j m' cs Hj Hcs. apply list_lookup_singleton_Some in Hj as [-> <-]. injection Hcs as <-. right. left.
    split_and!; try done. split_and!; try done; [apply NoDup_nil_2|by left].
  - destruct (proj1 (wp_run _ _ _) (computed_blocks_wp k a m r 1 0 0 Hinv Hu Eskip Hnd Hst ltac:(lia) Hnc Hn0 Hb0
      ltac:(lia) ltac:(lia) ltac:(lia) ltac:(by left) ltac:(lia))) as ([b n] & k' & Hrun & Hn & (st & -> & Hst') & css & Hsr).
    unfold wp. rewrite Hrun. cbn [fst snd] in *. split; [done|]. split; [by exists a, m|].
    exists a, css. split; [done|]. destruct (sr_hits _ _ _ _ _ _ _ _ _ Hsr) as [H1 H2]. split_and!; auto.
    intros j m' c Hj Hc. pose proof (sr_group _ _ _ _ _ _ _ _ _ Hsr j m' c Hj Hc) as Hg. rewrite Hnc, Z.add_0_l in Hg.
    destruct Hg as [?|[?|[H3 ?]]]; auto.
    right. right. split; [|done]. apply orb_false_iff in H3 as [H3 _]. by apply negb_false_iff in H3.
Qed.

(** The capacity check for the whole sequence only reads. *)
Lemma kv_slots_fit σ k r b n :
  kv_slots mml bs cap σ k → kv_hit k (request_id r) b n → 0 ≤ n < num_tokens r → num_computed_tokens r = 0 → num_tokens r ≤ mml →
  wp (can_fit_full_sequence r n (Some b) 0 0) (λ fits k', k' = k ∧
    (fits = false → cdiv mml bs ≤ cap → ∃ rid, rid ≠ request_id r ∧ is_Some (σ !! rid))) k.
Proof.
  intros Hk (a & css & Hinv & Hb & Hl & Hg) Hn Hnc Hnt. pose proof Hk as (_ & m & _ & Hu & _ & Hml & _). pose proof Hu as (spec & _ & _ & _ & Hms & _).
  unfold can_fit_full_sequence. wp_step. wp_step. change (id k) with k.
  cbn [default from_option]. change (blocks_field (id b)) with (blocks_field b). rewrite Hb. eapply wp_bind_ok.
  { unfold on_coordinator, zoom. rewrite coord_num_run; [done|apply (si_wf _ _ _ Hinv)|done|].
    intros j m1 c Hm Hc [x Hx]. destruct (Hg j m1 c Hm Hc) as [[_ ?]|[[? _]|[_ [? _]]]]; congruence. }
  rewrite set_coordinator_id. wp_step. wp_step. wp_step. change (id k) with k. split; [done|]. intros Hfit%Z.leb_gt Hroom.
  apply (others_hold σ). intros Halone. apply Z.lt_nge in Hfit. apply Hfit. fold (pool_of k). rewrite Hms in Hl, Hg |- *.
  destruct css as [|c []]; [done| |done]. cbn [total_to_allocate]. rewrite Z.add_0_r.
  apply (room_alone σ k m a _ _ c _ n); auto; [lia..|].
  destruct (Hg 0%nat m c) as [?|[?|[_ ?]]]; [done|done|by left|right; left; by eauto|right; right; by eauto].
Qed.

Lemma kv_slots_free σ k r : kv_slots mml bs cap σ k → wp (kv_free r) (λ _, kv_slots mml bs cap (delete (request_id r) σ)) k.
Proof.
  intros Hk. pose proof Hk as (a & m & Hinv & Hu & _). pose proof Hu as (spec & _ & _ & _ & Hms & _).
  destruct (proj1 (wp_run _ _ _) (kv_free_wp k a r Hinv)) as ([] & k' & Hrun & a' & Hinv' & Hcfg & _ & Hfree & _).
  unfold wp. rewrite Hrun. pose proof (kv_frames_free r k ltac:(by rewrite Hms)) as Hsame. rewrite Hrun in Hsame.
  eapply kv_slots_update; eauto.
  - intros m' Hms' _. cbn in Hms'. rewrite lookup_delete_eq.
    destruct (Hfree 0%nat m m') as (H1 & H2 & _); [by rewrite Hms|by rewrite Hms'|]. by split.
  - intros rid Hne. by rewrite lookup_delete_ne.
Qed.

(** The common prefix of a holder is read off its blocks. *)
Lemma kv_slots_common σ k rid : kv_slots mml bs cap σ k → is_Some (σ !! rid) → wp (kv_num_common_prefix_blocks rid) (λ _, kv_slots mml bs cap σ) k.
Proof.
  intros Hk [c Hc]. pose proof Hk as (a & m & _ & Hu & _ & _ & _ & _ & _ & Hold). pose proof Hu as (spec & Hkind & _ & _ & Hms & Hcl & _).
  specialize (Hold rid). rewrite Hc in Hold. unfold holds, blocks_of in Hold.
  destruct (req_to_blocks m !! rid) as [bl|] eqn:Ebl; [|cbn in Hold; change (len []) with 0 in Hold; lia].
  assert (∃ n, kv_num_common_prefix_blocks rid k = (Ok n, k)) as [n Hrun]; [|unfold wp; by rewrite Hrun].
  unfold kv_num_common_prefix_blocks, coord_num_common_prefix_blocks, on_coordinator, zoom.
  erewrite bind_ok by reflexivity. change (id (coordinator k)) with (coordinator k). rewrite Hkind. unfold each_manager. rewrite Hms.
  cbn [fold_managers].
  assert (get_num_common_prefix_blocks rid (m, c_block_pool (coordinator k)) =
    (Ok (count_common (heap (free_block_queue (pool_of k))) (Z.of_nat (size (req_to_blocks m))) bl), (m, c_block_pool (coordinator k)))) as Hr.
  { unfold get_num_common_prefix_blocks, get_mgr. erewrite bind_ok by reflexivity. cbn [fst]. rewrite Hcl.
    assert (get_req_blocks rid (m, c_block_pool (coordinator k)) = (Ok bl, (m, c_block_pool (coordinator k)))) as Hg.
    { unfold get_req_blocks, get_mgr. erewrite bind_ok by reflexivity. cbn [fst]. by rewrite Ebl. }
    unfold full_num_common_prefix_blocks. by erewrite bind_ok by exact Hg. }
  erewrite bind_ok by exact Hr. eexists. cbn. by rewrite set_managers_id, set_coordinator_id.
Qed.

(** The ids of new blocks and the events are logs beside the entries. *)
Lemma sys_inv_log m m' p p' a :
  sys_inv [m] p a → m_spec m' = m_spec m → manager_config m' = manager_config m → req_to_blocks m' = req_to_blocks m →
  num_cached_block m' = num_cached_block m → pool_inv p' a → pool_config p' = pool_config p → sys_inv [m'] p' a.
Proof.
  intros H _ Hmc Hr Hn Hp Hcfg. assert (∀ x, x ∈ [m'] → x = m') as Hin by (intros x; set_solver).
  assert (m ∈ [m]) as Hm by set_solver. split; auto.
  - rewrite (pool_config_caching _ _ Hcfg). apply H.
  - apply Forall_singleton. eapply manager_config_wf; [done|]. by apply (Forall_inv (si_wf _ _ _ H)).
  - intros x rid l ->%Hin. rewrite Hr, (config_size _ _ Hcfg). by apply (si_blocks _ _ _ H).
  - intros i Hi. rewrite (si_ref _ _ _ H i Hi). unfold held_all. cbn. by rewrite Hr.
  - intros x rid i ->%Hin. unfold fresh_of. rewrite Hr, Hn. by apply (si_fresh _ _ _ H).
  - intros x rid c ->%Hin. rewrite Hn. by apply (si_cached _ _ _ H).
Qed.

Lemma kv_slots_log σ k k' m m' :
  kv_slots mml bs cap σ k → managers_of k = [m] → manager_config m' = manager_config m → req_to_blocks m' = req_to_blocks m →
  num_cached_block m' = num_cached_block m → (∀ a, pool_inv (pool_of k) a → pool_inv (pool_of k') a) →
  pool_config (pool_of k') = pool_config (pool_of k) →
  k' = set_coordinator (set_managers [m'] (pool_of k') (coordinator k)) k → kv_slots mml bs cap σ k'.
Proof.
  intros (a & m0 & Hinv & Hu & Hmb & Hml & Hen & [Hhb Hcap] & Hst & Hold) Hms Hmc Hr Hn Hp Hcfg Ek.
  pose proof Hu as (spec & H1 & H2 & H3 & H4 & H5 & H6 & H7 & H8 & H9). rewrite Hms in H4. injection H4 as <-.
  pose proof Hmc as [= E1 E2 E3 E4 E5 E6]. exists a, m'.
  assert (managers_of k' = [m']) as Hms' by by rewrite Ek.
  split_and!; try congruence.
  - unfold kv_inv. rewrite Hms'. unfold kv_inv in Hinv. rewrite Hms in Hinv.
    eapply sys_inv_log; eauto. apply Hp, Hinv.
  - exists spec. rewrite Hms'. split_and!; try congruence; rewrite Ek; done.
  - by rewrite Ek.
  - by rewrite (pool_config_caching _ _ Hcfg).
  - by rewrite (pool_config_hbs _ _ Hcfg).
  - by rewrite (pool_config_num _ _ Hcfg).
  - by rewrite Ek.
  - intros rid. specialize (Hold rid). unfold holds, blocks_of in *. by rewrite Hr, Hn.
Qed.

Lemma each_one {B} k m (f : nat → B → M MS B) acc b m' :
  managers_of k = [m] → f 0%nat acc (m, pool_of k) = (Ok b, (m', pool_of k)) →
  on_coordinator (each_manager f acc) k = (Ok b, set_coordinator (set_managers [m'] (pool_of k) (coordinator k)) k).
Proof.
  intros Hms Hf. unfold on_coordinator, zoom, each_manager. rewrite Hms. cbn [fold_managers]. unfold pool_of in *. by rewrite Hf.
Qed.

Lemma kv_slots_take_ids σ k : kv_slots mml bs cap σ k → wp kv_take_new_block_ids (λ _, kv_slots mml bs cap σ) k.
Proof.
  intros Hk. pose proof Hk as (_ & m & _ & Hu & _). pose proof Hu as (spec & _ & _ & _ & Hms & _).
  unfold wp, kv_take_new_block_ids. erewrite (each_one k m) by done.
  by apply (kv_slots_log σ k _ m (set_new_block_ids [] m)).
Qed.

Lemma kv_slots_new_step σ k : kv_slots mml bs cap σ k → wp kv_new_step_starts (λ _, kv_slots mml bs cap σ) k.
Proof.
  intros Hk. pose proof Hk as (_ & m & _ & Hu & _). pose proof Hu as (spec & _ & _ & _ & Hms & Hcl & _).
  unfold wp, kv_new_step_starts, coord_new_step_starts. rewrite (each_one k m _ tt tt m);
    [|done|unfold new_step_starts, mod_mgr, modify; cbn; by rewrite Hcl].
  by apply (kv_slots_log σ k _ m m).
Qed.

Lemma kv_slots_take_events σ k : kv_slots mml bs cap σ k → wp kv_take_events (λ _, kv_slots mml bs cap σ) k.
Proof.
  intros Hk. pose proof Hk as (_ & m & _ & Hu & _). pose proof Hu as (spec & _ & _ & _ & Hms & _).
  unfold kv_take_events, on_pool_of, on_coordinator, on_block_pool, take_events. wp_steps. change (id ?x) with x.
  destruct (enable_kv_cache_events _); wp_steps; apply (kv_slots_log σ k _ m m); try done; try (cbn; by rewrite Hms).
  intros a [Hr Hok]. split; [|done]. destruct Hr. by split.
Qed.

Lemma kv_slots_reset σ k :
  kv_slots mml bs cap σ k → wp kv_reset_prefix_cache (λ b k', kv_slots mml bs cap σ k' ∧ (σ = ∅ → b = true)) k.
Proof.
  intros (a & m & Hinv & Hu & Hmb & Hml & Hen & [Hhb Hcap] & Hst & Hold).
  eapply wp_mono; [by apply (kv_reset_wp k a)|]. intros b k' (a' & Hinv' & Hb & _ & _ & p' & st & -> & Hcfg & Hst'). split.
  - exists a', m. split_and!; try done; cbn.
    + by rewrite (pool_config_caching _ _ Hcfg).
    + by rewrite (pool_config_hbs _ _ Hcfg).
    + by rewrite (pool_config_num _ _ Hcfg).
  - intros ->. apply Hb. intros i m' rid Hm' _. pose proof Hu as (spec & _ & _ & _ & Hms & _). rewrite Hms in Hm'.
    apply list_elem_of_singleton in Hm' as ->. specialize (Hold rid). rewrite lookup_empty in Hold. destruct Hold as [-> _]. apply not_elem_of_nil.
Qed.

(** When no request holds slots, every block but the null block is free. *)
Lemma kv_slots_idle k : kv_slots mml bs cap ∅ k → get_num_free_blocks (pool_of k) = num_gpu_blocks (pool_of k) - 1.
Proof.
  intros (a & m & Hinv & Hu & _ & _ & _ & _ & _ & Hold). pose proof Hu as (spec & _ & _ & _ & Hms & _).
  rewrite (num_free_len _ a) by apply Hinv. pose proof (proj2 (idle_iff _ _ _ Hinv)) as Hidle. rewrite Hms in Hidle.
  pose proof (pr_pos _ _ (proj1 (si_pool _ _ _ Hinv))) as Hpos. unfold pool_size in Hidle. cut (Z.of_nat (Z.to_nat (num_gpu_blocks (pool_of k))) - len (a_free a) = 1); [lia|].
  apply Hidle. intros i m' rid ->%list_elem_of_singleton _. specialize (Hold rid). rewrite lookup_empty in Hold. destruct Hold as [-> _]. apply not_elem_of_nil.
Qed.

#[global] Instance kv_service : KVService mml bs cap (kv_slots mml bs cap) kv_hit.
Proof.
  split.
  - apply kv_slots_new_step.
  - intros sha256 σ k r c new look Hk Hh Hc Hn Hnew Hlook Hmax.
    pose proof (kv_slots_allocate sha256 σ k r new 0 look None Hk Hh) as Ha. cbn [default] in Ha. rewrite !Z.add_0_r in Ha.
    apply Ha; try lia. apply (kv_slots_hit_none σ k r c Hk Hc). lia.
  - apply kv_slots_lookup.
  - apply kv_slots_fit.
  - intros sha256 σ k r b n new look Hk Hh Hc Hhit Hn Hnc Hnew Hlook Hmax.
    pose proof (kv_slots_allocate sha256 σ k r new n look (Some b) Hk Hh) as Ha. rewrite Hnc, !Z.add_0_l in Ha. by apply Ha.
  - apply kv_slots_free.
  - apply kv_slots_common.
  - apply kv_slots_take_ids.
  - apply kv_slots_take_events.
  - apply kv_slots_reset.
Qed.

End service.

(** A manager built for one full-attention group without sinks starts with no
    slots in use. *)
Lemma kv_init_slots mml n tensors names spec use_eagle log ev mc ui env :
  attention_spec spec → is_full_attention spec = true → (0 < n)%nat →
  ∃ k, kv_manager_init (MkKVCacheConfig (Z.of_nat n) tensors [MkGroup names (LayerSpec spec)]) mml (block_size spec) true use_eagle log ev
         1 1 mc ui env = Ok k ∧ kv_slots mml (block_size spec) (Z.of_nat n - 1) ∅ k.
Proof.
  intros Hs Hfull Hn. unfold kv_manager_init, get_kv_cache_coordinator. cbn [kv_cache_groups num_blocks layer_specs kv_cache_spec].
  destruct (pool_init_rep n true (block_size spec) ev mc ui env Hn) as (p & -> & Hinv & Hsz & Hc & Hh).
  destruct (new_managers_run [spec] 0 true 1 1 p) as (ms & Hms & Hlen & Hall); [by constructor|apply (pr_null _ _ (proj1 Hinv))|done|done|].
  assert (∃ m, ms = [m] ∧ m_class m = FullAttentionManager ∧ m_block_size m = block_size spec ∧ m_enable_caching m = true) as (m & -> & Hm).
  { destruct spec; try done; destruct Hs; try done; cbn in Hms; injection Hms as <-; by eexists. }
  rewrite Hms. cbn [negb]. cbn [Z.ltb Z.compare]. rewrite !Z.mul_1_r, Z.eqb_refl. eexists. split; [done|].
  pose proof (sys_inv_fresh n [m] p Hinv Hall) as Hsys. apply Forall_singleton in Hall as (_ & He1 & He2).
  exists (fresh_apool n), m. destruct Hm as (Hm1 & Hm2 & Hm3). split_and!; try done.
  - exists spec. cbn. split_and!; try done. apply Hs.
  - pose proof (pr_pos _ _ (proj1 Hinv)). unfold pool_size in Hsz. cbn. lia.
  - cbn. intros ->. by eexists.
  - intros rid. rewrite lookup_empty. unfold holds, blocks_of. by rewrite He1, He2, lookup_empty.
Qed.
