(* ===== verification/SchedUtils.v ===== *)
(** * Stop conditions (vllm/v1/core/sched/utils.py)

    Repetition detection, [remove_all] and [check_stop], with declarative
    specifications: a repetition is a suffix made of equal copies of a
    pattern, and [check_stop] is the decision list of the stop conditions. *)

From S2P Require Import Prelude RequestModel.

(** ** Repetition detection *)

(** [token_ids[i]] *)
Definition index_res {A} (l : list A) (i : Z) : res A :=
  match py_get l i with Some a => Ok a | None => Raise IndexError end.

(** The inner loop of [_has_repeating_pattern] over [m]. *)
Fixpoint repeats_at (token_ids : list Z) (pattern_len n target_token : Z) (ms : list Z) : res bool :=
  match ms with
  | [] => Ok true
  | m :: ms =>
      match index_res token_ids (- (pattern_len * m + n)) with
      | Raise e => Raise e
      | Ok t => if negb (t =? target_token) then Ok false else repeats_at token_ids pattern_len n target_token ms
      end
  end.
(** The outer loop over [n]. *)
Fixpoint repeats_loop (token_ids : list Z) (pattern_len repetition_min_count : Z) (ns : list Z) : res bool :=
  match ns with
  | [] => Ok true
  | n :: ns =>
      match index_res token_ids (- n) with
      | Raise e => Raise e
      | Ok target_token =>
          match repeats_at token_ids pattern_len n target_token (py_range 1 repetition_min_count) with
          | Raise e => Raise e
          | Ok false => Ok false
          | Ok true => repeats_loop token_ids pattern_len repetition_min_count ns
          end
      end
  end.

(** [_has_repeating_pattern] *)
Definition has_repeating_pattern (token_ids : list Z) (pattern_len repetition_min_count : Z) : res bool :=
  repeats_loop token_ids pattern_len repetition_min_count (py_range 1 (pattern_len + 1)).

Fixpoint repetition_loop (token_ids : list Z) (min_count : Z) (lens : list Z) : res bool :=
  match lens with
  | [] => Ok false
  | pattern_len :: lens =>
      if len token_ids <? pattern_len * min_count then Ok false
      else match has_repeating_pattern token_ids pattern_len min_count with
           | Raise e => Raise e
           | Ok true => Ok true
           | Ok false => repetition_loop token_ids min_count lens
           end
  end.

(** [check_sequence_repetition] *)
Definition check_sequence_repetition (token_ids : list Z) (params : RepetitionDetectionParams) : res bool :=
  let min_size := if min_pattern_size params <=? 0 then 1 else min_pattern_size params in
  if (max_pattern_size params <=? 0) || (min_count params <? 2) || (max_pattern_size params <? min_size) then Ok false
  else repetition_loop token_ids (min_count params) (py_range min_size (max_pattern_size params + 1)).

(** ** remove_all *)

(** [lst.remove(item)] with [ValueError] suppressed: the first occurrence. *)
Fixpoint remove_first {A} `{EqDecision A} (item : A) (lst : list A) : list A :=
  match lst with
  | [] => []
  | x :: lst => if decide (x = item) then lst else x :: remove_first item lst
  end.

(** [remove_all]: the list returned and what the argument object holds
    afterwards; a single item is removed in place. *)
Definition remove_all {A} `{EqDecision A} (lst items_to_remove : list A) : list A * list A :=
  match items_to_remove with
  | [] => (lst, lst)
  | [item] => let lst' := remove_first item lst in (lst', lst')
  | _ => (filter (λ x, x ∉ items_to_remove) lst, lst)
  end.

(** ** check_stop *)

Definition finish (st : RequestStatus) (reason : option StopReason) : M Request bool :=
  modify (set_status st) ;;;
  (match reason with None => ret tt | Some s => modify (set_stop_reason (Some s)) end) ;;;
  ret true.

Definition check_stop (max_model_len : Z) : M Request bool :=
  let! r := gets id in
  match pooling_params r, sampling_params r with
  | Some _, _ => raise AssertionError
  | None, None => raise AssertionError
  | None, Some sp =>
      if num_output_tokens r <? min_tokens sp then ret false
      else
        let! last_token_id := py_index (output_token_ids r) (-1) in
        if bool_decide (eos_token_id sp = Some last_token_id) then finish FINISHED_STOPPED None
        else if bool_decide (last_token_id ∈ stop_token_ids sp) then
          finish FINISHED_STOPPED (Some (StopToken last_token_id))
        else if (max_model_len <=? num_tokens r) || (max_tokens r <=? num_output_tokens r) then
          finish FINISHED_LENGTH_CAPPED None
        else
          match repetition_detection sp with
          | None => ret false
          | Some params =>
              match check_sequence_repetition (output_token_ids r) params with
              | Raise e => raise e
              | Ok true => finish FINISHED_REPETITION (Some (StopString "repetition_detected"))
              | Ok false => ret false
              end
          end
  end.

(** ** Repetition: specification *)

(** The last [k * length pat] tokens are [k] copies of [pat]. *)
Definition ends_with_copies (toks pat : list Z) (k : nat) : Prop := ∃ pre, toks = pre ++ concat (replicate k pat).

Lemma concat_replicate_len {A} (pat : list A) k : length (concat (replicate k pat)) = (k * length pat)%nat.
Proof. induction k as [|k IH]; [done|]. cbn. rewrite length_app, IH. lia. Qed.

Lemma concat_replicate_lookup {A} (pat : list A) k i :
  (0 < length pat)%nat → (i < k * length pat)%nat → concat (replicate k pat) !! i = pat !! (i mod length pat)%nat.
Proof.
  intros Hp. revert i. induction k as [|k IH]; intros i Hi; [lia|]. cbn.
  destruct (decide (i < length pat)%nat) as [Hlt|Hge].
  - by rewrite lookup_app_l, Nat.mod_small by done.
  - rewrite lookup_app_r, IH by lia. f_equal.
    replace i with (i - length pat + 1 * length pat)%nat at 2 by lia. by rewrite Nat.Div0.mod_add.
Qed.

(** Indexing from the end. *)
Lemma index_from_end {A} (l : list A) j :
  1 ≤ j ≤ len l → ∃ a, index_res l (- j) = Ok a ∧ l !! (length l - Z.to_nat j)%nat = Some a.
Proof.
  intros Hj. unfold index_res, py_get. destruct (Z.ltb_spec (- j) 0); [|lia].
  destruct (Z.ltb_spec (- j + len l) 0); [lia|].
  replace (Z.to_nat (- j + len l)) with (length l - Z.to_nat j)%nat by (unfold len; lia).
  destruct (lookup_lt_is_Some_2 l (length l - Z.to_nat j)) as [a Ha]; [unfold len in Hj; lia|].
  rewrite Ha. eauto.
Qed.

Section pattern.
Context (toks : list Z) (L k : nat).
Context (HL : (1 ≤ L)%nat) (Hk : (1 ≤ k)%nat) (Hlen : (k * L ≤ length toks)%nat).

(** The comparison the loops make, by distance from the end. *)
Definition same_at (n m : Z) : Prop :=
  toks !! (length toks - Z.to_nat (Z.of_nat L * m + n))%nat = toks !! (length toks - Z.to_nat n)%nat.

Lemma repeats_at_spec n a ms :
  1 ≤ n ≤ Z.of_nat L → toks !! (length toks - Z.to_nat n)%nat = Some a → Forall (λ m, 1 ≤ m < Z.of_nat k) ms →
  ∃ b, repeats_at toks (Z.of_nat L) n a ms = Ok b ∧ (b = true ↔ Forall (same_at n) ms).
Proof.
  intros Hn Ha. induction ms as [|m ms IH]; intros Hms; cbn;
    [exists true; split; [done|]; split; [intros _; apply Forall_nil_2|done]|].
  apply Forall_cons in Hms as [Hm Hms]. destruct (index_from_end toks (Z.of_nat L * m + n)) as (t & -> & Ht); [unfold len; nia|].
  assert (same_at n m ↔ t = a) as Hiff. { unfold same_at. rewrite Ht, Ha. split; congruence. }
  destruct (Z.eqb_spec t a) as [->|Hne]; cbn [negb].
  - destruct (IH Hms) as (b & -> & Hb). exists b. split; [done|]. rewrite Forall_cons, Hb. tauto.
  - exists false. split; [done|]. rewrite Forall_cons. naive_solver.
Qed.

Lemma repeats_loop_spec ns :
  Forall (λ n, 1 ≤ n ≤ Z.of_nat L) ns →
  ∃ b, repeats_loop toks (Z.of_nat L) (Z.of_nat k) ns = Ok b ∧
    (b = true ↔ Forall (λ n, ∀ m, 1 ≤ m < Z.of_nat k → same_at n m) ns).
Proof.
  induction ns as [|n ns IH]; intros Hns; cbn;
    [exists true; split; [done|]; split; [intros _; apply Forall_nil_2|done]|]. apply Forall_cons in Hns as [Hn Hns].
  destruct (index_from_end toks n) as (a & -> & Ha); [unfold len; nia|].
  assert (∀ m, m ∈ py_range 1 (Z.of_nat k) ↔ 1 ≤ m < Z.of_nat k) as Hr.
  { intros m. unfold py_range. rewrite elem_of_seqZ. lia. }
  destruct (repeats_at_spec n a (py_range 1 (Z.of_nat k)) Hn Ha) as (b & -> & Hb).
  { apply Forall_forall. intros m Hm%Hr. done. }
  rewrite Forall_forall in Hb. destruct (IH Hns) as (b' & Hrun & Hb'). destruct b.
  - exists b'. split; [done|]. rewrite Forall_cons, Hb'. split; [|tauto]. intros H. split; [|done].
    intros m Hm%Hr. by apply Hb.
  - exists false. split; [done|]. rewrite Forall_cons. split; [done|]. intros [H _]. apply Hb. intros m Hm%Hr. by apply H.
Qed.

Lemma copies_iff :
  (∀ n m, 1 ≤ n ≤ Z.of_nat L → 1 ≤ m < Z.of_nat k → same_at n m) ↔
  ∃ pat, length pat = L ∧ ends_with_copies toks pat k.
Proof.
  split.
  - intros Hs. exists (drop (length toks - L) toks).
    assert (length (drop (length toks - L) toks) = L) as Hpl by (rewrite length_drop; nia).
    split; [done|]. exists (take (length toks - k * L) toks).
    rewrite <-(take_drop (length toks - k * L) toks) at 1. f_equal. apply list_eq. intros i.
    destruct (decide (i < k * L)%nat) as [Hi|Hi].
    2:{ rewrite !lookup_ge_None_2; [done|rewrite concat_replicate_len; lia|rewrite length_drop; lia]. }
    rewrite concat_replicate_lookup by (rewrite Hpl; lia). rewrite Hpl, !lookup_drop.
    pose proof (Nat.Div0.div_mod i L) as Hdm. pose proof (Nat.mod_upper_bound i L ltac:(lia)) as Hmod.
    set (q := (i / L)%nat) in *. set (rr := (i mod L)%nat) in *.
    assert (q < k)%nat as Hq by nia.
    destruct (decide (q = (k - 1)%nat)) as [->|Hne]; [f_equal; nia|].
    specialize (Hs (Z.of_nat (L - rr)) (Z.of_nat (k - 1 - q)) ltac:(lia) ltac:(lia)). unfold same_at in Hs.
    replace (length toks - k * L + i)%nat with (length toks - Z.to_nat (Z.of_nat L * Z.of_nat (k - 1 - q) + Z.of_nat (L - rr)))%nat by nia.
    rewrite Hs. f_equal. nia.
  - intros (pat & Hpl & pre & Heq) n m Hn Hm. unfold same_at. rewrite Heq, length_app, concat_replicate_len, Hpl.
    assert (Z.of_nat L * m + n ≤ Z.of_nat (k * L)) as Hb by nia.
    assert (Z.of_nat L * m + Z.of_nat L ≤ Z.of_nat (k * L)) as Hb2 by nia.
    rewrite !lookup_app_r by nia. rewrite !concat_replicate_lookup by (rewrite Hpl; nia). rewrite Hpl. f_equal.
    replace (length pre + k * L - Z.to_nat (Z.of_nat L * m + n) - length pre)%nat
      with ((L - Z.to_nat n) + (k - 1 - Z.to_nat m) * L)%nat by nia.
    replace (length pre + k * L - Z.to_nat n - length pre)%nat with ((L - Z.to_nat n) + (k - 1) * L)%nat by nia.
    by rewrite !Nat.Div0.mod_add.
Qed.

Lemma has_repeating_pattern_spec :
  ∃ b, has_repeating_pattern toks (Z.of_nat L) (Z.of_nat k) = Ok b ∧
    (b = true ↔ ∃ pat, length pat = L ∧ ends_with_copies toks pat k).
Proof.
  unfold has_repeating_pattern.
  assert (∀ n, n ∈ py_range 1 (Z.of_nat L + 1) ↔ 1 ≤ n ≤ Z.of_nat L) as Hr.
  { intros n. unfold py_range. rewrite elem_of_seqZ. lia. }
  destruct (repeats_loop_spec (py_range 1 (Z.of_nat L + 1))) as (b & -> & Hb).
  { apply Forall_forall. intros n Hn%Hr. done. }
  exists b. split; [done|]. rewrite Hb, <-copies_iff, Forall_forall. split.
  - intros H n m Hn%Hr Hm. by apply H.
  - intros H n Hn%Hr m Hm. by apply H.
Qed.

End pattern.

(** The sizes [check_sequence_repetition] looks for. *)
Definition pattern_sizes (params : RepetitionDetectionParams) (L : nat) : Prop :=
  Z.max 1 (min_pattern_size params) ≤ Z.of_nat L ≤ max_pattern_size params ∧ 2 ≤ min_count params.

Lemma repetition_loop_spec toks (k : nat) lo hi :
  (1 ≤ k)%nat → 1 ≤ lo →
  ∃ b, repetition_loop toks (Z.of_nat k) (py_range lo (hi + 1)) = Ok b ∧
    (b = true ↔ ∃ L pat, lo ≤ Z.of_nat L ≤ hi ∧ length pat = L ∧ ends_with_copies toks pat k).
Proof.
  intros Hk. remember (Z.to_nat (hi + 1 - lo)) as n eqn:En. revert lo En. induction n as [|n IH]; intros lo En Hlo.
  { assert (py_range lo (hi + 1) = []) as -> by (unfold py_range, seqZ; by replace (Z.to_nat (hi + 1 - lo)) with 0%nat by lia).
    exists false. split; [done|]. split; [done|]. intros (L & pat & ? & _). lia. }
  assert (py_range lo (hi + 1) = lo :: py_range (lo + 1) (hi + 1)) as ->.
  { unfold py_range. rewrite seqZ_cons by lia. f_equal. f_equal; lia. }
  cbn [repetition_loop]. destruct (Z.ltb_spec (len toks) (lo * Z.of_nat k)) as [Hlt|Hge].
  { exists false. split; [done|]. split; [done|]. intros (L & pat & HL & Hpl & pre & ->).
    unfold len in Hlt. rewrite length_app, concat_replicate_len, Hpl in Hlt. nia. }
  destruct (has_repeating_pattern_spec toks (Z.to_nat lo) k) as (b & Hrun & Hb); [lia|lia|unfold len in Hge; nia|].
  rewrite Z2Nat.id in Hrun by lia. rewrite Hrun. destruct b.
  { exists true. split; [done|]. split; [|done]. intros _. destruct (proj1 Hb eq_refl) as (pat & Hpl & Hc).
    exists (Z.to_nat lo), pat. split_and!; auto; lia. }
  destruct (IH (lo + 1)) as (b & -> & Hb'); [lia|lia|]. exists b. split; [done|]. rewrite Hb'. split.
  - intros (L & pat & HL & ?). exists L, pat. split; [lia|done].
  - intros (L & pat & HL & Hpl & Hc). exists L, pat. split_and!; auto; try lia.
    destruct (decide (Z.of_nat L = lo)) as [He|He]; [|lia].
    assert (false = true) as Hf by (apply Hb; exists pat; split; [lia|done]). done.
Qed.

Lemma repetition_spec toks params :
  ∃ b, check_sequence_repetition toks params = Ok b ∧
    (b = true ↔ ∃ L pat, pattern_sizes params L ∧ length pat = L ∧
       ends_with_copies toks pat (Z.to_nat (min_count params))).
Proof.
  unfold check_sequence_repetition, pattern_sizes. set (lo := if _ <=? 0 then 1 else _).
  assert (lo = Z.max 1 (min_pattern_size params)) as Elo by (unfold lo; destruct (Z.leb_spec (min_pattern_size params) 0); lia).
  rewrite <-Elo. destruct ((max_pattern_size params <=? 0) || (min_count params <? 2) || (max_pattern_size params <? lo)) eqn:E.
  { exists false. split; [done|]. split; [done|]. intros (L & pat & HL & _). rewrite !orb_true_iff in E. lia. }
  rewrite !orb_false_iff in E. destruct E as [[E1 E2] E3].
  destruct (repetition_loop_spec toks (Z.to_nat (min_count params)) lo (max_pattern_size params)) as (b & Hrun & Hb); [lia|lia|].
  rewrite Z2Nat.id in Hrun by lia. exists b. split; [done|]. rewrite Hb. split.
  - intros (L & pat & HL & ?). exists L, pat. split_and!; try tauto; lia.
  - intros (L & pat & [HL _] & ?). by exists L, pat.
Qed.

(** Repetition detection is exact: [check_sequence_repetition] never
    indexes out of range and answers yes exactly when the tokens end with
    [min_count] copies of some pattern whose length is in the configured range
    (the early [return False] when a pattern no longer fits loses nothing). *)
Theorem repetition_exact toks params :
  ∃ b, check_sequence_repetition toks params = Ok b ∧
    (b = true ↔ ∃ pat, pattern_sizes params (length pat) ∧
       ends_with_copies toks pat (Z.to_nat (min_count params))).
Proof.
  destruct (repetition_spec toks params) as (b & Hrun & Hb). exists b. split; [done|]. rewrite Hb. split.
  - intros (L & pat & ? & <- & ?). by exists pat.
  - intros (pat & ? & ?). by exists (length pat), pat.
Qed.

(** ** remove_all: specification *)

Lemma remove_first_filter {A} `{EqDecision A} (x : A) l : NoDup l → remove_first x l = filter (λ y, y ≠ x) l.
Proof.
  induction 1 as [|y l Hy Hnd IH]; [done|]. cbn [remove_first]. rewrite filter_cons. destruct (decide (y = x)) as [->|Hne].
  - rewrite decide_False by tauto. symmetry. apply filter_id. intros z Hz ->. done.
  - by rewrite decide_True, IH by done.
Qed.

(** On a list without duplicates (the scheduler's running list) both paths
    of [remove_all] return the same thing: the elements that are not in the
    set, in order; the argument itself changes only on the one-item path. *)
Theorem remove_all_filters {A} `{EqDecision A} (l items : list A) :
  NoDup l →
  (remove_all l items).1 = filter (λ x, x ∉ items) l ∧
  (remove_all l items).2 = (if decide (length items = 1%nat) then filter (λ x, x ∉ items) l else l).
Proof.
  intros Hnd. destruct items as [|x [|y items]]; cbn [remove_all fst snd length].
  - rewrite decide_False by lia. split; [|done]. symmetry. apply filter_id. intros x _. apply not_elem_of_nil.
  - rewrite decide_True by done. rewrite (remove_first_filter x l Hnd).
    assert (filter (λ y, y ≠ x) l = filter (λ y, y ∉ [x]) l) as ->; [|done].
    apply list_filter_iff. intros y. by rewrite list_elem_of_singleton.
  - by rewrite decide_False by lia.
Qed.

Lemma remove_all_filters_witness : (remove_all [3; 1; 2] [1]).1 = [3; 2].
Proof.
  rewrite (proj1 (remove_all_filters [3; 1; 2] [1] ltac:(apply (bool_decide_unpack _); vm_compute; exact I))).
  reflexivity.
Defined.

(** ** check_stop: specification *)

(** The stop conditions in their order of precedence, with the status and
    stop reason each one sets. *)
Inductive stop_outcome (r : Request) (sp : SamplingParams) (max_model_len t : Z) : option (RequestStatus * option StopReason) → Prop :=
  | stop_eos : eos_token_id sp = Some t → stop_outcome r sp max_model_len t (Some (FINISHED_STOPPED, None))
  | stop_token : eos_token_id sp ≠ Some t → t ∈ stop_token_ids sp →
      stop_outcome r sp max_model_len t (Some (FINISHED_STOPPED, Some (StopToken t)))
  | stop_length : eos_token_id sp ≠ Some t → t ∉ stop_token_ids sp →
      max_model_len ≤ num_tokens r ∨ max_tokens r ≤ num_output_tokens r →
      stop_outcome r sp max_model_len t (Some (FINISHED_LENGTH_CAPPED, None))
  | stop_repetition params pat : eos_token_id sp ≠ Some t → t ∉ stop_token_ids sp →
      num_tokens r < max_model_len → num_output_tokens r < max_tokens r →
      repetition_detection sp = Some params → pattern_sizes params (length pat) →
      ends_with_copies (output_token_ids r) pat (Z.to_nat (min_count params)) →
      stop_outcome r sp max_model_len t (Some (FINISHED_REPETITION, Some (StopString "repetition_detected")))
  | stop_none : eos_token_id sp ≠ Some t → t ∉ stop_token_ids sp →
      num_tokens r < max_model_len → num_output_tokens r < max_tokens r →
      (∀ params pat, repetition_detection sp = Some params → pattern_sizes params (length pat) →
         ¬ ends_with_copies (output_token_ids r) pat (Z.to_nat (min_count params))) →
      stop_outcome r sp max_model_len t None.

Definition finish_with (o : RequestStatus * option StopReason) (r : Request) : Request :=
  match o.2 with
  | None => set_status o.1 r
  | Some s => set_stop_reason (Some s) (set_status o.1 r)
  end.

Lemma finish_run st reason r : finish st reason r = (Ok true, finish_with (st, reason) r).
Proof. by destruct reason. Qed.

Lemma check_stop_run r sp max_model_len ts t :
  pooling_params r = None → sampling_params r = Some sp → min_tokens sp ≤ num_output_tokens r →
  output_token_ids r = ts ++ [t] →
  ∃ o, stop_outcome r sp max_model_len t o ∧
    check_stop max_model_len r =
      match o with Some f => (Ok true, finish_with f r) | None => (Ok false, r) end.
Proof.
  intros Hp Hs Hmin Ht. unfold check_stop. erewrite bind_ok by reflexivity. unfold id. rewrite Hp, Hs.
  destruct (Z.ltb_spec (num_output_tokens r) (min_tokens sp)); [lia|].
  erewrite bind_ok; [|unfold py_index; rewrite py_get_last, Ht, last_snoc; reflexivity].
  case_bool_decide as Heos; [rewrite finish_run; eexists; split; [by constructor|done]|].
  case_bool_decide as Hst; [rewrite finish_run; eexists; split; [by constructor|done]|].
  destruct ((max_model_len <=? num_tokens r) || (max_tokens r <=? num_output_tokens r)) eqn:El.
  { rewrite finish_run. eexists. split; [apply stop_length; auto; rewrite orb_true_iff in El; lia|done]. }
  rewrite orb_false_iff in El. destruct (repetition_detection sp) as [params|] eqn:Er.
  - destruct (repetition_spec (output_token_ids r) params) as (b & -> & Hb). destruct b.
    + destruct (proj1 Hb eq_refl) as (L & pat & H1 & <- & H2). rewrite finish_run. eexists.
      split; [apply (stop_repetition _ _ _ _ params pat); auto; lia|done].
    + exists None. split; [|done]. apply stop_none; auto; try lia. intros params' pat Hpar Hps Hc.
      rewrite Er in Hpar. injection Hpar as <-. assert (false = true) by (apply Hb; by exists (length pat), pat). done.
  - exists None. split; [|done]. apply stop_none; auto; try lia. intros params pat Hpar. congruence.
Qed.

(** Fewer than [min_tokens] tokens: the early return. *)
Lemma check_stop_early r sp max_model_len :
  pooling_params r = None → sampling_params r = Some sp → num_output_tokens r < min_tokens sp →
  check_stop max_model_len r = (Ok false, r).
Proof.
  intros Hp Hs Hmin. unfold check_stop. erewrite bind_ok by reflexivity. unfold id. rewrite Hp, Hs.
  destruct (Z.ltb_spec (num_output_tokens r) (min_tokens sp)); [done|lia].
Qed.

(** The two assertions. *)
Lemma check_stop_asserts r max_model_len :
  is_Some (pooling_params r) ∨ sampling_params r = None →
  check_stop max_model_len r = (Raise AssertionError, r).
Proof.
  intros H. unfold check_stop. erewrite bind_ok by reflexivity. unfold id.
  destruct H as [[p Hp]|Hs]; [by rewrite Hp|]. rewrite Hs. by destruct (pooling_params r).
Qed.

Lemma check_stop_no_output r sp max_model_len :
  pooling_params r = None → sampling_params r = Some sp → min_tokens sp ≤ num_output_tokens r →
  last (output_token_ids r) = None →
  check_stop max_model_len r = (Raise IndexError, r).
Proof.
  intros Hp Hs Hmin Hl. unfold check_stop. erewrite bind_ok by reflexivity. unfold id. rewrite Hp, Hs.
  destruct (Z.ltb_spec (num_output_tokens r) (min_tokens sp)); [lia|].
  unfold py_index. by rewrite py_get_last, Hl.
Qed.

(** C38.  [check_stop] on every request and every branch.  A pooling request,
    or one without sampling parameters, fails the assertion.  While fewer than
    [min_tokens] tokens are produced the answer is [False] and nothing changes,
    whatever the other conditions say.  After that, a request without output
    tokens raises [IndexError]; otherwise the call returns, and its answer, the
    status and the stop reason are those of the first stop condition that holds:
    end of sequence, stop token, length, repetition; if none holds it returns
    [False] and leaves the request alone. *)
Theorem check_stop_exact (r : Request) (max_model_len : Z) :
  match pooling_params r, sampling_params r with
  | None, Some sp =>
      if decide (num_output_tokens r < min_tokens sp) then check_stop max_model_len r = (Ok false, r)
      else
        match last (output_token_ids r) with
        | None => check_stop max_model_len r = (Raise IndexError, r)
        | Some t => ∃ o, stop_outcome r sp max_model_len t o ∧
            check_stop max_model_len r =
              match o with Some f => (Ok true, finish_with f r) | None => (Ok false, r) end
        end
  | _, _ => check_stop max_model_len r = (Raise AssertionError, r)
  end.
Proof.
  destruct (pooling_params r) eqn:Hp; [by rewrite (check_stop_asserts r) by (rewrite Hp; eauto)|].
  destruct (sampling_params r) as [sp|] eqn:Hs; [|by rewrite (check_stop_asserts r) by (rewrite Hs; eauto)].
  case_decide as Hmin; [by apply (check_stop_early r sp)|].
  destruct (last (output_token_ids r)) as [t|] eqn:Hl; [|by apply (check_stop_no_output r sp); [..|lia|]].
  apply last_Some in Hl as [ts Ht]. apply (check_stop_run r sp max_model_len ts t); [done..|lia|done].
Qed.

(** A request with a prompt of two tokens and four outputs. *)
Definition generating (sp : SamplingParams) : Request :=
  set_sampling_params (Some sp) (set_all_token_ids [1; 2; 7; 8; 7; 8]
    (set_output_token_ids [7; 8; 7; 8] (text_request "r" [1; 2] None None []))).
Definition sp_repeat : SamplingParams := MkSampling (Some 16) false None 0 None [] (Some (MkRep 3 1 2)).

Example check_stop_repetition :
  check_stop 64 (generating sp_repeat) =
    (Ok true, finish_with (FINISHED_REPETITION, Some (StopString "repetition_detected")) (generating sp_repeat)).
Proof. vm_compute. reflexivity. Qed.

(** While a request has produced fewer than [min_tokens] tokens,
    [check_stop] does not stop it, not even when its total length has reached
    [max_model_len] or its output [max_tokens]: the length limits are checked
    after the early return. *)
Theorem min_tokens_overrides_length r sp max_model_len :
  pooling_params r = None → sampling_params r = Some sp → num_output_tokens r < min_tokens sp →
  check_stop max_model_len r = (Ok false, r).
Proof. apply check_stop_early. Qed.

Definition sp_min_8 : SamplingParams := MkSampling (Some 16) false None 8 None [] None.
Lemma min_tokens_overrides_length_witness :
  num_tokens (generating sp_min_8) = 6 ∧ check_stop 6 (generating sp_min_8) = (Ok false, generating sp_min_8).
Proof.
  split; [reflexivity|].
  apply (min_tokens_overrides_length (generating sp_min_8) sp_min_8 6); [reflexivity|reflexivity|vm_compute; reflexivity].
Defined.
