(* ===== verification/EncoderCache.v ===== *)
(** * Encoder caches (vllm/v1/core/encoder_cache_manager.py)

    [EncoderCacheManager] accounts for the encoder outputs of multimodal
    inputs: which hashes are cached, by which requests they are referenced, and
    which unreferenced ones may be evicted, oldest first.  Its accounting
    invariant is proved for every operation.  [EncoderDecoderCacheManager] only
    keeps a counter. *)

From S2P Require Import Prelude RequestModel.

(** ** EncoderCacheManager *)

(** [freeable] is an [OrderedDict]: an association list in insertion order. *)
Record EncoderCacheManager := MkEncoderCache {
  cache_size : Z;
  num_free_slots : Z;
  num_freeable_slots : Z;
  cached : gmap string (gset string);
  freeable : list (string * Z);
  freed : list string;
}.

(** [__init__], [reset] *)
Definition encoder_init (size : Z) : EncoderCacheManager := MkEncoderCache size size size ∅ [] [].
Definition encoder_reset : M EncoderCacheManager unit := modify (λ e, encoder_init (cache_size e)).

Definition set_slots (free_ freeable_ : Z) (e : EncoderCacheManager) : EncoderCacheManager :=
  MkEncoderCache (cache_size e) free_ freeable_ (cached e) (freeable e) (freed e).
Definition set_cached (c : gmap string (gset string)) (e : EncoderCacheManager) : EncoderCacheManager :=
  MkEncoderCache (cache_size e) (num_free_slots e) (num_freeable_slots e) c (freeable e) (freed e).
Definition set_freeable (l : list (string * Z)) (e : EncoderCacheManager) : EncoderCacheManager :=
  MkEncoderCache (cache_size e) (num_free_slots e) (num_freeable_slots e) (cached e) l (freed e).
Definition set_freed (l : list string) (e : EncoderCacheManager) : EncoderCacheManager :=
  MkEncoderCache (cache_size e) (num_free_slots e) (num_freeable_slots e) (cached e) (freeable e) l.

(** [freeable.pop(k)] and [freeable[k] = v]. *)
Fixpoint od_pop (k : string) (l : list (string * Z)) : option (Z * list (string * Z)) :=
  match l with
  | [] => None
  | (k', v) :: l =>
      if decide (k' = k) then Some (v, l)
      else '(x, l') ← od_pop k l; Some (x, (k', v) :: l')
  end.
Fixpoint od_set (k : string) (v : Z) (l : list (string * Z)) : list (string * Z) :=
  match l with
  | [] => [(k, v)]
  | (k', v') :: l => if decide (k' = k) then (k', v) :: l else (k', v') :: od_set k v l
  end.

(** [request.mm_features[input_id].identifier] and
    [request.get_num_encoder_embeds(input_id)]. *)
Definition input_hash {S} (r : Request) (input_id : nat) : M S string :=
  match mm_features r !! input_id with Some f => ret (identifier f) | None => raise IndexError end.
Definition input_embeds {S} (r : Request) (input_id : nat) : M S Z :=
  match get_num_encoder_embeds r input_id with Some n => ret n | None => raise AssertionError end.

(** [check_and_update_cache] *)
Definition check_and_update_cache (r : Request) (input_id : nat) : M EncoderCacheManager bool :=
  let! mm_hash := input_hash r input_id in
  let! e := gets id in
  match cached e !! mm_hash with
  | None => ret false
  | Some refs =>
      (if decide (refs = ∅) then
         match od_pop mm_hash (freeable e) with
         | None => raise KeyError
         | Some (num_encoder_embeds, l) =>
             modify (λ e, set_slots (num_free_slots e) (num_freeable_slots e - num_encoder_embeds) (set_freeable l e))
         end
       else ret tt) ;;;
      modify (λ e, set_cached (<[mm_hash := {[ request_id r ]} ∪ refs]> (cached e)) e) ;;;
      ret true
  end.

(** The [while num_embeds > self.num_free_slots] loop: every round removes an
    entry of [freeable], so its length bounds the rounds. *)
Fixpoint evict_loop (fuel : nat) (num_embeds : Z) : M EncoderCacheManager unit :=
  let! e := gets id in
  if num_embeds <=? num_free_slots e then ret tt
  else
    match fuel with
    | O => raise OutOfFuel
    | S fuel =>
        match freeable e with
        | [] => raise KeyError
        | (mm_hash, num_free_embeds) :: l =>
            (match cached e !! mm_hash with
             | None => modify (set_freeable l) ;;; raise KeyError
             | Some _ => ret tt
             end) ;;;
            modify (λ e, set_slots (num_free_slots e + num_free_embeds) (num_freeable_slots e)
                           (set_freed (freed e ++ [mm_hash]) (set_cached (delete mm_hash (cached e)) (set_freeable l e)))) ;;;
            evict_loop fuel num_embeds
        end
    end.

(** [can_allocate] *)
Definition can_allocate (r : Request) (input_id : nat) (encoder_compute_budget num_embeds_to_schedule : Z)
    : M EncoderCacheManager bool :=
  let! num_embeds := input_embeds r input_id in
  if encoder_compute_budget <? num_embeds then ret false
  else
    let num_embeds := num_embeds + num_embeds_to_schedule in
    let! e := gets id in
    if num_embeds <=? num_free_slots e then ret true
    else if num_freeable_slots e <? num_embeds then ret false
    else evict_loop (S (length (freeable e))) num_embeds ;;; ret true.

(** [allocate] *)
Definition allocate (r : Request) (input_id : nat) : M EncoderCacheManager unit :=
  let! mm_hash := input_hash r input_id in
  modify (λ e, match cached e !! mm_hash with
               | None => set_cached (<[mm_hash := ∅]> (cached e)) e
               | Some _ => e
               end) ;;;
  let! num_encoder_embeds := input_embeds r input_id in
  let! e := gets id in
  py_assert (num_encoder_embeds <=? num_free_slots e) ;;;
  py_assert (num_encoder_embeds <=? num_freeable_slots e) ;;;
  modify (λ e, set_slots (num_free_slots e - num_encoder_embeds) (num_freeable_slots e - num_encoder_embeds)
                 (set_cached (<[mm_hash := {[ request_id r ]} ∪ default ∅ (cached e !! mm_hash)]> (cached e)) e)).

(** [get_cached_input_ids]; a set of small ints iterates in ascending order. *)
Definition get_cached_input_ids (e : EncoderCacheManager) (r : Request) : list nat :=
  filter (λ i, is_Some (f ← mm_features r !! i; cached e !! identifier f)) (seq 0 (length (mm_features r))).

(** [free_encoder_input] *)
Definition free_encoder_input (r : Request) (input_id : nat) : M EncoderCacheManager unit :=
  let! mm_hash := input_hash r input_id in
  let! e := gets id in
  match cached e !! mm_hash with
  | None => ret tt
  | Some refs =>
      if decide (refs = ∅) then ret tt
      else
        let refs := refs ∖ {[ request_id r ]} in
        modify (λ e, set_cached (<[mm_hash := refs]> (cached e)) e) ;;;
        if decide (refs = ∅) then
          let! num_encoder_embeds := input_embeds r input_id in
          modify (λ e, set_slots (num_free_slots e) (num_freeable_slots e + num_encoder_embeds)
                         (set_freeable (od_set mm_hash num_encoder_embeds (freeable e)) e))
        else ret tt
  end.

(** [free] *)
Definition encoder_free (r : Request) : M EncoderCacheManager unit :=
  let! e := gets id in
  for_each (get_cached_input_ids e r) (free_encoder_input r).

(** [get_freed_mm_hashes] *)
Definition get_freed_mm_hashes : M EncoderCacheManager (list string) :=
  let! e := gets id in
  modify (set_freed []) ;;;
  ret (freed e).

(** ** compute_mm_encoder_budget *)

(** The fields of [SchedulerConfig] it reads. *)
Record EncoderBudgetConfig := MkBudgetConfig {
  disable_chunked_mm_input : bool;
  max_num_batched_tokens : Z;
  max_num_encoder_input_tokens : Z;
  encoder_cache_size : Z;
}.

(** [compute_mm_encoder_budget]; the mapping by its values. *)
Definition compute_mm_encoder_budget (c : EncoderBudgetConfig) (mm_max_toks_per_item : list Z) : res (Z * Z) :=
  match mm_max_toks_per_item with
  | [] => Ok (0, 0)
  | t :: ts =>
      let max_tokens_per_mm_item := foldl Z.max t ts in
      if disable_chunked_mm_input c && (max_num_batched_tokens c <? max_tokens_per_mm_item) then Raise ValueError
      else Ok (Z.max (max_num_encoder_input_tokens c) max_tokens_per_mm_item,
               Z.max (encoder_cache_size c) max_tokens_per_mm_item)
  end.

(** ** EncoderDecoderCacheManager *)

Record EncoderDecoderCacheManager := MkEncDec {
  ed_cache_size : Z;
  ed_num_free_slots : Z;
  allocated : list string;
  to_free : list string;
}.

Definition ed_init (size : Z) : EncoderDecoderCacheManager := MkEncDec size size [] [].
Definition ed_reset : M EncoderDecoderCacheManager unit := modify (λ e, ed_init (ed_cache_size e)).

Definition ed_can_allocate (r : Request) (input_id : nat) (encoder_compute_budget num_embeds_to_schedule : Z)
    : M EncoderDecoderCacheManager bool :=
  let! num_encoder_embeds := input_embeds r input_id in
  if encoder_compute_budget <? num_encoder_embeds then ret false
  else let! e := gets id in ret (num_encoder_embeds + num_embeds_to_schedule <=? ed_num_free_slots e).

Definition ed_allocate (r : Request) (input_id : nat) : M EncoderDecoderCacheManager unit :=
  let! num_encoder_embeds := input_embeds r input_id in
  modify (λ e, MkEncDec (ed_cache_size e) (ed_num_free_slots e - num_encoder_embeds) (allocated e) (to_free e)) ;;;
  let! mm_hash := input_hash r input_id in
  modify (λ e, MkEncDec (ed_cache_size e) (ed_num_free_slots e) (allocated e ++ [mm_hash]) (to_free e)).

Definition ed_free_encoder_input (r : Request) (input_id : nat) : M EncoderDecoderCacheManager unit :=
  let! num_encoder_embeds := input_embeds r input_id in
  modify (λ e, MkEncDec (ed_cache_size e) (ed_num_free_slots e + num_encoder_embeds) (allocated e) (to_free e)).

Definition ed_get_cached_input_ids (r : Request) : list nat := seq 0 (length (mm_features r)).

Definition ed_free (r : Request) : M EncoderDecoderCacheManager unit :=
  for_each (seq 0 (length (mm_features r))) (ed_free_encoder_input r).

Definition ed_get_freed_mm_hashes : M EncoderDecoderCacheManager (list string) :=
  let! e := gets id in
  modify (λ e, MkEncDec (ed_cache_size e) (ed_num_free_slots e) [] (allocated e)) ;;;
  ret (to_free e).

(** ** Accounting *)

(** Every hash has one size. *)
Definition sized (sz : string → Z) (r : Request) : Prop :=
  Forall (λ f, get_num_embeds (mm_position f) = sz (identifier f)) (mm_features r).

Definition total_size (sz : string → Z) (m : gmap string (gset string)) : Z := map_fold (λ h _ acc, sz h + acc) 0 m.
Definition sum_snd (l : list (string * Z)) : Z := foldr (λ kv acc, kv.2 + acc) 0 l.

Record enc_inv (sz : string → Z) (e : EncoderCacheManager) : Prop := {
  ei_nodup : NoDup (freeable e).*1;
  ei_freeable h n : (h, n) ∈ freeable e ↔ cached e !! h = Some ∅ ∧ n = sz h;
  ei_free : num_free_slots e = cache_size e - total_size sz (cached e);
  ei_reclaim : num_freeable_slots e = num_free_slots e + sum_snd (freeable e);
  ei_nonneg : 0 ≤ num_free_slots e;
}.

Lemma total_insert sz m h x : m !! h = None → total_size sz (<[h := x]> m) = sz h + total_size sz m.
Proof. intros Hm. unfold total_size. rewrite map_fold_insert_L; [done|intros; lia|done]. Qed.

Lemma total_update sz m h x y : m !! h = Some y → total_size sz (<[h := x]> m) = total_size sz m.
Proof.
  intros Hm. rewrite <-insert_delete_eq. rewrite <-(insert_delete_id m h y Hm) at 2.
  rewrite !total_insert by apply lookup_delete_eq. done.
Qed.

Lemma total_delete sz m h y : m !! h = Some y → total_size sz (delete h m) = total_size sz m - sz h.
Proof.
  intros Hm. rewrite <-(insert_delete_id m h y Hm) at 2. rewrite total_insert by apply lookup_delete_eq. lia.
Qed.

Lemma od_pop_spec k l v :
  NoDup l.*1 → (k, v) ∈ l →
  ∃ l', od_pop k l = Some (v, l') ∧ sum_snd l' = sum_snd l - v ∧ NoDup l'.*1 ∧
    ∀ h n, (h, n) ∈ l' ↔ (h, n) ∈ l ∧ h ≠ k.
Proof.
  induction l as [|[k' v'] l IH]; intros Hnd Hin; [by apply elem_of_nil in Hin|].
  rewrite fmap_cons in Hnd. cbn [fst] in Hnd. apply NoDup_cons in Hnd as [Hn Hnd]. cbn [od_pop]. destruct (decide (k' = k)) as [->|Hne].
  - assert (∀ x, (k, x) ∉ l) as Hnot by (intros x Hx; apply Hn; by apply (list_elem_of_fmap_2 fst l (k, x))).
    apply elem_of_cons in Hin as [[= ->]|Hin]; [|by apply Hnot in Hin]. exists l. split_and!; auto; [cbn; unfold sum_snd; lia|].
    intros h n. rewrite elem_of_cons. split; [|naive_solver]. intros Hl. split; [by right|]. intros ->. by apply Hnot in Hl.
  - apply elem_of_cons in Hin as [[= -> ->]|Hin]; [done|]. destruct (IH Hnd Hin) as (l' & -> & Hs & Hnd' & Hl').
    exists ((k', v') :: l'). cbn. split_and!; auto.
    + unfold sum_snd in *. lia.
    + apply NoDup_cons. split; [|done]. intros ((h & n) & -> & Hx)%list_elem_of_fmap. apply Hl' in Hx as [Hx _].
      apply Hn. by apply (list_elem_of_fmap_2 fst l (h, n)).
    + intros h n. rewrite !elem_of_cons, Hl'. naive_solver.
Qed.

Lemma od_set_new k v l : k ∉ l.*1 → od_set k v l = l ++ [(k, v)].
Proof.
  induction l as [|[k' v'] l IH]; intros Hn; [done|]. rewrite fmap_cons, not_elem_of_cons in Hn. destruct Hn as [Hne Hn].
  cbn in *. by rewrite decide_False, IH by (done || congruence).
Qed.

Lemma sum_snd_cons h v l : sum_snd ((h, v) :: l) = v + sum_snd l.
Proof. done. Qed.

Lemma sum_snd_app l l' : sum_snd (l ++ l') = sum_snd l + sum_snd l'.
Proof. induction l as [|[k v] l IH]; cbn; [done|]. unfold sum_snd in *. lia. Qed.

#[local] Arguments sum_snd : simpl never.

Lemma sized_input sz r i f :
  sized sz r → mm_features r !! i = Some f → get_num_encoder_embeds r i = Some (sz (identifier f)).
Proof. intros Hs Hf. unfold get_num_encoder_embeds. rewrite Hf. cbn. f_equal. apply (Forall_lookup_1 _ _ _ _ Hs Hf). Qed.

Section inv.
Context (sz : string → Z) (Hsz : ∀ h, 0 ≤ sz h) (r : Request) (Hr : sized sz r).

(** [check_and_update_cache]: a hit adds the request to the references. *)
Lemma check_inv e i f :
  enc_inv sz e → mm_features r !! i = Some f →
  wp (check_and_update_cache r i) (λ b e', enc_inv sz e' ∧ num_free_slots e' = num_free_slots e ∧
    (if (b : bool) then ∃ refs, cached e !! identifier f = Some refs ∧
                          cached e' = <[identifier f := {[ request_id r ]} ∪ refs]> (cached e)
     else cached e !! identifier f = None ∧ e' = e)) e.
Proof.
  intros He Hf. unfold check_and_update_cache, input_hash. rewrite Hf. wp_step. wp_step. wp_step. wp_step. unfold id.
  set (h := identifier f). destruct (cached e !! h) as [refs|] eqn:Eh; [|by wp_step].
  assert ({[ request_id r ]} ∪ refs ≠ ∅) as Hne by set_solver.
  wp_step. destruct (decide (refs = ∅)) as [->|Hrefs].
  - destruct (od_pop_spec h (freeable e) (sz h)) as (l & -> & Hsum & Hnd & Hl); [apply He|by apply He|].
    wp_step. wp_step. wp_step. wp_step. split_and!; [|done|by exists ∅]. split; cbn; try apply He; auto.
    + intros h' n. rewrite Hl, (ei_freeable _ _ He). destruct (decide (h' = h)) as [->|Hne'].
      * rewrite lookup_insert_eq. naive_solver.
      * rewrite lookup_insert_ne by done. naive_solver.
    + rewrite (total_update _ _ _ _ _ Eh). apply He.
    + rewrite (ei_reclaim _ _ He). lia.
  - wp_step. wp_step. wp_step. wp_step. split_and!; [|done|by exists refs]. split; cbn; try apply He.
    + intros h' n. rewrite (ei_freeable _ _ He). destruct (decide (h' = h)) as [->|Hne'].
      * rewrite lookup_insert_eq, Eh. naive_solver.
      * by rewrite lookup_insert_ne.
    + rewrite (total_update _ _ _ _ _ Eh). apply He.
Qed.

(** The eviction loop removes a prefix of [freeable]. *)
Lemma evict_inv fuel e n :
  enc_inv sz e → n ≤ num_free_slots e + sum_snd (freeable e) → (length (freeable e) ≤ fuel)%nat →
  wp (evict_loop fuel n) (λ _ e', enc_inv sz e' ∧ n ≤ num_free_slots e' ∧ num_freeable_slots e' = num_freeable_slots e ∧
    ∃ k, freeable e' = drop k (freeable e) ∧ freed e' = freed e ++ take k (freeable e).*1 ∧
      cached e' = foldr delete (cached e) (take k (freeable e).*1)) e.
Proof.
  revert e. induction fuel as [|fuel IH]; intros e He Hn Hf; cbn [evict_loop]; wp_step; wp_step; unfold id.
  - destruct (freeable e) as [|x l] eqn:El; [|cbn in Hf; lia].
    destruct (Z.leb_spec n (num_free_slots e)); [|change (sum_snd []) with 0 in Hn; lia]. wp_step. split_and!; auto. exists 0%nat. cbn.
    by rewrite app_nil_r, El.
  - destruct (Z.leb_spec n (num_free_slots e)) as [Hle|Hlt].
    { wp_step. split_and!; auto. exists 0%nat. cbn. by rewrite app_nil_r. }
    destruct (freeable e) as [|[h v] l] eqn:El; [change (sum_snd []) with 0 in Hn; lia|].
    assert ((h, v) ∈ freeable e) as Hin by (rewrite El; apply elem_of_cons; by left).
    apply (ei_freeable _ _ He) in Hin as [Hc ->]. pose proof (ei_nodup _ _ He) as Hnd. rewrite El in Hnd. rewrite fmap_cons in Hnd.
    cbn [fst] in Hnd. apply NoDup_cons in Hnd as [Hnh Hnd].
    wp_step. rewrite Hc. wp_step. wp_step. wp_step. rewrite sum_snd_cons in Hn. cbn in Hf.
    assert (∀ n, (h, n) ∉ l) as Hnot by (intros x Hx; apply Hnh; by apply (list_elem_of_fmap_2 fst l (h, x))).
    eapply wp_mono; [apply IH|].
    + split; cbn; auto.
      * intros h' m. split.
        -- intros Hl. assert (h' ≠ h) by (intros ->; by apply Hnot in Hl). rewrite lookup_delete_ne by done.
           apply (ei_freeable _ _ He). rewrite El. apply elem_of_cons. by right.
        -- intros [Hc' Hm]. destruct (decide (h' = h)) as [->|Hne]; [by rewrite lookup_delete_eq in Hc'|].
           rewrite lookup_delete_ne in Hc' by done. assert ((h', m) ∈ freeable e) as Hl by by apply He.
           rewrite El in Hl. apply elem_of_cons in Hl as [[= -> ->]|Hl]; done.
      * rewrite (total_delete _ _ _ _ Hc), (ei_free _ _ He). lia.
      * rewrite (ei_reclaim _ _ He), El, sum_snd_cons. lia.
      * pose proof (ei_nonneg _ _ He). pose proof (Hsz h). lia.
    + cbn. lia.
    + cbn. lia.
    + intros _ e' (H1 & H2 & H3 & k & H4 & H5 & H6). cbn in H3, H4, H5, H6. split_and!; auto. exists (S k). cbn.
      split_and!; [done|by rewrite H5, <-app_assoc|]. rewrite H6. clear.
      induction (take k l.*1) as [|x xs IHx]; [done|]. cbn. rewrite IHx. apply delete_delete.
Qed.

(** What [can_allocate] guarantees. *)
Definition can_allocate_post (e : EncoderCacheManager) (need budget : Z) (extra : Z) (b : bool) (e' : EncoderCacheManager) : Prop :=
  enc_inv sz e' ∧
  if b then need ≤ budget ∧ need + extra ≤ num_free_slots e' ∧
    ∃ k, freed e' = freed e ++ take k (freeable e).*1 ∧ cached e' = foldr delete (cached e) (take k (freeable e).*1)
  else e' = e ∧ (budget < need ∨ num_freeable_slots e < need + extra).

Lemma can_allocate_inv e i f budget extra :
  enc_inv sz e → mm_features r !! i = Some f →
  wp (can_allocate r i budget extra) (can_allocate_post e (sz (identifier f)) budget extra) e.
Proof.
  intros He Hf. unfold can_allocate, input_embeds, can_allocate_post. rewrite (sized_input sz r i f Hr Hf). wp_step. wp_step.
  destruct (Z.ltb_spec budget (sz (identifier f))) as [Hb|Hb]; [wp_step; auto|]. wp_step. wp_step. unfold id.
  destruct (Z.leb_spec (sz (identifier f) + extra) (num_free_slots e)) as [Hfit|Hfit].
  { wp_step. split; [done|]. split_and!; auto. exists 0%nat. cbn. by rewrite app_nil_r. }
  destruct (Z.ltb_spec (num_freeable_slots e) (sz (identifier f) + extra)) as [Hr'|Hr']; [wp_step; auto|].
  wp_step. eapply wp_mono; [apply (evict_inv (S (length (freeable e))) e (sz (identifier f) + extra) He); [|lia]|].
  { rewrite <-(ei_reclaim _ _ He). lia. }
  intros _ e' (H1 & H2 & _ & k & _ & H4 & H5). wp_step. split; [done|]. split_and!; auto. by exists k.
Qed.

Lemma sum_snd_nonneg e : enc_inv sz e → 0 ≤ sum_snd (freeable e).
Proof.
  intros He. assert (∀ h n, (h, n) ∈ freeable e → 0 ≤ n) as Hl by (intros h n [_ ->]%(ei_freeable _ _ He); apply Hsz).
  revert Hl. generalize (freeable e). induction l as [|[h n] l IH]; intros Hl; [done|]. rewrite sum_snd_cons.
  assert (0 ≤ n) by (apply (Hl h), elem_of_cons; by left). assert (0 ≤ sum_snd l); [|lia].
  apply IH. intros h' n' Hin. apply (Hl h'), elem_of_cons. by right.
Qed.

(** [allocate] of an input that is not cached and fits. *)
Lemma allocate_inv e i f :
  enc_inv sz e → mm_features r !! i = Some f → cached e !! identifier f = None → sz (identifier f) ≤ num_free_slots e →
  wp (allocate r i) (λ _ e', enc_inv sz e' ∧ num_free_slots e' = num_free_slots e - sz (identifier f) ∧
    cached e' = <[identifier f := {[ request_id r ]}]> (cached e)) e.
Proof.
  intros He Hf Hn Hfit. pose proof (sum_snd_nonneg e He) as Hpos. pose proof (ei_reclaim _ _ He) as Hrec.
  unfold allocate, input_hash, input_embeds. rewrite Hf, (sized_input sz r i f Hr Hf). set (h := identifier f) in *.
  wp_step. wp_step. wp_step. wp_step. rewrite Hn. wp_step. wp_step. wp_step. wp_step. unfold id. cbn [num_free_slots num_freeable_slots set_cached].
  wp_step. apply wp_assert; [lia|]. wp_step. apply wp_assert; [lia|]. wp_step. cbn.
  rewrite lookup_insert_eq, insert_insert_eq. cbn. rewrite (right_id_L ∅ (∪)). split_and!; auto. split; cbn; try apply He.
  - intros h' n. rewrite (ei_freeable _ _ He). destruct (decide (h' = h)) as [->|Hne].
    + rewrite lookup_insert_eq, Hn. split; [naive_solver|]. intros [[= Hx] _].
    + by rewrite lookup_insert_ne.
  - rewrite total_insert, (ei_free _ _ He) by done. lia.
  - lia.
  - lia.
Qed.

(** [free_encoder_input] drops the request's reference. *)
Lemma free_input_inv e i f :
  enc_inv sz e → mm_features r !! i = Some f →
  wp (free_encoder_input r i) (λ _ e', enc_inv sz e' ∧ num_free_slots e' = num_free_slots e ∧ dom (cached e') = dom (cached e) ∧
    (∀ refs, cached e' !! identifier f = Some refs → request_id r ∉ refs) ∧
    (∀ h refs', cached e' !! h = Some refs' → ∃ refs, cached e !! h = Some refs ∧ refs' ⊆ refs ∧ refs ∖ {[ request_id r ]} ⊆ refs')) e.
Proof.
  intros He Hf. unfold free_encoder_input, input_hash. rewrite Hf. wp_step. wp_step. wp_step. wp_step. unfold id. set (h := identifier f).
  destruct (cached e !! h) as [refs|] eqn:Eh.
  2:{ wp_step. split_and!; auto; [naive_solver|]. intros h' refs' ?. exists refs'. split; [done|]. set_solver. }
  destruct (decide (refs = ∅)) as [->|Hrefs].
  { wp_step. split_and!; auto; [set_solver|]. intros h' refs' ?. exists refs'. split; [done|]. set_solver. }
  assert (∀ n, (h, n) ∉ freeable e) as Hnot by (intros n [Hc _]%(ei_freeable _ _ He); congruence).
  assert (h ∉ (freeable e).*1) as Hnot' by (intros ((h' & n) & -> & Hx)%list_elem_of_fmap; by apply Hnot in Hx).
  set (refs' := refs ∖ {[ request_id r ]}). set (c' := <[h := refs']> (cached e)).
  assert (dom c' = dom (cached e)) as Hdom by (unfold c'; rewrite dom_insert_L; apply (elem_of_dom_2 (cached e)) in Eh; set_solver).
  assert (∀ x, c' !! h = Some x → request_id r ∉ x) as Hgone by (unfold c'; rewrite lookup_insert_eq; intros x [= <-]; set_solver).
  assert (∀ h' x, c' !! h' = Some x → ∃ y, cached e !! h' = Some y ∧ x ⊆ y ∧ y ∖ {[ request_id r ]} ⊆ x) as Hsub.
  { intros h' x. unfold c'. destruct (decide (h' = h)) as [->|Hne].
    - rewrite lookup_insert_eq. intros [= <-]. exists refs. set_solver.
    - rewrite lookup_insert_ne by done. intros Hx. exists x. set_solver. }
  wp_step. wp_step. destruct (decide (refs' = ∅)) as [E0|Hne].
  - wp_step. unfold input_embeds. rewrite (sized_input sz r i f Hr Hf). wp_step. wp_step. fold h. cbn.
    rewrite (od_set_new h _ _ Hnot'). split_and!; auto. split; cbn.
    + rewrite fmap_app. apply NoDup_app. split_and!; [apply He| |apply NoDup_singleton].
      intros x Hx Hin. apply list_elem_of_singleton in Hin as ->. done.
    + intros h' n. rewrite elem_of_app, list_elem_of_singleton, (ei_freeable _ _ He). destruct (decide (h' = h)) as [->|Hne].
      * unfold c'. rewrite lookup_insert_eq, E0, Eh. naive_solver.
      * unfold c'. rewrite lookup_insert_ne by done. naive_solver.
    + unfold c'. rewrite (total_update _ _ _ _ _ Eh). apply He.
    + rewrite sum_snd_app, sum_snd_cons, (ei_reclaim _ _ He). change (sum_snd []) with 0. lia.
    + apply He.
  - wp_step. split_and!; auto. split; cbn; try apply He.
    + intros h' n. rewrite (ei_freeable _ _ He). destruct (decide (h' = h)) as [->|Hne'].
      * unfold c'. rewrite lookup_insert_eq, Eh. naive_solver.
      * unfold c'. by rewrite lookup_insert_ne.
    + unfold c'. rewrite (total_update _ _ _ _ _ Eh). apply He.
Qed.

End inv.

(** [free] drops every reference of the request. *)
Lemma encoder_free_inv sz r e :
  (∀ h, 0 ≤ sz h) → sized sz r → enc_inv sz e → wp (encoder_free r) (λ _ e', enc_inv sz e') e.
Proof.
  intros Hsz Hr He. unfold encoder_free. wp_step. wp_step. unfold id.
  eapply (wp_for_each (λ _ e', enc_inv sz e')); [done|]. intros pre i post e1 Hl He1.
  assert (i ∈ get_cached_input_ids e r) as Hi by (rewrite Hl; apply elem_of_app; right; apply elem_of_cons; by left).
  apply list_elem_of_filter in Hi as [_ Hi%elem_of_seq]. destruct (lookup_lt_is_Some_2 (mm_features r) i) as [f Hf]; [lia|].
  eapply wp_mono; [by apply (free_input_inv sz)|]. by intros _ e2 (H1 & _).
Qed.

Lemma total_nonneg sz m : (∀ h, 0 ≤ sz h) → 0 ≤ total_size sz m.
Proof.
  intros Hsz. induction m as [|h x m Hm IH] using map_ind; [done|]. rewrite total_insert by done. pose proof (Hsz h). lia.
Qed.

(** One call of the scheduler; an input is allocated when it is not cached and
    fits, which [check_and_update_cache] and [can_allocate] establish. *)
Inductive enc_step (sz : string → Z) (e e' : EncoderCacheManager) : Prop :=
  | es_check r i b : sized sz r → (i < length (mm_features r))%nat → check_and_update_cache r i e = (Ok b, e') → enc_step sz e e'
  | es_can r i budget extra b : sized sz r → (i < length (mm_features r))%nat →
      can_allocate r i budget extra e = (Ok b, e') → enc_step sz e e'
  | es_allocate r i f : sized sz r → mm_features r !! i = Some f → cached e !! identifier f = None →
      sz (identifier f) ≤ num_free_slots e → allocate r i e = (Ok tt, e') → enc_step sz e e'
  | es_free_input r i : sized sz r → (i < length (mm_features r))%nat → free_encoder_input r i e = (Ok tt, e') → enc_step sz e e'
  | es_free r : sized sz r → encoder_free r e = (Ok tt, e') → enc_step sz e e'
  | es_reset : encoder_reset e = (Ok tt, e') → enc_step sz e e'
  | es_take l : get_freed_mm_hashes e = (Ok l, e') → enc_step sz e e'.

Lemma init_inv sz size : 0 ≤ size → enc_inv sz (encoder_init size).
Proof.
  intros Hs. split; cbn; auto; [apply NoDup_nil_2| |unfold total_size; rewrite map_fold_empty; lia|unfold sum_snd; cbn; lia].
  intros h n. rewrite lookup_empty. split; [intros Hin; by apply elem_of_nil in Hin|naive_solver].
Qed.

(** Every step keeps the accounting. *)
Lemma enc_step_inv sz e e' : (∀ h, 0 ≤ sz h) → enc_inv sz e → enc_step sz e e' → enc_inv sz e'.
Proof.
  intros Hsz He [r i b Hr Hi Hrun|r i bu ex b Hr Hi Hrun|r i f Hr Hf Hc Hfit Hrun|r i Hr Hi Hrun|r Hr Hrun|Hrun|l Hrun].
  - destruct (lookup_lt_is_Some_2 _ _ Hi) as [f Hf].
    assert (wp (check_and_update_cache r i) (λ _ e', enc_inv sz e') e) as Hw.
    { eapply wp_mono; [by eapply (check_inv sz)|]. by intros ? ? (? & _). }
    exact (wp_ok _ _ _ _ _ Hrun Hw).
  - destruct (lookup_lt_is_Some_2 _ _ Hi) as [f Hf].
    assert (wp (can_allocate r i bu ex) (λ _ e', enc_inv sz e') e) as Hw.
    { eapply wp_mono; [by eapply (can_allocate_inv sz)|]. by intros ? ? [? _]. }
    exact (wp_ok _ _ _ _ _ Hrun Hw).
  - assert (wp (allocate r i) (λ _ e', enc_inv sz e') e) as Hw.
    { eapply wp_mono; [by eapply (allocate_inv sz)|]. by intros ? ? (? & _). }
    exact (wp_ok _ _ _ _ _ Hrun Hw).
  - destruct (lookup_lt_is_Some_2 _ _ Hi) as [f Hf].
    assert (wp (free_encoder_input r i) (λ _ e', enc_inv sz e') e) as Hw.
    { eapply wp_mono; [by eapply (free_input_inv sz)|]. by intros ? ? (? & _). }
    exact (wp_ok _ _ _ _ _ Hrun Hw).
  - exact (wp_ok _ _ _ _ _ Hrun (encoder_free_inv sz r e Hsz Hr He)).
  - injection Hrun as <-. apply init_inv. pose proof (ei_free _ _ He). pose proof (ei_nonneg _ _ He).
    pose proof (total_nonneg sz (cached e) Hsz). lia.
  - injection Hrun as <- <-. split; apply He.
Qed.

(** The encoder cache never overcommits: in every state reachable by the
    scheduler's calls from an empty cache, the sizes of the cached inputs sum
    to at most the cache size, the free slots are exactly the rest, the
    reclaimable slots are the free ones plus those of the unreferenced entries,
    and [freeable] lists exactly the unreferenced entries, each once. *)
Theorem encoder_cache_accounting sz size e :
  (∀ h, 0 ≤ sz h) → 0 ≤ size → rtc (enc_step sz) (encoder_init size) e →
  enc_inv sz e ∧ 0 ≤ total_size sz (cached e) ≤ cache_size e ∧ 0 ≤ num_free_slots e ≤ num_freeable_slots e.
Proof.
  intros Hsz Hsize Hreach. assert (enc_inv sz e) as He.
  { remember (encoder_init size) as e0 eqn:E0. assert (enc_inv sz e0) as H0 by (subst; by apply init_inv). clear E0.
    induction Hreach as [|e1 e2 e3 Hstep _ IH]; [done|]. apply IH. by eapply enc_step_inv. }
  split; [done|]. pose proof (ei_free _ _ He). pose proof (ei_nonneg _ _ He). pose proof (ei_reclaim _ _ He).
  pose proof (total_nonneg sz (cached e) Hsz). pose proof (sum_snd_nonneg sz Hsz e He). lia.
Qed.

Lemma deletes_keep (m : gmap string (gset string)) l h x : h ∉ l → m !! h = Some x → foldr delete m l !! h = Some x.
Proof.
  induction l as [|k l IH]; intros Hh Hm; [done|]. apply not_elem_of_cons in Hh as [Hne Hh]. cbn. rewrite lookup_delete_ne by done. auto.
Qed.

(** [can_allocate] never raises; when it answers yes, the input and the
    embeddings scheduled before it fit into the free slots, after evicting only
    unreferenced entries, the oldest ones, which are reported as freed; entries
    some request references stay.  It answers no, changing nothing, only when
    the compute budget or all reclaimable slots together are too small. *)
Theorem can_allocate_makes_room sz r e i f budget extra :
  (∀ h, 0 ≤ sz h) → sized sz r → enc_inv sz e → mm_features r !! i = Some f →
  wp (can_allocate r i budget extra) (λ b e', enc_inv sz e' ∧
    if (b : bool) then sz (identifier f) ≤ budget ∧ sz (identifier f) + extra ≤ num_free_slots e' ∧
      (∃ k, freed e' = freed e ++ take k (freeable e).*1) ∧
      (∀ h refs, cached e !! h = Some refs → refs ≠ ∅ → cached e' !! h = Some refs)
    else e' = e ∧ (budget < sz (identifier f) ∨ num_freeable_slots e < sz (identifier f) + extra)) e.
Proof.
  intros Hsz Hr He Hf. eapply wp_mono; [by apply (can_allocate_inv sz Hsz r Hr e i f)|].
  intros [|] e' [He' H]; [|done]. destruct H as (H1 & H2 & k & H3 & H4). split_and!; eauto.
  intros h refs Hh Hne. rewrite H4. apply deletes_keep; [|done].
  intros ((h' & n) & -> & Hx)%take_sub%list_elem_of_fmap. apply (ei_freeable _ _ He) in Hx as [Hx _]. cbn in Hh. congruence.
Qed.

(** ** Examples *)

Definition two_images : Request :=
  text_request "r" [1; 1; 1; 2; 2; 2; 7] None None [MkFeature "img1" (MkRange 0 3 None); MkFeature "img2" (MkRange 3 3 None)].
Definition three : string → Z := λ _, 3.

Lemma two_images_sized : sized three two_images.
Proof. repeat apply Forall_cons_2; [reflexivity..|apply Forall_nil_2]. Qed.

Lemma encoder_cache_accounting_witness :
  enc_inv three (allocate two_images 0 (encoder_init 4)).2 ∧ num_free_slots (allocate two_images 0 (encoder_init 4)).2 = 1.
Proof.
  split; [|vm_compute; reflexivity].
  apply (encoder_cache_accounting three 4 (allocate two_images 0 (encoder_init 4)).2); [done|done|].
  apply rtc_once. apply (es_allocate three _ _ two_images 0 (MkFeature "img1" (MkRange 0 3 None)) two_images_sized);
    vm_compute; (reflexivity || discriminate).
Defined.

Lemma can_allocate_makes_room_witness :
  ∃ e', can_allocate two_images 0 8 0 (encoder_init 4) = (Ok true, e') ∧ 3 + 0 ≤ num_free_slots e'.
Proof.
  pose proof (can_allocate_makes_room three two_images (encoder_init 4) 0 (MkFeature "img1" (MkRange 0 3 None)) 8 0
    ltac:(done) two_images_sized (init_inv three 4 ltac:(done)) eq_refl) as H.
  apply wp_run in H as ([|] & e' & Hrun & _ & H).
  - exists e'. split; [exact Hrun|exact (proj1 (proj2 H))].
  - exfalso. revert Hrun. vm_compute. discriminate.
Defined.

(** Releasing an input of an encoder-decoder request [n] times. *)
Fixpoint ed_free_times (n : nat) (r : Request) (i : nat) : M EncoderDecoderCacheManager unit :=
  match n with
  | O => ret tt
  | S n => ed_free_encoder_input r i ;;; ed_free_times n r i
  end.

Lemma ed_free_times_run n r i k e :
  get_num_encoder_embeds r i = Some k →
  ed_free_times n r i e =
    (Ok tt, MkEncDec (ed_cache_size e) (ed_num_free_slots e + Z.of_nat n * k) (allocated e) (to_free e)).
Proof.
  intros Hk. revert e. induction n as [|n IH]; intros e; cbn [ed_free_times].
  - unfold ret. destruct e. cbn. do 2 f_equal. lia.
  - erewrite bind_ok; [|unfold ed_free_encoder_input, input_embeds; rewrite Hk; reflexivity]. rewrite IH. cbn. do 2 f_equal. lia.
Qed.

(** The encoder-decoder manager does not remember what it released: an
    input that was allocated once and released [n] times - the scheduler
    releases it after every step of the request and once more at its end -
    leaves [size + (n - 1) * embeds] free slots, more than the cache has as soon
    as [n] is at least two. *)
Theorem encdec_release_unbounded size r i k f n :
  get_num_encoder_embeds r i = Some k → mm_features r !! i = Some f →
  wp (ed_allocate r i ;;; ed_free_times n r i) (λ _ e,
    ed_cache_size e = size ∧ ed_num_free_slots e = size + (Z.of_nat n - 1) * k) (ed_init size).
Proof.
  intros Hk Hf. unfold ed_allocate, input_embeds, input_hash. rewrite Hk, Hf. wp_steps.
  unfold wp. rewrite (ed_free_times_run n r i k _ Hk). cbn. lia.
Qed.

Lemma encdec_release_unbounded_witness :
  wp (ed_allocate two_images 0 ;;; ed_free_times 5 two_images 0) (λ _ e,
    ed_cache_size e = 4 ∧ ed_num_free_slots e = 4 + (5 - 1) * 3) (ed_init 4).
Proof. exact (encdec_release_unbounded 4 two_images 0 3 (MkFeature "img1" (MkRange 0 3 None)) 5 eq_refl eq_refl). Defined.
