(* ===== verification/SmCtrl.v ===== *)
(** * SM masks (vllm/v1/libsmctrl.py)

    The masks that disable TPCs for a CUDA stream, how they are split between
    two streams, and the bookkeeping of [apply_configured_stream_mask].  The
    native library is a parameter ([SmEnv]): whether it loads and exports a
    stream-mask symbol; a call to it is recorded with the arguments it gets,
    after the conversion to [uint64].  The CUDA context functions only call the
    driver and are not modelled. *)

From Stdlib Require Import Ascii.
From S2P Require Import Prelude.

(** ** Masks *)

Fixpoint mask_loop (total_tpcs : Z) (disabled_tpcs : list Z) (mask : Z) : res Z :=
  match disabled_tpcs with
  | [] => Ok mask
  | tpc :: rest =>
      if (tpc <? 0) || (total_tpcs <=? tpc) then Raise ValueError
      else mask_loop total_tpcs rest (Z.lor mask (Z.shiftl 1 tpc))
  end.

(** [build_sm_mask] *)
Definition build_sm_mask (total_tpcs : Z) (disabled_tpcs : list Z) : res Z :=
  if total_tpcs <? 1 then Raise ValueError else mask_loop total_tpcs disabled_tpcs 0.

(** [split_sm_masks] *)
Definition split_sm_masks (total_tpcs : Z) : res (Z * Z) :=
  if total_tpcs <? 2 then Raise ValueError
  else
    let split := total_tpcs / 2 in
    match build_sm_mask total_tpcs (py_range 0 split) with
    | Raise e => Raise e
    | Ok mask_mm =>
        match build_sm_mask total_tpcs (py_range split total_tpcs) with
        | Raise e => Raise e
        | Ok mask_llm => Ok (mask_mm, mask_llm)
        end
    end.

(** [ctypes.c_uint64(mask)]: no overflow check. *)
Definition c_uint64 (z : Z) : Z := Z.land z (Z.ones 64).

(** ** Configuration *)

(** [str.strip] and [str.lower] on ASCII text. *)
Definition is_space (c : ascii) : bool :=
  let n := N_of_ascii c in ((9 <=? n)%N && (n <=? 13)%N) || (n =? 32)%N || ((28 <=? n)%N && (n <=? 31)%N).
Fixpoint lstrip (l : list ascii) : list ascii :=
  match l with c :: l' => if is_space c then lstrip l' else l | [] => [] end.
Definition strip (l : list ascii) : list ascii := reverse (lstrip (reverse (lstrip l))).
Definition to_lower (c : ascii) : ascii :=
  let n := N_of_ascii c in if (65 <=? n)%N && (n <=? 90)%N then ascii_of_N (n + 32) else c.

(** The value of a digit in lower-case text. *)
Definition digit_value (c : ascii) : option Z :=
  let n := Z.of_N (N_of_ascii c) in
  if (48 <=? n) && (n <=? 57) then Some (n - 48)
  else if (97 <=? n) && (n <=? 122) then Some (n - 87) else None.

(** Digits of [int(s, base)], single underscores between them allowed. *)
Fixpoint int_digits (base acc : Z) (after_digit : bool) (l : list ascii) : option Z :=
  match l with
  | [] => if after_digit then Some acc else None
  | c :: l =>
      if Ascii.eqb c "_" then (if after_digit then int_digits base acc false l else None)
      else
        match digit_value c with
        | Some d => if d <? base then int_digits base (acc * base + d) true l else None
        | None => None
        end
  end.
(** The rest of a hexadecimal literal may start with an underscore. *)
Definition int_body (base : Z) (l : list ascii) : option Z :=
  match l with
  | "0"%char :: "x"%char :: _ :: _ =>
      if base =? 16 then int_digits base 0 true (drop 2 l) else int_digits base 0 false l
  | _ => int_digits base 0 false l
  end.
Definition py_int (base : Z) (l : list ascii) : res Z :=
  let r :=
    match l with
    | "+"%char :: l' => int_body base l'
    | "-"%char :: l' => Z.opp <$> int_body base l'
    | _ => int_body base l
    end in
  match r with Some z => Ok z | None => Raise ValueError end.

(** [_parse_int_env] *)
Definition parse_int_env (value : list ascii) : res Z :=
  let stripped := to_lower <$> strip value in
  match stripped with
  | "0"%char :: "x"%char :: _ => py_int 16 stripped
  | _ => py_int 10 stripped
  end.

(** The native library: not loadable, without the symbol, or usable. *)
Inductive LibState := LibMissing | LibWithoutSymbol | LibUsable.

Record SmEnv := MkSmEnv {
  env_stream_mask : list ascii;
  env_lib : LibState;
}.

(** The module's globals, and the calls made to the library. *)
Record SmState := MkSmState {
  cached_stream_mask : option Z;
  stream_mask_loaded : bool;
  stream_mask_touch_count : Z;
  masked_stream_masks : gmap Z Z;
  lib_calls : list (Z * Z);
}.
Definition sm_init : SmState := MkSmState None false 0 ∅ [].

Section smctrl.
Variable env : SmEnv.

(** [get_configured_stream_mask] *)
Definition get_configured_stream_mask : M SmState (option Z) :=
  let! s := gets id in
  if stream_mask_loaded s then ret (cached_stream_mask s)
  else
    match strip (env_stream_mask env) with
    | [] =>
        modify (λ s, MkSmState None true (stream_mask_touch_count s) (masked_stream_masks s) (lib_calls s)) ;;; ret None
    | raw =>
        match parse_int_env raw with
        | Raise e => raise e
        | Ok mask =>
            if mask <? 0 then raise ValueError
            else
              modify (λ s, MkSmState (Some mask) true (stream_mask_touch_count s) (masked_stream_masks s) (lib_calls s)) ;;;
              ret (Some mask)
        end
    end.

(** [set_stream_mask] *)
Definition set_stream_mask (stream_ptr mask : Z) : M SmState unit :=
  if stream_ptr =? 0 then ret tt
  else
    match env_lib env with
    | LibUsable =>
        modify (λ s, MkSmState (cached_stream_mask s) (stream_mask_loaded s) (stream_mask_touch_count s)
                       (masked_stream_masks s) (lib_calls s ++ [(stream_ptr, c_uint64 mask)]))
    | _ => raise RuntimeError
    end.

(** [apply_configured_stream_mask] on a stream pointer *)
Definition apply_configured_stream_mask (stream_ptr : Z) : M SmState bool :=
  let! mask := get_configured_stream_mask in
  match mask with
  | None => ret false
  | Some mask =>
      if mask =? 0 then ret false
      else if stream_ptr =? 0 then ret false
      else
        modify (λ s, MkSmState (cached_stream_mask s) (stream_mask_loaded s) (stream_mask_touch_count s + 1)
                       (masked_stream_masks s) (lib_calls s)) ;;;
        let! s := gets id in
        if bool_decide (masked_stream_masks s !! stream_ptr = Some mask) then ret true
        else
          set_stream_mask stream_ptr mask ;;;
          modify (λ s, MkSmState (cached_stream_mask s) (stream_mask_loaded s) (stream_mask_touch_count s)
                         (<[stream_ptr := mask]> (masked_stream_masks s)) (lib_calls s)) ;;;
          ret true
  end.

(** [reset_stream_mask_touch_count], [get_stream_mask_touch_count] *)
Definition reset_stream_mask_touch_count : M SmState unit :=
  modify (λ s, MkSmState (cached_stream_mask s) (stream_mask_loaded s) 0 (masked_stream_masks s) (lib_calls s)).
Definition get_stream_mask_touch_count (s : SmState) : Z := stream_mask_touch_count s.

End smctrl.

(** [apply_configured_global_mask] is disabled. *)
Definition apply_configured_global_mask : bool := false.

(** ** Masks: specification *)

Lemma mask_loop_spec total l : ∀ m,
  Forall (λ t, 0 ≤ t < total) l →
  ∃ mask, mask_loop total l m = Ok mask ∧ ∀ i, 0 ≤ i → Z.testbit mask i = Z.testbit m i || bool_decide (i ∈ l).
Proof.
  induction l as [|t l IH]; intros m Hl; cbn.
  { exists m. split; [done|]. intros i _. rewrite bool_decide_eq_false_2 by apply not_elem_of_nil. by rewrite orb_false_r. }
  apply Forall_cons in Hl as [Ht Hl]. destruct (Z.ltb_spec t 0), (Z.leb_spec total t); try lia. cbn [orb].
  destruct (IH (Z.lor m (Z.shiftl 1 t)) Hl) as (mask & -> & Hmask). exists mask. split; [done|]. intros i Hi.
  rewrite Hmask, Z.lor_spec, Z.shiftl_1_l, Z.pow2_bits_eqb by lia.
  destruct (Z.eqb_spec t i) as [->|Hne].
  - rewrite (bool_decide_eq_true_2 (i ∈ i :: l)) by (apply elem_of_cons; by left). by rewrite !orb_true_r.
  - rewrite orb_false_r. f_equal. apply bool_decide_ext. rewrite elem_of_cons. naive_solver.
Qed.

Lemma mask_loop_error total l : ∀ m, ¬ Forall (λ t, 0 ≤ t < total) l → mask_loop total l m = Raise ValueError.
Proof.
  induction l as [|t l IH]; intros m Hl; cbn; [by destruct Hl; apply Forall_nil_2|].
  destruct (Z.ltb_spec t 0); [done|]. destruct (Z.leb_spec total t); [done|]. cbn. apply IH. intros Hl'. apply Hl.
  apply Forall_cons. split; [lia|done].
Qed.

(** [build_sm_mask] sets exactly the bits of the disabled TPCs, whatever
    their order and multiplicity, and rejects an index out of range or a device
    without TPCs with [ValueError]. *)
Theorem build_sm_mask_bits total disabled :
  (1 ≤ total → Forall (λ t, 0 ≤ t < total) disabled →
     ∃ mask, build_sm_mask total disabled = Ok mask ∧ ∀ i, 0 ≤ i → Z.testbit mask i = bool_decide (i ∈ disabled)) ∧
  (total < 1 ∨ ¬ Forall (λ t, 0 ≤ t < total) disabled → build_sm_mask total disabled = Raise ValueError).
Proof.
  unfold build_sm_mask. split.
  - intros Ht Hl. destruct (Z.ltb_spec total 1); [lia|]. destruct (mask_loop_spec total disabled 0 Hl) as (m & -> & Hm).
    exists m. split; [done|]. intros i Hi. by rewrite Hm, Z.bits_0 by done.
  - destruct (Z.ltb_spec total 1) as [Hlt|Hge]; [done|]. intros [?|Hl]; [lia|]. by apply mask_loop_error.
Qed.

Lemma range_mask total a b :
  1 ≤ total → 0 ≤ a → b ≤ total →
  ∃ mask, build_sm_mask total (py_range a b) = Ok mask ∧ ∀ i, 0 ≤ i → Z.testbit mask i = bool_decide (a ≤ i < b).
Proof.
  intros Ht Ha Hb. unfold build_sm_mask. destruct (Z.ltb_spec total 1); [lia|].
  assert (∀ i, i ∈ py_range a b ↔ a ≤ i < b) as Hin by (intros i; unfold py_range; rewrite elem_of_seqZ; lia).
  destruct (mask_loop_spec total (py_range a b) 0) as (m & -> & Hm).
  { apply Forall_forall. intros i Hi%Hin. lia. }
  exists m. split; [done|]. intros i Hi. rewrite Hm, Z.bits_0 by done. cbn. by apply bool_decide_ext.
Qed.

Lemma split_masks_run total :
  2 ≤ total → ∃ mm llm, split_sm_masks total = Ok (mm, llm) ∧
    (∀ i, 0 ≤ i → Z.testbit mm i = bool_decide (0 ≤ i < total / 2)) ∧
    (∀ i, 0 ≤ i → Z.testbit llm i = bool_decide (total / 2 ≤ i < total)).
Proof.
  intros Ht. unfold split_sm_masks. destruct (Z.ltb_spec total 2); [lia|].
  assert (1 ≤ total / 2 < total) as Hs by (split; [apply Z.div_le_lower_bound|apply Z.div_lt_upper_bound]; lia).
  destruct (range_mask total 0 (total / 2)) as (mm & -> & Hmm); [lia..|].
  destruct (range_mask total (total / 2) total) as (llm & -> & Hllm); [lia..|]. by exists mm, llm.
Qed.

Lemma testbit_ones_bool n i : 0 ≤ n → 0 ≤ i → Z.testbit (Z.ones n) i = bool_decide (i < n).
Proof. intros Hn Hi. rewrite Z.testbit_ones_nonneg by done. destruct (Z.ltb_spec i n); [by rewrite bool_decide_eq_true_2|by rewrite bool_decide_eq_false_2 by lia]. Qed.

(** [split_sm_masks] partitions the device: the two masks have no TPC in
    common, together they cover all TPCs, and both are non-empty, so each
    stream keeps the TPCs the other one loses; with fewer than two TPCs it
    raises [ValueError]. *)
Theorem split_masks_partition total :
  (total < 2 → split_sm_masks total = Raise ValueError) ∧
  (2 ≤ total → ∃ mm llm, split_sm_masks total = Ok (mm, llm) ∧
     Z.land mm llm = 0 ∧ Z.lor mm llm = Z.ones total ∧ mm ≠ 0 ∧ llm ≠ 0).
Proof.
  split; [unfold split_sm_masks; by destruct (Z.ltb_spec total 2); [|lia]|]. intros Ht.
  destruct (split_masks_run total Ht) as (mm & llm & Hrun & Hmm & Hllm).
  assert (1 ≤ total / 2 < total) as Hs by (split; [apply Z.div_le_lower_bound|apply Z.div_lt_upper_bound]; lia).
  exists mm, llm. split_and!; [done|..].
  - apply Z.bits_inj'. intros i Hi. rewrite Z.land_spec, Hmm, Hllm, Z.bits_0 by done. repeat case_bool_decide; done || lia.
  - apply Z.bits_inj'. intros i Hi. rewrite Z.lor_spec, Hmm, Hllm, testbit_ones_bool by lia. repeat case_bool_decide; done || lia.
  - intros ->. specialize (Hmm 0 ltac:(lia)). rewrite Z.bits_0, bool_decide_eq_true_2 in Hmm by lia. done.
  - intros ->. specialize (Hllm (total / 2) ltac:(lia)). rewrite Z.bits_0, bool_decide_eq_true_2 in Hllm by lia. done.
Qed.

(** The library receives masks as 64-bit integers: up to 64 TPCs the masks
    arrive unchanged, but on a device with more TPCs the bits from 64 on are
    dropped silently, so those TPCs are disabled for neither stream although
    [split_sm_masks] disables each of them for one. *)
Theorem masks_truncated_beyond_64 total :
  2 ≤ total → ∃ mm llm, split_sm_masks total = Ok (mm, llm) ∧
    (total ≤ 64 → c_uint64 mm = mm ∧ c_uint64 llm = llm) ∧
    (∀ i, 64 ≤ i < total → Z.testbit (Z.lor mm llm) i = true ∧
       Z.testbit (c_uint64 mm) i = false ∧ Z.testbit (c_uint64 llm) i = false).
Proof.
  intros Ht. destruct (split_masks_run total Ht) as (mm & llm & Hrun & Hmm & Hllm).
  assert (1 ≤ total / 2 < total) as Hs by (split; [apply Z.div_le_lower_bound|apply Z.div_lt_upper_bound]; lia).
  exists mm, llm. unfold c_uint64. split_and!; [done|..].
  - intros Hle. split; apply Z.bits_inj'; intros i Hi; rewrite Z.land_spec, testbit_ones_bool, ?Hmm, ?Hllm by lia;
      repeat case_bool_decide; done || lia.
  - intros i Hi. rewrite Z.lor_spec, !Z.land_spec, testbit_ones_bool, Hmm, Hllm by lia. repeat case_bool_decide; done || lia.
Qed.

Lemma masks_truncated_beyond_64_witness :
  ∃ mm llm, split_sm_masks 66 = Ok (mm, llm) ∧ Z.testbit (c_uint64 llm) 65 = false ∧ Z.testbit llm 65 = true.
Proof.
  destruct (masks_truncated_beyond_64 66 ltac:(lia)) as (mm & llm & Hrun & _ & H). exists mm, llm.
  split; [exact Hrun|]. split; [apply (H 65); lia|]. vm_compute in Hrun. injection Hrun as _ <-. reflexivity.
Defined.

(** ** Applying the mask *)

Fixpoint apply_all (env : SmEnv) (ptrs : list Z) : M SmState (list bool) :=
  match ptrs with
  | [] => ret []
  | p :: ptrs => let! b := apply_configured_stream_mask env p in let! bs := apply_all env ptrs in ret (b :: bs)
  end.

(** A non-zero mask is configured and the library is usable. *)
Definition mask_configured (env : SmEnv) (mask : Z) : Prop :=
  strip (env_stream_mask env) ≠ [] ∧ parse_int_env (strip (env_stream_mask env)) = Ok mask ∧ 0 < mask ∧ env_lib env = LibUsable.

(** The state after the streams [seen]: the mask is read once, and every
    non-null stream was passed to the library once. *)
Record applied (mask : Z) (seen : list Z) (s : SmState) : Prop := {
  ap_loaded : if stream_mask_loaded s then cached_stream_mask s = Some mask else seen = [];
  ap_count : stream_mask_touch_count s = len (filter (λ p, p ≠ 0) seen);
  ap_nodup : NoDup (lib_calls s).*1;
  ap_calls p m : (p, m) ∈ lib_calls s ↔ p ∈ seen ∧ p ≠ 0 ∧ m = c_uint64 mask;
  ap_masked p : masked_stream_masks s !! p = if bool_decide (p ∈ seen ∧ p ≠ 0) then Some mask else None;
}.

Lemma apply_step env mask seen s p :
  mask_configured env mask → applied mask seen s →
  wp (apply_configured_stream_mask env p) (λ b s', b = negb (p =? 0) ∧ applied mask (seen ++ [p]) s') s.
Proof.
  intros (Hraw & Hparse & Hpos & Hlib) Hs. unfold apply_configured_stream_mask. wp_step.
  assert (wp (get_configured_stream_mask env) (λ m s', m = Some mask ∧ applied mask seen s' ∧ stream_mask_loaded s' = true ∧
    cached_stream_mask s' = Some mask) s) as Hget.
  { unfold get_configured_stream_mask. wp_step. wp_step. unfold id. pose proof (ap_loaded _ _ _ Hs) as Hl.
    destruct (stream_mask_loaded s) eqn:El; [by wp_step|]. destruct (strip (env_stream_mask env)) as [|c raw]; [done|].
    rewrite Hparse. destruct (Z.ltb_spec mask 0); [lia|]. wp_step. wp_step. wp_step. split_and!; try done. split; cbn; try apply Hs. done. }
  eapply wp_mono; [exact Hget|]. intros m s1 (-> & Hs1 & El & Ec). destruct (Z.eqb_spec mask 0); [lia|].
  assert (∀ q, q ∈ seen ++ [p] ↔ q ∈ seen ∨ q = p) as Hin by (intros q; by rewrite elem_of_app, list_elem_of_singleton).
  destruct (Z.eqb_spec p 0) as [->|Hp]; cbn [negb].
  - wp_step. split; [done|]. split; cbn; try apply Hs1.
    + by rewrite El.
    + rewrite filter_app, filter_cons_False, app_nil_r by tauto. apply Hs1.
    + intros q m. rewrite (ap_calls _ _ _ Hs1), Hin. naive_solver.
    + intros q. rewrite (ap_masked _ _ _ Hs1). erewrite bool_decide_ext; [reflexivity|]. rewrite Hin. naive_solver.
  - assert (len (filter (λ p, p ≠ 0) (seen ++ [p])) = len (filter (λ p, p ≠ 0) seen) + 1) as Hcount.
    { rewrite filter_app, len_app, filter_cons_True by done. done. }
    wp_step. wp_step. wp_step. wp_step. unfold id. cbn [masked_stream_masks]. pose proof (ap_masked _ _ _ Hs1 p) as Hm. rewrite Hm.
    destruct (decide (p ∈ seen)) as [Hseen|Hseen].
    + rewrite (bool_decide_eq_true_2 (p ∈ seen ∧ p ≠ 0)) by done. rewrite bool_decide_eq_true_2 by done. wp_step. split; [done|].
      split; cbn; try apply Hs1; [by rewrite El|rewrite Hcount; f_equal; apply Hs1| |].
      * intros q m. rewrite (ap_calls _ _ _ Hs1), Hin. naive_solver.
      * intros q. rewrite (ap_masked _ _ _ Hs1). erewrite bool_decide_ext; [reflexivity|]. rewrite Hin. naive_solver.
    + rewrite (bool_decide_eq_false_2 (p ∈ seen ∧ p ≠ 0)) by tauto. rewrite bool_decide_eq_false_2 by done.
      unfold set_stream_mask. destruct (Z.eqb_spec p 0); [done|]. rewrite Hlib. wp_step. wp_step. wp_step. wp_step. wp_step.
      split; [done|]. split; cbn; [by rewrite El|rewrite Hcount; f_equal; apply Hs1|..].
      * rewrite fmap_app. apply NoDup_app. split_and!; [apply Hs1| |apply NoDup_singleton].
        intros q ((q' & m) & -> & Hq)%list_elem_of_fmap Hq'%list_elem_of_singleton. cbn in Hq'. subst q'.
        apply (ap_calls _ _ _ Hs1) in Hq. tauto.
      * intros q m. rewrite elem_of_app, list_elem_of_singleton, (ap_calls _ _ _ Hs1), Hin. naive_solver.
      * intros q. destruct (decide (q = p)) as [->|Hne].
        -- rewrite lookup_insert_eq. rewrite bool_decide_eq_true_2; [done|]. rewrite Hin. naive_solver.
        -- rewrite lookup_insert_ne, (ap_masked _ _ _ Hs1) by done. erewrite bool_decide_ext; [reflexivity|]. rewrite Hin. naive_solver.
Qed.

(** Applying the configured mask to a sequence of streams reports success
    for exactly the non-null ones, counts every such touch, and calls the
    library exactly once per distinct non-null stream, with the configured
    mask as a 64-bit integer. *)
Theorem stream_mask_applied_once env mask ptrs :
  mask_configured env mask →
  wp (apply_all env ptrs) (λ bs s, bs = (λ p, negb (p =? 0)) <$> ptrs ∧
    get_stream_mask_touch_count s = len (filter (λ p, p ≠ 0) ptrs) ∧ NoDup (lib_calls s).*1 ∧
    ∀ p m, (p, m) ∈ lib_calls s ↔ p ∈ ptrs ∧ p ≠ 0 ∧ m = c_uint64 mask) sm_init.
Proof.
  intros Henv.
  assert (∀ qs seen s, applied mask seen s →
    wp (apply_all env qs) (λ bs s', bs = (λ p, negb (p =? 0)) <$> qs ∧ applied mask (seen ++ qs) s') s) as Hrun.
  { induction qs as [|p ps IH]; intros seen s Hs; cbn [apply_all]; [apply wp_ret; by rewrite app_nil_r|].
    wp_step. eapply wp_mono; [by apply (apply_step env mask seen s p)|]. intros b s1 [-> Hs1].
    wp_step. eapply wp_mono; [by apply (IH (seen ++ [p]) s1)|]. intros bs s2 [-> Hs2]. wp_step. rewrite <-app_assoc in Hs2. done. }
  eapply wp_mono; [apply (Hrun ptrs [] sm_init)|].
  - split; cbn; try apply NoDup_nil_2; try done.
    intros p m. split; [intros Hx; by apply elem_of_nil in Hx|intros [Hx _]; by apply elem_of_nil in Hx].
  - intros bs s [-> Hs]. split_and!; [done|apply Hs|apply Hs|apply Hs].
Qed.

Definition env_0xff : SmEnv := MkSmEnv ["0"; "x"; "f"; "F"]%char LibUsable.
Lemma stream_mask_applied_once_witness :
  ∃ s, apply_all env_0xff [5; 0; 5; 7] sm_init = (Ok [true; false; true; true], s) ∧ get_stream_mask_touch_count s = 3.
Proof.
  destruct (proj1 (wp_run _ _ _) (stream_mask_applied_once env_0xff 255 [5; 0; 5; 7]
    ltac:(split_and!; [discriminate|reflexivity|lia|reflexivity]))) as (bs & s & Hrun & -> & Hc & _).
  exists s. split; [exact Hrun|exact Hc].
Defined.
