(* ===== verification/Heapq.v ===== *)
(** * Python's heapq

    The priority queue of the scheduler is a [heapq] heap of requests.  The
    sift operations are those of the library module (an array, the parent of
    index [i] at [(i - 1) / 2]); they are proved to keep the heap property and
    the elements, for any order that is a strict weak order. *)

From S2P Require Import Prelude.

(** What [heapq] relies on of [<]: asymmetry, and that [¬ (y < x)] is
    transitive. *)
Class WeakOrder {A} (lt : A → A → bool) : Prop := {
  wo_asym x y : lt x y = true → lt y x = false;
  wo_trans x y z : lt y x = false → lt z y = false → lt z x = false;
}.

Section heapq.
Context {A : Type} (lt : A → A → bool).

(** [_siftdown(heap, startpos, pos)]: the item moves towards the root while it
    is smaller than its parent; [pos] decreases, so [pos + 1] rounds do. *)
Fixpoint siftdown (fuel : nat) (heap : list A) (startpos pos : nat) (newitem : A) : list A :=
  match fuel with
  | O => <[pos := newitem]> heap
  | S fuel =>
      if (startpos <? pos)%nat then
        let parentpos := ((pos - 1) / 2)%nat in
        match heap !! parentpos with
        | Some parent =>
            if lt newitem parent then siftdown fuel (<[pos := parent]> heap) startpos parentpos newitem
            else <[pos := newitem]> heap
        | None => <[pos := newitem]> heap
        end
      else <[pos := newitem]> heap
  end.

(** The child loop of [_siftup]: the smaller child moves up until a leaf is
    reached; the leaf's index grows, so the length bounds the rounds. *)
Fixpoint siftup_loop (fuel : nat) (heap : list A) (pos : nat) : list A * nat :=
  match fuel with
  | O => (heap, pos)
  | S fuel =>
      let childpos := (2 * pos + 1)%nat in
      match heap !! childpos with
      | None => (heap, pos)
      | Some child =>
          let '(childpos, child) :=
            match heap !! (childpos + 1)%nat with
            | Some other => if lt child other then (childpos, child) else ((childpos + 1)%nat, other)
            | None => (childpos, child)
            end in
          siftup_loop fuel (<[pos := child]> heap) childpos
      end
  end.

(** [_siftup(heap, pos)] *)
Definition siftup (heap : list A) (pos : nat) : list A :=
  match heap !! pos with
  | None => heap
  | Some newitem =>
      let '(heap, leaf) := siftup_loop (length heap) heap pos in
      siftdown (S leaf) heap pos leaf newitem
  end.

(** [heappush(heap, item)] *)
Definition heappush (heap : list A) (item : A) : list A :=
  siftdown (S (length heap)) (heap ++ [item]) 0 (length heap) item.

(** [heappop(heap)]: [None] is [IndexError]. *)
Definition heappop (heap : list A) : option (A * list A) :=
  match reverse heap with
  | [] => None
  | lastelt :: rest =>
      match reverse rest with
      | [] => Some (lastelt, [])
      | returnitem :: tl => Some (returnitem, siftup (lastelt :: tl) 0)
      end
  end.

(** [heapify(heap)]: the inner nodes from the last to the root. *)
Definition heapify (heap : list A) : list A :=
  foldl siftup heap (reverse (seq 0 (length heap / 2)%nat)).

(** ** The heap property *)

Definition le (x y : A) : Prop := lt y x = false.

(** The edge from the parent to [i] is in order. *)
Definition edge (H : list A) (i : nat) : Prop :=
  ∀ x y, (1 ≤ i)%nat → H !! ((i - 1) / 2)%nat = Some x → H !! i = Some y → le x y.
(** Below [s] every edge is in order; the whole heap for [s = 0]. *)
Definition heap_from (s : nat) (H : list A) : Prop := ∀ i, (s ≤ (i - 1) / 2)%nat → edge H i.
Abbreviation is_heap := (heap_from 0).

(** [i] is [s] or below it. *)
Inductive desc (s : nat) : nat → Prop :=
  | desc_self : desc s s
  | desc_child i : (1 ≤ i)%nat → desc s ((i - 1) / 2)%nat → desc s i.

(** All edges below [s] are in order except those at [pos], over which the
    parent of [pos] is in order with its children. *)
Record hole (s : nat) (H : list A) (pos : nat) : Prop := {
  ho_desc : desc s pos;
  ho_edge i : (1 ≤ i)%nat → (s ≤ (i - 1) / 2)%nat → i ≠ pos → ((i - 1) / 2)%nat ≠ pos → edge H i;
  ho_over i x y : (1 ≤ i)%nat → ((i - 1) / 2)%nat = pos → pos ≠ s →
    H !! ((pos - 1) / 2)%nat = Some x → H !! i = Some y → le x y;
}.

Context `{!WeakOrder lt}.

Lemma le_trans x y z : le x y → le y z → le x z.
Proof. unfold le. intros H1 H2. by apply (wo_trans x y z). Qed.
Lemma lt_le x y : lt x y = true → le x y.
Proof. apply wo_asym. Qed.
Lemma le_refl x : le x x.
Proof. unfold le. destruct (lt x x) eqn:E; [|done]. pose proof (wo_asym _ _ E). congruence. Qed.

Lemma parent_lt i : (1 ≤ i)%nat → ((i - 1) / 2 < i)%nat.
Proof. intros Hi. apply Nat.Div0.div_lt_upper_bound; lia. Qed.

Lemma parent_child i pos : (1 ≤ i)%nat → ((i - 1) / 2)%nat = pos ↔ (i = 2 * pos + 1 ∨ i = 2 * pos + 2)%nat.
Proof.
  intros Hi. pose proof (Nat.Div0.div_mod (i - 1) 2). pose proof (Nat.mod_upper_bound (i - 1) 2 ltac:(lia)).
  split; [intros <-; lia|]. intros [->| ->].
  - replace (2 * pos + 1 - 1)%nat with (pos * 2)%nat by lia. by rewrite Nat.div_mul.
  - replace (2 * pos + 2 - 1)%nat with (1 + pos * 2)%nat by lia. by rewrite Nat.div_add.
Qed.

Lemma desc_ge s i : desc s i → (s ≤ i)%nat.
Proof. induction 1 as [|i Hi _ IH]; [lia|]. pose proof (parent_lt i Hi). lia. Qed.

Lemma desc_parent s i : desc s i → i ≠ s → (1 ≤ i)%nat ∧ desc s ((i - 1) / 2)%nat.
Proof. by destruct 1. Qed.

Lemma desc_root i : desc 0 i.
Proof.
  induction i as [i IH] using lt_wf_ind. destruct (decide (i = 0%nat)) as [->|Hi]; [constructor|].
  apply desc_child; [lia|]. apply IH, parent_lt. lia.
Qed.

(** Moving the parent down into the hole. *)
Lemma hole_up s H pos new parent :
  hole s H pos → pos ≠ s → (pos < length H)%nat → H !! pos = Some new → H !! ((pos - 1) / 2)%nat = Some parent →
  lt new parent = true →
  hole s (<[((pos - 1) / 2)%nat := new]> (<[pos := parent]> H)) ((pos - 1) / 2)%nat.
Proof.
  intros Hh Hps Hlen Hpos Hpar Hlt. destruct (desc_parent _ _ (ho_desc _ _ _ Hh) Hps) as [Hp1 Hd]. set (pp := ((pos - 1) / 2)%nat) in *.
  assert (pp < pos)%nat as Hpp by by apply parent_lt. set (H' := <[pp := new]> (<[pos := parent]> H)).
  assert (∀ i, i ≠ pp → i ≠ pos → H' !! i = H !! i) as Hother
    by (intros i ? ?; unfold H'; by rewrite !list_lookup_insert_ne by done).
  assert (H' !! pos = Some parent) as Hpos' by (unfold H'; by rewrite list_lookup_insert_ne, list_lookup_insert_eq by lia).
  split; [done| |].
  - intros i Hi Hsi Hip Hipp x y Hi1 Hx Hy. destruct (decide (i = pos)) as [->|Hne]; [done|].
    destruct (decide (((i - 1) / 2)%nat = pos)) as [Hc|Hc].
    + rewrite Hc, Hpos' in Hx. injection Hx as <-. rewrite Hother in Hy by lia.
      apply (ho_over _ _ _ Hh i parent y); auto.
    + rewrite Hother in Hx, Hy by done. by apply (ho_edge _ _ _ Hh i Hi Hsi Hne Hc x y).
  - intros i x y Hi Hc Hs Hx Hy. destruct (desc_parent _ _ Hd Hs) as [Hq1 Hqd]. pose proof (parent_lt pp Hq1) as Hq.
    rewrite Hother in Hx by lia.
    assert (le x parent) as Hxp by (apply (ho_edge _ _ _ Hh pp); auto; [by apply desc_ge|lia|lia]).
    destruct (decide (i = pos)) as [->|Hne].
    + rewrite Hpos' in Hy. by injection Hy as <-.
    + pose proof (parent_lt i Hi). rewrite Hother in Hy by lia. eapply le_trans; [exact Hxp|].
      apply (ho_edge _ _ _ Hh i); auto; [rewrite Hc; by apply desc_ge|lia| by rewrite Hc].
Qed.

(** [_siftdown] from a hole whose children are in order with the new item. *)
Lemma siftdown_spec fuel : ∀ heap s pos new,
  (pos < fuel)%nat → (pos < length heap)%nat → hole s (<[pos := new]> heap) pos →
  (∀ i y, (1 ≤ i)%nat → ((i - 1) / 2)%nat = pos → <[pos := new]> heap !! i = Some y → le new y) →
  heap_from s (siftdown fuel heap s pos new) ∧ siftdown fuel heap s pos new ≡ₚ <[pos := new]> heap.
Proof.
  induction fuel as [|fuel IH]; intros heap s pos new Hf Hlen Hh Hch; [lia|]. cbn [siftdown].
  set (H := <[pos := new]> heap) in *. assert (H !! pos = Some new) as Hpos by (by apply list_lookup_insert_eq).
  pose proof (desc_ge _ _ (ho_desc _ _ _ Hh)) as Hge.
  assert ((∀ x, pos ≠ s → H !! ((pos - 1) / 2)%nat = Some x → le x new) → heap_from s H) as Hdone.
  { intros Hup i Hi x y Hi1 Hx Hy. destruct (decide (i = pos)) as [->|Hne].
    - rewrite Hpos in Hy. injection Hy as <-. apply Hup; [|done]. intros ->. pose proof (parent_lt s Hi1). lia.
    - destruct (decide (((i - 1) / 2)%nat = pos)) as [Hc|Hc].
      + rewrite Hc, Hpos in Hx. injection Hx as <-. by apply (Hch i).
      + by apply (ho_edge _ _ _ Hh i Hi1 Hi Hne Hc x y). }
  destruct (Nat.ltb_spec s pos) as [Hlt|Hle].
  2:{ split; [|done]. apply Hdone. intros x Hne. lia. }
  destruct (desc_parent _ _ (ho_desc _ _ _ Hh)) as [Hp1 _]; [lia|]. pose proof (parent_lt pos Hp1) as Hpp.
  set (pp := ((pos - 1) / 2)%nat) in *.
  assert (H !! pp = heap !! pp) as Epp by (unfold H; by rewrite list_lookup_insert_ne by lia).
  destruct (lookup_lt_is_Some_2 heap pp) as [parent Hpar]; [lia|]. rewrite Hpar. destruct (lt new parent) eqn:Elt.
  - pose proof (hole_up s H pos new parent Hh ltac:(lia) ltac:(unfold H; by rewrite length_insert) Hpos (eq_trans Epp Hpar) Elt) as Hh'.
    fold pp in Hh'. assert (<[pp := new]> (<[pos := parent]> H) = <[pp := new]> (<[pos := parent]> heap)) as EH'
      by (unfold H; by rewrite list_insert_insert_eq). rewrite EH' in Hh'.
    destruct (IH (<[pos := parent]> heap) s pp new) as [IH1 IH2]; [lia|rewrite length_insert; lia|done| |].
    + intros i y Hi Hc Hy. pose proof (parent_lt i Hi). rewrite list_lookup_insert_ne in Hy by lia.
      destruct (decide (i = pos)) as [->|Hne].
      * rewrite list_lookup_insert_eq in Hy by done. injection Hy as <-. by apply lt_le.
      * rewrite list_lookup_insert_ne in Hy by done. apply (le_trans new parent y); [by apply lt_le|].
        apply (ho_edge _ _ _ Hh i Hi); [|done|lia| | |].
        -- rewrite Hc. apply desc_ge. by destruct (desc_parent _ _ (ho_desc _ _ _ Hh) ltac:(lia)).
        -- done.
        -- by rewrite Hc, Epp.
        -- unfold H. by rewrite list_lookup_insert_ne.
    + split; [done|]. rewrite IH2, <-EH'. apply Permutation_insert_swap; [done|by rewrite Epp].
  - split; [|done]. apply Hdone. intros x _ Hx. rewrite Epp, Hpar in Hx. by injection Hx as <-.
Qed.

(** Moving the smaller child up into the hole. *)
Lemma hole_down s H pos c new child :
  hole s H pos → (1 ≤ c)%nat → ((c - 1) / 2)%nat = pos → (pos < length H)%nat → H !! pos = Some new → H !! c = Some child →
  (∀ d y, (1 ≤ d)%nat → ((d - 1) / 2)%nat = pos → H !! d = Some y → le child y) →
  hole s (<[c := new]> (<[pos := child]> H)) c.
Proof.
  intros Hh Hc1 Hc Hlen Hpos Hch Hmin. assert (pos < c)%nat as Hpc by (pose proof (parent_lt c Hc1); lia).
  set (H' := <[c := new]> (<[pos := child]> H)). pose proof (lookup_lt_Some _ _ _ Hch) as Hcl.
  assert (∀ i, i ≠ c → i ≠ pos → H' !! i = H !! i) as Hother
    by (intros i ? ?; unfold H'; by rewrite !list_lookup_insert_ne by done).
  assert (H' !! pos = Some child) as Hpos' by (unfold H'; by rewrite list_lookup_insert_ne, list_lookup_insert_eq by lia).
  pose proof (ho_desc _ _ _ Hh) as Hd. split.
  - apply desc_child; [done|]. by rewrite Hc.
  - intros i Hi Hsi Hic Hipc x y _ Hx Hy. pose proof (parent_lt i Hi) as Hpi. destruct (decide (i = pos)) as [->|Hne].
    + rewrite Hpos' in Hy. injection Hy as <-. rewrite Hother in Hx by lia.
      apply (ho_over _ _ _ Hh c x child); auto. lia.
    + rewrite (Hother i) in Hy by done. destruct (decide (((i - 1) / 2)%nat = pos)) as [Hp|Hp].
      * rewrite Hp, Hpos' in Hx. injection Hx as <-. by apply (Hmin i).
      * rewrite Hother in Hx by done. by apply (ho_edge _ _ _ Hh i Hi Hsi Hne Hp x y).
  - intros i x y Hi Hp Hs Hx Hy. rewrite Hc, Hpos' in Hx. injection Hx as <-. pose proof (parent_lt i Hi) as Hpi.
    rewrite Hother in Hy by lia. apply (ho_edge _ _ _ Hh i Hi); rewrite ?Hp; auto; [|lia|lia].
    pose proof (desc_ge _ _ Hd). lia.
Qed.

Lemma siftup_loop_spec fuel : ∀ heap s pos new,
  (length heap - pos ≤ fuel)%nat → (pos < length heap)%nat → hole s (<[pos := new]> heap) pos →
  let '(heap', leaf) := siftup_loop fuel heap pos in
  (leaf < length heap')%nat ∧ hole s (<[leaf := new]> heap') leaf ∧ (length heap' ≤ 2 * leaf + 1)%nat ∧
  <[leaf := new]> heap' ≡ₚ <[pos := new]> heap.
Proof.
  induction fuel as [|fuel IH]; intros heap s pos new Hf Hlen Hh; [lia|]. cbn [siftup_loop].
  destruct (heap !! (2 * pos + 1)%nat) as [c1|] eqn:E1.
  2:{ split_and!; auto. by apply lookup_ge_None in E1. }
  set (H := <[pos := new]> heap) in *. assert (H !! pos = Some new) as Hpos by by apply list_lookup_insert_eq.
  assert (∀ j, j ≠ pos → H !! j = heap !! j) as HH by (intros j Hj; unfold H; by rewrite list_lookup_insert_ne).
  assert (∀ c child, (1 ≤ c)%nat → ((c - 1) / 2)%nat = pos → heap !! c = Some child →
    (∀ d y, (1 ≤ d)%nat → ((d - 1) / 2)%nat = pos → H !! d = Some y → le child y) →
    let '(heap', leaf) := siftup_loop fuel (<[pos := child]> heap) c in
    (leaf < length heap')%nat ∧ hole s (<[leaf := new]> heap') leaf ∧ (length heap' ≤ 2 * leaf + 1)%nat ∧
    <[leaf := new]> heap' ≡ₚ H) as Hgo.
  { intros c child Hc1 Hc Hch Hmin. pose proof (parent_lt c Hc1) as Hpc. pose proof (lookup_lt_Some _ _ _ Hch) as Hcl.
    assert (<[c := new]> (<[pos := child]> H) = <[c := new]> (<[pos := child]> heap)) as EH
      by (unfold H; by rewrite list_insert_insert_eq).
    pose proof (hole_down s H pos c new child Hh Hc1 Hc ltac:(unfold H; by rewrite length_insert) Hpos
      ltac:(by rewrite HH by lia) Hmin) as Hh'. rewrite EH in Hh'.
    specialize (IH (<[pos := child]> heap) s c new). rewrite length_insert in IH.
    destruct (siftup_loop fuel (<[pos := child]> heap) c) as [heap' leaf].
    destruct IH as (I1 & I2 & I3 & I4); [lia|lia|done|]. split_and!; auto. rewrite I4, <-EH.
    apply Permutation_insert_swap; [done|]. by rewrite HH by lia. }
  assert (∀ d y, (1 ≤ d)%nat → ((d - 1) / 2)%nat = pos → H !! d = Some y →
    (d = (2 * pos + 1)%nat ∧ y = c1) ∨ (d = (2 * pos + 1 + 1)%nat ∧ heap !! (2 * pos + 1 + 1)%nat = Some y)) as Hkids.
  { intros d y Hd Hdp Hy. pose proof (parent_lt d Hd). rewrite HH in Hy by lia. destruct (proj1 (parent_child d pos Hd) Hdp) as [->| ->].
    - left. split; [done|]. congruence.
    - right. replace (2 * pos + 1 + 1)%nat with (2 * pos + 2)%nat by lia. done. }
  destruct (heap !! (2 * pos + 1 + 1)%nat) as [c2|] eqn:E2.
  - destruct (lt c1 c2) eqn:Elt.
    + apply Hgo; auto; [lia|apply parent_child; lia|]. intros d y Hd Hdp Hy.
      destruct (Hkids d y Hd Hdp Hy) as [[_ ->]|[_ [= ->]]]; [apply le_refl|by apply lt_le].
    + apply Hgo; auto; [lia|apply parent_child; lia|]. intros d y Hd Hdp Hy.
      destruct (Hkids d y Hd Hdp Hy) as [[_ ->]|[_ [= ->]]]; [done|apply le_refl].
  - apply Hgo; auto; [lia|apply parent_child; lia|]. intros d y Hd Hdp Hy.
    destruct (Hkids d y Hd Hdp Hy) as [[_ ->]|[_ ?]]; [apply le_refl|done].
Qed.

(** [_siftup] extends the heap by one root. *)
Lemma siftup_spec heap s : heap_from (S s) heap → heap_from s (siftup heap s) ∧ siftup heap s ≡ₚ heap.
Proof.
  intros Hh. unfold siftup. destruct (heap !! s) as [new|] eqn:Es.
  2:{ split; [|done]. intros i Hi x y Hi1 Hx Hy. apply lookup_ge_None in Es. apply lookup_lt_Some in Hx. lia. }
  pose proof (lookup_lt_Some _ _ _ Es) as Hlen. assert (<[s := new]> heap = heap) as Eid by by apply list_insert_id.
  pose proof (siftup_loop_spec (length heap) heap s s new) as Hspec. rewrite Eid in Hspec.
  destruct (siftup_loop (length heap) heap s) as [heap' leaf].
  destruct Hspec as (H1 & H2 & H3 & H4); [lia|done| |].
  { split; [constructor| |done]. intros i Hi Hsi Hne Hp. apply Hh. lia. }
  destruct (siftdown_spec (S leaf) heap' s leaf new) as [H5 H6]; [lia|done|done| |].
  { intros i y Hi Hp Hy. apply lookup_lt_Some in Hy. rewrite length_insert in Hy. destruct (proj1 (parent_child i leaf Hi) Hp); lia. }
  split; [done|]. by rewrite H6.
Qed.

Lemma heappush_spec heap x : is_heap heap → is_heap (heappush heap x) ∧ heappush heap x ≡ₚ x :: heap.
Proof.
  intros Hh. unfold heappush. assert (<[length heap := x]> (heap ++ [x]) = heap ++ [x]) as Eid
    by (apply list_insert_id; by rewrite list_lookup_middle).
  destruct (siftdown_spec (S (length heap)) (heap ++ [x]) 0 (length heap) x) as [H1 H2]; rewrite ?Eid in *.
  - lia.
  - rewrite length_app. cbn. lia.
  - split.
    + apply desc_root.
    + intros i Hi _ Hne Hp y z _ Hy Hz. pose proof (lookup_lt_Some _ _ _ Hz) as Hl. rewrite length_app in Hl. cbn in Hl.
      pose proof (parent_lt i Hi). rewrite lookup_app_l in Hy, Hz by lia. by apply (Hh i ltac:(lia) y z).
    + intros i y z Hi Hp _ _ Hz. apply lookup_lt_Some in Hz. rewrite length_app in Hz. cbn in Hz. pose proof (parent_lt i Hi). lia.
  - intros i y Hi Hp Hy. apply lookup_lt_Some in Hy. rewrite length_app in Hy. cbn in Hy. pose proof (parent_lt i Hi). lia.
  - split; [done|]. rewrite H2. apply Permutation_app_comm.
Qed.

(** The root is minimal. *)
Lemma heap_min heap x y i : is_heap heap → heap !! 0%nat = Some x → heap !! i = Some y → le x y.
Proof.
  intros Hh Hx. revert y. induction i as [i IH] using lt_wf_ind. intros y Hy.
  destruct (decide (i = 0%nat)) as [->|Hi]; [rewrite Hx in Hy; injection Hy as <-; apply le_refl|].
  pose proof (parent_lt i ltac:(lia)) as Hp. pose proof (lookup_lt_Some _ _ _ Hy).
  destruct (lookup_lt_is_Some_2 heap ((i - 1) / 2)%nat) as [z Hz]; [lia|].
  apply (le_trans x z y); [by apply (IH _ Hp)|]. apply (Hh i); auto; lia.
Qed.

Lemma heappop_spec heap :
  is_heap heap →
  match heappop heap with
  | None => heap = []
  | Some (x, rest) => is_heap rest ∧ heap ≡ₚ x :: rest ∧ heap !! 0%nat = Some x ∧ Forall (le x) heap
  end.
Proof.
  intros Hh. unfold heappop. destruct heap as [|l heap _] using rev_ind; [done|]. rewrite reverse_snoc, reverse_involutive.
  destruct heap as [|x tl].
  - split; [|split_and!; [done..|apply Forall_singleton, le_refl]].
    intros i _ ? ? _ Ha. by destruct ((i - 1) / 2)%nat.
  - assert (Forall (le x) ((x :: tl) ++ [l])) as Hmin.
    { apply Forall_lookup. intros i y Hy. by apply (heap_min _ x y i Hh). }
    destruct (siftup_spec (l :: tl) 0) as [H1 H2].
    { intros i Hi y z Hi1 Hy Hz. apply (Hh i ltac:(lia) y z Hi1).
      - pose proof (lookup_lt_Some _ _ _ Hy) as Hl. cbn in Hl. rewrite lookup_app_l by (cbn; lia).
        by destruct ((i - 1) / 2)%nat; [lia|].
      - pose proof (lookup_lt_Some _ _ _ Hz) as Hl. cbn in Hl. rewrite lookup_app_l by (cbn; lia). by destruct i; [lia|]. }
    split_and!; try done. rewrite H2. rewrite (Permutation_app_comm _ [l]). cbn. apply Permutation_swap.
Qed.

Lemma heapify_spec heap : is_heap (heapify heap) ∧ heapify heap ≡ₚ heap.
Proof.
  unfold heapify.
  assert (∀ n H, heap_from n H → is_heap (foldl siftup H (reverse (seq 0 n))) ∧ foldl siftup H (reverse (seq 0 n)) ≡ₚ H) as Hgo.
  { induction n as [|n IH]; intros H Hn; [done|]. rewrite seq_S, reverse_app. cbn.
    destruct (siftup_spec H n Hn) as [H1 H2]. destruct (IH _ H1) as [H3 H4]. split; [done|]. by rewrite H4. }
  apply Hgo. intros i Hi x y Hi1 Hx Hy. exfalso. apply lookup_lt_Some in Hy.
  pose proof (Nat.Div0.div_mod (length heap) 2). pose proof (Nat.mod_upper_bound (length heap) 2 ltac:(lia)).
  pose proof (Nat.Div0.div_mod (i - 1) 2). pose proof (Nat.mod_upper_bound (i - 1) 2 ltac:(lia)). lia.
Qed.

End heapq.
