(* ===== verification/RequestQueue.v ===== *)
(** * Waiting queues (vllm/v1/core/sched/request_queue.py)

    The two queues behind the abstract [RequestQueue]: a deque (first come,
    first served) and a [heapq] heap ordered by [Request.__lt__] (priority,
    arrival time, id).  Membership tests compare objects; one request object
    exists per id, so they compare ids here. *)

From Stdlib Require Import Ascii Sorting.Sorted.
From S2P Require Import Prelude RequestModel Heapq.

(** ** Data and operations *)

Inductive SchedulingPolicy := FCFS | PRIORITY.

Inductive RequestQueue :=
  | FCFSRequestQueue (q : list Request)
  | PriorityRequestQueue (heap : list Request).

(** [create_request_queue] *)
Definition create_request_queue (policy : SchedulingPolicy) : RequestQueue :=
  match policy with PRIORITY => PriorityRequestQueue [] | FCFS => FCFSRequestQueue [] end.

Definition same_object (a b : Request) : Prop := request_id a = request_id b.
#[global] Instance same_object_dec a b : Decision (same_object a b).
Proof. unfold same_object. apply _. Defined.

(** *** FCFSRequestQueue: a deque *)

Definition fcfs_add_request (l : list Request) (r : Request) : list Request := l ++ [r].

(** [deque.popleft] *)
Definition fcfs_pop_request (l : list Request) : res (Request * list Request) :=
  match l with [] => Raise IndexError | r :: l => Ok (r, l) end.

Definition fcfs_peek_request (l : list Request) : res Request :=
  match l !! 0%nat with Some r => Ok r | None => Raise IndexError end.

Definition fcfs_prepend_request (l : list Request) (r : Request) : list Request := r :: l.

(** [extendleft] reverses the order of the other queue. *)
Definition fcfs_prepend_requests (l other : list Request) : list Request := reverse other ++ l.

(** [list.remove]: the first occurrence, [None] is [ValueError]. *)
Fixpoint remove_object (r : Request) (l : list Request) : option (list Request) :=
  match l with
  | [] => None
  | x :: l => if decide (same_object x r) then Some l else l' ← remove_object r l; Some (x :: l')
  end.

Definition fcfs_remove_request (l : list Request) (r : Request) : res (list Request) :=
  match remove_object r l with None => Raise ValueError | Some l => Ok l end.

(** The requests not to remove. *)
Definition keep (rs l : list Request) : list Request :=
  filter (λ x, Forall (λ r, request_id x ≠ request_id r) rs) l.
Definition fcfs_remove_requests (l rs : list Request) : list Request := keep rs l.

(** *** PriorityRequestQueue: a binary heap *)

Definition prio_add_request (h : list Request) (r : Request) : list Request := heappush request_lt h r.

Definition prio_pop_request (h : list Request) : res (Request * list Request) :=
  match heappop request_lt h with None => Raise IndexError | Some rh => Ok rh end.

Definition prio_peek_request (h : list Request) : res Request :=
  match h !! 0%nat with Some r => Ok r | None => Raise IndexError end.

(** The heap has no front. *)
Definition prio_prepend_request (h : list Request) (r : Request) : list Request := prio_add_request h r.

Definition prio_prepend_requests (h other : list Request) : list Request := foldl prio_add_request h other.

Definition prio_remove_request (h : list Request) (r : Request) : res (list Request) :=
  match remove_object r h with None => Raise ValueError | Some h => Ok (heapify request_lt h) end.

Definition prio_remove_requests (h rs : list Request) : list Request := heapify request_lt (keep rs h).

(** [__iter__]: a copy of the heap is popped until it is empty; its length
    bounds the number of pops. *)
Fixpoint heap_order (fuel : nat) (h : list Request) : list Request :=
  match fuel with
  | O => []
  | S fuel =>
      match heappop request_lt h with
      | None => []
      | Some (r, h) => r :: heap_order fuel h
      end
  end.
Definition prio_iter (h : list Request) : list Request := heap_order (length h) h.

(** *** The interface [RequestQueue] *)

Definition add_request (q : RequestQueue) (r : Request) : RequestQueue :=
  match q with
  | FCFSRequestQueue l => FCFSRequestQueue (fcfs_add_request l r)
  | PriorityRequestQueue h => PriorityRequestQueue (prio_add_request h r)
  end.

Definition pop_request : M RequestQueue Request := λ q,
  match q with
  | FCFSRequestQueue l =>
      match fcfs_pop_request l with Ok (r, l) => (Ok r, FCFSRequestQueue l) | Raise e => (Raise e, q) end
  | PriorityRequestQueue h =>
      match prio_pop_request h with Ok (r, h) => (Ok r, PriorityRequestQueue h) | Raise e => (Raise e, q) end
  end.

Definition peek_request (q : RequestQueue) : res Request :=
  match q with FCFSRequestQueue l => fcfs_peek_request l | PriorityRequestQueue h => prio_peek_request h end.

Definition prepend_request (q : RequestQueue) (r : Request) : RequestQueue :=
  match q with
  | FCFSRequestQueue l => FCFSRequestQueue (fcfs_prepend_request l r)
  | PriorityRequestQueue h => PriorityRequestQueue (prio_prepend_request h r)
  end.

Definition q_iter (q : RequestQueue) : list Request :=
  match q with FCFSRequestQueue l => l | PriorityRequestQueue h => prio_iter h end.

Definition prepend_requests (q other : RequestQueue) : RequestQueue :=
  match q with
  | FCFSRequestQueue l => FCFSRequestQueue (fcfs_prepend_requests l (q_iter other))
  | PriorityRequestQueue h => PriorityRequestQueue (prio_prepend_requests h (q_iter other))
  end.

Definition remove_request (r : Request) : M RequestQueue unit := λ q,
  match q with
  | FCFSRequestQueue l =>
      match fcfs_remove_request l r with Ok l => (Ok tt, FCFSRequestQueue l) | Raise e => (Raise e, q) end
  | PriorityRequestQueue h =>
      match prio_remove_request h r with Ok h => (Ok tt, PriorityRequestQueue h) | Raise e => (Raise e, q) end
  end.

Definition remove_requests (q : RequestQueue) (rs : list Request) : RequestQueue :=
  match q with
  | FCFSRequestQueue l => FCFSRequestQueue (fcfs_remove_requests l rs)
  | PriorityRequestQueue h => PriorityRequestQueue (prio_remove_requests h rs)
  end.

(** [__len__], [__bool__] *)
Definition q_len (q : RequestQueue) : Z :=
  match q with FCFSRequestQueue l => len l | PriorityRequestQueue h => len h end.
Definition q_bool (q : RequestQueue) : bool := 0 <? q_len q.

(** ** The order of requests *)

Lemma string_ltb_total a b : string_ltb a b = false → string_ltb b a = false → a = b.
Proof.
  unfold string_ltb. intros H1 H2. destruct (String.compare a b) eqn:E; try done; [by apply String.compare_eq_iff|].
  rewrite String.compare_antisym, E in H2. done.
Qed.

Lemma string_ltb_asym a b : string_ltb a b = true → string_ltb b a = false.
Proof. unfold string_ltb. rewrite (String.compare_antisym b a). by destruct (String.compare a b). Qed.

Lemma string_ltb_cons x y a b :
  string_ltb (String x a) (String y b) =
    match N.compare (Ascii.N_of_ascii x) (Ascii.N_of_ascii y) with Lt => true | Eq => string_ltb a b | Gt => false end.
Proof. unfold string_ltb. cbn. unfold Ascii.compare. by destruct (N.compare _ _). Qed.

Lemma string_ltb_trans a : ∀ b c, string_ltb b a = false → string_ltb c b = false → string_ltb c a = false.
Proof.
  induction a as [|x a IH]; intros [|y b] [|z c]; try done. rewrite !string_ltb_cons.
  destruct (N.compare_spec (Ascii.N_of_ascii y) (Ascii.N_of_ascii x)), (N.compare_spec (Ascii.N_of_ascii z) (Ascii.N_of_ascii y)),
    (N.compare_spec (Ascii.N_of_ascii z) (Ascii.N_of_ascii x)); try done; try lia. apply IH.
Qed.

(** [Request.__lt__] is a strict weak order, total on distinct ids. *)
#[global] Instance request_order : WeakOrder request_lt.
Proof.
  split.
  - intros x y. unfold request_lt. destruct (Z.eqb_spec (priority x) (priority y)), (Z.eqb_spec (priority y) (priority x)); try lia;
      cbn [negb]; try lia. destruct (Z.eqb_spec (arrival_time x) (arrival_time y)), (Z.eqb_spec (arrival_time y) (arrival_time x)); try lia;
      cbn [negb]; try lia. apply string_ltb_asym.
  - intros x y z. unfold request_lt.
    destruct (Z.eqb_spec (priority y) (priority x)), (Z.eqb_spec (priority z) (priority y)), (Z.eqb_spec (priority z) (priority x));
      try lia; cbn [negb]; try lia.
    destruct (Z.eqb_spec (arrival_time y) (arrival_time x)), (Z.eqb_spec (arrival_time z) (arrival_time y)),
      (Z.eqb_spec (arrival_time z) (arrival_time x)); try lia; cbn [negb]; try lia. apply string_ltb_trans.
Qed.

Lemma request_lt_total a b : request_lt a b = false → request_lt b a = false → same_object a b.
Proof.
  unfold request_lt, same_object. destruct (Z.eqb_spec (priority a) (priority b)), (Z.eqb_spec (priority b) (priority a)); try lia;
    cbn [negb]; try lia. destruct (Z.eqb_spec (arrival_time a) (arrival_time b)), (Z.eqb_spec (arrival_time b) (arrival_time a)); try lia;
    cbn [negb]; try lia. apply string_ltb_total.
Qed.

(** ** Contract of the queues *)

Definition contents (q : RequestQueue) : list Request :=
  match q with FCFSRequestQueue l => l | PriorityRequestQueue h => h end.
Definition queue_inv (q : RequestQueue) : Prop :=
  match q with FCFSRequestQueue _ => True | PriorityRequestQueue h => heap_from request_lt 0 h end.

(** [r] may leave the queue next: the oldest one, or one that no other
    request precedes. *)
Definition next_of (q : RequestQueue) (r : Request) : Prop :=
  match q with
  | FCFSRequestQueue l => head l = Some r
  | PriorityRequestQueue h => Forall (λ y, request_lt y r = false) h
  end.

Lemma create_inv policy : queue_inv (create_request_queue policy).
Proof. destruct policy; [done|]. intros i _ x y _ Hx. by destruct ((i - 1) / 2)%nat. Qed.

Lemma add_inv q r : queue_inv q → queue_inv (add_request q r) ∧ contents (add_request q r) ≡ₚ r :: contents q.
Proof.
  destruct q as [l|h]; cbn.
  - intros _. split; [done|]. by rewrite (Permutation_app_comm l [r]).
  - apply heappush_spec, _.
Qed.

Lemma pop_inv q :
  queue_inv q →
  match pop_request q with
  | (Ok r, q') => queue_inv q' ∧ contents q ≡ₚ r :: contents q' ∧ peek_request q = Ok r ∧ next_of q r
  | (Raise e, q') => e = IndexError ∧ contents q = [] ∧ q' = q
  end.
Proof.
  destruct q as [[|r l]|h]; cbn; try done. intros Hh. unfold prio_pop_request, prio_peek_request.
  pose proof (heappop_spec request_lt h Hh) as Hp. destruct (heappop request_lt h) as [[r h']|]; cbn; [|by subst].
  destruct Hp as (H1 & H2 & H3 & H4). split_and!; auto. by rewrite H3.
Qed.

Lemma prio_adds_inv rs h :
  heap_from request_lt 0 h →
  heap_from request_lt 0 (prio_prepend_requests h rs) ∧ prio_prepend_requests h rs ≡ₚ rs ++ h.
Proof.
  revert h. induction rs as [|r rs IH]; intros h Hh; [done|]. unfold prio_prepend_requests in *. cbn [foldl].
  destruct (add_inv (PriorityRequestQueue h) r Hh) as [H1 H2]. destruct (IH _ H1) as [I1 I2].
  split; [done|]. rewrite I2. cbn in H2. rewrite H2. apply Permutation_sym, Permutation_middle.
Qed.

(** Iteration pops a copy: sorted, and a permutation of the contents. *)
Lemma heap_order_spec fuel : ∀ h,
  heap_from request_lt 0 h → (length h ≤ fuel)%nat →
  heap_order fuel h ≡ₚ h ∧ StronglySorted (λ a b, request_lt b a = false) (heap_order fuel h).
Proof.
  induction fuel as [|fuel IH]; intros h Hh Hl; cbn [heap_order].
  { destruct h; [|cbn in Hl; lia]. split; [done|constructor]. }
  pose proof (heappop_spec request_lt h Hh) as Hp. destruct (heappop request_lt h) as [[r h']|]; [|subst; split; [done|constructor]].
  destruct Hp as (H1 & H2 & _ & H4). pose proof (Permutation_length H2) as Hlen. cbn in Hlen.
  destruct (IH h' H1 ltac:(lia)) as [I1 I2]. split; [by rewrite I1|]. constructor; [done|].
  rewrite I1. rewrite H2 in H4. by apply Forall_cons in H4 as [_ H4].
Qed.

(** ** The order of the contents *)

(** [q] is a queue of the same kind as [q0] whose requests are [l]: in exactly
    this order for the deque, a well-formed heap of them for the priority queue,
    where only [Request.__lt__] decides who leaves next. *)
Definition arranged (q0 q : RequestQueue) (l : list Request) : Prop :=
  match q0, q with
  | FCFSRequestQueue _, FCFSRequestQueue l' => l' = l
  | PriorityRequestQueue _, PriorityRequestQueue h => h ≡ₚ l ∧ heap_from request_lt 0 h
  | _, _ => False
  end.

Lemma add_arranged q r : queue_inv q → arranged q (add_request q r) (contents q ++ [r]).
Proof.
  destruct q as [l|h]; [done|]. intros Hh. destruct (add_inv (PriorityRequestQueue h) r Hh) as [H1 H2].
  split; [|done]. cbn in *. by rewrite H2, (Permutation_app_comm h [r]).
Qed.

Lemma prepend_arranged q r : queue_inv q → arranged q (prepend_request q r) (r :: contents q).
Proof.
  destruct q as [l|h]; [done|]. intros Hh. by destruct (add_inv (PriorityRequestQueue h) r Hh).
Qed.

Lemma prepend_requests_arranged q other :
  queue_inv q → arranged q (prepend_requests q other) (reverse (q_iter other) ++ contents q).
Proof.
  destruct q as [l|h]; [done|]. intros Hh. destruct (prio_adds_inv (q_iter other) h Hh) as [H1 H2].
  split; [|done]. cbn. by rewrite H2, (reverse_Permutation (q_iter other)).
Qed.

Lemma remove_requests_arranged q rs : arranged q (remove_requests q rs) (keep rs (contents q)).
Proof. destruct q as [l|h]; [done|]. by destruct (heapify_spec request_lt (keep rs h)). Qed.

(** [list.remove] takes out the first occurrence and nothing else. *)
Lemma remove_object_first r l :
  match remove_object r l with
  | Some l' => ∃ l1 x l2, l = l1 ++ x :: l2 ∧ same_object x r ∧ Forall (λ y, ¬ same_object y r) l1 ∧ l' = l1 ++ l2
  | None => Forall (λ x, ¬ same_object x r) l
  end.
Proof.
  induction l as [|x l IH]; cbn [remove_object]; [done|]. destruct (decide (same_object x r)); [by exists [], x, l|].
  destruct (remove_object r l) as [l'|]; cbn; [|by constructor].
  destruct IH as (l1 & y & l2 & -> & Hy & Hl1 & ->). exists (x :: l1), y, l2. split_and!; try done. by constructor.
Qed.

Lemma remove_arranged q r :
  match remove_request r q with
  | (Ok _, q') => ∃ l1 x l2, contents q = l1 ++ x :: l2 ∧ same_object x r ∧
      Forall (λ y, ¬ same_object y r) l1 ∧ arranged q q' (l1 ++ l2)
  | (Raise e, q') => e = ValueError ∧ Forall (λ x, ¬ same_object x r) (contents q) ∧ q' = q
  end.
Proof.
  pose proof (remove_object_first r (contents q)) as H.
  destruct q as [l|h]; cbn in *; unfold fcfs_remove_request, prio_remove_request.
  - destruct (remove_object r l) as [l'|]; [|done]. destruct H as (l1 & x & l2 & ? & ? & ? & ->). by exists l1, x, l2.
  - destruct (remove_object r h) as [h'|]; [|done]. destruct H as (l1 & x & l2 & ? & ? & ? & ->). exists l1, x, l2.
    by destruct (heapify_spec request_lt (l1 ++ l2)).
Qed.

(** [x], which stands after [l1] in the contents, leaves next: it is the head of
    the deque, or no queued request precedes it. *)
Definition next_after (q : RequestQueue) (l1 : list Request) (x : Request) : Prop :=
  match q with
  | FCFSRequestQueue _ => l1 = []
  | PriorityRequestQueue h => Forall (λ y, request_lt y x = false) h
  end.

Lemma pop_arranged q :
  queue_inv q →
  match pop_request q with
  | (Ok x, q') => ∃ l1 l2, contents q = l1 ++ x :: l2 ∧ next_after q l1 x ∧ arranged q q' (l1 ++ l2) ∧ peek_request q = Ok x
  | (Raise e, q') => e = IndexError ∧ contents q = [] ∧ q' = q ∧ peek_request q = Raise IndexError
  end.
Proof.
  intros Hq. pose proof (pop_inv q Hq) as H. destruct q as [[|r l]|h]; [done|by exists [], l|].
  cbn in *. destruct (prio_pop_request h) as [[x h']|e]; cbn in *.
  - destruct H as (H1 & H2 & H3 & H4). assert (x ∈ h) as (l1 & l2 & ->)%list_elem_of_split by (rewrite H2; left).
    exists l1, l2. split_and!; try done. apply (Permutation_cons_inv (a := x)). by rewrite Permutation_middle, <-H2.
  - by destruct H as (-> & -> & _).
Qed.

(** C37.  Both queues keep the contract of [RequestQueue], order included.
    For the FCFS queue the contents after each call are exactly: the old ones
    followed by the added request; the prepended request in front; the other
    queue's requests in front, in reverse; the old ones without the removed
    ones; without the first occurrence of the removed request; without the head,
    which is what was popped.  For the priority queue they are the same requests
    in a well-formed heap, and the popped request is one that no other precedes
    by (priority, arrival time, id).  [peek_request] shows what [pop_request]
    returns; both raise [IndexError] exactly when the queue is empty, and
    [remove_request] raises [ValueError] exactly for a request that is not
    queued, each leaving the queue alone. *)
Theorem request_queue_contract q other r rs :
  queue_inv q →
  arranged q (add_request q r) (contents q ++ [r]) ∧
  arranged q (prepend_request q r) (r :: contents q) ∧
  arranged q (prepend_requests q other) (reverse (q_iter other) ++ contents q) ∧
  arranged q (remove_requests q rs) (keep rs (contents q)) ∧
  match remove_request r q with
  | (Ok _, q') => ∃ l1 x l2, contents q = l1 ++ x :: l2 ∧ same_object x r ∧
      Forall (λ y, ¬ same_object y r) l1 ∧ arranged q q' (l1 ++ l2)
  | (Raise e, q') => e = ValueError ∧ Forall (λ x, ¬ same_object x r) (contents q) ∧ q' = q
  end ∧
  match pop_request q with
  | (Ok x, q') => ∃ l1 l2, contents q = l1 ++ x :: l2 ∧ next_after q l1 x ∧ arranged q q' (l1 ++ l2) ∧ peek_request q = Ok x
  | (Raise e, q') => e = IndexError ∧ contents q = [] ∧ q' = q ∧ peek_request q = Raise IndexError
  end.
Proof.
  intros Hq. split_and!; [by apply add_arranged|by apply prepend_arranged|by apply prepend_requests_arranged| | |].
  - apply remove_requests_arranged.
  - apply remove_arranged.
  - by apply pop_arranged.
Qed.

Definition two_priorities : RequestQueue :=
  add_request (add_request (create_request_queue PRIORITY) (text_request "b" [1] None None [])) (text_request "a" [1] None None []).

Lemma request_queue_contract_witness :
  ∃ x q', pop_request two_priorities = (Ok x, q') ∧ request_id x = "a"%string ∧ next_of two_priorities x.
Proof.
  assert (queue_inv two_priorities) as Hq by (apply add_inv, add_inv, create_inv).
  pose proof (request_queue_contract two_priorities two_priorities (text_request "c" [1] None None []) [] Hq)
    as (_ & _ & _ & _ & _ & H).
  destruct (pop_request two_priorities) as [[x|e] q'] eqn:E; [|vm_compute in E; discriminate].
  exists x, q'. split; [reflexivity|]. split; [vm_compute in E; by injection E as <-|].
  destruct H as (l1 & l2 & _ & Hn & _). exact Hn.
Defined.

(** Iterating over the priority queue yields exactly its requests in the
    order in which they would be popped: by priority, then arrival time, then
    id, each request after all that precede it. *)
Theorem priority_queue_iter_sorted h :
  queue_inv (PriorityRequestQueue h) →
  q_iter (PriorityRequestQueue h) ≡ₚ h ∧
  StronglySorted (λ a b, request_lt b a = false) (q_iter (PriorityRequestQueue h)).
Proof. intros Hh. by apply heap_order_spec. Qed.

Lemma priority_queue_iter_sorted_witness :
  request_id <$> q_iter two_priorities = ["a"%string; "b"%string] ∧
  StronglySorted (λ a b, request_lt b a = false) (q_iter two_priorities).
Proof.
  assert (queue_inv two_priorities) as Hq by (apply add_inv, add_inv, create_inv).
  split; [vm_compute; reflexivity|].
  exact (proj2 (priority_queue_iter_sorted (contents two_priorities) Hq)).
Defined.

(** Skipped requests keep their order: the scheduler prepends each request
    it skips to a fresh queue and prepends that queue to [skipped_waiting] at
    the end of the pass; under FCFS the two reversals cancel, so the requests
    are back in front in the order in which they were visited. *)
Theorem skipped_requests_keep_order rs l :
  prepend_requests (FCFSRequestQueue l) (foldl prepend_request (create_request_queue FCFS) rs) = FCFSRequestQueue (rs ++ l).
Proof.
  assert (∀ xs ys, foldl prepend_request (FCFSRequestQueue ys) xs = FCFSRequestQueue (reverse xs ++ ys)) as Hf.
  { induction xs as [|r xs IH]; intros ys; [done|].
    change (foldl prepend_request (FCFSRequestQueue (r :: ys)) xs = FCFSRequestQueue (reverse (r :: xs) ++ ys)).
    by rewrite IH, reverse_cons, <-app_assoc. }
  cbn [create_request_queue]. rewrite Hf, app_nil_r. cbn [prepend_requests q_iter]. unfold fcfs_prepend_requests. by rewrite reverse_involutive.
Qed.
