(* ===== verification/SchedulerState.v ===== *)
(** * State of the scheduler (vllm/v1/core/sched/scheduler.py, interface.py, output.py)

    The scheduler keeps every [Request] object it knows in three collections
    (running, waiting, skipped_waiting) and in the dict [requests]; the objects
    are shared and mutated.  Here [s_objs] is the heap of request objects, keyed
    by request id (the engine gives every live request its own id), and the
    collections hold ids, so a mutation of a request is seen wherever it is
    queued.  The configuration is a record, and the components the scheduler
    only calls through an interface - the KV connector, the encoder-cache
    connector, the structured-output manager - are a record of functions on a
    state type [E] of their own. *)

From S2P Require Import Prelude FreeQueue RequestModel BlockHash KVCacheMetrics.
From S2P Require Import BlockPool KVCacheInterface KVCacheManager SchedUtils EncoderCache RequestQueue.

(** ** Queues of request ids *)

Inductive IdQueue :=
  | IdFCFS (ids : list string)
  | IdHeap (ids : list string).

Definition q_ids (q : IdQueue) : list string := match q with IdFCFS l | IdHeap l => l end.

(** The queue with the objects as they are now, and back. *)
Definition load_queue (objs : gmap string Request) (q : IdQueue) : RequestQueue :=
  match q with
  | IdFCFS l => FCFSRequestQueue (omap (λ i, objs !! i) l)
  | IdHeap l => PriorityRequestQueue (omap (λ i, objs !! i) l)
  end.
Definition store_queue (q : RequestQueue) : IdQueue :=
  match q with
  | FCFSRequestQueue l => IdFCFS (request_id <$> l)
  | PriorityRequestQueue h => IdHeap (request_id <$> h)
  end.
Definition empty_queue (policy : SchedulingPolicy) : IdQueue := store_queue (create_request_queue policy).
Definition q_nonempty (q : IdQueue) : bool := negb (bool_decide (q_ids q = [])).

(** ** Components behind the scheduler *)

Inductive PauseState := UNPAUSED | PAUSED_NEW | PAUSED_ALL.
#[global] Instance PauseState_eq_dec : EqDecision PauseState.
Proof. solve_decision. Defined.

(** [EncoderCacheManager] or, for encoder-decoder models, [EncoderDecoderCacheManager]. *)
Inductive EncoderManager :=
  | MultiModal (e : EncoderCacheManager)
  | EncDec (e : EncoderDecoderCacheManager).

(** The interfaces the scheduler calls: the KV connector ([connector_on] says
    whether one is configured), the encoder-cache connector and the
    structured-output manager.  Transfer parameters are opaque strings. *)
Record Plugins (E : Type) := MkPlugins {
  connector_on : bool;
  supports_hma : bool;
  get_num_new_matched_tokens : Request → Z → E → option Z * bool * E;
  update_state_after_alloc : Request → list (list ref) → Z → E → E;
  request_finished : Request → list (list Z) → E → bool * option (list string) * E;
  update_connector_output : E → E;
  connector_take_events : E → list KVCacheEvent * E;
  build_connector_meta : E → E;
  reset_cache : E → bool * E;
  ec_connector_on : bool;
  has_cache_item : string → E → bool;
  ec_update_state_after_alloc : Request → nat → E → E;
  ec_build_connector_meta : E → E;
  should_advance : Request → E → bool;
  accept_tokens : string → list Z → E → bool * E;
  validate_tokens : string → list Z → E → list Z;
}.
#[global] Arguments connector_on {E}.
#[global] Arguments supports_hma {E}.
#[global] Arguments get_num_new_matched_tokens {E}.
#[global] Arguments update_state_after_alloc {E}.
#[global] Arguments request_finished {E}.
#[global] Arguments update_connector_output {E}.
#[global] Arguments connector_take_events {E}.
#[global] Arguments build_connector_meta {E}.
#[global] Arguments reset_cache {E}.
#[global] Arguments ec_connector_on {E}.
#[global] Arguments has_cache_item {E}.
#[global] Arguments ec_update_state_after_alloc {E}.
#[global] Arguments ec_build_connector_meta {E}.
#[global] Arguments should_advance {E}.
#[global] Arguments accept_tokens {E}.
#[global] Arguments validate_tokens {E}.

(** What [Scheduler.__init__] reads from the configuration, and the hash
    functions of the requests.  [async_scheduler] selects [AsyncScheduler]. *)
Record SchedulerConfig := MkSchedulerConfig {
  policy : SchedulingPolicy;
  max_num_running_reqs : Z;
  max_num_scheduled_tokens : Z;
  sched_max_model_len : Z;
  long_prefill_token_threshold : Z;
  enable_chunked_prefill : bool;
  disable_chunked_mm_input : bool;
  max_num_encoder_input_tokens : Z;
  is_encoder_decoder : bool;
  use_eagle : bool;
  num_spec_tokens : Z;
  num_lookahead_tokens : Z;
  scheduler_reserve_full_isl : bool;
  need_mamba_block_aligned_split : bool;
  cache_block_size : Z;
  sched_block_size : Z;
  max_loras : option Z;
  use_pp : bool;
  use_v2_model_runner : bool;
  async_scheduling : bool;
  async_scheduler : bool;
  needs_kv_cache_zeroing : bool;
  recompute_kv_load_failures : bool;
  return_routed_experts : option (nat * Z);
  sched_num_groups : nat;
  block_hasher : option Z;
  h_sha256 : bytes → bytes;
  h_hash : bytes * list Z * option (list extra_key) → bytes;
  h_none : bytes;
}.

(** ** The scheduler *)

Section state.
Context {E : Type}.

Record Sched := MkSched {
  s_objs : gmap string Request;
  requests : list string;
  waiting : IdQueue;
  skipped_waiting : IdQueue;
  running : list string;
  finished_req_ids : gset string;
  finished_req_ids_dict : option (gmap Z (gset string));
  prev_step_scheduled_req_ids : gset string;
  num_waiting_for_streaming_input : Z;
  finished_recving_kv_req_ids : gset string;
  failed_recving_kv_req_ids : gset string;
  encoder_cache_manager : EncoderManager;
  kv_cache_manager : KVCacheManager;
  pause_state : PauseState;
  connector_prefix_cache_stats : option PrefixCacheStats;
  plugin_state : E;
}.

Definition set_objs (v : gmap string Request) (s : Sched) : Sched :=
  MkSched v (requests s) (waiting s) (skipped_waiting s) (running s) (finished_req_ids s)
    (finished_req_ids_dict s) (prev_step_scheduled_req_ids s) (num_waiting_for_streaming_input s)
    (finished_recving_kv_req_ids s) (failed_recving_kv_req_ids s) (encoder_cache_manager s)
    (kv_cache_manager s) (pause_state s) (connector_prefix_cache_stats s) (plugin_state s).
Definition set_requests (v : list string) (s : Sched) : Sched :=
  MkSched (s_objs s) v (waiting s) (skipped_waiting s) (running s) (finished_req_ids s)
    (finished_req_ids_dict s) (prev_step_scheduled_req_ids s) (num_waiting_for_streaming_input s)
    (finished_recving_kv_req_ids s) (failed_recving_kv_req_ids s) (encoder_cache_manager s)
    (kv_cache_manager s) (pause_state s) (connector_prefix_cache_stats s) (plugin_state s).
Definition set_waiting (v : IdQueue) (s : Sched) : Sched :=
  MkSched (s_objs s) (requests s) v (skipped_waiting s) (running s) (finished_req_ids s)
    (finished_req_ids_dict s) (prev_step_scheduled_req_ids s) (num_waiting_for_streaming_input s)
    (finished_recving_kv_req_ids s) (failed_recving_kv_req_ids s) (encoder_cache_manager s)
    (kv_cache_manager s) (pause_state s) (connector_prefix_cache_stats s) (plugin_state s).
Definition set_skipped_waiting (v : IdQueue) (s : Sched) : Sched :=
  MkSched (s_objs s) (requests s) (waiting s) v (running s) (finished_req_ids s) (finished_req_ids_dict s)
    (prev_step_scheduled_req_ids s) (num_waiting_for_streaming_input s) (finished_recving_kv_req_ids s)
    (failed_recving_kv_req_ids s) (encoder_cache_manager s) (kv_cache_manager s) (pause_state s)
    (connector_prefix_cache_stats s) (plugin_state s).
Definition set_running (v : list string) (s : Sched) : Sched :=
  MkSched (s_objs s) (requests s) (waiting s) (skipped_waiting s) v (finished_req_ids s)
    (finished_req_ids_dict s) (prev_step_scheduled_req_ids s) (num_waiting_for_streaming_input s)
    (finished_recving_kv_req_ids s) (failed_recving_kv_req_ids s) (encoder_cache_manager s)
    (kv_cache_manager s) (pause_state s) (connector_prefix_cache_stats s) (plugin_state s).
Definition set_finished_req_ids (v : gset string) (s : Sched) : Sched :=
  MkSched (s_objs s) (requests s) (waiting s) (skipped_waiting s) (running s) v (finished_req_ids_dict s)
    (prev_step_scheduled_req_ids s) (num_waiting_for_streaming_input s) (finished_recving_kv_req_ids s)
    (failed_recving_kv_req_ids s) (encoder_cache_manager s) (kv_cache_manager s) (pause_state s)
    (connector_prefix_cache_stats s) (plugin_state s).
Definition set_finished_req_ids_dict (v : option (gmap Z (gset string))) (s : Sched) : Sched :=
  MkSched (s_objs s) (requests s) (waiting s) (skipped_waiting s) (running s) (finished_req_ids s) v
    (prev_step_scheduled_req_ids s) (num_waiting_for_streaming_input s) (finished_recving_kv_req_ids s)
    (failed_recving_kv_req_ids s) (encoder_cache_manager s) (kv_cache_manager s) (pause_state s)
    (connector_prefix_cache_stats s) (plugin_state s).
Definition set_prev_step (v : gset string) (s : Sched) : Sched :=
  MkSched (s_objs s) (requests s) (waiting s) (skipped_waiting s) (running s) (finished_req_ids s)
    (finished_req_ids_dict s) v (num_waiting_for_streaming_input s) (finished_recving_kv_req_ids s)
    (failed_recving_kv_req_ids s) (encoder_cache_manager s) (kv_cache_manager s) (pause_state s)
    (connector_prefix_cache_stats s) (plugin_state s).
Definition set_num_streaming (v : Z) (s : Sched) : Sched :=
  MkSched (s_objs s) (requests s) (waiting s) (skipped_waiting s) (running s) (finished_req_ids s)
    (finished_req_ids_dict s) (prev_step_scheduled_req_ids s) v (finished_recving_kv_req_ids s)
    (failed_recving_kv_req_ids s) (encoder_cache_manager s) (kv_cache_manager s) (pause_state s)
    (connector_prefix_cache_stats s) (plugin_state s).
Definition set_finished_recving (v : gset string) (s : Sched) : Sched :=
  MkSched (s_objs s) (requests s) (waiting s) (skipped_waiting s) (running s) (finished_req_ids s)
    (finished_req_ids_dict s) (prev_step_scheduled_req_ids s) (num_waiting_for_streaming_input s) v
    (failed_recving_kv_req_ids s) (encoder_cache_manager s) (kv_cache_manager s) (pause_state s)
    (connector_prefix_cache_stats s) (plugin_state s).
Definition set_failed_recving (v : gset string) (s : Sched) : Sched :=
  MkSched (s_objs s) (requests s) (waiting s) (skipped_waiting s) (running s) (finished_req_ids s)
    (finished_req_ids_dict s) (prev_step_scheduled_req_ids s) (num_waiting_for_streaming_input s)
    (finished_recving_kv_req_ids s) v (encoder_cache_manager s) (kv_cache_manager s) (pause_state s)
    (connector_prefix_cache_stats s) (plugin_state s).
Definition set_encoder (v : EncoderManager) (s : Sched) : Sched :=
  MkSched (s_objs s) (requests s) (waiting s) (skipped_waiting s) (running s) (finished_req_ids s)
    (finished_req_ids_dict s) (prev_step_scheduled_req_ids s) (num_waiting_for_streaming_input s)
    (finished_recving_kv_req_ids s) (failed_recving_kv_req_ids s) v (kv_cache_manager s) (pause_state s)
    (connector_prefix_cache_stats s) (plugin_state s).
Definition set_kv (v : KVCacheManager) (s : Sched) : Sched :=
  MkSched (s_objs s) (requests s) (waiting s) (skipped_waiting s) (running s) (finished_req_ids s)
    (finished_req_ids_dict s) (prev_step_scheduled_req_ids s) (num_waiting_for_streaming_input s)
    (finished_recving_kv_req_ids s) (failed_recving_kv_req_ids s) (encoder_cache_manager s) v
    (pause_state s) (connector_prefix_cache_stats s) (plugin_state s).
Definition set_pause (v : PauseState) (s : Sched) : Sched :=
  MkSched (s_objs s) (requests s) (waiting s) (skipped_waiting s) (running s) (finished_req_ids s)
    (finished_req_ids_dict s) (prev_step_scheduled_req_ids s) (num_waiting_for_streaming_input s)
    (finished_recving_kv_req_ids s) (failed_recving_kv_req_ids s) (encoder_cache_manager s)
    (kv_cache_manager s) v (connector_prefix_cache_stats s) (plugin_state s).
Definition set_conn_stats (v : option PrefixCacheStats) (s : Sched) : Sched :=
  MkSched (s_objs s) (requests s) (waiting s) (skipped_waiting s) (running s) (finished_req_ids s)
    (finished_req_ids_dict s) (prev_step_scheduled_req_ids s) (num_waiting_for_streaming_input s)
    (finished_recving_kv_req_ids s) (failed_recving_kv_req_ids s) (encoder_cache_manager s)
    (kv_cache_manager s) (pause_state s) v (plugin_state s).
Definition set_plugin_state (v : E) (s : Sched) : Sched :=
  MkSched (s_objs s) (requests s) (waiting s) (skipped_waiting s) (running s) (finished_req_ids s)
    (finished_req_ids_dict s) (prev_step_scheduled_req_ids s) (num_waiting_for_streaming_input s)
    (finished_recving_kv_req_ids s) (failed_recving_kv_req_ids s) (encoder_cache_manager s)
    (kv_cache_manager s) (pause_state s) (connector_prefix_cache_stats s) v.

End state.
#[global] Arguments Sched : clear implicits.

(** The values of one call of [schedule]; [num_scheduled_tokens] is a dict in
    insertion order. *)
Record Step := MkStep {
  scheduled_new_reqs : list string;
  scheduled_resumed_reqs : list string;
  scheduled_running_reqs : list string;
  preempted_reqs : list string;
  req_to_new_blocks : gmap string KVCacheBlocks;
  num_scheduled_tokens : list (string * Z);
  token_budget : Z;
  scheduled_encoder_inputs : gmap string (list nat);
  encoder_compute_budget : Z;
  scheduled_spec_decode_tokens : gmap string (list Z);
}.

Definition set_new_reqs (v : list string) (t : Step) : Step :=
  MkStep v (scheduled_resumed_reqs t) (scheduled_running_reqs t) (preempted_reqs t) (req_to_new_blocks t)
    (num_scheduled_tokens t) (token_budget t) (scheduled_encoder_inputs t) (encoder_compute_budget t)
    (scheduled_spec_decode_tokens t).
Definition set_resumed_reqs (v : list string) (t : Step) : Step :=
  MkStep (scheduled_new_reqs t) v (scheduled_running_reqs t) (preempted_reqs t) (req_to_new_blocks t)
    (num_scheduled_tokens t) (token_budget t) (scheduled_encoder_inputs t) (encoder_compute_budget t)
    (scheduled_spec_decode_tokens t).
Definition set_running_reqs (v : list string) (t : Step) : Step :=
  MkStep (scheduled_new_reqs t) (scheduled_resumed_reqs t) v (preempted_reqs t) (req_to_new_blocks t)
    (num_scheduled_tokens t) (token_budget t) (scheduled_encoder_inputs t) (encoder_compute_budget t)
    (scheduled_spec_decode_tokens t).
Definition set_preempted_reqs (v : list string) (t : Step) : Step :=
  MkStep (scheduled_new_reqs t) (scheduled_resumed_reqs t) (scheduled_running_reqs t) v
    (req_to_new_blocks t) (num_scheduled_tokens t) (token_budget t) (scheduled_encoder_inputs t)
    (encoder_compute_budget t) (scheduled_spec_decode_tokens t).
Definition set_new_blocks (v : gmap string KVCacheBlocks) (t : Step) : Step :=
  MkStep (scheduled_new_reqs t) (scheduled_resumed_reqs t) (scheduled_running_reqs t) (preempted_reqs t) v
    (num_scheduled_tokens t) (token_budget t) (scheduled_encoder_inputs t) (encoder_compute_budget t)
    (scheduled_spec_decode_tokens t).
Definition set_num_scheduled (v : list (string * Z)) (t : Step) : Step :=
  MkStep (scheduled_new_reqs t) (scheduled_resumed_reqs t) (scheduled_running_reqs t) (preempted_reqs t)
    (req_to_new_blocks t) v (token_budget t) (scheduled_encoder_inputs t) (encoder_compute_budget t)
    (scheduled_spec_decode_tokens t).
Definition set_token_budget (v : Z) (t : Step) : Step :=
  MkStep (scheduled_new_reqs t) (scheduled_resumed_reqs t) (scheduled_running_reqs t) (preempted_reqs t)
    (req_to_new_blocks t) (num_scheduled_tokens t) v (scheduled_encoder_inputs t)
    (encoder_compute_budget t) (scheduled_spec_decode_tokens t).
Definition set_encoder_inputs (v : gmap string (list nat)) (t : Step) : Step :=
  MkStep (scheduled_new_reqs t) (scheduled_resumed_reqs t) (scheduled_running_reqs t) (preempted_reqs t)
    (req_to_new_blocks t) (num_scheduled_tokens t) (token_budget t) v (encoder_compute_budget t)
    (scheduled_spec_decode_tokens t).
Definition set_encoder_budget (v : Z) (t : Step) : Step :=
  MkStep (scheduled_new_reqs t) (scheduled_resumed_reqs t) (scheduled_running_reqs t) (preempted_reqs t)
    (req_to_new_blocks t) (num_scheduled_tokens t) (token_budget t) (scheduled_encoder_inputs t) v
    (scheduled_spec_decode_tokens t).
Definition set_spec_tokens (v : gmap string (list Z)) (t : Step) : Step :=
  MkStep (scheduled_new_reqs t) (scheduled_resumed_reqs t) (scheduled_running_reqs t) (preempted_reqs t)
    (req_to_new_blocks t) (num_scheduled_tokens t) (token_budget t) (scheduled_encoder_inputs t)
    (encoder_compute_budget t) v.

(** ** Dicts with string keys in insertion order *)

Fixpoint sdict_set {V} (k : string) (v : V) (d : list (string * V)) : list (string * V) :=
  match d with
  | [] => [(k, v)]
  | (k', v') :: d => if decide (k' = k) then (k, v) :: d else (k', v') :: sdict_set k v d
  end.
Fixpoint sdict_pop {V} (k : string) (d : list (string * V)) : option (V * list (string * V)) :=
  match d with
  | [] => None
  | (k', v') :: d => if decide (k' = k) then Some (v', d) else x ← sdict_pop k d; Some (x.1, (k', v') :: x.2)
  end.
Fixpoint sdict_get {V} (k : string) (d : list (string * V)) : option V :=
  match d with
  | [] => None
  | (k', v') :: d => if decide (k' = k) then Some v' else sdict_get k d
  end.

Lemma sdict_get_in {V} k (d : list (string * V)) : k ∈ d.*1 → is_Some (sdict_get k d).
Proof.
  induction d as [|[k' v'] d IH]; cbn; [by intros ?%elem_of_nil|]. intros Hk. destruct (decide (k' = k)) as [->|Hne]; [by eexists|].
  apply IH. by apply elem_of_cons in Hk as [->|Hk].
Qed.

Definition sum_values (d : list (string * Z)) : Z := foldr (λ kv acc, kv.2 + acc) 0 d.

(** ** Access to the parts of the state *)

Section access.
Context {E : Type}.
Abbreviation MS := (M (Sched E)).

(** Dereferencing a request object, assigning to its attributes. *)
Definition get_req (rid : string) : MS Request := λ s,
  match s_objs s !! rid with Some r => (Ok r, s) | None => (Raise KeyError, s) end.
Definition upd_req (rid : string) (f : Request → Request) : MS unit :=
  modify (λ s, set_objs (alter f rid (s_objs s)) s).
Definition put_req (rid : string) (r : Request) : MS unit := upd_req rid (λ _, r).
(** A method of the request object. *)
Definition on_req {A} (rid : string) (m : M Request A) : MS A :=
  let! r := get_req rid in
  let '(x, r') := m r in
  put_req rid r' ;;;
  match x with Ok a => ret a | Raise e => raise e end.

Definition on_kv {A} (m : M KVCacheManager A) : MS A := zoom kv_cache_manager set_kv m.
Definition on_plugins {A} (f : E → A * E) : MS A := λ s,
  let '(a, e) := f (plugin_state s) in (Ok a, set_plugin_state e s).
Definition tell_plugins (f : E → E) : MS unit := modify (λ s, set_plugin_state (f (plugin_state s)) s).

(** Methods of the queues. *)
Inductive which := Waiting | Skipped.
Definition queue_of (w : which) (s : Sched E) : IdQueue :=
  match w with Waiting => waiting s | Skipped => skipped_waiting s end.
Definition set_queue_of (w : which) (q : IdQueue) (s : Sched E) : Sched E :=
  match w with Waiting => set_waiting q s | Skipped => set_skipped_waiting q s end.
Definition mod_queue (w : which) (f : RequestQueue → RequestQueue) : MS unit :=
  modify (λ s, set_queue_of w (store_queue (f (load_queue (s_objs s) (queue_of w s)))) s).
Definition add_to (w : which) (rid : string) : MS unit :=
  let! r := get_req rid in mod_queue w (λ q, add_request q r).
Definition prepend_to (w : which) (rid : string) : MS unit :=
  let! r := get_req rid in mod_queue w (λ q, prepend_request q r).
Definition peek_from (w : which) : MS string := λ s,
  match peek_request (load_queue (s_objs s) (queue_of w s)) with
  | Ok r => (Ok (request_id r), s)
  | Raise e => (Raise e, s)
  end.
Definition pop_from (w : which) : MS string := λ s,
  let '(x, q) := pop_request (load_queue (s_objs s) (queue_of w s)) in
  (match x with Ok r => Ok (request_id r) | Raise e => Raise e end, set_queue_of w (store_queue q) s).
(** [queue.remove_requests(requests)] *)
Definition remove_from (w : which) (rids : list string) : MS unit :=
  modify (λ s, set_queue_of w (store_queue (remove_requests (load_queue (s_objs s) (queue_of w s))
                                             (omap (λ i, s_objs s !! i) rids))) s).

(** Methods of the encoder cache manager. *)
Definition on_encoder {A} (m : M EncoderCacheManager A) (m' : M EncoderDecoderCacheManager A) : MS A := λ s,
  match encoder_cache_manager s with
  | MultiModal e => let '(x, e') := m e in (x, set_encoder (MultiModal e') s)
  | EncDec e => let '(x, e') := m' e in (x, set_encoder (EncDec e') s)
  end.
Definition enc_check_and_update_cache (r : Request) (i : nat) : MS bool :=
  on_encoder (check_and_update_cache r i) (ret false).
Definition enc_can_allocate (r : Request) (i : nat) (budget num_embeds : Z) : MS bool :=
  on_encoder (can_allocate r i budget num_embeds) (ed_can_allocate r i budget num_embeds).
Definition enc_allocate (r : Request) (i : nat) : MS unit := on_encoder (allocate r i) (ed_allocate r i).
Definition enc_free (r : Request) : MS unit := on_encoder (encoder_free r) (ed_free r).
Definition enc_free_input (r : Request) (i : nat) : MS unit :=
  on_encoder (free_encoder_input r i) (ed_free_encoder_input r i).
Definition enc_cached_input_ids (r : Request) : MS (list nat) :=
  on_encoder (gets (λ e, get_cached_input_ids e r)) (ret (ed_get_cached_input_ids r)).
Definition enc_get_freed_mm_hashes : MS (list string) := on_encoder get_freed_mm_hashes ed_get_freed_mm_hashes.
Definition enc_reset : MS unit := on_encoder encoder_reset ed_reset.

End access.

(** ** Outputs *)

Record NewRequestData := MkNewRequestData {
  nr_req_id : string;
  nr_prompt_token_ids : option (list Z);
  nr_mm_features : list MultiModalFeatureSpec;
  nr_sampling_params : option SamplingParams;
  nr_pooling_params : option PoolingParams;
  nr_block_ids : list (list Z);
  nr_num_computed_tokens : Z;
  nr_lora_request : option LoRARequest;
  nr_prompt_embeds : option (list bytes);
  nr_prefill_token_ids : option (list Z);
}.

(** [NewRequestData.from_request] *)
Definition new_request_data (r : Request) (block_ids : list (list Z)) (prefill_token_ids : option (list Z)) : NewRequestData :=
  MkNewRequestData (request_id r) (prompt_token_ids r) (mm_features r) (sampling_params r) (pooling_params r)
    block_ids (num_computed_tokens r) (lora_request r) (prompt_embeds r) prefill_token_ids.

Record CachedRequestData := MkCachedRequestData {
  cr_req_ids : list string;
  cr_resumed_req_ids : gset string;
  cr_new_token_ids : list (list Z);
  cr_all_token_ids : gmap string (list Z);
  cr_new_block_ids : list (option (list (list Z)));
  cr_num_computed_tokens : list Z;
  cr_num_output_tokens : list Z;
}.

Record SchedulerOutput := MkSchedulerOutput {
  so_scheduled_new_reqs : list NewRequestData;
  so_scheduled_cached_reqs : CachedRequestData;
  so_num_scheduled_tokens : list (string * Z);
  so_total_num_scheduled_tokens : Z;
  so_scheduled_spec_decode_tokens : gmap string (list Z);
  so_scheduled_encoder_inputs : gmap string (list nat);
  so_num_common_prefix_blocks : list Z;
  so_preempted_req_ids : gset string;
  so_finished_req_ids : gset string;
  so_free_encoder_mm_hashes : list string;
  so_new_block_ids_to_zero : option (list Z);
  so_has_structured_output_requests : bool;
  so_pending_structured_output_tokens : bool;
  so_num_invalid_spec_tokens : option (gmap string Z);
}.

Definition set_so_scheduled_spec_decode_tokens (v : gmap string (list Z)) (o : SchedulerOutput) : SchedulerOutput :=
  MkSchedulerOutput (so_scheduled_new_reqs o) (so_scheduled_cached_reqs o) (so_num_scheduled_tokens o)
    (so_total_num_scheduled_tokens o) v (so_scheduled_encoder_inputs o) (so_num_common_prefix_blocks o)
    (so_preempted_req_ids o) (so_finished_req_ids o) (so_free_encoder_mm_hashes o)
    (so_new_block_ids_to_zero o) (so_has_structured_output_requests o)
    (so_pending_structured_output_tokens o) (so_num_invalid_spec_tokens o).
Definition set_so_has_structured_output_requests (v : bool) (o : SchedulerOutput) : SchedulerOutput :=
  MkSchedulerOutput (so_scheduled_new_reqs o) (so_scheduled_cached_reqs o) (so_num_scheduled_tokens o)
    (so_total_num_scheduled_tokens o) (so_scheduled_spec_decode_tokens o) (so_scheduled_encoder_inputs o)
    (so_num_common_prefix_blocks o) (so_preempted_req_ids o) (so_finished_req_ids o)
    (so_free_encoder_mm_hashes o) (so_new_block_ids_to_zero o) v (so_pending_structured_output_tokens o)
    (so_num_invalid_spec_tokens o).
Definition set_so_pending_structured_output_tokens (v : bool) (o : SchedulerOutput) : SchedulerOutput :=
  MkSchedulerOutput (so_scheduled_new_reqs o) (so_scheduled_cached_reqs o) (so_num_scheduled_tokens o)
    (so_total_num_scheduled_tokens o) (so_scheduled_spec_decode_tokens o) (so_scheduled_encoder_inputs o)
    (so_num_common_prefix_blocks o) (so_preempted_req_ids o) (so_finished_req_ids o)
    (so_free_encoder_mm_hashes o) (so_new_block_ids_to_zero o) (so_has_structured_output_requests o) v
    (so_num_invalid_spec_tokens o).
Definition set_so_num_invalid_spec_tokens (v : option (gmap string Z)) (o : SchedulerOutput) : SchedulerOutput :=
  MkSchedulerOutput (so_scheduled_new_reqs o) (so_scheduled_cached_reqs o) (so_num_scheduled_tokens o)
    (so_total_num_scheduled_tokens o) (so_scheduled_spec_decode_tokens o) (so_scheduled_encoder_inputs o)
    (so_num_common_prefix_blocks o) (so_preempted_req_ids o) (so_finished_req_ids o)
    (so_free_encoder_mm_hashes o) (so_new_block_ids_to_zero o) (so_has_structured_output_requests o)
    (so_pending_structured_output_tokens o) v.

(** ** Construction *)

(** What [Scheduler.__init__] reads beyond [SchedulerConfig]; [sa_mm_budget] is
    the number of modalities and the encoder cache size of [MultiModalBudget],
    for models with multimodal inputs. *)
Record SchedulerArgs := MkSchedulerArgs {
  sa_kv_cache_config : KVCacheConfig;
  sa_num_gpu_blocks : option Z;
  sa_block_size : Z;
  sa_enable_prefix_caching : bool;
  sa_log_stats : bool;
  sa_include_finished_set : bool;
  sa_enable_kv_cache_events : bool;
  sa_dcp : Z;
  sa_pcp : Z;
  sa_mm_budget : option (Z * Z);
  sa_collector : option Collector;
  sa_use_int : bool;
  sa_metrics_env : MetricsEnv;
}.

(** The asserted conditions of the configuration. *)
Definition init_checks {E} (cfg : SchedulerConfig) (plug : Plugins E) (a : SchedulerArgs) : bool :=
  negb (connector_on plug && is_encoder_decoder cfg)
  && match sa_num_gpu_blocks a with Some n => 0 <? n | None => false end
  && (negb (is_encoder_decoder cfg) || match sa_mm_budget a with Some (n, _) => n <=? 1 | None => false end).
Definition routed_checks (cfg : SchedulerConfig) (a : SchedulerArgs) : bool :=
  match return_routed_experts cfg with
  | None => true
  | Some _ => (sa_dcp a =? 1) && (sa_pcp a =? 1) && (0 <? len (kv_cache_groups (sa_kv_cache_config a)))
  end.

(** [Scheduler.__init__]; [plugin_state] is the state of the connectors. *)
Definition scheduler_init {E} (cfg : SchedulerConfig) (plug : Plugins E) (a : SchedulerArgs) (plugin_state : E) : res (Sched E) :=
  if negb (init_checks cfg plug a) then Raise AssertionError
  else
    let encoder_cache_size := match sa_mm_budget a with Some (_, n) => n | None => 0 end in
    match kv_manager_init (sa_kv_cache_config a) (sched_max_model_len cfg) (sa_block_size a) (sa_enable_prefix_caching a)
            (use_eagle cfg) (sa_log_stats a) (sa_enable_kv_cache_events a) (sa_dcp a) (sa_pcp a) (sa_collector a) (sa_use_int a)
            (sa_metrics_env a) with
    | Raise e => Raise e
    | Ok kv =>
        if negb (routed_checks cfg a) then Raise AssertionError
        else
          Ok (MkSched ∅ [] (empty_queue (policy cfg)) (empty_queue (policy cfg)) [] ∅
                (if sa_include_finished_set a then Some ∅ else None) ∅ 0 ∅ ∅
                (if is_encoder_decoder cfg then EncDec (ed_init encoder_cache_size) else MultiModal (encoder_init encoder_cache_size))
                kv UNPAUSED
                (if connector_on plug && sa_log_stats a then Some new_stats else None) plugin_state)
    end.
