(* ===== verification/Scheduler.v ===== *)
(** * The scheduler (vllm/v1/core/sched/scheduler.py): schedule()

    One definition per method of [Scheduler] that [schedule] calls, and
    [schedule] itself, split at its two loops.  Log output, timestamps and
    request events are left out.  The loops carry fuel: the running loop ends
    after at most one round per running request, the preemption loop removes a
    running request per round, the waiting loop takes a request out of a queue
    per round. *)

From S2P Require Import Prelude FreeQueue RequestModel BlockHash KVCacheMetrics BlockPool KVCacheInterface.
From S2P Require Import KVCacheManager SchedUtils EncoderCache RequestQueue SchedulerState.

Section scheduler.
Context {E : Type} (cfg : SchedulerConfig) (plug : Plugins E).
Abbreviation MS := (M (Sched E)).

(** ** Small methods *)

(** [_is_blocked_waiting_status] *)
Definition is_blocked_waiting_status (st : RequestStatus) : bool :=
  match st with
  | WAITING_FOR_STRUCTURED_OUTPUT_GRAMMAR | WAITING_FOR_REMOTE_KVS | WAITING_FOR_STREAMING_REQ => true
  | _ => false
  end.

(** [_enqueue_waiting_request] *)
Definition enqueue_waiting_request (rid : string) : MS unit :=
  let! r := get_req rid in
  if is_blocked_waiting_status (status r) then add_to Skipped rid else add_to Waiting rid.

(** [_select_waiting_queue_for_scheduling] *)
Definition select_waiting_queue_for_scheduling : MS (option which) :=
  let! s := gets id in
  match policy cfg with
  | FCFS =>
      ret (if q_nonempty (skipped_waiting s) then Some Skipped
           else if q_nonempty (waiting s) then Some Waiting else None)
  | PRIORITY =>
      if q_nonempty (waiting s) && q_nonempty (skipped_waiting s) then
        let! w := peek_from Waiting in
        let! k := peek_from Skipped in
        let! waiting_req := get_req w in
        let! skipped_req := get_req k in
        ret (Some (if request_lt waiting_req skipped_req then Waiting else Skipped))
      else
        ret (if q_nonempty (waiting s) then Some Waiting
             else if q_nonempty (skipped_waiting s) then Some Skipped else None)
  end.

(** [_mamba_block_aligned_split] *)
Definition mamba_block_aligned_split (r : Request) (num_new_tokens num_new_local_computed_tokens
    num_external_computed_tokens : Z) : MS Z :=
  py_assert (num_external_computed_tokens =? 0) ;;;
  let num_computed := num_computed_tokens r + num_new_local_computed_tokens + num_external_computed_tokens in
  if num_computed <? Z.max (num_prompt_tokens r) (num_tokens r - 1) then
    let bs := cache_block_size cfg in
    let last_cache_position := num_tokens r - num_tokens r mod bs in
    let last_cache_position := if use_eagle cfg then Z.max (last_cache_position - bs) 0 else last_cache_position in
    let after_sched := num_computed + num_new_tokens in
    ret (if after_sched <? last_cache_position then num_new_tokens / bs * bs
         else if (num_computed <? last_cache_position) && (last_cache_position <? after_sched)
              then last_cache_position - num_computed
              else num_new_tokens)
  else ret num_new_tokens.

(** [_preempt_request]; the caller has taken the request out of [running]. *)
Definition preempt_request (rid : string) : MS unit :=
  let! r := get_req rid in
  py_assert (bool_decide (status r = RUNNING)) ;;;
  on_kv (kv_free r) ;;;
  enc_free r ;;;
  upd_req rid (λ r, set_num_preemptions (num_preemptions r + 1)
                      (set_spec_token_ids [] (set_num_computed_tokens 0 (set_status PREEMPTED r)))) ;;;
  prepend_to Waiting rid.

(** ** Encoder inputs *)

(** The variables of the loop of [_try_schedule_encoder_inputs]. *)
Record EncoderPlan := MkEncoderPlan {
  ep_to_schedule : list nat;
  ep_num_new_tokens : Z;
  ep_budget : Z;
  ep_external : list nat;
  ep_hashes : gset string;
  ep_num_embeds : Z;
}.

Fixpoint encoder_loop (r : Request) (num_computed_tokens shift : Z) (i : nat) (feats : list MultiModalFeatureSpec)
    (p : EncoderPlan) : MS EncoderPlan :=
  match feats with
  | [] => ret p
  | f :: feats =>
      let start_pos := offset (mm_position f) in
      let num_encoder_tokens := length_ (mm_position f) in
      let num_encoder_embeds := get_num_embeds (mm_position f) in
      let num_new_tokens := ep_num_new_tokens p in
      let with_new_tokens n := MkEncoderPlan (ep_to_schedule p) n (ep_budget p) (ep_external p) (ep_hashes p) (ep_num_embeds p) in
      let continue := encoder_loop r num_computed_tokens shift (S i) feats in
      if num_computed_tokens + num_new_tokens + shift <=? start_pos then ret p
      else if is_encoder_decoder cfg && (0 <? num_computed_tokens) then
        py_assert (start_pos =? 0) ;;; continue p
      else if start_pos + num_encoder_tokens <=? num_computed_tokens then continue p
      else
        let! cached :=
          if negb (is_encoder_decoder cfg) then
            if bool_decide (identifier f ∈ ep_hashes p) then ret true
            else enc_check_and_update_cache r i
          else ret false in
        if (cached : bool) then continue p
        else if disable_chunked_mm_input cfg && (num_computed_tokens <? start_pos)
             && (num_computed_tokens + num_new_tokens <? start_pos + num_encoder_tokens) then
          ret (with_new_tokens (Z.max 0 (start_pos - (num_computed_tokens + shift))))
        else
          let! fits := enc_can_allocate r i (ep_budget p) (ep_num_embeds p) in
          if negb fits then
            ret (with_new_tokens (if num_computed_tokens + shift <? start_pos
                                  then start_pos - (num_computed_tokens + shift) else 0))
          else
            let start_idx_rel := Z.max 0 (num_computed_tokens - start_pos) in
            let end_idx_rel := Z.min num_encoder_tokens (num_computed_tokens + num_new_tokens - start_pos) in
            match get_embeds_indices_in_range (mm_position f) start_idx_rel end_idx_rel with
            | None => raise IndexError
            | Some (curr_embeds_start, curr_embeds_end) =>
                if curr_embeds_end - curr_embeds_start =? 0 then continue p
                else
                  let! s := gets id in
                  if ec_connector_on plug && has_cache_item plug (identifier f) (plugin_state s) then
                    continue (MkEncoderPlan (ep_to_schedule p) num_new_tokens (ep_budget p) (ep_external p ++ [i])
                                ({[ identifier f ]} ∪ ep_hashes p) (ep_num_embeds p + num_encoder_embeds))
                  else
                    continue (MkEncoderPlan (ep_to_schedule p ++ [i]) num_new_tokens (ep_budget p - num_encoder_embeds)
                                (ep_external p) ({[ identifier f ]} ∪ ep_hashes p) (ep_num_embeds p + num_encoder_embeds))
            end
  end.

(** [_try_schedule_encoder_inputs] *)
Definition try_schedule_encoder_inputs (r : Request) (num_computed_tokens num_new_tokens budget shift : Z) : MS EncoderPlan :=
  let plan := MkEncoderPlan [] num_new_tokens budget [] ∅ 0 in
  if (num_new_tokens =? 0) || negb (has_encoder_inputs r) then ret plan
  else encoder_loop r num_computed_tokens shift 0 (mm_features r) plan.

(** The encoder inputs of a scheduled request are allocated. *)
Definition allocate_encoder_inputs (rid : string) (inputs : list nat) : MS unit :=
  for_each inputs (λ i,
    let! r := get_req rid in
    enc_allocate r i ;;;
    if ec_connector_on plug then tell_plugins (ec_update_state_after_alloc plug r i) else ret tt).

(** ** The RUNNING requests *)

(** A request that has reached [max_tokens] in a step still on its way. *)
Definition max_tokens_in_flight (r : Request) : bool :=
  (0 <? num_output_placeholders r)
  && (num_prompt_tokens r + max_tokens r <=? num_computed_tokens r + 2 - num_output_placeholders r).

(** The number of tokens to schedule, before encoder inputs are considered. *)
Definition running_new_tokens (r : Request) (budget : Z) : Z :=
  let n := num_tokens_with_spec r + num_output_placeholders r - num_computed_tokens r in
  let threshold := long_prefill_token_threshold cfg in
  let n := if (0 <? threshold) && (threshold <? n) then threshold else n in
  Z.min (Z.min n budget) (sched_max_model_len cfg - 1 - num_computed_tokens r).

(** [max(self.running, key=lambda r: (r.priority, r.arrival_time))]: the first
    of the maximal elements. *)
Definition victim_key_lt (a b : Request) : bool :=
  if priority a =? priority b then arrival_time a <? arrival_time b else priority a <? priority b.
Fixpoint max_request (best : Request) (rs : list Request) : Request :=
  match rs with
  | [] => best
  | r :: rs => max_request (if victim_key_lt best r then r else best) rs
  end.

(** A victim of the priority policy that was already scheduled in this step is
    taken back. *)
Definition unschedule (rid : string) (req_index : Z) (t : Step) : MS (Z * Step) :=
  match sdict_pop rid (num_scheduled_tokens t), req_to_new_blocks t !! rid with
  | Some (n, d), Some _ =>
      let! r := get_req rid in
      let! embeds := map_m (default [] (scheduled_encoder_inputs t !! rid)) (λ i,
        match get_num_encoder_embeds r i with Some n => ret n | None => raise AssertionError end) in
      ret (req_index - 1,
        MkStep (scheduled_new_reqs t) (scheduled_resumed_reqs t) (remove_first rid (scheduled_running_reqs t))
          (preempted_reqs t) (delete rid (req_to_new_blocks t)) d (token_budget t + n)
          (delete rid (scheduled_encoder_inputs t)) (encoder_compute_budget t + foldr Z.add 0 embeds)
          (delete rid (scheduled_spec_decode_tokens t)))
  | _, _ => raise KeyError
  end.

(** Choosing the request to preempt and taking it out of [running]. *)
Definition take_victim (req_index : Z) (t : Step) : MS (string * Z * Step) :=
  let! s := gets id in
  match policy cfg with
  | PRIORITY =>
      match omap (λ i, s_objs s !! i) (running s) with
      | [] => raise ValueError
      | r :: rs =>
          let rid := request_id (max_request r rs) in
          modify (λ s, set_running (remove_first rid (running s)) s) ;;;
          if bool_decide (rid ∈ scheduled_running_reqs t) then
            let! x := unschedule rid req_index t in ret (rid, x.1, x.2)
          else ret (rid, req_index, t)
      end
  | FCFS =>
      match last (running s) with
      | None => raise IndexError
      | Some rid => modify (λ s, set_running (take (length (running s) - 1) (running s)) s) ;;; ret (rid, req_index, t)
      end
  end.

(** The [while True] loop around [allocate_slots]: each round that fails takes
    a request out of [running]. *)
Fixpoint allocate_or_preempt (fuel : nat) (rid : string) (num_new_tokens req_index : Z) (t : Step)
    : MS (option KVCacheBlocks * Z * Step) :=
  match fuel with
  | O => raise OutOfFuel
  | S fuel =>
      let! r := get_req rid in
      let! out := on_kv (allocate_slots (h_sha256 cfg) r num_new_tokens 0 None (num_lookahead_tokens cfg) 0 false 0) in
      put_req rid out.2 ;;;
      match out.1 with
      | Some blocks => ret (Some blocks, req_index, t)
      | None =>
          let! v := take_victim req_index t in
          let '(victim, req_index, t) := v in
          preempt_request victim ;;;
          let t := set_preempted_reqs (preempted_reqs t ++ [victim]) t in
          if decide (victim = rid) then ret (None, req_index, t)
          else allocate_or_preempt fuel rid num_new_tokens req_index t
      end
  end.

(** The draft tokens that fit into the scheduled tokens. *)
Definition schedule_spec_tokens (rid : string) (num_new_tokens : Z) (t : Step) : MS Step :=
  let! r := get_req rid in
  match spec_token_ids r with
  | [] => ret t
  | spec =>
      let n := num_new_tokens + num_computed_tokens r - num_tokens r - num_output_placeholders r in
      upd_req rid (set_spec_token_ids []) ;;;
      ret (if 0 <? n then set_spec_tokens (<[rid := if n <? len spec then py_slice_to spec n else spec]>
                                             (scheduled_spec_decode_tokens t)) t
           else t)
  end.

(** Bookkeeping of a scheduled running request. *)
Definition commit_running (rid : string) (num_new_tokens : Z) (blocks : KVCacheBlocks) (plan : EncoderPlan) (t : Step) : MS Step :=
  let t := set_token_budget (token_budget t - num_new_tokens)
             (set_num_scheduled (sdict_set rid num_new_tokens (num_scheduled_tokens t))
                (set_new_blocks (<[rid := blocks]> (req_to_new_blocks t))
                   (set_running_reqs (scheduled_running_reqs t ++ [rid]) t))) in
  let! t := schedule_spec_tokens rid num_new_tokens t in
  let! t :=
    match ep_to_schedule plan with
    | [] => ret t
    | inputs =>
        allocate_encoder_inputs rid inputs ;;;
        ret (set_encoder_budget (ep_budget plan) (set_encoder_inputs (<[rid := inputs]> (scheduled_encoder_inputs t)) t))
    end in
  allocate_encoder_inputs rid (ep_external plan) ;;;
  ret t.

(** The [while] loop over [running]. *)
Fixpoint running_loop (fuel : nat) (req_index : Z) (t : Step) : MS Step :=
  match fuel with
  | O => raise OutOfFuel
  | S fuel =>
      let! s := gets id in
      if negb ((req_index <? len (running s)) && (0 <? token_budget t)) then ret t
      else
        let! rid := py_index (running s) req_index in
        let! r := get_req rid in
        if max_tokens_in_flight r then running_loop fuel (req_index + 1) t
        else
          let n := running_new_tokens r (token_budget t) in
          let! plan := try_schedule_encoder_inputs r (num_computed_tokens r) n (encoder_compute_budget t)
                         (if use_eagle cfg then 1 else 0) in
          let n := ep_num_new_tokens plan in
          let! n := if need_mamba_block_aligned_split cfg then mamba_block_aligned_split r n 0 0 else ret n in
          if n =? 0 then running_loop fuel (req_index + 1) t
          else
            let! x := allocate_or_preempt (S (length (running s))) rid n req_index t in
            let '(new_blocks, req_index, t) := x in
            match new_blocks with
            | None => ret t
            | Some blocks =>
                let! t := commit_running rid n blocks plan t in
                running_loop fuel (req_index + 1) t
            end
  end.

(** ** The WAITING requests *)

(** [_update_waiting_for_remote_kv] *)
Definition update_waiting_for_remote_kv (rid : string) : MS unit :=
  py_assert (connector_on plug) ;;;
  let! s := gets id in
  let! r := get_req rid in
  (if bool_decide (rid ∈ failed_recving_kv_req_ids s) then
     (if negb (num_computed_tokens r =? 0) then
        let! r' := on_kv (kv_cache_blocks (h_sha256 cfg) r (num_computed_tokens r)) in put_req rid r'
      else on_kv (kv_free r)) ;;;
     modify (λ s, set_failed_recving (failed_recving_kv_req_ids s ∖ {[ rid ]}) s)
   else
     (let! r' := on_kv (kv_cache_blocks (h_sha256 cfg) r (num_computed_tokens r)) in put_req rid r') ;;;
     upd_req rid (λ r, if num_computed_tokens r =? num_tokens r then set_num_computed_tokens (num_tokens r - 1) r else r)) ;;;
  let! s := gets id in
  if bool_decide (rid ∈ finished_recving_kv_req_ids s)
  then modify (λ s, set_finished_recving (finished_recving_kv_req_ids s ∖ {[ rid ]}) s)
  else raise KeyError.

(** [_try_promote_blocked_waiting_request] *)
Definition try_promote_blocked_waiting_request (rid : string) : MS bool :=
  let! s := gets id in
  let! r := get_req rid in
  match status r with
  | WAITING_FOR_REMOTE_KVS =>
      if bool_decide (rid ∈ finished_recving_kv_req_ids s) then
        update_waiting_for_remote_kv rid ;;;
        upd_req rid (λ r, set_status (if num_preemptions r =? 0 then WAITING else PREEMPTED) r) ;;;
        ret true
      else ret false
  | WAITING_FOR_STRUCTURED_OUTPUT_GRAMMAR =>
      if use_structured_output r && grammar_ready r then upd_req rid (set_status WAITING) ;;; ret true
      else ret false
  | WAITING_FOR_STREAMING_REQ =>
      py_assert (match streaming_queue r with Some (_ :: _) => false | _ => true end) ;;; ret false
  | _ => raise AssertionError
  end.

(** What is already computed for a request taken from the waiting queues. *)
Record Computed := MkComputed {
  cp_blocks : KVCacheBlocks;
  cp_num_local : Z;
  cp_num_external : Z;
  cp_load_kv_async : bool;
  cp_num_computed : Z;
  cp_queries : Z;
}.

(** The tokens in the local prefix cache and those the connector can load;
    [None] when the connector does not know yet. *)
Definition get_cached_tokens (rid : string) : MS (option Computed) :=
  let! r := get_req rid in
  if num_computed_tokens r =? 0 then
    let! local := on_kv (get_computed_blocks r) in
    let! ext :=
      if connector_on plug then on_plugins (get_num_new_matched_tokens plug r local.2)
      else ret (Some 0, false) in
    match ext.1 with
    | None => ret None
    | Some ext_tokens =>
        let num_computed := local.2 + ext_tokens in
        py_assert (num_computed <=? num_tokens r) ;;;
        (match prefill_stats r with
         | None => ret tt
         | Some _ =>
             py_assert (num_computed <=? num_prompt_tokens r) ;;;
             match prefill_stats_set (num_prompt_tokens r) local.2 ext_tokens with
             | Ok ps => upd_req rid (set_prefill_stats (Some ps))
             | Raise e => raise e
             end
         end) ;;;
        ret (Some (MkComputed local.1 local.2 ext_tokens ext.2 num_computed
                     (if connector_on plug then num_tokens r - local.2 else 0)))
    end
  else
    let! s := gets id in
    ret (Some (MkComputed (empty_kv_cache_blocks (kv_cache_manager s)) 0 0 false (num_computed_tokens r) 0)).

(** The number of tokens to schedule; [None] stops the scheduling of waiting
    requests. *)
Definition waiting_new_tokens (rid : string) (c : Computed) (t : Step) : MS (option (Z * EncoderPlan)) :=
  let! r := get_req rid in
  let no_plan n := MkEncoderPlan [] n (encoder_compute_budget t) [] ∅ 0 in
  let! planned :=
    if cp_load_kv_async c then
      py_assert (0 <? cp_num_external c) ;;; ret (Some (no_plan 0))
    else
      let n := num_tokens r - cp_num_computed c in
      let threshold := long_prefill_token_threshold cfg in
      let n := if (0 <? threshold) && (threshold <? n) then threshold else n in
      if negb (enable_chunked_prefill cfg) && (token_budget t <? n) then ret None
      else
        let n := Z.min n (token_budget t) in
        py_assert (0 <? n) ;;;
        if has_encoder_inputs r then
          let! plan := try_schedule_encoder_inputs r (cp_num_computed c) n (encoder_compute_budget t)
                         (if use_eagle cfg then 1 else 0) in
          ret (if ep_num_new_tokens plan =? 0 then None else Some plan)
        else ret (Some (no_plan n)) in
  match planned with
  | None => ret None
  | Some plan =>
      if need_mamba_block_aligned_split cfg then
        let! n := mamba_block_aligned_split r (ep_num_new_tokens plan) (cp_num_local c) (cp_num_external c) in
        ret (if n =? 0 then None else Some (n, plan))
      else ret (Some (ep_num_new_tokens plan, plan))
  end.

(** The blocks for the request; [None] when they do not fit, and then the
    request gives back its entries of the encoder cache. *)
Definition allocate_waiting (rid : string) (c : Computed) (n : Z) (plan : EncoderPlan) : MS (option KVCacheBlocks) :=
  let! r := get_req rid in
  let lookahead := if num_computed_tokens r =? 0 then 0 else num_lookahead_tokens cfg in
  let! embeds :=
    if is_encoder_decoder cfg && has_encoder_inputs r then
      map_m (ep_to_schedule plan) (λ i,
        match get_num_encoder_embeds r i with Some n => ret n | None => raise AssertionError end)
    else ret [] in
  let num_encoder_tokens := foldr Z.add 0 embeds in
  let unscheduled := (if has_encoder_inputs r then enc_free r else ret tt) ;;; ret None in
  let! fits :=
    if scheduler_reserve_full_isl cfg then
      on_kv (can_fit_full_sequence r (cp_num_local c) (Some (cp_blocks c)) (cp_num_external c) num_encoder_tokens)
    else ret true in
  if negb fits then unscheduled
  else
    let! out := on_kv (allocate_slots (h_sha256 cfg) r n (cp_num_local c) (Some (cp_blocks c)) lookahead
                         (cp_num_external c) (cp_load_kv_async c) num_encoder_tokens) in
    put_req rid out.2 ;;;
    match out.1 with
    | None => unscheduled
    | Some blocks => ret (Some blocks)
    end.

(** The connector learns about the blocks, and its statistics are updated. *)
Definition connector_after_alloc (rid : string) (c : Computed) : MS unit :=
  if connector_on plug then
    let! r := get_req rid in
    let! s := gets id in
    tell_plugins (update_state_after_alloc plug r (blocks_field (get_blocks (kv_cache_manager s) rid)) (cp_num_external c)) ;;;
    match connector_prefix_cache_stats s with
    | Some st =>
        if cp_queries c =? 0 then ret tt
        else modify (set_conn_stats (Some (record_stats (cp_queries c) (cp_num_external c) (0 <? num_preemptions r) st)))
    | None => ret tt
    end
  else ret tt.

(** The request starts to run. *)
Definition commit_waiting (rid : string) (c : Computed) (n : Z) (plan : EncoderPlan) (loras : gset Z) (t : Step)
    : MS (gset Z * Step) :=
  let! r := get_req rid in
  modify (λ s, set_running (running s ++ [rid]) s) ;;;
  let! t :=
    match status r with
    | WAITING => ret (set_new_reqs (scheduled_new_reqs t ++ [rid]) t)
    | PREEMPTED => ret (set_resumed_reqs (scheduled_resumed_reqs t ++ [rid]) t)
    | _ => raise RuntimeError
    end in
  let loras := match max_loras cfg, lora_request r with
               | Some _, Some l => {[ lora_int_id l ]} ∪ loras
               | _, _ => loras
               end in
  let! s := gets id in
  let t := set_token_budget (token_budget t - n)
             (set_num_scheduled (sdict_set rid n (num_scheduled_tokens t))
                (set_new_blocks (<[rid := get_blocks (kv_cache_manager s) rid]> (req_to_new_blocks t)) t)) in
  upd_req rid (λ r, set_num_computed_tokens (cp_num_computed c) (set_status RUNNING r)) ;;;
  let! t :=
    match ep_to_schedule plan with
    | [] => ret t
    | inputs =>
        allocate_encoder_inputs rid inputs ;;;
        ret (set_encoder_budget (ep_budget plan) (set_encoder_inputs (<[rid := inputs]> (scheduled_encoder_inputs t)) t))
    end in
  allocate_encoder_inputs rid (ep_external plan) ;;;
  ret (loras, t).

(** Whether the request would exceed the number of adapters. *)
Definition exceeds_max_loras (r : Request) (loras : gset Z) : bool :=
  match max_loras cfg, lora_request r with
  | Some m, Some l => (Z.of_nat (size loras) =? m) && negb (bool_decide (lora_int_id l ∈ loras))
  | _, _ => false
  end.

(** What becomes of the request at the head of a queue. *)
Inductive waiting_outcome :=
  | Stop                                    (* break *)
  | Skip                                    (* to the step's skipped queue *)
  | LoadAsync (num_computed : Z)            (* blocks allocated, KV on its way *)
  | Admit (c : Computed) (n : Z) (plan : EncoderPlan).

Definition consider_waiting (rid : string) (loras : gset Z) (t : Step) : MS waiting_outcome :=
  let! r := get_req rid in
  let! promoted := if is_blocked_waiting_status (status r) then try_promote_blocked_waiting_request rid else ret true in
  if negb promoted then ret Skip
  else if exceeds_max_loras r loras then ret Skip
  else
    let! computed := get_cached_tokens rid in
    match computed with
    | None => ret Skip
    | Some c =>
        let! tokens := waiting_new_tokens rid c t in
        match tokens with
        | None => ret Stop
        | Some (n, plan) =>
            let! blocks := allocate_waiting rid c n plan in
            match blocks with
            | None => ret Stop
            | Some _ =>
                connector_after_alloc rid c ;;;
                ret (if cp_load_kv_async c then LoadAsync (cp_num_computed c) else Admit c n plan)
            end
        end
    end.

(** [step_skipped_waiting.prepend_request(request)] *)
Definition prepend_to_step (rid : string) (q : IdQueue) : MS IdQueue :=
  let! r := get_req rid in
  let! s := gets id in
  ret (store_queue (prepend_request (load_queue (s_objs s) q) r)).

(** The [while] loop over the waiting queues. *)
Fixpoint waiting_loop (fuel : nat) (step_skipped : IdQueue) (loras : gset Z) (t : Step) : MS (IdQueue * Step) :=
  match fuel with
  | O => raise OutOfFuel
  | S fuel =>
      let! s := gets id in
      if negb ((q_nonempty (waiting s) || q_nonempty (skipped_waiting s)) && (0 <? token_budget t)) then ret (step_skipped, t)
      else if len (running s) =? max_num_running_reqs cfg then ret (step_skipped, t)
      else
        let! w := select_waiting_queue_for_scheduling in
        match w with
        | None => raise AssertionError
        | Some w =>
            let! rid := peek_from w in
            let! outcome := consider_waiting rid loras t in
            match outcome with
            | Stop => ret (step_skipped, t)
            | Skip =>
                pop_from w ;;;
                let! q := prepend_to_step rid step_skipped in
                waiting_loop fuel q loras t
            | LoadAsync num_computed =>
                let! rid := pop_from w in
                upd_req rid (set_status WAITING_FOR_REMOTE_KVS) ;;;
                let! q := prepend_to_step rid step_skipped in
                upd_req rid (set_num_computed_tokens num_computed) ;;;
                waiting_loop fuel q loras t
            | Admit c n plan =>
                let! rid := pop_from w in
                let! x := commit_waiting rid c n plan loras t in
                waiting_loop fuel step_skipped x.1 x.2
            end
        end
  end.

(** ** schedule() *)

(** The adapters of the scheduled running requests. *)
Definition running_loras (t : Step) : MS (gset Z) :=
  match max_loras cfg with
  | None => ret ∅
  | Some m =>
      let! rs := map_m (scheduled_running_reqs t) get_req in
      let loras := list_to_set (omap (λ r, l ← lora_request r; if 0 <? lora_int_id l then Some (lora_int_id l) else None) rs) in
      py_assert (Z.of_nat (size loras) <=? m) ;;;
      ret loras
  end.

(** [_make_cached_request_data]: one row per running, then resumed request. *)
Definition cached_row (t : Step) (resumed : bool) (d : CachedRequestData) (rid : string) : MS CachedRequestData :=
  let! s := gets id in
  let! r := get_req rid in
  let with_tokens := use_pp cfg && negb (async_scheduling cfg) in
  match (if with_tokens then sdict_get rid (num_scheduled_tokens t) else Some 0), req_to_new_blocks t !! rid with
  | Some n, Some blocks =>
      let num := n - len (default [] (scheduled_spec_decode_tokens t !! rid)) in
      let token_ids := py_slice (all_token_ids r) (num_computed_tokens r) (num_computed_tokens r + num) in
      let prev := bool_decide (rid ∈ prev_step_scheduled_req_ids s) in
      py_assert (negb (resumed && prev)) ;;;
      ret (MkCachedRequestData (cr_req_ids d ++ [rid])
        (if resumed then {[ rid ]} ∪ cr_resumed_req_ids d else cr_resumed_req_ids d)
        (if with_tokens then cr_new_token_ids d ++ [token_ids] else cr_new_token_ids d)
        (if prev then cr_all_token_ids d else <[rid := all_token_ids r]> (cr_all_token_ids d))
        (cr_new_block_ids d ++ [blocks_get_ids (heap (free_block_queue (pool_of (kv_cache_manager s)))) true blocks])
        (cr_num_computed_tokens d ++ [num_computed_tokens r])
        (cr_num_output_tokens d ++ [num_output_tokens r + num_output_placeholders r]))
  | _, _ => raise KeyError
  end.
Fixpoint cached_rows (t : Step) (resumed : bool) (rids : list string) (d : CachedRequestData) : MS CachedRequestData :=
  match rids with
  | [] => ret d
  | rid :: rids => let! d := cached_row t resumed d rid in cached_rows t resumed rids d
  end.
Definition make_cached_request_data (t : Step) (running_reqs resumed_reqs : list string) : MS CachedRequestData :=
  let! d := cached_rows t false running_reqs (MkCachedRequestData [] ∅ [] ∅ [] [] []) in
  cached_rows t true resumed_reqs d.

(** The data of the requests the workers do not know yet. *)
Definition make_new_request_data (t : Step) (new_reqs : list string) : MS (list NewRequestData) :=
  map_m new_reqs (λ rid,
    let! s := gets id in
    let! r := get_req rid in
    match req_to_new_blocks t !! rid with
    | None => raise KeyError
    | Some blocks =>
        match blocks_get_ids (heap (free_block_queue (pool_of (kv_cache_manager s)))) false blocks with
        | None => raise TypeError
        | Some ids => ret (new_request_data r ids (if use_v2_model_runner cfg then Some (all_token_ids r) else None))
        end
    end).

(** [Scheduler._update_after_schedule] *)
Definition base_update_after_schedule (o : SchedulerOutput) : MS SchedulerOutput :=
  let! flags := map_m (so_num_scheduled_tokens o) (λ kn : string * Z,
    upd_req kn.1 (λ r,
      let r := set_num_computed_tokens (num_computed_tokens r + kn.2) r in
      set_is_prefill_chunk (num_computed_tokens r <? num_tokens r + num_output_placeholders r) r) ;;;
    let! r := get_req kn.1 in
    ret (use_structured_output r && negb (is_prefill_chunk r))) in
  modify (set_finished_req_ids ∅) ;;;
  ret (set_so_has_structured_output_requests (existsb id flags || so_has_structured_output_requests o) o).

(** [AsyncScheduler._update_after_schedule]: output placeholders. *)
Definition async_update_after_schedule (o : SchedulerOutput) : MS SchedulerOutput :=
  let! o := base_update_after_schedule o in
  let! flags := map_m (so_num_scheduled_tokens o) (λ kn : string * Z,
    let! r := get_req kn.1 in
    if is_prefill_chunk r then ret false
    else
      let pending := use_structured_output r && (0 <? num_output_placeholders r) in
      upd_req kn.1 (λ r,
        set_spec_token_ids (py_repeat (-1) (num_spec_tokens cfg))
          (set_num_output_placeholders
             (num_output_placeholders r + (1 + len (default [] (so_scheduled_spec_decode_tokens o !! kn.1)))) r)) ;;;
      ret pending) in
  ret (set_so_pending_structured_output_tokens (existsb id flags || so_pending_structured_output_tokens o) o).

Definition update_after_schedule (o : SchedulerOutput) : MS SchedulerOutput :=
  if async_scheduler cfg then async_update_after_schedule o else base_update_after_schedule o.

(** The values at the start of a step. *)
Definition new_step (s : Sched E) : Step :=
  MkStep [] [] [] [] ∅ []
    (if bool_decide (pause_state s = PAUSED_ALL) then 0 else max_num_scheduled_tokens cfg)
    ∅ (max_num_encoder_input_tokens cfg) ∅.

(** The waiting requests are considered when nothing was preempted. *)
Definition schedule_waiting (t : Step) : MS Step :=
  let! loras := running_loras t in
  let! s := gets id in
  if bool_decide (preempted_reqs t = []) && bool_decide (pause_state s = UNPAUSED) then
    let! x := waiting_loop (S (length (q_ids (waiting s)) + length (q_ids (skipped_waiting s))))
                (empty_queue (policy cfg)) loras t in
    let '(step_skipped, t) := x in
    (if q_nonempty step_skipped then
       modify (λ s, set_skipped_waiting
         (store_queue (prepend_requests (load_queue (s_objs s) (skipped_waiting s)) (load_queue (s_objs s) step_skipped))) s)
     else ret tt) ;;;
    ret t
  else ret t.

(** The constraints [schedule] asserts after its loops. *)
Definition check_constraints (t : Step) : MS unit :=
  let! s := gets id in
  py_assert (sum_values (num_scheduled_tokens t) <=? max_num_scheduled_tokens cfg) ;;;
  py_assert (0 <=? token_budget t) ;;;
  py_assert (len (running s) <=? max_num_running_reqs cfg) ;;;
  py_assert (len (scheduled_new_reqs t) + len (scheduled_resumed_reqs t) + len (scheduled_running_reqs t) <=? len (running s)).

(** The output of the step. *)
Definition make_output (t : Step) : MS SchedulerOutput :=
  let! s := gets id in
  let! common :=
    match running s with
    | [] => ret (replicate (sched_num_groups cfg) 0)
    | rid :: _ => on_kv (kv_num_common_prefix_blocks rid)
    end in
  let v2 := use_v2_model_runner cfg in
  let! new_reqs := make_new_request_data t
    (if v2 then scheduled_new_reqs t ++ scheduled_resumed_reqs t else scheduled_new_reqs t) in
  let! cached := make_cached_request_data t (scheduled_running_reqs t) (if v2 then [] else scheduled_resumed_reqs t) in
  modify (set_prev_step (list_to_set (num_scheduled_tokens t).*1)) ;;;
  let! zero :=
    if needs_kv_cache_zeroing cfg then
      let! ids := on_kv kv_take_new_block_ids in ret (match ids with [] => None | _ => Some ids end)
    else ret None in
  let! s := gets id in
  let! freed := enc_get_freed_mm_hashes in
  ret (MkSchedulerOutput new_reqs cached (num_scheduled_tokens t) (sum_values (num_scheduled_tokens t))
    (scheduled_spec_decode_tokens t) (scheduled_encoder_inputs t) common (list_to_set (preempted_reqs t))
    (finished_req_ids s) freed zero false false None).

(** [schedule] *)
Definition schedule : MS SchedulerOutput :=
  on_kv kv_new_step_starts ;;;
  let! s := gets id in
  let! t := running_loop (S (length (running s))) 0 (new_step s) in
  let! t := schedule_waiting t in
  check_constraints t ;;;
  let! o := make_output t in
  (if connector_on plug then tell_plugins (build_connector_meta plug) else ret tt) ;;;
  (if ec_connector_on plug then tell_plugins (ec_build_connector_meta plug) else ret tt) ;;;
  update_after_schedule o.

End scheduler.
