(* ===== verification/SchedulerUpdate.v ===== *)
(** * The scheduler (vllm/v1/core/sched/scheduler.py, async_scheduler.py):
    the other entry points

    Adding and finishing requests, streaming sessions, the results of a step
    ([update_from_output]), failed KV loads, draft tokens, pausing and resets.
    A set of ids that Python iterates over is a list without duplicates in the
    order of the iteration. *)

From S2P Require Import Prelude FreeQueue RequestModel BlockHash KVCacheMetrics BlockPool KVCacheInterface.
From S2P Require Import KVCacheManager SchedUtils EncoderCache RequestQueue SchedulerState Scheduler.

Section scheduler.
Context {E : Type} (cfg : SchedulerConfig) (plug : Plugins E).
Abbreviation MS := (M (Sched E)).

(** ** Finishing requests *)

(** [_free_blocks] *)
Definition free_request_blocks (rid : string) : MS unit :=
  let! r := get_req rid in
  py_assert (is_finished r) ;;;
  on_kv (kv_free r) ;;;
  let! s := gets id in
  if bool_decide (rid ∈ requests s) then modify (λ s, set_requests (remove_first rid (requests s)) s) else raise KeyError.

(** [_connector_finished] *)
Definition connector_finished (rid : string) : MS (bool * option (list string)) :=
  if connector_on plug then
    let! r := get_req rid in
    on_kv (kv_remove_skipped_blocks rid (num_tokens r)) ;;;
    let! s := gets id in
    let block_ids := get_block_ids (kv_cache_manager s) rid in
    (if supports_hma plug then ret tt else py_assert (Nat.eqb (sched_num_groups cfg) 1)) ;;;
    on_plugins (request_finished plug r (if supports_hma plug then block_ids else take 1 block_ids))
  else ret (false, None).

(** [_free_request] *)
Definition free_request (rid : string) (delay_free_blocks : bool) : MS (option (list string)) :=
  let! r := get_req rid in
  py_assert (is_finished r) ;;;
  let! conn := connector_finished rid in
  enc_free r ;;;
  modify (λ s, set_finished_req_ids ({[ rid ]} ∪ finished_req_ids s) s) ;;;
  modify (λ s, set_finished_req_ids_dict
    ((λ d : gmap Z (gset string), <[client_index r := {[ rid ]} ∪ default ∅ (d !! client_index r)]> d)
       <$> finished_req_ids_dict s) s) ;;;
  (if delay_free_blocks || conn.1 then ret tt else free_request_blocks rid) ;;;
  ret conn.2.

(** [self.requests.get(req_id)] is a request that is not finished. *)
Definition is_live (s : Sched E) (rid : string) : bool :=
  bool_decide (rid ∈ requests s) && match s_objs s !! rid with Some r => negb (is_finished r) | None => false end.

Definition has_status (s : Sched E) (st : RequestStatus) (i : string) : bool :=
  bool_decide (status <$> s_objs s !! i = Some st).

(** [finish_requests]; [None] stands for all requests. *)
Definition finish_requests (request_ids : option (list string)) (finished_status : RequestStatus) : MS (list (string * Z)) :=
  py_assert (status_is_finished finished_status) ;;;
  let! s := gets id in
  let valid := filter (λ i, is_live s i = true) (default (requests s) request_ids) in
  let running_to_remove := filter (λ i, has_status s RUNNING i = true) valid in
  let waiting_to_remove := filter (λ i, has_status s RUNNING i = false) valid in
  let streaming := filter (λ i, has_status s WAITING_FOR_STREAMING_REQ i = true) valid in
  modify (λ s, set_num_streaming (num_waiting_for_streaming_input s - len streaming) s) ;;;
  modify (λ s, set_running (remove_all (running s) running_to_remove).1 s) ;;;
  (if bool_decide (waiting_to_remove = []) then ret tt
   else remove_from Waiting waiting_to_remove ;;; remove_from Skipped waiting_to_remove) ;;;
  map_m valid (λ rid,
    let! r := get_req rid in
    let! delay :=
      if bool_decide (status r = WAITING_FOR_REMOTE_KVS) then
        let! s := gets id in
        let delay := negb (bool_decide (rid ∈ finished_recving_kv_req_ids s)) in
        modify (λ s, set_finished_recving (finished_recving_kv_req_ids s ∖ {[ rid ]}) s) ;;;
        modify (λ s, set_failed_recving (failed_recving_kv_req_ids s ∖ {[ rid ]}) s) ;;;
        ret delay
      else ret false in
    upd_req rid (set_status finished_status) ;;;
    free_request rid delay ;;;
    ret (rid, client_index r)).

(** ** Streaming sessions and new requests *)

(** The parts of [_update_request_as_session] on the request object. *)
Definition session_update (update : StreamingUpdate) : M Request unit :=
  let! r := gets id in
  let kept_output_tokens := py_slice (all_token_ids r) (num_prompt_tokens r) (num_computed_tokens r) in
  modify (λ r, set_output_token_ids [] (set_all_token_ids (py_slice_to (all_token_ids r) (num_computed_tokens r)) r)) ;;;
  let! r := gets id in
  match prompt_token_ids r with
  | None => raise AssertionError
  | Some prompt =>
      let base := num_tokens r in
      let moved := (λ f, MkFeature (identifier f)
        (MkRange (offset (mm_position f) + base) (length_ (mm_position f)) (is_embed (mm_position f)))) <$> su_mm_features update in
      let new_tokens := default [] (su_prompt_token_ids update) in
      modify (λ r, set_mm_features (mm_features r ++ moved) r) ;;;
      modify (λ r, set_all_token_ids (all_token_ids r ++ new_tokens) r) ;;;
      modify (set_prompt_token_ids (Some (prompt ++ kept_output_tokens ++ new_tokens))) ;;;
      update_block_hashes (h_sha256 cfg) (h_hash cfg) (h_none cfg) (block_hasher cfg) ;;;
      modify (set_num_prompt_tokens (len (prompt ++ kept_output_tokens ++ new_tokens))) ;;;
      modify (λ r, set_sampling_params (su_sampling_params update) (set_arrival_time (su_arrival_time update) r))
  end.

(** [_update_request_as_session] *)
Definition update_request_as_session (rid : string) (update : StreamingUpdate) : MS unit :=
  on_req rid (session_update update) ;;;
  let! r := get_req rid in
  (if bool_decide (status r = WAITING_FOR_STREAMING_REQ)
   then modify (λ s, set_num_streaming (num_waiting_for_streaming_input s - 1) s) else ret tt) ;;;
  upd_req rid (set_status WAITING).

(** [add_request] *)
Definition add_request (request : Request) : MS unit :=
  let rid := request_id request in
  let! s := gets id in
  if bool_decide (rid ∈ requests s) then
    let! existing := get_req rid in
    let update := update_from_request request in
    if negb (bool_decide (status existing = WAITING_FOR_STREAMING_REQ)) then
      match streaming_queue existing with
      | None => raise AssertionError
      | Some q => upd_req rid (set_streaming_queue (Some (q ++ [update])))
      end
    else
      match update with
      | Some u => update_request_as_session rid u
      | None => finish_requests (Some [rid]) FINISHED_ABORTED ;;; ret tt
      end
  else
    let request := if resumable request then set_streaming_queue (Some []) request else request in
    modify (λ s, set_objs (<[rid := request]> (s_objs s)) s) ;;;
    enqueue_waiting_request rid ;;;
    modify (λ s, set_requests (requests s ++ [rid]) s).

(** [_handle_stopped_request] *)
Definition handle_stopped_request (rid : string) : MS bool :=
  let! r := get_req rid in
  if negb (resumable r) then ret true
  else
    match streaming_queue r with
    | Some (update :: q) =>
        upd_req rid (set_streaming_queue (Some q)) ;;;
        match update with
        | None => ret true
        | Some u => update_request_as_session rid u ;;; enqueue_waiting_request rid ;;; ret false
        end
    | _ =>
        upd_req rid (set_status WAITING_FOR_STREAMING_REQ) ;;;
        modify (λ s, set_num_streaming (num_waiting_for_streaming_input s + 1) s) ;;;
        enqueue_waiting_request rid ;;;
        ret false
    end.

(** ** Results of a step *)

(** [Scheduler._update_request_with_output]: the tokens are appended one by
    one until one of them stops the request. *)
Fixpoint append_until_stop (kept new_token_ids : list Z) : M Request (list Z * bool) :=
  match new_token_ids with
  | [] => ret (kept, false)
  | tok :: rest =>
      append_output_token_ids (h_sha256 cfg) (h_hash cfg) (h_none cfg) (block_hasher cfg) [tok] ;;;
      let! stopped := check_stop (sched_max_model_len cfg) in
      if (stopped : bool) then ret (kept ++ [tok], true) else append_until_stop (kept ++ [tok]) rest
  end.
Definition base_update_request_with_output (rid : string) (new_token_ids : list Z) : MS (list Z * bool) :=
  on_req rid (append_until_stop [] new_token_ids).

(** [AsyncScheduler._update_request_with_output] *)
Definition async_update_request_with_output (rid : string) (new_token_ids : list Z) : MS (list Z * bool) :=
  let! r := get_req rid in
  if discard_latest_async_tokens r then
    upd_req rid (set_discard_latest_async_tokens false) ;;; ret ([], false)
  else
    let! x := base_update_request_with_output rid new_token_ids in
    upd_req rid (λ r, set_num_output_placeholders (num_output_placeholders r - len x.1) r) ;;;
    let! r' := get_req rid in
    py_assert (0 <=? num_output_placeholders r') ;;;
    (if bool_decide (status r = RUNNING) then
       let! r'' := on_kv (kv_cache_blocks (h_sha256 cfg) r' (num_computed_tokens r' - num_output_placeholders r')) in
       put_req rid r''
     else ret tt) ;;;
    ret x.

Definition update_request_with_output (rid : string) (new_token_ids : list Z) : MS (list Z * bool) :=
  if async_scheduler cfg then async_update_request_with_output rid new_token_ids
  else base_update_request_with_output rid new_token_ids.

(** [_free_encoder_inputs] *)
Definition free_encoder_inputs (rid : string) : MS unit :=
  let! r := get_req rid in
  let! ids := enc_cached_input_ids r in
  for_each ids (λ i,
    match mm_features r !! i with
    | None => raise IndexError
    | Some f =>
        if is_encoder_decoder cfg && (0 <? num_computed_tokens r) then enc_free_input r i
        else if offset (mm_position f) + length_ (mm_position f) <=? num_computed_tokens r then enc_free_input r i
        else ret tt
    end).

(** [_get_routed_experts]: the slots the reader is asked for. *)
Definition routed_slots (block_ids : list Z) (bs num_tokens : Z) : list Z :=
  py_slice_to (concat ((λ b, (λ o, o + b * bs) <$> py_range 0 bs) <$> block_ids)) num_tokens.
Definition get_routed_experts (rid : string) : MS (option (list Z)) :=
  match return_routed_experts cfg with
  | None => ret None
  | Some (gid, bs) =>
      let! r := get_req rid in
      let! s := gets id in
      match get_block_ids (kv_cache_manager s) rid !! gid with
      | None => raise IndexError
      | Some block_ids => ret (Some (routed_slots block_ids bs (num_tokens r - 1)))
      end
  end.

(** The parts of [ModelRunnerOutput] the scheduler reads; pooler outputs and
    log probabilities are opaque. *)
Record KVConnectorOutput := MkKVConnectorOutput {
  kc_finished_sending : list string;
  kc_finished_recving : list string;
  kc_invalid_block_ids : gset Z;
}.
Record ModelRunnerOutput := MkModelRunnerOutput {
  mr_req_id_to_index : gmap string nat;
  mr_sampled_token_ids : list (list Z);
  mr_pooler_output : list (option string);
  mr_prompt_logprobs : gset string;
  mr_num_nans_in_logits : option (gmap string Z);
  mr_kv_connector_output : option KVConnectorOutput;
}.

Record EngineCoreOutput := MkEngineCoreOutput {
  eo_request_id : string;
  eo_new_token_ids : list Z;
  eo_finish_reason : option FinishReason;
  eo_pooling_output : option string;
  eo_stop_reason : option StopReason;
  eo_prefill_stats : option PrefillStats;
  eo_kv_transfer_params : option (list string);
  eo_routed_experts : option (list Z);
  eo_num_nans_in_logits : Z;
}.

(** What the loop of [update_from_output] collects. *)
Record Collected := MkCollected {
  col_outputs : gmap Z (list EngineCoreOutput);
  col_stopped_running : list string;
  col_stopped_preempted : list string;
}.
Definition add_output (client : Z) (o : EngineCoreOutput) (c : Collected) : Collected :=
  MkCollected (<[client := default [] (col_outputs c !! client) ++ [o]]> (col_outputs c))
    (col_stopped_running c) (col_stopped_preempted c).

(** Rejected draft tokens are not computed. *)
Definition adjust_for_rejected (rid : string) (spec : option (list Z)) (generated : list Z) : MS unit :=
  match spec, generated with
  | Some (d :: ds), g :: gs =>
      let num_rejected := len (d :: ds) - (len (g :: gs) - 1) in
      upd_req rid (λ r, if 0 <? num_computed_tokens r
                        then set_num_computed_tokens (num_computed_tokens r - num_rejected) r else r) ;;;
      upd_req rid (λ r, if 0 <? num_output_placeholders r
                        then set_num_output_placeholders (num_output_placeholders r - num_rejected) r else r)
  | _, _ => ret tt
  end.

(** The new tokens enter the request; the grammar may reject them. *)
Definition take_new_tokens (rid : string) (generated : list Z) (pooler_output : option string) : MS (list Z * bool) :=
  let! r := get_req rid in
  let! x :=
    match generated with
    | _ :: _ => update_request_with_output rid generated
    | [] =>
        if bool_decide (is_Some (pooling_params r)) && bool_decide (is_Some pooler_output)
        then upd_req rid (set_status FINISHED_STOPPED) ;;; ret ([], true)
        else ret ([], false)
    end in
  let! r := get_req rid in
  let! s := gets id in
  match x.1 with
  | [] => ret x
  | _ =>
      if should_advance plug r (plugin_state s) then
        py_assert (use_structured_output r && grammar_ready r) ;;;
        let! ok := on_plugins (accept_tokens plug rid x.1) in
        if (ok : bool) then ret x
        else upd_req rid (λ r, set_resumable false (set_status FINISHED_ERROR r)) ;;; ret (x.1, true)
      else ret x
  end.

(** One scheduled request of [update_from_output]. *)
Definition update_one (o : SchedulerOutput) (m : ModelRunnerOutput) (rid : string) (c : Collected) : MS Collected :=
  match mr_req_id_to_index m !! rid with
  | None => raise KeyError
  | Some idx =>
      let! generated :=
        match mr_sampled_token_ids m with
        | [] => ret []
        | toks => py_index toks (Z.of_nat idx)
        end in
      let! pooler_output :=
        match mr_pooler_output m with
        | [] => ret None
        | outs => py_index outs (Z.of_nat idx)
        end in
      adjust_for_rejected rid (so_scheduled_spec_decode_tokens o !! rid) generated ;;;
      let! r := get_req rid in
      (if has_encoder_inputs r then free_encoder_inputs rid else ret tt) ;;;
      let! r := get_req rid in
      let status_before_stop := status r in
      let! x := take_new_tokens rid generated pooler_output in
      let '(new_token_ids, stopped) := x in
      let! fin :=
        if (stopped : bool) then
          let! routed := get_routed_experts rid in
          let! r := get_req rid in
          let reason := get_finished_reason (status r) in
          let! finished := handle_stopped_request rid in
          let! params := if (finished : bool) then free_request rid false else ret None in
          ret (routed, reason, params)
        else ret (None, None, None) in
      let '(routed, reason, params) := fin in
      let c :=
        if stopped then
          if bool_decide (status_before_stop = RUNNING)
          then MkCollected (col_outputs c) (col_stopped_running c ++ [rid]) (col_stopped_preempted c)
          else MkCollected (col_outputs c) (col_stopped_running c) (col_stopped_preempted c ++ [rid])
        else c in
      (match mr_num_nans_in_logits m ≫= (λ d, d !! rid) with
       | Some n => upd_req rid (set_num_nans_in_logits n)
       | None => ret tt
       end) ;;;
      if negb (bool_decide (new_token_ids = [])) || bool_decide (is_Some pooler_output)
         || match params with Some (_ :: _) => true | _ => false end || stopped then
        let! r := get_req rid in
        upd_req rid (set_prefill_stats None) ;;;
        ret (add_output (client_index r)
               (MkEngineCoreOutput rid new_token_ids reason pooler_output (stop_reason r) (prefill_stats r) params routed
                  (num_nans_in_logits r)) c)
      else
        py_assert (negb (bool_decide (rid ∈ mr_prompt_logprobs m))) ;;;
        ret c
  end.

Fixpoint update_loop (o : SchedulerOutput) (m : ModelRunnerOutput) (failed : gset string) (sched : list (string * Z))
    (c : Collected) : MS Collected :=
  match sched with
  | [] => ret c
  | (rid, num_tokens_scheduled) :: sched =>
      py_assert (0 <? num_tokens_scheduled) ;;;
      let! s := gets id in
      if bool_decide (rid ∈ failed) || negb (is_live s rid) then update_loop o m failed sched c
      else let! c := update_one o m rid c in update_loop o m failed sched c
  end.

(** [_update_from_kv_xfer_finished] *)
Definition update_from_kv_xfer_finished (k : KVConnectorOutput) : MS unit :=
  (if connector_on plug then tell_plugins (update_connector_output plug) else ret tt) ;;;
  for_each (kc_finished_recving k) (λ rid,
    let! s := gets id in
    py_assert (bool_decide (rid ∈ requests s)) ;;;
    let! r := get_req rid in
    if bool_decide (status r = WAITING_FOR_REMOTE_KVS)
    then modify (λ s, set_finished_recving ({[ rid ]} ∪ finished_recving_kv_req_ids s) s)
    else py_assert (is_finished r) ;;; free_request_blocks rid) ;;;
  for_each (kc_finished_sending k) (λ rid,
    let! s := gets id in
    py_assert (bool_decide (rid ∈ requests s)) ;;;
    free_request_blocks rid).

(** ** Failed KV loads *)

(** The variables of [_update_requests_with_invalid_blocks]. *)
Record Invalid := MkInvalid {
  iv_affected : list string;
  iv_tokens : Z;
  iv_evict : gset Z;
  iv_marked : gset Z;
}.

(** The scan of one request's blocks: its computed tokens end before its first
    invalid block that no earlier request recomputes. *)
Record Scan := MkScan {
  sc_affected : bool;
  sc_marked : option Z;
  sc_all_marked : gset Z;
}.
Fixpoint scan_blocks (invalid : gset Z) (idx : Z) (block_ids : list Z) (c : Scan) : Scan :=
  match block_ids with
  | [] => c
  | b :: block_ids =>
      scan_blocks invalid (idx + 1) block_ids
        (if bool_decide (b ∈ invalid) then
           if bool_decide (b ∈ sc_all_marked c) then MkScan true (sc_marked c) (sc_all_marked c)
           else MkScan true (match sc_marked c with Some i => Some i | None => Some idx end) ({[ b ]} ∪ sc_all_marked c)
         else c)
  end.

Definition invalidate_request (invalid : gset Z) (scheduled : list (string * Z)) (evict : bool) (rid : string) (v : Invalid)
    : MS Invalid :=
  let! r := get_req rid in
  let! s := gets id in
  match get_block_ids (kv_cache_manager s) rid with
  | [req_block_ids] =>
      let bs := sched_block_size cfg in
      let num_computed := num_computed_tokens r - default 0 (sdict_get rid scheduled) in
      let num_blocks := (num_computed + bs - 1) / bs in
      let c := scan_blocks invalid 0 (take (Z.to_nat num_blocks) req_block_ids) (MkScan false None (iv_marked v)) in
      if negb (sc_affected c) then ret (MkInvalid (iv_affected v) (iv_tokens v) (iv_evict v) (sc_all_marked c))
      else
        match sc_marked c with
        | Some idx =>
            upd_req rid (set_num_computed_tokens (idx * bs)) ;;;
            ret (MkInvalid (iv_affected v ++ [rid]) (iv_tokens v + (num_computed - idx * bs))
                   (if evict then iv_evict v ∪ list_to_set (py_slice_from req_block_ids idx) else iv_evict v) (sc_all_marked c))
        | None =>
            upd_req rid (set_num_computed_tokens num_computed) ;;;
            ret (MkInvalid (iv_affected v ++ [rid]) (iv_tokens v + (num_computed_tokens r - num_computed))
                   (iv_evict v) (sc_all_marked c))
        end
  | _ => raise ValueError
  end.

(** [_update_requests_with_invalid_blocks] *)
Fixpoint update_requests_with_invalid_blocks (rids : list string) (invalid : gset Z) (scheduled : list (string * Z))
    (evict : bool) (v : Invalid) : MS Invalid :=
  match rids with
  | [] => ret v
  | rid :: rids =>
      let! v := invalidate_request invalid scheduled evict rid v in
      update_requests_with_invalid_blocks rids invalid scheduled evict v
  end.

(** [_handle_invalid_blocks] *)
Definition handle_invalid_blocks (invalid : gset Z) (scheduled : list (string * Z)) : MS (gset string) :=
  let! s := gets id in
  let loading := filter (λ i, has_status s WAITING_FOR_REMOTE_KVS i = true)
                   (request_id <$> q_iter (load_queue (s_objs s) (skipped_waiting s))) in
  let! a := update_requests_with_invalid_blocks loading invalid scheduled false (MkInvalid [] 0 ∅ ∅) in
  let! s := gets id in
  let! b := update_requests_with_invalid_blocks (running s) invalid scheduled true (MkInvalid [] 0 ∅ ∅) in
  match iv_affected a ++ iv_affected b with
  | [] => ret ∅
  | _ =>
      (if negb (bool_decide (iv_evict b = ∅)) && negb (recompute_kv_load_failures cfg)
       then on_kv (kv_evict_blocks (elements (iv_evict b))) else ret tt) ;;;
      if recompute_kv_load_failures cfg then
        modify (λ s, set_failed_recving (failed_recving_kv_req_ids s ∪ list_to_set (iv_affected a)) s) ;;;
        ret (list_to_set (iv_affected b))
      else ret (list_to_set (iv_affected a) ∪ list_to_set (iv_affected b))
  end.

(** ** update_from_output() *)

(** The result: the outputs and the finished requests per client, and the KV
    events that are published. *)
Record EngineCoreOutputs := MkEngineCoreOutputs {
  eos_outputs : gmap Z (list EngineCoreOutput);
  eos_finished_requests : gmap Z (gset string);
  eos_events : list KVCacheEvent;
}.

(** With the policy "fail", the requests of a failed load end with an error. *)
Definition fail_requests (failed : gset string) (c : Collected) : MS Collected :=
  let rids := elements failed in
  let! rs := map_m rids (λ rid,
    let! s := gets id in
    if bool_decide (rid ∈ requests s) then get_req rid else raise KeyError) in
  finish_requests (Some rids) FINISHED_ERROR ;;;
  let! rs := map_m rids get_req in
  ret (foldl (λ c r, add_output (client_index r)
                 (MkEngineCoreOutput (request_id r) [] (get_finished_reason (status r)) None None None None None 0) c) c rs).

(** [update_from_output] *)
Definition update_from_output (o : SchedulerOutput) (m : ModelRunnerOutput) : MS EngineCoreOutputs :=
  let! failed :=
    match mr_kv_connector_output m with
    | Some k =>
        if bool_decide (kc_invalid_block_ids k = ∅) then ret ∅
        else handle_invalid_blocks (kc_invalid_block_ids k) (so_num_scheduled_tokens o)
    | None => ret ∅
    end in
  let! c := update_loop o m failed (so_num_scheduled_tokens o) (MkCollected ∅ [] []) in
  modify (λ s, set_running (remove_all (running s) (col_stopped_running c)).1 s) ;;;
  (if bool_decide (col_stopped_preempted c = []) then ret tt else remove_from Waiting (col_stopped_preempted c)) ;;;
  let! c := if bool_decide (failed ≠ ∅) && negb (recompute_kv_load_failures cfg) then fail_requests failed c else ret c in
  (match mr_kv_connector_output m with Some k => update_from_kv_xfer_finished k | None => ret tt end) ;;;
  let! events := on_kv kv_take_events in
  let! more := if connector_on plug then on_plugins (connector_take_events plug) else ret [] in
  let! s := gets id in
  let finished := default ∅ (finished_req_ids_dict s) in
  modify (set_finished_req_ids_dict ((λ _, ∅) <$> finished_req_ids_dict s)) ;;;
  ret (MkEngineCoreOutputs (col_outputs c) finished (events ++ more)).

(** ** Draft tokens and grammars *)

(** [update_draft_token_ids] *)
Definition update_draft_token_ids (drafts : list (string * list Z)) : MS unit :=
  for_each drafts (λ kd : string * list Z,
    let! s := gets id in
    if negb (is_live s kd.1) then ret tt
    else
      let! r := get_req kd.1 in
      if is_prefill_chunk r then upd_req kd.1 (set_spec_token_ids [])
      else
        upd_req kd.1 (set_spec_token_ids
          (if should_advance plug r (plugin_state s) then validate_tokens plug kd.1 kd.2 (plugin_state s) else kd.2))).

(** [update_draft_token_ids_in_output] *)
Fixpoint drafts_in_output (s : Sched E) (drafts : list (string * list Z)) (spec : gmap string (list Z)) (invalid : gmap string Z)
    : gmap string (list Z) * gmap string Z :=
  match drafts with
  | [] => (spec, invalid)
  | (rid, toks) :: drafts =>
      match s_objs s !! rid, spec !! rid with
      | Some r, Some (p :: ps) =>
          if negb (is_live s rid) then drafts_in_output s drafts spec invalid
          else
            let n := len (p :: ps) in
            let toks := py_slice_to toks n in
            let toks := if should_advance plug r (plugin_state s) then validate_tokens plug rid toks (plugin_state s) else toks in
            let num_invalid := n - len toks in
            drafts_in_output s drafts (<[rid := toks ++ py_repeat (-1) num_invalid]> spec)
              (if num_invalid =? 0 then invalid else <[rid := num_invalid]> invalid)
      | _, _ => drafts_in_output s drafts spec invalid
      end
  end.
Definition update_draft_token_ids_in_output (drafts : list (string * list Z)) (o : SchedulerOutput) : MS SchedulerOutput :=
  let! s := gets id in
  let '(spec, invalid) := drafts_in_output s drafts (so_scheduled_spec_decode_tokens o) ∅ in
  ret (set_so_num_invalid_spec_tokens (Some invalid) (set_so_scheduled_spec_decode_tokens spec o)).

(** [get_grammar_bitmask]: the requests that get a row of the bitmask. *)
Definition structured_output_request_ids (s : Sched E) (o : SchedulerOutput) : option (list string) :=
  if negb (so_has_structured_output_requests o) then None
  else
    match filter (λ i, bool_decide (i ∈ requests s) &&
                       match s_objs s !! i with
                       | Some r => use_structured_output r && negb (is_prefill_chunk r)
                       | None => false
                       end = true) (so_num_scheduled_tokens o).*1 with
    | [] => None
    | ids => Some ids
    end.

(** ** Counters, pausing, resets *)

(** [get_request_counts] *)
Definition get_request_counts (s : Sched E) : Z * Z :=
  (len (running s), len (q_ids (waiting s)) + len (q_ids (skipped_waiting s))).

(** [set_pause_state] *)
Definition set_pause_state (p : PauseState) : MS unit := modify (set_pause p).

(** [get_num_unfinished_requests] *)
Definition get_num_unfinished_requests (s : Sched E) : Z :=
  match pause_state s with
  | PAUSED_ALL => 0
  | PAUSED_NEW => len (running s)
  | UNPAUSED => len (q_ids (waiting s)) + len (q_ids (skipped_waiting s)) - num_waiting_for_streaming_input s + len (running s)
  end.

(** [has_finished_requests] *)
Definition has_finished_requests (s : Sched E) : bool := negb (bool_decide (finished_req_ids s = ∅)).

(** [reset_connector_cache] *)
Definition reset_connector_cache : MS bool :=
  if negb (connector_on plug) then ret false
  else
    let! ok := on_plugins (reset_cache plug) in
    if negb ok then ret false
    else modify (λ s, set_conn_stats (stats_set_reset <$> connector_prefix_cache_stats s) s) ;;; ret true.

(** The running requests are preempted from the end, so that prepending them
    restores their order. *)
Fixpoint preempt_all (rids : list string) : MS unit :=
  match rids with
  | [] => ret tt
  | rid :: rids =>
      modify (λ s, set_running (take (length (running s) - 1) (running s)) s) ;;;
      preempt_request rid ;;;
      upd_req rid (λ r, set_discard_latest_async_tokens true (set_num_output_placeholders 0 r)) ;;;
      preempt_all rids
  end.

(** [reset_prefix_cache] *)
Definition sched_reset_prefix_cache (reset_running_requests reset_connector : bool) : MS bool :=
  (if reset_running_requests then
     let! s := gets id in
     preempt_all (reverse (running s)) ;;;
     modify (set_prev_step ∅)
   else ret tt) ;;;
  let! reset_successful := on_kv kv_reset_prefix_cache in
  if reset_running_requests && negb reset_successful then raise RuntimeError
  else if reset_connector then
    let! b := reset_connector_cache in ret (b && reset_successful)
  else ret reset_successful.

(** [reset_encoder_cache] *)
Definition reset_encoder_cache : MS unit := enc_reset.

End scheduler.
