(* ===== verification/Engine.v ===== *)
(** * The engine core (vllm/v1/engine/core.py): its calls of the scheduler

    [EngineCore.step] and [step_with_batch_queue] with the calls that arrive
    between steps.  The workers are a function [execute] from a scheduler
    output to a model-runner output; the time at which a result is available is
    a flag of the call.  Sockets, threads, logging and the executor's own
    control calls are left out. *)

From S2P Require Import Prelude FreeQueue RequestModel BlockHash KVCacheMetrics BlockPool KVCacheManager.
From S2P Require Import SchedUtils EncoderCache RequestQueue SchedulerState Scheduler SchedulerUpdate.

Section engine.
Context {E : Type} (cfg : SchedulerConfig) (plug : Plugins E).
Abbreviation MS := (M (Sched E)).

(** ** Calls between steps *)

(** [SchedulerInterface.has_unfinished_requests], [has_requests] *)
Definition has_unfinished_requests (s : Sched E) : bool := 0 <? get_num_unfinished_requests s.
Definition has_requests (s : Sched E) : bool := has_unfinished_requests s || has_finished_requests s.

(** [preprocess_add_request] for a request without a grammar, then
    [add_request]: the request object is built and handed to the scheduler.
    The check of the pooling task against the model is left out. *)
Definition preprocess_add_request (a : RequestArgs) : res Request :=
  request_init (h_sha256 cfg) (h_hash cfg) (h_none cfg) a (block_hasher cfg).
Definition engine_add_request (a : RequestArgs) : MS unit :=
  match preprocess_add_request a with
  | Ok r => add_request cfg plug r
  | Raise e => raise e
  end.

(** [abort_requests]; [finish_requests] makes a set of the ids. *)
Definition abort_requests (request_ids : list string) : MS unit :=
  finish_requests cfg plug (Some (remove_dups request_ids)) FINISHED_ABORTED ;;; ret tt.

(** [_process_aborts_queue]: all queued aborts in one batch. *)
Definition process_aborts_queue (aborts_queue : list (list string)) : MS unit :=
  match aborts_queue with
  | [] => ret tt
  | _ => abort_requests (concat aborts_queue)
  end.

(** [_reset_caches] without the multimodal processor cache. *)
Definition reset_caches (reset_running_requests : bool) : MS unit :=
  sched_reset_prefix_cache plug reset_running_requests false ;;; reset_encoder_cache.

(** [pause_scheduler], [resume_scheduler] *)
Inductive PauseMode := PauseAbort | PauseWait | PauseKeep.
Definition pause_scheduler (mode : PauseMode) (clear_cache : bool) : MS unit :=
  match mode with
  | PauseWait => raise ValueError
  | _ =>
      (match mode with
       | PauseAbort => finish_requests cfg plug None FINISHED_ABORTED ;;; ret tt
       | _ => ret tt
       end) ;;;
      set_pause_state (match mode with PauseKeep => PAUSED_ALL | _ => PAUSED_NEW end) ;;;
      if clear_cache then reset_caches true else ret tt
  end.
Definition resume_scheduler : MS unit := set_pause_state UNPAUSED.

(** ** Steps *)

(** [step]: schedule, execute, handle the aborts that arrived meanwhile, update. *)
Definition step (execute : SchedulerOutput → ModelRunnerOutput) (aborts_queue : list (list string))
    : MS (option EngineCoreOutputs * bool) :=
  let! s := gets id in
  if negb (has_requests s) then ret (None, false)
  else
    let! o := schedule cfg plug in
    let m := execute o in
    process_aborts_queue aborts_queue ;;;
    let! u := update_from_output cfg plug o m in
    ret (Some u, 0 <? so_total_num_scheduled_tokens o).

(** [post_step]: the draft tokens of the step, unless the workers keep them. *)
Definition post_step (use_spec_decode model_executed : bool) (draft_token_ids : option (list (string * list Z))) : MS unit :=
  if negb (async_scheduling cfg) && use_spec_decode && model_executed then
    match draft_token_ids with
    | Some drafts => update_draft_token_ids plug drafts
    | None => ret tt
    end
  else ret tt.

(** [step_with_batch_queue]: the queue of batches in flight, newest first, is
    part of the state; [done] says whether the oldest result is available.  A
    batch that waits for grammar tokens is queued after the update. *)
Record Engine := MkEngine {
  e_sched : Sched E;
  batch_queue : list SchedulerOutput;
}.
Definition on_sched {A} (m : MS A) : M Engine A := zoom e_sched (λ s e, MkEngine s (batch_queue e)) m.
Definition set_batch_queue (q : list SchedulerOutput) (e : Engine) : Engine := MkEngine (e_sched e) q.

Definition step_with_batch_queue (batch_queue_size : Z) (is_ec_consumer is_pooling_model use_spec_decode : bool)
    (execute : SchedulerOutput → ModelRunnerOutput) (done : bool) (drafts : list (string * list Z))
    (aborts_queue : list (list string)) : M Engine (option EngineCoreOutputs * bool) :=
  let! e := gets id in
  py_assert (len (batch_queue e) <? batch_queue_size) ;;;
  let! start :=
    if has_requests (e_sched e) then
      let! o := on_sched (schedule cfg plug) in
      let model_executed := is_ec_consumer && (0 <? so_total_num_scheduled_tokens o) in
      if negb (is_pooling_model || negb model_executed) && so_pending_structured_output_tokens o
      then ret (Some (model_executed, Some o, false))
      else
        modify (λ e, set_batch_queue (o :: batch_queue e) e) ;;;
        ret (Some (model_executed, None, model_executed && (len (o :: batch_queue e) <? batch_queue_size) && negb done))
    else match batch_queue e with
         | [] => ret None
         | _ => ret (Some (false, None, false))
         end in
  match start with
  | None => ret (None, false)
  | Some (_, _, true) => ret (None, true)
  | Some (model_executed, deferred, false) =>
      let! e := gets id in
      match last (batch_queue e) with
      | None => raise IndexError
      | Some o =>
          modify (λ e, set_batch_queue (take (length (batch_queue e) - 1) (batch_queue e)) e) ;;;
          on_sched (process_aborts_queue aborts_queue) ;;;
          let! u := on_sched (update_from_output cfg plug o (execute o)) in
          (match deferred with
           | None => ret tt
           | Some d =>
               let! d := (if use_spec_decode then on_sched (update_draft_token_ids_in_output plug drafts d) else ret d) in
               modify (λ e, set_batch_queue (d :: batch_queue e) e)
           end) ;;;
          ret (Some u, model_executed)
      end
  end.

End engine.
#[global] Arguments Engine : clear implicits.
