(* ===== verification/SchedulerInv.v ===== *)
(** * The invariant of the scheduler

    What holds between the calls of a scheduler that serves text requests with
    one KV-cache service: the live requests are partitioned into running and
    waiting ones, the running requests are exactly the holders of KV-cache
    slots and have slots for their computed tokens, and every request keeps a
    correct hash chain.  The queue lemmas lift the contract of RequestQueue to
    queues of request ids over a heap of request objects. *)

From S2P Require Import Prelude FreeQueue RequestModel BlockHash KVCacheMetrics BlockPool KVCacheManager KVService.
From S2P Require Import SchedUtils EncoderCache Heapq RequestQueue SchedulerState Scheduler.

(** ** Queues of ids *)

(** What [Request.__lt__] compares. *)
Definition order_key (r : Request) := (priority r, arrival_time r, request_id r).

Lemma request_lt_key a b a' b' : order_key a' = order_key a → order_key b' = order_key b → request_lt a' b' = request_lt a b.
Proof. unfold request_lt. by intros [= -> -> ->] [= -> -> ->]. Qed.

Lemma heap_from_key h h' :
  Forall2 (λ r r', order_key r' = order_key r) h h' → heap_from request_lt 0 h → heap_from request_lt 0 h'.
Proof.
  intros HF Hh i Hi x y H1 Hx Hy.
  destruct (Forall2_lookup_r _ _ _ _ _ HF Hx) as (x0 & Hx0 & Ex). destruct (Forall2_lookup_r _ _ _ _ _ HF Hy) as (y0 & Hy0 & Ey).
  specialize (Hh i Hi x0 y0 H1 Hx0 Hy0). etrans; [by apply request_lt_key|exact Hh].
Qed.

(** [i] names an object. *)
Definition named (objs : gmap string Request) (i : string) : Prop := ∃ r, objs !! i = Some r ∧ request_id r = i.

(** A queue of ids over a heap of objects: all ids name objects, and the
    objects are ordered as the queue demands. *)
Definition queue_wf (objs : gmap string Request) (q : IdQueue) : Prop :=
  Forall (named objs) (q_ids q) ∧ queue_inv (load_queue objs q).

Lemma load_contents objs q : contents (load_queue objs q) = omap (λ i, objs !! i) (q_ids q).
Proof. by destruct q. Qed.

Lemma load_named objs l :
  Forall (named objs) l → request_id <$> omap (λ i, objs !! i) l = l ∧
    Forall (λ r, objs !! request_id r = Some r) (omap (λ i, objs !! i) l).
Proof.
  induction 1 as [|i l (r & Hr & Hid) _ [IH1 IH2]]; [done|]. cbn. rewrite Hr. cbn. rewrite IH1, Hid.
  split; [done|]. constructor; [by rewrite Hid|done].
Qed.

Lemma load_store objs q : Forall (λ r, objs !! request_id r = Some r) (contents q) → load_queue objs (store_queue q) = q.
Proof.
  assert (∀ l, Forall (λ r, objs !! request_id r = Some r) l → omap (λ i, objs !! i) (request_id <$> l) = l) as H.
  { induction 1 as [|r l Hr _ IH]; [done|]. cbn. rewrite Hr. cbn. by rewrite IH. }
  destruct q; cbn; intros Hf; by rewrite H.
Qed.

Lemma store_ids q : q_ids (store_queue q) = request_id <$> contents q.
Proof. by destruct q. Qed.

(** A queue of known objects, stored. *)
Lemma queue_update objs q :
  queue_inv q → Forall (λ r, objs !! request_id r = Some r) (contents q) → queue_wf objs (store_queue q).
Proof.
  intros Hi Hf. split; [|by rewrite load_store].
  rewrite store_ids. apply Forall_fmap. eapply Forall_impl; [exact Hf|]. intros r Hr. by exists r.
Qed.

Section queue_ops.
Context (objs : gmap string Request) (q : IdQueue) (Hq : queue_wf objs q).

Lemma queue_loaded :
  request_id <$> contents (load_queue objs q) = q_ids q ∧ Forall (λ r, objs !! request_id r = Some r) (contents (load_queue objs q)).
Proof. rewrite load_contents. apply load_named, Hq. Qed.

Lemma queue_insert (f : RequestQueue → Request → RequestQueue) i r :
  (∀ Q r, queue_inv Q → queue_inv (f Q r) ∧ contents (f Q r) ≡ₚ r :: contents Q) → objs !! i = Some r → request_id r = i →
  queue_wf objs (store_queue (f (load_queue objs q) r)) ∧ q_ids (store_queue (f (load_queue objs q) r)) ≡ₚ i :: q_ids q.
Proof.
  intros Hf Hr <-. destruct (Hf _ r (proj2 Hq)) as [Hi Hp]. destruct queue_loaded as [Hids Hall].
  rewrite store_ids, Hp. cbn. rewrite Hids. split; [|done]. apply queue_update; [done|]. rewrite Hp. by constructor.
Qed.

Lemma queue_pop :
  match pop_request (load_queue objs q) with
  | (Ok r, Q) => queue_wf objs (store_queue Q) ∧ q_ids q ≡ₚ request_id r :: q_ids (store_queue Q) ∧
                 peek_request (load_queue objs q) = Ok r
  | (Raise _, _) => q_ids q = []
  end.
Proof.
  pose proof (pop_inv _ (proj2 Hq)) as H. destruct queue_loaded as [Hids Hall].
  destruct (pop_request (load_queue objs q)) as [[r|e] Q].
  - destruct H as (Hi & Hp & Hpk & _). rewrite Hp in Hall. apply Forall_cons in Hall as [Hr Hall].
    split_and!; auto; [by apply queue_update|]. by rewrite store_ids, <-Hids, Hp.
  - destruct H as (_ & Hc & _). by rewrite Hc in Hids.
Qed.

Lemma queue_remove rids :
  Forall (named objs) rids →
  let q' := store_queue (remove_requests (load_queue objs q) (omap (λ i, objs !! i) rids)) in
  queue_wf objs q' ∧ q_ids q' ≡ₚ filter (λ i, i ∉ rids) (q_ids q).
Proof.
  intros Hn. destruct (load_named _ _ Hn) as [Hrids _]. set (rs := omap _ rids) in *. destruct queue_loaded as [Hids Hall].
  assert (queue_inv (remove_requests (load_queue objs q) rs) ∧
    contents (remove_requests (load_queue objs q) rs) ≡ₚ keep rs (contents (load_queue objs q))) as [Hi Hp].
  { destruct (load_queue objs q); [done|]. by apply heapify_spec, _. }
  cbv zeta. split.
  - apply queue_update; [done|]. rewrite Hp. unfold keep. rewrite Forall_forall in Hall |- *. intros x Hx. apply Hall. by apply list_elem_of_filter in Hx as [_ ?].
  - rewrite store_ids, Hp, <-Hids. unfold keep. rewrite <-Hrids. clear. induction (contents (load_queue objs q)) as [|x l IH]; [done|].
    rewrite fmap_cons, !filter_cons. assert (Forall (λ r, request_id x ≠ request_id r) rs ↔ request_id x ∉ request_id <$> rs) as Hiff.
    { rewrite Forall_forall, list_elem_of_fmap. naive_solver. }
    repeat case_decide; try tauto. rewrite fmap_cons. by constructor.
Qed.

End queue_ops.

(** Objects may change in what the order does not read. *)
Lemma queue_wf_objs objs objs' q :
  queue_wf objs q → (∀ i r, i ∈ q_ids q → objs !! i = Some r → ∃ r', objs' !! i = Some r' ∧ order_key r' = order_key r) →
  queue_wf objs' q.
Proof.
  intros [Hn Hi] Hk. assert (Forall2 (λ r r', order_key r' = order_key r) (omap (λ i, objs !! i) (q_ids q)) (omap (λ i, objs' !! i) (q_ids q))) as HF.
  { revert Hn Hk. clear. induction (q_ids q) as [|i l IH]; intros Hn Hk; [done|]. apply Forall_cons in Hn as [(r & Hr & _) Hn].
    destruct (Hk i r) as (r' & Hr' & E); [by left|done|]. cbn. rewrite Hr, Hr'. cbn. constructor; [done|].
    apply IH; [done|]. intros j x Hj. apply Hk. by right. }
  split.
  - rewrite Forall_forall in Hn |- *. intros i Hin. destruct (Hn i Hin) as (r & Hr & Hid).
    destruct (Hk i r Hin Hr) as (r' & Hr' & [= _ _ E]). exists r'. by rewrite E.
  - destruct q; cbn in *; [done|]. by eapply heap_from_key.
Qed.

Lemma queue_wf_upd objs q i r r' :
  queue_wf objs q → objs !! i = Some r → order_key r' = order_key r → queue_wf (<[i := r']> objs) q.
Proof.
  intros Hq Hr Hk. apply (queue_wf_objs objs); [done|]. intros j x _ Hx. destruct (decide (j = i)) as [->|Hne].
  - rewrite lookup_insert_eq. exists r'. split; [done|]. congruence.
  - rewrite lookup_insert_ne by done. by exists x.
Qed.

Lemma queue_wf_nil objs q : q_ids q = [] → queue_wf objs q.
Proof.
  destruct q; cbn; intros ->; (split; [by apply Forall_nil|]); [done|]. apply (create_inv PRIORITY).
Qed.

(** ** Text requests *)

Section requests.
Context (cfg : SchedulerConfig) (bs : Z).
Abbreviation hashes := (ref_hashes (h_sha256 cfg) (h_hash cfg) (h_none cfg)).

(** A live request without multimodal inputs, embeddings, grammar, draft
    tokens or streaming input; [min_tokens] leaves room in the context. *)
Record plain (rid : string) (r : Request) : Prop := {
  pl_id : request_id r = rid;
  pl_text : mm_features r = [] ∧ prompt_embeds r = None ∧ pooling_params r = None;
  pl_params : ∃ sp, sampling_params r = Some sp ∧ num_prompt_tokens r + min_tokens sp ≤ sched_max_model_len cfg;
  pl_mode : use_structured_output r = false ∧ resumable r = false ∧ spec_token_ids r = [] ∧ num_output_placeholders r = 0;
  pl_hashes : RequestModel.block_hashes r = hashes r bs;
  pl_tokens : num_tokens r = num_prompt_tokens r + num_output_tokens r ∧ 0 < num_prompt_tokens r ∧ num_tokens r < sched_max_model_len cfg;
  pl_stats : is_Some (prefill_stats r) → num_output_tokens r = 0;
  pl_computed : 0 ≤ num_computed_tokens r ≤ num_tokens r;
}.

(** The attributes scheduling never touches. *)
Definition core (r : Request) :=
  (order_key r, (mm_features r, prompt_embeds r, pooling_params r, sampling_params r, num_prompt_tokens r),
   (use_structured_output r, resumable r, num_output_placeholders r, RequestModel.block_hashes r),
   (all_token_ids r, output_token_ids r, lora_request r, cache_salt r)).

(** What the hashes depend on. *)
Definition content (r : Request) := (all_token_ids r, prompt_embeds r, mm_features r, lora_request r, cache_salt r).

Lemma ref_hashes_content r r' : 0 < bs → content r' = content r → hashes r' bs = hashes r bs.
Proof.
  intros Hbs [= E1 E2 E3 E4 E5]. unfold ref_hashes, num_tokens. rewrite E1. apply ref_chain_extends; try done.
  - split_and!; try done. exists []. by rewrite app_nil_r.
  - pose proof (Z.mul_div_le (num_tokens r) bs Hbs). unfold num_tokens in *.
    assert (0 ≤ len (all_token_ids r) / bs) by (apply Z.div_pos; auto with vllm). lia.
Qed.

Lemma ref_hashes_core r r' : 0 < bs → core r' = core r → hashes r' bs = hashes r bs.
Proof. intros Hbs Hc. apply ref_hashes_content; [done|]. unfold content. injection Hc. congruence. Qed.

Lemma plain_core rid r r' :
  0 < bs → plain rid r → core r' = core r → spec_token_ids r' = [] → (is_Some (prefill_stats r') → is_Some (prefill_stats r)) →
  0 ≤ num_computed_tokens r' ≤ num_tokens r → plain rid r'.
Proof.
  intros Hbs [H1 H2 H3 H4 H5 H6 H7 H8] Hc Hs Hp Hn. pose proof (ref_hashes_core r r' Hbs Hc) as Hh.
  pose proof Hc as [= E1 E2 E3 E4 E5 E6 E7 E8 E9 E10 E11 E12 E13 E14 E15 E16].
  unfold num_tokens, num_output_tokens in *. split; unfold num_tokens, num_output_tokens; rewrite ?Hh, ?E3, ?E4, ?E5, ?E6, ?E7, ?E8, ?E9, ?E10, ?E11, ?E12, ?E13, ?E14; auto.
  tauto.
Qed.

Lemma plain_hashable `{!CollisionFree (h_hash cfg) (h_none cfg)} rid r : 0 < bs → plain rid r → hashable bs r.
Proof.
  intros Hbs Hp. unfold hashable. rewrite (pl_hashes _ _ Hp). split; [|by apply ref_hashes_nodup].
  unfold ref_hashes, len. rewrite ref_chain_length. lia.
Qed.


(** ** Running and waiting *)

(** The live requests [reqs] with their objects are partitioned into [run] and
    the queue [wq]; [σ] records the slots of the running ones. *)
Record good (objs : gmap string Request) (reqs run : list string) (wq : IdQueue) (σ : gmap string Z) : Prop := {
  g_nodup : NoDup reqs;
  g_perm : run ++ q_ids wq ≡ₚ reqs;
  g_obj rid : rid ∈ reqs → ∃ r, objs !! rid = Some r ∧ plain rid r;
  g_run rid r : rid ∈ run → objs !! rid = Some r → status r = RUNNING ∧ ∃ c, σ !! rid = Some c ∧ num_computed_tokens r ≤ c;
  g_wait rid r : rid ∈ q_ids wq → objs !! rid = Some r → (status r = WAITING ∨ status r = PREEMPTED) ∧ num_computed_tokens r = 0;
  g_slots rid : is_Some (σ !! rid) → rid ∈ run;
  g_queue : queue_wf objs wq;
}.

Section good.
Context {objs : gmap string Request} {reqs run : list string} {wq : IdQueue} {σ : gmap string Z} (Hg : good objs reqs run wq σ).

Lemma good_split : NoDup run ∧ NoDup (q_ids wq) ∧ (∀ rid, rid ∈ run → rid ∉ q_ids wq).
Proof. pose proof (g_nodup _ _ _ _ _ Hg) as H. rewrite <-(g_perm _ _ _ _ _ Hg) in H. apply NoDup_app in H. naive_solver. Qed.

Lemma good_in rid : rid ∈ reqs ↔ rid ∈ run ∨ rid ∈ q_ids wq.
Proof. by rewrite <-(g_perm _ _ _ _ _ Hg), elem_of_app. Qed.

Lemma good_running rid :
  rid ∈ run → ∃ r c, objs !! rid = Some r ∧ plain rid r ∧ status r = RUNNING ∧ σ !! rid = Some c ∧ num_computed_tokens r ≤ c.
Proof.
  intros Hr. destruct (g_obj _ _ _ _ _ Hg rid) as (r & Hobj & Hp); [apply good_in; by left|].
  destruct (g_run _ _ _ _ _ Hg rid r Hr Hobj) as (Hs & c & Hc & Hle). eauto 10.
Qed.

Lemma good_waiting rid :
  rid ∈ q_ids wq → ∃ r, objs !! rid = Some r ∧ plain rid r ∧ (status r = WAITING ∨ status r = PREEMPTED) ∧
    num_computed_tokens r = 0 ∧ σ !! rid = None.
Proof.
  intros Hw. destruct (g_obj _ _ _ _ _ Hg rid) as (r & Hobj & Hp); [apply good_in; by right|].
  destruct (g_wait _ _ _ _ _ Hg rid r Hw Hobj) as [Hs Hn]. exists r. split_and!; auto.
  apply eq_None_not_Some. intros Hc%(g_slots _ _ _ _ _ Hg). destruct good_split as (_ & _ & Hd). by apply (Hd rid).
Qed.

(** An update of one object. *)
Lemma good_upd rid r r' :
  objs !! rid = Some r → order_key r' = order_key r → plain rid r' → status r' = status r →
  num_computed_tokens r' = num_computed_tokens r → good (<[rid := r']> objs) reqs run wq σ.
Proof.
  intros Hr Hk Hp Hs Hn. pose proof Hg as [H1 H2 H3 H4 H5 H6 H7]. split; auto.
  - intros i Hi. destruct (decide (i = rid)) as [->|Hne]; [rewrite lookup_insert_eq; by exists r'|].
    rewrite lookup_insert_ne by done. by apply H3.
  - intros i x Hi. destruct (decide (i = rid)) as [->|Hne]; [rewrite lookup_insert_eq|rewrite lookup_insert_ne by done; by apply H4].
    intros [= <-]. rewrite Hs, Hn. by apply H4.
  - intros i x Hi. destruct (decide (i = rid)) as [->|Hne]; [rewrite lookup_insert_eq|rewrite lookup_insert_ne by done; by apply (H5 i)].
    intros [= <-]. rewrite Hs, Hn. by apply (H5 rid).
  - by eapply queue_wf_upd.
Qed.

(** New slots for a running request. *)
Lemma good_slots rid r c : rid ∈ run → objs !! rid = Some r → num_computed_tokens r ≤ c → good objs reqs run wq (<[rid := c]> σ).
Proof.
  intros Hr Hobj Hc. pose proof Hg as [H1 H2 H3 H4 H5 H6 H7]. split; auto.
  - intros i x Hi Hx. destruct (H4 i x Hi Hx) as (Hs & c' & ? & ?). split; [done|]. destruct (decide (i = rid)) as [->|Hne].
    + rewrite lookup_insert_eq. exists c. split; [done|]. congruence.
    + rewrite lookup_insert_ne by done. by exists c'.
  - intros i. destruct (decide (i = rid)) as [->|Hne]; [done|]. rewrite lookup_insert_ne by done. apply H6.
Qed.

(** A running request computes more of the tokens it has slots for. *)
Lemma good_advance rid r r' c :
  rid ∈ run → objs !! rid = Some r → order_key r' = order_key r → plain rid r' → status r' = RUNNING → σ !! rid = Some c →
  num_computed_tokens r' ≤ c → good (<[rid := r']> objs) reqs run wq σ.
Proof.
  intros Hrun Hr Hk Hp Hs Hc Hn. pose proof Hg as [H1 H2 H3 H4 H5 H6 H7]. destruct good_split as (_ & _ & Hd). split; auto.
  - intros i Hi. destruct (decide (i = rid)) as [->|Hne]; [rewrite lookup_insert_eq; by exists r'|].
    rewrite lookup_insert_ne by done. by apply H3.
  - intros i x Hi. destruct (decide (i = rid)) as [->|Hne]; [rewrite lookup_insert_eq|rewrite lookup_insert_ne by done; by apply H4].
    intros [= <-]. eauto.
  - intros i x Hi. rewrite lookup_insert_ne; [by apply (H5 i)|]. intros <-. by apply (Hd rid).
  - by eapply queue_wf_upd.
Qed.

(** A running request goes back to the queue. *)
Lemma good_preempt run' wq' v r r' :
  run ≡ₚ v :: run' → objs !! v = Some r → order_key r' = order_key r → plain v r' → status r' = PREEMPTED → num_computed_tokens r' = 0 →
  queue_wf (<[v := r']> objs) wq' → q_ids wq' ≡ₚ v :: q_ids wq → good (<[v := r']> objs) reqs run' wq' (delete v σ).
Proof.
  intros Hrun Hv Hk Hp Hs Hn Hq Hids. pose proof Hg as [H1 H2 H3 H4 H5 H6 H7]. destruct good_split as (Hnd & _ & Hd).
  assert (v ∉ run' ∧ ∀ i, i ∈ run' → i ∈ run ∧ i ≠ v) as [Hv' Hr'].
  { rewrite Hrun in Hnd. apply NoDup_cons in Hnd as [? _]. split; [done|]. intros i Hi. rewrite Hrun. split; [by right|]. by intros ->. }
  split; auto.
  - rewrite Hids, <-H2, Hrun. by rewrite <-Permutation_middle.
  - intros i Hi. destruct (decide (i = v)) as [->|Hne]; [rewrite lookup_insert_eq; by exists r'|].
    rewrite lookup_insert_ne by done. by apply H3.
  - intros i x [Hi Hne]%Hr'. rewrite lookup_insert_ne, lookup_delete_ne by done. by apply H4.
  - intros i x Hi. rewrite Hids in Hi. destruct (decide (i = v)) as [->|Hne].
    + rewrite lookup_insert_eq. intros [= <-]. auto.
    + rewrite lookup_insert_ne by done. apply H5. by apply elem_of_cons in Hi as [?|?].
  - intros i. destruct (decide (i = v)) as [->|Hne]; [rewrite lookup_delete_eq; by intros []|]. rewrite lookup_delete_ne by done.
    intros Hi%H6. rewrite Hrun in Hi. by apply elem_of_cons in Hi as [?|?].
Qed.

(** A waiting request starts to run. *)
Lemma good_admit wq' rid r r' c :
  q_ids wq ≡ₚ rid :: q_ids wq' → objs !! rid = Some r → order_key r' = order_key r → plain rid r' → status r' = RUNNING →
  num_computed_tokens r' ≤ c → queue_wf (<[rid := r']> objs) wq' →
  good (<[rid := r']> objs) reqs (run ++ [rid]) wq' (<[rid := c]> σ).
Proof.
  intros Hids Hr Hk Hp Hs Hn Hq. pose proof Hg as [H1 H2 H3 H4 H5 H6 H7]. destruct good_split as (_ & Hnd & Hd).
  assert (rid ∉ run) as Hnr by (intros Hr'; apply (Hd rid Hr'); rewrite Hids; by left).
  assert (∀ i, i ∈ q_ids wq' → i ∈ q_ids wq ∧ i ≠ rid) as Hw.
  { intros i Hi. rewrite Hids in Hnd |- *. apply NoDup_cons in Hnd as [Hx _]. split; [by right|]. by intros ->. }
  split; auto.
  - rewrite <-H2, Hids, <-app_assoc. done.
  - intros i Hi. destruct (decide (i = rid)) as [->|Hne]; [rewrite lookup_insert_eq; by exists r'|].
    rewrite lookup_insert_ne by done. by apply H3.
  - intros i x Hi. destruct (decide (i = rid)) as [->|Hne].
    + rewrite !lookup_insert_eq. intros [= <-]. split; [done|]. by exists c.
    + rewrite !lookup_insert_ne by done. apply H4. apply elem_of_app in Hi as [?|?%list_elem_of_singleton]; done.
  - intros i x [Hi Hne]%Hw. rewrite lookup_insert_ne by done. by apply H5.
  - intros i. rewrite elem_of_app, list_elem_of_singleton. destruct (decide (i = rid)) as [->|Hne]; [by right|].
    rewrite lookup_insert_ne by done. intros ?%H6. by left.
Qed.

(** A new request is queued. *)
Lemma good_enqueue wq' rid r :
  rid ∉ reqs → plain rid r → status r = WAITING → num_computed_tokens r = 0 → queue_wf (<[rid := r]> objs) wq' →
  q_ids wq' ≡ₚ rid :: q_ids wq → good (<[rid := r]> objs) (reqs ++ [rid]) run wq' σ.
Proof.
  intros Hnew Hp Hs Hn Hq Hids. pose proof Hg as [H1 H2 H3 H4 H5 H6 H7].
  assert (∀ i, i ∈ reqs → i ≠ rid) as Hne by by intros i Hi ->. split; auto.
  - apply NoDup_app. split_and!; [done| |apply NoDup_singleton]. intros i Hi ->%list_elem_of_singleton. done.
  - rewrite Hids, <-H2. by rewrite <-Permutation_middle, (Permutation_app_comm _ [rid]).
  - intros i Hi. destruct (decide (i = rid)) as [->|Hx]; [rewrite lookup_insert_eq; by exists r|].
    rewrite lookup_insert_ne by done. apply H3. by apply elem_of_app in Hi as [?|?%list_elem_of_singleton].
  - intros i x Hi. rewrite lookup_insert_ne; [by apply H4|]. apply not_eq_sym, Hne. rewrite <-H2. by apply elem_of_app; left.
  - intros i x Hi. destruct (decide (i = rid)) as [->|Hx].
    + rewrite lookup_insert_eq. intros [= <-]. auto.
    + rewrite lookup_insert_ne by done. apply H5. rewrite Hids in Hi. by apply elem_of_cons in Hi as [?|?].
Qed.

(** A request leaves the scheduler. *)
Lemma good_remove objs' reqs' run' wait' v :
  v ∈ reqs → (∀ i, i ≠ v → objs' !! i = objs !! i) → reqs ≡ₚ v :: reqs' →
  NoDup run' → (∀ i, i ∈ run' ↔ i ≠ v ∧ i ∈ run) → NoDup wait' → (∀ i, i ∈ wait' ↔ i ≠ v ∧ i ∈ q_ids wq) →
  good objs' reqs' run' (IdFCFS wait') (delete v σ).
Proof.
  intros Hv Hobj Hreq Hnr Hrun Hnw Hwait. pose proof Hg as [H1 H2 H3 H4 H5 H6 H7]. destruct good_split as (_ & _ & Hd).
  assert (NoDup reqs' ∧ ∀ i, i ∈ reqs' ↔ i ≠ v ∧ i ∈ reqs) as [Hn' Hin].
  { rewrite Hreq in H1. apply NoDup_cons in H1 as [Hnv ?]. split; [done|]. intros i. rewrite Hreq, elem_of_cons. split; [|tauto].
    intros Hi. split; [by intros ->|by right]. }
  assert (∀ i, i ∈ reqs' → ∃ r, objs' !! i = Some r ∧ plain i r) as Ho.
  { intros i [Hne Hi]%Hin. rewrite Hobj by done. by apply H3. }
  assert (run' ++ wait' ≡ₚ reqs') as Hp.
  { apply NoDup_Permutation; [|done|].
    - apply NoDup_app. split_and!; auto. intros i [_ Hr]%Hrun [_ Hw]%Hwait. by apply (Hd i).
    - intros i. rewrite elem_of_app, Hrun, Hwait, Hin, good_in. tauto. }
  split; auto.
  - intros i x [Hne Hi]%Hrun. rewrite Hobj, lookup_delete_ne by done. by apply H4.
  - intros i x [Hne Hi]%Hwait. rewrite Hobj by done. by apply (H5 i).
  - intros i. destruct (decide (i = v)) as [->|Hne]; [rewrite lookup_delete_eq; by intros []|]. rewrite lookup_delete_ne by done.
    intros Hi%H6. by apply Hrun.
  - split; [|done]. apply Forall_forall. intros i Hi. destruct (Ho i) as (r & Hr & Hpl).
    { rewrite <-Hp. apply elem_of_app. by right. }
    exists r. split; [done|apply Hpl].
Qed.

(** The objects of finished requests do not matter. *)
Lemma good_irrelevant v r : v ∉ reqs → good (<[v := r]> objs) reqs run wq σ.
Proof.
  intros Hv. assert (∀ i, i ∈ reqs → <[v := r]> objs !! i = objs !! i) as Ho by (intros i Hi; rewrite lookup_insert_ne; [done|by intros ->]).
  pose proof Hg as [H1 H2 H3 H4 H5 H6 H7]. split; auto.
  - intros i Hi. rewrite Ho by done. auto.
  - intros i x Hi. rewrite Ho by (apply good_in; by left). by apply H4.
  - intros i x Hi. rewrite Ho by (apply good_in; by right). by apply (H5 i).
  - apply (queue_wf_objs objs); [done|]. intros i x Hi Hx. exists x. rewrite Ho by (apply good_in; by right). done.
Qed.

(** The same requests in another representation. *)
Lemma good_perm reqs' run' wq' :
  reqs ≡ₚ reqs' → run ≡ₚ run' → q_ids wq ≡ₚ q_ids wq' → queue_wf objs wq' → good objs reqs' run' wq' σ.
Proof.
  intros E1 E2 E3 Hq. pose proof Hg as [H1 H2 H3 H4 H5 H6 H7]. split; auto.
  - by rewrite <-E1.
  - by rewrite <-E1, <-E2, <-E3.
  - intros i. rewrite <-E1. auto.
  - intros i x. rewrite <-E2. auto.
  - intros i x. rewrite <-E3. apply H5.
  - intros i. rewrite <-E2. auto.
Qed.

End good.

End requests.
