(* ===== verification/SchedulerSafety.v ===== *)
(** * schedule() never fails and keeps the invariant

    The loops of [schedule] on a scheduler for text requests, proved against
    the interface [KVService]: every assertion holds, the preemption loop and
    both request loops end within their fuel, the token budget is respected,
    and every scheduled token has a KV-cache slot. *)

From S2P Require Import Prelude FreeQueue RequestModel BlockHash KVCacheMetrics BlockPool KVCacheManager KVService.
From S2P Require Import SchedUtils EncoderCache RequestQueue SchedulerState Scheduler SchedulerInv.

(** ** Dicts in insertion order *)

Lemma sdict_set_new {V} k (v : V) d : k ∉ d.*1 → sdict_set k v d = d ++ [(k, v)].
Proof.
  induction d as [|[k' v'] d IH]; cbn; [done|]. intros [Hne Hd]%not_elem_of_cons. by rewrite decide_False, IH by congruence.
Qed.

Lemma sdict_pop_in {V} k (d : list (string * V)) : k ∈ d.*1 → ∃ v d', sdict_pop k d = Some (v, d') ∧ d ≡ₚ (k, v) :: d'.
Proof.
  induction d as [|[k' v'] d IH]; cbn; [by intros ?%elem_of_nil|]. intros Hk. destruct (decide (k' = k)) as [->|Hne]; [by exists v', d|].
  apply elem_of_cons in Hk as [->|Hk]; [done|]. destruct (IH Hk) as (v & d' & -> & Hp). exists v, ((k', v') :: d'). split; [done|].
  rewrite Hp. apply Permutation_swap.
Qed.

Lemma sum_values_app d d' : sum_values (d ++ d') = sum_values d + sum_values d'.
Proof. induction d as [|kv d IH]; [done|]. cbn. unfold sum_values in *. lia. Qed.

#[global] Instance sum_values_proper : Proper ((≡ₚ) ==> (=)) sum_values.
Proof. intros d d' Hp. induction Hp; cbn; unfold sum_values in *; lia. Qed.

Lemma remove_first_perm {A} `{EqDecision A} (x : A) l : x ∈ l → l ≡ₚ x :: remove_first x l.
Proof.
  induction l as [|y l IH]; [by intros ?%elem_of_nil|]. intros [->|Hx]%elem_of_cons; cbn; [by rewrite decide_True|].
  destruct (decide (y = x)) as [->|Hne]; [done|]. rewrite (IH Hx) at 1. apply Permutation_swap.
Qed.

Lemma remove_first_last {A} `{EqDecision A} (x : A) l : x ∉ l → remove_first x (l ++ [x]) = l.
Proof.
  induction l as [|y l IH]; cbn; [by rewrite decide_True|]. intros [Hne Hx]%not_elem_of_cons. by rewrite decide_False, IH.
Qed.

Lemma take_mono {A} (l : list A) m n x : (m ≤ n)%nat → x ∈ take m l → x ∈ take n l.
Proof. intros H Hx. rewrite <-(take_drop m l), take_app. apply elem_of_app. left. rewrite take_take, Nat.min_r by done. done. Qed.

(** Removing [v] from a list keeps the other elements within reach, and one
    position earlier when [v] was in front. *)
Lemma remove_first_take {A} `{EqDecision A} (v x : A) l : ∀ m,
  x ≠ v → x ∈ take m l → x ∈ take m (remove_first v l) ∧ (v ∈ take m l → x ∈ take (m - 1) (remove_first v l)).
Proof.
  induction l as [|y l IH]; intros [|m] Hne Hx; cbn in *; try by apply elem_of_nil in Hx.
  rewrite Nat.sub_0_r. destruct (decide (y = v)) as [->|Hy].
  - apply elem_of_cons in Hx as [?|Hx]; [done|]. split; [|done]. apply (take_mono _ m); [lia|done].
  - cbn [take]. rewrite !elem_of_cons in *. split.
    + destruct Hx as [->|Hx]; [by left|]. right. by apply IH.
    + intros [->|Hv]; [done|]. destruct m as [|m]; [by apply elem_of_nil in Hv|]. cbn [take]. apply elem_of_cons.
      destruct Hx as [->|Hx]; [by left|]. right. destruct (IH (S m) Hne Hx) as [_ H2]. specialize (H2 Hv). by rewrite Nat.sub_succ, Nat.sub_0_r in H2.
Qed.

(** A result that is only passed on. *)
Lemma wp_bind_last {S A B C} (m : M S A) (f : A → M S unit) (g : A → B) (k : B → M S C) Q s :
  wp (let! a := m in f a ;;; ret (g a)) (λ b s', wp (k b) Q s') s → wp (let! a := m in f a ;;; k (g a)) Q s.
Proof. unfold wp, bind. destruct (m s) as [[a|e] s1]; [|done]. by destruct (f a s1) as [[[]|e] s2]. Qed.

(** ** Access to the state *)

Section access.
Context {E : Type}.
Implicit Type s : Sched E.

Lemma wp_get_req rid r (Q : Request → Sched E → Prop) s : s_objs s !! rid = Some r → Q r s → wp (get_req rid) Q s.
Proof. unfold wp, get_req. by intros ->. Qed.

Lemma wp_upd_req rid f r (Q : unit → Sched E → Prop) s :
  s_objs s !! rid = Some r → Q tt (set_objs (<[rid := f r]> (s_objs s)) s) → wp (upd_req rid f) Q s.
Proof.
  intros Hr HQ. apply wp_modify. replace (alter f rid (s_objs s)) with (<[rid := f r]> (s_objs s)); [done|].
  apply map_eq. intros i. destruct (decide (i = rid)) as [->|Hne].
  - by rewrite lookup_insert_eq, lookup_alter_eq, Hr.
  - by rewrite lookup_insert_ne, lookup_alter_ne.
Qed.

Lemma wp_on_kv {A} (m : M KVCacheManager A) (Q : A → Sched E → Prop) s :
  wp m (λ a k, Q a (set_kv k s)) (kv_cache_manager s) → wp (on_kv m) Q s.
Proof. apply wp_zoom. Qed.

(** The encoder cache holds nothing for a text request. *)
Lemma wp_enc_free r (Q : unit → Sched E → Prop) s : mm_features r = [] → (∀ e, Q tt (set_encoder e s)) → wp (enc_free r) Q s.
Proof.
  intros Hm HQ. unfold wp, enc_free, on_encoder. destruct (encoder_cache_manager s) as [e|e].
  - unfold encoder_free, get_cached_input_ids, bind, gets. rewrite Hm. cbn. apply HQ.
  - unfold ed_free. rewrite Hm. cbn. apply HQ.
Qed.

Lemma wp_enc_freed (Q : list string → Sched E → Prop) s : (∀ l e, Q l (set_encoder e s)) → wp enc_get_freed_mm_hashes Q s.
Proof. intros HQ. unfold wp, enc_get_freed_mm_hashes, on_encoder. destruct (encoder_cache_manager s); cbn; apply HQ. Qed.

Lemma wp_prepend_to w rid r (Q : unit → Sched E → Prop) s :
  s_objs s !! rid = Some r →
  Q tt (set_queue_of w (store_queue (prepend_request (load_queue (s_objs s) (queue_of w s)) r)) s) → wp (prepend_to w rid) Q s.
Proof. intros Hr HQ. apply wp_bind. by eapply wp_get_req. Qed.

Lemma wp_add_to w rid r (Q : unit → Sched E → Prop) s :
  s_objs s !! rid = Some r →
  Q tt (set_queue_of w (store_queue (RequestQueue.add_request (load_queue (s_objs s) (queue_of w s)) r)) s) → wp (add_to w rid) Q s.
Proof. intros Hr HQ. apply wp_bind. by eapply wp_get_req. Qed.

Lemma wp_peek_from w q rid (Q : string → Sched E → Prop) s :
  queue_of w s = q → queue_wf (s_objs s) q → head (q_ids q) = Some rid → Q rid s → wp (peek_from w) Q s.
Proof.
  intros <- Hq Hh HQ. destruct (queue_loaded _ _ Hq) as [Hids _]. unfold wp, peek_from.
  set (Qc := load_queue _ _) in *. assert (∃ r, peek_request Qc = Ok r ∧ request_id r = rid) as (r & -> & ->); [|done].
  rewrite <-Hids in Hh. destruct Qc as [[|r l]|[|r l]]; cbn in Hh |- *; try done; injection Hh as <-; by exists r.
Qed.

Lemma wp_pop_from w q rid (Q : string → Sched E → Prop) s :
  queue_of w s = q → queue_wf (s_objs s) q → head (q_ids q) = Some rid →
  (∀ q', queue_wf (s_objs s) q' → q_ids q ≡ₚ rid :: q_ids q' → Q rid (set_queue_of w q' s)) → wp (pop_from w) Q s.
Proof.
  intros <- Hq Hh HQ. pose proof (queue_pop _ _ Hq) as Hp. destruct (queue_loaded _ _ Hq) as [Hids _]. unfold wp, pop_from.
  destruct (pop_request _) as [[r|e] q']; [|by rewrite Hp in Hh].
  destruct Hp as (Hwf & Hperm & Hpk). assert (request_id r = rid) as Eid; [|rewrite Eid in *; by apply HQ].
  rewrite <-Hids in Hh. destruct (load_queue _ _) as [[|x l]|[|x l]]; cbn in Hh, Hpk; try done; congruence.
Qed.

End access.

(** ** A scheduler for text requests *)

(** No connector, no adapters, no Mamba layers, the synchronous scheduler; and
    what the structured-output manager does for requests without a grammar. *)
Class PlainConfig {E} (cfg : SchedulerConfig) (plug : Plugins E) (bs : Z) : Prop := {
  pc_bs : 0 < bs;
  pc_hasher : block_hasher cfg = Some bs;
  pc_connector : connector_on plug = false;
  pc_mamba : need_mamba_block_aligned_split cfg = false;
  pc_loras : max_loras cfg = None;
  pc_sync : async_scheduler cfg = false;
  pc_routed : return_routed_experts cfg = None;
  pc_look : 0 ≤ num_lookahead_tokens cfg;
  pc_budget : 0 ≤ max_num_scheduled_tokens cfg;
  pc_grammar r e : use_structured_output r = false → should_advance plug r e = false;
}.

Section schedule.
Context {E : Type} (cfg : SchedulerConfig) (plug : Plugins E) (bs : Z) {cap : Z}.
Context (Slots : gmap string Z → KVCacheManager → Prop) (Hit : KVCacheManager → string → KVCacheBlocks → Z → Prop).
Context `{HS : !KVService (sched_max_model_len cfg) bs cap Slots Hit} `{HC : !PlainConfig cfg plug bs}.
Context `{HF : !CollisionFree (h_hash cfg) (h_none cfg)}.
Implicit Type s : Sched E.

(** The blocks suffice for one request of the maximal length. *)
Definition room : Prop := cdiv (sched_max_model_len cfg) bs ≤ cap.

(** The invariant with the slots made explicit. *)
Record inv_at (σ : gmap string Z) (s : Sched E) : Prop := {
  ia_good : good cfg bs (s_objs s) (requests s) (running s) (waiting s) σ;
  ia_kv : Slots σ (kv_cache_manager s);
  ia_skipped : q_ids (skipped_waiting s) = [];
  ia_len : len (running s) ≤ max_num_running_reqs cfg;
}.

(** What [_make_cached_request_data] asserts of resumed requests: they were not
    scheduled in the previous step. *)
Definition not_in_prev (s : Sched E) : Prop := ∀ rid r,
  rid ∈ q_ids (waiting s) → s_objs s !! rid = Some r → status r = PREEMPTED → rid ∉ prev_step_scheduled_req_ids s.

Definition sched_inv (s : Sched E) : Prop := (∃ σ, inv_at σ s) ∧ not_in_prev s.

(** What a step never touches. *)
Definition flags (s : Sched E) : PauseState * Z := (pause_state s, num_waiting_for_streaming_input s).

(** [_preempt_request], for a victim taken out of [running]. *)
Lemma preempt_request_wp σ s v r run :
  inv_at σ s → running s ≡ₚ v :: run → len run ≤ max_num_running_reqs cfg → s_objs s !! v = Some r →
  wp (preempt_request v) (λ _ s', inv_at (delete v σ) s' ∧ running s' = run ∧ requests s' = requests s ∧
    prev_step_scheduled_req_ids s' = prev_step_scheduled_req_ids s ∧ flags s' = flags s ∧
    (∀ i, i ≠ v → s_objs s' !! i = s_objs s !! i)) (set_running run s).
Proof.
  intros [Hg Hk Hskip Hlen] Hrun Hl Hr. assert (v ∈ running s) as Hv by (rewrite Hrun; by left).
  destruct (good_running _ _ Hg v Hv) as (r0 & c & Hr0 & Hp & Hst & Hc & Hle). rewrite Hr in Hr0. injection Hr0 as <-.
  unfold preempt_request. wp_step. apply (wp_get_req _ r); [done|]. rewrite Hst.
  wp_step. apply wp_assert; [done|]. wp_step. apply wp_on_kv.
  eapply wp_mono; [by eapply svc_free|]. intros [] k Hk'. rewrite (pl_id _ _ _ _ Hp) in Hk'.
  wp_step. apply wp_enc_free; [apply (pl_text _ _ _ _ Hp)|]. intros e. wp_step. apply (wp_upd_req _ _ r); [done|].
  set (r' := set_num_preemptions _ _). eapply wp_prepend_to; [cbn; apply lookup_insert_eq|]. cbn.
  assert (plain cfg bs v r') as Hp'.
  { apply (plain_core cfg bs v r); try done; [apply pc_bs|]. cbn. pose proof (len_nonneg (all_token_ids r)). unfold num_tokens. lia. }
  assert (queue_wf (<[v := r']> (s_objs s)) (waiting s)) as Hq by (eapply queue_wf_upd; [apply Hg|done|done]).
  destruct (queue_insert _ _ Hq prepend_request v r') as [Hq' Hids]; [|apply lookup_insert_eq|apply Hp'|].
  { intros Q x HQ. destruct Q; [done|]. by apply (add_inv (PriorityRequestQueue _)). }
  split_and!; try done.
  - split; try done. cbn. eapply good_preempt; eauto.
  - intros i Hi. cbn. by rewrite lookup_insert_ne.
Qed.

(** *** The step *)

(** The bookkeeping of a step: the budget [B] is split into scheduled and
    remaining tokens, and every scheduled token is a token of a running request
    that has a slot. *)
Record step_ok (B : Z) (objs : gmap string Request) (run : list string) (σ : gmap string Z) (t : Step) : Prop := {
  st_budget : 0 ≤ token_budget t ∧ sum_values (num_scheduled_tokens t) + token_budget t = B;
  st_keys : (num_scheduled_tokens t).*1 ≡ₚ scheduled_running_reqs t ++ scheduled_new_reqs t ++ scheduled_resumed_reqs t;
  st_nodup : NoDup (num_scheduled_tokens t).*1;
  st_sched rid n : (rid, n) ∈ num_scheduled_tokens t → 0 < n ∧ rid ∈ run ∧ is_Some (req_to_new_blocks t !! rid) ∧
    ∃ r c, objs !! rid = Some r ∧ σ !! rid = Some c ∧ num_computed_tokens r + n ≤ num_tokens r ∧ num_computed_tokens r + n ≤ c;
  st_plain : scheduled_spec_decode_tokens t = ∅ ∧ scheduled_encoder_inputs t = ∅;
}.

(** Changes elsewhere do not matter. *)
Lemma step_ok_frame B objs run σ t objs' run' σ' :
  step_ok B objs run σ t →
  (∀ rid, rid ∈ (num_scheduled_tokens t).*1 → (rid ∈ run → rid ∈ run') ∧ σ' !! rid = σ !! rid ∧
     ∀ r, objs !! rid = Some r → ∃ r', objs' !! rid = Some r' ∧ num_computed_tokens r' = num_computed_tokens r ∧ num_tokens r' = num_tokens r) →
  step_ok B objs' run' σ' t.
Proof.
  intros [H1 H2 H3 H4 H5] Hf. split; auto. intros rid n Hin. destruct (H4 rid n Hin) as (Hn & Hr & Hb & r & c & Ho & Hc & Hle).
  destruct (Hf rid) as (F1 & F2 & F3); [apply list_elem_of_fmap; by exists (rid, n)|].
  destruct (F3 r Ho) as (r' & Ho' & E1 & E2). split_and!; auto. exists r', c. rewrite F2, E1, E2. done.
Qed.

(** The request at [req_index] is being considered; all requests scheduled so
    far are at or before that position. *)
Record position (idx : Z) (rid : string) (run : list string) (t : Step) : Prop := {
  po_idx : 0 ≤ idx;
  po_rid : rid ∈ take (Z.to_nat (idx + 1)) run;
  po_not : rid ∉ scheduled_running_reqs t;
  po_sched x : x ∈ scheduled_running_reqs t → x ∈ take (Z.to_nat (idx + 1)) run;
  po_fcfs : policy cfg = FCFS → run !! Z.to_nat idx = Some rid;
}.

Lemma unschedule_wp B s run σ t v idx :
  step_ok B (s_objs s) run σ t → scheduled_new_reqs t = [] → scheduled_resumed_reqs t = [] →
  v ∈ scheduled_running_reqs t → is_Some (s_objs s !! v) →
  wp (unschedule v idx t) (λ x s', s' = s ∧ x.1 = idx - 1 ∧ step_ok B (s_objs s) run σ x.2 ∧
    scheduled_new_reqs x.2 = [] ∧ scheduled_resumed_reqs x.2 = [] ∧ preempted_reqs x.2 = preempted_reqs t ∧
    scheduled_running_reqs t ≡ₚ v :: scheduled_running_reqs x.2 ∧ token_budget t ≤ token_budget x.2) s.
Proof.
  intros [H1 H2 H3 H4 [H5 H6]] Hnew Hres Hv [r Hr]. rewrite Hnew, Hres, app_nil_r in H2.
  assert (v ∈ (num_scheduled_tokens t).*1) as Hk by by rewrite H2.
  destruct (sdict_pop_in _ _ Hk) as (n & d' & Hpop & Hperm). unfold unschedule. rewrite Hpop.
  destruct (H4 v n) as (Hn & _ & [b Hb] & _); [rewrite Hperm; by left|]. rewrite Hb.
  wp_step. eapply wp_get_req; [done|]. wp_step. rewrite H6, lookup_empty. cbn.
  pose proof (remove_first_perm v _ Hv) as Hrem. rewrite Hperm in H3. cbn in H3. apply NoDup_cons in H3 as [Hnv H3].
  assert (sum_values (num_scheduled_tokens t) = n + sum_values d') as Hsum by (rewrite Hperm; done).
  split_and!; try done; cbn; [|lia]. split; cbn [token_budget num_scheduled_tokens]; try done.
  - lia.
  - cbn. rewrite Hnew, Hres, app_nil_r. rewrite Hperm, Hrem in H2. cbn in H2. by apply Permutation_cons_inv in H2.
  - intros i m Hin. destruct (H4 i m) as (? & ? & ? & ?); [rewrite Hperm; by right|]. cbn. split_and!; auto.
    rewrite lookup_delete_ne; [done|]. intros <-. apply Hnv, list_elem_of_fmap. by exists (v, m).
  - cbn. by rewrite H5, !delete_empty.
Qed.

Lemma max_request_in rs : ∀ b, max_request b rs ∈ b :: rs.
Proof.
  induction rs as [|r rs IH]; intros b; cbn; [by left|]. specialize (IH (if victim_key_lt b r then r else b)).
  apply elem_of_cons in IH as [->|IH]; [|by do 2 right]. destruct (victim_key_lt b r); [right|]; by left.
Qed.

(** Taking a scheduled or an unscheduled victim [v] out of [running]. *)
Lemma position_removed idx idx' rid run t t' v :
  position idx rid run t → NoDup run → v ∈ run → v ≠ rid → scheduled_running_reqs t' ⊆ scheduled_running_reqs t →
  v ∉ scheduled_running_reqs t' → (policy cfg = FCFS → last run = Some v) →
  idx' = idx ∨ (idx' = idx - 1 ∧ v ∈ scheduled_running_reqs t ∧ policy cfg ≠ FCFS) → position idx' rid (remove_first v run) t'.
Proof.
  intros [H1 H2 H3 H4 H5] Hnd Hv Hne Hsub Hnv Hlast Hidx.
  assert (∀ x, x ≠ v → x ∈ take (Z.to_nat (idx + 1)) run → x ∈ take (Z.to_nat (idx' + 1)) (remove_first v run)) as Hmv.
  { intros x Hx Hin. destruct (remove_first_take v x run _ Hx Hin) as [F1 F2].
    destruct Hidx as [->|(-> & Hs & _)]; [done|]. specialize (F2 (H4 v Hs)).
    by replace (Z.to_nat (idx - 1 + 1)) with (Z.to_nat (idx + 1) - 1)%nat by lia. }
  assert (0 ≤ idx') as H0.
  { destruct Hidx as [->|(-> & Hs & _)]; [done|]. specialize (H4 v Hs). destruct (decide (idx = 0)) as [->|]; [|lia].
    destruct run as [|y run]; [by apply elem_of_nil in Hv|]. change (Z.to_nat (0 + 1)) with 1%nat in *. cbn in *.
    apply list_elem_of_singleton in H2, H4. congruence. }
  split; auto.
  - intros x Hx. apply Hmv; [by intros ->|]. apply H4. by apply Hsub.
  - intros Hp. destruct Hidx as [->|(_ & _ & ?)]; [|done]. specialize (H5 Hp). apply last_Some in Hlast as [l ->]; [|done].
    rewrite remove_first_last by (apply NoDup_app in Hnd as (_ & Hd & _); intros Hl; apply (Hd v Hl); by left).
    apply lookup_app_Some in H5 as [?|[_ Hx]]; [done|]. apply list_lookup_singleton_Some in Hx as [_ ?]. done.
Qed.

Lemma fcfs_victim_unscheduled {A} (l : list A) v x i :
  NoDup (l ++ [v]) → (l ++ [v]) !! i = Some x → v ∈ take (S i) (l ++ [v]) → v = x.
Proof.
  intros Hnd Hx Hv. assert ((l ++ [v]) !! length l = Some v) as Hl by by rewrite list_lookup_middle.
  apply list_elem_of_lookup in Hv as [j Hj]. apply lookup_take_Some in Hj as [Hj Hlt].
  pose proof (NoDup_lookup _ _ _ _ Hnd Hj Hl) as ->. pose proof (lookup_lt_Some _ _ _ Hx) as Hi. rewrite length_app in Hi. cbn in Hi.
  replace i with (length l) in Hx by lia. congruence.
Qed.

(** [v] has left [running], and the step if it was in it. *)
Record victim_post (B : Z) s (σ : gmap string Z) (t : Step) (rid : string) (idx : Z) (v : string) (idx' : Z) (t' : Step) (run' : list string)
    : Prop := {
  vp_run : running s ≡ₚ v :: run';
  vp_step : step_ok B (s_objs s) run' σ t' ∧ scheduled_new_reqs t' = [] ∧ scheduled_resumed_reqs t' = [];
  vp_keys : v ∉ (num_scheduled_tokens t').*1;
  vp_preempted : preempted_reqs t' = preempted_reqs t;
  vp_position : v ≠ rid → position idx' rid run' t';
  vp_measure : len run' - idx' ≤ len (running s) - idx;
  vp_budget : token_budget t ≤ token_budget t';
  vp_fcfs : policy cfg = FCFS → t' = t ∧ idx' = idx ∧ running s = run' ++ [v];
}.

Lemma victim_removed B s σ t rid idx v idx' t' :
  inv_at σ s → position idx rid (running s) t → v ∈ running s →
  step_ok B (s_objs s) (running s) σ t' → scheduled_new_reqs t' = [] → scheduled_resumed_reqs t' = [] →
  scheduled_running_reqs t' ⊆ scheduled_running_reqs t → v ∉ scheduled_running_reqs t' → preempted_reqs t' = preempted_reqs t →
  token_budget t ≤ token_budget t' → (policy cfg = FCFS → last (running s) = Some v) → (policy cfg = FCFS → t' = t) →
  idx' = idx ∨ (idx' = idx - 1 ∧ v ∈ scheduled_running_reqs t ∧ policy cfg ≠ FCFS) →
  victim_post B s σ t rid idx v idx' t' (remove_first v (running s)).
Proof.
  intros [Hg _ _ _] Hpos Hv Hok Hnew Hres Hsub Hnv Hpre Hb Hlast Hsame Hidx. destruct (good_split _ _ Hg) as (Hnd & _).
  pose proof (remove_first_perm v _ Hv) as Hperm. assert (v ∉ (num_scheduled_tokens t').*1) as Hk.
  { rewrite (st_keys _ _ _ _ _ Hok), Hnew, Hres, app_nil_r. done. }
  split; auto.
  - split_and!; auto. eapply step_ok_frame; [done|]. intros i Hi. split_and!; [|done|eauto]. intros Hr.
    rewrite Hperm in Hr. apply elem_of_cons in Hr as [->|?]; done.
  - intros Hne. eapply position_removed; eauto.
  - pose proof (Permutation_length Hperm) as Hl. cbn in Hl. unfold len. destruct Hidx as [->|(-> & _)]; lia.
  - intros Hp. destruct Hidx as [->|(_ & _ & ?)]; [|done]. split_and!; auto. apply last_Some in Hlast as [l Hl]; [|done]. rewrite Hl.
    rewrite remove_first_last; [done|]. rewrite Hl in Hnd. apply NoDup_app in Hnd as (_ & Hd & _). intros Hx. apply (Hd v Hx). by left.
Qed.

Lemma take_victim_wp B s σ t rid idx :
  inv_at σ s → step_ok B (s_objs s) (running s) σ t → scheduled_new_reqs t = [] → scheduled_resumed_reqs t = [] →
  position idx rid (running s) t →
  wp (take_victim cfg idx t) (λ x s', ∃ run', s' = set_running run' s ∧ victim_post B s σ t rid idx x.1.1 x.1.2 x.2 run') s.
Proof.
  intros Hinv Hok Hnew Hres Hpos. pose proof Hinv as [Hg _ _ _]. destruct (good_split _ _ Hg) as (Hnd & _).
  assert (running s ≠ []) as Hne.
  { destruct Hpos as [_ Hr _ _ _]. intros E0. rewrite E0, take_nil in Hr. by apply elem_of_nil in Hr. }
  unfold take_victim. wp_step. wp_step. change (id s) with s. destruct (policy cfg) eqn:Epol.
  - destruct (last (running s)) as [v|] eqn:El; [|by apply last_None in El]. do 3 wp_step. cbn [fst snd].
    pose proof El as (l & Hl)%last_Some. assert (v ∈ running s) as Hv by (rewrite Hl; apply elem_of_app; right; by left).
    assert (v ∉ l) as Hvl by (rewrite Hl in Hnd; apply NoDup_app in Hnd as (_ & Hd & _); intros Hx; apply (Hd v Hx); by left).
    exists (remove_first v (running s)). split.
    { f_equal. rewrite Hl, remove_first_last, length_app by done. cbn. by rewrite Nat.add_sub, take_app_length. }
    apply victim_removed; auto; try lia; try congruence. intros Hs. destruct Hpos as [H1 H2 H3 H4 H5].
    specialize (H4 v Hs). specialize (H5 Epol). rewrite Hl in H4, H5, Hnd. replace (Z.to_nat (idx + 1)) with (S (Z.to_nat idx)) in H4 by lia.
    by rewrite (fcfs_victim_unscheduled _ _ _ _ Hnd H5 H4) in Hs.
  - assert (Forall (named (s_objs s)) (running s)) as Hnamed.
    { apply Forall_forall. intros i Hi. destruct (good_running _ _ Hg i Hi) as (r & c & Ho & Hp & _). exists r. split; [done|apply Hp]. }
    destruct (load_named _ _ Hnamed) as [Hids _]. destruct (omap (λ i, s_objs s !! i) (running s)) as [|r rs]; [by cbn in Hids|].
    set (v := request_id (max_request r rs)).
    assert (v ∈ running s) as Hv by (rewrite <-Hids; apply list_elem_of_fmap; eexists; split; [done|apply max_request_in]).
    wp_step. wp_step. destruct (good_running _ _ Hg v Hv) as (r0 & c & Ho & _). case_bool_decide as Hs; wp_step.
    + eapply wp_mono; [by apply (unschedule_wp B (set_running (remove_first v (running s)) s) (running s) σ t v idx)|].
      intros [idx' t'] s' (-> & Hi & Hok' & Hn' & Hr' & Hp' & Hperm & Hb). cbn [fst snd] in *. wp_step. eexists. split; [done|].
      assert (NoDup (scheduled_running_reqs t)) as Hnds.
      { pose proof (st_nodup _ _ _ _ _ Hok) as Hx. rewrite (st_keys _ _ _ _ _ Hok), Hnew, Hres, app_nil_r in Hx. done. }
      rewrite Hperm in Hnds. apply NoDup_cons in Hnds as [Hnot _].
      apply victim_removed; auto; try congruence; [intros i Hi'; rewrite Hperm; by right|].
      right. split_and!; auto; congruence.
    + eexists. cbn [fst snd]. split; [done|]. apply victim_removed; auto; [lia|congruence].
Qed.

(** What scheduling requests leaves alone. *)
Definition env_same (s s' : Sched E) : Prop :=
  requests s' = requests s ∧ prev_step_scheduled_req_ids s' = prev_step_scheduled_req_ids s ∧ flags s' = flags s.
#[local] Instance env_same_preorder : PreOrder env_same.
Proof. split; [done|]. intros s1 s2 s3 (? & ? & ?) (? & ? & ?). split_and!; congruence. Qed.

(** The requests that still run are where they were; under FCFS only the end of
    [running] was taken away. *)
Definition counts (r : Request) : Z * Z := (num_computed_tokens r, num_tokens r).
Record shrinks (s s' : Sched E) : Prop := {
  sh_sub : running s' ⊆ running s;
  sh_prefix : policy cfg = FCFS → running s' `prefix_of` running s;
  sh_counts i r : i ∈ running s' → s_objs s !! i = Some r → ∃ r', s_objs s' !! i = Some r' ∧ counts r' = counts r;
}.
#[local] Instance shrinks_preorder : PreOrder shrinks.
Proof.
  split; [intros s; split; [done|done|by eauto]|]. intros s1 s2 s3 [A1 A2 A3] [B1 B2 B3]. split; [set_solver| |].
  - intros Hf. etrans; [by apply B2|by apply A2].
  - intros i r Hi Hr. destruct (A3 i r (B1 _ Hi) Hr) as (r2 & Hr2 & E2). destruct (B3 i r2 Hi Hr2) as (r3 & Hr3 & E3).
    exists r3. split; congruence.
Qed.
Definition loop_same (s s' : Sched E) : Prop := env_same s s' ∧ shrinks s s'.
#[local] Instance loop_same_preorder : PreOrder loop_same.
Proof. split; [done|]. intros s1 s2 s3 [? ?] [? ?]. split; by etrans. Qed.

(** The manager and one request object changed, the latter in its memo of
    embedding hashes or its statistics only. *)
Lemma inv_at_upd σ s rid r r' k :
  inv_at σ s → s_objs s !! rid = Some r → core r' = core r → status r' = status r → spec_token_ids r' = spec_token_ids r →
  num_computed_tokens r' = num_computed_tokens r → (is_Some (prefill_stats r') → is_Some (prefill_stats r)) → rid ∈ requests s →
  Slots σ k → inv_at σ (set_objs (<[rid := r']> (s_objs s)) (set_kv k s)).
Proof.
  intros [Hg Hk Hs Hl] Hr Hc Hst Hsp Hn Hps Hin Hk'. split; cbn; auto.
  destruct (g_obj _ _ _ _ _ _ _ Hg rid Hin) as (r0 & Hr0 & Hp). rewrite Hr in Hr0. injection Hr0 as <-.
  eapply good_upd; eauto; [by injection Hc; intros; unfold order_key; congruence|].
  apply (plain_core cfg bs rid r); auto; [apply pc_bs|rewrite Hsp; apply Hp|rewrite Hn; apply Hp].
Qed.

Lemma not_in_prev_upd s rid r r' k :
  not_in_prev s → s_objs s !! rid = Some r → status r' = status r → not_in_prev (set_objs (<[rid := r']> (s_objs s)) (set_kv k s)).
Proof.
  intros Hn Hr Hs i x Hi Hx. cbn in *. destruct (decide (i = rid)) as [->|Hne].
  - rewrite lookup_insert_eq in Hx. injection Hx as <-. rewrite Hs. by eapply Hn.
  - rewrite lookup_insert_ne in Hx by done. by eapply Hn.
Qed.

Lemma step_ok_upd B objs run σ t rid r r' c :
  step_ok B objs run σ t → objs !! rid = Some r → num_computed_tokens r' = num_computed_tokens r → num_tokens r' = num_tokens r →
  rid ∉ (num_scheduled_tokens t).*1 ∨ c = σ !! rid → ∀ σ', (∀ i, i ≠ rid → σ' !! i = σ !! i) → σ' !! rid = c →
  step_ok B (<[rid := r']> objs) run σ' t.
Proof.
  intros Hok Hr Hn Ht Hc σ' Hσ Hσr. eapply step_ok_frame; [done|]. intros i Hi. split_and!; [done| |].
  - destruct (decide (i = rid)) as [->|Hne]; [|auto]. destruct Hc; [done|congruence].
  - intros x Hx. destruct (decide (i = rid)) as [->|Hne]; [rewrite lookup_insert_eq|rewrite lookup_insert_ne by done; eauto].
    exists r'. rewrite Hr in Hx. injection Hx as <-. done.
Qed.

Lemma step_ok_preempted B objs run σ t l : step_ok B objs run σ t → step_ok B objs run σ (set_preempted_reqs l t).
Proof. intros [H1 H2 H3 H4 H5]. by split. Qed.

(** The request [rid] may be scheduled for [n] tokens. *)
Definition has_slots (s : Sched E) (σ : gmap string Z) (rid : string) (n : Z) : Prop := ∃ r c,
  s_objs s !! rid = Some r ∧ σ !! rid = Some c ∧ num_computed_tokens r + n ≤ num_tokens r ∧ num_computed_tokens r + n ≤ c.

(** The state of the running loop. *)
Definition loop_ok (B : Z) (σ : gmap string Z) (s : Sched E) (t : Step) : Prop :=
  inv_at σ s ∧ step_ok B (s_objs s) (running s) σ t ∧ scheduled_new_reqs t = [] ∧ scheduled_resumed_reqs t = [] ∧
  (preempted_reqs t = [] → not_in_prev s).

(** A victim that was not the request itself makes room for another try. *)
Lemma preempt_victim_wp B σ s t rid idx v idx' t' run' :
  inv_at σ s → victim_post B s σ t rid idx v idx' t' run' →
  wp (preempt_request v) (λ _ s', loop_same s s' ∧ loop_ok B (delete v σ) s' (set_preempted_reqs (preempted_reqs t' ++ [v]) t') ∧
    running s' = run' ∧ (∀ i, i ≠ v → s_objs s' !! i = s_objs s !! i)) (set_running run' s).
Proof.
  intros Hinv [H1 (H2 & Hn & Hr) H3 H4 H5 H6 H7 H8]. pose proof Hinv as [Hg _ _ Hl].
  assert (v ∈ running s) as Hv by (rewrite H1; by left). destruct (good_running _ _ Hg v Hv) as (r & c & Ho & _).
  pose proof (Permutation_length H1) as Hlen. cbn in Hlen.
  eapply wp_mono; [eapply (preempt_request_wp σ s v r run'); eauto; unfold len in *; lia|].
  intros [] s' (Hinv' & Hrun & Hreq & Hprev & Hpause & Hobj). split.
  { split; [by split_and!|]. split.
    - rewrite Hrun, H1. intros i Hi. by right.
    - intros Hf. destruct (H8 Hf) as (_ & _ & ->). rewrite Hrun. by exists [v].
    - intros i x Hi Hx. exists x. split; [|done]. rewrite Hobj; [done|]. intros ->. rewrite Hrun in Hi.
      destruct (good_split _ _ Hg) as (Hnd & _). rewrite H1 in Hnd. by apply NoDup_cons in Hnd as [? _]. }
  split_and!; auto. split_and!; auto.
  - apply step_ok_preempted. rewrite Hrun. eapply step_ok_frame; [done|]. intros i Hi. assert (i ≠ v) as Hne by by intros ->.
    split_and!; [done|by rewrite lookup_delete_ne|]. intros x Hx. rewrite Hobj by done. eauto.
  - intros Hnil. cbn in Hnil. by destruct (preempted_reqs t').
Qed.

(** One round of the loop around [allocate_slots]. *)
Lemma try_extend_wp B σ s t rid n idx r :
  loop_ok B σ s t → position idx rid (running s) t → s_objs s !! rid = Some r → 0 < n → num_computed_tokens r + n ≤ num_tokens r →
  wp (let! out := on_kv (allocate_slots (h_sha256 cfg) r n 0 None (num_lookahead_tokens cfg) 0 false 0) in
      put_req rid out.2 ;;; ret out.1) (λ out s', loop_same s s' ∧ running s' = running s ∧ ∃ σ', loop_ok B σ' s' t ∧
        (∃ r', s_objs s' !! rid = Some r' ∧ num_computed_tokens r' = num_computed_tokens r ∧ num_tokens r' = num_tokens r) ∧
        match out with None => room → ∃ i, i ≠ rid ∧ i ∈ running s | Some _ => has_slots s' σ' rid n end) s.
Proof.
  intros (Hinv & Hok & Hnew & Hres & Hprev) Hpos Hr Hn Hle. pose proof Hinv as [Hg Hk _ _].
  assert (rid ∈ running s) as Hin by (eapply take_sub, Hpos).
  destruct (good_running _ _ Hg rid Hin) as (r0 & c & Hr0 & Hp & Hst & Hc & Hnc). rewrite Hr in Hr0. injection Hr0 as <-.
  assert (rid ∈ requests s) as Hreq by (apply (good_in _ _ Hg); by left).
  pose proof (pl_computed _ _ _ _ Hp) as Hcomp. pose proof (pl_tokens _ _ _ _ Hp) as (_ & _ & Hml).
  pose proof (pl_id _ _ _ _ Hp) as Hid. pose proof (pc_look (plug := plug) (cfg := cfg) (bs := bs)) as Hlook.
  assert (rid ∉ (num_scheduled_tokens t).*1) as Hnk.
  { rewrite (st_keys _ _ _ _ _ Hok), Hnew, Hres, app_nil_r. apply Hpos. }
  wp_step. apply wp_on_kv. eapply wp_mono.
  { eapply (svc_extend (h_sha256 cfg) σ _ r c n (num_lookahead_tokens cfg)); eauto; rewrite ?Hid; auto; try lia.
    by apply (plain_hashable cfg bs rid); [apply pc_bs|]. }
  rewrite Hid. intros [out r'] k' [[e He] Hout]. cbn [fst snd] in *. subst r'. wp_step. apply (wp_upd_req _ _ r); [done|]. wp_step.
  set (r' := set_prompt_embeds_per_block_hashes e r). split.
  { split; [done|]. split; [done|done|]. intros i x Hi Hx. cbn. destruct (decide (i = rid)) as [->|Hne].
    - rewrite lookup_insert_eq. exists r'. split; [done|]. rewrite Hr in Hx. by injection Hx as <-.
    - rewrite lookup_insert_ne by done. by exists x. }
  split; [done|].
  assert (∀ σ', (∀ i, i ≠ rid → σ' !! i = σ !! i) → Slots σ' k' → good cfg bs (s_objs s) (requests s) (running s) (waiting s) σ' →
    loop_ok B σ' (set_objs (<[rid := r']> (s_objs s)) (set_kv k' s)) t) as Hloop.
  { intros σ' Hσ Hk' Hg'. split_and!; auto.
    - apply (inv_at_upd σ' (set_kv k' s) rid r r' k'); auto. destruct Hinv as [? ? ? ?]. by split.
    - cbn. by apply (step_ok_upd B _ _ σ t rid r r' (σ' !! rid)); auto.
    - intros Hnil. apply (not_in_prev_upd s rid r r' k'); auto. }
  destruct out as [b|].
  - eexists. split; [apply Hloop; [by intros i ?; apply lookup_insert_ne|exact Hout|]|].
    { eapply good_slots; eauto. lia. }
    split; [exists r'; cbn; by rewrite lookup_insert_eq|]. exists r', (Z.min (num_computed_tokens r + n + num_lookahead_tokens cfg) (sched_max_model_len cfg)).
    cbn. rewrite !lookup_insert_eq. split_and!; auto. lia.
  - destruct Hout as [Hk' Hroom]. exists σ. split; [by apply Hloop|]. split; [exists r'; cbn; by rewrite lookup_insert_eq|].
    intros (i & Hi & Hs)%Hroom. exists i. split; [done|]. by apply (g_slots _ _ _ _ _ _ _ Hg).
Qed.

Lemma only_member {A} (l : list A) x i : NoDup l → l !! 0%nat = Some x → last l = Some x → i ∈ l → i = x.
Proof.
  intros Hnd H0 Hl Hi. destruct l as [|y l]; [done|]. injection H0 as ->. destruct l as [|z l]; [by apply list_elem_of_singleton in Hi|].
  rewrite last_cons_cons in Hl. apply last_Some_elem_of in Hl. apply NoDup_cons in Hnd as [? _]. done.
Qed.

Lemma allocate_or_preempt_wp B n rid fuel : ∀ σ s t idx r,
  loop_ok B σ s t → position idx rid (running s) t → s_objs s !! rid = Some r → 0 < n → num_computed_tokens r + n ≤ num_tokens r →
  n ≤ token_budget t → (length (running s) < fuel)%nat →
  wp (allocate_or_preempt cfg fuel rid n idx t) (λ x s', loop_same s s' ∧ ∃ σ', loop_ok B σ' s' x.2 ∧
    len (running s') - x.1.2 ≤ len (running s) - idx ∧ (policy cfg = FCFS → num_scheduled_tokens x.2 = num_scheduled_tokens t) ∧
    match x.1.1 with
    | None => room → policy cfg = FCFS → idx ≠ 0
    | Some _ => position x.1.2 rid (running s') x.2 ∧ n ≤ token_budget x.2 ∧ has_slots s' σ' rid n
    end) s.
Proof.
  induction fuel as [|fuel IH]; intros σ s t idx r Hloop Hpos Hr Hn Hle Hb Hfuel; [lia|]. cbn [allocate_or_preempt].
  wp_step. apply (wp_get_req _ r); [done|].
  apply (wp_bind_last _ (λ out, put_req rid out.2) fst (λ out, match out with Some _ => _ | None => _ end)).
  eapply wp_mono; [by apply (try_extend_wp B σ s t rid n idx r)|].
  intros out s1 (Henv & Hrun & σ1 & Hloop1 & (r1 & Hr1 & Hn1 & Ht1) & Hout). destruct out as [b|].
  { wp_step. cbn [fst snd]. split; [done|]. exists σ1. rewrite Hrun. split_and!; auto. lia. }
  pose proof Hloop1 as (Hinv1 & Hok1 & Hnew1 & Hres1 & _). rewrite <-Hrun in Hpos.
  wp_step. eapply wp_mono; [by apply (take_victim_wp B s1 σ1 t rid idx)|].
  intros [[v idx'] t'] s2 (run' & -> & Hvp). cbn [fst snd] in Hvp. wp_step.
  eapply wp_mono; [by apply (preempt_victim_wp B σ1 s1 t rid idx v idx' t' run')|].
  intros [] s3 (Henv3 & Hloop3 & Hrun3 & Hobj3). pose proof (vp_measure _ _ _ _ _ _ _ _ _ _ Hvp) as Hme.
  pose proof (Permutation_length (vp_run _ _ _ _ _ _ _ _ _ _ Hvp)) as Hlen. cbn in Hlen. pose proof (vp_budget _ _ _ _ _ _ _ _ _ _ Hvp) as Hvb.
  destruct (decide (v = rid)) as [->|Hne].
  { wp_step. cbn [fst snd]. split; [by etrans|]. eexists. split; [exact Hloop3|]. rewrite Hrun3, <-Hrun. split; [done|].
    pose proof (vp_fcfs _ _ _ _ _ _ _ _ _ _ Hvp) as Hf. split; [intros Hfc; destruct (Hf Hfc) as (-> & _); done|].
    intros Hroom Hfc ->. destruct (Hout Hroom) as (i & Hne & Hi). destruct (Hf Hfc) as (_ & _ & Hlast). rewrite <-Hrun in Hi.
    apply Hne. apply (only_member (running s1)); auto; [by apply (good_split _ _ (ia_good _ _ Hinv1))| |by rewrite Hlast, last_snoc].
    exact (po_fcfs _ _ _ _ Hpos Hfc). }
  rewrite Hrun in *. eapply wp_mono; [eapply (IH _ s3 _ idx' r1 Hloop3)|].
  - rewrite Hrun3. destruct (vp_position _ _ _ _ _ _ _ _ _ _ Hvp Hne). by split.
  - rewrite Hobj3 by congruence. done.
  - done.
  - congruence.
  - cbn. lia.
  - rewrite Hrun3. lia.
  - intros [[out' idx''] t''] s4 (Henv4 & σ4 & Hloop4 & Hme4 & Hpost). cbn [fst snd] in *. split; [by do 2 (etrans; [done|])|].
    exists σ4. pose proof (vp_fcfs _ _ _ _ _ _ _ _ _ _ Hvp) as Hf. destruct Hpost as [Hsame Hpost]. split_and!; auto.
    + rewrite Hrun3 in Hme4. lia.
    + intros Hfc. rewrite (Hsame Hfc). by destruct (Hf Hfc) as (-> & _).
    + destruct out' as [b|]; [done|]. intros Hroom Hfc. destruct (Hf Hfc) as (_ & -> & _). by apply Hpost.
Qed.

Lemma text_no_encoder r : mm_features r = [] → has_encoder_inputs r = false.
Proof. unfold has_encoder_inputs, num_encoder_inputs. by intros ->. Qed.

Lemma text_encoder_run r nc n budget shift s :
  mm_features r = [] → try_schedule_encoder_inputs cfg plug r nc n budget shift s = (Ok (MkEncoderPlan [] n budget [] ∅ 0), s).
Proof. intros Hm. unfold try_schedule_encoder_inputs. rewrite text_no_encoder by done. by rewrite orb_true_r. Qed.

Lemma commit_running_wp B σ s t rid n idx blocks plan :
  loop_ok B σ s t → position idx rid (running s) t → 0 < n ≤ token_budget t → has_slots s σ rid n →
  ep_to_schedule plan = [] → ep_external plan = [] →
  wp (commit_running plug rid n blocks plan t) (λ t' s', s' = s ∧ loop_ok B σ s t' ∧
    (∀ x, x ∈ scheduled_running_reqs t' → x ∈ take (Z.to_nat (idx + 1)) (running s)) ∧
    (num_scheduled_tokens t').*1 = (num_scheduled_tokens t).*1 ++ [rid]) s.
Proof.
  intros (Hinv & Hok & Hnew & Hres & Hprev) [P1 P2 P3 P4 P5] Hn (r & c & Hr & Hc & Hs1 & Hs2) Hp1 Hp2. pose proof Hinv as [Hg _ _ _].
  assert (rid ∈ running s) as Hin by by eapply take_sub.
  destruct (good_running _ _ Hg rid Hin) as (r0 & c0 & Hr0 & Hp & _). rewrite Hr in Hr0. injection Hr0 as <-.
  destruct Hok as [H1 H2 H3 H4 H5]. rewrite Hnew, Hres, app_nil_r in H2.
  assert (rid ∉ (num_scheduled_tokens t).*1) as Hnk by by rewrite H2.
  unfold commit_running. wp_step. unfold schedule_spec_tokens. wp_step. apply (wp_get_req _ r); [done|].
  rewrite (proj1 (proj2 (proj2 (pl_mode _ _ _ _ Hp)))). wp_step. rewrite Hp1, Hp2. cbn [for_each allocate_encoder_inputs].
  do 4 wp_step. split; [done|]. rewrite sdict_set_new by done.
  split; [split_and!; auto|split; [|cbn; by rewrite fmap_app]].
  - split; cbn; auto.
    + rewrite sum_values_app. cbn. lia.
    + rewrite Hnew, Hres, app_nil_r, fmap_app, H2. done.
    + rewrite fmap_app. apply NoDup_app. split_and!; [done| |apply NoDup_singleton]. intros x Hx ->%list_elem_of_singleton. done.
    + intros i m [Hi|Hi]%elem_of_app.
      * destruct (H4 i m Hi) as (? & ? & ? & ?). split_and!; auto. rewrite lookup_insert_ne; [done|].
        intros ->. apply Hnk, list_elem_of_fmap. by exists (i, m).
      * apply list_elem_of_singleton in Hi as [= -> ->]. rewrite lookup_insert_eq. split_and!; [lia|done|done|]. by exists r, c.
  - cbn. intros x [Hx|Hx]%elem_of_app; [auto|]. apply list_elem_of_singleton in Hx as ->. done.
Qed.

(** The head of [running] has tokens left to compute. *)
Definition ready (s : Sched E) : Prop :=
  ∀ rid r, head (running s) = Some rid → s_objs s !! rid = Some r → num_computed_tokens r < num_tokens r.

(** Under FCFS, what is scheduled stays scheduled, and with room for one
    request the head of [running] is scheduled. *)
Record loop_progress (idx : Z) s (t : Step) (s' : Sched E) (t' : Step) : Prop := {
  lp_keeps : policy cfg = FCFS → (num_scheduled_tokens t).*1 ⊆ (num_scheduled_tokens t').*1;
  lp_idle : running s = [] → s' = s ∧ t' = t;
  lp_first h : room → policy cfg = FCFS → idx = 0 → 0 < token_budget t → ready s → head (running s) = Some h →
    h ∈ (num_scheduled_tokens t').*1;
}.

Lemma running_loop_wp B fuel : ∀ σ s t idx,
  loop_ok B σ s t → 0 ≤ idx → (∀ x, x ∈ scheduled_running_reqs t → x ∈ take (Z.to_nat idx) (running s)) →
  Z.max 0 (len (running s) - idx) < Z.of_nat fuel →
  wp (running_loop cfg plug fuel idx t) (λ t' s', loop_same s s' ∧ (∃ σ', loop_ok B σ' s' t') ∧ loop_progress idx s t s' t') s.
Proof.
  induction fuel as [|fuel IH]; intros σ s t idx Hloop Hidx Hsub Hfuel; [lia|]. cbn [running_loop].
  wp_step. wp_step. change (id s) with s. destruct ((idx <? len (running s)) && (0 <? token_budget t)) eqn:Econd; cbn [negb].
  2:{ wp_step. split; [done|]. split; [by exists σ|]. split; [done|done|]. intros h _ _ -> Hb Hrdy Hh. exfalso. apply andb_false_iff in Econd as [?%Z.ltb_ge|?%Z.ltb_ge]; [|lia].
      destruct (running s); [done|]. rewrite len_cons in *. pose proof (len_nonneg l). lia. }
  apply andb_true_iff in Econd as [Hlt%Z.ltb_lt Hbud%Z.ltb_lt].
  destruct (lookup_lt_is_Some_2 (running s) (Z.to_nat idx)) as [rid Hrid]; [unfold len in Hlt; lia|].
  pose proof Hloop as (Hinv & Hok & Hnew & Hres & Hprev). pose proof Hinv as [Hg _ _ _]. destruct (good_split _ _ Hg) as (Hnd & _).
  assert (rid ∈ running s) as Hin by by eapply list_elem_of_lookup_2.
  destruct (good_running _ _ Hg rid Hin) as (r & c & Hr & Hp & _). pose proof (pl_mode _ _ _ _ Hp) as (_ & _ & Hspec & Hpl).
  pose proof (pl_computed _ _ _ _ Hp) as Hcomp. pose proof (pl_tokens _ _ _ _ Hp) as (_ & _ & Hml).
  wp_step. eapply wp_py_index; [rewrite py_get_nonneg by done; exact Hrid|]. wp_step. apply (wp_get_req _ r); [done|].
  unfold max_tokens_in_flight. rewrite Hpl. cbn [andb Z.ltb Z.compare].
  wp_step. unfold wp at 1. rewrite text_encoder_run by apply Hp. cbn [ep_num_new_tokens]. rewrite pc_mamba. wp_step. wp_step.
  set (n := running_new_tokens cfg r (token_budget t)).
  assert (0 ≤ n ≤ token_budget t ∧ num_computed_tokens r + n ≤ num_tokens r) as [Hn1 Hn2].
  { unfold n, running_new_tokens, num_tokens_with_spec. rewrite Hpl, Hspec. change (len []) with 0. unfold num_tokens in *.
    destruct ((0 <? long_prefill_token_threshold cfg) && _) eqn:Eth; [apply andb_true_iff in Eth as [?%Z.ltb_lt ?%Z.ltb_lt]|]; lia. }
  assert (num_computed_tokens r < num_tokens r → 0 < n) as Hn0'.
  { intros Hlt'. unfold n, running_new_tokens, num_tokens_with_spec. rewrite Hpl, Hspec. change (len []) with 0. unfold num_tokens in *.
    destruct ((0 <? long_prefill_token_threshold cfg) && _) eqn:Eth; [apply andb_true_iff in Eth as [?%Z.ltb_lt ?%Z.ltb_lt]|]; lia. }
  assert (running s = [] → False) as Hnotnil by (intros Hnil; rewrite Hnil in Hin; by apply elem_of_nil in Hin).
  destruct (Z.eqb_spec n 0) as [Hn0|Hn0].
  { eapply wp_mono; [apply IH with (σ := σ); auto; [lia| |lia]; intros x Hx; eapply take_mono; [|by apply Hsub]; lia|].
    intros t' s' (Henv & Hex & [Q1 _ _]). split; [done|]. split; [done|]. split; [exact Q1| |].
    - done.
    - intros h _ _ -> Hb Hrdy _. exfalso. specialize (Hrdy rid r). rewrite head_lookup in Hrdy. specialize (Hrdy Hrid Hr). apply Hn0' in Hrdy. lia. }
  assert (position idx rid (running s) t) as Hpos.
  { assert (rid ∉ take (Z.to_nat idx) (running s)) as Hnt.
    { intros Hx. apply list_elem_of_lookup in Hx as [j Hj]. apply lookup_take_Some in Hj as [Hj Hjl].
      pose proof (NoDup_lookup _ _ _ _ Hnd Hj Hrid). lia. }
    split; auto.
    - replace (Z.to_nat (idx + 1)) with (S (Z.to_nat idx)) by lia. rewrite (take_S_r _ _ _ Hrid). apply elem_of_app. right. by left.
    - intros x Hx. eapply take_mono; [|by apply Hsub]. lia. }
  wp_step. eapply wp_mono; [eapply (allocate_or_preempt_wp B n rid _ σ s t idx r); eauto; lia|].
  intros [[out idx'] t'] s1 (Henv & σ1 & Hloop1 & Hme & Hsame & Hout). cbn [fst snd] in *. destruct out as [blocks|].
  2:{ wp_step. split; [done|]. split; [by exists σ1|]. split; [intros Hf; by rewrite (Hsame Hf)|done|]. intros h Hroom Hf H0. by destruct (Hout Hroom Hf H0). }
  destruct Hout as (Hpos1 & Hb1 & Hslots). wp_step.
  eapply wp_mono; [eapply (commit_running_wp B σ1 s1 t' rid n idx'); eauto; lia|].
  intros t'' s2 (-> & Hloop2 & Hsub2 & Hadd). pose proof (po_idx _ _ _ _ Hpos1).
  eapply wp_mono; [apply (IH σ1 s1 t'' (idx' + 1)); auto; lia|].
  intros t3 s3 (Henv3 & Hex & [Q1 _ _]). split; [by etrans|]. split; [done|]. split; [|done|].
  - intros Hf. rewrite <-(Hsame Hf). etrans; [|by apply Q1]. rewrite Hadd. set_solver.
  - intros h _ Hf -> _ _ Hh. apply (Q1 Hf). rewrite Hadd. rewrite head_lookup in Hh. change (Z.to_nat 0) with 0%nat in Hrid. rewrite Hrid in Hh. injection Hh as ->. apply elem_of_app. right. by left.

Qed.

(** *** Waiting requests *)

(** A request object before and after it has been considered. *)
Definition considered (r r' : Request) : Prop :=
  core r' = core r ∧ status r' = status r ∧ spec_token_ids r' = spec_token_ids r ∧
  num_computed_tokens r' = num_computed_tokens r ∧ (is_Some (prefill_stats r') → is_Some (prefill_stats r)).
#[local] Instance considered_preorder : PreOrder considered.
Proof.
  split; [by intros r; split_and!|]. intros r1 r2 r3 (? & ? & ? & ? & ?) (? & ? & ? & ? & ?). split_and!; try congruence. auto.
Qed.

(** The object [rid] and the KV-cache manager are all that changed. *)
Definition only (rid : string) (r' : Request) (k' : KVCacheManager) (s s' : Sched E) : Prop :=
  s' = set_objs (<[rid := r']> (s_objs s)) (set_kv k' s).

Lemma only_trans rid r1 r2 k1 k2 s s1 s2 : only rid r1 k1 s s1 → only rid r2 k2 s1 s2 → only rid r2 k2 s s2.
Proof. unfold only. intros -> ->. cbn. by rewrite insert_insert_eq. Qed.

Lemma only_kv rid r k s : s_objs s !! rid = Some r → only rid r k s (set_kv k s).
Proof. intros Hr. unfold only. rewrite insert_id by done. by destruct s. Qed.

Section waiting.
Context (σ : gmap string Z) (s : Sched E) (rid : string) (r : Request).
Context (Hinv : inv_at σ s) (Hw : rid ∈ q_ids (waiting s)) (Hr : s_objs s !! rid = Some r).

Lemma waiting_facts :
  plain cfg bs rid r ∧ (status r = WAITING ∨ status r = PREEMPTED) ∧ num_computed_tokens r = 0 ∧ σ !! rid = None ∧
  rid ∈ requests s ∧ rid ∉ running s.
Proof.
  pose proof Hinv as [Hg _ _ _]. destruct (good_waiting _ _ Hg rid Hw) as (r0 & Hr0 & H1 & H2 & H3 & H4).
  rewrite Hr in Hr0. injection Hr0 as <-. split_and!; auto.
  - apply (good_in _ _ Hg). by right.
  - intros Hrun. destruct (good_split _ _ Hg) as (_ & _ & Hd). by apply (Hd rid).
Qed.

Lemma get_cached_tokens_wp :
  wp (get_cached_tokens plug rid) (λ x s', ∃ r' k' c, only rid r' k' s s' ∧ considered r r' ∧ Slots σ k' ∧ x = Some c ∧
    Hit k' rid (cp_blocks c) (cp_num_local c) ∧ cp_num_external c = 0 ∧ cp_load_kv_async c = false ∧
    cp_num_computed c = cp_num_local c ∧ 0 ≤ cp_num_local c < num_tokens r) s.
Proof.
  destruct waiting_facts as (Hp & Hst & Hnc & Hσ & _). pose proof (pl_tokens _ _ _ _ Hp) as (Htk & Hpt & Hml).
  pose proof (pl_id _ _ _ _ Hp) as Hid. pose proof (len_nonneg (output_token_ids r)) as Ho.
  unfold get_cached_tokens. wp_step. apply (wp_get_req _ r); [done|]. rewrite Hnc. cbn [Z.eqb]. wp_step. apply wp_on_kv.
  eapply wp_mono; [eapply (svc_lookup σ _ r); eauto; [apply Hinv|by apply (plain_hashable cfg bs rid); [apply pc_bs|]|by rewrite Hid|]|].
  { unfold num_output_tokens in Htk. lia. }
  rewrite Hid. intros [b n] k' (Hn & Hk' & Hhit). cbn [fst snd] in *. rewrite pc_connector. cbv iota. wp_step. wp_step. cbn [fst snd]. wp_step.
  rewrite Z.add_0_r. apply wp_assert; [apply Z.leb_le; lia|]. pose proof (only_kv rid r k' s Hr) as Honly. wp_step.
  destruct (prefill_stats r) as [ps|] eqn:Eps.
  - pose proof (pl_stats _ _ _ _ Hp ltac:(by rewrite Eps)) as H0. assert (n ≤ num_prompt_tokens r) as Hle by lia.
    wp_step. apply wp_assert; [apply Z.leb_le; lia|]. unfold prefill_stats_set. rewrite Z.add_0_r, (proj2 (Z.leb_le _ _) Hle).
    apply (wp_upd_req _ _ r); [done|]. wp_step. do 3 eexists. split; [done|]. split_and!; try done; cbn; lia.
  - do 2 wp_step. exists r, k'. eexists. split; [done|]. split_and!; try done; cbn; lia.
Qed.

Lemma waiting_new_tokens_wp c t s0 :
  s_objs s0 !! rid = Some r → cp_load_kv_async c = false → cp_num_computed c < num_tokens r → 0 < token_budget t → mm_features r = [] →
  wp (waiting_new_tokens cfg plug rid c t) (λ x s', s' = s0 ∧ match x with
    | None => enable_chunked_prefill cfg = false
    | Some (n, plan) => 0 < n ≤ token_budget t ∧ cp_num_computed c + n ≤ num_tokens r ∧ ep_to_schedule plan = [] ∧ ep_external plan = []
    end) s0.
Proof.
  intros Hr0 Hload Hlt Hb Hm. unfold waiting_new_tokens. wp_step. apply (wp_get_req _ r); [done|]. rewrite Hload, pc_mamba.
  set (thr := long_prefill_token_threshold cfg). set (n := if (0 <? thr) && (thr <? num_tokens r - cp_num_computed c) then thr else _).
  assert (0 < n ≤ num_tokens r - cp_num_computed c) as Hn.
  { unfold n. destruct ((0 <? thr) && _) eqn:Eth; [apply andb_true_iff in Eth as [?%Z.ltb_lt ?%Z.ltb_lt]|]; lia. }
  cbv zeta. destruct (enable_chunked_prefill cfg) eqn:Ech; cbn [negb andb]; [|destruct (token_budget t <? n); [by wp_steps|]];
    (do 2 wp_step; apply wp_assert; [apply Z.ltb_lt; lia|]; rewrite text_no_encoder by done; do 2 wp_step; cbn; split; [done|]; split_and!; auto; lia).
Qed.

Lemma allocate_waiting_wp c n plan :
  Hit (kv_cache_manager s) rid (cp_blocks c) (cp_num_local c) → cp_num_external c = 0 → cp_load_kv_async c = false →
  0 ≤ cp_num_local c → 0 < n → cp_num_local c + n ≤ num_tokens r →
  wp (allocate_waiting cfg rid c n plan) (λ x s', ∃ r' k', only rid r' k' s s' ∧ considered r r' ∧
    match x with
    | None => Slots σ k' ∧ (room → ∃ i, i ≠ rid ∧ is_Some (σ !! i))
    | Some _ => Slots (<[rid := cp_num_local c + n]> σ) k'
    end) s.
Proof.
  intros Hhit Hext Hload Hloc Hn Hle. destruct waiting_facts as (Hp & Hst & Hnc & Hσ & _). pose proof (pl_tokens _ _ _ _ Hp) as (_ & _ & Hml).
  pose proof (pl_id _ _ _ _ Hp) as Hid. pose proof (text_no_encoder r (proj1 (pl_text _ _ _ _ Hp))) as Hne.
  unfold allocate_waiting. wp_step. apply (wp_get_req _ r); [done|]. rewrite Hnc, Hne, andb_false_r. cbn [Z.eqb]. wp_step. wp_step. cbn [foldr].
  rewrite Hext, Hload. apply wp_bind.
  match goal with |- wp _ ?Q _ => assert (∀ fits, (fits = false → room → ∃ i, i ≠ rid ∧ is_Some (σ !! i)) → Q fits s) as Hrest end.
  2:{ destruct (scheduler_reserve_full_isl cfg); [|wp_step; by apply (Hrest true)]. apply wp_on_kv.
      eapply wp_mono; [eapply svc_fit; [apply Hinv|by rewrite Hid|lia..]|]. rewrite Hid. intros fits k [-> Hfit].
      replace (set_kv (kv_cache_manager s) s) with s by by destruct s. by apply (Hrest fits). }
  intros fits Hfit. destruct fits; cbn [negb].
  2:{ wp_step. wp_step. wp_step. exists r, (kv_cache_manager s). split; [|split; [done|split; [apply Hinv|by apply Hfit]]].
      pose proof (only_kv rid r (kv_cache_manager s) s Hr) as Ho. by replace (set_kv (kv_cache_manager s) s) with s in Ho by by destruct s. }
  wp_step. apply wp_on_kv.
  eapply wp_mono; [eapply (svc_start (h_sha256 cfg) σ _ r (cp_blocks c) (cp_num_local c) n 0); eauto; rewrite ?Hid; auto; try lia; [apply Hinv|]|].
  { by apply (plain_hashable cfg bs rid); [apply pc_bs|]. }
  rewrite Hid. intros [out r'] k' [[e He] Hout]. cbn [fst snd] in *. subst r'. wp_step. apply (wp_upd_req _ _ r); [done|].
  set (r' := set_prompt_embeds_per_block_hashes e r).
  assert (only rid r' k' s (set_objs (<[rid := r']> (s_objs s)) (set_kv k' s)) ∧ considered r r') as [H1 H2] by by split.
  destruct out as [b|]; wp_steps; exists r', k'; split_and!; try done. { by rewrite Z.add_0_r, Z.min_l in Hout by lia. }
  all: apply Hout.
Qed.

End waiting.

Lemma only_inv σ s s' rid r r' k' :
  inv_at σ s → rid ∈ requests s → s_objs s !! rid = Some r → only rid r' k' s s' → considered r r' → Slots σ k' → inv_at σ s'.
Proof. intros Hinv Hin Hr -> (H1 & H2 & H3 & H4 & H5) Hk. by eapply inv_at_upd. Qed.

Lemma consider_waiting_wp σ s rid r loras t :
  inv_at σ s → rid ∈ q_ids (waiting s) → s_objs s !! rid = Some r → 0 < token_budget t →
  wp (consider_waiting cfg plug rid loras t) (λ x s', ∃ r' k', only rid r' k' s s' ∧ considered r r' ∧
    match x with
    | Stop => Slots σ k' ∧ (room → enable_chunked_prefill cfg = true → ∃ i, is_Some (σ !! i))
    | Admit c n plan => Slots (<[rid := cp_num_computed c + n]> σ) k' ∧ 0 ≤ cp_num_computed c ∧ 0 < n ≤ token_budget t ∧
        cp_num_computed c + n ≤ num_tokens r ∧ ep_to_schedule plan = [] ∧ ep_external plan = []
    | Skip | LoadAsync _ => False
    end) s.
Proof.
  intros Hinv Hw Hr Hb. destruct (waiting_facts σ s rid r Hinv Hw Hr) as (Hp & Hst & Hnc & Hσ & Hin & _).
  unfold consider_waiting. wp_step. apply (wp_get_req _ r); [done|].
  replace (is_blocked_waiting_status (status r)) with false by (by destruct Hst as [-> | ->]). wp_step. wp_step. cbn [negb].
  unfold exceeds_max_loras. rewrite pc_loras. wp_step.
  eapply wp_mono; [by apply (get_cached_tokens_wp σ s rid r)|].
  intros x s1 (r1 & k1 & c & Hon1 & Hc1 & Hk1 & -> & Hhit & Hext & Hload & Hcp & Hloc).
  pose proof (only_inv _ _ _ _ _ _ _ Hinv Hin Hr Hon1 Hc1 Hk1) as Hinv1.
  assert (s_objs s1 !! rid = Some r1 ∧ waiting s1 = waiting s ∧ kv_cache_manager s1 = k1) as (Hr1 & Hw1 & Hkv1).
  { rewrite Hon1. cbn. by rewrite lookup_insert_eq. }
  assert (num_tokens r1 = num_tokens r) as Ht1 by (unfold num_tokens; destruct Hc1 as [[= ] _]; congruence).
  assert (mm_features r1 = []) as Hm1 by (destruct Hc1 as [[= ] _]; destruct (pl_text _ _ _ _ Hp); congruence).
  wp_step. eapply wp_mono; [apply (waiting_new_tokens_wp rid r1 c t s1); auto; lia|].
  intros tokens s2 [-> Htok]. destruct tokens as [[n plan]|]; [|wp_step; exists r1, k1; split_and!; auto; congruence].
  destruct Htok as (Hn & Hle & Hp1 & Hp2). rewrite <-Hw1 in Hw. rewrite Hcp in *. wp_step.
  eapply wp_mono; [apply (allocate_waiting_wp σ s1 rid r1 Hinv1 Hw Hr1 c n plan); rewrite ?Hkv1; auto; lia|].
  intros blocks s2 (r2 & k2 & Hon2 & Hc2 & Hk2). pose proof (only_trans _ _ _ _ _ _ _ _ Hon1 Hon2) as Hon. assert (considered r r2) as Hc by by etrans.
  destruct blocks; [|wp_step; exists r2, k2; destruct Hk2 as [Hk2 Hroom]; split_and!; auto; intros (i & _ & Hi)%Hroom _; by exists i]. wp_step. unfold connector_after_alloc. rewrite pc_connector, Hload. do 2 wp_step.
  exists r2, k2. rewrite Hcp. split_and!; auto; lia.
Qed.

Lemma head_in {A} (l : list A) x : head l = Some x → x ∈ l.
Proof. destruct l; cbn; [done|]. intros [= ->]. by left. Qed.

Lemma step_ok_admit B objs run σ t t1 rid r n blocks c :
  step_ok B objs run σ t → rid ∉ (num_scheduled_tokens t).*1 →
  t1 = set_new_reqs (scheduled_new_reqs t ++ [rid]) t ∨ t1 = set_resumed_reqs (scheduled_resumed_reqs t ++ [rid]) t →
  0 < n ≤ token_budget t → num_computed_tokens r + n ≤ num_tokens r → num_computed_tokens r + n ≤ c →
  step_ok B (<[rid := r]> objs) (run ++ [rid]) (<[rid := c]> σ)
    (set_token_budget (token_budget t1 - n) (set_num_scheduled (sdict_set rid n (num_scheduled_tokens t1))
       (set_new_blocks (<[rid := blocks]> (req_to_new_blocks t1)) t1))).
Proof.
  intros Hok Hnk Ht1 Hn Hs1 Hs2. destruct Hok as [H1 H2 H3 H4 H5].
  assert (num_scheduled_tokens t1 = num_scheduled_tokens t ∧ token_budget t1 = token_budget t ∧ req_to_new_blocks t1 = req_to_new_blocks t ∧
    scheduled_spec_decode_tokens t1 = ∅ ∧ scheduled_encoder_inputs t1 = ∅ ∧ scheduled_running_reqs t1 = scheduled_running_reqs t ∧
    scheduled_new_reqs t1 ++ scheduled_resumed_reqs t1 ≡ₚ (scheduled_new_reqs t ++ scheduled_resumed_reqs t) ++ [rid])
    as (E1 & E2 & E3 & E4 & E5 & E6 & E7).
  { destruct H5. destruct Ht1 as [-> | ->]; cbn; split_and!; auto; rewrite <-?app_assoc; [|done].
    by rewrite (Permutation_app_comm [rid]). }
  rewrite E1, E2, E3, sdict_set_new by done. split; cbn; auto.
  - rewrite sum_values_app. cbn. lia.
  - rewrite E6, E7, fmap_app, H2. cbn. by rewrite !app_assoc.
  - rewrite fmap_app. apply NoDup_app. split_and!; [done| |apply NoDup_singleton]. intros x Hx ->%list_elem_of_singleton. done.
  - intros i m [Hi|Hi]%elem_of_app.
    + assert (i ≠ rid) as Hne by (intros ->; apply Hnk, list_elem_of_fmap; by exists (rid, m)).
      destruct (H4 i m Hi) as (? & ? & ? & ?). rewrite !lookup_insert_ne by done. split_and!; auto. apply elem_of_app. by left.
    + apply list_elem_of_singleton in Hi as [= -> ->]. rewrite !lookup_insert_eq. split_and!; [lia|apply elem_of_app; right; by left|done|].
      by exists r, c.
Qed.

(** The admitted request starts to run. *)
Lemma commit_waiting_wp B σ s t rid r r' c n plan loras q q' :
  good cfg bs (s_objs s) (requests s) (running s) q σ → q_ids q ≡ₚ rid :: q_ids q' → queue_wf (s_objs s) q' →
  waiting s = q' → q_ids (skipped_waiting s) = [] → len (running s) < max_num_running_reqs cfg →
  s_objs s !! rid = Some r' → considered r r' → num_tokens r' = num_tokens r →
  Slots (<[rid := cp_num_computed c + n]> σ) (kv_cache_manager s) → 0 ≤ cp_num_computed c → 0 < n ≤ token_budget t →
  cp_num_computed c + n ≤ num_tokens r → ep_to_schedule plan = [] → ep_external plan = [] →
  step_ok B (s_objs s) (running s) σ t →
  wp (commit_waiting cfg plug rid c n plan loras t) (λ x s', env_same s s' ∧ waiting s' = q' ∧
    (∀ i, i ≠ rid → s_objs s' !! i = s_objs s !! i) ∧
    inv_at (<[rid := cp_num_computed c + n]> σ) s' ∧ step_ok B (s_objs s') (running s') (<[rid := cp_num_computed c + n]> σ) x.2 ∧
    (num_scheduled_tokens x.2).*1 = (num_scheduled_tokens t).*1 ++ [rid] ∧ running s' = running s ++ [rid] ∧
    (scheduled_resumed_reqs x.2 = scheduled_resumed_reqs t ∨
     status r' = PREEMPTED ∧ scheduled_resumed_reqs x.2 = scheduled_resumed_reqs t ++ [rid])) s.
Proof.
  intros Hg Hq Hq' Hw Hskip Hlen Hr Hc Ht Hk Hc0 Hn Hle Hp1 Hp2 Hok. set (σ' := <[rid := _]> σ).
  assert (rid ∈ q_ids q) as Hin by (rewrite Hq; by left).
  destruct (good_waiting _ _ Hg rid Hin) as (r0 & Hr0 & Hp & Hst & Hnc & Hσ). rewrite Hr in Hr0. injection Hr0 as <-.
  assert (rid ∉ running s) as Hnr by (intros Hx; destruct (good_split _ _ Hg) as (_ & _ & Hd); by apply (Hd rid)).
  assert (rid ∉ (num_scheduled_tokens t).*1) as Hnk.
  { intros [[i m] [-> Hm]]%list_elem_of_fmap. by destruct (st_sched _ _ _ _ _ Hok i m Hm) as (_ & ? & _). }
  unfold commit_waiting. wp_step. apply (wp_get_req _ r'); [done|]. do 2 wp_step.
  set (t1 := match status r' with WAITING => set_new_reqs (scheduled_new_reqs t ++ [rid]) t | _ => set_resumed_reqs (scheduled_resumed_reqs t ++ [rid]) t end).
  assert ((t1 = set_new_reqs (scheduled_new_reqs t ++ [rid]) t ∨ t1 = set_resumed_reqs (scheduled_resumed_reqs t ++ [rid]) t) ∧
    (scheduled_resumed_reqs t1 = scheduled_resumed_reqs t ∨
     status r' = PREEMPTED ∧ scheduled_resumed_reqs t1 = scheduled_resumed_reqs t ++ [rid])) as [Ht1 Hres].
  { unfold t1. destruct Hst as [-> | ->]; auto. }
  apply wp_bind. apply (wp_mono _ (λ x s', x = t1 ∧ s' = set_running (running s ++ [rid]) s)).
  { unfold t1. by destruct Hst as [-> | ->]. }
  intros ? ? [-> ->]. do 3 wp_step. apply (wp_upd_req _ _ r'); [done|]. rewrite Hp1, Hp2. cbn [for_each allocate_encoder_inputs]. do 4 wp_step.
  cbn [fst snd]. set (r2 := set_num_computed_tokens _ _). set (t2 := set_token_budget _ _).
  assert (plain cfg bs rid r2) as Hp2'.
  { apply (plain_core cfg bs rid r'); try done; [apply pc_bs|apply Hp|]. cbn. lia. }
  split; [done|]. split; [done|]. split; [intros i Hi; cbn; by rewrite lookup_insert_ne|]. split_and!.
  - split; cbn; auto; [|rewrite len_app; change (len [rid]) with 1; lia]. subst q'.
    eapply (good_admit cfg bs Hg (waiting s) rid r' r2); try done; [cbn; lia|]. by eapply queue_wf_upd.
  - apply (step_ok_admit B _ _ σ t t1); auto; cbn; [unfold num_tokens in *; cbn; lia|lia].
  - cbn. replace (num_scheduled_tokens t1) with (num_scheduled_tokens t) by by destruct Ht1 as [-> | ->].
    rewrite sdict_set_new by done. by rewrite fmap_app.
  - done.
  - done.
Qed.

(** The state of the waiting loop. *)
Definition wloop_ok (B : Z) (σ : gmap string Z) (s : Sched E) (t : Step) : Prop :=
  inv_at σ s ∧ step_ok B (s_objs s) (running s) σ t ∧ not_in_prev s ∧
  ∀ rid, rid ∈ scheduled_resumed_reqs t → rid ∉ prev_step_scheduled_req_ids s.

Lemma select_waiting_run s :
  q_ids (skipped_waiting s) = [] → q_ids (waiting s) ≠ [] → select_waiting_queue_for_scheduling cfg s = (Ok (Some Waiting), s).
Proof.
  intros Hs Hw. unfold select_waiting_queue_for_scheduling, q_nonempty, bind, gets. change (id s) with s. rewrite Hs.
  rewrite (bool_decide_eq_true_2 ([] = [])) by done. rewrite (bool_decide_eq_false_2 _ Hw). by destruct (policy cfg).
Qed.

(** What is scheduled stays scheduled; when nothing runs, the first waiting
    request is scheduled if there is room for it. *)
Record grows (s s' : Sched E) (t t' : Step) : Prop := {
  gr_running : ∃ l, running s' = running s ++ l;
  gr_counts i r : i ∈ running s → s_objs s !! i = Some r → ∃ r', s_objs s' !! i = Some r' ∧ counts r' = counts r;
  gr_keys : (num_scheduled_tokens t).*1 ⊆ (num_scheduled_tokens t').*1;
  gr_new i : i ∈ running s' → i ∈ running s ∨ i ∈ (num_scheduled_tokens t').*1;
}.
Lemma grows_refl s t : grows s s t t.
Proof. split; [by exists []; rewrite app_nil_r|by eauto|done|by left]. Qed.
Lemma grows_trans s1 s2 s3 t1 t2 t3 : grows s1 s2 t1 t2 → grows s2 s3 t2 t3 → grows s1 s3 t1 t3.
Proof.
  intros [[l A1] A2 A3 A4] [[l' B1] B2 B3 B4]. split; [exists (l ++ l'); by rewrite B1, A1, app_assoc| |set_solver|].
  - intros i r Hi Hr. destruct (A2 i r Hi Hr) as (r2 & Hr2 & E2). destruct (B2 i r2) as (r3 & Hr3 & E3); [|done|exists r3; split; congruence].
    rewrite A1. apply elem_of_app. by left.
  - intros i Hi. destruct (B4 i Hi) as [H2|]; [|by right]. destruct (A4 i H2) as [|H3]; [by left|right; by apply B3].
Qed.
Record wloop_progress s (t t' : Step) : Prop := {
  wp_first : room → enable_chunked_prefill cfg = true → 0 < token_budget t → 0 < max_num_running_reqs cfg → running s = [] →
    q_ids (waiting s) ≠ [] → num_scheduled_tokens t' ≠ [];
}.

(** Considering a request leaves a step it is not part of alone. *)
Lemma only_step B σ s s' t rid r r' k :
  step_ok B (s_objs s) (running s) σ t → s_objs s !! rid = Some r → only rid r' k s s' → considered r r' → rid ∉ running s →
  step_ok B (s_objs s') (running s') σ t.
Proof.
  intros Hok Hr -> (Hc & _ & _ & Hn & _) Hnr. cbn. apply (step_ok_upd B _ _ σ t rid r r' (σ !! rid)); auto.
  unfold num_tokens. injection Hc; congruence.
Qed.

Lemma grows_considered s s' t rid r r' k :
  only rid r' k s s' → considered r r' → s_objs s !! rid = Some r → grows s s' t t.
Proof.
  intros -> (Hc & _ & _ & Hn & _) Hr. split; cbn; [by exists []; rewrite app_nil_r| |done|by left]. intros i x Hi Hx.
  destruct (decide (i = rid)) as [->|Hne]; [|rewrite lookup_insert_ne by done; by exists x]. rewrite lookup_insert_eq. exists r'. split; [done|].
  rewrite Hr in Hx. injection Hx as <-. unfold counts, num_tokens. injection Hc as ?. congruence.
Qed.

Lemma waiting_loop_wp B q fuel : ∀ σ s t loras,
  wloop_ok B σ s t → (length (q_ids (waiting s)) < fuel)%nat →
  wp (waiting_loop cfg plug fuel q loras t) (λ x s', env_same s s' ∧ x.1 = q ∧ (∃ σ', wloop_ok B σ' s' x.2) ∧
    grows s s' t x.2 ∧ wloop_progress s t x.2) s.
Proof.
  induction fuel as [|fuel IH]; intros σ s t loras Hloop Hfuel; [lia|]. pose proof Hloop as (Hinv & Hok & Hprev & Hres).
  pose proof Hinv as [Hg Hk Hskip Hlen]. assert (q_nonempty (skipped_waiting s) = false) as Hsk by (unfold q_nonempty; by rewrite Hskip).
  cbn [waiting_loop]. wp_step. wp_step. change (id s) with s. rewrite Hsk, orb_false_r.
  assert ((0 < token_budget t → 0 < max_num_running_reqs cfg → running s = [] → q_ids (waiting s) = []) →
    wp (ret (q, t)) (λ x s', env_same s s' ∧ x.1 = q ∧ (∃ σ', wloop_ok B σ' s' x.2) ∧ grows s s' t x.2 ∧ wloop_progress s t x.2) s) as Hstop.
  { intros Hw. wp_step. split_and!; [done..|by exists σ|apply grows_refl|]. split. intros _ _ Hb Hmax Hnil Hne. by destruct (Hne (Hw Hb Hmax Hnil)). }
  destruct (q_nonempty (waiting s) && (0 <? token_budget t)) eqn:Econd; cbn [negb].
  2:{ apply Hstop. intros Hb _ _. apply andb_false_iff in Econd as [Hx%negb_false_iff|?%Z.ltb_ge]; [|lia]. by apply bool_decide_eq_true in Hx. }
  apply andb_true_iff in Econd as [Hne%negb_true_iff Hb%Z.ltb_lt]. apply bool_decide_eq_false in Hne.
  destruct (Z.eqb_spec (len (running s)) (max_num_running_reqs cfg)) as [Heq|Hmax].
  { apply Hstop. intros _ Hmax Hnil. rewrite Hnil in Heq. change (len []) with 0 in Heq. lia. }
  eapply wp_bind_ok; [by apply select_waiting_run|].
  destruct (head (q_ids (waiting s))) as [rid|] eqn:Eh; [|by destruct (q_ids (waiting s))]. pose proof (head_in _ _ Eh) as Hw.
  destruct (good_waiting _ _ Hg rid Hw) as (r & Hr & Hp & Hst & Hnc & Hσ).
  destruct (waiting_facts σ s rid r Hinv Hw Hr) as (_ & _ & _ & _ & Hin & Hnr).
  wp_step. eapply (wp_peek_from Waiting (waiting s)); [done|apply Hg|done|]. wp_step.
  eapply wp_mono; [by apply (consider_waiting_wp σ s rid r loras t)|].
  intros out s1 (r1 & k1 & Hon & Hc & Hout).
  assert (s_objs s1 = <[rid := r1]> (s_objs s) ∧ waiting s1 = waiting s ∧ running s1 = running s ∧ requests s1 = requests s ∧
    skipped_waiting s1 = skipped_waiting s ∧ kv_cache_manager s1 = k1 ∧ env_same s s1 ∧ not_in_prev s1) as (A1 & A2 & A3 & A4 & A5 & A6 & A7 & A8).
  { rewrite Hon. split_and!; try done. apply (not_in_prev_upd s rid r r1 k1); auto. apply Hc. }
  pose proof (only_step B σ s s1 t rid r r1 k1 Hok Hr Hon Hc Hnr) as Hok1. destruct A7 as (_ & A9 & A10).
  destruct out as [| | |c n plan]; try done.
  { destruct Hout as [Hk1 Hroom]. wp_step. cbn [fst snd]. split_and!; try done.
    - exists σ. split_and!; auto; [by eapply only_inv|by rewrite A9].
    - by apply (grows_considered s s1 t rid r r1 k1).
    - split. intros Hrm Hch _ _ Hnil _. destruct (Hroom Hrm Hch) as [i Hi]. apply (g_slots _ _ _ _ _ _ _ Hg) in Hi.
      rewrite Hnil in Hi. by apply elem_of_nil in Hi. }
  destruct Hout as (Hk1 & Hc0 & Hn & Hle & Hp1 & Hp2).
  assert (good cfg bs (s_objs s1) (requests s1) (running s1) (waiting s1) σ) as Hg1.
  { assert (inv_at σ (set_objs (<[rid := r1]> (s_objs s)) (set_kv (kv_cache_manager s) s))) as Hx by by eapply only_inv.
    rewrite A1, A2, A3, A4. apply Hx. }
  assert (s_objs s1 !! rid = Some r1) as Hr1 by (rewrite A1; apply lookup_insert_eq).
  wp_step. eapply (wp_pop_from Waiting (waiting s1)); [done|apply Hg1|by rewrite A2|]. intros q' Hq' Hperm. wp_step.
  assert (num_tokens r1 = num_tokens r) as Ht1 by (unfold num_tokens; destruct Hc as [[= ] _]; congruence).
  pose proof (Permutation_length Hperm) as Hpl. cbn in Hpl.
  eapply wp_mono; [apply (commit_waiting_wp B σ (set_queue_of Waiting q' s1) t rid r r1 c n plan loras (waiting s1) q'); auto; cbn|].
  - by rewrite A5.
  - rewrite A3. lia.
  - by rewrite A6.
  - intros [loras' t'] s2 (B1 & B2 & B3 & B4 & B5 & B7 & B8 & B6). cbn [fst snd] in *. destruct B1 as (B11 & B12 & B13). cbn in B11, B12. change (flags (set_queue_of Waiting q' s1)) with (flags s1) in B13.
    eapply wp_mono; [eapply (IH _ s2 t' loras')|].
    + split; [exact B4|]. split; [exact B5|]. split.
      * intros i x Hi Hx Hs. rewrite B12. rewrite B2 in Hi. assert (i ≠ rid) as Hne'.
        { intros ->. destruct (good_split _ _ Hg1) as (_ & Hnd & _). rewrite Hperm in Hnd. by apply NoDup_cons in Hnd as [? _]. }
        rewrite (B3 i Hne') in Hx. apply (A8 i x); auto. rewrite Hperm. by right.
      * rewrite B12, A9. destruct B6 as [->|[Hs ->]]; [done|]. intros i [Hi|Hi]%elem_of_app; [by apply Hres|].
        apply list_elem_of_singleton in Hi as ->. rewrite <-A9. apply (A8 rid r1); auto. by rewrite A2.
    + rewrite B2. rewrite A2 in Hpl. lia.
    + intros x s3 ((C1 & C2 & C3) & C4 & C5 & C6 & _). split; [split_and!; congruence|]. split; [exact C4|]. split; [exact C5|].
      assert (grows s s3 t x.2) as Hgrow.
      { eapply grows_trans; [by apply (grows_considered s s1 t rid r r1 k1)|]. eapply grows_trans; [|exact C6]. split.
        - by exists [rid].
        - intros i y Hi Hy. exists y. split; [|done]. rewrite (B3 i); [done|]. intros ->. rewrite A3 in Hi. done.
        - rewrite B7. set_solver.
        - intros i. rewrite B8, B7. cbn. rewrite !elem_of_app. tauto. }
      split; [done|]. split. intros _ _ _ _ _ _ Hnil. pose proof (gr_keys _ _ _ _ C6) as Hk6. rewrite B7, Hnil in Hk6.
      assert (rid ∈ @nil string) as Hx by (apply Hk6, elem_of_app; right; by left). by apply elem_of_nil in Hx.
Qed.

(** *** The end of the step *)

Definition step_done (B : Z) (σ : gmap string Z) (s : Sched E) (t : Step) : Prop :=
  inv_at σ s ∧ step_ok B (s_objs s) (running s) σ t ∧ ∀ rid, rid ∈ scheduled_resumed_reqs t → rid ∉ prev_step_scheduled_req_ids s.

Lemma schedule_waiting_wp B σ s t :
  loop_ok B σ s t → wp (schedule_waiting cfg plug t) (λ t' s', env_same s s' ∧ (∃ σ', step_done B σ' s' t') ∧
    grows s s' t t' ∧ (preempted_reqs t = [] → pause_state s = UNPAUSED → wloop_progress s t t')) s.
Proof.
  intros (Hinv & Hok & Hnew & Hres & Hprev). unfold schedule_waiting, running_loras. rewrite pc_loras. do 4 wp_step. change (id s) with s.
  case_bool_decide as Hpre; cbn [andb].
  2:{ wp_step. split; [done|]. split; [|by split; [apply grows_refl|]]. exists σ. split_and!; auto. rewrite Hres. by intros ? ?%elem_of_nil. }
  case_bool_decide; [|wp_step; split; [done|]; split; [|by split; [apply grows_refl|]]; exists σ; split_and!; auto; rewrite Hres; by intros ? ?%elem_of_nil].
  wp_step. eapply wp_mono; [apply (waiting_loop_wp B _ _ σ s t)|].
  - split_and!; auto. rewrite Hres. by intros ? ?%elem_of_nil.
  - lia.
  - intros [q t'] s' (Henv & Hq & (σ' & H1 & H2 & _ & H3) & Hgr & Hpr). cbn [fst snd] in *. subst q.
    replace (q_nonempty (empty_queue (policy cfg))) with false by by destruct (policy cfg). do 3 wp_step. split; [done|]. split; [by exists σ'|]. split; [|done]. destruct Hgr. by split.
Qed.

Lemma check_constraints_wp B σ s t :
  step_done B σ s t → B ≤ max_num_scheduled_tokens cfg → wp (check_constraints cfg t) (λ _ s', s' = s) s.
Proof.
  intros (Hinv & Hok & _) HB. destruct Hok as [[H1 H1'] H2 H3 H4 _]. pose proof Hinv as [_ _ _ Hl].
  assert (len (scheduled_new_reqs t) + len (scheduled_resumed_reqs t) + len (scheduled_running_reqs t) ≤ len (running s)) as Hlen.
  { assert ((num_scheduled_tokens t).*1 ⊆+ running s) as Hsub%submseteq_length.
    { apply NoDup_submseteq; [done|]. intros i [[j n] [-> Hn]]%list_elem_of_fmap. by destruct (H4 j n Hn) as (_ & ? & _). }
    rewrite H2, !length_app in Hsub. unfold len. lia. }
  unfold check_constraints. wp_step. wp_step. change (id s) with s. wp_step. apply wp_assert; [apply Z.leb_le; lia|].
  wp_step. apply wp_assert; [apply Z.leb_le; lia|]. wp_step. apply wp_assert; [by apply Z.leb_le|]. apply wp_assert; [by apply Z.leb_le|done].
Qed.

(** Every scheduled request has an object, its blocks and its token count. *)
Lemma step_entry B σ s t rid :
  step_done B σ s t → rid ∈ scheduled_running_reqs t ++ scheduled_new_reqs t ++ scheduled_resumed_reqs t →
  is_Some (s_objs s !! rid) ∧ is_Some (req_to_new_blocks t !! rid) ∧ is_Some (sdict_get rid (num_scheduled_tokens t)).
Proof.
  intros (_ & [H1 H2 H3 H4 _] & _) Hin. rewrite <-H2 in Hin. pose proof (sdict_get_in _ _ Hin) as Hg.
  apply list_elem_of_fmap in Hin as ([i n] & -> & Hn). destruct (H4 i n Hn) as (_ & _ & Hb & r & c & Hr & _). by split_and!; eauto.
Qed.

(** *** The rows of the output *)

(** The data of a new request are those of its object. *)
Definition describes (s : Sched E) (rid : string) (n : NewRequestData) : Prop := ∃ r, s_objs s !! rid = Some r ∧
  nr_req_id n = request_id r ∧ nr_num_computed_tokens n = num_computed_tokens r ∧ nr_prompt_token_ids n = prompt_token_ids r.

(** Row [i] of the cached requests. *)
Definition row_describes (s : Sched E) (d : CachedRequestData) (i : nat) (rid : string) : Prop := ∃ r nb, s_objs s !! rid = Some r ∧
  cr_num_computed_tokens d !! i = Some (num_computed_tokens r) ∧ cr_num_output_tokens d !! i = Some (num_output_tokens r + num_output_placeholders r) ∧
  cr_new_block_ids d !! i = Some nb.

Record rows_ok (s : Sched E) (d : CachedRequestData) : Prop := {
  rw_computed : length (cr_num_computed_tokens d) = length (cr_req_ids d);
  rw_output : length (cr_num_output_tokens d) = length (cr_req_ids d);
  rw_blocks : length (cr_new_block_ids d) = length (cr_req_ids d);
  rw_rows i rid : cr_req_ids d !! i = Some rid → row_describes s d i rid;
}.

Lemma new_request_data_wp s t l :
  (∀ rid, rid ∈ l → is_Some (s_objs s !! rid) ∧ is_Some (req_to_new_blocks t !! rid)) →
  wp (make_new_request_data cfg t l) (λ ns s', s' = s ∧ Forall2 (describes s) l ns) s.
Proof.
  intros Hl. apply (wp_map_m (λ pre ns s', s' = s ∧ Forall2 (describes s) pre ns)); [done|]. intros pre x post ys s0 Heq [-> Hpre].
  destruct (Hl x) as [[r Hr] [b Hb]]; [rewrite Heq; apply elem_of_app; right; by left|].
  wp_step. wp_step. wp_step. apply (wp_get_req _ r); [done|]. rewrite Hb. split; [done|]. apply Forall2_app; [done|]. apply Forall2_cons. split; [by exists r|done].
Qed.

Lemma rows_snoc s d rid r resumed tokens all nb : rows_ok s d → s_objs s !! rid = Some r →
  rows_ok s (MkCachedRequestData (cr_req_ids d ++ [rid]) resumed tokens all (cr_new_block_ids d ++ [nb]) (cr_num_computed_tokens d ++ [num_computed_tokens r])
    (cr_num_output_tokens d ++ [num_output_tokens r + num_output_placeholders r])).
Proof.
  intros [H1 H2 H3 H4] Hr. split; cbn; rewrite ?length_app; cbn; try lia. intros i rid'. rewrite lookup_app_Some. intros [Hi|[Hge Hi]].
  - destruct (H4 i rid' Hi) as (r' & nb' & E1 & E2 & E3 & E4). exists r', nb'. cbn. split_and!; [done|by apply lookup_app_l_Some..].
  - apply list_lookup_singleton_Some in Hi as [Hi <-]. exists r, nb. cbn. split_and!; [done|..]; rewrite lookup_app_r by lia; (replace (i - _)%nat with 0%nat by lia); done.
Qed.

Lemma cached_rows_wp s t resumed l : ∀ d,
  (∀ rid, rid ∈ l → is_Some (s_objs s !! rid) ∧ is_Some (req_to_new_blocks t !! rid) ∧ is_Some (sdict_get rid (num_scheduled_tokens t)) ∧
     (resumed = true → rid ∉ prev_step_scheduled_req_ids s)) → rows_ok s d →
  wp (cached_rows cfg t resumed l d) (λ d' s', s' = s ∧ rows_ok s d' ∧ cr_req_ids d' = cr_req_ids d ++ l) s.
Proof.
  induction l as [|rid l IH]; intros d Hl Hd; cbn [cached_rows]; [wp_step; by rewrite app_nil_r|].
  destruct (Hl rid) as ([r Hr] & [b Hb] & [n Hn] & Hp); [by left|]. wp_step. unfold cached_row. wp_step. wp_step. wp_step.
  apply (wp_get_req _ r); [done|]. change (id s) with s. rewrite Hb, Hn.
  assert (∀ m, rows_ok s m → cr_req_ids m = cr_req_ids d ++ [rid] → wp (cached_rows cfg t resumed l m) (λ d' s', s' = s ∧ rows_ok s d' ∧ cr_req_ids d' = cr_req_ids d ++ rid :: l) s) as Hrest.
  { intros m Hm Hids. eapply wp_mono; [apply IH; [intros i Hi; apply Hl; by right|done]|]. intros d' s' (-> & Hd' & ->). rewrite Hids, <-app_assoc. done. }
  destruct (use_pp cfg && negb (async_scheduling cfg)); (wp_step; apply wp_assert; [|wp_step; apply Hrest; [by apply rows_snoc|done]]);
    destruct resumed; try done; cbn [andb]; rewrite bool_decide_eq_false_2; auto.
Qed.

Lemma inv_at_kv σ s k : inv_at σ s → Slots σ k → inv_at σ (set_kv k s).
Proof. intros [H1 H2 H3 H4] Hk. by split. Qed.

Lemma make_output_wp B σ s t :
  step_done B σ s t →
  wp (make_output cfg t) (λ o s', inv_at σ s' ∧ s_objs s' = s_objs s ∧ running s' = running s ∧ waiting s' = waiting s ∧
    requests s' = requests s ∧ prev_step_scheduled_req_ids s' = list_to_set (num_scheduled_tokens t).*1 ∧
    so_num_scheduled_tokens o = num_scheduled_tokens t ∧ so_total_num_scheduled_tokens o = sum_values (num_scheduled_tokens t) ∧
    so_scheduled_spec_decode_tokens o = ∅ ∧ so_pending_structured_output_tokens o = false ∧ flags s' = flags s ∧
    rows_ok s (so_scheduled_cached_reqs o) ∧
    ∃ l, Forall2 (describes s) l (so_scheduled_new_reqs o) ∧ l ++ cr_req_ids (so_scheduled_cached_reqs o) ≡ₚ (num_scheduled_tokens t).*1) s.
Proof.
  intros Hdone. pose proof Hdone as (Hinv & Hok & Hres). pose proof Hinv as [Hg Hk _ _].
  unfold make_output. wp_step. wp_step. change (id s) with s. wp_step.
  apply (wp_mono _ (λ _ s', ∃ k, s' = set_kv k s ∧ Slots σ k)).
  { destruct (running s) as [|rid run] eqn:Erun; [wp_step; exists (kv_cache_manager s); by destruct s|].
    destruct (good_running _ _ Hg rid) as (r & c & _ & _ & _ & Hc & _); [by left|].
    apply wp_on_kv. eapply wp_mono; [eapply (svc_common σ _ rid); [done|by exists c]|]. intros x k Hk'. by exists k. }
  intros common ? (k & -> & Hk'). set (s1 := set_kv k s).
  assert (step_done B σ s1 t) as Hdone1 by (split_and!; auto; by apply inv_at_kv).
  wp_step. eapply wp_mono; [apply (new_request_data_wp s1 t)|].
  { intros rid Hin. destruct (step_entry B σ s1 t rid Hdone1) as (? & ? & _); [|done]. apply elem_of_app. right.
    destruct (use_v2_model_runner cfg); [done|]. apply elem_of_app. by left. }
  intros new ? [-> Hnew]. wp_step. unfold make_cached_request_data. wp_step.
  eapply wp_mono; [apply (cached_rows_wp s1 t false)|].
  { intros rid Hin. destruct (step_entry B σ s1 t rid Hdone1) as (? & ? & ?); [apply elem_of_app; by left|]. by split_and!. }
  { by split. }
  intros d ? (-> & Hd & Hids). eapply wp_mono; [apply (cached_rows_wp s1 t true); [|exact Hd]|].
  { intros rid Hin. destruct (use_v2_model_runner cfg); [by apply elem_of_nil in Hin|].
    destruct (step_entry B σ s1 t rid Hdone1) as (? & ? & ?); [do 2 (apply elem_of_app; right); done|]. split_and!; auto. }
  intros d' ? (-> & Hd' & Hids'). wp_step. wp_step. wp_step.
  apply (wp_mono _ (λ _ s', ∃ k', s' = set_kv k' (set_prev_step (list_to_set (num_scheduled_tokens t).*1) s1) ∧ Slots σ k')).
  { destruct (needs_kv_cache_zeroing cfg).
    - wp_step. apply wp_on_kv. eapply wp_mono; [by eapply svc_take_ids|]. intros ids k' Hk2. wp_step. by exists k'.
    - wp_step. exists k. by destruct s. }
  intros zero ? (k' & -> & Hk2). wp_step. wp_step. wp_step. apply wp_enc_freed. intros freed e. wp_step.
  split_and!; try done; [destruct Hinv as [H1 H2 H3 H4]; by split|apply Hok|destruct Hd' as [? ? ? ?]; by split|]. eexists. split; [exact Hnew|]. cbn. rewrite Hids', Hids. cbn.
  rewrite (st_keys _ _ _ _ _ Hok). destruct (use_v2_model_runner cfg); [rewrite app_nil_r; apply Permutation_app_comm|].
  rewrite (Permutation_app_comm (scheduled_new_reqs t)), <-app_assoc. apply Permutation_app_head, Permutation_app_comm.
Qed.

(** [_update_after_schedule]: the computed tokens advance over the scheduled
    ones. *)
Definition advanced (s s' : Sched E) (rid : string) (n : Z) : Prop := ∃ r r',
  s_objs s !! rid = Some r ∧ s_objs s' !! rid = Some r' ∧ num_computed_tokens r' = num_computed_tokens r + n ∧ num_tokens r' = num_tokens r ∧
  prompt_token_ids r' = prompt_token_ids r ∧ num_output_tokens r' = num_output_tokens r ∧ request_id r' = request_id r.

Lemma update_after_schedule_wp σ s o :
  inv_at σ s → NoDup (so_num_scheduled_tokens o).*1 →
  (∀ rid n, (rid, n) ∈ so_num_scheduled_tokens o → 0 < n ∧ rid ∈ running s ∧ has_slots s σ rid n) →
  wp (update_after_schedule cfg o) (λ o' s', inv_at σ s' ∧ requests s' = requests s ∧ running s' = running s ∧ waiting s' = waiting s ∧
    prev_step_scheduled_req_ids s' = prev_step_scheduled_req_ids s ∧ so_num_scheduled_tokens o' = so_num_scheduled_tokens o ∧
    so_total_num_scheduled_tokens o' = so_total_num_scheduled_tokens o ∧
    so_scheduled_spec_decode_tokens o' = so_scheduled_spec_decode_tokens o ∧
    so_pending_structured_output_tokens o' = so_pending_structured_output_tokens o ∧
    (∀ rid, rid ∉ (so_num_scheduled_tokens o).*1 → s_objs s' !! rid = s_objs s !! rid) ∧
    (∀ rid n, (rid, n) ∈ so_num_scheduled_tokens o → advanced s s' rid n) ∧ flags s' = flags s ∧
    so_scheduled_new_reqs o' = so_scheduled_new_reqs o ∧ so_scheduled_cached_reqs o' = so_scheduled_cached_reqs o) s.
Proof.
  intros Hinv Hnd Hs. unfold update_after_schedule. rewrite pc_sync. unfold base_update_after_schedule. wp_step.
  set (D := so_num_scheduled_tokens o) in *.
  eapply wp_mono; [apply (wp_map_m (λ pre _ s', inv_at σ s' ∧ requests s' = requests s ∧ running s' = running s ∧ waiting s' = waiting s ∧
    prev_step_scheduled_req_ids s' = prev_step_scheduled_req_ids s ∧
    (∀ rid, rid ∉ pre.*1 → s_objs s' !! rid = s_objs s !! rid) ∧
    (∀ rid n, (rid, n) ∈ pre → advanced s s' rid n) ∧ flags s' = flags s))|].
  - split_and!; auto. by intros ? ? ?%elem_of_nil.
  - intros pre [rid n] post flags s' HD (I1 & I0 & I2 & I3 & I4 & I5 & I6 & I7). cbn [fst snd].
    assert (rid ∉ pre.*1) as Hnp.
    { rewrite HD, fmap_app in Hnd. apply NoDup_app in Hnd as (_ & Hd & _). intros Hx. apply (Hd rid Hx). by left. }
    destruct (Hs rid n) as (Hn & Hrun & r & c & Hr & Hc & Hs1 & Hs2); [rewrite HD; apply elem_of_app; right; by left|].
    assert (s_objs s' !! rid = Some r) as Hr' by by rewrite I5. pose proof I1 as [Hg Hk Hsk Hl].
    destruct (good_running _ _ Hg rid ltac:(by rewrite I2)) as (r0 & c0 & Hr0 & Hp & Hst & Hc0 & _). rewrite Hr' in Hr0. injection Hr0 as <-.
    pose proof (pl_computed _ _ _ _ Hp) as Hcomp.
    wp_step. apply (wp_upd_req _ _ r); [done|]. wp_step. set (r1 := set_is_prefill_chunk _ _).
    apply (wp_get_req _ r1); [cbn; apply lookup_insert_eq|]. wp_step. split_and!; auto.
    + split; cbn; auto. eapply (good_advance cfg bs Hg rid r r1 c); try done; [by rewrite I2|].
      apply (plain_core cfg bs rid r); try done; [apply pc_bs|apply Hp|cbn; lia].
    + intros i. rewrite fmap_app. intros Hi. cbn. rewrite lookup_insert_ne; [apply I5|]; intros ?; subst; apply Hi, elem_of_app; [by left|right; by left].
    + intros i m [Hi|Hi]%elem_of_app.
      * destruct (I6 i m Hi) as (x & x' & Hx & Hx' & Hm). exists x, x'. cbn. rewrite (lookup_insert_ne _ rid i); [done|].
        intros ->. apply Hnp, list_elem_of_fmap. by exists (i, m).
      * apply list_elem_of_singleton in Hi as [= -> ->]. exists r, r1. cbn. rewrite lookup_insert_eq. done.
  - intros flags s' (I1 & I0 & I2 & I3 & I4 & I5 & I6 & I7). wp_step. wp_step. wp_step. split_and!; auto. destruct I1 as [? ? ? ?]. by split.
Qed.

(** *** schedule() *)

(** The rows of the output are the scheduled requests, with their tokens as they were
    before the step. *)
Definition output_rows (o : SchedulerOutput) (s : Sched E) : Prop := let d := so_scheduled_cached_reqs o in
  (nr_req_id <$> so_scheduled_new_reqs o) ++ cr_req_ids d ≡ₚ (so_num_scheduled_tokens o).*1 ∧
  (∀ n, n ∈ so_scheduled_new_reqs o → ∃ k r, (nr_req_id n, k) ∈ so_num_scheduled_tokens o ∧ s_objs s !! nr_req_id n = Some r ∧
     nr_num_computed_tokens n = num_computed_tokens r - k ∧ nr_prompt_token_ids n = prompt_token_ids r) ∧
  (∀ i rid, cr_req_ids d !! i = Some rid → ∃ k r nb, (rid, k) ∈ so_num_scheduled_tokens o ∧ s_objs s !! rid = Some r ∧
     cr_num_computed_tokens d !! i = Some (num_computed_tokens r - k) ∧ cr_num_output_tokens d !! i = Some (num_output_tokens r) ∧ cr_new_block_ids d !! i = Some nb).

Lemma output_rows_ok σ s s' o l : inv_at σ s → (∀ rid n, (rid, n) ∈ so_num_scheduled_tokens o → rid ∈ running s ∧ advanced s s' rid n) →
  rows_ok s (so_scheduled_cached_reqs o) → Forall2 (describes s) l (so_scheduled_new_reqs o) → l ++ cr_req_ids (so_scheduled_cached_reqs o) ≡ₚ (so_num_scheduled_tokens o).*1 →
  output_rows o s'.
Proof.
  intros [Hg _ _ _] Hadv Hrows Hnew Hperm.
  assert (Hin : ∀ rid, rid ∈ l ++ cr_req_ids (so_scheduled_cached_reqs o) → ∃ k r r', (rid, k) ∈ so_num_scheduled_tokens o ∧ s_objs s !! rid = Some r ∧ plain cfg bs rid r ∧
    s_objs s' !! rid = Some r' ∧ num_computed_tokens r' = num_computed_tokens r + k ∧ prompt_token_ids r' = prompt_token_ids r ∧ num_output_tokens r' = num_output_tokens r).
  { intros rid Hrid. rewrite Hperm in Hrid. apply list_elem_of_fmap in Hrid as ([i k] & -> & Hk). destruct (Hadv i k Hk) as (Hrun & r & r' & Hr & Hr' & E1 & _ & E2 & E3 & _).
    destruct (good_running _ _ Hg i Hrun) as (r0 & c & Hr0 & Hp & _). rewrite Hr in Hr0. injection Hr0 as <-. exists k, r, r'. by split_and!. }
  assert (Hids : nr_req_id <$> so_scheduled_new_reqs o = l).
  { clear -Hnew Hin. revert Hin. induction Hnew as [|rid n l ns (r & Hr & En & _) _ IH]; intros Hin; [done|]. cbn. f_equal.
    - destruct (Hin rid) as (k & r0 & r' & _ & Hr0 & Hp & _); [by left|]. rewrite Hr in Hr0. injection Hr0 as <-. rewrite En. apply Hp.
    - apply IH. intros i Hi. apply Hin. by right. }
  unfold output_rows. cbv zeta. rewrite Hids. split_and!; [done| |].
  - intros n [i Hi]%list_elem_of_lookup. destruct (Forall2_lookup_r _ _ _ _ _ Hnew Hi) as (rid & Hl & r & Hr & E1 & E2 & E3).
    assert (En : nr_req_id n = rid) by (apply (f_equal (.!! i)) in Hids; rewrite list_lookup_fmap, Hi, Hl in Hids; by injection Hids).
    destruct (Hin rid) as (k & r0 & r' & Hk & Hr0 & Hp & Hr' & F1 & F2 & F3); [apply elem_of_app; left; by eapply list_elem_of_lookup_2|]. rewrite Hr in Hr0. injection Hr0 as <-.
    exists k, r'. rewrite En. split_and!; [done|done|lia|congruence].
  - intros i rid Hi. destruct (rw_rows _ _ Hrows i rid Hi) as (r & nb & Hr & E1 & E2 & E3).
    destruct (Hin rid) as (k & r0 & r' & Hk & Hr0 & Hp & Hr' & F1 & F2 & F3); [apply elem_of_app; right; by eapply list_elem_of_lookup_2|]. rewrite Hr in Hr0. injection Hr0 as <-.
    destruct (pl_mode _ _ _ _ Hp) as (_ & _ & _ & Hph). exists k, r', nb. split_and!; [done|done|rewrite E1; f_equal; lia|rewrite E2; f_equal; lia|done].
Qed.

(** What the workers may rely on. *)
Record output_ok (o : SchedulerOutput) (B : Z) (s : Sched E) : Prop := {
  ok_total : so_total_num_scheduled_tokens o = sum_values (so_num_scheduled_tokens o) ∧ so_total_num_scheduled_tokens o ≤ B;
  ok_keys : NoDup (so_num_scheduled_tokens o).*1;
  ok_sched rid n : (rid, n) ∈ so_num_scheduled_tokens o → 0 < n ∧ rid ∈ running s ∧
    ∃ r, s_objs s !! rid = Some r ∧ n ≤ num_computed_tokens r ≤ num_tokens r;
  ok_plain : so_scheduled_spec_decode_tokens o = ∅ ∧ so_pending_structured_output_tokens o = false;
  ok_rows : output_rows o s;
}.

Definition step_budget (s : Sched E) : Z := if bool_decide (pause_state s = PAUSED_ALL) then 0 else max_num_scheduled_tokens cfg.

(** A step with work to do does some of it. *)
Definition progresses (s : Sched E) (o : SchedulerOutput) : Prop :=
  room → enable_chunked_prefill cfg = true → pause_state s = UNPAUSED → 0 < max_num_scheduled_tokens cfg → 0 < max_num_running_reqs cfg →
  requests s ≠ [] → policy cfg = FCFS ∨ running s = [] → ready s → 0 < so_total_num_scheduled_tokens o.

Lemma sum_values_pos (d : list (string * Z)) : d ≠ [] → (∀ i n, (i, n) ∈ d → 0 < n) → 0 < sum_values d.
Proof.
  destruct d as [|[i n] d]; [done|]. intros _ Hpos. change (sum_values ((i, n) :: d)) with (n + sum_values d).
  assert (0 < n) by (apply (Hpos i); by left). cut (0 ≤ sum_values d); [lia|]. assert (∀ j m, (j, m) ∈ d → 0 < m) as Hd by (intros; eapply Hpos; by right).
  clear -Hd. induction d as [|[j m] d IH]; [done|]. change (sum_values ((j, m) :: d)) with (m + sum_values d).
  assert (0 < m) by (apply (Hd j); by left). cut (0 ≤ sum_values d); [lia|]. apply IH. intros; eapply Hd; by right.
Qed.

(** The two loops leave a step with work scheduled. *)
Lemma loops_progress σ s s2 s3 t t3 :
  inv_at σ s → loop_progress 0 s (new_step cfg s) s2 t → grows s2 s3 t t3 →
  (preempted_reqs t = [] → pause_state s2 = UNPAUSED → wloop_progress s2 t t3) →
  room → enable_chunked_prefill cfg = true → pause_state s = UNPAUSED → 0 < max_num_scheduled_tokens cfg → 0 < max_num_running_reqs cfg →
  requests s ≠ [] → policy cfg = FCFS ∨ running s = [] → ready s → num_scheduled_tokens t3 ≠ [].
Proof.
  intros [Hg _ _ _] [_ L2 L3] Hgrow Hwait Hroom Hch Hun Hb Hmax Hne Hpol Hrdy.
  assert (token_budget (new_step cfg s) = max_num_scheduled_tokens cfg) as Hbud by (cbn; rewrite Hun; done).
  destruct (running s) as [|h l] eqn:Hrun.
  - destruct (L2 eq_refl) as [-> ->]. apply (wp_first _ _ _ (Hwait eq_refl Hun)); auto; [lia|]. intros Hw.
    apply Hne. pose proof (g_perm _ _ _ _ _ _ _ Hg) as Hperm. rewrite Hw in Hperm. by apply Permutation_nil_l in Hperm.
  - intros Hnil. assert (h ∈ (num_scheduled_tokens t3).*1) as Hx; [|rewrite Hnil in Hx; by apply elem_of_nil in Hx].
    apply (gr_keys _ _ _ _ Hgrow), (L3 h); auto; [by destruct Hpol|lia].
Qed.

(** How a step moves the requests. *)
Record schedule_effect (s : Sched E) (o : SchedulerOutput) (s' : Sched E) : Prop := {
  se_idle i : i ∈ running s' → i ∉ (so_num_scheduled_tokens o).*1 → i ∈ running s ∧
    ∀ r, s_objs s !! i = Some r → ∃ r', s_objs s' !! i = Some r' ∧ counts r' = counts r;
  se_head h r : room → policy cfg = FCFS → 0 < step_budget s → ready s → head (running s) = Some h → s_objs s !! h = Some r →
    head (running s') = Some h ∧ ∃ r', s_objs s' !! h = Some r' ∧ num_computed_tokens r < num_computed_tokens r';
  se_flags : flags s' = flags s;
}.

Lemma effect_of_loops s s2 s3 s' t t3 o :
  shrinks s s2 → loop_progress 0 s (new_step cfg s) s2 t → grows s2 s3 t t3 → flags s' = flags s →
  running s' = running s3 → so_num_scheduled_tokens o = num_scheduled_tokens t3 →
  (∀ i, i ∈ (num_scheduled_tokens t).*1 → i ∈ running s2) → (∀ i n, (i, n) ∈ num_scheduled_tokens t3 → 0 < n) →
  (∀ i, i ∉ (num_scheduled_tokens t3).*1 → s_objs s' !! i = s_objs s3 !! i) →
  (∀ i n, (i, n) ∈ num_scheduled_tokens t3 → advanced s3 s' i n) → schedule_effect s o s'.
Proof.
  intros [S1 S2 S3] [_ _ L3] [[l G1] G2 G3 G4] Hpause Hrun Hk Hin Hpos Hrest Hadv.
  assert (∀ i r, i ∈ running s2 → s_objs s !! i = Some r → ∃ r', s_objs s3 !! i = Some r' ∧ counts r' = counts r) as Hsame.
  { intros i r Hi Hr. destruct (S3 i r Hi Hr) as (r2 & Hr2 & E2). destruct (G2 i r2 Hi Hr2) as (r3 & Hr3 & E3). exists r3. split; congruence. }
  split; rewrite ?Hk, ?Hrun; auto.
  - intros i Hi Hn. destruct (G4 i Hi) as [H2|]; [|done]. split; [by apply S1|]. intros r Hr. rewrite Hrest by done. by apply Hsame.
  - intros h r Hroom Hf Hb Hrdy Hh Hr. assert (h ∈ (num_scheduled_tokens t).*1) as Hk1 by (by apply (L3 h)). pose proof (Hin h Hk1) as Hrun2. split.
    + destruct (S2 Hf) as [l2 Hl2]. rewrite Hl2 in Hh. rewrite G1. destruct (running s2); [by apply elem_of_nil in Hrun2|done].
    + destruct (Hsame h r Hrun2 Hr) as (r3 & Hr3 & [= E1 E2]). apply G3 in Hk1. apply list_elem_of_fmap in Hk1 as ([i n] & -> & Hi).
      destruct (Hadv i n Hi) as (x & r' & Hx & Hr' & E3 & E4 & _). cbn in *. rewrite Hr3 in Hx. injection Hx as <-. exists r'. split; [done|].
      specialize (Hpos i n Hi). lia.
Qed.

Lemma schedule_wp s :
  sched_inv s →
  wp (schedule cfg plug) (λ o s', sched_inv s' ∧ output_ok o (step_budget s) s' ∧ requests s' = requests s ∧
    progresses s o ∧ schedule_effect s o s') s.
Proof.
  intros [[σ Hinv] Hprev]. set (B := step_budget s). assert (0 ≤ B ≤ max_num_scheduled_tokens cfg) as HB.
  { pose proof (pc_budget (cfg := cfg) (plug := plug) (bs := bs)). unfold B, step_budget. case_bool_decide; lia. }
  unfold schedule. wp_step. apply wp_on_kv. eapply wp_mono; [apply (svc_new_step σ); apply Hinv|]. intros [] k Hk. set (s1 := set_kv k s).
  wp_step. wp_step. change (id s1) with s1. wp_step.
  eapply wp_mono; [apply (running_loop_wp B _ σ s1 (new_step cfg s1) 0)|]; [|done|by intros ? ?%elem_of_nil|unfold len; lia|].
  { split_and!; try done; [by apply inv_at_kv|]. split; cbn; try done; [|apply NoDup_nil_2|by intros ? ? ?%elem_of_nil].
    change (pause_state s1) with (pause_state s). fold (step_budget s) B. lia. }
  intros t s2 (Henv2 & (σ2 & Hloop2) & Hpr1). wp_step. eapply wp_mono; [by apply (schedule_waiting_wp B σ2)|].
  intros t3 s3 (Henv3 & (σ3 & Hdone) & Hgrow & Hwait). wp_step. eapply wp_mono; [eapply (check_constraints_wp B); eauto; lia|]. intros _ ? ->.
  wp_step. eapply wp_mono; [by apply (make_output_wp B σ3)|].
  intros o s4 (H1 & H2 & H3 & H4 & H5 & H6 & H7 & H8 & H9 & H10 & H11 & H12 & l & H13 & H14). rewrite pc_connector. cbv iota. do 2 wp_step. apply wp_bind.
  apply (wp_mono _ (λ _ s5, ∃ e, s5 = set_plugin_state e s4)).
  { unfold tell_plugins. destruct (ec_connector_on plug); wp_step; [by eexists|]. exists (plugin_state s4). by destruct s4. }
  intros _ ? (e & ->). destruct Hdone as (Hinv3 & [T1 T2 T3 T4 T5] & _).
  eapply wp_mono; [apply (update_after_schedule_wp σ3)|].
  - destruct H1 as [? ? ? ?]. by split.
  - by rewrite H7.
  - rewrite H7. intros rid n Hin. destruct (T4 rid n Hin) as (Hn & Hr & _ & r & c & F1 & F2 & F3 & F4). split; [done|]. cbn.
    rewrite H3. split; [done|]. exists r, c. cbn. by rewrite H2.
  - intros o' s6 (I1 & I0 & I2 & I3 & I4 & I5 & I6 & I7 & I9 & I10 & I8 & I11 & I12 & I13). cbn in I0, I2, I3, I4. split_and!.
    + split; [by exists σ3|]. intros rid r Hw Hr Hst. rewrite I4, H6, elem_of_list_to_set.
      intros [[j n] [-> Hn]]%list_elem_of_fmap. destruct (T4 j n Hn) as (_ & Hrun & _). rewrite <-H3, <-I2 in Hrun.
      destruct I1 as [Hg _ _ _]. destruct (good_split _ _ Hg) as (_ & _ & Hd). by apply (Hd j).
    + split; [rewrite I6, H8, I5, H7; lia|by rewrite I5, H7| |split; congruence|].
      2: { eapply (output_rows_ok σ3 s3 s6 o' l); rewrite ?I5, ?I12, ?I13, ?H7; try done. intros rid n Hin. destruct (T4 rid n Hin) as (_ & Hrun & _). split; [done|].
           destruct (I8 rid n) as (r & r' & F1 & F2); [by rewrite H7|]. exists r, r'. cbn in F1. by rewrite <-H2. }
      intros rid n Hin. rewrite I5, H7 in Hin. destruct (T4 rid n Hin) as (Hn & Hrun & _). rewrite I2, H3. split_and!; auto.
      destruct (I8 rid n) as (r4 & r & Hr4 & Hr & Hle & _); [by rewrite H7|]. exists r. split; [done|].
      destruct I1 as [Hg _ _ _]. destruct (good_running _ _ Hg rid) as (r0 & c0 & Hr0 & Hp & _); [by rewrite I2, H3|].
      rewrite Hr in Hr0. injection Hr0 as <-. destruct H1 as [Hg4 _ _ _].
      destruct (good_running _ _ Hg4 rid) as (r0 & c1 & Hr0 & Hp4 & _); [by rewrite H3|]. cbn in Hr4. rewrite Hr4 in Hr0. injection Hr0 as <-.
      pose proof (pl_computed _ _ _ _ Hp4). pose proof (pl_computed _ _ _ _ Hp). lia.
    + destruct Henv2 as [(E2 & _) _], Henv3 as (E3 & _). rewrite I0, H5, E3. exact E2.
    + intros P1 P2 P3 P4 P5 P6 P7 P8. rewrite I6, H8. apply sum_values_pos; [|intros i n Hi; exact (proj1 (T4 i n Hi))].
      apply (loops_progress σ s1 s2 s3 t t3); auto. by apply inv_at_kv.
    + destruct Henv2 as [(_ & _ & E2) Hsh], Henv3 as (_ & _ & E3). cbn in *.
      destruct (effect_of_loops s1 s2 s3 s6 t t3 o') as [F1 F2 F3]; [..|by split]; auto; try congruence.
      * etrans; [exact I11|]. etrans; [exact H11|]. by rewrite E3.
      * intros i [[j n] [-> Hi]]%list_elem_of_fmap. destruct Hloop2 as (_ & Hok2 & _). by destruct (st_sched _ _ _ _ _ Hok2 j n Hi) as (_ & ? & _).
      * intros i n Hi. exact (proj1 (T4 i n Hi)).
      * intros i Hi. rewrite I10 by (by rewrite H7). by rewrite H2.
      * intros i n Hi. destruct (I8 i n) as (r & r' & F1 & F2); [by rewrite H7|]. exists r, r'. cbn in F1. by rewrite <-H2.
Qed.

End schedule.
#[global] Arguments room cfg bs cap : clear implicits.
#[global] Arguments progresses {E} cfg bs cap s o.
