(* ===== verification/EngineSafety.v ===== *)
(** * The scheduler over its lifetime

    The calls of the engine core - adding and aborting requests, scheduling,
    feeding back the sampled tokens - keep the invariant of SchedulerInv and
    never raise, so every state an engine can reach satisfies it. *)

From S2P Require Import Prelude FreeQueue RequestModel BlockHash KVCacheMetrics BlockPool KVCacheManager KVService.
From S2P Require Import SchedUtils EncoderCache RequestQueue SchedulerState Scheduler SchedulerUpdate Engine SchedulerInv SchedulerSafety.

Section engine.
Context {E : Type} (cfg : SchedulerConfig) (plug : Plugins E) (bs : Z) {cap : Z}.
Context (Slots : gmap string Z → KVCacheManager → Prop) (Hit : KVCacheManager → string → KVCacheBlocks → Z → Prop).
Context `{HS : !KVService (sched_max_model_len cfg) bs cap Slots Hit} `{HC : !PlainConfig cfg plug bs}.
Context `{HF : !CollisionFree (h_hash cfg) (h_none cfg)}.
Implicit Type s : Sched E.

Abbreviation inv_at := (inv_at cfg bs Slots).
Abbreviation sched_inv := (sched_inv cfg bs Slots).

(** ** New requests *)

Lemma add_request_wp s request :
  sched_inv s → request_id request ∉ requests s → plain cfg bs (request_id request) request → status request = WAITING →
  num_computed_tokens request = 0 →
  wp (add_request cfg plug request) (λ _ s', sched_inv s' ∧ requests s' = requests s ++ [request_id request]) s.
Proof.
  intros [[σ [Hg Hk Hskip Hlen]] Hprev] Hnew Hp Hst Hnc. set (rid := request_id request) in *.
  unfold add_request. wp_step. wp_step. change (id s) with s. rewrite bool_decide_eq_false_2 by done.
  replace (resumable request) with false by (symmetry; apply Hp). wp_step. wp_step. unfold enqueue_waiting_request. wp_step.
  wp_step. apply (wp_get_req _ request); [cbn; apply lookup_insert_eq|]. rewrite Hst. cbn [is_blocked_waiting_status].
  assert (∀ i, i ∈ requests s → i ≠ rid) as Hne by by intros i Hi ->.
  assert (queue_wf (<[rid := request]> (s_objs s)) (waiting s)) as Hq.
  { apply (queue_wf_objs (s_objs s)); [apply Hg|]. intros i r Hi Hr. exists r. rewrite lookup_insert_ne; [done|].
    apply not_eq_sym, Hne, (good_in _ _ Hg). by right. }
  eapply wp_add_to; [cbn; apply lookup_insert_eq|]. wp_step. cbn.
  destruct (queue_insert _ _ Hq RequestQueue.add_request rid request) as [Hq' Hids]; [apply add_inv|apply lookup_insert_eq|done|].
  split; [|done]. split.
  - exists σ. split; cbn; auto. by eapply good_enqueue.
  - intros i r Hi. assert (i ∈ rid :: q_ids (waiting s)) as Hi' by (rewrite <-Hids; exact Hi). cbn.
    destruct (decide (i = rid)) as [->|Hx]; [rewrite lookup_insert_eq; congruence|].
    rewrite lookup_insert_ne by done. apply Hprev. by apply elem_of_cons in Hi' as [?|?].
Qed.

(** ** Finished requests *)

(** The requests [gone] have been released; those of [run0] and [wait0] that
    are left are in order. *)
Definition released (run0 wait0 gone : list string) (σ : gmap string Z) (s : Sched E) : Prop :=
  good cfg bs (s_objs s) (requests s) (filter (λ i, i ∉ gone) run0) (IdFCFS (filter (λ i, i ∉ gone) wait0)) σ ∧
  Slots σ (kv_cache_manager s).

(** What releasing a request leaves alone. *)
Definition queues_same (s s' : Sched E) : Prop :=
  running s' = running s ∧ waiting s' = waiting s ∧ skipped_waiting s' = skipped_waiting s ∧
  prev_step_scheduled_req_ids s' = prev_step_scheduled_req_ids s ∧ flags s' = flags s.

Lemma free_request_wp run0 wait0 gone σ s0 s v r :
  released run0 wait0 gone σ s0 → NoDup run0 → NoDup wait0 → v ∈ requests s0 →
  s = set_objs (<[v := r]> (s_objs s0)) s0 → request_id r = v → is_finished r = true → mm_features r = [] →
  wp (free_request cfg plug v false) (λ x s', x = None ∧ queues_same s s' ∧ s_objs s' = s_objs s ∧
    requests s' = remove_first v (requests s) ∧ ∃ σ', released run0 wait0 (gone ++ [v]) σ' s') s.
Proof.
  intros [Hg Hk] Hn1 Hn2 Hv -> Hid Hfin Hm. set (s := set_objs _ s0). assert (s_objs s !! v = Some r) as Hr by apply lookup_insert_eq.
  unfold free_request. wp_step. apply (wp_get_req _ r); [done|]. wp_step. apply wp_assert; [done|].
  unfold connector_finished. rewrite pc_connector. cbv iota. do 3 wp_step. apply wp_enc_free; [done|]. intros e.
  do 4 wp_step. cbn [orb fst snd]. unfold free_request_blocks. do 2 wp_step. apply (wp_get_req _ r); [done|].
  wp_step. apply wp_assert; [done|]. wp_step. apply wp_on_kv. eapply wp_mono; [by apply (svc_free σ)|]. rewrite Hid. intros [] k Hk'.
  do 2 wp_step. rewrite bool_decide_eq_true_2 by done. do 2 wp_step. split; [done|]. split; [done|]. split; [done|]. split; [done|].
  exists (delete v σ). split; [|done]. cbn.
  assert (∀ (l : list string) i, i ∈ filter (λ i, i ∉ gone ++ [v]) l ↔ i ≠ v ∧ i ∈ filter (λ i, i ∉ gone) l) as Hf.
  { intros l i. rewrite !list_elem_of_filter, not_elem_of_app, list_elem_of_singleton. tauto. }
  eapply (good_remove cfg bs Hg); auto using NoDup_filter.
  - intros i Hi. by rewrite lookup_insert_ne.
  - by apply remove_first_perm.
Qed.

(** Nothing released yet; and back, when the released requests have left the
    queues. *)
Lemma released_start σ s : inv_at σ s → released (running s) (q_ids (waiting s)) [] σ s.
Proof.
  intros [Hg Hk _ _]. assert (∀ l : list string, filter (λ i, i ∉ []) l = l) as Hf by (intros l; apply filter_id; intros ? _; apply not_elem_of_nil).
  split; [|done]. rewrite !Hf. eapply (good_perm cfg bs Hg); auto. split; [|done]. apply Hg.
Qed.

Lemma released_end run0 wait0 gone σ s :
  released run0 wait0 gone σ s → running s ≡ₚ filter (λ i, i ∉ gone) run0 → q_ids (waiting s) ≡ₚ filter (λ i, i ∉ gone) wait0 →
  queue_wf (s_objs s) (waiting s) → q_ids (skipped_waiting s) = [] → len (running s) ≤ max_num_running_reqs cfg → inv_at σ s.
Proof. intros [Hg Hk] H1 H2 H3 H4 H5. split; auto. by eapply (good_perm cfg bs Hg). Qed.

(** One iteration of the loop of [finish_requests]. *)
Lemma finish_one_wp run0 wait0 gone σ s v st :
  released run0 wait0 gone σ s → NoDup run0 → NoDup wait0 → v ∈ requests s → status_is_finished st = true →
  wp (let! r := get_req v in
      let! delay :=
        if bool_decide (status r = WAITING_FOR_REMOTE_KVS) then
          let! s := gets id in
          let delay := negb (bool_decide (v ∈ finished_recving_kv_req_ids s)) in
          modify (λ s, set_finished_recving (finished_recving_kv_req_ids s ∖ {[ v ]}) s) ;;;
          modify (λ s, set_failed_recving (failed_recving_kv_req_ids s ∖ {[ v ]}) s) ;;;
          ret delay
        else ret false in
      upd_req v (set_status st) ;;;
      free_request cfg plug v delay ;;;
      ret (v, client_index r)) (λ x s', x.1 = v ∧ queues_same s s' ∧ requests s' = remove_first v (requests s) ∧
        (∀ i, i ≠ v → s_objs s' !! i = s_objs s !! i) ∧
        (∀ r, s_objs s !! v = Some r → s_objs s' !! v = Some (set_status st r)) ∧
        ∃ σ', released run0 wait0 (gone ++ [v]) σ' s') s.
Proof.
  intros Hrel Hn1 Hn2 Hv Hst. pose proof Hrel as [Hg _]. destruct (g_obj _ _ _ _ _ _ _ Hg v Hv) as (r & Hr & Hp).
  assert (status r = RUNNING ∨ status r = WAITING ∨ status r = PREEMPTED) as Hs.
  { apply (good_in _ _ Hg) in Hv as [Hx|Hx]; [left; by apply (g_run _ _ _ _ _ _ _ Hg v r)|right; by apply (g_wait _ _ _ _ _ _ _ Hg v r)]. }
  wp_step. apply (wp_get_req _ r); [done|]. rewrite bool_decide_eq_false_2 by (destruct Hs as [-> | [-> | ->]]; done). do 3 wp_step.
  apply (wp_upd_req _ _ r); [done|]. wp_step.
  eapply wp_mono; [by apply (free_request_wp run0 wait0 gone σ s _ v (set_status st r)); auto; apply Hp|].
  intros x s' (-> & Hq & Hobj & Hreq & Hrel'). wp_step. cbn [fst]. split_and!; auto.
  - intros i Hi. rewrite Hobj. cbn. by rewrite lookup_insert_ne.
  - intros r0 Hr0. rewrite Hobj. cbn. rewrite lookup_insert_eq. congruence.
Qed.

Lemma filter_ext_in {A} (P Q : A → Prop) `{!∀ x, Decision (P x), !∀ x, Decision (Q x)} (l : list A) :
  (∀ x, x ∈ l → P x ↔ Q x) → filter P l = filter Q l.
Proof.
  induction l as [|x l IH]; intros Hpq; [done|]. rewrite !filter_cons. pose proof (Hpq x ltac:(by left)).
  rewrite IH by (intros y Hy; apply Hpq; by right). repeat case_decide; tauto.
Qed.

Lemma filter_remove {A} `{EqDecision A} (l gone : list A) v :
  NoDup l → remove_first v (filter (λ i, i ∉ gone) l) = filter (λ i, i ∉ gone ++ [v]) l.
Proof.
  intros Hnd. rewrite remove_first_filter by by apply NoDup_filter. rewrite list_filter_filter. apply filter_ext_in.
  intros x _. rewrite not_elem_of_app, list_elem_of_singleton. tauto.
Qed.

(** The requests leave the queues before they are released. *)
Lemma drop_requests_wp σ s (valid rr ww : list string) :
  inv_at σ s → (∀ i, i ∈ valid → i ∈ requests s) →
  (∀ i, i ∈ rr ↔ i ∈ valid ∧ i ∈ running s) → (∀ i, i ∈ ww ↔ i ∈ valid ∧ i ∈ q_ids (waiting s)) →
  wp (modify (λ s, set_running (remove_all (running s) rr).1 s) ;;;
      if bool_decide (ww = []) then ret tt else remove_from Waiting ww ;;; remove_from Skipped ww) (λ _ s',
    s_objs s' = s_objs s ∧ requests s' = requests s ∧ kv_cache_manager s' = kv_cache_manager s ∧
    prev_step_scheduled_req_ids s' = prev_step_scheduled_req_ids s ∧ flags s' = flags s ∧
    running s' = filter (λ i, i ∉ valid) (running s) ∧ q_ids (waiting s') ≡ₚ filter (λ i, i ∉ valid) (q_ids (waiting s)) ∧
    queue_wf (s_objs s) (waiting s') ∧ q_ids (skipped_waiting s') = []) s.
Proof.
  intros [Hg Hk Hskip Hlen] Hval Hrr Hww. destruct (good_split _ _ Hg) as (Hnd & _).
  assert ((remove_all (running s) rr).1 = filter (λ i, i ∉ valid) (running s)) as Hrun.
  { rewrite (proj1 (remove_all_filters _ _ Hnd)). apply filter_ext_in. intros i Hi. rewrite Hrr. tauto. }
  assert (filter (λ i, i ∉ ww) (q_ids (waiting s)) = filter (λ i, i ∉ valid) (q_ids (waiting s))) as Hwait.
  { apply filter_ext_in. intros i Hi. rewrite Hww. tauto. }
  do 2 wp_step. rewrite Hrun. case_bool_decide as Hw.
  - wp_step. split_and!; try done; [|apply Hg]. cbn. rewrite <-Hwait, Hw. symmetry. rewrite filter_id; [done|]. intros ? _. apply not_elem_of_nil.
  - assert (Forall (named (s_objs s)) ww) as Hn.
    { apply Forall_forall. intros i [Hi _]%Hww. destruct (g_obj _ _ _ _ _ _ _ Hg i (Hval i Hi)) as (r & Hr & Hp). exists r. split; [done|apply Hp]. }
    destruct (queue_remove _ _ (g_queue _ _ _ _ _ _ _ Hg) ww Hn) as [Hq1 Hq2].
    destruct (queue_remove _ _ (queue_wf_nil (s_objs s) _ Hskip) ww Hn) as [_ Hq3]. rewrite Hskip in Hq3. cbn in Hq3.
    wp_step. unfold remove_from. do 2 wp_step. split_and!; try done; [by rewrite <-Hwait|].
    apply Permutation_nil_r. exact Hq3.
Qed.

(** Every known request is live. *)
Lemma known_is_live s run wq σ i : good cfg bs (s_objs s) (requests s) run wq σ → is_live s i = bool_decide (i ∈ requests s).
Proof.
  intros Hg. unfold is_live. case_bool_decide as Hi; [|done]. destruct (g_obj _ _ _ _ _ _ _ Hg i Hi) as (r & Hr & Hp).
  rewrite Hr. unfold is_finished. apply (good_in _ _ Hg) in Hi as [Hi|Hi].
  - by rewrite (proj1 (g_run _ _ _ _ _ _ _ Hg i r Hi Hr)).
  - by destruct (g_wait _ _ _ _ _ _ _ Hg i r Hi Hr) as [[-> | ->] _].
Qed.

Lemma has_status_running σ s i : inv_at σ s → i ∈ requests s → has_status s RUNNING i = true ↔ i ∈ running s.
Proof.
  intros [Hg _ _ _] Hi. unfold has_status. rewrite bool_decide_eq_true. destruct (g_obj _ _ _ _ _ _ _ Hg i Hi) as (r & Hr & _).
  rewrite Hr. split; [|intros Hrun; cbn; by rewrite (proj1 (g_run _ _ _ _ _ _ _ Hg i r Hrun Hr))].
  intros [= Hs]. apply (good_in _ _ Hg) in Hi as [Hi|Hi]; [done|]. destruct (g_wait _ _ _ _ _ _ _ Hg i r Hi Hr) as [[? | ?] _]; congruence.
Qed.

Lemma finish_requests_wp s ids st :
  sched_inv s → status_is_finished st = true → NoDup (default (requests s) ids) →
  wp (finish_requests cfg plug ids st) (λ _ s', sched_inv s' ∧
    requests s' = filter (λ i, i ∉ default (requests s) ids) (requests s)) s.
Proof.
  intros [[σ Hinv] Hprev] Hst Hnd. pose proof Hinv as [Hg Hk Hskip Hlen]. set (l := default (requests s) ids) in *.
  unfold finish_requests. wp_step. apply wp_assert; [done|]. wp_step. wp_step. change (id s) with s. fold l.
  set (valid := filter (λ i, is_live s i = true) l). assert (∀ i, i ∈ valid ↔ i ∈ l ∧ i ∈ requests s) as Hval.
  { intros i. unfold valid. rewrite list_elem_of_filter, (known_is_live _ _ _ _ _ Hg), bool_decide_eq_true. tauto. }
  destruct (good_split _ _ Hg) as (Hnr & Hnw & Hd). wp_step. wp_step. apply wp_bind_assoc. set (s1 := set_num_streaming _ s).
  assert (inv_at σ s1) as Hinv1 by by split.
  eapply wp_mono; [apply (drop_requests_wp σ s1 valid _ _ Hinv1)|].
  - by intros i [_ Hi]%Hval.
  - intros i. rewrite list_elem_of_filter. split; intros [H1 H2]; (split; [|]); auto; apply (has_status_running σ); auto; by apply Hval.
  - intros i. rewrite list_elem_of_filter. split; intros [H1 H2]; (split; [|]); auto.
    + apply Hval in H2 as [_ H2]. pose proof H2 as H3. apply (good_in _ _ Hg) in H2 as [Hr|]; [|done].
      apply (has_status_running σ) in Hr; auto. congruence.
    + apply not_true_iff_false. intros Hr. apply (has_status_running σ) in Hr; auto; [by apply (Hd i)|by apply Hval].
  - intros [] s2 (A1 & A2 & A3 & A4 & A5 & A6 & A7 & A8 & A9).
    eapply wp_mono; [apply (wp_map_m (λ pre _ s', ∃ σ', released (running s) (q_ids (waiting s)) pre σ' s' ∧ queues_same s2 s' ∧
      requests s' = filter (λ i, i ∉ pre) (requests s) ∧ ∀ i, i ∉ pre → s_objs s' !! i = s_objs s !! i))|].
    + exists σ. pose proof (released_start σ s Hinv) as [Hr1 Hr2]. split_and!; try done; [split; by rewrite ?A1, ?A2, ?A3| |by rewrite A1].
      rewrite A2. symmetry. apply filter_id. intros ? _. apply not_elem_of_nil.
    + intros pre v post outs s3 Heq (σ3 & Hrel & Hq & Hreq & Hobj).
      destruct (nodup_next valid pre v post) as [Hnp Hvv]; [by apply NoDup_filter|done|].
      eapply wp_mono; [apply (finish_one_wp (running s) (q_ids (waiting s)) pre σ3 s3 v st); auto|].
      { rewrite Hreq, list_elem_of_filter. split; [done|]. by apply Hval. }
      intros x s4 (_ & Hq4 & Hreq4 & Hobj4 & _ & σ4 & Hrel4). exists σ4. split_and!; auto.
      * destruct Hq as (? & ? & ? & ? & ?), Hq4 as (? & ? & ? & ? & ?). split_and!; congruence.
      * rewrite Hreq4, Hreq. apply filter_remove, Hg.
      * intros i [Hi Hne]%not_elem_of_app. rewrite list_elem_of_singleton in Hne. rewrite Hobj4 by done. by apply Hobj.
    + intros outs s3 (σ3 & Hrel & (Q1 & Q2 & Q3 & Q4 & Q5) & Hreq & Hobj). cbn [fst snd] in *.
      assert (∀ i, i ∈ q_ids (waiting s3) → i ∈ q_ids (waiting s) ∧ s_objs s3 !! i = s_objs s !! i) as Hw3.
      { intros i. rewrite Q2, A7, list_elem_of_filter. intros [Hi1 Hi2]. auto. }
      split.
      * split.
        -- exists σ3. eapply released_end; [done|by rewrite Q1, A6|by rewrite Q2, A7| | |].
           ++ rewrite Q2. apply (queue_wf_objs (s_objs s)); [exact A8|]. intros i r Hi Hr. exists r. split; [|done].
              rewrite (proj2 (Hw3 i ltac:(by rewrite Q2))). done.
           ++ by rewrite Q3.
           ++ rewrite Q1, A6. etrans; [|exact Hlen]. unfold len. pose proof (length_filter (λ i, i ∉ valid) (running s)). cbn. lia.
        -- intros i r Hi Hr. destruct (Hw3 i Hi) as [Hi' Eo]. rewrite Eo in Hr. rewrite Q4, A4. by apply Hprev.
      * rewrite Hreq. apply filter_ext_in. intros i Hi. rewrite Hval. tauto.
Qed.

(** ** Sampled tokens *)

Abbreviation without_stats := (set_prefill_stats None).

(** What neither new tokens nor a stop changes. *)
Definition fixed (r : Request) := (order_key r, mm_features r, resumable r, use_structured_output r).

Lemma plain_without_stats rid r : plain cfg bs rid r → plain cfg bs rid (without_stats r).
Proof.
  intros Hp. apply (plain_core cfg bs rid r); auto; [apply pc_bs|apply Hp|by intros []|apply Hp].
Qed.

(** One token is appended and checked. *)
Lemma append_one_wp rid r tok :
  plain cfg bs rid (without_stats r) →
  wp (append_output_token_ids (h_sha256 cfg) (h_hash cfg) (h_none cfg) (block_hasher cfg) [tok] ;;; check_stop (sched_max_model_len cfg))
    (λ stopped r', fixed r' = fixed r ∧
      if (stopped : bool) then is_finished r' = true
      else plain cfg bs rid (without_stats r') ∧ status r' = status r ∧ num_computed_tokens r' = num_computed_tokens r ∧
        num_tokens r' = num_tokens r + 1) r.
Proof.
  intros [H1 (Hm & He & Hpool) (sp & Hsp & Hmin) H4 H5 (Ht1 & Ht2 & Ht3) _ H8]. cbn in *.
  assert (0 < bs) as Hbs by apply pc_bs. rewrite pc_hasher. wp_step.
  eapply wp_mono; [apply (append_output_wp (h_sha256 cfg) (h_hash cfg) (h_none cfg) r bs [tok]); auto|].
  - rewrite Hm. constructor.
  - intros a b h em _. rewrite He. discriminate.
  - right. rewrite Hm. constructor.
  - etrans; [exact H5|]. by apply ref_hashes_core.
  - intros [] r1 (mm & hs & -> & Hbh & _). set (r1 := set_block_hashes _ _) in *.
    assert (num_output_tokens r1 = num_output_tokens r + 1 ∧ num_tokens r1 = num_tokens r + 1) as [Ho Ht] by (split; apply len_app).
    change (num_tokens (without_stats r)) with (num_tokens r) in *. change (num_output_tokens (without_stats r)) with (num_output_tokens r) in *.
    assert (num_tokens r1 < sched_max_model_len cfg → plain cfg bs rid (without_stats r1)) as Hplain.
    { intros Hlt. split; cbn; auto; [by exists sp|etrans; [exact Hbh|]; symmetry; by apply ref_hashes_core| |by intros []|].
      - change (num_tokens (without_stats r1)) with (num_tokens r1). change (num_output_tokens (without_stats r1)) with (num_output_tokens r1). lia.
      - change (num_tokens (without_stats r1)) with (num_tokens r1). lia. }
    destruct (Z.lt_ge_cases (num_output_tokens r1) (min_tokens sp)) as [Hlt|Hge].
    + unfold wp. rewrite (check_stop_early r1 sp) by done. split; [done|]. split_and!; try done. apply Hplain. lia.
    + destruct (check_stop_run r1 sp (sched_max_model_len cfg) (output_token_ids r) tok) as (o & Ho' & Hrun); try done.
      unfold wp. rewrite Hrun. inversion Ho'; subst; cbn; (split; [done|]); try done. split_and!; try done. by apply Hplain.
Qed.

Lemma append_until_stop_wp rid toks : ∀ kept r,
  plain cfg bs rid (without_stats r) →
  wp (append_until_stop cfg kept toks) (λ x r', fixed r' = fixed r ∧ (toks = [] → r' = r ∧ x = (kept, false)) ∧ (toks ≠ [] → x.1 ≠ []) ∧
    if x.2 then is_finished r' = true
    else plain cfg bs rid (without_stats r') ∧ status r' = status r ∧ num_computed_tokens r' = num_computed_tokens r ∧
      num_tokens r' = num_tokens r + len toks) r.
Proof.
  induction toks as [|tok toks IH]; intros kept r Hp; cbn [append_until_stop]; [wp_step; split_and!; try done; rewrite Z.add_0_r; done|].
  apply wp_bind_assoc. eapply wp_mono; [by apply (append_one_wp rid)|]. intros stopped r1 (Hf & Hpost). destruct stopped.
  - wp_step. cbn. split_and!; auto; [done|]. intros _. by destruct kept.
  - destruct Hpost as (Hp1 & Hs1 & Hn1 & Ht1). eapply wp_mono; [by apply IH|]. intros [toks' stopped] r2 (Hf2 & Hnil & Hne & Hpost2). cbn [fst snd] in *.
    split; [congruence|]. split; [done|]. split.
    + intros _. destruct toks as [|tok' toks]; [|by apply Hne]. destruct (Hnil eq_refl) as [_ [= -> _]]. by destruct kept.
    + destruct stopped; [done|]. destruct Hpost2 as (? & ? & ? & ?). rewrite len_cons. split_and!; congruence || lia || done.
Qed.

Lemma wp_on_req {A} rid r (m : M Request A) (Q : A → Sched E → Prop) s :
  s_objs s !! rid = Some r → wp m (λ a r', Q a (set_objs (<[rid := r']> (s_objs s)) s)) r → wp (on_req rid m) Q s.
Proof.
  intros Hr Hm. unfold on_req. wp_step. apply (wp_get_req _ r); [done|]. unfold wp in Hm at 1. destruct (m r) as [[a|e] r']; [|done].
  wp_step. by apply (wp_upd_req _ _ r).
Qed.

(** The outcome of a request's new tokens: object [r] became [r']. *)
Definition tokens_taken (rid : string) (toks : list Z) (r r' : Request) (x : list Z * bool) : Prop :=
  fixed r' = fixed r ∧ (toks = [] → r' = r ∧ x = ([], false)) ∧ (toks ≠ [] → x.1 ≠ []) ∧
  if x.2 then is_finished r' = true
  else plain cfg bs rid (without_stats r') ∧ status r' = status r ∧ num_computed_tokens r' = num_computed_tokens r ∧
    num_tokens r' = num_tokens r + len toks.

Lemma take_new_tokens_wp s rid r toks :
  s_objs s !! rid = Some r → plain cfg bs rid r →
  wp (take_new_tokens cfg plug rid toks None) (λ x s', ∃ r', s' = set_objs (<[rid := r']> (s_objs s)) s ∧ tokens_taken rid toks r r' x) s.
Proof.
  intros Hr Hp. unfold take_new_tokens. wp_step. apply (wp_get_req _ r); [done|]. wp_step.
  apply (wp_mono _ (λ x s', ∃ r', s' = set_objs (<[rid := r']> (s_objs s)) s ∧ tokens_taken rid toks r r' x)).
  { destruct toks as [|tok toks].
    - destruct (bool_decide _ && bool_decide _) eqn:Eb.
      { apply andb_true_iff in Eb as [_ [? ?]%bool_decide_eq_true]. done. }
      wp_step. exists r. rewrite insert_id by done. split; [by destruct s|]. split_and!; try done. change (len []) with 0. rewrite Z.add_0_r. split; [by apply plain_without_stats|done].
    - unfold update_request_with_output, base_update_request_with_output. rewrite pc_sync. apply (wp_on_req _ r); [done|].
      eapply wp_mono; [apply (append_until_stop_wp rid); by apply plain_without_stats|]. intros x r' (H1 & H2 & H3 & H4). exists r'.
      split; [done|]. by split_and!. }
  intros x ? (r' & -> & Hx). wp_step. apply (wp_get_req _ r'); [cbn; apply lookup_insert_eq|]. do 2 wp_step.
  rewrite pc_grammar by (destruct Hx as [[= ] _]; destruct (pl_mode _ _ _ _ Hp); congruence). destruct x.1; wp_step; by exists r'.
Qed.

(** What [update_from_output] relies on of the model runner: it knows every
    scheduled request and returns prompt log probabilities only with tokens. *)
Record runner_ok (o : SchedulerOutput) (m : ModelRunnerOutput) : Prop := {
  ro_known rid : rid ∈ (so_num_scheduled_tokens o).*1 → ∃ idx toks, mr_req_id_to_index m !! rid = Some idx ∧
    (mr_sampled_token_ids m = [] ∧ toks = [] ∨ mr_sampled_token_ids m !! idx = Some toks) ∧
    (toks = [] → rid ∉ mr_prompt_logprobs m);
  ro_generation : mr_pooler_output m = [];
  ro_no_connector : mr_kv_connector_output m = None;
}.

(** The loop of [update_from_output], for the queues of [s0]. *)
Definition stopped_ids (c : Collected) : list string := col_stopped_running c ++ col_stopped_preempted c.
(** The tokens the runner returns for a request. *)
Definition answer (m : ModelRunnerOutput) (rid : string) : list Z :=
  default [] (idx ← mr_req_id_to_index m !! rid; mr_sampled_token_ids m !! idx).

(** Request [i] has not been computed further and has grown by its answer. *)
Definition grown (m : ModelRunnerOutput) (seen : list string) (i : string) (r0 r : Request) : Prop :=
  num_computed_tokens r = num_computed_tokens r0 ∧ num_tokens r0 ≤ num_tokens r ∧
  (i ∈ seen → answer m i ≠ [] → num_tokens r0 < num_tokens r).

Record update_inv (m : ModelRunnerOutput) (seen : list string) (s0 : Sched E) (c : Collected) (s : Sched E) : Prop := {
  ui_released : ∃ σ, released (running s0) (q_ids (waiting s0)) (stopped_ids c) σ s;
  ui_queues : queues_same s0 s;
  ui_queue : queue_wf (s_objs s) (waiting s0);
  ui_running i : i ∈ col_stopped_running c → i ∈ running s0;
  ui_waiting i : i ∈ col_stopped_preempted c → i ∈ q_ids (waiting s0);
  ui_prev i r : i ∈ q_ids (waiting s0) → i ∈ requests s → s_objs s !! i = Some r → status r = PREEMPTED →
    i ∉ prev_step_scheduled_req_ids s0;
  ui_grown i r0 : i ∈ requests s → s_objs s0 !! i = Some r0 → ∃ r, s_objs s !! i = Some r ∧ grown m seen i r0 r;
}.

Lemma released_perm run0 wait0 gone gone' σ s : gone ≡ₚ gone' → released run0 wait0 gone σ s → released run0 wait0 gone' σ s.
Proof.
  intros Hp [Hg Hk]. split; [|done].
  rewrite (filter_ext_in (λ i, i ∉ gone') (λ i, i ∉ gone) run0), (filter_ext_in (λ i, i ∉ gone') (λ i, i ∉ gone) wait0); auto;
    intros i _; by rewrite Hp.
Qed.

Section update_one.
Context (m : ModelRunnerOutput) (seen : list string) (s0 : Sched E) (Hn1 : NoDup (running s0)) (Hn2 : NoDup (q_ids (waiting s0))).
Context (c : Collected) (s : Sched E) (Hui : update_inv m seen s0 c s) (rid : string) (Hin : rid ∈ requests s).

Lemma update_inv_object :
  ∃ r, s_objs s !! rid = Some r ∧ plain cfg bs rid r ∧
    ((status r = RUNNING ∧ rid ∈ running s0) ∨ ((status r = WAITING ∨ status r = PREEMPTED) ∧ rid ∈ q_ids (waiting s0))).
Proof.
  destruct Hui as [(σ & Hg & _) _ _ _ _ _ _]. destruct (g_obj _ _ _ _ _ _ _ Hg rid Hin) as (r & Hr & Hp). exists r. split_and!; auto.
  apply (good_in _ _ Hg) in Hin as [Hx|Hx]; [left|right].
  - split; [by apply (g_run _ _ _ _ _ _ _ Hg rid r)|]. by apply list_elem_of_filter in Hx as [_ ?].
  - split; [by apply (g_wait _ _ _ _ _ _ _ Hg rid r)|]. cbn in Hx. by apply list_elem_of_filter in Hx as [_ ?].
Qed.

(** The request goes on. *)
Lemma update_inv_upd r r' :
  s_objs s !! rid = Some r → order_key r' = order_key r → plain cfg bs rid r' → status r' = status r →
  num_computed_tokens r' = num_computed_tokens r → num_tokens r' = num_tokens r + len (answer m rid) →
  update_inv m (seen ++ [rid]) s0 c (set_objs (<[rid := r']> (s_objs s)) s).
Proof.
  intros Hr Hk Hp Hs Hn Ht. destruct Hui as [(σ & Hg & Hkv) Hq Hwf H1 H2 H3 H4]. split; auto.
  - exists σ. split; [|done]. by eapply good_upd.
  - by eapply queue_wf_upd.
  - intros i x Hi Hreq. cbn. destruct (decide (i = rid)) as [->|Hne]; [|rewrite lookup_insert_ne by done; by apply H3].
    rewrite lookup_insert_eq. intros [= <-]. rewrite Hs. by apply H3.
  - intros i r0 Hi Hr0. destruct (H4 i r0 Hi Hr0) as (x & Hx & G1 & G2 & G3). cbn. destruct (decide (i = rid)) as [->|Hne].
    + rewrite lookup_insert_eq. exists r'. split; [done|]. rewrite Hr in Hx. injection Hx as <-. pose proof (len_nonneg (answer m rid)).
      split_and!; [congruence|lia|]. intros _ Ha. destruct (answer m rid); [done|]. rewrite len_cons in Ht. pose proof (len_nonneg l). lia.
    + rewrite lookup_insert_ne by done. exists x. split; [done|]. split_and!; auto. intros [Hs'|Hs']%elem_of_app; [by apply G3|].
      by apply list_elem_of_singleton in Hs'.
Qed.

(** The request stops: it is released and noted. *)
Definition note_stopped (was_running : bool) : Collected :=
  if was_running then MkCollected (col_outputs c) (col_stopped_running c ++ [rid]) (col_stopped_preempted c)
  else MkCollected (col_outputs c) (col_stopped_running c) (col_stopped_preempted c ++ [rid]).

Lemma update_inv_stop r r' :
  s_objs s !! rid = Some r → fixed r' = fixed r → is_finished r' = true →
  wp (free_request cfg plug rid false) (λ x s', x = None ∧ rid ∉ requests s' ∧ s_objs s' = <[rid := r']> (s_objs s) ∧
    update_inv m (seen ++ [rid]) s0 (note_stopped (bool_decide (status r = RUNNING))) s') (set_objs (<[rid := r']> (s_objs s)) s).
Proof.
  intros Hr Hf Hfin. destruct update_inv_object as (r0 & Hr0 & Hp & Hst). rewrite Hr in Hr0. injection Hr0 as <-.
  destruct Hui as [(σ & Hrel) Hq Hwf H1 H2 H3 H4]. pose proof Hrel as [Hg _].
  assert (order_key r' = order_key r ∧ mm_features r' = []) as [Hk Hm].
  { injection Hf; intros. split; [unfold order_key; congruence|]. destruct (pl_text _ _ _ _ Hp). congruence. }
  eapply wp_mono; [by apply (free_request_wp _ _ _ σ s _ rid r' Hrel Hn1 Hn2 Hin); auto; injection Hk; destruct Hp; congruence|].
  intros x s' (-> & Hq' & Hobj & Hreq & σ' & Hrel'). split; [done|].
  assert (∀ i, i ∈ requests s' → i ≠ rid ∧ i ∈ requests s) as Hreq'.
  { intros i. rewrite Hreq. cbn. rewrite remove_first_filter by apply Hg. rewrite list_elem_of_filter. done. }
  split; [intros Hx; by destruct (Hreq' rid Hx)|]. split; [done|].
  assert (stopped_ids c ++ [rid] ≡ₚ stopped_ids (note_stopped (bool_decide (status r = RUNNING)))) as Hperm.
  { unfold stopped_ids, note_stopped. case_bool_decide; cbn; [|by rewrite app_assoc]. by rewrite <-!app_assoc, (Permutation_app_comm _ [rid]). }
  split.
  - exists σ'. by eapply released_perm.
  - destruct Hq as (? & ? & ? & ? & ?), Hq' as (? & ? & ? & ? & ?). split_and!; unfold flags in *; cbn in *; congruence.
  - rewrite Hobj. cbn. by eapply queue_wf_upd.
  - unfold note_stopped. case_bool_decide as Hs; cbn; [|apply H1]. intros i [Hi|Hi]%elem_of_app; [by apply H1|].
    apply list_elem_of_singleton in Hi as ->. by destruct Hst as [[_ ?]|[[?|?] _]]; [|congruence..].
  - unfold note_stopped. case_bool_decide as Hs; cbn; [apply H2|]. intros i [Hi|Hi]%elem_of_app; [by apply H2|].
    apply list_elem_of_singleton in Hi as ->. by destruct Hst as [[? _]|[_ ?]].
  - intros i x Hi [Hne Hr']%Hreq'. rewrite Hobj. cbn. rewrite lookup_insert_ne by done. by apply H3.
  - intros i r0 [Hne Hr']%Hreq' Hr0. destruct (H4 i r0 Hr' Hr0) as (y & Hy & G1 & G2 & G3). exists y. rewrite Hobj. cbn.
    rewrite lookup_insert_ne by done. split; [done|]. split_and!; auto. intros [Hs'|Hs']%elem_of_app; [by apply G3|].
    by apply list_elem_of_singleton in Hs'.
Qed.

End update_one.

(** Objects of released requests do not matter. *)
Lemma update_inv_irrelevant m seen s0 c s rid r r' :
  update_inv m seen s0 c s → rid ∉ requests s → s_objs s !! rid = Some r → order_key r' = order_key r →
  update_inv m seen s0 c (set_objs (<[rid := r']> (s_objs s)) s).
Proof.
  intros [(σ & Hg & Hkv) Hq Hwf H1 H2 H3 H4] Hn Hr Hk. split; auto.
  - exists σ. split; [|done]. by apply (good_irrelevant cfg bs Hg).
  - by eapply queue_wf_upd.
  - intros i x Hi Hreq. cbn. rewrite lookup_insert_ne by (by intros ->). by apply H3.
  - intros i r0 Hi Hr0. cbn. rewrite lookup_insert_ne by (by intros ->). by apply H4.
Qed.

Lemma update_inv_output m seen s0 c s client out : update_inv m seen s0 c s → update_inv m seen s0 (add_output client out c) s.
Proof. by intros [H1 H2 H3 H4 H5 H6 H7]. Qed.

Lemma nans_wp s rid r (o : option Z) :
  s_objs s !! rid = Some r →
  wp (match o with Some n => upd_req rid (set_num_nans_in_logits n) | None => ret tt end)
    (λ _ s', ∃ n, s' = set_objs (<[rid := set_num_nans_in_logits n r]> (s_objs s)) s) s.
Proof.
  intros Hr. destruct o as [n|].
  - apply (wp_upd_req _ _ r); [done|]. by exists n.
  - wp_step. exists (num_nans_in_logits r). replace (set_num_nans_in_logits _ r) with r by by destruct r.
    rewrite insert_id by done. by destruct s.
Qed.

Lemma update_one_wp s0 o m seen c s rid :
  NoDup (running s0) → NoDup (q_ids (waiting s0)) → update_inv m seen s0 c s → rid ∈ requests s → runner_ok o m →
  rid ∈ (so_num_scheduled_tokens o).*1 → so_scheduled_spec_decode_tokens o = ∅ →
  wp (update_one cfg plug o m rid c) (λ c' s', update_inv m (seen ++ [rid]) s0 c' s') s.
Proof.
  intros Hn1 Hn2 Hui Hin [Hknown Hpool _] Hkey Hspec. destruct (Hknown rid Hkey) as (idx & toks & Hidx & Htoks & Hlog).
  assert (answer m rid = toks) as Hans by (unfold answer; rewrite Hidx; cbn; destruct Htoks as [[H0 ->]|H0]; by rewrite H0).
  destruct (update_inv_object m seen s0 c s Hui rid Hin) as (r & Hr & Hp & Hst).
  unfold update_one. rewrite Hidx, Hpool, Hspec, lookup_empty. wp_step.
  apply (wp_mono _ (λ x s', x = toks ∧ s' = s)).
  { destruct (mr_sampled_token_ids m) as [|t ts] eqn:Et; [wp_step; naive_solver|]. destruct Htoks as [[? _]|Htoks]; [done|].
    eapply wp_py_index; [|done]. rewrite py_get_nonneg, Nat2Z.id by lia. congruence. }
  intros ? ? [-> ->]. do 3 wp_step. cbn [adjust_for_rejected]. do 2 wp_step. apply (wp_get_req _ r); [done|].
  rewrite text_no_encoder by apply Hp. do 3 wp_step. apply (wp_get_req _ r); [done|]. wp_step.
  eapply wp_mono; [by apply (take_new_tokens_wp s rid r toks)|]. intros [new stopped] ? (r1 & -> & Hf & Hnil & Hne & Hpost). cbn [fst snd] in *.
  set (s1 := set_objs _ s). assert (s_objs s1 !! rid = Some r1) as Hr1 by apply lookup_insert_eq.
  pose proof Hf as [= K1 K2 K3 Hm Hres _]. assert (order_key r1 = order_key r) as Hk by (unfold order_key; congruence).
  wp_step. destruct stopped.
  - unfold get_routed_experts. rewrite pc_routed. cbv iota. do 3 wp_step. apply (wp_get_req _ r1); [done|]. wp_step. unfold handle_stopped_request.
    wp_step. apply (wp_get_req _ r1); [done|]. rewrite Hres, (proj1 (proj2 (pl_mode _ _ _ _ Hp))). cbn [negb]. do 2 wp_step.
    eapply wp_mono; [by apply (update_inv_stop m seen s0 Hn1 Hn2 c s Hui rid Hin r r1)|].
    intros x s2 (-> & Hnot & Hobj & Hui2). wp_step. assert (s_objs s2 !! rid = Some r1) as Hr2 by (rewrite Hobj; apply lookup_insert_eq).
    wp_step. eapply wp_mono; [by apply (nans_wp s2 rid r1)|]. intros _ ? [n ->]. rewrite orb_true_r.
    wp_step. apply (wp_get_req _ (set_num_nans_in_logits n r1)); [cbn; apply lookup_insert_eq|]. wp_step.
    apply (wp_upd_req _ _ (set_num_nans_in_logits n r1)); [cbn; apply lookup_insert_eq|]. wp_step.
    apply update_inv_output. eapply update_inv_irrelevant; [|done|cbn; apply lookup_insert_eq|done].
    by eapply update_inv_irrelevant.
  - wp_step. cbv beta iota. wp_step. eapply wp_mono; [by apply (nans_wp s1 rid r1)|]. intros _ ? [n ->].
    destruct Hpost as (Hp1 & Hs1 & Hnc1 & Ht1). set (r2 := set_num_nans_in_logits n r1).
    assert (set_objs (<[rid := r2]> (s_objs s1)) s1 = set_objs (<[rid := r2]> (s_objs s)) s) as ->.
    { unfold s1. cbn. by rewrite insert_insert_eq. }
    rewrite !orb_false_r. destruct toks as [|tok toks].
    + destruct (Hnil eq_refl) as [-> [= ->]]. cbn. apply wp_bind. apply wp_assert; [by rewrite bool_decide_eq_false_2 by auto|]. wp_step.
      apply (update_inv_upd m seen s0 c s Hui rid r r2); auto; [apply (plain_core cfg bs rid r); auto; [apply pc_bs|apply Hp..]|by rewrite Hans].
    + specialize (Hne ltac:(done)). destruct new as [|x new]; [done|]. cbn. wp_step. apply (wp_get_req _ r2); [cbn; apply lookup_insert_eq|].
      wp_step. apply (wp_upd_req _ _ r2); [cbn; apply lookup_insert_eq|]. wp_step. apply update_inv_output. cbn. rewrite insert_insert_eq.
      apply (update_inv_upd m seen s0 c s Hui rid r (without_stats r2)); auto;
      [apply (plain_core cfg bs rid (without_stats r1)); auto; [apply pc_bs|apply Hp1..]|by rewrite Hans].
Qed.

Lemma update_inv_gone m seen s0 c s rid : update_inv m seen s0 c s → rid ∉ requests s → update_inv m (seen ++ [rid]) s0 c s.
Proof.
  intros [H1 H2 H3 H4 H5 H6 H7] Hn. split; auto. intros i r0 Hi Hr0. destruct (H7 i r0 Hi Hr0) as (r & Hr & G1 & G2 & G3). exists r.
  split; [done|]. split_and!; auto. intros [Hs|Hs]%elem_of_app; [by apply G3|]. apply list_elem_of_singleton in Hs. by subst.
Qed.

Lemma update_loop_wp s0 o m sched : ∀ seen c s,
  NoDup (running s0) → NoDup (q_ids (waiting s0)) → update_inv m seen s0 c s → runner_ok o m → so_scheduled_spec_decode_tokens o = ∅ →
  (∀ rid n, (rid, n) ∈ sched → 0 < n ∧ rid ∈ (so_num_scheduled_tokens o).*1) →
  wp (update_loop cfg plug o m ∅ sched c) (λ c' s', update_inv m (seen ++ sched.*1) s0 c' s') s.
Proof.
  induction sched as [|[rid n] sched IH]; intros seen c s Hn1 Hn2 Hui Hro Hspec Hs; cbn [update_loop]; [wp_step; by rewrite app_nil_r|].
  replace (seen ++ ((rid, n) :: sched).*1) with ((seen ++ [rid]) ++ sched.*1) by by rewrite <-app_assoc.
  destruct (Hs rid n) as [Hn Hkey]; [by left|]. assert (∀ rid n, (rid, n) ∈ sched → 0 < n ∧ rid ∈ (so_num_scheduled_tokens o).*1) as Hs'
    by (intros i k Hi; apply (Hs i k); by right).
  wp_step. apply wp_assert; [by apply Z.ltb_lt|]. do 2 wp_step. change (id s) with s. rewrite bool_decide_eq_false_2 by apply not_elem_of_empty.
  destruct Hui as [(σ & Hg & Hkv) R2 R3 R4 R5 R6 R7] eqn:Eui. rewrite (known_is_live _ _ _ _ _ Hg). cbn [orb]. clear Eui.
  case_bool_decide as Hin; cbn [negb]; [|apply IH; auto; by apply update_inv_gone]. wp_step.
  eapply wp_mono; [by apply (update_one_wp s0 o m seen c s rid)|]. intros c' s' Hui'. by apply IH.
Qed.

(** What the results of a batch change: stopped requests are gone, the others
    have grown by their tokens. *)
Record update_effect (o : SchedulerOutput) (m : ModelRunnerOutput) (s s' : Sched E) : Prop := {
  ue_requests i : i ∈ requests s' → i ∈ requests s;
  ue_running : running s' = filter (λ i, i ∈ requests s') (running s);
  ue_grown i r0 : i ∈ requests s' → s_objs s !! i = Some r0 →
    ∃ r, s_objs s' !! i = Some r ∧ grown m (so_num_scheduled_tokens o).*1 i r0 r;
  ue_flags : flags s' = flags s;
}.

Lemma update_from_output_wp s o m :
  sched_inv s → runner_ok o m → so_scheduled_spec_decode_tokens o = ∅ → (∀ rid n, (rid, n) ∈ so_num_scheduled_tokens o → 0 < n) →
  wp (update_from_output cfg plug o m) (λ _ s', sched_inv s' ∧ update_effect o m s s') s.
Proof.
  intros [[σ Hinv] Hprev] Hro Hspec Hpos. pose proof Hinv as [Hg Hk Hskip Hlen]. destruct (good_split _ _ Hg) as (Hn1 & Hn2 & Hd).
  unfold update_from_output. rewrite (ro_no_connector _ _ Hro). do 3 wp_step.
  eapply wp_mono; [apply (update_loop_wp s o m _ [])|]; auto.
  { split; try done; [exists σ; by apply released_start|apply Hg|by intros ? ?%elem_of_nil..| |].
    - intros i r Hi _. by apply Hprev.
    - intros i r0 _ Hr0. exists r0. split; [done|]. split_and!; auto; [lia|]. by intros ?%elem_of_nil. }
  { intros rid n Hi. split; [by eapply Hpos|]. apply list_elem_of_fmap. by exists (rid, n). }
  intros c s1 [(σ1 & Hg1 & Hk1) (Q1 & Q2 & Q3 & Q4 & Q5) Hwf Hr Hw Hp Hgr].
  assert ((remove_all (running s1) (col_stopped_running c)).1 = filter (λ i, i ∉ stopped_ids c) (running s)) as Hrun.
  { rewrite Q1, (proj1 (remove_all_filters _ _ Hn1)). apply filter_ext_in. intros i Hi. unfold stopped_ids. rewrite not_elem_of_app.
    split; [|tauto]. intros Hx. split; [done|]. intros Hy%Hw. by apply (Hd i). }
  assert (filter (λ i, i ∉ col_stopped_preempted c) (q_ids (waiting s)) = filter (λ i, i ∉ stopped_ids c) (q_ids (waiting s))) as Hwait.
  { apply filter_ext_in. intros i Hi. unfold stopped_ids. rewrite not_elem_of_app. split; [|tauto]. intros Hx. split; [|done].
    intros Hy%Hr. by apply (Hd i). }
  do 3 wp_step. rewrite Hrun. set (s2 := set_running _ s1).
  apply (wp_mono _ (λ _ s', ∃ q, s' = set_waiting q s2 ∧ queue_wf (s_objs s1) q ∧ q_ids q ≡ₚ filter (λ i, i ∉ stopped_ids c) (q_ids (waiting s)))).
  { case_bool_decide as Hnil.
    - wp_step. exists (waiting s2). split; [by destruct s1|]. cbn. rewrite Q2. split; [done|]. rewrite <-Hwait, Hnil.
      rewrite filter_id; [done|]. intros ? _. apply not_elem_of_nil.
    - unfold remove_from. wp_step. assert (Forall (named (s_objs s1)) (col_stopped_preempted c)) as Hn.
      { apply Forall_forall. intros i Hi%Hw. by apply (proj1 (Forall_forall _ _) (proj1 Hwf)). }
      destruct (queue_remove _ _ Hwf _ Hn) as [F1 F2]. cbn. rewrite Q2. eexists. split; [done|]. split; [exact F1|]. by rewrite <-Hwait, F2. }
  intros _ ? (q & -> & Hq1 & Hq2). rewrite bool_decide_eq_false_2 by tauto. cbn [andb]. do 5 wp_step. apply wp_on_kv.
  eapply wp_mono; [by apply (svc_take_events σ1)|]. intros ev k Hk2. rewrite pc_connector. cbv iota. do 7 wp_step. split; [split|].
  - exists σ1. eapply (released_end (running s) (q_ids (waiting s)) (stopped_ids c) σ1); [by split|done|exact Hq2|exact Hq1|cbn; by rewrite Q3|].
    cbn. etrans; [|exact Hlen]. unfold len. pose proof (length_filter (λ i, i ∉ stopped_ids c) (running s)). lia.
  - intros i r Hi. cbn in *. rewrite Hq2 in Hi. rewrite Q4. apply Hp; [by apply list_elem_of_filter in Hi as [_ ?]|].
    apply (good_in _ _ Hg1). by right.
  - assert (∀ i, i ∈ requests s1 ↔ i ∈ requests s ∧ i ∉ stopped_ids c) as Hreq.
    { intros i. rewrite (good_in _ _ Hg1), (good_in _ _ Hg). cbn. rewrite !list_elem_of_filter. tauto. }
    split; cbn; auto; [by intros i [? _]%Hreq|]. apply filter_ext_in. intros i Hi. rewrite Hreq. split; [|tauto].
    intros Hn. split; [|done]. apply (good_in _ _ Hg). by left.
Qed.

(** ** Requests as they arrive *)

(** The arguments of a text-generation request that passed validation: a
    prompt shorter than the context, with room for [min_tokens]. *)
Record text_args_ok (a : RequestArgs) : Prop := {
  ta_prompt : ∃ toks, a_prompt_token_ids a = Some toks ∧ 0 < len toks < sched_max_model_len cfg ∧
    ∃ sp, a_sampling_params a = Some sp ∧ is_Some (sp_max_tokens sp) ∧ structured_outputs sp = false ∧
      len toks + min_tokens sp ≤ sched_max_model_len cfg;
  ta_text : a_prompt_embeds a = None ∧ a_mm_features a = [] ∧ a_pooling_params a = None ∧ a_resumable a = false;
}.

Lemma request_init_plain a :
  text_args_ok a →
  ∃ r, request_init (h_sha256 cfg) (h_hash cfg) (h_none cfg) a (block_hasher cfg) = Ok r ∧ request_id r = a_request_id a ∧
    plain cfg bs (a_request_id a) r ∧ status r = WAITING ∧ num_computed_tokens r = 0.
Proof.
  intros [(toks & Ht & Hlen & sp & Hsp & [mt Hmt] & Hso & Hmin) (He & Hm & Hp & Hres)].
  unfold request_init, request_init_fields, init_max_tokens. rewrite Hp, Hsp, Hmt, Hso, Ht, He. cbn.
  match goal with |- context [update_block_hashes _ _ _ _ ?x] => set (r := x) end.
  destruct (proj1 (wp_run _ _ _) (fresh_hashes_wp (h_sha256 cfg) (h_hash cfg) (h_none cfg) r bs pc_bs
    ltac:(cbn; rewrite Hm; constructor) eq_refl eq_refl)) as ([] & r' & Hrun & m & Er & _).
  rewrite pc_hasher, Hrun. exists r'. subst r'. split_and!; try done. split; cbn; auto; try lia.
  - exists sp. split; [done|lia].
  - symmetry. by apply ref_hashes_content; [apply pc_bs|].
  - change (num_tokens _) with (len toks). change (num_output_tokens _) with 0. lia.
  - change (num_tokens _) with (len toks). lia.
Qed.

(** ** Resets *)

Lemma preempt_all_wp rids : ∀ σ s,
  inv_at σ s → running s = reverse rids →
  wp (preempt_all rids) (λ _ s', ∃ σ', inv_at σ' s' ∧ running s' = [] ∧ requests s' = requests s) s.
Proof.
  induction rids as [|v rids IH]; intros σ s Hinv Hrun; cbn [preempt_all]; [wp_step; by exists σ|].
  rewrite reverse_cons in Hrun. pose proof Hinv as [Hg _ _ Hlen].
  destruct (good_running _ _ Hg v) as (r & c & Hr & _); [rewrite Hrun; apply elem_of_app; right; by left|].
  do 2 wp_step. assert (take (length (running s) - 1) (running s) = reverse rids) as ->.
  { rewrite Hrun, length_app. cbn. by rewrite Nat.add_sub, take_app_length. }
  wp_step. eapply wp_mono; [eapply (preempt_request_wp cfg plug bs Slots Hit σ s v r (reverse rids) Hinv); auto|].
  - rewrite Hrun. by rewrite (Permutation_app_comm _ [v]).
  - rewrite Hrun, len_app in Hlen. change (len [v]) with 1 in Hlen. lia.
  - intros [] s1 (Hinv1 & Hrun1 & Hreq1 & _ & _ & _). pose proof Hinv1 as [Hg1 Hk1 _ _].
    assert (v ∈ requests s1) as Hv by (rewrite Hreq1; apply (good_in _ _ Hg); left; rewrite Hrun; apply elem_of_app; right; by left).
    destruct (g_obj _ _ _ _ _ _ _ Hg1 v Hv) as (r1 & Hr1 & Hp1). wp_step. apply (wp_upd_req _ _ r1); [done|]. set (r2 := set_discard_latest_async_tokens _ _).
    eapply wp_mono; [eapply (IH (delete v σ))|].
    + assert (inv_at (delete v σ) (set_objs (<[v := r2]> (s_objs s1)) (set_kv (kv_cache_manager s1) s1))) as Hx.
      { eapply (inv_at_upd cfg plug bs Slots (delete v σ) s1 v r1 r2); auto. unfold core. cbn. by rewrite (proj2 (proj2 (proj2 (pl_mode _ _ _ _ Hp1)))). }
      destruct Hx as [? ? ? ?]. by split.
    + done.
    + intros [] s2 (σ2 & H1 & H2 & H3). exists σ2. cbn in H3. split_and!; auto. congruence.
Qed.

(** With [reset_running_requests] every running request is preempted first, so
    the reset succeeds. *)
Lemma reset_prefix_cache_wp s b :
  sched_inv s → wp (sched_reset_prefix_cache plug b false) (λ ok s', sched_inv s' ∧ requests s' = requests s ∧ (b = true → ok = true)) s.
Proof.
  intros [[σ Hinv] Hprev]. unfold sched_reset_prefix_cache. wp_step.
  apply (wp_mono _ (λ _ s', requests s' = requests s ∧ sched_inv s' ∧ (b = true → running s' = []))).
  { destruct b; [|wp_step; split; [done|split; [by split; [exists σ|]|done]]]. do 2 wp_step. change (id s) with s. wp_step.
    eapply wp_mono; [eapply (preempt_all_wp _ σ); [done|by rewrite reverse_involutive]|].
    intros [] s1 (σ1 & H1 & H2 & H3). wp_step. split; [done|]. split; [|done]. split; [exists σ1; destruct H1; by split|].
    intros i r _ _ _. apply not_elem_of_empty. }
  intros [] s1 (Hreq & [[σ1 Hinv1] Hprev1] & Hrun). wp_step. apply wp_on_kv. eapply wp_mono; [apply (svc_reset σ1), Hinv1|].
  intros ok k [Hk Hok]. assert (b = true → ok = true) as Hb.
  { intros Hb. apply Hok, map_eq. intros i. rewrite lookup_empty. apply eq_None_not_Some. intros Hi.
    apply (g_slots _ _ _ _ _ _ _ (ia_good _ _ _ _ _ Hinv1)) in Hi. rewrite (Hrun Hb) in Hi. by apply elem_of_nil in Hi. }
  assert (b && negb ok = false) as -> by (destruct b; [by rewrite Hb|done]). wp_step. split_and!; auto.
  split; [exists σ1; by apply inv_at_kv|done].
Qed.

End engine.
