(* ===== verification/EngineReach.v ===== *)
(** * The engine core as a state machine

    The calls an engine core receives, one at a time, as a step relation over
    its scheduler and its queue of batches in flight.  Every call made within
    its contract returns, and the invariant of SchedulerInv holds in every
    state reached; the claims about the scheduler's entry points follow. *)

From S2P Require Import Prelude FreeQueue RequestModel BlockHash KVCacheMetrics BlockPool KVCacheInterface SingleTypeManager Ownership KVCacheManager KVCacheSafety KVService.
From S2P Require Import SchedUtils EncoderCache RequestQueue SchedulerState Scheduler SchedulerUpdate Engine SchedulerInv SchedulerSafety EngineSafety.

Section calls.
Context {E : Type} (cfg : SchedulerConfig) (plug : Plugins E) (bs : Z).

(** A call of the engine core, with what the environment contributes to it. *)
Inductive Call :=
  | AddRequest (a : RequestArgs)
  | AbortRequests (request_ids : list string)
  | Step (execute : SchedulerOutput → ModelRunnerOutput) (aborts_queue : list (list string))
  | StepWithBatchQueue (batch_queue_size : Z) (is_ec_consumer is_pooling_model use_spec_decode : bool)
      (execute : SchedulerOutput → ModelRunnerOutput) (done : bool) (drafts : list (string * list Z)) (aborts_queue : list (list string))
  | PauseScheduler (mode : PauseMode) (clear_cache : bool)
  | ResumeScheduler
  | ResetPrefixCache (reset_running_requests : bool).

Definition run_call (c : Call) : M (Engine E) unit :=
  match c with
  | AddRequest a => on_sched (engine_add_request cfg plug a)
  | AbortRequests ids => on_sched (abort_requests cfg plug ids)
  | Step execute aborts => on_sched (step cfg plug execute aborts) ;;; ret tt
  | StepWithBatchQueue size ec pooling spec execute done drafts aborts =>
      step_with_batch_queue cfg plug size ec pooling spec execute done drafts aborts ;;; ret tt
  | PauseScheduler mode clear => on_sched (pause_scheduler cfg plug mode clear)
  | ResumeScheduler => on_sched resume_scheduler
  | ResetPrefixCache b => on_sched (sched_reset_prefix_cache plug b false ;;; ret tt)
  end.

(** The contract of a call: a new request is a valid text request with a fresh
    id, the workers answer every batch, the batch queue has room, and "wait"
    is not a mode of this engine. *)
Definition allowed (c : Call) (e : Engine E) : Prop :=
  match c with
  | AddRequest a => text_args_ok cfg a ∧ a_request_id a ∉ requests (e_sched e)
  | Step execute _ => ∀ o, runner_ok o (execute o)
  | StepWithBatchQueue size _ _ _ execute _ _ _ => len (batch_queue e) < size ∧ ∀ o, runner_ok o (execute o)
  | PauseScheduler mode _ => mode ≠ PauseWait
  | _ => True
  end.

(** The states reached from [e0] by calls within their contract. *)
Inductive reach (e0 : Engine E) : Engine E → Prop :=
  | reach_start : reach e0 e0
  | reach_call e c e' : reach e0 e → allowed c e → run_call c e = (Ok tt, e') → reach e0 e'.
End calls.

Section engine.
Context {E : Type} (cfg : SchedulerConfig) (plug : Plugins E) (bs : Z) {cap : Z}.
Context (Slots : gmap string Z → KVCacheManager → Prop) (Hit : KVCacheManager → string → KVCacheBlocks → Z → Prop).
Context `{HS : !KVService (sched_max_model_len cfg) bs cap Slots Hit} `{HC : !PlainConfig cfg plug bs}.
Context `{HF : !CollisionFree (h_hash cfg) (h_none cfg)}.
Implicit Type s : Sched E.

Abbreviation inv_at := (inv_at cfg bs Slots).
Abbreviation sched_inv := (sched_inv cfg bs Slots).

(** ** Each call *)

Lemma engine_add_request_wp s a :
  sched_inv s → text_args_ok cfg a → a_request_id a ∉ requests s →
  wp (engine_add_request cfg plug a) (λ _ s', sched_inv s' ∧ requests s' = requests s ++ [a_request_id a]) s.
Proof.
  intros Hs Ha Hnew. unfold engine_add_request, preprocess_add_request.
  destruct (request_init_plain cfg plug bs a Ha) as (r & -> & Hid & Hp & Hst & Hnc). rewrite <-Hid in *.
  by eapply add_request_wp.
Qed.

Lemma abort_requests_wp s ids :
  sched_inv s → wp (abort_requests cfg plug ids) (λ _ s', sched_inv s' ∧ requests s' = filter (.∉ ids) (requests s)) s.
Proof.
  intros Hs. unfold abort_requests. wp_step. eapply wp_mono; [eapply finish_requests_wp; eauto; apply NoDup_remove_dups|].
  intros _ s' [? Hr]. wp_step. split; [done|]. rewrite Hr. cbn. apply filter_ext_in. intros i _. by rewrite elem_of_remove_dups.
Qed.

Lemma process_aborts_queue_wp s aborts :
  sched_inv s → wp (process_aborts_queue cfg plug aborts) (λ _ s', sched_inv s' ∧ requests s' = filter (.∉ concat aborts) (requests s)) s.
Proof.
  intros Hs. unfold process_aborts_queue. destruct aborts; [|by apply abort_requests_wp].
  wp_step. split; [done|]. symmetry. apply filter_id. intros ? _. apply not_elem_of_nil.
Qed.

Lemma step_wp s execute aborts :
  sched_inv s → (∀ o, runner_ok o (execute o)) → wp (step cfg plug execute aborts) (λ _ s', sched_inv s') s.
Proof.
  intros Hs Hrun. unfold step. do 2 wp_step. case_match; [by wp_step|]. wp_step.
  eapply wp_mono; [by eapply schedule_wp|]. intros o s1 (Hs1 & Ho & _). wp_step.
  eapply wp_mono; [by apply process_aborts_queue_wp|]. intros _ s2 [Hs2 _]. wp_step.
  eapply wp_mono; [eapply update_from_output_wp; eauto; [apply Ho|]|by intros u s3 [Hs3 _]; wp_step].
  intros rid n Hi. exact (proj1 (ok_sched _ _ _ Ho rid n Hi)).
Qed.

Lemma sched_inv_irrelevant s s' :
  s_objs s' = s_objs s → requests s' = requests s → running s' = running s → waiting s' = waiting s →
  skipped_waiting s' = skipped_waiting s → kv_cache_manager s' = kv_cache_manager s →
  prev_step_scheduled_req_ids s' = prev_step_scheduled_req_ids s → sched_inv s → sched_inv s'.
Proof.
  intros H1 H2 H3 H4 H5 H6 H7 [[σ [A B C D]] Hp]. split; [exists σ; split; congruence|].
  intros i r. rewrite H1, H4, H7. apply Hp.
Qed.

Lemma wp_enc_reset (Q : unit → Sched E → Prop) s : (∀ e, Q tt (set_encoder e s)) → wp enc_reset Q s.
Proof. intros HQ. unfold wp, enc_reset, on_encoder. destruct (encoder_cache_manager s); cbn; apply HQ. Qed.

Lemma pause_scheduler_wp s mode clear :
  sched_inv s → mode ≠ PauseWait →
  wp (pause_scheduler cfg plug mode clear) (λ _ s', sched_inv s' ∧ (mode = PauseAbort → requests s' = [])) s.
Proof.
  intros Hs Hm. pose proof Hs as [[σ Hinv] _]. assert (NoDup (requests s)) as Hnd by apply (ia_good _ _ _ _ _ Hinv).
  assert (wp (match mode with PauseAbort => finish_requests cfg plug None FINISHED_ABORTED ;;; ret tt | _ => ret tt end)
    (λ _ s', sched_inv s' ∧ (mode = PauseAbort → requests s' = [])) s) as Habort.
  { destruct mode; [|done|by wp_step]. wp_step. eapply wp_mono; [eapply finish_requests_wp; eauto|].
    intros _ s' [? Hr]. wp_step. split; [done|]. intros _. rewrite Hr. cbn. apply elem_of_nil_inv. intros i. rewrite list_elem_of_filter. tauto. }
  unfold pause_scheduler. destruct mode; [|done|]; (wp_step; eapply wp_mono; [exact Habort|]; intros _ s1 [Hs1 Hr1]; wp_step; unfold set_pause_state; wp_step;
    set (s2 := set_pause _ s1); assert (sched_inv s2) as Hs2 by (by apply (sched_inv_irrelevant s1));
    destruct clear; [|by wp_step]; unfold reset_caches; wp_step;
    (eapply wp_mono; [by eapply reset_prefix_cache_wp|]); intros _ s3 (Hs3 & Hr3 & _); apply wp_enc_reset; intros enc;
    (split; [by apply (sched_inv_irrelevant s3)|]); intros Hx; cbn; rewrite Hr3; by apply Hr1).
Qed.

(** ** Batches in flight *)

(** What [update_from_output] needs of a batch that was scheduled earlier. *)
Definition batch_ok (o : SchedulerOutput) : Prop :=
  so_scheduled_spec_decode_tokens o = ∅ ∧ ∀ rid n, (rid, n) ∈ so_num_scheduled_tokens o → 0 < n.
Definition engine_inv (e : Engine E) : Prop := sched_inv (e_sched e) ∧ Forall batch_ok (batch_queue e).

Lemma output_batch o B s : output_ok o B s → batch_ok o ∧ so_pending_structured_output_tokens o = false.
Proof. intros Ho. split; [split; [apply Ho|]|apply Ho]. intros rid n Hi. exact (proj1 (ok_sched _ _ _ Ho rid n Hi)). Qed.

Lemma wp_on_sched {A} (m : M (Sched E) A) (Q : A → Engine E → Prop) e :
  wp m (λ a s, Q a (MkEngine s (batch_queue e))) (e_sched e) → wp (on_sched m) Q e.
Proof. exact (wp_zoom _ _ m Q e). Qed.

(** The oldest batch is taken off the queue and its result fed back. *)
Lemma finish_batch_wp {A} (e : Engine E) execute aborts (k : EngineCoreOutputs → M (Engine E) A) Q :
  engine_inv e → batch_queue e ≠ [] → (∀ o, runner_ok o (execute o)) →
  (∀ u e', engine_inv e' → wp (k u) Q e') →
  wp (let! e := gets id in
      match last (batch_queue e) with
      | None => raise IndexError
      | Some o =>
          modify (λ e, set_batch_queue (take (length (batch_queue e) - 1) (batch_queue e)) e) ;;;
          on_sched (process_aborts_queue cfg plug aborts) ;;;
          let! u := on_sched (update_from_output cfg plug o (execute o)) in k u
      end) Q e.
Proof.
  intros [Hs Hq] Hne Hrun Hk. do 2 wp_step. change (id e) with e. destruct (last (batch_queue e)) as [o|] eqn:Elast.
  2: { apply last_None in Elast. done. }
  assert (batch_ok o) as [Ho1 Ho2].
  { apply last_Some in Elast as [l El]. rewrite El in Hq. apply Forall_app in Hq as [_ Hq]. by apply Forall_inv in Hq. }
  do 3 wp_step. apply wp_on_sched. eapply wp_mono; [by apply process_aborts_queue_wp|]. intros [] s1 [Hs1 _]. wp_step.
  apply wp_on_sched. eapply wp_mono; [by eapply update_from_output_wp|]. intros u s2 [Hs2 _]. apply Hk. split; [done|].
  cbn. by apply Forall_take.
Qed.

Lemma step_with_batch_queue_wp e size ec pooling spec execute done drafts aborts :
  engine_inv e → len (batch_queue e) < size → (∀ o, runner_ok o (execute o)) →
  wp (step_with_batch_queue cfg plug size ec pooling spec execute done drafts aborts) (λ _ e', engine_inv e') e.
Proof.
  intros [Hs Hq] Hlen Hrun. unfold step_with_batch_queue. do 2 wp_step. change (id e) with e.
  wp_step. apply wp_assert; [lia|]. wp_step.
  apply (wp_mono _ (λ st e', engine_inv e' ∧ match st with
    | Some (_, d, false) => d = None ∧ batch_queue e' ≠ [] | _ => True end)).
  - case_match; [|destruct (batch_queue e) as [|o q] eqn:Eq; wp_step; (split; [by split; rewrite ?Eq|]); [done|split; [done|]; by rewrite Eq]].
    wp_step. apply wp_on_sched. eapply wp_mono; [by eapply schedule_wp|]. intros o s1 (Hs1 & Ho & _).
    destruct (output_batch _ _ _ Ho) as [Hb ->]. rewrite andb_false_r. do 3 wp_step. split; [|by case_match].
    split; [done|]. by constructor.
  - intros [[[mx d] [|]]|] e1 [He Hst]; [by wp_step| |by wp_step]. destruct Hst as [-> Hne].
    apply (finish_batch_wp e1 execute aborts); auto.
Qed.

(** ** Reachable states *)

Lemma run_call_wp c e : engine_inv e → allowed cfg c e → wp (run_call cfg plug c) (λ _ e', engine_inv e') e.
Proof.
  intros He Hc. pose proof He as [Hs Hq].
  destruct c; cbn [run_call allowed] in *;
    [apply wp_on_sched|apply wp_on_sched|wp_step; apply wp_on_sched|wp_step|apply wp_on_sched|apply wp_on_sched|apply wp_on_sched; wp_step].
  - destruct Hc. eapply wp_mono; [by eapply engine_add_request_wp|]. by intros ? s [? _].
  - eapply wp_mono; [by apply abort_requests_wp|]. by intros ? s [? _].
  - eapply wp_mono; [by apply step_wp|]. intros ? s ?. by wp_step.
  - destruct Hc. eapply wp_mono; [by apply step_with_batch_queue_wp|]. intros ? s ?. by wp_step.
  - eapply wp_mono; [by apply pause_scheduler_wp|]. by intros ? s [? _].
  - unfold resume_scheduler, set_pause_state. wp_step. split; [|done]. by apply (sched_inv_irrelevant (e_sched e)).
  - eapply wp_mono; [by eapply reset_prefix_cache_wp|]. intros ? s [? _]. by wp_step.
Qed.

Lemma reach_inv e0 e : engine_inv e0 → reach cfg plug e0 e → engine_inv e.
Proof.
  intros H0. induction 1 as [|e c e' _ IH Hc Hrun]; [done|]. exact (wp_ok _ _ _ _ _ Hrun (run_call_wp c e IH Hc)).
Qed.

(** An engine without requests whose manager holds no slots. *)
Lemma fresh_inv e :
  requests (e_sched e) = [] → running (e_sched e) = [] → waiting (e_sched e) = empty_queue (policy cfg) →
  q_ids (skipped_waiting (e_sched e)) = [] → batch_queue e = [] → Slots ∅ (kv_cache_manager (e_sched e)) →
  0 ≤ max_num_running_reqs cfg → engine_inv e.
Proof.
  intros H1 H2 H3 H4 H5 Hk Hmax. split; [|by rewrite H5].
  assert (q_ids (waiting (e_sched e)) = []) as Hw by (rewrite H3; by destruct (policy cfg)).
  split; [exists ∅; split|]; auto.
  - rewrite H1, H2. split; rewrite ?Hw; try by (intros ? ?%elem_of_nil || intros ? ? ?%elem_of_nil).
    + constructor.
    + done.
    + intros rid. rewrite lookup_empty. by intros [? ?].
    + rewrite H3. apply queue_update; [apply create_inv|]. by destruct (policy cfg).
  - rewrite H2. done.
  - intros i r. rewrite Hw. by intros ?%elem_of_nil.
Qed.
End engine.

(** ** The engine over the KV-cache manager *)

(** A newly built engine: no requests, no batches, and a manager of one
    full-attention group whose [cap] blocks are all free. *)
Record fresh_engine {E} (cfg : SchedulerConfig) (bs cap : Z) (e : Engine E) : Prop := {
  fe_requests : requests (e_sched e) = [];
  fe_running : running (e_sched e) = [];
  fe_waiting : waiting (e_sched e) = empty_queue (policy cfg);
  fe_skipped : q_ids (skipped_waiting (e_sched e)) = [];
  fe_batches : batch_queue e = [];
  fe_kv : kv_slots (sched_max_model_len cfg) bs cap ∅ (kv_cache_manager (e_sched e));
  fe_max : 0 ≤ max_num_running_reqs cfg;
}.

Section claims.
Context {E : Type} (cfg : SchedulerConfig) (plug : Plugins E) (bs cap : Z).
Context `{HC : !PlainConfig cfg plug bs} `{HF : !CollisionFree (h_hash cfg) (h_none cfg)}.
Abbreviation kv_of e := (kv_cache_manager (e_sched (E := E) e)).

Lemma reachable_inv e0 e :
  fresh_engine cfg bs cap e0 → reach cfg plug e0 e → engine_inv cfg bs (kv_slots (sched_max_model_len cfg) bs cap) e.
Proof. intros [H1 H2 H3 H4 H5 H6 H7] Hr. apply (reach_inv cfg plug bs _ kv_hit e0 e); [by apply fresh_inv|done]. Qed.

Lemma idle_blocks (e : Engine E) :
  engine_inv cfg bs (kv_slots (sched_max_model_len cfg) bs cap) e → requests (e_sched e) = [] →
  get_num_free_blocks (pool_of (kv_of e)) = num_gpu_blocks (pool_of (kv_of e)) - 1.
Proof.
  intros [[[σ [Hg Hk _ _]] _] _] Hnil. apply (kv_slots_idle (sched_max_model_len cfg) bs cap).
  replace ∅ with σ; [done|]. apply map_eq. intros i. rewrite lookup_empty. apply eq_None_not_Some. intros Hi%(g_slots _ _ _ _ _ _ _ Hg).
  assert (i ∈ requests (e_sched e)) as Hx by (apply (good_in _ _ Hg); by left). rewrite Hnil in Hx. by apply elem_of_nil in Hx.
Qed.







(** [reset_prefix_cache] with [reset_running_requests] succeeds in every
    state an engine reaches: all running requests are preempted, so no block
    is in use, and none of the requests is lost. *)
Theorem reset_running_succeeds e0 e :
  fresh_engine cfg bs cap e0 → reach cfg plug e0 e →
  ∃ s', sched_reset_prefix_cache plug true false (e_sched e) = (Ok true, s') ∧ requests s' = requests (e_sched e).
Proof.
  intros H0 Hr. destruct (reachable_inv e0 e H0 Hr) as [Hs _].
  destruct (proj1 (wp_run _ _ _) (reset_prefix_cache_wp cfg plug bs _ kv_hit (e_sched e) true Hs)) as (ok & s' & Hrun & _ & Hreq & Hok).
  rewrite Hok in Hrun by done. by exists s'.
Qed.

(** Pausing an engine in abort mode finishes every request and gives all
    blocks back, with or without clearing the caches. *)
Theorem pause_abort_drains e0 e clear :
  fresh_engine cfg bs cap e0 → reach cfg plug e0 e →
  ∃ s', pause_scheduler cfg plug PauseAbort clear (e_sched e) = (Ok tt, s') ∧ requests s' = [] ∧
    get_num_free_blocks (pool_of (kv_cache_manager s')) = num_gpu_blocks (pool_of (kv_cache_manager s')) - 1.
Proof.
  intros H0 Hr. destruct (reachable_inv e0 e H0 Hr) as [Hs Hb].
  destruct (proj1 (wp_run _ _ _) (pause_scheduler_wp cfg plug bs _ kv_hit (e_sched e) PauseAbort clear Hs ltac:(done)))
    as ([] & s' & Hrun & Hs' & Hreq). exists s'. split_and!; auto. exact (idle_blocks (MkEngine s' (batch_queue e)) (conj Hs' Hb) (Hreq eq_refl)).
Qed.
End claims.

(** [Scheduler.__init__] for a decoder-only model with one full-attention
    group, prefix caching and no context parallelism returns, and the engine
    over it is a fresh one: no requests, every block but the null block free. *)
Lemma scheduler_init_fresh {E} (cfg : SchedulerConfig) (plug : Plugins E) (bs : Z) n tensors names spec log fin ev mm mc ui env (x : E) :
  PlainConfig cfg plug bs → is_encoder_decoder cfg = false → 0 ≤ max_num_running_reqs cfg →
  attention_spec spec → is_full_attention spec = true → block_size spec = bs → (0 < n)%nat →
  let a := MkSchedulerArgs (MkKVCacheConfig (Z.of_nat n) tensors [MkGroup names (LayerSpec spec)]) (Some (Z.of_nat n)) bs true log fin ev 1 1
             mm mc ui env in
  ∃ s, scheduler_init cfg plug a x = Ok s ∧ fresh_engine cfg bs (Z.of_nat n - 1) (MkEngine s []) ∧
    get_num_free_blocks (pool_of (kv_cache_manager s)) = num_gpu_blocks (pool_of (kv_cache_manager s)) - 1.
Proof.
  intros HC Hed Hmax Hs Hfull <- Hn. unfold scheduler_init, init_checks, routed_checks.
  cbn [sa_num_gpu_blocks sa_kv_cache_config sa_block_size sa_enable_prefix_caching sa_log_stats sa_enable_kv_cache_events sa_dcp sa_pcp
       sa_collector sa_use_int sa_metrics_env].
  destruct (kv_init_slots (sched_max_model_len cfg) n tensors names spec (use_eagle cfg) log ev mc ui env Hs Hfull Hn) as (k & -> & Hk).
  rewrite Hed, pc_connector, pc_routed. destruct (Z.ltb_spec 0 (Z.of_nat n)); [|lia]. cbn [andb orb negb]. eexists. split; [done|].
  split; [|by eapply kv_slots_idle]. split; try done. by destruct (policy cfg).
Qed.

(** ** A concrete engine *)

(** Without connector, grammars or mamba layers; blocks of two tokens. *)
Definition no_plugins : Plugins unit :=
  MkPlugins unit false false (λ _ _ e, (Some 0, false, e)) (λ _ _ _ e, e) (λ _ _ e, (false, None, e)) (λ e, e) (λ e, ([], e))
    (λ e, e) (λ e, (true, e)) false (λ _ _, false) (λ _ _ e, e) (λ e, e) (λ _ _, false) (λ _ _ e, (true, e)) (λ _ t _, t).
Definition toy_cfg (p : SchedulingPolicy) : SchedulerConfig :=
  MkSchedulerConfig p 4 8 64 0 true false 0 false false 0 0 false false 2 2 None false false false false false true None 1 (Some 2)
    (λ b, b) code_hash [x03].
Definition toy_sched (p : SchedulingPolicy) : Sched unit :=
  MkSched ∅ [] (empty_queue p) (empty_queue p) [] ∅ None ∅ 0 ∅ ∅ (MultiModal (encoder_init 0)) toy_kv UNPAUSED None tt.
Definition toy_engine (p : SchedulingPolicy) : Engine unit := MkEngine (toy_sched p) [].

(** A worker that samples token 7 for every request of the batch. *)
Definition one_token_each (o : SchedulerOutput) : ModelRunnerOutput :=
  MkModelRunnerOutput (list_to_map (imap (λ i x, (x.1, i)) (so_num_scheduled_tokens o)))
    ((λ _, [7]) <$> so_num_scheduled_tokens o) [] ∅ None None.

#[local] Instance toy_plain p : PlainConfig (toy_cfg p) no_plugins 2.
Proof. by split. Qed.

Lemma toy_slots : kv_slots 64 2 7 ∅ toy_kv.
Proof.
  exists (fresh_apool 8), toy_manager. split_and!; [exact toy_kv_inv|exact toy_unitary|vm_compute; reflexivity..|exact toy_stats|].
  intros rid. rewrite lookup_empty. split; vm_compute; reflexivity.
Qed.

Lemma toy_fresh p : fresh_engine (toy_cfg p) 2 7 (toy_engine p).
Proof. split; try done; [by destruct p|exact toy_slots]. Qed.

Lemma one_token_each_ok o : runner_ok o (one_token_each o).
Proof.
  split; try done. intros rid Hin. set (l := so_num_scheduled_tokens o) in *.
  assert ((imap (λ i x, (x.1, i)) l).*1 = l.*1) as Hkeys by (rewrite fmap_imap; apply (imap_const (λ x : string * Z, x.1))).
  destruct (list_to_map (M := gmap string nat) (imap (λ i x, (x.1, i)) l) !! rid) as [i|] eqn:Hi.
  - exists i, [7]. split; [done|]. apply elem_of_list_to_map_2, elem_of_lookup_imap in Hi as (j & x & [= -> ->] & Hj).
    split; [|done]. right. cbn. rewrite list_lookup_fmap. fold l. by rewrite Hj.
  - apply not_elem_of_list_to_map_2 in Hi. rewrite Hkeys in Hi. done.
Qed.

(** Two requests with a common prefix, the first step of which is done. *)
Definition toy_calls : list Call :=
  [AddRequest (text_args "a" [1; 2; 3; 4; 5] None None []); AddRequest (text_args "b" [1; 2; 3; 4; 6] None None []);
   Step one_token_each []].
Fixpoint run_calls (p : SchedulingPolicy) (cs : list Call) (e : Engine unit) : Engine unit :=
  match cs with
  | [] => e
  | c :: cs => run_calls p cs (run_call (toy_cfg p) no_plugins c e).2
  end.
Definition toy_busy (p : SchedulingPolicy) : Engine unit := run_calls p toy_calls (toy_engine p).

Lemma toy_text p rid toks : 0 < len toks < 64 → text_args_ok (toy_cfg p) (text_args rid toks None None []).
Proof.
  intros Hl. split; [|done]. exists toks. split_and!; cbn; try lia; [done|]. eexists. split_and!; [done|by eexists|done|]. cbn. lia.
Qed.

Lemma reach_run {E} cfg (plug : Plugins E) c e0 e :
  reach cfg plug e0 e → allowed cfg c e → (run_call cfg plug c e).1 = Ok tt → reach cfg plug e0 (run_call cfg plug c e).2.
Proof.
  intros Hr Hc Hok. apply (reach_call _ _ _ e c); auto. destruct (run_call cfg plug c e) as [x e']. cbn in *. by subst.
Qed.

Lemma toy_reach p : reach (toy_cfg p) no_plugins (toy_engine p) (toy_busy p).
Proof.
  unfold toy_busy, toy_calls. cbn [run_calls]. apply reach_run; [apply reach_run; [apply reach_run; [apply reach_start| |]| |]| |].
  - split; [apply toy_text; unfold len; cbn; lia|apply not_elem_of_nil].
  - destruct p; vm_compute; reflexivity.
  - split; [apply toy_text; unfold len; cbn; lia|apply (bool_decide_unpack _); destruct p; vm_compute; exact I].
  - destruct p; vm_compute; reflexivity.
  - exact one_token_each_ok.
  - destruct p; vm_compute; reflexivity.
Qed.




Definition toy_drained : Engine unit := (run_call (toy_cfg FCFS) no_plugins (AbortRequests ["a"; "b"]) (toy_busy FCFS)).2.


Lemma reset_running_succeeds_witness : ∃ s', sched_reset_prefix_cache no_plugins true false (e_sched (toy_busy FCFS)) = (Ok true, s').
Proof.
  destruct (reset_running_succeeds (toy_cfg FCFS) no_plugins 2 7 (toy_engine FCFS) (toy_busy FCFS) (toy_fresh FCFS) (toy_reach FCFS))
    as (s' & Hrun & _). exact (ex_intro _ s' Hrun).
Defined.

Lemma pause_abort_drains_witness : ∃ s', pause_scheduler (toy_cfg FCFS) no_plugins PauseAbort true (e_sched (toy_busy FCFS)) = (Ok tt, s') ∧
  requests s' = [].
Proof.
  destruct (pause_abort_drains (toy_cfg FCFS) no_plugins 2 7 (toy_engine FCFS) (toy_busy FCFS) true (toy_fresh FCFS) (toy_reach FCFS))
    as (s' & Hrun & Hreq & _). exact (ex_intro _ s' (conj Hrun Hreq)).
Defined.

Lemma scheduler_init_fresh_witness : ∃ s, scheduler_init (toy_cfg PRIORITY) no_plugins
    (MkSchedulerArgs (MkKVCacheConfig 8 [] toy_groups) (Some 8) 2 true true false false 1 1 None None false no_metrics) tt = Ok s ∧
  get_num_free_blocks (pool_of (kv_cache_manager s)) = num_gpu_blocks (pool_of (kv_cache_manager s)) - 1.
Proof.
  destruct (scheduler_init_fresh (toy_cfg PRIORITY) no_plugins 2 8 [] ["layer0"] toy_spec true false false None None false no_metrics tt)
    as (s & Hrun & _ & Hfree); [apply toy_plain|reflexivity|cbn; lia|split; [cbn; lia|exact I]|reflexivity|reflexivity|lia|].
  exact (ex_intro _ s (conj Hrun Hfree)).
Defined.

(** The same engine for sequences of at most 12 tokens, which its seven blocks
    of two tokens can hold. *)
Definition small_cfg : SchedulerConfig :=
  MkSchedulerConfig FCFS 4 8 12 0 true false 0 false false 0 0 false false 2 2 None false false false false false true None 1 (Some 2)
    (λ b, b) code_hash [x03].
Definition small_kv : KVCacheManager :=
  match kv_manager_init (MkKVCacheConfig 8 [] toy_groups) 12 2 true false true true 1 1 None false no_metrics with
  | Ok k => k
  | Raise _ => idle_kv
  end.
Definition small_engine : Engine unit := MkEngine (set_kv small_kv (toy_sched FCFS)) [].
Definition small_busy : Engine unit :=
  (run_call small_cfg no_plugins (AddRequest (text_args "a" [1; 2; 3; 4; 5] None None [])) small_engine).2.

#[local] Instance small_plain : PlainConfig small_cfg no_plugins 2.
Proof. by split. Qed.

Lemma small_fresh : fresh_engine small_cfg 2 7 small_engine.
Proof.
  split; try done. destruct (kv_init_slots 12 8 [] ["layer0"] toy_spec false true true None false no_metrics) as (k & Hk & Hs);
    [split; [cbn; lia|exact I]|reflexivity|lia|]. assert (Ok k = Ok small_kv) as [= ->] by (rewrite <-Hk; vm_compute; reflexivity). exact Hs.
Qed.

Lemma small_reach : reach small_cfg no_plugins small_engine small_busy.
Proof.
  apply reach_run; [apply reach_start| |vm_compute; reflexivity]. split; [|apply not_elem_of_nil]. split; [|done].
  exists [1; 2; 3; 4; 5]. split_and!; cbn; try done; unfold len; cbn; try lia. eexists. split_and!; [done|by eexists|done|]. cbn. lia.
Qed.

