(* ===== verification/EngineDrain.v ===== *)
(** * An engine finishes its requests

    Under FCFS the head of the running list is scheduled in every step and is
    never preempted, so it reaches its end; an engine that gets no new requests
    therefore runs out of them.  The bound on the number of steps is the number
    of requests times the model length. *)

From S2P Require Import Prelude FreeQueue RequestModel BlockHash KVCacheMetrics BlockPool KVCacheManager KVCacheSafety KVService.
From S2P Require Import SchedUtils EncoderCache RequestQueue SchedulerState Scheduler SchedulerUpdate Engine SchedulerInv SchedulerSafety EngineSafety EngineReach.

Section drain.
Context {E : Type} (cfg : SchedulerConfig) (plug : Plugins E) (bs : Z) {cap : Z}.
Context (Slots : gmap string Z → KVCacheManager → Prop) (Hit : KVCacheManager → string → KVCacheBlocks → Z → Prop).
Context `{HS : !KVService (sched_max_model_len cfg) bs cap Slots Hit} `{HC : !PlainConfig cfg plug bs}.
Context `{HF : !CollisionFree (h_hash cfg) (h_none cfg)}.
Implicit Type s : Sched E.
Abbreviation sched_inv := (sched_inv cfg bs Slots).
Abbreviation mml := (sched_max_model_len cfg).

(** No request is in flight: each running one has a token to compute. *)
Definition all_ready (s : Sched E) : Prop :=
  ∀ rid r, rid ∈ running s → s_objs s !! rid = Some r → num_computed_tokens r < num_tokens r.

(** The workers answer every batch, with a token for each request whose tokens
    are all computed. *)
Definition sampler (execute : SchedulerOutput → ModelRunnerOutput) : Prop :=
  ∀ s o s', schedule cfg plug s = (Ok o, s') → runner_ok o (execute o) ∧
    ∀ rid r, rid ∈ (so_num_scheduled_tokens o).*1 → s_objs s' !! rid = Some r → num_computed_tokens r = num_tokens r →
      answer (execute o) rid ≠ [].

(** The tokens the head of [running] has computed, and a bound on the steps
    that are left. *)
Definition head_computed (s : Sched E) : Z :=
  match head (running s) ≫= (λ h, s_objs s !! h) with Some r => num_computed_tokens r | None => 0 end.
Definition work (s : Sched E) : Z := len (requests s) * mml - head_computed s.

(** A configuration in which one request always fits. *)
Record Drains : Prop := {
  dr_fcfs : policy cfg = FCFS;
  dr_room : room cfg bs cap;
  dr_chunked : enable_chunked_prefill cfg = true;
  dr_tokens : 0 < max_num_scheduled_tokens cfg;
  dr_running : 0 < max_num_running_reqs cfg;
}.

Definition steady (s : Sched E) : Prop :=
  sched_inv s ∧ all_ready s ∧ flags s = (UNPAUSED, 0).

Lemma head_bounds s : sched_inv s → 0 ≤ head_computed s ∧ (requests s ≠ [] → head_computed s < mml).
Proof.
  intros [[σ [Hg _ _ _]] _]. unfold head_computed. destruct (running s) as [|h l] eqn:Erun; cbn.
  - split; [done|]. intros Hne. destruct (requests s) as [|i l] eqn:Er; [done|].
    destruct (g_obj _ _ _ _ _ _ _ Hg i) as (r & _ & Hp); [by left|]. pose proof (pl_tokens _ _ _ _ Hp). pose proof (pl_computed _ _ _ _ Hp). lia.
  - destruct (good_running _ _ Hg h) as (r & c & -> & Hp & _); [by left|].
    pose proof (pl_tokens _ _ _ _ Hp). pose proof (pl_computed _ _ _ _ Hp). lia.
Qed.

Lemma fewer_requests s s' :
  NoDup (requests s') → (∀ i, i ∈ requests s' → i ∈ requests s) → ∀ h, h ∈ requests s → h ∉ requests s' →
  len (requests s') < len (requests s).
Proof.
  intros Hnd Hsub h Hh Hn. assert (h :: requests s' ⊆+ requests s) as Hs%submseteq_length.
  { apply NoDup_submseteq; [by constructor|]. intros i [->|Hi]%elem_of_cons; auto. }
  cbn in Hs. unfold len. lia.
Qed.

(** Waiting requests keep an unpaused engine going. *)
Lemma no_requests s : steady s → has_requests s = false → requests s = [].
Proof.
  intros ([[σ [Hg _ Hskip _]] _] & _ & [= Hun Hst]) [Hh _]%orb_false_iff. unfold has_unfinished_requests, get_num_unfinished_requests in Hh.
  rewrite Hun, Hskip, Hst in Hh. apply Z.ltb_ge in Hh. change (len []) with 0 in Hh.
  pose proof (len_nonneg (q_ids (waiting s))). pose proof (len_nonneg (running s)).
  assert (running s = [] ∧ q_ids (waiting s) = []) as [Hr Hw].
  { unfold len in *. split; apply length_zero_iff_nil; lia. }
  pose proof (g_perm _ _ _ _ _ _ _ Hg) as Hperm. rewrite Hr, Hw in Hperm. by apply Permutation_nil_l in Hperm.
Qed.

(** ** One step *)

Context (execute : SchedulerOutput → ModelRunnerOutput) (Hsample : sampler execute) (Hdr : Drains).

Lemma step_ready s o s1 s2 :
  schedule cfg plug s = (Ok o, s1) → all_ready s → (∃ σ, inv_at cfg bs Slots σ s) → schedule_effect cfg bs (cap := cap) s o s1 → output_ok o (step_budget cfg s) s1 →
  (∃ σ, inv_at cfg bs Slots σ s1) → update_effect o (execute o) s1 s2 → all_ready s2.
Proof.
  intros Hrun Hrdy [σ0 [Hg0 _ _ _]] [Hidle _ _] Ho [σ [Hg _ _ _]] [U1 U2 U3 _] rid r2 Hin Hr2. rewrite U2 in Hin. apply list_elem_of_filter in Hin as [Hreq Hin].
  destruct (good_running _ _ Hg rid Hin) as (r1 & c & Hr1 & Hp & _). destruct (U3 rid r1 Hreq Hr1) as (r & Hr & G1 & G2 & G3).
  rewrite Hr in Hr2. injection Hr2 as <-. destruct (decide (rid ∈ (so_num_scheduled_tokens o).*1)) as [Hk|Hk].
  - pose proof (pl_computed _ _ _ _ Hp) as Hc. destruct (decide (num_computed_tokens r1 = num_tokens r1)) as [He|He]; [|lia].
    specialize (G3 Hk (proj2 (Hsample s o s1 Hrun) rid r1 Hk Hr1 He)). lia.
  - destruct (Hidle rid Hin Hk) as [Hrun0 Hsame]. destruct (good_running _ _ Hg0 rid Hrun0) as (r0 & c0 & Hr0 & _).
    destruct (Hsame r0 Hr0) as (x & Hx & [= E1 E2]). rewrite Hr1 in Hx. injection Hx as <-. specialize (Hrdy rid r0 Hrun0 Hr0). lia.
Qed.

Lemma step_work s o s1 s2 :
  sched_inv s → all_ready s → flags s = (UNPAUSED, 0) → requests s ≠ [] → requests s1 = requests s → progresses cfg bs cap s o →
  schedule_effect cfg bs (cap := cap) s o s1 → output_ok o (step_budget cfg s) s1 → (∃ σ, inv_at cfg bs Slots σ s1) → sched_inv s2 →
  update_effect o (execute o) s1 s2 → work s2 < work s.
Proof.
  intros Hs Hrdy Hfl Hne Hreq1 Hprog Heff Ho [σ [Hg _ _ _]] Hs2 Hue. destruct Hdr as [Hf Hroom Hch Htk Hmr].
  pose proof Hfl as [= Hun _]. assert (ready s) as Hready.
  { intros h r Hh. apply Hrdy. destruct (running s); [done|]. injection Hh as ->. by left. }
  assert (∃ h, head (running s1) = Some h ∧ ∃ r1, s_objs s1 !! h = Some r1 ∧ head_computed s < num_computed_tokens r1) as (h & Hh & r1 & Hr1 & Hlt).
  { destruct (head (running s)) as [h|] eqn:Eh.
    - pose proof Hs as [[σ0 [Hg0 _ _ _]] _]. assert (h ∈ running s) as Hin by by apply head_in.
      destruct (good_running _ _ Hg0 h Hin) as (r0 & c0 & Hr0 & _).
      destruct (se_head _ _ _ _ _ Heff h r0) as (H1 & r1 & H2 & H3); auto; [unfold step_budget; by rewrite bool_decide_eq_false_2; [|congruence]|].
      exists h. split; [done|]. exists r1. split; [done|]. unfold head_computed. rewrite Eh. cbn. by rewrite Hr0.
    - assert (running s = []) as Hnil by by destruct (running s). assert (0 < so_total_num_scheduled_tokens o) as Ht by (apply Hprog; auto).
      destruct (so_num_scheduled_tokens o) as [|[i n] d] eqn:Eo; [rewrite (proj1 (ok_total _ _ _ Ho)), Eo in Ht; done|].
      destruct (ok_sched _ _ _ Ho i n) as (_ & Hi & _); [rewrite Eo; by left|]. destruct (running s1) as [|h l] eqn:Er; [by apply elem_of_nil in Hi|].
      exists h. split; [done|]. destruct (decide (h ∈ (so_num_scheduled_tokens o).*1)) as [Hk|Hk].
      + apply list_elem_of_fmap in Hk as ([j k] & -> & Hk). destruct (ok_sched _ _ _ Ho j k Hk) as (Hp & _ & r & Hr & Hle & _).
        exists r. split; [done|]. unfold head_computed. rewrite Eh. cbn. lia.
      + destruct (se_idle _ _ _ _ _ Heff h) as [Hx _]; [rewrite Er; by left|done|]. rewrite Hnil in Hx. by apply elem_of_nil in Hx. }
  pose proof (head_in _ _ Hh) as Hin1. assert (h ∈ requests s1) as Hreq by (apply (good_in _ _ Hg); by left).
  destruct (head_bounds s Hs) as [Hb0 Hb1]. destruct (head_bounds s2 Hs2) as [Hb2 _]. specialize (Hb1 Hne).
  pose proof Hs2 as [[σ2 [Hg2 _ _ _]] _]. unfold work. destruct (decide (h ∈ requests s2)) as [H2|H2].
  - destruct (ue_grown _ _ _ _ Hue h r1 H2 Hr1) as (r2 & Hr2 & G1 & _).
    assert (len (requests s2) ≤ len (requests s)) as Hle.
    { rewrite <-Hreq1. unfold len. apply inj_le, submseteq_length, NoDup_submseteq; [apply Hg2|]. apply (ue_requests _ _ _ _ Hue). }
    assert (head_computed s2 = num_computed_tokens r1) as ->; [|nia].
    unfold head_computed. rewrite (ue_running _ _ _ _ Hue). destruct (running s1) as [|x l]; [done|]. injection Hh as ->.
    rewrite filter_cons_True by done. cbn. rewrite Hr2. done.
  - assert (len (requests s2) < len (requests s)) as Hlt2; [|nia].
    rewrite <-Hreq1. eapply (fewer_requests s1 s2); [apply Hg2|apply (ue_requests _ _ _ _ Hue)|exact Hreq|done].
Qed.

(** Each step of an engine with requests brings it closer to the end. *)
Lemma step_drains s :
  steady s → wp (step cfg plug execute []) (λ _ s', steady s' ∧ (∀ i, i ∈ requests s' → i ∈ requests s) ∧ (requests s ≠ [] → work s' < work s)) s.
Proof.
  intros Hsteady. pose proof Hsteady as (Hs & Hrdy & Hfl). unfold step. do 2 wp_step. change (id s) with s.
  destruct (has_requests s) eqn:Eh; cbn [negb]; [|wp_step; split_and!; [done|done|]; by rewrite no_requests].
  wp_step. destruct (proj1 (wp_run _ _ _) (schedule_wp cfg plug bs Slots Hit s Hs)) as (o & s1 & Hrun & Hs1 & Ho & Hreq & Hprog & Heff).
  unfold wp at 1. rewrite Hrun. wp_step. cbn [process_aborts_queue]. do 2 wp_step.
  eapply wp_mono; [eapply (update_from_output_wp cfg plug bs Slots Hit s1 o)|]; [done|apply (Hsample s o s1 Hrun)|apply Ho| |].
  { intros rid n Hi. exact (proj1 (ok_sched _ _ _ Ho rid n Hi)). }
  intros u s2 [Hs2 Hue]. wp_step. split_and!; [split_and!| |].
  - done.
  - eapply (step_ready s o s1 s2); eauto; [apply Hs|apply Hs1].
  - rewrite (ue_flags _ _ _ _ Hue), (se_flags _ _ _ _ _ Heff). done.
  - intros i Hi. rewrite <-Hreq. by apply (ue_requests _ _ _ _ Hue).
  - intros Hne. eapply (step_work s o s1 s2); eauto. apply Hs1.
Qed.

(** ** All steps *)

Fixpoint steps (n : nat) : M (Sched E) unit :=
  match n with
  | O => ret tt
  | S n => step cfg plug execute [] ;;; steps n
  end.

Lemma work_nonneg s : sched_inv s → requests s ≠ [] → 0 < work s.
Proof.
  intros Hs Hne. destruct (head_bounds s Hs) as [_ Hb]. specialize (Hb Hne). unfold work. destruct (requests s); [done|].
  rewrite len_cons. pose proof (len_nonneg l). pose proof (proj1 (head_bounds s Hs)). nia.
Qed.

Lemma steps_drain n : ∀ s, steady s → work s ≤ Z.of_nat n → wp (steps n) (λ _ s', steady s' ∧ requests s' = []) s.
Proof.
  induction n as [|n IH]; intros s Hs Hw; cbn [steps].
  - wp_step. split; [done|]. destruct (requests s) as [|i l] eqn:Er; [done|]. pose proof (work_nonneg s (proj1 Hs)) as Hp. rewrite Er in Hp.
    specialize (Hp ltac:(done)). lia.
  - wp_step. eapply wp_mono; [by apply step_drains|]. intros _ s1 (Hs1 & Hsub & Hlt). apply IH; [done|].
    destruct (requests s) as [|i l] eqn:Er; [|specialize (Hlt ltac:(done)); lia].
    assert (requests s1 = []) as E1 by (apply elem_of_nil_inv; intros i Hi; by apply Hsub, elem_of_nil in Hi).
    unfold work. rewrite E1. change (len []) with 0. pose proof (proj1 (head_bounds s1 (proj1 Hs1))). lia.
Qed.
End drain.

(** ** The claim, for the KV-cache manager of the engine *)

Section claim.
Context {E : Type} (cfg : SchedulerConfig) (plug : Plugins E) (bs cap : Z).
Context `{HC : !PlainConfig cfg plug bs} `{HF : !CollisionFree (h_hash cfg) (h_none cfg)}.

End claim.

(** ** The claim on a concrete engine *)

Lemma one_token_each_sampler {E} cfg (plug : Plugins E) : sampler cfg plug one_token_each.
Proof.
  intros s o s' _. pose proof (one_token_each_ok o) as Hok. split; [done|]. intros rid r Hk _ _.
  destruct (ro_known _ _ Hok rid Hk) as (idx & toks & Hi & Ht & _). unfold answer. rewrite Hi. cbn.
  destruct Ht as [[Hn _]|Ht].
  - apply fmap_nil_inv in Hn. rewrite Hn in Hk. by apply elem_of_nil in Hk.
  - pose proof Ht as Hin. cbn in Ht. rewrite Ht. cbn. apply list_elem_of_lookup_2, list_elem_of_fmap in Hin as (? & -> & _). done.
Qed.

#[local] Instance small_plain_drain : PlainConfig small_cfg no_plugins 2.
Proof. by split. Qed.

