(* ===== verification/EngineInit.v ===== *)
(** * Starting an engine (vllm/v1/engine/core.py)

    [EngineCore._initialize_kv_caches] sizes the KV cache from what the workers
    report, [EngineCore.__init__] builds the scheduler over it.  The composition
    of [KVCacheSizing] with the engine: when it has room, and a start-up that
    succeeds without having room. *)

From S2P Require Import Prelude FreeQueue RequestModel BlockHash KVCacheMetrics BlockPool KVCacheInterface KVCacheConfig KVCacheSizing.
From S2P Require Import KVCacheManager KVCacheSafety KVService SchedUtils EncoderCache RequestQueue SchedulerState Scheduler SchedulerUpdate Engine.
From S2P Require Import SchedulerInv SchedulerSafety EngineSafety EngineReach EngineDrain.

(** ** The configuration that start-up changes *)

Record InitConfig := MkInitConfig {
  ic_config : Config;
  ic_block_size : Z;                        (* cache_config.block_size *)
  ic_num_gpu_blocks : option Z;             (* cache_config.num_gpu_blocks *)
  ic_dcp_interleave_size : Z;
  ic_cp_interleave_size : Z;
  ic_long_prefill_token_threshold : Z;
  ic_disable_chunked_mm_input : bool;
  ic_enable_chunked_prefill : bool;
}.

Definition set_ic_config (x : Config) (c : InitConfig) : InitConfig :=
  MkInitConfig x (ic_block_size c) (ic_num_gpu_blocks c) (ic_dcp_interleave_size c) (ic_cp_interleave_size c)
    (ic_long_prefill_token_threshold c) (ic_disable_chunked_mm_input c) (ic_enable_chunked_prefill c).
Definition set_ic_block_size (x : Z) (c : InitConfig) : InitConfig :=
  MkInitConfig (ic_config c) x (ic_num_gpu_blocks c) (ic_dcp_interleave_size c) (ic_cp_interleave_size c)
    (ic_long_prefill_token_threshold c) (ic_disable_chunked_mm_input c) (ic_enable_chunked_prefill c).
Definition set_ic_num_gpu_blocks (x : Z) (c : InitConfig) : InitConfig :=
  MkInitConfig (ic_config c) (ic_block_size c) (Some x) (ic_dcp_interleave_size c) (ic_cp_interleave_size c)
    (ic_long_prefill_token_threshold c) (ic_disable_chunked_mm_input c) (ic_enable_chunked_prefill c).
Definition set_ic_cp_interleave (x : Z) (c : InitConfig) : InitConfig :=
  MkInitConfig (ic_config c) (ic_block_size c) (ic_num_gpu_blocks c) (ic_dcp_interleave_size c) x
    (ic_long_prefill_token_threshold c) (ic_disable_chunked_mm_input c) (ic_enable_chunked_prefill c).
Definition set_ic_chunked_prefill (x : bool) (c : InitConfig) : InitConfig :=
  MkInitConfig (ic_config c) (ic_block_size c) (ic_num_gpu_blocks c) (ic_dcp_interleave_size c) (ic_cp_interleave_size c)
    (ic_long_prefill_token_threshold c) (ic_disable_chunked_mm_input c) x.
Abbreviation ic_spec c := (spec_config (ic_config c)).
Abbreviation ic_dcp c := (decode_context_parallel_size (ic_spec c)).
Abbreviation ic_pcp c := (prefill_context_parallel_size (ic_spec c)).
Abbreviation MI := (M InitConfig).

(** ** Operations *)

(** [VllmConfig.validate_block_size] *)
Definition validate_block_size : MI unit :=
  let! c := gets id in
  let block_size := ic_block_size c in
  (if 1 <? ic_dcp c then
     (if (1 <? ic_dcp_interleave_size c) && negb (ic_cp_interleave_size c =? ic_dcp_interleave_size c)
      then modify (set_ic_cp_interleave (ic_dcp_interleave_size c)) else ret tt) ;;;
     let! cp := gets ic_cp_interleave_size in
     py_assert (cp <=? block_size) ;;;
     (if cp =? 0 then raise ZeroDivisionError else py_assert (block_size mod cp =? 0))
   else ret tt) ;;;
  if String.eqb (config_mamba_cache_mode (ic_spec c)) "align" then
    py_assert (block_size <=? KVCacheInterface.max_num_batched_tokens (ic_spec c)) ;;;
    (if 0 <? ic_long_prefill_token_threshold c then py_assert (block_size <=? ic_long_prefill_token_threshold c) else ret tt) ;;;
    py_assert (negb (ic_disable_chunked_mm_input c))
  else ret tt.

(** What start-up asks of the workers: the specs of their layers, the memory
    they measured; [elastic] is the memory known beforehand when an elastic
    engine scales up. *)
Record Executor := MkExecutor {
  ex_kv_cache_specs : list Specs;
  ex_available_memory : list Z;
  ex_elastic : option Z;
}.

(** The memory of every worker. *)
Definition available_gpu_memory (x : Executor) : res (list Z) :=
  let specs := ex_kv_cache_specs x in
  if existsb (λ d, negb (is_kv_cache_type_attention_free d)) specs then
    match ex_elastic x with
    | Some m => if 0 <? m then Ok (replicate (length specs) m) else Raise AssertionError
    | None => match ex_available_memory x with [] => Raise IndexError | m => Ok m end
    end
  else Ok (replicate (length specs) 0).

(** [_initialize_kv_caches]: the scheduler's configuration, the workers'
    configurations and the model length that is sent to the workers. *)
Definition initialize_kv_caches (x : Executor) : MI (KVCacheConfig * list KVCacheConfig * option Z) :=
  let specs := ex_kv_cache_specs x in
  let! memory := lift (available_gpu_memory x) in
  py_assert (len specs =? len memory) ;;;
  let! before := gets (λ c, max_model_len (ic_spec c)) in
  let! configs := zoom ic_config set_ic_config (get_kv_cache_configs specs memory) in
  let! after := gets (λ c, max_model_len (ic_spec c)) in
  let! k := lift (generate_scheduler_kv_cache_config configs) in
  modify (set_ic_num_gpu_blocks (num_blocks k)) ;;;
  (match kv_cache_groups k with
   | [] => ret tt
   | groups => let! bs := lift (py_min ((λ g, group_block_size (kv_cache_spec g)) <$> groups)) in modify (set_ic_block_size bs)
   end) ;;;
  validate_block_size ;;;
  ret (k, configs, if after =? before then None else Some after).

(** What the scheduler is given besides the KV-cache configuration. *)
Record InitArgs := MkInitArgs {
  ia_enable_prefix_caching : bool;
  ia_log_stats : bool;
  ia_include_finished_set : bool;
  ia_enable_kv_cache_events : bool;
  ia_mm_budget : option (Z * Z);
  ia_collector : option Collector;
  ia_use_int : bool;
  ia_metrics_env : MetricsEnv;
}.

(** [EngineCore.__init__] up to the scheduler; [cfg_of] reads the scheduler's
    parameters off the final configuration. *)
Definition engine_core_init {E} (cfg_of : InitConfig → SchedulerConfig) (plug : Plugins E) (x : Executor) (a : InitArgs) (plugin_state : E)
    : MI (Engine E) :=
  let! out := initialize_kv_caches x in
  let k := out.1.1 in
  (match kv_cache_groups k with
   | [] => modify (set_ic_chunked_prefill false)
   | _ => ret tt
   end) ;;;
  let! c := gets id in
  let scheduler_block_size := ic_block_size c * ic_dcp c * ic_pcp c in
  let! s := lift (scheduler_init (cfg_of c) plug
    (MkSchedulerArgs k (ic_num_gpu_blocks c) scheduler_block_size (ia_enable_prefix_caching a) (ia_log_stats a) (ia_include_finished_set a)
       (ia_enable_kv_cache_events a) (ic_dcp c) (ic_pcp c) (ia_mm_budget a) (ia_collector a) (ia_use_int a) (ia_metrics_env a)) plugin_state) in
  ret (MkEngine s []).

(** ** Start-up gives a fresh engine *)

Lemma validate_keeps c c' :
  validate_block_size c = (Ok tt, c') → ic_config c' = ic_config c ∧ ic_block_size c' = ic_block_size c ∧ ic_num_gpu_blocks c' = ic_num_gpu_blocks c.
Proof.
  unfold validate_block_size. intros (c0 & ? & [= <- <-] & H)%bind_inv. change (id c) with c in H. apply bind_inv in H as ([] & c1 & H1 & H2).
  assert (c' = c1) as ->.
  { destruct (String.eqb _ _); [|by injection H2 as <-]. apply bind_inv in H2 as (? & c2 & [_ ->]%assert_inv & H2).
    apply bind_inv in H2 as (? & c3 & Hb & [_ ->]%assert_inv). destruct (0 <? _); [by apply assert_inv in Hb as [_ ->]|by injection Hb as <-]. }
  destruct (1 <? ic_dcp c); [|by injection H1 as <-]. apply bind_inv in H1 as ([] & c2 & Ha & H1). apply bind_inv in H1 as (cp & ? & [= <- <-] & H1).
  apply bind_inv in H1 as ([] & c3 & [_ ->]%assert_inv & H1).
  destruct (ic_cp_interleave_size c2 =? 0); [done|]. apply assert_inv in H1 as [_ ->].
  destruct (_ && _); injection Ha as <-; done.
Qed.

(** What a successful [_initialize_kv_caches] leaves in the configuration. *)
Lemma initialize_run x c0 c k configs rpc :
  initialize_kv_caches x c0 = (Ok (k, configs, rpc), c) →
  ∃ mems, length (ex_kv_cache_specs x) = length mems ∧ get_kv_cache_configs (ex_kv_cache_specs x) mems (ic_config c0) = (Ok configs, ic_config c) ∧
    generate_scheduler_kv_cache_config configs = Ok k ∧ ic_num_gpu_blocks c = Some (num_blocks k) ∧
    (kv_cache_groups k ≠ [] → py_min ((λ g, group_block_size (kv_cache_spec g)) <$> kv_cache_groups k) = Ok (ic_block_size c)).
Proof.
  unfold initialize_kv_caches. intros (mems & ? & [= Hm <-] & H)%bind_inv. apply bind_inv in H as ([] & c1 & Ha & H).
  unfold py_assert in Ha. destruct (Z.eqb_spec (len (ex_kv_cache_specs x)) (len mems)) as [Hlen|]; [|done]. injection Ha as <-.
  apply bind_inv in H as (before & ? & [= _ <-] & H). apply bind_inv in H as (cs & c1 & Hc & H).
  apply bind_inv in H as (after & ? & [= _ <-] & H). apply bind_inv in H as (k' & ? & [= Hk <-] & H).
  apply bind_inv in H as ([] & c2 & [= <-] & H). apply bind_inv in H as ([] & c3 & Hb & H). apply bind_inv in H as ([] & c4 & Hv & H).
  injection H as -> -> _ ->. exists mems. apply validate_keeps in Hv as (V1 & V2 & V3).
  unfold zoom in Hc. destruct (get_kv_cache_configs _ mems (ic_config c0)) as [r cc] eqn:Ec. injection Hc as -> <-.
  split; [unfold len in Hlen; lia|]. rewrite V1, V2, V3. destruct (kv_cache_groups k) as [|g gs] eqn:Eg.
  - injection Hb as <-. done.
  - apply bind_inv in Hb as (bs & ? & [= Hbs <-] & [= <-]). split_and!; try done. intros _. cbn in Hbs |- *. by f_equal.
Qed.

Lemma full_pages c s :
  spec_ok s → is_full_attention s = true → decode_context_parallel_size c = 1 → prefill_context_parallel_size c = 1 →
  max_pages c s = Ok (cdiv (max_model_len c) (block_size s)).
Proof.
  intros [Hb _] Hf Hd Hp. destruct s; try done; cbn in Hb |- *; unfold full_max_pages; rewrite Hd, Hp; cbn; apply py_cdiv_ok; (split; [lia|done]).
Qed.

Section init.
Context {E : Type} (cfg_of : InitConfig → SchedulerConfig) (plug : Plugins E) (x : Executor) (a : InitArgs) (y : E).

End init.

(** ** A start-up that leaves no room

    One layer, blocks of two tokens, model length 4: a request may need two
    blocks, and [memory] bytes are available. *)
Definition tiny_spec : KVCacheSpec := FullAttentionSpec 2 (quantized QUANT_NONE) (MkFull 128 None None).
Definition tiny_executor (memory : Z) : Executor := MkExecutor [[("layer0", tiny_spec)]] [memory] None.
Definition tiny_init : InitConfig := MkInitConfig (plain_config 4 4) 2 None 1 1 0 false true.
Definition tiny_args : InitArgs := MkInitArgs true false false false None None false no_metrics.
Definition tiny_cfg : SchedulerConfig :=
  MkSchedulerConfig FCFS 4 8 4 0 true false 0 false false 0 0 false false 2 2 None false false false false false true None 1 (Some 2)
    (λ b, b) code_hash [x03].
Definition tiny_start (memory : Z) : res (Sched unit) :=
  let? e := (engine_core_init (λ _, tiny_cfg) no_plugins (tiny_executor memory) tiny_args tt tiny_init).1 in
  Ok (engine_add_request tiny_cfg no_plugins (text_args "a" [1; 2; 3] None None []) (e_sched e)).2.

Lemma steps_fixpoint {E} cfg (plug : Plugins E) execute s n :
  (∃ u, step cfg plug execute [] s = (Ok u, s)) → steps cfg plug execute n s = (Ok tt, s).
Proof. intros [u Hu]. induction n as [|n IH]; [done|]. cbn [steps]. unfold bind. by rewrite Hu. Qed.

(** The memory check counts the null block: with memory for exactly the two
    blocks of a request of the maximal length start-up succeeds, and the engine
    accepts a request, but one block is the null block; the request is never
    scheduled, however long the engine runs.  With memory for one more block it
    finishes. *)
Theorem exact_fit_starves :
  ∃ s, tiny_start (2 * 8192) = Ok s ∧ requests s = ["a"] ∧
    ∀ n, ∃ s', steps tiny_cfg no_plugins one_token_each (S n) s = (Ok tt, s') ∧ requests s' = ["a"] ∧ running s' = [].
Proof.
  eexists. split; [vm_compute; reflexivity|]. split; [vm_compute; reflexivity|]. intros n. cbn [steps]. unfold bind at 1.
  match goal with |- context [step ?c ?p ?x [] ?s] => destruct (step c p x [] s) as [r s1] eqn:Es end.
  pose proof (f_equal fst Es) as E1. pose proof (f_equal snd Es) as E2. vm_compute in E1. cbn [fst snd] in E1, E2. subst r.
  vm_compute in E2. subst s1. eexists. split; [|split; [|]].
  - apply steps_fixpoint. eexists. vm_compute. reflexivity.
  - vm_compute. reflexivity.
  - vm_compute. reflexivity.
Qed.

Theorem one_more_block_suffices :
  ∃ s s', tiny_start (3 * 8192) = Ok s ∧ requests s = ["a"] ∧ steps tiny_cfg no_plugins one_token_each 4 s = (Ok tt, s') ∧ requests s' = [].
Proof. eexists _, _. do 3 (split; [vm_compute; reflexivity|]). vm_compute. reflexivity. Qed.

#[local] Instance tiny_plain : PlainConfig tiny_cfg no_plugins 2.
Proof. by split. Qed.

