(* ===== verification/Ngram.v ===== *)
(** * Drafting tokens by n-gram lookup (vllm/v1/spec_decode/ngram_proposer.py)

    The proposer looks for an earlier occurrence of the last tokens of a request
    and drafts the tokens that followed it.  The search is that of Knuth, Morris
    and Pratt on the reversed tokens, with the failure table cut at the longest
    n-gram; it is shown equal to the search it stands for. *)

From S2P Require Import Prelude.

(** ** The search *)

(** [np.empty((0,))] is the empty list.  Indices are natural numbers; an index
    outside an array raises. *)
Definition nth_res {A} (l : list A) (i : nat) : res A := match l !! i with Some x => Ok x | None => Raise IndexError end.

Record Search := MkSearch {
  lps : list nat;
  longest_ngram : nat;
  position : nat;
  prev_lps : nat;
  pos : nat;               (* [i] *)
}.

(** One round of the loop. *)
Definition search_step (max_ngram : nat) (tokens : list Z) (s : Search) : res Search :=
  let? a := nth_res tokens (prev_lps s) in
  let? b := nth_res tokens (pos s) in
  if a =? b then
    let p := S (prev_lps s) in
    let found := (longest_ngram s <=? p)%nat in
    let lps := if (pos s <? max_ngram)%nat then <[pos s := p]> (lps s) else lps s in
    let? p' := if (p =? max_ngram)%nat then nth_res lps (max_ngram - 1) else Ok p in
    Ok (MkSearch lps (if found then p else longest_ngram s) (if found then pos s else position s) p' (S (pos s)))
  else if negb (prev_lps s =? 0)%nat then
    let? p' := nth_res (lps s) (prev_lps s - 1) in
    Ok (MkSearch (lps s) (longest_ngram s) (position s) p' (pos s))
  else Ok (MkSearch (lps s) (longest_ngram s) (position s) 0 (S (pos s))).

Fixpoint search_loop (fuel max_ngram : nat) (tokens : list Z) (s : Search) : res Search :=
  if (pos s <? length tokens)%nat then
    match fuel with
    | O => Raise OutOfFuel
    | S fuel => let? s' := search_step max_ngram tokens s in search_loop fuel max_ngram tokens s'
    end
  else Ok s.

Definition search_init (max_ngram : nat) : Search := MkSearch (replicate max_ngram 0%nat) 0 0 0 1.

(** [_find_longest_matched_ngram_and_propose_tokens] *)
Definition find_longest_matched_ngram_and_propose_tokens (origin_tokens : list Z) (min_ngram max_ngram : nat) (max_model_len k : Z)
    : res (list Z) :=
  let total_token := length origin_tokens in
  if (total_token <? min_ngram)%nat then Ok []
  else
    let k := Z.min k (max_model_len - Z.of_nat total_token) in
    if k <=? 0 then Ok []
    else
      let tokens := reverse origin_tokens in
      let? s := search_loop (2 * total_token) max_ngram tokens (search_init max_ngram) in
      if (longest_ngram s <? min_ngram)%nat then Ok []
      else
        let start_position := Z.of_nat total_token - 1 - Z.of_nat (position s) + Z.of_nat (longest_ngram s) in
        let k := Z.min k (Z.of_nat total_token - start_position) in
        Ok (py_slice origin_tokens start_position (start_position + k)).

(** ** Borders: a prefix that is also a suffix *)

(** [tokens[:v]] is a suffix of [tokens[:i]]. *)
Definition border (t : list Z) (i v : nat) : Prop := (v ≤ i)%nat ∧ ∀ j, (j < v)%nat → t !! j = t !! (i - v + j)%nat.

Section borders.
Context (t : list Z).
Implicit Types i v p : nat.

Lemma border_nil i : border t i 0.
Proof. split; [lia|]. intros j Hj. lia. Qed.

Lemma border_snoc i v : border t (S i) (S v) ↔ border t i v ∧ t !! v = t !! i.
Proof.
  split.
  - intros [Hle H]. split; [split; [lia|]|].
    + intros j Hj. rewrite (H j) by lia. f_equal; lia.
    + rewrite (H v) by lia. f_equal; lia.
  - intros [[Hle H] Ht]. split; [lia|]. intros j Hj. destruct (decide (j = v)) as [->|].
    + rewrite Ht. f_equal; lia.
    + rewrite (H j) by lia. f_equal; lia.
Qed.

(** The shorter of two borders is a border of the longer one, and conversely. *)
Lemma border_nest i p v : border t i p → border t i v → (v ≤ p)%nat → border t p v.
Proof.
  intros [Hp1 Hp] [Hv1 Hv] Hle. split; [done|]. intros j Hj. rewrite (Hv j) by done. rewrite (Hp (p - v + j)%nat) by lia. f_equal; lia.
Qed.

Lemma border_comp i p v : border t i p → border t p v → border t i v.
Proof.
  intros [Hp1 Hp] [Hv1 Hv]. split; [lia|]. intros j Hj. rewrite (Hv j) by done. rewrite (Hp (p - v + j)%nat) by lia. f_equal; lia.
Qed.
End borders.

(** ** The invariant of the search *)

Section search.
Context (m : nat) (t : list Z) (Hm : (1 ≤ m)%nat) (Hn : (1 ≤ length t)%nat).

(** [v] is the longest border of [tokens[:i]] of fewer than [i] tokens. *)
Definition longest_border (i v : nat) : Prop := (v < i)%nat ∧ border t i v ∧ ∀ w, (w < i)%nat → border t i w → (w ≤ v)%nat.

(** An n-gram of [v] tokens that ends at position [j] of the reversed tokens. *)
Definition found_at (j v : nat) : Prop := (1 ≤ j)%nat ∧ (v ≤ j)%nat ∧ (v ≤ m)%nat ∧ border t (S j) v.

Record search_inv (s : Search) : Prop := {
  si_len : length (lps s) = m;
  si_pos : (1 ≤ pos s)%nat;
  si_end : (pos s ≤ length t)%nat;
  si_lps j v : (j < pos s)%nat → lps s !! j = Some v → longest_border (S j) v;
  si_zero j v : (pos s ≤ j)%nat → lps s !! j = Some v → v = 0%nat;
  si_prev : (prev_lps s < pos s)%nat ∧ (prev_lps s < m)%nat ∧ border t (pos s) (prev_lps s);
  si_longer v : (prev_lps s < v)%nat → (v < m)%nat → (v < pos s)%nat → border t (pos s) v → t !! v ≠ t !! pos s;
  si_best j v : (j < pos s)%nat → found_at j v → (v ≤ longest_ngram s)%nat ∧ (v = longest_ngram s → v ≠ 0%nat → (j ≤ position s)%nat);
  si_found : longest_ngram s ≠ 0%nat → (position s < pos s)%nat ∧ found_at (position s) (longest_ngram s);
}.

Lemma search_init_inv : search_inv (search_init m).
Proof.
  split; cbn; try lia.
  - apply length_replicate.
  - intros j v Hj [-> _]%lookup_replicate. assert (j = 0%nat) as -> by lia. split; [lia|]. split; [apply border_nil|]. intros w Hw _. lia.
  - by intros j v Hj [-> _]%lookup_replicate.
  - split; [lia|]. split; [lia|apply border_nil].
  - intros j v Hj [H _]. lia.
Qed.

(** The tokens that may extend a border of [tokens[:pos]]. *)
Lemma extension s v : search_inv s → (v ≤ m)%nat → (v ≤ pos s)%nat → border t (S (pos s)) v → (v ≤ S (prev_lps s))%nat.
Proof.
  intros Hs Hv Hp Hb. destruct v as [|v]; [lia|]. apply border_snoc in Hb as [Hb Ht].
  destruct (decide (v ≤ prev_lps s)%nat); [lia|]. exfalso. by apply (si_longer s Hs v); try lia.
Qed.

Lemma step_match s :
  search_inv s → (pos s < length t)%nat → t !! prev_lps s = t !! pos s →
  let p := S (prev_lps s) in
  let lps' := if (pos s <? m)%nat then <[pos s := p]> (lps s) else lps s in
  let found := (longest_ngram s <=? p)%nat in
  ∃ p', (if (p =? m)%nat then nth_res lps' (m - 1) else Ok p) = Ok p' ∧ (p' ≤ S (prev_lps s))%nat ∧
    search_inv (MkSearch lps' (if found then p else longest_ngram s) (if found then pos s else position s) p' (S (pos s))).
Proof.
  intros Hs Hlt Heq p lps' found. pose proof (si_prev s Hs) as (Hp1 & Hp2 & Hp3). pose proof (si_pos s Hs) as Hpos.
  assert (border t (S (pos s)) p) as Hbp by by apply border_snoc.
  assert (longest_border (S (pos s)) p ∨ (m ≤ pos s)%nat) as Hlong.
  { destruct (decide (m ≤ pos s)%nat); [by right|left]. split; [lia|]. split; [done|]. intros w Hw Hb. apply (extension s w Hs); try done; lia. }
  assert (length lps' = m) as Hlen by (unfold lps'; destruct (_ <? m)%nat; rewrite ?length_insert; apply Hs).
  assert (∀ j v, (j < S (pos s))%nat → lps' !! j = Some v → longest_border (S j) v) as Hlps.
  { intros j v Hj Hv. unfold lps' in Hv. destruct (Nat.ltb_spec (pos s) m) as [Hm'|Hm'].
    - destruct (decide (j = pos s)) as [->|Hne].
      + rewrite list_lookup_insert_eq in Hv by (rewrite (si_len s Hs); lia). injection Hv as <-. destruct Hlong; [done|lia].
      + rewrite list_lookup_insert_ne in Hv by done. apply (si_lps s Hs); [lia|done].
    - apply (si_lps s Hs); [|done]. apply lookup_lt_Some in Hv. rewrite (si_len s Hs) in Hv. lia. }
  assert (∃ p', (if (p =? m)%nat then nth_res lps' (m - 1) else Ok p) = Ok p' ∧ (p' < m)%nat ∧ (p' ≤ p)%nat ∧ border t (S (pos s)) p' ∧
    ∀ v, (p' < v)%nat → (v < m)%nat → (v < S (pos s))%nat → border t (S (pos s)) v → False) as (p' & Hrun & H1 & H2 & H3 & H4).
  { destruct (Nat.eqb_spec p m) as [Hpm|Hpm].
    - destruct (lookup_lt_is_Some_2 lps' (m - 1)) as [q Hq]; [lia|]. exists q. unfold nth_res. rewrite Hq. split; [done|].
      apply Hlps in Hq; [|lia]. replace (S (m - 1)) with m in Hq by lia. destruct Hq as (Q1 & Q2 & Q3). rewrite Hpm in Hbp.
      split_and!; [done|lia|by eapply border_comp|]. intros v V1 V2 V3 V4. specialize (Q3 v V2 (border_nest t _ m v Hbp V4 ltac:(lia))). lia.
    - exists p. split_and!; [done|lia|lia|done|]. intros v V1 V2 V3 V4. pose proof (extension s v Hs ltac:(lia) ltac:(lia) V4). lia. }
  exists p'. split; [done|]. split; [done|]. split; cbn; try done; try lia.
  - intros j v Hj Hv. unfold lps' in Hv. destruct (_ <? m)%nat; [rewrite list_lookup_insert_ne in Hv by lia|]; apply (si_zero s Hs j v); auto; lia.
  - split_and!; [lia|done|done].
  - intros v V1 V2 V3 V4. by destruct (H4 v).
  - intros j v Hj Hf. destruct (decide (j = pos s)) as [->|Hne].
    + destruct Hf as (F1 & F2 & F3 & F4). pose proof (extension s v Hs F3 F2 F4) as Hle. unfold found. destruct (Nat.leb_spec (longest_ngram s) p); lia.
    + destruct (si_best s Hs j v ltac:(lia) Hf) as [B1 B2]. unfold found. destruct (Nat.leb_spec (longest_ngram s) p); split; try lia; auto.
  - intros Hne. unfold found in *. destruct (Nat.leb_spec (longest_ngram s) p) as [Hle|Hgt].
    + split; [lia|]. split_and!; try done; lia.
    + destruct (si_found s Hs Hne). split; [lia|done].
Qed.

Lemma step_fail s p' :
  search_inv s → t !! prev_lps s ≠ t !! pos s → prev_lps s ≠ 0%nat → lps s !! (prev_lps s - 1)%nat = Some p' →
  (p' < prev_lps s)%nat ∧ search_inv (MkSearch (lps s) (longest_ngram s) (position s) p' (pos s)).
Proof.
  intros Hs Hne H0 Hp. pose proof (si_prev s Hs) as (Hp1 & Hp2 & Hp3). apply (si_lps s Hs) in Hp as (Q1 & Q2 & Q3); [|lia].
  replace (S (prev_lps s - 1)) with (prev_lps s) in * by lia. split; [done|]. split; cbn; [apply (si_len s Hs)|apply (si_pos s Hs)|apply (si_end s Hs)|apply (si_lps s Hs)|apply (si_zero s Hs)| | |apply (si_best s Hs)|apply (si_found s Hs)].
  - split_and!; [lia|lia|by eapply border_comp].
  - intros v V1 V2 V3 V4. destruct (decide (v = prev_lps s)) as [->|]; [done|]. destruct (decide (prev_lps s < v)%nat); [by apply (si_longer s Hs)|].
    specialize (Q3 v ltac:(lia) (border_nest t _ _ v Hp3 V4 ltac:(lia))). lia.
Qed.

Lemma step_skip s :
  search_inv s → (pos s < length t)%nat → t !! 0%nat ≠ t !! pos s → prev_lps s = 0%nat →
  search_inv (MkSearch (lps s) (longest_ngram s) (position s) 0 (S (pos s))).
Proof.
  intros Hs Hlt Hne H0. pose proof (si_pos s Hs) as Hpos.
  assert (∀ v, (v ≤ m)%nat → (v ≤ pos s)%nat → border t (S (pos s)) v → v = 0%nat) as Hz.
  { intros v V1 V2 V3. pose proof (extension s v Hs V1 V2 V3). destruct v as [|v]; [done|]. assert (v = 0%nat) as -> by lia.
    by apply border_snoc in V3 as [_ ?]. }
  split; cbn; [apply (si_len s Hs)|lia|lia|..].
  - intros j v Hj Hv. destruct (decide (j = pos s)) as [->|]; [|apply (si_lps s Hs); [lia|done]].
    pose proof (lookup_lt_Some _ _ _ Hv) as Hvm. rewrite (si_len s Hs) in Hvm. rewrite (si_zero s Hs (pos s) v ltac:(lia) Hv).
    split; [lia|]. split; [apply border_nil|]. intros w Hw Hb. assert (w = 0%nat) as -> by (apply Hz; [lia|lia|done]). lia.
  - intros j v Hj. apply (si_zero s Hs). lia.
  - split_and!; [lia|lia|apply border_nil].
  - intros v V1 V2 V3 V4. assert (v = 0%nat) as -> by (apply Hz; [lia|lia|done]). lia.
  - intros j v Hj Hf. destruct (decide (j = pos s)) as [->|]; [|apply (si_best s Hs); [lia|done]].
    destruct Hf as (F1 & F2 & F3 & F4). rewrite (Hz v F3 F2 F4). lia.
  - intros Hl. destruct (si_found s Hs Hl). split; [lia|done].
Qed.

(** The measure of the loop: a round advances or shortens the candidate. *)
Definition search_measure (s : Search) : nat := 2 * (length t - pos s) + prev_lps s.

Lemma search_step_ok s :
  search_inv s → (pos s < length t)%nat →
  ∃ s', search_step m t s = Ok s' ∧ search_inv s' ∧ (search_measure s' < search_measure s)%nat.
Proof.
  intros Hs Hlt. pose proof (si_prev s Hs) as (Hp1 & Hp2 & Hp3). unfold search_step, search_measure.
  destruct (lookup_lt_is_Some_2 t (prev_lps s)) as [a Ha]; [lia|]. destruct (lookup_lt_is_Some_2 t (pos s)) as [b Hb]; [lia|].
  unfold nth_res at 1 2. rewrite Ha, Hb. cbn [res_bind]. destruct (Z.eqb_spec a b) as [->|Hne].
  - destruct (step_match s Hs Hlt ltac:(congruence)) as (p' & Hrun & Hle & Hinv). rewrite Hrun. cbn [res_bind]. eexists. split; [done|]. split; [done|]. cbn. lia.
  - destruct (Nat.eqb_spec (prev_lps s) 0) as [H0|H0]; cbn [negb].
    + eexists. split; [done|]. split; [apply step_skip; try done; congruence|]. cbn. lia.
    + destruct (lookup_lt_is_Some_2 (lps s) (prev_lps s - 1)) as [p' Hp']; [rewrite (si_len s Hs); lia|]. unfold nth_res. rewrite Hp'. cbn [res_bind].
      destruct (step_fail s p' Hs ltac:(congruence) H0 Hp') as [Hlt' Hinv]. eexists. split; [done|]. split; [done|]. cbn. lia.
Qed.

Lemma search_loop_ok fuel : ∀ s, search_inv s → (search_measure s ≤ fuel)%nat → ∃ s', search_loop fuel m t s = Ok s' ∧ search_inv s' ∧ (length t ≤ pos s')%nat.
Proof.
  induction fuel as [|fuel IH]; intros s Hs Hf; cbn [search_loop]; destruct (Nat.ltb_spec (pos s) (length t)) as [Hlt|Hge].
  - unfold search_measure in Hf. lia.
  - by exists s.
  - destruct (search_step_ok s Hs Hlt) as (s' & -> & Hs' & Hm'). cbn [res_bind]. apply IH; [done|lia].
  - by exists s.
Qed.
End search.

(** ** What the proposer looks for *)

(** The last [v] tokens also occur at position [p], before the end. *)
Definition ngram_match (o : list Z) (v p : nat) : Prop :=
  (p + v < length o)%nat ∧ ∀ j, (j < v)%nat → o !! (p + j)%nat = o !! (length o - v + j)%nat.

Lemma reverse_lookup_at (o : list Z) j : (j < length o)%nat → reverse o !! j = o !! (length o - 1 - j)%nat.
Proof. intros Hj. rewrite reverse_lookup by done. f_equal. lia. Qed.

(** Reversed, such an occurrence is a border. *)
Lemma ngram_border (o : list Z) v p : (p + v < length o)%nat →
  ngram_match o v p ↔ border (reverse o) (S (length o - 1 - p)) v.
Proof.
  intros Hlt. unfold ngram_match, border. split.
  - intros [_ H]. split; [lia|]. intros j Hj. rewrite !reverse_lookup_at by lia. specialize (H (v - 1 - j)%nat ltac:(lia)).
    replace (length o - 1 - j)%nat with (length o - v + (v - 1 - j))%nat by lia. rewrite <-H. f_equal. lia.
  - intros [_ H]. split; [done|]. intros j Hj. specialize (H (v - 1 - j)%nat ltac:(lia)). rewrite !reverse_lookup_at in H by lia.
    replace (length o - v + j)%nat with (length o - 1 - (v - 1 - j))%nat by lia. rewrite H. f_equal. lia.
Qed.

Lemma found_match (o : list Z) m j v : (j < length o)%nat → found_at m (reverse o) j v →
  ngram_match o v (length o - 1 - j) ∧ (v ≤ m)%nat.
Proof.
  intros Hj (F1 & F2 & F3 & F4). split; [|done]. apply ngram_border; [lia|]. replace (length o - 1 - (length o - 1 - j))%nat with j by lia. done.
Qed.

Lemma match_found (o : list Z) m v p : (1 ≤ v)%nat → (v ≤ m)%nat → ngram_match o v p → found_at m (reverse o) (length o - 1 - p) v.
Proof.
  intros Hv Hm H. pose proof (proj1 H). split_and!; [lia|lia|done|]. by apply ngram_border.
Qed.

(** The longest n-gram of at most [m] tokens that occurs before, at its first
    occurrence. *)
Definition best_match (o : list Z) (m v p : nat) : Prop :=
  (v ≤ m)%nat ∧ ngram_match o v p ∧
  ∀ v' p', (1 ≤ v')%nat → (v' ≤ m)%nat → ngram_match o v' p' → (v' ≤ v)%nat ∧ (v' = v → (p ≤ p')%nat).

Lemma search_finds (o : list Z) m : (1 ≤ m)%nat → (1 ≤ length o)%nat →
  ∃ s, search_loop (2 * length o) m (reverse o) (search_init m) = Ok s ∧
    (longest_ngram s = 0%nat ∧ (∀ v p, (1 ≤ v)%nat → (v ≤ m)%nat → ¬ ngram_match o v p) ∨
     (1 ≤ longest_ngram s)%nat ∧ (position s < length o)%nat ∧ best_match o m (longest_ngram s) (length o - 1 - position s)).
Proof.
  intros Hm Hn. destruct (search_loop_ok m (reverse o) Hm ltac:(by rewrite length_reverse) (2 * length o) (search_init m)) as (s & Hrun & Hs & Hpos);
    [apply search_init_inv; rewrite ?length_reverse; lia|unfold search_measure; cbn; rewrite length_reverse; lia|]. rewrite length_reverse in Hpos.
  exists s. split; [done|]. destruct (decide (longest_ngram s = 0%nat)) as [Hz|Hz].
  - left. split; [done|]. intros v p Hv Hvm Hma. pose proof (proj1 Hma).
    destruct (si_best _ _ s Hs (length o - 1 - p) v ltac:(lia) (match_found o m v p Hv Hvm Hma)). lia.
  - right. destruct (si_found _ _ s Hs Hz) as [P1 P2]. split; [lia|].
    pose proof (si_end _ _ s Hs) as Hend. rewrite length_reverse in Hend. assert (position s < length o)%nat as Hlt by lia.
    split; [done|]. destruct (found_match o m (position s) (longest_ngram s) Hlt P2) as [Q1 Q2]. split_and!; [done|done|].
    intros v' p' V1 V2 V3. pose proof (proj1 V3). destruct (si_best _ _ s Hs (length o - 1 - p') v' ltac:(lia) (match_found o m v' p' V1 V2 V3)) as [B1 B2].
    split; [done|]. intros ->. specialize (B2 eq_refl ltac:(lia)). lia.
Qed.

Lemma proposal_run o min_ngram max_ngram mml k :
  (1 ≤ min_ngram)%nat → (min_ngram ≤ max_ngram)%nat →
  let kk := Z.min k (mml - len o) in
  ∃ d, find_longest_matched_ngram_and_propose_tokens o min_ngram max_ngram mml k = Ok d ∧ len d ≤ Z.max 0 kk ∧
    (d = [] ∧ (kk ≤ 0 ∨ ∀ v p, (min_ngram ≤ v ≤ max_ngram)%nat → ¬ ngram_match o v p) ∨
     0 < kk ∧ ∃ v p, (min_ngram ≤ v)%nat ∧ best_match o max_ngram v p ∧ d = take (Z.to_nat kk) (drop (p + v) o)).
Proof.
  intros Hmin Hmax kk. unfold find_longest_matched_ngram_and_propose_tokens. fold (len o). destruct (Nat.ltb_spec (length o) min_ngram) as [Hlt|Hge].
  - exists []. split; [done|]. split; [rewrite len_nil; lia|]. left. split; [done|]. right. intros v p Hv [Hp _]. lia.
  - fold kk. destruct (Z.leb_spec kk 0) as [Hk|Hk]; [exists []; split; [done|]; split; [rewrite len_nil; lia|]; left; auto|].
    destruct (search_finds o max_ngram ltac:(lia) ltac:(lia)) as (s & -> & Hcase). cbn [res_bind].
    destruct (Nat.ltb_spec (longest_ngram s) min_ngram) as [Hl|Hl].
    + exists []. split; [done|]. split; [rewrite len_nil; lia|]. left. split; [done|]. right. intros v p Hv Hm. destruct Hcase as [[_ Hno]|(_ & _ & _ & _ & Hb)].
      * by apply (Hno v p); try lia.
      * destruct (Hb v p ltac:(lia) ltac:(lia) Hm). lia.
    + destruct Hcase as [[Hz _]|(H1 & Hpos & Hbest)]; [lia|]. set (v := longest_ngram s) in *. set (p := (length o - 1 - position s)%nat) in *.
      pose proof (proj1 (proj1 (proj2 Hbest))) as Hpv.
      assert (Z.of_nat (length o) - 1 - Z.of_nat (position s) + Z.of_nat v = Z.of_nat (p + v)) as Hstart by (unfold p; lia).
      eexists. split; [reflexivity|]. fold (len o) in Hstart |- *. rewrite Hstart. rewrite py_slice_nonneg by (unfold len; lia).
      replace (Z.to_nat (Z.of_nat (p + v))) with (p + v)%nat by lia.
      assert (take (Z.to_nat (Z.of_nat (p + v) + Z.min kk (len o - Z.of_nat (p + v)) - Z.of_nat (p + v))) (drop (p + v) o) = take (Z.to_nat kk) (drop (p + v) o)) as ->.
      { destruct (Z.le_ge_cases kk (len o - Z.of_nat (p + v))); [f_equal; lia|]. rewrite !take_ge; [done|rewrite length_drop; unfold len in *; lia..]. }
      split; [unfold len; rewrite length_take; lia|]. right. split; [done|]. exists v, p. auto.
Qed.

(** C28.  The draft of a request is exact: the proposer always returns; when the
    last [v] tokens, for some [v] between the two bounds, also occur earlier, it
    returns the tokens that follow the first occurrence of the longest such
    n-gram, as many as fit into [k] and the model length; otherwise nothing. *)
Theorem ngram_proposal_exact (o : list Z) (min_ngram max_ngram : nat) (mml k : Z) :
  (1 ≤ min_ngram)%nat → (min_ngram ≤ max_ngram)%nat →
  let kk := Z.min k (mml - len o) in
  ∃ d, find_longest_matched_ngram_and_propose_tokens o min_ngram max_ngram mml k = Ok d ∧ len d ≤ Z.max 0 kk ∧
    (d = [] ∧ (kk ≤ 0 ∨ ∀ v p, (min_ngram ≤ v ≤ max_ngram)%nat → ¬ ngram_match o v p) ∨
     0 < kk ∧ ∃ v p, (min_ngram ≤ v)%nat ∧ best_match o max_ngram v p ∧ d = take (Z.to_nat kk) (drop (p + v) o)).
Proof. apply proposal_run. Qed.

Lemma ngram_proposal_exact_witness :
  let o := [5; 1; 2; 3; 9; 1; 2; 3; 8; 1; 2; 3] in
  find_longest_matched_ngram_and_propose_tokens o 2 3 100 2 = Ok [9; 1] ∧
  ∃ d, find_longest_matched_ngram_and_propose_tokens o 2 3 100 2 = Ok d ∧ len d ≤ 2.
Proof.
  split; [vm_compute; reflexivity|].
  destruct (ngram_proposal_exact [5; 1; 2; 3; 9; 1; 2; 3; 8; 1; 2; 3] 2 3 100 2 ltac:(lia) ltac:(lia)) as (d & H & Hl & _).
  exists d. split; [exact H|exact Hl].
Defined.

(** ** The proposer and its buffers *)

Record NgramProposer := MkNgramProposer {
  min_n : nat;
  max_n : nat;
  num_draft : Z;                       (* [k] *)
  ng_max_model_len : Z;
  valid_ngram_draft : list (list Z);
  valid_ngram_num_drafts : list Z;
}.
Definition set_row (i : nat) (d : list Z) (p : NgramProposer) : NgramProposer :=
  MkNgramProposer (min_n p) (max_n p) (num_draft p) (ng_max_model_len p)
    (alter (λ row, d ++ drop (length d) row) i (valid_ngram_draft p)) (<[i := len d]> (valid_ngram_num_drafts p)).

(** One request of [batch_propose_numba]; the buffers have a row per request. *)
Definition propose_one (num_tokens_no_spec : list Z) (token_ids_cpu : list (list Z)) (idx : nat) : M NgramProposer unit :=
  let! p := gets id in
  let! num_tokens := lift (nth_res num_tokens_no_spec idx) in
  let! row := lift (nth_res token_ids_cpu idx) in
  let! drafter_output :=
    lift (find_longest_matched_ngram_and_propose_tokens (py_slice_to row num_tokens) (min_n p) (max_n p) (ng_max_model_len p) (num_draft p)) in
  modify (set_row idx drafter_output).

Definition batch_propose_numba (valid : list nat) (num_tokens_no_spec : list Z) (token_ids_cpu : list (list Z)) : M NgramProposer unit :=
  for_each valid (propose_one num_tokens_no_spec token_ids_cpu).

(** The draft of request [i] as read from the buffers. *)
Definition read_draft (p : NgramProposer) (valid : list nat) (i : nat) : res (list Z) :=
  if bool_decide (i ∈ valid) then
    let? n := nth_res (valid_ngram_num_drafts p) i in
    if 0 <? n then let? row := nth_res (valid_ngram_draft p) i in Ok (py_slice_to row n) else Ok []
  else Ok [].

Definition batch_propose (num_requests : nat) (valid : list nat) (num_tokens_no_spec : list Z) (token_ids_cpu : list (list Z))
    : M NgramProposer (list (list Z)) :=
  (match valid with [] => ret tt | _ => batch_propose_numba valid num_tokens_no_spec token_ids_cpu end) ;;;
  let! p := gets id in
  lift (map_res (read_draft p valid) (seq 0 num_requests)).

(** The requests that get a draft: those that sampled a token and are shorter
    than the model length. *)
Fixpoint valid_requests (mml : Z) (num_tokens_no_spec : list Z) (i : nat) (sampled : list (list Z)) : res (list nat) :=
  match sampled with
  | [] => Ok []
  | [] :: sampled => valid_requests mml num_tokens_no_spec (S i) sampled
  | _ :: sampled =>
      let? n := nth_res num_tokens_no_spec i in
      let? rest := valid_requests mml num_tokens_no_spec (S i) sampled in
      Ok (if mml <=? n then rest else i :: rest)
  end.

Definition propose (sampled_token_ids : list (list Z)) (num_tokens_no_spec : list Z) (token_ids_cpu : list (list Z))
    : M NgramProposer (list (list Z)) :=
  let! p := gets id in
  let! valid := lift (valid_requests (ng_max_model_len p) num_tokens_no_spec 0 sampled_token_ids) in
  batch_propose (length sampled_token_ids) valid num_tokens_no_spec token_ids_cpu.

(** *** Drafts do not depend on what the buffers held *)

Lemma valid_requests_spec mml nums sampled : ∀ i, (i + length sampled ≤ length nums)%nat →
  ∃ valid, valid_requests mml nums i sampled = Ok valid ∧ NoDup valid ∧
    ∀ j, j ∈ valid ↔ (i ≤ j)%nat ∧ ∃ s n, sampled !! (j - i)%nat = Some s ∧ s ≠ [] ∧ nums !! j = Some n ∧ n < mml.
Proof.
  induction sampled as [|s sampled IH]; intros i Hlen; cbn [valid_requests length] in *.
  - exists []. split; [done|]. split; [constructor|]. intros j. rewrite elem_of_nil. naive_solver.
  - destruct (IH (S i) ltac:(lia)) as (valid & Hv & Hnd & Hspec). destruct (lookup_lt_is_Some_2 nums i) as [n Hn]; [lia|].
    assert (∀ j, (S i ≤ j)%nat → (s :: sampled) !! (j - i)%nat = sampled !! (j - S i)%nat) as Hshift.
    { intros j Hj. replace (j - i)%nat with (S (j - S i)) by lia. done. }
    assert (i ∉ valid) as Hni by (intros Hi%Hspec; lia).
    destruct s as [|z s]; [|unfold nth_res; rewrite Hn; cbn [res_bind]; rewrite Hv; cbn [res_bind]; destruct (Z.leb_spec mml n)].
    + exists valid. split; [done|]. split; [done|]. intros j. rewrite Hspec. split.
      * intros [Hj H]. split; [lia|]. by rewrite Hshift.
      * intros [Hj (s & k & Hs & Hne & H)]. destruct (decide (j = i)) as [->|]; [by rewrite Nat.sub_diag in Hs; injection Hs as <-|].
        split; [lia|]. exists s, k. rewrite <-Hshift by lia. done.
    + exists valid. split; [done|]. split; [done|]. intros j. rewrite Hspec. split.
      * intros [Hj H0]. split; [lia|]. by rewrite Hshift.
      * intros [Hj (s' & k & Hs & Hne & Hk & Hlt)]. destruct (decide (j = i)) as [->|]; [rewrite Hn in Hk; injection Hk as <-; lia|].
        split; [lia|]. exists s', k. rewrite <-Hshift by lia. done.
    + exists (i :: valid). split; [done|]. split; [by constructor|]. intros j. rewrite elem_of_cons, Hspec. split.
      * intros [->|[Hj H0]]; [split; [lia|]; exists (z :: s), n; rewrite Nat.sub_diag; done|]. split; [lia|]. by rewrite Hshift.
      * intros [Hj (s' & k & Hs & Hne & Hk & Hlt)]. destruct (decide (j = i)) as [->|]; [by left|right].
        split; [lia|]. exists s', k. rewrite <-Hshift by lia. done.
Qed.

(** The draft request [i] should get. *)
Definition reference_draft (p : NgramProposer) (nums : list Z) (toks : list (list Z)) (sampled : list (list Z)) (i : nat) : res (list Z) :=
  let? s := nth_res sampled i in
  let? n := nth_res nums i in
  let? row := nth_res toks i in
  if negb (bool_decide (s = [])) && (n <? ng_max_model_len p)
  then find_longest_matched_ngram_and_propose_tokens (py_slice_to row n) (min_n p) (max_n p) (ng_max_model_len p) (num_draft p)
  else Ok [].

Section propose.
Context (p0 : NgramProposer) (nums : list Z) (toks : list (list Z)) (sampled : list (list Z)).
Context (Hmin : (1 ≤ min_n p0)%nat) (Hmax : (min_n p0 ≤ max_n p0)%nat).
Context (Hnums : (length sampled ≤ length nums)%nat) (Htoks : (length sampled ≤ length toks)%nat).
Context (Hrows : (length sampled ≤ length (valid_ngram_draft p0))%nat) (Hcnt : (length sampled ≤ length (valid_ngram_num_drafts p0))%nat).

Abbreviation draft n row := (find_longest_matched_ngram_and_propose_tokens (py_slice_to row n) (min_n p0) (max_n p0) (ng_max_model_len p0) (num_draft p0)).

(** After the requests [done] have been served. *)
Record served (done : list nat) (p : NgramProposer) : Prop := {
  sv_same : (min_n p, max_n p, num_draft p, ng_max_model_len p) = (min_n p0, max_n p0, num_draft p0, ng_max_model_len p0);
  sv_rows : length (valid_ngram_draft p) = length (valid_ngram_draft p0);
  sv_cnt : length (valid_ngram_num_drafts p) = length (valid_ngram_num_drafts p0);
  sv_done i : i ∈ done → ∃ n row d rest, nums !! i = Some n ∧ toks !! i = Some row ∧ draft n row = Ok d ∧
    valid_ngram_num_drafts p !! i = Some (len d) ∧ valid_ngram_draft p !! i = Some (d ++ rest);
}.

Lemma propose_one_wp done i p :
  served done p → i ∉ done → (i < length sampled)%nat → wp (propose_one nums toks i) (λ _ p', served (done ++ [i]) p') p.
Proof.
  intros [S1 S2 S3 S4] Hni Hi. unfold propose_one. wp_step. wp_step. change (id p) with p. injection S1 as E1 E2 E3 E4.
  destruct (lookup_lt_is_Some_2 nums i) as [n Hn]; [lia|]. destruct (lookup_lt_is_Some_2 toks i) as [row Hrow]; [lia|].
  wp_step. eapply wp_lift; [unfold nth_res; by rewrite Hn|]. wp_step. eapply wp_lift; [unfold nth_res; by rewrite Hrow|].
  rewrite E1, E2, E3, E4. destruct (proposal_run (py_slice_to row n) (min_n p0) (max_n p0) (ng_max_model_len p0) (num_draft p0) Hmin Hmax) as (d & Hd & _).
  wp_step. eapply wp_lift; [exact Hd|]. wp_step. destruct (lookup_lt_is_Some_2 (valid_ngram_draft p) i) as [old Hold]; [lia|]. split; cbn.
  - congruence.
  - by rewrite length_alter.
  - by rewrite length_insert.
  - intros j [Hj| ->%list_elem_of_singleton]%elem_of_app.
    + assert (j ≠ i) by congruence. destruct (S4 j Hj) as (n' & row' & d' & rest & H1 & H2 & H3 & H4 & H5). exists n', row', d', rest.
      rewrite list_lookup_insert_ne, list_lookup_alter_ne by done. done.
    + exists n, row, d, (drop (length d) old). rewrite list_lookup_insert_eq by lia. rewrite list_lookup_alter_eq, Hold. done.
Qed.

Lemma read_draft_ok valid p i :
  served valid p → (i < length sampled)%nat →
  (∀ j, j ∈ valid ↔ (0 ≤ j)%nat ∧ ∃ s n, sampled !! (j - 0)%nat = Some s ∧ s ≠ [] ∧ nums !! j = Some n ∧ n < ng_max_model_len p0) →
  ∃ d, read_draft p valid i = Ok d ∧ reference_draft p0 nums toks sampled i = Ok d.
Proof.
  intros [_ _ _ Hdone] Hi Hspec. destruct (lookup_lt_is_Some_2 sampled i Hi) as [s Hs]. destruct (lookup_lt_is_Some_2 nums i) as [n Hn]; [lia|].
  destruct (lookup_lt_is_Some_2 toks i) as [row Hrow]; [lia|]. unfold reference_draft, read_draft, nth_res. rewrite Hs, Hn, Hrow. cbn [res_bind].
  destruct (decide (i ∈ valid)) as [Hin|Hout].
  - rewrite bool_decide_eq_true_2 by done. destruct (Hdone i Hin) as (n' & row' & d & rest & H1 & H2 & H3 & H4 & H5). simplify_eq.
    apply Hspec in Hin as [_ (s' & n' & Hs' & Hne & Hn' & Hlt)]. rewrite Nat.sub_0_r in Hs'. simplify_eq.
    rewrite bool_decide_eq_false_2 by done. destruct (Z.ltb_spec n (ng_max_model_len p0)); [|lia]. cbn [negb andb]. exists d. split; [|done].
    rewrite H4, H5. cbn [res_bind]. destruct (Z.ltb_spec 0 (len d)) as [Hd|Hd].
    + rewrite py_slice_to_nonneg by lia. unfold len. by rewrite Nat2Z.id, take_app_length.
    + destruct d; [done|]. rewrite len_cons in Hd. pose proof (len_nonneg d). lia.
  - rewrite bool_decide_eq_false_2 by done. exists []. split; [done|]. destruct (bool_decide_reflect (s = [])) as [|Hne]; [done|]. cbn [negb andb].
    destruct (Z.ltb_spec n (ng_max_model_len p0)); [|done]. exfalso. apply Hout, Hspec. split; [lia|]. exists s, n. rewrite Nat.sub_0_r. done.
Qed.

(** A batch of drafts: whatever the buffers of the proposer held, [propose]
    returns for each request the draft of its own tokens, or nothing when it
    sampled no token or has reached the model length. *)
Theorem propose_exact : ∃ ds p', propose sampled nums toks p0 = (Ok ds, p') ∧ length ds = length sampled ∧
  ∀ i d, ds !! i = Some d → reference_draft p0 nums toks sampled i = Ok d.
Proof.
  destruct (valid_requests_spec (ng_max_model_len p0) nums sampled 0 ltac:(lia)) as (valid & Hv & Hnd & Hspec).
  assert (wp (match valid with [] => ret tt | _ => batch_propose_numba valid nums toks end) (λ _ p, served valid p) p0) as Hloop.
  { assert (wp (batch_propose_numba valid nums toks) (λ _ p, served valid p) p0) as H; [|by destruct valid].
    apply (wp_for_each (λ done p, served done p)); [split; try done; intros i Hi; by apply elem_of_nil in Hi|].
    intros pre x post p Heq Hs. destruct (nodup_next valid pre x post Hnd Heq) as [Hx Hin]. apply propose_one_wp; auto.
    apply Hspec in Hin as [_ (s & n & Hx' & _)]. apply lookup_lt_Some in Hx'. lia. }
  destruct (proj1 (wp_run _ _ _) Hloop) as ([] & p1 & Hrun1 & Hserved).
  destruct (map_res_all (read_draft p1 valid) (λ i d, reference_draft p0 nums toks sampled i = Ok d) (seq 0 (length sampled))) as (ds & Hds & Hall).
  { intros i Hi%elem_of_seq. apply read_draft_ok; [done|lia|done]. }
  exists ds, p1. split_and!.
  - unfold propose, batch_propose. rewrite (bind_ok (gets id) _ p0 p0 p0 eq_refl). unfold bind at 1, lift at 1. rewrite Hv.
    unfold bind at 1. rewrite Hrun1. unfold bind, gets, lift, id. by rewrite Hds.
  - apply Forall2_length in Hall. by rewrite length_seq in Hall.
  - intros i d Hi. destruct (Forall2_lookup_r _ _ _ _ _ Hall Hi) as (j & [-> _]%lookup_seq & Hr). done.
Qed.
End propose.

Lemma propose_exact_witness :
  let p := MkNgramProposer 1 2 2 32 [[7; 7]; [7; 7]] [2; 2] in
  ∃ ds p', propose [[4]; []] [4; 3] [[4; 5; 6; 4; 0]; [1; 1; 1]] p = (Ok ds, p') ∧ ds = [[5; 6]; []].
Proof.
  intros p. destruct (propose_exact p [4; 3] [[4; 5; 6; 4; 0]; [1; 1; 1]] [[4]; []]) as (ds & p' & H & _); cbn; try lia.
  exists ds, p'. split; [exact H|]. apply (f_equal fst) in H. vm_compute in H. injection H as <-. reflexivity.
Defined.
