(* ===== verification/OffloadPolicy.v ===== *)
(** * Eviction policies of the CPU offload cache (vllm/v1/kv_offload/cpu/policies)

    The policies organise the offloaded blocks and choose which ones to evict:
    [LRUCachePolicy] and [ARCCachePolicy].  [CachePolicy] is the interface the
    manager uses, with what it promises; both policies are instances. *)

From Stdlib Require Import QArith.
From S2P Require Import Prelude.
#[local] Open Scope Z_scope.

(** ** Ordered dictionaries *)

Abbreviation OffloadKey := bytes.

Section odict.
Context {V : Type}.
Implicit Type d : list (OffloadKey * V).

Fixpoint od_get d (k : OffloadKey) : option V :=
  match d with
  | [] => None
  | (k', v) :: d => if decide (k' = k) then Some v else od_get d k
  end.

(** [d[k] = v]: a present key keeps its place. *)
Fixpoint od_set d (k : OffloadKey) (v : V) : list (OffloadKey * V) :=
  match d with
  | [] => [(k, v)]
  | (k', v') :: d => if decide (k' = k) then (k, v) :: d else (k', v') :: od_set d k v
  end.

Definition od_del d (k : OffloadKey) : list (OffloadKey * V) := filter (λ x, x.1 ≠ k) d.

(** [d.move_to_end(k)] for a present key. *)
Definition od_move_to_end d (k : OffloadKey) : list (OffloadKey * V) :=
  match od_get d k with Some v => od_del d k ++ [(k, v)] | None => d end.

(** Assignment to a field of the object stored under [k]. *)
Definition od_update d (k : OffloadKey) (f : V → V) : list (OffloadKey * V) :=
  (λ x, if decide (x.1 = k) then (x.1, f x.2) else x) <$> d.

Definition od_has d (k : OffloadKey) : bool := bool_decide (is_Some (od_get d k)).

(** [del d[k]] *)
Definition od_pop d (k : OffloadKey) : res (list (OffloadKey * V)) :=
  if od_has d k then Ok (od_del d k) else Raise KeyError.

(** The dictionary as a map. *)
Definition od_map d : gmap OffloadKey V := list_to_map d.

Lemma od_get_map d k : od_get d k = od_map d !! k.
Proof.
  induction d as [|[k' v] d IH]; [done|]. cbn. unfold od_map in *. cbn. destruct (decide (k' = k)) as [->|].
  - by rewrite lookup_insert_eq.
  - by rewrite lookup_insert_ne.
Qed.

Lemma od_get_in d k v : NoDup d.*1 → od_get d k = Some v ↔ (k, v) ∈ d.
Proof. intros Hnd. rewrite od_get_map. unfold od_map. symmetry. by apply elem_of_list_to_map. Qed.

Lemma od_has_in d k : od_has d k = true ↔ k ∈ d.*1.
Proof.
  unfold od_has. rewrite bool_decide_eq_true. induction d as [|[k' v] d IH]; cbn.
  - rewrite elem_of_nil. split; [by intros [? ?]|done].
  - rewrite elem_of_cons. destruct (decide (k' = k)) as [->|Hne]; [split; [by left|by eexists]|]. rewrite IH. naive_solver.
Qed.

Lemma od_get_none d k : od_get d k = None ↔ k ∉ d.*1.
Proof. rewrite <-od_has_in. unfold od_has. rewrite bool_decide_eq_true. destruct (od_get d k); naive_solver. Qed.

Lemma od_set_absent d k v : k ∉ d.*1 → od_set d k v = d ++ [(k, v)].
Proof.
  induction d as [|[k' v'] d IH]; [done|]. cbn. rewrite not_elem_of_cons. intros [Hne Hk]. rewrite decide_False by done. by rewrite IH.
Qed.

Lemma od_del_keys d k : (od_del d k).*1 = filter (λ x, x ≠ k) d.*1.
Proof.
  unfold od_del. induction d as [|[k' v] d IH]; [done|]. cbn. destruct (decide (k' = k)) as [->|Hne].
  - by rewrite decide_False, decide_False by naive_solver.
  - rewrite decide_True, decide_True by done. cbn. by f_equal.
Qed.

Lemma od_del_nodup d k : NoDup d.*1 → NoDup (od_del d k).*1.
Proof. rewrite od_del_keys. apply NoDup_filter. Qed.

Lemma od_del_in d k x : x ∈ od_del d k ↔ x ∈ d ∧ x.1 ≠ k.
Proof. unfold od_del. rewrite list_elem_of_filter. naive_solver. Qed.

Lemma od_del_cons k' v d k : od_del ((k', v) :: d) k = if decide (k' = k) then od_del d k else (k', v) :: od_del d k.
Proof. unfold od_del. destruct (decide (k' = k)) as [->|Hne]; [by rewrite filter_cons_False by naive_solver|by rewrite filter_cons_True]. Qed.

Lemma od_del_map d k : od_map (od_del d k) = delete k (od_map d).
Proof.
  unfold od_map. induction d as [|[k' v] d IH]; [symmetry; apply delete_empty|]. rewrite od_del_cons. cbn [list_to_map foldr fst snd].
  destruct (decide (k' = k)) as [->|Hne]; [rewrite IH; symmetry; apply delete_insert_eq|].
  cbn. rewrite IH. symmetry. by apply delete_insert_ne.
Qed.

Lemma od_del_absent d k : k ∉ d.*1 → od_del d k = d.
Proof. intros Hk. unfold od_del. apply filter_id. intros x Hx Heq. apply Hk, list_elem_of_fmap. exists x. by rewrite Heq. Qed.

Lemma od_map_app d d' : od_map (d ++ d') = od_map d ∪ od_map d'.
Proof. apply list_to_map_app. Qed.

Lemma od_del_perm d k v : NoDup d.*1 → od_get d k = Some v → od_del d k ++ [(k, v)] ≡ₚ d.
Proof.
  intros Hnd. induction d as [|[k' v'] d IH]; [done|]. rewrite od_del_cons. cbn [od_get]. apply NoDup_cons in Hnd as [Hk Hnd].
  destruct (decide (k' = k)) as [->|Hne].
  - intros [= ->]. rewrite od_del_absent by done. by rewrite Permutation_app_comm.
  - intros Hget. cbn. f_equiv. by apply IH.
Qed.

Lemma od_move_perm d k : NoDup d.*1 → od_move_to_end d k ≡ₚ d.
Proof. intros Hnd. unfold od_move_to_end. destruct (od_get d k) eqn:Hg; [by apply od_del_perm|done]. Qed.

Lemma od_map_perm d d' : NoDup d.*1 → d ≡ₚ d' → od_map d = od_map d'.
Proof. apply list_to_map_proper. Qed.

Lemma od_snoc_nodup d k v : NoDup d.*1 → k ∉ d.*1 → NoDup (d ++ [(k, v)]).*1.
Proof.
  intros Hnd Hk. rewrite fmap_app, NoDup_app. split; [done|]. split; [|apply NoDup_singleton].
  intros x Hx Hx'. by apply list_elem_of_singleton in Hx' as ->.
Qed.

Lemma od_snoc_map d k v : NoDup d.*1 → k ∉ d.*1 → od_map (d ++ [(k, v)]) = <[k := v]> (od_map d).
Proof. intros Hnd Hk. by rewrite (od_map_perm _ ((k, v) :: d)) by (apply od_snoc_nodup || rewrite Permutation_app_comm; done). Qed.

Lemma od_update_keys d k f : (od_update d k f).*1 = d.*1.
Proof. unfold od_update. rewrite <-list_fmap_compose. apply list_fmap_ext. intros _ x _. cbn. by destruct (decide (x.1 = k)). Qed.

Lemma od_update_map d k f : NoDup d.*1 → od_map (od_update d k f) = alter f k (od_map d).
Proof.
  unfold od_map, od_update. induction d as [|[k' v] d IH]; intros Hnd; [done|]. cbn in *. apply NoDup_cons in Hnd as [Hk Hnd].
  destruct (decide (k' = k)) as [->|Hne]; cbn.
  - rewrite IH by done. rewrite alter_insert_eq. apply map_eq. intros k'. destruct (decide (k = k')) as [->|Hne].
    + by rewrite !lookup_insert_eq.
    + by rewrite !lookup_insert_ne, lookup_alter_ne by done.
  - rewrite IH by done. by rewrite alter_insert_ne.
Qed.

Lemma od_map_filter d (ks : list OffloadKey) : od_map (filter (λ x, x.1 ∉ ks) d) = filter (λ x, x.1 ∉ ks) (od_map d).
Proof.
  unfold od_map. induction d as [|[k v] d IH]; [done|]. cbn [list_to_map foldr]. destruct (decide (k ∈ ks)) as [Hk|Hk].
  - rewrite filter_cons_False, IH by naive_solver. cbn. rewrite map_filter_insert_False by naive_solver. rewrite map_filter_delete.
    rewrite delete_id; [done|]. apply map_lookup_filter_None. right. naive_solver.
  - rewrite filter_cons_True by done. cbn. rewrite IH. symmetry. by apply map_filter_insert_True.
Qed.

Lemma od_pops d (ks : list OffloadKey) : NoDup ks → (∀ k, k ∈ ks → k ∈ d.*1) →
  foldl (λ r k, let? d := r in od_pop d k) (Ok d) ks = Ok (filter (λ x, x.1 ∉ ks) d).
Proof.
  revert d. induction ks as [|k ks IH]; intros d Hnd Hin; cbn [foldl].
  - f_equal. symmetry. apply filter_id. intros x _. apply not_elem_of_nil.
  - apply NoDup_cons in Hnd as [Hk Hnd]. cbn. unfold od_pop. rewrite (proj2 (od_has_in d k)) by (apply Hin; left).
    rewrite IH; [|done|].
    + f_equal. unfold od_del. rewrite list_filter_filter. apply list_filter_iff. intros x. rewrite not_elem_of_cons. naive_solver.
    + intros k' Hk'. rewrite od_del_keys. apply list_elem_of_filter. split; [by intros ->|]. apply Hin. by right.
Qed.
End odict.

(** ** Blocks *)

(** [ctypes] integers wrap. *)
Definition wrap32 (z : Z) : Z := (z + 2 ^ 31) mod 2 ^ 32 - 2 ^ 31.
Definition wrap64 (z : Z) : Z := (z + 2 ^ 63) mod 2 ^ 64 - 2 ^ 63.

Record BlockStatus := MkStatus { ref_cnt : Z; block_id : Z }.

#[global] Instance BlockStatus_eq_dec : EqDecision BlockStatus.
Proof. solve_decision. Defined.

(** [BlockStatus(block_id)] *)
Definition new_status (block_id : Z) : BlockStatus := MkStatus (wrap32 (-1)) (wrap64 block_id).

Definition is_ready (b : BlockStatus) : bool := 0 <=? ref_cnt b.

(** [block.ref_cnt = f(block.ref_cnt)] *)
Definition set_ref (f : Z → Z) (b : BlockStatus) : BlockStatus := MkStatus (wrap32 (f (ref_cnt b))) (block_id b).

Lemma wrap32_small z : - 2 ^ 31 ≤ z < 2 ^ 31 → wrap32 z = z.
Proof. intros Hz. unfold wrap32. rewrite Z.mod_small; lia. Qed.

Lemma wrap64_small z : - 2 ^ 63 ≤ z < 2 ^ 63 → wrap64 z = z.
Proof. intros Hz. unfold wrap64. rewrite Z.mod_small; lia. Qed.

(** ** The interface *)

(** [CachePolicy]: the operations.  [pol_update] is an assignment to a field of a
    block the policy holds (the manager writes [ref_cnt] of the object [get]
    returned).  A failed eviction changes no state. *)
Class CachePolicy (P : Type) := {
  pol_init : Z → P;
  pol_get : P → OffloadKey → option BlockStatus;
  pol_insert : P → OffloadKey → BlockStatus → P;
  pol_remove : P → OffloadKey → res P;
  pol_touch : P → list OffloadKey → P;
  pol_evict : P → Z → gset OffloadKey → res (option (list (OffloadKey * BlockStatus) * P));
  pol_update : P → OffloadKey → (BlockStatus → BlockStatus) → P;
}.

(** A block that may be evicted. *)
Definition evictable (protected : gset OffloadKey) (x : OffloadKey * BlockStatus) : Prop :=
  ref_cnt x.2 = 0 ∧ x.1 ∉ protected.

#[global] Instance evictable_dec protected x : Decision (evictable protected x).
Proof. unfold evictable. apply _. Defined.

(** What an eviction of [n] blocks gives: [n] different evictable blocks of the
    cache, which are no longer in it, and nothing else changed. *)
Record evicted (m : gmap OffloadKey BlockStatus) (n : Z) (protected : gset OffloadKey) (l : list (OffloadKey * BlockStatus))
    (m' : gmap OffloadKey BlockStatus) : Prop := {
  ev_len : len l = n;
  ev_nodup : NoDup l.*1;
  ev_in : ∀ k b, (k, b) ∈ l → m !! k = Some b ∧ ref_cnt b = 0 ∧ k ∉ protected;
  ev_map : ∀ k, m' !! k = if decide (k ∈ l.*1) then None else m !! k;
}.

(** What a policy promises, of the map from keys to blocks it stands for. *)
Class CachePolicySpec (P : Type) `{CachePolicy P} := {
  pol_wf : P → Prop;
  pol_map : P → gmap OffloadKey BlockStatus;
  pol_init_ok c : 0 ≤ c ≤ 2 ^ 53 → pol_wf (pol_init c) ∧ pol_map (pol_init c) = ∅;
  pol_get_ok p k : pol_wf p → pol_get p k = pol_map p !! k;
  pol_insert_ok p k b : pol_wf p → pol_map p !! k = None →
    pol_wf (pol_insert p k b) ∧ pol_map (pol_insert p k b) = <[k := b]> (pol_map p);
  pol_remove_ok p k : pol_wf p → is_Some (pol_map p !! k) →
    ∃ p', pol_remove p k = Ok p' ∧ pol_wf p' ∧ pol_map p' = delete k (pol_map p);
  pol_touch_ok p ks : pol_wf p → pol_wf (pol_touch p ks) ∧ pol_map (pol_touch p ks) = pol_map p;
  pol_update_ok p k f : pol_wf p → pol_wf (pol_update p k f) ∧ pol_map (pol_update p k f) = alter f k (pol_map p);
  pol_evict_ok p n protected : pol_wf p → 0 < n →
    ∃ o, pol_evict p n protected = Ok o ∧
    ∀ l p', o = Some (l, p') → pol_wf p' ∧ evicted (pol_map p) n protected l (pol_map p');
}.

(** ** Least recently used *)

Abbreviation LRUCachePolicy := (list (OffloadKey * BlockStatus)).

(** The loop over [self.blocks.items()]. *)
Fixpoint lru_candidates (items : list (OffloadKey * BlockStatus)) (n : Z) (protected : gset OffloadKey)
    (acc : list (OffloadKey * BlockStatus)) : list (OffloadKey * BlockStatus) :=
  match items with
  | [] => acc
  | x :: items =>
      if decide (evictable protected x) then
        let acc := acc ++ [x] in
        if len acc =? n then acc else lru_candidates items n protected acc
      else lru_candidates items n protected acc
  end.

Definition lru_get (blocks : LRUCachePolicy) (key : OffloadKey) : option BlockStatus := od_get blocks key.

Definition lru_insert (blocks : LRUCachePolicy) (key : OffloadKey) (block : BlockStatus) : LRUCachePolicy := od_set blocks key block.

Definition lru_remove (blocks : LRUCachePolicy) (key : OffloadKey) : res LRUCachePolicy := od_pop blocks key.

Definition lru_touch (blocks : LRUCachePolicy) (keys : list OffloadKey) : LRUCachePolicy :=
  foldl (λ blocks key, if od_has blocks key then od_move_to_end blocks key else blocks) blocks (reverse keys).

Definition lru_evict (blocks : LRUCachePolicy) (n : Z) (protected : gset OffloadKey)
    : res (option (list (OffloadKey * BlockStatus) * LRUCachePolicy)) :=
  if n =? 0 then Ok (Some ([], blocks))
  else
    let candidates := lru_candidates blocks n protected [] in
    if len candidates <? n then Ok None
    else
      let? blocks := foldl (λ r key, let? blocks := r in od_pop blocks key) (Ok blocks) candidates.*1 in
      Ok (Some (candidates, blocks)).

#[global] Instance LRU_policy : CachePolicy LRUCachePolicy := {|
  pol_init := λ _, [];
  pol_get := lru_get;
  pol_insert := lru_insert;
  pol_remove := lru_remove;
  pol_touch := lru_touch;
  pol_evict := lru_evict;
  pol_update := od_update;
|}.

Section lru_lemmas.
Implicit Type blocks : LRUCachePolicy.

Lemma candidates_take items n protected acc : len acc < n →
  lru_candidates items n protected acc = acc ++ take (Z.to_nat (n - len acc)) (filter (evictable protected) items).
Proof.
  revert acc. induction items as [|x items IH]; intros acc Hn; cbn [lru_candidates].
  - rewrite filter_nil, take_nil. by rewrite app_nil_r.
  - destruct (decide (evictable protected x)).
    + rewrite filter_cons_True by done. replace (Z.to_nat (n - len acc)) with (S (Z.to_nat (n - len (acc ++ [x])))) by (rewrite len_app, len_cons, len_nil; lia).
      cbn [take]. destruct (Z.eqb_spec (len (acc ++ [x])) n) as [Hl|Hl].
      * rewrite Hl, Z.sub_diag. cbn. by rewrite take_0.
      * rewrite IH by (rewrite len_app, len_cons, len_nil in *; lia). by rewrite <-app_assoc.
    + rewrite filter_cons_False by done. by apply IH.
Qed.

Lemma filter_keys {V} (P : OffloadKey * V → Prop) `{!∀ x, Decision (P x)} (d : list (OffloadKey * V)) : NoDup d.*1 → NoDup (filter P d).*1.
Proof. intros Hnd. eapply sublist_NoDup; [exact Hnd|]. apply fmap_sublist, sublist_filter. Qed.

Lemma lru_evict_eq blocks n protected : NoDup blocks.*1 → 0 < n →
  lru_evict blocks n protected =
    Ok (let can := filter (evictable protected) blocks in
        if len can <? n then None
        else Some (take (Z.to_nat n) can, filter (λ x, x.1 ∉ (take (Z.to_nat n) can).*1) blocks)).
Proof.
  intros Hnd Hn. unfold lru_evict. rewrite (proj2 (Z.eqb_neq n 0)) by lia. rewrite candidates_take by (rewrite len_nil; lia).
  rewrite len_nil, Z.sub_0_r, app_nil_l. cbn zeta. set (can := filter (evictable protected) blocks).
  assert (Hlen : len (take (Z.to_nat n) can) = Z.min n (len can)) by (unfold len; rewrite length_take; lia).
  rewrite Hlen. destruct (Z.ltb_spec (len can) n); [by rewrite (proj2 (Z.ltb_lt _ _)) by lia|]. rewrite (proj2 (Z.ltb_ge _ _)) by lia.
  rewrite od_pops; [done| |].
  - rewrite fmap_take. by apply nodup_take_drop, filter_keys.
  - intros k Hk. rewrite fmap_take in Hk. apply take_sub, list_elem_of_fmap in Hk as (x & -> & Hx).
    apply list_elem_of_fmap_2. by apply list_elem_of_filter in Hx as [_ ?].
Qed.

Lemma evicted_filter blocks protected l :
  NoDup blocks.*1 → NoDup l.*1 → (∀ x, x ∈ l → x ∈ blocks ∧ evictable protected x) →
  evicted (od_map blocks) (len l) protected l (od_map (filter (λ x, x.1 ∉ l.*1) blocks)).
Proof.
  intros Hnd Hl Hin. split; [done|done| |].
  - intros k b Hx. destruct (Hin _ Hx) as [Hb [Href Hp]]. rewrite <-od_get_map. by rewrite od_get_in.
  - intros k. rewrite od_map_filter, map_lookup_filter. destruct (od_map blocks !! k); cbn; [|by case_decide].
    destruct (decide (k ∈ l.*1)); [by rewrite option_guard_False by naive_solver|by rewrite option_guard_True].
Qed.

Lemma lru_touch_perm blocks ks : NoDup blocks.*1 → lru_touch blocks ks ≡ₚ blocks.
Proof.
  unfold lru_touch. generalize (reverse ks). clear ks. intros ks. revert blocks.
  induction ks as [|k ks IH]; intros blocks Hnd; cbn [foldl]; [done|]. destruct (od_has blocks k); [|by apply IH].
  pose proof (od_move_perm blocks k Hnd) as Hp. rewrite IH; [done|]. by rewrite Hp.
Qed.
End lru_lemmas.

#[global] Program Instance LRU_spec : CachePolicySpec LRUCachePolicy := {|
  pol_wf := λ blocks, NoDup blocks.*1;
  pol_map := od_map;
|}.
Next Obligation. intros c _. split; [apply NoDup_nil_2|done]. Qed.
Next Obligation. intros. apply od_get_map. Qed.
Next Obligation.
  intros blocks k b Hnd Hk. rewrite <-od_get_map, od_get_none in Hk. cbn. unfold lru_insert. rewrite od_set_absent by done.
  split; [by apply od_snoc_nodup|by apply od_snoc_map].
Qed.
Next Obligation.
  intros blocks k Hnd Hk. cbn. unfold lru_remove, od_pop. exists (od_del blocks k).
  unfold od_has. rewrite od_get_map, bool_decide_true by done. split_and!; [done|by apply od_del_nodup|apply od_del_map].
Qed.
Next Obligation.
  intros blocks ks Hnd. cbn. pose proof (lru_touch_perm blocks ks Hnd) as Hp. split; [by rewrite Hp|]. symmetry. by apply od_map_perm.
Qed.
Next Obligation. intros blocks k f Hnd. cbn. rewrite od_update_keys. split; [done|by apply od_update_map]. Qed.
Next Obligation.
  intros blocks n protected Hnd Hn. cbn. rewrite lru_evict_eq by done. eexists. split; [done|]. cbn zeta. intros l p' Heq.
  set (can := filter (evictable protected) blocks) in *. destruct (Z.ltb_spec (len can) n); [done|]. injection Heq as <- <-.
  split; [by apply filter_keys|]. replace n with (len (take (Z.to_nat n) can)) at 1 by (unfold len in *; rewrite length_take; lia).
  apply evicted_filter; [done|rewrite fmap_take; by apply nodup_take_drop, filter_keys|].
  intros x Hx. apply take_sub, list_elem_of_filter in Hx as [? ?]. done.
Qed.

(** ** Adaptive replacement *)

(** A [float] is the rational number it stands for; an operation is the exact one
    followed by [fl], rounding to 53 bits, ties to even.  The numbers here are
    block counts and their quotients, so no operation overflows or underflows. *)
Definition round_even (n d : Z) : Z :=
  let q := n / d in
  match 2 * (n mod d) ?= d with
  | Lt => q
  | Gt => q + 1
  | Eq => if Z.even q then q else q + 1
  end.

(** The exponent of the last bit of a positive [n/d]. *)
Definition fl_exp (n d : Z) : Z :=
  let e := Z.log2 n - Z.log2 d in
  (if d * 2 ^ Z.max 0 e <=? n * 2 ^ Z.max 0 (- e) then e else e - 1) - 52.

Definition fl_pos (n d : Z) : Q :=
  let e := fl_exp n d in
  if 0 <=? e then inject_Z (round_even n (d * 2 ^ e) * 2 ^ e) else Qred (round_even (n * 2 ^ (- e)) d # Z.to_pos (2 ^ (- e))).

Definition fl (x : Q) : Q :=
  match Qnum x with
  | Z0 => 0#1
  | Zpos n => fl_pos (Zpos n) (Zpos (Qden x))
  | Zneg n => - fl_pos (Zpos n) (Zpos (Qden x))
  end%Q.

(** [int(x)], [min(a, b)], [max(a, b)], [m / n] *)
Definition py_int (x : Q) : Z := Z.quot (Qnum x) (Zpos (Qden x)).
Definition q_min (a b : Q) : Q := if Qle_bool a b then a else b.
Definition q_max (a b : Q) : Q := if Qle_bool b a then a else b.
Definition truediv (m n : Z) : Q := fl (m # Z.to_pos n).

Record ARCCachePolicy := MkARC {
  cache_capacity : Z;
  target_t1_size : Q;
  t1 : list (OffloadKey * BlockStatus);
  t2 : list (OffloadKey * BlockStatus);
  b1 : list (OffloadKey * unit);
  b2 : list (OffloadKey * unit);
}.

Definition arc_set_t1 (p : ARCCachePolicy) d := MkARC (cache_capacity p) (target_t1_size p) d (t2 p) (b1 p) (b2 p).
Definition arc_set_t2 (p : ARCCachePolicy) d := MkARC (cache_capacity p) (target_t1_size p) (t1 p) d (b1 p) (b2 p).
Definition arc_set_ghosts (p : ARCCachePolicy) d d' := MkARC (cache_capacity p) (target_t1_size p) (t1 p) (t2 p) d d'.
Definition arc_set_target (p : ARCCachePolicy) x := MkARC (cache_capacity p) x (t1 p) (t2 p) (b1 p) (b2 p).

Definition arc_init (cache_capacity : Z) : ARCCachePolicy := MkARC cache_capacity 0 [] [] [] [].

Definition arc_get (p : ARCCachePolicy) (key : OffloadKey) : option BlockStatus :=
  match od_get (t1 p) key with Some b => Some b | None => od_get (t2 p) key end.

Definition arc_insert (p : ARCCachePolicy) (key : OffloadKey) (block : BlockStatus) : ARCCachePolicy :=
  arc_set_ghosts (arc_set_t1 p (od_set (t1 p) key block)) (od_del (b1 p) key) (od_del (b2 p) key).

Definition arc_remove (p : ARCCachePolicy) (key : OffloadKey) : ARCCachePolicy :=
  if od_has (t1 p) key then arc_set_t1 p (od_del (t1 p) key) else arc_set_t2 p (od_del (t2 p) key).

(** One key of [touch]. *)
Definition arc_touch_one (p : ARCCachePolicy) (key : OffloadKey) : ARCCachePolicy :=
  match od_get (t1 p) key with
  | Some block =>
      let p := arc_set_t1 p (od_del (t1 p) key) in
      if negb (is_ready block) then arc_set_t1 p (od_set (t1 p) key block) else arc_set_t2 p (od_set (t2 p) key block)
  | None =>
      if od_has (t2 p) key then arc_set_t2 p (od_move_to_end (t2 p) key)
      else if od_has (b1 p) key then
        let delta := q_max 1 (truediv (len (b2 p)) (len (b1 p))) in
        let p := arc_set_target p (q_min (fl (target_t1_size p + delta)) (inject_Z (cache_capacity p))) in
        arc_set_ghosts p (od_move_to_end (b1 p) key) (b2 p)
      else if od_has (b2 p) key then
        let delta := q_max 1 (truediv (len (b1 p)) (len (b2 p))) in
        let p := arc_set_target p (q_max (fl (target_t1_size p - delta)) 0) in
        arc_set_ghosts p (b1 p) (od_move_to_end (b2 p) key)
      else p
  end.

Definition arc_touch (p : ARCCachePolicy) (keys : list OffloadKey) : ARCCachePolicy := foldl arc_touch_one p (reverse keys).

(** The first block of [items] that may be evicted and was not selected yet. *)
Definition arc_candidate (items : list (OffloadKey * BlockStatus)) (protected : gset OffloadKey) (already_selected : list OffloadKey)
    : option (OffloadKey * BlockStatus) :=
  head (filter (λ x, evictable protected x ∧ x.1 ∉ already_selected) items).

(** The [for _ in range(n)] loop; a candidate carries [from_t1]. *)
Fixpoint arc_select (n : nat) (p : ARCCachePolicy) (protected : gset OffloadKey) (virtual_t1_size : Z)
    (candidates : list (OffloadKey * BlockStatus * bool)) : option (list (OffloadKey * BlockStatus * bool)) :=
  match n with
  | O => Some candidates
  | S n =>
      let already_selected := (candidates.*1).*1 in
      match
        (if py_int (target_t1_size p) <=? virtual_t1_size then arc_candidate (t1 p) protected already_selected else None)
      with
      | Some x => arc_select n p protected (virtual_t1_size - 1) (candidates ++ [(x, true)])
      | None =>
          match arc_candidate (t2 p) protected already_selected with
          | Some x => arc_select n p protected virtual_t1_size (candidates ++ [(x, false)])
          | None => None
          end
      end
  end.

(** One round of the loop that applies the evictions. *)
Definition arc_apply_one (p : ARCCachePolicy) (c : OffloadKey * BlockStatus * bool) : res ARCCachePolicy :=
  let '(key, block, from_t1) := c in
  if from_t1 : bool then
    let? d := od_pop (t1 p) key in
    Ok (arc_set_ghosts (arc_set_t1 p d) (od_set (b1 p) key tt) (b2 p))
  else
    let? d := od_pop (t2 p) key in
    Ok (arc_set_ghosts (arc_set_t2 p d) (b1 p) (od_set (b2 p) key tt)).

(** [for _ in range(n): ghost.popitem(last=False)] *)
Fixpoint arc_popitems (n : nat) (ghost : list (OffloadKey * unit)) : res (list (OffloadKey * unit)) :=
  match n with
  | O => Ok ghost
  | S n => match ghost with [] => Raise KeyError | _ :: ghost => arc_popitems n ghost end
  end.

Definition arc_trim (p : ARCCachePolicy) : res ARCCachePolicy :=
  let? d1 := arc_popitems (Z.to_nat (len (b1 p) - cache_capacity p)) (b1 p) in
  let? d2 := arc_popitems (Z.to_nat (len (b2 p) - cache_capacity p)) (b2 p) in
  Ok (arc_set_ghosts p d1 d2).

Definition arc_evict (p : ARCCachePolicy) (n : Z) (protected : gset OffloadKey)
    : res (option (list (OffloadKey * BlockStatus) * ARCCachePolicy)) :=
  if n =? 0 then Ok (Some ([], p))
  else
    match arc_select (Z.to_nat n) p protected (len (t1 p)) [] with
    | None => Ok None
    | Some candidates =>
        let? p := foldl (λ r c, let? p := r in arc_apply_one p c) (Ok p) candidates in
        let? p := arc_trim p in
        Ok (Some (candidates.*1, p))
    end.

(** Assignment to a field of a block of either list. *)
Definition arc_update (p : ARCCachePolicy) (key : OffloadKey) (f : BlockStatus → BlockStatus) : ARCCachePolicy :=
  arc_set_t2 (arc_set_t1 p (od_update (t1 p) key f)) (od_update (t2 p) key f).

#[global] Instance ARC_policy : CachePolicy ARCCachePolicy := {|
  pol_init := arc_init;
  pol_get := arc_get;
  pol_insert := arc_insert;
  pol_remove := λ p k, Ok (arc_remove p k);
  pol_touch := arc_touch;
  pol_evict := arc_evict;
  pol_update := arc_update;
|}.

(** *** The target *)

Section target.
#[local] Open Scope Q_scope.

Lemma round_even_err n d : (0 < d)%Z → (2 * Z.abs (round_even n d * d - n) ≤ d)%Z.
Proof.
  intros Hd. unfold round_even. pose proof (Z.div_mod n d ltac:(lia)) as Heq. pose proof (Z.mod_pos_bound n d Hd) as Hr.
  destruct (Z.compare_spec (2 * (n mod d))%Z d); [destruct (Z.even (n / d))|..]; nia.
Qed.

Lemma round_even_nonneg n d : (0 < d → 0 ≤ n → 0 ≤ round_even n d)%Z.
Proof. intros Hd Hn. pose proof (Z.div_pos n d Hn Hd). unfold round_even. destruct (_ ?= _)%Z; [destruct (Z.even _)|..]; lia. Qed.

Lemma fl_pos_nonneg n d : (0 < d)%Z → (0 < n)%Z → 0 <= fl_pos n d.
Proof.
  intros Hd Hn. unfold fl_pos. destruct (Z.leb_spec 0 (fl_exp n d)).
  - unfold inject_Z, Qle. cbn. pose proof (round_even_nonneg n (d * 2 ^ fl_exp n d) ltac:(nia) ltac:(lia)). nia.
  - rewrite Qred_correct. unfold Qle. cbn. pose proof (round_even_nonneg (n * 2 ^ (- fl_exp n d)) d Hd ltac:(nia)). nia.
Qed.

Lemma fl_exp_small n d : (0 < n → 0 < d → n < 2 ^ 53 * d → fl_exp n d ≤ 0)%Z.
Proof.
  intros Hn Hd Hlt. unfold fl_exp. set (e := (Z.log2 n - Z.log2 d)%Z).
  destruct (Z.le_gt_cases e 52); [destruct (_ <=? _)%Z; lia|]. rewrite (Z.max_r 0 e), (Z.max_l 0 (- e)) by lia.
  destruct (Z.log2_spec n Hn) as [Hn1 _], (Z.log2_spec d Hd) as [_ Hd2].
  assert (2 ^ Z.log2 n = 2 ^ (e - 1) * 2 ^ Z.succ (Z.log2 d))%Z as Heq.
  { rewrite <-Z.pow_add_r by (pose proof (Z.log2_nonneg d); lia). f_equal. lia. }
  assert (2 ^ (e - 1) < 2 ^ 53)%Z as He by nia. apply Z.pow_lt_mono_r_iff in He; [|lia..].
  destruct (Z.leb_spec (d * 2 ^ e) (n * 2 ^ 0)); [|lia]. assert (2 ^ e < 2 ^ 53)%Z as He' by nia.
  apply Z.pow_lt_mono_r_iff in He'; lia.
Qed.

(** Rounding a number below [2^53] moves it by at most one half. *)
Lemma fl_pos_near n d : (0 < n)%Z → (n < 2 ^ 53 * Zpos d)%Z → fl_pos n (Zpos d) <= (n # d) + (1 # 2).
Proof.
  intros Hn Hlt. pose proof (fl_exp_small n (Zpos d) Hn ltac:(lia) Hlt) as He. unfold fl_pos. destruct (Z.leb_spec 0 (fl_exp n (Zpos d))).
  - replace (fl_exp n (Z.pos d)) with 0%Z by lia. rewrite !Z.pow_0_r, !Z.mul_1_r.
    pose proof (round_even_err n (Zpos d) ltac:(lia)). unfold Qle, Qplus, inject_Z. cbn. nia.
  - rewrite Qred_correct. set (k := (2 ^ (- fl_exp n (Z.pos d)))%Z). assert (1 ≤ k)%Z by (unfold k; pose proof (Z.pow_pos_nonneg 2 (- fl_exp n (Z.pos d))); lia).
    pose proof (round_even_err (n * k) (Zpos d) ltac:(lia)). unfold Qle, Qplus. cbn [Qnum Qden]. rewrite !Pos2Z.inj_mul, Z2Pos.id by lia. nia.
Qed.

Lemma fl_nonneg x : 0 <= x → 0 <= fl x.
Proof. destruct x as [[|n|n] d]; unfold Qle, fl; cbn -[fl_pos]; intros; [lia|by apply fl_pos_nonneg|lia]. Qed.

Lemma fl_below x (c : Z) : x <= inject_Z c - 1 → (0 ≤ c ≤ 2 ^ 53)%Z → fl x <= inject_Z c.
Proof.
  intros Hx Hc. destruct x as [[|n|n] d]; unfold fl; cbn [Qnum Qden].
  - unfold Qle. cbn. lia.
  - assert (Z.pos n < 2 ^ 53 * Z.pos d)%Z by (unfold Qle, Qminus, Qplus, inject_Z in Hx; cbn in Hx; nia).
    pose proof (fl_pos_near (Zpos n) d ltac:(lia) ltac:(lia)) as Hf. eapply Qle_trans; [exact Hf|].
    unfold Qle, Qminus, Qplus, inject_Z in *. cbn in *. nia.
  - pose proof (fl_pos_nonneg (Zpos n) (Zpos d) ltac:(lia) ltac:(lia)) as Hf. apply Qle_trans with 0; [|unfold Qle; cbn; lia].
    apply (Qopp_le_compat 0). exact Hf.
Qed.

Lemma q_min_le a b : q_min a b <= b ∧ q_min a b <= a.
Proof.
  unfold q_min. destruct (Qle_bool a b) eqn:Hab; [apply Qle_bool_iff in Hab; split; [done|apply Qle_refl]|].
  split; [apply Qle_refl|]. destruct (Qlt_le_dec b a) as [Hlt|Hle]; [by apply Qlt_le_weak|]. apply Qle_bool_iff in Hle. congruence.
Qed.

Lemma q_max_cases a b : (q_max a b = a ∨ q_max a b = b) ∧ a <= q_max a b ∧ b <= q_max a b.
Proof.
  unfold q_max. destruct (Qle_bool b a) eqn:Hab; [apply Qle_bool_iff in Hab; split_and!; [by left|apply Qle_refl|done]|].
  split_and!; [by right| |apply Qle_refl]. destruct (Qlt_le_dec a b) as [Hlt|Hle]; [by apply Qlt_le_weak|]. apply Qle_bool_iff in Hle. congruence.
Qed.

Lemma target_up t d (c : Z) : 0 <= t → (0 ≤ c)%Z → 0 <= q_min (fl (t + q_max 1 d)) (inject_Z c) ∧ q_min (fl (t + q_max 1 d)) (inject_Z c) <= inject_Z c.
Proof.
  intros Ht Hc. split; [|apply q_min_le]. unfold q_min. destruct (Qle_bool _ _); [|unfold Qle; cbn; lia]. apply fl_nonneg.
  destruct (q_max_cases 1 d) as (_ & Hd & _). apply Qle_trans with (0 + 0); [apply Qle_refl|].
  apply Qplus_le_compat; [done|]. by apply Qle_trans with 1.
Qed.

Lemma target_down t d (c : Z) : t <= inject_Z c → (0 ≤ c ≤ 2 ^ 53)%Z →
  0 <= q_max (fl (t - q_max 1 d)) 0 ∧ q_max (fl (t - q_max 1 d)) 0 <= inject_Z c.
Proof.
  intros Ht Hc. destruct (q_max_cases 1 d) as (_ & Hd & _). destruct (q_max_cases (fl (t - q_max 1 d)) 0) as (Hor & _ & H0).
  split; [done|]. destruct Hor as [-> | ->]; [|unfold Qle; cbn; lia]. apply fl_below; [|done].
  apply Qplus_le_compat; [done|]. by apply Qopp_le_compat.
Qed.
End target.

(** *** The invariant *)

Section arc_lemmas.
Implicit Type p : ARCCachePolicy.

Definition arc_keys p : list OffloadKey := (t1 p ++ t2 p).*1 ++ (b1 p).*1 ++ (b2 p).*1.

(** Each key is in at most one of the four lists, the ghost lists hold at most
    [cache_capacity] keys, and the target lies between 0 and the capacity. *)
Record arc_wf p : Prop := {
  aw_cap : 0 ≤ cache_capacity p ≤ 2 ^ 53;
  aw_target : (0 <= target_t1_size p)%Q ∧ (target_t1_size p <= inject_Z (cache_capacity p))%Q;
  aw_keys : NoDup (arc_keys p);
  aw_b1 : len (b1 p) ≤ cache_capacity p;
  aw_b2 : len (b2 p) ≤ cache_capacity p;
}.

Lemma arc_wf_perm p p' : arc_wf p → t1 p' ++ t2 p' ≡ₚ t1 p ++ t2 p → b1 p' ≡ₚ b1 p → b2 p' ≡ₚ b2 p → cache_capacity p' = cache_capacity p →
  (0 <= target_t1_size p')%Q ∧ (target_t1_size p' <= inject_Z (cache_capacity p))%Q → arc_wf p'.
Proof.
  intros [Hcap Htgt Hnd H1 H2] Ht Hb1 Hb2 Hc Htgt'. split; rewrite ?Hc; [done|done| | |].
  - unfold arc_keys in *. by rewrite Ht, Hb1, Hb2.
  - unfold len in *. by rewrite Hb1.
  - unfold len in *. by rewrite Hb2.
Qed.

Lemma arc_keys_parts p : NoDup (arc_keys p) →
  NoDup (t1 p ++ t2 p).*1 ∧ NoDup (t1 p).*1 ∧ NoDup (t2 p).*1 ∧ NoDup (b1 p).*1 ∧ NoDup (b2 p).*1 ∧
  (∀ k, k ∈ (t1 p).*1 → k ∉ (t2 p).*1) ∧ (∀ k, k ∈ (t1 p ++ t2 p).*1 → k ∉ (b1 p).*1 ∧ k ∉ (b2 p).*1).
Proof.
  unfold arc_keys. rewrite !NoDup_app. intros (Ht & Hb & Hn1 & _ & Hn2). split_and!; [done| | |done|done| |].
  - rewrite fmap_app, NoDup_app in Ht. naive_solver.
  - rewrite fmap_app, NoDup_app in Ht. naive_solver.
  - rewrite fmap_app, NoDup_app in Ht. naive_solver.
  - intros k Hk. specialize (Hb k Hk). by rewrite not_elem_of_app in Hb.
Qed.

Lemma touch_one_ok p k : arc_wf p → arc_wf (arc_touch_one p k) ∧ t1 (arc_touch_one p k) ++ t2 (arc_touch_one p k) ≡ₚ t1 p ++ t2 p.
Proof.
  intros Hwf. pose proof Hwf as [Hcap [Ht0 Htc] Hnd H1 H2]. destruct (arc_keys_parts p Hnd) as (Hnt & Hn1 & Hn2 & Hg1 & Hg2 & Hd & _).
  unfold arc_touch_one. destruct (od_get (t1 p) k) as [b|] eqn:Hk1.
  - pose proof (od_del_perm _ _ _ Hn1 Hk1) as Hp. assert (Hk2 : k ∉ (t2 p).*1).
    { apply Hd. apply od_get_in, (list_elem_of_fmap_2 fst) in Hk1; done. }
    destruct (negb (is_ready b)); cbn.
    + rewrite od_set_absent by (rewrite od_del_keys; by rewrite list_elem_of_filter; naive_solver). split; [|by rewrite Hp].
      eapply arc_wf_perm; [exact Hwf|cbn; by rewrite Hp|done..].
    + rewrite od_set_absent by done. assert (Hperm : od_del (t1 p) k ++ t2 p ++ [(k, b)] ≡ₚ t1 p ++ t2 p).
      { rewrite <-Hp at 2. rewrite <-!app_assoc. f_equiv. apply Permutation_app_comm. }
      split; [|done]. eapply arc_wf_perm; [exact Hwf|done..].
  - destruct (od_has (t2 p) k); [|destruct (od_has (b1 p) k); [|destruct (od_has (b2 p) k); [|done]]]; cbn -[fl].
    + assert (Hp := od_move_perm (t2 p) k Hn2). split; [|by rewrite Hp]. eapply arc_wf_perm; [exact Hwf|cbn; by rewrite Hp|done..].
    + split; [|done]. eapply arc_wf_perm; [exact Hwf|done|by apply od_move_perm|done|done|]. apply target_up; [done|apply Hcap].
    + split; [|done]. eapply arc_wf_perm; [exact Hwf|done|done|by apply od_move_perm|done|]. by apply target_down.
Qed.

Lemma touch_ok p ks : arc_wf p → arc_wf (arc_touch p ks) ∧ t1 (arc_touch p ks) ++ t2 (arc_touch p ks) ≡ₚ t1 p ++ t2 p.
Proof.
  unfold arc_touch. generalize (reverse ks). clear ks. intros ks. revert p. induction ks as [|k ks IH]; intros p Hwf; [done|]. cbn [foldl].
  destruct (touch_one_ok p k Hwf) as [Hwf' Hp]. destruct (IH _ Hwf') as [Hwf'' Hp']. split; [done|]. by rewrite Hp'.
Qed.

Lemma arc_get_ok p k : arc_get p k = od_map (t1 p ++ t2 p) !! k.
Proof. unfold arc_get. rewrite od_map_app, lookup_union, !od_get_map. by destruct (od_map (t1 p) !! k), (od_map (t2 p) !! k). Qed.

Lemma arc_insert_ok p k b : arc_wf p → k ∉ (t1 p ++ t2 p).*1 →
  arc_wf (arc_insert p k b) ∧ t1 (arc_insert p k b) ++ t2 (arc_insert p k b) ≡ₚ (k, b) :: t1 p ++ t2 p.
Proof.
  intros [Hcap Htgt Hnd H1 H2] Hk. pose proof Hk as Hk'. rewrite fmap_app, not_elem_of_app in Hk'. destruct Hk' as [Hk1 Hk2].
  unfold arc_insert. rewrite od_set_absent by done.
  assert (Hp : (t1 p ++ [(k, b)]) ++ t2 p ≡ₚ (k, b) :: t1 p ++ t2 p) by (rewrite <-app_assoc; symmetry; apply Permutation_middle).
  assert (Hlen : ∀ d : list (OffloadKey * unit), len (od_del d k) ≤ len d) by (intros d; unfold len, od_del; pose proof (length_filter (λ x, x.1 ≠ k) d); lia).
  split; [|done]. split; cbn; [done|done| |pose proof (Hlen (b1 p)); lia|pose proof (Hlen (b2 p)); lia].
  unfold arc_keys in *. cbn. rewrite Hp. cbn. apply NoDup_cons. split.
  - rewrite !not_elem_of_app, !od_del_keys, !list_elem_of_filter. naive_solver.
  - eapply sublist_NoDup; [exact Hnd|]. apply sublist_app; [done|]. rewrite !od_del_keys. apply sublist_app; apply sublist_filter.
Qed.

Lemma arc_remove_ok p k : arc_wf p → arc_wf (arc_remove p k) ∧ t1 (arc_remove p k) ++ t2 (arc_remove p k) = od_del (t1 p ++ t2 p) k.
Proof.
  intros [Hcap Htgt Hnd H1 H2]. destruct (arc_keys_parts p Hnd) as (_ & _ & _ & _ & _ & Hd & _).
  assert (Heq : t1 (arc_remove p k) ++ t2 (arc_remove p k) = od_del (t1 p ++ t2 p) k).
  { unfold arc_remove, od_del. rewrite filter_app. fold (od_del (t1 p) k) (od_del (t2 p) k). destruct (od_has (t1 p) k) eqn:Hk; cbn.
    - rewrite (od_del_absent (t2 p)); [done|]. by apply Hd, od_has_in.
    - rewrite (od_del_absent (t1 p)); [done|]. rewrite <-od_has_in. by rewrite Hk. }
  split; [|done]. split; [by unfold arc_remove; destruct (od_has _ _)..| | |]; [|by unfold arc_remove; destruct (od_has _ _)..].
  unfold arc_keys in *. rewrite Heq. eapply sublist_NoDup; [exact Hnd|].
  apply sublist_app; [rewrite od_del_keys; apply sublist_filter|]. by unfold arc_remove; destruct (od_has _ _).
Qed.

Lemma arc_update_ok p k f : arc_wf p →
  arc_wf (arc_update p k f) ∧ t1 (arc_update p k f) ++ t2 (arc_update p k f) = od_update (t1 p ++ t2 p) k f.
Proof.
  intros [Hcap Htgt Hnd H1 H2]. assert (Heq : t1 (arc_update p k f) ++ t2 (arc_update p k f) = od_update (t1 p ++ t2 p) k f).
  { unfold od_update. by rewrite fmap_app. }
  split; [|done]. split; [done..| |done|done]. unfold arc_keys in *. by rewrite Heq, od_update_keys.
Qed.

(** What the selection loop has chosen. *)
Definition chosen p (protected : gset OffloadKey) (cs : list (OffloadKey * BlockStatus * bool)) : Prop :=
  NoDup (cs.*1).*1 ∧ ∀ x c, (x, c) ∈ cs → evictable protected x ∧ x ∈ (if c : bool then t1 p else t2 p).

Lemma candidate_some items protected sel x : arc_candidate items protected sel = Some x → x ∈ items ∧ evictable protected x ∧ x.1 ∉ sel.
Proof.
  unfold arc_candidate. intros Hx. apply head_Some_elem_of, list_elem_of_filter in Hx. naive_solver.
Qed.

Lemma chosen_snoc p protected cs x c : chosen p protected cs → x ∈ (if c : bool then t1 p else t2 p) → evictable protected x → x.1 ∉ (cs.*1).*1 →
  chosen p protected (cs ++ [(x, c)]).
Proof.
  intros [Hnd Hin] Hx Hev Hnew. split.
  - rewrite !fmap_app. apply NoDup_app. split; [done|]. split; [|apply NoDup_singleton]. intros k Hk Hk'. by apply list_elem_of_singleton in Hk' as ->.
  - intros y d. rewrite elem_of_app, list_elem_of_singleton. intros [?|[= -> ->]]; [by apply Hin|done].
Qed.

Lemma select_ok n p protected v cs cs' : arc_select n p protected v cs = Some cs' → chosen p protected cs →
  chosen p protected cs' ∧ length cs' = (length cs + n)%nat.
Proof.
  revert v cs. induction n as [|n IH]; intros v cs; cbn [arc_select]; [intros [= ->]; split; [done|lia]|].
  assert (Hnext : ∀ c x v', arc_select n p protected v' (cs ++ [(x, c)]) = Some cs' → arc_candidate (if c : bool then t1 p else t2 p) protected (cs.*1).*1 = Some x →
    chosen p protected cs → chosen p protected cs' ∧ length cs' = (length cs + S n)%nat).
  { intros c x v' Hsel Hx Hcs. apply candidate_some in Hx as (Hx & Hev & Hnew). destruct (IH _ _ Hsel) as [H1 H2]; [by apply chosen_snoc|].
    split; [done|]. rewrite H2, length_app. cbn. lia. }
  destruct (if _ <=? v then _ else _) as [x|] eqn:Hc.
  - intros Hsel. eapply (Hnext true); [exact Hsel|]. destruct (_ <=? v); [exact Hc|done].
  - destruct (arc_candidate (t2 p) _ _) as [x|] eqn:Hc2; [|done]. intros Hsel. by eapply (Hnext false).
Qed.

Lemma apply_one_ok p protected x c cs : NoDup (arc_keys p) → chosen p protected ((x, c) :: cs) →
  ∃ p', arc_apply_one p (x, c) = Ok p' ∧ arc_keys p' ≡ₚ arc_keys p ∧ t1 p' = od_del (t1 p) x.1 ∧ t2 p' = od_del (t2 p) x.1 ∧
    cache_capacity p' = cache_capacity p ∧ target_t1_size p' = target_t1_size p ∧ chosen p' protected cs.
Proof.
  intros Hnd [Hcs Hin]. destruct x as [k b]. destruct (Hin (k, b) c) as [Hev Hx]; [left|].
  destruct (arc_keys_parts p Hnd) as (Hnt & Hn1 & Hn2 & Hg1 & Hg2 & Hd & Hg). cbn in Hcs. apply NoDup_cons in Hcs as [Hk Hcs].
  assert (Hrest : ∀ p', t1 p' = od_del (t1 p) k → t2 p' = od_del (t2 p) k → chosen p' protected cs).
  { intros p' E1 E2. split; [done|]. intros y d Hy. destruct (Hin y d) as [Hye Hyt]; [by right|]. split; [done|].
    assert (y.1 ≠ k) by (intros <-; apply Hk, list_elem_of_fmap_2; by apply (list_elem_of_fmap_2 fst _ (y, d))).
    destruct d; rewrite ?E1, ?E2; by apply od_del_in. }
  assert (Hkin : k ∈ (if c : bool then t1 p else t2 p).*1) by (by apply (list_elem_of_fmap_2 fst _ (k, b))).
  destruct (Hg k) as [Hk1 Hk2]; [rewrite fmap_app, elem_of_app; destruct c; auto|].
  cbn [arc_apply_one fst]. destruct c.
  - unfold od_pop. rewrite (proj2 (od_has_in _ _)) by done. eexists. split; [done|]. rewrite od_set_absent by done.
    pose proof (od_del_absent (t2 p) k (Hd k Hkin)) as Habs. split_and!; cbn; [|done|by rewrite Habs|done|done|by apply Hrest; [|cbn; rewrite Habs]].
    unfold arc_keys. cbn. rewrite <-(od_del_perm (t1 p) k b Hn1) at 2 by (by apply od_get_in). rewrite !fmap_app. cbn. solve_Permutation.
  - assert (Habs : od_del (t1 p) k = t1 p) by (apply od_del_absent; intros Hk'; by apply (Hd k)).
    unfold od_pop. rewrite (proj2 (od_has_in _ _)) by done. eexists. split; [done|]. rewrite od_set_absent by done.
    split_and!; cbn; [|by rewrite Habs|done|done|done|by apply Hrest; [cbn; rewrite Habs|]].
    unfold arc_keys. cbn. rewrite <-(od_del_perm (t2 p) k b Hn2) at 2 by (by apply od_get_in). rewrite !fmap_app. cbn. solve_Permutation.
Qed.

Lemma apply_all_ok p protected cs : NoDup (arc_keys p) → chosen p protected cs →
  ∃ p', foldl (λ r c, let? p := r in arc_apply_one p c) (Ok p) cs = Ok p' ∧ arc_keys p' ≡ₚ arc_keys p ∧
    t1 p' ++ t2 p' = filter (λ x, x.1 ∉ (cs.*1).*1) (t1 p ++ t2 p) ∧ cache_capacity p' = cache_capacity p ∧ target_t1_size p' = target_t1_size p.
Proof.
  revert p. induction cs as [|[x c] cs IH]; intros p Hnd Hcs; cbn [foldl].
  - exists p. split_and!; try done. symmetry. apply filter_id. intros y _. apply not_elem_of_nil.
  - destruct (apply_one_ok p protected x c cs Hnd Hcs) as (p1 & Hone & Hk1 & E1 & E2 & Ec & Et & Hcs1). cbn [res_bind]. rewrite Hone.
    destruct (IH p1) as (p' & Hp' & Hk & Hmap & Ec' & Et'); [by rewrite Hk1|done|]. exists p'. rewrite Hp', Hk, Hk1, Hmap, Ec', Et', E1, E2.
    split_and!; try done. unfold od_del. rewrite <-filter_app, list_filter_filter. apply list_filter_iff. intros y. cbn. rewrite not_elem_of_cons. naive_solver.
Qed.

Lemma popitems_ok n d : (n ≤ length d)%nat → arc_popitems n d = Ok (drop n d).
Proof. revert d. induction n as [|n IH]; intros [|x d] Hn; cbn in *; [done|done|lia|]. apply IH. lia. Qed.

Lemma arc_evict_ok p n protected : arc_wf p → 0 < n →
  ∃ o, arc_evict p n protected = Ok o ∧
  ∀ l p', o = Some (l, p') → arc_wf p' ∧ evicted (od_map (t1 p ++ t2 p)) n protected l (od_map (t1 p' ++ t2 p')).
Proof.
  intros [Hcap Htgt Hnd H1 H2] Hn. unfold arc_evict. rewrite (proj2 (Z.eqb_neq n 0)) by lia.
  destruct (arc_select _ _ _ _ _) as [cs|] eqn:Hsel; [|by eexists]. destruct (arc_keys_parts p Hnd) as (Hnt & _).
  apply select_ok in Hsel as [Hcs Hlen]; [|split; [apply NoDup_nil_2|intros x c; by rewrite elem_of_nil]].
  destruct (apply_all_ok p protected cs Hnd Hcs) as (p1 & -> & Hk1 & Hmap & Hc & Ht). cbn [res_bind]. unfold arc_trim.
  rewrite !popitems_ok by (unfold len; lia). cbn [res_bind]. eexists. split; [done|]. intros l p' [= <- <-]. split.
  - split; cbn; rewrite ?Hc, ?Ht; [done|done| |unfold len in *; rewrite length_drop; lia..].
    assert (Hnd1 : NoDup (arc_keys p1)) by (by rewrite Hk1). eapply sublist_NoDup; [exact Hnd1|]. unfold arc_keys. cbn.
    apply sublist_app; [done|]. apply sublist_app; apply fmap_sublist; apply sublist_drop.
  - cbn. rewrite Hmap. replace n with (len cs.*1) at 1 by (rewrite len_fmap; unfold len; cbn in Hlen; lia).
    apply evicted_filter; [done|apply Hcs|]. intros x Hx. apply list_elem_of_fmap in Hx as ([y c] & -> & Hy). destruct Hcs as [_ Hin].
    destruct (Hin y c Hy) as [? Hy']. split; [|done]. rewrite elem_of_app. destruct c; auto.
Qed.
End arc_lemmas.

#[global] Program Instance ARC_spec : CachePolicySpec ARCCachePolicy := {|
  pol_wf := arc_wf;
  pol_map := λ p, od_map (t1 p ++ t2 p);
|}.
Next Obligation. intros c Hc. split; [|done]. split; cbn; [done| |apply NoDup_nil_2|rewrite len_nil; lia..]. unfold Qle; cbn. lia. Qed.
Next Obligation. intros. apply arc_get_ok. Qed.
Next Obligation.
  intros p k b Hwf Hk. cbv beta in Hk. rewrite <-od_get_map, od_get_none in Hk. destruct (arc_insert_ok p k b Hwf Hk) as [Hwf' Hp]. split; [done|].
  exact (od_map_perm _ _ (proj1 (arc_keys_parts _ (aw_keys _ Hwf'))) Hp).
Qed.
Next Obligation.
  intros p k Hwf _. destruct (arc_remove_ok p k Hwf) as [Hwf' Heq]. cbn. eexists. split_and!; [done|done|]. by rewrite Heq, od_del_map.
Qed.
Next Obligation.
  intros p ks Hwf. destruct (touch_ok p ks Hwf) as [Hwf' Hp]. split; [done|]. cbn. by apply od_map_perm; [apply arc_keys_parts, aw_keys|].
Qed.
Next Obligation.
  intros p k f Hwf. destruct (arc_update_ok p k f Hwf) as [Hwf' Heq]. split; [done|]. cbn beta. unfold pol_update, ARC_policy. rewrite Heq. apply od_update_map. apply arc_keys_parts, Hwf.
Qed.
Next Obligation. intros. by apply arc_evict_ok. Qed.

(** ** When ARC refuses *)

Lemma candidate_none items protected : arc_candidate items protected [] = None ↔ ∀ x, x ∈ items → ¬ evictable protected x.
Proof.
  unfold arc_candidate. rewrite head_None. split.
  - intros Hnil x Hx Hev. assert (x ∈ filter (λ x, evictable protected x ∧ x.1 ∉ []) items) as Hin; [|rewrite Hnil in Hin; by apply elem_of_nil in Hin].
    apply list_elem_of_filter. split; [|done]. split; [done|apply not_elem_of_nil].
  - intros Hno. destruct (filter _ items) as [|x l] eqn:Hf; [done|]. assert (x ∈ filter (λ x, evictable protected x ∧ x.1 ∉ []) items) as Hin by (rewrite Hf; left).
    apply list_elem_of_filter in Hin as [[Hev _] Hin]. by destruct (Hno x Hin).
Qed.

Lemma arc_evict_none p n protected : 0 < n → arc_evict p n protected = Ok None ↔ arc_select (Z.to_nat n) p protected (len (t1 p)) [] = None.
Proof.
  intros Hn. unfold arc_evict. rewrite (proj2 (Z.eqb_neq n 0)) by lia. destruct (arc_select _ _ _ _ _) as [cs|]; [|done]. split; [|done].
  intros Hb. apply res_bind_ok in Hb as (q & _ & Hb). by apply res_bind_ok in Hb as (q' & _ & ?).
Qed.

(** ARC gives up one block exactly when T2 has no idle block and either
    T1 has none or T1 is smaller than the target.  In the second case idle blocks
    of T1 are left and the store fails, although the eviction could be satisfied. *)
Theorem arc_evict_one_refused_iff p protected :
  arc_evict p 1 protected = Ok None ↔
  (∀ x, x ∈ t2 p → ¬ evictable protected x) ∧
  (len (t1 p) < py_int (target_t1_size p) ∨ ∀ x, x ∈ t1 p → ¬ evictable protected x).
Proof.
  rewrite <-!candidate_none, arc_evict_none by lia. change (Z.to_nat 1) with 1%nat. cbn [arc_select fmap list_fmap].
  destruct (Z.leb_spec (py_int (target_t1_size p)) (len (t1 p))); destruct (arc_candidate (t1 p) protected []), (arc_candidate (t2 p) protected []);
    split; try done; naive_solver lia.
Qed.
