(* ===== verification/OffloadManager.v ===== *)
(** * The CPU offload manager (vllm/v1/kv_offload/cpu/manager.py, reuse_manager.py, abstract.py)

    [CPUOffloadingManager] maps block keys to slots of the CPU buffer: it hands
    out slots, counts the transfers that read a block, and evicts blocks its
    policy chooses.  It is written against the interface [CachePolicy], and its
    theorems use only what [CachePolicySpec] promises, so that they hold of both
    policies.  [FilterReusedOffloadingManager] delegates to a manager and stores
    only the keys it has seen often enough. *)

From S2P Require Import Prelude.
From S2P Require Import BlockHash.
From S2P Require Import OffloadPolicy.
#[local] Open Scope Z_scope.

(** ** Keys *)

Definition make_offload_key (block_hash : bytes) (group_idx : Z) : res OffloadKey :=
  let? b := to_bytes4 group_idx in Ok (block_hash ++ b).

(** [key[:-4]], [int.from_bytes(key[-4:], "big")] *)
Definition get_offload_block_hash (key : OffloadKey) : bytes := py_slice_to key (-4).
Definition get_offload_group_idx (key : OffloadKey) : Z := from_bytes (py_slice_from key (-4)).

(** ** State *)

Inductive Medium := CPU | GPU.

Record OffloadingEvent := MkOEvent { oe_keys : list OffloadKey; oe_medium : Medium; oe_removed : bool }.

(** [store_spec] holds the block ids of the slots. *)
Record PrepareStoreOutput := MkStoreOut { keys_to_store : list OffloadKey; store_spec : list Z; evicted_keys : list OffloadKey }.

Record CPUOffloadingManager (P : Type) := MkManager {
  num_blocks : Z;
  num_allocated_blocks : Z;
  free_list : list Z;
  events : option (list OffloadingEvent);
  policy : P;
}.
Arguments MkManager {P} _ _ _ _ _.
Arguments num_blocks {P} _.
Arguments num_allocated_blocks {P} _.
Arguments free_list {P} _.
Arguments events {P} _.
Arguments policy {P} _.

Section manager.
Context {P : Type} `{CachePolicy P}.
Implicit Type s : CPUOffloadingManager P.
Abbreviation OM := (M (CPUOffloadingManager P)).

Definition set_alloc (n : Z) s := MkManager (num_blocks s) n (free_list s) (events s) (policy s).
Definition set_free (l : list Z) s := MkManager (num_blocks s) (num_allocated_blocks s) l (events s) (policy s).
Definition set_events (e : option (list OffloadingEvent)) s := MkManager (num_blocks s) (num_allocated_blocks s) (free_list s) e (policy s).
Definition set_policy (p : P) s := MkManager (num_blocks s) (num_allocated_blocks s) (free_list s) (events s) p.

(** [CPUOffloadingManager(num_blocks, cache_policy, enable_events)], for the
    policy class the name [cache_policy] stands for. *)
Definition new_manager (num_blocks : Z) (enable_events : bool) : CPUOffloadingManager P :=
  MkManager num_blocks 0 [] (if enable_events then Some [] else None) (pol_init num_blocks).

(** ** The slots *)

Definition get_num_free_blocks s : Z := len (free_list s) + num_blocks s - num_allocated_blocks s.

(** [self._free_list.pop()] *)
Definition pop_free : OM Z := λ s,
  match last (free_list s) with
  | Some i => (Ok i, set_free (removelast (free_list s)) s)
  | None => (Raise IndexError, s)
  end.

Definition alloc_fresh : OM BlockStatus :=
  let! n := gets num_allocated_blocks in
  modify (set_alloc (n + 1)) ;;;
  ret (new_status n).

Definition alloc_reused : OM BlockStatus := let! i := pop_free in ret (new_status i).

Definition allocate_blocks (keys : list OffloadKey) : OM (list BlockStatus) :=
  let! fresh := gets (λ s, num_blocks s - num_allocated_blocks s) in
  let num_fresh := Z.min (len keys) fresh in
  let num_reused := len keys - num_fresh in
  let! free := gets free_list in
  py_assert (num_reused <=? len free) ;;;
  let! fresh_blocks := map_m (py_range 0 num_fresh) (λ _, alloc_fresh) in
  let! reused_blocks := map_m (py_range 0 num_reused) (λ _, alloc_reused) in
  ret (fresh_blocks ++ reused_blocks).

Definition free_block (block : BlockStatus) : OM unit := λ s, (Ok tt, set_free (free_list s ++ [block_id block]) s).

Definition get_load_store_spec (blocks : list BlockStatus) : list Z := block_id <$> blocks.

Definition policy_get (key : OffloadKey) : OM (option BlockStatus) := gets (λ s, pol_get (policy s) key).

(** Assignment to [ref_cnt] of the block stored under [key]. *)
Definition policy_update (key : OffloadKey) (f : Z → Z) : OM unit := modify (λ s, set_policy (pol_update (policy s) key (set_ref f)) s).

Definition policy_insert (key : OffloadKey) (block : BlockStatus) : OM unit := modify (λ s, set_policy (pol_insert (policy s) key block) s).

Definition policy_remove (key : OffloadKey) : OM unit := λ s,
  match pol_remove (policy s) key with Ok p => (Ok tt, set_policy p s) | Raise e => (Raise e, s) end.

Definition policy_evict (n : Z) (protected : gset OffloadKey) : OM (option (list (OffloadKey * BlockStatus))) := λ s,
  match pol_evict (policy s) n protected with
  | Ok (Some (l, p)) => (Ok (Some l), set_policy p s)
  | Ok None => (Ok None, s)
  | Raise e => (Raise e, s)
  end.

(** [if keys and self.events is not None: self.events.append(...)] *)
Definition emit (keys : list OffloadKey) (removed : bool) : OM unit := modify (λ s,
  match keys, events s with
  | _ :: _, Some l => set_events (Some (l ++ [MkOEvent keys CPU removed])) s
  | _, _ => s
  end).

(** ** The interface *)

Definition lookup (key : OffloadKey) : OM bool :=
  let! block := policy_get key in ret (match block with Some b => is_ready b | None => false end).

Definition prepare_load_one (key : OffloadKey) : OM BlockStatus :=
  let! block := policy_get key in
  match block with
  | None => raise AssertionError
  | Some b => py_assert (is_ready b) ;;; policy_update key (λ n, n + 1) ;;; ret b
  end.

Definition prepare_load (keys : list OffloadKey) : OM (list Z) :=
  let! blocks := map_m keys prepare_load_one in ret (get_load_store_spec blocks).

Definition touch (keys : list OffloadKey) : OM unit := modify (λ s, set_policy (pol_touch (policy s) keys) s).

Definition complete_load_one (key : OffloadKey) : OM unit :=
  let! block := policy_get key in
  match block with
  | None => raise AssertionError
  | Some b => py_assert (0 <? ref_cnt b) ;;; policy_update key (λ n, n - 1)
  end.

Definition complete_load (keys : list OffloadKey) : OM unit := for_each keys complete_load_one.

(** The eviction inside [prepare_store]: [None] when the policy refuses. *)
Definition make_room (keys : list OffloadKey) (num_blocks_to_evict : Z) : OM (option (list OffloadKey)) :=
  if 0 <? num_blocks_to_evict then
    let! evicted := policy_evict num_blocks_to_evict (list_to_set keys) in
    match evicted with
    | None => ret None
    | Some evicted =>
        for_each evicted (λ x, free_block x.2) ;;;
        ret (Some evicted.*1)
    end
  else ret (Some []).

Definition prepare_store (keys : list OffloadKey) : OM (option PrepareStoreOutput) :=
  let! new := gets (λ s, filter (λ k, pol_get (policy s) k = None) keys) in
  match new with
  | [] => ret (Some (MkStoreOut [] [] []))
  | _ =>
      let! free := gets get_num_free_blocks in
      let! to_evict := make_room keys (len new - free) in
      match to_evict with
      | None => ret None
      | Some to_evict =>
          emit to_evict true ;;;
          let! blocks := allocate_blocks new in
          py_assert (len blocks =? len new) ;;;
          for_each (zip new blocks) (λ x, policy_insert x.1 x.2) ;;;
          ret (Some (MkStoreOut new (get_load_store_spec blocks) to_evict))
      end
  end.

(** The key is added to [stored_keys] when the block was waiting for its data. *)
Definition complete_store_one (key : OffloadKey) : OM (list OffloadKey) :=
  let! block := policy_get key in
  match block with
  | Some b => if negb (is_ready b) then policy_update key (λ _, 0) ;;; ret [key] else ret []
  | None => ret []
  end.

Definition fail_store_one (key : OffloadKey) : OM unit :=
  let! block := policy_get key in
  match block with
  | Some b => if negb (is_ready b) then policy_remove key ;;; free_block b else ret tt
  | None => ret tt
  end.

Definition complete_store (keys : list OffloadKey) (success : bool) : OM unit :=
  if success then
    let! stored_keys := map_m keys complete_store_one in
    emit (concat stored_keys) false
  else for_each keys fail_store_one.

(** The generator run to its end. *)
Definition take_events : OM (list OffloadingEvent) := λ s,
  match events s with Some l => (Ok l, set_events (Some []) s) | None => (Ok [], s) end.
End manager.

(** ** Storing only what is reused *)

Record FilterReusedOffloadingManager (P : Type) := MkFilter {
  backing : CPUOffloadingManager P;
  store_threshold : Z;
  max_tracker_size : Z;
  counts : list (OffloadKey * Z);
}.
Arguments MkFilter {P} _ _ _ _.
Arguments backing {P} _.
Arguments store_threshold {P} _.
Arguments max_tracker_size {P} _.
Arguments counts {P} _.

Section reuse.
Context {P : Type} `{CachePolicy P}.
Implicit Type f : FilterReusedOffloadingManager P.

Definition reuse_set_backing (b : CPUOffloadingManager P) f := MkFilter b (store_threshold f) (max_tracker_size f) (counts f).
Definition reuse_set_counts (c : list (OffloadKey * Z)) f := MkFilter (backing f) (store_threshold f) (max_tracker_size f) c.

Definition reuse_init (backing : CPUOffloadingManager P) (store_threshold max_tracker_size : Z) : res (FilterReusedOffloadingManager P) :=
  if store_threshold <? 2 then Raise ValueError
  else if max_tracker_size <? 1 then Raise ValueError
  else Ok (MkFilter backing store_threshold max_tracker_size []).

(** [counts.popitem(last=False)] drops the first entry; the table is not empty
    here, its bound being positive. *)
Definition reuse_record_key (max_tracker_size : Z) (counts : list (OffloadKey * Z)) (key : OffloadKey) : res (list (OffloadKey * Z)) :=
  if od_has counts key then Ok (od_update (od_move_to_end counts key) key (λ n, n + 1))
  else
    let? counts :=
      if max_tracker_size <=? len counts then match counts with [] => Raise KeyError | _ :: counts => Ok counts end
      else Ok counts in
    Ok (od_set counts key 1).

Definition reuse_lookup (key : OffloadKey) : M (FilterReusedOffloadingManager P) bool :=
  let! c := (λ f, (reuse_record_key (max_tracker_size f) (counts f) key, f)) in
  modify (reuse_set_counts c) ;;;
  zoom backing reuse_set_backing (lookup key).

Definition reuse_eligible f (keys : list OffloadKey) : list OffloadKey :=
  filter (λ k, store_threshold f ≤ default 0 (od_get (counts f) k)) keys.

Definition reuse_prepare_store (keys : list OffloadKey) : M (FilterReusedOffloadingManager P) (option PrepareStoreOutput) :=
  let! eligible := gets (λ f, reuse_eligible f keys) in
  zoom backing reuse_set_backing (prepare_store eligible).

Definition reuse_prepare_load (keys : list OffloadKey) : M (FilterReusedOffloadingManager P) (list Z) :=
  zoom backing reuse_set_backing (prepare_load keys).
Definition reuse_touch (keys : list OffloadKey) : M (FilterReusedOffloadingManager P) unit :=
  zoom backing reuse_set_backing (touch keys).
Definition reuse_complete_load (keys : list OffloadKey) : M (FilterReusedOffloadingManager P) unit :=
  zoom backing reuse_set_backing (complete_load keys).
Definition reuse_complete_store (keys : list OffloadKey) (success : bool) : M (FilterReusedOffloadingManager P) unit :=
  zoom backing reuse_set_backing (complete_store keys success).
Definition reuse_take_events : M (FilterReusedOffloadingManager P) (list OffloadingEvent) :=
  zoom backing reuse_set_backing take_events.
End reuse.

(** ** Invariants whatever the outcome of a call *)

Section keeps.
Context {S : Type} (I : S → Prop).

Definition keeps {A} (m : M S A) : Prop := ∀ s, I s → I (m s).2.

Lemma keeps_ret {A} (a : A) : keeps (ret a).
Proof. by intros s Hs. Qed.

Lemma keeps_raise {A} e : keeps (raise (A := A) e).
Proof. by intros s Hs. Qed.

Lemma keeps_gets {A} (f : S → A) : keeps (gets f).
Proof. by intros s Hs. Qed.

Lemma keeps_assert b : keeps (py_assert b).
Proof. intros s Hs. by destruct b. Qed.

Lemma keeps_seq {A B} (m : M S A) (k : A → M S B) : keeps m → (∀ a, keeps (k a)) → keeps (bind m k).
Proof. intros Hm Hk s Hs. specialize (Hm s Hs). unfold bind. destruct (m s) as [[a|e] s1]; [by apply Hk|done]. Qed.

(** A value read from the state is known in what follows. *)
Lemma keeps_gets_bind {A B} (f : S → A) (k : A → M S B) : (∀ s, I s → I (k (f s) s).2) → keeps (bind (gets f) k).
Proof. intros Hk s Hs. by apply Hk. Qed.

Lemma keeps_for_each {B} (l : list B) (f : B → M S unit) : (∀ x, x ∈ l → keeps (f x)) → keeps (for_each l f).
Proof.
  intros Hf. induction l as [|x l IH]; [apply keeps_ret|]. apply keeps_seq; [apply Hf; left|]. intros _. apply IH. intros y Hy. apply Hf. by right.
Qed.

Lemma keeps_map_m {B C} (l : list B) (f : B → M S C) : (∀ x, x ∈ l → keeps (f x)) → keeps (map_m l f).
Proof.
  intros Hf. induction l as [|x l IH]; [apply keeps_ret|]. apply keeps_seq; [apply Hf; left|]. intros y.
  apply keeps_seq; [apply IH; intros z Hz; apply Hf; by right|]. intros ys. apply keeps_ret.
Qed.
End keeps.

(** ** The slots of the stored blocks *)

Definition stored_ids (m : gmap OffloadKey BlockStatus) : list Z := (map_to_list (block_id <$> m)).*2.

Lemma stored_ids_insert m k b : m !! k = None → stored_ids (<[k := b]> m) ≡ₚ block_id b :: stored_ids m.
Proof. intros Hk. unfold stored_ids. rewrite fmap_insert, map_to_list_insert by (by rewrite lookup_fmap, Hk). done. Qed.

Lemma stored_ids_delete m k b : m !! k = Some b → stored_ids m ≡ₚ block_id b :: stored_ids (delete k m).
Proof. intros Hk. rewrite <-stored_ids_insert by apply lookup_delete_eq. by rewrite insert_delete_id. Qed.

Lemma stored_ids_same m m' : (∀ k, block_id <$> m' !! k = block_id <$> m !! k) → stored_ids m' = stored_ids m.
Proof. intros Hk. unfold stored_ids. do 2 f_equal. apply map_eq. intros k. by rewrite !lookup_fmap. Qed.

Lemma stored_ids_in m k b : m !! k = Some b → block_id b ∈ stored_ids m.
Proof. intros Hk. rewrite (stored_ids_delete m k b Hk). left. Qed.

Lemma stored_ids_len m : len (stored_ids m) = Z.of_nat (size m).
Proof. unfold stored_ids. rewrite len_fmap. unfold len. by rewrite length_map_to_list, map_size_fmap. Qed.

Lemma stored_ids_inj m k k' b b' : NoDup (stored_ids m) → m !! k = Some b → m !! k' = Some b' → block_id b = block_id b' → k = k'.
Proof.
  intros Hnd Hk Hk' Heq. destruct (decide (k = k')) as [|Hne]; [done|]. rewrite (stored_ids_delete m k b Hk) in Hnd.
  apply NoDup_cons in Hnd as [Hnin _]. destruct Hnin. rewrite Heq. apply (stored_ids_in _ k'). by rewrite lookup_delete_ne.
Qed.

Lemma stored_ids_evicted l m m' : NoDup l.*1 → (∀ k b, (k, b) ∈ l → m !! k = Some b) →
  (∀ k, m' !! k = if decide (k ∈ l.*1) then None else m !! k) → stored_ids m ≡ₚ (block_id <$> l.*2) ++ stored_ids m'.
Proof.
  revert m. induction l as [|[k b] l IH]; intros m Hnd Hin Hm'.
  - cbn. rewrite (stored_ids_same m' m); [done|]. intros k. rewrite Hm'. by rewrite decide_False by apply not_elem_of_nil.
  - cbn in Hnd. apply NoDup_cons in Hnd as [Hk Hnd]. rewrite (stored_ids_delete m k b) by (apply Hin; left). cbn. f_equiv. apply IH; [done| |].
    + intros k' b' Hkb. rewrite lookup_delete_ne; [apply Hin; by right|]. intros ->. apply Hk. by apply (list_elem_of_fmap_2 fst _ (k', b')).
    + intros k'. rewrite Hm'. cbn. destruct (decide (k' = k)) as [->|Hne].
      * rewrite decide_True by left. by rewrite decide_False, lookup_delete_eq.
      * rewrite lookup_delete_ne by done. dec_cases; try done; rewrite elem_of_cons in *; naive_solver.
Qed.

(** ** The invariant of the manager *)

Section manager_wf.
Context {P : Type} `{CachePolicySpec P}.
Implicit Type s : CPUOffloadingManager P.

(** The blocks the manager holds. *)
Abbreviation blocks_of s := (pol_map (policy s)).

(** The slots handed out so far are those of the stored blocks and those of the
    free list, each exactly once. *)
Record om_wf s : Prop := {
  ow_policy : pol_wf (policy s);
  ow_alloc : 0 ≤ num_allocated_blocks s ≤ num_blocks s;
  ow_bound : num_blocks s ≤ 2 ^ 53;
  ow_slots : stored_ids (blocks_of s) ++ free_list s ≡ₚ py_range 0 (num_allocated_blocks s);
}.

Lemma new_manager_wf n ev : 0 ≤ n ≤ 2 ^ 53 → om_wf (new_manager n ev) ∧ blocks_of (new_manager n ev) = ∅.
Proof. intros Hn. destruct (pol_init_ok n Hn) as [Hwf Hm]. split; [|done]. split; cbn; [done|lia|lia|]. by rewrite Hm. Qed.

Lemma om_free_count s : om_wf s → get_num_free_blocks s = num_blocks s - Z.of_nat (size (blocks_of s)).
Proof.
  intros [_ Ha _ Hs]. apply Permutation_length in Hs. rewrite length_app in Hs. pose proof (stored_ids_len (blocks_of s)) as Hl.
  unfold get_num_free_blocks, len, py_range in *. rewrite length_seqZ in Hs. lia.
Qed.

Lemma om_wf_policy s p : om_wf s → pol_wf p → (∀ k, block_id <$> pol_map p !! k = block_id <$> blocks_of s !! k) → om_wf (set_policy p s).
Proof. intros [Hp Ha Hb Hs] Hwf Hids. split; cbn; [done|done|done|]. by rewrite (stored_ids_same _ _ Hids). Qed.

Lemma set_ref_id f (o : option BlockStatus) : block_id <$> (set_ref f <$> o) = block_id <$> o.
Proof. by destruct o. Qed.

Lemma policy_update_wf k f : keeps om_wf (policy_update (P := P) k f).
Proof.
  intros s Hs. cbn. destruct (pol_update_ok (policy s) k (set_ref f) (ow_policy _ Hs)) as [Hwf Hm]. apply om_wf_policy; [done|done|].
  intros k'. rewrite Hm. destruct (decide (k = k')) as [->|Hne]; [by rewrite lookup_alter_eq, set_ref_id|by rewrite lookup_alter_ne].
Qed.

Lemma emit_wf ks r : keeps om_wf (emit (P := P) ks r).
Proof. intros s [? ? ? ?]. cbn. destruct ks, (events s); by split. Qed.

Lemma prepare_load_wf ks : keeps om_wf (prepare_load (P := P) ks).
Proof.
  apply keeps_seq; [|intros; apply keeps_ret]. apply keeps_map_m. intros k _. apply keeps_seq; [apply keeps_gets|].
  intros [b|]; [|apply keeps_raise]. apply keeps_seq; [apply keeps_assert|]. intros _.
  apply keeps_seq; [apply policy_update_wf|]. intros _. apply keeps_ret.
Qed.

Lemma complete_load_wf ks : keeps om_wf (complete_load (P := P) ks).
Proof.
  apply keeps_for_each. intros k _. apply keeps_seq; [apply keeps_gets|]. intros [b|]; [|apply keeps_raise].
  apply keeps_seq; [apply keeps_assert|]. intros _. apply policy_update_wf.
Qed.

Lemma touch_wf ks : keeps om_wf (touch (P := P) ks).
Proof.
  intros s Hs. cbn. destruct (pol_touch_ok (policy s) ks (ow_policy _ Hs)) as [Hwf Hm]. apply om_wf_policy; [done|done|]. intros k. by rewrite Hm.
Qed.

Lemma fail_store_one_ok k s : om_wf s →
  ∃ s', fail_store_one k s = (Ok tt, s') ∧ om_wf s' ∧ blocks_of s' = (match blocks_of s !! k with Some b => if is_ready b then blocks_of s else delete k (blocks_of s) | None => blocks_of s end).
Proof.
  intros Hs. pose proof Hs as [Hp Ha Hb Hids]. unfold fail_store_one, bind, policy_get, gets. rewrite pol_get_ok by done.
  destruct (blocks_of s !! k) as [b|] eqn:Hk; [|by exists s]. destruct (is_ready b); cbn; [by exists s|].
  unfold policy_remove. destruct (pol_remove_ok (policy s) k Hp) as (p' & -> & Hp' & Hm); [by eexists|]. eexists. split; [done|]. cbn. split; [|done].
  split; cbn; [done|done|done|]. rewrite <-Hids, Hm, (stored_ids_delete (blocks_of s) k b Hk). solve_Permutation.
Qed.

Lemma complete_store_wf ks ok : keeps om_wf (complete_store (P := P) ks ok).
Proof.
  destruct ok; cbn.
  - apply keeps_seq; [|intros; apply emit_wf]. apply keeps_map_m. intros k _. apply keeps_seq; [apply keeps_gets|].
    intros [b|]; [|apply keeps_ret]. destruct (negb (is_ready b)); [|apply keeps_ret]. apply keeps_seq; [apply policy_update_wf|]. intros _. apply keeps_ret.
  - apply keeps_for_each. intros k _ s Hs. by destruct (fail_store_one_ok k s Hs) as (s' & -> & Hs' & _).
Qed.

(** *** Allocation *)

Lemma alloc_fresh_loop {B} (l : list B) s :
  map_m l (λ _, alloc_fresh) s =
    (Ok (new_status <$> seqZ (num_allocated_blocks s) (len l)), set_alloc (num_allocated_blocks s + len l) s).
Proof.
  revert s. induction l as [|x l IH]; intros s.
  - rewrite len_nil, Z.add_0_r. by destruct s.
  - cbn [map_m]. unfold bind at 1. cbn. unfold bind. rewrite IH. cbn. rewrite len_cons. pose proof (len_nonneg l).
    rewrite (seqZ_cons _ (len l + 1)) by lia. replace (Z.pred (len l + 1)) with (len l) by lia.
    by replace (num_allocated_blocks s + (len l + 1)) with (num_allocated_blocks s + 1 + len l) by lia.
Qed.

Lemma alloc_reused_loop {B} (l : list B) s : (length l ≤ length (free_list s))%nat →
  ∃ ids rest, map_m l (λ _, alloc_reused) s = (Ok (new_status <$> ids), set_free rest s) ∧ free_list s = rest ++ reverse ids ∧ length ids = length l.
Proof.
  revert s. induction l as [|x l IH]; intros s Hl.
  - exists [], (free_list s). split; [by destruct s|]. by rewrite app_nil_r.
  - cbn [map_m]. unfold bind at 1, alloc_reused at 1, bind at 1, pop_free. cbn in Hl.
    destruct (free_list s) as [|i f _] eqn:Hf using rev_ind; [cbn in Hl; lia|]. rewrite last_snoc, removelast_last.
    rewrite length_app in Hl. cbn in Hl. destruct (IH (set_free f s)) as (ids & rest & Hrun & Hrest & Hlen); [cbn; lia|].
    exists (i :: ids), rest. cbn in Hrest. split_and!; [unfold bind; cbn; by rewrite Hrun| |cbn; by rewrite Hlen].
    by rewrite Hrest, reverse_cons, app_assoc.
Qed.

Lemma allocate_ok keys s : 0 ≤ num_allocated_blocks s ≤ num_blocks s → len keys ≤ get_num_free_blocks s →
  ∃ ids n rest, allocate_blocks keys s = (Ok (new_status <$> ids), set_free rest (set_alloc n s)) ∧ length ids = length keys ∧
    num_allocated_blocks s ≤ n ≤ num_blocks s ∧ py_range 0 n ++ free_list s ≡ₚ py_range 0 (num_allocated_blocks s) ++ rest ++ ids.
Proof.
  intros Ha Hk. unfold get_num_free_blocks in Hk. unfold allocate_blocks, bind, gets. set (a := num_allocated_blocks s) in *.
  set (nf := Z.min (len keys) (num_blocks s - a)). pose proof (len_nonneg keys).
  assert (Hle : len keys - nf ≤ len (free_list s)) by (pose proof (len_nonneg (free_list s)); lia).
  rewrite (proj2 (Z.leb_le _ _) Hle). cbn [py_assert ret]. rewrite alloc_fresh_loop.
  assert (Hl : ∀ z, 0 ≤ z → len (py_range 0 z) = z) by (intros z Hz; unfold len, py_range; rewrite length_seqZ; lia).
  rewrite Hl by lia. destruct (alloc_reused_loop (py_range 0 (len keys - nf)) (set_alloc (num_allocated_blocks s + nf) s)) as (ids & rest & -> & Hrest & Hlen).
  { pose proof (Hl (len keys - nf)) as Hl'. unfold len in *. cbn. lia. }
  exists (seqZ a nf ++ ids), (a + nf), rest. split; [by rewrite fmap_app|]. cbn in Hrest. split; [|split].
  - pose proof (Hl (len keys - nf)). unfold len in *. rewrite length_app, length_seqZ, Hlen. lia.
  - lia.
  - rewrite Hrest. unfold py_range. replace (a + nf - 0) with ((a - 0) + nf) by lia. rewrite seqZ_app by lia. replace (0 + (a - 0)) with a by lia.
    rewrite (reverse_Permutation ids). solve_Permutation.
Qed.

Lemma insert_loop d s : pol_wf (policy s) → NoDup d.*1 → (∀ k, k ∈ d.*1 → blocks_of s !! k = None) →
  ∃ p, for_each d (λ x, policy_insert x.1 x.2) s = (Ok tt, set_policy p s) ∧ pol_wf p ∧
    stored_ids (pol_map p) ≡ₚ (block_id <$> d.*2) ++ stored_ids (blocks_of s) ∧
    (∀ k, pol_map p !! k = match od_get d k with Some b => Some b | None => blocks_of s !! k end).
Proof.
  revert s. induction d as [|[k b] d IH]; intros s Hwf Hnd Hnew; [exists (policy s); by destruct s|].
  cbn in Hnd. apply NoDup_cons in Hnd as [Hk Hnd]. destruct (pol_insert_ok (policy s) k b Hwf) as [Hwf1 Hm1]; [apply Hnew; left|].
  destruct (IH (set_policy (pol_insert (policy s) k b) s)) as (p & Hrun & Hp & Hids & Hmap); [done|done| |].
  { intros k' Hk'. cbn. rewrite Hm1, lookup_insert_ne by (by intros ->). apply Hnew. by right. }
  exists p. split; [exact Hrun|]. split; [done|]. cbn in Hids, Hmap. rewrite Hm1 in Hids, Hmap. split.
  - rewrite Hids, stored_ids_insert by (apply Hnew; left). cbn. by rewrite Permutation_middle.
  - intros k'. rewrite Hmap. cbn. destruct (decide (k = k')) as [->|Hne]; [|by rewrite lookup_insert_ne].
    rewrite (proj2 (od_get_none d k')) by done. by rewrite lookup_insert_eq.
Qed.

(** *** Storing *)

Lemma free_loop l s : for_each l (λ x : OffloadKey * BlockStatus, free_block x.2) s = (Ok tt, set_free (free_list s ++ (block_id <$> l.*2)) s).
Proof.
  revert s. induction l as [|x l IH]; intros s; [cbn; rewrite app_nil_r; by destruct s|].
  cbn [for_each]. unfold bind, free_block at 1. rewrite IH. cbn. by rewrite <-app_assoc.
Qed.

(** What an eviction of [n] blocks by [prepare_store] leaves. *)
Record room_made s (keys : list OffloadKey) (n : Z) (ev : list OffloadKey) (p : P) (free : list Z) : Prop := {
  rm_policy : pol_wf p;
  rm_len : len ev = Z.max 0 n;
  rm_nodup : NoDup ev;
  rm_evicted : ∀ k, k ∈ ev → k ∉ keys ∧ ∃ b, blocks_of s !! k = Some b ∧ ref_cnt b = 0;
  rm_map : ∀ k, pol_map p !! k = if decide (k ∈ ev) then None else blocks_of s !! k;
  rm_slots : stored_ids (pol_map p) ++ free ≡ₚ stored_ids (blocks_of s) ++ free_list s;
  rm_free : len free = len (free_list s) + Z.max 0 n;
  rm_chosen : 0 < n → ∃ l, pol_evict (policy s) n (list_to_set keys) = Ok (Some (l, p)) ∧ ev = l.*1;
}.

Lemma make_room_ok keys n s : om_wf s →
  (make_room keys n s = (Ok None, s) ∧ 0 < n ∧ pol_evict (policy s) n (list_to_set keys) = Ok None) ∨
  ∃ ev p free, make_room keys n s = (Ok (Some ev), set_free free (set_policy p s)) ∧ room_made s keys n ev p free.
Proof.
  intros [Hp Ha Hb Hs]. unfold make_room. destruct (Z.ltb_spec 0 n) as [Hn|Hn].
  2: { right. exists [], (policy s), (free_list s). split; [by destruct s|]. split; [done|by rewrite len_nil, Z.max_l by lia|apply NoDup_nil_2| | |done|lia|lia].
       - intros k Hk. by apply elem_of_nil in Hk.
       - intros k. by rewrite decide_False by apply not_elem_of_nil. }
  destruct (pol_evict_ok (policy s) n (list_to_set keys) Hp Hn) as (o & Ho & Hev).
  unfold bind, policy_evict. rewrite Ho. destruct o as [[l p]|]; [right|by left].
  destruct (Hev l p eq_refl) as (Hp' & [Hlen Hnd Hin Hmap]). exists l.*1, p, (free_list s ++ (block_id <$> l.*2)).
  split; [by rewrite free_loop|]. split; [done|rewrite len_fmap; lia|done| |done| |rewrite len_app, !len_fmap; lia|by exists l].
  - intros k Hk. apply list_elem_of_fmap in Hk as ([k' b] & -> & Hk). destruct (Hin k' b Hk) as (Hm & Href & Hprot). rewrite elem_of_list_to_set in Hprot. eauto.
  - rewrite (stored_ids_evicted l (blocks_of s) (pol_map p) Hnd); [solve_Permutation| |done]. intros k b Hk. by apply Hin.
Qed.

(** What [prepare_store] promises: [keys_to_store] are the keys not yet stored, in
    order; each gets a slot of its own, inside the buffer and used by no other
    block, and a block that is not ready; the evicted blocks are as many as needed,
    idle and outside [keys]; every other block is untouched. *)
Record store_prepared s (keys : list OffloadKey) (out : PrepareStoreOutput) s' : Prop := {
  sp_keys : keys_to_store out = filter (λ k, blocks_of s !! k = None) keys;
  sp_evict_len : len (evicted_keys out) = Z.max 0 (len (keys_to_store out) - get_num_free_blocks s);
  sp_evict_nodup : NoDup (evicted_keys out);
  sp_evict : ∀ k, k ∈ evicted_keys out → k ∉ keys ∧ ∃ b, blocks_of s !! k = Some b ∧ ref_cnt b = 0;
  sp_spec_len : length (store_spec out) = length (keys_to_store out);
  sp_spec_nodup : NoDup (store_spec out);
  sp_spec_range : ∀ i, i ∈ store_spec out → 0 ≤ i < num_blocks s;
  sp_spec_fresh : ∀ k b, blocks_of s' !! k = Some b → k ∉ keys_to_store out → block_id b ∉ store_spec out;
  sp_map : ∀ k, blocks_of s' !! k =
    match od_get (zip (keys_to_store out) (store_spec out)) k with
    | Some i => Some (MkStatus (-1) i)
    | None => if decide (k ∈ evicted_keys out) then None else blocks_of s !! k
    end;
  sp_events : events s' = match evicted_keys out, events s with
    | _ :: _, Some l => Some (l ++ [MkOEvent (evicted_keys out) CPU true])
    | _, e => e
    end;
  sp_chosen : 0 < len (keys_to_store out) - get_num_free_blocks s → ∃ l p,
    pol_evict (policy s) (len (keys_to_store out) - get_num_free_blocks s) (list_to_set keys) = Ok (Some (l, p)) ∧ evicted_keys out = l.*1;
}.

Definition emitted (ks : list OffloadKey) (r : bool) (e : option (list OffloadingEvent)) : option (list OffloadingEvent) :=
  match ks, e with _ :: _, Some l => Some (l ++ [MkOEvent ks CPU r]) | _, e => e end.

Lemma emit_eq ks r s : emit ks r s = (Ok tt, set_events (emitted ks r (events s)) s).
Proof. unfold emit, modify, emitted. destruct s as [n a f [l|] p], ks; done. Qed.

Lemma od_get_zip {V W} (f : V → W) ks (vs : list V) k : od_get (zip ks (f <$> vs)) k = f <$> od_get (zip ks vs) k.
Proof. revert vs. induction ks as [|k' ks IH]; intros [|v vs]; cbn; [done..|]. destruct (decide (k' = k)); [done|apply IH]. Qed.

Lemma od_get_zip_key {V} ks (vs : list V) k : length vs = length ks → od_get (zip ks vs) k = None ↔ k ∉ ks.
Proof. intros Hl. rewrite od_get_none. by rewrite fst_zip by lia. Qed.

Lemma new_status_id i : 0 ≤ i < 2 ^ 53 → new_status i = MkStatus (-1) i.
Proof. intros Hi. unfold new_status. rewrite wrap32_small, wrap64_small by lia. done. Qed.

(** The slots after an allocation that follows an eviction. *)
Lemma slots_after (a n : Z) (m0 m1 : list Z) free0 free1 rest ids :
  m0 ++ free0 ≡ₚ py_range 0 a → m1 ++ free1 ≡ₚ m0 ++ free0 → py_range 0 n ++ free1 ≡ₚ py_range 0 a ++ rest ++ ids →
  py_range 0 n ≡ₚ m1 ++ rest ++ ids.
Proof.
  intros E0 E1 E2. rewrite <-E0, <-E1 in E2. apply (Permutation_app_inv_r free1). rewrite E2. solve_Permutation.
Qed.

Lemma prepare_store_new keys new s ev p free : om_wf s → NoDup keys → new = filter (λ k, blocks_of s !! k = None) keys → new ≠ [] →
  room_made s keys (len new - get_num_free_blocks s) ev p free →
  ∃ ids s', (emit ev true ;;;
    let! blocks := allocate_blocks new in
    py_assert (len blocks =? len new) ;;;
    for_each (zip new blocks) (λ x, policy_insert x.1 x.2) ;;;
    ret (Some (MkStoreOut new (get_load_store_spec blocks) ev))) (set_free free (set_policy p s)) = (Ok (Some (MkStoreOut new ids ev)), s') ∧
  om_wf s' ∧ store_prepared s keys (MkStoreOut new ids ev) s'.
Proof.
  intros Hwf Hnd Hnew Hne [Hp Hl Hndv Hev Hmap Hslots Hfree Hch]. pose proof Hwf as [_ Ha Hb Hs].
  unfold bind at 1. rewrite emit_eq. cbn [events set_free set_policy]. unfold bind at 1.
  set (s1 := set_events _ _).
  destruct (allocate_ok new s1) as (ids & n & rest & -> & Hlen & Hn & Hperm); [done|unfold get_num_free_blocks in *; cbn; pose proof (len_nonneg new); lia|].
  pose proof (slots_after _ _ _ _ _ _ _ _ Hs Hslots Hperm) as Hall. cbn in Hn.
  assert (Hids : ∀ i, i ∈ ids → 0 ≤ i < num_blocks s).
  { intros i Hi. assert (i ∈ py_range 0 n) as Hr by (rewrite Hall, !elem_of_app; auto). unfold py_range in Hr. apply elem_of_seqZ in Hr. lia. }
  assert (Hst : new_status <$> ids = MkStatus (-1) <$> ids).
  { apply list_fmap_ext. intros i x Hx. apply new_status_id. pose proof (Hids x (list_elem_of_lookup_2 _ _ _ Hx)). lia. }
  rewrite Hst. unfold bind at 1. rewrite (proj2 (Z.eqb_eq (len _) (len new))) by (rewrite len_fmap; unfold len; by rewrite Hlen). cbn [py_assert ret].
  assert (Hk1 : (zip new (MkStatus (-1) <$> ids)).*1 = new) by (apply fst_zip; rewrite length_fmap; lia).
  assert (Hk2 : block_id <$> (zip new (MkStatus (-1) <$> ids)).*2 = ids).
  { rewrite snd_zip by (rewrite length_fmap; lia). rewrite <-list_fmap_compose. apply list_fmap_id. }
  assert (Hnn : ∀ k, k ∈ new → pol_map p !! k = None).
  { intros k Hk. rewrite Hmap. destruct (decide (k ∈ ev)); [done|]. rewrite Hnew in Hk. by apply list_elem_of_filter in Hk as [? _]. }
  unfold bind at 1. match goal with |- context [for_each _ _ ?s2] => destruct (insert_loop (zip new (MkStatus (-1) <$> ids)) s2) as (p2 & -> & Hp2 & Hst2 & Hm2) end;
    [done|rewrite Hk1, Hnew; by apply NoDup_filter|intros k; rewrite Hk1; apply Hnn|]. cbn in Hst2, Hm2. rewrite Hk2 in Hst2.
  exists ids. eexists. split; [unfold get_load_store_spec; rewrite <-list_fmap_compose; by rewrite list_fmap_id|].
  assert (Hm : ∀ k, pol_map p2 !! k = match od_get (zip new ids) k with Some i => Some (MkStatus (-1) i) | None => if decide (k ∈ ev) then None else blocks_of s !! k end).
  { intros k. rewrite Hm2, od_get_zip, Hmap. by destruct (od_get (zip new ids) k). }
  assert (Hnd2 : NoDup (stored_ids (pol_map p) ++ rest ++ ids)) by (rewrite <-Hall; apply NoDup_seqZ).
  split.
  - split; cbn; [done|lia|done|]. rewrite Hst2, Hall. solve_Permutation.
  - split; cbn; [done|done|done|exact Hev|lia| |done| |exact Hm|by unfold emitted; destruct ev, (events s)|intros Hpos; destruct (Hch Hpos) as (l & ? & ?); eauto].
    + apply NoDup_app in Hnd2 as (_ & _ & Hnd2). apply NoDup_app in Hnd2. naive_solver.
    + intros k b Hk Hkn Hi. rewrite Hm, (proj2 (od_get_zip_key new ids k Hlen) Hkn), <-Hmap in Hk.
      apply NoDup_app in Hnd2 as (_ & Hdis & _). apply (Hdis (block_id b)); [by eapply stored_ids_in|]. rewrite elem_of_app. by right.
Qed.

Lemma prepare_store_ok keys s : om_wf s → NoDup keys →
  let new := filter (λ k, blocks_of s !! k = None) keys in
  (prepare_store keys s = (Ok None, s) ∧ get_num_free_blocks s < len new ∧
   pol_evict (policy s) (len new - get_num_free_blocks s) (list_to_set keys) = Ok None) ∨
  ∃ out s', prepare_store keys s = (Ok (Some out), s') ∧ om_wf s' ∧ store_prepared s keys out s'.
Proof.
  intros Hwf Hnd new. destruct (prepare_store keys s) as [r s1] eqn:Hrun. unfold prepare_store, bind at 1, gets at 1 in Hrun.
  rewrite (list_filter_iff _ (λ k, blocks_of s !! k = None) keys) in Hrun by (intros k; by rewrite pol_get_ok by apply Hwf).
  fold new in Hrun. destruct (decide (new = [])) as [Hnil|Hne].
  - right. rewrite Hnil in Hrun. injection Hrun as <- <-. do 2 eexists. split; [done|]. split; [done|].
    pose proof Hwf as [_ Ha _ _]. split; cbn; try done.
    + unfold get_num_free_blocks. rewrite !len_nil. pose proof (len_nonneg (free_list s)). lia.
    + apply NoDup_nil_2.
    + intros k Hk. by apply elem_of_nil in Hk.
    + apply NoDup_nil_2.
    + intros i Hi. by apply elem_of_nil in Hi.
    + intros k b _ _. apply not_elem_of_nil.
    + change (len (@nil OffloadKey)) with 0. unfold get_num_free_blocks. pose proof (len_nonneg (free_list s)). lia.
  - destruct new as [|k0 new0] eqn:Hn in Hrun; [done|]. rewrite <-Hn in Hrun. clear Hn.
    unfold bind at 1, gets at 1 in Hrun. unfold bind at 1 in Hrun.
    destruct (make_room_ok keys (len new - get_num_free_blocks s) s Hwf) as [(Hr & Hpos & Hev)|(ev & p & free & Hr & Hroom)]; rewrite Hr in Hrun.
    + left. injection Hrun as <- <-. split_and!; [done|lia|done].
    + right. destruct (prepare_store_new keys new s ev p free Hwf Hnd eq_refl Hne Hroom) as (ids & s' & Hrest & Hwf' & Hsp).
      rewrite Hrest in Hrun. injection Hrun as <- <-. eauto.
Qed.

(** *** Loading *)

(** How often a key occurs in the list of a transfer. *)
Definition occ (k : OffloadKey) (ks : list OffloadKey) : Z := len (filter (λ x, x = k) ks).

Lemma key_occ_nonneg k ks : 0 ≤ occ k ks.
Proof. apply len_nonneg. Qed.

Lemma key_occ_app k ks ks' : occ k (ks ++ ks') = occ k ks + occ k ks'.
Proof. unfold occ. by rewrite filter_app, len_app. Qed.

Lemma key_occ_cons k x ks : occ k (x :: ks) = (if decide (x = k) then 1 else 0) + occ k ks.
Proof. unfold occ. destruct (decide (x = k)); [rewrite filter_cons_True, len_cons by done; lia|by rewrite filter_cons_False]. Qed.

Lemma occ_snoc k x ks : occ k (ks ++ [x]) = occ k ks + (if decide (x = k) then 1 else 0).
Proof. rewrite key_occ_app, key_occ_cons. change (occ k []) with 0. lia. Qed.

Lemma occ_absent k ks : k ∉ ks → occ k ks = 0.
Proof. induction ks as [|x ks IH]; [done|]. rewrite not_elem_of_cons, key_occ_cons. intros [Hne Hk]. rewrite decide_False by congruence. rewrite IH by done. done. Qed.

Lemma occ_pos k ks : k ∈ ks → 0 < occ k ks.
Proof.
  induction ks as [|x ks IH]; [by intros Hk%elem_of_nil|]. rewrite elem_of_cons, key_occ_cons. pose proof (key_occ_nonneg k ks).
  case_decide; [lia|]. intros [->|Hk]; [done|]. specialize (IH Hk). lia.
Qed.

(** The references of the blocks changed by [g]. *)
Definition shift (z : Z) (b : BlockStatus) : BlockStatus := MkStatus (ref_cnt b + z) (block_id b).
Definition shifted (m m' : gmap OffloadKey BlockStatus) (g : OffloadKey → Z) : Prop := ∀ k, m' !! k = shift (g k) <$> m !! k.

(** Only the references differ. *)
Definition same_frame s s' : Prop := s' = set_policy (policy s') s.

Lemma update_shift m g k d b s : om_wf s → shifted m (blocks_of s) g → m !! k = Some b → - 2 ^ 31 ≤ ref_cnt b + g k + d < 2 ^ 31 →
  let s' := (policy_update k (λ n, n + d) s).2 in
  om_wf s' ∧ same_frame s s' ∧ shifted m (blocks_of s') (λ k', g k' + if decide (k = k') then d else 0).
Proof.
  intros Hwf Hsh Hk Hb. cbn. split; [by apply (policy_update_wf k (λ n, n + d))|]. split; [done|]. cbn.
  destruct (pol_update_ok (policy s) k (set_ref (λ n, n + d)) (ow_policy _ Hwf)) as [_ Hm]. intros k'. rewrite Hm.
  destruct (decide (k = k')) as [<-|Hne]; [|rewrite lookup_alter_ne by done; by rewrite Hsh, Z.add_0_r].
  rewrite lookup_alter_eq, Hsh, Hk. cbn. unfold set_ref, shift. cbn. rewrite wrap32_small by lia. by rewrite Z.add_assoc.
Qed.

Lemma prepare_load_ok keys s : om_wf s →
  (∀ k, k ∈ keys → ∃ b, blocks_of s !! k = Some b ∧ 0 ≤ ref_cnt b ∧ ref_cnt b + occ k keys < 2 ^ 31) →
  ∃ ids s', prepare_load keys s = (Ok ids, s') ∧ om_wf s' ∧ same_frame s s' ∧ shifted (blocks_of s) (blocks_of s') (λ k, occ k keys) ∧
    Forall2 (λ k i, ∃ b, blocks_of s !! k = Some b ∧ i = block_id b) keys ids.
Proof.
  intros Hwf Hkeys. enough (Hwp : wp (map_m keys prepare_load_one) (λ bs s', om_wf s' ∧ same_frame s s' ∧ shifted (blocks_of s) (blocks_of s') (λ k, occ k keys) ∧
    Forall2 (λ k b', ∃ b, blocks_of s !! k = Some b ∧ block_id b' = block_id b) keys bs) s).
  { apply wp_run in Hwp as (bs & s' & Hrun & H1 & H2 & H3 & H4). exists (block_id <$> bs), s'. split_and!; [|done..|].
    - unfold prepare_load, bind. by rewrite Hrun.
    - apply Forall2_fmap_r. eapply Forall2_impl; [exact H4|]. intros k b' (b & ? & ?). eauto. }
  apply (wp_map_m (λ pre bs s', om_wf s' ∧ same_frame s s' ∧ shifted (blocks_of s) (blocks_of s') (λ k, occ k pre) ∧
    Forall2 (λ k b', ∃ b, blocks_of s !! k = Some b ∧ block_id b' = block_id b) pre bs)).
  { split_and!; [done|by destruct s| |constructor]. intros k. destruct (blocks_of s !! k) as [[r i]|]; [|done]. cbn. unfold shift. cbn. by rewrite Z.add_0_r. }
  intros pre x post bs s1 Hpre (Hwf1 & Hfr & Hsh & Hids). destruct (Hkeys x) as (b & Hb & Hr & Hmax); [rewrite Hpre, elem_of_app; right; left|].
  assert (Hocc : occ x pre + 1 ≤ occ x keys) by (rewrite Hpre, key_occ_app, key_occ_cons, decide_True by done; pose proof (key_occ_nonneg x post); lia).
  pose proof (key_occ_nonneg x pre). unfold prepare_load_one, policy_get. wp_steps. rewrite pol_get_ok, Hsh, Hb by apply Hwf1. cbn [fmap option_fmap option_map].
  wp_steps. apply wp_assert; [unfold is_ready, shift; cbn; lia|].
  destruct (update_shift (blocks_of s) (λ k, occ k pre) x 1 b s1 Hwf1 Hsh Hb ltac:(lia)) as (Hwf2 & Hfr2 & Hsh2).
  cbn in Hwf2, Hfr2, Hsh2. unfold policy_update. wp_steps. split_and!; [exact Hwf2|unfold same_frame in *; by rewrite Hfr|..].
  - intros k. rewrite Hsh2. do 2 f_equal. by rewrite occ_snoc.
  - apply Forall2_app; [done|]. constructor; [|constructor]. by exists b.
Qed.

Lemma complete_load_ok keys s : om_wf s →
  (∀ k, k ∈ keys → ∃ b, blocks_of s !! k = Some b ∧ occ k keys ≤ ref_cnt b < 2 ^ 31) →
  ∃ s', complete_load keys s = (Ok tt, s') ∧ om_wf s' ∧ same_frame s s' ∧ shifted (blocks_of s) (blocks_of s') (λ k, - occ k keys).
Proof.
  intros Hwf Hkeys. enough (Hwp : wp (complete_load keys) (λ _ s', om_wf s' ∧ same_frame s s' ∧ shifted (blocks_of s) (blocks_of s') (λ k, - occ k keys)) s).
  { apply wp_run in Hwp as ([] & s' & Hrun & Hpost). eauto. }
  apply (wp_for_each (λ pre s', om_wf s' ∧ same_frame s s' ∧ shifted (blocks_of s) (blocks_of s') (λ k, - occ k pre))).
  { split_and!; [done|by destruct s|]. intros k. destruct (blocks_of s !! k) as [[r i]|]; [|done]. cbn. unfold shift. cbn. by rewrite Z.add_0_r. }
  intros pre x post s1 Hpre (Hwf1 & Hfr & Hsh). destruct (Hkeys x) as (b & Hb & Hr); [rewrite Hpre, elem_of_app; right; left|].
  assert (Hocc : occ x pre + 1 ≤ occ x keys) by (rewrite Hpre, key_occ_app, key_occ_cons, decide_True by done; pose proof (key_occ_nonneg x post); lia).
  pose proof (key_occ_nonneg x pre). unfold complete_load_one, policy_get. wp_steps. rewrite pol_get_ok, Hsh, Hb by apply Hwf1. cbn [fmap option_fmap option_map].
  wp_steps. apply wp_assert; [unfold shift; cbn; lia|].
  destruct (update_shift (blocks_of s) (λ k, - occ k pre) x (-1) b s1 Hwf1 Hsh Hb ltac:(lia)) as (Hwf2 & Hfr2 & Hsh2).
  cbn in Hwf2, Hfr2, Hsh2. unfold policy_update. wp_steps. split_and!; [exact Hwf2|unfold same_frame in *; by rewrite Hfr|].
  intros k. rewrite Hsh2. do 2 f_equal. rewrite occ_snoc. case_decide; lia.
Qed.

(** *** Runs of the manager *)

Inductive om_op :=
  | OLookup (k : OffloadKey)
  | OPrepareLoad (ks : list OffloadKey)
  | OTouch (ks : list OffloadKey)
  | OCompleteLoad (ks : list OffloadKey)
  | OPrepareStore (ks : list OffloadKey)
  | OCompleteStore (ks : list OffloadKey) (success : bool)
  | OTakeEvents.

Definition run_op (op : om_op) : M (CPUOffloadingManager P) unit :=
  match op with
  | OLookup k => let! _ := lookup k in ret tt
  | OPrepareLoad ks => let! _ := prepare_load ks in ret tt
  | OTouch ks => touch ks
  | OCompleteLoad ks => complete_load ks
  | OPrepareStore ks => let! _ := prepare_store ks in ret tt
  | OCompleteStore ks ok => complete_store ks ok
  | OTakeEvents => let! _ := take_events in ret tt
  end.

(** The keys given to [prepare_store] are different. *)
Definition op_ok (op : om_op) : Prop := match op with OPrepareStore ks => NoDup ks | _ => True end.

(** Any sequence of calls, also after a call that failed an assertion. *)
Inductive om_reach (n : Z) (ev : bool) : CPUOffloadingManager P → Prop :=
  | om_start : om_reach n ev (new_manager n ev)
  | om_step s op : om_reach n ev s → op_ok op → om_reach n ev (run_op op s).2.

Lemma bind_ret_state {A} (m : M (CPUOffloadingManager P) A) s : ((let! _ := m in ret tt) s).2 = (m s).2.
Proof. unfold bind. by destruct (m s) as [[a|e] s']. Qed.

Lemma take_events_wf : keeps om_wf (take_events (P := P)).
Proof. intros s [? ? ? ?]. unfold take_events. destruct (events s); by split. Qed.

Lemma run_op_wf op : op_ok op → keeps om_wf (run_op op).
Proof.
  intros Hok s Hs. destruct op as [k|ks|ks|ks|ks|ks ok|]; cbn [run_op]; rewrite ?bind_ret_state.
  - done.
  - by apply prepare_load_wf.
  - by apply touch_wf.
  - by apply complete_load_wf.
  - destruct (prepare_store_ok ks s Hs Hok) as [(-> & _)|(out & s' & -> & Hs' & _)]; done.
  - by apply complete_store_wf.
  - by apply take_events_wf.
Qed.

Ltac keeps_tac := repeat first
  [ apply keeps_seq; [|intros] | apply keeps_for_each; intros ? _ | apply keeps_map_m; intros ? _
  | apply keeps_ret | apply keeps_raise | apply keeps_gets | apply keeps_assert
  | match goal with |- keeps _ (match ?x with _ => _ end) => destruct x end
  | intros s Hs; cbn in *; repeat match goal with |- context [match ?x with _ => _ end] => destruct x end; done ].

Lemma run_op_size op n : keeps (λ s, num_blocks s = n) (run_op op).
Proof.
  destruct op as [k|ks|ks|ks|ks|ks ok|]; cbn [run_op].
  all: unfold lookup, prepare_load, prepare_load_one, touch, complete_load, complete_load_one, prepare_store, make_room, complete_store, complete_store_one,
    fail_store_one, take_events, allocate_blocks, alloc_fresh, alloc_reused, pop_free, policy_get, policy_update, policy_insert, policy_remove, policy_evict, free_block, emit.
  all: keeps_tac.
Qed.

Lemma om_reach_wf n ev s : 0 ≤ n ≤ 2 ^ 53 → om_reach n ev s → om_wf s ∧ num_blocks s = n.
Proof.
  intros Hn. induction 1 as [|s op _ [IH Hsz] Hok]; [split; [by apply new_manager_wf|done]|]. split; [by apply run_op_wf|]. by apply run_op_size.
Qed.

(** *** A block that is being read *)

(** The block under [k] is exactly [b]. *)
Definition holds k b s : Prop := om_wf s ∧ blocks_of s !! k = Some b.

Lemma update_other k b k' f : k' ≠ k → keeps (holds k b) (policy_update (P := P) k' f).
Proof.
  intros Hne s [Hwf Hk]. split; [by apply policy_update_wf|]. cbn.
  destruct (pol_update_ok (policy s) k' (set_ref f) (ow_policy _ Hwf)) as [_ ->]. by rewrite lookup_alter_ne.
Qed.

Lemma complete_load_other k b ks : k ∉ ks → keeps (holds k b) (complete_load (P := P) ks).
Proof.
  intros Hk. apply keeps_for_each. intros k' Hk'. apply keeps_seq; [apply keeps_gets|]. intros [b'|]; [|apply keeps_raise].
  apply keeps_seq; [apply keeps_assert|]. intros _. apply update_other. by intros ->.
Qed.

Lemma complete_store_other k b ks ok : is_ready b = true → keeps (holds k b) (complete_store (P := P) ks ok).
Proof.
  intros Hb. destruct ok; cbn.
  - apply keeps_seq; [|intros l s [Hwf Hk]; split; [by apply emit_wf|by rewrite emit_eq]]. apply keeps_map_m. intros k' _. apply keeps_gets_bind.
    intros s [Hwf Hk]. rewrite pol_get_ok by apply Hwf. destruct (decide (k' = k)) as [->|Hne]; [by rewrite Hk, Hb|].
    destruct (blocks_of s !! k') as [b'|]; [|done]. destruct (negb (is_ready b')); [|done].
    unfold bind. cbn. by apply (update_other k b k' (λ _, 0)).
  - apply keeps_for_each. intros k' _ s [Hwf Hk]. destruct (fail_store_one_ok k' s Hwf) as (s' & -> & Hwf' & Hm). split; [done|]. cbn. rewrite Hm.
    destruct (decide (k' = k)) as [->|Hne]; [by rewrite Hk, Hb|]. destruct (blocks_of s !! k') as [b'|]; [|done].
    destruct (is_ready b'); [done|]. by rewrite lookup_delete_ne.
Qed.

Lemma prepare_load_pins k ks b s : om_wf s → blocks_of s !! k = Some b → 0 < ref_cnt b → ref_cnt b + occ k ks < 2 ^ 31 →
  ∃ b', blocks_of (map_m ks prepare_load_one s).2 !! k = Some b' ∧ block_id b' = block_id b ∧ ref_cnt b ≤ ref_cnt b'.
Proof.
  revert b s. induction ks as [|x ks IH]; intros b s Hwf Hk Hr Hocc; [by exists b|]. rewrite key_occ_cons in Hocc. pose proof (key_occ_nonneg k ks).
  cbn [map_m]. unfold bind at 1, prepare_load_one at 1, bind at 1, policy_get, gets. rewrite pol_get_ok by apply Hwf.
  destruct (blocks_of s !! x) as [c|] eqn:Hx; [|by exists b]. unfold bind at 1. destruct (is_ready c); [|by exists b]. cbn [py_assert ret].
  set (s1 := (policy_update x (λ n, n + 1) s).2). assert (Hwf1 : om_wf s1) by (by apply policy_update_wf).
  assert (Hnext : ∃ b1, blocks_of s1 !! k = Some b1 ∧ block_id b1 = block_id b ∧ ref_cnt b ≤ ref_cnt b1 ∧ ref_cnt b1 + occ k ks < 2 ^ 31).
  { destruct (pol_update_ok (policy s) x (set_ref (λ n, n + 1)) (ow_policy _ Hwf)) as [_ Hm]. cbn. rewrite Hm. destruct (decide (x = k)) as [->|Hne].
    - rewrite lookup_alter_eq, Hk. eexists. split; [done|]. unfold set_ref. cbn. rewrite wrap32_small by lia. split; [done|lia].
    - rewrite lookup_alter_ne by done. exists b. split_and!; [done|done|lia|lia]. }
  destruct Hnext as (b1 & Hk1 & Hid & Hle & Hmax). destruct (IH b1 s1 Hwf1 Hk1) as (b' & Hk' & Hid' & Hle'); [lia|lia|].
  exists b'. split_and!; [|congruence|lia]. unfold bind. cbn. change (set_policy _ s) with s1. by destruct (map_m ks prepare_load_one s1) as [[ys|e] s2].
Qed.

(** The calls that may end a read of [k], and those that count so many readers of
    it that the 32-bit counter overflows. *)
Definition keeps_reader (op : om_op) k (b : BlockStatus) : Prop :=
  match op with
  | OCompleteLoad ks => k ∉ ks
  | OPrepareLoad ks => ref_cnt b + occ k ks < 2 ^ 31
  | _ => True
  end.

Lemma run_op_pins op k b s : om_wf s → op_ok op → blocks_of s !! k = Some b → 0 < ref_cnt b → keeps_reader op k b →
  ∃ b', blocks_of (run_op op s).2 !! k = Some b' ∧ block_id b' = block_id b ∧ ref_cnt b ≤ ref_cnt b'.
Proof.
  intros Hwf Hok Hk Hr Hop. assert (Hsame : holds k b (run_op op s).2 → ∃ b', blocks_of (run_op op s).2 !! k = Some b' ∧ block_id b' = block_id b ∧ ref_cnt b ≤ ref_cnt b').
  { intros [_ Hb]. by exists b. }
  assert (Hready : is_ready b = true) by (unfold is_ready; lia).
  destruct op as [k'|ks|ks|ks|ks|ks ok|]; cbn [run_op] in *; rewrite ?bind_ret_state in *.
  - apply Hsame. by split.
  - cbn in Hop. destruct (prepare_load_pins k ks b s Hwf Hk Hr Hop) as (b' & Hb' & Hrest). exists b'. split; [|done].
    unfold prepare_load, bind. by destruct (map_m ks prepare_load_one s) as [[ys|e] s1].
  - apply Hsame. split; [by apply touch_wf|]. cbn. by destruct (pol_touch_ok (policy s) ks (ow_policy _ Hwf)) as [_ ->].
  - apply Hsame. by apply complete_load_other.
  - apply Hsame. split; [by apply (run_op_wf (OPrepareStore ks) Hok s) in Hwf; cbn [run_op] in Hwf; rewrite bind_ret_state in Hwf|].
    destruct (prepare_store_ok ks s Hwf Hok) as [(-> & _)|(out & s' & -> & _ & Hsp)]; [done|]. cbn. rewrite (sp_map _ _ _ _ Hsp).
    rewrite (proj2 (od_get_zip_key _ _ k (sp_spec_len _ _ _ _ Hsp))).
    + destruct (decide (k ∈ evicted_keys out)) as [Hev|]; [|done]. destruct (sp_evict _ _ _ _ Hsp k Hev) as (_ & b' & Hb' & H0'). rewrite Hk in Hb'. injection Hb' as ->. lia.
    + rewrite (sp_keys _ _ _ _ Hsp), list_elem_of_filter, Hk. naive_solver.
  - apply Hsame. by apply complete_store_other.
  - apply Hsame. split; [by apply take_events_wf|]. unfold take_events. by destruct (events s).
Qed.
End manager_wf.

(** ** The theorems *)

Section theorems.
Context {P : Type} `{CachePolicySpec P}.
Implicit Type s : CPUOffloadingManager P.

(** C26.  After any sequence of calls (with different keys in each [prepare_store]),
    the CPU slots are accounted for exactly: every stored block has a slot of its
    own inside the buffer, no slot of a stored block is in the free list, and the
    free blocks are the slots no block is stored in, so that none is ever lost. *)
Theorem offload_slots_sound n ev s : 0 ≤ n ≤ 2 ^ 53 → om_reach n ev s →
  (∀ k b, pol_get (policy s) k = Some b → 0 ≤ block_id b < n ∧ block_id b ∉ free_list s) ∧
  (∀ k k' b b', pol_get (policy s) k = Some b → pol_get (policy s) k' = Some b' → block_id b = block_id b' → k = k') ∧
  get_num_free_blocks s = n - Z.of_nat (size (pol_map (policy s))) ∧ 0 ≤ get_num_free_blocks s.
Proof.
  intros Hn Hr. destruct (om_reach_wf n ev s Hn Hr) as [Hwf <-]. pose proof Hwf as [Hp Ha Hb Hs].
  assert (Hnd : NoDup (stored_ids (pol_map (policy s)) ++ free_list s)) by (rewrite Hs; apply NoDup_seqZ). apply NoDup_app in Hnd as (Hnd & Hdis & _).
  split_and!.
  - intros k b. rewrite pol_get_ok by done. intros Hk%stored_ids_in. split; [|by apply Hdis].
    assert (block_id b ∈ py_range 0 (num_allocated_blocks s)) as Hin by (rewrite <-Hs, elem_of_app; by left). unfold py_range in Hin. apply elem_of_seqZ in Hin. lia.
  - intros k k' b b'. rewrite !pol_get_ok by done. by apply stored_ids_inj.
  - by apply om_free_count.
  - unfold get_num_free_blocks. pose proof (len_nonneg (free_list s)). lia.
Qed.

(** C27.  [prepare_store] never raises.  Either the policy refuses the eviction
    that is needed, and then nothing changes, or it returns the keys that were not
    stored yet, each with a slot inside the buffer that no other block uses; it
    evicts as many blocks as are missing, none of them read by a transfer or among
    the given keys; every other block keeps its slot and state. *)
Theorem prepare_store_exact keys s : om_wf s → NoDup keys →
  (prepare_store keys s = (Ok None, s) ∧
   pol_evict (policy s) (len (filter (λ k, pol_map (policy s) !! k = None) keys) - get_num_free_blocks s) (list_to_set keys) = Ok None) ∨
  ∃ out s', prepare_store keys s = (Ok (Some out), s') ∧ om_wf s' ∧ store_prepared s keys out s'.
Proof.
  intros Hwf Hnd. destruct (prepare_store_ok keys s Hwf Hnd) as [(? & _ & ?)|?]; [by left|by right].
Qed.

(** A block that a transfer reads stays where it is: until [complete_load] is
    called for it, no call of the interface, whether it succeeds or fails, evicts
    it, moves it to another slot or lowers its reference count. *)
Theorem loading_block_pinned op k b s : om_wf s → op_ok op → pol_get (policy s) k = Some b → 0 < ref_cnt b → keeps_reader op k b →
  ∃ b', pol_get (policy (run_op op s).2) k = Some b' ∧ block_id b' = block_id b ∧ ref_cnt b ≤ ref_cnt b'.
Proof.
  intros Hwf Hok. rewrite !pol_get_ok by (apply Hwf || by apply run_op_wf). intros. by apply run_op_pins.
Qed.

(** C35.  [prepare_load] of ready blocks returns their slots and counts one reader
    for each occurrence; [complete_load] of the same keys then succeeds and gives
    back exactly the blocks there were. *)
Theorem load_roundtrip keys s : om_wf s →
  (∀ k, k ∈ keys → ∃ b, pol_get (policy s) k = Some b ∧ 0 ≤ ref_cnt b ∧ ref_cnt b + occ k keys < 2 ^ 31) →
  ∃ ids s1 s2, prepare_load keys s = (Ok ids, s1) ∧ complete_load keys s1 = (Ok tt, s2) ∧
    Forall2 (λ k i, block_id <$> pol_get (policy s) k = Some i) keys ids ∧
    (∀ k b, k ∈ keys → pol_get (policy s1) k = Some b → 0 < ref_cnt b) ∧
    (∀ k, pol_get (policy s2) k = pol_get (policy s) k).
Proof.
  intros Hwf Hkeys. destruct (prepare_load_ok keys s Hwf) as (ids & s1 & Hload & Hwf1 & _ & Hsh & Hids).
  { intros k Hk. rewrite <-pol_get_ok by apply Hwf. by apply Hkeys. }
  assert (Hof : ∀ k, k ∈ keys → ∃ b, pol_map (policy s) !! k = Some b ∧ 0 ≤ ref_cnt b ∧ ref_cnt b + occ k keys < 2 ^ 31).
  { intros k Hk. rewrite <-pol_get_ok by apply Hwf. by apply Hkeys. }
  destruct (complete_load_ok keys s1 Hwf1) as (s2 & Hdone & Hwf2 & _ & Hsh2).
  { intros k Hk. destruct (Hof k Hk) as (b & Hb & Hr & Hm). exists (shift (occ k keys) b). rewrite Hsh, Hb. split; [done|]. unfold shift. cbn. lia. }
  exists ids, s1, s2. split_and!; [done|done| | |].
  - eapply Forall2_impl; [exact Hids|]. intros k i (b & Hb & ->). by rewrite pol_get_ok, Hb by apply Hwf.
  - intros k b Hk. rewrite pol_get_ok, Hsh by apply Hwf1. destruct (Hof k Hk) as (b0 & -> & Hr & _). intros [= <-]. unfold shift. cbn.
    pose proof (occ_pos k keys Hk). lia.
  - intros k. rewrite !pol_get_ok, Hsh2, Hsh by (apply Hwf2 || apply Hwf). destruct (pol_map (policy s) !! k) as [[r i]|]; [|done]. cbn. unfold shift. cbn.
    do 2 f_equal. lia.
Qed.
End theorems.

(** ** Least recently used *)

(** The blocks the manager could evict for [keys]. *)
Definition spare (s : CPUOffloadingManager LRUCachePolicy) (keys : list OffloadKey) : list (OffloadKey * BlockStatus) :=
  filter (evictable (list_to_set keys)) (policy s).

(** With the LRU policy a store is refused exactly when it cannot be served:
    when the free slots and the idle blocks outside the given keys are fewer than
    the new keys.  Otherwise the least recently used idle blocks go. *)
Theorem lru_store_refused_iff keys (s : CPUOffloadingManager LRUCachePolicy) : om_wf s → NoDup keys →
  let new := filter (λ k, lru_get (policy s) k = None) keys in
  (prepare_store keys s = (Ok None, s) ↔ get_num_free_blocks s + len (spare s keys) < len new) ∧
  (∀ out s', prepare_store keys s = (Ok (Some out), s') →
     evicted_keys out = take (Z.to_nat (len new - get_num_free_blocks s)) (spare s keys).*1).
Proof.
  intros Hwf Hnd new. assert (Hnew : new = filter (λ k, pol_map (policy s) !! k = None) keys).
  { apply list_filter_iff. intros k. cbn. unfold lru_get. by rewrite od_get_map. }
  assert (Hev : 0 < len new - get_num_free_blocks s → pol_evict (policy s) (len new - get_num_free_blocks s) (list_to_set keys) = _) by
    (intros Hpos; apply lru_evict_eq; [apply (ow_policy s Hwf)|exact Hpos]). cbn zeta in Hev. fold (spare s keys) in Hev. pose proof (len_nonneg (spare s keys)).
  destruct (prepare_store_ok keys s Hwf Hnd) as [(Hrun & Hlt & Hnone)|(out & s' & Hrun & _ & Hsp)]; rewrite Hrun, <-?Hnew in *.
  - rewrite Hev in Hnone by lia. destruct (Z.ltb_spec (len (spare s keys)) (len new - get_num_free_blocks s)); [|done]. split; [|done]. split; [lia|done].
  - pose proof (sp_chosen _ _ _ _ Hsp) as Hch. pose proof (sp_evict_len _ _ _ _ Hsp) as Hlen. rewrite (sp_keys _ _ _ _ Hsp), <-Hnew in Hch, Hlen.
    assert (Hle : ¬ get_num_free_blocks s + len (spare s keys) < len new).
    { intros Hlt. destruct Hch as (l & p & Hsome & _); [lia|]. rewrite Hev, (proj2 (Z.ltb_lt _ _)) in Hsome by lia. done. }
    split; [split; [done|by intros ?%Hle]|]. intros out' s'' [= <- <-]. destruct (Z.ltb_spec 0 (len new - get_num_free_blocks s)) as [Hpos|Hpos].
    + destruct (Hch Hpos) as (l & p & Hsome & ->). rewrite Hev, (proj2 (Z.ltb_ge _ _)) in Hsome by lia. injection Hsome as <- _. by rewrite fmap_take.
    + replace (Z.to_nat _) with 0%nat by lia. rewrite take_0. rewrite Z.max_l in Hlen by lia. by destruct (evicted_keys out).
Qed.

(** ** Storing only what is reused *)

Section reuse_lemmas.
Context {P : Type} `{CachePolicy P}.
Implicit Type f : FilterReusedOffloadingManager P.

(** Looking up the keys one after the other. *)
Definition reuse_lookups (ks : list OffloadKey) : M (FilterReusedOffloadingManager P) unit :=
  for_each ks (λ k, let! _ := reuse_lookup k in ret tt).

Lemma reuse_lookup_eq k f c : reuse_record_key (max_tracker_size f) (counts f) k = Ok c →
  ∃ b, reuse_lookup k f = (Ok b, reuse_set_counts c f).
Proof. intros Hc. unfold reuse_lookup, bind. rewrite Hc. cbn. eexists. by destruct f. Qed.

Lemma record_bounded m c k : 1 ≤ m → NoDup c.*1 → len c ≤ m →
  ∃ c', reuse_record_key m c k = Ok c' ∧ NoDup c'.*1 ∧ len c' ≤ m.
Proof.
  intros Hm Hnd Hl. unfold reuse_record_key. destruct (od_has c k) eqn:Hk.
  - eexists. split; [done|]. rewrite od_update_keys. pose proof (od_move_perm c k Hnd) as Hp. split; [by rewrite Hp|].
    unfold od_update. rewrite len_fmap. unfold len in *. by rewrite Hp.
  - assert (Hnin : k ∉ c.*1) by (rewrite <-od_has_in; by rewrite Hk). destruct (Z.leb_spec m (len c)).
    + destruct c as [|x c]; [rewrite len_nil in *; lia|]. cbn in Hnd, Hnin. apply NoDup_cons in Hnd as [_ Hnd]. apply not_elem_of_cons in Hnin as [_ Hnin].
      eexists. split; [done|]. rewrite od_set_absent by done. split; [by apply od_snoc_nodup|]. rewrite len_app, !len_cons, len_nil in *. lia.
    + eexists. split; [done|]. rewrite od_set_absent by done. split; [by apply od_snoc_nodup|]. rewrite len_app, len_cons, len_nil. lia.
Qed.

(** The table holds the number of lookups of each key. *)
Definition counted (c : list (OffloadKey * Z)) (ks : list OffloadKey) : Prop :=
  NoDup c.*1 ∧ ∀ x, od_get c x = if decide (x ∈ ks) then Some (occ x ks) else None.

(** Below the bound the table counts exactly. *)
Lemma record_exact m c k ks : counted c ks → (k ∉ ks → len c < m) → ∃ c', reuse_record_key m c k = Ok c' ∧ counted c' (ks ++ [k]).
Proof.
  intros [Hnd Hc] Hlt. unfold reuse_record_key, od_has. rewrite Hc. destruct (decide (k ∈ ks)) as [Hin|Hnin].
  - rewrite bool_decide_true by done. eexists. split; [done|]. pose proof (od_move_perm c k Hnd) as Hp.
    assert (Hnd' : NoDup (od_move_to_end c k).*1) by (by rewrite Hp). split; [by rewrite od_update_keys|]. intros x. rewrite od_get_map, od_update_map by done.
    rewrite (od_map_perm _ c Hnd' Hp). destruct (decide (k = x)) as [->|Hne].
    + rewrite lookup_alter_eq, <-od_get_map, Hc, decide_True by done. rewrite decide_True by (rewrite elem_of_app; by left).
      cbn. by rewrite occ_snoc, decide_True by done.
    + rewrite lookup_alter_ne, <-od_get_map, Hc by done. rewrite occ_snoc, (decide_False (P := k = x)) by done. rewrite Z.add_0_r.
      dec_cases; try done; rewrite elem_of_app, list_elem_of_singleton in *; naive_solver.
  - rewrite bool_decide_false by (by intros [? ?]). rewrite (proj2 (Z.leb_gt _ _)) by (by apply Hlt). cbn [res_bind].
    assert (Hk : k ∉ c.*1) by (rewrite <-od_get_none, Hc, decide_False; done). eexists. split; [done|]. rewrite od_set_absent by done.
    split; [by apply od_snoc_nodup|]. intros x. rewrite od_get_map, od_snoc_map by done. destruct (decide (k = x)) as [->|Hne].
    + rewrite lookup_insert_eq, decide_True by (rewrite elem_of_app, list_elem_of_singleton; by right). by rewrite occ_snoc, occ_absent, decide_True by done.
    + rewrite lookup_insert_ne, <-od_get_map, Hc by done. rewrite occ_snoc, (decide_False (P := k = x)) by done. rewrite Z.add_0_r.
      dec_cases; try done; rewrite elem_of_app, list_elem_of_singleton in *; naive_solver.
Qed.

Lemma reuse_lookups_bounded ks f : 1 ≤ max_tracker_size f → NoDup (counts f).*1 → len (counts f) ≤ max_tracker_size f →
  ∃ c, reuse_lookups ks f = (Ok tt, reuse_set_counts c f) ∧ NoDup c.*1 ∧ len c ≤ max_tracker_size f.
Proof.
  revert f. induction ks as [|k ks IH]; intros f Hm Hnd Hl; [exists (counts f); by destruct f|].
  destruct (record_bounded (max_tracker_size f) (counts f) k Hm Hnd Hl) as (c & Hc & Hnd' & Hl'). destruct (reuse_lookup_eq k f c Hc) as [b Hb].
  destruct (IH (reuse_set_counts c f) Hm Hnd' Hl') as (c' & Hrun & Hrest). exists c'. split; [|done].
  unfold reuse_lookups in *. cbn [for_each]. unfold bind at 1 2. rewrite Hb. cbn [ret]. by rewrite Hrun.
Qed.

Lemma reuse_lookups_exact ks f : counts f = [] → Z.of_nat (size (list_to_set ks : gset OffloadKey)) ≤ max_tracker_size f →
  ∃ c, reuse_lookups ks f = (Ok tt, reuse_set_counts c f) ∧ counted c ks.
Proof.
  intros H0 Hsize. enough (Hwp : wp (reuse_lookups ks) (λ _ f', ∃ c, f' = reuse_set_counts c f ∧ counted c ks) f).
  { apply wp_run in Hwp as ([] & f' & Hrun & c & -> & Hc). eauto. }
  apply (wp_for_each (λ pre f', ∃ c, f' = reuse_set_counts c f ∧ counted c pre)).
  { exists []. split; [by destruct f; cbn in *; subst|]. split; [apply NoDup_nil_2|]. intros x. by rewrite decide_False by apply not_elem_of_nil. }
  intros pre k post f' Hks (c & -> & Hcnt). destruct (record_exact (max_tracker_size f) c k pre Hcnt) as (c' & Hc' & Hex).
  { destruct Hcnt as [Hnd Hc]. intros Hk. assert (Hle : (size (list_to_set (k :: c.*1) : gset OffloadKey) ≤ size (list_to_set ks : gset OffloadKey))%nat).
    { apply subseteq_size. intros x. rewrite !elem_of_list_to_set, elem_of_cons, Hks, elem_of_app, elem_of_cons.
      intros [->|Hx]; [auto|]. left. destruct (decide (x ∈ pre)) as [|Hn]; [done|]. specialize (Hc x). rewrite decide_False in Hc by done. by apply od_get_none in Hc. }
    rewrite size_list_to_set in Hle.
    2: { apply NoDup_cons. split; [|done]. rewrite <-od_get_none, Hc. by rewrite decide_False. }
    cbn in Hle. rewrite length_fmap in Hle. unfold len. lia. }
  destruct (reuse_lookup_eq k (reuse_set_counts c f) c' Hc') as [b Hb]. unfold wp, bind. rewrite Hb. cbn. by exists c'.
Qed.
End reuse_lemmas.

(** The reuse filter: from a new filter, any sequence of lookups succeeds
    and keeps at most [max_tracker_size] counters.  While no more different keys
    than that were looked up, [prepare_store] passes on exactly the keys that were
    looked up [store_threshold] times or more. *)
Theorem reuse_filter_exact {P} `{CachePolicy P} (b : CPUOffloadingManager P) (threshold size_limit : Z) f0 ks :
  reuse_init b threshold size_limit = Ok f0 →
  ∃ f, reuse_lookups ks f0 = (Ok tt, f) ∧ len (counts f) ≤ size_limit ∧ backing f = b ∧
  (Z.of_nat (size (list_to_set ks : gset OffloadKey)) ≤ size_limit → ∀ keys,
     reuse_eligible f keys = filter (λ k, threshold ≤ occ k ks) keys ∧
     reuse_prepare_store keys f = zoom backing reuse_set_backing (prepare_store (filter (λ k, threshold ≤ occ k ks) keys)) f).
Proof.
  unfold reuse_init. destruct (Z.ltb_spec threshold 2); [done|]. destruct (Z.ltb_spec size_limit 1); [done|]. intros [= <-].
  destruct (reuse_lookups_bounded ks (MkFilter b threshold size_limit [])) as (c & Hrun & _ & Hl); [cbn; lia|apply NoDup_nil_2|cbn; rewrite len_nil; lia|].
  eexists. split; [exact Hrun|]. split; [done|]. split; [done|]. intros Hsize keys.
  destruct (reuse_lookups_exact ks (MkFilter b threshold size_limit [])) as (c' & Hrun' & _ & Hc'); [done|done|]. rewrite Hrun in Hrun'. injection Hrun' as <-.
  assert (Hel : reuse_eligible (reuse_set_counts c (MkFilter b threshold size_limit [])) keys = filter (λ k, threshold ≤ occ k ks) keys).
  { apply list_filter_iff. intros k. cbn. rewrite Hc'. destruct (decide (k ∈ ks)); [done|]. by rewrite occ_absent. }
  split; [done|]. unfold reuse_prepare_store, bind, gets. by rewrite Hel.
Qed.

(** ** Keys *)

(** An offload key gives back the block hash and the group it was made of. *)
Lemma offload_key_parts h g key : make_offload_key h g = Ok key → get_offload_block_hash key = h ∧ get_offload_group_idx key = g.
Proof.
  intros Hk. assert (Hm : make_block_hash_with_group_id h g = Ok key).
  { unfold make_offload_key, make_block_hash_with_group_id in *. by destruct (to_bytes4 g). }
  by apply make_key_inv in Hm as (_ & ? & ?).
Qed.

(** ** Runs *)

Definition key (b : byte) : OffloadKey := [b].

(** Two slots; the blocks 1 and 2 are stored. *)
Definition two_stored {P} `{CachePolicy P} : CPUOffloadingManager P :=
  (run_op (OCompleteStore [key x01; key x02] true) (run_op (OPrepareStore [key x01; key x02]) (new_manager 2 true)).2).2.

Lemma keys_nodup (l : list OffloadKey) : bool_decide (NoDup l) = true → NoDup l.
Proof. apply bool_decide_eq_true. Qed.

Lemma two_stored_reach {P} `{CachePolicySpec P} : om_reach 2 true (two_stored (P := P)).
Proof. apply om_step; [|done]. apply om_step; [apply om_start|]. by apply keys_nodup. Qed.

Lemma two_stored_wf {P} `{CachePolicySpec P} : om_wf (two_stored (P := P)).
Proof. apply (om_reach_wf 2 true); [lia|apply two_stored_reach]. Qed.

Lemma offload_slots_sound_witness : 0 ≤ get_num_free_blocks (two_stored (P := LRUCachePolicy)).
Proof. apply (offload_slots_sound 2 true two_stored); [lia|]. apply two_stored_reach. Defined.

Lemma prepare_store_exact_witness :
  ∃ out s', prepare_store [key x02; key x03] (two_stored (P := LRUCachePolicy)) = (Ok (Some out), s') ∧ om_wf s' ∧
    keys_to_store out = [key x03] ∧ store_spec out = [0] ∧ evicted_keys out = [key x01].
Proof.
  destruct (prepare_store_exact [key x02; key x03] (two_stored (P := LRUCachePolicy))) as [[Hn _]|(out & s' & Hrun & Hwf & Hsp)].
  - apply two_stored_wf.
  - by apply keys_nodup.
  - vm_compute in Hn. discriminate Hn.
  - exists out, s'. split; [exact Hrun|]. split; [exact Hwf|]. vm_compute in Hrun. injection Hrun as <- _. done.
Defined.

(** Block 1 is being read. *)
Definition reading : CPUOffloadingManager LRUCachePolicy := (run_op (OPrepareLoad [key x01]) two_stored).2.

Lemma loading_block_pinned_witness :
  ∃ b', pol_get (policy (run_op (OPrepareStore [key x03]) reading).2) (key x01) = Some b' ∧ block_id b' = 0 ∧ 1 ≤ ref_cnt b'.
Proof.
  apply (loading_block_pinned (OPrepareStore [key x03]) (key x01) (MkStatus 1 0) reading).
  - apply run_op_wf; [done|apply two_stored_wf].
  - by apply keys_nodup.
  - vm_compute. reflexivity.
  - done.
  - done.
Defined.

Lemma load_roundtrip_witness :
  ∃ ids s1 s2, prepare_load [key x02; key x02] (two_stored (P := LRUCachePolicy)) = (Ok ids, s1) ∧ complete_load [key x02; key x02] s1 = (Ok tt, s2).
Proof.
  destruct (load_roundtrip [key x02; key x02] (two_stored (P := LRUCachePolicy))) as (ids & s1 & s2 & H1 & H2 & _).
  - apply two_stored_wf.
  - intros k Hk. exists (MkStatus 0 1). assert (k = key x02) as -> by (rewrite !elem_of_cons, elem_of_nil in Hk; naive_solver).
    split; [vm_compute; reflexivity|]. split; [vm_compute; discriminate|vm_compute; reflexivity].
  - exists ids, s1, s2. split; [exact H1|exact H2].
Defined.

Lemma lru_store_refused_iff_witness : prepare_store [key x03; key x04] reading = (Ok None, reading).
Proof.
  apply (lru_store_refused_iff [key x03; key x04] reading).
  - apply run_op_wf; [done|apply two_stored_wf].
  - by apply keys_nodup.
  - vm_compute. reflexivity.
Defined.

Lemma reuse_filter_exact_witness :
  ∃ f, reuse_lookups [key x01; key x02; key x01] (MkFilter (two_stored (P := LRUCachePolicy)) 2 5 []) = (Ok tt, f) ∧
    reuse_eligible f [key x01; key x02] = [key x01].
Proof.
  destruct (reuse_filter_exact (two_stored (P := LRUCachePolicy)) 2 5 (MkFilter two_stored 2 5 []) [key x01; key x02; key x01] eq_refl)
    as (f & Hrun & _ & _ & Hex).
  exists f. split; [exact Hrun|]. destruct (Hex ltac:(vm_compute; discriminate) [key x01; key x02]) as [-> _]. reflexivity.
Defined.

(** With ARC: 1 is evicted for 3 and asked for again twice, so that the target
    grows to 2; 2 is used again and moves to T2, where it is being read. *)
Definition arc_run : CPUOffloadingManager ARCCachePolicy :=
  foldl (λ s op, (run_op op s).2) two_stored
    [OPrepareStore [key x03]; OCompleteStore [key x03] true; OTouch [key x01]; OTouch [key x01]; OTouch [key x02]; OPrepareLoad [key x02]].

(** In a state the manager reaches, a store is refused although an idle block
    that is not protected could be evicted. *)
Lemma arc_refuses_idle :
  om_reach 2 true arc_run ∧ prepare_store [key x04] arc_run = (Ok None, arc_run) ∧
  pol_get (policy arc_run) (key x03) = Some (MkStatus 0 0).
Proof.
  split; [|by split; vm_compute].
  unfold arc_run. cbn [foldl]. do 6 (apply om_step; [|by first [apply keys_nodup|done]]). apply two_stored_reach.
Qed.
