(* ===== verification/Detokenizer.v ===== *)
(** * Incremental detokenization (vllm/v1/engine/detokenizer.py, vllm/tokenizers/detokenizer_utils.py)

    A detokenizer turns the tokens of one request into text as they arrive, stops
    at stop strings, and hands the text out in pieces.  The tokenizer library is
    a parameter.  A [str] is the list of its code points. *)

From S2P Require Import Prelude.
#[local] Open Scope Z_scope.

Abbreviation text := (list Z).

(** ** Searching a string *)

Definition occurs_at (s t : text) (i : nat) : Prop := take (length t) (drop i s) = t.

#[global] Instance occurs_at_dec s t i : Decision (occurs_at s t i).
Proof. unfold occurs_at. apply _. Defined.

(** [s.find(t, start)] *)
Definition py_find (s t : text) (start : Z) : Z :=
  let start := if start <? 0 then Z.max 0 (start + len s) else start in
  if len s <? start then -1
  else
    match head (filter (occurs_at s t) (seq (Z.to_nat start) (Z.to_nat (len s - start + 1)))) with
    | Some i => Z.of_nat i
    | None => -1
    end.

(** ** Stop strings *)

Fixpoint check_stop_loop (output_text : text) (new_char_count : Z) (stop : list text) (include_in_output : bool) : option (text * Z) :=
  match stop with
  | [] => None
  | stop_str :: stop =>
      let stop_string_len := len stop_str in
      let stop_index := py_find output_text stop_str (1 - new_char_count - stop_string_len) in
      if stop_index =? -1 then check_stop_loop output_text new_char_count stop include_in_output
      else if include_in_output then
        let stop_index := stop_index + stop_string_len in
        if len output_text <=? stop_index then Some (stop_str, -1) else Some (stop_str, stop_index)
      else Some (stop_str, stop_index)
  end.

Definition check_stop_strings (output_text : text) (new_char_count : Z) (stop : list text) (include_in_output : bool) : option (text * Z) :=
  match stop with
  | [] => None
  | _ => if new_char_count =? 0 then None else check_stop_loop output_text new_char_count stop include_in_output
  end.

(** ** The detokenizer *)

(** [prompt_len] is 0 for the fast detokenizer, whose [token_ids] are the output
    tokens; [decoder] is the state of [decode_next]. *)
Record Detok (D : Type) := MkDetok {
  token_ids : list Z;
  output_text : text;
  last_output_text_offset : Z;
  stop : list text;
  min_tokens : Z;
  include_stop_str_in_output : bool;
  stop_buffer_length : Z;
  prompt_len : Z;
  decoder : D;
}.
Arguments MkDetok {D} _ _ _ _ _ _ _ _ _.
Arguments token_ids {D} _.
Arguments output_text {D} _.
Arguments last_output_text_offset {D} _.
Arguments stop {D} _.
Arguments min_tokens {D} _.
Arguments include_stop_str_in_output {D} _.
Arguments stop_buffer_length {D} _.
Arguments prompt_len {D} _.
Arguments decoder {D} _.

Section detok.
Context {D : Type}.
Implicit Type d : Detok D.

(** [decode_next]: the text of one more token; the tokens include it. *)
Variable decode_next : D → list Z → Z → res (text * D).

Definition set_tokens (l : list Z) d :=
  MkDetok l (output_text d) (last_output_text_offset d) (stop d) (min_tokens d) (include_stop_str_in_output d) (stop_buffer_length d) (prompt_len d) (decoder d).
Definition set_text (t : text) d :=
  MkDetok (token_ids d) t (last_output_text_offset d) (stop d) (min_tokens d) (include_stop_str_in_output d) (stop_buffer_length d) (prompt_len d) (decoder d).
Definition set_offset (n : Z) d :=
  MkDetok (token_ids d) (output_text d) n (stop d) (min_tokens d) (include_stop_str_in_output d) (stop_buffer_length d) (prompt_len d) (decoder d).
Definition set_decoder (x : D) d :=
  MkDetok (token_ids d) (output_text d) (last_output_text_offset d) (stop d) (min_tokens d) (include_stop_str_in_output d) (stop_buffer_length d) (prompt_len d) x.

(** [BaseIncrementalDetokenizer.__init__]; [params.stop] as a list. *)
Definition new_detok (stop : list text) (min_tokens : Z) (include_stop_str_in_output : bool) (prompt : list Z) (decoder : D) : Detok D :=
  MkDetok prompt [] 0 stop min_tokens include_stop_str_in_output
    (match stop with
     | s :: ss => if negb include_stop_str_in_output then foldr (λ t m, Z.max (len t) m) (len s) ss - 1 else 0
     | [] => 0
     end)
    (len prompt) decoder.

Definition num_output_tokens d : Z := len (token_ids d) - prompt_len d.

Definition output_token_ids d : list Z := if prompt_len d =? 0 then token_ids d else py_slice_from (token_ids d) (prompt_len d).

(** [self.output_text += self.decode_next(new_token_id)] after the append. *)
Definition decode_one (new_token_id : Z) : M (Detok D) unit := λ d,
  let d := set_tokens (token_ids d ++ [new_token_id]) d in
  match decode_next (decoder d) (token_ids d) new_token_id with
  | Ok (t, x) => (Ok tt, set_decoder x (set_text (output_text d ++ t) d))
  | Raise e => (Raise e, d)
  end.

(** The loop over the new tokens; the value is [stop_check_offset]. *)
Fixpoint decode_loop (new_token_ids : list Z) (stop_check_offset : Z) : M (Detok D) Z :=
  match new_token_ids with
  | [] => ret stop_check_offset
  | new_token_id :: new_token_ids =>
      decode_one new_token_id ;;;
      let! offset := gets (λ d,
        if negb (min_tokens d =? 0) && (num_output_tokens d <=? min_tokens d) then len (output_text d) else stop_check_offset) in
      decode_loop new_token_ids offset
  end.

(** The evaluation of the stop strings. *)
Definition check_stops (stop_check_offset : Z) : M (Detok D) (option text) := λ d,
  match stop d with
  | [] => (Ok None, d)
  | _ =>
      if min_tokens d <? num_output_tokens d then
        match check_stop_strings (output_text d) (len (output_text d) - stop_check_offset) (stop d) (include_stop_str_in_output d) with
        | None => (Ok None, d)
        | Some (stop_string, truncate_to) =>
            (Ok (Some stop_string), if truncate_to =? -1 then d else set_text (py_slice_to (output_text d) truncate_to) d)
        end
      else (Ok None, d)
  end.

Definition update (new_token_ids : list Z) (stop_terminated : bool) : M (Detok D) (option text) :=
  match last new_token_ids with
  | None => ret None
  | Some last_id =>
      let! include := gets include_stop_str_in_output in
      let skip := stop_terminated && negb include in
      let! offset := gets (λ d, len (output_text d)) in
      let! stop_check_offset := decode_loop (if skip then removelast new_token_ids else new_token_ids) offset in
      (if skip then modify (λ d, set_tokens (token_ids d ++ [last_id]) d) else ret tt) ;;;
      check_stops stop_check_offset
  end.

Definition get_next_output_text (finished delta : bool) : M (Detok D) text := λ d,
  let buffer_length := if finished then 0 else stop_buffer_length d in
  if negb delta then
    (Ok (if buffer_length =? 0 then output_text d else py_slice_to (output_text d) (- buffer_length)), d)
  else
    let length := len (output_text d) - buffer_length in
    let last_offset := last_output_text_offset d in
    if last_offset <? length then (Ok (py_slice (output_text d) last_offset length), set_offset length d)
    else (Ok [], d).
End detok.

(** ** The fast detokenizer *)

(** What [DecodeStream.step] of the tokenizers library did. *)
Inductive step_outcome :=
  | Stepped (token : option text)
  | StepOverflow            (* OverflowError or TypeError *)
  | StepInvalidPrefix       (* an error whose message starts with "Invalid prefix encountered" *)
  | StepError (e : exn).

Record FastDecoder (St : Type) := MkFast {
  fd_stream : St;
  fd_spaces_between_special_tokens : bool;
  fd_last_special : bool;
  fd_added_token_ids : gmap Z text;
}.
Arguments MkFast {St} _ _ _ _.
Arguments fd_stream {St} _.
Arguments fd_spaces_between_special_tokens {St} _.
Arguments fd_last_special {St} _.
Arguments fd_added_token_ids {St} _.

Section fast.
Context {St : Type}.
(** [stream.step(tokenizer, id)], and [DecodeStream(skip_special_tokens=...)] *)
Variable step : St → Z → St * step_outcome.
Variable fresh : St.

Definition protected_step (s : St) (next_token_id : Z) : res (option text * St) :=
  match step s next_token_id with
  | (s, Stepped token) => Ok (token, s)
  | (s, StepOverflow) => Ok (None, s)
  | (_, StepInvalidPrefix) =>
      match step fresh next_token_id with
      | (s, Stepped token) => Ok (token, s)
      | (_, StepOverflow) => Raise OverflowError
      | (_, StepInvalidPrefix) => Raise RuntimeError
      | (_, StepError e) => Raise e
      end
  | (_, StepError e) => Raise e
  end.

(** [FastIncrementalDetokenizer.decode_next] *)
Definition fast_decode_next (x : FastDecoder St) (token_ids : list Z) (next_token_id : Z) : res (text * FastDecoder St) :=
  let? ts := protected_step (fd_stream x) next_token_id in
  let '(token, s) := ts in
  if negb (fd_spaces_between_special_tokens x) then
    let special_token := fd_added_token_ids x !! next_token_id in
    let is_special := bool_decide (is_Some special_token) in
    let token := if is_special && fd_last_special x then special_token else token in
    Ok (default [] token, MkFast s (fd_spaces_between_special_tokens x) is_special (fd_added_token_ids x))
  else Ok (default [] token, MkFast s (fd_spaces_between_special_tokens x) (fd_last_special x) (fd_added_token_ids x)).
End fast.

(** ** The slow detokenizer *)

(** What is used of a tokenizer. *)
Record Tokenizer := MkTokenizer {
  convert_ids_to_tokens : list Z → bool → list (option text);
  convert_tokens_to_string : list text → text;
  get_added_vocab : list text;
  all_special_tokens : list text;
  is_fast : bool;
  vocab_len : Z;
}.

Definition replace_none_with_empty (tokens : list (option text)) : list text := default [] <$> tokens.

(** The loop over the tokens: the texts so far and the current run of tokens. *)
Fixpoint added_encoders_loop (tk : Tokenizer) (special : list text) (output_tokens sub_texts current : list text) : list text * list text :=
  match output_tokens with
  | [] => (sub_texts, current)
  | token :: output_tokens =>
      if decide (token ∈ special) then added_encoders_loop tk special output_tokens sub_texts current
      else if decide (token ∈ get_added_vocab tk) then
        let sub_texts := match current with [] => sub_texts | _ => sub_texts ++ [convert_tokens_to_string tk current] end in
        added_encoders_loop tk special output_tokens (sub_texts ++ [token]) []
      else added_encoders_loop tk special output_tokens sub_texts (current ++ [token])
  end.

(** [sep.join(l)] *)
Fixpoint py_join (sep : text) (l : list text) : text :=
  match l with
  | [] => []
  | [t] => t
  | t :: l => t ++ sep ++ py_join sep l
  end.

Definition convert_tokens_to_string_with_added_encoders (tk : Tokenizer) (output_tokens : list text)
    (skip_special_tokens spaces_between_special_tokens : bool) : text :=
  let special := if skip_special_tokens then all_special_tokens tk else [] in
  let '(sub_texts, current) := added_encoders_loop tk special output_tokens [] [] in
  let sub_texts := match current with [] => sub_texts | _ => sub_texts ++ [convert_tokens_to_string tk current] end in
  py_join (if spaces_between_special_tokens then [32] else []) sub_texts.

Definition INITIAL_INCREMENTAL_DETOKENIZATION_OFFSET : Z := 5.

Definition convert_prompt_ids_to_tokens (tk : Tokenizer) (prompt_ids : list Z) (skip_special_tokens : bool) : list text * Z * Z :=
  let new_tokens := convert_ids_to_tokens tk (py_slice_from prompt_ids (- INITIAL_INCREMENTAL_DETOKENIZATION_OFFSET - 2)) skip_special_tokens in
  let read_offset := len new_tokens in
  let prefix_offset := Z.max (read_offset - INITIAL_INCREMENTAL_DETOKENIZATION_OFFSET) 0 in
  (replace_none_with_empty new_tokens, prefix_offset, read_offset).

(** U+FFFD *)
Definition replacement_char : Z := 65533.

(** [detokenize_incrementally] with the previous tokens given. *)
Definition detokenize_incrementally (tk : Tokenizer) (all_input_ids : list Z) (prev_tokens : list text) (prefix_offset read_offset : Z)
    (skip_special_tokens spaces_between_special_tokens : bool) : res (list text * text * Z * Z) :=
  match last all_input_ids with
  | None => Raise IndexError
  | Some new_token_id =>
      let new_tokens :=
        if (0 <=? new_token_id) && (new_token_id <? vocab_len tk) then
          replace_none_with_empty (convert_ids_to_tokens tk [new_token_id] skip_special_tokens)
        else [[]] in
      let output_tokens := prev_tokens ++ new_tokens in
      let to_string := λ l,
        if is_fast tk || bool_decide (get_added_vocab tk = []) then convert_tokens_to_string tk l
        else convert_tokens_to_string_with_added_encoders tk l skip_special_tokens spaces_between_special_tokens in
      let prefix_text := to_string (py_slice output_tokens prefix_offset read_offset) in
      let new_text := to_string (py_slice_from output_tokens prefix_offset) in
      if (len new_text <=? len prefix_text) || bool_decide (last new_text = Some replacement_char) then
        Ok (new_tokens, [], prefix_offset, read_offset)
      else Ok (new_tokens, py_slice_from new_text (len prefix_text), read_offset, len output_tokens)
  end.

Record SlowDecoder := MkSlow { sd_tokens : list text; sd_prefix_offset : Z; sd_read_offset : Z }.

(** The decoder part of [SlowIncrementalDetokenizer.__init__], with a prompt of
    tokens or of embeddings. *)
Definition new_slow (tk : Tokenizer) (prompt_token_ids : option (list Z)) (prompt_len : Z) (skip_special_tokens : bool) : SlowDecoder :=
  match prompt_token_ids with
  | Some ids => let '(tokens, p, r) := convert_prompt_ids_to_tokens tk ids skip_special_tokens in MkSlow tokens p r
  | None => MkSlow (py_repeat [] prompt_len) 0 0
  end.

(** [SlowIncrementalDetokenizer.decode_next] *)
Definition slow_decode_next (tk : Tokenizer) (skip_special_tokens spaces_between_special_tokens : bool)
    (x : SlowDecoder) (token_ids : list Z) (next_token_id : Z) : res (text * SlowDecoder) :=
  let? r := detokenize_incrementally tk token_ids (sd_tokens x) (sd_prefix_offset x) (sd_read_offset x) skip_special_tokens spaces_between_special_tokens in
  let '(new_tokens, decoded_text, p, rd) := r in
  Ok (decoded_text, MkSlow (sd_tokens x ++ new_tokens) p rd).

(** ** Streaming and not streaming *)

Section runs.
Context {D : Type}.
Implicit Type d : Detok D.
Variable decode_next : D → list Z → Z → res (text * D).

(** One engine step for the request: its new tokens, whether the engine stopped it
    at a stop token, and whether an output is made after it. *)
Abbreviation chunk := (list Z * bool * bool)%type.

(** The text a streaming client has received when the request is finished, and the
    stop string that matched. *)
Fixpoint stream (chunks : list chunk) : M (Detok D) (text * option text) :=
  match chunks with
  | [] => let! t := get_next_output_text true true in ret (t, None)
  | (ids, stop_terminated, pull) :: chunks =>
      let! r := update decode_next ids stop_terminated in
      match r with
      | Some s => let! t := get_next_output_text true true in ret (t, Some s)
      | None =>
          if stop_terminated : bool then let! t := get_next_output_text true true in ret (t, None)
          else
            let! t := if pull : bool then get_next_output_text false true else ret [] in
            let! rest := stream chunks in
            ret (t ++ rest.1, rest.2)
      end
  end.

(** The same request when only the final output is asked for. *)
Fixpoint collect (chunks : list chunk) : M (Detok D) (text * option text) :=
  match chunks with
  | [] => let! t := get_next_output_text true false in ret (t, None)
  | (ids, stop_terminated, pull) :: chunks =>
      let! r := update decode_next ids stop_terminated in
      match r with
      | Some s => let! t := get_next_output_text true false in ret (t, Some s)
      | None => if stop_terminated : bool then let! t := get_next_output_text true false in ret (t, None) else collect chunks
      end
  end.
End runs.

(** ** Lemmas on the search *)

Lemma head_filter_seq (P : nat → Prop) `{!∀ i, Decision (P i)} a n :
  match head (filter P (seq a n)) with
  | Some i => P i ∧ (a ≤ i < a + n)%nat ∧ ∀ j, (a ≤ j < i)%nat → ¬ P j
  | None => ∀ j, (a ≤ j < a + n)%nat → ¬ P j
  end.
Proof.
  revert a. induction n as [|n IH]; intros a; [cbn; lia|]. cbn [seq]. destruct (decide (P a)) as [Ha|Ha].
  - rewrite filter_cons_True by done. cbn. split_and!; [done|lia|lia|lia].
  - rewrite filter_cons_False by done. specialize (IH (S a)). destruct (head _) as [i|].
    + destruct IH as (Hi & Hr & Hmin). split_and!; [done|lia|lia|]. intros j Hj. destruct (decide (j = a)) as [->|]; [done|]. apply Hmin. lia.
    + intros j Hj. destruct (decide (j = a)) as [->|]; [done|]. apply IH. lia.
Qed.

Lemma occurs_len s t i : occurs_at s t i → t ≠ [] → (i + length t ≤ length s)%nat.
Proof.
  unfold occurs_at. intros Ho Ht. apply (f_equal length) in Ho. rewrite length_take, length_drop in Ho. assert (length t ≠ 0%nat) by (by destruct t). lia.
Qed.

(** [find] from [start]: the first occurrence there, or -1. *)
Lemma py_find_spec s t start : t ≠ [] → start ≤ 0 →
  let from := if decide (start = 0) then 0%nat else Z.to_nat (start + len s) in
  (py_find s t start = -1 ∧ ∀ j, (from ≤ j)%nat → ¬ occurs_at s t j) ∨
  ∃ i, py_find s t start = Z.of_nat i ∧ occurs_at s t i ∧ (from ≤ i)%nat ∧ ∀ j, (from ≤ j < i)%nat → ¬ occurs_at s t j.
Proof.
  intros Ht Hs from. unfold py_find. set (st := if start <? 0 then Z.max 0 (start + len s) else start).
  assert (Hst : Z.to_nat st = from ∧ st ≤ len s ∧ 0 ≤ st).
  { unfold st, from. pose proof (len_nonneg s). destruct (Z.ltb_spec start 0), (decide (start = 0)); lia. }
  destruct Hst as (Hfrom & Hle & Hge). rewrite (proj2 (Z.ltb_ge _ _)) by lia. rewrite Hfrom.
  pose proof (head_filter_seq (occurs_at s t) from (Z.to_nat (len s - st + 1))) as Hh. destruct (head _) as [i|].
  - right. exists i. destruct Hh as (Ho & Hr & Hmin). split_and!; [done|done|lia|done].
  - left. split; [done|]. intros j Hj Ho. apply (Hh j); [|done]. pose proof (occurs_len s t j Ho Ht). unfold len in *. lia.
Qed.

(** A match that [check_stop_strings] reports ends in the new text. *)
Lemma check_loop_some s n stops incl t j : 0 < n → Forall (λ t, t ≠ []) stops →
  check_stop_loop s n stops incl = Some (t, j) →
  t ∈ stops ∧ ∃ i, occurs_at s t i ∧ len s - n < Z.of_nat i + len t ∧
    j = if incl then (if len s <=? Z.of_nat i + len t then -1 else Z.of_nat i + len t) else Z.of_nat i.
Proof.
  intros Hn. induction 1 as [|t' stops Ht' Hall IH]; [done|]. cbn [check_stop_loop]. pose proof (len_nonneg t').
  destruct (py_find_spec s t' (1 - n - len t') Ht' ltac:(lia)) as [[-> _]|(i & -> & Ho & Hfrom & _)].
  - rewrite Z.eqb_refl. intros Hc. destruct (IH Hc) as [Hin Hrest]. split; [by right|done].
  - rewrite (proj2 (Z.eqb_neq _ _)) by lia. intros Hc. assert (t = t') as ->.
    { destruct incl; [destruct (_ <=? _)|]; congruence. }
    split; [left|]. exists i. split; [done|]. split.
    + destruct (decide (1 - n - len t' = 0)) as [He|]; [destruct t'; [done|rewrite len_cons in *; pose proof (len_nonneg t'); lia]|lia].
    + destruct incl; [destruct (_ <=? _)|]; congruence.
Qed.

(** ** The invariant of a detokenizer *)

Section invariant.
Context {D : Type}.
Implicit Type d : Detok D.
Variable decode_next : D → list Z → Z → res (text * D).

(** What was handed out lies before the part that is held back, and the part that
    is held back is longer than any proper beginning of a stop string. *)
Record detok_wf d : Prop := {
  dw_stops : Forall (λ t, t ≠ []) (stop d);
  dw_buffer : 0 ≤ stop_buffer_length d;
  dw_held : include_stop_str_in_output d = false → ∀ t, t ∈ stop d → len t ≤ stop_buffer_length d + 1;
  dw_offset : 0 ≤ last_output_text_offset d ≤ Z.max 0 (len (output_text d) - stop_buffer_length d);
}.

(** The fields an update leaves alone. *)
Definition same_config d d' : Prop :=
  stop d' = stop d ∧ min_tokens d' = min_tokens d ∧ include_stop_str_in_output d' = include_stop_str_in_output d ∧
  stop_buffer_length d' = stop_buffer_length d ∧ prompt_len d' = prompt_len d ∧ last_output_text_offset d' = last_output_text_offset d.

Lemma foldr_max_ge (x : Z) (l : list text) : x ≤ foldr (λ t m, Z.max (len t) m) x l ∧ ∀ t, t ∈ l → len t ≤ foldr (λ t m, Z.max (len t) m) x l.
Proof.
  induction l as [|t l [IH1 IH2]]; cbn; [split; [lia|by intros t Ht%elem_of_nil]|]. split; [lia|].
  intros t' Ht. apply elem_of_cons in Ht as [->|Ht]; [lia|]. specialize (IH2 _ Ht). lia.
Qed.

Lemma new_detok_wf stops m incl prompt x : Forall (λ t, t ≠ []) stops → detok_wf (new_detok (D := D) stops m incl prompt x).
Proof.
  intros Hs. pose proof Hs as Hall. unfold new_detok. split; cbn; [done| | |].
  - destruct stops as [|t stops]; [done|]. destruct incl; cbn; [done|]. apply Forall_cons in Hs as [Ht _].
    pose proof (proj1 (foldr_max_ge (len t) stops)). assert (0 < len t) by (destruct t; [done|rewrite len_cons; pose proof (len_nonneg t); lia]). lia.
  - intros -> t Ht. destruct stops as [|t' stops]; [by apply elem_of_nil in Ht|]. cbn. destruct (foldr_max_ge (len t') stops) as [H1 H2].
    apply elem_of_cons in Ht as [->|Ht]; [lia|]. specialize (H2 t Ht). lia.
  - change (len (@nil Z)) with 0. lia.
Qed.

(** The loop appends to the text; the offset of the check moves forward. *)
Lemma decode_loop_ok ids off d off' d' : decode_loop decode_next ids off d = (Ok off', d') → off ≤ len (output_text d) →
  same_config d d' ∧ (∃ t, output_text d' = output_text d ++ t) ∧ off ≤ off' ≤ len (output_text d') ∧
  (min_tokens d = 0 → off' = off) ∧ token_ids d' = token_ids d ++ ids.
Proof.
  revert off d. induction ids as [|i ids IH]; intros off d.
  - cbn. intros [= <- <-] Hoff. split_and!; try done; [exists []; by rewrite app_nil_r|by rewrite app_nil_r].
  - cbn [decode_loop]. intros Hrun Hoff. apply bind_inv in Hrun as ([] & d1 & Hone & Hrun). unfold decode_one in Hone.
    destruct (decode_next _ _ i) as [[t x]|e]; [|done]. injection Hone as <-. apply bind_inv in Hrun as (o & d2 & [= <- <-] & Hrun).
    cbn in Hrun. apply IH in Hrun as (Hcfg & (t' & Ht') & Hoff' & Hm & Htok).
    + cbn in *. split_and!; try apply Hcfg; [exists (t ++ t'); by rewrite Ht', <-app_assoc| |lia| |by rewrite Htok, <-app_assoc].
      * rewrite len_app in Hoff'. pose proof (len_nonneg t). destruct (negb _ && _); lia.
      * intros H0. specialize (Hm H0). rewrite H0 in Hm. done.
    + cbn. rewrite len_app. pose proof (len_nonneg t). destruct (negb _ && _); lia.
Qed.

(** The truncation of a match keeps what was handed out. *)
Lemma check_stops_ok off d r d' (o : Z) : check_stops off d = (Ok r, d') → Forall (λ t, t ≠ []) (stop d) →
  (include_stop_str_in_output d = false → ∀ t, t ∈ stop d → len t ≤ stop_buffer_length d + 1) → 0 ≤ stop_buffer_length d →
  0 ≤ o ≤ Z.max 0 (off - stop_buffer_length d) → 0 ≤ off ≤ len (output_text d) →
  same_config d d' ∧ token_ids d' = token_ids d ∧ (r = None → d' = d) ∧ o ≤ len (output_text d') ∧ (∃ n, output_text d' = take n (output_text d)).
Proof.
  intros Hrun Hs Hheld Hbuf Ho Hoff. assert (Hsame : same_config d d ∧ token_ids d = token_ids d ∧ (∃ n, output_text d = take n (output_text d))).
  { split_and!; try done. exists (length (output_text d)). by rewrite take_ge. }
  unfold check_stops in Hrun. assert (Hnone : (Ok None, d) = (Ok r, d') → same_config d d' ∧ token_ids d' = token_ids d ∧ (r = None → d' = d) ∧
    o ≤ len (output_text d') ∧ ∃ n, output_text d' = take n (output_text d)).
  { intros [= <- <-]. destruct Hsame as (? & ? & ?). split_and!; try done. lia. }
  destruct (stop d) as [|t0 stops] eqn:Hstop; [by apply Hnone|]. rewrite <-Hstop in *. destruct (_ <? _); [|by apply Hnone].
  destruct (check_stop_strings _ _ _ _) as [[t j]|] eqn:Hc; [|by apply Hnone]. injection Hrun as <- <-.
  unfold check_stop_strings in Hc. rewrite Hstop in Hc. rewrite <-Hstop in Hc. destruct (Z.eqb_spec (len (output_text d) - off) 0); [done|].
  apply check_loop_some in Hc as (Hin & i & Hocc & Hend & Hj); [|lia|done]. assert (Ht : t ≠ []) by (by eapply Forall_forall in Hs).
  pose proof (occurs_len _ _ _ Hocc Ht) as Hlen. assert (Htl : 0 < len t) by (destruct t; [done|rewrite len_cons; pose proof (len_nonneg t); lia]).
  destruct (Z.eqb_spec j (-1)) as [->|Hne].
  - destruct Hsame as (? & ? & ?). split_and!; try done. lia.
  - split_and!; try done; cbn; [|eexists; apply py_slice_to_nonneg; destruct (include_stop_str_in_output d); [destruct (_ <=? _)|]; lia].
    rewrite py_slice_to_nonneg by (destruct (include_stop_str_in_output d); [destruct (_ <=? _)|]; lia). unfold len at 1. rewrite length_take.
    destruct (include_stop_str_in_output d) eqn:Hincl; [destruct (Z.leb_spec (len (output_text d)) (Z.of_nat i + len t)); [done|]|specialize (Hheld eq_refl t Hin)].
    + unfold len in *. lia.
    + unfold len in *. lia.
Qed.

Lemma update_ok ids st d r d' : detok_wf d → update decode_next ids st d = (Ok r, d') →
  same_config d d' ∧ last_output_text_offset d ≤ len (output_text d') ∧
  take (Z.to_nat (last_output_text_offset d)) (output_text d') = take (Z.to_nat (last_output_text_offset d)) (output_text d) ∧
  (r = None → detok_wf d').
Proof.
  intros Hwf Hrun. pose proof Hwf as [Hs Hbuf Hheld Hoff]. pose proof (len_nonneg (output_text d)) as Hl. unfold update in Hrun.
  destruct (last ids) as [i|]; [|injection Hrun as <- <-; split_and!; [done..|lia|done|done]].
  apply bind_inv in Hrun as (incl & d0 & [= <- <-] & Hrun). apply bind_inv in Hrun as (off0 & d0 & [= <- <-] & Hrun).
  apply bind_inv in Hrun as (off & d1 & Hloop & Hrun). apply decode_loop_ok in Hloop as (Hcfg & (t & Ht) & Hoff1 & _ & _); [|lia].
  set (skip := st && negb (include_stop_str_in_output d)) in *.
  apply bind_inv in Hrun as ([] & d2 & Hskip & Hrun).
  assert (H12 : same_config d1 d2 ∧ output_text d2 = output_text d1) by (destruct skip; injection Hskip as <-; done). destruct H12 as [Hcfg2 Ht2].
  destruct Hcfg as (C1 & C2 & C3 & C4 & C5 & C6), Hcfg2 as (E1 & E2 & E3 & E4 & E5 & E6).
  apply (check_stops_ok off d2 r d' (last_output_text_offset d)) in Hrun as ((F1 & F2 & F3 & F4 & F5 & F6) & _ & Hnone & Hle & (n & Hn)).
  2: { by rewrite E1, C1. } 2: { by rewrite E1, C1, E3, C3, E4, C4. } 2: { by rewrite E4, C4. } 2: { rewrite E4, C4. lia. } 2: { rewrite Ht2. lia. }
  assert (Htake : take (Z.to_nat (last_output_text_offset d)) (output_text d') = take (Z.to_nat (last_output_text_offset d)) (output_text d)).
  { rewrite Hn, Ht2, Ht in *. unfold len in Hle. rewrite length_take in Hle. rewrite take_take, Nat.min_l by lia. apply take_app_le. unfold len in *. lia. }
  split_and!; try congruence; [unfold same_config; split_and!; congruence|].
  intros Hr. specialize (Hnone Hr). subst d2. split; rewrite ?E1, ?E3, ?E4, ?C1, ?C3, ?C4; [done..|].
  rewrite E6, C6, Ht2. lia.
Qed.

Lemma decode_loop_offset n ids off d : decode_loop decode_next ids off (set_offset n d) =
  let '(r, d') := decode_loop decode_next ids off d in (r, set_offset n d').
Proof.
  revert off d. induction ids as [|i ids IH]; intros off d; [done|]. cbn [decode_loop]. unfold bind at 1 3, decode_one. cbn.
  destruct (decode_next _ _ i) as [[t x]|e]; [|done]. unfold bind, gets. cbn. apply (IH _ (set_decoder x (set_text (output_text d ++ t) (set_tokens (token_ids d ++ [i]) d)))).
Qed.

Lemma check_stops_offset n off d : check_stops off (set_offset n d) = let '(r, d') := check_stops off d in (r, set_offset n d').
Proof.
  unfold check_stops, num_output_tokens. cbn -[check_stop_strings]. destruct (stop d) as [|t ts]; [done|]. destruct (_ <? _); [|done].
  destruct (check_stop_strings _ _ _ _) as [[s j]|]; [|done]. by destruct (j =? -1).
Qed.

(** An update does not depend on what was handed out. *)
Lemma update_offset n ids st d : update decode_next ids st (set_offset n d) = let '(r, d') := update decode_next ids st d in (r, set_offset n d').
Proof.
  unfold update. destruct (last ids) as [i|]; [|done]. unfold bind, gets. cbn. rewrite decode_loop_offset.
  destruct (decode_loop _ _ _ d) as [[off|e] d1]; [|done]. destruct (st && _); cbn; [|apply check_stops_offset].
  change (set_tokens (token_ids d1 ++ [i]) (set_offset n d1)) with (set_offset n (set_tokens (token_ids d1 ++ [i]) d1)). apply check_stops_offset.
Qed.

(** The last output of a stream is what is left of the text. *)
Lemma final_delta d : 0 ≤ last_output_text_offset d ≤ len (output_text d) →
  (get_next_output_text true true d).1 = Ok (drop (Z.to_nat (last_output_text_offset d)) (output_text d)).
Proof.
  intros Ho. unfold get_next_output_text. cbn. rewrite Z.sub_0_r. destruct (Z.ltb_spec (last_output_text_offset d) (len (output_text d))) as [Hlt|Hge]; cbn.
  - rewrite py_slice_nonneg by lia. f_equal. apply take_ge. rewrite length_drop. unfold len in *. lia.
  - rewrite drop_ge by (unfold len in *; lia). done.
Qed.

Lemma collect_offset n chunks d : collect decode_next chunks (set_offset n d) =
  let '(r, d') := collect decode_next chunks d in (r, set_offset n d').
Proof.
  revert d. induction chunks as [|[[ids st] pull] chunks IH]; intros d; [done|]. cbn [collect]. unfold bind. rewrite update_offset.
  destruct (update decode_next ids st d) as [[[t|]|e] d1]; [by destruct d1| |done]. destruct st; [by destruct d1|apply IH].
Qed.

(** What a pull hands out, and the state after it. *)
Lemma pull_ok d : detok_wf d → ∃ t n, get_next_output_text false true d = (Ok t, set_offset n d) ∧ last_output_text_offset d ≤ n ∧
  detok_wf (set_offset n d) ∧ t = take (Z.to_nat (n - last_output_text_offset d)) (drop (Z.to_nat (last_output_text_offset d)) (output_text d)).
Proof.
  intros [Hs Hb Hh Ho]. unfold get_next_output_text. cbn. destruct (Z.ltb_spec (last_output_text_offset d) (len (output_text d) - stop_buffer_length d)).
  - do 2 eexists. split; [done|]. split; [lia|]. split; [split; cbn; [done|done|done|lia]|]. apply py_slice_nonneg; lia.
  - exists [], (last_output_text_offset d). split; [by destruct d|]. split; [lia|].
    split; [split; cbn; [done|done|done|lia]|]. by rewrite Z.sub_diag.
Qed.

(** What is handed out in pieces is what remains of the final text, and the final
    text begins with what was handed out before. *)
Lemma stream_collect chunks d : detok_wf d →
  match (collect decode_next chunks d).1 with
  | Ok (t, r) => (stream decode_next chunks d).1 = Ok (drop (Z.to_nat (last_output_text_offset d)) t, r) ∧
      take (Z.to_nat (last_output_text_offset d)) t = take (Z.to_nat (last_output_text_offset d)) (output_text d)
  | Raise e => (stream decode_next chunks d).1 = Raise e
  end.
Proof.
  revert d. induction chunks as [|[[ids st] pull] chunks IH]; intros d Hwf; cbn [collect stream].
  - pose proof (final_delta d) as Hf. destruct Hwf as [_ Hb _ Ho]. pose proof (len_nonneg (output_text d)). unfold bind.
    destruct (get_next_output_text true true d) as [r d']. cbn in Hf. rewrite Hf by lia. done.
  - destruct (update decode_next ids st d) as [[r|e] d1] eqn:Hup; [|unfold bind; by rewrite Hup]. rewrite !(bind_ok _ _ _ _ _ Hup).
    destruct (update_ok ids st d r d1 Hwf Hup) as ((_ & _ & _ & _ & _ & Hlast) & Hle & Htake & Hnone).
    assert (Hend : ∀ o, (bind (get_next_output_text true true) (λ t, ret (t, o)) d1).1 = Ok (drop (Z.to_nat (last_output_text_offset d)) (output_text d1), o : option text)).
    { intros o. pose proof (final_delta d1) as Hf. rewrite Hlast in Hf. unfold bind. destruct (get_next_output_text true true d1) as [t d2].
      cbn in Hf. rewrite Hf by (destruct Hwf as [_ _ _ ?]; lia). done. }
    destruct r as [t|]; [by rewrite Hend|]. specialize (Hnone eq_refl). destruct st; [by rewrite Hend|].
    destruct pull.
    + destruct (pull_ok d1 Hnone) as (t1 & n & Hpull & Hn & Hwf2 & Ht1). rewrite !(bind_ok _ _ _ _ _ Hpull). specialize (IH (set_offset n d1) Hwf2).
      rewrite collect_offset in IH. destruct (collect decode_next chunks d1) as [[[t r]|e] d2]; cbn in *.
      * destruct IH as [IH1 IH2]. unfold bind. destruct (stream decode_next chunks (set_offset n d1)) as [x d3]. cbn in IH1. rewrite IH1. cbn.
        rewrite Hlast in Ht1. rewrite Ht1. destruct Hwf as [_ _ _ Ho]. set (a := Z.to_nat (last_output_text_offset d)) in *.
        assert (Hta : take a t = take a (output_text d1)).
        { rewrite Hlast in Hn. replace a with (a `min` Z.to_nat n)%nat by lia. by rewrite <-!take_take, IH2. }
        split; [|by rewrite Hta]. f_equal. f_equal. rewrite Hlast in Hn. replace (Z.to_nat (n - last_output_text_offset d)) with (Z.to_nat n - a)%nat by lia.
        rewrite take_drop_commute. replace (a + (Z.to_nat n - a))%nat with (Z.to_nat n) by lia. rewrite <-IH2. apply drop_take_drop. lia.
      * unfold bind. destruct (stream decode_next chunks (set_offset n d1)) as [x d3]. cbn in IH. by rewrite IH.
    + specialize (IH d1 Hnone). unfold bind. cbn [ret]. rewrite Hlast in IH.
      destruct (collect decode_next chunks d1) as [[[t r]|e] d2], (stream decode_next chunks d1) as [x d3]; cbn in *.
      * destruct IH as [-> IH2]. split; [done|]. by rewrite IH2.
      * by rewrite IH.
Qed.
End invariant.

(** ** The stop check against a search of the whole text *)

(** [t] occurs at [i] in [s] and ends after the first [b] characters. *)
Definition ends_after (b : Z) (s t : text) (i : nat) : Prop := occurs_at s t i ∧ b < Z.of_nat i + len t.

(** The first stop string of the list that ends after the first [b] characters,
    with its first such occurrence. *)
Fixpoint first_stop (b : Z) (s : text) (stops : list text) : option (text * nat) :=
  match stops with
  | [] => None
  | t :: stops => match head (filter (ends_after b s t) (seq 0 (S (length s)))) with Some i => Some (t, i) | None => first_stop b s stops end
  end.

(** The text up to the stop string, or up to its end. *)
Definition cut (include : bool) (s t : text) (i : nat) : text := if include then take (i + length t) s else take i s.

Definition clean (b : Z) (s : text) (stops : list text) : Prop := ∀ t i, t ∈ stops → ¬ ends_after b s t i.

Lemma occurs_prefix s s' t i : (i + length t ≤ length s)%nat → occurs_at (s ++ s') t i ↔ occurs_at s t i.
Proof. intros Hl. unfold occurs_at. rewrite drop_app_le by lia. by rewrite take_app_le by (rewrite length_drop; lia). Qed.

Lemma ends_skip b s s' t i : (∀ j, ¬ ends_after b s t j) → ends_after b (s ++ s') t i → (length s < i + length t)%nat.
Proof.
  intros Hno [Ho Hb]. destruct (Nat.le_gt_cases (i + length t) (length s)) as [Hle|]; [|done].
  apply (occurs_prefix s s') in Ho; [|done]. by destruct (Hno i).
Qed.

Lemma clean_short b s stops : Forall (λ t, t ≠ []) stops → len s ≤ b → clean b s stops.
Proof.
  intros Hs Hl t i Ht [Ho Hb]. eapply Forall_forall in Hs; [|done]. pose proof (occurs_len _ _ _ Ho Hs). unfold len in *. lia.
Qed.

(** Searching from the place the check starts at finds the first occurrence. *)
Lemma find_skips b s s' t : t ≠ [] → s' ≠ [] → b ≤ len s → (∀ j, ¬ ends_after b s t j) →
  py_find (s ++ s') t (1 - len s' - len t) =
    match head (filter (ends_after b (s ++ s') t) (seq 0 (S (length (s ++ s'))))) with Some i => Z.of_nat i | None => -1 end.
Proof.
  intros Ht Hs' Hb Hno. assert (0 < len t) by (destruct t; [done|rewrite len_cons; pose proof (len_nonneg t); lia]).
  assert (0 < len s') by (destruct s'; [done|rewrite len_cons; pose proof (len_nonneg s'); lia]).
  pose proof (head_filter_seq (ends_after b (s ++ s') t) 0 (S (length (s ++ s')))) as Hh.
  destruct (py_find_spec (s ++ s') t (1 - len s' - len t) Ht ltac:(lia)) as [[-> Hnone]|(i & -> & Ho & Hfrom & Hmin)]; rewrite decide_False in * by lia.
  - destruct (head _) as [i|]; [|done]. destruct Hh as (He & _ & _). destruct (Hnone i); [|apply He].
    pose proof (ends_skip b s s' t i Hno He). rewrite len_app. unfold len in *. lia.
  - pose proof (occurs_len _ _ _ Ho Ht). assert (ends_after b (s ++ s') t i) as He.
    { split; [done|]. rewrite len_app in Hfrom. unfold len in *. lia. }
    destruct (head _) as [i'|]; [|destruct (Hh i); [lia|done]]. destruct Hh as (He' & _ & Hmin').
    f_equal. pose proof (ends_skip b s s' t i' Hno He') as Hi'. destruct (Nat.lt_trichotomy i i') as [Hlt|[->|Hlt]]; [|done|].
    + destruct (Hmin' i); [lia|done].
    + destruct (Hmin i'); [|apply He']. rewrite len_app. unfold len in *. lia.
Qed.

Lemma check_loop_full b s s' stops incl : s' ≠ [] → b ≤ len s → Forall (λ t, t ≠ []) stops → clean b s stops →
  match first_stop b (s ++ s') stops with
  | None => check_stop_loop (s ++ s') (len s') stops incl = None
  | Some (t, i) => ∃ j, check_stop_loop (s ++ s') (len s') stops incl = Some (t, j) ∧
      (if j =? -1 then s ++ s' else py_slice_to (s ++ s') j) = cut incl (s ++ s') t i
  end.
Proof.
  intros Hs' Hb. induction 1 as [|t stops Ht Hall IH]; intros Hcl; [done|]. cbn [first_stop check_stop_loop].
  rewrite (find_skips b s s' t Ht Hs' Hb) by (intros j; apply Hcl; left).
  pose proof (head_filter_seq (ends_after b (s ++ s') t) 0 (S (length (s ++ s')))) as Hh. destruct (head _) as [i|].
  2: { rewrite Z.eqb_refl. apply IH. intros t' j Ht'. apply Hcl. by right. }
  destruct Hh as ([Ho _] & _ & _). pose proof (occurs_len _ _ _ Ho Ht). rewrite (proj2 (Z.eqb_neq (Z.of_nat i) (-1))) by lia. unfold cut. destruct incl.
  - destruct (Z.leb_spec (len (s ++ s')) (Z.of_nat i + len t)); eexists; (split; [done|]).
    + cbn. rewrite take_ge; [done|]. unfold len in *. lia.
    + rewrite (proj2 (Z.eqb_neq _ _)) by (unfold len in *; lia). rewrite py_slice_to_nonneg by (unfold len in *; lia). f_equal. unfold len. lia.
  - eexists. split; [done|]. rewrite (proj2 (Z.eqb_neq _ _)) by lia. rewrite py_slice_to_nonneg by lia. f_equal. lia.
Qed.

Lemma first_stop_none b s stops : first_stop b s stops = None → Forall (λ t, t ≠ []) stops → clean b s stops.
Proof.
  induction stops as [|t stops IH]; cbn [first_stop]; intros Hf Hall t' i Ht' He; [by apply elem_of_nil in Ht'|].
  pose proof (head_filter_seq (ends_after b s t) 0 (S (length s))) as Hh. destruct (head _) as [i'|]; [done|].
  apply Forall_cons in Hall as [Ht Hall]. apply elem_of_cons in Ht' as [->|Ht']; [|by eapply IH].
  apply (Hh i); [|done]. destruct He as [Ho _]. pose proof (occurs_len _ _ _ Ho Ht). lia.
Qed.

Lemma first_stop_clean b s stops : clean b s stops → first_stop b s stops = None.
Proof.
  induction stops as [|t stops IH]; intros Hcl; [done|]. cbn [first_stop]. pose proof (head_filter_seq (ends_after b s t) 0 (S (length s))) as Hh.
  destruct (head _) as [i|]; [destruct Hh as (Ho & _); by apply Hcl in Ho; [|left]|]. apply IH. intros t' j Ht'. apply Hcl. by right.
Qed.

(** ** The place where stop strings start to count *)

Section boundary.
Context {D : Type}.
Implicit Type d : Detok D.
Variable decode_next : D → list Z → Z → res (text * D).

(** The detokenizer after decoding [ids], and its text. *)
Definition decoded (ids : list Z) d : Detok D := (for_each ids (decode_one decode_next) d).2.
Definition decoded_text (ids : list Z) d : text := output_text (decoded ids d).

(** The text of the first [min_tokens] output tokens ends here: tokens of [ids]
    move the place while fewer were decoded before; else it stays at [b]. *)
Definition boundary (ids : list Z) d (b : Z) : Z :=
  if num_output_tokens d <? min_tokens d
  then len (decoded_text (take (Z.to_nat (min_tokens d - num_output_tokens d)) ids) d) else b.

(** The text of [d] was searched: no stop string ends in it after [b], which
    is its whole length while no more than [min_tokens] tokens were decoded. *)
Record searched (b : Z) d : Prop := {
  sr_prompt : prompt_len d ≤ len (token_ids d);
  sr_bound : b ≤ len (output_text d);
  sr_early : num_output_tokens d ≤ min_tokens d → b = len (output_text d);
  sr_clean : clean b (output_text d) (stop d);
}.

Lemma searched_new stops m incl prompt x :
  Forall (λ t, t ≠ []) stops → searched 0 (new_detok (D := D) stops m incl prompt x).
Proof. intros Hs. split; cbn; [lia|done|done|by apply clean_short]. Qed.

Lemma decode_one_inv i d d1 : decode_one decode_next i d = (Ok tt, d1) →
  same_config d d1 ∧ token_ids d1 = token_ids d ++ [i] ∧ ∃ t, output_text d1 = output_text d ++ t.
Proof. unfold decode_one. destruct (decode_next _ _ i) as [[t x]|e]; [|done]. intros [= <-]. cbn. split_and!; try done. by exists t. Qed.

Lemma decoded_cons i ids d d1 : decode_one decode_next i d = (Ok tt, d1) → decoded (i :: ids) d = decoded ids d1.
Proof. intros H. unfold decoded. cbn [for_each]. by rewrite (bind_ok _ _ _ _ _ H). Qed.

(** The loop decodes the tokens, and its value is the later of where it started
    and the boundary. *)
Lemma decode_loop_exact ids : ∀ off d off' d', decode_loop decode_next ids off d = (Ok off', d') → 0 ≤ num_output_tokens d →
  d' = decoded ids d ∧ off' = (if decide (num_output_tokens d < min_tokens d ∧ ids ≠ []) then boundary ids d off else off).
Proof.
  induction ids as [|i ids IH]; intros off d off' d'.
  { cbn. intros [= <- <-] _. split; [done|]. by rewrite decide_False by naive_solver. }
  cbn [decode_loop]. intros Hrun Hn. apply bind_inv in Hrun as ([] & d1 & Hone & Hrun).
  apply bind_inv in Hrun as (o & d2 & [= <- <-] & Hrun). destruct (decode_one_inv _ _ _ Hone) as ((C1 & C2 & C3 & C4 & C5 & C6) & Htok & _).
  assert (num_output_tokens d1 = num_output_tokens d + 1) as Hn1.
  { unfold num_output_tokens. rewrite Htok, len_app, C5, len_cons, len_nil. lia. }
  apply IH in Hrun as [-> ->]; [|lia]. split; [by rewrite (decoded_cons _ _ _ _ Hone)|]. rewrite Hn1, C2. unfold boundary. rewrite Hn1, C2.
  destruct (Z.eqb_spec (min_tokens d) 0) as [H0|H0]; cbn [negb andb].
  { rewrite !decide_False by lia. done. }
  destruct (Z.leb_spec (num_output_tokens d + 1) (min_tokens d)).
  2: { rewrite !decide_False by lia. done. }
  rewrite (decide_True _ _ (P := num_output_tokens d < min_tokens d ∧ _)) by (split; [lia|done]).
  rewrite (proj2 (Z.ltb_lt (num_output_tokens d) _)) by lia.
  replace (Z.to_nat (min_tokens d - num_output_tokens d)) with (S (Z.to_nat (min_tokens d - (num_output_tokens d + 1)))) by lia.
  cbn [take]. unfold decoded_text. rewrite (decoded_cons _ _ _ _ Hone). case_decide as Hd.
  - by rewrite (proj2 (Z.ltb_lt _ _)) by lia.
  - assert (take (Z.to_nat (min_tokens d - (num_output_tokens d + 1))) ids = []) as ->; [|done].
    destruct ids; [apply take_nil|]. replace (min_tokens d - (num_output_tokens d + 1)) with 0; [done|].
    destruct (Z.lt_trichotomy (num_output_tokens d + 1) (min_tokens d)) as [|[]]; [|lia..]. destruct Hd. by split.
Qed.

Lemma decode_loop_grows ids : ∀ off d off' d', decode_loop decode_next ids off d = (Ok off', d') →
  same_config d d' ∧ token_ids d' = token_ids d ++ ids ∧ ∃ t, output_text d' = output_text d ++ t.
Proof.
  induction ids as [|i ids IH]; intros off d off' d'.
  { cbn. intros [= _ <-]. rewrite app_nil_r. split_and!; try done. exists []. by rewrite app_nil_r. }
  cbn [decode_loop]. intros Hrun. apply bind_inv in Hrun as ([] & d1 & Hone & Hrun).
  apply bind_inv in Hrun as (o & d2 & [= <- <-] & Hrun). apply IH in Hrun as (Hcfg & -> & t & ->).
  destruct (decode_one_inv _ _ _ Hone) as (Hcfg1 & -> & t' & ->).
  split_and!; [unfold same_config in *; intuition congruence|by rewrite <-app_assoc|]. exists (t' ++ t). by rewrite app_assoc.
Qed.

(** Decoding a prefix gives a prefix of the text. *)
Lemma decoded_prefix ids : ∀ n d off off' d', decode_loop decode_next ids off d = (Ok off', d') →
  ∃ t, output_text d' = decoded_text (take n ids) d ++ t.
Proof.
  induction ids as [|i ids IH]; intros [|n] d off off' d' Hrun.
  1, 2, 3: destruct (decode_loop_grows _ _ _ _ _ Hrun) as (_ & _ & Ht); exact Ht.
  cbn [decode_loop take] in *. apply bind_inv in Hrun as ([] & d1 & Hone & Hrun).
  apply bind_inv in Hrun as (o & d2 & [= <- <-] & Hrun). unfold decoded_text. rewrite (decoded_cons _ _ _ _ Hone).
  by eapply IH.
Qed.

(** What the loop leaves for the check: the text is the part before the check's
    offset, in which no stop string ends after the boundary, and the new part. *)
Lemma decode_loop_window ids d b off d1 :
  Forall (λ t, t ≠ []) (stop d) → searched b d →
  decode_loop decode_next ids (len (output_text d)) d = (Ok off, d1) →
  ∃ s s', output_text d1 = s ++ s' ∧ len s = off ∧ boundary ids d b ≤ len s ∧ clean (boundary ids d b) s (stop d).
Proof.
  intros Hs [Hp Hb He Hcl] Hrun. assert (0 ≤ num_output_tokens d) as Hn by (unfold num_output_tokens; lia).
  destruct (decode_loop_grows _ _ _ _ _ Hrun) as (_ & _ & t & Ht).
  destruct (decode_loop_exact _ _ _ _ _ Hrun Hn) as [_ ->]. unfold boundary.
  destruct (Z.ltb_spec (num_output_tokens d) (min_tokens d)) as [Hlt|Hge].
  2: { rewrite decide_False by lia. by exists (output_text d), t. }
  destruct (decoded_prefix _ (Z.to_nat (min_tokens d - num_output_tokens d)) _ _ _ _ Hrun) as [t' Ht'].
  exists (decoded_text (take (Z.to_nat (min_tokens d - num_output_tokens d)) ids) d), t'.
  split_and!; [done| |done|by apply clean_short]. case_decide as Hd; [done|]. destruct ids as [|i ids]; [by rewrite take_nil|].
  destruct Hd. by split.
Qed.

(** Up to [min_tokens] tokens the boundary is the end of the text. *)
Lemma boundary_early (ids ids' : list Z) d b off d1 :
  searched b d → decode_loop decode_next ids (len (output_text d)) d = (Ok off, d1) →
  (length ids ≤ length ids')%nat → num_output_tokens d + len ids' ≤ min_tokens d → boundary ids d b = len (output_text d1).
Proof.
  intros [Hp Hb He Hcl] Hrun Hl Hn. assert (0 ≤ num_output_tokens d) as Hn0 by (unfold num_output_tokens; lia).
  destruct (decode_loop_exact _ _ _ _ _ Hrun Hn0) as [-> _]. pose proof (len_nonneg ids'). unfold boundary, decoded_text.
  destruct (Z.ltb_spec (num_output_tokens d) (min_tokens d)) as [Hlt|Hge].
  - by rewrite take_ge by (unfold len in *; lia).
  - destruct ids as [|i ids]; [|cbn in Hl; unfold len in *; lia]. apply He. lia.
Qed.
End boundary.

(** ** Theorems *)

Section theorems.
Context {D : Type}.
Implicit Type d : Detok D.
Variable decode_next : D → list Z → Z → res (text * D).

(** C19.  Streaming gives the client exactly the text of the request: whatever the
    steps at which outputs are made, the deltas joined are the text a
    non-streaming client gets, cut at the same stop string.  So no character is
    lost or sent twice, and none is sent that a stop string removes later. *)
Theorem stream_exact stops m incl prompt x chunks : Forall (λ t, t ≠ []) stops →
  let d := new_detok stops m incl prompt x in
  (stream decode_next chunks d).1 = (collect decode_next chunks d).1.
Proof.
  intros Hs d. pose proof (stream_collect decode_next chunks d (new_detok_wf _ _ _ _ _ Hs)) as Hc.
  destruct (collect decode_next chunks d) as [[[t r]|e] d']; cbn in *; [|done]. by destruct Hc as [-> _].
Qed.

(** The check on the state [d2] the loop and the skipped token leave. *)
Lemma check_stops_exact ids' ids d b off d1 d2 r d' :
  Forall (λ t, t ≠ []) (stop d) → searched b d → (length ids' ≤ length ids)%nat →
  decode_loop decode_next ids' (len (output_text d)) d = (Ok off, d1) →
  same_config d d2 ∧ output_text d2 = output_text d1 ∧ token_ids d2 = token_ids d ++ ids →
  check_stops off d2 = (Ok r, d') →
  let s := decoded_text decode_next ids' d in
  let b' := boundary decode_next ids' d b in
  match first_stop b' s (stop d) with
  | None => r = None ∧ output_text d' = s ∧ searched b' d'
  | Some (t, i) => r = Some t ∧ output_text d' = cut (include_stop_str_in_output d) s t i
  end.
Proof.
  intros Hs Hsr Hl Hloop ((C1 & C2 & C3 & _ & C5 & _) & Htext & Htok) Hrun.
  destruct (decode_loop_window _ _ _ _ _ _ Hs Hsr Hloop) as (s1 & s2 & Hsplit & Hoff & Hb' & Hcl).
  pose proof (boundary_early decode_next ids' ids d b off d1 Hsr Hloop Hl) as Hearly.
  pose proof Hsr as [Hp _ _ _]. assert (0 ≤ num_output_tokens d) as Hn0 by (unfold num_output_tokens; lia).
  destruct (decode_loop_exact _ _ _ _ _ _ Hloop Hn0) as [Hd1 _].
  intros s b'. assert (s = output_text d1) as -> by (unfold s, decoded_text; by rewrite <-Hd1). fold b' in Hb', Hcl, Hearly.
  assert (num_output_tokens d2 = num_output_tokens d + len ids) as Hn2 by (unfold num_output_tokens; rewrite Htok, C5, len_app; lia).
  assert (first_stop b' (output_text d1) (stop d) = None → searched b' d2) as Hnext.
  { intros Hf. split; rewrite ?Htext, ?C1, ?C2, ?Hn2; [rewrite Htok, C5, len_app; pose proof (len_nonneg ids); lia| |done|by apply first_stop_none].
    rewrite Hsplit, len_app. pose proof (len_nonneg s2). lia. }
  assert (clean b' (output_text d1) (stop d) → (Ok None, d2) = (Ok r, d') → first_stop b' (output_text d1) (stop d) = None ∧ r = None ∧ d' = d2) as Hnone.
  { intros Hc [= <- <-]. by rewrite first_stop_clean. }
  assert (clean b' (output_text d1) (stop d) → (Ok None, d2) = (Ok r, d') →
    match first_stop b' (output_text d1) (stop d) with
    | None => r = None ∧ output_text d' = output_text d1 ∧ searched b' d'
    | Some (t, i) => r = Some t ∧ output_text d' = cut (include_stop_str_in_output d) (output_text d1) t i
    end) as Hno.
  { intros Hc Hr. destruct (Hnone Hc Hr) as (Hf & -> & ->). specialize (Hnext Hf). by rewrite Hf. }
  unfold check_stops in Hrun. rewrite C1, C2, C3, Hn2, Htext in Hrun.
  destruct (stop d) as [|t0 stops] eqn:Hstop; [apply Hno; [by intros t i Ht%elem_of_nil|done]|]. rewrite <-Hstop in *.
  destruct (Z.ltb_spec (min_tokens d) (num_output_tokens d + len ids)) as [Hlt|Hge].
  2: { apply Hno; [|done]. apply clean_short; [done|]. rewrite Hearly; lia. }
  unfold check_stop_strings in Hrun. rewrite Hstop in Hrun. rewrite <-Hstop in Hrun.
  rewrite Hsplit in *. rewrite len_app, Hoff in Hrun. replace (off + len s2 - off) with (len s2) in Hrun by lia.
  destruct s2 as [|c s2]; [rewrite app_nil_r in *; by apply Hno|].
  rewrite (proj2 (Z.eqb_neq _ _)) in Hrun by (rewrite len_cons; pose proof (len_nonneg s2); lia).
  pose proof (check_loop_full b' s1 (c :: s2) (stop d) (include_stop_str_in_output d) ltac:(done) Hb' Hs Hcl) as Hfull.
  destruct (first_stop _ _ _) as [[w i']|].
  - destruct Hfull as (j & Hj & Hcut). rewrite Hj in Hrun. injection Hrun as <- <-. split; [done|]. rewrite <-Hcut, <-Htext. by destruct (j =? -1).
  - rewrite Hfull in Hrun. injection Hrun as <- <-. split_and!; [done|done|]. by apply Hnext.
Qed.

(** An update without tokens. *)
Lemma stop_nothing_new d b :
  searched b d →
  match first_stop (boundary decode_next [] d b) (decoded_text decode_next [] d) (stop d) with
  | None => @None text = None ∧ output_text d = decoded_text decode_next [] d ∧ searched (boundary decode_next [] d b) d
  | Some (t, i) => None = Some t ∧ output_text d = cut (include_stop_str_in_output d) (decoded_text decode_next [] d) t i
  end.
Proof.
  intros Hsr. assert (boundary decode_next [] d b = b) as ->.
  { unfold boundary. destruct (Z.ltb_spec (num_output_tokens d) (min_tokens d)); [|done]. rewrite take_nil. symmetry. apply (sr_early _ _ Hsr). lia. }
  change (decoded_text decode_next [] d) with (output_text d). rewrite first_stop_clean by apply Hsr. done.
Qed.

(** C18.  Although only the end of the text is searched, the stop check finds
    what a search of the whole text finds, for every [min_tokens].  Only an
    occurrence that ends after the text of the first [min_tokens] tokens counts.
    When the text so far has no such occurrence, an update that returns matches
    the first stop string of the list that has one, and cuts the text at its
    first such occurrence (behind it when the stop string is included); if there
    is none, nothing is cut and the next update starts from a searched text
    again, as a new detokenizer does.  A stop token that ends the request is
    counted but not decoded unless stop strings are included. *)
Theorem update_stop_exact ids (st : bool) d b r d' :
  Forall (λ t, t ≠ []) (stop d) → searched b d → update decode_next ids st d = (Ok r, d') →
  let ids' := if st && negb (include_stop_str_in_output d) then removelast ids else ids in
  let s := decoded_text decode_next ids' d in
  let b' := boundary decode_next ids' d b in
  match first_stop b' s (stop d) with
  | None => r = None ∧ output_text d' = s ∧ searched b' d'
  | Some (t, i) => r = Some t ∧ output_text d' = cut (include_stop_str_in_output d) s t i
  end.
Proof.
  intros Hs Hsr Hrun. unfold update in Hrun. destruct (last ids) as [i|] eqn:Hlast.
  2: { injection Hrun as <- <-. apply last_None in Hlast as ->. destruct (st && _); by apply stop_nothing_new. }
  apply bind_inv in Hrun as (incl & d0 & [= <- <-] & Hrun). apply bind_inv in Hrun as (off0 & d0 & [= <- <-] & Hrun).
  set (skip := st && negb (include_stop_str_in_output d)) in *. intros ids' s b'.
  apply bind_inv in Hrun as (off & d1 & Hloop & Hrun). apply bind_inv in Hrun as ([] & d2 & Hskip & Hrun).
  apply (check_stops_exact ids' ids d b off d1 d2); try done.
  - unfold ids'. destruct skip; [|done]. apply last_Some in Hlast as [l ->]. rewrite removelast_last, length_app. lia.
  - unfold ids' in *. destruct (decode_loop_grows _ _ _ _ _ _ Hloop) as (Hcfg & Htok & _). destruct skip; injection Hskip as <-; [|done].
    apply last_Some in Hlast as [l ->]. rewrite removelast_last in Htok. unfold same_config in *. cbn. by rewrite Htok, <-app_assoc.
Qed.
End theorems.

(** ** The slow detokenizer and the whole text *)

Section slow.
Variable tk : Tokenizer.
Variables skip spaces : bool.
Variable piece : text → text.
(** A tokenizer that joins the texts of its tokens. *)
Hypothesis Hfast : is_fast tk = true.
Hypothesis Hjoin : ∀ l, convert_tokens_to_string tk l = concat (piece <$> l).

Definition slow_wf (x : SlowDecoder) : Prop := 0 ≤ sd_prefix_offset x ≤ sd_read_offset x ∧ sd_read_offset x ≤ len (sd_tokens x).

(** The text of the tokens that were read. *)
Definition read_text (x : SlowDecoder) : text := concat (piece <$> take (Z.to_nat (sd_read_offset x)) (sd_tokens x)).

(** With a tokenizer that joins the texts of its tokens, the slow detokenizer
    returns the text of every token exactly once and in order: the new text is what
    the read tokens gained, and tokens stay unread only while their text is empty
    or ends in an unfinished character. *)
Theorem slow_decode_exact x ids i : slow_wf x → last ids = Some i →
  ∃ t x', slow_decode_next tk skip spaces x ids i = Ok (t, x') ∧ slow_wf x' ∧ read_text x' = read_text x ++ t ∧
    (∃ new, sd_tokens x' = sd_tokens x ++ new) ∧
    (sd_read_offset x' = len (sd_tokens x') ∨
     let unread := concat (piece <$> drop (Z.to_nat (sd_read_offset x)) (sd_tokens x')) in
     t = [] ∧ sd_read_offset x' = sd_read_offset x ∧ (unread = [] ∨ last unread = Some replacement_char)).
Proof.
  intros (Hp & Hr) Hlast. unfold slow_decode_next, detokenize_incrementally. rewrite Hlast, Hfast. cbn [orb].
  match goal with |- context [sd_tokens x ++ ?n] => set (new := n) end. set (out := sd_tokens x ++ new). rewrite !Hjoin.
  set (p := sd_prefix_offset x) in *. set (r := sd_read_offset x) in *.
  assert (Hlen : r ≤ len out) by (unfold out; rewrite len_app; pose proof (len_nonneg new); lia).
  rewrite py_slice_nonneg, py_slice_from_nonneg by lia.
  set (pre := concat (piece <$> take (Z.to_nat (r - p)) (drop (Z.to_nat p) out))).
  assert (Hsplit : concat (piece <$> drop (Z.to_nat p) out) = pre ++ concat (piece <$> drop (Z.to_nat r) out)).
  { unfold pre. rewrite <-concat_app, <-fmap_app. do 2 f_equal. rewrite <-(take_drop (Z.to_nat (r - p)) (drop (Z.to_nat p) out)) at 1. f_equal.
    rewrite drop_drop. f_equal. lia. }
  rewrite Hsplit. set (u := concat (piece <$> drop (Z.to_nat r) out)). rewrite len_app.
  assert (Hread : ∀ p' n, read_text (MkSlow out p' n) = concat (piece <$> take (Z.to_nat n) out)) by done.
  assert (Hold : read_text x = concat (piece <$> take (Z.to_nat r) out)).
  { unfold read_text, out. by rewrite take_app_le by (unfold len in Hr; lia). }
  destruct (Z.leb_spec (len pre + len u) (len pre)) as [Hle|Hgt]; cbn [orb].
  - assert (Hu : u = []) by (destruct u; [done|rewrite len_cons in *; pose proof (len_nonneg u); lia]).
    do 2 eexists. split; [done|]. cbn. rewrite Hread, Hold, app_nil_r. split; [unfold slow_wf; cbn; fold out; lia|]. split; [done|]. split; [by exists new|]. right. auto.
  - case_bool_decide as Hend; cbn.
    + do 2 eexists. split; [done|]. cbn. rewrite Hread, Hold, app_nil_r. split; [unfold slow_wf; cbn; fold out; lia|]. split; [done|]. split; [by exists new|]. right. split_and!; [done|done|]. right.
      change (last u = Some replacement_char). assert (Hu : u ≠ []) by (intros ->; change (len (@nil Z)) with 0 in Hgt; lia). 
      rewrite last_app in Hend. destruct (last u) eqn:Hl; [exact Hend|by apply last_None in Hl].
    + do 2 eexists. split; [done|]. cbn. rewrite Hread, Hold. rewrite py_slice_from_nonneg by apply len_nonneg.
      assert (Hn : ∀ {A} (l : list A), Z.to_nat (len l) = length l) by (intros; apply Nat2Z.id). rewrite !Hn, drop_app_length, (take_ge out) by lia. split; [unfold slow_wf; cbn; fold out; unfold len in *; lia|].
      split; [|split; [by exists new|by left]]. unfold u. by rewrite <-concat_app, <-fmap_app, take_drop.
Qed.
End slow.

(** ** Runs *)

(** A decoder whose tokens are code points. *)
Definition char_decode (_ : unit) (_ : list Z) (i : Z) : res (text * unit) := Ok ([i], tt).

(** The stop string is the list 8 9; 7 8 is streamed in two steps. *)
Lemma stream_exact_witness :
  (stream char_decode [([7; 8], false, true); ([6; 8], false, true); ([9; 5], false, true)] (new_detok [[8; 9]] 0 false [] tt)).1 =
    Ok ([7; 8; 6], Some [8; 9]).
Proof.
  rewrite (stream_exact char_decode [[8; 9]] 0 false [] tt).
  - vm_compute. reflexivity.
  - repeat constructor. discriminate.
Defined.

(** The stop string 8 9 occurs twice; with [min_tokens] 2 the first occurrence
    does not count. *)
Definition min_two : Detok unit := new_detok [[8; 9]] 2 false [] tt.

Lemma update_stop_exact_witness :
  let u := update char_decode [8; 9; 7; 8; 9; 5] false min_two in
  u.1 = Ok (Some [8; 9]) ∧ output_text u.2 = [8; 9; 7].
Proof.
  split; [vm_compute; reflexivity|].
  assert (Forall (λ t : text, t ≠ []) [[8; 9]]) as Hs by (repeat constructor; discriminate).
  pose proof (update_stop_exact char_decode [8; 9; 7; 8; 9; 5] false min_two 0 (Some [8; 9])
    (update char_decode [8; 9; 7; 8; 9; 5] false min_two).2 Hs (searched_new [[8; 9]] 2 false [] tt Hs) ltac:(vm_compute; reflexivity)) as H.
  assert (first_stop (boundary char_decode [8; 9; 7; 8; 9; 5] min_two 0)
    (decoded_text char_decode [8; 9; 7; 8; 9; 5] min_two) (stop min_two) = Some ([8; 9], 3%nat)) as Hf by (vm_compute; reflexivity).
  cbn [andb] in H. cbv zeta in H. rewrite Hf in H. exact (proj2 H).
Defined.

(** A tokenizer whose token [i] is the character [i]. *)
Definition char_tokenizer : Tokenizer := MkTokenizer (λ l _, (λ i, Some [i]) <$> l) (λ l, concat l) [] [] true 100.

Lemma slow_decode_exact_witness :
  ∃ t x', slow_decode_next char_tokenizer false true (MkSlow [[1]; [2]] 0 2) [1; 2; 3] 3 = Ok (t, x') ∧ t = [3].
Proof.
  destruct (slow_decode_exact char_tokenizer false true id eq_refl ltac:(intros l; by rewrite list_fmap_id) (MkSlow [[1]; [2]] 0 2) [1; 2; 3] 3)
    as (t & x' & Hrun & _).
  - split; [split; discriminate|discriminate].
  - reflexivity.
  - exists t, x'. split; [exact Hrun|]. vm_compute in Hrun. injection Hrun as <- _. reflexivity.
Defined.

(** When one step brings several stop strings, the one first in the list decides
    where the text is cut, not the one first in the text: here the stop strings are
    "b" and "a" (98 and 97), the new text is "ab", and the text returned contains
    the stop string "a". *)
Theorem stop_string_left_in_text :
  (collect char_decode [([97; 98], false, false)] (new_detok [[98]; [97]] 0 false [] tt)).1 = Ok ([97], Some [98]).
Proof. vm_compute. reflexivity. Qed.
