(* ===== verification/RequestOutputs.v ===== *)
(** * Outputs of requests (vllm/outputs.py, vllm/v1/engine/parallel_sampling.py, RequestOutputCollector of
    vllm/v1/engine/output_processor.py)

    [RequestOutput.add] merges an output into one that the client has not taken
    yet; [RequestOutputCollector] is the one-place buffer between the engine's loop
    and the client; [ParentRequest] joins the outputs of the [n] children of a
    request.  Log probabilities are left out. *)

From stdpp Require Import pretty.
From S2P Require Import Prelude.
From S2P Require Import RequestModel.
From S2P Require Import Detokenizer.
#[local] Open Scope Z_scope.

(** ** Outputs *)

(** A stop reason of the engine, or a matched stop string. *)
Inductive CompletionStop :=
  | FromEngine (r : StopReason)
  | FromText (t : text).

Record CompletionOutput := MkCompletion {
  co_index : Z;
  co_text : text;
  co_token_ids : list Z;
  co_routed_experts : option (list Z);
  co_finish_reason : option FinishReason;
  co_stop_reason : option CompletionStop;
}.

(** [CompletionOutput.finished] *)
Definition co_finished (c : CompletionOutput) : bool := bool_decide (is_Some (co_finish_reason c)).

Record RequestOutput := MkRequestOutput {
  ro_request_id : string;
  ro_prompt : option text;
  ro_prompt_token_ids : option (list Z);
  ro_outputs : list CompletionOutput;
  ro_finished : bool;
  ro_num_cached_tokens : option Z;
  ro_kv_transfer_params : option (list string);
}.

Record PoolingRequestOutput := MkPoolingOutput {
  po_request_id : string;
  po_outputs : string;
  po_prompt_token_ids : list Z;
  po_num_cached_tokens : Z;
  po_finished : bool;
}.

(** The merge of two outputs with the same index. *)
Definition merge_completion (completion next : CompletionOutput) : CompletionOutput :=
  MkCompletion (co_index completion) (co_text completion ++ co_text next) (co_token_ids completion ++ co_token_ids next)
    (co_routed_experts completion) (co_finish_reason next) (co_stop_reason next).

(** The inner loop of [RequestOutput.add]: the first output with the index, or a
    new one. *)
Fixpoint add_completion (aggregate : bool) (outputs : list CompletionOutput) (next : CompletionOutput) : list CompletionOutput :=
  match outputs with
  | [] => [next]
  | completion :: outputs =>
      if co_index completion =? co_index next then (if aggregate then merge_completion completion next else next) :: outputs
      else completion :: add_completion aggregate outputs next
  end.

(** [RequestOutput.add] *)
Definition add_output (self next_output : RequestOutput) (aggregate : bool) : RequestOutput :=
  MkRequestOutput (ro_request_id self) (ro_prompt self) (ro_prompt_token_ids self)
    (foldl (add_completion aggregate) (ro_outputs self) (ro_outputs next_output))
    (ro_finished self || ro_finished next_output) (ro_num_cached_tokens self) (ro_kv_transfer_params next_output).

Definition STREAM_FINISHED : RequestOutput := MkRequestOutput "" None None [] true None None.

(** ** The collector *)

Inductive OutputItem :=
  | ReqOut (o : RequestOutput)
  | PoolOut (o : PoolingRequestOutput)
  | ErrOut (e : string).

Inductive RequestOutputKind := CUMULATIVE | DELTA | FINAL_ONLY.

#[global] Instance output_kind_eq_dec : EqDecision RequestOutputKind.
Proof. solve_decision. Defined.

Record Collector := MkCollector { aggregate : bool; pending : option OutputItem; ready : bool }.

Definition new_collector (output_kind : RequestOutputKind) : Collector := MkCollector (bool_decide (output_kind = DELTA)) None false.

Definition put (c : Collector) (output : OutputItem) : Collector :=
  match pending c, output with
  | None, _ | _, ErrOut _ => MkCollector (aggregate c) (Some output) true
  | Some (ReqOut o), ReqOut n => MkCollector (aggregate c) (Some (ReqOut (add_output o n (aggregate c)))) (ready c)
  | Some (PoolOut _), PoolOut _ => MkCollector (aggregate c) (Some output) (ready c)
  | _, _ => c
  end.

(** [get_nowait]; an exception that was put is raised to the caller. *)
Definition get_nowait (c : Collector) : option OutputItem * Collector :=
  match pending c with
  | Some o => (Some o, MkCollector (aggregate c) None false)
  | None => (None, c)
  end.

(** ** Parallel sampling *)

Record ChildParams := MkChildParams { cp_n : Z; cp_seed : option Z; cp_output_kind : RequestOutputKind }.

Record ParentRequest := MkParent {
  pr_request_id : string;
  pr_external_req_id : string;
  pr_params : ChildParams;
  pr_child_requests : gset string;
  pr_output_aggregator : list (option CompletionOutput);
  pr_max_num_generation_tokens : Z;
  pr_cached_child_sampling_params : option ChildParams;
}.

(** [ParentRequest.__init__] *)
Definition new_parent (request_id external_req_id : string) (params : ChildParams) : ParentRequest :=
  MkParent request_id external_req_id params ∅
    (if bool_decide (cp_output_kind params = FINAL_ONLY) then py_repeat None (cp_n params) else []) 0 None.

Definition set_children (l : gset string) (p : ParentRequest) : ParentRequest :=
  MkParent (pr_request_id p) (pr_external_req_id p) (pr_params p) l (pr_output_aggregator p) (pr_max_num_generation_tokens p)
    (pr_cached_child_sampling_params p).
Definition set_aggregator (l : list (option CompletionOutput)) (p : ParentRequest) : ParentRequest :=
  MkParent (pr_request_id p) (pr_external_req_id p) (pr_params p) (pr_child_requests p) l (pr_max_num_generation_tokens p)
    (pr_cached_child_sampling_params p).
Definition set_cached (c : option ChildParams) (p : ParentRequest) : ParentRequest :=
  MkParent (pr_request_id p) (pr_external_req_id p) (pr_params p) (pr_child_requests p) (pr_output_aggregator p)
    (pr_max_num_generation_tokens p) c.
Definition set_max_tokens (n : Z) (p : ParentRequest) : ParentRequest :=
  MkParent (pr_request_id p) (pr_external_req_id p) (pr_params p) (pr_child_requests p) (pr_output_aggregator p) n
    (pr_cached_child_sampling_params p).

(** [_get_child_sampling_params] *)
Definition get_child_sampling_params (p : ParentRequest) (index : Z) : ChildParams * ParentRequest :=
  match pr_cached_child_sampling_params p with
  | Some c => (c, p)
  | None =>
      match cp_seed (pr_params p) with
      | None =>
          let c := MkChildParams 1 None (cp_output_kind (pr_params p)) in
          (c, set_cached (Some c) p)
      | Some seed => (MkChildParams 1 (Some (seed + index)) (cp_output_kind (pr_params p)), p)
      end
  end.

(** [f"{index}_{self.request_id}"] *)
Definition child_id (request_id : string) (index : Z) : string := pretty index +:+ "_" +:+ request_id.

Definition get_child_info (p : ParentRequest) (index : Z) : string * ChildParams * ParentRequest :=
  let child_req_id := child_id (pr_request_id p) index in
  let p := set_children ({[ child_req_id ]} ∪ pr_child_requests p) p in
  let '(params, p) := get_child_sampling_params p index in
  (child_req_id, params, p).

(** [self.output_aggregator[i] = output] *)
Definition py_set {A} (l : list A) (i : Z) (x : A) : res (list A) :=
  let j := if i <? 0 then i + len l else i in
  if (0 <=? j) && (j <? len l) then Ok (<[Z.to_nat j := x]> l) else Raise IndexError.

(** [get_outputs]; a place of [output_aggregator] that was not filled yet is None. *)
Definition get_outputs (p : ParentRequest) (child_request_id : string) (completion_output : CompletionOutput)
    : res (list (option CompletionOutput) * bool * ParentRequest) :=
  let known := bool_decide (child_request_id ∈ pr_child_requests p) in
  let already_finished_and_returned := co_finished completion_output && negb known in
  let p := if co_finished completion_output && known then set_children (pr_child_requests p ∖ {[ child_request_id ]}) p else p in
  let no_children := bool_decide (pr_child_requests p = ∅) in
  if negb (bool_decide (cp_output_kind (pr_params p) = FINAL_ONLY)) then
    Ok (if already_finished_and_returned then [] else [Some completion_output], no_children, p)
  else
    let? l := py_set (pr_output_aggregator p) (co_index completion_output) (Some completion_output) in
    Ok (if no_children then l else [], no_children, set_aggregator l p).

Definition observe_num_generation_tokens (p : ParentRequest) (num_generation_tokens : Z) : ParentRequest :=
  set_max_tokens (Z.max num_generation_tokens (pr_max_num_generation_tokens p)) p.

(** ** The collector loses nothing *)

(** What the outputs say of one index: the texts, or the tokens, joined. *)
Definition part (f : CompletionOutput → list Z) (i : Z) (outputs : list CompletionOutput) : list Z :=
  concat (f <$> filter (λ c, co_index c = i) outputs).

Section merge.
Variable f : CompletionOutput → list Z.
Hypothesis Hf : ∀ c n, f (merge_completion c n) = f c ++ f n.

Lemma part_cons i c l : part f i (c :: l) = (if decide (co_index c = i) then f c else []) ++ part f i l.
Proof. unfold part. destruct (decide (co_index c = i)); [by rewrite filter_cons_True|by rewrite filter_cons_False]. Qed.

Lemma part_absent i l : i ∉ co_index <$> l → part f i l = [].
Proof.
  induction l as [|c l IH]; [done|]. rewrite fmap_cons, not_elem_of_cons, part_cons. intros [Hne Hl]. rewrite decide_False by congruence. by apply IH.
Qed.

Lemma add_completion_part i l n : NoDup (co_index <$> l) →
  NoDup (co_index <$> add_completion true l n) ∧ (∀ j, j ∈ co_index <$> add_completion true l n → j = co_index n ∨ j ∈ co_index <$> l) ∧
  part f i (add_completion true l n) = part f i l ++ (if decide (co_index n = i) then f n else []).
Proof.
  induction l as [|c l IH]; intros Hnd.
  - cbn [add_completion]. split; [apply NoDup_singleton|]. split; [intros j Hj; apply list_elem_of_singleton in Hj; by left|].
    rewrite part_cons. by rewrite app_nil_r.
  - cbn [add_completion]. rewrite fmap_cons in Hnd. apply NoDup_cons in Hnd as [Hc Hnd]. destruct (Z.eqb_spec (co_index c) (co_index n)) as [Heq|Hne].
    + rewrite !part_cons, fmap_cons. cbn [co_index merge_completion]. split; [by apply NoDup_cons|]. split; [intros j Hj; by right|].
      rewrite Hf, Heq. destruct (decide (co_index n = i)) as [Hi|]; [|by rewrite app_nil_r].
      rewrite (part_absent i l) by (rewrite <-Hi, <-Heq; done). by rewrite !app_nil_r.
    + destruct (IH Hnd) as (Hnd' & Hsub & Hpart). rewrite !part_cons, Hpart, app_assoc, !fmap_cons. split_and!; [|..|done].
      * apply NoDup_cons. split; [|done]. intros [?|?]%Hsub; [congruence|done].
      * intros j Hj. apply elem_of_cons in Hj as [->|Hj]; [right; left|]. apply Hsub in Hj as [->|Hj]; [by left|right; by right].
Qed.

Lemma add_output_part i o n : NoDup (co_index <$> ro_outputs o) →
  NoDup (co_index <$> ro_outputs (add_output o n true)) ∧ part f i (ro_outputs (add_output o n true)) = part f i (ro_outputs o) ++ part f i (ro_outputs n).
Proof.
  cbn. generalize (ro_outputs o). intros l. revert l. induction (ro_outputs n) as [|c cs IH]; intros l Hnd; cbn [foldl]; [by rewrite app_nil_r|].
  destruct (add_completion_part i l c Hnd) as (Hnd' & _ & Hp). destruct (IH _ Hnd') as [Hnd'' Hp']. split; [done|]. by rewrite Hp', Hp, part_cons, <-app_assoc.
Qed.
End merge.

(** What the engine's loop and the client do with the collector. *)
Inductive collector_op := CPut (o : RequestOutput) | CGet.

(** The outputs the client receives, and the collector at the end. *)
Fixpoint collector_run (ops : list collector_op) (c : Collector) : list OutputItem * Collector :=
  match ops with
  | [] => ([], c)
  | CPut o :: ops => collector_run ops (put c (ReqOut o))
  | CGet :: ops =>
      let '(o, c) := get_nowait c in
      let '(l, c) := collector_run ops c in
      (option_list o ++ l, c)
  end.

Definition puts_of (ops : list collector_op) : list RequestOutput := omap (λ op, match op with CPut o => Some o | CGet => None end) ops.

Definition item_part (f : CompletionOutput → list Z) (i : Z) (o : OutputItem) : list Z :=
  match o with ReqOut o => part f i (ro_outputs o) | _ => [] end.
Definition item_finished (o : OutputItem) : bool := match o with ReqOut o => ro_finished o | _ => false end.

(** A collector that holds at most an output with one entry per index. *)
Definition collector_wf (c : Collector) : Prop :=
  aggregate c = true ∧ match pending c with None => True | Some (ReqOut o) => NoDup (co_index <$> ro_outputs o) | Some _ => False end.

Lemma collector_run_part f i ops c l c' : (∀ c n, f (merge_completion c n) = f c ++ f n) → collector_wf c →
  Forall (λ o, NoDup (co_index <$> ro_outputs o)) (puts_of ops) → collector_run ops c = (l, c') →
  concat (item_part f i <$> l ++ option_list (pending c')) =
    concat (item_part f i <$> option_list (pending c)) ++ concat ((λ o, part f i (ro_outputs o)) <$> puts_of ops) ∧
  existsb item_finished (l ++ option_list (pending c')) = existsb item_finished (option_list (pending c)) || existsb ro_finished (puts_of ops).
Proof.
  intros Hf. revert c l. induction ops as [|[o|] ops IH]; intros c l [Hagg Hwf] Hall Hrun; cbn [collector_run] in Hrun.
  - injection Hrun as <- <-. rewrite app_nil_l. by rewrite app_nil_r, orb_false_r.
  - cbn in Hall. apply Forall_cons in Hall as [Ho Hall]. unfold put in Hrun. cbn [puts_of omap list_omap]. destruct (pending c) as [[p|p|p]|] eqn:Hp; try done.
    + destruct (add_output_part f Hf i p o Hwf) as [Hnd Hpart].
      rewrite Hagg in Hrun.
      destruct (IH _ _ (conj eq_refl Hnd : collector_wf (MkCollector true (Some (ReqOut (add_output p o true))) (ready c))) Hall Hrun) as [E1 E2].
      rewrite E1, E2.
      fold (puts_of ops). cbn -[add_output]. rewrite Hpart, !app_nil_r, <-app_assoc. split; [done|]. by rewrite !orb_false_r, orb_assoc.
    + rewrite Hagg in Hrun. destruct (IH _ _ (conj eq_refl Ho : collector_wf (MkCollector true (Some (ReqOut o)) true)) Hall Hrun) as [E1 E2]. rewrite E1, E2. fold (puts_of ops). cbn. by rewrite app_nil_r, orb_false_r.
  - unfold get_nowait in Hrun. destruct (pending c) as [p|] eqn:Hp.
    + destruct (collector_run ops _) as [l1 c1] eqn:Hrun1. injection Hrun as <- <-. rewrite Hagg in Hrun1.
      destruct (IH _ _ (conj eq_refl I : collector_wf (MkCollector true None false)) Hall Hrun1) as [E1 E2].
      cbn in *. rewrite E1, E2. by rewrite app_nil_r, orb_false_r.
    + destruct (collector_run ops c) as [l1 c1] eqn:Hrun1. injection Hrun as <- <-. destruct (IH c l1) as [E1 E2]; [split; [done|by rewrite Hp]|done|done|].
      rewrite Hp in E1, E2. done.
Qed.

(** C30.  A streaming client loses nothing when it is slower than the engine:
    whatever the interleaving of the outputs put and taken, for every index the
    texts taken, with the one still waiting, joined are the texts put, joined, and
    so are the token ids; and it has been told that the request finished exactly
    when an output put said so. *)
Theorem collector_lossless ops i l c : Forall (λ o, NoDup (co_index <$> ro_outputs o)) (puts_of ops) →
  collector_run ops (new_collector DELTA) = (l, c) →
  let seen := l ++ option_list (pending c) in
  concat (item_part co_text i <$> seen) = concat ((λ o, part co_text i (ro_outputs o)) <$> puts_of ops) ∧
  concat (item_part co_token_ids i <$> seen) = concat ((λ o, part co_token_ids i (ro_outputs o)) <$> puts_of ops) ∧
  existsb item_finished seen = existsb ro_finished (puts_of ops).
Proof.
  intros Hall Hrun seen. assert (Hwf : collector_wf (new_collector DELTA)) by done.
  destruct (collector_run_part co_text i ops _ l c ltac:(done) Hwf Hall Hrun) as [H1 H2].
  destruct (collector_run_part co_token_ids i ops _ l c ltac:(done) Hwf Hall Hrun) as [H3 _]. done.
Qed.

(** ** The children of a request *)

Lemma append_inj_r (a b t : string) : a +:+ t = b +:+ t → a = b.
Proof.
  intros Heq. apply (f_equal String.list_ascii_of_string) in Heq.
  assert (Happ : ∀ x y, String.list_ascii_of_string (x +:+ y) = String.list_ascii_of_string x ++ String.list_ascii_of_string y) 
    by (induction x as [|ch x IH]; intros y; [done|]; change (String ch x +:+ y) with (String ch (x +:+ y)); cbn; by rewrite IH).
  rewrite !Happ in Heq. apply app_inv_tail in Heq. rewrite <-(String.string_of_list_ascii_of_string a), <-(String.string_of_list_ascii_of_string b). by rewrite Heq.
Qed.

#[global] Instance child_id_inj rid : Inj (=) (=) (child_id rid).
Proof. intros i j Heq. by apply append_inj_r, (inj pretty) in Heq. Qed.

(** The children 0 to [n-1] are made. *)
Definition make_children (p : ParentRequest) : ParentRequest := foldl (λ p i, (get_child_info p i).2) p (py_range 0 (cp_n (pr_params p))).

Lemma get_child_info_eq p i :
  let '(rid, _, p') := get_child_info p i in
  rid = child_id (pr_request_id p) i ∧ pr_request_id p' = pr_request_id p ∧ pr_params p' = pr_params p ∧
  pr_output_aggregator p' = pr_output_aggregator p ∧ pr_child_requests p' = {[ child_id (pr_request_id p) i ]} ∪ pr_child_requests p.
Proof.
  unfold get_child_info, get_child_sampling_params. cbn. destruct (pr_cached_child_sampling_params p); [done|]. by destruct (cp_seed (pr_params p)).
Qed.

Lemma make_children_loop p l : let p' := foldl (λ p i, (get_child_info p i).2) p l in
  pr_request_id p' = pr_request_id p ∧ pr_params p' = pr_params p ∧ pr_output_aggregator p' = pr_output_aggregator p ∧
  ∀ x, x ∈ pr_child_requests p' ↔ x ∈ pr_child_requests p ∨ ∃ i, i ∈ l ∧ x = child_id (pr_request_id p) i.
Proof.
  revert p. induction l as [|i l IH]; intros p; cbn [foldl].
  - split_and!; try done. intros x. split; [auto|]. intros [?|(i & Hi & _)]; [done|]. by apply elem_of_nil in Hi.
  - pose proof (get_child_info_eq p i) as Hi. destruct (get_child_info p i) as [[rid c] p1]. destruct Hi as (_ & H1 & H2 & H3 & H4). cbn [snd].
    destruct (IH p1) as (E1 & E2 & E3 & E4). rewrite E1, E2, E3, H1, H2, H3. split_and!; try done. intros x. rewrite E4, H1, H4. set_solver.
Qed.

(** Different children of a seeded request get different seeds. *)
Lemma child_seeds p i j seed : pr_cached_child_sampling_params p = None → cp_seed (pr_params p) = Some seed → i ≠ j →
  cp_seed (get_child_info p i).1.2 = Some (seed + i) ∧ cp_seed (get_child_info p i).1.2 ≠ cp_seed (get_child_info (get_child_info p i).2 j).1.2.
Proof.
  intros Hc Hs Hne. unfold get_child_info, get_child_sampling_params. cbn. rewrite Hc, Hs. cbn. rewrite Hc, Hs. cbn. split; [done|]. intros [= Heq]. lia.
Qed.

(** The final outputs of the children, in the order they arrive. *)
Fixpoint finish_children (p : ParentRequest) (outs : list CompletionOutput) : res (list (list (option CompletionOutput) * bool) * ParentRequest) :=
  match outs with
  | [] => Ok ([], p)
  | c :: outs =>
      let? r := get_outputs p (child_id (pr_request_id p) (co_index c)) c in
      let '(l, finished, p) := r in
      let? rest := finish_children p outs in
      Ok ((l, finished) :: rest.1, rest.2)
  end.

Definition fill (l : list (option CompletionOutput)) (outs : list CompletionOutput) : list (option CompletionOutput) :=
  foldl (λ l c, <[Z.to_nat (co_index c) := Some c]> l) l outs.

Lemma fill_lookup outs l c : NoDup (co_index <$> outs) → Forall (λ c, 0 ≤ co_index c < len l) outs → c ∈ outs →
  fill l outs !! Z.to_nat (co_index c) = Some (Some c).
Proof.
  assert (Hkeep : ∀ outs l j x, Forall (λ c, 0 ≤ co_index c) outs → 0 ≤ j → j ∉ co_index <$> outs → l !! Z.to_nat j = x → fill l outs !! Z.to_nat j = x).
  { clear. induction outs as [|c outs IH]; intros l j x Hpos Hj Hnin Hl; [done|]. rewrite fmap_cons, not_elem_of_cons in Hnin. destruct Hnin as [Hne Hnin].
    apply Forall_cons in Hpos as [Hc Hpos]. apply IH; [done|done|done|]. rewrite list_lookup_insert_ne by lia. done. }
  revert l. induction outs as [|c' outs IH]; intros l Hnd Hall Hin; [by apply elem_of_nil in Hin|]. rewrite fmap_cons in Hnd. apply NoDup_cons in Hnd as [Hc Hnd].
  apply Forall_cons in Hall as [Hb Hall]. cbn [fill foldl]. apply elem_of_cons in Hin as [->|Hin].
  - apply Hkeep; [eapply Forall_impl; [exact Hall|]; cbn; lia|lia|done|]. apply list_lookup_insert_eq. unfold len in Hb. lia.
  - apply IH; [done| |done]. eapply Forall_impl; [exact Hall|]. intros x Hx. unfold len in *. by rewrite length_insert.
Qed.

Lemma get_outputs_final p c : cp_output_kind (pr_params p) = FINAL_ONLY → co_finished c = true → 0 ≤ co_index c < len (pr_output_aggregator p) →
  child_id (pr_request_id p) (co_index c) ∈ pr_child_requests p →
  let l := <[Z.to_nat (co_index c) := Some c]> (pr_output_aggregator p) in
  let p' := set_aggregator l (set_children (pr_child_requests p ∖ {[ child_id (pr_request_id p) (co_index c) ]}) p) in
  get_outputs p (child_id (pr_request_id p) (co_index c)) c = Ok (if bool_decide (pr_child_requests p' = ∅) then l else [], bool_decide (pr_child_requests p' = ∅), p').
Proof.
  intros Hk Hfin Hi Hin. unfold get_outputs. rewrite Hfin, (bool_decide_true (_ ∈ _)) by done. cbn. rewrite Hk. cbn. unfold py_set.
  rewrite (proj2 (Z.ltb_ge _ _)) by lia. rewrite (proj2 (Z.leb_le _ _)), (proj2 (Z.ltb_lt _ _)) by lia. done.
Qed.

Lemma finish_children_ok outs p : outs ≠ [] → cp_output_kind (pr_params p) = FINAL_ONLY → NoDup (co_index <$> outs) →
  Forall (λ c, 0 ≤ co_index c < len (pr_output_aggregator p) ∧ co_finished c = true) outs →
  (∀ x, x ∈ pr_child_requests p ↔ ∃ c, c ∈ outs ∧ x = child_id (pr_request_id p) (co_index c)) →
  ∃ p', finish_children p outs = Ok (replicate (length outs - 1) ([], false) ++ [(fill (pr_output_aggregator p) outs, true)], p') ∧ pr_child_requests p' = ∅.
Proof.
  revert p. induction outs as [|c outs IH]; intros p Hne Hk Hnd Hall Hch; [done|]. rewrite fmap_cons in Hnd. apply NoDup_cons in Hnd as [Hc Hnd].
  apply Forall_cons in Hall as [[Hi Hfin] Hall]. cbn [finish_children].
  rewrite get_outputs_final by (done || (apply Hch; exists c; split; [left|done])). cbn [res_bind pr_child_requests set_aggregator set_children].
  set (p1 := set_aggregator _ _).
  assert (Hch1 : ∀ x, x ∈ pr_child_requests p1 ↔ ∃ c, c ∈ outs ∧ x = child_id (pr_request_id p) (co_index c)).
  { intros x. cbn. rewrite elem_of_difference, Hch, elem_of_singleton. split.
    - intros [(c' & Hc' & ->) Hx]. apply elem_of_cons in Hc' as [->|Hc']; [done|eauto].
    - intros (c' & Hc' & ->). split; [exists c'; split; [by right|done]|]. intros Heq. apply (inj (child_id _)) in Heq. apply Hc. rewrite <-Heq. by apply list_elem_of_fmap_2. }
  assert (Hemp : pr_child_requests p1 = ∅ ↔ outs = []).
  { split.
    - intros Hp1. destruct outs as [|c' outs']; [done|]. assert (child_id (pr_request_id p) (co_index c') ∈ pr_child_requests p1) as Hin by (apply Hch1; exists c'; split; [left|done]).
      rewrite Hp1 in Hin. set_solver.
    - intros ->. apply set_eq. intros x. rewrite Hch1. split; [intros (c' & Hc' & _); by apply elem_of_nil in Hc'|set_solver]. }
  change (pr_child_requests p ∖ {[child_id (pr_request_id p) (co_index c)]}) with (pr_child_requests p1).
  destruct outs as [|c' outs'] eqn:Houts.
  - rewrite bool_decide_true by (by apply Hemp). cbn [finish_children res_bind]. eexists. split; [done|]. by apply Hemp.
  - rewrite bool_decide_false by (by intros ?%Hemp).
    rewrite <-Houts in *. destruct (IH p1) as (p' & Hrun & Hend); [by rewrite Houts|done|done| |done|].
    { eapply Forall_impl; [exact Hall|]. intros x [Hx ?]. split; [|done]. unfold len in *. cbn. by rewrite length_insert. }
    rewrite Hrun. cbn. exists p'. split; [|done]. do 2 f_equal. destruct outs; [done|]. cbn. by rewrite Nat.sub_0_r.
Qed.

(** A request with [n] samples and final outputs only: whatever the order in
    which its children finish, nothing is returned before the last of them, and then
    the [n] outputs are returned once, together, each at its own index, and the
    request is finished. *)
Theorem parallel_final_once rid ext params outs : cp_output_kind params = FINAL_ONLY → 0 < cp_n params →
  co_index <$> outs ≡ₚ py_range 0 (cp_n params) → Forall (λ c, co_finished c = true) outs →
  ∃ l p', finish_children (make_children (new_parent rid ext params)) outs = Ok (replicate (length outs - 1) ([], false) ++ [(l, true)], p') ∧
    len l = cp_n params ∧ pr_child_requests p' = ∅ ∧ ∀ c, c ∈ outs → l !! Z.to_nat (co_index c) = Some (Some c).
Proof.
  intros Hk Hn Hidx Hfin. unfold make_children.
  destruct (make_children_loop (new_parent rid ext params) (py_range 0 (cp_n params))) as (E1 & E2 & E3 & E4). cbn [pr_params new_parent] in *.
  set (p := foldl _ _ _) in *. cbn -[py_repeat] in E3. rewrite Hk, bool_decide_true in E3 by done.
  assert (Hlen : len (pr_output_aggregator p) = cp_n params) by (rewrite E3, len_repeat; lia).
  assert (Hrange : Forall (λ c, 0 ≤ co_index c < len (pr_output_aggregator p)) outs).
  { apply Forall_forall. intros c Hc. apply (list_elem_of_fmap_2 co_index) in Hc. rewrite Hidx in Hc. unfold py_range in Hc. apply elem_of_seqZ in Hc. lia. }
  assert (Hnd : NoDup (co_index <$> outs)) by (rewrite Hidx; apply NoDup_seqZ).
  assert (Hne : outs ≠ []).
  { intros ->. apply Permutation_length in Hidx. unfold py_range in Hidx. rewrite length_seqZ in Hidx. cbn in Hidx. lia. }
  destruct (finish_children_ok outs p Hne) as (p' & Hrun & Hend); [by rewrite E2|done| | |].
  - apply Forall_forall. intros c Hc. split; [by eapply Forall_forall in Hrange|by eapply Forall_forall in Hfin].
  - intros x. rewrite E4, E1. cbn. split.
    + intros [?|(i & Hi & ->)]; [set_solver|]. rewrite <-Hidx in Hi. apply list_elem_of_fmap in Hi as (c & -> & Hc). eauto.
    + intros (c & Hc & ->). right. exists (co_index c). split; [|done]. rewrite <-Hidx. by apply list_elem_of_fmap_2.
  - exists (fill (pr_output_aggregator p) outs), p'. split; [done|]. split_and!; [|done|].
    + rewrite <-Hlen. clear. unfold len. f_equal. generalize (pr_output_aggregator p). induction outs as [|c outs IH]; intros l; [done|]. cbn [fill foldl]. unfold fill in IH. by rewrite IH, length_insert.
    + intros c Hc. by apply fill_lookup.
Qed.

(** ** Runs *)

(** An output with one piece of text. *)
Definition piece_out (index : Z) (t : text) (reason : option FinishReason) : CompletionOutput := MkCompletion index t t None reason None.
Definition one_out (c : CompletionOutput) : RequestOutput := MkRequestOutput "r" None (Some []) [c] (co_finished c) None None.

(** Two outputs are merged before the client takes them. *)
Lemma collector_lossless_witness :
  let ops := [CPut (one_out (piece_out 0 [1; 2] None)); CPut (one_out (piece_out 0 [3] None)); CGet; CPut (one_out (piece_out 0 [4] (Some LENGTH))); CGet] in
  concat (item_part co_text 0 <$> (collector_run ops (new_collector DELTA)).1) = [1; 2; 3; 4].
Proof.
  intros ops. destruct (collector_run ops (new_collector DELTA)) as [l c] eqn:Hrun.
  destruct (collector_lossless ops 0 l c) as (Ht & _ & _).
  - repeat constructor; intros ?%elem_of_nil; done.
  - exact Hrun.
  - vm_compute in Hrun. injection Hrun as <- <-. vm_compute in Ht. vm_compute. exact Ht.
Defined.

Lemma parallel_final_once_witness :
  ∃ l p', finish_children (make_children (new_parent "r" "x" (MkChildParams 2 (Some 7) FINAL_ONLY))) [piece_out 1 [5] (Some STOP); piece_out 0 [6] (Some LENGTH)] =
    Ok ([([], false); (l, true)], p') ∧ l !! 1%nat = Some (Some (piece_out 1 [5] (Some STOP))).
Proof.
  destruct (parallel_final_once "r" "x" (MkChildParams 2 (Some 7) FINAL_ONLY) [piece_out 1 [5] (Some STOP); piece_out 0 [6] (Some LENGTH)]) as (l & p' & Hrun & _ & _ & Hl).
  - reflexivity.
  - reflexivity.
  - apply Permutation_swap.
  - repeat constructor.
  - exists l, p'. split; [exact Hrun|]. apply (Hl (piece_out 1 [5] (Some STOP))). left.
Defined.
