(* ===== verification/OutputProcessor.v ===== *)
(** * The output processor (vllm/v1/engine/output_processor.py)

    The front end's side of every request: the outputs of the engine core are
    detokenized, checked for stop strings, and handed to the clients.
    [RequestState] objects are the values of [request_states]; parents and
    collectors are shared objects, so they live in stores of their own, under the
    parent's request id and under a number.  Statistics, tracing, LoRA states and
    log probabilities are left out. *)

From S2P Require Import Prelude.
From S2P Require Import RequestModel.
From S2P Require Import SchedulerUpdate.
From S2P Require Import Detokenizer.
From S2P Require Import RequestOutputs.
#[local] Open Scope Z_scope.

#[global] Instance FinishReason_eq_dec : EqDecision FinishReason.
Proof. solve_decision. Defined.

(** ** State *)

(** [IncrementalDetokenizer] keeps only the tokens; the two others also the text. *)
Inductive AnyDetok (D : Type) :=
  | NoText (token_ids : list Z)
  | WithText (d : Detok D).
Arguments NoText {D} _.
Arguments WithText {D} _.

(** [StreamingUpdate] of the output processor *)
Record InputUpdate := MkInputUpdate { iu_prompt : option text; iu_prompt_token_ids : option (list Z); iu_final : bool }.

Record RequestState (D : Type) := MkReqState {
  rs_request_id : string;
  rs_external_req_id : string;
  rs_parent_req : option string;
  rs_request_index : Z;
  rs_output_kind : RequestOutputKind;
  rs_prompt : option text;
  rs_prompt_token_ids : option (list Z);
  rs_prompt_embeds : option Z;                 (* its length *)
  rs_prompt_len : Z;
  rs_detokenizer : option (AnyDetok D);
  rs_is_prefilling : bool;
  rs_queue : option nat;
  rs_num_cached_tokens : Z;
  rs_stream_interval : Z;
  rs_sent_tokens_offset : Z;
  rs_streaming_input : bool;
  rs_input_chunk_queue : option (list InputUpdate);
}.
Arguments MkReqState {D} _ _ _ _ _ _ _ _ _ _ _ _ _ _ _ _ _.
Arguments rs_request_id {D} _.
Arguments rs_external_req_id {D} _.
Arguments rs_parent_req {D} _.
Arguments rs_request_index {D} _.
Arguments rs_output_kind {D} _.
Arguments rs_prompt {D} _.
Arguments rs_prompt_token_ids {D} _.
Arguments rs_prompt_embeds {D} _.
Arguments rs_prompt_len {D} _.
Arguments rs_detokenizer {D} _.
Arguments rs_is_prefilling {D} _.
Arguments rs_queue {D} _.
Arguments rs_num_cached_tokens {D} _.
Arguments rs_stream_interval {D} _.
Arguments rs_sent_tokens_offset {D} _.
Arguments rs_streaming_input {D} _.
Arguments rs_input_chunk_queue {D} _.

Record OutputProcessor (D : Type) := MkProcessor {
  op_stream_interval : Z;
  op_request_states : gmap string (RequestState D);
  op_parent_requests : gset string;
  op_external_req_ids : gmap string (list string);
  op_parents : gmap string ParentRequest;      (* the parent objects *)
  op_queues : gmap nat Collector;              (* the collector objects *)
}.
Arguments MkProcessor {D} _ _ _ _ _ _.
Arguments op_stream_interval {D} _.
Arguments op_request_states {D} _.
Arguments op_parent_requests {D} _.
Arguments op_external_req_ids {D} _.
Arguments op_parents {D} _.
Arguments op_queues {D} _.

Section processor.
Context {D : Type}.
Implicit Type rs : RequestState D.
Implicit Type s : OutputProcessor D.
Variable decode_next : D → list Z → Z → res (text * D).

Definition set_states (m : gmap string (RequestState D)) s :=
  MkProcessor (op_stream_interval s) m (op_parent_requests s) (op_external_req_ids s) (op_parents s) (op_queues s).
Definition set_parent_ids (l : gset string) s :=
  MkProcessor (op_stream_interval s) (op_request_states s) l (op_external_req_ids s) (op_parents s) (op_queues s).
Definition set_external (m : gmap string (list string)) s :=
  MkProcessor (op_stream_interval s) (op_request_states s) (op_parent_requests s) m (op_parents s) (op_queues s).
Definition set_parents (m : gmap string ParentRequest) s :=
  MkProcessor (op_stream_interval s) (op_request_states s) (op_parent_requests s) (op_external_req_ids s) m (op_queues s).
Definition set_queues (m : gmap nat Collector) s :=
  MkProcessor (op_stream_interval s) (op_request_states s) (op_parent_requests s) (op_external_req_ids s) (op_parents s) m.

(** The fields of a request state that change after it was made. *)
Definition rs_with rs prompt prompt_token_ids prompt_len detok prefilling cached sent streaming chunks : RequestState D :=
  MkReqState (rs_request_id rs) (rs_external_req_id rs) (rs_parent_req rs) (rs_request_index rs) (rs_output_kind rs) prompt prompt_token_ids
    (rs_prompt_embeds rs) prompt_len detok prefilling (rs_queue rs) cached (rs_stream_interval rs) sent streaming chunks.
Definition set_detok (d : option (AnyDetok D)) rs :=
  rs_with rs (rs_prompt rs) (rs_prompt_token_ids rs) (rs_prompt_len rs) d (rs_is_prefilling rs) (rs_num_cached_tokens rs) (rs_sent_tokens_offset rs)
    (rs_streaming_input rs) (rs_input_chunk_queue rs).
Definition set_sent (n : Z) rs :=
  rs_with rs (rs_prompt rs) (rs_prompt_token_ids rs) (rs_prompt_len rs) (rs_detokenizer rs) (rs_is_prefilling rs) (rs_num_cached_tokens rs) n
    (rs_streaming_input rs) (rs_input_chunk_queue rs).
Definition set_prefilled (cached : Z) rs :=
  rs_with rs (rs_prompt rs) (rs_prompt_token_ids rs) (rs_prompt_len rs) (rs_detokenizer rs) false cached (rs_sent_tokens_offset rs)
    (rs_streaming_input rs) (rs_input_chunk_queue rs).
Definition set_streaming (b : bool) (chunks : option (list InputUpdate)) rs :=
  rs_with rs (rs_prompt rs) (rs_prompt_token_ids rs) (rs_prompt_len rs) (rs_detokenizer rs) (rs_is_prefilling rs) (rs_num_cached_tokens rs)
    (rs_sent_tokens_offset rs) b chunks.

(** [detokenizer.num_output_tokens()], [detokenizer.output_token_ids] *)
Definition any_num_output_tokens (d : AnyDetok D) : Z := match d with NoText l => len l | WithText d => num_output_tokens d end.
Definition any_output_token_ids (d : AnyDetok D) : list Z := match d with NoText l => l | WithText d => Detokenizer.output_token_ids d end.

(** [detokenizer.update(...)], [detokenizer.get_next_output_text(...)] *)
Definition any_update (d : AnyDetok D) (new_token_ids : list Z) (stop_terminated : bool) : res (option text) * AnyDetok D :=
  match d with
  | NoText l => (Ok None, NoText (l ++ new_token_ids))
  | WithText d => let '(r, d) := update decode_next new_token_ids stop_terminated d in (r, WithText d)
  end.
Definition any_next_text (d : AnyDetok D) (finished delta : bool) : res text * AnyDetok D :=
  match d with
  | NoText l => (Ok [], NoText l)
  | WithText d => let '(r, d) := get_next_output_text finished delta d in (r, WithText d)
  end.

(** [apply_streaming_update] *)
Definition apply_streaming_update rs (u : InputUpdate) : RequestState D :=
  let prompt :=
    match iu_prompt u with
    | Some (c :: t) => match rs_prompt rs with Some (c0 :: t0) => Some ((c0 :: t0) ++ (c :: t)) | _ => Some (c :: t) end
    | _ => rs_prompt rs
    end in
  let ids :=
    match rs_prompt_token_ids rs with
    | Some (i :: l) => (i :: l) ++ default [] (iu_prompt_token_ids u)
    | _ => default [] (iu_prompt_token_ids u)
    end in
  rs_with rs prompt (Some ids) (len ids) (rs_detokenizer rs) true (rs_num_cached_tokens rs) (rs_sent_tokens_offset rs)
    (negb (iu_final u)) (rs_input_chunk_queue rs).

(** ** Making outputs *)

(** [_new_completion_output] *)
Definition new_completion_output rs (token_ids : list Z) (finish_reason : option FinishReason) (stop_reason : option CompletionStop)
    (routed : option (list Z)) : res (CompletionOutput * RequestState D) :=
  match rs_detokenizer rs with
  | None => Raise AssertionError
  | Some d =>
      let finished := bool_decide (is_Some finish_reason) in
      let delta := bool_decide (rs_output_kind rs = DELTA) in
      let '(t, d) := any_next_text d finished delta in
      let? t := t in
      let token_ids := if delta then token_ids else any_output_token_ids d in
      Ok (MkCompletion (rs_request_index rs) t token_ids routed finish_reason (if finished then stop_reason else None), set_detok (Some d) rs)
  end.

(** The prompt of [_new_request_output] *)
Definition output_prompt rs : res (list Z) :=
  match rs_prompt_token_ids rs, rs_prompt_embeds rs with
  | Some l, _ => Ok l
  | None, Some n => Ok (py_repeat 0 n)
  | None, None => Raise AssertionError
  end.

(** A missing output of a child would be an object without an index. *)
Definition all_outputs (l : list (option CompletionOutput)) : res (list CompletionOutput) :=
  map_res (λ o, match o with Some c => Ok c | None => Raise AttributeError end) l.

(** The tail of [make_request_output] for a completion. *)
Definition finish_output rs (parents : gmap string ParentRequest) (output : CompletionOutput) (finished : bool) (kv : option (list string))
    : res (option OutputItem * gmap string ParentRequest) :=
  let make := λ external outputs finished,
    let? prompt := output_prompt rs in
    Ok (Some (ReqOut (MkRequestOutput external (rs_prompt rs) (Some prompt) outputs finished (Some (rs_num_cached_tokens rs)) kv))) in
  match rs_parent_req rs with
  | None => let? o := make (rs_external_req_id rs) [output] finished in Ok (o, parents)
  | Some pid =>
      match parents !! pid with
      | None => Raise KeyError
      | Some p =>
          let? r := get_outputs p (rs_request_id rs) output in
          let '(outputs, finished, p) := r in
          match outputs with
          | [] => Ok (None, <[pid := p]> parents)
          | _ =>
              let? outputs := all_outputs outputs in
              let? o := make (pr_external_req_id p) outputs finished in
              Ok (o, <[pid := p]> parents)
          end
      end
  end.

(** The check of [stream_interval]: the tokens to send, or [None] when nothing is
    sent now. *)
Definition stream_tokens rs (new_token_ids : list Z) (finished : bool) : res (option (list Z * RequestState D)) :=
  if 1 <? rs_stream_interval rs then
    match rs_detokenizer rs with
    | None => Raise AssertionError
    | Some d =>
        if finished || (rs_sent_tokens_offset rs =? 0) || (rs_stream_interval rs <=? any_num_output_tokens d - rs_sent_tokens_offset rs) then
          if bool_decide (rs_output_kind rs = DELTA) then
            Ok (Some (py_slice_from (any_output_token_ids d) (rs_sent_tokens_offset rs), set_sent (any_num_output_tokens d) rs))
          else Ok (Some (new_token_ids, rs))
        else Ok None
    end
  else Ok (Some (new_token_ids, rs)).

(** [make_request_output] *)
Definition make_request_output rs (parents : gmap string ParentRequest) (new_token_ids : list Z) (pooling_output : option string)
    (finish_reason : option FinishReason) (stop_reason : option CompletionStop) (kv : option (list string)) (routed : option (list Z))
    : res (option OutputItem * RequestState D * gmap string ParentRequest) :=
  let finished := bool_decide (is_Some finish_reason) in
  if negb finished && bool_decide (rs_output_kind rs = FINAL_ONLY) then Ok (None, rs, parents)
  else
    let? st := stream_tokens rs new_token_ids finished in
    match st with
    | None => Ok (None, rs, parents)
    | Some (tokens, rs) =>
        match pooling_output with
        | Some data =>
            let? prompt := output_prompt rs in
            Ok (Some (PoolOut (MkPoolingOutput (rs_external_req_id rs) data prompt (rs_num_cached_tokens rs) finished)), rs, parents)
        | None =>
            let? cr := new_completion_output rs tokens finish_reason stop_reason routed in
            let '(output, rs) := cr in
            let? op := finish_output rs parents output finished kv in
            let '(o, parents) := op in
            Ok (o, rs, parents)
        end
    end.

(** ** Operations *)

Abbreviation MO := (M (OutputProcessor D)).

Definition store_state rs : MO unit := modify (λ s, set_states (<[rs_request_id rs := rs]> (op_request_states s)) s).

(** [queue.put(item)] *)
Definition queue_put (q : nat) (item : OutputItem) : MO unit := λ s,
  match op_queues s !! q with
  | Some c => (Ok tt, set_queues (<[q := put c item]> (op_queues s)) s)
  | None => (Raise KeyError, s)
  end.

(** [l.remove(x)] *)
Definition py_remove (l : list string) (x : string) : res (list string) :=
  match list_find (λ y, y = x) l with
  | Some (i, _) => Ok (take i l ++ drop (S i) l)
  | None => Raise ValueError
  end.

(** [internal_ids = external_req_ids[external]; internal_ids.remove(id)], and the
    entry goes when it is empty; the default dictionary makes a missing entry. *)
Definition drop_external (external id : string) : MO unit := λ s,
  match py_remove (default [] (op_external_req_ids s !! external)) id with
  | Ok [] => (Ok tt, set_external (delete external (op_external_req_ids s)) s)
  | Ok l => (Ok tt, set_external (<[external := l]> (op_external_req_ids s)) s)
  | Raise e => (Raise e, set_external (<[external := default [] (op_external_req_ids s !! external)]> (op_external_req_ids s)) s)
  end.

(** [_finish_request] *)
Definition finish_request rs : MO unit :=
  let! s := gets id in
  match op_request_states s !! rs_request_id rs with
  | None => raise KeyError
  | Some _ =>
      modify (λ s, set_states (delete (rs_request_id rs) (op_request_states s)) s) ;;;
      drop_external (rs_external_req_id rs) (rs_request_id rs) ;;;
      match rs_parent_req rs with
      | Some pid =>
          modify (λ s,
            match op_parents s !! pid with
            | Some p => if bool_decide (pr_child_requests p = ∅) then set_parent_ids (op_parent_requests s ∖ {[ pid ]}) s else s
            | None => s
            end)
      | None => ret tt
      end
  end.

(** [_update_streaming_request_state]; [resumable] is that of the new request. *)
Definition update_streaming_request_state rs (resumable : bool) (prompt : option text) (prompt_token_ids : option (list Z)) : MO unit :=
  if negb resumable then
    match rs_input_chunk_queue rs with
    | None =>
        finish_request rs ;;;
        match rs_queue rs with Some q => queue_put q (ReqOut STREAM_FINISHED) | None => ret tt end
    | Some chunks =>
        match last chunks with
        | Some u => store_state (set_streaming (rs_streaming_input rs) (Some (removelast chunks ++ [MkInputUpdate (iu_prompt u) (iu_prompt_token_ids u) true])) rs)
        | None => store_state (set_streaming false (Some chunks) rs)
        end
    end
  else
    let update := MkInputUpdate prompt prompt_token_ids false in
    match rs_input_chunk_queue rs with
    | None => let rs := apply_streaming_update rs update in store_state (set_streaming (rs_streaming_input rs) (Some []) rs)
    | Some chunks => store_state (set_streaming (rs_streaming_input rs) (Some (chunks ++ [update])) rs)
    end.

(** [RequestState.from_new_request], with the detokenizer it makes. *)
Definition new_state (request_id external_req_id : string) (parent_req : option string) (request_index : Z) (output_kind : RequestOutputKind)
    (prompt : option text) (prompt_token_ids : option (list Z)) (prompt_embeds : option Z) (detokenizer : option (AnyDetok D))
    (queue : option nat) (stream_interval : Z) (resumable : bool) : RequestState D :=
  MkReqState request_id external_req_id parent_req request_index output_kind prompt prompt_token_ids prompt_embeds
    (match prompt_token_ids with Some l => len l | None => default 0 prompt_embeds end)
    detokenizer true queue 0 stream_interval 0 resumable (if resumable then Some [] else None).

(** A [ParentRequest] is made, and [parent_req.get_child_info(index)] is called. *)
Definition register_parent (p : ParentRequest) : MO unit := modify (λ s, set_parents (<[pr_request_id p := p]> (op_parents s)) s).
Definition child_info (pid : string) (index : Z) : MO (string * ChildParams) := λ s,
  match op_parents s !! pid with
  | Some p => let '(rid, params, p) := get_child_info p index in (Ok (rid, params), set_parents (<[pid := p]> (op_parents s)) s)
  | None => (Raise KeyError, s)
  end.

Definition add_request (request_id external_req_id : string) (parent_req : option string) (request_index : Z) (output_kind : RequestOutputKind)
    (prompt : option text) (prompt_token_ids : option (list Z)) (prompt_embeds : option Z) (detokenizer : option (AnyDetok D))
    (queue : option nat) (resumable : bool) : MO unit :=
  let! s := gets id in
  match op_request_states s !! request_id with
  | Some rs => update_streaming_request_state rs resumable prompt prompt_token_ids
  | None =>
      let rs := new_state request_id external_req_id parent_req request_index output_kind prompt prompt_token_ids prompt_embeds
                  detokenizer queue (op_stream_interval s) resumable in
      store_state rs ;;;
      match parent_req with
      | Some pid => modify (λ s, set_parent_ids ({[ pid ]} ∪ op_parent_requests s) s)
      | None => ret tt
      end ;;;
      modify (λ s, set_external (<[external_req_id := default [] (op_external_req_ids s !! external_req_id) ++ [request_id]]> (op_external_req_ids s)) s)
  end.

(** The update of the detokenizer, and the reason to finish after it. *)
Definition detokenize rs (o : EngineCoreOutput) : MO (option FinishReason * option CompletionStop) :=
  match rs_detokenizer rs with
  | None => raise AssertionError
  | Some d =>
      let '(r, d) := any_update d (eo_new_token_ids o) (bool_decide (eo_finish_reason o = Some STOP)) in
      store_state (set_detok (Some d) rs) ;;;
      let! stop_string := lift r in
      match stop_string with
      | Some (c :: t) => ret (Some STOP, Some (FromText (c :: t)))
      | _ => ret (eo_finish_reason o, FromEngine <$> eo_stop_reason o)
      end
  end.

Definition get_state (id : string) : MO (RequestState D) := λ s,
  match op_request_states s !! id with Some rs => (Ok rs, s) | None => (Raise KeyError, s) end.

(** [make_request_output] on the stored state. *)
Definition make_output (id : string) (new_token_ids : list Z) (pooling_output : option string) (finish_reason : option FinishReason)
    (stop_reason : option CompletionStop) (kv : option (list string)) (routed : option (list Z)) : MO (option OutputItem) :=
  let! rs := get_state id in
  let! s := gets Datatypes.id in
  let! r := lift (make_request_output rs (op_parents s) new_token_ids pooling_output finish_reason stop_reason kv routed) in
  let '(o, rs, parents) := r in
  store_state rs ;;;
  modify (set_parents parents) ;;;
  ret o.

(** [request_output.finished = False] for a streaming input *)
Definition unfinished (o : OutputItem) : OutputItem :=
  match o with
  | ReqOut o => ReqOut (MkRequestOutput (ro_request_id o) (ro_prompt o) (ro_prompt_token_ids o) (ro_outputs o) false (ro_num_cached_tokens o) (ro_kv_transfer_params o))
  | PoolOut o => PoolOut (MkPoolingOutput (po_request_id o) (po_outputs o) (po_prompt_token_ids o) (po_num_cached_tokens o) false)
  | ErrOut e => ErrOut e
  end.

(** [OutputProcessorOutput] *)
Record Processed := MkProcessed { request_outputs : list OutputItem; reqs_to_abort : list string }.

(** The part of the loop body that frees a completed request. *)
Definition free_completed (id : string) (o : EngineCoreOutput) (acc : Processed) : MO Processed :=
  let! rs := get_state id in
  if rs_streaming_input rs then
    match rs_input_chunk_queue rs with
    | Some (u :: chunks) => store_state (apply_streaming_update (set_streaming (rs_streaming_input rs) (Some chunks) rs) u) ;;; ret acc
    | _ => store_state (set_streaming (rs_streaming_input rs) None rs) ;;; ret acc
    end
  else
    finish_request rs ;;;
    ret (if bool_decide (is_Some (eo_finish_reason o)) then acc else MkProcessed (request_outputs acc) (reqs_to_abort acc ++ [id])).

(** One round of the loop of [process_outputs]. *)
Definition process_one (acc : Processed) (o : EngineCoreOutput) : MO Processed :=
  let id := eo_request_id o in
  let! s := gets Datatypes.id in
  match op_request_states s !! id with
  | None => ret acc
  | Some rs =>
      let rs := if rs_is_prefilling rs then set_prefilled (match eo_prefill_stats o with Some p => ps_num_cached_tokens p | None => rs_num_cached_tokens rs end) rs else rs in
      store_state rs ;;;
      let! reasons :=
        match eo_pooling_output o with
        | None => detokenize rs o
        | Some _ => ret (eo_finish_reason o, FromEngine <$> eo_stop_reason o)
        end in
      let '(finish_reason, stop_reason) := reasons in
      let! item := make_output id (eo_new_token_ids o) (eo_pooling_output o) finish_reason stop_reason (eo_kv_transfer_params o) (eo_routed_experts o) in
      let! acc :=
        match item with
        | None => ret acc
        | Some item =>
            let item := if rs_streaming_input rs then unfinished item else item in
            match rs_queue rs with
            | Some q => queue_put q item ;;; ret acc
            | None => ret (MkProcessed (request_outputs acc ++ [item]) (reqs_to_abort acc))
            end
        end in
      match finish_reason with
      | None => ret acc
      | Some _ => free_completed id o acc
      end
  end.

Fixpoint process_loop (acc : Processed) (outputs : list EngineCoreOutput) : MO Processed :=
  match outputs with
  | [] => ret acc
  | o :: outputs => let! acc := process_one acc o in process_loop acc outputs
  end.

Definition process_outputs (engine_core_outputs : list EngineCoreOutput) : MO Processed := process_loop (MkProcessed [] []) engine_core_outputs.

(** ** Aborting *)

(** The first loop of [abort_requests]: the internal ids. *)
Fixpoint abort_ids (request_ids : list string) (internal : bool) : MO (list string) :=
  match request_ids with
  | [] => ret []
  | id :: request_ids =>
      let! s := gets Datatypes.id in
      if internal then
        match op_request_states s !! id with
        | Some rs => drop_external (rs_external_req_id rs) id
        | None => ret tt
        end ;;;
        let! l := abort_ids request_ids internal in
        ret (id :: l)
      else
        modify (λ s, set_external (delete id (op_external_req_ids s)) s) ;;;
        let! l := abort_ids request_ids internal in
        ret (default [] (op_external_req_ids s !! id) ++ l)
  end.

(** The final output of an aborted request, for a client that waits for it. *)
Definition abort_output rs : MO unit :=
  match rs_queue rs with
  | None => ret tt
  | Some q =>
      let! s := gets Datatypes.id in
      let pooling := match rs_detokenizer rs with None => Some EmptyString | Some _ => None end in
      let! r := lift (make_request_output rs (op_parents s) [] pooling (Some ABORT) None None None) in
      let '(o, _, parents) := r in
      modify (set_parents parents) ;;;
      match o with Some item => queue_put q item | None => ret tt end
  end.

(** The second loop; [again] aborts the children of a parent. *)
Fixpoint abort_loop (again : list string → MO (list string)) (internal_req_ids : list string) : MO (list string) :=
  match internal_req_ids with
  | [] => ret []
  | id :: internal_req_ids =>
      let! s := gets Datatypes.id in
      let! aborted :=
        match op_request_states s !! id with
        | Some rs =>
            modify (λ s, set_states (delete id (op_request_states s)) s) ;;;
            abort_output rs ;;;
            ret [id]
        | None =>
            if bool_decide (id ∈ op_parent_requests s) then
              let children := match op_parents s !! id with Some p => elements (pr_child_requests p) | None => [] end in
              let! l := match children with [] => ret [] | _ => again children end in
              modify (λ s, set_parent_ids (op_parent_requests s ∖ {[ id ]}) s) ;;;
              ret l
            else ret []
        end in
      let! l := abort_loop again internal_req_ids in
      ret (aborted ++ l)
  end.

(** [abort_requests]; the recursion goes from parents to children. *)
Fixpoint abort_fuel (fuel : nat) (request_ids : list string) (internal : bool) : MO (list string) :=
  let! ids := abort_ids request_ids internal in
  abort_loop (λ l, match fuel with O => raise OutOfFuel | S fuel => abort_fuel fuel l true end) ids.

Definition abort_requests (request_ids : list string) (internal : bool) : MO (list string) := λ s,
  abort_fuel (S (size (op_parent_requests s))) request_ids internal s.

Definition get_num_unfinished_requests s : Z := Z.of_nat (size (op_request_states s)).
Definition has_unfinished_requests s : bool := negb (get_num_unfinished_requests s =? 0).

(** [propagate_error] *)
Definition propagate_error (e : string) : MO unit :=
  let! s := gets Datatypes.id in
  for_each (map_to_list (op_request_states s)).*2 (λ rs, match rs_queue rs with None => raise AssertionError | Some q => queue_put q (ErrOut e) end).
End processor.

(** ** The invariant *)

Section invariant.
Context {D : Type}.
Implicit Type rs : RequestState D.
Implicit Type s : OutputProcessor D.
Variable decode_next : D → list Z → Z → res (text * D).

(** A parent waits for the children whose output it does not have. *)
Record parent_ok (pid : string) (p : ParentRequest) : Prop := {
  po_id : pr_request_id p = pid;
  po_waits : cp_output_kind (pr_params p) = FINAL_ONLY → ∀ i, pr_output_aggregator p !! i = Some None → child_id pid (Z.of_nat i) ∈ pr_child_requests p;
}.

(** What never changes of a parent. *)
Definition same_parent (p p' : ParentRequest) : Prop :=
  pr_params p' = pr_params p ∧ pr_external_req_id p' = pr_external_req_id p ∧ length (pr_output_aggregator p') = length (pr_output_aggregator p).

(** A request whose outputs can be made. *)
Record live (parents : gmap string ParentRequest) rs : Prop := {
  lv_prompt : is_Some (rs_prompt_token_ids rs) ∨ is_Some (rs_prompt_embeds rs);
  lv_interval : 1 < rs_stream_interval rs → is_Some (rs_detokenizer rs);
  lv_parent : ∀ pid, rs_parent_req rs = Some pid → ∃ p, parents !! pid = Some p ∧ parent_ok pid p ∧
    cp_output_kind (pr_params p) = rs_output_kind rs ∧ rs_request_id rs = child_id pid (rs_request_index rs) ∧
    (rs_output_kind rs = FINAL_ONLY → 0 ≤ rs_request_index rs < len (pr_output_aggregator p));
}.

(** The fields that making an output does not change. *)
Definition same_request rs rs' : Prop :=
  rs_request_id rs' = rs_request_id rs ∧ rs_external_req_id rs' = rs_external_req_id rs ∧ rs_parent_req rs' = rs_parent_req rs ∧
  rs_request_index rs' = rs_request_index rs ∧ rs_output_kind rs' = rs_output_kind rs ∧ rs_prompt_embeds rs' = rs_prompt_embeds rs ∧
  rs_queue rs' = rs_queue rs ∧ rs_stream_interval rs' = rs_stream_interval rs ∧
  (is_Some (rs_detokenizer rs) → is_Some (rs_detokenizer rs')) ∧
  (is_Some (rs_prompt_token_ids rs) → is_Some (rs_prompt_token_ids rs')).

#[global] Instance same_request_preorder : PreOrder same_request.
Proof.
  split; [by intros rs|]. intros a b c (?&?&?&?&?&?&?&?&?&?) (?&?&?&?&?&?&?&?&?&?). unfold same_request. split_and!; try congruence; auto.
Qed.

(** The parents afterwards: the same ones, still waiting for what they miss. *)
Definition parents_kept (m m' : gmap string ParentRequest) : Prop :=
  ∀ pid p, m !! pid = Some p → parent_ok pid p → ∃ p', m' !! pid = Some p' ∧ parent_ok pid p' ∧ same_parent p p'.

#[global] Instance parents_kept_preorder : PreOrder parents_kept.
Proof.
  split; [intros m pid p Hp Hok; exists p; split; [done|]; by split|].
  intros a b c H1 H2 pid p Hp Hok. destruct (H1 pid p Hp Hok) as (p1 & Hp1 & Hok1 & (E1 & E2 & E3)). destruct (H2 pid p1 Hp1 Hok1) as (p2 & Hp2 & Hok2 & (F1 & F2 & F3)).
  exists p2. split; [done|]. split; [done|]. unfold same_parent. split_and!; congruence.
Qed.

Lemma live_kept m m' rs rs' : live m rs → parents_kept m m' → same_request rs rs' → live m' rs'.
Proof.
  intros [Hp Hi Hpar] Hk (E1&E2&E3&E4&E5&E6&E7&E8&E9&E10). split; [rewrite E6; destruct Hp; auto|rewrite E8; auto|].
  intros pid. rewrite E3. intros Hpid. destruct (Hpar pid Hpid) as (p & Hpm & Hok & Hkind & Hrid & Hidx). destruct (Hk pid p Hpm Hok) as (p' & Hp' & Hok' & (F1 & F2 & F3)).
  exists p'. rewrite E1, E4, E5, F1. unfold len in *. rewrite F3. by split_and!.
Qed.

Lemma all_outputs_ok l : (∀ i, l !! i ≠ Some None) → ∃ l', all_outputs l = Ok l'.
Proof.
  unfold all_outputs. induction l as [|o l IH]; intros Hl; [by eexists|]. destruct o as [c|]; [|by destruct (Hl 0%nat)]. cbn.
  destruct IH as [l' ->]; [intros i; apply (Hl (S i))|]. by eexists.
Qed.

(** A parent takes the output of a child. *)
Lemma get_outputs_ok pid p i c : parent_ok pid p → co_index c = i →
  (cp_output_kind (pr_params p) = FINAL_ONLY → 0 ≤ i < len (pr_output_aggregator p) ∧ co_finished c = true) →
  ∃ l b p', get_outputs p (child_id pid i) c = Ok (l, b, p') ∧ parent_ok pid p' ∧ same_parent p p' ∧ (∀ j, l !! j ≠ Some None).
Proof.
  intros [Hid Hw] Hi Hfo. unfold get_outputs.
  set (p1 := if co_finished c && _ then _ else p).
  assert (Hp1 : pr_params p1 = pr_params p ∧ pr_external_req_id p1 = pr_external_req_id p ∧ pr_output_aggregator p1 = pr_output_aggregator p ∧ pr_request_id p1 = pid ∧
    ∀ x, x ∈ pr_child_requests p → x ≠ child_id pid i → x ∈ pr_child_requests p1).
  { unfold p1. destruct (co_finished c && _); [|by rewrite Hid]. cbn. split_and!; [done..|set_solver]. }
  destruct Hp1 as (E1 & E2 & E3 & E4 & E5). rewrite E1. destruct (decide (cp_output_kind (pr_params p) = FINAL_ONLY)) as [Hk|Hk].
  - rewrite bool_decide_true by done. destruct (Hfo Hk) as [Hrange _]. cbn [negb]. unfold py_set. rewrite E3, Hi.
    rewrite (proj2 (Z.ltb_ge _ _)), (proj2 (Z.leb_le 0 i)), (proj2 (Z.ltb_lt _ _)) by lia. cbn [andb res_bind].
    set (l := <[Z.to_nat i := Some c]> (pr_output_aggregator p)).
    assert (Hwait : ∀ j, l !! j = Some None → child_id pid (Z.of_nat j) ∈ pr_child_requests p1).
    { intros j Hj. unfold l in Hj. destruct (decide (j = Z.to_nat i)) as [->|Hne].
      - rewrite list_lookup_insert_eq in Hj by (unfold len in Hrange; lia). done.
      - rewrite list_lookup_insert_ne in Hj by done. apply E5; [by apply Hw|]. intros Heq. apply (inj (child_id pid)) in Heq. lia. }
    do 3 eexists. split; [done|]. split_and!.
    + split; [done|]. cbn. intros _ j Hj. by apply Hwait.
    + unfold same_parent. cbn. rewrite E1, E2. unfold l. by rewrite length_insert.
    + intros j Hj. case_bool_decide as Hemp; [|done]. apply Hwait in Hj. rewrite Hemp in Hj. set_solver.
  - rewrite bool_decide_false by done. cbn [negb]. do 3 eexists. split; [done|]. split_and!.
    + split; [done|]. by rewrite E1.
    + unfold same_parent. by rewrite E1, E2, E3.
    + intros j Hj. destruct (co_finished c && negb _); destruct j as [|[|j]]; cbn in Hj; discriminate Hj.
Qed.

Lemma any_next_ok (d : AnyDetok D) f b : ∃ t d', any_next_text d f b = (Ok t, d').
Proof. destruct d as [l|d]; [by do 2 eexists|]. cbn. unfold get_next_output_text. destruct (negb b); [by do 2 eexists|]. destruct (_ <? _); by do 2 eexists. Qed.

Lemma make_request_output_ok rs parents toks pooling reason stop kv routed : live parents rs → (pooling = None → is_Some (rs_detokenizer rs)) →
  ∃ o rs' parents', make_request_output rs parents toks pooling reason stop kv routed = Ok (o, rs', parents') ∧
    same_request rs rs' ∧ parents_kept parents parents' ∧ rs_streaming_input rs' = rs_streaming_input rs ∧ rs_input_chunk_queue rs' = rs_input_chunk_queue rs.
Proof.
  intros Hlive Hdet. unfold make_request_output. destruct (negb _ && _) eqn:Hearly; [by do 3 eexists|].
  assert (Hst : ∃ st, stream_tokens rs toks (bool_decide (is_Some reason)) = Ok st ∧ ∀ t rs1, st = Some (t, rs1) → ∃ n, rs1 = set_sent n rs).
  { unfold stream_tokens. destruct (Z.ltb_spec 1 (rs_stream_interval rs)) as [Hi|_].
    - destruct (lv_interval _ _ Hlive Hi) as [d ->]. destruct (_ || _ || _); [|exists None; by split]. destruct (bool_decide (_ = DELTA)); eexists; (split; [done|]).
      + intros t rs1 [= <- <-]. by eexists.
      + intros t rs1 [= <- <-]. exists (rs_sent_tokens_offset rs). by destruct rs.
    - eexists. split; [done|]. intros t rs1 [= <- <-]. exists (rs_sent_tokens_offset rs). by destruct rs. }
  destruct Hst as (st & -> & Hst). cbn [res_bind]. destruct st as [[t rs1]|]; [|by do 3 eexists]. destruct (Hst t rs1 eq_refl) as [n ->].
  assert (Hprompt : ∀ d, ∃ l, output_prompt (set_detok d (set_sent n rs)) = Ok l).
  { intros d. unfold output_prompt. cbn. destruct (lv_prompt _ _ Hlive) as [[l ->]|[l Hl]]; [by eexists|]. rewrite Hl. destruct (rs_prompt_token_ids rs); by eexists. }
  destruct pooling as [data|].
  - destruct (Hprompt (rs_detokenizer rs)) as [l Hl]. replace (output_prompt (set_sent n rs)) with (Ok l) by (by rewrite <-Hl). do 3 eexists. split; [done|].
    split; [done|]. done.
  - destruct (Hdet eq_refl) as [d Hd]. unfold new_completion_output. cbn [rs_detokenizer set_sent rs_with]. rewrite Hd.
    destruct (any_next_ok d (bool_decide (is_Some reason)) (bool_decide (rs_output_kind (set_sent n rs) = DELTA))) as (tx & d' & ->). cbn [res_bind].
    set (c := MkCompletion _ _ _ _ _ _). set (rs2 := set_detok (Some d') (set_sent n rs)). destruct (Hprompt (Some d')) as [l Hl]. fold rs2 in Hl.
    assert (Hsame : same_request rs rs2) by (unfold same_request; cbn; split_and!; auto; done).
    unfold finish_output. cbn [rs_parent_req rs2 set_detok set_sent rs_with]. fold rs2. rewrite Hl. destruct (rs_parent_req rs) as [pid|] eqn:Hpid.
    + destruct (lv_parent _ _ Hlive pid Hpid) as (p & Hp & Hok & Hkind & Hrid & Hidx). rewrite Hp. cbn [rs_request_id rs2 set_detok set_sent rs_with].
      rewrite Hrid. destruct (get_outputs_ok pid p (rs_request_index rs) c Hok eq_refl) as (lo & b & p' & -> & Hok' & Hsp & Hall).
      { intros Hk. rewrite Hkind in Hk. split; [by apply Hidx|]. rewrite Hk, (bool_decide_true (FINAL_ONLY = _)), andb_true_r in Hearly by done. unfold co_finished. cbn. by destruct (bool_decide _). }
      assert (Hkept : parents_kept parents (<[pid := p']> parents)).
      { intros q r Hq Hr. destruct (decide (q = pid)) as [->|Hne]; [|rewrite lookup_insert_ne by done; exists r; split; [done|]; by split].
        rewrite lookup_insert_eq. assert (r = p) as -> by congruence. by exists p'. }
      cbn [res_bind]. destruct lo as [|o lo]; [by do 3 eexists|]. destruct (all_outputs_ok (o :: lo) Hall) as [lo' ->]. cbn [res_bind]. do 3 eexists. split; [done|]. by split_and!.
    + cbn [res_bind]. do 3 eexists. split; [done|]. by split_and!.
Qed.

(** Every request is listed once under its external id, and nothing else is; its
    outputs can be made and delivered. *)
Record op_wf s : Prop := {
  ow_states : ∀ id rs, op_request_states s !! id = Some rs → rs_request_id rs = id ∧ live (op_parents s) rs ∧
    (∀ q, rs_queue rs = Some q → is_Some (op_queues s !! q)) ∧ ∃ l, op_external_req_ids s !! rs_external_req_id rs = Some l ∧ id ∈ l;
  ow_external : ∀ e l, op_external_req_ids s !! e = Some l → l ≠ [] ∧ NoDup l ∧
    ∀ id, id ∈ l → ∃ rs, op_request_states s !! id = Some rs ∧ rs_external_req_id rs = e;
}.

Lemma store_wf id rs0 rs s : op_wf s → op_request_states s !! id = Some rs0 → same_request rs0 rs → op_wf (set_states (<[id := rs]> (op_request_states s)) s).
Proof.
  intros [Hst Hex] Hid Hsame. pose proof Hsame as (E1&E2&E3&E4&E5&E6&E7&E8&E9&E10). split; cbn.
  - intros id' rs' Hrs'. destruct (decide (id' = id)) as [->|Hne]; [|rewrite lookup_insert_ne in Hrs' by done; by apply Hst].
    rewrite lookup_insert_eq in Hrs'. injection Hrs' as <-. destruct (Hst id rs0 Hid) as (R1 & R2 & R3 & R4). rewrite E1, E2, E7. split_and!; [done| |done|done].
    eapply live_kept; [exact R2|reflexivity|done].
  - intros e l Hl. destruct (Hex e l Hl) as (L1 & L2 & L3). split_and!; [done|done|]. intros id' Hin. destruct (L3 id' Hin) as (rs' & Hrs' & He).
    destruct (decide (id' = id)) as [->|Hne]; [|rewrite lookup_insert_ne by done; eauto]. rewrite lookup_insert_eq. exists rs. split; [done|]. rewrite E2. congruence.
Qed.

Lemma parents_wf m s : op_wf s → parents_kept (op_parents s) m → op_wf (set_parents m s).
Proof.
  intros [Hst Hex] Hk. split; cbn; [|done]. intros id rs Hrs. destruct (Hst id rs Hrs) as (R1 & R2 & R3 & R4). split_and!; [done| |done|done].
  eapply live_kept; [exact R2|done|reflexivity].
Qed.

Lemma parent_ids_wf l s : op_wf s → op_wf (set_parent_ids l s).
Proof. intros [Hst Hex]. by split. Qed.

Lemma queue_put_ok q item s : op_wf s → is_Some (op_queues s !! q) →
  ∃ m, queue_put q item s = (Ok tt, set_queues m s) ∧ op_wf (set_queues m s).
Proof.
  intros [Hst Hex] [c Hc]. unfold queue_put. rewrite Hc. eexists. split; [done|]. split; cbn; [|done]. intros id rs Hrs.
  destruct (Hst id rs Hrs) as (R1 & R2 & R3 & R4). split_and!; [done|done| |done]. intros q' Hq'. destruct (decide (q' = q)) as [->|Hne]; [rewrite lookup_insert_eq; by eexists|].
  rewrite lookup_insert_ne by done. by apply R3.
Qed.

Lemma py_remove_ok (l : list string) x : NoDup l → x ∈ l → ∃ l', py_remove l x = Ok l' ∧ NoDup l' ∧ ∀ y, y ∈ l' ↔ y ∈ l ∧ y ≠ x.
Proof.
  intros Hnd Hx. unfold py_remove. destruct (list_find (λ y, y = x) l) as [[i y]|] eqn:Hf.
  2: { apply list_find_None in Hf. eapply Forall_forall in Hf; [|exact Hx]. by cbn in Hf. }
  apply list_find_Some in Hf as (Hi & -> & _). apply list_elem_of_split_length in Hi as (l1 & l2 & -> & ->).
  exists (l1 ++ l2). rewrite take_app_length. replace (drop (S (length l1)) (l1 ++ x :: l2)) with l2.
  2: { rewrite drop_app_ge by lia. by replace (S (length l1) - length l1)%nat with 1%nat by lia. }
  split; [done|]. apply NoDup_app in Hnd as (N1 & N2 & N3). apply NoDup_cons in N3 as [N3 N4]. split.
  - apply NoDup_app. split_and!; [done| |done]. intros y Hy Hy2. apply (N2 y Hy). by right.
  - intros y. rewrite !elem_of_app, elem_of_cons. split; [intros [Hy|Hy]; split; auto|naive_solver].
    + intros ->. apply (N2 x Hy). left.
    + intros ->. done.
Qed.

(** A request that is no longer tracked is taken from the list of its external id. *)
Lemma drop_external_ok id rs s : op_request_states s !! id = Some rs → op_wf s →
  let s0 := set_states (delete id (op_request_states s)) s in
  ∃ m, drop_external (rs_external_req_id rs) id s0 = (Ok tt, set_external m s0) ∧ op_wf (set_external m s0).
Proof.
  intros Hid [Hst Hex] s0. destruct (Hst id rs Hid) as (R1 & R2 & R3 & (l & Hl & Hin)). destruct (Hex _ l Hl) as (L1 & L2 & L3).
  destruct (py_remove_ok l id L2 Hin) as (l' & Hrem & Hnd' & Hl'). unfold drop_external. cbn. rewrite Hl. cbn. rewrite Hrem.
  assert (Hwf : ∀ m, (∀ e, e ≠ rs_external_req_id rs → m !! e = op_external_req_ids s !! e) →
    (match l' with [] => m !! rs_external_req_id rs = None | _ => m !! rs_external_req_id rs = Some l' end) → op_wf (set_external m s0)).
  { intros m Hother Hown. split; cbn.
    - intros id' rs' Hrs'. apply lookup_delete_Some in Hrs' as [Hne Hrs']. destruct (Hst id' rs' Hrs') as (Q1 & Q2 & Q3 & (k & Hk & Hkin)). split_and!; [done|done|done|].
      destruct (decide (rs_external_req_id rs' = rs_external_req_id rs)) as [Heq|Hne']; [|exists k; by rewrite Hother].
      rewrite Heq in Hk. assert (k = l) as -> by congruence. assert (id' ∈ l') as Hin' by (apply Hl'; by split). exists l'. rewrite Heq.
      destruct l' as [|x l']; [by apply elem_of_nil in Hin'|done].
    - intros e k Hk. destruct (decide (e = rs_external_req_id rs)) as [->|Hne].
      + assert (k = l' ∧ l' ≠ []) as [-> Hne] by (destruct l'; [congruence|split; [congruence|done]]). split_and!; [done|done|].
        intros x Hx. apply Hl' in Hx as [Hx Hxne]. destruct (L3 x Hx) as (rs' & Hrs' & He). exists rs'. by rewrite lookup_delete_ne.
      + rewrite Hother in Hk by done. destruct (Hex e k Hk) as (K1 & K2 & K3). split_and!; [done|done|]. intros x Hx. destruct (K3 x Hx) as (rs' & Hrs' & He).
        exists rs'. split; [|done]. rewrite lookup_delete_ne; [done|]. intros <-. congruence. }
  destruct l' as [|x l'].
  - eexists. split; [done|]. apply Hwf; [intros e He; by rewrite lookup_delete_ne|apply lookup_delete_eq].
  - eexists. split; [done|]. apply Hwf; [intros e He; by rewrite lookup_insert_ne|apply lookup_insert_eq].
Qed.

Lemma finish_request_ok id rs s : op_request_states s !! id = Some rs → op_wf s →
  ∃ s', finish_request rs s = (Ok tt, s') ∧ op_wf s' ∧ op_request_states s' = delete id (op_request_states s).
Proof.
  intros Hid Hwf. destruct (ow_states _ Hwf id rs Hid) as (Hrid & _). unfold finish_request, bind at 1, gets. rewrite Hrid. cbn [Datatypes.id]. rewrite Hid.
  destruct (drop_external_ok id rs s Hid Hwf) as (m & Hdrop & Hwf'). unfold bind, modify. rewrite Hdrop.
  destruct (rs_parent_req rs) as [pid|]; [|by eexists]. eexists. split; [done|]. cbn.
  destruct (op_parents s !! pid) as [p|]; [|done]. destruct (bool_decide _); [|done]. split; [by apply parent_ids_wf|done].
Qed.

(** ** Processing outputs *)

(** The tokenizer decodes every token. *)
Hypothesis Hdec : ∀ x l i, ∃ t, decode_next x l i = Ok t.

Lemma decode_loop_total ids off d : ∃ o d', decode_loop decode_next ids off d = (Ok o, d').
Proof.
  revert off d. induction ids as [|i ids IH]; intros off d; [by do 2 eexists|]. cbn [decode_loop]. unfold bind, decode_one.
  cbn [decoder token_ids set_tokens]. destruct (Hdec (decoder d) (token_ids d ++ [i]) i) as [[t x] ->]. apply IH.
Qed.

Lemma update_total ids st d : ∃ r d', update decode_next ids st d = (Ok r, d').
Proof.
  unfold update. destruct (last ids) as [i|]; [|by do 2 eexists]. unfold bind at 1 2, gets.
  match goal with |- context [decode_loop _ ?l ?o] => destruct (decode_loop_total l o d) as (off & d1 & Hl) end. rewrite (bind_ok _ _ _ _ _ Hl).
  assert (Hc : ∀ d2, ∃ r d', check_stops (D := D) off d2 = (Ok r, d')).
  { intros d2. unfold check_stops. destruct (stop d2); [by do 2 eexists|]. destruct (_ <? _); [|by do 2 eexists].
    destruct (check_stop_strings _ _ _ _) as [[w j]|]; by do 2 eexists. }
  destruct (st && _); cbn; apply Hc.
Qed.

Lemma detokenize_ok id rs o s : op_wf s → op_request_states s !! id = Some rs → is_Some (rs_detokenizer rs) →
  ∃ f st rs', detokenize decode_next rs o s = (Ok (f, st), set_states (<[id := rs']> (op_request_states s)) s) ∧ same_request rs rs' ∧
    rs_streaming_input rs' = rs_streaming_input rs ∧ rs_input_chunk_queue rs' = rs_input_chunk_queue rs ∧ is_Some (rs_detokenizer rs') ∧
    (is_Some (eo_finish_reason o) → is_Some f).
Proof.
  intros Hwf Hid [d Hd]. destruct (ow_states _ Hwf id rs Hid) as (Hrid & _). unfold detokenize. rewrite Hd.
  assert (Hu : ∃ r d', any_update decode_next d (eo_new_token_ids o) (bool_decide (eo_finish_reason o = Some STOP)) = (Ok r, d')).
  { destruct d as [l|d]; [by do 2 eexists|]. cbn. destruct (update_total (eo_new_token_ids o) (bool_decide (eo_finish_reason o = Some STOP)) d) as (r & d' & ->). by do 2 eexists. }
  destruct Hu as (r & d' & ->). unfold bind, store_state, modify, lift. cbn [rs_request_id set_detok rs_with]. rewrite Hrid.
  assert (Hsame : same_request rs (set_detok (Some d') rs)) by (unfold same_request; cbn; split_and!; auto; done).
  destruct r as [[|c t]|]; do 3 eexists; (split; [done|]); split_and!; done.
Qed.

Lemma make_output_ok id rs toks pooling reason stop kv routed s : op_wf s → op_request_states s !! id = Some rs → (pooling = None → is_Some (rs_detokenizer rs)) →
  ∃ item rs' m, make_output id toks pooling reason stop kv routed s = (Ok item, set_parents m (set_states (<[id := rs']> (op_request_states s)) s)) ∧
    same_request rs rs' ∧ op_wf (set_parents m (set_states (<[id := rs']> (op_request_states s)) s)) ∧
    rs_streaming_input rs' = rs_streaming_input rs ∧ rs_input_chunk_queue rs' = rs_input_chunk_queue rs.
Proof.
  intros Hwf Hid Hdet. destruct (ow_states _ Hwf id rs Hid) as (Hrid & Hlive & _).
  destruct (make_request_output_ok rs (op_parents s) toks pooling reason stop kv routed Hlive Hdet) as (item & rs' & m & Hmk & Hsame & Hkept & Hs1 & Hs2).
  exists item, rs', m. unfold make_output, bind, get_state, gets, lift, store_state, modify. rewrite Hid. cbn [Datatypes.id]. rewrite Hmk.
  replace (rs_request_id rs') with id by (destruct Hsame as (-> & _); by rewrite Hrid). split; [done|]. split_and!; [done| |done|done].
  apply parents_wf; [|done]. by apply (store_wf id rs).
Qed.

(** What is said of a request after one round of the loop. *)
Record round s (o : EngineCoreOutput) (acc acc' : Processed) s' : Prop := {
  rd_others : ∀ id, id ≠ eo_request_id o → op_request_states s' !! id = op_request_states s !! id;
  rd_same : ∀ rs', op_request_states s' !! eo_request_id o = Some rs' → ∃ rs, op_request_states s !! eo_request_id o = Some rs ∧ same_request rs rs' ∧
    (rs_streaming_input rs = false → rs_streaming_input rs' = false);
  rd_gone : ∀ rs, op_request_states s !! eo_request_id o = Some rs → op_request_states s' !! eo_request_id o = None →
    rs_streaming_input rs = false ∧
    (is_Some (eo_finish_reason o) ∧ reqs_to_abort acc' = reqs_to_abort acc ∨
     eo_finish_reason o = None ∧ reqs_to_abort acc' = reqs_to_abort acc ++ [eo_request_id o]);
  rd_kept : (op_request_states s !! eo_request_id o = None ∨ is_Some (op_request_states s' !! eo_request_id o)) → reqs_to_abort acc' = reqs_to_abort acc;
  rd_finished : ∀ rs, op_request_states s !! eo_request_id o = Some rs → is_Some (eo_finish_reason o) → rs_streaming_input rs = false →
    op_request_states s' !! eo_request_id o = None;
}.

Lemma free_completed_ok id rs o acc s : op_wf s → op_request_states s !! id = Some rs →
  ∃ acc' s', free_completed id o acc s = (Ok acc', s') ∧ op_wf s' ∧
    if rs_streaming_input rs then
      acc' = acc ∧ ∃ rs', op_request_states s' = <[id := rs']> (op_request_states s) ∧ same_request rs rs'
    else op_request_states s' = delete id (op_request_states s) ∧
      acc' = if bool_decide (is_Some (eo_finish_reason o)) then acc else MkProcessed (request_outputs acc) (reqs_to_abort acc ++ [id]).
Proof.
  intros Hwf Hid. destruct (ow_states _ Hwf id rs Hid) as (Hrid & _). unfold free_completed, bind at 1, get_state. rewrite Hid. destruct (rs_streaming_input rs) eqn:Hs.
  - assert (Hst : ∀ rs', rs_request_id rs' = id → same_request rs rs' → ∃ acc' s', (store_state rs' ;;; ret acc) s = (Ok acc', s') ∧ op_wf s' ∧
      acc' = acc ∧ ∃ rs', op_request_states s' = <[id := rs']> (op_request_states s) ∧ same_request rs rs').
    { intros rs' Hid' Hsame. do 2 eexists. split; [done|]. cbn. rewrite Hid'. split; [by apply (store_wf id rs)|]. split; [done|]. by exists rs'. }
    destruct (rs_input_chunk_queue rs) as [[|u chunks]|]; apply Hst; try done; unfold same_request; cbn; split_and!; auto; done.
  - destruct (finish_request_ok id rs s Hid Hwf) as (s' & Hf & Hwf' & Hdel). unfold bind. rewrite Hf. do 2 eexists. by split.
Qed.

(** An output with tokens belongs to a request that has a detokenizer. *)
Definition compatible s (o : EngineCoreOutput) : Prop :=
  ∀ rs, op_request_states s !! eo_request_id o = Some rs → eo_pooling_output o = None → is_Some (rs_detokenizer rs).

(** The delivery of an output. *)
Lemma deliver_ok rs item acc s : op_wf s → (∀ q, rs_queue rs = Some q → is_Some (op_queues s !! q)) →
  ∃ acc' m, (match item with
    | None => ret acc
    | Some item =>
        let item := if rs_streaming_input rs then unfinished item else item in
        match rs_queue rs with
        | Some q => queue_put q item ;;; ret acc
        | None => ret (MkProcessed (request_outputs acc ++ [item]) (reqs_to_abort acc))
        end
    end) s = (Ok acc', set_queues m s) ∧ op_wf (set_queues m s) ∧ reqs_to_abort acc' = reqs_to_abort acc.
Proof.
  intros Hwf Hq. assert (Hself : set_queues (op_queues s) s = s) by (by destruct s).
  destruct item as [item|]; [|exists acc, (op_queues s); by rewrite Hself]. cbn zeta. destruct (rs_queue rs) as [q|].
  - destruct (queue_put_ok q (if rs_streaming_input rs then unfinished item else item) s Hwf (Hq q eq_refl)) as (m & Hput & Hwf'). exists acc, m. unfold bind. by rewrite Hput.
  - eexists _, (op_queues s). rewrite Hself. by split.
Qed.

Lemma process_one_ok acc o s : op_wf s → compatible s o →
  ∃ acc' s', process_one decode_next acc o s = (Ok acc', s') ∧ op_wf s' ∧ round s o acc acc' s'.
Proof.
  intros Hwf Hcomp. unfold process_one. set (id := eo_request_id o) in *. unfold bind at 1, gets. cbn [Datatypes.id].
  destruct (op_request_states s !! id) as [rs0|] eqn:Hid.
  2: { do 2 eexists. split; [done|]. split; [done|]. split; fold id; [done|intros rs'; by rewrite Hid|intros rs; by rewrite Hid|done|intros rs; by rewrite Hid]. }
  destruct (ow_states _ Hwf id rs0 Hid) as (Hrid & _ & Hqueue & _). specialize (Hcomp rs0 Hid).
  set (rs := if rs_is_prefilling rs0 then _ else rs0).
  assert (Hrs : same_request rs0 rs ∧ rs_streaming_input rs = rs_streaming_input rs0 ∧ (is_Some (rs_detokenizer rs0) → is_Some (rs_detokenizer rs)) ∧ rs_queue rs = rs_queue rs0 ∧ rs_request_id rs = id).
  { unfold rs. destruct (rs_is_prefilling rs0); [|by split_and!]. by split_and!. }
  destruct Hrs as (Hsame1 & Hstr1 & Hdet1 & Hq1 & Hid1). unfold bind at 1, store_state, modify. rewrite Hid1.
  set (s1 := set_states _ s). assert (Hwf1 : op_wf s1) by (by apply (store_wf id rs0)).
  assert (Hl1 : op_request_states s1 !! id = Some rs) by apply lookup_insert_eq.
  (* the reasons *)
  assert (Hreason : ∃ f st rs2 s2, (match eo_pooling_output o with None => detokenize decode_next rs o | Some _ => ret (eo_finish_reason o, FromEngine <$> eo_stop_reason o) end) s1 = (Ok (f, st), s2) ∧
    op_wf s2 ∧ op_request_states s2 = <[id := rs2]> (op_request_states s) ∧ op_queues s2 = op_queues s ∧ same_request rs rs2 ∧ rs_streaming_input rs2 = rs_streaming_input rs ∧
    (eo_pooling_output o = None → is_Some (rs_detokenizer rs2)) ∧ (is_Some (eo_finish_reason o) → is_Some f)).
  { destruct (eo_pooling_output o) as [data|].
    - do 4 eexists. split; [done|]. split_and!; try done.
    - destruct (detokenize_ok id rs o s1 Hwf1 Hl1 (Hdet1 (Hcomp eq_refl))) as (f & st & rs2 & -> & Hsame & Hs & _ & Hd & Hf). do 4 eexists. split; [done|].
      split_and!; try done; [by apply (store_wf id rs)|]. cbn. by rewrite insert_insert_eq. }
  destruct Hreason as (f & st & rs2 & s2 & Hrun2 & Hwf2 & Hst2 & Hqs2 & Hsame2 & Hstr2 & Hdet2 & Hf). rewrite (bind_ok _ _ _ _ _ Hrun2).
  destruct (make_output_ok id rs2 (eo_new_token_ids o) (eo_pooling_output o) f st (eo_kv_transfer_params o) (eo_routed_experts o) s2 Hwf2)
    as (item & rs3 & m & Hrun3 & Hsame3 & Hwf3 & Hstr3 & _); [rewrite Hst2; apply lookup_insert_eq|done|].
  rewrite (bind_ok _ _ _ _ _ Hrun3). set (s3 := set_parents m _) in *.
  destruct (deliver_ok rs item acc s3 Hwf3) as (acc1 & m4 & Hrun4 & Hwf4 & Habort); [cbn; rewrite Hq1, Hqs2; done|]. rewrite (bind_ok _ _ _ _ _ Hrun4).
  set (s4 := set_queues m4 s3) in *.
  assert (Hst4 : op_request_states s4 = <[id := rs3]> (op_request_states s)) by (cbn; rewrite Hst2; apply insert_insert_eq).
  assert (Hsame : same_request rs0 rs3) by (etransitivity; [exact Hsame1|]; etransitivity; [exact Hsame2|exact Hsame3]).
  destruct f as [f|].
  - destruct (free_completed_ok id rs3 o acc1 s4 Hwf4) as (acc2 & s5 & Hrun5 & Hwf5 & Hfree); [by rewrite Hst4, lookup_insert_eq|].
    exists acc2, s5. split; [exact Hrun5|]. split; [done|]. assert (Hstr : rs_streaming_input rs3 = rs_streaming_input rs0) by congruence. rewrite Hstr in Hfree.
    destruct (rs_streaming_input rs0) eqn:Hs0.
    + destruct Hfree as (-> & rs4 & Hst5 & Hsame4). rewrite Hst4, insert_insert_eq in Hst5.
      split; fold id; rewrite ?Hst5, ?lookup_insert_eq; [intros x Hx; by rewrite lookup_insert_ne| |done|done|congruence].
      intros rs' [= <-]. exists rs0. split; [done|]. split; [by etransitivity|]. by rewrite Hs0.
    + destruct Hfree as (Hst5 & ->). rewrite Hst4, delete_insert_eq in Hst5.
      split; fold id; rewrite ?Hst5, ?lookup_delete_eq; [intros x Hx; by rewrite lookup_delete_ne|done| | |done].
      * intros rs' Hrs' _. assert (rs' = rs0) as -> by congruence. split; [done|]. destruct (eo_finish_reason o); cbn; [left; by split|right; split; [done|]; by rewrite Habort].
      * intros [?|[? ?]]; [congruence|done].
  - exists acc1, s4. split; [done|]. split; [done|].
    split; fold id; rewrite ?Hst4, ?lookup_insert_eq; [intros x Hx; by rewrite lookup_insert_ne| |done|done|].
    + intros rs' [= <-]. exists rs0. split_and!; [done|done|]. by rewrite Hstr3, Hstr2, Hstr1.
    + intros rs' _ Hfin. by destruct (Hf Hfin).
Qed.

Lemma round_compatible s o acc acc' s' o' : round s o acc acc' s' → compatible s o' → compatible s' o'.
Proof.
  intros Hr Hc rs' Hrs' Hp. destruct (decide (eo_request_id o' = eo_request_id o)) as [He|Hne]; [|rewrite (rd_others _ _ _ _ _ Hr) in Hrs' by done; by apply (Hc rs')].
  rewrite He in Hrs'. destruct (rd_same _ _ _ _ _ Hr rs' Hrs') as (rs & Hrs & Hsame & _). rewrite <-He in Hrs. destruct Hsame as (_&_&_&_&_&_&_&_&Hd&_). by apply Hd, (Hc rs).
Qed.

(** The requests to abort were tracked and are gone; a request that is gone is one
    of them, or the engine said that it finished. *)
Definition abort_part s (outs : list EngineCoreOutput) (acc r : Processed) s' : Prop :=
  ∃ l, reqs_to_abort r = reqs_to_abort acc ++ l ∧ NoDup l ∧ (∀ id, id ∈ l → is_Some (op_request_states s !! id) ∧ op_request_states s' !! id = None) ∧
    ∀ id, is_Some (op_request_states s !! id) → op_request_states s' !! id = None →
      id ∈ l ∨ ∃ o, o ∈ outs ∧ eo_request_id o = id ∧ is_Some (eo_finish_reason o).

(** The whole loop: which requests are gone, and which of them the engine must be
    told to abort. *)
Record processed_ok s (outs : list EngineCoreOutput) (acc r : Processed) s' : Prop := {
  pc_others : ∀ id, id ∉ eo_request_id <$> outs → op_request_states s' !! id = op_request_states s !! id;
  pc_gone : ∀ id, op_request_states s !! id = None → op_request_states s' !! id = None;
  pc_abort : abort_part s outs acc r s';
  pc_finished : ∀ o rs, o ∈ outs → op_request_states s !! eo_request_id o = Some rs → is_Some (eo_finish_reason o) → rs_streaming_input rs = false →
    op_request_states s' !! eo_request_id o = None;
}.

Lemma abort_step s o acc acc1 s1 outs r s' : round s o acc acc1 s1 → (∀ id, op_request_states s !! id = None → op_request_states s1 !! id = None) →
  (∀ id, op_request_states s1 !! id = None → op_request_states s' !! id = None) → abort_part s1 outs acc1 r s' → abort_part s (o :: outs) acc r s'.
Proof.
  intros [R1 R2 R3 R4 R5] Hnone P2 (l & Hl & Hnd & Hlin & Hlall).
  destruct (op_request_states s !! eo_request_id o) as [rs|] eqn:Hrs.
  2: { rewrite (R4 (or_introl eq_refl)) in Hl. exists l. split; [done|]. split; [done|]. split.
       - intros id Hid. destruct (Hlin id Hid) as [[x Hx] Hn]. split; [|done]. destruct (op_request_states s !! id) eqn:E; [by eexists|]. rewrite (Hnone id E) in Hx. done.
       - intros id [x Hx] Hn. destruct (decide (id = eo_request_id o)) as [->|Hne]; [congruence|]. destruct (Hlall id) as [?|(o' & ? & ?)]; [rewrite R1 by done; by eexists|done|by left|].
         right. exists o'. split; [by right|done]. }
  assert (Hkeep : ∀ id, is_Some (op_request_states s1 !! id) → is_Some (op_request_states s !! id)).
  { intros id [x Hx]. destruct (op_request_states s !! id) eqn:E; [by eexists|]. rewrite (Hnone id E) in Hx. done. }
  assert (Hrest : ∀ id, id ≠ eo_request_id o → is_Some (op_request_states s !! id) → op_request_states s' !! id = None →
    id ∈ l ∨ ∃ o', o' ∈ o :: outs ∧ eo_request_id o' = id ∧ is_Some (eo_finish_reason o')).
  { intros id Hne Hsome Hn. destruct (Hlall id) as [?|(o' & ? & ?)]; [by rewrite R1|done|by left|]. right. exists o'. split; [by right|done]. }
  destruct (op_request_states s1 !! eo_request_id o) as [rs'|] eqn:Hrs'.
  * rewrite (R4 (or_intror (mk_is_Some _ _ eq_refl))) in Hl. exists l. split_and!; [done|done| |].
    -- intros id Hid. destruct (Hlin id Hid) as [Hs Hn]. split; [by apply Hkeep|done].
    -- intros id Hsome Hn. destruct (decide (id = eo_request_id o)) as [->|Hne]; [|by apply Hrest].
       destruct (Hlall (eo_request_id o)) as [?|(o' & ? & ?)]; [rewrite Hrs'; by eexists|done|by left|]. right. exists o'. split; [by right|done].
  * destruct (R3 rs eq_refl eq_refl) as (_ & [[Hfin Heq]|[Hfin Heq]]); rewrite Heq in Hl.
    -- exists l. split_and!; [done|done| |].
       ++ intros id Hid. destruct (Hlin id Hid) as [Hs Hn]. split; [by apply Hkeep|done].
       ++ intros id Hsome Hn. destruct (decide (id = eo_request_id o)) as [->|Hne]; [|by apply Hrest]. right. exists o. split; [left|done].
    -- exists (eo_request_id o :: l). rewrite <-app_assoc in Hl. split_and!; [done| | |].
       ++ apply NoDup_cons. split; [|done]. intros Hin. destruct (Hlin _ Hin) as [[x Hx] _]. congruence.
       ++ intros id Hid. apply elem_of_cons in Hid as [->|Hid]; [split; [rewrite Hrs; by eexists|by apply P2]|]. destruct (Hlin id Hid) as [Hs Hn]. split; [by apply Hkeep|done].
       ++ intros id Hsome Hn. destruct (decide (id = eo_request_id o)) as [->|Hne]; [left; left|]. destruct (Hrest id Hne Hsome Hn) as [?|?]; [left; by right|by right].
Qed.

Lemma process_loop_ok outs acc s : op_wf s → Forall (compatible s) outs →
  ∃ r s', process_loop decode_next acc outs s = (Ok r, s') ∧ op_wf s' ∧ processed_ok s outs acc r s'.
Proof.
  revert acc s. induction outs as [|o outs IH]; intros acc s Hwf Hall.
  - exists acc, s. split; [done|]. split; [done|]. split; [done|done| |intros o rs Ho; by apply elem_of_nil in Ho].
    exists []. rewrite app_nil_r. split_and!; [done|apply NoDup_nil_2|intros id Hid; by apply elem_of_nil in Hid|]. intros id [rs Hrs] Hn. congruence.
  - apply Forall_cons in Hall as [Ho Hall]. destruct (process_one_ok acc o s Hwf Ho) as (acc1 & s1 & Hrun1 & Hwf1 & Hr).
    destruct (IH acc1 s1 Hwf1) as (r & s' & Hrun & Hwf' & [P1 P2 Habort P4]); [eapply Forall_impl; [exact Hall|]; intros o' Ho'; by eapply round_compatible|].
    exists r, s'. split; [cbn [process_loop]; by rewrite (bind_ok _ _ _ _ _ Hrun1)|]. split; [done|]. pose proof Hr as [R1 R2 R3 R4 R5].
    assert (Hnone : ∀ id, op_request_states s !! id = None → op_request_states s1 !! id = None).
    { intros id Hid. destruct (decide (id = eo_request_id o)) as [->|Hne]; [|by rewrite R1]. destruct (op_request_states s1 !! eo_request_id o) as [rs'|] eqn:E; [|done].
      destruct (R2 rs' eq_refl) as (rs & Hrs & _). congruence. }
    split.
    + intros id. rewrite fmap_cons, not_elem_of_cons. intros [Hne Hid]. by rewrite P1, R1.
    + intros id Hid. by apply P2, Hnone.
    + eapply abort_step; [exact Hr|exact Hnone|exact P2|exact Habort].
    + intros o' rs Ho' Hrs Hfin Hstr. apply elem_of_cons in Ho' as [->|Ho']; [apply P2; by eapply R5|].
      destruct (op_request_states s1 !! eo_request_id o') as [rs1|] eqn:Hrs1; [|by apply P2]. eapply P4; [exact Ho'|exact Hrs1|done|].
      destruct (decide (eo_request_id o' = eo_request_id o)) as [He|Hne]; [|rewrite R1 in Hrs1 by done; congruence].
      rewrite He in *. destruct (R2 rs1 Hrs1) as (rs0 & Hrs0 & _ & Hkeep). apply Hkeep. congruence.
Qed.

(** ** Adding requests *)

Lemma child_info_ok pid i s : op_wf s → is_Some (op_parents s !! pid) →
  ∃ r m, child_info pid i s = (Ok r, set_parents m s) ∧ op_wf (set_parents m s) ∧ parents_kept (op_parents s) m.
Proof.
  intros Hwf [p Hp]. unfold child_info. rewrite Hp. pose proof (get_child_info_eq p i) as Hi.
  assert (Hext : pr_external_req_id (get_child_info p i).2 = pr_external_req_id p).
  { unfold get_child_info, get_child_sampling_params. cbn. destruct (pr_cached_child_sampling_params p); [done|]. by destruct (cp_seed (pr_params p)). }
  destruct (get_child_info p i) as [[rid params] p']. destruct Hi as (_ & H1 & H2 & H3 & H4).
  assert (Hk : parents_kept (op_parents s) (<[pid := p']> (op_parents s))).
  { intros q r Hq Hok. destruct (decide (q = pid)) as [->|Hne]; [|rewrite lookup_insert_ne by done; exists r; split; [done|]; by split]. rewrite lookup_insert_eq.
    assert (r = p) as -> by congruence. exists p'. split; [done|]. destruct Hok as [Hid Hw]. split; [split; [congruence|]|by unfold same_parent; rewrite H2, H3].
    rewrite H2, H3, H4. intros Hkind j Hj. set_solver. }
  do 2 eexists. split; [done|]. split; [by apply parents_wf|done].
Qed.

(** A new request with its entry under the external id. *)
Lemma new_request_wf rs s : op_wf s → op_request_states s !! rs_request_id rs = None → live (op_parents s) rs → (∀ q, rs_queue rs = Some q → is_Some (op_queues s !! q)) →
  op_wf (set_external (<[rs_external_req_id rs := default [] (op_external_req_ids s !! rs_external_req_id rs) ++ [rs_request_id rs]]> (op_external_req_ids s))
    (set_states (<[rs_request_id rs := rs]> (op_request_states s)) s)).
Proof.
  intros [Hst Hex] Hid Hlive Hq. set (id := rs_request_id rs) in *. set (ext := rs_external_req_id rs) in *.
  assert (Hnot : ∀ e l, op_external_req_ids s !! e = Some l → id ∉ l).
  { intros e l Hl Hin. destruct (Hex e l Hl) as (_ & _ & Hall). destruct (Hall id Hin) as (rs' & Hrs' & _). congruence. }
  split; cbn.
  - intros id' rs' Hrs'. destruct (decide (id' = id)) as [->|Hne].
    + rewrite lookup_insert_eq in Hrs'. injection Hrs' as <-. split_and!; [done|done|done|]. eexists. split; [apply lookup_insert_eq|]. rewrite elem_of_app. right. left.
    + rewrite lookup_insert_ne in Hrs' by done. destruct (Hst id' rs' Hrs') as (R1 & R2 & R3 & (l & Hl & Hin)). split_and!; [done|done|done|].
      destruct (decide (rs_external_req_id rs' = ext)) as [He|Hne']; [|exists l; by rewrite lookup_insert_ne].
      rewrite He in *. rewrite Hl. eexists. split; [apply lookup_insert_eq|]. cbn. rewrite elem_of_app. by left.
  - assert (Hold : ∀ e l, op_external_req_ids s !! e = Some l → ∀ x, x ∈ l → ∃ rs', <[id := rs]> (op_request_states s) !! x = Some rs' ∧ rs_external_req_id rs' = e).
    { intros e l Hl x Hx. destruct (Hex e l Hl) as (_ & _ & Hall). destruct (Hall x Hx) as (rs' & Hrs' & He). exists rs'. rewrite lookup_insert_ne; [done|]. intros <-. congruence. }
    intros e l Hl. destruct (decide (e = ext)) as [->|Hne].
    2: { rewrite lookup_insert_ne in Hl by done. destruct (Hex e l Hl) as (L1 & L2 & L3). split_and!; [done|done|by apply Hold]. }
    rewrite lookup_insert_eq in Hl. injection Hl as <-. split_and!.
    + by destruct (default _ _).
    + destruct (op_external_req_ids s !! ext) as [l'|] eqn:Hl'; cbn; [|apply NoDup_singleton]. destruct (Hex ext l' Hl') as (_ & L2 & _).
      apply NoDup_app. split_and!; [done| |apply NoDup_singleton]. intros x Hx Hx'. apply list_elem_of_singleton in Hx' as ->. by apply (Hnot ext l').
    + intros x Hx. apply elem_of_app in Hx as [Hx|Hx]; [|apply list_elem_of_singleton in Hx as ->; exists rs; by rewrite lookup_insert_eq].
      destruct (op_external_req_ids s !! ext) as [l'|] eqn:Hl'; cbn in Hx; [|by apply elem_of_nil in Hx]. by apply (Hold ext l').
Qed.

Lemma finish_request_queues rs s : op_queues (finish_request rs s).2 = op_queues s.
Proof.
  unfold finish_request, bind, gets, modify, drop_external. cbn [Datatypes.id]. destruct (op_request_states s !! rs_request_id rs); [|done]. cbn.
  destruct (py_remove _ _) as [[|x l]|e]; [..|done]; destruct (rs_parent_req rs) as [pid|]; cbn; try done;
    destruct (op_parents s !! pid) as [pp|]; try done; by destruct (bool_decide _).
Qed.

Lemma add_request_ok id ext parent idx kind prompt ids embeds detok queue resumable s : op_wf s →
  (op_request_states s !! id = None →
    live (op_parents s) (new_state id ext parent idx kind prompt ids embeds detok queue (op_stream_interval s) resumable) ∧
    (∀ q, queue = Some q → is_Some (op_queues s !! q))) →
  ∃ s', add_request id ext parent idx kind prompt ids embeds detok queue resumable s = (Ok tt, s') ∧ op_wf s' ∧
    (op_request_states s !! id = None → is_Some (op_request_states s' !! id)) ∧ ∀ id', id' ≠ id → op_request_states s' !! id' = op_request_states s !! id'.
Proof.
  intros Hwf Hnew. unfold add_request, bind at 1, gets. cbn [Datatypes.id]. destruct (op_request_states s !! id) as [rs|] eqn:Hid.
  - destruct (ow_states _ Hwf id rs Hid) as (Hrid & _ & Hq & _).
    assert (Hstore : ∀ rs', same_request rs rs' → ∃ s', store_state rs' s = (Ok tt, s') ∧ op_wf s' ∧ (Some rs = None → is_Some (op_request_states s' !! id)) ∧
      ∀ id', id' ≠ id → op_request_states s' !! id' = op_request_states s !! id').
    { intros rs' Hsame. eexists. split; [done|]. cbn. destruct (Hsame) as (-> & _). rewrite Hrid. split_and!; [by apply (store_wf id rs)|done|].
      intros id' Hne. by rewrite lookup_insert_ne. }
    unfold update_streaming_request_state. destruct resumable; cbn [negb].
    + destruct (rs_input_chunk_queue rs); apply Hstore; unfold same_request; cbn; split_and!; auto; done.
    + destruct (rs_input_chunk_queue rs) as [chunks|].
      * destruct (last chunks); apply Hstore; unfold same_request; cbn; split_and!; auto; done.
      * destruct (finish_request_ok id rs s Hid Hwf) as (s1 & Hf & Hwf1 & Hdel). rewrite (bind_ok _ _ _ _ _ Hf).
        pose proof (finish_request_queues rs s) as Hqs. rewrite Hf in Hqs. cbn in Hqs.
        assert (Hothers : ∀ id', id' ≠ id → op_request_states s1 !! id' = op_request_states s !! id') by (intros id' Hne; by rewrite Hdel, lookup_delete_ne).
        destruct (rs_queue rs) as [q|]; [|exists s1; by split_and!]. destruct (queue_put_ok q (ReqOut STREAM_FINISHED) s1 Hwf1) as (m & Hput & Hwf2); [rewrite Hqs; by apply Hq|].
        eexists. split; [exact Hput|]. by split_and!.
  - destruct (Hnew eq_refl) as [Hlive Hq]. set (rs := new_state _ _ _ _ _ _ _ _ _ _ _ _) in *. 
    pose proof (new_request_wf rs s Hwf Hid Hlive Hq) as Hwf'.
    destruct parent as [pid|]; eexists; (split; [done|]); (split; [try apply (parent_ids_wf _ _ Hwf'); exact Hwf'|]);
      (split; [intros _; cbn; rewrite lookup_insert_eq; by eexists|intros id' Hne; cbn; by rewrite lookup_insert_ne]).
Qed.

(** ** Aborting *)

(** Parents are not made, and wait for no new child. *)
Definition children_shrink (m m' : gmap string ParentRequest) : Prop :=
  ∀ pid p', m' !! pid = Some p' → ∃ p, m !! pid = Some p ∧ pr_child_requests p' ⊆ pr_child_requests p.

#[global] Instance children_shrink_preorder : PreOrder children_shrink.
Proof.
  split; [intros m pid p Hp; by exists p|]. intros a b c H1 H2 pid p Hp.
  destruct (H2 pid p Hp) as (p1 & Hp1 & Hs1). destruct (H1 pid p1 Hp1) as (p2 & Hp2 & Hs2). exists p2. split; [done|by etrans].
Qed.

Lemma get_outputs_shrinks p id c l b p' : get_outputs p id c = Ok (l, b, p') → pr_child_requests p' ⊆ pr_child_requests p.
Proof.
  unfold get_outputs. set (p1 := if _ && _ then _ else p).
  assert (pr_child_requests p1 ⊆ pr_child_requests p) as Hs by (unfold p1; destruct (_ && _); cbn; [apply subseteq_difference_l|]; done).
  destruct (negb _); [by intros [= _ _ <-]|]. destruct (py_set _ _ _); [|done]. by intros [= _ _ <-].
Qed.

Lemma make_request_output_shrinks rs parents toks pooling reason stop kv routed o rs' parents' :
  make_request_output rs parents toks pooling reason stop kv routed = Ok (o, rs', parents') → children_shrink parents parents'.
Proof.
  assert (∀ pid p p', parents !! pid = Some p → pr_child_requests p' ⊆ pr_child_requests p → children_shrink parents (<[pid := p']> parents)) as Hins.
  { intros pid p p' Hp Hs q r Hq. destruct (decide (q = pid)) as [->|Hne]; [|rewrite lookup_insert_ne in Hq by done; by exists r].
    rewrite lookup_insert_eq in Hq. injection Hq as <-. by exists p. }
  unfold make_request_output. destruct (negb _ && _); [by intros [= _ _ <-]|].
  destruct (stream_tokens _ _ _) as [[[t rs1]|]|]; cbn [res_bind]; [|by intros [= _ _ <-]|done].
  destruct pooling as [data|]; [destruct (output_prompt rs1); [by intros [= _ _ <-]|done]|].
  destruct (new_completion_output _ _ _ _ _) as [[c rs2]|]; cbn [res_bind]; [|done]. unfold finish_output.
  destruct (rs_parent_req rs2) as [pid|]; [|destruct (output_prompt rs2); [by intros [= _ _ <-]|done]].
  destruct (parents !! pid) as [p|] eqn:Hp; [|done]. destruct (get_outputs p _ c) as [[[lo b] p']|] eqn:Hg; cbn [res_bind]; [|done].
  apply get_outputs_shrinks in Hg. specialize (Hins pid p p' Hp Hg). destruct lo as [|x lo]; [by intros [= _ _ <-]|].
  destruct (all_outputs _); cbn [res_bind]; [|done]. destruct (output_prompt rs2); cbn [res_bind]; [|done]. by intros [= _ _ <-].
Qed.

(** The state between the two loops: the requests of [pend] are still tracked but
    no longer listed under their external ids. *)
Record wf_pending (pend : list string) s : Prop := {
  wp_states : ∀ id rs, op_request_states s !! id = Some rs → rs_request_id rs = id ∧ live (op_parents s) rs ∧
    (∀ q, rs_queue rs = Some q → is_Some (op_queues s !! q)) ∧
    (id ∈ pend ∨ ∃ l, op_external_req_ids s !! rs_external_req_id rs = Some l ∧ id ∈ l);
  wp_external : ∀ e l, op_external_req_ids s !! e = Some l → l ≠ [] ∧ NoDup l ∧
    ∀ id, id ∈ l → id ∉ pend ∧ ∃ rs, op_request_states s !! id = Some rs ∧ rs_external_req_id rs = e;
  wp_pend : NoDup pend ∧ ∀ id, id ∈ pend → is_Some (op_request_states s !! id);
}.

Lemma wf_pending_nil s : wf_pending [] s ↔ op_wf s.
Proof.
  split.
  - intros [H1 H2 _]. split.
    + intros id rs Hrs. destruct (H1 id rs Hrs) as (R1 & R2 & R3 & [R4|R4]); [by apply elem_of_nil in R4|done].
    + intros e l Hl. destruct (H2 e l Hl) as (L1 & L2 & L3). split_and!; [done|done|]. intros id Hid. by apply L3.
  - intros [H1 H2]. split.
    + intros id rs Hrs. destruct (H1 id rs Hrs) as (R1 & R2 & R3 & R4). split_and!; [done|done|done|by right].
    + intros e l Hl. destruct (H2 e l Hl) as (L1 & L2 & L3). split_and!; [done|done|]. intros id Hid. split; [apply not_elem_of_nil|by apply L3].
    + split; [apply NoDup_nil_2|]. intros id Hid. by apply elem_of_nil in Hid.
Qed.

(** The ids registered under the external ids. *)
Definition registered s (es : list string) : list string := concat ((λ e, default [] (op_external_req_ids s !! e)) <$> es).

(** The requests of an external id become pending. *)
Lemma pop_external e pend s : wf_pending pend s →
  wf_pending (pend ++ default [] (op_external_req_ids s !! e)) (set_external (delete e (op_external_req_ids s)) s).
Proof.
  set (le := default [] (op_external_req_ids s !! e)). intros Hwf. destruct Hwf as [H1 H2 [H3 H4]]. split; cbn.
  - intros id rs Hrs. destruct (H1 id rs Hrs) as (R1 & R2 & R3 & [R4|(l & Hl & Hin)]); split_and!; try done; [left; rewrite elem_of_app; by left|].
    destruct (decide (rs_external_req_id rs = e)) as [<-|Hne]; [left; rewrite elem_of_app; right; unfold le; by rewrite Hl|]. right. exists l. by rewrite lookup_delete_ne.
  - intros e' l Hl. apply lookup_delete_Some in Hl as [Hne Hl]. destruct (H2 e' l Hl) as (L1 & L2 & L3). split_and!; [done|done|]. intros id Hid.
    destruct (L3 id Hid) as (Hp & rs & Hrs & Hext). split; [|eauto]. rewrite not_elem_of_app. split; [done|]. unfold le. destruct (op_external_req_ids s !! e) as [l'|] eqn:Hl'; cbn; [|apply not_elem_of_nil].
    intros Hin. destruct (H2 e l' Hl') as (_ & _ & L4). destruct (L4 id Hin) as (_ & rs' & Hrs' & Hext'). congruence.
  - unfold le. destruct (op_external_req_ids s !! e) as [l'|] eqn:Hl'; cbn; [|by rewrite app_nil_r]. destruct (H2 e l' Hl') as (_ & L2 & L4). split.
    + apply NoDup_app. split_and!; [done| |done]. intros id Hid Hid'. by destruct (L4 id Hid').
    + intros id Hid. apply elem_of_app in Hid as [Hid|Hid]; [by apply H4|]. destruct (L4 id Hid) as (_ & rs' & Hrs' & _). by eexists.
Qed.

Lemma abort_ids_external es pend s : wf_pending pend s → NoDup es →
  ∃ m, abort_ids es false s = (Ok (registered s es), set_external m s) ∧ wf_pending (pend ++ registered s es) (set_external m s) ∧
    ∀ e, m !! e = if decide (e ∈ es) then None else op_external_req_ids s !! e.
Proof.
  revert pend s. induction es as [|e es IH]; intros pend s Hwf Hnd.
  - exists (op_external_req_ids s). cbn. rewrite app_nil_r. replace (set_external (op_external_req_ids s) s) with s by (by destruct s). split_and!; [done|done|].
    intros e. by rewrite decide_False by apply not_elem_of_nil.
  - apply NoDup_cons in Hnd as [He Hnd]. set (le := default [] (op_external_req_ids s !! e)). set (s1 := set_external (delete e (op_external_req_ids s)) s).
    assert (Hwf1 : wf_pending (pend ++ le) s1) by (by apply pop_external).
    destruct (IH (pend ++ le) s1 Hwf1 Hnd) as (m & Hrun & Hwf' & Hm).
    assert (Hreg : registered s1 es = registered s es).
    { unfold registered. f_equal. apply list_fmap_ext. intros i x Hx. cbn. rewrite lookup_delete_ne; [done|]. intros <-. by apply He, (list_elem_of_lookup_2 _ i). }
    rewrite Hreg in Hrun, Hwf'. exists m. split; [|split].
    + cbn [abort_ids]. unfold bind at 1, gets. cbn [Datatypes.id]. unfold bind, modify. fold s1. by rewrite Hrun.
    + rewrite <-app_assoc in Hwf'. exact Hwf'.
    + intros e'. rewrite Hm. cbn. destruct (decide (e' = e)) as [->|Hne]; [rewrite (decide_True (P := e ∈ e :: es)) by left; rewrite lookup_delete_eq; by destruct (decide _)|].
      rewrite lookup_delete_ne by done. dec_cases; try done; rewrite elem_of_cons in *; naive_solver.
Qed.

(** The first loop on external ids, which may repeat. *)
Lemma abort_ids_pending es : ∀ pend s, wf_pending pend s →
  ∃ l m, abort_ids es false s = (Ok l, set_external m s) ∧ wf_pending (pend ++ l) (set_external m s).
Proof.
  induction es as [|e es IH]; intros pend s Hwf.
  - exists [], (op_external_req_ids s). rewrite app_nil_r. replace (set_external (op_external_req_ids s) s) with s by (by destruct s). done.
  - destruct (IH _ _ (pop_external e pend s Hwf)) as (l & m & Hrun & Hwf'). rewrite <-app_assoc in Hwf'.
    eexists _, m. split; [|exact Hwf']. cbn [abort_ids]. unfold bind at 1, gets. cbn [Datatypes.id]. unfold bind, modify. by rewrite Hrun.
Qed.

Lemma abort_output_ok rs s : live (op_parents s) rs → (∀ q, rs_queue rs = Some q → is_Some (op_queues s !! q)) →
  ∃ m n, abort_output rs s = (Ok tt, set_queues n (set_parents m s)) ∧ parents_kept (op_parents s) m ∧ children_shrink (op_parents s) m ∧
    ∀ q, is_Some (op_queues s !! q) → is_Some (n !! q).
Proof.
  intros Hlive Hq. assert (Hself : set_queues (op_queues s) s = s) by (by destruct s). unfold abort_output. destruct (rs_queue rs) as [q|].
  2: { exists (op_parents s), (op_queues s). split; [by destruct s|]. split; [reflexivity|]. split; [reflexivity|done]. }
  unfold bind at 1, gets. cbn [Datatypes.id]. set (pooling := match rs_detokenizer rs with None => Some "" | Some _ => None end).
  destruct (make_request_output_ok rs (op_parents s) [] pooling (Some ABORT) None None None Hlive) as (o & rs' & m & Hmk & _ & Hkept & _).
  { unfold pooling. destruct (rs_detokenizer rs); [by eexists|done]. }
  pose proof (make_request_output_shrinks _ _ _ _ _ _ _ _ _ _ _ Hmk) as Hshrink.
  unfold lift. rewrite Hmk. destruct (Hq q eq_refl) as [c Hc]. unfold bind, modify. cbn. destruct o as [item|].
  - unfold queue_put. cbn. rewrite Hc. eexists m, _. split; [done|]. split; [done|]. split; [done|]. intros q' Hq'. destruct (decide (q' = q)) as [->|Hne]; [rewrite lookup_insert_eq; by eexists|by rewrite lookup_insert_ne].
  - exists m, (op_queues s). split; [by destruct s|]. done.
Qed.

(** The second loop on a request that is still tracked. *)
Lemma drop_pending id pend s : wf_pending (id :: pend) s →
  ∃ rs s', op_request_states s !! id = Some rs ∧
    (modify (λ s, set_states (delete id (op_request_states s)) s) ;;; abort_output rs ;;; ret [id]) s = (Ok [id], s') ∧
    wf_pending pend s' ∧ op_request_states s' = delete id (op_request_states s) ∧ op_external_req_ids s' = op_external_req_ids s ∧
    op_parent_requests s' = op_parent_requests s ∧ children_shrink (op_parents s) (op_parents s').
Proof.
  intros Hwf. pose proof Hwf as [H1 H2 [H3 H4]]. apply NoDup_cons in H3 as [Hnin Hnd]. destruct (H4 id) as [rs Hrs]; [left|]. destruct (H1 id rs Hrs) as (R1 & R2 & R3 & _).
  set (s1 := set_states (delete id (op_request_states s)) s). destruct (abort_output_ok rs s1 R2 R3) as (m & n & Hout & Hkept & Hshrink & Hqs).
  exists rs, (set_queues n (set_parents m s1)). split; [done|]. split; [unfold bind, modify; fold s1; by rewrite Hout|]. split; [|by split_and!]. split; cbn.
  - intros id' rs' Hrs'. apply lookup_delete_Some in Hrs' as [Hne Hrs']. destruct (H1 id' rs' Hrs') as (Q1 & Q2 & Q3 & Q4). split_and!; [done| | |].
    + eapply live_kept; [exact Q2|exact Hkept|reflexivity].
    + intros q Hq. by apply Hqs, Q3.
    + destruct Q4 as [Q4|Q4]; [|by right]. apply elem_of_cons in Q4 as [->|Q4]; [done|by left].
  - intros e l Hl. destruct (H2 e l Hl) as (L1 & L2 & L3). split_and!; [done|done|]. intros x Hx. destruct (L3 x Hx) as (Hp & rs' & Hrs' & He).
    rewrite not_elem_of_cons in Hp. destruct Hp as [Hne Hp]. split; [done|]. exists rs'. by rewrite lookup_delete_ne.
  - split; [done|]. intros x Hx. rewrite lookup_delete_ne; [apply H4; by right|]. by intros ->.
Qed.

Lemma abort_loop_ok again pend s : wf_pending pend s →
  ∃ s', abort_loop again pend s = (Ok pend, s') ∧ op_wf s' ∧ (∀ id, op_request_states s' !! id = if decide (id ∈ pend) then None else op_request_states s !! id) ∧
    op_external_req_ids s' = op_external_req_ids s ∧ op_parent_requests s' = op_parent_requests s.
Proof.
  revert s. induction pend as [|id pend IH]; intros s Hwf.
  - exists s. split_and!; [done|by apply wf_pending_nil| |done|done]. intros id. by rewrite decide_False by apply not_elem_of_nil.
  - destruct (drop_pending id pend s Hwf) as (rs & s2 & Hrs & Hhead & Hwf2 & Est & Eex & Epr & _).
    destruct (IH s2 Hwf2) as (s' & Hrun & Hwf' & Hst & Hex & Hpr). exists s'. split; [|split_and!; [done| |congruence..]].
    + cbn [abort_loop]. unfold bind at 1, gets. cbn [Datatypes.id]. rewrite Hrs.
      rewrite (bind_ok _ _ _ _ _ Hhead). by rewrite (bind_ok _ _ _ _ _ Hrun).
    + intros x. rewrite Hst, Est. destruct (decide (x = id)) as [->|Hne]; [rewrite (decide_True (P := id ∈ id :: pend)) by left; rewrite lookup_delete_eq; by destruct (decide _)|].
      rewrite lookup_delete_ne by done. dec_cases; try done; rewrite elem_of_cons in *; naive_solver.
Qed.

Lemma abort_external_ok es s : op_wf s → NoDup es →
  ∃ s', abort_requests es false s = (Ok (registered s es), s') ∧ op_wf s' ∧
    (∀ id, op_request_states s' !! id = if decide (id ∈ registered s es) then None else op_request_states s !! id) ∧
    (∀ e, op_external_req_ids s' !! e = if decide (e ∈ es) then None else op_external_req_ids s !! e) ∧ op_parent_requests s' = op_parent_requests s.
Proof.
  intros Hwf Hnd. apply wf_pending_nil in Hwf. destruct (abort_ids_external es [] s Hwf Hnd) as (m & Hids & Hwf1 & Hm).
  unfold abort_requests. cbn [abort_fuel]. rewrite (bind_ok _ _ _ _ _ Hids).
  match goal with |- context [abort_loop ?a _ _] => destruct (abort_loop_ok a _ _ Hwf1) as (s' & Hrun & Hwf' & Hst & Hex & Hpr) end.
  exists s'. split_and!; [exact Hrun|done|exact Hst|intros e; rewrite Hex; apply Hm|exact Hpr].
Qed.

(** *** Internal ids *)

#[global] Instance wf_pending_proper : Proper ((≡ₚ) ==> (=) ==> iff) wf_pending.
Proof.
  assert (∀ l l' s, l ≡ₚ l' → wf_pending l s → wf_pending l' s) as Hp.
  { intros l l' s Hl [H1 H2 [H3 H4]]. split; [| |split].
    - intros id rs Hrs. rewrite <-Hl. by apply H1.
    - intros e k Hk. destruct (H2 e k Hk) as (? & ? & L). split_and!; [done..|]. intros id Hid. rewrite <-Hl. by apply L.
    - by rewrite <-Hl.
    - intros id. rewrite <-Hl. apply H4. }
  intros l l' Hl s _ <-. split; by apply Hp.
Qed.

(** A tracked request is taken from the list of its external id. *)
Lemma drop_listed id rs pend s : wf_pending pend s → op_request_states s !! id = Some rs → id ∉ pend →
  ∃ m, drop_external (rs_external_req_id rs) id s = (Ok tt, set_external m s) ∧ wf_pending (id :: pend) (set_external m s).
Proof.
  intros [Hst Hex [Hnd Htr]] Hid Hpend. destruct (Hst id rs Hid) as (_ & _ & _ & [?|(l & Hl & Hin)]); [done|]. destruct (Hex _ l Hl) as (L1 & L2 & L3).
  destruct (py_remove_ok l id L2 Hin) as (l' & Hrem & Hnd' & Hl'). unfold drop_external. rewrite Hl. cbn [default from_option]. unfold Datatypes.id. rewrite Hrem.
  assert (Hwf : ∀ m, (∀ e, e ≠ rs_external_req_id rs → m !! e = op_external_req_ids s !! e) →
    (match l' with [] => m !! rs_external_req_id rs = None | _ => m !! rs_external_req_id rs = Some l' end) → wf_pending (id :: pend) (set_external m s)).
  { intros m Hother Hown. split; cbn.
    - intros id' rs' Hrs'. destruct (Hst id' rs' Hrs') as (Q1 & Q2 & Q3 & Q4). split_and!; [done..|]. destruct (decide (id' = id)) as [->|Hne]; [left; left|].
      destruct Q4 as [Q4|(k & Hk & Hkin)]; [left; by right|]. right. destruct (decide (rs_external_req_id rs' = rs_external_req_id rs)) as [Heq|Hne']; [|exists k; by rewrite Hother].
      rewrite Heq in Hk. assert (k = l) as -> by congruence. assert (id' ∈ l') as Hin' by (apply Hl'; by split). exists l'. rewrite Heq.
      destruct l' as [|x l']; [by apply elem_of_nil in Hin'|done].
    - intros e k Hk. destruct (decide (e = rs_external_req_id rs)) as [->|Hne].
      + assert (k = l' ∧ l' ≠ []) as [-> Hne] by (destruct l'; [congruence|split; [congruence|done]]). split_and!; [done|done|].
        intros x Hx. apply Hl' in Hx as [Hx Hxne]. destruct (L3 x Hx) as (Hxp & Hrs'). split; [by apply not_elem_of_cons|done].
      + rewrite Hother in Hk by done. destruct (Hex e k Hk) as (K1 & K2 & K3). split_and!; [done|done|]. intros x Hx. destruct (K3 x Hx) as (Hxp & rs' & Hrs' & He).
        split; [|eauto]. apply not_elem_of_cons. split; [|done]. intros ->. congruence.
    - split; [by apply NoDup_cons|]. intros x Hx. apply elem_of_cons in Hx as [->|Hx]; [by eexists|by apply Htr]. }
  destruct l' as [|x l']; eexists; (split; [done|]); apply Hwf.
  - intros e He. by rewrite lookup_delete_ne.
  - apply lookup_delete_eq.
  - intros e He. by rewrite lookup_insert_ne.
  - apply lookup_insert_eq.
Qed.

Definition tracked s (id : string) : Prop := is_Some (op_request_states s !! id).

(** The first loop on internal ids. *)
Lemma abort_ids_internal ids : ∀ pend s, wf_pending pend s → NoDup ids → (∀ id, id ∈ ids → id ∉ pend) →
  ∃ m, abort_ids ids true s = (Ok ids, set_external m s) ∧ wf_pending (filter (tracked s) ids ++ pend) (set_external m s).
Proof.
  induction ids as [|id ids IH]; intros pend s Hwf Hnd Hdis.
  { exists (op_external_req_ids s). replace (set_external (op_external_req_ids s) s) with s by (by destruct s). done. }
  apply NoDup_cons in Hnd as [Hid Hnd]. cbn [abort_ids]. unfold bind at 1, gets. cbn [Datatypes.id].
  destruct (op_request_states s !! id) as [rs|] eqn:Hrs.
  - rewrite filter_cons_True by (by eexists). destruct (drop_listed id rs pend s Hwf Hrs) as (m1 & Hd & Hwf1); [apply Hdis; left|].
    rewrite (bind_ok _ _ _ _ _ Hd). destruct (IH (id :: pend) _ Hwf1 Hnd) as (m & Hrun & Hwf').
    { intros x Hx. apply not_elem_of_cons. split; [by intros ->|]. apply Hdis. by right. }
    exists m. rewrite (bind_ok _ _ _ _ _ Hrun). split; [done|]. rewrite <-app_comm_cons. by rewrite <-Permutation_middle in Hwf'.
  - rewrite filter_cons_False by (unfold tracked; rewrite Hrs; by intros []). destruct (IH pend s Hwf Hnd) as (m & Hrun & Hwf').
    { intros x Hx. apply Hdis. by right. }
    exists m. rewrite (bind_ok (ret tt) _ s tt s) by done. by rewrite (bind_ok _ _ _ _ _ Hrun).
Qed.

(** What aborting may change: requests disappear, parents wait for fewer children. *)
Record shrunk s s' : Prop := {
  sk_states : ∀ id, op_request_states s' !! id = op_request_states s !! id ∨ op_request_states s' !! id = None;
  sk_ids : op_parent_requests s' ⊆ op_parent_requests s;
  sk_children : children_shrink (op_parents s) (op_parents s');
}.

#[global] Instance shrunk_preorder : PreOrder shrunk.
Proof.
  split; [split; [by left|done|reflexivity]|]. intros a b c [A1 A2 A3] [B1 B2 B3]. split; [|by etrans|by etrans].
  intros id. destruct (B1 id) as [->|]; [apply A1|by right].
Qed.

Lemma filter_tracked s s' (l : list string) : (∀ x, x ∈ l → tracked s x ↔ tracked s' x) → filter (tracked s) l = filter (tracked s') l.
Proof.
  induction l as [|x l IH]; intros H; [done|]. pose proof (H x ltac:(left)) as Hx. rewrite !filter_cons, IH by (intros y Hy; apply H; by right).
  destruct (decide (tracked s x)), (decide (tracked s' x)); tauto.
Qed.

(** No id is a child of a parent that is listed too, and children are not
    parents themselves. *)
Definition apart (ids pend : list string) s : Prop :=
  ∀ pid p c, pid ∈ ids → pid ∈ op_parent_requests s → op_parents s !! pid = Some p → c ∈ pr_child_requests p →
    c ∉ ids ∧ c ∉ pend ∧ c ∉ op_parent_requests s.

Lemma apart_shrunk id ids pend s s' : apart (id :: ids) pend s → shrunk s s' → apart ids pend s'.
Proof.
  intros Ha [_ H2 H3] pid p c Hp Hreg Hpar Hc. destruct (H3 pid p Hpar) as (p0 & Hp0 & Hs).
  destruct (Ha pid p0 c) as (C1 & C2 & C3); [by right|by apply H2|done|by apply Hs|].
  apply not_elem_of_cons in C1 as [_ C1]. split_and!; [done..|]. intros Hin. by apply C3, H2.
Qed.

(** The second loop on internal ids; [again] is needed for parents only. *)
Lemma abort_internal_loop again ids : ∀ pend s,
  wf_pending (filter (tracked s) ids ++ pend) s → NoDup ids → apart ids pend s →
  ((∃ id, id ∈ ids ∧ id ∈ op_parent_requests s) → ∀ children pend' s', wf_pending pend' s' → NoDup children →
    (∀ c, c ∈ children → c ∉ pend' ∧ c ∉ op_parent_requests s') →
    ∃ l s'', again children s' = (Ok l, s'') ∧ wf_pending pend' s'' ∧ shrunk s' s'') →
  ∃ l s', abort_loop again ids s = (Ok l, s') ∧ wf_pending pend s' ∧ shrunk s s'.
Proof.
  induction ids as [|id ids IH]; intros pend s Hwf Hnd Hap Hagain; [by exists [], s|].
  apply NoDup_cons in Hnd as [Hid Hnd]. cbn [abort_loop]. unfold bind at 1, gets. cbn [Datatypes.id].
  assert (∀ aborted s1 (m : M (OutputProcessor D) (list string)), m s = (Ok aborted, s1) → shrunk s s1 → wf_pending (filter (tracked s) ids ++ pend) s1 →
    ∃ l s', (let! aborted := m in let! l := abort_loop again ids in ret (aborted ++ l)) s = (Ok l, s') ∧ wf_pending pend s' ∧ shrunk s s') as Hrest.
  { intros aborted s1 m Hm Hs1 Hwf1. rewrite (bind_ok _ _ _ _ _ Hm). destruct (IH pend s1) as (l & s' & Hrun & Hwf' & Hs').
    - rewrite <-(filter_tracked s s1 ids); [done|]. intros x Hx. split.
      + intros Ht. apply (proj2 (wp_pend _ _ Hwf1)), elem_of_app. left. by apply list_elem_of_filter.
      + unfold tracked. destruct (sk_states _ _ Hs1 x) as [->| ->]; [done|by intros []].
    - done.
    - by eapply apart_shrunk.
    - intros (x & Hx & Hxp). apply Hagain. exists x. split; [by right|]. by apply (sk_ids _ _ Hs1).
    - rewrite (bind_ok _ _ _ _ _ Hrun). eexists _, s'. split; [done|]. split; [done|by etrans]. }
  destruct (op_request_states s !! id) as [rs|] eqn:Hrs.
  - rewrite filter_cons_True in Hwf by (by eexists). destruct (drop_pending _ _ _ Hwf) as (rs' & s1 & Hrs' & Hrun & Hwf1 & Est & _ & Epr & Hch).
    assert (rs' = rs) as -> by congruence. apply (Hrest _ _ _ Hrun); [|done]. split; [|by rewrite Epr|done].
    intros x. rewrite Est. destruct (decide (x = id)) as [->|]; [right; apply lookup_delete_eq|left; by apply lookup_delete_ne].
  - rewrite filter_cons_False in Hwf by (unfold tracked; rewrite Hrs; by intros []).
    case_bool_decide as Hpar; [|by apply (Hrest [] s)].
    set (children := match op_parents s !! id with Some p => elements (pr_child_requests p) | None => [] end).
    assert (∃ l s1, (match children with [] => ret [] | _ => again children end) s = (Ok l, s1) ∧
      wf_pending (filter (tracked s) ids ++ pend) s1 ∧ shrunk s s1) as (l & s1 & Hrun & Hwf1 & Hs1).
    { assert (∃ l s1, again children s = (Ok l, s1) ∧ wf_pending (filter (tracked s) ids ++ pend) s1 ∧ shrunk s s1) as Hch;
        [|destruct children; [by exists [], s|exact Hch]].
      apply Hagain; [exists id; split; [left|done]|done| |].
      - unfold children. destruct (op_parents s !! id); [apply NoDup_elements|apply NoDup_nil_2].
      - intros c Hc. unfold children in Hc. destruct (op_parents s !! id) as [p|] eqn:Hp; [|by apply elem_of_nil in Hc].
        apply elem_of_elements in Hc. destruct (Hap id p c) as (C1 & C2 & C3); [left|done|done|done|]. split; [|done].
        rewrite elem_of_app, list_elem_of_filter. apply not_elem_of_cons in C1 as [_ C1]. tauto. }
    apply (Hrest l (set_parent_ids (op_parent_requests s1 ∖ {[ id ]}) s1)).
    + rewrite (bind_ok _ _ _ _ _ Hrun). done.
    + etrans; [exact Hs1|]. split; [by left|intros x; cbn; rewrite elem_of_difference; tauto|reflexivity].
    + destruct Hwf1 as [W1 W2 W3]. by split.
Qed.

(** Aborting internal ids that are given once, without a parent and a child of
    it together, never raises. *)
Lemma abort_internal_ok ids s : op_wf s → NoDup ids → apart ids [] s →
  ∃ l s', abort_requests ids true s = (Ok l, s') ∧ op_wf s' ∧ shrunk s s'.
Proof.
  intros Hwf Hnd Hap. assert (∀ fuel ids pend s, wf_pending pend s → NoDup ids → (∀ id, id ∈ ids → id ∉ pend) → apart ids pend s →
    (∀ id, id ∈ ids → id ∈ op_parent_requests s → ∃ n, fuel = S n) →
    ∃ l s', abort_fuel fuel ids true s = (Ok l, s') ∧ wf_pending pend s' ∧ shrunk s s') as Hrun.
  { clear. induction fuel as [|fuel IH]; intros ids pend s Hwf Hnd Hdis Hap Hfuel; cbn [abort_fuel];
      destruct (abort_ids_internal ids pend s Hwf Hnd Hdis) as (m & Hids & Hwf1); rewrite (bind_ok _ _ _ _ _ Hids);
      match goal with |- context [abort_loop ?again _ _] =>
        destruct (abort_internal_loop again ids pend (set_external m s) Hwf1 Hnd Hap) as (l & s' & Hrun & Hwf' & [K1 K2 K3]);
          [|exists l, s'; by split_and!] end.
    - intros (id & Hid & Hpar). by destruct (Hfuel id Hid Hpar).
    - intros _ children pend' s' Hwf' Hnd' Hdis'. apply IH; [done|done|by intros c []%Hdis'| |].
      + intros pid p c Hpid Hreg. by destruct (Hdis' pid Hpid).
      + intros c Hc Hreg. by destruct (Hdis' c Hc). }
  apply wf_pending_nil in Hwf. destruct (Hrun (S (size (op_parent_requests s))) ids [] s Hwf Hnd) as (l & s' & Hab & Hwf' & Hs'); [|done|by eexists|].
  - intros id _. apply not_elem_of_nil.
  - exists l, s'. split; [done|]. split; [by apply wf_pending_nil|done].
Qed.

(** A parent with all its children made waits for all of them. *)
Lemma new_children_ok rid ext params : parent_ok rid (make_children (new_parent rid ext params)).
Proof.
  unfold make_children. destruct (make_children_loop (new_parent rid ext params) (py_range 0 (cp_n params))) as (E1 & E2 & E3 & E4). cbn [pr_params new_parent] in *.
  split; [exact E1|]. rewrite E2. intros Hk i Hi. rewrite E3 in Hi. cbn -[py_repeat] in Hi. rewrite Hk, bool_decide_true in Hi by done.
  apply E4. right. exists (Z.of_nat i). split; [|done]. apply lookup_lt_Some in Hi. unfold py_repeat in Hi. rewrite length_replicate in Hi. unfold py_range. apply elem_of_seqZ. lia.
Qed.

(** ** Runs of the output processor *)

Inductive op_reach : OutputProcessor D → Prop :=
  | or_start n : op_reach (MkProcessor n ∅ ∅ ∅ ∅ ∅)
  | or_queue s q kind : op_reach s → op_queues s !! q = None → op_reach (set_queues (<[q := new_collector kind]> (op_queues s)) s)
  | or_get s q c : op_reach s → op_queues s !! q = Some c → op_reach (set_queues (<[q := (get_nowait c).2]> (op_queues s)) s)
  | or_parent s rid ext params : op_reach s → op_parents s !! rid = None → op_reach (register_parent (make_children (new_parent rid ext params)) s).2
  | or_add s id ext parent idx kind prompt ids embeds detok queue resumable : op_reach s →
      (op_request_states s !! id = None →
        live (op_parents s) (new_state id ext parent idx kind prompt ids embeds detok queue (op_stream_interval s) resumable) ∧
        (∀ q, queue = Some q → is_Some (op_queues s !! q))) →
      op_reach (add_request id ext parent idx kind prompt ids embeds detok queue resumable s).2
  | or_process s outs : op_reach s → Forall (compatible s) outs → op_reach (process_outputs decode_next outs s).2
  | or_abort s es : op_reach s → op_reach (abort_requests es false s).2
  | or_abort_internal s ids : op_reach s → NoDup ids → apart ids [] s → op_reach (abort_requests ids true s).2
  | or_error s e : op_reach s → op_reach (propagate_error e s).2.

(** Aborting external ids, repeated or not. *)
Lemma abort_requests_wf es s : op_wf s → op_wf (abort_requests es false s).2.
Proof.
  intros Hwf. apply wf_pending_nil in Hwf. destruct (abort_ids_pending es [] s Hwf) as (l & m & Hids & Hwf1).
  unfold abort_requests. cbn [abort_fuel]. rewrite (bind_ok _ _ _ _ _ Hids).
  match goal with |- context [abort_loop ?a _ _] => destruct (abort_loop_ok a _ _ Hwf1) as (s' & Hrun & Hwf' & _) end.
  cbn [app] in Hrun. by rewrite Hrun.
Qed.

(** An error that is propagated only reaches the queues, also when a request
    without a queue makes the loop raise. *)
Lemma propagate_error_wf e s : op_wf s → op_wf (propagate_error e s).2.
Proof.
  unfold propagate_error. unfold bind, gets. generalize ((map_to_list (op_request_states (Datatypes.id s))).*2) as l.
  intros l. revert s. induction l as [|rs l IH]; intros s Hwf; [done|]. cbn [for_each]. unfold bind.
  destruct (rs_queue rs) as [q|]; [|done]. destruct (op_queues s !! q) as [c|] eqn:Hc; [|unfold queue_put; by rewrite Hc].
  destruct (queue_put_ok q (ErrOut e) s Hwf) as (m & -> & Hwf1); [by eexists|]. by apply IH.
Qed.

Lemma op_reach_wf s : op_reach s → op_wf s.
Proof.
  induction 1 as [n|s q kind _ IH Hq|s q c _ IH Hq|s rid ext params _ IH Hp|s id ext parent idx kind prompt ids embeds detok queue resumable _ IH Hnew|s outs _ IH Hall|s es _ IH|s ids _ IH Hnd Hap|s e _ IH].
  - split; intros x y Hx; cbn in Hx; by rewrite lookup_empty in Hx.
  - destruct IH as [Hst Hex]. split; [|done]. intros id rs Hrs. destruct (Hst id rs Hrs) as (R1 & R2 & R3 & R4). split_and!; [done|done| |done].
    intros q' Hq'. cbn. destruct (decide (q' = q)) as [->|Hne]; [rewrite lookup_insert_eq; by eexists|rewrite lookup_insert_ne by done; by apply R3].
  - destruct IH as [Hst Hex]. split; [|done]. intros id rs Hrs. destruct (Hst id rs Hrs) as (R1 & R2 & R3 & R4). split_and!; [done|done| |done].
    intros q' Hq'. cbn. destruct (decide (q' = q)) as [->|Hne]; [rewrite lookup_insert_eq; by eexists|rewrite lookup_insert_ne by done; by apply R3].
  - apply parents_wf; [done|]. intros pid p Hpid Hok. exists p. split; [|by split]. rewrite (po_id _ _ (new_children_ok rid ext params)). rewrite lookup_insert_ne; [done|]. intros ->. congruence.
  - destruct (add_request_ok id ext parent idx kind prompt ids embeds detok queue resumable s IH Hnew) as (s' & -> & Hwf & _). done.
  - destruct (process_loop_ok outs (MkProcessed [] []) s IH Hall) as (r & s' & Hrun & Hwf & _). unfold process_outputs. by rewrite Hrun.
  - by apply abort_requests_wf.
  - destruct (abort_internal_ok ids s IH Hnd Hap) as (l & s' & -> & Hwf & _). done.
  - by apply propagate_error_wf.
Qed.

(** C12.  In every reachable state the two tables agree: a request is tracked
    exactly when it is listed under its external id, there exactly once, and no
    external id is left with an empty list; so an abort by the id the client knows
    reaches exactly the requests of that client that are still running.  The
    states are reached by new requests whose outputs can be made (a prompt, a
    detokenizer when the stream interval exceeds one, a registered parent if any),
    streaming updates, parents of parallel sampling, outputs of the engine core that fit the tracked requests, clients
    that read their queues, errors that are propagated, aborts by external ids,
    and aborts by internal ids, each given once, no child together with its
    parent, no child being a parent itself. *)
Theorem front_end_consistent s : op_reach s →
  (∀ id rs, op_request_states s !! id = Some rs → rs_request_id rs = id ∧ ∃ l, op_external_req_ids s !! rs_external_req_id rs = Some l ∧ id ∈ l) ∧
  (∀ e l, op_external_req_ids s !! e = Some l → l ≠ [] ∧ NoDup l ∧ ∀ id, id ∈ l → ∃ rs, op_request_states s !! id = Some rs ∧ rs_external_req_id rs = e).
Proof.
  intros Hr. destruct (op_reach_wf s Hr) as [Hst Hex]. split; [|done]. intros id rs Hrs. destruct (Hst id rs Hrs) as (R1 & _ & _ & R4). by split.
Qed.


(** Aborting by external ids never raises, returns exactly the requests
    registered under them, and drops these and no others. *)
Theorem abort_external_exact es s : op_wf s → NoDup es →
  ∃ s', abort_requests es false s = (Ok (registered s es), s') ∧ op_wf s' ∧
    (∀ id, op_request_states s' !! id = if decide (id ∈ registered s es) then None else op_request_states s !! id) ∧
    (∀ id, id ∈ registered s es ↔ ∃ rs, op_request_states s !! id = Some rs ∧ rs_external_req_id rs ∈ es).
Proof.
  intros Hwf Hnd. destruct (abort_external_ok es s Hwf Hnd) as (s' & Hrun & Hwf' & Hst & _). exists s'. split_and!; [done|done|done|].
  intros id. unfold registered. rewrite list_elem_of_In, List.in_concat. destruct Hwf as [H1 H2]. split.
  - intros (l & Hl & Hid). apply list_elem_of_In, list_elem_of_fmap in Hl as (e & -> & He). apply list_elem_of_In in Hid.
    destruct (op_external_req_ids s !! e) as [l|] eqn:Hl; [|by apply elem_of_nil in Hid]. destruct (H2 e l Hl) as (_ & _ & Hall). destruct (Hall id Hid) as (rs & Hrs & <-). eauto.
  - intros (rs & Hrs & He). destruct (H1 id rs Hrs) as (_ & _ & _ & (l & Hl & Hin)). exists l. split; [|by apply list_elem_of_In].
    apply list_elem_of_In, list_elem_of_fmap. exists (rs_external_req_id rs). by rewrite Hl.
Qed.
End invariant.

(** ** Runs *)

Lemma char_total : ∀ x l i, ∃ t, char_decode x l i = Ok t.
Proof. intros. by eexists. Qed.

Definition empty_processor (interval : Z) : OutputProcessor unit := MkProcessor interval ∅ ∅ ∅ ∅ ∅.

(** A streaming request "a" of the client's "x", with the stop string 8 9. *)
Definition one_request : OutputProcessor unit :=
  (add_request "a" "x" None 0 DELTA None (Some [1]) None (Some (WithText (new_detok [[8; 9]] 0 false [] tt))) None false (empty_processor 1)).2.

Lemma one_request_reach : op_reach char_decode one_request.
Proof.
  apply or_add; [apply or_start|]. intros _. split; [|done]. split; [left; by eexists|intros _; by eexists|done].
Qed.

Lemma one_request_wf : op_wf one_request.
Proof. apply (op_reach_wf char_decode char_total), one_request_reach. Qed.

(** A second request "b" of the same client, after which "a" is aborted by its
    internal id. *)
Definition after_internal_abort : OutputProcessor unit :=
  (abort_requests ["a"] true
    (add_request "b" "x" None 0 DELTA None (Some [2]) None (Some (WithText (new_detok [] 0 false [] tt))) None false one_request).2).2.

Lemma after_internal_abort_reach : op_reach char_decode after_internal_abort.
Proof.
  apply or_abort_internal; [apply or_add; [apply one_request_reach|]| |].
  - intros _. split; [|done]. split; [left; by eexists|intros _; by eexists|done].
  - apply NoDup_singleton.
  - intros pid p c Hpid Hreg. exfalso. apply list_elem_of_singleton in Hpid as ->. revert Hreg. apply (bool_decide_unpack _). vm_compute. exact I.
Qed.

Lemma front_end_consistent_witness :
  op_request_states after_internal_abort !! "a" = None ∧ ∃ l, op_external_req_ids after_internal_abort !! "x" = Some l ∧ "b" ∈ l.
Proof.
  destruct (front_end_consistent char_decode char_total after_internal_abort after_internal_abort_reach) as [H1 _]. split; [vm_compute; reflexivity|].
  destruct (op_request_states after_internal_abort !! "b") as [rs|] eqn:Hrs; [|vm_compute in Hrs; discriminate Hrs].
  destruct (H1 "b" rs Hrs) as [_ (l & Hl & Hin)]. vm_compute in Hrs. injection Hrs as <-. exists l. split; [exact Hl|exact Hin].
Defined.


Lemma abort_external_exact_witness : ∃ s', abort_requests ["x"] false one_request = (Ok ["a"], s') ∧ op_request_states s' !! "a" = None.
Proof.
  destruct (abort_external_exact ["x"] one_request) as (s' & Hrun & _ & Hst & _).
  - apply one_request_wf.
  - apply NoDup_singleton.
  - exists s'. split; [exact Hrun|]. rewrite Hst. vm_compute. reflexivity.
Defined.

(** *** Where the code leaves something behind *)

(** A streaming request "p" of the client's "x" with two samples. *)
Definition two_samples : OutputProcessor unit :=
  let p := make_children (new_parent "p" "x" (MkChildParams 2 None DELTA)) in
  let add := λ i s, (add_request (child_id "p" i) "x" (Some "p") i DELTA None (Some [1]) None (Some (NoText [])) (Some 0%nat) false s).2 in
  add 1 (add 0 (register_parent p (set_queues {[0%nat := new_collector DELTA]} (empty_processor 1))).2).

(** Aborted by the id the client knows, both samples are dropped and the client is
    told that the request is finished, but the parent stays registered. *)
Theorem external_abort_keeps_parent :
  let s := (abort_requests ["x"] false two_samples).2 in
  (abort_requests ["x"] false two_samples).1 = Ok [child_id "p" 0; child_id "p" 1] ∧
  op_request_states s = ∅ ∧ op_external_req_ids s = ∅ ∧ pr_child_requests <$> op_parents s !! "p" = Some ∅ ∧ op_parent_requests s = {["p"]}.
Proof. vm_compute. done. Qed.

(** With [stream_interval] above 1 the final output of a pooling request, which has
    no detokenizer, cannot be made: the assertion fails. *)
Theorem pooling_interval_fails {D} (rs : RequestState D) parents data reason kv routed :
  rs_detokenizer rs = None → 1 < rs_stream_interval rs →
  make_request_output rs parents [] (Some data) (Some reason) None kv routed = Raise AssertionError.
Proof.
  intros Hd Hi. unfold make_request_output, stream_tokens. cbn. rewrite (proj2 (Z.ltb_lt _ _) Hi), Hd. done.
Qed.

(** In cumulative mode the interval has no effect: the offset of the sent tokens is
    never moved, so that each output counts as the first one. *)
Theorem cumulative_ignores_interval {D} (rs : RequestState D) toks finished : rs_output_kind rs = CUMULATIVE → rs_sent_tokens_offset rs = 0 →
  is_Some (rs_detokenizer rs) → stream_tokens rs toks finished = Ok (Some (toks, rs)).
Proof.
  intros Hk Hs [d Hd]. unfold stream_tokens. rewrite Hd, Hk, Hs. destruct (1 <? _); [|done]. cbn. by rewrite orb_true_r.
Qed.

(** If the first child finishes before the second one was made, the parent counts
    as finished and returns an output that is missing. *)
Theorem early_child_ends_parent c : co_finished c = true → co_index c = 0 →
  let p := (get_child_info (new_parent "p" "x" (MkChildParams 2 None FINAL_ONLY)) 0).2 in
  ∃ p', get_outputs p (child_id "p" 0) c = Ok ([Some c; None], true, p').
Proof.
  intros Hf Hi p. unfold get_outputs. rewrite Hf, Hi. cbn. eexists. reflexivity.
Qed.
