(* ===== verification/Arrays.v ===== *)
(** * Rows of arrays

    What the workers use of NumPy: reading and writing an entry, and assigning a
    list to a slice of a row, which is clipped to the row and whose length must be
    that of the list (a list of one entry is repeated).  Row numbers are [nat]:
    the code never uses a negative one. *)
From stdpp Require Import list.
From S2P Require Import Prelude.

Definition arr_get {A} (l : list A) (i : nat) : res A :=
  match l !! i with Some x => Ok x | None => Raise IndexError end.

Definition arr_set {A} (l : list A) (i : nat) (x : A) : res (list A) :=
  if (i <? length l)%nat then Ok (<[i := x]> l) else Raise IndexError.

(** [row[start:stop] = vals] *)
Definition arr_write {A} (row : list A) (start stop : Z) (vals : list A) : res (list A) :=
  let i := Z.to_nat (slice_bound (len row) start) in
  let n := length (py_slice row start stop) in
  if (length vals =? n)%nat then Ok (take i row ++ vals ++ drop (i + n) row)
  else match vals with
       | [v] => Ok (take i row ++ replicate n v ++ drop (i + n) row)
       | _ => Raise ValueError
       end.

(** [row[start:stop] = v] for one value [v]. *)
Definition arr_fill {A} (row : list A) (start stop : Z) (v : A) : list A :=
  let i := Z.to_nat (slice_bound (len row) start) in
  let n := length (py_slice row start stop) in
  take i row ++ replicate n v ++ drop (i + n) row.

(** [a[i, start:stop] = vals] for a table of rows. *)
Definition arr_write_row {A} (a : list (list A)) (i : nat) (start stop : Z) (vals : list A) : res (list (list A)) :=
  let? row := arr_get a i in
  let? row := arr_write row start stop vals in
  Ok (<[i := row]> a).

Definition arr_fill_row {A} (a : list (list A)) (i : nat) (start stop : Z) (v : A) : res (list (list A)) :=
  let? row := arr_get a i in
  Ok (<[i := arr_fill row start stop v]> a).

(** [a[i], a[j] = a[j], a[i]] *)
Definition arr_swap {A} (a : list A) (i j : nat) : res (list A) :=
  let? x := arr_get a i in
  let? y := arr_get a j in
  Ok (<[j := x]> (<[i := y]> a)).

(** [a[tgt] = a[src]] *)
Definition arr_move {A} (a : list A) (src tgt : nat) : res (list A) :=
  let? x := arr_get a src in
  arr_set a tgt x.

Section lemmas.
Context {A : Type}.
Implicit Types (l row vals : list A) (i : nat).

Lemma len_to_nat l : Z.to_nat (len l) = length l.
Proof. apply Nat2Z.id. Qed.

Lemma arr_get_ok l i x : l !! i = Some x → arr_get l i = Ok x.
Proof. unfold arr_get. by intros ->. Qed.

Lemma arr_set_ok l i x : (i < length l)%nat → arr_set l i x = Ok (<[i := x]> l).
Proof. intros. unfold arr_set. by rewrite (proj2 (Nat.ltb_lt _ _)). Qed.

Lemma arr_swap_ok l i j x y : l !! i = Some x → l !! j = Some y → arr_swap l i j = Ok (<[j := x]> (<[i := y]> l)).
Proof. intros Hi Hj. unfold arr_swap. by rewrite (arr_get_ok _ _ _ Hi), (arr_get_ok _ _ _ Hj). Qed.

Lemma arr_move_ok l src tgt x : l !! src = Some x → (tgt < length l)%nat → arr_move l src tgt = Ok (<[tgt := x]> l).
Proof. intros Hs Ht. unfold arr_move. rewrite (arr_get_ok _ _ _ Hs). by apply arr_set_ok. Qed.

Lemma slice_span row start n : 0 ≤ start → 0 ≤ n → start + n ≤ len row →
  Z.to_nat (slice_bound (len row) start) = Z.to_nat start ∧ length (py_slice row start (start + n)) = Z.to_nat n.
Proof.
  intros Hs Hn Hle. split.
  - unfold slice_bound. destruct (start <? 0) eqn:?; lia.
  - rewrite py_slice_nonneg by lia. rewrite length_take, length_drop. unfold len in Hle. lia.
Qed.

Lemma arr_write_ok row start vals : 0 ≤ start → start + len vals ≤ len row →
  arr_write row start (start + len vals) vals = Ok (take (Z.to_nat start) row ++ vals ++ drop (Z.to_nat start + length vals) row).
Proof.
  intros Hs Hle. pose proof (len_nonneg vals). destruct (slice_span row start (len vals) Hs ltac:(lia) Hle) as [Hi Hn].
  unfold arr_write. rewrite Hi, Hn. unfold len. by rewrite Nat2Z.id, Nat.eqb_refl.
Qed.

Lemma arr_fill_ok row start n v : 0 ≤ start → 0 ≤ n → start + n ≤ len row →
  arr_fill row start (start + n) v = take (Z.to_nat start) row ++ replicate (Z.to_nat n) v ++ drop (Z.to_nat start + Z.to_nat n) row.
Proof. intros Hs Hn Hle. destruct (slice_span row start n Hs Hn Hle) as [Hi Hl]. unfold arr_fill. by rewrite Hi, Hl. Qed.

(** A write leaves the length of the row and what lies outside. *)
Lemma write_length row vals (n : nat) : (n + length vals ≤ length row)%nat →
  length (take n row ++ vals ++ drop (n + length vals) row) = length row.
Proof. intros. rewrite !length_app, length_take, length_drop. lia. Qed.

Lemma write_prefix row vals (n : nat) : (n + length vals ≤ length row)%nat →
  take (n + length vals) (take n row ++ vals ++ drop (n + length vals) row) = take n row ++ vals.
Proof.
  intros. rewrite app_assoc, take_app_le by (rewrite length_app, length_take; lia).
  apply take_ge. rewrite length_app, length_take. lia.
Qed.

Lemma swap_lookup l i j x y k : l !! i = Some x → l !! j = Some y →
  <[j := x]> (<[i := y]> l) !! k = l !! (if decide (k = i) then j else if decide (k = j) then i else k).
Proof.
  intros Hi Hj. pose proof (lookup_lt_Some _ _ _ Hi). pose proof (lookup_lt_Some _ _ _ Hj).
  destruct (decide (k = j)) as [->|Hkj].
  - rewrite list_lookup_insert_eq by (rewrite length_insert; lia). destruct (decide (j = i)) as [->|]; congruence.
  - rewrite list_lookup_insert_ne by done. destruct (decide (k = i)) as [->|]; [by rewrite list_lookup_insert_eq by lia|by rewrite list_lookup_insert_ne].
Qed.
End lemmas.
