(* ===== verification/BlockTable.v ===== *)
(** * Block tables of the workers

    [v1/worker/block_table.py]: per request a row of the blocks its tokens are
    stored in, on the host and on the device, and the kernel that turns token
    positions into slots of the KV cache.  The memory block of the KV-cache
    manager may be several blocks of the attention kernel; with context
    parallelism the tokens of a block are spread over the ranks. *)
From S2P Require Import Prelude.
From S2P Require Import Arrays.

Definition PAD_SLOT_ID : Z := -1.

(** ** State *)

(** [CpuGpuBuffer] of rows; the NumPy view is the memory of the host tensor. *)
Record CpuGpuBuffer := MkBuffer { buf_np : list (list Z); buf_gpu : list (list Z) }.

Record BlockTable := MkBlockTable {
  max_num_reqs : nat;
  max_num_batched_tokens : Z;
  block_size : Z;
  blocks_per_kv_block : Z;
  use_hybrid_blocks : bool;
  max_num_blocks_per_req : Z;
  block_table : CpuGpuBuffer;
  num_blocks_per_row : list Z;
  (* the device part of the buffer, the only one that is used *)
  slot_mapping : list Z;
  pcp_world_size : Z;
  pcp_rank : Z;
  dcp_world_size : Z;
  dcp_rank : Z;
  cp_kv_cache_interleave_size : Z;
}.

(** The context-parallel groups, as [get_pcp_group] and [get_dcp_group] give them. *)
Record CpGroups := MkCp { cp_pcp_world : Z; cp_pcp_rank : Z; cp_dcp_world : Z; cp_dcp_rank : Z }.

Definition zeros (rows : nat) (cols : Z) : list (list Z) := replicate rows (py_repeat 0 cols).

Definition make_buffer (rows : nat) (cols : Z) : CpuGpuBuffer := MkBuffer (zeros rows cols) (zeros rows cols).

(** [BlockTable.__init__] *)
Definition new_block_table (cp : CpGroups) (bs : Z) (max_reqs : nat) (max_blocks max_batched kernel_block_size interleave : Z) : res BlockTable :=
  let make (size per_kv : Z) (hybrid : bool) :=
    let width := max_blocks * per_kv in
    MkBlockTable max_reqs max_batched size per_kv hybrid width (make_buffer max_reqs width) (replicate max_reqs 0)
      (py_repeat 0 max_batched) (cp_pcp_world cp) (cp_pcp_rank cp) (cp_dcp_world cp) (cp_dcp_rank cp) interleave in
  if kernel_block_size =? bs then Ok (make bs 1 false)
  else if kernel_block_size =? 0 then Raise ZeroDivisionError
  else if negb (bs mod kernel_block_size =? 0) then Raise ValueError
  else Ok (make kernel_block_size (bs / kernel_block_size) true).

Definition set_buffer (b : CpuGpuBuffer) (t : BlockTable) : BlockTable :=
  MkBlockTable (max_num_reqs t) (max_num_batched_tokens t) (block_size t) (blocks_per_kv_block t) (use_hybrid_blocks t) (max_num_blocks_per_req t)
    b (num_blocks_per_row t) (slot_mapping t) (pcp_world_size t) (pcp_rank t) (dcp_world_size t) (dcp_rank t) (cp_kv_cache_interleave_size t).

Definition set_counts (l : list Z) (t : BlockTable) : BlockTable :=
  MkBlockTable (max_num_reqs t) (max_num_batched_tokens t) (block_size t) (blocks_per_kv_block t) (use_hybrid_blocks t) (max_num_blocks_per_req t)
    (block_table t) l (slot_mapping t) (pcp_world_size t) (pcp_rank t) (dcp_world_size t) (dcp_rank t) (cp_kv_cache_interleave_size t).

Definition set_slots (l : list Z) (t : BlockTable) : BlockTable :=
  MkBlockTable (max_num_reqs t) (max_num_batched_tokens t) (block_size t) (blocks_per_kv_block t) (use_hybrid_blocks t) (max_num_blocks_per_req t)
    (block_table t) (num_blocks_per_row t) l (pcp_world_size t) (pcp_rank t) (dcp_world_size t) (dcp_rank t) (cp_kv_cache_interleave_size t).

Definition set_np (a : list (list Z)) (t : BlockTable) : BlockTable := set_buffer (MkBuffer a (buf_gpu (block_table t))) t.

(** ** Rows *)

(** [map_to_kernel_blocks] *)
Definition map_to_kernel_blocks (kv_manager_block_ids : list Z) (per_kv : Z) : list Z :=
  if per_kv =? 1 then kv_manager_block_ids
  else concat ((λ id, (λ j, id * per_kv + j) <$> py_range 0 per_kv) <$> kv_manager_block_ids).

(** The change of one part of the table by an array operation that may raise. *)
Definition on_counts (f : list Z → res (list Z)) : M BlockTable unit :=
  let! l := gets num_blocks_per_row in
  let! l := lift (f l) in
  modify (set_counts l).

Definition on_np (f : list (list Z) → res (list (list Z))) : M BlockTable unit :=
  let! a := gets (λ t, buf_np (block_table t)) in
  let! a := lift (f a) in
  modify (set_np a).

Definition get_count (row_idx : nat) : M BlockTable Z :=
  let! l := gets num_blocks_per_row in
  lift (arr_get l row_idx).

Definition append_row (block_ids : list Z) (row_idx : nat) : M BlockTable unit :=
  match block_ids with
  | [] => ret tt
  | _ =>
      let! t := gets id in
      let block_ids := if use_hybrid_blocks t then map_to_kernel_blocks block_ids (blocks_per_kv_block t) else block_ids in
      let num_blocks := len block_ids in
      let! start := get_count row_idx in
      on_counts (λ l, arr_set l row_idx (start + num_blocks)) ;;;
      on_np (λ a, arr_write_row a row_idx start (start + num_blocks) block_ids)
  end.

Definition add_row (block_ids : list Z) (row_idx : nat) : M BlockTable unit :=
  on_counts (λ l, arr_set l row_idx 0) ;;;
  append_row block_ids row_idx.

Definition clear_row (row_idx : nat) : M BlockTable unit :=
  let! num_blocks := get_count row_idx in
  (if 0 <? num_blocks then on_np (λ a, arr_fill_row a row_idx 0 num_blocks 0) else ret tt) ;;;
  on_counts (λ l, arr_set l row_idx 0).

Definition move_row (src tgt : nat) : M BlockTable unit :=
  let! num_blocks := get_count src in
  on_np (λ a,
    let? row := arr_get a src in
    arr_write_row a tgt 0 num_blocks (py_slice_to row num_blocks)) ;;;
  on_counts (λ l, arr_set l tgt num_blocks).

Definition swap_row (src tgt : nat) : M BlockTable unit :=
  on_counts (λ l, arr_swap l src tgt) ;;;
  on_np (λ a, arr_swap a src tgt).

(** [copy_to_gpu(num_reqs)] *)
Definition commit_block_table (num_reqs : nat) : M BlockTable unit := modify (λ t,
  let b := block_table t in
  set_buffer (MkBuffer (buf_np b) (take num_reqs (buf_np b) ++ drop num_reqs (buf_gpu b))) t).

Definition clear : M BlockTable unit := modify (λ t,
  let zero (a : list (list Z)) := map (map (λ _, 0)) a in
  set_buffer (MkBuffer (zero (buf_np (block_table t))) (zero (buf_gpu (block_table t)))) t).

(** ** The slot-mapping kernel *)

(** One lane of a request's program: the slot of the token at [pos]; the table is
    read as flat memory.  Integer division of the kernel truncates. *)
Definition slot_of_pos (table : list Z) (stride bs world rank interleave pos : Z) (req_idx : nat) : res Z :=
  let virtual_block_size := bs * world in
  let block_index := Z.quot pos virtual_block_size in
  let row_offset := Z.of_nat req_idx * stride in
  let? block_number := arr_get table (Z.to_nat (row_offset + block_index)) in
  let virtual_block_offset := pos - block_index * virtual_block_size in
  let is_local := Z.rem (Z.quot virtual_block_offset interleave) world =? rank in
  let local_block_offset := Z.quot virtual_block_offset (world * interleave) * interleave + Z.rem virtual_block_offset interleave in
  Ok (if is_local then block_number * bs + local_block_offset else PAD_SLOT_ID).

(** The lanes of one round that are not masked out. *)
Definition lanes (i end_idx : Z) (width : Z) : list nat :=
  Z.to_nat <$> filter (λ o, o < end_idx) (py_range i (i + width)).

(** [range(start, stop, step)] *)
Definition strided (start stop step : Z) : list Z := (λ k, start + k * step) <$> py_range 0 (cdiv (stop - start) step).

Definition BLOCK_SIZE : Z := 1024.

Definition store_lane (slots : list Z) (offset : nat) (v : Z) : res (list Z) := arr_set slots offset v.

Fixpoint fold_res {A B} (f : B → A → res B) (b : B) (l : list A) : res B :=
  match l with
  | [] => Ok b
  | x :: l => let? b := f b x in fold_res f b l
  end.

(** The program of one request. *)
Definition request_program (table : list Z) (stride bs world rank interleave : Z) (query_start_loc positions : list Z)
    (slots : list Z) (req_idx : nat) : res (list Z) :=
  let? start_idx := arr_get query_start_loc req_idx in
  let? end_idx := arr_get query_start_loc (S req_idx) in
  fold_res (λ slots i,
    fold_res (λ slots o,
      let? pos := arr_get positions o in
      let? v := slot_of_pos table stride bs world rank interleave pos req_idx in
      store_lane slots o v) slots (lanes i end_idx BLOCK_SIZE))
    slots (strided start_idx end_idx BLOCK_SIZE).

(** The last program pads the slots that are not used. *)
Definition pad_program (num_tokens max_num_tokens : Z) (slots : list Z) : res (list Z) :=
  fold_res (λ slots i,
    fold_res (λ slots o, store_lane slots o PAD_SLOT_ID) slots (lanes i max_num_tokens BLOCK_SIZE))
    slots (strided num_tokens max_num_tokens BLOCK_SIZE).

(** [compute_slot_mapping]; the programs write different slots and run one by one. *)
Definition compute_slot_mapping (num_reqs : nat) (query_start_loc positions : list Z) : M BlockTable unit :=
  let! t := gets id in
  let world := pcp_world_size t * dcp_world_size t in
  let rank := pcp_rank t * dcp_world_size t + dcp_rank t in
  let! slots := lift (fold_res
    (request_program (concat (buf_gpu (block_table t))) (max_num_blocks_per_req t) (block_size t) world rank (cp_kv_cache_interleave_size t) query_start_loc positions)
    (slot_mapping t) (seq 0 num_reqs)) in
  let! slots := lift (pad_program (len positions) (max_num_batched_tokens t) slots) in
  modify (set_slots slots).

(** ** One table per KV-cache group *)

Notation MultiGroupBlockTable := (list BlockTable).

(** [MultiGroupBlockTable.__init__]; without [max_num_blocks] the rows hold one
    request of the maximal length. *)
Definition new_multi_group (cp : CpGroups) (max_reqs : nat) (max_model_len max_batched : Z) (block_sizes kernel_block_sizes : list Z)
    (max_num_blocks : option (list Z)) (interleave : Z) : res MultiGroupBlockTable :=
  if negb (len kernel_block_sizes =? len block_sizes) then Raise ValueError
  else
    let? max_num_blocks :=
      match max_num_blocks with
      | Some l => Ok l
      | None => map_res (λ bs, py_cdiv max_model_len (bs * (cp_dcp_world cp * cp_pcp_world cp))) block_sizes
      end in
    if negb (len max_num_blocks =? len block_sizes) then Raise ValueError
    else map_res (λ x, new_block_table cp x.1.1 max_reqs x.2 max_batched x.1.2 interleave)
           (zip (zip block_sizes kernel_block_sizes) max_num_blocks).

(** A call on the table of group [i]. *)
Definition on_table (i : nat) (m : M BlockTable unit) : M MultiGroupBlockTable unit := λ ts,
  match ts !! i with
  | Some t => let '(r, t) := m t in (r, <[i := t]> ts)
  | None => (Raise IndexError, ts)
  end.

Definition each_table (f : nat → M BlockTable unit) : M MultiGroupBlockTable unit :=
  let! n := gets (@length BlockTable) in
  for_each (seq 0 n) (λ i, on_table i (f i)).

(** The same with an entry of [block_ids] per group. *)
Definition each_table_with (block_ids : list (list Z)) (f : list Z → M BlockTable unit) : M MultiGroupBlockTable unit :=
  let! n := gets (@length BlockTable) in
  for_each (seq 0 n) (λ i,
    let! ids := lift (arr_get block_ids i) in
    on_table i (f ids)).

Definition mg_append_row (block_ids : list (list Z)) (row_idx : nat) : M MultiGroupBlockTable unit :=
  each_table_with block_ids (λ ids, append_row ids row_idx).

Definition mg_add_row (block_ids : list (list Z)) (row_idx : nat) : M MultiGroupBlockTable unit :=
  each_table_with block_ids (λ ids, add_row ids row_idx).

Definition mg_clear_row (row_idx : nat) : M MultiGroupBlockTable unit := each_table (λ _, clear_row row_idx).
Definition mg_move_row (src tgt : nat) : M MultiGroupBlockTable unit := each_table (λ _, move_row src tgt).
Definition mg_swap_row (src tgt : nat) : M MultiGroupBlockTable unit := each_table (λ _, swap_row src tgt).

Definition mg_compute_slot_mapping (num_reqs : nat) (query_start_loc positions : list Z) : M MultiGroupBlockTable unit :=
  each_table (λ _, compute_slot_mapping num_reqs query_start_loc positions).

Definition mg_commit_block_table (num_reqs : nat) : M MultiGroupBlockTable unit := each_table (λ _, commit_block_table num_reqs).
Definition mg_clear : M MultiGroupBlockTable unit := each_table (λ _, clear).

(** ** Tokens and slots *)

(** The rank a position of a virtual block belongs to, and its place there. *)
Definition owner (world interleave o : Z) : Z := (o / interleave) mod world.
Definition local_offset (world interleave o : Z) : Z := o / (world * interleave) * interleave + o mod interleave.

(** The slot of position [pos] of a request with the blocks [row]. *)
Definition slot_ref (row : list Z) (bs world rank interleave pos : Z) : option Z :=
  let o := pos mod (bs * world) in
  (λ b, if owner world interleave o =? rank then b * bs + local_offset world interleave o else PAD_SLOT_ID) <$> row !! Z.to_nat (pos / (bs * world)).

Lemma local_bounds bs world interleave o : 0 < world → 0 < interleave → (interleave | bs) → 0 ≤ o < bs * world →
  0 ≤ local_offset world interleave o < bs.
Proof.
  intros Hw Hi [n ->] Ho. unfold local_offset. pose proof (Z.mod_pos_bound o interleave Hi).
  assert (0 ≤ o / (world * interleave)) by (apply Z.div_pos; nia).
  assert (o / (world * interleave) < n) by (apply Z.div_lt_upper_bound; nia). nia.
Qed.

(** The place and the rank give back the position. *)
Lemma local_inverse world interleave o : 0 < world → 0 < interleave → 0 ≤ o →
  o = (local_offset world interleave o / interleave * world + owner world interleave o) * interleave + local_offset world interleave o mod interleave.
Proof.
  intros Hw Hi Ho. unfold local_offset, owner. pose proof (Z.mod_pos_bound o interleave Hi).
  set (m := o mod interleave) in *. set (q := o / (world * interleave)).
  replace ((q * interleave + m) / interleave) with q by (rewrite Z.div_add_l by lia; rewrite (Z.div_small m) by lia; lia).
  replace ((q * interleave + m) mod interleave) with m by (rewrite Z.add_comm, Z.mod_add by lia; rewrite Z.mod_small; lia).
  assert (Hq : q = o / interleave / world) by (unfold q; rewrite (Z.mul_comm world), Z.div_div by lia; done).
  rewrite Hq, (Z.mul_comm (_ / world)), <-Z.div_mod by lia. unfold m. rewrite Z.mul_comm. apply Z.div_mod. lia.
Qed.

(** The entry of the table that holds the block of position [pos] of row [r]. *)
Definition entry (stride bs world pos : Z) (r : nat) : nat := Z.to_nat (Z.of_nat r * stride + pos / (bs * world)).

Lemma slot_of_pos_at table stride bs world rank interleave pos r : 0 < bs → 0 < world → 0 < interleave → 0 ≤ pos →
  slot_of_pos table stride bs world rank interleave pos r =
    let? b := arr_get table (entry stride bs world pos r) in
    let o := pos mod (bs * world) in
    Ok (if owner world interleave o =? rank then b * bs + local_offset world interleave o else PAD_SLOT_ID).
Proof.
  intros Hb Hw Hi Hp. unfold slot_of_pos, entry. assert (0 ≤ pos / (bs * world)) by (apply Z.div_pos; nia).
  rewrite !(Z.quot_div_nonneg pos) by nia. destruct (arr_get _ _) as [x|]; [|done]. cbn.
  assert (Ho : pos - pos / (bs * world) * (bs * world) = pos mod (bs * world)) by (rewrite Z.mod_eq by nia; lia). rewrite Ho.
  pose proof (Z.mod_pos_bound pos (bs * world) ltac:(nia)) as Hm. by rewrite !Z.quot_div_nonneg, !Z.rem_mod_nonneg by (try apply Z.div_pos; nia).
Qed.

Lemma slot_of_pos_ref table stride bs world rank interleave pos r row : 0 < bs → 0 < world → 0 < interleave →
  0 ≤ pos → pos / (bs * world) < stride → len row = stride →
  (∀ j, (j < length row)%nat → table !! (r * length row + j)%nat = row !! j) →
  ∃ v, slot_of_pos table stride bs world rank interleave pos r = Ok v ∧ slot_ref row bs world rank interleave pos = Some v.
Proof.
  intros Hb Hw Hi Hp Hlt Hlen Hrow. rewrite slot_of_pos_at by done. unfold slot_ref, entry. assert (0 ≤ pos / (bs * world)) by (apply Z.div_pos; nia).
  assert (Hin : (Z.to_nat (pos / (bs * world)) < length row)%nat) by (unfold len in Hlen; lia). destruct (lookup_lt_is_Some_2 row _ Hin) as [x Hx]. rewrite Hx.
  rewrite (arr_get_ok _ _ x); [|rewrite <-Hx, <-(Hrow _ Hin); f_equal; unfold len in Hlen; lia]. cbn. eexists. split; reflexivity.
Qed.

(** *** Loops of stores *)

Lemma fold_res_concat {A B C} (f : B → A → res B) (g : C → list A) l b :
  fold_res (λ b x, fold_res f b (g x)) b l = fold_res f b (concat (g <$> l)).
Proof.
  assert (Happ : ∀ k k' b, fold_res f b (k ++ k') = let? b := fold_res f b k in fold_res f b k').
  { induction k as [|x k IH]; intros k' b'; [done|]. cbn. destruct (f b' x); [apply IH|done]. }
  revert b. induction l as [|x l IH]; intros b; [done|]. cbn. rewrite Happ. destruct (fold_res f b (g x)); [apply IH|done].
Qed.

Lemma fold_store (f : nat → res Z) (g : nat → Z) l slots :
  Forall (λ o, f o = Ok (g o) ∧ (o < length slots)%nat) l →
  ∃ s', fold_res (λ slots o, let? v := f o in store_lane slots o v) slots l = Ok s' ∧ length s' = length slots ∧
    ∀ o, s' !! o = if decide (o ∈ l) then Some (g o) else slots !! o.
Proof.
  revert slots. induction l as [|o l IH]; intros slots Hall.
  - exists slots. split_and!; [done|done|]. intros o. by rewrite decide_False by apply not_elem_of_nil.
  - apply Forall_cons in Hall as [[Hf Ho] Hall]. cbn. rewrite Hf. cbn. unfold store_lane at 1. rewrite arr_set_ok by done. cbn.
    destruct (IH (<[o := g o]> slots)) as (s' & -> & Hlen & Hs').
    { eapply Forall_impl; [exact Hall|]. cbn. intros x [? ?]. by rewrite length_insert. }
    rewrite length_insert in Hlen. exists s'. split_and!; [done|done|]. intros o'. rewrite Hs'.
    destruct (decide (o' = o)) as [->|Hne]; [rewrite list_lookup_insert_eq by done; rewrite (decide_True (P := o ∈ o :: l)) by left; by case_decide|].
    rewrite list_lookup_insert_ne by done. case_decide; case_decide; set_solver.
Qed.

Lemma lanes_cover start stop o : 0 ≤ start →
  o ∈ concat ((λ i, lanes i stop BLOCK_SIZE) <$> strided start stop BLOCK_SIZE) ↔ start ≤ Z.of_nat o < stop.
Proof.
  intros Hs. unfold strided, lanes. rewrite list_elem_of_In, List.in_concat. setoid_rewrite <-list_elem_of_In.
  set (B := BLOCK_SIZE). assert (HB : 0 < B) by done. clearbody B. split.
  - intros (l & Hl & Ho). apply list_elem_of_fmap in Hl as (i & -> & Hi). apply list_elem_of_fmap in Hi as (k & -> & Hk).
    apply list_elem_of_fmap in Ho as (z & -> & Hz). apply list_elem_of_filter in Hz as [Hlt Hz]. unfold py_range in Hz, Hk. apply elem_of_seqZ in Hz, Hk. nia.
  - intros [H1 H2]. set (k := (Z.of_nat o - start) / B). pose proof (Z.div_mod (Z.of_nat o - start) B ltac:(lia)). pose proof (Z.mod_pos_bound (Z.of_nat o - start) B HB).
    fold k in H. eexists. split.
    + apply list_elem_of_fmap. exists (start + k * B). split; [done|]. apply list_elem_of_fmap. exists k. split; [done|]. unfold py_range. apply elem_of_seqZ.
      assert (0 ≤ k) by (apply Z.div_pos; lia). split; [done|]. destruct (Z.lt_ge_cases k (cdiv (stop - start) B)) as [?|Hge]; [lia|].
      apply cdiv_le_iff in Hge; nia.
    + apply list_elem_of_fmap. exists (Z.of_nat o). split; [lia|]. apply list_elem_of_filter. split; [done|]. unfold py_range. apply elem_of_seqZ. lia.
Qed.

(** *** The whole kernel *)

Lemma flat_lookup (rows : list (list Z)) w r row j : Forall (λ x, length x = w) rows → rows !! r = Some row → (j < w)%nat →
  concat rows !! (r * w + j)%nat = row !! j.
Proof.
  revert r. induction rows as [|x rows IH]; intros r Hall Hr Hj; [done|]. apply Forall_cons in Hall as [Hx Hall]. cbn.
  destruct r as [|r].
  - injection Hr as ->. cbn. by rewrite lookup_app_l by lia.
  - cbn in Hr. rewrite lookup_app_r by lia. rewrite <-(IH r Hall Hr Hj). f_equal. lia.
Qed.

Definition total_world (t : BlockTable) : Z := pcp_world_size t * dcp_world_size t.
Definition total_rank (t : BlockTable) : Z := pcp_rank t * dcp_world_size t + dcp_rank t.

Definition table_slot (t : BlockTable) (row : list Z) (pos : Z) : option Z :=
  slot_ref row (block_size t) (total_world t) (total_rank t) (cp_kv_cache_interleave_size t) pos.

(** What the model runner gives the kernel: the tokens of the requests one after
    another, each at a position its row has a block for. *)
Record mapping_input (t : BlockTable) (num_reqs : nat) (q positions : list Z) : Prop := {
  mi_sizes : 0 < block_size t ∧ 0 < total_world t ∧ 0 < cp_kv_cache_interleave_size t;
  mi_rows : (num_reqs ≤ length (buf_gpu (block_table t)))%nat ∧ Forall (λ row, len row = max_num_blocks_per_req t) (buf_gpu (block_table t));
  mi_start : q !! 0%nat = Some 0;
  mi_steps : ∀ r, (r < num_reqs)%nat → ∃ a b, q !! r = Some a ∧ q !! S r = Some b ∧ a ≤ b;
  mi_end : q !! num_reqs = Some (len positions);
  mi_slots : len positions ≤ max_num_batched_tokens t ∧ max_num_batched_tokens t = len (slot_mapping t);
  mi_pos : ∀ p, p ∈ positions → 0 ≤ p ∧ p / (block_size t * total_world t) < max_num_blocks_per_req t;
}.

Section kernel.
Variables (t : BlockTable) (num_reqs : nat) (q positions : list Z).
Hypothesis Hin : mapping_input t num_reqs q positions.
Let gpu := buf_gpu (block_table t).
Let program := request_program (concat gpu) (max_num_blocks_per_req t) (block_size t) (total_world t) (total_rank t) (cp_kv_cache_interleave_size t) q positions.

(** The slots of request [r] are right. *)
Definition mapped (slots : list Z) (r : nat) : Prop := ∀ a b row o p,
  q !! r = Some a → q !! S r = Some b → gpu !! r = Some row → a ≤ Z.of_nat o < b → positions !! o = Some p → slots !! o = table_slot t row p.

Lemma starts_mono r r' a b : (r ≤ r' ≤ num_reqs)%nat → q !! r = Some a → q !! r' = Some b → a ≤ b.
Proof.
  intros [Hle Hr']. revert b Hr'. induction Hle as [|r' Hle IH]; intros b Hr' Ha Hb; [simplify_eq; lia|].
  destruct (mi_steps _ _ _ _ Hin r') as (x & y & Hx & Hy & Hxy); [lia|]. simplify_eq. specialize (IH x ltac:(lia) Ha Hx). lia.
Qed.

Lemma request_program_ok slots r a b : (r < num_reqs)%nat → length slots = length (slot_mapping t) → q !! r = Some a → q !! S r = Some b →
  ∃ s', program slots r = Ok s' ∧ length s' = length slots ∧ mapped s' r ∧ ∀ o, ¬ a ≤ Z.of_nat o < b → s' !! o = slots !! o.
Proof.
  intros Hr Hlen Ha Hb. destruct Hin as [(Hbs & Hw & Hi) [Hn Hrows] Hq0 _ Hend [Hs1 Hs2] Hpos].
  assert (H0a : 0 ≤ a) by (eapply (starts_mono 0 r); [lia|done|done]).
  assert (Hble : b ≤ len positions) by (eapply (starts_mono (S r) num_reqs); [lia|done|done]).
  destruct (lookup_lt_is_Some_2 gpu r) as [row Hrow]; [unfold gpu; lia|].
  assert (Hlrow : len row = max_num_blocks_per_req t) by (by eapply Forall_lookup_1 in Hrows).
  unfold program, request_program. rewrite (arr_get_ok _ _ _ Ha), (arr_get_ok _ _ _ Hb). cbn [res_bind].
  rewrite (fold_res_concat (λ slots o, let? pos := arr_get positions o in let? v := slot_of_pos _ _ _ _ _ _ pos r in store_lane slots o v)).
  set (ls := concat (_ <$> strided _ _ _)). set (f := λ o, let? pos := arr_get positions o in slot_of_pos (concat gpu) (max_num_blocks_per_req t) (block_size t) (total_world t) (total_rank t) (cp_kv_cache_interleave_size t) pos r).
  assert (Hf : ∀ o, a ≤ Z.of_nat o < b → ∃ p v, positions !! o = Some p ∧ f o = Ok v ∧ table_slot t row p = Some v).
  { intros o Ho. destruct (lookup_lt_is_Some_2 positions o) as [p Hp]; [unfold len in Hble; lia|].
    destruct (Hpos p) as [Hp0 Hp1]; [by eapply list_elem_of_lookup_2|].
    destruct (slot_of_pos_ref (concat gpu) (max_num_blocks_per_req t) (block_size t) (total_world t) (total_rank t) (cp_kv_cache_interleave_size t) p r row) as (v & Hv & Href); try done.
    - intros j Hj. apply flat_lookup; [|done|done]. eapply Forall_impl; [exact Hrows|]. cbn. unfold len in *. intros x Hx. lia.
    - exists p, v. split_and!; [done| |done]. unfold f. by rewrite (arr_get_ok _ _ _ Hp). }
  destruct (fold_store f (λ o, match f o with Ok v => v | _ => 0 end) ls slots) as (s' & Hrun & Hl & Hlook).
  { apply Forall_forall. intros o Ho. apply lanes_cover in Ho; [|done]. destruct (Hf o Ho) as (p & v & Hp & -> & _). split; [done|].
    apply lookup_lt_Some in Hp. unfold len in *. lia. }
  exists s'. split_and!; [|done| |].
  - rewrite <-Hrun. clear. generalize slots. induction ls as [|o ls IH]; intros s; [done|]. cbn. unfold f at 1. destruct (arr_get positions o); cbn; [|done].
    destruct (slot_of_pos _ _ _ _ _ _ _ _); cbn; [|done]. destruct (store_lane _ _ _); cbn; [apply IH|done].
  - intros a' b' row' o p Ha' Hb' Hrow' Ho Hp. simplify_eq. rewrite Hlook, decide_True by (by apply lanes_cover).
    destruct (Hf o Ho) as (p' & v & Hp' & -> & ?). by simplify_eq.
  - intros o Ho. rewrite Hlook, decide_False; [done|]. intros Hc. by apply lanes_cover in Hc.
Qed.

Lemma programs_ok n : (n ≤ num_reqs)%nat →
  ∃ s', fold_res program (slot_mapping t) (seq 0 n) = Ok s' ∧ length s' = length (slot_mapping t) ∧ ∀ r, (r < n)%nat → mapped s' r.
Proof.
  induction n as [|n IH]; intros Hn.
  - exists (slot_mapping t). split_and!; [done|done|intros; lia].
  - destruct IH as (s1 & Hrun & Hlen & Hm); [lia|]. destruct (mi_steps _ _ _ _ Hin n) as (a & b & Ha & Hb & Hab); [lia|].
    destruct (request_program_ok s1 n a b ltac:(lia) Hlen Ha Hb) as (s2 & Hp & Hl2 & Hm2 & Hframe).
    exists s2. split_and!; [|congruence|].
    + rewrite seq_S. assert (Happ : ∀ l s, fold_res program s (l ++ [n]) = let? s := fold_res program s l in program s n).
      { induction l as [|x l IHl]; intros s; cbn; [by destruct (program s n)|]. destruct (program s x); [apply IHl|done]. }
      by rewrite Happ, Hrun.
    + intros r Hr. destruct (decide (r = n)) as [->|]; [done|]. intros a' b' row o p Ha' Hb' Hrow Ho Hp'.
      rewrite Hframe; [by apply (Hm r ltac:(lia) a' b' row o p)|]. intros [? _]. pose proof (starts_mono (S r) n b' a ltac:(lia) Hb' Ha). lia.
Qed.

Lemma pad_ok slots : length slots = length (slot_mapping t) →
  ∃ s', pad_program (len positions) (max_num_batched_tokens t) slots = Ok s' ∧ length s' = length slots ∧
    ∀ o, s' !! o = if decide (len positions ≤ Z.of_nat o < max_num_batched_tokens t) then Some PAD_SLOT_ID else slots !! o.
Proof.
  intros Hlen. destruct Hin as [_ _ _ _ _ [Hs1 Hs2] _]. unfold pad_program.
  rewrite (fold_res_concat (λ slots o, store_lane slots o PAD_SLOT_ID)).
  set (ls := concat (_ <$> strided _ _ _)). assert (Hls : ∀ o, o ∈ ls ↔ len positions ≤ Z.of_nat o < max_num_batched_tokens t) by (intros; apply lanes_cover, len_nonneg).
  destruct (fold_store (λ _, Ok PAD_SLOT_ID) (λ _, PAD_SLOT_ID) ls slots) as (s' & Hrun & Hl & Hlook).
  { apply Forall_forall. intros o Ho. split; [done|]. apply Hls in Ho. unfold len in *. lia. }
  exists s'. split_and!; [exact Hrun|done|]. intros o. rewrite Hlook. destruct (decide (o ∈ ls)) as [Ho|Ho]; rewrite Hls in Ho; by case_decide.
Qed.
End kernel.

(** *** Kernel blocks *)

Lemma kernel_lookup ids k (i : nat) : 0 < k →
  map_to_kernel_blocks ids k !! i = (λ b, b * k + Z.of_nat i mod k) <$> ids !! Z.to_nat (Z.of_nat i / k).
Proof.
  intros Hk. unfold map_to_kernel_blocks. destruct (Z.eqb_spec k 1) as [->|Hk1].
  { rewrite Z.div_1_r, Nat2Z.id, Z.mod_1_r. destruct (ids !! i); cbn; [f_equal; lia|done]. }
  set (rows := (λ id, (λ j, id * k + j) <$> py_range 0 k) <$> ids). set (r := Z.to_nat (Z.of_nat i / k)). set (j := Z.to_nat (Z.of_nat i mod k)).
  pose proof (Z.mod_pos_bound (Z.of_nat i) k Hk). assert (0 ≤ Z.of_nat i / k) by (apply Z.div_pos; lia).
  assert (Hi : i = (r * Z.to_nat k + j)%nat) by (unfold r, j; pose proof (Z.div_mod (Z.of_nat i) k); nia).
  assert (Hw : Forall (λ x, length x = Z.to_nat k) rows).
  { apply Forall_fmap, Forall_forall. intros x _. cbn. unfold py_range. rewrite length_fmap, length_seqZ. lia. }
  destruct (ids !! r) as [b|] eqn:Hb.
  - rewrite Hi at 1. rewrite (flat_lookup rows (Z.to_nat k) r ((λ j, b * k + j) <$> py_range 0 k) j Hw); [|by unfold rows; rewrite list_lookup_fmap, Hb|unfold j; lia].
    rewrite list_lookup_fmap. unfold py_range. rewrite lookup_seqZ_lt by (unfold j; lia). cbn. f_equal. unfold j. lia.
  - cbn. apply lookup_ge_None in Hb. apply lookup_ge_None. assert (Hl : length (concat rows) = (length ids * Z.to_nat k)%nat).
    { unfold rows. clear -Hk. induction ids as [|b ids IH]; [done|]. cbn. rewrite length_app, IH, length_fmap. unfold py_range. rewrite length_seqZ. lia. }
    rewrite Hl. nia.
Qed.

Lemma owner_shift world interleave n x o : 0 < world → 0 < interleave → 
  owner world interleave (n * interleave * world * x + o) = owner world interleave o.
Proof.
  intros Hw Hi. unfold owner. replace (n * interleave * world * x + o) with (n * x * world * interleave + o) by ring.
  rewrite Z.div_add_l by lia. rewrite Z.add_comm. apply Z.mod_add. lia.
Qed.

Lemma local_shift world interleave n x o : 0 < world → 0 < interleave →
  local_offset world interleave (n * interleave * world * x + o) = n * interleave * x + local_offset world interleave o.
Proof.
  intros Hw Hi. unfold local_offset.
  replace (n * interleave * world * x + o) with (n * x * (world * interleave) + o) at 1 by ring. rewrite Z.div_add_l by nia.
  replace (n * interleave * world * x + o) with (o + n * world * x * interleave) by ring. rewrite Z.mod_add by lia. ring.
Qed.

(** ** Theorems on slots *)

(** C24.  The kernel gives every token of the batch the slot of its position in the
    blocks of its own request, and marks all other entries as padding: it reads no
    memory outside the table and writes none outside the mapping. *)
Theorem slot_mapping_exact t num_reqs q positions : mapping_input t num_reqs q positions →
  ∃ slots, compute_slot_mapping num_reqs q positions t = (Ok tt, set_slots slots t) ∧ length slots = length (slot_mapping t) ∧
    (∀ r a b row o p, (r < num_reqs)%nat → q !! r = Some a → q !! S r = Some b → buf_gpu (block_table t) !! r = Some row →
       a ≤ Z.of_nat o < b → positions !! o = Some p → slots !! o = table_slot t row p) ∧
    (∀ o, len positions ≤ Z.of_nat o < max_num_batched_tokens t → slots !! o = Some PAD_SLOT_ID).
Proof.
  intros Hin. destruct (programs_ok t num_reqs q positions Hin num_reqs ltac:(lia)) as (s1 & Hrun & Hlen & Hm).
  destruct (pad_ok t num_reqs q positions Hin s1 Hlen) as (s2 & Hpad & Hl2 & Hlook).
  exists s2. unfold compute_slot_mapping. fold (total_world t) (total_rank t). split_and!.
  - unfold bind, gets, lift. cbn. fold (total_world t) (total_rank t). rewrite Hrun, Hpad. done.
  - congruence.
  - intros r a b row o p Hr Ha Hb Hrow Ho Hp. rewrite Hlook, decide_False; [by eapply Hm|]. apply lookup_lt_Some in Hp. unfold len. lia.
  - intros o Ho. by rewrite Hlook, decide_True.
Qed.

(** C25.  Tokens do not overwrite each other: with context parallelism the kernel
    gives each position a slot on exactly one rank, inside the block of that
    position, and padding on the others; two tokens, of one request or of two, with
    the same slot on a rank are at the same place of the same block. *)
Theorem slots_never_collide table stride bs world interleave r r' pos pos' : 0 < world → 0 < interleave → 0 < bs → (interleave | bs) → 0 ≤ pos → 0 ≤ pos' →
  (∀ b, b ∈ table → 0 ≤ b) → let slot := λ rank pos r, slot_of_pos table stride bs world rank interleave pos r in
  (∀ b, table !! entry stride bs world pos r = Some b →
     ∃ rank v, 0 ≤ rank < world ∧ slot rank pos r = Ok v ∧ b * bs ≤ v < b * bs + bs ∧ ∀ rank', rank' ≠ rank → slot rank' pos r = Ok PAD_SLOT_ID) ∧
  (∀ rank v, slot rank pos r = Ok v → slot rank pos' r' = Ok v → v ≠ PAD_SLOT_ID →
     table !! entry stride bs world pos r = table !! entry stride bs world pos' r' ∧ pos mod (bs * world) = pos' mod (bs * world)).
Proof.
  intros Hw Hi Hb Hdiv Hp Hp' Hids slot. assert (Hv : 0 < bs * world) by nia.
  pose proof (Z.mod_pos_bound pos _ Hv) as Ho. pose proof (Z.mod_pos_bound pos' _ Hv) as Ho'. unfold slot. setoid_rewrite slot_of_pos_at; try done. unfold arr_get. cbv zeta. split.
  - intros b Hrow. rewrite Hrow. cbn. exists (owner world interleave (pos mod (bs * world))). eexists.
    split; [by apply Z.mod_pos_bound|]. rewrite Z.eqb_refl. split; [done|]. pose proof (local_bounds bs world interleave _ Hw Hi Hdiv Ho). split; [lia|].
    intros rank' Hne. by rewrite (proj2 (Z.eqb_neq _ _)) by congruence.
  - intros rank v H1 H2 Hpad. destruct (table !! entry stride bs world pos r) as [b|] eqn:Hr; [|done]. destruct (table !! entry stride bs world pos' r') as [b'|] eqn:Hr'; [|done].
    cbn in H1, H2. injection H1 as H1. injection H2 as H2.
    destruct (Z.eqb_spec (owner world interleave (pos mod (bs * world))) rank) as [E1|]; [|congruence].
    destruct (Z.eqb_spec (owner world interleave (pos' mod (bs * world))) rank) as [E2|]; [|congruence].
    pose proof (local_bounds bs world interleave _ Hw Hi Hdiv Ho) as L1. pose proof (local_bounds bs world interleave _ Hw Hi Hdiv Ho') as L2.
    assert (b = b') as -> by nia. split; [done|].
    rewrite (local_inverse world interleave (pos mod _)), (local_inverse world interleave (pos' mod _)) by lia. rewrite E1, E2.
    replace (local_offset world interleave (pos mod (bs * world))) with (local_offset world interleave (pos' mod (bs * world))) by lia. done.
Qed.

(** Splitting the blocks of the KV-cache manager for a kernel with smaller
    blocks changes no slot: the kernel's blocks address the memory the manager
    allocated. *)
Theorem kernel_blocks_same_slots ids k kbs world rank interleave pos : 0 < k → 0 < kbs → 0 < world → 0 < interleave → (interleave | kbs) → 0 ≤ pos →
  slot_ref (map_to_kernel_blocks ids k) kbs world rank interleave pos = slot_ref ids (kbs * k) world rank interleave pos.
Proof.
  intros Hk Hb Hw Hi [n ->] Hp. unfold slot_ref. set (V := n * interleave * world).
  assert (HV : 0 < V) by (unfold V; nia). replace (n * interleave * k * world) with (V * k) by (unfold V; ring).
  assert (0 ≤ pos / V) by (apply Z.div_pos; lia).
  rewrite kernel_lookup by done. rewrite Z2Nat.id, <-Z.div_div, Z.rem_mul_r by lia.
  destruct (ids !! _) as [b|]; [|done]. cbn. f_equal. set (x := pos / V mod k). rewrite (Z.add_comm (pos mod V)).
  unfold V at 3 5. rewrite owner_shift, local_shift by done. fold V. destruct (owner _ _ _ =? rank); [|done]. ring.
Qed.

(** ** The table as a list of rows *)

(** The blocks of the kernel for blocks of the manager. *)
Definition kernel_ids (t : BlockTable) (ids : list Z) : list Z :=
  if use_hybrid_blocks t then map_to_kernel_blocks ids (blocks_per_kv_block t) else ids.

Record row_ok (t : BlockTable) (row ids : list Z) : Prop := {
  ro_len : len row = max_num_blocks_per_req t;
  ro_fit : (length (kernel_ids t ids) ≤ length row)%nat;
  ro_prefix : take (length (kernel_ids t ids)) row = kernel_ids t ids;
}.

(** The table stores [rows]; the device has the rows [dev] of the last commit. *)
Record bt_rep (t : BlockTable) (rows dev : list (list Z)) : Prop := {
  br_np : Forall2 (row_ok t) (buf_np (block_table t)) rows;
  br_gpu : Forall2 (row_ok t) (buf_gpu (block_table t)) dev;
  br_counts : num_blocks_per_row t = (λ ids, len (kernel_ids t ids)) <$> rows;
  br_dev : length dev = length rows;
}.

(** Only the rows differ. *)
Definition same_shape (t t' : BlockTable) : Prop := t' = set_counts (num_blocks_per_row t') (set_buffer (block_table t') t).

#[global] Instance same_shape_preorder : PreOrder same_shape.
Proof.
  split; [by intros []|]. intros [] [] [] H1 H2. unfold same_shape, set_counts, set_buffer in *. cbn in *.
  injection H1. injection H2. intros. by subst.
Qed.

Lemma kernel_ids_shape t t' ids : same_shape t t' → kernel_ids t' ids = kernel_ids t ids.
Proof. by intros ->. Qed.

Lemma kernel_ids_app t ids ids' : kernel_ids t (ids ++ ids') = kernel_ids t ids ++ kernel_ids t ids'.
Proof.
  unfold kernel_ids, map_to_kernel_blocks. destruct (use_hybrid_blocks t); [|done]. destruct (_ =? 1); [done|].
  by rewrite fmap_app, concat_app.
Qed.

Lemma kernel_ids_nil t : kernel_ids t [] = [].
Proof. unfold kernel_ids, map_to_kernel_blocks. destruct (use_hybrid_blocks t); [|done]. by destruct (_ =? 1). Qed.

Lemma row_ok_nil t row : len row = max_num_blocks_per_req t → row_ok t row [].
Proof. intros. split; rewrite ?kernel_ids_nil; [done|cbn; lia|done]. Qed.

Lemma row_ok_shape t t' row ids : same_shape t t' → row_ok t row ids → row_ok t' row ids.
Proof. intros Hsh [H1 H2 H3]. split; rewrite ?(kernel_ids_shape _ _ _ Hsh); [|done|done]. by rewrite Hsh. Qed.

Lemma rows_shape t t' a rows : same_shape t t' → Forall2 (row_ok t) a rows → Forall2 (row_ok t') a rows.
Proof. intros Hsh Hall. eapply Forall2_impl; [exact Hall|]. intros. by eapply row_ok_shape. Qed.

(** The table after a change of row [r]. *)
Lemma rep_set_row t rows dev r row ids : bt_rep t rows dev → row_ok t row ids →
  bt_rep (set_counts (<[r := len (kernel_ids t ids)]> (num_blocks_per_row t)) (set_np (<[r := row]> (buf_np (block_table t))) t)) (<[r := ids]> rows) dev.
Proof.
  intros [H1 H2 H3 H4] Hrow. set (t' := set_counts _ _). assert (Hsh : same_shape t t') by done. split; cbn.
  - apply (rows_shape t); [done|]. by apply Forall2_insert.
  - by apply (rows_shape t).
  - rewrite H3. by rewrite list_fmap_insert.
  - by rewrite length_insert.
Qed.

Lemma rep_row t rows dev r ids : bt_rep t rows dev → rows !! r = Some ids →
  ∃ row, buf_np (block_table t) !! r = Some row ∧ row_ok t row ids ∧ num_blocks_per_row t !! r = Some (len (kernel_ids t ids)).
Proof.
  intros [H1 _ H3 _] Hr. destruct (Forall2_lookup_r _ _ _ _ _ H1 Hr) as (row & Hrow & Hok). exists row. split_and!; [done|done|].
  by rewrite H3, list_lookup_fmap, Hr.
Qed.

Lemma rep_lt t rows dev r : bt_rep t rows dev → (r < length rows)%nat →
  (r < length (buf_np (block_table t)))%nat ∧ (r < length (num_blocks_per_row t))%nat.
Proof. intros [H1 _ H3 _] Hr. apply Forall2_length in H1. rewrite H3, length_fmap. lia. Qed.

Lemma append_row_ok t rows dev r old ids : bt_rep t rows dev → rows !! r = Some old → len (kernel_ids t (old ++ ids)) ≤ max_num_blocks_per_req t →
  ∃ t', append_row ids r t = (Ok tt, t') ∧ bt_rep t' (<[r := old ++ ids]> rows) dev ∧ same_shape t t'.
Proof.
  intros Hrep Hr Hfit. destruct (rep_row _ _ _ _ _ Hrep Hr) as (row & Hrow & [Hl Hf Hp] & Hc).
  destruct ids as [|i ids].
  { exists t. rewrite app_nil_r, list_insert_id by done. by split_and!. }
  set (new := i :: ids) in *. rewrite kernel_ids_app, len_app in Hfit. set (k := kernel_ids t old) in *. set (v := kernel_ids t new) in *.
  set (row' := take (length k) row ++ v ++ drop (length k + length v) row).
  assert (Hle : (length k + length v ≤ length row)%nat) by (unfold len in *; lia).
  assert (Hrow' : row_ok t row' (old ++ new)).
  { split; rewrite ?kernel_ids_app, ?length_app; fold k v; unfold row', len.
    - rewrite write_length by done. done.
    - rewrite write_length by done. done.
    - rewrite write_prefix by done. by rewrite Hp. }
  eexists. split; [|split; [exact (rep_set_row t rows dev r row' (old ++ new) Hrep Hrow')|done]].
  unfold append_row, new. fold new. unfold get_count, on_counts, on_np, bind, gets, lift, modify. cbn -[new].
  rewrite (arr_get_ok _ _ _ Hc). fold (kernel_ids t new). fold v k.
  rewrite arr_set_ok by (by apply lookup_lt_Some in Hc). cbn -[new]. unfold arr_write_row. rewrite (arr_get_ok _ _ _ Hrow). cbn -[new].
  rewrite arr_write_ok by (unfold len in *; lia). cbn -[new]. by rewrite len_to_nat, kernel_ids_app, len_app.
Qed.

Lemma zero_counts_rep t rows dev r : bt_rep t rows dev → (r < length rows)%nat →
  bt_rep (set_counts (<[r := 0]> (num_blocks_per_row t)) t) (<[r := []]> rows) dev.
Proof.
  intros Hrep Hr. destruct (lookup_lt_is_Some_2 rows r Hr) as [ids Hids]. destruct (rep_row _ _ _ _ _ Hrep Hids) as (row & Hrow & [Hl _ _] & _).
  pose proof (rep_set_row t rows dev r row [] Hrep (row_ok_nil t row Hl)) as Hset. rewrite kernel_ids_nil, (list_insert_id (buf_np (block_table t))) in Hset by done.
  assert (Heq : set_np (buf_np (block_table t)) t = t) by (by destruct t as [? ? ? ? ? ? [? ?]]). rewrite Heq in Hset. exact Hset.
Qed.

Lemma add_row_ok t rows dev r ids : bt_rep t rows dev → (r < length rows)%nat → len (kernel_ids t ids) ≤ max_num_blocks_per_req t →
  ∃ t', add_row ids r t = (Ok tt, t') ∧ bt_rep t' (<[r := ids]> rows) dev ∧ same_shape t t'.
Proof.
  intros Hrep Hr Hfit. pose proof (zero_counts_rep t rows dev r Hrep Hr) as H0.
  destruct (append_row_ok _ _ _ r [] ids H0) as (t' & Hrun & Hrep' & Hsh); [by rewrite list_lookup_insert_eq|done|].
  rewrite list_insert_insert_eq in Hrep'. exists t'. split_and!; [|done|].
  - unfold add_row, on_counts, bind, gets, lift, modify. rewrite arr_set_ok by (by apply (rep_lt _ _ _ _ Hrep)). exact Hrun.
  - etrans; [|exact Hsh]. done.
Qed.

Lemma clear_row_ok t rows dev r : bt_rep t rows dev → (r < length rows)%nat →
  ∃ t', clear_row r t = (Ok tt, t') ∧ bt_rep t' (<[r := []]> rows) dev ∧ same_shape t t'.
Proof.
  intros Hrep Hr. destruct (lookup_lt_is_Some_2 rows r Hr) as [ids Hids]. destruct (rep_row _ _ _ _ _ Hrep Hids) as (row & Hrow & [Hl Hf _] & Hc).
  destruct (rep_lt _ _ _ _ Hrep Hr) as [_ Hlt].
  unfold clear_row, get_count, on_counts, on_np, bind, gets, lift, modify. cbn. rewrite (arr_get_ok _ _ _ Hc). set (k := kernel_ids t ids) in *.
  destruct (Z.ltb_spec 0 (len k)); cbn.
  - unfold arr_fill_row. rewrite (arr_get_ok _ _ _ Hrow). cbn. rewrite arr_set_ok by done. eexists. split; [done|].
    set (row' := arr_fill row 0 (len k) 0). assert (Hl' : len row' = max_num_blocks_per_req t).
    { unfold row'. replace (len k) with (0 + len k) by lia. rewrite arr_fill_ok by (unfold len in *; lia). unfold len in *. rewrite !length_app, length_take, length_replicate, length_drop. lia. }
    split; [|done]. pose proof (rep_set_row t rows dev r row' [] Hrep (row_ok_nil t row' Hl')) as Hset. by rewrite kernel_ids_nil in Hset.
  - rewrite arr_set_ok by done. eexists. split; [done|]. split; [by apply zero_counts_rep|done].
Qed.

Lemma move_row_ok t rows dev src tgt ids : bt_rep t rows dev → rows !! src = Some ids → (tgt < length rows)%nat →
  ∃ t', move_row src tgt t = (Ok tt, t') ∧ bt_rep t' (<[tgt := ids]> rows) dev ∧ same_shape t t'.
Proof.
  intros Hrep Hsrc Ht. destruct (rep_row _ _ _ _ _ Hrep Hsrc) as (row & Hrow & [Hl Hf Hp] & Hc).
  destruct (lookup_lt_is_Some_2 rows tgt Ht) as [ids' Hids']. destruct (rep_row _ _ _ _ _ Hrep Hids') as (row1 & Hrow1 & [Hl1 _ _] & _).
  set (k := kernel_ids t ids) in *. set (row' := k ++ drop (length k) row1).
  assert (Hrow' : row_ok t row' ids).
  { split; fold k; unfold row', len in *; [rewrite length_app, length_drop; lia|rewrite length_app; lia|apply take_app_length]. }
  eexists. split; [|split; [exact (rep_set_row t rows dev tgt row' ids Hrep Hrow')|done]].
  unfold move_row, get_count, on_counts, on_np, bind, gets, lift, modify. cbn. rewrite (arr_get_ok _ _ _ Hc). fold k.
  rewrite (arr_get_ok _ _ _ Hrow). cbn. rewrite py_slice_to_nonneg by (apply len_nonneg). rewrite len_to_nat, Hp.
  unfold arr_write_row. rewrite (arr_get_ok _ _ _ Hrow1). cbn. replace (len k) with (0 + len k) at 1 by lia.
  rewrite arr_write_ok by (unfold len in *; lia). cbn. rewrite arr_set_ok by (by apply (rep_lt _ _ _ _ Hrep)). done.
Qed.

Lemma swap_row_ok t rows dev i j x y : bt_rep t rows dev → rows !! i = Some x → rows !! j = Some y →
  ∃ t', swap_row i j t = (Ok tt, t') ∧ bt_rep t' (<[j := x]> (<[i := y]> rows)) dev ∧ same_shape t t'.
Proof.
  intros Hrep Hi Hj. destruct (rep_row _ _ _ _ _ Hrep Hi) as (ri & Hri & Hoi & Hci). destruct (rep_row _ _ _ _ _ Hrep Hj) as (rj & Hrj & Hoj & Hcj).
  unfold swap_row, on_counts, on_np, bind, gets, lift, modify. cbn. rewrite (arr_swap_ok _ _ _ _ _ Hci Hcj). cbn. rewrite (arr_swap_ok _ _ _ _ _ Hri Hrj).
  eexists. split; [done|]. split; [|done].
  apply (rep_set_row _ _ _ j ri x (rep_set_row t rows dev i rj y Hrep Hoj)). apply (row_ok_shape t); [done|exact Hoi].
Qed.

Lemma commit_ok t rows dev n : bt_rep t rows dev →
  ∃ t', commit_block_table n t = (Ok tt, t') ∧ bt_rep t' rows (take n rows ++ drop n dev) ∧ same_shape t t'.
Proof.
  intros [H1 H2 H3 H4]. eexists. split; [done|]. set (t' := set_buffer _ _). assert (Hsh : same_shape t t') by (by destruct t). split; [split; cbn|done].
  - by apply (rows_shape t).
  - apply (rows_shape t); [done|]. apply Forall2_app; [by apply Forall2_take|by apply Forall2_drop].
  - done.
  - rewrite length_app, length_take, length_drop. lia.
Qed.

(** ** All groups *)

Lemma each_loop (f : nat → M BlockTable unit) (Q : nat → BlockTable → Prop) n k ts : (k + n ≤ length ts)%nat →
  (∀ i t, (k ≤ i < k + n)%nat → ts !! i = Some t → ∃ t', f i t = (Ok tt, t') ∧ Q i t') →
  ∃ ts', for_each (seq k n) (λ i, on_table i (f i)) ts = (Ok tt, ts') ∧ length ts' = length ts ∧
    ∀ i, if decide (k ≤ i < k + n)%nat then ∃ t', ts' !! i = Some t' ∧ Q i t' else ts' !! i = ts !! i.
Proof.
  revert k ts. induction n as [|n IH]; intros k ts Hle Hf.
  - exists ts. split_and!; [done|done|]. intros i. by rewrite decide_False by lia.
  - destruct (lookup_lt_is_Some_2 ts k) as [t Ht]; [lia|]. destruct (Hf k t ltac:(lia) Ht) as (t' & Hrun & HQ).
    destruct (IH (S k) (<[k := t']> ts)) as (ts' & Hloop & Hlen & Hts').
    { rewrite length_insert. lia. }
    { intros i x Hi. rewrite list_lookup_insert_ne by lia. apply Hf. lia. }
    rewrite length_insert in Hlen. exists ts'. split_and!; [|done|].
    + cbn [seq for_each]. unfold bind. assert (Hk : on_table k (f k) ts = (Ok tt, <[k := t']> ts)) by (unfold on_table; by rewrite Ht, Hrun). by rewrite Hk.
    + intros i. specialize (Hts' i). destruct (decide (i = k)) as [->|Hne].
      * rewrite decide_False in Hts' by lia. rewrite decide_True by lia. rewrite list_lookup_insert_eq in Hts' by lia. eauto.
      * rewrite list_lookup_insert_ne in Hts' by done. destruct (decide (k ≤ i < k + S n)%nat); [rewrite decide_True in Hts' by lia|rewrite decide_False in Hts' by lia]; done.
Qed.

(** The rows of every group, and those on the device. *)
Notation group_rows := (list (list (list Z) * list (list Z))).

Definition mg_rep (ts : MultiGroupBlockTable) (gs : group_rows) : Prop := Forall2 (λ t g, bt_rep t g.1 g.2) ts gs.

(** A call that changes the rows of group [i] by [h i]. *)
Lemma each_rep (f : nat → M BlockTable unit) (h : nat → list (list Z) * list (list Z) → list (list Z) * list (list Z)) ts gs : mg_rep ts gs →
  (∀ i t g, ts !! i = Some t → gs !! i = Some g → ∃ t', f i t = (Ok tt, t') ∧ bt_rep t' (h i g).1 (h i g).2 ∧ same_shape t t') →
  ∃ ts', each_table f ts = (Ok tt, ts') ∧ mg_rep ts' (imap h gs) ∧ Forall2 same_shape ts ts'.
Proof.
  intros Hrep Hf. pose proof (Forall2_length _ _ _ Hrep) as Hl.
  destruct (each_loop f (λ i t', ∃ t g, ts !! i = Some t ∧ gs !! i = Some g ∧ bt_rep t' (h i g).1 (h i g).2 ∧ same_shape t t') (length ts) 0 ts) as (ts' & Hrun & Hlen & Hts'); [lia| |].
  { intros i t Hi Ht. destruct (Forall2_lookup_l _ _ _ _ _ Hrep Ht) as (g & Hg & _). destruct (Hf i t g Ht Hg) as (t' & ? & ? & ?). exists t'. split; [done|]. eauto 10. }
  exists ts'. split_and!; [done| |].
  - apply Forall2_same_length_lookup_2; [by rewrite length_imap; congruence|]. intros i t' g' Ht' Hg'. rewrite list_lookup_imap in Hg'.
    specialize (Hts' i). rewrite decide_True in Hts' by (apply lookup_lt_Some in Ht'; lia). destruct Hts' as (t1 & Ht1 & t0 & g0 & H0 & Hg0 & Hr & _).
    rewrite Hg0 in Hg'. cbn in Hg'. by simplify_eq.
  - apply Forall2_same_length_lookup_2; [done|]. intros i t t' Ht Ht'. specialize (Hts' i). rewrite decide_True in Hts' by (apply lookup_lt_Some in Ht'; lia).
    destruct Hts' as (t1 & Ht1 & t0 & g0 & H0 & _ & _ & Hsh). by simplify_eq.
Qed.

Lemma for_each_ext {S B} (l : list B) (f g : B → M S unit) s : (∀ x s, x ∈ l → f x s = g x s) → for_each l f s = for_each l g s.
Proof.
  revert s. induction l as [|x l IH]; intros s Hfg; [done|]. cbn [for_each]. unfold bind. rewrite Hfg by left.
  destruct (g x s) as [[|] s']; [|done]. apply IH. intros y s0 Hy. apply Hfg. by right.
Qed.

(** The version with the block ids of each group. *)
Lemma each_with_eq block_ids f ts : (length ts ≤ length block_ids)%nat →
  each_table_with block_ids f ts = each_table (λ i, f (default [] (block_ids !! i))) ts.
Proof.
  intros Hle. unfold each_table_with, each_table. apply for_each_ext. intros i ts0 Hi%elem_of_seq.
  destruct (lookup_lt_is_Some_2 block_ids i) as [ids Hids]; [lia|]. unfold bind, lift. by rewrite (arr_get_ok _ _ _ Hids), Hids.
Qed.

(** *** Sequences of operations *)

Inductive row_op :=
  | RAppend (ids : list (list Z)) (r : nat)
  | RAdd (ids : list (list Z)) (r : nat)
  | RClear (r : nat)
  | RMove (src tgt : nat)
  | RSwap (i j : nat)
  | RCommit (n : nat).

Definition run_row_op (op : row_op) : M MultiGroupBlockTable unit :=
  match op with
  | RAppend ids r => mg_append_row ids r
  | RAdd ids r => mg_add_row ids r
  | RClear r => mg_clear_row r
  | RMove src tgt => mg_move_row src tgt
  | RSwap i j => mg_swap_row i j
  | RCommit n => mg_commit_block_table n
  end.

(** The same on plain lists of rows, for group [g]. *)
Definition spec_row_op (op : row_op) (g : nat) (x : list (list Z) * list (list Z)) : list (list Z) * list (list Z) :=
  let '(rows, dev) := x in
  match op with
  | RAppend ids r => (alter (λ old, old ++ default [] (ids !! g)) r rows, dev)
  | RAdd ids r => (<[r := default [] (ids !! g)]> rows, dev)
  | RClear r => (<[r := []]> rows, dev)
  | RMove src tgt => (match rows !! src with Some ids => <[tgt := ids]> rows | None => rows end, dev)
  | RSwap i j => (match rows !! i, rows !! j with Some x, Some y => <[j := x]> (<[i := y]> rows) | _, _ => rows end, dev)
  | RCommit n => (rows, take n rows ++ drop n dev)
  end.

(** The rows exist, and what is written fits. *)
Definition row_op_fits (op : row_op) (t : BlockTable) (g : nat) (rows : list (list Z)) : Prop :=
  let fits ids := len (kernel_ids t ids) ≤ max_num_blocks_per_req t in
  match op with
  | RAppend ids r => (g < length ids)%nat ∧ ∃ old, rows !! r = Some old ∧ fits (old ++ default [] (ids !! g))
  | RAdd ids r => (g < length ids)%nat ∧ (r < length rows)%nat ∧ fits (default [] (ids !! g))
  | RClear r => (r < length rows)%nat
  | RMove i j | RSwap i j => (i < length rows)%nat ∧ (j < length rows)%nat
  | RCommit _ => True
  end.

Definition op_fits (op : row_op) (ts : MultiGroupBlockTable) (gs : group_rows) : Prop :=
  ∀ g t x, ts !! g = Some t → gs !! g = Some x → row_op_fits op t g x.1.

Lemma row_op_ok op ts gs : mg_rep ts gs → op_fits op ts gs →
  ∃ ts', run_row_op op ts = (Ok tt, ts') ∧ mg_rep ts' (imap (spec_row_op op) gs) ∧ Forall2 same_shape ts ts'.
Proof.
  intros Hrep Hfit. assert (Hids : ∀ ids : list (list Z), (∀ g t x, ts !! g = Some t → gs !! g = Some x → (g < length ids)%nat) → (length ts ≤ length ids)%nat).
  { intros ids Hall. destruct (decide (length ts = 0)%nat) as [|Hne]; [lia|]. destruct (lookup_lt_is_Some_2 ts (length ts - 1)) as [t Ht]; [lia|].
    destruct (Forall2_lookup_l _ _ _ _ _ Hrep Ht) as (x & Hx & _). specialize (Hall _ _ _ Ht Hx). lia. }
  destruct op as [ids r|ids r|r|src tgt|i j|n]; cbn [run_row_op].
  1: unfold mg_append_row; rewrite each_with_eq by (apply Hids; intros g t x Ht Hx; by destruct (Hfit g t x Ht Hx)).
  2: unfold mg_add_row; rewrite each_with_eq by (apply Hids; intros g t x Ht Hx; by destruct (Hfit g t x Ht Hx)).
  all: apply (each_rep _ (spec_row_op _) ts gs Hrep); intros g t [rows dev] Ht Hx; specialize (Hfit g t _ Ht Hx); cbn in Hfit; cbn [spec_row_op fst snd];
    pose proof (Forall2_lookup_lr _ _ _ _ _ _ Hrep Ht Hx) as Hr; cbn in Hr.
  - destruct Hfit as [_ (old & Hold & Hf)]. assert (Ha : alter (λ old, old ++ default [] (ids !! g)) r rows = <[r := old ++ default [] (ids !! g)]> rows).
    { apply list_eq. intros i. destruct (decide (i = r)) as [->|]; [by rewrite list_lookup_alter_eq, list_lookup_insert_eq, Hold by (by apply lookup_lt_Some in Hold)|by rewrite list_lookup_alter_ne, list_lookup_insert_ne]. }
    rewrite Ha. by eapply append_row_ok.
  - destruct Hfit as (_ & Hlt & Hf). by apply add_row_ok.
  - by apply clear_row_ok.
  - destruct Hfit as [H1 H2]. destruct (lookup_lt_is_Some_2 rows src H1) as [x Hsrc]. rewrite Hsrc. by apply move_row_ok.
  - destruct Hfit as [H1 H2]. destruct (lookup_lt_is_Some_2 rows i H1) as [x Hi]. destruct (lookup_lt_is_Some_2 rows j H2) as [y Hj]. rewrite Hi, Hj. by apply swap_row_ok.
  - by apply commit_ok.
Qed.

Fixpoint run_row_ops (ops : list row_op) : M MultiGroupBlockTable unit :=
  match ops with
  | [] => ret tt
  | op :: ops => run_row_op op ;;; run_row_ops ops
  end.

Definition spec_row_ops (ops : list row_op) (gs : group_rows) : group_rows := foldl (λ gs op, imap (spec_row_op op) gs) gs ops.

(** Each operation fits the rows it finds. *)
Fixpoint ops_fit (ops : list row_op) (ts : MultiGroupBlockTable) (gs : group_rows) : Prop :=
  match ops with
  | [] => True
  | op :: ops => op_fits op ts gs ∧ ops_fit ops ts (imap (spec_row_op op) gs)
  end.

Lemma row_op_fits_shape op t t' g rows : same_shape t t' → row_op_fits op t g rows → row_op_fits op t' g rows.
Proof.
  intros Hsh. assert (Hw : max_num_blocks_per_req t' = max_num_blocks_per_req t) by (by rewrite Hsh).
  destruct op; cbn; rewrite ?Hw, ?(kernel_ids_shape _ _ _ Hsh); try done. intros [H1 (old & H2 & H3)]. split; [done|]. exists old. by rewrite (kernel_ids_shape _ _ _ Hsh).
Qed.

Lemma ops_fit_shape ops ts ts' gs : Forall2 same_shape ts ts' → ops_fit ops ts gs → ops_fit ops ts' gs.
Proof.
  intros Hsh. revert gs. induction ops as [|op ops IH]; intros gs; [done|]. intros [H1 H2]. split; [|by apply IH].
  intros g t' x Ht' Hx. destruct (Forall2_lookup_r _ _ _ _ _ Hsh Ht') as (t & Ht & Hs). eapply row_op_fits_shape; [exact Hs|]. by eapply H1.
Qed.

Lemma make_buffer_ok t n w : len (py_repeat 0 w) = max_num_blocks_per_req t → Forall2 (row_ok t) (zeros n w) (replicate n []).
Proof.
  intros Hl. unfold zeros. apply Forall2_same_length_lookup_2; [by rewrite !length_replicate|]. intros i row ids Hrow Hids.
  apply lookup_replicate in Hrow as [-> _]. apply lookup_replicate in Hids as [-> _]. by apply row_ok_nil.
Qed.

(** A new table is empty. *)
Lemma new_block_table_rep cp bs n max_blocks max_batched kbs interleave t : 0 ≤ max_blocks → 0 < bs → 0 < kbs →
  new_block_table cp bs n max_blocks max_batched kbs interleave = Ok t → bt_rep t (replicate n []) (replicate n []).
Proof.
  intros Hm Hb Hk. assert (Hnil : ∀ t, len (kernel_ids t []) = 0) by (intros; by rewrite kernel_ids_nil). unfold new_block_table. destruct (Z.eqb_spec kbs bs); [|destruct (Z.eqb_spec kbs 0); [done|]; destruct (negb _); [done|]].
  all: intros [= <-]; assert (0 ≤ bs / kbs) by (apply Z.div_pos; lia).
  all: split; [apply make_buffer_ok; rewrite len_repeat; cbn; nia|apply make_buffer_ok; rewrite len_repeat; cbn; nia| |done].
  all: rewrite fmap_replicate; cbn [num_blocks_per_row]; f_equal; symmetry; apply Hnil.
Qed.

Lemma new_multi_group_rep cp n mml max_batched bss kbss max_blocks interleave ts : Forall (λ x, 0 < x) bss → Forall (λ x, 0 < x) kbss → Forall (λ x, 0 ≤ x) (default [] max_blocks) →
  0 ≤ mml → 0 < cp_dcp_world cp * cp_pcp_world cp → new_multi_group cp n mml max_batched bss kbss max_blocks interleave = Ok ts →
  mg_rep ts (replicate (length ts) (replicate n [], replicate n [])).
Proof.
  intros Hb Hk Hm Hl Hw. unfold new_multi_group. destruct (negb _); [done|]. intros (mbs & Hmbs & Hts)%res_bind_ok. destruct (negb _); [done|]. apply map_res_ok in Hts.
  assert (Hpos : Forall (λ x, 0 ≤ x) mbs).
  { destruct max_blocks as [l|]; [by simplify_eq|]. apply map_res_ok in Hmbs. apply Forall_lookup_2. intros i q Hq. destruct (Forall2_lookup_r _ _ _ _ _ Hmbs Hq) as (bs & Hbs & [_ ->]%py_cdiv_ok).
    eapply Forall_lookup_1 in Hb; [|exact Hbs]. apply cdiv_nonneg; nia. }
  apply Forall2_same_length_lookup_2; [by rewrite length_replicate|]. intros g t x Ht [-> _]%lookup_replicate.
  destruct (Forall2_lookup_r _ _ _ _ _ Hts Ht) as ([[bs kbs] mb] & Hz & Hnew). apply lookup_zip_Some in Hz as [[H1 H2]%lookup_zip_Some H3]. cbn in *.
  eapply new_block_table_rep; [| | |exact Hnew]; [by eapply (Forall_lookup_1 _ _ _ _ Hpos)|by eapply (Forall_lookup_1 _ _ _ _ Hb)|by eapply (Forall_lookup_1 _ _ _ _ Hk)].
Qed.

(** ** Theorem on rows *)

(** C23.  Whatever the rows of the requests are moved, swapped, cleared, overwritten
    or extended, the tables of all groups hold exactly the blocks that plain lists
    of rows would hold, and the device those of the last commit; no operation
    raises while rows exist and what is written fits. *)
Theorem block_rows_refine ops ts gs : mg_rep ts gs → ops_fit ops ts gs →
  ∃ ts', run_row_ops ops ts = (Ok tt, ts') ∧ mg_rep ts' (spec_row_ops ops gs) ∧ Forall2 same_shape ts ts'.
Proof.
  revert ts gs. induction ops as [|op ops IH]; intros ts gs Hrep Hfit.
  - exists ts. split_and!; [done|done|]. apply Forall2_same_length_lookup_2; [done|]. intros. by simplify_eq.
  - destruct Hfit as [H1 H2]. destruct (row_op_ok op ts gs Hrep H1) as (ts1 & Hrun & Hrep1 & Hsh).
    destruct (IH ts1 _ Hrep1 (ops_fit_shape _ _ _ _ Hsh H2)) as (ts2 & Hrun2 & Hrep2 & Hsh2). exists ts2. split_and!.
    + cbn. by rewrite (bind_ok _ _ _ _ _ Hrun).
    + exact Hrep2.
    + apply Forall2_same_length_lookup_2; [etrans; by eapply Forall2_length|]. intros i t t2 Ht Ht2.
      destruct (Forall2_lookup_l _ _ _ _ _ Hsh Ht) as (t1 & Ht1 & ?). etrans; [done|]. by eapply Forall2_lookup_lr.
Qed.

(** ** Runs *)

(** Two requests, memory blocks of four tokens, kernel blocks of two. *)
Definition small_cp : CpGroups := MkCp 1 0 1 0.

Definition small_tables : MultiGroupBlockTable :=
  match new_multi_group small_cp 2 8 6 [4] [2] None 1 with Ok ts => ts | Raise _ => [] end.

Lemma small_tables_rep : mg_rep small_tables [(replicate 2 [], replicate 2 [])].
Proof.
  assert (Hnew : new_multi_group small_cp 2 8 6 [4] [2] None 1 = Ok small_tables) by (vm_compute; reflexivity).
  apply Forall2_cons_2; [|by apply Forall2_nil]. eapply (new_block_table_rep small_cp 4 2 2 6 2 1); [lia|lia|lia|]. vm_compute. reflexivity.
Qed.

Definition small_ops : list row_op := [RAdd [[3; 5]] 0%nat; RAdd [[7]] 1%nat; RSwap 0%nat 1%nat; RCommit 2%nat].

Lemma small_ops_fit : ops_fit small_ops small_tables [(replicate 2 [], replicate 2 [])].
Proof.
  assert (Hone : length small_tables = 1%nat) by (vm_compute; reflexivity).
  cbn [ops_fit small_ops]. split_and!; [..|done]; intros g t x Ht Hx; assert (g = 0%nat) as -> by (apply lookup_lt_Some in Ht; lia);
    vm_compute in Ht; vm_compute in Hx; injection Ht as <-; injection Hx as <-; vm_compute; split_and?; try done; lia.
Qed.

Lemma block_rows_refine_witness :
  ops_fit small_ops small_tables [(replicate 2 [], replicate 2 [])] ∧
  ∃ ts', run_row_ops small_ops small_tables = (Ok tt, ts') ∧ mg_rep ts' [([[7]; [3; 5]], [[7]; [3; 5]])].
Proof.
  split; [exact small_ops_fit|].
  destruct (block_rows_refine small_ops small_tables _ small_tables_rep small_ops_fit) as (ts' & Hrun & Hrep & _). exists ts'. split; [exact Hrun|exact Hrep].
Defined.

(** Two tokens of the first request and one of the second. *)
Definition committed : BlockTable :=
  match (run_row_ops small_ops small_tables).2 with t :: _ => t | [] => MkBlockTable 0 0 0 0 false 0 (MkBuffer [] []) [] [] 0 0 0 0 0 end.

Lemma committed_input : mapping_input committed 2 [0; 2; 3] [0; 3; 6].
Proof.
  split.
  - vm_compute. done.
  - vm_compute. split; [lia|]. repeat constructor.
  - done.
  - intros [|[|r]] Hr; [exists 0, 2|exists 2, 3|lia]; cbn; split_and!; (done || lia).
  - done.
  - vm_compute. done.
  - intros p Hp. assert (p = 0 ∨ p = 3 ∨ p = 6) as [->|[->| ->]] by set_solver; vm_compute; done.
Qed.

Lemma slot_mapping_exact_witness :
  mapping_input committed 2 [0; 2; 3] [0; 3; 6] ∧
  ∃ t', compute_slot_mapping 2 [0; 2; 3] [0; 3; 6] committed = (Ok tt, t') ∧ slot_mapping t' = [28; 31; 22; -1; -1; -1].
Proof.
  split; [exact committed_input|].
  destruct (slot_mapping_exact committed 2 [0; 2; 3] [0; 3; 6] committed_input) as (slots & Hrun & _). eexists. split; [exact Hrun|].
  assert (Hs : (compute_slot_mapping 2 [0; 2; 3] [0; 3; 6] committed).2 = set_slots slots committed) by (by rewrite Hrun).
  rewrite <-Hs. vm_compute. reflexivity.
Defined.

Lemma slots_never_collide_witness : let slot := λ rank pos r, slot_of_pos [2; 4; 4; 2] 2 4 2 rank 2 pos r in
  slot 1 2 0%nat = Ok 8 ∧ slot 0 2 0%nat = Ok PAD_SLOT_ID ∧ slot 1 10 1%nat = Ok 8 ∧
  (∀ rank v, slot rank 2 0%nat = Ok v → slot rank 10 1%nat = Ok v → v ≠ PAD_SLOT_ID → 2 mod 8 = 10 mod 8).
Proof.
  split; [vm_compute; reflexivity|split; [vm_compute; reflexivity|split; [vm_compute; reflexivity|]]].
  destruct (slots_never_collide [2; 4; 4; 2] 2 4 2 2 0 1 2 10 ltac:(lia) ltac:(lia) ltac:(lia) ltac:(by exists 2) ltac:(lia) ltac:(lia)) as [_ H].
  - intros b Hb. set_solver by lia.
  - intros rank v H1 H2 H3. exact (proj2 (H rank v H1 H2 H3)).
Defined.

Lemma kernel_blocks_same_slots_witness :
  map_to_kernel_blocks [3; 5] 2 = [6; 7; 10; 11] ∧ slot_ref [6; 7; 10; 11] 2 1 0 1 5 = slot_ref [3; 5] 4 1 0 1 5.
Proof.
  split; [vm_compute; reflexivity|]. exact (kernel_blocks_same_slots [3; 5] 2 2 1 0 1 5 ltac:(lia) ltac:(lia) ltac:(lia) ltac:(lia) ltac:(by exists 2) ltac:(lia)).
Defined.
