(* ===== verification/InputBatch.v ===== *)
(** * The persistent batch of a worker

    [v1/worker/gpu_input_batch.py]: the requests a worker runs keep an index from
    step to step; tokens, blocks and sampling parameters of a request are entries
    of arrays at that index.  Requests that are not scheduled are removed, new ones
    take the free indices, and [condense] moves the last ones down so that the
    indices are dense again.  [v1/sample/logits_processor/state.py] records these
    changes for the logits processors.

    The NumPy arrays with one entry per index are one array of [Row]s here.  Lists
    of output tokens are shared with the cached states of the requests, so they
    live in a heap and are referred to by name.  Generators, embeddings and pooling
    states are tensors and stay opaque; [float32] is the rounding of a Python float
    to a single-precision entry. *)
From Stdlib Require Import QArith.
From stdpp Require Import gmap sorting.
From S2P Require Import Prelude.
From S2P Require Import RequestModel.
From S2P Require Import Arrays.
From S2P Require Import BlockTable.
#[local] Open Scope Z_scope.

(** ** Batch updates *)

(** [BatchUpdateBuilder] *)
Inductive MoveDirectionality := UNIDIRECTIONAL | SWAP.

(** The sampling parameters a batch uses. *)
Inductive SamplingType := GREEDY | RANDOM | RANDOM_SEED.

Record SampleParams := MkSample {
  sampling_type : SamplingType;
  temperature : Q;
  top_p : Q;
  top_k : Z;
  frequency_penalty : Q;
  presence_penalty : Q;
  repetition_penalty : Q;
  logprobs : option Z;
  sp_logprob_token_ids : option (list Z);
  allowed_token_ids : option (list Z);
  sp_bad_words_token_ids : option (list (list Z));
  sp_prompt_logprobs : option Z;
  sp_seed : option Z;
}.

(** [AddedRequest]: index, parameters, prompt and the list of output tokens. *)
Record AddedRequest := MkAdded { ad_index : nat; ad_params : SampleParams; ad_prompt : option (list Z); ad_output : nat }.

Record MovedRequest := MkMoved { mv_from : nat; mv_to : nat; mv_direct : MoveDirectionality }.

Record BatchUpdateBuilder := MkBuilder {
  removed_ : list nat;
  is_removed_sorted : bool;
  added : list AddedRequest;
  moved : list MovedRequest;
  batch_changed : bool;
}.

Record BatchUpdate := MkBatchUpdate { bu_batch_size : nat; bu_removed : list nat; bu_moved : list MovedRequest; bu_added : list AddedRequest }.

Definition new_builder : BatchUpdateBuilder := MkBuilder [] false [] [] false.

(** The order of [sort(reverse=True)]. *)
Definition desc (x y : nat) : Prop := (y ≤ x)%nat.

#[global] Instance desc_dec x y : Decision (desc x y).
Proof. unfold desc. apply _. Defined.
#[global] Instance desc_total : Total desc.
Proof. intros x y. unfold desc. lia. Qed.
#[global] Instance desc_trans : Transitive desc.
Proof. intros x y z. unfold desc. lia. Qed.

(** [_ensure_removed_sorted] *)
Definition ensure_removed_sorted (b : BatchUpdateBuilder) : BatchUpdateBuilder :=
  if is_removed_sorted b then b
  else MkBuilder (merge_sort desc (removed_ b)) true (added b) (moved b) (batch_changed b).

(** The property [removed], which sorts first. *)
Definition removed : M BatchUpdateBuilder (list nat) := λ b, let b := ensure_removed_sorted b in (Ok (removed_ b), b).

Definition removed_append (index : nat) : M BatchUpdateBuilder unit := λ b,
  if is_removed_sorted b then (Raise RuntimeError, b)
  else (Ok tt, MkBuilder (removed_ b ++ [index]) (is_removed_sorted b) (added b) (moved b) true).

Definition has_removed (b : BatchUpdateBuilder) : bool := negb (bool_decide (removed_ b = [])).

Definition peek_removed : M BatchUpdateBuilder (option nat) := λ b,
  if has_removed b then let b := ensure_removed_sorted b in (Ok (last (removed_ b)), b) else (Ok None, b).

Definition pop_removed : M BatchUpdateBuilder (option nat) := λ b,
  if has_removed b then
    let b := ensure_removed_sorted b in
    (Ok (last (removed_ b)), MkBuilder (removelast (removed_ b)) (is_removed_sorted b) (added b) (moved b) (batch_changed b))
  else (Ok None, b).

Definition reset : M BatchUpdateBuilder bool := λ b, (Ok (batch_changed b), new_builder).

Definition get_and_reset (batch_size : nat) : M BatchUpdateBuilder (option BatchUpdate) := λ b,
  match removed_ b, moved b, added b with
  | [], [], [] => (Ok None, new_builder)
  | _, _, _ => (Ok (Some (MkBatchUpdate batch_size (removed_ b) (moved b) (added b))), new_builder)
  end.

Definition add_added (a : AddedRequest) (b : BatchUpdateBuilder) : BatchUpdateBuilder :=
  MkBuilder (removed_ b) (is_removed_sorted b) (added b ++ [a]) (moved b) (batch_changed b).

Definition add_moved (m : MovedRequest) (b : BatchUpdateBuilder) : BatchUpdateBuilder :=
  MkBuilder (removed_ b) (is_removed_sorted b) (added b) (moved b ++ [m]) (batch_changed b).

Definition set_changed (b : BatchUpdateBuilder) : BatchUpdateBuilder :=
  MkBuilder (removed_ b) (is_removed_sorted b) (added b) (moved b) true.

(** ** Requests and the batch *)

Record PoolParams := MkPool { requires_token_ids : bool }.

Record CachedRequestState := MkCached {
  cr_req_id : string;
  cr_prompt_token_ids : option (list Z);
  cr_prompt_embeds : option (list bytes);
  cr_num_prompt_tokens : Z;
  cr_sampling_params : option SampleParams;
  cr_generator : option nat;
  cr_block_ids : list (list Z);
  cr_num_computed_tokens : Z;
  (* the name of the list *)
  cr_output_token_ids : nat;
  cr_lora_request : option LoRARequest;
  cr_pooling_params : option PoolParams;
  cr_pooling_states : option nat;
  cr_prev_num_draft_len : Z;
}.

(** The entries of the arrays at one index. *)
Record Row := MkRow {
  token_ids_cpu : list Z;
  is_token_ids : list bool;
  num_tokens_no_spec : Z;
  num_prompt_tokens : Z;
  num_computed_tokens_cpu : Z;
  request_lora_mapping : Z;
  temperature_cpu : Q;
  top_p_cpu : Q;
  top_k_cpu : Z;
  frequency_penalties_cpu : Q;
  presence_penalties_cpu : Q;
  repetition_penalties_cpu : Q;
  num_accepted_tokens_cpu : Z;
  logits_processing_needs_token_ids : bool;
}.

(** The lists and the dictionary that say where a request is. *)
Record Slots := MkSlots {
  req_ids_ : list (option string);
  req_output_token_ids : list (option nat);
  spec_token_ids : list (list Z);
  req_id_to_index : gmap string nat;
}.

(** What is kept by request id. *)
Record ById := MkById {
  greedy_reqs : gset string;
  random_reqs : gset string;
  top_p_reqs : gset string;
  top_k_reqs : gset string;
  frequency_penalties_reqs : gset string;
  presence_penalties_reqs : gset string;
  repetition_penalties_reqs : gset string;
  has_allowed_token_ids : gset string;
  num_logprobs : gmap string Z;
  logprob_token_ids : gmap string (list Z);
  in_progress_prompt_logprobs_cpu : gmap string nat;
  pooling_params : gmap string PoolParams;
  pooling_states : gmap string nat;
}.

(** What is kept by index in dictionaries. *)
Record ByIndex := MkByIndex {
  req_prompt_embeds : gmap nat (list bytes);
  generators : gmap nat nat;
  bad_words_token_ids : gmap nat (list (list Z));
}.

Record Loras := MkLoras {
  lora_id_to_request_ids : gmap Z (gset string);
  lora_id_to_lora_request : gmap Z LoRARequest;
}.

Record InputBatch := MkBatch {
  is_pooling_model : bool;
  ib_max_num_reqs : nat;
  max_model_len : Z;
  vocab_size : Z;
  slots : Slots;
  rows : list Row;
  tables : MultiGroupBlockTable;
  by_id : ById;
  by_index : ByIndex;
  loras : Loras;
  allowed_token_ids_mask : option (list (list bool));
  batch_update_builder : BatchUpdateBuilder;
  prev_req_id_to_index : option (gmap string nat);
  (* the lists of output tokens, by name *)
  output_lists : gmap nat (list Z);
}.

(** ** Access to the parts *)

Definition MB (A : Type) : Type := M InputBatch A.

Definition upd_slots (f : Slots → Slots) (b : InputBatch) : InputBatch :=
  MkBatch (is_pooling_model b) (ib_max_num_reqs b) (max_model_len b) (vocab_size b) (f (slots b)) (rows b) (tables b) (by_id b) (by_index b) (loras b)
    (allowed_token_ids_mask b) (batch_update_builder b) (prev_req_id_to_index b) (output_lists b).
Definition set_rows (l : list Row) (b : InputBatch) : InputBatch :=
  MkBatch (is_pooling_model b) (ib_max_num_reqs b) (max_model_len b) (vocab_size b) (slots b) l (tables b) (by_id b) (by_index b) (loras b)
    (allowed_token_ids_mask b) (batch_update_builder b) (prev_req_id_to_index b) (output_lists b).
Definition set_tables (l : MultiGroupBlockTable) (b : InputBatch) : InputBatch :=
  MkBatch (is_pooling_model b) (ib_max_num_reqs b) (max_model_len b) (vocab_size b) (slots b) (rows b) l (by_id b) (by_index b) (loras b)
    (allowed_token_ids_mask b) (batch_update_builder b) (prev_req_id_to_index b) (output_lists b).
Definition upd_by_id (f : ById → ById) (b : InputBatch) : InputBatch :=
  MkBatch (is_pooling_model b) (ib_max_num_reqs b) (max_model_len b) (vocab_size b) (slots b) (rows b) (tables b) (f (by_id b)) (by_index b) (loras b)
    (allowed_token_ids_mask b) (batch_update_builder b) (prev_req_id_to_index b) (output_lists b).
Definition upd_by_index (f : ByIndex → ByIndex) (b : InputBatch) : InputBatch :=
  MkBatch (is_pooling_model b) (ib_max_num_reqs b) (max_model_len b) (vocab_size b) (slots b) (rows b) (tables b) (by_id b) (f (by_index b)) (loras b)
    (allowed_token_ids_mask b) (batch_update_builder b) (prev_req_id_to_index b) (output_lists b).
Definition set_loras (l : Loras) (b : InputBatch) : InputBatch :=
  MkBatch (is_pooling_model b) (ib_max_num_reqs b) (max_model_len b) (vocab_size b) (slots b) (rows b) (tables b) (by_id b) (by_index b) l
    (allowed_token_ids_mask b) (batch_update_builder b) (prev_req_id_to_index b) (output_lists b).
Definition set_mask (m : option (list (list bool))) (b : InputBatch) : InputBatch :=
  MkBatch (is_pooling_model b) (ib_max_num_reqs b) (max_model_len b) (vocab_size b) (slots b) (rows b) (tables b) (by_id b) (by_index b) (loras b)
    m (batch_update_builder b) (prev_req_id_to_index b) (output_lists b).
Definition set_builder (u : BatchUpdateBuilder) (b : InputBatch) : InputBatch :=
  MkBatch (is_pooling_model b) (ib_max_num_reqs b) (max_model_len b) (vocab_size b) (slots b) (rows b) (tables b) (by_id b) (by_index b) (loras b)
    (allowed_token_ids_mask b) u (prev_req_id_to_index b) (output_lists b).
Definition set_prev (m : option (gmap string nat)) (b : InputBatch) : InputBatch :=
  MkBatch (is_pooling_model b) (ib_max_num_reqs b) (max_model_len b) (vocab_size b) (slots b) (rows b) (tables b) (by_id b) (by_index b) (loras b)
    (allowed_token_ids_mask b) (batch_update_builder b) m (output_lists b).
Definition set_lists (m : gmap nat (list Z)) (b : InputBatch) : InputBatch :=
  MkBatch (is_pooling_model b) (ib_max_num_reqs b) (max_model_len b) (vocab_size b) (slots b) (rows b) (tables b) (by_id b) (by_index b) (loras b)
    (allowed_token_ids_mask b) (batch_update_builder b) (prev_req_id_to_index b) m.

Definition on_builder {A} (m : M BatchUpdateBuilder A) : MB A := zoom batch_update_builder set_builder m.
Definition on_tables {A} (m : M MultiGroupBlockTable A) : MB A := zoom tables set_tables m.

(** The change of a list of the batch. *)
Definition set_ids (l : list (option string)) (s : Slots) : Slots := MkSlots l (req_output_token_ids s) (spec_token_ids s) (req_id_to_index s).
Definition set_outputs (l : list (option nat)) (s : Slots) : Slots := MkSlots (req_ids_ s) l (spec_token_ids s) (req_id_to_index s).
Definition set_specs (l : list (list Z)) (s : Slots) : Slots := MkSlots (req_ids_ s) (req_output_token_ids s) l (req_id_to_index s).
Definition set_index (m : gmap string nat) (s : Slots) : Slots := MkSlots (req_ids_ s) (req_output_token_ids s) (spec_token_ids s) m.

Definition on_list {A} (get : InputBatch → A) (put : A → InputBatch → InputBatch) (f : A → res A) : MB unit :=
  let! x := gets get in
  let! x := lift (f x) in
  modify (put x).

Definition on_ids := on_list (λ b, req_ids_ (slots b)) (λ l, upd_slots (set_ids l)).
Definition on_outputs := on_list (λ b, req_output_token_ids (slots b)) (λ l, upd_slots (set_outputs l)).
Definition on_specs := on_list (λ b, spec_token_ids (slots b)) (λ l, upd_slots (set_specs l)).
Definition on_rows := on_list rows set_rows.

Definition get_row (i : nat) : MB Row :=
  let! l := gets rows in
  lift (arr_get l i).

Definition on_row (i : nat) (f : Row → res Row) : MB unit := on_rows (λ l,
  let? r := arr_get l i in
  let? r := f r in
  Ok (<[i := r]> l)).

Definition num_reqs (b : InputBatch) : nat := size (req_id_to_index (slots b)).

(** [InputBatch.__init__].  The arrays of sampling parameters are not initialised:
    [junk] is what they hold. *)
Definition new_row (mml : Z) (junk : Row) : Row :=
  MkRow (py_repeat 0 mml) (py_repeat false mml) 0 0 0 0 (temperature_cpu junk) (top_p_cpu junk) (top_k_cpu junk)
    (frequency_penalties_cpu junk) (presence_penalties_cpu junk) (repetition_penalties_cpu junk) 1 false.

Definition new_input_batch (cp : CpGroups) (junk : nat → Row) (max_reqs : nat) (mml max_batched vocab : Z) (block_sizes kernel_block_sizes : list Z)
    (max_num_blocks : option (list Z)) (pooling : bool) (interleave : Z) (lists : gmap nat (list Z)) : res InputBatch :=
  let? ts := new_multi_group cp max_reqs mml max_batched block_sizes kernel_block_sizes max_num_blocks interleave in
  Ok (MkBatch pooling max_reqs mml vocab (MkSlots [] [] (replicate max_reqs []) ∅) ((λ i, new_row mml (junk i)) <$> seq 0 max_reqs) ts
    (MkById ∅ ∅ ∅ ∅ ∅ ∅ ∅ ∅ ∅ ∅ ∅ ∅ ∅) (MkByIndex ∅ ∅ ∅) (MkLoras ∅ ∅) None new_builder None lists).

(** *** Rows *)

Definition row_tokens (t : list Z) (k : list bool) (r : Row) : Row :=
  MkRow t k (num_tokens_no_spec r) (num_prompt_tokens r) (num_computed_tokens_cpu r) (request_lora_mapping r) (temperature_cpu r) (top_p_cpu r) (top_k_cpu r)
    (frequency_penalties_cpu r) (presence_penalties_cpu r) (repetition_penalties_cpu r) (num_accepted_tokens_cpu r) (logits_processing_needs_token_ids r).
Definition row_counts (no_spec prompt computed : Z) (r : Row) : Row :=
  MkRow (token_ids_cpu r) (is_token_ids r) no_spec prompt computed (request_lora_mapping r) (temperature_cpu r) (top_p_cpu r) (top_k_cpu r)
    (frequency_penalties_cpu r) (presence_penalties_cpu r) (repetition_penalties_cpu r) (num_accepted_tokens_cpu r) (logits_processing_needs_token_ids r).
Definition row_lora (l : Z) (r : Row) : Row :=
  MkRow (token_ids_cpu r) (is_token_ids r) (num_tokens_no_spec r) (num_prompt_tokens r) (num_computed_tokens_cpu r) l (temperature_cpu r) (top_p_cpu r) (top_k_cpu r)
    (frequency_penalties_cpu r) (presence_penalties_cpu r) (repetition_penalties_cpu r) (num_accepted_tokens_cpu r) (logits_processing_needs_token_ids r).
Definition row_accepted (n : Z) (r : Row) : Row :=
  MkRow (token_ids_cpu r) (is_token_ids r) (num_tokens_no_spec r) (num_prompt_tokens r) (num_computed_tokens_cpu r) (request_lora_mapping r) (temperature_cpu r) (top_p_cpu r) (top_k_cpu r)
    (frequency_penalties_cpu r) (presence_penalties_cpu r) (repetition_penalties_cpu r) n (logits_processing_needs_token_ids r).
Definition row_needs (n : bool) (r : Row) : Row :=
  MkRow (token_ids_cpu r) (is_token_ids r) (num_tokens_no_spec r) (num_prompt_tokens r) (num_computed_tokens_cpu r) (request_lora_mapping r) (temperature_cpu r) (top_p_cpu r) (top_k_cpu r)
    (frequency_penalties_cpu r) (presence_penalties_cpu r) (repetition_penalties_cpu r) (num_accepted_tokens_cpu r) n.

(** The sampling entries of [r] from [q]. *)
Definition row_sampling (q r : Row) : Row :=
  MkRow (token_ids_cpu r) (is_token_ids r) (num_tokens_no_spec r) (num_prompt_tokens r) (num_computed_tokens_cpu r) (request_lora_mapping r) (temperature_cpu q) (top_p_cpu q) (top_k_cpu q)
    (frequency_penalties_cpu q) (presence_penalties_cpu q) (repetition_penalties_cpu q) (num_accepted_tokens_cpu q) (logits_processing_needs_token_ids r).

(** [swap_dict_values] *)
Definition swap_dict_values {V} (k1 k2 : nat) (m : gmap nat V) : gmap nat V :=
  let v1 := m !! k1 in
  let v2 := m !! k2 in
  let m := match v1 with Some v => <[k2 := v]> m | None => delete k2 m end in
  match v2 with Some v => <[k1 := v]> m | None => delete k1 m end.

(** [pop(i)] of one key, set again under another. *)
Definition move_dict_value {V} (src tgt : nat) (m : gmap nat V) : gmap nat V :=
  match m !! src with Some v => <[tgt := v]> (delete src m) | None => m end.

(** ** Adding a request *)

Section batch.
Variable float32 : Q → Q.

(** [_register_add_request] *)
Definition register_add_request (r : CachedRequestState) : MB nat :=
  let! free := on_builder pop_removed in
  let! n := gets num_reqs in
  let new_req_index := default n free in
  let! most := gets ib_max_num_reqs in
  py_assert (new_req_index <? most)%nat ;;;
  on_builder (modify set_changed) ;;;
  match cr_sampling_params r with
  | Some p => on_builder (modify (add_added (MkAdded new_req_index p (cr_prompt_token_ids r) (cr_output_token_ids r))))
  | None => ret tt
  end ;;;
  ret new_req_index.

(** The request takes its place in the lists. *)
Definition take_place (r : CachedRequestState) (req_index : nat) : MB unit :=
  let! n := gets (λ b, length (req_ids_ (slots b))) in
  (if (req_index =? n)%nat then
    on_ids (λ l, Ok (l ++ [Some (cr_req_id r)])) ;;;
    on_outputs (λ l, Ok (l ++ [Some (cr_output_token_ids r)])) ;;;
    on_specs (λ l, Ok (l ++ [[]]))
  else
    on_ids (λ l, arr_set l req_index (Some (cr_req_id r))) ;;;
    on_outputs (λ l, arr_set l req_index (Some (cr_output_token_ids r))) ;;;
    on_specs (λ l, arr_set l req_index [])) ;;;
  modify (upd_slots (λ s, set_index (<[cr_req_id r := req_index]> (req_id_to_index s)) s)).

(** The tokens of the prompt, then those of the output. *)
Definition write_prompt (prompt : option (list Z)) (n : Z) (row : Row) : res Row :=
  match prompt with
  | Some p => let? t := arr_write (token_ids_cpu row) 0 n p in Ok (row_tokens t (arr_fill (is_token_ids row) 0 n true) row)
  | None => Ok (row_tokens (token_ids_cpu row) (arr_fill (is_token_ids row) 0 n false) row)
  end.

Definition write_output (output : list Z) (start_idx : Z) (row : Row) : res Row :=
  let end_idx := start_idx + len output in
  let? t := arr_write (token_ids_cpu row) start_idx end_idx output in
  Ok (row_tokens t (arr_fill (is_token_ids row) start_idx end_idx true) row).

Definition output_of (b : InputBatch) (r : CachedRequestState) : list Z := default [] (output_lists b !! cr_output_token_ids r).

(** The entries for tokens and blocks. *)
Definition write_tokens (r : CachedRequestState) (req_index : nat) : MB unit :=
  let! n := lift (length_from_prompt_token_ids_or_embeds (cr_prompt_token_ids r) (cr_prompt_embeds r)) in
  on_row req_index (λ row, Ok (row_counts (num_tokens_no_spec row) n (num_computed_tokens_cpu row) row)) ;;;
  on_row req_index (write_prompt (cr_prompt_token_ids r) n) ;;;
  match cr_prompt_embeds r with
  | Some e => modify (upd_by_index (λ x, MkByIndex (<[req_index := e]> (req_prompt_embeds x)) (generators x) (bad_words_token_ids x)))
  | None => ret tt
  end ;;;
  let! output := gets (λ b, output_of b r) in
  on_row req_index (write_output output n) ;;;
  on_row req_index (λ row, Ok (row_counts (cr_num_prompt_tokens r + len output) (num_prompt_tokens row) (cr_num_computed_tokens r) row)) ;;;
  on_tables (mg_add_row (cr_block_ids r) req_index).

(** The sampling entries of the row. *)
Definition sampling_row (vocab : Z) (p : SampleParams) (row : Row) : Row :=
  row_sampling (MkRow [] [] 0 0 0 0
    (match sampling_type p with GREEDY => 0%Q | _ => float32 (temperature p) end) (float32 (top_p p))
    (if (0 <? top_k p) && (top_k p <? vocab) then top_k p else vocab)
    (float32 (frequency_penalty p)) (float32 (presence_penalty p)) (float32 (repetition_penalty p)) (num_accepted_tokens_cpu row) false) row.

Definition add_if (c : bool) (id : string) (l : gset string) : gset string := if c then {[ id ]} ∪ l else l.

(** The sets and dictionaries by request id. *)
Definition sampling_ids (vocab : Z) (id : string) (p : SampleParams) (x : ById) : ById :=
  let greedy := match sampling_type p with GREEDY => true | _ => false end in
  MkById (add_if greedy id (greedy_reqs x)) (add_if (negb greedy) id (random_reqs x))
    (add_if (negb (Qle_bool 1 (top_p p))) id (top_p_reqs x))
    (add_if ((0 <? top_k p) && (top_k p <? vocab)) id (top_k_reqs x))
    (add_if (negb (Qeq_bool (frequency_penalty p) 0)) id (frequency_penalties_reqs x))
    (add_if (negb (Qeq_bool (presence_penalty p) 0)) id (presence_penalties_reqs x))
    (add_if (negb (Qeq_bool (repetition_penalty p) 1)) id (repetition_penalties_reqs x))
    (has_allowed_token_ids x)
    (match logprobs p with Some n => <[id := if n =? -1 then vocab else n]> (num_logprobs x) | None => num_logprobs x end)
    (match sp_logprob_token_ids p with Some l => <[id := l]> (logprob_token_ids x) | None => logprob_token_ids x end)
    (in_progress_prompt_logprobs_cpu x) (pooling_params x) (pooling_states x).

Definition with_allowed (f : gset string → gset string) (x : ById) : ById :=
  MkById (greedy_reqs x) (random_reqs x) (top_p_reqs x) (top_k_reqs x) (frequency_penalties_reqs x) (presence_penalties_reqs x) (repetition_penalties_reqs x)
    (f (has_allowed_token_ids x)) (num_logprobs x) (logprob_token_ids x) (in_progress_prompt_logprobs_cpu x) (pooling_params x) (pooling_states x).

Definition with_pooling (params : gmap string PoolParams) (states : gmap string nat) (x : ById) : ById :=
  MkById (greedy_reqs x) (random_reqs x) (top_p_reqs x) (top_k_reqs x) (frequency_penalties_reqs x) (presence_penalties_reqs x) (repetition_penalties_reqs x)
    (has_allowed_token_ids x) (num_logprobs x) (logprob_token_ids x) (in_progress_prompt_logprobs_cpu x) params states.

(** [mask[req_index][ids] = False] after the row was set to True. *)
Definition allow_only (vocab : Z) (ids : list Z) : res (list bool) :=
  fold_res (λ row i, let j := if i <? 0 then i + len row else i in
    if (0 <=? j) && (j <? len row) then Ok (<[Z.to_nat j := false]> row) else Raise IndexError) (py_repeat true vocab) ids.

Definition set_allowed_mask (ids : list Z) (req_index : nat) : MB unit :=
  let! b := gets id in
  let mask := default (replicate (ib_max_num_reqs b) (py_repeat false (vocab_size b))) (allowed_token_ids_mask b) in
  modify (set_mask (Some mask)) ;;;
  let! mask := lift (arr_set mask req_index (py_repeat true (vocab_size b))) in
  modify (set_mask (Some mask)) ;;;
  let! row := lift (allow_only (vocab_size b) ids) in
  let! mask := lift (arr_set mask req_index row) in
  modify (set_mask (Some mask)).

Definition add_sampling (r : CachedRequestState) (p : SampleParams) (req_index : nat) : MB unit :=
  let! vocab := gets vocab_size in
  on_row req_index (λ row, Ok (sampling_row vocab p row)) ;;;
  modify (upd_by_id (sampling_ids vocab (cr_req_id r) p)) ;;;
  match cr_generator r with
  | Some g => modify (upd_by_index (λ x, MkByIndex (req_prompt_embeds x) (<[req_index := g]> (generators x)) (bad_words_token_ids x)))
  | None => ret tt
  end ;;;
  match allowed_token_ids p with
  | Some (i :: ids) =>
      modify (upd_by_id (with_allowed (λ l, {[ cr_req_id r ]} ∪ l))) ;;;
      set_allowed_mask (i :: ids) req_index
  | _ => ret tt
  end ;;;
  match sp_bad_words_token_ids p with
  | Some (w :: ws) => modify (upd_by_index (λ x, MkByIndex (req_prompt_embeds x) (generators x) (<[req_index := w :: ws]> (bad_words_token_ids x))))
  | _ => ret tt
  end.

Definition add_pooling (r : CachedRequestState) (p : PoolParams) (req_index : nat) : MB unit :=
  match cr_pooling_states r with
  | None => raise AssertionError
  | Some st =>
      modify (upd_by_id (λ x, with_pooling (<[cr_req_id r := p]> (pooling_params x)) (<[cr_req_id r := st]> (pooling_states x)) x)) ;;;
      on_row req_index (λ row, Ok (row_needs (requires_token_ids p) row))
  end.

Definition add_lora (r : CachedRequestState) (req_index : nat) : MB unit :=
  match cr_lora_request r with
  | Some l =>
      let id := lora_int_id l in
      on_row req_index (λ row, Ok (row_lora id row)) ;;;
      modify (λ b, set_loras (MkLoras
        (<[id := {[ cr_req_id r ]} ∪ default ∅ (lora_id_to_request_ids (loras b) !! id)]> (lora_id_to_request_ids (loras b)))
        (<[id := l]> (lora_id_to_lora_request (loras b)))) b)
  | None => on_row req_index (λ row, Ok (row_lora 0 row))
  end.

Definition ib_add_request (r : CachedRequestState) : MB nat :=
  let! req_index := register_add_request r in
  take_place r req_index ;;;
  write_tokens r req_index ;;;
  match cr_sampling_params r, cr_pooling_params r with
  | Some p, _ => add_sampling r p req_index
  | None, Some p => add_pooling r p req_index
  | None, None => raise NotImplementedError
  end ;;;
  on_row req_index (λ row, Ok (row_accepted 1 row)) ;;;
  add_lora r req_index ;;;
  ret req_index.

(** [update_req_spec_token_ids]; the value is the request with its new
    [prev_num_draft_len]. *)
Definition update_req_spec_token_ids (r : CachedRequestState) (scheduled_spec_tokens : gmap string (list Z)) : MB CachedRequestState :=
  let! index := gets (λ b, req_id_to_index (slots b) !! cr_req_id r) in
  match index with
  | None => raise KeyError
  | Some req_index =>
      on_specs (λ l, arr_set l req_index []) ;;;
      let spec := default [] (scheduled_spec_tokens !! cr_req_id r) in
      let r := MkCached (cr_req_id r) (cr_prompt_token_ids r) (cr_prompt_embeds r) (cr_num_prompt_tokens r) (cr_sampling_params r) (cr_generator r)
        (cr_block_ids r) (cr_num_computed_tokens r) (cr_output_token_ids r) (cr_lora_request r) (cr_pooling_params r) (cr_pooling_states r) (len spec) in
      match spec with
      | [] => ret r
      | _ =>
          on_row req_index (λ row,
            let start := num_tokens_no_spec row in
            let? t := arr_write (token_ids_cpu row) start (start + len spec) spec in
            Ok (row_tokens t (is_token_ids row) row)) ;;;
          on_specs (λ l, arr_set l req_index spec) ;;;
          ret r
      end
  end.
End batch.

(** ** Removing a request *)

Definition drop_by_id (id : string) (x : ById) : ById :=
  MkById (greedy_reqs x ∖ {[ id ]}) (random_reqs x ∖ {[ id ]}) (top_p_reqs x ∖ {[ id ]}) (top_k_reqs x ∖ {[ id ]})
    (frequency_penalties_reqs x ∖ {[ id ]}) (presence_penalties_reqs x ∖ {[ id ]}) (repetition_penalties_reqs x ∖ {[ id ]})
    (has_allowed_token_ids x ∖ {[ id ]}) (delete id (num_logprobs x)) (delete id (logprob_token_ids x))
    (delete id (in_progress_prompt_logprobs_cpu x)) (pooling_params x) (pooling_states x).

Definition remove_lora (id : string) (req_index : nat) : MB unit :=
  let! row := get_row req_index in
  let lora_id := request_lora_mapping row in
  if lora_id =? 0 then ret tt
  else
    let! l := gets loras in
    match lora_id_to_request_ids l !! lora_id with
    | None => raise KeyError
    | Some ids =>
        let ids := ids ∖ {[ id ]} in
        (if bool_decide (ids = ∅) then
          match lora_id_to_lora_request l !! lora_id with
          | None => modify (set_loras (MkLoras (delete lora_id (lora_id_to_request_ids l)) (lora_id_to_lora_request l))) ;;; raise KeyError
          | Some _ => modify (set_loras (MkLoras (delete lora_id (lora_id_to_request_ids l)) (delete lora_id (lora_id_to_lora_request l))))
          end
        else modify (set_loras (MkLoras (<[lora_id := ids]> (lora_id_to_request_ids l)) (lora_id_to_lora_request l)))) ;;;
        on_row req_index (λ row, Ok (row_lora 0 row))
    end.

(** The sampling state of the request. *)
Definition remove_sampling (id : string) (req_index : nat) : MB unit :=
  modify (upd_by_id (drop_by_id id)) ;;;
  modify (upd_by_index (λ x, MkByIndex (req_prompt_embeds x) (delete req_index (generators x)) (delete req_index (bad_words_token_ids x)))) ;;;
  modify (λ b, set_prev (delete id <$> prev_req_id_to_index b) b) ;;;
  let! mask := gets allowed_token_ids_mask in
  match mask with
  | None => ret tt
  | Some m =>
      let! m := lift (let? row := arr_get m req_index in Ok (<[req_index := (λ _, false) <$> row]> m)) in
      modify (set_mask (Some m))
  end.

Definition remove_request (id : string) : MB (option nat) :=
  let! index := gets (λ b, req_id_to_index (slots b) !! id) in
  match index with
  | None => ret None
  | Some req_index =>
      modify (upd_slots (λ s, set_index (delete id (req_id_to_index s)) s)) ;;;
      on_builder (removed_append req_index) ;;;
      on_ids (λ l, arr_set l req_index None) ;;;
      on_outputs (λ l, arr_set l req_index None) ;;;
      on_specs (λ l, arr_set l req_index []) ;;;
      on_tables (mg_clear_row req_index) ;;;
      remove_lora id req_index ;;;
      let! pooling := gets is_pooling_model in
      (if pooling then modify (upd_by_id (λ x, with_pooling (delete id (pooling_params x)) (delete id (pooling_states x)) x))
       else remove_sampling id req_index) ;;;
      ret (Some req_index)
  end.

(** ** Moving requests *)

(** [_get_active_token_count] *)
Definition get_active_token_count (req_index : nat) : MB Z :=
  let! row := get_row req_index in
  let! spec := gets (λ b, spec_token_ids (slots b)) in
  let! spec := lift (arr_get spec req_index) in
  ret (num_tokens_no_spec row + len spec).

(** The first [n] tokens of [src] over those of [tgt]. *)
Definition copy_tokens (n : Z) (src tgt : Row) : res Row :=
  let? t := arr_write (token_ids_cpu tgt) 0 n (py_slice_to (token_ids_cpu src) n) in
  let? k := arr_write (is_token_ids tgt) 0 n (py_slice_to (is_token_ids src) n) in
  Ok (row_tokens t k tgt).

(** The counts and the adapter of [src] in [tgt], and for models that sample the
    sampling entries. *)
Definition copy_entries (pooling : bool) (src tgt : Row) : Row :=
  let r := row_lora (request_lora_mapping src) (row_counts (num_tokens_no_spec src) (num_prompt_tokens src) (num_computed_tokens_cpu src) tgt) in
  if pooling then r else row_sampling src r.

(** The rows [i1] and [i2] trade places, [n] tokens of them. *)
Definition swap_rows (pooling : bool) (n : Z) (i1 i2 : nat) (l : list Row) : res (list Row) :=
  let? r1 := arr_get l i1 in
  let? r2 := arr_get l i2 in
  let? n1 := copy_tokens n r2 r1 in
  let? n2 := copy_tokens n r1 r2 in
  Ok (<[i2 := copy_entries pooling r1 n2]> (<[i1 := copy_entries pooling r2 n1]> l)).

(** [(t[i1], t[i2]) = (t[i2], t[i1])] of a tensor: the right side are views, so
    the second assignment reads what the first one wrote. *)
Definition swap_mask_rows (i1 i2 : nat) (m : list (list bool)) : res (list (list bool)) :=
  let? r2 := arr_get m i2 in
  let? m := arr_set m i1 r2 in
  let? r1 := arr_get m i1 in
  arr_set m i2 r1.

Definition swap_by_index (pooling : bool) (i1 i2 : nat) (x : ByIndex) : ByIndex :=
  MkByIndex (swap_dict_values i1 i2 (req_prompt_embeds x))
    (if pooling then generators x else swap_dict_values i1 i2 (generators x))
    (if pooling then bad_words_token_ids x else swap_dict_values i1 i2 (bad_words_token_ids x)).

Definition on_mask (f : list (list bool) → res (list (list bool))) : MB unit :=
  let! mask := gets allowed_token_ids_mask in
  match mask with
  | None => ret tt
  | Some m => let! m := lift (f m) in modify (set_mask (Some m))
  end.

(** The entries of the dictionary from ids to indices trade places. *)
Definition swap_index (old1 old2 : option string) (m : gmap string nat) : res (gmap string nat) :=
  match old1, old2 with
  | Some a, Some b =>
      match m !! a, m !! b with
      | Some x, Some y => Ok (<[b := x]> (<[a := y]> m))
      | _, _ => Raise KeyError
      end
  | _, _ => Raise AssertionError
  end.

Definition swap_states (i1 i2 : nat) : MB unit :=
  let! ids := gets (λ b, req_ids_ (slots b)) in
  let! old1 := lift (arr_get ids i1) in
  let! old2 := lift (arr_get ids i2) in
  let! n1 := get_active_token_count i1 in
  let! n2 := get_active_token_count i2 in
  on_ids (λ l, arr_swap l i1 i2) ;;;
  on_outputs (λ l, arr_swap l i1 i2) ;;;
  on_specs (λ l, arr_swap l i1 i2) ;;;
  on_list (λ b, req_id_to_index (slots b)) (λ m, upd_slots (set_index m)) (swap_index old1 old2) ;;;
  let! pooling := gets is_pooling_model in
  on_rows (swap_rows pooling (Z.max n1 n2) i1 i2) ;;;
  on_tables (mg_swap_row i1 i2) ;;;
  modify (upd_by_index (swap_by_index pooling i1 i2)) ;;;
  (if pooling then ret tt
   else on_builder (modify (add_moved (MkMoved i1 i2 SWAP))) ;;; on_mask (swap_mask_rows i1 i2)).

(** ** Condensing *)

(** [while last_req_index in empty_req_indices: last_req_index -= 1]; [None] is
    below zero. *)
Fixpoint skip_empty (last : nat) (empty : list nat) : option nat :=
  if bool_decide (last ∈ empty) then match last with O => None | S l => skip_empty l empty end
  else Some last.

(** Row [src] moved to [tgt], [n] tokens of it. *)
Definition move_row_entries (pooling : bool) (n : Z) (src tgt : nat) (l : list Row) : res (list Row) :=
  let? rs := arr_get l src in
  let? rt := arr_get l tgt in
  let? rt := copy_tokens n rs rt in
  Ok (<[tgt := copy_entries pooling rs rt]> l).

Definition move_by_index (pooling : bool) (src tgt : nat) (x : ByIndex) : ByIndex :=
  MkByIndex (move_dict_value src tgt (req_prompt_embeds x))
    (if pooling then generators x else move_dict_value src tgt (generators x))
    (if pooling then bad_words_token_ids x else move_dict_value src tgt (bad_words_token_ids x)).

(** The body of the loop: the request at [last] moves down to [empty]. *)
Definition move_down (last empty : nat) : MB unit :=
  on_builder pop_removed ;;;
  let! ids := gets (λ b, req_ids_ (slots b)) in
  let! req_id := lift (arr_get ids last) in
  let! outs := gets (λ b, req_output_token_ids (slots b)) in
  let! output := lift (arr_get outs last) in
  match req_id with
  | None => raise AssertionError
  | Some id =>
      on_ids (λ l, let? l := arr_set l empty (Some id) in arr_set l last None) ;;;
      on_outputs (λ l, let? l := arr_set l empty output in arr_set l last None) ;;;
      modify (upd_slots (λ s, set_index (<[id := empty]> (req_id_to_index s)) s)) ;;;
      let! num_tokens := get_active_token_count last in
      on_specs (λ l, let? l := arr_swap l last empty in arr_set l last []) ;;;
      let! pooling := gets is_pooling_model in
      on_rows (move_row_entries pooling num_tokens last empty) ;;;
      on_tables (mg_move_row last empty) ;;;
      modify (upd_by_index (move_by_index pooling last empty)) ;;;
      (if pooling then ret tt
       else
         on_builder (modify (add_moved (MkMoved last empty UNIDIRECTIONAL))) ;;;
         on_mask (λ m, arr_move m last empty))
  end.

(** The loop; [empty_req_indices] is the list of the builder itself. *)
Fixpoint condense_loop (fuel : nat) (last : nat) : MB unit :=
  let! empty := gets (λ b, removed_ (batch_update_builder b)) in
  match empty with
  | [] => ret tt
  | _ =>
      let! lowest := on_builder peek_removed in
      match fuel, lowest with
      | O, _ => raise OutOfFuel
      | _, None => raise AssertionError
      | S fuel, Some empty_index =>
          match skip_empty last empty with
          | None => ret tt
          | Some last => if (last <=? empty_index)%nat then ret tt else move_down last empty_index ;;; condense_loop fuel (last - 1)
          end
      end
  end.

Definition trim (n : nat) : Slots → Slots := λ s, MkSlots (take n (req_ids_ s)) (take n (req_output_token_ids s)) (take n (spec_token_ids s)) (req_id_to_index s).

Definition condense : MB unit :=
  let! n := gets num_reqs in
  let! empty := on_builder removed in
  match empty with
  | [] => ret tt
  | _ =>
      if (n =? 0)%nat then modify (upd_slots (trim 0))
      else
        condense_loop (S (length empty)) (n + length empty - 1) ;;;
        modify (upd_slots (trim n))
  end.

(** [refresh_metadata]: the changes since the last call go to the logits processors,
    as the value; the metadata itself is computed anew from the batch. *)
Definition refresh_metadata : MB (option BatchUpdate) :=
  let! pooling := gets is_pooling_model in
  if pooling then on_builder reset ;;; ret None
  else
    let! n := gets num_reqs in
    on_builder (get_and_reset n).
