(* ===== verification/InputBatchInv.v ===== *)
(** * The persistent batch: invariant and moves

    The invariant of [InputBatch] between the calls of one step, what the batch
    says about a request ([view]), and that removing, moving and condensing keep
    it. *)
From Stdlib Require Import QArith.
From stdpp Require Import gmap sorting.
From S2P Require Import Prelude.
From S2P Require Import RequestModel.
From S2P Require Import Arrays.
From S2P Require Import BlockTable.
From S2P Require Import InputBatch.
#[local] Open Scope Z_scope.

(** ** What the batch says about a request *)

(** The blocks of a row in one table. *)
Definition row_blocks (t : BlockTable) (i : nat) : option (list Z) :=
  row ← buf_np (block_table t) !! i;
  n ← num_blocks_per_row t !! i;
  Some (take (Z.to_nat n) row).

Record ReqView := MkView {
  v_tokens : list Z;
  v_is_token : list bool;
  v_counts : Z * Z * Z;
  v_lora : Z;
  v_sampling : option (Q * Q * Z * Q * Q * Q * Z);
  v_output : option nat;
  v_spec : list Z;
  v_blocks : list (option (list Z));
  v_generator : option nat;
  v_bad_words : option (list (list Z));
  v_embeds : option (list bytes);
}.

(** The tokens in use, with drafts. *)
Definition active (row : Row) (spec : list Z) : nat := Z.to_nat (num_tokens_no_spec row + len spec).

(** The tokens without drafts. *)
Definition known (row : Row) : nat := Z.to_nat (num_tokens_no_spec row).

(** Some token of the row is given by an embedding. *)
Definition has_embeds (row : Row) (n : nat) : bool := existsb negb (take n (is_token_ids row)).

Definition sampling_of (row : Row) : Q * Q * Z * Q * Q * Q * Z :=
  (temperature_cpu row, top_p_cpu row, top_k_cpu row, frequency_penalties_cpu row, presence_penalties_cpu row, repetition_penalties_cpu row, num_accepted_tokens_cpu row).

Definition mk_view (pooling : bool) (row : Row) (spec : list Z) (out : option nat) (blocks : list (option (list Z))) (gen : option nat)
    (bad : option (list (list Z))) (embeds : option (list bytes)) : ReqView :=
  let n := active row spec in
  MkView (take n (token_ids_cpu row)) (take n (is_token_ids row))
    (num_tokens_no_spec row, num_prompt_tokens row, num_computed_tokens_cpu row) (request_lora_mapping row)
    (if pooling then None else Some (sampling_of row)) out spec blocks
    (if pooling then None else gen) (if pooling then None else bad)
    (if has_embeds row (known row) then embeds else None).

Definition view (b : InputBatch) (i : nat) : option ReqView :=
  row ← rows b !! i;
  spec ← spec_token_ids (slots b) !! i;
  out ← req_output_token_ids (slots b) !! i;
  Some (mk_view (is_pooling_model b) row spec out ((λ t, row_blocks t i) <$> tables b)
    (generators (by_index b) !! i) (bad_words_token_ids (by_index b) !! i) (req_prompt_embeds (by_index b) !! i)).

(** The row of the mask of allowed tokens. *)
Definition mask_row (b : InputBatch) (i : nat) : option (list bool) := allowed_token_ids_mask b ≫= λ m, m !! i.

(** ** The invariant *)

Record row_wf (mml : Z) (r : Row) : Prop := {
  rw_tokens : len (token_ids_cpu r) = mml;
  rw_is : len (is_token_ids r) = mml;
}.

(** The batch with the empty indices [holes]. *)
Record ib_core (b : InputBatch) (holes : list nat) : Prop := {
  ic_outputs : length (req_output_token_ids (slots b)) = length (req_ids_ (slots b));
  ic_specs : (length (req_ids_ (slots b)) ≤ length (spec_token_ids (slots b)))%nat;
  ic_max : (length (req_ids_ (slots b)) ≤ ib_max_num_reqs b)%nat;
  ic_beyond : ∀ i l, (length (req_ids_ (slots b)) ≤ i)%nat → spec_token_ids (slots b) !! i = Some l → l = [];
  ic_index : ∀ id i, req_id_to_index (slots b) !! id = Some i ↔ req_ids_ (slots b) !! i = Some (Some id);
  ic_holes : ∀ i, i ∈ holes ↔ req_ids_ (slots b) !! i = Some None;
  ic_nodup : NoDup holes;
  ic_rows : length (rows b) = ib_max_num_reqs b;
  ic_row : Forall (row_wf (max_model_len b)) (rows b);
  ic_fit : ∀ id i row spec, req_id_to_index (slots b) !! id = Some i → rows b !! i = Some row → spec_token_ids (slots b) !! i = Some spec →
    0 ≤ num_tokens_no_spec row ∧ num_tokens_no_spec row + len spec ≤ max_model_len b;
  ic_tables : ∃ gs, mg_rep (tables b) gs ∧ Forall (λ g, length g.1 = ib_max_num_reqs b) gs;
  ic_dicts : is_pooling_model b = false → ∀ i, is_Some (generators (by_index b) !! i) ∨ is_Some (bad_words_token_ids (by_index b) !! i) → ∃ id, req_ids_ (slots b) !! i = Some (Some id);
  ic_mask : ∀ m, allowed_token_ids_mask b = Some m → length m = ib_max_num_reqs b;
  ic_embeds : ∀ id i row spec, req_id_to_index (slots b) !! id = Some i → rows b !! i = Some row → spec_token_ids (slots b) !! i = Some spec →
    has_embeds row (known row) = true → is_Some (req_prompt_embeds (by_index b) !! i);
}.

(** ** Lemmas on the monad of the batch *)

Lemma on_list_ok {A} (get : InputBatch → A) put f b x : f (get b) = Ok x → on_list get put f b = (Ok tt, put x b).
Proof. intros Hf. unfold on_list, bind, gets, lift, modify. by rewrite Hf. Qed.

Lemma zoom_ok {A T} (get : InputBatch → T) put (m : M T A) b a t : m (get b) = (Ok a, t) → zoom get put m b = (Ok a, put t b).
Proof. intros Hm. unfold zoom. by rewrite Hm. Qed.

Lemma lift_ok {S A} (r : res A) a (s : S) : r = Ok a → lift r s = (Ok a, s).
Proof. by intros ->. Qed.

(** The next call of a sequence. *)
Ltac run H := rewrite (bind_ok _ _ _ _ _ H); cbn beta iota.

Lemma row_blocks_rep t rows dev i ids : bt_rep t rows dev → rows !! i = Some ids → row_blocks t i = Some (kernel_ids t ids).
Proof.
  intros Hrep Hi. destruct (rep_row _ _ _ _ _ Hrep Hi) as (row & Hrow & [_ _ Hp] & Hc). unfold row_blocks. rewrite Hrow, Hc. cbn. by rewrite len_to_nat, Hp.
Qed.

(** Rows with the same blocks show the same blocks. *)
Lemma rows_related ts ts' gs gs' n i j : mg_rep ts gs → mg_rep ts' gs' → Forall (λ g, length g.1 = n) gs → Forall2 same_shape ts ts' → (j < n)%nat →
  (∀ g x x', gs !! g = Some x → gs' !! g = Some x' → x'.1 !! i = x.1 !! j) → (λ t, row_blocks t i) <$> ts' = (λ t, row_blocks t j) <$> ts.
Proof.
  intros Hrep Hrep' Hlen Hsh Hj Hrows. apply list_eq. intros g. rewrite !list_lookup_fmap. destruct (ts !! g) as [t|] eqn:Ht.
  - destruct (Forall2_lookup_l _ _ _ _ _ Hsh Ht) as (t' & Ht' & Hshape). rewrite Ht'. cbn. f_equal.
    destruct (Forall2_lookup_l _ _ _ _ _ Hrep Ht) as (x & Hx & Hr). destruct (Forall2_lookup_l _ _ _ _ _ Hrep' Ht') as (x' & Hx' & Hr').
    eapply Forall_lookup_1 in Hlen; [|exact Hx]. destruct (lookup_lt_is_Some_2 x.1 j) as [ids Hids]; [lia|].
    rewrite (row_blocks_rep _ _ _ _ ids Hr Hids), (row_blocks_rep _ _ _ i ids Hr') by (by rewrite (Hrows g x x')). by rewrite (kernel_ids_shape _ _ _ Hshape).
  - assert (ts' !! g = None) as -> by (apply lookup_ge_None; rewrite <-(Forall2_length _ _ _ Hsh); by apply lookup_ge_None). done.
Qed.

Lemma rows_unchanged ts ts' gs gs' n i : mg_rep ts gs → mg_rep ts' gs' → Forall (λ g, length g.1 = n) gs → Forall2 same_shape ts ts' → (i < n)%nat →
  (∀ g x x', gs !! g = Some x → gs' !! g = Some x' → x'.1 !! i = x.1 !! i) → (λ t, row_blocks t i) <$> ts' = (λ t, row_blocks t i) <$> ts.
Proof. intros Hrep Hrep' Hlen Hsh Hi Hrows. by apply (rows_related ts ts' gs gs' n i i). Qed.

Lemma shape_refl ts : Forall2 same_shape ts ts.
Proof. apply Forall2_same_length_lookup_2; [done|]. intros. by simplify_eq. Qed.

Lemma shape_trans ts1 ts2 ts3 : Forall2 same_shape ts1 ts2 → Forall2 same_shape ts2 ts3 → Forall2 same_shape ts1 ts3.
Proof.
  intros H1 H2. apply Forall2_same_length_lookup_2; [etrans; by eapply Forall2_length|]. intros i t1 t3 Ht1 Ht3.
  destruct (Forall2_lookup_l _ _ _ _ _ H1 Ht1) as (t2 & Ht2 & ?). etrans; [done|]. by eapply Forall2_lookup_lr.
Qed.

(** The tables after a change of their rows that is the same in all groups. *)
Lemma tables_step op ts gs n (src : nat → nat) : mg_rep ts gs → Forall (λ g, length g.1 = n) gs →
  (∀ t g x, row_op_fits op t g x ∨ length x ≠ n) →
  (∀ g x, length x.1 = n → length (spec_row_op op g x).1 = n ∧ ∀ i, (i < n)%nat → (spec_row_op op g x).1 !! i = x.1 !! src i) →
  ∃ ts', run_row_op op ts = (Ok tt, ts') ∧ (∃ gs', mg_rep ts' gs' ∧ Forall (λ g, length g.1 = n) gs') ∧ Forall2 same_shape ts ts' ∧
    ∀ i, (i < n)%nat → (src i < n)%nat → (λ t, row_blocks t i) <$> ts' = (λ t, row_blocks t (src i)) <$> ts.
Proof.
  intros Hrep Hlen Hfit Hspec. destruct (row_op_ok op ts gs Hrep) as (ts' & Hrun & Hrep' & Hsh).
  { intros g t x Ht Hx. destruct (Hfit t g x.1) as [|Hne]; [done|]. destruct Hne. by eapply Forall_lookup_1 in Hlen. }
  exists ts'. split_and!; [done| |done|].
  - exists (imap (spec_row_op op) gs). split; [done|]. apply Forall_lookup_2. intros g x Hx. rewrite list_lookup_imap in Hx.
    destruct (gs !! g) as [y|] eqn:Hy; [|done]. cbn in Hx. injection Hx as <-. apply Hspec. by eapply Forall_lookup_1 in Hlen.
  - intros i Hi Hs. apply (rows_related ts ts' gs (imap (spec_row_op op) gs) n i (src i) Hrep Hrep' Hlen Hsh Hs).
    intros g x x' Hx Hx'. rewrite list_lookup_imap, Hx in Hx'. cbn in Hx'. injection Hx' as <-. apply Hspec; [by eapply Forall_lookup_1 in Hlen|done].
Qed.

(** ** Rows that are copied *)

Lemma copy_tokens_ok mml n src tgt : row_wf mml src → row_wf mml tgt → 0 ≤ n ≤ mml →
  copy_tokens n src tgt = Ok (row_tokens (take (Z.to_nat n) (token_ids_cpu src) ++ drop (Z.to_nat n) (token_ids_cpu tgt))
                                         (take (Z.to_nat n) (is_token_ids src) ++ drop (Z.to_nat n) (is_token_ids tgt)) tgt).
Proof.
  intros [S1 S2] [T1 T2] Hn. unfold copy_tokens. rewrite !py_slice_to_nonneg by lia.
  assert (Hw : ∀ {A} (x y : list A), len x = mml → len y = mml → arr_write y 0 n (take (Z.to_nat n) x) = Ok (take (Z.to_nat n) x ++ drop (Z.to_nat n) y)).
  { intros A x y Hx Hy. assert (Hl : len (take (Z.to_nat n) x) = n) by (unfold len in *; rewrite length_take; lia).
    replace n with (0 + len (take (Z.to_nat n) x)) at 1 by lia. rewrite arr_write_ok by lia. change (Z.to_nat 0) with 0%nat. rewrite take_0. cbn [app Nat.add]. do 2 f_equal. f_equal. unfold len in Hl. lia. }
  rewrite !Hw by done. done.
Qed.

Lemma row_wf_copied mml n src tgt : row_wf mml src → row_wf mml tgt → 0 ≤ n ≤ mml →
  row_wf mml (row_tokens (take (Z.to_nat n) (token_ids_cpu src) ++ drop (Z.to_nat n) (token_ids_cpu tgt))
                         (take (Z.to_nat n) (is_token_ids src) ++ drop (Z.to_nat n) (is_token_ids tgt)) tgt).
Proof. intros [S1 S2] [T1 T2] Hn. split; cbn; unfold len in *; rewrite length_app, length_take, length_drop; lia. Qed.

Lemma row_wf_entries mml pooling src tgt : row_wf mml tgt → row_wf mml (copy_entries pooling src tgt).
Proof. intros [? ?]. by destruct pooling. Qed.

(** The copy of a row shows what the row showed. *)
Lemma mk_view_copied mml pooling n src tgt spec out blocks gen bad embeds embeds' : row_wf mml src → row_wf mml tgt →
  0 ≤ n ≤ mml → num_tokens_no_spec src + len spec ≤ n →
  (has_embeds src (known src) = true → embeds' = embeds) →
  let copy := copy_entries pooling src (row_tokens (take (Z.to_nat n) (token_ids_cpu src) ++ drop (Z.to_nat n) (token_ids_cpu tgt))
                                                   (take (Z.to_nat n) (is_token_ids src) ++ drop (Z.to_nat n) (is_token_ids tgt)) tgt) in
  mk_view pooling copy spec out blocks gen bad embeds' = mk_view pooling src spec out blocks gen bad embeds ∧ active copy spec = active src spec ∧
  has_embeds copy (known copy) = has_embeds src (known src).
Proof.
  intros [S1 S2] [T1 T2] Hn Hact Hemb copy.
  assert (Ha : active copy spec = active src spec) by (unfold copy, active; by destruct pooling).
  assert (Htake : ∀ {A} (x y : list A), len x = mml → take (active src spec) (take (Z.to_nat n) x ++ drop (Z.to_nat n) y) = take (active src spec) x).
  { intros A x y Hx. unfold active. rewrite take_app_le by (rewrite length_take; unfold len in *; lia). rewrite take_take. f_equal. lia. }
  assert (Ht : take (active src spec) (token_ids_cpu copy) = take (active src spec) (token_ids_cpu src)) by (unfold copy; destruct pooling; by apply Htake).
  assert (Hi : take (active src spec) (is_token_ids copy) = take (active src spec) (is_token_ids src)) by (unfold copy; destruct pooling; by apply Htake).
  assert (Hk : known copy = known src) by (unfold copy, known; by destruct pooling). pose proof (len_nonneg spec).
  assert (He : has_embeds copy (known src) = has_embeds src (known src)).
  { unfold has_embeds. apply (f_equal (take (known src))) in Hi. rewrite !take_take in Hi. replace (known src `min` active src spec)%nat with (known src) in Hi by (unfold known, active; lia). by rewrite Hi. }
  split_and!; [|done|by rewrite Hk]. unfold mk_view. rewrite Ha, Hk, Ht, Hi, He. destruct (has_embeds src (known src)); [rewrite Hemb by done|]; unfold copy; by destruct pooling.
Qed.

(** ** Swapping *)

Definition transpose (i1 i2 i : nat) : nat := if decide (i = i1) then i2 else if decide (i = i2) then i1 else i.

Lemma transpose_invol i1 i2 i : transpose i1 i2 (transpose i1 i2 i) = i.
Proof. unfold transpose. repeat case_decide; congruence. Qed.

Lemma swap_dict_lookup {V} i1 i2 (m : gmap nat V) i : swap_dict_values i1 i2 m !! i = m !! transpose i1 i2 i.
Proof.
  unfold swap_dict_values, transpose. destruct (m !! i1) as [v1|] eqn:H1, (m !! i2) as [v2|] eqn:H2; repeat case_decide; subst;
    rewrite ?lookup_insert_eq, ?lookup_delete_eq, ?lookup_insert_ne, ?lookup_delete_ne by congruence;
    rewrite ?lookup_insert_eq, ?lookup_delete_eq, ?lookup_insert_ne, ?lookup_delete_ne by congruence; congruence.
Qed.

Lemma active_count_ok b i row spec : rows b !! i = Some row → spec_token_ids (slots b) !! i = Some spec →
  get_active_token_count i b = (Ok (num_tokens_no_spec row + len spec), b).
Proof.
  intros Hr Hs. unfold get_active_token_count, get_row, bind, gets, lift. by rewrite (arr_get_ok _ _ _ Hr), (arr_get_ok _ _ _ Hs).
Qed.

(** The parts of an occupied index. *)
Lemma core_row b holes id i : ib_core b holes → req_id_to_index (slots b) !! id = Some i →
  ∃ row spec out, rows b !! i = Some row ∧ spec_token_ids (slots b) !! i = Some spec ∧ req_output_token_ids (slots b) !! i = Some out ∧
    row_wf (max_model_len b) row ∧ 0 ≤ num_tokens_no_spec row ∧ num_tokens_no_spec row + len spec ≤ max_model_len b ∧
    (i < length (req_ids_ (slots b)))%nat ∧ (i < ib_max_num_reqs b)%nat.
Proof.
  intros Hc Hid. pose proof (proj1 (ic_index _ _ Hc id i) Hid) as Hl%lookup_lt_Some.
  pose proof (ic_specs _ _ Hc). pose proof (ic_max _ _ Hc). pose proof (ic_outputs _ _ Hc). pose proof (ic_rows _ _ Hc).
  destruct (lookup_lt_is_Some_2 (rows b) i) as [row Hrow]; [lia|]. destruct (lookup_lt_is_Some_2 (spec_token_ids (slots b)) i) as [spec Hspec]; [lia|].
  destruct (lookup_lt_is_Some_2 (req_output_token_ids (slots b)) i) as [out Hout]; [lia|].
  exists row, spec, out. split_and!; [done|done|done| | | |done|lia].
  - eapply Forall_lookup_1; [exact (ic_row _ _ Hc)|done].
  - by eapply ic_fit.
  - by eapply ic_fit.
Qed.

Section swap.
Variables (b : InputBatch) (holes : list nat) (i1 i2 : nat) (id1 id2 : string).
Hypothesis Hcore : ib_core b holes.
Hypothesis H1 : req_id_to_index (slots b) !! id1 = Some i1.
Hypothesis H2 : req_id_to_index (slots b) !! id2 = Some i2.
Hypothesis Hne : i1 ≠ i2.
Let s := slots b.

Record swapped (b' : InputBatch) : Prop := {
  sw_config : is_pooling_model b' = is_pooling_model b ∧ ib_max_num_reqs b' = ib_max_num_reqs b ∧ max_model_len b' = max_model_len b ∧ vocab_size b' = vocab_size b;
  sw_ids : ∀ i, req_ids_ (slots b') !! i = req_ids_ s !! transpose i1 i2 i;
  sw_outputs : ∀ i, req_output_token_ids (slots b') !! i = req_output_token_ids s !! transpose i1 i2 i;
  sw_specs : ∀ i, spec_token_ids (slots b') !! i = spec_token_ids s !! transpose i1 i2 i;
  sw_index : ∀ id, req_id_to_index (slots b') !! id = transpose i1 i2 <$> req_id_to_index s !! id;
  sw_lengths : length (req_ids_ (slots b')) = length (req_ids_ s) ∧ length (req_output_token_ids (slots b')) = length (req_output_token_ids s) ∧
    length (spec_token_ids (slots b')) = length (spec_token_ids s) ∧ length (rows b') = length (rows b);
  sw_rows : ∀ i, i ≠ i1 → i ≠ i2 → rows b' !! i = rows b !! i;
  sw_wf : Forall (row_wf (max_model_len b)) (rows b');
  sw_tables : ∃ gs, mg_rep (tables b') gs ∧ Forall (λ g, length g.1 = ib_max_num_reqs b) gs;
  sw_by_index : by_index b' = swap_by_index (is_pooling_model b) i1 i2 (by_index b);
  sw_mask : allowed_token_ids_mask b = None → allowed_token_ids_mask b' = None;
  sw_mask_len : ∀ m, allowed_token_ids_mask b' = Some m → length m = ib_max_num_reqs b;
  sw_view : ∀ id i, req_id_to_index s !! id = Some i → view b' (transpose i1 i2 i) = view b i;
  sw_builder : batch_update_builder b' = if is_pooling_model b then batch_update_builder b else add_moved (MkMoved i1 i2 SWAP) (batch_update_builder b);
  sw_rest : by_id b' = by_id b ∧ loras b' = loras b ∧ prev_req_id_to_index b' = prev_req_id_to_index b ∧ output_lists b' = output_lists b;
  sw_shape : Forall2 same_shape (tables b) (tables b');
}.
End swap.

Lemma swap_tables ts n i1 i2 : (∃ gs, mg_rep ts gs ∧ Forall (λ g, length g.1 = n) gs) → (i1 < n)%nat → (i2 < n)%nat →
  ∃ ts', mg_swap_row i1 i2 ts = (Ok tt, ts') ∧ (∃ gs', mg_rep ts' gs' ∧ Forall (λ g, length g.1 = n) gs') ∧ Forall2 same_shape ts ts' ∧
    ∀ i, (i < n)%nat → (λ t, row_blocks t i) <$> ts' = (λ t, row_blocks t (transpose i1 i2 i)) <$> ts.
Proof.
  intros (gs & Hrep & Hlen) L1 L2. destruct (tables_step (RSwap i1 i2) ts gs n (transpose i1 i2) Hrep Hlen) as (ts' & Hrun & Hgs & Hsh & Hrows).
  - intros t g x. destruct (decide (length x = n)) as [Hx|]; [left|by right]. cbn. lia.
  - intros g [x dev] Hx. cbn in *. destruct (lookup_lt_is_Some_2 x i1) as [a Ha]; [lia|]. destruct (lookup_lt_is_Some_2 x i2) as [c Hc]; [lia|].
    rewrite Ha, Hc. cbn. split; [by rewrite !length_insert|]. intros i Hi. by rewrite (swap_lookup x i1 i2 a c).
  - exists ts'. split_and!; [exact Hrun|done|done|]. intros i Hi. apply Hrows; [done|]. unfold transpose. repeat case_decide; lia.
Qed.

(** The view of a row that was copied, in the new batch. *)
Lemma view_copied b b' mml n src tgt i j spec out : rows b !! i = Some src → spec_token_ids (slots b) !! i = Some spec → req_output_token_ids (slots b) !! i = Some out →
  row_wf mml src → row_wf mml tgt → 0 ≤ n ≤ mml → num_tokens_no_spec src + len spec ≤ n →
  is_pooling_model b' = is_pooling_model b →
  rows b' !! j = Some (copy_entries (is_pooling_model b) src (row_tokens (take (Z.to_nat n) (token_ids_cpu src) ++ drop (Z.to_nat n) (token_ids_cpu tgt))
    (take (Z.to_nat n) (is_token_ids src) ++ drop (Z.to_nat n) (is_token_ids tgt)) tgt)) →
  spec_token_ids (slots b') !! j = Some spec → req_output_token_ids (slots b') !! j = Some out →
  (λ t, row_blocks t j) <$> tables b' = (λ t, row_blocks t i) <$> tables b →
  (is_pooling_model b = false → generators (by_index b') !! j = generators (by_index b) !! i ∧ bad_words_token_ids (by_index b') !! j = bad_words_token_ids (by_index b) !! i) →
  (has_embeds src (known src) = true → req_prompt_embeds (by_index b') !! j = req_prompt_embeds (by_index b) !! i) →
  view b' j = view b i.
Proof.
  intros Hr Hs Ho Hw Hw' Hn Hact Hp Hr' Hs' Ho' Hb Hd He. unfold view. rewrite Hr, Hs, Ho, Hr', Hs', Ho', Hb, Hp. cbn [mbind option_bind]. f_equal.
  etrans; [apply (mk_view_copied mml (is_pooling_model b) n src tgt spec out _ _ _ (req_prompt_embeds (by_index b) !! i)); done|].
  unfold mk_view. destruct (is_pooling_model b); [done|]. destruct Hd as [-> ->]; done.
Qed.

(** A row that was not touched. *)
Lemma view_same b b' i : rows b' !! i = rows b !! i → spec_token_ids (slots b') !! i = spec_token_ids (slots b) !! i →
  req_output_token_ids (slots b') !! i = req_output_token_ids (slots b) !! i → is_pooling_model b' = is_pooling_model b →
  (λ t, row_blocks t i) <$> tables b' = (λ t, row_blocks t i) <$> tables b →
  (is_pooling_model b = false → generators (by_index b') !! i = generators (by_index b) !! i ∧ bad_words_token_ids (by_index b') !! i = bad_words_token_ids (by_index b) !! i) →
  req_prompt_embeds (by_index b') !! i = req_prompt_embeds (by_index b) !! i → view b' i = view b i.
Proof.
  intros Hr Hs Ho Hp Hb Hd He. unfold view. rewrite Hr, Hs, Ho, Hp, Hb, He. destruct (rows b !! i); [|done]. cbn.
  destruct (spec_token_ids (slots b) !! i); [|done]. cbn. destruct (req_output_token_ids (slots b) !! i); [|done]. cbn. f_equal.
  unfold mk_view. destruct (is_pooling_model b); [done|]. destruct Hd as [-> ->]; done.
Qed.

Lemma swap_mask_ok m i1 i2 : (i1 < length m)%nat → (i2 < length m)%nat → ∃ m', swap_mask_rows i1 i2 m = Ok m' ∧ length m' = length m.
Proof.
  intros L1 L2. destruct (lookup_lt_is_Some_2 m i2 L2) as [r2 Hr2]. unfold swap_mask_rows. rewrite (arr_get_ok _ _ _ Hr2). cbn.
  rewrite arr_set_ok by done. cbn. rewrite (arr_get_ok _ _ r2) by (by rewrite list_lookup_insert_eq). cbn.
  rewrite arr_set_ok by (by rewrite length_insert). eexists. split; [done|]. by rewrite !length_insert.
Qed.

(** Two batches with equal parts are equal. *)
Lemma batch_eq (b b' : InputBatch) : is_pooling_model b = is_pooling_model b' → ib_max_num_reqs b = ib_max_num_reqs b' → max_model_len b = max_model_len b' →
  vocab_size b = vocab_size b' → slots b = slots b' → rows b = rows b' → tables b = tables b' → by_id b = by_id b' → by_index b = by_index b' → loras b = loras b' →
  allowed_token_ids_mask b = allowed_token_ids_mask b' → batch_update_builder b = batch_update_builder b' → prev_req_id_to_index b = prev_req_id_to_index b' →
  output_lists b = output_lists b' → b = b'.
Proof. destruct b, b'. cbn. intros. by subst. Qed.

(** Row [tgt] with [n] tokens and the entries of [src]. *)
Definition copied_row (pooling : bool) (n : Z) (src tgt : Row) : Row :=
  copy_entries pooling src (row_tokens (take (Z.to_nat n) (token_ids_cpu src) ++ drop (Z.to_nat n) (token_ids_cpu tgt))
    (take (Z.to_nat n) (is_token_ids src) ++ drop (Z.to_nat n) (is_token_ids tgt)) tgt).

Lemma copied_row_wf mml pooling n src tgt : row_wf mml src → row_wf mml tgt → 0 ≤ n ≤ mml → row_wf mml (copied_row pooling n src tgt).
Proof. intros. apply row_wf_entries. by apply row_wf_copied. Qed.

(** The batch after a swap. *)
Definition swap_result (b : InputBatch) (i1 i2 : nat) (id1 id2 : string) (r1 r2 : Row) (s1 s2 : list Z) (o1 o2 : option nat) (n : Z)
    (ts : MultiGroupBlockTable) (m : option (list (list bool))) : InputBatch :=
  let p := is_pooling_model b in
  MkBatch p (ib_max_num_reqs b) (max_model_len b) (vocab_size b)
    (MkSlots (<[i2 := Some id1]> (<[i1 := Some id2]> (req_ids_ (slots b)))) (<[i2 := o1]> (<[i1 := o2]> (req_output_token_ids (slots b))))
      (<[i2 := s1]> (<[i1 := s2]> (spec_token_ids (slots b)))) (<[id2 := i1]> (<[id1 := i2]> (req_id_to_index (slots b)))))
    (<[i2 := copied_row p n r1 r2]> (<[i1 := copied_row p n r2 r1]> (rows b))) ts (by_id b) (swap_by_index p i1 i2 (by_index b)) (loras b)
    (if p then allowed_token_ids_mask b else m) (if p then batch_update_builder b else add_moved (MkMoved i1 i2 SWAP) (batch_update_builder b))
    (prev_req_id_to_index b) (output_lists b).

Lemma swap_tail b2 (p : bool) i1 i2 m' : swap_mask_rows i1 i2 <$> allowed_token_ids_mask b2 = Ok <$> m' →
  (if p then ret tt else on_builder (modify (add_moved (MkMoved i1 i2 SWAP))) ;;; on_mask (swap_mask_rows i1 i2)) b2 =
  (Ok tt, set_mask (if p then allowed_token_ids_mask b2 else m')
            (set_builder (if p then batch_update_builder b2 else add_moved (MkMoved i1 i2 SWAP) (batch_update_builder b2)) b2)).
Proof.
  intros Hm. destruct p; [by destruct b2|]. unfold on_mask, on_builder, zoom, bind, gets, lift, modify. cbn.
  destruct (allowed_token_ids_mask b2) as [m|] eqn:Hb, m' as [m1|]; try done; cbn in Hm; [injection Hm as ->; done|].
  f_equal. by apply batch_eq.
Qed.

Section swap_run.
Variables (b : InputBatch) (holes : list nat) (i1 i2 : nat) (id1 id2 : string) (r1 r2 : Row) (s1 s2 : list Z) (o1 o2 : option nat).
Hypothesis Hc : ib_core b holes.
Hypothesis H1 : req_id_to_index (slots b) !! id1 = Some i1.
Hypothesis H2 : req_id_to_index (slots b) !! id2 = Some i2.
Hypothesis Hne : i1 ≠ i2.
Hypotheses (R1 : rows b !! i1 = Some r1) (R2 : rows b !! i2 = Some r2).
Hypotheses (S1 : spec_token_ids (slots b) !! i1 = Some s1) (S2 : spec_token_ids (slots b) !! i2 = Some s2).
Hypotheses (O1 : req_output_token_ids (slots b) !! i1 = Some o1) (O2 : req_output_token_ids (slots b) !! i2 = Some o2).
Let p := is_pooling_model b.
Let n := Z.max (num_tokens_no_spec r1 + len s1) (num_tokens_no_spec r2 + len s2).

Lemma swap_bounds : 0 ≤ n ≤ max_model_len b ∧ row_wf (max_model_len b) r1 ∧ row_wf (max_model_len b) r2 ∧ (i1 < ib_max_num_reqs b)%nat ∧ (i2 < ib_max_num_reqs b)%nat.
Proof using All.
  destruct (core_row _ _ _ _ Hc H1) as (r1' & s1' & o1' & R1' & S1' & _ & W1 & N1 & M1 & _ & X1).
  destruct (core_row _ _ _ _ Hc H2) as (r2' & s2' & o2' & R2' & S2' & _ & W2 & N2 & M2 & _ & X2). simplify_eq.
  split_and!; try done; unfold n; pose proof (len_nonneg s1); lia.
Qed.

Lemma swap_run ts' m' : mg_swap_row i1 i2 (tables b) = (Ok tt, ts') → swap_mask_rows i1 i2 <$> allowed_token_ids_mask b = Ok <$> m' →
  swap_states i1 i2 b = (Ok tt, swap_result b i1 i2 id1 id2 r1 r2 s1 s2 o1 o2 n ts' m').
Proof using All.
  intros Hts Hm. destruct swap_bounds as (Hn & W1 & W2 & X1 & X2).
  pose proof (proj1 (ic_index _ _ Hc _ _) H1) as I1. pose proof (proj1 (ic_index _ _ Hc _ _) H2) as I2.
  assert (Hrows : swap_rows p n i1 i2 (rows b) = Ok (<[i2 := copied_row p n r1 r2]> (<[i1 := copied_row p n r2 r1]> (rows b)))).
  { unfold swap_rows. rewrite (arr_get_ok _ _ _ R1), (arr_get_ok _ _ _ R2). cbn. by rewrite (copy_tokens_ok _ _ _ _ W2 W1 Hn), (copy_tokens_ok _ _ _ _ W1 W2 Hn). }
  assert (Hidx : swap_index (Some id1) (Some id2) (req_id_to_index (slots b)) = Ok (<[id2 := i1]> (<[id1 := i2]> (req_id_to_index (slots b))))) by (unfold swap_index; by rewrite H1, H2).
  unfold swap_states. unfold bind at 1, gets at 1. run (lift_ok _ _ b (arr_get_ok _ _ _ I1)). run (lift_ok _ _ b (arr_get_ok _ _ _ I2)).
  run (active_count_ok b i1 r1 s1 R1 S1). run (active_count_ok b i2 r2 s2 R2 S2).
  run (on_list_ok (λ b, req_ids_ (slots b)) (λ l, upd_slots (set_ids l)) (λ l, arr_swap l i1 i2) b _ (arr_swap_ok _ _ _ _ _ I1 I2)).
  erewrite bind_ok by (apply on_list_ok; by apply arr_swap_ok). erewrite bind_ok by (apply on_list_ok; by apply arr_swap_ok).
  erewrite bind_ok by (apply on_list_ok; exact Hidx). unfold bind at 1, gets at 1.
  erewrite bind_ok by (apply on_list_ok; exact Hrows). erewrite bind_ok by (apply zoom_ok; exact Hts).
  erewrite bind_ok by exact eq_refl. cbn beta iota. match goal with |- (if is_pooling_model ?x then _ else _) ?B = _ => set (b2 := B); change (is_pooling_model x) with p end.
  rewrite (swap_tail b2 p i1 i2 m' Hm). exact eq_refl.
Qed.

Lemma swap_result_ok ts' m' : (∃ gs', mg_rep ts' gs' ∧ Forall (λ g, length g.1 = ib_max_num_reqs b) gs') →
  (∀ i, (i < ib_max_num_reqs b)%nat → (λ t, row_blocks t i) <$> ts' = (λ t, row_blocks t (transpose i1 i2 i)) <$> tables b) →
  (allowed_token_ids_mask b = None → m' = None) → (∀ m, m' = Some m → length m = ib_max_num_reqs b) → Forall2 same_shape (tables b) ts' →
  swapped b i1 i2 (swap_result b i1 i2 id1 id2 r1 r2 s1 s2 o1 o2 n ts' m').
Proof using All.
  intros Hgs Hblk Hm0 Hml Hsh. destruct swap_bounds as (Hn & W1 & W2 & X1 & X2).
  pose proof (proj1 (ic_index _ _ Hc _ _) H1) as I1. pose proof (proj1 (ic_index _ _ Hc _ _) H2) as I2.
  assert (Hid : id1 ≠ id2) by congruence. pose proof (lookup_lt_Some _ _ _ R1) as LR1. pose proof (lookup_lt_Some _ _ _ R2) as LR2.
  pose proof (lookup_lt_Some _ _ _ S1). pose proof (lookup_lt_Some _ _ _ S2). pose proof (lookup_lt_Some _ _ _ O1). pose proof (lookup_lt_Some _ _ _ O2). split; cbn.
  - done.
  - intros i. by apply swap_lookup.
  - intros i. by apply swap_lookup.
  - intros i. by apply swap_lookup.
  - intros id. unfold transpose. destruct (decide (id = id2)) as [->|E2]; [rewrite lookup_insert_eq, H2; cbn; by repeat case_decide|].
    rewrite lookup_insert_ne by done. destruct (decide (id = id1)) as [->|E1]; [rewrite lookup_insert_eq, H1; cbn; by rewrite decide_True|].
    rewrite lookup_insert_ne by done. destruct (req_id_to_index (slots b) !! id) as [i|] eqn:Hi; [|done]. cbn.
    rewrite !decide_False; [done| |]; intros ->; apply (ic_index _ _ Hc) in Hi; congruence.
  - by rewrite !length_insert.
  - intros i E1 E2. by rewrite !list_lookup_insert_ne.
  - apply Forall_insert; [apply Forall_insert; [exact (ic_row _ _ Hc)|by apply copied_row_wf]|by apply copied_row_wf].
  - exact Hgs.
  - done.
  - intros Hb. rewrite Hb, Hm0 by done. by destruct (is_pooling_model b).
  - pose proof (ic_mask _ _ Hc). destruct (is_pooling_model b); [done|exact Hml].
  - intros id i Hi. destruct (core_row _ _ _ _ Hc Hi) as (r & sp & o & Hr & Hs & Ho & W & N & M & _ & X).
    assert (Hdict : p = false → generators (swap_by_index p i1 i2 (by_index b)) !! transpose i1 i2 i = generators (by_index b) !! i ∧
      bad_words_token_ids (swap_by_index p i1 i2 (by_index b)) !! transpose i1 i2 i = bad_words_token_ids (by_index b) !! i).
    { intros ->. cbn. by rewrite !swap_dict_lookup, transpose_invol. }
    assert (Hemb : req_prompt_embeds (swap_by_index p i1 i2 (by_index b)) !! transpose i1 i2 i = req_prompt_embeds (by_index b) !! i).
    { cbn. by rewrite swap_dict_lookup, transpose_invol. }
    assert (Hb : (λ t, row_blocks t (transpose i1 i2 i)) <$> ts' = (λ t, row_blocks t i) <$> tables b).
    { rewrite Hblk, transpose_invol; [done|]. unfold transpose. repeat case_decide; lia. }
    destruct (decide (i = i1)) as [->|E1]; [|destruct (decide (i = i2)) as [->|E2]].
    + assert (Ht : transpose i1 i2 i1 = i2) by (unfold transpose; by rewrite decide_True). rewrite Ht in *. simplify_eq.
      eapply (view_copied b _ (max_model_len b) n r1 r2 i1 i2 s1 o1); try done; [unfold n; lia|..]; cbn; by rewrite list_lookup_insert_eq by (rewrite length_insert; lia).
    + assert (Ht : transpose i1 i2 i2 = i1) by (unfold transpose; rewrite decide_False by done; by rewrite decide_True). rewrite Ht in *. simplify_eq.
      eapply (view_copied b _ (max_model_len b) n r2 r1 i2 i1 s2 o2); try done; [unfold n; lia|..]; cbn; rewrite list_lookup_insert_ne by done; by rewrite list_lookup_insert_eq by lia.
    + assert (Ht : transpose i1 i2 i = i) by (unfold transpose; by rewrite !decide_False). rewrite Ht in *.
      apply view_same; cbn; rewrite ?list_lookup_insert_ne by done; done.
  - done.
  - done.
  - done.
Qed.
End swap_run.

Lemma swap_states_ok b holes i1 i2 id1 id2 : ib_core b holes → req_id_to_index (slots b) !! id1 = Some i1 → req_id_to_index (slots b) !! id2 = Some i2 → i1 ≠ i2 →
  ∃ b', swap_states i1 i2 b = (Ok tt, b') ∧ swapped b i1 i2 b'.
Proof.
  intros Hc H1 H2 Hne. destruct (core_row _ _ _ _ Hc H1) as (r1 & s1 & o1 & R1 & S1 & O1 & _ & _ & _ & _ & X1).
  destruct (core_row _ _ _ _ Hc H2) as (r2 & s2 & o2 & R2 & S2 & O2 & _ & _ & _ & _ & X2).
  destruct (swap_tables (tables b) (ib_max_num_reqs b) i1 i2 (ic_tables _ _ Hc) X1 X2) as (ts' & Hts & Hgs & Hsh & Hblk).
  assert (Hm : ∃ m', swap_mask_rows i1 i2 <$> allowed_token_ids_mask b = Ok <$> m' ∧ (allowed_token_ids_mask b = None → m' = None) ∧ ∀ m, m' = Some m → length m = ib_max_num_reqs b).
  { pose proof (ic_mask _ _ Hc) as Hml. destruct (allowed_token_ids_mask b) as [m|]; [|by exists None]. specialize (Hml m eq_refl).
    destruct (swap_mask_ok m i1 i2) as (m' & Hm' & Hl'); [lia|lia|]. exists (Some m'). cbn. rewrite Hm'. split_and!; [done|done|intros ? [= <-]; lia]. }
  destruct Hm as (m' & Hm & Hm0 & Hml). eexists. split; [by apply (swap_run b holes i1 i2 id1 id2 r1 r2 s1 s2 o1 o2) with (ts' := ts') (m' := m')|].
  by apply (swap_result_ok b holes).
Qed.

(** ** The invariant in terms of views *)

(** A view that fits the row and has the embeddings it needs. *)
Definition view_ok (mml : Z) (v : ReqView) : Prop :=
  0 ≤ v.(v_counts).1.1 ∧ v.(v_counts).1.1 + len v.(v_spec) ≤ mml ∧ (existsb negb (take (Z.to_nat v.(v_counts).1.1) v.(v_is_token)) = true → is_Some v.(v_embeds)).

Lemma view_parts b i row spec out : rows b !! i = Some row → spec_token_ids (slots b) !! i = Some spec → req_output_token_ids (slots b) !! i = Some out →
  ∃ v, view b i = Some v ∧ v_counts v = (num_tokens_no_spec row, num_prompt_tokens row, num_computed_tokens_cpu row) ∧ v_spec v = spec ∧
    existsb negb (take (Z.to_nat (v_counts v).1.1) (v_is_token v)) = has_embeds row (known row) ∧
    v_embeds v = if has_embeds row (known row) then req_prompt_embeds (by_index b) !! i else None.
Proof.
  intros Hr Hs Ho. unfold view. rewrite Hr, Hs, Ho. cbn. eexists. split_and!; [done|done|done| |done]. cbn. unfold has_embeds, known, active. pose proof (len_nonneg spec).
  rewrite take_take. do 2 f_equal. lia.
Qed.

Lemma core_view b holes id i : ib_core b holes → req_id_to_index (slots b) !! id = Some i → ∃ v, view b i = Some v ∧ view_ok (max_model_len b) v.
Proof.
  intros Hc Hi. destruct (core_row _ _ _ _ Hc Hi) as (row & spec & out & Hr & Hs & Ho & W & N & M & _ & _).
  destruct (view_parts b i row spec out Hr Hs Ho) as (v & Hv & E1 & E2 & E3 & E4). exists v. split; [done|]. unfold view_ok. rewrite E3, E1, E2, E4. cbn.
  split_and!; [done|done|]. intros He. rewrite He. by eapply ic_embeds.
Qed.

(** What is left to show of the invariant when the views are right. *)
Lemma view_ok_parts b i row spec v : view b i = Some v → view_ok (max_model_len b) v → rows b !! i = Some row → spec_token_ids (slots b) !! i = Some spec →
  0 ≤ num_tokens_no_spec row ∧ num_tokens_no_spec row + len spec ≤ max_model_len b ∧
  (has_embeds row (known row) = true → is_Some (req_prompt_embeds (by_index b) !! i)).
Proof.
  intros Hv Hok Hr Hs. assert (∃ out, req_output_token_ids (slots b) !! i = Some out) as [out Ho].
  { unfold view in Hv. rewrite Hr, Hs in Hv. destruct (req_output_token_ids (slots b) !! i); [eauto|done]. }
  destruct (view_parts b i row spec out Hr Hs Ho) as (v' & Hv' & E1 & E2 & E3 & E4). simplify_eq. unfold view_ok in Hok. rewrite E3, E1, E4 in Hok. cbn in Hok.
  destruct Hok as (A & B & C). split_and!; [done|done|]. intros He. specialize (C He). by rewrite He in C.
Qed.

Lemma swapped_core b b' holes i1 i2 id1 id2 : ib_core b holes → req_id_to_index (slots b) !! id1 = Some i1 → req_id_to_index (slots b) !! id2 = Some i2 →
  swapped b i1 i2 b' → ib_core b' holes.
Proof.
  intros Hc H1 H2 [ (P1 & P2 & P3 & P4) Hids Hout Hspec Hidx (L1 & L2 & L3 & L4) Hrows Hwf Htab Hby Hm0 Hml Hview _ _ _].
  pose proof (proj1 (ic_index _ _ Hc _ _) H1) as I1. pose proof (proj1 (ic_index _ _ Hc _ _) H2) as I2.
  assert (T : ∀ i, transpose i1 i2 i = i ∨ i = i1 ∧ transpose i1 i2 i = i2 ∨ i = i2 ∧ transpose i1 i2 i = i1) by (intros i; unfold transpose; repeat case_decide; auto).
  pose proof (lookup_lt_Some _ _ _ I1) as X1. pose proof (lookup_lt_Some _ _ _ I2) as X2.
  assert (Hback : ∀ id i, req_id_to_index (slots b') !! id = Some i → ∃ j, req_id_to_index (slots b) !! id = Some j ∧ i = transpose i1 i2 j).
  { intros id i. rewrite Hidx. destruct (req_id_to_index (slots b) !! id) as [j|]; [|done]. intros [= <-]. eauto. }
  assert (Hvok : ∀ id i, req_id_to_index (slots b') !! id = Some i → ∃ v, view b' i = Some v ∧ view_ok (max_model_len b) v).
  { intros id i Hi. destruct (Hback id i Hi) as (j & Hj & ->). rewrite (Hview id j Hj). by eapply core_view. }
  split.
  - rewrite L1, L2. by apply ic_outputs in Hc.
  - rewrite L1, L3. by apply ic_specs in Hc.
  - rewrite L1, P2. by apply ic_max in Hc.
  - intros i l Hi. rewrite Hspec. rewrite L1 in Hi. destruct (T i) as [->|[[-> _]|[-> _]]]; [by apply (ic_beyond _ _ Hc)|lia|lia].
  - intros id i. rewrite Hids, Hidx. split.
    + destruct (req_id_to_index (slots b) !! id) as [j|] eqn:Hj; [|done]. intros [= <-]. rewrite transpose_invol. by apply (ic_index _ _ Hc).
    + intros Hi%(ic_index _ _ Hc). rewrite Hi. cbn. by rewrite transpose_invol.
  - intros i. rewrite Hids, (ic_holes _ _ Hc). destruct (T i) as [->|[[-> ->]|[-> ->]]]; [done|by rewrite I1, I2|by rewrite I1, I2].
  - by apply ic_nodup in Hc.
  - rewrite L4, P2. by apply ic_rows in Hc.
  - by rewrite P3.
  - intros id i row spec Hi Hr Hs. destruct (Hvok id i Hi) as (v & Hv & Hok). rewrite <-P3 in Hok. destruct (view_ok_parts _ _ _ _ _ Hv Hok Hr Hs) as (? & ? & ?). done.
  - by rewrite P2.
  - rewrite P1, Hby. intros Hp i. rewrite Hp. cbn. rewrite !swap_dict_lookup, Hids. by apply ic_dicts with (1 := Hc).
  - by rewrite P2.
  - intros id i row spec Hi Hr Hs. destruct (Hvok id i Hi) as (v & Hv & Hok). rewrite <-P3 in Hok. destruct (view_ok_parts _ _ _ _ _ Hv Hok Hr Hs) as (? & ? & ?). done.
Qed.

(** ** Moving a request down *)

Lemma move_tables ts n src tgt : (∃ gs, mg_rep ts gs ∧ Forall (λ g, length g.1 = n) gs) → (src < n)%nat → (tgt < n)%nat →
  ∃ ts', mg_move_row src tgt ts = (Ok tt, ts') ∧ (∃ gs', mg_rep ts' gs' ∧ Forall (λ g, length g.1 = n) gs') ∧ Forall2 same_shape ts ts' ∧
    ∀ i, (i < n)%nat → (λ t, row_blocks t i) <$> ts' = (λ t, row_blocks t (if decide (i = tgt) then src else i)) <$> ts.
Proof.
  intros (gs & Hrep & Hlen) L1 L2. destruct (tables_step (RMove src tgt) ts gs n (λ i, if decide (i = tgt) then src else i) Hrep Hlen) as (ts' & Hrun & Hgs & Hsh & Hrows).
  - intros t g x. destruct (decide (length x = n)) as [Hx|]; [left|by right]. cbn. lia.
  - intros g [x dev] Hx. cbn in *. destruct (lookup_lt_is_Some_2 x src) as [a Ha]; [lia|]. rewrite Ha. cbn. split; [by rewrite length_insert|].
    intros i Hi. case_decide as Heq; [subst i; by rewrite list_lookup_insert_eq by lia|by rewrite list_lookup_insert_ne].
  - exists ts'. split_and!; [exact Hrun|done|done|]. intros i Hi. apply Hrows; [done|]. case_decide; lia.
Qed.

Lemma move_dict_lookup {V} src tgt (m : gmap nat V) i : src ≠ tgt → m !! tgt = None →
  move_dict_value src tgt m !! i = if decide (i = tgt) then m !! src else if decide (i = src) then None else m !! i.
Proof.
  intros Hne Ht. unfold move_dict_value. destruct (m !! src) as [v|] eqn:Hs.
  - destruct (decide (i = tgt)) as [->|]; [by rewrite lookup_insert_eq|]. rewrite lookup_insert_ne by done. case_decide as E; [subst i; by rewrite lookup_delete_eq|by rewrite lookup_delete_ne].
  - repeat case_decide; subst; done.
Qed.

Lemma move_tail b2 (p : bool) last empty m' : (λ m, arr_move m last empty) <$> allowed_token_ids_mask b2 = Ok <$> m' →
  (if p then ret tt else on_builder (modify (add_moved (MkMoved last empty UNIDIRECTIONAL))) ;;; on_mask (λ m, arr_move m last empty)) b2 =
  (Ok tt, set_mask (if p then allowed_token_ids_mask b2 else m')
            (set_builder (if p then batch_update_builder b2 else add_moved (MkMoved last empty UNIDIRECTIONAL) (batch_update_builder b2)) b2)).
Proof.
  intros Hm. destruct p; [by destruct b2|]. unfold on_mask, on_builder, zoom, bind, gets, lift, modify. cbn.
  destruct (allowed_token_ids_mask b2) as [m|] eqn:Hb, m' as [m1|]; try done; cbn in Hm; [injection Hm as ->; done|].
  f_equal. by apply batch_eq.
Qed.

(** The builder when the lowest removed index is taken. *)
Lemma pop_removed_ok u l i : is_removed_sorted u = true → removed_ u = l ++ [i] →
  pop_removed u = (Ok (Some i), MkBuilder l true (added u) (moved u) (batch_changed u)).
Proof.
  intros Hs Hl. unfold pop_removed, has_removed, ensure_removed_sorted. rewrite Hs, Hl, bool_decide_false by (by destruct l). cbn.
  by rewrite Hs, last_snoc, removelast_last.
Qed.

(** The batch after a move; [n] tokens were copied. *)
Definition move_result (b : InputBatch) (last empty : nat) (id : string) (rl re : Row) (sl : list Z) (o : option nat) (n : Z)
    (ts : MultiGroupBlockTable) (m : option (list (list bool))) (l : list nat) : InputBatch :=
  let p := is_pooling_model b in
  let u := batch_update_builder b in
  let u := MkBuilder l true (added u) (moved u) (batch_changed u) in
  MkBatch p (ib_max_num_reqs b) (max_model_len b) (vocab_size b)
    (MkSlots (<[last := None]> (<[empty := Some id]> (req_ids_ (slots b)))) (<[last := None]> (<[empty := o]> (req_output_token_ids (slots b))))
      (<[last := []]> (<[empty := sl]> (spec_token_ids (slots b)))) (<[id := empty]> (req_id_to_index (slots b))))
    (<[empty := copied_row p n rl re]> (rows b)) ts (by_id b) (move_by_index p last empty (by_index b)) (loras b)
    (if p then allowed_token_ids_mask b else m) (if p then u else add_moved (MkMoved last empty UNIDIRECTIONAL) u)
    (prev_req_id_to_index b) (output_lists b).

Section move.
Variables (b : InputBatch) (holes l : list nat) (last empty : nat) (id : string) (rl re : Row) (sl se : list Z) (o : option nat).
Hypothesis Hc : ib_core b holes.
Hypothesis Hid : req_id_to_index (slots b) !! id = Some last.
Hypothesis Hempty : empty ∈ holes.
Hypotheses (RL : rows b !! last = Some rl) (RE : rows b !! empty = Some re) (SL : spec_token_ids (slots b) !! last = Some sl)
  (SE : spec_token_ids (slots b) !! empty = Some se) (OL : req_output_token_ids (slots b) !! last = Some o).
Let p := is_pooling_model b.
Let n := num_tokens_no_spec rl + len sl.

Lemma move_bounds : 0 ≤ n ≤ max_model_len b ∧ row_wf (max_model_len b) rl ∧ row_wf (max_model_len b) re ∧ (last < ib_max_num_reqs b)%nat ∧
  (empty < ib_max_num_reqs b)%nat ∧ last ≠ empty ∧ (empty < length (req_ids_ (slots b)))%nat ∧ req_ids_ (slots b) !! last = Some (Some id) ∧ req_ids_ (slots b) !! empty = Some None.
Proof using All.
  destruct (core_row _ _ _ _ Hc Hid) as (r' & s' & o' & R' & S' & _ & W & N & M & _ & X). simplify_eq.
  pose proof (proj1 (ic_index _ _ Hc _ _) Hid) as IL. pose proof (proj1 (ic_holes _ _ Hc _) Hempty) as IE. pose proof (lookup_lt_Some _ _ _ IE). pose proof (ic_max _ _ Hc).
  split_and!; try done; try (unfold n; pose proof (len_nonneg sl); lia).
  - eapply Forall_lookup_1; [exact (ic_row _ _ Hc)|done].
  - intros ->. congruence.
Qed.

Lemma move_run ts' m' : is_removed_sorted (batch_update_builder b) = true → removed_ (batch_update_builder b) = l ++ [empty] →
  mg_move_row last empty (tables b) = (Ok tt, ts') → (λ m, arr_move m last empty) <$> allowed_token_ids_mask b = Ok <$> m' →
  move_down last empty b = (Ok tt, move_result b last empty id rl re sl o n ts' m' l).
Proof using All.
  intros Hsort Hrem Hts Hm. destruct move_bounds as (Hn & W1 & W2 & X1 & X2 & Hne & XE & IL & IE).
  assert (XO : (empty < length (req_output_token_ids (slots b)))%nat) by (rewrite (ic_outputs _ _ Hc); done).
  pose proof (lookup_lt_Some _ _ _ OL) as XL. pose proof (lookup_lt_Some _ _ _ IL) as XI. pose proof (lookup_lt_Some _ _ _ SL) as XS. pose proof (lookup_lt_Some _ _ _ SE) as XSE.
  assert (Hrows : move_row_entries p n last empty (rows b) = Ok (<[empty := copied_row p n rl re]> (rows b))).
  { unfold move_row_entries. rewrite (arr_get_ok _ _ _ RL), (arr_get_ok _ _ _ RE). cbn. by rewrite (copy_tokens_ok _ _ _ _ W1 W2 Hn). }
  unfold move_down. erewrite bind_ok by (apply zoom_ok; by apply pop_removed_ok).
  erewrite bind_ok by exact eq_refl. erewrite bind_ok by (apply lift_ok, arr_get_ok; exact IL).
  erewrite bind_ok by exact eq_refl. erewrite bind_ok by (apply lift_ok, arr_get_ok; exact OL). cbn beta iota.
  erewrite bind_ok; [|apply on_list_ok; rewrite arr_set_ok by exact XE; cbn; apply arr_set_ok; rewrite length_insert; exact XI].
  erewrite bind_ok; [|apply on_list_ok; rewrite arr_set_ok by exact XO; cbn; apply arr_set_ok; rewrite length_insert; exact XL].
  erewrite bind_ok by exact eq_refl. erewrite bind_ok by (by apply active_count_ok).
  erewrite bind_ok; [|apply on_list_ok; erewrite arr_swap_ok by eassumption; cbn; apply arr_set_ok; rewrite !length_insert; exact XS].
  erewrite bind_ok by exact eq_refl. erewrite bind_ok by (apply on_list_ok; exact Hrows). erewrite bind_ok by (apply zoom_ok; exact Hts).
  erewrite bind_ok by exact eq_refl. cbn beta iota. match goal with |- (if is_pooling_model ?x then _ else _) ?B = _ => set (b2 := B); change (is_pooling_model x) with p end.
  rewrite (move_tail b2 p last empty m' Hm). unfold b2, move_result. f_equal. apply batch_eq; try exact eq_refl. cbn.
  f_equal. rewrite (list_insert_insert_ne _ empty last) by done. by rewrite list_insert_insert_eq.
Qed.

(** Nothing is lost when requests change places: the same requests, with the same
    views, and no mask when there was none.  The rows of the mask are not part of
    the views; [mask_kept] is the statement about them. *)
Record rearranged (b b' : InputBatch) : Prop := {
  ra_config : is_pooling_model b' = is_pooling_model b ∧ ib_max_num_reqs b' = ib_max_num_reqs b ∧ max_model_len b' = max_model_len b ∧ vocab_size b' = vocab_size b;
  ra_rest : by_id b' = by_id b ∧ loras b' = loras b ∧ prev_req_id_to_index b' = prev_req_id_to_index b ∧ output_lists b' = output_lists b;
  ra_shape : Forall2 same_shape (tables b) (tables b');
  ra_dom : ∀ id, is_Some (req_id_to_index (slots b') !! id) ↔ is_Some (req_id_to_index (slots b) !! id);
  ra_view : ∀ id i i', req_id_to_index (slots b) !! id = Some i → req_id_to_index (slots b') !! id = Some i' → view b' i' = view b i;
  ra_mask : allowed_token_ids_mask b = None → allowed_token_ids_mask b' = None;
}.

(** The rows of the mask go with the requests. *)
Definition mask_kept (b b' : InputBatch) : Prop := is_pooling_model b = false → 
  ∀ id i i', req_id_to_index (slots b) !! id = Some i → req_id_to_index (slots b') !! id = Some i' → mask_row b' i' = mask_row b i.

Let b' ts' m' := move_result b last empty id rl re sl o n ts' m' l.

Lemma move_ids ts' m' i : req_ids_ (slots (b' ts' m')) !! i = if decide (i = last) then Some None else if decide (i = empty) then Some (Some id) else req_ids_ (slots b) !! i.
Proof using All.
  destruct move_bounds as (_ & _ & _ & _ & _ & Hne & XE & IL & IE). apply lookup_lt_Some in IL. cbn.
  case_decide as E; [subst i; by rewrite list_lookup_insert_eq by (rewrite length_insert; lia)|]. rewrite list_lookup_insert_ne by done.
  case_decide as E2; [subst i; by rewrite list_lookup_insert_eq by lia|by rewrite list_lookup_insert_ne].
Qed.

Lemma move_index ts' m' id' i : req_id_to_index (slots (b' ts' m')) !! id' = Some i →
  id' = id ∧ i = empty ∨ id' ≠ id ∧ req_id_to_index (slots b) !! id' = Some i ∧ i ≠ last ∧ i ≠ empty.
Proof using All.
  destruct move_bounds as (_ & _ & _ & _ & _ & Hne & XE & IL & IE). cbn. destruct (decide (id' = id)) as [->|E]; [rewrite lookup_insert_eq; intros [= <-]; by left|].
  rewrite lookup_insert_ne by done. intros Hi. right. split_and!; [done|done| |]; intros ->; apply (ic_index _ _ Hc) in Hi; congruence.
Qed.

Lemma move_embeds_free : p = false → generators (by_index b) !! empty = None ∧ bad_words_token_ids (by_index b) !! empty = None.
Proof using All.
  intros Hp. destruct move_bounds as (_ & _ & _ & _ & _ & Hne & XE & IL & IE). pose proof (ic_dicts _ _ Hc Hp empty) as Hd.
  split; apply eq_None_not_Some; intros Hs; destruct Hd as [x Hx]; auto; congruence.
Qed.

Section result.
Variables (ts' : MultiGroupBlockTable) (m' : option (list (list bool))).
Hypothesis Hgs : ∃ gs', mg_rep ts' gs' ∧ Forall (λ g, length g.1 = ib_max_num_reqs b) gs'.
Hypothesis Hsh : Forall2 same_shape (tables b) ts'.
Hypothesis Hblk : ∀ i, (i < ib_max_num_reqs b)%nat → (λ t, row_blocks t i) <$> ts' = (λ t, row_blocks t (if decide (i = empty) then last else i)) <$> tables b.
Hypothesis Hm : (λ m, arr_move m last empty) <$> allowed_token_ids_mask b = Ok <$> m'.

Lemma move_view id' i : req_id_to_index (slots (b' ts' m')) !! id' = Some i → 
  ∃ j, req_id_to_index (slots b) !! id' = Some j ∧ view (b' ts' m') i = view b j.
Proof using All.
  intros Hi. destruct move_bounds as (Hn & W1 & W2 & X1 & X2 & Hne & XE & IL & IE).
  assert (Hdict : ∀ j, j ≠ last → p = false → generators (move_by_index p last empty (by_index b)) !! j = generators (by_index b) !! (if decide (j = empty) then last else j) ∧
    bad_words_token_ids (move_by_index p last empty (by_index b)) !! j = bad_words_token_ids (by_index b) !! (if decide (j = empty) then last else j)).
  { intros j Hj Hp. destruct (move_embeds_free Hp) as [G1 G2]. rewrite Hp. cbn. rewrite !move_dict_lookup by done. split; repeat case_decide; done. }
  pose proof (lookup_lt_Some _ _ _ OL). pose proof (lookup_lt_Some _ _ _ SE). pose proof (lookup_lt_Some _ _ _ RE). pose proof (ic_outputs _ _ Hc).
  destruct (move_index _ _ _ _ Hi) as [[-> ->]|(Hid' & Hi' & N1 & N2)].
  - exists last. split; [done|]. eapply (view_copied b (b' ts' m') (max_model_len b) n rl re last empty sl o); try done; cbn.
    + by rewrite list_lookup_insert_eq by lia.
    + rewrite list_lookup_insert_ne by done. by rewrite list_lookup_insert_eq by lia.
    + rewrite list_lookup_insert_ne by done. by rewrite list_lookup_insert_eq by lia.
    + rewrite Hblk by done. by rewrite decide_True.
    + intros Hp. destruct (Hdict empty ltac:(done) Hp) as [D1 D2]. rewrite decide_True in D1, D2 by done. done.
    + intros He. destruct (ic_embeds _ _ Hc _ _ _ _ Hid RL SL He) as [e Hemb]. unfold move_dict_value. by rewrite Hemb, lookup_insert_eq.
  - exists i. split; [done|]. destruct (core_row _ _ _ _ Hc Hi') as (_ & _ & _ & _ & _ & _ & _ & _ & _ & _ & X).
    apply view_same; cbn; rewrite ?list_lookup_insert_ne by done; try done.
    + rewrite Hblk by done. by rewrite decide_False.
    + intros Hp. destruct (Hdict i N1 Hp) as [D1 D2]. rewrite decide_False in D1, D2 by done. done.
    + unfold move_dict_value. destruct (req_prompt_embeds (by_index b) !! last); [|done]. by rewrite lookup_insert_ne, lookup_delete_ne.
Qed.

Lemma move_rearranged : rearranged b (b' ts' m').
Proof using All.
  split; [done|done|done| | |].
  - intros id'. cbn. destruct (decide (id' = id)) as [->|]; [rewrite lookup_insert_eq, Hid; split; eauto|by rewrite lookup_insert_ne].
  - intros id' i i' Hi Hi'. destruct (move_view id' i' Hi') as (j & Hj & ->). by simplify_eq.
  - intros Hnone. cbn. rewrite Hnone in Hm |- *. destruct (is_pooling_model b), m'; done.
Qed.

Lemma move_mask : mask_kept b (b' ts' m').
Proof using All.
  destruct move_bounds as (_ & _ & _ & X1 & X2 & Hne & _ & _ & _).
  intros Hp id' i i' Hi Hi'. pose proof (ic_mask _ _ Hc) as Hml. unfold mask_row. cbn. rewrite Hp.
  destruct (allowed_token_ids_mask b) as [m|] eqn:Hb, m' as [m1|]; try done. cbn in Hm |- *. injection Hm as Hm1. specialize (Hml m eq_refl).
  destruct (lookup_lt_is_Some_2 m last) as [x Hx]; [lia|]. rewrite (arr_move_ok _ _ _ _ Hx) in Hm1 by lia. injection Hm1 as <-.
  destruct (move_index _ _ _ _ Hi') as [[-> ->]|(Hid' & Hi2 & N1 & N2)]; simplify_eq; [by rewrite list_lookup_insert_eq by lia|by rewrite list_lookup_insert_ne].
Qed.

Lemma move_core : ib_core (b' ts' m') (last :: filter (λ i, i ≠ empty) holes).
Proof using All.
  destruct move_bounds as (Hn & W1 & W2 & X1 & X2 & Hne & XE & IL & IE).
  assert (Hvok : ∀ id' i, req_id_to_index (slots (b' ts' m')) !! id' = Some i → ∃ v, view (b' ts' m') i = Some v ∧ view_ok (max_model_len b) v).
  { intros id' i Hi. destruct (move_view id' i Hi) as (j & Hj & ->). by eapply core_view. }
  split; cbn [b' move_result slots req_id_to_index req_ids_ req_output_token_ids spec_token_ids rows by_index allowed_token_ids_mask tables max_model_len ib_max_num_reqs is_pooling_model].
  - rewrite !length_insert. by apply ic_outputs in Hc.
  - rewrite !length_insert. by apply ic_specs in Hc.
  - rewrite !length_insert. by apply ic_max in Hc.
  - intros i x. rewrite !length_insert. intros Hi. apply lookup_lt_Some in IL. rewrite !list_lookup_insert_ne by lia. by apply (ic_beyond _ _ Hc).
  - intros id' i. pose proof (move_ids ts' m' i) as Hids. cbn in Hids. rewrite Hids. split.
    + intros Hi. destruct (move_index ts' m' id' i Hi) as [[-> ->]|(Hid' & Hi' & N1 & N2)]; [rewrite decide_False by done; by rewrite decide_True|].
      rewrite !decide_False by done. by apply (ic_index _ _ Hc).
    + case_decide; [done|]. case_decide as E; [subst i; intros [= <-]; apply lookup_insert_eq|]. intros Hi%(ic_index _ _ Hc).
      destruct (decide (id' = id)) as [->|]; [congruence|]. by rewrite lookup_insert_ne.
  - intros i. pose proof (move_ids ts' m' i) as Hids. cbn in Hids. rewrite Hids, elem_of_cons, list_elem_of_filter, (ic_holes _ _ Hc). repeat case_decide; subst; naive_solver.
  - apply NoDup_cons. split; [|by apply NoDup_filter, (ic_nodup _ _ Hc)]. rewrite list_elem_of_filter, (ic_holes _ _ Hc). naive_solver.
  - rewrite length_insert. by apply ic_rows in Hc.
  - apply Forall_insert; [exact (ic_row _ _ Hc)|by apply copied_row_wf].
  - intros id' i row spec Hi Hr Hs. destruct (Hvok id' i Hi) as (v & Hv & Hok). destruct (view_ok_parts (b' ts' m') _ _ _ _ Hv Hok Hr Hs) as (? & ? & ?). done.
  - exact Hgs.
  - intros Hp i. destruct (move_embeds_free Hp) as [G1 G2]. pose proof (move_ids ts' m' i) as Hids. cbn in Hids. rewrite Hids, Hp. cbn. rewrite !move_dict_lookup by done.
    destruct (decide (i = empty)) as [->|]; [rewrite decide_False by done; eauto|]. destruct (decide (i = last)); [by intros [[? ?]|[? ?]]|]. by apply ic_dicts with (1 := Hc).
  - pose proof (ic_mask _ _ Hc) as Hml. destruct (is_pooling_model b); [done|]. intros m Hm'. destruct (allowed_token_ids_mask b) as [m0|], m' as [m1|]; try done. injection Hm' as ->. cbn in Hm. injection Hm as Hm1.
    specialize (Hml m0 eq_refl). destruct (lookup_lt_is_Some_2 m0 last) as [x Hx]; [lia|]. rewrite (arr_move_ok _ _ _ _ Hx) in Hm1 by lia. injection Hm1 as <-. by rewrite length_insert.
  - intros id' i row spec Hi Hr Hs. destruct (Hvok id' i Hi) as (v & Hv & Hok). destruct (view_ok_parts (b' ts' m') _ _ _ _ Hv Hok Hr Hs) as (? & ? & ?). done.
Qed.
End result.
End move.

(** ** Condensing *)

#[global] Instance rearranged_preorder : PreOrder rearranged.
Proof.
  split.
  - intros b. split; [done|done|apply shape_refl|done| |done]. intros. by simplify_eq.
  - intros b1 b2 b3 [(C1 & C2 & C3 & C4) (D1 & D2 & D3 & D4) G E F M] [(C1' & C2' & C3' & C4') (D1' & D2' & D3' & D4') G' E' F' M']. split.
    + split_and!; congruence.
    + split_and!; congruence.
    + by eapply shape_trans.
    + intros id. by rewrite E', E.
    + intros id i i' Hi Hi'. destruct (proj1 (E' id) (mk_is_Some _ _ Hi')) as [j Hj]. etrans; [by eapply F'|by eapply F].
    + auto.
Qed.

Lemma mask_kept_trans b1 b2 b3 : rearranged b1 b2 → rearranged b2 b3 → mask_kept b1 b2 → mask_kept b2 b3 → mask_kept b1 b3.
Proof.
  intros H1 H2 M1 M2 Hp id i i' Hi Hi'. destruct (proj1 (ra_dom _ _ H2 id) (mk_is_Some _ _ Hi')) as [j Hj].
  etrans; [eapply M2; [by rewrite (proj1 (ra_config _ _ H1))|done|done]|by eapply M1].
Qed.

Lemma mask_kept_refl b : mask_kept b b.
Proof. intros _ id i i' Hi Hi'. by simplify_eq. Qed.

Lemma swapped_rearranged b i1 i2 b' : swapped b i1 i2 b' → rearranged b b'.
Proof.
  intros Hsw. split; [apply (sw_config _ _ _ _ Hsw)|apply (sw_rest _ _ _ _ Hsw)|apply (sw_shape _ _ _ _ Hsw)| | |apply (sw_mask _ _ _ _ Hsw)].
  - intros id. rewrite (sw_index _ _ _ _ Hsw). by rewrite fmap_is_Some.
  - intros id i i' Hi Hi'. rewrite (sw_index _ _ _ _ Hsw), Hi in Hi'. injection Hi' as <-. by eapply sw_view.
Qed.

(** The indices in use and the holes are all there are. *)
Lemma core_count b holes : ib_core b holes → length (req_ids_ (slots b)) = (num_reqs b + length holes)%nat.
Proof.
  intros Hc. set (idx := req_id_to_index (slots b)). set (N := length (req_ids_ (slots b))).
  assert (Hp : seq 0 N ≡ₚ (map_to_list idx).*2 ++ holes).
  { apply NoDup_Permutation; [apply NoDup_seq| |].
    - apply NoDup_app. split_and!; [|intros i Hi Hh|by apply ic_nodup in Hc].
      + apply NoDup_fmap_2_strong; [|apply NoDup_map_to_list]. intros [x i] [y j] Hx Hy Heq. cbn in Heq. subst j.
        apply elem_of_map_to_list, (ic_index _ _ Hc) in Hx, Hy. congruence.
      + apply list_elem_of_fmap in Hi as ([x j] & -> & Hx). apply elem_of_map_to_list, (ic_index _ _ Hc) in Hx. apply (ic_holes _ _ Hc) in Hh. cbn in Hh. congruence.
    - intros i. rewrite elem_of_seq, elem_of_app, (ic_holes _ _ Hc). split.
      + intros [_ Hi]. destruct (lookup_lt_is_Some_2 (req_ids_ (slots b)) i Hi) as [[id|] Hid]; [left|by right].
        apply (ic_index _ _ Hc) in Hid. apply list_elem_of_fmap. exists (id, i). split; [done|]. by apply elem_of_map_to_list.
      + intros [Hi|Hi%lookup_lt_Some]; [|fold N in Hi; lia]. apply list_elem_of_fmap in Hi as ([x j] & -> & Hx). apply elem_of_map_to_list, (ic_index _ _ Hc), lookup_lt_Some in Hx. cbn. fold N in Hx. lia. }
  apply Permutation_length in Hp. rewrite length_seq, length_app, length_fmap, length_map_to_list in Hp. exact Hp.
Qed.

Lemma core_perm b holes holes' : holes ≡ₚ holes' → ib_core b holes → ib_core b holes'.
Proof.
  intros Hp Hc. destruct Hc. split; try done; [intros i; by rewrite <-Hp|by rewrite <-Hp].
Qed.

Lemma skip_empty_ok last rem : match skip_empty last rem with
  | Some q => (q ≤ last)%nat ∧ q ∉ rem ∧ ∀ i, (q < i ≤ last)%nat → i ∈ rem
  | None => ∀ i, (i ≤ last)%nat → i ∈ rem
  end.
Proof.
  induction last as [|last IH]; cbn; case_bool_decide as Hin.
  - intros i Hi. by assert (i = 0)%nat as -> by lia.
  - split_and!; [lia|done|lia].
  - destruct (skip_empty last rem) as [q|].
    + destruct IH as (H1 & H2 & H3). split_and!; [lia|done|]. intros i Hi. destruct (decide (i = S last)) as [->|]; [done|]. apply H3. lia.
    + intros i Hi. destruct (decide (i = S last)) as [->|]; [done|]. apply IH. lia.
  - split_and!; [lia|done|lia].
Qed.

(** One move, with all it changes. *)
Lemma move_down_ok b holes l last empty id : ib_core b holes → req_id_to_index (slots b) !! id = Some last → empty ∈ holes →
  is_removed_sorted (batch_update_builder b) = true → removed_ (batch_update_builder b) = l ++ [empty] →
  ∃ b', move_down last empty b = (Ok tt, b') ∧ rearranged b b' ∧ mask_kept b b' ∧ ib_core b' (last :: filter (λ i, i ≠ empty) holes) ∧
    is_removed_sorted (batch_update_builder b') = true ∧ removed_ (batch_update_builder b') = l ∧ length (req_ids_ (slots b')) = length (req_ids_ (slots b)).
Proof.
  intros Hc Hid He Hs Hr. destruct (core_row _ _ _ _ Hc Hid) as (rl & sl & o & RL & SL & OL & _ & _ & _ & _ & XL).
  pose proof (proj1 (ic_holes _ _ Hc _) He) as IE%lookup_lt_Some. pose proof (ic_specs _ _ Hc). pose proof (ic_max _ _ Hc).
  destruct (lookup_lt_is_Some_2 (rows b) empty) as [re RE]; [rewrite (ic_rows _ _ Hc); lia|].
  destruct (lookup_lt_is_Some_2 (spec_token_ids (slots b)) empty) as [se SE]; [lia|].
  destruct (move_tables (tables b) (ib_max_num_reqs b) last empty (ic_tables _ _ Hc) XL ltac:(lia)) as (ts' & Hts & Hgs & Hsh & Hblk).
  assert (Hm : ∃ m', (λ m, arr_move m last empty) <$> allowed_token_ids_mask b = Ok <$> m').
  { pose proof (ic_mask _ _ Hc) as Hml. destruct (allowed_token_ids_mask b) as [m|]; [|by exists None]. specialize (Hml m eq_refl).
    destruct (lookup_lt_is_Some_2 m last) as [x Hx]; [lia|]. exists (Some (<[empty := x]> m)). cbn. by rewrite (arr_move_ok _ _ _ _ Hx) by lia. }
  destruct Hm as (m' & Hm). eexists. split; [by apply (move_run b holes l last empty id rl re sl se o) with (ts' := ts') (m' := m')|]. split_and!.
  - by apply (move_rearranged b holes l last empty id rl re sl se o).
  - by apply (move_mask b holes l last empty id rl re sl se o).
  - by apply (move_core b holes l last empty id rl re sl se o).
  - cbn. by destruct (is_pooling_model b).
  - cbn. by destruct (is_pooling_model b).
  - cbn. by rewrite !length_insert.
Qed.

Lemma exists_last_dec {A} (l : list A) : l = [] ∨ ∃ k x, l = k ++ [x].
Proof. destruct l as [|x l _] using rev_ind; [by left|right; eauto]. Qed.

(** The holes are the end of the lists. *)
Definition dense_from (b : InputBatch) (holes : list nat) (m : nat) : Prop := (m ≤ length (req_ids_ (slots b)))%nat ∧ ∀ i, i ∈ holes ↔ (m ≤ i < length (req_ids_ (slots b)))%nat.

Lemma peek_sorted u l i : is_removed_sorted u = true → removed_ u = l ++ [i] → peek_removed u = (Ok (Some i), u).
Proof.
  intros Hs Hl. unfold peek_removed, has_removed, ensure_removed_sorted. rewrite Hs, Hl, bool_decide_false by (by destruct l). cbn. by rewrite last_snoc.
Qed.

Lemma set_same_builder b : set_builder (batch_update_builder b) b = b.
Proof. by destruct b. Qed.

Lemma hole_lt b holes i : ib_core b holes → i ∈ holes → (i < length (req_ids_ (slots b)))%nat.
Proof. intros Hc Hi. apply (ic_holes _ _ Hc) in Hi. by apply lookup_lt_Some in Hi. Qed.

Lemma occupied b holes i : ib_core b holes → (i < length (req_ids_ (slots b)))%nat → i ∉ holes → ∃ id, req_id_to_index (slots b) !! id = Some i.
Proof.
  intros Hc Hi Hh. destruct (lookup_lt_is_Some_2 _ _ Hi) as [[id|] Hid]; [exists id; by apply (ic_index _ _ Hc)|]. by apply (ic_holes _ _ Hc) in Hid.
Qed.

Lemma condense_loop_ok fuel : ∀ last b ex, let rem := removed_ (batch_update_builder b) in
  ib_core b (ex ++ rem) → is_removed_sorted (batch_update_builder b) = true → StronglySorted desc rem → (length rem < fuel)%nat → num_reqs b ≠ 0%nat →
  (last < length (req_ids_ (slots b)))%nat → (∀ i, (last < i < length (req_ids_ (slots b)))%nat → i ∈ ex ++ rem) → (∀ i, i ∈ ex → (last < i)%nat) →
  ∃ b' holes m, condense_loop fuel last b = (Ok tt, b') ∧ rearranged b b' ∧ mask_kept b b' ∧ ib_core b' holes ∧ dense_from b' holes m.
Proof.
  induction fuel as [|fuel IH]; intros last b ex rem Hc Hs Hsort Hf Hnum Hlast Habove Hex; [lia|].
  assert (Hstop : ∀ q, (q ≤ last)%nat → (∀ i, i ∈ rem → (q < i)%nat) → (∀ i, (q < i ≤ last)%nat → i ∈ rem) → dense_from b (ex ++ rem) (S q)).
  { intros q Hq H1 H2. split; [lia|]. intros i. split.
    - intros Hi. pose proof (hole_lt _ _ _ Hc Hi). apply elem_of_app in Hi as [Hi|Hi]; [specialize (Hex i Hi)|specialize (H1 i Hi)]; lia.
    - intros Hi. destruct (decide (i ≤ last)%nat); [apply elem_of_app; right; apply H2; lia|apply Habove; lia]. }
  cbn [condense_loop]. erewrite bind_ok by exact eq_refl. fold rem. destruct (exists_last_dec rem) as [Hnil|(l & e & Hrem)].
  { rewrite Hnil. cbn. exists b, (ex ++ rem), (S last). split_and!; [done|done|apply mask_kept_refl|done|].
    apply Hstop; [lia|intros i; rewrite Hnil; by intros ?%elem_of_nil|intros i ?; lia]. }
  assert (Hm : match rem with [] => False | _ => True end) by (rewrite Hrem; by destruct l). destruct rem as [|r0 rem0] eqn:Er; [done|]. rewrite <-Er in *. clear Hm.
  erewrite bind_ok by (apply zoom_ok; by eapply peek_sorted). rewrite set_same_builder. cbn beta iota.
  pose proof (skip_empty_ok last rem) as Hskip. destruct (skip_empty last rem) as [q|].
  2: { exfalso. apply Hnum. pose proof (core_count _ _ Hc). destruct (num_reqs b) eqn:Hn; [done|]. exfalso.
       assert (∃ id i, req_id_to_index (slots b) !! id = Some i) as (id & i & Hi).
       { unfold num_reqs in Hn. destruct (map_choose (req_id_to_index (slots b))) as (id & i & Hi); [|eauto]. intros E. rewrite E, map_size_empty in Hn. done. }
       pose proof (proj1 (ic_index _ _ Hc _ _) Hi) as Hi'. assert (i ∈ ex ++ rem) as Hh%(ic_holes _ _ Hc); [|congruence].
       destruct (decide (i ≤ last)%nat); [apply elem_of_app; right; by apply Hskip|apply Habove; apply lookup_lt_Some in Hi'; lia]. }
  destruct Hskip as (Hq & Hqr & Hbetween).
  assert (Hmin : ∀ i, i ∈ rem → (e ≤ i)%nat).
  { intros i Hi. rewrite Hrem in Hi, Hsort. apply elem_of_app in Hi as [Hi|Hi]; [|by apply list_elem_of_singleton in Hi as ->].
    eapply (StronglySorted_app_1_elem_of desc l [e] i e); [done|done|by left]. }
  destruct (Nat.leb_spec q e) as [Hle|Hlt].
  { exists b, (ex ++ rem), (S q). split_and!; [done|done|apply mask_kept_refl|done|]. apply Hstop; [done| |done].
    intros i Hi. specialize (Hmin i Hi). destruct (decide (i = q)) as [->|]; [done|lia]. }
  assert (Hqh : q ∉ ex ++ rem) by (rewrite elem_of_app; intros [Hx|]; [specialize (Hex q Hx); lia|done]).
  destruct (occupied b _ q Hc ltac:(lia) Hqh) as [id Hid].
  assert (Hein : e ∈ ex ++ rem) by (rewrite Hrem; set_solver).
  destruct (move_down_ok b _ l q e id Hc Hid Hein Hs Hrem) as (b1 & Hrun & Hra & Hmk & Hc1 & Hs1 & Hr1 & Hlen1).
  pose proof (ic_nodup _ _ Hc) as Hnd. rewrite Hrem, app_assoc in Hnd. apply NoDup_app in Hnd as (_ & Hnd & _).
  assert (Hfil : filter (λ i, i ≠ e) (ex ++ rem) = ex ++ l).
  { rewrite Hrem, app_assoc, filter_app, (filter_id _ (ex ++ l)), filter_cons_False by (tauto || (intros x Hx ->; apply (Hnd e Hx); by left)). by rewrite filter_nil, app_nil_r. }
  rewrite Hfil in Hc1.
  destruct (IH (q - 1)%nat b1 (q :: ex)) as (b' & holes & m & Hrun' & Hra' & Hmk' & Hc' & Hd').
  - rewrite Hr1. exact Hc1.
  - done.
  - rewrite Hr1. rewrite Hrem in Hsort. by apply StronglySorted_app_1_l in Hsort.
  - rewrite Hr1. rewrite Hrem, length_app in Hf. cbn in Hf. lia.
  - pose proof (core_count _ _ Hc). pose proof (core_count _ _ Hc1) as Hcnt. rewrite Hlen1 in Hcnt. rewrite Hrem in *. rewrite !length_app in *. cbn in *. rewrite ?length_app in Hcnt. lia.
  - rewrite Hlen1. lia.
  - rewrite Hlen1, Hr1. intros i Hi. change ((q :: ex) ++ l) with (q :: ex ++ l). destruct (decide (i = q)) as [->|]; [by left|]. right. rewrite <-Hfil. apply list_elem_of_filter. split; [lia|].
    destruct (decide (i ≤ last)%nat); [apply elem_of_app; right; apply Hbetween; lia|apply Habove; lia].
  - intros i [->|Hi]%elem_of_cons; [lia|]. specialize (Hex i Hi). lia.
  - exists b', holes, m. split_and!; [by rewrite (bind_ok _ _ _ _ _ Hrun)|by etrans|by eapply mask_kept_trans|done|done].
Qed.

Lemma builder_rearranged b u : rearranged b (set_builder u b) ∧ mask_kept b (set_builder u b).
Proof. split; [split; [done|done|apply shape_refl|done| |done]|intros _]; cbn; intros id i i' Hi Hi'; by simplify_eq. Qed.

Lemma builder_core b u holes : ib_core b holes → ib_core (set_builder u b) holes.
Proof. intros []. by split. Qed.

(** Cutting the lists after the last request. *)
Lemma trim_ok b holes m : ib_core b holes → dense_from b holes m →
  let b' := upd_slots (trim m) b in
  ib_core b' [] ∧ rearranged b b' ∧ mask_kept b b' ∧ ∃ ids, req_ids_ (slots b') = Some <$> ids ∧ length ids = num_reqs b.
Proof.
  intros Hc [Hm Hd] b'. pose proof (ic_outputs _ _ Hc) as Lo. pose proof (ic_specs _ _ Hc) as Ls.
  assert (Hin : ∀ id i, req_id_to_index (slots b) !! id = Some i → (i < m)%nat).
  { intros id i Hi%(ic_index _ _ Hc). pose proof (lookup_lt_Some _ _ _ Hi). destruct (decide (m ≤ i)%nat) as [Hge|]; [|lia].
    assert (i ∈ holes) as Hh%(ic_holes _ _ Hc) by (apply Hd; lia). congruence. }
  assert (Hlen : length (req_ids_ (slots b')) = m) by (cbn; rewrite length_take; lia).
  assert (Hv : ∀ i, (i < m)%nat → view b' i = view b i).
  { intros i Hi. apply view_same; try done; cbn; by rewrite lookup_take_lt. }
  assert (Hcore : ib_core b' []).
  { split; cbn; try by destruct Hc.
    - rewrite !length_take. lia.
    - rewrite !length_take. lia.
    - rewrite length_take. pose proof (ic_max _ _ Hc). lia.
    - intros i l. rewrite length_take. intros Hi Hl. apply lookup_lt_Some in Hl. rewrite length_take in Hl. lia.
    - intros id i. split.
      + intros Hi. rewrite lookup_take_lt by eauto. by apply (ic_index _ _ Hc).
      + intros [Hi _]%lookup_take_Some. by apply (ic_index _ _ Hc).
    - intros i. split; [by intros ?%elem_of_nil|]. intros [Hi Hlt]%lookup_take_Some. apply (ic_holes _ _ Hc), Hd in Hi. lia.
    - apply NoDup_nil_2.
    - intros id i row spec Hi Hr [Hs _]%lookup_take_Some. by eapply (ic_fit _ _ Hc).
    - intros Hp i Hs. destruct (ic_dicts _ _ Hc Hp i Hs) as [id Hid]. exists id. rewrite lookup_take_lt; [done|]. eapply Hin. by apply (ic_index _ _ Hc).
    - intros id i row spec Hi Hr [Hs _]%lookup_take_Some. by eapply (ic_embeds _ _ Hc). }
  split_and!; [done| | |].
  - split; [done|done|apply shape_refl|done| |done]. cbn. intros id i i' Hi Hi'. simplify_eq. eauto.
  - intros Hp id i i' Hi Hi'. cbn in Hi'. by simplify_eq.
  - exists (omap (λ x, x) (req_ids_ (slots b'))). pose proof (core_count _ _ Hcore) as Hn. rewrite Nat.add_0_r in Hn.
    assert (Hall : req_ids_ (slots b') = Some <$> omap (λ x, x) (req_ids_ (slots b'))).
    { assert (Hsome : Forall is_Some (req_ids_ (slots b'))).
      { apply Forall_lookup_2. intros i [id|] Hi; [eauto|]. apply (ic_holes _ _ Hcore) in Hi. by apply elem_of_nil in Hi. }
      clear -Hsome. induction Hsome as [|x l [y ->] _ IH]; [done|]. cbn. by rewrite IH at 1. }
    split; [done|]. apply (f_equal length) in Hall. rewrite length_fmap in Hall. rewrite <-Hall, Hn. done.
Qed.

Lemma dense_num b holes m : ib_core b holes → dense_from b holes m → m = num_reqs b.
Proof.
  intros Hc [Hm Hd]. pose proof (core_count _ _ Hc) as Hn. set (N := length (req_ids_ (slots b))) in *.
  assert (Hp : holes ≡ₚ seq m (N - m)).
  { apply NoDup_Permutation; [by apply ic_nodup in Hc|apply NoDup_seq|]. intros i. rewrite Hd, elem_of_seq. lia. }
  apply Permutation_length in Hp. rewrite length_seq in Hp. lia.
Qed.

Lemma rearranged_num b b' : rearranged b b' → num_reqs b' = num_reqs b.
Proof.
  intros Hra. unfold num_reqs. rewrite <-!size_dom. f_equal. apply set_eq. intros id. rewrite !elem_of_dom. apply (ra_dom _ _ Hra).
Qed.

(** The invariant between the calls of a step. *)
Record ib_inv (b : InputBatch) : Prop := {
  ii_core : ib_core b (removed_ (batch_update_builder b));
  ii_sorted : is_removed_sorted (batch_update_builder b) = true → StronglySorted desc (removed_ (batch_update_builder b));
}.

Lemma ensure_sorted_ok u : (is_removed_sorted u = true → StronglySorted desc (removed_ u)) →
  StronglySorted desc (removed_ (ensure_removed_sorted u)) ∧ removed_ (ensure_removed_sorted u) ≡ₚ removed_ u ∧ is_removed_sorted (ensure_removed_sorted u) = true.
Proof.
  intros Hs. unfold ensure_removed_sorted. destruct (is_removed_sorted u) eqn:E; [by split_and!; auto|]. cbn.
  split_and!; [apply StronglySorted_merge_sort; apply _|apply merge_sort_Permutation|done].
Qed.

(** [condense] moves the last requests into the gaps. *)
Lemma condense_ok b : ib_inv b →
  ∃ b' ids, condense b = (Ok tt, b') ∧ rearranged b b' ∧ mask_kept b b' ∧ ib_core b' [] ∧
    req_ids_ (slots b') = Some <$> ids ∧ length ids = num_reqs b.
Proof.
  intros [Hc Hs]. destruct (ensure_sorted_ok _ Hs) as (Hsort & Hperm & Hflag). set (u := ensure_removed_sorted (batch_update_builder b)) in *.
  set (b1 := set_builder u b). assert (Hc1 : ib_core b1 (removed_ u)) by (apply builder_core; eapply core_perm; [by symmetry|done]).
  destruct (builder_rearranged b u) as [Hra Hmk]. assert (Hcnt : length (req_ids_ (slots b)) = (num_reqs b + length (removed_ u))%nat) by exact (core_count _ _ Hc1).
  assert (Hfin : ∀ b2 holes m, ib_core b2 holes → dense_from b2 holes m → rearranged b1 b2 → mask_kept b1 b2 → num_reqs b2 = num_reqs b →
    ∃ ids, rearranged b (upd_slots (trim m) b2) ∧ mask_kept b (upd_slots (trim m) b2) ∧ ib_core (upd_slots (trim m) b2) [] ∧
      req_ids_ (slots (upd_slots (trim m) b2)) = Some <$> ids ∧ length ids = num_reqs b).
  { intros b2 holes m Hc2 Hd2 Hra2 Hmk2 Hn2. destruct (trim_ok _ _ _ Hc2 Hd2) as (Hc3 & Hra3 & Hmk3 & ids & Hids & Hl). exists ids.
    split_and!; [by do 2 (etrans; [done|])|eapply mask_kept_trans; [|exact Hra3| |exact Hmk3]; [by etrans|by eapply mask_kept_trans]|done|done|congruence]. }
  unfold condense. erewrite bind_ok by exact eq_refl. erewrite bind_ok by exact eq_refl. cbn beta iota. fold u. fold b1.
  destruct (removed_ u) as [|r0 rem0] eqn:Er.
  - exists b1. destruct (trim_ok b1 [] (length (req_ids_ (slots b1))) Hc1) as (_ & _ & _ & ids & Hids & Hl).
    { split; [lia|]. intros i. split; [by intros ?%elem_of_nil|lia]. }
    exists ids. split_and!; [done|done|done|done| |done]. rewrite <-Hids. cbn. symmetry. apply take_ge. lia.
  - rewrite <-Er in *. cbn [slots b1 set_builder]. destruct (Nat.eqb_spec (num_reqs b) 0) as [H0|H0].
    + destruct (Hfin b1 (removed_ u) 0%nat Hc1) as (ids & ?); [|done|apply mask_kept_refl|done|].
      { split; [lia|]. intros i. split; [intros Hi; pose proof (hole_lt _ _ _ Hc1 Hi); lia|]. intros [_ Hi].
        destruct (decide (i ∈ removed_ u)); [done|]. destruct (occupied b1 _ i Hc1 Hi) as [id Hid]; [done|].
        unfold num_reqs in H0. apply map_size_empty_inv in H0. cbn in Hid. by rewrite H0 in Hid. }
      eexists _, ids. by split.
    + destruct (condense_loop_ok (S (length (removed_ u))) (num_reqs b + length (removed_ u) - 1) b1 []) as (b2 & holes & m & Hrun & Hra2 & Hmk2 & Hc2 & Hd2);
        [exact Hc1|exact Hflag|exact Hsort|apply Nat.lt_succ_diag_r|exact H0|cbn -[num_reqs]; lia|cbn -[num_reqs]; lia|by intros i ?%elem_of_nil|].
      assert (Hn2 : num_reqs b2 = num_reqs b) by (by apply (rearranged_num b1)). pose proof (dense_num _ _ _ Hc2 Hd2) as Hm. rewrite Hn2 in Hm. subst m.
      destruct (Hfin b2 holes (num_reqs b) Hc2 Hd2 Hra2 Hmk2 Hn2) as (ids & ?). eexists _, ids. split; [|done]. by rewrite (bind_ok _ _ _ _ _ Hrun).
Qed.

(** ** Theorem *)

(** C20.  [condense] never raises, and afterwards the batch is dense: the requests
    occupy the first indices, without gaps, in lists of exactly their number.  No
    request is lost, and the tokens, drafts, blocks, sampling parameters, generator,
    banned words, embeddings, adapter and allowed tokens of every request are those
    it had before. *)
Theorem condense_exact b : ib_inv b →
  ∃ b' ids, condense b = (Ok tt, b') ∧ rearranged b b' ∧ mask_kept b b' ∧ ib_core b' [] ∧
    req_ids_ (slots b') = Some <$> ids ∧ length ids = num_reqs b.
Proof. apply condense_ok. Qed.
