(* ===== verification/InputBatchOps.v ===== *)
(** * The persistent batch: adding and removing requests

    The adapters in use, removal, addition, and the step as a whole. *)
From Stdlib Require Import QArith.
From stdpp Require Import gmap sorting.
From S2P Require Import Prelude.
From S2P Require Import RequestModel.
From S2P Require Import Arrays.
From S2P Require Import BlockTable.
From S2P Require Import InputBatch.
From S2P Require Import InputBatchInv.
#[local] Open Scope Z_scope.

(** ** Adapters *)

(** Request [id] of the batch uses adapter [l]. *)
Definition uses_lora (b : InputBatch) (id : string) (l : Z) : Prop :=
  ∃ i row, req_id_to_index (slots b) !! id = Some i ∧ rows b !! i = Some row ∧ request_lora_mapping row = l.

(** The dictionaries list exactly the adapters in use and their requests. *)
Record lora_ok (b : InputBatch) : Prop := {
  lo_ids : ∀ l ids, lora_id_to_request_ids (loras b) !! l = Some ids → l ≠ 0 ∧ ids ≠ ∅ ∧ ∀ id, id ∈ ids ↔ uses_lora b id l;
  lo_used : ∀ id l, uses_lora b id l → l ≠ 0 → is_Some (lora_id_to_request_ids (loras b) !! l);
  lo_requests : ∀ l, is_Some (lora_id_to_lora_request (loras b) !! l) ↔ is_Some (lora_id_to_request_ids (loras b) !! l);
}.

(** A new batch. *)
Lemma new_batch_ok cp junk n mml max_batched vocab bss kbss max_blocks pooling interleave lists b : Forall (λ x, 0 < x) bss → Forall (λ x, 0 < x) kbss →
  Forall (λ x, 0 ≤ x) (default [] max_blocks) → 0 ≤ mml → 0 < cp_dcp_world cp * cp_pcp_world cp →
  new_input_batch cp junk n mml max_batched vocab bss kbss max_blocks pooling interleave lists = Ok b → ib_inv b ∧ lora_ok b.
Proof.
  intros Hb Hk Hm Hl Hw (ts & Hts & [= <-])%res_bind_ok. split.
  - split; [|done]. split; cbn; try done; try lia.
    + intros i l _ [-> _]%lookup_replicate. done.
    + intros i. split; [by intros ?%elem_of_nil|done].
    + apply NoDup_nil_2.
    + by rewrite length_fmap, length_seq.
    + apply Forall_fmap, Forall_true. intros i. split; cbn; rewrite len_repeat; lia.
    + eexists. split; [exact (new_multi_group_rep _ _ _ _ _ _ _ _ _ Hb Hk Hm Hl Hw Hts)|]. apply Forall_replicate. cbn. apply length_replicate.
    + intros _ i. rewrite !lookup_empty. by intros [[]|[]].
  - split; cbn.
    + done.
    + intros id l (i & row & Hi & _). done.
    + intros l. by rewrite !lookup_empty.
Qed.

(** ** Removal *)

Lemma clear_tables ts n r : (∃ gs, mg_rep ts gs ∧ Forall (λ g, length g.1 = n) gs) → (r < n)%nat →
  ∃ ts', mg_clear_row r ts = (Ok tt, ts') ∧ (∃ gs', mg_rep ts' gs' ∧ Forall (λ g, length g.1 = n) gs') ∧ Forall2 same_shape ts ts' ∧
    ∀ i, (i < n)%nat → i ≠ r → (λ t, row_blocks t i) <$> ts' = (λ t, row_blocks t i) <$> ts.
Proof.
  intros (gs & Hrep & Hlen) Hr. destruct (row_op_ok (RClear r) ts gs Hrep) as (ts' & Hrun & Hrep' & Hsh).
  { intros g t x Ht Hx. eapply Forall_lookup_1 in Hlen; [|exact Hx]. cbn. lia. }
  exists ts'. split_and!; [exact Hrun| |exact Hsh|].
  - eexists. split; [exact Hrep'|]. apply Forall_lookup_2. intros g x Hx. rewrite list_lookup_imap in Hx. destruct (gs !! g) as [[y d]|] eqn:Hy; [|done].
    cbn in Hx. injection Hx as <-. cbn. rewrite length_insert. by eapply (Forall_lookup_1 _ _ _ _ Hlen) in Hy.
  - intros i Hi Hne. apply (rows_unchanged ts ts' gs (imap (spec_row_op (RClear r)) gs) n i Hrep Hrep' Hlen Hsh Hi).
    intros g [y d] x' Hy Hx'. rewrite list_lookup_imap, Hy in Hx'. cbn in Hx'. injection Hx' as <-. cbn. by rewrite list_lookup_insert_ne.
Qed.

(** The adapters without request [id] of adapter [l]. *)
Definition lora_without (l : Z) (id : string) (x : Loras) : Loras :=
  if l =? 0 then x
  else match lora_id_to_request_ids x !! l with
       | Some ids =>
           if bool_decide (ids ∖ {[ id ]} = ∅) then MkLoras (delete l (lora_id_to_request_ids x)) (delete l (lora_id_to_lora_request x))
           else MkLoras (<[l := ids ∖ {[ id ]}]> (lora_id_to_request_ids x)) (lora_id_to_lora_request x)
       | None => x
       end.

Lemma remove_lora_ok b id i row : rows b !! i = Some row →
  (request_lora_mapping row ≠ 0 → is_Some (lora_id_to_request_ids (loras b) !! request_lora_mapping row) ∧ is_Some (lora_id_to_lora_request (loras b) !! request_lora_mapping row)) →
  remove_lora id i b = (Ok tt, set_rows (<[i := row_lora 0 row]> (rows b)) (set_loras (lora_without (request_lora_mapping row) id (loras b)) b)).
Proof.
  intros Hrow Hl. unfold remove_lora, get_row. unfold bind at 2, gets at 1. unfold bind at 1. unfold lift. rewrite (arr_get_ok _ _ _ Hrow). unfold lora_without.
  destruct (Z.eqb_spec (request_lora_mapping row) 0) as [H0|H0].
  - unfold ret. f_equal. apply batch_eq; try exact eq_refl. cbn. symmetry. apply list_insert_id. rewrite Hrow. f_equal. destruct row. cbn in *. by rewrite H0.
  - destruct (Hl H0) as [[ids Hids] [q Hq]]. erewrite bind_ok by exact eq_refl. cbn beta iota. rewrite Hids.
    assert (Hset : ∀ b0 : InputBatch, rows b0 = rows b → on_row i (λ row, Ok (row_lora 0 row)) b0 = (Ok tt, set_rows (<[i := row_lora 0 row]> (rows b)) b0)).
    { intros b0 E. unfold on_row, on_rows. apply on_list_ok. rewrite E. by rewrite (arr_get_ok _ _ _ Hrow). }
    case_bool_decide; [rewrite Hq|]; (erewrite bind_ok by exact eq_refl); cbn beta; by rewrite Hset.
Qed.

Lemma removed_append_ok u i : is_removed_sorted u = false →
  removed_append i u = (Ok tt, MkBuilder (removed_ u ++ [i]) false (added u) (moved u) true).
Proof. intros Hs. unfold removed_append. by rewrite Hs. Qed.

(** The state of the sampler without request [id] of row [i]. *)
Lemma remove_sampling_ok b id i : (∀ m, allowed_token_ids_mask b = Some m → (i < length m)%nat) →
  ∃ m', remove_sampling id i b = (Ok tt, set_mask m' (set_prev (delete id <$> prev_req_id_to_index b)
    (upd_by_index (λ x, MkByIndex (req_prompt_embeds x) (delete i (generators x)) (delete i (bad_words_token_ids x))) (upd_by_id (drop_by_id id) b)))) ∧
    (∀ m, m' = Some m → ∃ m0, allowed_token_ids_mask b = Some m0 ∧ length m = length m0) ∧
    ∀ j, j ≠ i → m' ≫= (λ m, m !! j) = mask_row b j.
Proof.
  intros Hm. unfold remove_sampling. do 4 (erewrite bind_ok by exact eq_refl). cbn beta iota. cbn [allowed_token_ids_mask set_prev upd_by_index upd_by_id].
  destruct (allowed_token_ids_mask b) as [m|] eqn:Hb.
  - specialize (Hm m eq_refl). destruct (lookup_lt_is_Some_2 m i Hm) as [r Hr]. exists (Some (<[i := (λ _, false) <$> r]> m)). split_and!.
    + unfold bind, lift. by rewrite (arr_get_ok _ _ _ Hr).
    + intros ? [= <-]. exists m. by rewrite length_insert.
    + intros j Hj. unfold mask_row. rewrite Hb. cbn. by rewrite list_lookup_insert_ne.
  - exists None. split_and!; [|done|]; [unfold ret; f_equal; by apply batch_eq|]. intros j Hj. unfold mask_row. by rewrite Hb.
Qed.

Record removal (b : InputBatch) (id : string) (i : nat) (b' : InputBatch) : Prop := {
  rm_config : is_pooling_model b' = is_pooling_model b ∧ ib_max_num_reqs b' = ib_max_num_reqs b ∧ max_model_len b' = max_model_len b ∧ vocab_size b' = vocab_size b;
  rm_slots : slots b' = MkSlots (<[i := None]> (req_ids_ (slots b))) (<[i := None]> (req_output_token_ids (slots b))) (<[i := []]> (spec_token_ids (slots b))) (delete id (req_id_to_index (slots b)));
  rm_rows : ∃ row, rows b !! i = Some row ∧ rows b' = <[i := row_lora 0 row]> (rows b) ∧ loras b' = lora_without (request_lora_mapping row) id (loras b);
  rm_tables : (∃ gs, mg_rep (tables b') gs ∧ Forall (λ g, length g.1 = ib_max_num_reqs b) gs) ∧
    ∀ j, (j < ib_max_num_reqs b)%nat → j ≠ i → (λ t, row_blocks t j) <$> tables b' = (λ t, row_blocks t j) <$> tables b;
  rm_embeds : req_prompt_embeds (by_index b') = req_prompt_embeds (by_index b);
  rm_dicts : is_pooling_model b = false → generators (by_index b') = delete i (generators (by_index b)) ∧ bad_words_token_ids (by_index b') = delete i (bad_words_token_ids (by_index b));
  rm_mask : (∀ m, allowed_token_ids_mask b' = Some m → length m = ib_max_num_reqs b) ∧ ∀ j, j ≠ i → mask_row b' j = mask_row b j;
  rm_ids : by_id b' = if is_pooling_model b then with_pooling (delete id (pooling_params (by_id b))) (delete id (pooling_states (by_id b))) (by_id b) else drop_by_id id (by_id b);
  rm_builder : batch_update_builder b' = MkBuilder (removed_ (batch_update_builder b) ++ [i]) false (added (batch_update_builder b)) (moved (batch_update_builder b)) true;
  rm_lists : output_lists b' = output_lists b;
  rm_shape : Forall2 same_shape (tables b) (tables b');
}.

Lemma remove_run b holes id i : ib_core b holes → lora_ok b → is_removed_sorted (batch_update_builder b) = false → req_id_to_index (slots b) !! id = Some i →
  ∃ b', remove_request id b = (Ok (Some i), b') ∧ removal b id i b'.
Proof.
  intros Hc Hlo Hs Hid. destruct (core_row _ _ _ _ Hc Hid) as (row & spec & out & Hr & Hsp & Ho & W & N & M & Xi & X).
  pose proof (lookup_lt_Some _ _ _ Hsp) as XS. pose proof (lookup_lt_Some _ _ _ Ho) as XO.
  destruct (clear_tables (tables b) (ib_max_num_reqs b) i (ic_tables _ _ Hc) X) as (ts' & Hts & Hgs & Hsh & Hblk).
  assert (Hl : request_lora_mapping row ≠ 0 → is_Some (lora_id_to_request_ids (loras b) !! request_lora_mapping row) ∧ is_Some (lora_id_to_lora_request (loras b) !! request_lora_mapping row)).
  { intros H0. assert (His : is_Some (lora_id_to_request_ids (loras b) !! request_lora_mapping row)) by (eapply lo_used; [done|exists i, row; eauto|done]). split; [done|by apply lo_requests]. }
  set (b1 := upd_slots (set_specs (<[i := []]> (spec_token_ids (slots b)))) (upd_slots (set_outputs (<[i := None]> (req_output_token_ids (slots b))))
    (upd_slots (set_ids (<[i := None]> (req_ids_ (slots b)))) (set_builder (MkBuilder (removed_ (batch_update_builder b) ++ [i]) false (added (batch_update_builder b)) (moved (batch_update_builder b)) true)
    (upd_slots (λ s, set_index (delete id (req_id_to_index s)) s) b))))).
  set (b2 := set_rows (<[i := row_lora 0 row]> (rows b)) (set_loras (lora_without (request_lora_mapping row) id (loras b)) (set_tables ts' b1))).
  assert (Hrun : remove_request id b = (let! pooling := gets is_pooling_model in
      (if pooling then modify (upd_by_id (λ x, with_pooling (delete id (pooling_params x)) (delete id (pooling_states x)) x)) else remove_sampling id i) ;;; ret (Some i)) b2).
  { unfold remove_request. erewrite bind_ok by exact eq_refl. cbn beta. rewrite Hid. erewrite bind_ok by exact eq_refl.
    erewrite bind_ok by (apply zoom_ok; by apply removed_append_ok). erewrite bind_ok by (apply on_list_ok; by apply arr_set_ok).
    erewrite bind_ok by (apply on_list_ok; by apply arr_set_ok). erewrite bind_ok by (apply on_list_ok; by apply arr_set_ok).
    erewrite bind_ok by (apply zoom_ok; exact Hts). erewrite bind_ok by (by apply remove_lora_ok). exact eq_refl. }
  rewrite Hrun. erewrite bind_ok by exact eq_refl. cbn beta. change (is_pooling_model b2) with (is_pooling_model b).
  destruct (is_pooling_model b) eqn:Hp.
  - erewrite bind_ok by exact eq_refl. eexists. split; [done|]. split; cbn; try done; try (rewrite Hp; done); [eauto|].
    split; [apply (ic_mask _ _ Hc)|done].
  - destruct (remove_sampling_ok b2 id i) as (m' & Hsam & Hml & Hmj).
    { intros m Hm. rewrite (ic_mask _ _ Hc m Hm). exact X. }
    erewrite bind_ok by exact Hsam. eexists. split; [done|]. split; cbn; try done; try (rewrite Hp; done); [eauto|].
    split; [|done]. intros m Hm. destruct (Hml m Hm) as (m0 & Hm0 & ->). by apply (ic_mask _ _ Hc).
Qed.

Section removed.
Variables (b : InputBatch) (holes : list nat) (id : string) (i : nat) (b' : InputBatch).
Hypothesis Hc : ib_core b holes.
Hypothesis Hid : req_id_to_index (slots b) !! id = Some i.
Hypothesis Hr : removal b id i b'.

Lemma removal_index id' j : req_id_to_index (slots b') !! id' = Some j ↔ id' ≠ id ∧ req_id_to_index (slots b) !! id' = Some j.
Proof using Hr. rewrite (rm_slots _ _ _ _ Hr). cbn. rewrite lookup_delete_Some. intuition congruence. Qed.

Lemma removal_other id' j : req_id_to_index (slots b') !! id' = Some j → j ≠ i ∧ req_id_to_index (slots b) !! id' = Some j ∧ (j < ib_max_num_reqs b)%nat.
Proof using All.
  intros [Hne Hj]%removal_index. split_and!; [|done|].
  - intros ->. apply (ic_index _ _ Hc) in Hj, Hid. congruence.
  - apply (core_row _ _ _ _ Hc) in Hj as (? & ? & ? & Hj). tauto.
Qed.

Lemma removal_rows j : j ≠ i → rows b' !! j = rows b !! j.
Proof using Hr. intros Hj. destruct (rm_rows _ _ _ _ Hr) as (row & _ & -> & _). by rewrite list_lookup_insert_ne. Qed.

Lemma removal_view id' j : req_id_to_index (slots b') !! id' = Some j → view b' j = view b j ∧ mask_row b' j = mask_row b j.
Proof using All.
  intros (Hj & Hj' & Hlt)%removal_other. destruct (rm_config _ _ _ _ Hr) as (Hp & _). split; [|by apply (rm_mask _ _ _ _ Hr)].
  apply view_same; try by rewrite (rm_slots _ _ _ _ Hr); cbn; rewrite list_lookup_insert_ne.
  - by apply removal_rows.
  - done.
  - by apply (rm_tables _ _ _ _ Hr).
  - intros E. destruct (rm_dicts _ _ _ _ Hr E) as [-> ->]. by rewrite !lookup_delete_ne.
  - by rewrite (rm_embeds _ _ _ _ Hr).
Qed.

Lemma removal_core : ib_core b' (holes ++ [i]).
Proof using All.
  destruct (rm_config _ _ _ _ Hr) as (P1 & P2 & P3 & P4). pose proof (proj1 (ic_index _ _ Hc _ _) Hid) as Ii. pose proof (lookup_lt_Some _ _ _ Ii) as Xi.
  assert (Hvok : ∀ id' j, req_id_to_index (slots b') !! id' = Some j → ∃ v, view b' j = Some v ∧ view_ok (max_model_len b') v).
  { intros id' j Hj. destruct (removal_view id' j Hj) as [-> _]. rewrite P3. apply removal_other in Hj as (_ & Hj & _). by eapply core_view. }
  pose proof (rm_slots _ _ _ _ Hr) as Hs. split; rewrite ?P1, ?P2, ?P3, ?Hs; cbn; rewrite ?length_insert.
  - by apply ic_outputs in Hc.
  - by apply ic_specs in Hc.
  - by apply ic_max in Hc.
  - intros j l Hj. rewrite list_lookup_insert_ne by lia. by apply (ic_beyond _ _ Hc).
  - intros id' j. rewrite lookup_delete_Some, (ic_index _ _ Hc). destruct (decide (j = i)) as [->|Hne].
    + rewrite list_lookup_insert_eq by done. rewrite Ii. split; [intros [? [= <-]]; done|done].
    + rewrite list_lookup_insert_ne by done. split; [tauto|]. intros Hj. split; [|done]. intros <-. apply (ic_index _ _ Hc) in Hj. congruence.
  - intros j. rewrite elem_of_app, list_elem_of_singleton, (ic_holes _ _ Hc). destruct (decide (j = i)) as [->|Hne]; [by rewrite list_lookup_insert_eq; intuition|].
    rewrite list_lookup_insert_ne by done. tauto.
  - apply NoDup_app. split_and!; [by apply ic_nodup in Hc| |apply NoDup_singleton]. intros j Hj ->%list_elem_of_singleton. apply (ic_holes _ _ Hc) in Hj. congruence.
  - destruct (rm_rows _ _ _ _ Hr) as (row & _ & -> & _). rewrite length_insert. by apply ic_rows in Hc.
  - destruct (rm_rows _ _ _ _ Hr) as (row & Hrow & -> & _). apply Forall_insert; [by apply ic_row in Hc|]. eapply Forall_lookup_1 in Hrow; [|by apply ic_row in Hc]. by destruct Hrow.
  - intros id' j row spec Hj Hrow Hsp. destruct (Hvok id' j) as (v & Hv & Hok); [by rewrite Hs|]. rewrite <-P3.
    destruct (view_ok_parts b' j row spec v Hv Hok Hrow) as (? & ? & ?); [by rewrite Hs|done].
  - by apply (rm_tables _ _ _ _ Hr).
  - intros Hp j. destruct (rm_dicts _ _ _ _ Hr Hp) as [-> ->]. destruct (decide (j = i)) as [->|Hne]; [rewrite !lookup_delete_eq; by intros [[]|[]]|].
    rewrite !lookup_delete_ne, list_lookup_insert_ne by done. by apply (ic_dicts _ _ Hc).
  - by apply (rm_mask _ _ _ _ Hr).
  - intros id' j row spec Hj Hrow Hsp. destruct (Hvok id' j) as (v & Hv & Hok); [by rewrite Hs|].
    destruct (view_ok_parts b' j row spec v Hv Hok Hrow) as (? & ? & ?); [by rewrite Hs|done].
Qed.

Lemma removal_uses id' l : uses_lora b' id' l ↔ id' ≠ id ∧ uses_lora b id' l.
Proof using All.
  split.
  - intros (j & row & Hj & Hrow & Hl). pose proof (removal_other _ _ Hj) as (Hne & _). apply removal_index in Hj as [Hd Hj]. split; [done|].
    exists j, row. by rewrite <-(removal_rows j).
  - intros [Hne (j & row & Hj & Hrow & Hl)]. assert (Hj' : req_id_to_index (slots b') !! id' = Some j) by (by apply removal_index).
    exists j, row. split_and!; [done| |done]. rewrite removal_rows; [done|]. by apply removal_other in Hj' as [? _].
Qed.

Lemma removal_lora : lora_ok b → lora_ok b'.
Proof using All.
  intros [L1 L2 L3]. destruct (rm_rows _ _ _ _ Hr) as (row & Hrow & _ & Hl). set (l := request_lora_mapping row) in *.
  assert (Hu : uses_lora b id l) by (exists i, row; done).
  assert (Huniq : ∀ l', uses_lora b id l' → l' = l) by (intros l' (j & row' & ? & ? & <-); simplify_eq; done).
  unfold lora_without in Hl. destruct (Z.eqb_spec l 0) as [H0|H0].
  - split; rewrite Hl.
    + intros l' ids Hids. destruct (L1 _ _ Hids) as (? & ? & Hin). split_and!; [done|done|]. intros id'. rewrite removal_uses, Hin. split; [|tauto].
      intros Hu'. split; [|done]. intros ->. apply Huniq in Hu'. congruence.
    + intros id' l' [_ Hu']%removal_uses. by eapply L2.
    + done.
  - destruct (L2 _ _ Hu H0) as [ids Hids]. rewrite Hids in Hl. destruct (L1 _ _ Hids) as (_ & _ & Hin).
    assert (Hkeep : ∀ l' ids', l' ≠ l → lora_id_to_request_ids (loras b) !! l' = Some ids' → l' ≠ 0 ∧ ids' ≠ ∅ ∧ ∀ id', id' ∈ ids' ↔ uses_lora b' id' l').
    { intros l' ids' Hne Hids'. destruct (L1 _ _ Hids') as (? & ? & Hin'). split_and!; [done|done|]. intros id'. rewrite removal_uses, Hin'. split; [|tauto].
      intros Hu'. split; [|done]. intros ->. by apply Huniq in Hu'. }
    case_bool_decide as He; split; rewrite Hl; cbn.
    + intros l' ids' [Hne Hids']%lookup_delete_Some. by apply Hkeep.
    + intros id' l' [Hd Hu']%removal_uses Hl'. destruct (decide (l' = l)) as [->|Hne]; [|rewrite lookup_delete_ne by done; by eapply L2].
      apply Hin in Hu'. set_solver.
    + intros l'. destruct (decide (l' = l)) as [->|Hne]; [by rewrite !lookup_delete_eq|]. rewrite !lookup_delete_ne by done. apply L3.
    + intros l' ids'. destruct (decide (l' = l)) as [->|Hne].
      * rewrite lookup_insert_eq. intros [= <-]. split_and!; [done|done|]. intros id'. rewrite removal_uses, <-Hin. set_solver.
      * rewrite lookup_insert_ne by done. by apply Hkeep.
    + intros id' l' [Hd Hu']%removal_uses Hl'. destruct (decide (l' = l)) as [->|Hne]; [rewrite lookup_insert_eq; eauto|rewrite lookup_insert_ne by done; by eapply L2].
    + intros l'. rewrite L3. destruct (decide (l' = l)) as [->|Hne]; [rewrite lookup_insert_eq, Hids; split; eauto|by rewrite lookup_insert_ne].
Qed.
End removed.

Lemma remove_ok b id i : ib_inv b → lora_ok b → is_removed_sorted (batch_update_builder b) = false → req_id_to_index (slots b) !! id = Some i →
  ∃ b', remove_request id b = (Ok (Some i), b') ∧ ib_inv b' ∧ lora_ok b' ∧ removal b id i b'.
Proof.
  intros [Hc _] Hlo Hs Hid. destruct (remove_run _ _ _ _ Hc Hlo Hs Hid) as (b' & Hrun & Hr). exists b'. pose proof (rm_builder _ _ _ _ Hr) as Hb. split_and!; [done| |by eapply removal_lora|done].
  split; rewrite Hb; cbn; [|done]. by eapply removal_core.
Qed.

(** ** Theorem: removal *)

(** Removing a request of the batch succeeds and returns its index, which
    becomes free: the invariant and the adapter tables stay right, the request is
    gone from the index and from no other place, and every other request keeps its
    index, tokens, blocks, sampling state and allowed tokens. *)
Theorem remove_request_exact b id i : ib_inv b → lora_ok b → is_removed_sorted (batch_update_builder b) = false → req_id_to_index (slots b) !! id = Some i →
  ∃ b', remove_request id b = (Ok (Some i), b') ∧ ib_inv b' ∧ lora_ok b' ∧ i ∈ removed_ (batch_update_builder b') ∧
    req_id_to_index (slots b') = delete id (req_id_to_index (slots b)) ∧
    ∀ id' j, req_id_to_index (slots b') !! id' = Some j → view b' j = view b j ∧ mask_row b' j = mask_row b j.
Proof.
  intros Hinv Hlo Hs Hid. destruct (remove_ok _ _ _ Hinv Hlo Hs Hid) as (b' & Hrun & Hinv' & Hlo' & Hr). exists b'. split_and!; try done.
  - rewrite (rm_builder _ _ _ _ Hr). cbn. set_solver.
  - by rewrite (rm_slots _ _ _ _ Hr).
  - intros id' j. destruct Hinv as [Hc _]. by eapply removal_view.
Qed.
