(* ===== verification/InputBatchAdd.v ===== *)
(** * The persistent batch: adding a request

    A request takes the lowest free index, or the next one; afterwards the batch
    shows exactly its cached state there. *)
From Stdlib Require Import QArith.
From stdpp Require Import gmap sorting.
From S2P Require Import Prelude.
From S2P Require Import RequestModel.
From S2P Require Import Arrays.
From S2P Require Import BlockTable.
From S2P Require Import InputBatch.
From S2P Require Import InputBatchInv.
From S2P Require Import InputBatchOps.
#[local] Open Scope Z_scope.

(** ** The index *)

(** Index [i] is free: a hole, or the end of the lists. *)
Definition free_index (b : InputBatch) (holes : list nat) (i : nat) : Prop :=
  ib_core b (holes ++ [i]) ∨ (i = length (req_ids_ (slots b)) ∧ holes = [] ∧ ib_core b []).

(** What [register_add_request] leaves of the builder [u]. *)
Record registered (r : CachedRequestState) (i : nat) (u u' : BatchUpdateBuilder) : Prop := {
  rg_sorted : is_removed_sorted u' = true → StronglySorted desc (removed_ u');
  rg_added : added u' = added u ++ match cr_sampling_params r with Some p => [MkAdded i p (cr_prompt_token_ids r) (cr_output_token_ids r)] | None => [] end;
  rg_moved : moved u' = moved u;
  rg_changed : batch_changed u' = true;
}.

Lemma free_lt b holes i : free_index b holes i → (num_reqs b < ib_max_num_reqs b)%nat → (i < ib_max_num_reqs b)%nat.
Proof.
  intros [Hc|(-> & _ & Hc)] Hn; pose proof (core_count _ _ Hc) as Hl; pose proof (ic_max _ _ Hc).
  - assert (i < length (req_ids_ (slots b)))%nat by (eapply hole_lt; [done|set_solver]). lia.
  - cbn in Hl. lia.
Qed.

(** The index a new request gets: the smallest one that was given up, or the end
    of the lists when there is none. *)
Definition lowest_free (b : InputBatch) (i : nat) : Prop :=
  match removed_ (batch_update_builder b) with
  | [] => i = length (req_ids_ (slots b))
  | l => i ∈ l ∧ Forall (λ j, (i ≤ j)%nat) l
  end.

Lemma desc_last_min l i : StronglySorted desc (l ++ [i]) → Forall (λ j, (i ≤ j)%nat) (l ++ [i]).
Proof.
  induction l as [|x l IH]; intros Hs; [by constructor|]. apply StronglySorted_inv in Hs as [Hs Hx]. constructor; [|by apply IH].
  apply Forall_app in Hx as [_ Hx%Forall_inv]. exact Hx.
Qed.

Lemma pop_free b : ib_inv b → ∃ i, pop_removed (batch_update_builder b) =
    (Ok (match removed_ (batch_update_builder b) with [] => None | _ => Some i end),
     MkBuilder (removelast (removed_ (ensure_removed_sorted (batch_update_builder b)))) (match removed_ (batch_update_builder b) with [] => is_removed_sorted (batch_update_builder b) | _ => true end)
       (added (batch_update_builder b)) (moved (batch_update_builder b)) (batch_changed (batch_update_builder b))) ∧
    i = default (num_reqs b) (match removed_ (batch_update_builder b) with [] => None | _ => Some i end) ∧
    free_index b (removelast (removed_ (ensure_removed_sorted (batch_update_builder b)))) i ∧
    StronglySorted desc (removelast (removed_ (ensure_removed_sorted (batch_update_builder b)))) ∧ lowest_free b i.
Proof.
  intros [Hc Hs]. unfold lowest_free. set (u := batch_update_builder b) in *. destruct (ensure_sorted_ok u Hs) as (Hsort & Hperm & Hflag).
  assert (E : added (ensure_removed_sorted u) = added u ∧ moved (ensure_removed_sorted u) = moved u ∧ batch_changed (ensure_removed_sorted u) = batch_changed u).
  { unfold ensure_removed_sorted. by destruct (is_removed_sorted u). } destruct E as (E1 & E2 & E3).
  destruct (exists_last_dec (removed_ (ensure_removed_sorted u))) as [Hnil|(l & i & Hl)].
  - rewrite Hnil in Hperm. apply Permutation_nil_l in Hperm. exists (num_reqs b). rewrite Hnil, <-Hperm. cbn. split_and!; [|done| |constructor|].
    + unfold pop_removed, has_removed. rewrite <-Hperm. cbn. rewrite Hperm. by destruct u.
    + right. rewrite <-Hperm in Hc. pose proof (core_count _ _ Hc) as Hcnt. cbn in Hcnt. split_and!; [lia|done|done].
    + rewrite <-Hperm in Hc. pose proof (core_count _ _ Hc) as Hcnt. cbn in Hcnt. lia.
  - exists i. rewrite Hl, removelast_last. assert (Hm : ∀ {A} (x y : A), match removed_ u with [] => x | _ => y end = y).
    { intros A x y. destruct (removed_ u) eqn:Eu; [|done]. rewrite Hl in Hperm. symmetry in Hperm. apply Permutation_nil_l in Hperm. by destruct l. }
    assert (Hlow : i ∈ removed_ u ∧ Forall (λ j, (i ≤ j)%nat) (removed_ u)).
    { rewrite Hl in Hperm, Hsort. rewrite <-Hperm. split; [apply elem_of_app; right; left|by apply desc_last_min]. }
    rewrite !Hm. split_and!; [|done| | |by destruct (removed_ u)].
    + unfold pop_removed, has_removed. rewrite bool_decide_false by (intros E; rewrite E, Hl in Hperm; symmetry in Hperm; apply Permutation_nil_l in Hperm; by destruct l).
      cbn. by rewrite Hl, last_snoc, removelast_last, Hflag, E1, E2, E3.
    + left. rewrite <-Hl. by eapply core_perm.
    + rewrite Hl in Hsort. by apply StronglySorted_app_1_l in Hsort.
Qed.

Lemma register_ok b r : ib_inv b → (num_reqs b < ib_max_num_reqs b)%nat →
  ∃ i u', register_add_request r b = (Ok i, set_builder u' b) ∧ free_index b (removed_ u') i ∧ registered r i (batch_update_builder b) u' ∧ lowest_free b i.
Proof.
  intros Hinv Hn. destruct (pop_free b Hinv) as (i & Hpop & Hi & Hf & Hs & Hlow). pose proof (free_lt _ _ _ Hf Hn) as Hlt.
  unfold register_add_request. erewrite bind_ok by (apply zoom_ok; exact Hpop). erewrite bind_ok by exact eq_refl. cbv zeta.
  erewrite bind_ok by exact eq_refl. cbn beta. change (num_reqs (set_builder ?x b)) with (num_reqs b). rewrite <-Hi.
  change (ib_max_num_reqs (set_builder ?x b)) with (ib_max_num_reqs b). unfold py_assert. rewrite (proj2 (Nat.ltb_lt _ _) Hlt).
  do 2 (erewrite bind_ok by exact eq_refl). destruct (cr_sampling_params r) as [p|] eqn:Ep; (erewrite bind_ok by exact eq_refl); eexists i, _; (split; [exact eq_refl|]);
    (split; [exact Hf|]); (split; [|exact Hlow]); (split; cbn; [intros _; exact Hs|rewrite Ep; rewrite ?app_nil_r; done|done|done]).
Qed.

(** ** The lists *)

(** The lists and the index with request [r] at [i]. *)
Definition placed (r : CachedRequestState) (i : nat) (s : Slots) : Slots :=
  let id := Some (cr_req_id r) in
  let out := Some (cr_output_token_ids r) in
  if (i =? length (req_ids_ s))%nat then
    MkSlots (req_ids_ s ++ [id]) (req_output_token_ids s ++ [out]) (spec_token_ids s ++ [[]]) (<[cr_req_id r := i]> (req_id_to_index s))
  else MkSlots (<[i := id]> (req_ids_ s)) (<[i := out]> (req_output_token_ids s)) (<[i := []]> (spec_token_ids s)) (<[cr_req_id r := i]> (req_id_to_index s)).

Section place.
Variables (b : InputBatch) (holes : list nat) (i : nat).
Hypothesis Hfree : free_index b holes i.
Let s := slots b.

Lemma free_core : ∃ h, ib_core b h ∧ (∀ j, j ∈ h ↔ j ∈ holes ∨ (j = i ∧ i ≠ length (req_ids_ s))) ∧ (i ≤ length (req_ids_ s))%nat ∧ NoDup holes ∧ i ∉ holes.
Proof using Hfree.
  destruct Hfree as [Hc|(-> & -> & Hc)].
  - assert (Hi : (i < length (req_ids_ s))%nat) by (eapply hole_lt; [exact Hc|apply elem_of_app; right; by left]). pose proof (ic_nodup _ _ Hc) as Hn.
    exists (holes ++ [i]). apply NoDup_app in Hn as (Hn & Hd & _). split_and!; [done| |lia|done|intros Hin; apply (Hd _ Hin); by left].
    intros j. rewrite elem_of_app, list_elem_of_singleton. intuition lia.
  - exists []. split_and!; [done| |done|apply NoDup_nil_2|by intros ?%elem_of_nil]. intros j. rewrite !elem_of_nil. tauto.
Qed.

Lemma free_none id : req_id_to_index s !! id ≠ Some i.
Proof using Hfree.
  intros Hid. destruct free_core as (h & Hc & Hh & Hi & _). apply (ic_index _ _ Hc) in Hid. pose proof (lookup_lt_Some _ _ _ Hid).
  assert (i ∈ h) as Hn%(ic_holes _ _ Hc) by (apply Hh; right; split; [done|unfold s; lia]). unfold s in *. congruence.
Qed.

Variable r : CachedRequestState.
Hypothesis Hnew : req_id_to_index (slots b) !! cr_req_id r = None.
Let s' := placed r i s.

Lemma take_place_ok : take_place r i b = (Ok tt, upd_slots (placed r i) b).
Proof using Hfree.
  destruct free_core as (h & Hc & _ & Hi & _). pose proof (ic_outputs _ _ Hc) as Lo. pose proof (ic_specs _ _ Hc) as Ls.
  unfold take_place. erewrite bind_ok by exact eq_refl. cbn beta.
  assert (E : upd_slots (placed r i) b = upd_slots (λ _, placed r i (slots b)) b) by done. rewrite E. unfold placed. fold s in Hi, Lo, Ls |- *.
  destruct (Nat.eqb_spec i (length (req_ids_ s))) as [->|Hne].
  - erewrite bind_ok; [|do 2 (erewrite bind_ok by (by apply on_list_ok)); by apply on_list_ok]. done.
  - erewrite bind_ok; [|do 2 (erewrite bind_ok by (apply on_list_ok; apply arr_set_ok; cbn; unfold s in *; lia)); apply on_list_ok; apply arr_set_ok; cbn; unfold s in *; lia]. done.
Qed.

Lemma placed_ids j : req_ids_ s' !! j = if decide (j = i) then Some (Some (cr_req_id r)) else req_ids_ s !! j.
Proof using Hfree.
  destruct free_core as (_ & _ & _ & Hi & _). unfold s', placed. destruct (Nat.eqb_spec i (length (req_ids_ s))) as [->|Hne]; cbn; case_decide as Hj.
  - subst j. by rewrite list_lookup_middle.
  - destruct (decide (j < length (req_ids_ s))%nat); [by rewrite lookup_app_l|]. rewrite !lookup_ge_None_2; [done|lia|rewrite length_app; cbn; lia].
  - subst j. rewrite list_lookup_insert_eq by lia. done.
  - by rewrite list_lookup_insert_ne.
Qed.

Lemma placed_spec : spec_token_ids s' !! i = Some [] ∧ req_output_token_ids s' !! i = Some (Some (cr_output_token_ids r)).
Proof using Hfree.
  destruct free_core as (h & Hc & _ & Hi & _). pose proof (ic_outputs _ _ Hc) as Lo. pose proof (ic_specs _ _ Hc) as Ls. fold s in Lo, Ls.
  unfold s', placed. destruct (Nat.eqb_spec i (length (req_ids_ s))) as [->|Hne]; cbn.
  - split; [|by rewrite <-Lo, list_lookup_middle]. destruct (decide (length (req_ids_ s) = length (spec_token_ids s))) as [E|Hne]; [by rewrite E, list_lookup_middle|].
    destruct (lookup_lt_is_Some_2 (spec_token_ids s) (length (req_ids_ s))) as [l Hl]; [lia|]. rewrite lookup_app_l, Hl by lia. f_equal. by apply (ic_beyond _ _ Hc _ _ (le_n _)).
  - by rewrite !list_lookup_insert_eq by lia.
Qed.

Lemma placed_other j : (j < length (req_ids_ s))%nat → j ≠ i → spec_token_ids s' !! j = spec_token_ids s !! j ∧ req_output_token_ids s' !! j = req_output_token_ids s !! j.
Proof using Hfree.
  destruct free_core as (h & Hc & _ & Hi & _). pose proof (ic_outputs _ _ Hc) as Lo. pose proof (ic_specs _ _ Hc) as Ls. fold s in Lo, Ls.
  intros Hj Hne. unfold s', placed. destruct (Nat.eqb_spec i (length (req_ids_ s))) as [->|]; cbn; [by rewrite !lookup_app_l by lia|by rewrite !list_lookup_insert_ne].
Qed.

Lemma placed_lengths : length (req_ids_ s') = Nat.max (length (req_ids_ s)) (S i) ∧ length (req_output_token_ids s') = length (req_ids_ s') ∧
  (length (req_ids_ s') ≤ length (spec_token_ids s'))%nat ∧ ∀ j l, (length (req_ids_ s') ≤ j)%nat → spec_token_ids s' !! j = Some l → l = [].
Proof using Hfree.
  destruct free_core as (h & Hc & _ & Hi & _). pose proof (ic_outputs _ _ Hc) as Lo. pose proof (ic_specs _ _ Hc) as Ls. fold s in Lo, Ls.
  unfold s', placed. destruct (Nat.eqb_spec i (length (req_ids_ s))) as [->|Hne]; cbn; rewrite ?length_app, ?length_insert; cbn; split_and!; try lia; intros j l Hj.
  - rewrite lookup_app_Some. intros [Hl|[Hge Hl]]; [apply (ic_beyond _ _ Hc j l); [fold s; lia|done]|]. apply list_lookup_singleton_Some in Hl as [_ <-]. done.
  - rewrite list_lookup_insert_ne by lia. apply (ic_beyond _ _ Hc j l). fold s. lia.
Qed.

Lemma placed_index id j : req_id_to_index s' !! id = Some j ↔ (id = cr_req_id r ∧ j = i) ∨ (id ≠ cr_req_id r ∧ req_id_to_index s !! id = Some j).
Proof using.
  assert (E : req_id_to_index s' = <[cr_req_id r := i]> (req_id_to_index s)) by (unfold s', placed; by destruct (_ =? _)%nat). rewrite E, lookup_insert_Some. intuition congruence.
Qed.

Lemma placed_index_ids id j : req_id_to_index s' !! id = Some j ↔ req_ids_ s' !! j = Some (Some id).
Proof using Hfree Hnew.
  destruct free_core as (h & Hc & _). rewrite placed_index, placed_ids. case_decide as Hj.
  - subst j. split; [intros [[-> _]|[_ Hid]]; [done|by destruct (free_none id)]|]. intros [= <-]. by left.
  - unfold s. rewrite (ic_index _ _ Hc). split; [by intros [[_ ->]|[_ ?]]|]. intros Hid. right. split; [|done]. intros ->.
    apply (ic_index _ _ Hc) in Hid. congruence.
Qed.

Lemma placed_holes j : j ∈ holes ↔ req_ids_ s' !! j = Some None.
Proof using Hfree.
  destruct free_core as (h & Hc & Hh & Hi & _ & Hni). rewrite placed_ids. case_decide as Hj; [subst j; split; [done|congruence]|].
  unfold s. rewrite <-(ic_holes _ _ Hc), Hh. intuition congruence.
Qed.
End place.

(** ** Tokens and blocks *)

Lemma on_row_ok b i row row' f : rows b !! i = Some row → f row = Ok row' → on_row i f b = (Ok tt, set_rows (<[i := row']> (rows b)) b).
Proof. intros Hr Hf. unfold on_row, on_rows. apply on_list_ok. rewrite (arr_get_ok _ _ _ Hr). cbn. by rewrite Hf. Qed.

(** Row [row] with the tokens and counts of [r], whose output is [out]. *)
Definition token_row (r : CachedRequestState) (out : list Z) (row : Row) : Row :=
  let n := cr_num_prompt_tokens r in
  let old := take (Z.to_nat n) (token_ids_cpu row) in
  let is_token := match cr_prompt_token_ids r with Some _ => true | None => false end in
  let m := (Z.to_nat n + length out)%nat in
  row_counts (n + len out) n (cr_num_computed_tokens r)
    (row_tokens (default old (cr_prompt_token_ids r) ++ out ++ drop m (token_ids_cpu row))
                (replicate (Z.to_nat n) is_token ++ replicate (length out) true ++ drop m (is_token_ids row)) row).

Definition embed_by_index (r : CachedRequestState) (i : nat) (x : ByIndex) : ByIndex :=
  MkByIndex (match cr_prompt_embeds r with Some e => <[i := e]> (req_prompt_embeds x) | None => req_prompt_embeds x end) (generators x) (bad_words_token_ids x).

(** The length of the prompt, and that of its tokens. *)
Lemma prompt_length r : length_from_prompt_token_ids_or_embeds (cr_prompt_token_ids r) (cr_prompt_embeds r) = Ok (cr_num_prompt_tokens r) →
  0 ≤ cr_num_prompt_tokens r ∧ ∀ p, cr_prompt_token_ids r = Some p → len p = cr_num_prompt_tokens r.
Proof.
  unfold length_from_prompt_token_ids_or_embeds. destruct (cr_prompt_token_ids r) as [p|], (cr_prompt_embeds r) as [e|]; [case_match|..]; try done; intros [= <-];
    (split; [apply len_nonneg|]); intros ? [= <-]; done.
Qed.

Section tokens.
Variables (mml : Z) (r : CachedRequestState) (out : list Z) (row : Row).
Hypothesis Hwf : row_wf mml row.
Hypothesis Hlen : length_from_prompt_token_ids_or_embeds (cr_prompt_token_ids r) (cr_prompt_embeds r) = Ok (cr_num_prompt_tokens r).
Hypothesis Hfit : cr_num_prompt_tokens r + len out ≤ mml.
Let n := cr_num_prompt_tokens r.

Lemma prompt_row_ok : write_prompt (cr_prompt_token_ids r) n row =
  Ok (row_tokens (default (take (Z.to_nat n) (token_ids_cpu row)) (cr_prompt_token_ids r) ++ drop (Z.to_nat n) (token_ids_cpu row))
                 (replicate (Z.to_nat n) (match cr_prompt_token_ids r with Some _ => true | None => false end) ++ drop (Z.to_nat n) (is_token_ids row)) row).
Proof using All.
  destruct (prompt_length r Hlen) as [H0 Hp]. fold n in H0, Hp, Hfit. pose proof (len_nonneg out). destruct Hwf as [W1 W2].
  assert (Hfill : ∀ v, arr_fill (is_token_ids row) 0 n v = replicate (Z.to_nat n) v ++ drop (Z.to_nat n) (is_token_ids row)).
  { intros v. replace n with (0 + n) at 1 by lia. rewrite arr_fill_ok by lia. done. }
  unfold write_prompt. destruct (cr_prompt_token_ids r) as [p|]; cbn; [|by rewrite Hfill, take_drop].
  specialize (Hp p eq_refl). replace n with (0 + len p) at 1 by lia. rewrite arr_write_ok by lia. cbn. rewrite Hfill. by rewrite <-Hp, len_to_nat.
Qed.

End tokens.

Lemma output_row_ok mml out n (row : Row) (p t : list Z) (k l : list bool) : 0 ≤ n → len p = n → len k = n → len t = mml → len l = mml → n + len out ≤ mml →
  token_ids_cpu row = p ++ drop (Z.to_nat n) t → is_token_ids row = k ++ drop (Z.to_nat n) l →
  let m := (Z.to_nat n + length out)%nat in
  write_output out n row = Ok (row_tokens (p ++ out ++ drop m t) (k ++ replicate (length out) true ++ drop m l) row).
Proof.
  intros Hn Hp Hk Ht Hl Hfit Et Ek m. pose proof (len_nonneg out).
  assert (L : ∀ {A} (x y : list A), len x = n → len y = mml → len (x ++ drop (Z.to_nat n) y) = mml).
  { intros A x y Hx Hy. unfold len in *. rewrite length_app, length_drop. lia. }
  assert (D : ∀ {A} (x y : list A), len x = n → take (Z.to_nat n) (x ++ drop (Z.to_nat n) y) = x ∧ drop (Z.to_nat n + length out) (x ++ drop (Z.to_nat n) y) = drop m y).
  { intros A x y Hx. unfold len in Hx. rewrite take_app_le, take_ge, drop_app_ge, drop_drop by lia. split; [done|]. unfold m. f_equal. lia. }
  unfold write_output. rewrite Et, Ek, arr_write_ok by (rewrite ?L; done || lia). cbn. rewrite arr_fill_ok by (rewrite ?L; done || lia).
  destruct (D _ p t Hp) as [-> ->]. rewrite len_to_nat. by destruct (D _ k l Hk) as [-> ->].
Qed.

(** The rows the writes leave. *)
Lemma token_row_ok mml r out row : row_wf mml row →
  length_from_prompt_token_ids_or_embeds (cr_prompt_token_ids r) (cr_prompt_embeds r) = Ok (cr_num_prompt_tokens r) →
  cr_num_prompt_tokens r + len out ≤ mml →
  ∃ r1 r2, let n := cr_num_prompt_tokens r in
    write_prompt (cr_prompt_token_ids r) n (row_counts (num_tokens_no_spec row) n (num_computed_tokens_cpu row) row) = Ok r1 ∧
    write_output out n r1 = Ok r2 ∧ row_counts (n + len out) (num_prompt_tokens r2) (cr_num_computed_tokens r) r2 = token_row r out row ∧
    row_wf mml (token_row r out row).
Proof.
  intros Hwf Hlen Hfit. destruct (prompt_length r Hlen) as [H0 Hp]. pose proof (len_nonneg out). destruct Hwf as [W1 W2].
  assert (Hd : len (default (take (Z.to_nat (cr_num_prompt_tokens r)) (token_ids_cpu row)) (cr_prompt_token_ids r)) = cr_num_prompt_tokens r).
  { destruct (cr_prompt_token_ids r) as [p|]; [by apply Hp|]. cbn. unfold len in *. rewrite length_take. lia. }
  eexists _, _. split_and!.
  - apply (prompt_row_ok mml r out); done.
  - eapply (output_row_ok mml); [done|exact Hd| |exact W1|exact W2|done|done|done]. unfold len. rewrite length_replicate. lia.
  - done.
  - split; cbn; unfold len in *; rewrite !length_app, ?length_replicate, length_drop; lia.
Qed.

(** The blocks fit the tables. *)
Definition blocks_fit (ids : list (list Z)) (ts : MultiGroupBlockTable) : Prop :=
  ∀ g t, ts !! g = Some t → ∃ l, ids !! g = Some l ∧ len (kernel_ids t l) ≤ max_num_blocks_per_req t.

(** The blocks a request shows in the tables. *)
Definition shown_blocks (ids : list (list Z)) (ts : MultiGroupBlockTable) : list (option (list Z)) :=
  imap (λ g t, Some (kernel_ids t (default [] (ids !! g)))) ts.

Lemma add_tables ids ts n r : (∃ gs, mg_rep ts gs ∧ Forall (λ g, length g.1 = n) gs) → (r < n)%nat → blocks_fit ids ts →
  ∃ ts', mg_add_row ids r ts = (Ok tt, ts') ∧ (∃ gs', mg_rep ts' gs' ∧ Forall (λ g, length g.1 = n) gs') ∧
    (∀ i, (i < n)%nat → i ≠ r → (λ t, row_blocks t i) <$> ts' = (λ t, row_blocks t i) <$> ts) ∧
    (λ t, row_blocks t r) <$> ts' = shown_blocks ids ts ∧ Forall2 same_shape ts ts'.
Proof.
  intros (gs & Hrep & Hlen) Hr Hfit. destruct (row_op_ok (RAdd ids r) ts gs Hrep) as (ts' & Hrun & Hrep' & Hsh).
  { intros g t x Ht Hx. destruct (Hfit g t Ht) as (l & Hl & Hf). eapply Forall_lookup_1 in Hlen; [|exact Hx]. cbn. rewrite Hl. split_and!; [by apply lookup_lt_Some in Hl|lia|done]. }
  exists ts'. split_and!; [exact Hrun| | | |exact Hsh].
  - eexists. split; [exact Hrep'|]. apply Forall_lookup_2. intros g x Hx. rewrite list_lookup_imap in Hx. destruct (gs !! g) as [[y d]|] eqn:Hy; [|done].
    cbn in Hx. injection Hx as <-. cbn. rewrite length_insert. by eapply (Forall_lookup_1 _ _ _ _ Hlen) in Hy.
  - intros i Hi Hne. apply (rows_unchanged ts ts' gs (imap (spec_row_op (RAdd ids r)) gs) n i Hrep Hrep' Hlen Hsh Hi).
    intros g [y d] x' Hy Hx'. rewrite list_lookup_imap, Hy in Hx'. cbn in Hx'. injection Hx' as <-. cbn. by rewrite list_lookup_insert_ne.
  - apply list_eq. intros g. unfold shown_blocks. rewrite list_lookup_fmap, list_lookup_imap. destruct (ts' !! g) as [t'|] eqn:Ht'.
    + destruct (Forall2_lookup_r _ _ _ _ _ Hsh Ht') as (t & Ht & Hshape). rewrite Ht. cbn. f_equal. rewrite <-(kernel_ids_shape _ _ _ Hshape).
      destruct (Forall2_lookup_l _ _ _ _ _ Hrep Ht) as ([y d] & Hy & _). eapply row_blocks_rep; [eapply (Forall2_lookup_lr _ _ _ _ _ _ Hrep' Ht')|].
      * rewrite list_lookup_imap, Hy. done.
      * cbn. apply list_lookup_insert_eq. eapply (Forall_lookup_1 _ _ _ _ Hlen) in Hy. cbn in Hy. lia.
    + assert (ts !! g = None) as -> by (apply lookup_ge_None; rewrite (Forall2_length _ _ _ Hsh); by apply lookup_ge_None). done.
Qed.

(** A cached request whose tokens and blocks fit the batch. *)
Record cached_fits (b : InputBatch) (r : CachedRequestState) : Prop := {
  cf_prompt : length_from_prompt_token_ids_or_embeds (cr_prompt_token_ids r) (cr_prompt_embeds r) = Ok (cr_num_prompt_tokens r);
  cf_len : cr_num_prompt_tokens r + len (output_of b r) ≤ max_model_len b;
  cf_blocks : blocks_fit (cr_block_ids r) (tables b);
}.

Lemma write_tokens_ok b r i row ts' : rows b !! i = Some row → row_wf (max_model_len b) row → cached_fits b r → mg_add_row (cr_block_ids r) i (tables b) = (Ok tt, ts') →
  write_tokens r i b = (Ok tt, set_tables ts' (upd_by_index (embed_by_index r i) (set_rows (<[i := token_row r (output_of b r) row]> (rows b)) b))).
Proof.
  intros Hr Hwf [Hlen Hfit _] Hts. destruct (token_row_ok (max_model_len b) r (output_of b r) row Hwf Hlen Hfit) as (r1 & r2 & W1 & W2 & W3 & _).
  pose proof (lookup_lt_Some _ _ _ Hr) as Hi. unfold write_tokens. erewrite bind_ok by (apply lift_ok; exact Hlen). cbn beta.
  erewrite bind_ok by (eapply on_row_ok; [exact Hr|exact eq_refl]).
  erewrite bind_ok by (eapply on_row_ok; [apply list_lookup_insert_eq; exact Hi|exact W1]). cbn [rows set_rows]. rewrite list_insert_insert_eq.
  set (b1 := set_rows (<[i := r1]> (rows b)) (set_rows _ b)).
  assert (E : (match cr_prompt_embeds r with
     | Some e => modify (upd_by_index (λ x, MkByIndex (<[i := e]> (req_prompt_embeds x)) (generators x) (bad_words_token_ids x)))
     | None => ret tt end) b1 = (Ok tt, upd_by_index (embed_by_index r i) b1)).
  { unfold embed_by_index. destruct (cr_prompt_embeds r); [done|]. unfold ret. f_equal. apply batch_eq; try exact eq_refl. cbn. by destruct (by_index b). }
  erewrite bind_ok by exact E. erewrite bind_ok by exact eq_refl. cbn beta. change (output_of (upd_by_index _ b1) r) with (output_of b r).
  erewrite bind_ok by (eapply on_row_ok; [apply list_lookup_insert_eq; exact Hi|exact W2]). cbn [rows set_rows upd_by_index b1]. rewrite list_insert_insert_eq.
  erewrite bind_ok by (eapply on_row_ok; [apply list_lookup_insert_eq; exact Hi|rewrite W3; exact eq_refl]). cbn [rows set_rows]. rewrite list_insert_insert_eq.
  unfold on_tables. erewrite zoom_ok by exact Hts. exact eq_refl.
Qed.

(** ** Sampling, pooling, adapters *)

(** The row of the mask for the allowed tokens [ids]: True where the token is not
    one of them. *)
Definition banned_row (vocab : Z) (ids : list Z) : list bool := (λ k, bool_decide (k ∉ ids)) <$> seqZ 0 vocab.

Lemma allow_only_ok vocab ids : Forall (λ k, 0 ≤ k < vocab) ids → allow_only vocab ids = Ok (banned_row vocab ids).
Proof.
  intros Hall. unfold allow_only. cut (∀ done todo, ids = done ++ todo → fold_res (λ row k, let j := if k <? 0 then k + len row else k in
    if (0 <=? j) && (j <? len row) then Ok (<[Z.to_nat j := false]> row) else Raise IndexError) (banned_row vocab done) todo = Ok (banned_row vocab ids)).
  { intros H. etrans; [|apply (H [] ids eq_refl)]. f_equal. apply list_eq. intros k. unfold banned_row. rewrite list_lookup_fmap.
    unfold py_repeat. destruct (seqZ 0 vocab !! k) as [x|] eqn:Hx; cbn.
    - apply lookup_lt_Some in Hx as Hk. rewrite length_seqZ in Hk. rewrite lookup_replicate_2 by lia. done.
    - apply lookup_ge_None in Hx. rewrite length_seqZ in Hx. apply lookup_ge_None. rewrite length_replicate. lia. }
  intros done todo. revert done. induction todo as [|x todo IH]; intros done E.
  - rewrite app_nil_r in E. by subst.
  - assert (Hx : 0 ≤ x < vocab) by (rewrite Forall_forall in Hall; apply Hall; rewrite E; set_solver).
    assert (Hl : len (banned_row vocab done) = vocab) by (unfold len, banned_row; rewrite length_fmap, length_seqZ; lia).
    cbn [fold_res]. cbv zeta. rewrite (proj2 (Z.ltb_ge x 0)), Hl, (proj2 (Z.leb_le 0 x)), (proj2 (Z.ltb_lt x vocab)) by lia. cbn [andb]. rewrite <-(IH (done ++ [x])) by (by rewrite <-app_assoc).
    cbn [res_bind]. apply (f_equal (λ row, fold_res _ row todo)). apply list_eq. intros k. unfold banned_row. destruct (decide (k = Z.to_nat x)) as [->|Hk].
    + rewrite list_lookup_insert_eq by (unfold len, banned_row in Hl; lia). rewrite list_lookup_fmap, lookup_seqZ_lt by lia. cbn. rewrite bool_decide_false; [done|]. set_solver by lia.
    + rewrite list_lookup_insert_ne, !list_lookup_fmap by done. destruct (seqZ 0 vocab !! k) as [y|] eqn:Hy; [|done]. cbn. f_equal. apply bool_decide_ext.
      apply lookup_seqZ in Hy as [Hy Hlt]. rewrite elem_of_app, list_elem_of_singleton. intuition lia.
Qed.

(** The tokens a request may use, when it restricts them. *)
Definition restricts (p : SampleParams) : option (list Z) :=
  match allowed_token_ids p with Some (k :: ids) => Some (k :: ids) | _ => None end.

Definition bans_words (p : SampleParams) : option (list (list Z)) :=
  match sp_bad_words_token_ids p with Some (w :: ws) => Some (w :: ws) | _ => None end.

(** The mask of the batch with request [p] at [i]. *)
Definition new_mask (b : InputBatch) (p : SampleParams) (i : nat) : option (list (list bool)) :=
  match restricts p with
  | Some ids => Some (<[i := banned_row (vocab_size b) ids]> (default (replicate (ib_max_num_reqs b) (py_repeat false (vocab_size b))) (allowed_token_ids_mask b)))
  | None => allowed_token_ids_mask b
  end.

Definition sampling_by_index (r : CachedRequestState) (p : SampleParams) (i : nat) (x : ByIndex) : ByIndex :=
  MkByIndex (req_prompt_embeds x) (match cr_generator r with Some g => <[i := g]> (generators x) | None => generators x end)
    (match bans_words p with Some ws => <[i := ws]> (bad_words_token_ids x) | None => bad_words_token_ids x end).

Definition allowed_by_id (r : CachedRequestState) (p : SampleParams) (x : ById) : ById :=
  match restricts p with Some _ => with_allowed (λ l, {[ cr_req_id r ]} ∪ l) x | None => x end.

Lemma set_allowed_ok b i ids : (∀ m, allowed_token_ids_mask b = Some m → length m = ib_max_num_reqs b) → (i < ib_max_num_reqs b)%nat → Forall (λ k, 0 ≤ k < vocab_size b) ids →
  set_allowed_mask ids i b = (Ok tt, set_mask (Some (<[i := banned_row (vocab_size b) ids]> (default (replicate (ib_max_num_reqs b) (py_repeat false (vocab_size b))) (allowed_token_ids_mask b)))) b).
Proof.
  intros Hm Hi Hids. unfold set_allowed_mask. erewrite bind_ok by exact eq_refl. cbv zeta. cbn [id]. set (m := default _ _).
  assert (Hl : length m = ib_max_num_reqs b) by (unfold m; destruct (allowed_token_ids_mask b); [by apply Hm|cbn; by rewrite length_replicate]).
  erewrite bind_ok by exact eq_refl. erewrite bind_ok by (apply lift_ok; apply arr_set_ok; lia). erewrite bind_ok by exact eq_refl.
  erewrite bind_ok by (apply lift_ok; by apply allow_only_ok). erewrite bind_ok by (apply lift_ok; apply arr_set_ok; rewrite length_insert; lia).
  unfold modify. f_equal. apply batch_eq; try exact eq_refl. cbn. by rewrite list_insert_insert_eq.
Qed.

Section add.
Variable float32 : Q → Q.

Lemma add_sampling_ok b r p i row : rows b !! i = Some row → (∀ m, allowed_token_ids_mask b = Some m → length m = ib_max_num_reqs b) → (i < ib_max_num_reqs b)%nat →
  (∀ ids, allowed_token_ids p = Some ids → Forall (λ k, 0 ≤ k < vocab_size b) ids) →
  add_sampling float32 r p i b = (Ok tt, set_mask (new_mask b p i) (upd_by_index (sampling_by_index r p i)
    (upd_by_id (λ x, allowed_by_id r p (sampling_ids (vocab_size b) (cr_req_id r) p x)) (set_rows (<[i := sampling_row float32 (vocab_size b) p row]> (rows b)) b)))).
Proof.
  intros Hr Hm Hi Hids. unfold add_sampling. erewrite bind_ok by exact eq_refl. cbn beta. erewrite bind_ok by (eapply on_row_ok; [exact Hr|exact eq_refl]).
  erewrite bind_ok by exact eq_refl. set (b1 := upd_by_id _ _).
  erewrite (bind_ok _ _ b1 tt (upd_by_index (λ x, MkByIndex (req_prompt_embeds x) (match cr_generator r with Some g => <[i := g]> (generators x) | None => generators x end) (bad_words_token_ids x)) b1)).
  2: { destruct (cr_generator r); [done|]. unfold ret. f_equal. apply batch_eq; try exact eq_refl. cbn. by destruct (by_index b). }
  set (b2 := upd_by_index _ b1).
  erewrite (bind_ok _ _ b2 tt (set_mask (new_mask b p i) (upd_by_id (allowed_by_id r p) b2))).
  2: { unfold new_mask, allowed_by_id, restricts. specialize (Hids). destruct (allowed_token_ids p) as [[|k ids]|].
       1,3: unfold ret; f_equal; by apply batch_eq.
       erewrite bind_ok by exact eq_refl. rewrite set_allowed_ok; [done|exact Hm|exact Hi|by apply Hids]. }
  unfold sampling_by_index, bans_words. destruct (sp_bad_words_token_ids p) as [[|w ws]|]; cbn; unfold ret, modify; f_equal; by apply batch_eq.
Qed.

(** The row of a request with parameters [p] or, for a pooling model, [q]. *)
Definition final_row (b : InputBatch) (r : CachedRequestState) (row : Row) : Row :=
  let row := token_row r (output_of b r) row in
  let row := match cr_sampling_params r, cr_pooling_params r with
             | Some p, _ => sampling_row float32 (vocab_size b) p row
             | None, Some q => row_needs (requires_token_ids q) row
             | None, None => row
             end in
  row_lora (match cr_lora_request r with Some l => lora_int_id l | None => 0 end) (row_accepted 1 row).

Definition final_loras (r : CachedRequestState) (x : Loras) : Loras :=
  match cr_lora_request r with
  | Some l => MkLoras (<[lora_int_id l := {[ cr_req_id r ]} ∪ default ∅ (lora_id_to_request_ids x !! lora_int_id l)]> (lora_id_to_request_ids x))
                (<[lora_int_id l := l]> (lora_id_to_lora_request x))
  | None => x
  end.

Lemma add_lora_ok b r i row : rows b !! i = Some row →
  add_lora r i b = (Ok tt, set_loras (final_loras r (loras b)) (set_rows (<[i := row_lora (match cr_lora_request r with Some l => lora_int_id l | None => 0 end) row]> (rows b)) b)).
Proof.
  intros Hr. unfold add_lora, final_loras. destruct (cr_lora_request r) as [l|]; cbv zeta.
  - erewrite bind_ok by (eapply on_row_ok; [exact Hr|exact eq_refl]). exact eq_refl.
  - erewrite on_row_ok; [|exact Hr|exact eq_refl]. exact eq_refl.
Qed.

Lemma add_pooling_ok b r q st i row : rows b !! i = Some row → cr_pooling_states r = Some st →
  add_pooling r q i b = (Ok tt, upd_by_id (λ x, with_pooling (<[cr_req_id r := q]> (pooling_params x)) (<[cr_req_id r := st]> (pooling_states x)) x)
    (set_rows (<[i := row_needs (requires_token_ids q) row]> (rows b)) b)).
Proof.
  intros Hr Hst. unfold add_pooling. rewrite Hst. erewrite bind_ok by exact eq_refl. erewrite on_row_ok; [|exact Hr|exact eq_refl]. exact eq_refl.
Qed.

(** A request the batch can take: its parameters are of the kind of the model. *)
Record cached_kind (b : InputBatch) (r : CachedRequestState) : Prop := {
  ck_sampling : is_pooling_model b = false → ∃ p, cr_sampling_params r = Some p ∧ ∀ ids, allowed_token_ids p = Some ids → Forall (λ k, 0 ≤ k < vocab_size b) ids;
  ck_pooling : is_pooling_model b = true → cr_sampling_params r = None ∧ is_Some (cr_pooling_params r) ∧ is_Some (cr_pooling_states r);
}.

(** Batch [b'] is [b] with [r] at [i]. *)
Record addition (b : InputBatch) (r : CachedRequestState) (i : nat) (b' : InputBatch) : Prop := {
  ad_config : is_pooling_model b' = is_pooling_model b ∧ ib_max_num_reqs b' = ib_max_num_reqs b ∧ max_model_len b' = max_model_len b ∧ vocab_size b' = vocab_size b;
  ad_slots : slots b' = placed r i (slots b);
  ad_rows : ∃ row, rows b !! i = Some row ∧ rows b' = <[i := final_row b r row]> (rows b);
  ad_loras : loras b' = final_loras r (loras b);
  ad_tables : (∃ gs, mg_rep (tables b') gs ∧ Forall (λ g, length g.1 = ib_max_num_reqs b) gs) ∧
    (∀ j, (j < ib_max_num_reqs b)%nat → j ≠ i → (λ t, row_blocks t j) <$> tables b' = (λ t, row_blocks t j) <$> tables b) ∧
    (λ t, row_blocks t i) <$> tables b' = shown_blocks (cr_block_ids r) (tables b);
  ad_by_index : by_index b' = match cr_sampling_params r with Some p => sampling_by_index r p i (embed_by_index r i (by_index b)) | None => embed_by_index r i (by_index b) end;
  ad_mask : allowed_token_ids_mask b' = match cr_sampling_params r with Some p => new_mask b p i | None => allowed_token_ids_mask b end;
  ad_lists : output_lists b' = output_lists b;
  ad_shape : Forall2 same_shape (tables b) (tables b');
}.

Lemma add_run b r : ib_inv b → (num_reqs b < ib_max_num_reqs b)%nat → cached_fits b r → cached_kind b r →
  ∃ i b', ib_add_request float32 r b = (Ok i, b') ∧ addition b r i b' ∧ free_index b (removed_ (batch_update_builder b')) i ∧ (i < ib_max_num_reqs b)%nat ∧
    registered r i (batch_update_builder b) (batch_update_builder b') ∧ lowest_free b i.
Proof.
  intros Hinv Hn Hfits [Hks Hkp]. destruct (register_ok b r Hinv Hn) as (i & u' & Hreg & Hf & Hrg & Hlow). pose proof (free_lt _ _ _ Hf Hn) as Hi. exists i.
  destruct Hinv as [Hc _]. destruct (lookup_lt_is_Some_2 (rows b) i) as [row Hrow]; [by rewrite (ic_rows _ _ Hc)|].
  assert (Hwf : row_wf (max_model_len b) row) by (eapply Forall_lookup_1; [exact (ic_row _ _ Hc)|done]).
  destruct (add_tables (cr_block_ids r) (tables b) (ib_max_num_reqs b) i (ic_tables _ _ Hc) Hi (cf_blocks _ _ Hfits)) as (ts' & Hts & Hgs & Hoth & Hself & Hsh).
  assert (Hf' : free_index (set_builder u' b) (removed_ u') i) by (destruct Hf as [?|(? & ? & ?)]; [left|right; split_and!]; try done; by apply builder_core).
  set (tok := token_row r (output_of b r) row).
  set (b1 := set_tables ts' (upd_by_index (embed_by_index r i) (set_rows (<[i := tok]> (rows b)) (upd_slots (placed r i) (set_builder u' b))))).
  assert (Hlt : (i < length (rows b))%nat) by (by apply lookup_lt_Some in Hrow).
  assert (Hrun : ib_add_request float32 r b = (match cr_sampling_params r, cr_pooling_params r with
      | Some p, _ => add_sampling float32 r p i | None, Some q => add_pooling r q i | None, None => raise NotImplementedError end ;;;
      on_row i (λ row, Ok (row_accepted 1 row)) ;;; add_lora r i ;;; ret i) b1).
  { unfold ib_add_request. erewrite bind_ok by exact Hreg. cbn beta. erewrite bind_ok by (by eapply take_place_ok).
    erewrite bind_ok by (eapply write_tokens_ok; [exact Hrow|exact Hwf|by destruct Hfits|exact Hts]). exact eq_refl. }
  rewrite Hrun. assert (Hin : ∀ x, (<[i := x]> (rows b)) !! i = Some x) by (intros x; by apply list_lookup_insert_eq).
  destruct (is_pooling_model b) eqn:Hp.
  - destruct (Hkp eq_refl) as (Es & [q Eq] & [st Est]). rewrite Es, Eq. erewrite bind_ok by (eapply add_pooling_ok; [apply Hin|exact Est]).
    cbn [rows b1 set_tables upd_by_index set_rows]. rewrite list_insert_insert_eq. erewrite bind_ok by (eapply on_row_ok; [apply Hin|exact eq_refl]).
    cbn [rows upd_by_id set_rows]. rewrite list_insert_insert_eq. erewrite bind_ok by (eapply add_lora_ok; apply Hin).
    cbn [rows set_rows]. rewrite list_insert_insert_eq. eexists. split; [exact eq_refl|]. split_and!; [|exact Hf|done|exact Hrg|exact Hlow].
    split; cbn; rewrite ?Es; try done. exists row. split; [done|]. unfold final_row. by rewrite Es, Eq.
  - destruct (Hks eq_refl) as (p & Es & Hids). rewrite Es. erewrite bind_ok by (eapply add_sampling_ok; [apply Hin|exact (ic_mask _ _ Hc)|exact Hi|exact Hids]).
    cbn [rows b1 set_tables upd_by_index set_rows vocab_size]. rewrite list_insert_insert_eq. erewrite bind_ok by (eapply on_row_ok; [apply Hin|exact eq_refl]).
    cbn [rows set_mask upd_by_index upd_by_id set_rows]. rewrite list_insert_insert_eq. erewrite bind_ok by (eapply add_lora_ok; apply Hin).
    cbn [rows set_rows]. rewrite list_insert_insert_eq. eexists. split; [exact eq_refl|]. split_and!; [|exact Hf|done|exact Hrg|exact Hlow].
    split; cbn; rewrite ?Es; try done. exists row. split; [done|]. unfold final_row. by rewrite Es.
Qed.

(** ** What the batch shows of the new request *)

(** The sampling entries for [p]. *)
Definition shown_sampling (vocab : Z) (p : SampleParams) : Q * Q * Z * Q * Q * Q * Z :=
  (match sampling_type p with GREEDY => 0%Q | _ => float32 (temperature p) end, float32 (top_p p), if (0 <? top_k p) && (top_k p <? vocab) then top_k p else vocab,
   float32 (frequency_penalty p), float32 (presence_penalty p), float32 (repetition_penalty p), 1).

(** The view of [r] with output [out]; where the prompt is given by embeddings, the
    tokens of the prompt are whatever the row held, [stale]. *)
Definition new_view (b : InputBatch) (r : CachedRequestState) (stale : list Z) : ReqView :=
  let n := Z.to_nat (cr_num_prompt_tokens r) in
  let out := output_of b r in
  MkView (default stale (cr_prompt_token_ids r) ++ out)
    (replicate n (match cr_prompt_token_ids r with Some _ => true | None => false end) ++ replicate (length out) true)
    (cr_num_prompt_tokens r + len out, cr_num_prompt_tokens r, cr_num_computed_tokens r)
    (match cr_lora_request r with Some l => lora_int_id l | None => 0 end)
    (shown_sampling (vocab_size b) <$> cr_sampling_params r) (Some (cr_output_token_ids r)) [] (shown_blocks (cr_block_ids r) (tables b))
    (match cr_sampling_params r with Some _ => cr_generator r | None => None end) (cr_sampling_params r ≫= bans_words)
    (match cr_prompt_token_ids r, cr_prompt_embeds r with None, Some (e :: l) => Some (e :: l) | _, _ => None end).

Section added.
Variables (b : InputBatch) (r : CachedRequestState) (holes : list nat) (i : nat) (b' : InputBatch).
Hypothesis Hc : ib_core b (removed_ (batch_update_builder b)).
Hypothesis Hfits : cached_fits b r.
Hypothesis Hkind : cached_kind b r.
Hypothesis Hfree : free_index b holes i.
Hypothesis Hnew : req_id_to_index (slots b) !! cr_req_id r = None.
Hypothesis Hi : (i < ib_max_num_reqs b)%nat.
Hypothesis Ha : addition b r i b'.

Lemma final_row_wf row : rows b !! i = Some row → row_wf (max_model_len b) (final_row b r row).
Proof using Hc Hfits.
  intros Hrow. assert (Hwf : row_wf (max_model_len b) row) by (eapply Forall_lookup_1; [exact (ic_row _ _ Hc)|done]).
  destruct (token_row_ok _ r (output_of b r) row Hwf (cf_prompt _ _ Hfits) (cf_len _ _ Hfits)) as (_ & _ & _ & _ & _ & [W1 W2]).
  split; unfold final_row; destruct (cr_sampling_params r), (cr_pooling_params r); done.
Qed.

Lemma has_embeds_new n (k : nat) (v : bool) (l : list bool) : take (n + k) l = replicate n v ++ replicate k true → existsb negb (take (n + k) l) = negb v && (0 <? n)%nat.
Proof.
  intros ->. rewrite existsb_app. assert (Ht : existsb negb (replicate k true) = false) by (induction k; done). rewrite Ht, orb_false_r.
  destruct v; [induction n; done|]. by destruct n.
Qed.

Lemma final_active row : active (final_row b r row) [] = (Z.to_nat (cr_num_prompt_tokens r) + length (output_of b r))%nat.
Proof using Hfits Hi.
  destruct (prompt_length r (cf_prompt _ _ Hfits)) as [H0 _]. unfold active, final_row. destruct (cr_sampling_params r), (cr_pooling_params r); cbn; unfold len; cbn; lia.
Qed.

Lemma final_known row : known (final_row b r row) = (Z.to_nat (cr_num_prompt_tokens r) + length (output_of b r))%nat.
Proof using Hfits Hi.
  destruct (prompt_length r (cf_prompt _ _ Hfits)) as [H0 _]. unfold known, final_row. destruct (cr_sampling_params r), (cr_pooling_params r); cbn; unfold len; cbn; lia.
Qed.

Lemma added_free : is_pooling_model b = false → generators (by_index b) !! i = None ∧ bad_words_token_ids (by_index b) !! i = None.
Proof using Hfree.
  intros Hp. destruct (free_core _ _ _ Hfree) as (h & Hch & Hh & Hil & _).
  assert (Hn : ¬ (is_Some (generators (by_index b) !! i) ∨ is_Some (bad_words_token_ids (by_index b) !! i))).
  { intros Hs. destruct (ic_dicts _ _ Hch Hp i Hs) as [id Hid%(ic_index _ _ Hch)]. by apply (free_none _ _ _ Hfree id). }
  rewrite !eq_None_not_Some. tauto.
Qed.

Lemma added_embeds : let n := Z.to_nat (cr_num_prompt_tokens r) in
  (if negb (match cr_prompt_token_ids r with Some _ => true | None => false end) && (0 <? n)%nat then req_prompt_embeds (by_index b') !! i else None) =
  match cr_prompt_token_ids r, cr_prompt_embeds r with None, Some (e :: l) => Some (e :: l) | _, _ => None end.
Proof using Ha Hfits.
  cbv zeta. pose proof (cf_prompt _ _ Hfits) as Hp. rewrite (ad_by_index _ _ _ _ Ha). destruct (cr_prompt_token_ids r); [done|]. cbn in Hp.
  assert (E : req_prompt_embeds match cr_sampling_params r with Some p => sampling_by_index r p i (embed_by_index r i (by_index b)) | None => embed_by_index r i (by_index b) end =
    req_prompt_embeds (embed_by_index r i (by_index b))) by (by destruct (cr_sampling_params r)).
  rewrite E. unfold embed_by_index. destruct (cr_prompt_embeds r) as [e|]; [|done]. injection Hp as <-. cbn. rewrite lookup_insert_eq. rewrite len_to_nat. by destruct e.
Qed.

Lemma added_view : ∃ stale, len stale = cr_num_prompt_tokens r ∧ view b' i = Some (new_view b r stale).
Proof using All.
  destruct (ad_rows _ _ _ _ Ha) as (row & Hrow & Hrows). destruct (prompt_length r (cf_prompt _ _ Hfits)) as [H0 Hpl]. pose proof (cf_len _ _ Hfits) as Hlen.
  assert (Hwf : row_wf (max_model_len b) row) by (eapply Forall_lookup_1; [exact (ic_row _ _ Hc)|done]). destruct Hwf as [W1 W2]. pose proof (len_nonneg (output_of b r)).
  exists (take (Z.to_nat (cr_num_prompt_tokens r)) (token_ids_cpu row)). split; [unfold len in *; rewrite length_take; lia|].
  destruct (placed_spec b holes i Hfree r) as [Hsp Hout]. destruct (ad_config _ _ _ _ Ha) as (P1 & _). destruct (ad_tables _ _ _ _ Ha) as (_ & _ & Hblk).
  assert (Hri : rows b' !! i = Some (final_row b r row)) by (rewrite Hrows; apply list_lookup_insert_eq; by apply lookup_lt_Some in Hrow).
  unfold view. rewrite Hri, (ad_slots _ _ _ _ Ha), Hsp, Hout, P1, Hblk. cbn [mbind option_bind]. f_equal. set (n := Z.to_nat (cr_num_prompt_tokens r)). set (k := length (output_of b r)).
  set (v := match cr_prompt_token_ids r with Some _ => true | None => false end).
  assert (Et : take (n + k) (token_ids_cpu (final_row b r row)) = default (take n (token_ids_cpu row)) (cr_prompt_token_ids r) ++ output_of b r).
  { assert (E : token_ids_cpu (final_row b r row) = default (take n (token_ids_cpu row)) (cr_prompt_token_ids r) ++ output_of b r ++ drop (n + k) (token_ids_cpu row))
      by (unfold final_row; destruct (cr_sampling_params r), (cr_pooling_params r); done).
    rewrite E, app_assoc. apply take_app_length'. rewrite length_app. unfold k. f_equal.
    destruct (cr_prompt_token_ids r) as [q|]; cbn; [specialize (Hpl q eq_refl)|rewrite length_take]; unfold len, n in *; lia. }
  assert (Ek : take (n + k) (is_token_ids (final_row b r row)) = replicate n v ++ replicate k true).
  { assert (E : is_token_ids (final_row b r row) = replicate n v ++ replicate k true ++ drop (n + k) (is_token_ids row))
      by (unfold final_row; destruct (cr_sampling_params r), (cr_pooling_params r); done).
    rewrite E, app_assoc. apply take_app_length'. by rewrite length_app, !length_replicate. }
  unfold mk_view, new_view. rewrite (final_active row), (final_known row). fold n k v. rewrite Et, Ek. unfold has_embeds. rewrite (has_embeds_new n k v) by done.
  pose proof added_embeds as Hemb. cbv zeta in Hemb. fold n v in Hemb. rewrite Hemb. rewrite (ad_by_index _ _ _ _ Ha). destruct Hkind as [Hks Hkp]. destruct (is_pooling_model b) eqn:Hp.
  - destruct (Hkp eq_refl) as (Es & [q Eq] & _). unfold final_row. by rewrite Es, Eq.
  - destruct (Hks eq_refl) as (q & Es & _). destruct (added_free Hp) as [F1 F2]. unfold final_row, sampling_by_index. rewrite Es. cbn. f_equal.
    + destruct (cr_generator r); [by rewrite lookup_insert_eq|done].
    + unfold bans_words. destruct (sp_bad_words_token_ids q) as [[|]|]; [done|by rewrite lookup_insert_eq|done].
Qed.

Lemma added_old id j : req_id_to_index (slots b) !! id = Some j → j ≠ i ∧ id ≠ cr_req_id r ∧ req_id_to_index (slots b') !! id = Some j ∧ (j < length (req_ids_ (slots b)))%nat ∧ (j < ib_max_num_reqs b)%nat.
Proof using All.
  intros Hj. assert (Hne : id ≠ cr_req_id r) by congruence. split_and!; [|done| | |].
  - intros ->. by apply (free_none _ _ _ Hfree id).
  - rewrite (ad_slots _ _ _ _ Ha). apply placed_index. by right.
  - apply (core_row _ _ _ _ Hc) in Hj as (? & ? & ? & ?). tauto.
  - apply (core_row _ _ _ _ Hc) in Hj as (? & ? & ? & ?). tauto.
Qed.

Lemma added_index id j : req_id_to_index (slots b') !! id = Some j ↔ (id = cr_req_id r ∧ j = i) ∨ req_id_to_index (slots b) !! id = Some j.
Proof using Ha Hnew.
  rewrite (ad_slots _ _ _ _ Ha), placed_index. split; [tauto|]. intros [?|Hj]; [by left|right]. split; [congruence|done].
Qed.

Lemma added_rows j : j ≠ i → rows b' !! j = rows b !! j.
Proof using Ha. intros Hj. destruct (ad_rows _ _ _ _ Ha) as (row & _ & ->). by rewrite list_lookup_insert_ne. Qed.

Lemma added_other id j : req_id_to_index (slots b) !! id = Some j → view b' j = view b j.
Proof using All.
  intros (Hj & _ & _ & Hl & Hm)%added_old. destruct (ad_config _ _ _ _ Ha) as (P1 & _). destruct (ad_tables _ _ _ _ Ha) as (_ & Hblk & _).
  destruct (placed_other b holes i Hfree r j Hl Hj) as [Hs Ho].
  apply view_same; [by apply added_rows|by rewrite (ad_slots _ _ _ _ Ha)|by rewrite (ad_slots _ _ _ _ Ha)|done|by apply Hblk| |].
  - intros _. rewrite (ad_by_index _ _ _ _ Ha). unfold sampling_by_index. destruct (cr_sampling_params r) as [p|]; [|done]. cbn.
    destruct (cr_generator r), (bans_words p); by rewrite ?lookup_insert_ne.
  - rewrite (ad_by_index _ _ _ _ Ha). unfold sampling_by_index, embed_by_index. destruct (cr_sampling_params r), (cr_prompt_embeds r); cbn; by rewrite ?lookup_insert_ne.
Qed.

(** The tokens a request is kept from: none when there is no mask. *)
Definition banned_of (x : InputBatch) (j : nat) : list bool := default (py_repeat false (vocab_size x)) (mask_row x j).

Lemma added_mask_len m : allowed_token_ids_mask b' = Some m → length m = ib_max_num_reqs b.
Proof using Ha Hc.
  rewrite (ad_mask _ _ _ _ Ha). unfold new_mask. destruct (cr_sampling_params r) as [p|]; [|apply (ic_mask _ _ Hc)]. destruct (restricts p); [|apply (ic_mask _ _ Hc)].
  intros [= <-]. rewrite length_insert. pose proof (ic_mask _ _ Hc) as Hm. destruct (allowed_token_ids_mask b); cbn; [by apply Hm|by rewrite length_replicate].
Qed.

Lemma added_mask j : (j < ib_max_num_reqs b)%nat → banned_of b' j = match cr_sampling_params r ≫= restricts with
  | Some ids => if decide (j = i) then banned_row (vocab_size b) ids else banned_of b j
  | None => banned_of b j end.
Proof using Ha Hc.
  intros Hj. destruct (ad_config _ _ _ _ Ha) as (_ & _ & _ & Hv). unfold banned_of, mask_row. rewrite (ad_mask _ _ _ _ Ha), Hv. unfold new_mask. destruct (cr_sampling_params r) as [p|]; [|done]. cbn.
  destruct (restricts p) as [ids|]; [|done]. cbn. pose proof (ic_mask _ _ Hc) as Hm. case_decide as E.
  - subst j. rewrite list_lookup_insert_eq; [done|]. destruct (allowed_token_ids_mask b); cbn; [by rewrite (Hm _ eq_refl)|by rewrite length_replicate].
  - rewrite list_lookup_insert_ne by done. destruct (allowed_token_ids_mask b); cbn; [done|]. by rewrite lookup_replicate_2.
Qed.

Lemma added_core : ib_core b' holes.
Proof using All.
  destruct (ad_config _ _ _ _ Ha) as (P1 & P2 & P3 & P4). destruct (placed_lengths b holes i Hfree r) as (L1 & L2 & L3 & L4). destruct (free_core _ _ _ Hfree) as (h & Hch & _ & Hil & Hnd & _).
  assert (Hvok : ∀ id j row spec, req_id_to_index (slots b') !! id = Some j → rows b' !! j = Some row → spec_token_ids (slots b') !! j = Some spec →
    0 ≤ num_tokens_no_spec row ∧ num_tokens_no_spec row + len spec ≤ max_model_len b' ∧ (has_embeds row (known row) = true → is_Some (req_prompt_embeds (by_index b') !! j))).
  { intros id j row spec [[-> ->]|Hj]%added_index Hrow Hsp.
    - destruct added_view as (stale & Hst & Hv). eapply view_ok_parts; [exact Hv| |exact Hrow|exact Hsp]. destruct (prompt_length r (cf_prompt _ _ Hfits)) as [H0 _].
      pose proof (len_nonneg (output_of b r)). pose proof (cf_len _ _ Hfits). unfold view_ok. cbn. rewrite P3. split_and!; [lia|unfold len at 2; cbn; lia|].
      rewrite take_ge by (rewrite length_app, !length_replicate; unfold len; lia). rewrite existsb_app. assert (Hk : ∀ k, existsb negb (replicate k true) = false) by (intros k; induction k; done). rewrite Hk, orb_false_r.
      pose proof (cf_prompt _ _ Hfits) as Hp. destruct (cr_prompt_token_ids r); [by rewrite Hk|]. cbn in Hp. destruct (cr_prompt_embeds r) as [[|e l]|]; [|eauto|done]. injection Hp as <-. done.
    - destruct (core_view _ _ _ _ Hc Hj) as (v & Hv & Hok). rewrite <-(added_other id j Hj) in Hv. rewrite <-P3 in Hok. by apply (view_ok_parts b' j row spec v). }
  split; rewrite ?P1, ?P2, ?P3, ?(ad_slots _ _ _ _ Ha).
  - done.
  - done.
  - rewrite L1. pose proof (ic_max _ _ Hc). lia.
  - done.
  - by apply (placed_index_ids b holes).
  - by apply placed_holes.
  - done.
  - destruct (ad_rows _ _ _ _ Ha) as (row & _ & ->). rewrite length_insert. by apply ic_rows in Hc.
  - destruct (ad_rows _ _ _ _ Ha) as (row & Hrow & ->). apply Forall_insert; [by apply ic_row in Hc|by apply final_row_wf].
  - intros id j row spec Hj Hrow Hsp. rewrite <-P3. rewrite <-(ad_slots _ _ _ _ Ha) in Hj, Hsp. by destruct (Hvok id j row spec Hj Hrow Hsp) as (? & ? & ?).
  - by destruct (ad_tables _ _ _ _ Ha).
  - intros Hp j Hs. rewrite (placed_ids b holes i Hfree r). case_decide as Hj; [eauto|]. apply (ic_dicts _ _ Hc Hp). revert Hs. rewrite (ad_by_index _ _ _ _ Ha).
    unfold sampling_by_index. destruct (cr_sampling_params r) as [p|]; [|done]. cbn. destruct (cr_generator r), (bans_words p); by rewrite ?lookup_insert_ne.
  - apply added_mask_len.
  - intros id j row spec Hj Hrow Hsp. rewrite <-(ad_slots _ _ _ _ Ha) in Hj, Hsp. by destruct (Hvok id j row spec Hj Hrow Hsp) as (? & ? & ?).
Qed.

Definition lora_of : Z := match cr_lora_request r with Some l => lora_int_id l | None => 0 end.

Lemma added_uses id l : uses_lora b' id l ↔ (id = cr_req_id r ∧ l = lora_of) ∨ uses_lora b id l.
Proof using All.
  destruct (ad_rows _ _ _ _ Ha) as (row & Hrow & Hrows). assert (Hri : rows b' !! i = Some (final_row b r row)) by (rewrite Hrows; apply list_lookup_insert_eq; by apply lookup_lt_Some in Hrow).
  split.
  - intros (j & row' & [[-> ->]|Hj]%added_index & Hrow' & Hl).
    + left. split; [done|]. rewrite Hri in Hrow'. injection Hrow' as <-. by rewrite <-Hl.
    + right. exists j, row'. split_and!; [done| |done]. rewrite <-added_rows; [done|]. by apply added_old in Hj as [? _].
  - intros [[-> ->]|(j & row' & Hj & Hrow' & Hl)].
    + exists i, (final_row b r row). split_and!; [apply added_index; by left|done|done].
    + exists j, row'. split_and!; [apply added_index; by right| |done]. rewrite added_rows; [done|]. by apply added_old in Hj as [? _].
Qed.

Lemma added_lora : (∀ l, cr_lora_request r = Some l → lora_int_id l ≠ 0) → lora_ok b → lora_ok b'.
Proof using All.
  intros H0 [L1 L2 L3]. assert (Hno : ∀ l, ¬ uses_lora b (cr_req_id r) l) by (intros l (j & row & Hj & _); congruence).
  pose proof (ad_loras _ _ _ _ Ha) as Hl. unfold final_loras in Hl. destruct (cr_lora_request r) as [x|] eqn:Ex.
  - specialize (H0 x eq_refl). assert (El : lora_of = lora_int_id x) by (unfold lora_of; by rewrite Ex). split; rewrite Hl; cbn.
    + intros l ids. destruct (decide (l = lora_int_id x)) as [->|Hne].
      * rewrite lookup_insert_eq. intros [= <-]. split_and!; [done|set_solver|]. intros id. rewrite added_uses, El, elem_of_union, elem_of_singleton.
        destruct (lora_id_to_request_ids (loras b) !! lora_int_id x) as [ids|] eqn:Hids; cbn.
        -- destruct (L1 _ _ Hids) as (_ & _ & ->). tauto.
        -- rewrite elem_of_empty. split; [tauto|]. intros [?|Hu]; [tauto|]. destruct (L2 _ _ Hu H0) as [? E]. congruence.
      * rewrite lookup_insert_ne by done. intros Hids. destruct (L1 _ _ Hids) as (? & ? & Hin). split_and!; [done|done|]. intros id. rewrite added_uses, Hin. split; [tauto|].
        intros [[_ ->]|?]; [congruence|done].
    + intros id l Hu Hl0. destruct (decide (l = lora_int_id x)) as [->|Hne]; [rewrite lookup_insert_eq; eauto|]. rewrite lookup_insert_ne by done.
      apply added_uses in Hu as [[_ ->]|Hu]; [congruence|by eapply L2].
    + intros l. destruct (decide (l = lora_int_id x)) as [->|Hne]; [rewrite !lookup_insert_eq; split; eauto|]. rewrite !lookup_insert_ne by done. apply L3.
  - assert (El : lora_of = 0) by (unfold lora_of; by rewrite Ex). split; rewrite Hl.
    + intros l ids Hids. destruct (L1 _ _ Hids) as (? & ? & Hin). split_and!; [done|done|]. intros id. rewrite added_uses, Hin. split; [tauto|]. intros [[_ ->]|?]; [congruence|done].
    + intros id l [[_ ->]|Hu]%added_uses Hl0; [congruence|by eapply L2].
    + done.
Qed.
End added.

(** A new request the batch can take. *)
Record addable (b : InputBatch) (r : CachedRequestState) : Prop := {
  aa_fits : cached_fits b r;
  aa_kind : cached_kind b r;
  aa_lora : ∀ l, cr_lora_request r = Some l → lora_int_id l ≠ 0;
  aa_new : req_id_to_index (slots b) !! cr_req_id r = None;
}.

Lemma add_ok b r : ib_inv b → lora_ok b → (num_reqs b < ib_max_num_reqs b)%nat → addable b r →
  ∃ i b', ib_add_request float32 r b = (Ok i, b') ∧ ib_inv b' ∧ lora_ok b' ∧ addition b r i b' ∧ free_index b (removed_ (batch_update_builder b')) i ∧
    (i < ib_max_num_reqs b)%nat ∧ registered r i (batch_update_builder b) (batch_update_builder b') ∧ lowest_free b i.
Proof.
  intros Hinv Hlo Hn [Hfits Hkind H0 Hnew]. destruct (add_run b r Hinv Hn Hfits Hkind) as (i & b' & Hrun & Ha & Hf & Hi & Hrg & Hlow). pose proof (ii_core _ Hinv) as Hc.
  exists i, b'. split_and!; try done.
  - split; [by eapply added_core|by destruct Hrg].
  - by eapply added_lora.
Qed.

(** ** Theorem: addition *)

(** C21.  Adding a new request to a batch that is not full succeeds: it takes the
    smallest index that was given up, or the end of the batch when there is none;
    the invariant and the adapter tables stay right, and the batch shows exactly
    the cached state of the request there: its prompt and output tokens, counts,
    adapter, sampling parameters (rounded to single precision), generator, banned
    words and, per group, its blocks (the token entries of a prompt that is given by
    embeddings are whatever the row held).  A request that restricts its tokens gets
    exactly the mask row it asks for; one that does not keeps whatever mask row the
    index had.  Every other request keeps its index, its state and its mask row. *)
Theorem add_request_exact b r : ib_inv b → lora_ok b → (num_reqs b < ib_max_num_reqs b)%nat → addable b r →
  ∃ i b' stale, ib_add_request float32 r b = (Ok i, b') ∧ ib_inv b' ∧ lora_ok b' ∧ lowest_free b i ∧
    req_id_to_index (slots b') = <[cr_req_id r := i]> (req_id_to_index (slots b)) ∧
    view b' i = Some (new_view b r stale) ∧ len stale = cr_num_prompt_tokens r ∧
    banned_of b' i = match cr_sampling_params r ≫= restricts with Some ids => banned_row (vocab_size b) ids | None => banned_of b i end ∧
    ∀ id j, req_id_to_index (slots b) !! id = Some j → view b' j = view b j ∧ banned_of b' j = banned_of b j.
Proof.
  intros Hinv Hlo Hn Hadd. destruct (add_ok b r Hinv Hlo Hn Hadd) as (i & b' & Hrun & Hinv' & Hlo' & Ha & Hf & Hi & _ & Hlow). destruct Hadd as [Hfits Hkind H0 Hnew].
  pose proof (ii_core _ Hinv) as Hc. destruct (added_view b r _ i b' Hc Hfits Hkind Hf Hnew Hi Ha) as (stale & Hst & Hv). exists i, b', stale. split_and!; try done.
  - rewrite (ad_slots _ _ _ _ Ha). unfold placed. by destruct (_ =? _)%nat.
  - rewrite (added_mask b r i b' Hc Ha i Hi). destruct (_ ≫= _); [by rewrite decide_True|done].
  - intros id j Hj. split; [by eapply added_other|]. destruct (added_old b r _ i b' Hc Hfits Hkind Hf Hnew Hi Ha id j Hj) as (Hne & _ & _ & _ & Hjm).
    rewrite (added_mask b r i b' Hc Ha j Hjm). destruct (_ ≫= _); [by rewrite decide_False|done].
Qed.
End add.
