(* ===== verification/InputBatchRuns.v ===== *)
(** * Runs of the persistent batch

    A batch for two requests and a vocabulary of four tokens, as the theorems and
    the defects of the batch are seen on it. *)
From Stdlib Require Import QArith.
From stdpp Require Import gmap sorting.
From S2P Require Import Prelude.
From S2P Require Import RequestModel.
From S2P Require Import Arrays.
From S2P Require Import BlockTable.
From S2P Require Import InputBatch.
From S2P Require Import InputBatchInv.
From S2P Require Import InputBatchOps.
From S2P Require Import InputBatchAdd.
#[local] Open Scope string_scope.
#[local] Open Scope Z_scope.

Definition junk_row : Row := MkRow [] [] 0 0 0 0 0%Q 0%Q 0 0%Q 0%Q 0%Q 0 false.

(** The rounding of the entries does not matter here. *)
Definition keep (q : Q) : Q := q.

Definition empty_batch (pooling : bool) : InputBatch :=
  match new_input_batch small_cp (λ _, junk_row) 2 8 6 4 [4] [2] None pooling 1 ∅ with
  | Ok b => b
  | Raise _ => MkBatch pooling 0 0 0 (MkSlots [] [] [] ∅) [] [] (MkById ∅ ∅ ∅ ∅ ∅ ∅ ∅ ∅ ∅ ∅ ∅ ∅ ∅) (MkByIndex ∅ ∅ ∅) (MkLoras ∅ ∅) None new_builder None ∅
  end.

Lemma empty_batch_ok pooling : ib_inv (empty_batch pooling) ∧ lora_ok (empty_batch pooling).
Proof.
  apply (new_batch_ok small_cp (λ _, junk_row) 2 8 6 4 [4] [2] None pooling 1 ∅); try (cbn; lia); try (repeat constructor; lia).
Qed.

Definition sample (allowed : option (list Z)) : SampleParams := MkSample GREEDY 0 1 0 0 0 1 None None allowed None None None.

Definition cached (id : string) (prompt : list Z) (blocks : list Z) (allowed : option (list Z)) : CachedRequestState :=
  MkCached id (Some prompt) None (len prompt) (Some (sample allowed)) None [blocks] 0 0 None None None 0.

Definition pooled (id : string) (prompt : list Z) (blocks : list Z) (needs : bool) : CachedRequestState :=
  MkCached id (Some prompt) None (len prompt) None None [blocks] 0 0 None (Some (MkPool needs)) (Some 0%nat) 0.

Definition req_a := cached "a" [1; 2] [5] None.
Definition req_b := cached "b" [3] [7] (Some [1]).
Definition req_c := cached "c" [2; 2] [6] None.

(** The state a sequence of calls leaves. *)
Definition after {A} (m : MB A) (b : InputBatch) : InputBatch := snd (m b).

Definition batch_a : InputBatch := after (ib_add_request keep req_a) (empty_batch false).
Definition batch_ab : InputBatch := after (ib_add_request keep req_b) batch_a.

Lemma cached_fits_one b r l : length_from_prompt_token_ids_or_embeds (cr_prompt_token_ids r) (cr_prompt_embeds r) = Ok (cr_num_prompt_tokens r) →
  cr_num_prompt_tokens r + len (output_of b r) ≤ max_model_len b → length (tables b) = 1%nat → cr_block_ids r = [l] →
  (∀ t, tables b !! 0%nat = Some t → len (kernel_ids t l) ≤ max_num_blocks_per_req t) → cached_fits b r.
Proof.
  intros H1 H2 H3 H4 H5. split; [done|done|]. intros g t Ht. assert (g = 0%nat) as -> by (apply lookup_lt_Some in Ht; lia). exists l. rewrite H4. split; [done|by apply H5].
Qed.

Lemma addable_one b r l p : length_from_prompt_token_ids_or_embeds (cr_prompt_token_ids r) (cr_prompt_embeds r) = Ok (cr_num_prompt_tokens r) →
  cr_num_prompt_tokens r + len (output_of b r) ≤ max_model_len b → length (tables b) = 1%nat → cr_block_ids r = [l] →
  (∀ t, tables b !! 0%nat = Some t → len (kernel_ids t l) ≤ max_num_blocks_per_req t) →
  is_pooling_model b = false → cr_sampling_params r = Some p → Forall (λ k, 0 ≤ k < vocab_size b) (default [] (allowed_token_ids p)) → cr_lora_request r = None →
  req_id_to_index (slots b) !! cr_req_id r = None → addable b r.
Proof.
  intros H1 H2 H3 H4 H5 H6 H7 H8 H9 H10. split; [by eapply cached_fits_one| |by rewrite H9|done]. split; [|by rewrite H6]. intros _. exists p. split; [done|]. intros ids Hids. by rewrite Hids in H8.
Qed.

Ltac small_addable := eapply addable_one; [vm_compute; reflexivity|vm_compute; discriminate|vm_compute; reflexivity|reflexivity|
  intros t Ht; vm_compute in Ht; injection Ht as <-; vm_compute; discriminate|reflexivity|reflexivity|repeat constructor; vm_compute; congruence|reflexivity|vm_compute; reflexivity].

Lemma add_a : addable (empty_batch false) req_a.
Proof. small_addable. Qed.

Lemma batch_a_ok : ib_inv batch_a ∧ lora_ok batch_a.
Proof.
  destruct (empty_batch_ok false) as [Hi Hl]. destruct (add_ok keep _ req_a Hi Hl ltac:(vm_compute; lia) add_a) as (i & b' & Hrun & Hi' & Hl' & _).
  unfold batch_a, after. rewrite Hrun. exact (conj Hi' Hl').
Qed.

Lemma add_b : addable batch_a req_b.
Proof. small_addable. Qed.

Lemma batch_ab_ok : ib_inv batch_ab ∧ lora_ok batch_ab.
Proof.
  destruct batch_a_ok as [Hi Hl]. destruct (add_ok keep _ req_b Hi Hl ltac:(vm_compute; lia) add_b) as (i & b' & Hrun & Hi' & Hl' & _).
  unfold batch_ab, after. rewrite Hrun. exact (conj Hi' Hl').
Qed.

Lemma add_request_exact_witness : ∃ b', ib_add_request keep req_b batch_a = (Ok 1%nat, b') ∧ ib_inv b' ∧
  view b' 1 = Some (new_view keep batch_a req_b [0]) ∧ banned_of b' 1 = [true; false; true; true].
Proof.
  destruct batch_a_ok as [Hi Hl]. destruct (add_request_exact keep batch_a req_b Hi Hl ltac:(vm_compute; lia) add_b) as (i & b' & stale & Hrun & Hi' & _ & _ & _ & Hv & _ & Hb & _).
  exists b'. assert (i = 1%nat) as ->. { assert (fst (ib_add_request keep req_b batch_a) = Ok 1%nat) as E by (vm_compute; reflexivity). rewrite Hrun in E. by injection E. }
  split_and!; [done|done|exact Hv|]. rewrite Hb. vm_compute. reflexivity.
Defined.

Definition batch_b : InputBatch := after (remove_request "a") batch_ab.

Lemma remove_request_exact_witness : ∃ b', remove_request "a" batch_ab = (Ok (Some 0%nat), b') ∧ ib_inv b' ∧ view b' 1 = view batch_ab 1.
Proof.
  destruct batch_ab_ok as [Hi Hl].
  destruct (remove_request_exact batch_ab "a" 0 Hi Hl) as (b' & Hrun & Hi' & _ & _ & Hidx & Hv); [vm_compute; reflexivity|vm_compute; reflexivity|].
  exists b'. split_and!; [done|done|]. apply (Hv "b" 1%nat). rewrite Hidx. vm_compute. reflexivity.
Defined.

Lemma batch_b_ok : ib_inv batch_b.
Proof.
  destruct batch_ab_ok as [Hi Hl]. destruct (remove_ok batch_ab "a" 0 Hi Hl) as (b' & Hrun & Hi' & _); [vm_compute; reflexivity|vm_compute; reflexivity|].
  unfold batch_b, after. rewrite Hrun. exact Hi'.
Qed.

Lemma condense_exact_witness : ∃ b', condense batch_b = (Ok tt, b') ∧ req_ids_ (slots b') = [Some "b"] ∧ view b' 0 = view batch_b 1.
Proof.
  destruct (condense_exact batch_b batch_b_ok) as (b' & ids & Hrun & Hra & _ & Hc & Hids & Hlen). exists b'.
  assert (Hn : num_reqs batch_b = 1%nat) by (vm_compute; reflexivity). rewrite Hn in Hlen. destruct ids as [|x [|y l]]; [discriminate Hlen| |discriminate Hlen].
  assert (Hb : is_Some (req_id_to_index (slots b') !! "b")) by (apply (ra_dom _ _ Hra); exists 1%nat; vm_compute; reflexivity). destruct Hb as [i Hi].
  pose proof (proj1 (ic_index _ _ Hc _ _) Hi) as Hx. rewrite Hids in Hx. destruct i as [|i]; [|discriminate Hx]. cbn in Hx. injection Hx as ->.
  split; [exact Hrun|]. split; [exact Hids|]. apply (ra_view _ _ Hra "b" 1%nat 0%nat); [vm_compute; reflexivity|exact Hi].
Defined.

(** ** Defects of the mask *)

(** Request [b] may use token 1 only.  When [a] leaves, [b] moves down and its row
    of the mask stays behind at index 1; request [c], which restricts nothing, takes
    that index, and is kept from every token but 1 while [b] is in the batch. *)
Definition batch_bc : InputBatch := after (ib_add_request keep req_c) (after (on_builder reset) (after condense batch_b)).

Example stale_mask_bans_tokens :
  req_ids_ (slots batch_bc) = [Some "b"; Some "c"] ∧ cr_sampling_params req_c ≫= restricts = None ∧
  elements (has_allowed_token_ids (by_id batch_bc)) = ["b"] ∧ banned_of batch_bc 1 = [true; false; true; true].
Proof. split_and!; vm_compute; reflexivity. Qed.

(** After [a] and [b] have traded places, both rows are that of [b]. *)
Example swap_duplicates_mask : let b' := after (swap_states 0 1) batch_ab in
  req_ids_ (slots b') = [Some "b"; Some "a"] ∧ banned_of batch_ab 0 = [false; false; false; false] ∧
  banned_of b' 0 = [true; false; true; true] ∧ banned_of b' 1 = [true; false; true; true].
Proof. split_and!; vm_compute; reflexivity. Qed.

(** A pooling request that needs its tokens loses the flag when it moves down. *)
Definition pool_batch : InputBatch :=
  after condense (after (remove_request "a") (after (ib_add_request keep (pooled "b" [3] [7] true)) (after (ib_add_request keep (pooled "a" [1; 2] [5] false)) (empty_batch true)))).

Example condense_drops_needs :
  req_ids_ (slots pool_batch) = [Some "b"] ∧ requires_token_ids <$> pooling_params (by_id pool_batch) !! "b" = Some true ∧
  logits_processing_needs_token_ids <$> rows pool_batch !! 0%nat = Some false.
Proof. split_and!; vm_compute; reflexivity. Qed.
