(* ===== verification/Reorder.v ===== *)
(** * Reordering the batch

    [reorder_batch_to_split_decodes_and_prefills] of [v1/attention/backends/utils.py]:
    attention backends want the requests that decode in front of those that
    prefill.  The requests that are out of place are permuted along the cycles of a
    map from their index to the one they go to, by swaps of the persistent batch. *)
From Stdlib Require Import QArith.
From stdpp Require Import gmap sorting.
From S2P Require Import Prelude.
From S2P Require Import RequestModel.
From S2P Require Import Arrays.
From S2P Require Import BlockTable.
From S2P Require Import InputBatch.
From S2P Require Import InputBatchInv.
#[local] Open Scope Z_scope.

(** ** The program *)

(** The region of a request: 0 decodes, 1 and 2 are short and long extensions of a
    prefix, 3 are prefills. *)
Definition region (threshold scheduled computed prompt : Z) : Z :=
  if negb (0 <? computed) then 3
  else if negb (scheduled <=? threshold) then 2
  else if negb (prompt <=? computed) then 1
  else 0.

Definition req_region (threshold : Z) (num_scheduled : string → option Z) (b : InputBatch) (i : nat) (id : option string) : res Z :=
  match id ≫= num_scheduled with
  | None => Raise KeyError
  | Some n => let? row := arr_get (rows b) i in Ok (region threshold n (num_computed_tokens_cpu row) (num_prompt_tokens row))
  end.

(** [req_regions] *)
Definition req_regions (threshold : Z) (num_scheduled : string → option Z) (b : InputBatch) : res (list Z) :=
  map_res (λ x, req_region threshold num_scheduled b x.1 x.2) (imap pair (req_ids_ (slots b))).

Definition count_region (r : Z) (regs : list Z) : nat := length (filter (λ x, x = r) regs).

(** [target_regions] *)
Definition target_regions (regs : list Z) : list Z :=
  concat ((λ r, replicate (count_region r regs) r) <$> [0; 1; 2; 3]).

(** [orig_indices]: the indices whose region is not the one wanted there. *)
Definition orig_indices (regs : list Z) : list nat :=
  filter (λ i, regs !! i ≠ target_regions regs !! i) (seq 0 (length regs)).

(** The order of a stable sort by region: by region, then by index. *)
Definition before (regs : list Z) (i j : nat) : Prop := regs !!! i < regs !!! j ∨ (regs !!! i = regs !!! j ∧ (i ≤ j)%nat).

#[global] Instance before_dec regs i j : Decision (before regs i j).
Proof. unfold before. apply _. Defined.
#[global] Instance before_total regs : Total (before regs).
Proof. intros i j. unfold before. lia. Qed.
#[global] Instance before_trans regs : Transitive (before regs).
Proof. intros i j k. unfold before. lia. Qed.

Definition src_indices (regs : list Z) : list nat := merge_sort (before regs) (orig_indices regs).

Definition src_dest_map (regs : list Z) : gmap nat nat := list_to_map (zip (src_indices regs) (orig_indices regs)).

(** The swaps along one cycle: [dst] is where the request at [src] goes. *)
Fixpoint follow (fuel : nat) (src dst : nat) (m : gmap nat nat) : MB (gmap nat nat) :=
  if (src =? dst)%nat then ret m
  else match fuel with
       | O => raise OutOfFuel
       | S fuel =>
           swap_states src dst ;;;
           let next_dst := default dst (m !! dst) in
           follow fuel src next_dst (<[dst := dst]> m)
       end.

Fixpoint follow_all (fuel : nat) (srcs : list nat) (m : gmap nat nat) : MB unit :=
  match srcs with
  | [] => ret tt
  | src :: srcs =>
      match m !! src with
      | None => raise KeyError
      | Some dst => let! m := follow fuel src dst m in follow_all fuel srcs m
      end
  end.

Definition reorder_batch (threshold : Z) (num_scheduled : string → option Z) : MB bool :=
  let! b := gets id in
  let! regs := lift (req_regions threshold num_scheduled b) in
  match orig_indices regs with
  | [] => ret false
  | _ =>
      follow_all (S (length regs)) (src_indices regs) (src_dest_map regs) ;;;
      ret true
  end.

(** ** Regions and indices *)

Section regions.
Variable regs : list Z.
Hypothesis Hregs : Forall (λ r, 0 ≤ r ≤ 3) regs.
Let tgt := target_regions regs.

Lemma filter_region r (l : list Z) : filter (λ x, x = r) l = replicate (count_region r l) r.
Proof.
  unfold count_region. induction l as [|x l IH]; [done|]. rewrite filter_cons. case_decide as Hx; [|exact IH]. subst x. cbn [length replicate]. by rewrite <-IH.
Qed.

Lemma target_perm : tgt ≡ₚ regs.
Proof using Hregs.
  assert (Hgen : ∀ l, Forall (λ r, 0 ≤ r ≤ 3) l → concat ((λ r, filter (λ x, x = r) l) <$> [0; 1; 2; 3]) ≡ₚ l).
  { induction l as [|x l IH]; [done|]. intros [Hx Hl]%Forall_cons. specialize (IH Hl). cbn [fmap list_fmap concat] in *. rewrite !app_nil_r in *.
    symmetry. etrans; [apply perm_skip; symmetry; exact IH|]. assert (x = 0 ∨ x = 1 ∨ x = 2 ∨ x = 3) as Hr by lia. rewrite !filter_cons.
    destruct Hr as [-> | [-> | [-> | -> ]]]; repeat (case_decide; try lia); cbn [app]; [done|by rewrite Permutation_middle|..].
    - rewrite Permutation_middle. by rewrite Permutation_middle.
    - do 2 rewrite Permutation_middle. by rewrite Permutation_middle. }
  rewrite <-(Hgen regs Hregs). unfold tgt, target_regions. cbn [fmap list_fmap]. by rewrite !filter_region.
Qed.

Lemma target_length : length tgt = length regs.
Proof using Hregs. apply Permutation_length, target_perm. Qed.

Lemma target_strongly : StronglySorted Z.le tgt.
Proof using.
  unfold tgt, target_regions. cbn [fmap list_fmap concat]. rewrite app_nil_r.
  assert (Hr : ∀ n r, StronglySorted Z.le (replicate n r)) by (intros n r; induction n; cbn; constructor; [done|]; apply Forall_replicate; lia).
  repeat (apply StronglySorted_app_2; [intros x y Hx Hy; rewrite ?elem_of_app in Hy; repeat match goal with H : _ ∨ _ |- _ => destruct H end;
    repeat match goal with H : _ ∈ replicate _ _ |- _ => apply elem_of_replicate in H as [-> _] end; lia|apply Hr|]). apply Hr.
Qed.

Lemma target_sorted i j : (i ≤ j < length regs)%nat → tgt !!! i ≤ tgt !!! j.
Proof using Hregs.
  intros Hij. pose proof target_strongly as Hs.
  destruct (decide (i = j)) as [->|]; [lia|]. rewrite <-target_length in Hij.
  destruct (lookup_lt_is_Some_2 tgt i) as [x Hx]; [lia|]. destruct (lookup_lt_is_Some_2 tgt j) as [y Hy]; [lia|]. rewrite (list_lookup_total_correct _ _ _ Hx), (list_lookup_total_correct _ _ _ Hy).
  rewrite <-(take_drop (S i) tgt) in Hs. eapply (StronglySorted_app_1_elem_of _ _ _ x y Hs).
  - apply list_elem_of_lookup. exists i. rewrite lookup_take_lt by lia. done.
  - apply list_elem_of_lookup. exists (j - S i)%nat. rewrite lookup_drop. rewrite <-Hy. f_equal. lia.
Qed.

Lemma total_of_seq (l : list Z) : (λ i, l !!! i) <$> seq 0 (length l) = l.
Proof.
  apply list_eq. intros i. rewrite list_lookup_fmap. destruct (decide (i < length l)%nat) as [Hi|Hi].
  - rewrite lookup_seq_lt by done. cbn. destruct (lookup_lt_is_Some_2 l i Hi) as [x Hx]. by rewrite (list_lookup_total_correct _ _ _ Hx), Hx.
  - rewrite (lookup_ge_None_2 l i) by lia. by rewrite lookup_ge_None_2 by (rewrite length_seq; lia).
Qed.

Lemma orig_elem i : i ∈ orig_indices regs ↔ (i < length regs)%nat ∧ regs !!! i ≠ tgt !!! i.
Proof using Hregs.
  unfold orig_indices. rewrite list_elem_of_filter, elem_of_seq. split.
  - intros [Hne Hi]. split; [lia|]. intros E. apply Hne. rewrite (list_lookup_lookup_total_lt regs), (list_lookup_lookup_total_lt tgt) by (rewrite ?target_length; lia). by rewrite E.
  - intros [Hi Hne]. split; [|lia]. intros E. apply Hne. rewrite !list_lookup_total_alt. by rewrite E.
Qed.

Lemma orig_nodup : NoDup (orig_indices regs).
Proof using. apply NoDup_filter, NoDup_seq. Qed.

Lemma orig_sorted : StronglySorted (λ i j, i ≤ j)%nat (orig_indices regs).
Proof using.
  unfold orig_indices. generalize (length regs) 0%nat. intros n. induction n as [|n IH]; intros k; [constructor|]. cbn [seq]. rewrite filter_cons. case_decide; [|apply IH].
  constructor; [apply IH|]. apply Forall_forall. intros x [_ Hx%elem_of_seq]%list_elem_of_filter. lia.
Qed.

(** The regions of the requests out of place are those wanted there. *)
Lemma misplaced_perm : (λ i, regs !!! i) <$> orig_indices regs ≡ₚ (λ i, tgt !!! i) <$> orig_indices regs.
Proof using Hregs.
  set (P := λ i, regs !! i ≠ target_regions regs !! i). set (rest := filter (λ i, ¬ P i) (seq 0 (length regs))).
  assert (Hsplit : seq 0 (length regs) ≡ₚ orig_indices regs ++ rest) by (symmetry; apply filter_app_complement).
  assert (Hrest : (λ i, regs !!! i) <$> rest = (λ i, tgt !!! i) <$> rest).
  { apply list_fmap_ext. intros k i Hi%list_elem_of_lookup_2. apply list_elem_of_filter in Hi as [Hi _]. unfold P in Hi. apply dec_stable in Hi. rewrite !list_lookup_total_alt. by rewrite Hi. }
  apply (Permutation_app_inv_r ((λ i, regs !!! i) <$> rest)). rewrite Hrest at 2. rewrite <-!fmap_app, <-Hsplit.
  rewrite total_of_seq. rewrite <-target_length, total_of_seq. by rewrite target_perm.
Qed.

Lemma src_perm : src_indices regs ≡ₚ orig_indices regs.
Proof using. apply merge_sort_Permutation. Qed.

Lemma sorted_fmap {A B} (R : relation A) (S : relation B) (f : A → B) l : (∀ x y, x ∈ l → y ∈ l → R x y → S (f x) (f y)) → StronglySorted R l → StronglySorted S (f <$> l).
Proof.
  intros Hf. induction 1 as [|x l Hl IH Hx]; [constructor|]. cbn. constructor.
  - apply IH. intros y z Hy Hz. apply Hf; by right.
  - apply Forall_fmap. rewrite Forall_forall in *. intros y Hy. apply Hf; [by left|by right|by apply Hx].
Qed.

Lemma src_regions : (λ i, regs !!! i) <$> src_indices regs = (λ i, tgt !!! i) <$> orig_indices regs.
Proof using Hregs.
  apply (StronglySorted_unique Z.le).
  - eapply sorted_fmap; [|apply (StronglySorted_merge_sort (before regs)); apply _]. intros x y _ _ Hxy. unfold before in Hxy. cbn. lia.
  - eapply sorted_fmap; [|apply orig_sorted]. intros x y _ [Hy _]%orig_elem Hxy. apply target_sorted. lia.
  - etrans; [apply fmap_Permutation, src_perm|apply misplaced_perm].
Qed.
End regions.

(** ** The map *)

Section map.
Variable regs : list Z.
Hypothesis Hregs : Forall (λ r, 0 ≤ r ≤ 3) regs.

(** Where the request at [i] goes. *)
Definition dest (i : nat) : nat := default i (src_dest_map regs !! i).

Lemma dest_map_Some i j : src_dest_map regs !! i = Some j ↔ ∃ k, src_indices regs !! k = Some i ∧ orig_indices regs !! k = Some j.
Proof using.
  unfold src_dest_map. assert (Hl : length (src_indices regs) = length (orig_indices regs)) by apply Permutation_length, src_perm.
  rewrite <-elem_of_list_to_map by (rewrite fst_zip by lia; rewrite src_perm; apply orig_nodup). rewrite list_elem_of_lookup. split.
  - intros [k Hk]. apply lookup_zip_Some in Hk. eauto.
  - intros (k & H1 & H2). exists k. by apply lookup_zip_Some.
Qed.

Lemma dest_map_dom i : is_Some (src_dest_map regs !! i) ↔ i ∈ orig_indices regs.
Proof using.
  assert (Hl : length (src_indices regs) = length (orig_indices regs)) by apply Permutation_length, src_perm. split.
  - intros [j (k & Hk & _)%dest_map_Some]. rewrite <-src_perm. by eapply list_elem_of_lookup_2.
  - rewrite <-src_perm at 1. intros [k Hk]%list_elem_of_lookup. destruct (lookup_lt_is_Some_2 (orig_indices regs) k) as [j Hj]; [apply lookup_lt_Some in Hk; lia|].
    exists j. apply dest_map_Some. eauto.
Qed.

Lemma dest_inj i j : dest i = dest j → i = j.
Proof using.
  unfold dest. destruct (src_dest_map regs !! i) as [x|] eqn:Hx, (src_dest_map regs !! j) as [y|] eqn:Hy; cbn.
  - intros ->. apply dest_map_Some in Hx as (k & H1 & H2), Hy as (k' & H1' & H2'). assert (k = k') as -> by (eapply NoDup_lookup; [apply orig_nodup|done|done]). congruence.
  - intros ->. apply dest_map_Some in Hx as (k & H1 & H2). apply list_elem_of_lookup_2, dest_map_dom in H2. rewrite Hy in H2. by destruct H2.
  - intros <-. apply dest_map_Some in Hy as (k & H1 & H2). apply list_elem_of_lookup_2, dest_map_dom in H2. rewrite Hx in H2. by destruct H2.
  - done.
Qed.

Lemma dest_lt i : (i < length regs)%nat → (dest i < length regs)%nat.
Proof using Hregs.
  intros Hi. unfold dest. destruct (src_dest_map regs !! i) as [j|] eqn:Hj; [|done]. apply dest_map_Some in Hj as (k & _ & Hk).
  apply list_elem_of_lookup_2, orig_elem in Hk; [|done]. cbn. lia.
Qed.

(** At its destination the region of a request is the one wanted there. *)
Lemma dest_region i : (i < length regs)%nat → regs !!! i = target_regions regs !!! dest i.
Proof using Hregs.
  intros Hi. unfold dest. destruct (src_dest_map regs !! i) as [j|] eqn:Hj; cbn.
  - apply dest_map_Some in Hj as (k & H1 & H2). pose proof (src_regions regs Hregs) as E. apply (f_equal (.!! k)) in E. rewrite !list_lookup_fmap, H1, H2 in E. by injection E.
  - destruct (decide (regs !!! i = target_regions regs !!! i)) as [|Hne]; [done|]. assert (Ho : i ∈ orig_indices regs) by (by apply orig_elem). apply dest_map_dom in Ho as [? ?]. congruence.
Qed.
End map.

(** ** The cycles *)

Section cycles.
Variable want : string → nat.

(** The requests that are not where they go. *)
Definition wrong (b : InputBatch) : gset string := dom (filter (λ x, want x.1 ≠ x.2) (req_id_to_index (slots b))).

Lemma wrong_elem b id : id ∈ wrong b ↔ ∃ p, req_id_to_index (slots b) !! id = Some p ∧ want id ≠ p.
Proof using. unfold wrong. rewrite elem_of_dom. unfold is_Some. by setoid_rewrite map_lookup_filter_Some. Qed.

(** The batch is dense, and its requests go to different indices of it. *)
Record placing (b : InputBatch) : Prop := {
  pl_core : ib_core b [];
  pl_inj : ∀ id id', is_Some (req_id_to_index (slots b) !! id) → is_Some (req_id_to_index (slots b) !! id') → want id = want id' → id = id';
  pl_range : ∀ id, is_Some (req_id_to_index (slots b) !! id) → ∃ id', req_id_to_index (slots b) !! id' = Some (want id);
}.

(** The request at index [p] goes to [m[p]], or stays when [p] was handled. *)
Definition follows (b : InputBatch) (m : gmap nat nat) (visited : list nat) (id : string) (p : nat) : Prop :=
  want id = if decide (p ∈ visited) then p else default p (m !! p).

Definition on_course (b : InputBatch) (m : gmap nat nat) (visited : list nat) : Prop :=
  ∀ id p, req_id_to_index (slots b) !! id = Some p → follows b m visited id p.

Lemma swapped_placing b b' i1 i2 id1 id2 : placing b → req_id_to_index (slots b) !! id1 = Some i1 → req_id_to_index (slots b) !! id2 = Some i2 → swapped b i1 i2 b' → placing b'.
Proof using.
  intros [Hc Hi Hr] H1 H2 Hsw. pose proof (ra_dom _ _ (swapped_rearranged _ _ _ _ Hsw)) as Hd. split.
  - exact (swapped_core b b' [] i1 i2 id1 id2 Hc H1 H2 Hsw).
  - intros id id'. rewrite !Hd. apply Hi.
  - intros id. rewrite Hd. intros (id' & Hid')%Hr. set (p := transpose i1 i2 (want id)).
    assert (∃ id'', req_id_to_index (slots b) !! id'' = Some p) as [id'' Hid''].
    { unfold p, transpose. repeat case_decide; eauto. }
    exists id''. rewrite (sw_index _ _ _ _ Hsw), Hid''. cbn. unfold p. by rewrite transpose_invol.
Qed.

(** Where the requests are after a swap. *)
Lemma swapped_at b b' i1 i2 id1 id2 id p : ib_core b [] → req_id_to_index (slots b) !! id1 = Some i1 → req_id_to_index (slots b) !! id2 = Some i2 → swapped b i1 i2 b' →
  req_id_to_index (slots b') !! id = Some p → (p = i1 ∧ id = id2) ∨ (p = i2 ∧ id = id1) ∨ (p ≠ i1 ∧ p ≠ i2 ∧ req_id_to_index (slots b) !! id = Some p).
Proof using.
  intros Hc H1 H2 Hsw. rewrite (sw_index _ _ _ _ Hsw). destruct (req_id_to_index (slots b) !! id) as [q|] eqn:Hq; [|done]. intros [= <-].
  assert (Hu : ∀ id', req_id_to_index (slots b) !! id' = Some q → id = id').
  { intros id' Hq'. apply (ic_index _ _ Hc) in Hq, Hq'. congruence. }
  unfold transpose. destruct (decide (q = i1)) as [->|]; [right; left; auto|]. destruct (decide (q = i2)) as [->|]; [left; auto|]. right. right. auto.
Qed.

Lemma swap_fixes b b' src dst ids idd : placing b → req_id_to_index (slots b) !! ids = Some src → req_id_to_index (slots b) !! idd = Some dst → want ids = dst → src ≠ dst →
  swapped b src dst b' → (size (wrong b') < size (wrong b))%nat.
Proof using.
  intros Hpl H1 H2 Hw Hne Hsw. assert (Hids : ids ≠ idd) by congruence. assert (Hwd : want idd ≠ dst) by (intros E; apply Hids, (pl_inj _ Hpl); eauto; congruence).
  assert (Hin : ids ∈ wrong b) by (apply wrong_elem; exists src; split; [done|congruence]).
  assert (Hout : ids ∉ wrong b'). { intros (p & Hp & Hx)%wrong_elem. rewrite (sw_index _ _ _ _ Hsw), H1 in Hp. injection Hp as <-. apply Hx. unfold transpose. by rewrite decide_True. }
  apply subset_size. split; [|intros Hsub; by apply Hout, Hsub]. intros id (p & Hp & Hx)%wrong_elem.
  destruct (swapped_at _ _ _ _ _ _ _ _ (pl_core _ Hpl) H1 H2 Hsw Hp) as [[-> ->]|[[-> ->]|(_ & _ & Hq)]]; [|done|]; apply wrong_elem; eauto.
Qed.

Lemma follow_ok fuel : ∀ b m visited src dst ids, placing b → src ∉ visited → req_id_to_index (slots b) !! ids = Some src → want ids = dst →
  (∀ id p, req_id_to_index (slots b) !! id = Some p → p ≠ src → follows b m visited id p) → (size (wrong b) < fuel)%nat →
  ∃ b' m', follow fuel src dst m b = (Ok m', b') ∧ rearranged b b' ∧ placing b' ∧ on_course b' m' (src :: visited) ∧ (size (wrong b') ≤ size (wrong b))%nat ∧ dom m' = dom m ∧
    removed_ (batch_update_builder b') = removed_ (batch_update_builder b) ∧ length (req_ids_ (slots b')) = length (req_ids_ (slots b)).
Proof using.
  induction fuel as [|fuel IH]; intros b m visited src dst ids Hpl Hsrc Hids Hdst Hrest Hf; [lia|].
  cbn [follow]. destruct (Nat.eqb_spec src dst) as [->|Hne].
  { exists b, m. split_and!; try done. intros id p Hp. unfold follows. case_decide as Hin.
    - apply elem_of_cons in Hin as [->|Hin]; [|specialize (Hrest id p Hp); unfold follows in Hrest; rewrite decide_True in Hrest by done; apply Hrest; by intros ->].
      apply (ic_index _ _ (pl_core _ Hpl)) in Hp, Hids. congruence.
    - rewrite not_elem_of_cons in Hin. destruct Hin as [Hp' Hin]. specialize (Hrest id p Hp Hp'). unfold follows in Hrest. by rewrite decide_False in Hrest. }
  destruct (pl_range _ Hpl ids (mk_is_Some _ _ Hids)) as [idd Hidd]. rewrite Hdst in Hidd.
  destruct (swap_states_ok b [] src dst ids idd (pl_core _ Hpl) Hids Hidd Hne) as (b1 & Hrun & Hsw).
  pose proof (swapped_placing _ _ _ _ _ _ Hpl Hids Hidd Hsw) as Hpl1. pose proof (swapped_rearranged _ _ _ _ Hsw) as Hra.
  pose proof (swap_fixes _ _ _ _ _ _ Hpl Hids Hidd Hdst Hne Hsw) as Hsize.
  assert (Hwd : dst ∉ visited ∧ want idd = default dst (m !! dst)).
  { specialize (Hrest idd dst Hidd (not_eq_sym Hne)). unfold follows in Hrest. case_decide; [|done]. assert (ids = idd) by (apply (pl_inj _ Hpl); eauto; congruence). congruence. }
  destruct Hwd as [Hdv Hwd].
  destruct (IH b1 (<[dst := dst]> m) visited src (default dst (m !! dst)) idd Hpl1 Hsrc) as (b' & m' & Hrun' & Hra' & Hpl' & Hon & Hs' & Hdom & Hrem & Hlen).
  - rewrite (sw_index _ _ _ _ Hsw), Hidd. cbn. f_equal. unfold transpose. rewrite decide_False by done. by rewrite decide_True.
  - done.
  - intros id p Hp Hps. destruct (swapped_at _ _ _ _ _ _ _ _ (pl_core _ Hpl) Hids Hidd Hsw Hp) as [[-> ->]|[[-> ->]|(_ & Hpd & Hq)]]; [done| |].
    + unfold follows. rewrite decide_False, lookup_insert_eq by done. done.
    + specialize (Hrest id p Hq Hps). unfold follows in *. by rewrite lookup_insert_ne.
  - lia.
  - exists b', m'. split_and!; [by rewrite (bind_ok _ _ _ _ _ Hrun)|by etrans|done|done|lia| | |].
    + rewrite Hdom. apply dom_insert_lookup_L. destruct (m !! dst) eqn:Em; [eauto|]. cbn in Hwd. assert (ids = idd) by (apply (pl_inj _ Hpl); eauto; congruence). congruence.
    + rewrite Hrem, (sw_builder _ _ _ _ Hsw). by destruct (is_pooling_model b).
    + rewrite Hlen. apply (sw_lengths _ _ _ _ Hsw).
Qed.

Lemma follow_all_ok fuel srcs : ∀ b m visited, placing b → on_course b m visited → NoDup srcs → (∀ x, x ∈ srcs → x ∉ visited ∧ is_Some (m !! x) ∧ ∃ id, req_id_to_index (slots b) !! id = Some x) →
  (size (wrong b) < fuel)%nat →
  ∃ b' m', follow_all fuel srcs m b = (Ok tt, b') ∧ rearranged b b' ∧ placing b' ∧ on_course b' m' (rev srcs ++ visited) ∧ dom m' = dom m ∧
    removed_ (batch_update_builder b') = removed_ (batch_update_builder b) ∧ length (req_ids_ (slots b')) = length (req_ids_ (slots b)).
Proof using.
  induction srcs as [|src srcs IH]; intros b m visited Hpl Hon Hnd Hin Hf.
  - exists b, m. by split_and!.
  - apply NoDup_cons in Hnd as [Hni Hnd]. destruct (Hin src) as (Hv & [dst Hdst] & ids & Hids); [by left|]. cbn [follow_all]. rewrite Hdst.
    destruct (follow_ok fuel b m visited src dst ids Hpl Hv Hids) as (b1 & m1 & Hrun & Hra & Hpl1 & Hon1 & Hs & Hdom & Hrem & Hlen).
    { specialize (Hon ids src Hids). unfold follows in Hon. by rewrite decide_False, Hdst in Hon. }
    { intros id p Hp _. by apply Hon. }
    { done. }
    destruct (IH b1 m1 (src :: visited) Hpl1 Hon1 Hnd) as (b' & m' & Hrun' & Hra' & Hpl' & Hon' & Hdom' & Hrem' & Hlen').
    + intros x Hx. destruct (Hin x) as (Hxv & Hxm & id & Hid); [by right|]. split_and!.
      * apply not_elem_of_cons. split; [by intros ->|done].
      * apply elem_of_dom. rewrite Hdom. by apply elem_of_dom.
      * assert (Hl : (x < length (req_ids_ (slots b1)))%nat) by (rewrite Hlen; apply (ic_index _ _ (pl_core _ Hpl)) in Hid; by apply lookup_lt_Some in Hid).
        apply (occupied _ _ _ (pl_core _ Hpl1) Hl). by intros ?%elem_of_nil.
    + lia.
    + exists b', m'. split_and!; [by rewrite (bind_ok _ _ _ _ _ Hrun)|by etrans|done| |congruence|congruence|congruence]. cbn [rev]. by rewrite <-app_assoc.
Qed.
End cycles.

(** ** Regions of a dense batch *)

Section reorder.
Variables (threshold : Z) (num_scheduled : string → option Z).

(** The region of a request by its view. *)
Definition view_region (id : string) (v : ReqView) : Z := let '(_, prompt, computed) := v_counts v in region threshold (default 0 (num_scheduled id)) computed prompt.

Lemma region_range n c p : 0 ≤ region threshold n c p ≤ 3.
Proof. unfold region. repeat case_match; lia. Qed.

Lemma regions_ok b : ib_core b [] → (∀ id, is_Some (req_id_to_index (slots b) !! id) → is_Some (num_scheduled id)) →
  ∃ regs, req_regions threshold num_scheduled b = Ok regs ∧ length regs = length (req_ids_ (slots b)) ∧ Forall (λ r, 0 ≤ r ≤ 3) regs ∧
    ∀ id i v, req_id_to_index (slots b) !! id = Some i → view b i = Some v → regs !!! i = view_region id v.
Proof.
  intros Hc Hs. assert (Hall : ∀ i, (i < length (req_ids_ (slots b)))%nat → ∃ id v, req_ids_ (slots b) !! i = Some (Some id) ∧ view b i = Some v ∧
    req_region threshold num_scheduled b i (Some id) = Ok (view_region id v)).
  { intros i Hi. destruct (occupied b [] i Hc Hi) as [id Hid]; [by intros ?%elem_of_nil|]. destruct (core_row _ _ _ _ Hc Hid) as (row & spec & out & Hr & Hsp & Ho & _).
    destruct (Hs id (mk_is_Some _ _ Hid)) as [n Hn]. eexists id, _. split_and!; [by apply (ic_index _ _ Hc)|unfold view; rewrite Hr, Hsp, Ho; done|].
    unfold req_region. cbn. rewrite Hn, (arr_get_ok _ _ _ Hr). done. }
  set (reg := λ i, match req_ids_ (slots b) !! i, view b i with Some (Some id), Some v => view_region id v | _, _ => 0 end).
  exists (reg <$> seq 0 (length (req_ids_ (slots b)))). split_and!.
  - unfold req_regions. apply map_res_ok, Forall2_same_length_lookup_2; [by rewrite length_imap, length_fmap, length_seq|]. intros i [j oid] r Hx Hr.
    rewrite list_lookup_imap in Hx. destruct (req_ids_ (slots b) !! i) as [o|] eqn:Ho; [|done]. cbn in Hx. injection Hx as <- <-. pose proof (lookup_lt_Some _ _ _ Ho) as Hi.
    rewrite list_lookup_fmap, lookup_seq_lt in Hr by done. cbn in Hr. injection Hr as <-. destruct (Hall i Hi) as (id & v & Hid & Hv & Hreg). cbn. unfold reg. rewrite Ho in Hid. injection Hid as ->. by rewrite Ho, Hv.
  - by rewrite length_fmap, length_seq.
  - assert (Hvr : ∀ id v, 0 ≤ view_region id v ≤ 3) by (intros id v; unfold view_region; destruct (v_counts v) as [[? ?] ?]; apply region_range).
    apply Forall_fmap, Forall_true. intros i. unfold reg. cbn. destruct (req_ids_ (slots b) !! i) as [[id|]|]; [destruct (view b i); [apply Hvr|lia]|lia|lia].
  - intros id i v Hid Hv. apply (ic_index _ _ Hc) in Hid. pose proof (lookup_lt_Some _ _ _ Hid) as Hi. apply list_lookup_total_correct. rewrite list_lookup_fmap, lookup_seq_lt by done.
    cbn. unfold reg. by rewrite Hid, Hv.
Qed.

(** When every request is where it goes, the regions are in order. *)
Lemma placed_regions b b' regs : ib_core b [] → ib_core b' [] → rearranged b b' → (∀ id, is_Some (req_id_to_index (slots b) !! id) → is_Some (num_scheduled id)) →
  length (req_ids_ (slots b')) = length (req_ids_ (slots b)) → req_regions threshold num_scheduled b = Ok regs → Forall (λ r, 0 ≤ r ≤ 3) regs → length regs = length (req_ids_ (slots b)) →
  (∀ id i v, req_id_to_index (slots b) !! id = Some i → view b i = Some v → regs !!! i = view_region id v) →
  (∀ id i, req_id_to_index (slots b) !! id = Some i → req_id_to_index (slots b') !! id = Some (dest regs i)) →
  req_regions threshold num_scheduled b' = Ok (target_regions regs).
Proof.
  intros Hc Hc' Hra Hs Hl Hregs Hrange Hlen Hview Hdest. destruct (regions_ok b' Hc') as (regs' & Hregs' & Hlen' & _ & Hview').
  { intros id Hid. apply Hs. by apply (ra_dom _ _ Hra). }
  rewrite Hregs'. f_equal. apply list_eq_same_length with (n := length regs'); [rewrite target_length by done; lia|done|]. intros p x y Hp Hx Hy.
  destruct (occupied b' [] p Hc') as [id Hid]; [lia|by intros ?%elem_of_nil|]. destruct (proj1 (ra_dom _ _ Hra id) (mk_is_Some _ _ Hid)) as [i Hi].
  pose proof (Hdest id i Hi) as Hd. rewrite Hid in Hd. injection Hd as ->. destruct (core_view _ _ _ _ Hc Hi) as (v & Hv & _).
  pose proof (ra_view _ _ Hra id i _ Hi Hid) as Hv'. rewrite Hv in Hv'. pose proof (Hview id i v Hi Hv) as E1. pose proof (Hview' id _ v Hid Hv') as E2.
  apply list_lookup_total_correct in Hx, Hy. rewrite <-Hx, <-Hy, E2, <-E1. apply dest_region; [done|]. rewrite Hlen. apply (ic_index _ _ Hc) in Hi. by apply lookup_lt_Some in Hi.
Qed.

Lemma reorder_ok b : ib_core b [] → (∀ id, is_Some (req_id_to_index (slots b) !! id) → is_Some (num_scheduled id)) →
  ∃ b' changed regs, reorder_batch threshold num_scheduled b = (Ok changed, b') ∧ rearranged b b' ∧ ib_core b' [] ∧
    req_regions threshold num_scheduled b' = Ok regs ∧ StronglySorted Z.le regs ∧ length regs = length (req_ids_ (slots b)) ∧ (changed = false → b' = b).
Proof.
  intros Hc Hs. destruct (regions_ok b Hc Hs) as (regs & Hregs & Hlen & Hrange & Hview).
  assert (Hsorted : StronglySorted Z.le (target_regions regs)) by (by apply target_strongly). pose proof (target_length regs Hrange) as Htl.
  unfold reorder_batch. erewrite bind_ok by exact eq_refl. cbn [id]. erewrite bind_ok by (apply lift_ok; exact Hregs). cbn beta.
  destruct (orig_indices regs) as [|x0 l0] eqn:Eo.
  { exists b, false, regs. split_and!; try done. replace regs with (target_regions regs); [done|]. apply list_eq_same_length with (n := length regs); [done|done|].
    intros i x y Hi Hx Hy. apply list_lookup_total_correct in Hx, Hy. destruct (decide (regs !!! i = target_regions regs !!! i)) as [|Hne]; [congruence|].
    assert (i ∈ orig_indices regs) as Hin by (by apply orig_elem). rewrite Eo in Hin. by apply elem_of_nil in Hin. }
  set (want := λ id, default 0%nat (dest regs <$> req_id_to_index (slots b) !! id)).
  assert (Hw : ∀ id i, req_id_to_index (slots b) !! id = Some i → want id = dest regs i) by (intros id i Hi; unfold want; by rewrite Hi).
  assert (Hlt : ∀ id i, req_id_to_index (slots b) !! id = Some i → (i < length regs)%nat) by (intros id i Hi%(ic_index _ _ Hc); rewrite Hlen; by apply lookup_lt_Some in Hi).
  assert (Hpl : placing want b).
  { split; [done| |].
    - intros id id' [i Hi] [j Hj]. rewrite (Hw _ _ Hi), (Hw _ _ Hj). intros ->%dest_inj. apply (ic_index _ _ Hc) in Hi, Hj. congruence.
    - intros id [i Hi]. rewrite (Hw _ _ Hi). apply (occupied b [] _ Hc); [rewrite <-Hlen; apply dest_lt; [done|by eapply Hlt]|by intros ?%elem_of_nil]. }
  destruct (follow_all_ok want (S (length regs)) (src_indices regs) b (src_dest_map regs) [] Hpl) as (b' & m' & Hrun & Hra & Hpl' & Hon & Hdom & _ & Hl').
  - intros id p Hp. unfold follows. rewrite decide_False by (by intros ?%elem_of_nil). by rewrite (Hw _ _ Hp).
  - rewrite src_perm. apply orig_nodup.
  - intros x Hx. rewrite src_perm in Hx. split_and!; [by intros ?%elem_of_nil|by apply dest_map_dom|]. apply (occupied b [] _ Hc); [|by intros ?%elem_of_nil].
    apply orig_elem in Hx as [Hx _]; [lia|done].
  - apply Nat.lt_succ_r. unfold wrong. rewrite size_dom. etrans; [apply map_size_filter|]. pose proof (core_count _ _ Hc) as Hn. cbn in Hn. unfold num_reqs in Hn. lia.
  - exists b', true, (target_regions regs). split_and!; [by rewrite (bind_ok _ _ _ _ _ Hrun)|done|by destruct Hpl'| |done|lia|done].
    apply (placed_regions b b' regs); try done; [by destruct Hpl'|]. intros id i Hi. destruct (proj2 (ra_dom _ _ Hra id) (mk_is_Some _ _ Hi)) as [p Hp]. rewrite Hp. f_equal.
    specialize (Hon id p Hp). unfold follows in Hon. rewrite app_nil_r in Hon. rewrite (Hw _ _ Hi) in Hon. case_decide as Hin; [done|]. rewrite Hon.
    destruct (m' !! p) as [q|] eqn:Hq; [|done]. destruct Hin. apply list_elem_of_In, in_rev. rewrite rev_involutive. apply list_elem_of_In. rewrite src_perm. apply dest_map_dom.
    apply elem_of_dom. rewrite <-Hdom. apply elem_of_dom. eauto.
Qed.

(** ** Theorem *)

(** C22.  Reordering a dense batch terminates without raising, whatever the regions
    of the requests: afterwards the decodes come first, then short and long
    extensions, then prefills.  No request is lost, every request keeps its tokens,
    drafts, counts, blocks, adapter, sampling parameters, generator, banned words
    and embeddings, a batch without a mask of allowed tokens gets none, and a batch
    that is in order is not touched.  The rows of an existing mask are not covered:
    the swaps duplicate them (see [swap_duplicates_mask]). *)
Theorem reorder_exact b : ib_core b [] → (∀ id, is_Some (req_id_to_index (slots b) !! id) → is_Some (num_scheduled id)) →
  ∃ b' changed regs, reorder_batch threshold num_scheduled b = (Ok changed, b') ∧ rearranged b b' ∧ ib_core b' [] ∧
    req_regions threshold num_scheduled b' = Ok regs ∧ StronglySorted Z.le regs ∧ length regs = length (req_ids_ (slots b)) ∧ (changed = false → b' = b).
Proof. apply reorder_ok. Qed.
End reorder.
