(* ===== verification/ModelRunner.v ===== *)
(** * The model runner's states

    [_update_states] of [v1/worker/gpu_model_runner.py]: each step, the scheduler's
    output is applied to the cached states of the requests and to the persistent
    batch; and the part of [_bookkeeping_sync] that records the sampled tokens.

    The request object is shared by the dictionary of requests and the list of
    requests to add, so the list holds ids.  The lists of output tokens are shared
    with the batch and live in its heap.  The scheduler's model of sampling
    parameters has the fields the scheduler reads; [sampler_params] gives those the
    worker reads of the same object.  Generators are torch objects made from a seed,
    and [pooling_update] is what the model's pooler does to pooling parameters.
    Positions of M-RoPE and XD-RoPE, the n-gram proposer on the GPU and late
    interaction are left out. *)
From Stdlib Require Import QArith.
From stdpp Require Import gmap sorting.
From S2P Require Import Prelude.
From S2P Require Import RequestModel.
From S2P Require Import SchedulerState.
From S2P Require Import Arrays.
From S2P Require Import BlockTable.
From S2P Require Import InputBatch.
From S2P Require Import Reorder.
#[local] Open Scope Z_scope.

Record RunnerConfig := MkRunnerConfig {
  use_async_scheduling : bool;
  is_last_rank : bool;
  use_async_spec_decode : bool;
  has_kv_cache_groups : bool;
  reorder_batch_threshold : option Z;
}.

Record ModelRunner := MkRunner {
  mr_requests : gmap string CachedRequestState;
  num_prompt_logprobs : gmap string Z;
  encoder_cache : gmap string nat;
  input_batch : InputBatch;
  prev_num_draft_tokens : list Z;
  (* the name of the next list of output tokens *)
  next_list : nat;
}.

Definition MR (A : Type) : Type := M ModelRunner A.

Definition upd_requests (f : gmap string CachedRequestState → gmap string CachedRequestState) (s : ModelRunner) : ModelRunner :=
  MkRunner (f (mr_requests s)) (num_prompt_logprobs s) (encoder_cache s) (input_batch s) (prev_num_draft_tokens s) (next_list s).
Definition upd_prompt_logprobs (f : gmap string Z → gmap string Z) (s : ModelRunner) : ModelRunner :=
  MkRunner (mr_requests s) (f (num_prompt_logprobs s)) (encoder_cache s) (input_batch s) (prev_num_draft_tokens s) (next_list s).
Definition upd_encoder_cache (f : gmap string nat → gmap string nat) (s : ModelRunner) : ModelRunner :=
  MkRunner (mr_requests s) (num_prompt_logprobs s) (f (encoder_cache s)) (input_batch s) (prev_num_draft_tokens s) (next_list s).
Definition set_input_batch (b : InputBatch) (s : ModelRunner) : ModelRunner :=
  MkRunner (mr_requests s) (num_prompt_logprobs s) (encoder_cache s) b (prev_num_draft_tokens s) (next_list s).
Definition set_drafts (l : list Z) (s : ModelRunner) : ModelRunner :=
  MkRunner (mr_requests s) (num_prompt_logprobs s) (encoder_cache s) (input_batch s) l (next_list s).
Definition set_next_list (n : nat) (s : ModelRunner) : ModelRunner :=
  MkRunner (mr_requests s) (num_prompt_logprobs s) (encoder_cache s) (input_batch s) (prev_num_draft_tokens s) n.

Definition on_batch {A} (m : MB A) : MR A := zoom input_batch set_input_batch m.

Definition get_request (id : string) : MR CachedRequestState :=
  let! rs := gets mr_requests in
  match rs !! id with Some r => ret r | None => raise KeyError end.

Definition put_request (r : CachedRequestState) : MR unit := modify (upd_requests (<[cr_req_id r := r]>)).

(** A new list of output tokens. *)
Definition new_list (l : list Z) : MR nat :=
  let! n := gets next_list in
  modify (set_next_list (S n)) ;;;
  on_batch (modify (λ b, set_lists (<[n := l]> (output_lists b)) b)) ;;;
  ret n.

Definition list_of (b : InputBatch) (n : nat) : list Z := default [] (output_lists b !! n).

(** A change of a list in place. *)
Definition on_output_list (n : nat) (f : list Z → list Z) : MR unit :=
  on_batch (modify (λ b, set_lists (<[n := f (list_of b n)]> (output_lists b)) b)).

(** *** Fields of a cached request *)

Definition cr_with (blocks : list (list Z)) (computed : Z) (output : nat) (draft : Z) (r : CachedRequestState) : CachedRequestState :=
  MkCached (cr_req_id r) (cr_prompt_token_ids r) (cr_prompt_embeds r) (cr_num_prompt_tokens r) (cr_sampling_params r) (cr_generator r)
    blocks computed output (cr_lora_request r) (cr_pooling_params r) (cr_pooling_states r) draft.
Definition cr_set_blocks (l : list (list Z)) (r : CachedRequestState) := cr_with l (cr_num_computed_tokens r) (cr_output_token_ids r) (cr_prev_num_draft_len r) r.
Definition cr_set_computed (n : Z) (r : CachedRequestState) := cr_with (cr_block_ids r) n (cr_output_token_ids r) (cr_prev_num_draft_len r) r.
Definition cr_set_output (n : nat) (r : CachedRequestState) := cr_with (cr_block_ids r) (cr_num_computed_tokens r) n (cr_prev_num_draft_len r) r.
Definition cr_set_draft (n : Z) (r : CachedRequestState) := cr_with (cr_block_ids r) (cr_num_computed_tokens r) (cr_output_token_ids r) n r.

(** [block_ids.extend(new_ids)] for each pair of the zipped lists. *)
Definition extend_blocks (old new : list (list Z)) : list (list Z) := imap (λ g l, l ++ default [] (new !! g)) old.

Section runner.
Variable float32 : Q → Q.
Variable sampler_params : SamplingParams → SampleParams.
Variable pool_params : PoolingParams → PoolParams.
Variable manual_seed : Z → nat.
Variable pooling_update : PoolParams → res PoolParams.
Variable cfg : RunnerConfig.

(** ** Requests that end or pause *)

Definition forget_finished (ids : list string) : MR unit :=
  for_each ids (λ id,
    modify (upd_requests (delete id)) ;;;
    modify (upd_prompt_logprobs (delete id))).

Definition remove_all (ids : list string) : MR unit := for_each ids (λ id, on_batch (remove_request id) ;;; ret tt).

(** The requests of the batch that are not scheduled, or were preempted and resumed. *)
Definition unscheduled_req_ids (o : SchedulerOutput) (b : InputBatch) : gset string :=
  dom (req_id_to_index (slots b)) ∖ (list_to_set (so_num_scheduled_tokens o).*1 ∖ cr_resumed_req_ids (so_scheduled_cached_reqs o)).

(** ** New requests *)

Definition make_generator (p : option SampleParams) : res (option nat) :=
  match p with
  | Some p =>
      match sampling_type p with
      | RANDOM_SEED => match sp_seed p with Some seed => Ok (Some (manual_seed seed)) | None => Raise TypeError end
      | _ => Ok None
      end
  | None => Ok None
  end.

(** The cached state of a request the workers did not know. *)
Definition new_cached_state (n : NewRequestData) (pooling : bool) (output : nat) : res CachedRequestState :=
  let sampling := sampler_params <$> nr_sampling_params n in
  let? generator := make_generator sampling in
  let? pool :=
    match pool_params <$> nr_pooling_params n with
    | Some p => if pooling then let? p := pooling_update p in Ok (Some p) else Ok (Some p)
    | None => if pooling then Raise AssertionError else Ok None
    end in
  let? num := length_from_prompt_token_ids_or_embeds (nr_prompt_token_ids n) (nr_prompt_embeds n) in
  Ok (MkCached (nr_req_id n) (nr_prompt_token_ids n) (nr_prompt_embeds n) num sampling generator (nr_block_ids n) (nr_num_computed_tokens n) output
    (nr_lora_request n) pool (match pool with Some _ => Some 0%nat | None => None end) 0).

(** [_update_streaming_request] *)
Definition update_streaming_request (n : NewRequestData) : MR unit :=
  let id := nr_req_id n in
  on_batch (remove_request id) ;;;
  let! r := get_request id in
  let with_num num := MkCached id (nr_prompt_token_ids n) (nr_prompt_embeds n) num (sampler_params <$> nr_sampling_params n) (cr_generator r)
    (nr_block_ids n) (nr_num_computed_tokens n) (cr_output_token_ids r) (cr_lora_request r) (pool_params <$> nr_pooling_params n) (cr_pooling_states r) (cr_prev_num_draft_len r) in
  put_request (with_num (cr_num_prompt_tokens r)) ;;;
  let! num := lift (length_from_prompt_token_ids_or_embeds (nr_prompt_token_ids n) (nr_prompt_embeds n)) in
  put_request (with_num num) ;;;
  on_output_list (cr_output_token_ids r) (λ _, []).

Definition add_new_request (n : NewRequestData) : MR string :=
  let id := nr_req_id n in
  let! known := gets mr_requests in
  match known !! id with
  | Some _ => update_streaming_request n ;;; ret id
  | None =>
      let! pooling := gets (λ s, is_pooling_model (input_batch s)) in
      let! output := new_list [] in
      let! r := lift (new_cached_state n pooling output) in
      put_request r ;;;
      let! vocab := gets (λ s, vocab_size (input_batch s)) in
      match cr_sampling_params r ≫= sp_prompt_logprobs with
      | Some k => modify (upd_prompt_logprobs (<[id := if k =? -1 then vocab else k]>))
      | None => ret tt
      end ;;;
      ret id
  end.

(** ** Running and resumed requests *)

(** The row of the batch a request has. *)
Definition row_of (id : string) : MR (option nat) := gets (λ s, req_id_to_index (slots (input_batch s)) !! id).

(** With asynchronous scheduling all drafts of the last step are taken as accepted;
    the value is the correction to make when the real number is known. *)
Definition assume_accepted (id : string) : MR (list (string * Z)) :=
  let! r := get_request id in
  let! index := row_of id in
  let n := cr_prev_num_draft_len r in
  if (n =? 0) || negb (use_async_scheduling cfg) then ret []
  else match index with
       | None => put_request (cr_set_draft 0 r) ;;; ret []
       | Some _ =>
           on_output_list (cr_output_token_ids r) (λ l, l ++ py_repeat (-1) n) ;;;
           let! prev := gets (λ s, prev_req_id_to_index (input_batch s) ≫= (.!! id)) in
           match prev with
           | Some i => let! l := gets prev_num_draft_tokens in let! l := lift (arr_set l i n) in modify (set_drafts l)
           | None => ret tt
           end ;;;
           ret [(id, n)]
       end.

(** The tokens the scheduler sends to the workers that do not sample. *)
Definition receive_tokens (r : CachedRequestState) (num_computed : Z) (new_token_ids : list Z) : MR unit :=
  let! out := gets (λ s, list_of (input_batch s) (cr_output_token_ids r)) in
  let num_new := num_computed + len new_token_ids - (cr_num_prompt_tokens r + len out) in
  if num_new =? 1 then
    match last new_token_ids with
    | Some t => on_output_list (cr_output_token_ids r) (λ l, l ++ [t])
    | None => raise IndexError
    end
  else if 0 <? num_new then on_output_list (cr_output_token_ids r) (λ l, l ++ py_slice_from new_token_ids (- num_new))
  else ret tt.

(** Output tokens the scheduler has discarded. *)
Definition discard_tokens (r : CachedRequestState) (index : option nat) (num_output : Z) : MR unit :=
  let! out := gets (λ s, list_of (input_batch s) (cr_output_token_ids r)) in
  if num_output <? len out then
    on_output_list (cr_output_token_ids r) (λ l, py_slice_to l num_output) ;;;
    match index with
    | Some i => on_batch (on_row i (λ row, Ok (row_counts (num_prompt_tokens row + num_output) (num_prompt_tokens row) (num_computed_tokens_cpu row) row)))
    | None => ret tt
    end
  else ret tt.

(** The new tokens of a cached request; the value are those sent by the scheduler. *)
Definition update_tokens (d : CachedRequestData) (i : nat) (id : string) (index : option nat) : MR (list Z) :=
  let! r := get_request id in
  let! num_output := lift (arr_get (cr_num_output_tokens d) i) in
  if negb (is_last_rank cfg) then
    match cr_new_token_ids d with
    | [] => ret []
    | l => let! new := lift (arr_get l i) in receive_tokens r (cr_num_computed_tokens r) new ;;; ret new
    end
  else discard_tokens r index num_output ;;; ret [].

Definition update_blocks (id : string) (resumed : bool) (index : option nat) (new_block_ids : option (list (list Z))) : MR unit :=
  let! r := get_request id in
  if negb resumed then
    match new_block_ids with
    | Some new => put_request (cr_set_blocks (extend_blocks (cr_block_ids r) new) r)
    | None => ret tt
    end
  else match index, new_block_ids with
       | None, Some new => put_request (cr_set_blocks new r)
       | _, _ => raise AssertionError
       end.

(** The tokens of a request that comes back, from the scheduler. *)
Definition recover_tokens (d : CachedRequestData) (id : string) (num_output : Z) : MR unit :=
  if use_async_scheduling cfg && (0 <? num_output) then
    match cr_all_token_ids d !! id with
    | None => raise KeyError
    | Some l =>
        let! n := new_list (py_slice_from l (- num_output)) in
        let! r := get_request id in
        put_request (cr_set_output n r)
    end
  else ret tt.

(** The row of a request that stays in the batch. *)
Definition update_row (d : CachedRequestData) (id : string) (index : nat) (num_computed : Z) (new_block_ids : option (list (list Z))) (new_token_ids : list Z)
    (spec : gmap string (list Z)) : MR unit :=
  on_batch (on_row index (λ row, Ok (row_counts (num_tokens_no_spec row) (num_prompt_tokens row) num_computed row))) ;;;
  match new_block_ids with
  | Some new => on_batch (on_tables (mg_append_row new index))
  | None => ret tt
  end ;;;
  (if negb (is_last_rank cfg) then
    on_batch (on_row index (λ row,
      let stop := num_computed + len new_token_ids in
      let? t := arr_write (token_ids_cpu row) num_computed stop new_token_ids in
      Ok (row_counts stop (num_prompt_tokens row) (num_computed_tokens_cpu row) (row_tokens t (is_token_ids row) row))))
  else ret tt) ;;;
  let! r := get_request id in
  let! r := on_batch (update_req_spec_token_ids r spec) in
  put_request r.

(** One row of [scheduled_cached_reqs]: the corrections, and the request when it is
    to be added to the batch. *)
Definition update_cached (o : SchedulerOutput) (i : nat) (id : string) : MR (list (string * Z) * list string) :=
  let d := so_scheduled_cached_reqs o in
  let! _ := get_request id in
  let! num_computed := lift (arr_get (SchedulerState.cr_num_computed_tokens d) i) in
  let! new_block_ids := lift (arr_get (cr_new_block_ids d) i) in
  let resumed := bool_decide (id ∈ cr_resumed_req_ids d) in
  let! num_output := lift (arr_get (cr_num_output_tokens d) i) in
  let! index := row_of id in
  let! corrections := assume_accepted id in
  let! r := get_request id in
  put_request (cr_set_computed num_computed r) ;;;
  let! new_token_ids := update_tokens d i id index in
  update_blocks id resumed index new_block_ids ;;;
  match index with
  | None => recover_tokens d id num_output ;;; ret (corrections, [id])
  | Some index =>
      update_row d id index num_computed new_block_ids new_token_ids (so_scheduled_spec_decode_tokens o) ;;;
      ret (corrections, [])
  end.

(** ** The step *)

Definition add_back (spec : gmap string (list Z)) (id : string) : MR unit :=
  let! r := get_request id in
  on_batch (ib_add_request float32 r) ;;;
  let! r := on_batch (update_req_spec_token_ids r spec) in
  put_request r.

(** [_may_reorder_batch] *)
Definition may_reorder_batch (o : SchedulerOutput) : MR unit :=
  if has_kv_cache_groups cfg then
    match reorder_batch_threshold cfg with
    | Some n => on_batch (reorder_batch n (λ id, sdict_get id (so_num_scheduled_tokens o))) ;;; ret tt
    | None => ret tt
    end
  else ret tt.

(** [_update_states]; the value are the corrections to make after the model has run,
    and the changes the logits processors are told. *)
Definition update_states (o : SchedulerOutput) : MR (list (string * Z) * option BatchUpdate) :=
  let d := so_scheduled_cached_reqs o in
  let finished := elements (so_finished_req_ids o) in
  forget_finished finished ;;;
  remove_all finished ;;;
  for_each (so_free_encoder_mm_hashes o) (λ h, modify (upd_encoder_cache (delete h))) ;;;
  let! gone := gets (λ s, unscheduled_req_ids o (input_batch s)) in
  remove_all (elements gone) ;;;
  let! new := map_m (so_scheduled_new_reqs o) add_new_request in
  (if use_async_spec_decode cfg then modify (λ s, set_drafts ((λ _, 0) <$> prev_num_draft_tokens s) s) else ret tt) ;;;
  let! cached := map_m (imap pair (cr_req_ids d)) (λ x, update_cached o x.1 x.2) in
  for_each (new ++ concat cached.*2) (add_back (so_scheduled_spec_decode_tokens o)) ;;;
  on_batch condense ;;;
  may_reorder_batch o ;;;
  let! update := on_batch refresh_metadata in
  ret (concat cached.*1, update).

(** [correct_spec_decode_token_counts], with the numbers of sampled tokens; it is
    called before the next step, while the request is still cached. *)
Definition correct_spec_decode_token_counts (corrections : list (string * Z)) (valid_sampled_token_count : list Z) : MR unit :=
  match valid_sampled_token_count with
  | [] => ret tt
  | _ =>
      let! prev := gets (λ s, prev_req_id_to_index (input_batch s)) in
      match prev with
      | None => ret tt
      | Some prev =>
          if bool_decide (prev = ∅) then ret tt
          else for_each corrections (λ '(id, optimistic),
            match prev !! id with
            | None => ret tt
            | Some i =>
                let! n := lift (arr_get valid_sampled_token_count i) in
                let correction := optimistic - (n - 1) in
                let! r := get_request id in
                put_request (cr_set_computed (cr_num_computed_tokens r - correction) r) ;;;
                let! index := row_of id in
                match index with
                | None => ret tt
                | Some j => on_batch (on_row j (λ row, Ok (row_counts (num_tokens_no_spec row) (num_prompt_tokens row) (num_computed_tokens_cpu row - correction) row)))
                end
            end)
      end
  end.

(** ** After the model has run *)

(** The loop of [_bookkeeping_sync] over the sampled tokens. *)
Definition record_sampled (req_idx : nat) (sampled_ids : list Z) : MR unit :=
  match sampled_ids with
  | [] => ret tt
  | _ =>
      let! row := on_batch (get_row req_idx) in
      let start_idx := num_tokens_no_spec row in
      let end_idx := start_idx + len sampled_ids in
      let! mml := gets (λ s, max_model_len (input_batch s)) in
      py_assert (end_idx <=? mml) ;;;
      on_batch (on_row req_idx (λ row, let? t := arr_write (token_ids_cpu row) start_idx end_idx sampled_ids in
        Ok (row_counts end_idx (num_prompt_tokens row) (num_computed_tokens_cpu row) (row_tokens t (arr_fill (is_token_ids row) start_idx end_idx true) row)))) ;;;
      let! ids := gets (λ s, req_ids_ (slots (input_batch s))) in
      let! oid := lift (arr_get ids req_idx) in
      match oid with
      | None => raise KeyError
      | Some id =>
          let! r := get_request id in
          on_output_list (cr_output_token_ids r) (λ l, l ++ sampled_ids)
      end
  end.

Definition bookkeeping (sampled : list (list Z)) : MR unit := for_each (imap pair sampled) (λ x, record_sampled x.1 x.2).
End runner.
