(* ===== verification/RunnerRows.v ===== *)
(** * Rows of the batch that change in place

    Between additions and removals the model runner changes rows of requests that
    stay: counts, drafts, blocks.  What these changes leave alone, and what the batch
    shows afterwards. *)
From Stdlib Require Import QArith.
From stdpp Require Import gmap sorting.
From S2P Require Import Prelude.
From S2P Require Import RequestModel.
From S2P Require Import Arrays.
From S2P Require Import BlockTable.
From S2P Require Import InputBatch.
From S2P Require Import InputBatchInv.
From S2P Require Import InputBatchOps.
From S2P Require Import InputBatchAdd.
From S2P Require Import ModelRunner.
#[local] Open Scope Z_scope.

(** ** Views without drafts *)

(** The view without the drafts. *)
Definition undrafted (v : ReqView) : ReqView :=
  let n := Z.to_nat (v_counts v).1.1 in
  MkView (take n (v_tokens v)) (take n (v_is_token v)) (v_counts v) (v_lora v) (v_sampling v) (v_output v) [] (v_blocks v) (v_generator v) (v_bad_words v) (v_embeds v).

(** The drafts follow the tokens. *)
Definition drafts (spec : list Z) (v : ReqView) : Prop := v_spec v = spec ∧ drop (Z.to_nat (v_counts v).1.1) (v_tokens v) = spec.

(** What a row shows, without drafts. *)
Definition base_view (b : InputBatch) (i : nat) : option ReqView :=
  row ← rows b !! i;
  out ← req_output_token_ids (slots b) !! i;
  Some (mk_view (is_pooling_model b) row [] out ((λ t, row_blocks t i) <$> tables b)
    (generators (by_index b) !! i) (bad_words_token_ids (by_index b) !! i) (req_prompt_embeds (by_index b) !! i)).

Lemma active_nil row : active row [] = known row.
Proof. unfold active, known, len. cbn. f_equal. lia. Qed.

Lemma undrafted_mk pooling row spec out blocks gen bad embeds :
  undrafted (mk_view pooling row spec out blocks gen bad embeds) = mk_view pooling row [] out blocks gen bad embeds.
Proof.
  unfold undrafted, mk_view. cbn. rewrite active_nil. fold (known row). pose proof (len_nonneg spec). rewrite !take_take.
  by replace (known row `min` active row spec)%nat with (known row) by (unfold known, active; lia).
Qed.

Lemma view_base b i v : view b i = Some v → base_view b i = Some (undrafted v).
Proof.
  unfold view, base_view. destruct (rows b !! i) as [row|]; [|done]. cbn. destruct (spec_token_ids (slots b) !! i) as [spec|]; [|done]. cbn.
  destruct (req_output_token_ids (slots b) !! i) as [out|]; [|done]. cbn. intros [= <-]. by rewrite undrafted_mk.
Qed.

(** ** Changes of one row *)

Record touched (b : InputBatch) (i : nat) (b' : InputBatch) : Prop := {
  to_config : is_pooling_model b' = is_pooling_model b ∧ ib_max_num_reqs b' = ib_max_num_reqs b ∧ max_model_len b' = max_model_len b ∧ vocab_size b' = vocab_size b;
  to_slots : req_ids_ (slots b') = req_ids_ (slots b) ∧ req_output_token_ids (slots b') = req_output_token_ids (slots b) ∧ req_id_to_index (slots b') = req_id_to_index (slots b) ∧
    length (spec_token_ids (slots b')) = length (spec_token_ids (slots b)) ∧ ∀ j, j ≠ i → spec_token_ids (slots b') !! j = spec_token_ids (slots b) !! j;
  to_rows : length (rows b') = length (rows b) ∧ ∀ j, j ≠ i → rows b' !! j = rows b !! j;
  to_lora : request_lora_mapping <$> rows b' !! i = request_lora_mapping <$> rows b !! i;
  to_wf : Forall (row_wf (max_model_len b)) (rows b) → Forall (row_wf (max_model_len b)) (rows b');
  to_tables : (∃ gs, mg_rep (tables b') gs ∧ Forall (λ g, length g.1 = ib_max_num_reqs b) gs) ∧
    (∀ j, (j < ib_max_num_reqs b)%nat → j ≠ i → (λ t, row_blocks t j) <$> tables b' = (λ t, row_blocks t j) <$> tables b);
  to_shape : Forall2 same_shape (tables b) (tables b');
  to_rest : by_id b' = by_id b ∧ by_index b' = by_index b ∧ loras b' = loras b ∧ allowed_token_ids_mask b' = allowed_token_ids_mask b ∧
    batch_update_builder b' = batch_update_builder b ∧ prev_req_id_to_index b' = prev_req_id_to_index b;
}.

Lemma touched_trans b1 b2 b3 i : touched b1 i b2 → touched b2 i b3 → touched b1 i b3.
Proof.
  intros [(A1 & A2 & A3 & A4) (B1 & B2 & B3 & B4 & B5) [C1 C2] D E [F1 F2] G (H1 & H2 & H3 & H4 & H5 & H6)]
         [(A1' & A2' & A3' & A4') (B1' & B2' & B3' & B4' & B5') [C1' C2'] D' E' [F1' F2'] G' (H1' & H2' & H3' & H4' & H5' & H6')].
  rewrite A3 in E'. rewrite A2 in F1', F2'. split; try (split_and!; congruence).
  - split_and!; try congruence. intros j Hj. by rewrite B5', B5.
  - split; [congruence|]. intros j Hj. by rewrite C2', C2.
  - by rewrite D', D.
  - tauto.
  - split; [done|]. intros j Hj Hne. by rewrite F2', F2.
  - by eapply shape_trans.
Qed.

Section touched.
Variables (b : InputBatch) (i : nat) (b' : InputBatch).
Hypothesis Ht : touched b i b'.

Lemma touched_other holes id j : ib_core b holes → req_id_to_index (slots b) !! id = Some j → j ≠ i → view b' j = view b j ∧ mask_row b' j = mask_row b j.
Proof using Ht.
  intros Hc Hid Hne. destruct Ht as [(A1 & A2 & A3 & A4) (B1 & B2 & B3 & B4 & B5) [C1 C2] D E [F1 F2] G (H1 & H2 & H3 & H4 & H5 & H6)].
  destruct (core_row _ _ _ _ Hc Hid) as (row & spec & out & _ & _ & _ & _ & _ & _ & _ & Hj). split; [|unfold mask_row; by rewrite H4].
  apply view_same; [by apply C2|by apply B5|by rewrite B2|done|by apply F2|by rewrite H2|by rewrite H2].
Qed.

Lemma touched_core holes v : ib_core b holes → view b' i = Some v → view_ok (max_model_len b) v → (i < length (req_ids_ (slots b)))%nat → ib_core b' holes.
Proof using Ht.
  intros Hc Hv Hok Hi. assert (Hvok : ∀ id j, req_id_to_index (slots b) !! id = Some j → ∃ w, view b' j = Some w ∧ view_ok (max_model_len b) w).
  { intros id j Hj. destruct (decide (j = i)) as [->|Hne]; [eauto|]. destruct (touched_other holes id j Hc Hj Hne) as [-> _]. by eapply core_view. }
  destruct Ht as [(A1 & A2 & A3 & A4) (B1 & B2 & B3 & B4 & B5) [C1 C2] D E [F1 F2] G (H1 & H2 & H3 & H4 & H5 & H6)].
  split; rewrite ?A1, ?A2, ?A3, ?B1, ?B2, ?B3, ?B4, ?C1, ?H2, ?H4; try by destruct Hc.
  - intros j l Hj. rewrite B5 by lia. by apply (ic_beyond _ _ Hc).
  - exact (E (ic_row _ _ Hc)).
  - intros id j row spec Hj Hr Hs. destruct (Hvok id j Hj) as (w & Hw & Hwok). rewrite <-A3 in Hwok |- *. by destruct (view_ok_parts b' j row spec w Hw Hwok Hr Hs) as (? & ? & ?).
  - intros id j row spec Hj Hr Hs. destruct (Hvok id j Hj) as (w & Hw & Hwok). rewrite <-A3 in Hwok. destruct (view_ok_parts b' j row spec w Hw Hwok Hr Hs) as (? & ? & He). by rewrite H2 in He.
Qed.

Lemma touched_uses id l : uses_lora b' id l ↔ uses_lora b id l.
Proof using Ht.
  destruct Ht as [_ (B1 & B2 & B3 & B4 & B5) [C1 C2] D _ _ _ _]. unfold uses_lora. rewrite B3. apply exist_proper. intros j. destruct (decide (j = i)) as [->|Hne].
  - destruct (rows b' !! i) as [r'|], (rows b !! i) as [r|]; cbn in D; try done.
    injection D as D. split; intros (row & Hj & [= <-] & Hrow); eexists; (split_and!; [done|done|congruence]).
  - by rewrite C2.
Qed.

Lemma touched_lora : lora_ok b → lora_ok b'.
Proof using Ht.
  intros [L1 L2 L3]. destruct Ht as [_ _ _ _ _ _ _ (_ & _ & H3 & _)]. split; rewrite H3.
  - intros l ids Hids. destruct (L1 _ _ Hids) as (? & ? & Hin). split_and!; [done|done|]. intros id. by rewrite touched_uses.
  - intros id l Hu. apply L2 with id. by apply touched_uses.
  - done.
Qed.
End touched.

(** ** The changes *)

Lemma touch_row b holes i row row' : ib_core b holes → rows b !! i = Some row → request_lora_mapping row' = request_lora_mapping row →
  (row_wf (max_model_len b) row → row_wf (max_model_len b) row') → touched b i (set_rows (<[i := row']> (rows b)) b).
Proof.
  intros Hc Hr Hl Hw. pose proof (lookup_lt_Some _ _ _ Hr) as Hi. split; cbn; try done.
  - split; [by rewrite length_insert|]. intros j Hj. by rewrite list_lookup_insert_ne.
  - rewrite list_lookup_insert_eq, Hr by done. cbn. by rewrite Hl.
  - intros Hall. apply Forall_insert; [done|]. apply Hw. by eapply Forall_lookup_1.
  - split; [by apply (ic_tables _ _ Hc)|done].
Qed.

Lemma touch_spec b holes i spec : ib_core b holes → (i < length (spec_token_ids (slots b)))%nat → touched b i (upd_slots (set_specs (<[i := spec]> (spec_token_ids (slots b)))) b).
Proof.
  intros Hc Hi. split; cbn; try done.
  - split_and!; try done; [by rewrite length_insert|]. intros j Hj. by rewrite list_lookup_insert_ne.
  - split; [by apply (ic_tables _ _ Hc)|done].
Qed.

Lemma shown_shape ids ts ts' : Forall2 same_shape ts ts' → shown_blocks ids ts' = shown_blocks ids ts.
Proof.
  intros Hsh. apply list_eq. intros g. unfold shown_blocks. rewrite !list_lookup_imap. destruct (ts !! g) as [t|] eqn:Ht.
  - destruct (Forall2_lookup_l _ _ _ _ _ Hsh Ht) as (t' & -> & Hs). cbn. by rewrite (kernel_ids_shape _ _ _ Hs).
  - assert (ts' !! g = None) as -> by (apply lookup_ge_None; rewrite <-(Forall2_length _ _ _ Hsh); by apply lookup_ge_None). done.
Qed.

Lemma fits_shape ids ts ts' : Forall2 same_shape ts ts' → blocks_fit ids ts → blocks_fit ids ts'.
Proof.
  intros Hsh Hf g t' Ht'. destruct (Forall2_lookup_r _ _ _ _ _ Hsh Ht') as (t & Ht & Hs). destruct (Hf g t Ht) as (l & Hl & Hle). exists l. split; [done|].
  rewrite (kernel_ids_shape _ _ _ Hs). by replace (max_num_blocks_per_req t') with (max_num_blocks_per_req t) by (by rewrite Hs).
Qed.

Lemma append_tables ids new ts n i : (∃ gs, mg_rep ts gs ∧ Forall (λ g, length g.1 = n) gs) → (i < n)%nat → (λ t, row_blocks t i) <$> ts = shown_blocks ids ts →
  blocks_fit (extend_blocks ids new) ts → (length ts ≤ length new)%nat →
  ∃ ts', mg_append_row new i ts = (Ok tt, ts') ∧ (∃ gs', mg_rep ts' gs' ∧ Forall (λ g, length g.1 = n) gs') ∧
    (∀ j, (j < n)%nat → j ≠ i → (λ t, row_blocks t j) <$> ts' = (λ t, row_blocks t j) <$> ts) ∧
    (λ t, row_blocks t i) <$> ts' = shown_blocks (extend_blocks ids new) ts ∧ Forall2 same_shape ts ts'.
Proof.
  intros (gs & Hrep & Hlen) Hi Hshown Hfit Hnew.
  assert (Hrow : ∀ g t x, ts !! g = Some t → gs !! g = Some x → ∃ old l, x.1 !! i = Some old ∧ ids !! g = Some l ∧ kernel_ids t old = kernel_ids t l ∧
     len (kernel_ids t (old ++ default [] (new !! g))) ≤ max_num_blocks_per_req t).
  { intros g t x Ht Hx. pose proof (Forall2_lookup_lr _ _ _ _ _ _ Hrep Ht Hx) as Hr. eapply Forall_lookup_1 in Hlen; [|exact Hx]. destruct (lookup_lt_is_Some_2 x.1 i) as [old Hold]; [lia|].
    destruct (Hfit g t Ht) as (l' & Hl' & Hf). unfold extend_blocks in Hl'. rewrite list_lookup_imap in Hl'. destruct (ids !! g) as [l|] eqn:Hl; [|done]. cbn in Hl'. injection Hl' as <-.
    pose proof (row_blocks_rep _ _ _ _ _ Hr Hold) as Hb. apply (f_equal (.!! g)) in Hshown. unfold shown_blocks in Hshown. rewrite list_lookup_fmap, list_lookup_imap, Ht in Hshown. cbn in Hshown.
    rewrite Hb, Hl in Hshown. cbn in Hshown. injection Hshown as E. exists old, l. split_and!; try done. rewrite kernel_ids_app, E, <-kernel_ids_app. done. }
  destruct (row_op_ok (RAppend new i) ts gs Hrep) as (ts' & Hrun & Hrep' & Hsh).
  { intros g t x Ht Hx. destruct (Hrow g t x Ht Hx) as (old & l & Hold & _ & _ & Hf). cbn. split; [apply lookup_lt_Some in Ht; lia|eauto]. }
  exists ts'. split_and!; [exact Hrun| | | |exact Hsh].
  - eexists. split; [exact Hrep'|]. apply Forall_lookup_2. intros g x Hx. rewrite list_lookup_imap in Hx. destruct (gs !! g) as [[y d]|] eqn:Hy; [|done].
    cbn in Hx. injection Hx as <-. cbn. rewrite length_alter. by eapply (Forall_lookup_1 _ _ _ _ Hlen) in Hy.
  - intros j Hj Hne. apply (rows_unchanged ts ts' gs (imap (spec_row_op (RAppend new i)) gs) n j Hrep Hrep' Hlen Hsh Hj).
    intros g [y d] x' Hy Hx'. rewrite list_lookup_imap, Hy in Hx'. cbn in Hx'. injection Hx' as <-. cbn. by rewrite list_lookup_alter_ne.
  - apply list_eq. intros g. unfold shown_blocks. rewrite list_lookup_fmap, list_lookup_imap. destruct (ts !! g) as [t|] eqn:Ht.
    + destruct (Forall2_lookup_l _ _ _ _ _ Hsh Ht) as (t' & Ht' & Hs). destruct (Forall2_lookup_l _ _ _ _ _ Hrep Ht) as ([y d] & Hy & _).
      destruct (Hrow g t _ Ht Hy) as (old & l & Hold & Hl & E & _). rewrite Ht'. cbn. f_equal. unfold extend_blocks. rewrite list_lookup_imap, Hl. cbn.
      erewrite (row_blocks_rep t' _ _ i (old ++ default [] (new !! g))); [|eapply (Forall2_lookup_lr _ _ _ _ _ _ Hrep' Ht'); by rewrite list_lookup_imap, Hy|].
      * by rewrite (kernel_ids_shape _ _ _ Hs), !kernel_ids_app, E.
      * cbn in *. rewrite list_lookup_alter_eq, Hold. done.
    + assert (ts' !! g = None) as -> by (apply lookup_ge_None; rewrite <-(Forall2_length _ _ _ Hsh); by apply lookup_ge_None). done.
Qed.

Lemma touch_tables b i ts' : (∃ gs', mg_rep ts' gs' ∧ Forall (λ g, length g.1 = ib_max_num_reqs b) gs') →
  (∀ j, (j < ib_max_num_reqs b)%nat → j ≠ i → (λ t, row_blocks t j) <$> ts' = (λ t, row_blocks t j) <$> tables b) → Forall2 same_shape (tables b) ts' → touched b i (set_tables ts' b).
Proof. intros Hg Hj Hs. by split. Qed.

(** ** What the batch shows of a request that stays *)

Section shows.
Variable float32 : Q → Q.

(** Row [i] shows the cached state [r]. *)
Definition shows (b : InputBatch) (i : nat) (r : CachedRequestState) : Prop :=
  ∃ stale, len stale = cr_num_prompt_tokens r ∧ base_view b i = Some (new_view float32 b r stale).

(** Requests that differ at most in blocks, computed tokens and drafts. *)
Definition same_request (r r' : CachedRequestState) : Prop :=
  r' = cr_with (cr_block_ids r') (cr_num_computed_tokens r') (cr_output_token_ids r) (cr_prev_num_draft_len r') r.

Lemma shows_eq b b' i i' r : base_view b' i' = base_view b i → output_of b' r = output_of b r → vocab_size b' = vocab_size b → Forall2 same_shape (tables b) (tables b') →
  shows b i r → shows b' i' r.
Proof.
  intros Hv Ho Hvo Hsh (stale & Hst & Hb). exists stale. split; [done|]. rewrite Hv, Hb. f_equal. unfold new_view. by rewrite Ho, Hvo, (shown_shape _ _ _ Hsh).
Qed.

(** Only the drafts of the request changed. *)
Lemma shows_draft b i r n : shows b i r → shows b i (cr_set_draft n r).
Proof. done. Qed.

Section update.
Variables (b : InputBatch) (i : nat) (b' : InputBatch) (r r' : CachedRequestState) (row row' : Row) (k : nat).
Hypothesis Hshow : shows b i r.
Hypothesis Hrow : rows b !! i = Some row.
Hypothesis Hrow' : rows b' !! i = Some row'.
Hypothesis Ht : touched b i b'.
Hypothesis Hlen : length_from_prompt_token_ids_or_embeds (cr_prompt_token_ids r) (cr_prompt_embeds r) = Ok (cr_num_prompt_tokens r).
Hypothesis Hsame : same_request r r'.
Hypothesis Hout : output_of b' r' = take k (output_of b r).
Hypothesis Hsampling : sampling_of row' = sampling_of row.
Hypothesis Hcount : num_tokens_no_spec row' = cr_num_prompt_tokens r + len (output_of b' r').
Hypothesis Hprompt : num_prompt_tokens row' = num_prompt_tokens row.
Hypothesis Hcomputed : num_computed_tokens_cpu row' = cr_num_computed_tokens r'.
Hypothesis Htokens : take (known row') (token_ids_cpu row') = take (known row') (token_ids_cpu row).
Hypothesis His : take (known row') (is_token_ids row') = take (known row') (is_token_ids row).
Hypothesis Hblocks : (λ t, row_blocks t i) <$> tables b' = shown_blocks (cr_block_ids r') (tables b').

Let n := Z.to_nat (cr_num_prompt_tokens r).

Lemma update_known : known row' = (n + length (output_of b' r'))%nat.
Proof using All. destruct (prompt_length r Hlen) as [H0 _]. unfold known. rewrite Hcount. unfold len, n. lia. Qed.

Lemma update_shows : shows b' i r'.
Proof using All.
  destruct (prompt_length r Hlen) as [H0 Hpl]. pose proof update_known as Hk'. destruct Hshow as (stale & Hst & Hb). exists stale.
  assert (Fl : cr_lora_request r' = cr_lora_request r) by (by rewrite Hsame). assert (Fs : cr_sampling_params r' = cr_sampling_params r) by (by rewrite Hsame).
  assert (Fp : cr_prompt_token_ids r' = cr_prompt_token_ids r) by (by rewrite Hsame). assert (Fe : cr_prompt_embeds r' = cr_prompt_embeds r) by (by rewrite Hsame).
  assert (Fn : cr_num_prompt_tokens r' = cr_num_prompt_tokens r) by (by rewrite Hsame). assert (Fo : cr_output_token_ids r' = cr_output_token_ids r) by (by rewrite Hsame).
  assert (Fg : cr_generator r' = cr_generator r) by (by rewrite Hsame). split; [by rewrite Fn|].
  destruct (to_config _ _ _ Ht) as (P1 & _ & _ & P4). destruct (to_slots _ _ _ Ht) as (_ & S2 & _). destruct (to_rest _ _ _ Ht) as (_ & R2 & _).
  unfold base_view in *. rewrite Hrow in Hb. rewrite Hrow', S2, P1, R2, Hblocks. destruct (req_output_token_ids (slots b) !! i) as [out|]; [|done]. cbn in Hb |- *. f_equal.
  injection Hb as Et Ei Ec1 Ec2 Ec3 El Es Eo Eb Eg Ew Ee. rewrite active_nil in Et, Ei.
  assert (Hk : known row = (n + length (output_of b r))%nat) by (unfold known; rewrite Ec1; unfold len, n; lia).
  assert (Hle : (length (output_of b' r') ≤ length (output_of b r))%nat) by (rewrite Hout, length_take; lia).
  assert (Ho' : output_of b' r' = take (length (output_of b' r')) (output_of b r)) by (rewrite Hout at 1; rewrite Hout, length_take; destruct (decide (k ≤ length (output_of b r))%nat); [f_equal; lia|rewrite !take_ge by lia; done]).
  assert (Hp : length (default stale (cr_prompt_token_ids r)) = n).
  { destruct (cr_prompt_token_ids r) as [q|]; cbn; [specialize (Hpl q eq_refl)|]; unfold len, n in *; lia. }
  assert (Etake : ∀ {A} (l x y : list A), take (known row) l = x ++ y → length x = n → take (known row') l = x ++ take (length (output_of b' r')) y).
  { intros A l x y E Hx. apply (f_equal (take (known row'))) in E. rewrite take_take in E. replace (known row' `min` known row)%nat with (known row') in E by lia.
    rewrite E, Hk', take_app_ge by lia. do 2 f_equal. lia. }
  pose proof (Etake _ _ _ _ Et Hp) as Et'. rewrite <-Ho' in Et'. pose proof (Etake _ _ _ _ Ei ltac:(by rewrite length_replicate)) as Ei'.
  rewrite take_replicate in Ei'. replace (length (output_of b' r') `min` length (output_of b r))%nat with (length (output_of b' r')) in Ei' by lia.
  set (v := match cr_prompt_token_ids r with Some _ => true | None => false end) in *.
  assert (Hemb : has_embeds row' (known row') = has_embeds row (known row)).
  { unfold has_embeds. rewrite His, Ei', Ei. assert (Hk0 : ∀ m, existsb negb (replicate m true) = false) by (intros m; induction m; done). by rewrite !existsb_app, !Hk0. }
  assert (Hlora : request_lora_mapping row' = request_lora_mapping row) by (pose proof (to_lora _ _ _ Ht) as E; rewrite Hrow, Hrow' in E; by injection E).
  unfold mk_view, new_view. rewrite active_nil, Htokens, His, Et', Ei', Hcount, Hprompt, Hcomputed, Hlora, Hsampling, Hemb, Fl, Fs, Fp, Fe, Fn, Fo, Fg, P4. rewrite El, Es, Eo, Eg, Ew, Ee, Ec2. done.
Qed.
End update.

Lemma shows_view_ok b i r v mml : shows b i r → length_from_prompt_token_ids_or_embeds (cr_prompt_token_ids r) (cr_prompt_embeds r) = Ok (cr_num_prompt_tokens r) →
  view b i = Some v → cr_num_prompt_tokens r + len (output_of b r) + len (v_spec v) ≤ mml → view_ok mml v.
Proof.
  intros (stale & Hst & Hb) Hlen Hv Hle. destruct (prompt_length r Hlen) as [H0 _]. rewrite (view_base _ _ _ Hv) in Hb. unfold undrafted, new_view in Hb. injection Hb as Et Ei Ec _ _ _ _ _ _ Ee.
  pose proof (len_nonneg (output_of b r)). unfold view_ok. rewrite Ei, Ee. rewrite Ec. cbn. split_and!; [lia|lia|].
  assert (Hk : ∀ m, existsb negb (replicate m true) = false) by (intros m; induction m; done). rewrite existsb_app, Hk, orb_false_r.
  destruct (cr_prompt_token_ids r); [by rewrite Hk|]. cbn in Hlen. destruct (cr_prompt_embeds r) as [[|e l]|]; [|eauto|done]. injection Hlen as <-. done.
Qed.

Lemma shows_parts b holes id i r : ib_core b holes → req_id_to_index (slots b) !! id = Some i → shows b i r →
  ∃ row spec, rows b !! i = Some row ∧ spec_token_ids (slots b) !! i = Some spec ∧ num_tokens_no_spec row = cr_num_prompt_tokens r + len (output_of b r) ∧
    num_prompt_tokens row = cr_num_prompt_tokens r ∧ num_computed_tokens_cpu row = cr_num_computed_tokens r ∧ (λ t, row_blocks t i) <$> tables b = shown_blocks (cr_block_ids r) (tables b) ∧
    row_wf (max_model_len b) row.
Proof.
  intros Hc Hid (stale & _ & Hb). destruct (core_row _ _ _ _ Hc Hid) as (row & spec & out & Hr & Hs & Ho & W & _). unfold base_view in Hb. rewrite Hr, Ho in Hb. cbn in Hb.
  injection Hb as _ _ E1 E2 E3 _ _ _ Eb _ _ _. exists row, spec. by split_and!.
Qed.

(** ** Drafts *)

Lemma spec_ok b holes r i sched : ib_core b holes → req_id_to_index (slots b) !! cr_req_id r = Some i → shows b i r →
  length_from_prompt_token_ids_or_embeds (cr_prompt_token_ids r) (cr_prompt_embeds r) = Ok (cr_num_prompt_tokens r) →
  let spec := default [] (sched !! cr_req_id r) in
  cr_num_prompt_tokens r + len (output_of b r) + len spec ≤ max_model_len b →
  ∃ b' v, update_req_spec_token_ids r sched b = (Ok (cr_set_draft (len spec) r), b') ∧ touched b i b' ∧ output_lists b' = output_lists b ∧
    view b' i = Some v ∧ drafts spec v ∧ shows b' i (cr_set_draft (len spec) r) ∧ ib_core b' holes.
Proof.
  intros Hc Hid Hsh Hlen spec Hle. destruct (shows_parts _ _ _ _ _ Hc Hid Hsh) as (row & old & Hr & Hs & Ec & Ep & En & Eb & [W1 W2]). pose proof (lookup_lt_Some _ _ _ Hs) as Hsl.
  pose proof (lookup_lt_Some _ _ _ Hr) as Hrl. destruct (prompt_length r Hlen) as [H0 _]. pose proof (len_nonneg (output_of b r)). pose proof (len_nonneg spec).
  destruct (core_row _ _ _ _ Hc Hid) as (_ & _ & out & _ & _ & Ho & _ & _ & _ & Hi & _).
  set (start := num_tokens_no_spec row). set (row' := row_tokens (take (Z.to_nat start) (token_ids_cpu row) ++ spec ++ drop (Z.to_nat start + length spec) (token_ids_cpu row)) (is_token_ids row) row).
  set (b1 := upd_slots (set_specs (<[i := spec]> (spec_token_ids (slots b)))) b). set (b' := set_rows (<[i := row']> (rows b)) b1).
  assert (Hst : 0 ≤ start) by (unfold start; lia).
  assert (Hw : arr_write (token_ids_cpu row) start (start + len spec) spec = Ok (token_ids_cpu row')) by (apply arr_write_ok; unfold start; lia).
  assert (Hnil : spec = [] → row' = row) by (intros Es; unfold row'; rewrite Es; cbn; rewrite Nat.add_0_r, take_drop; by destruct row).
  assert (Hm : ∀ A (x y : A), match spec with [] => x | _ => y end = if decide (spec = []) then x else y) by (intros A x y; by destruct spec).
  assert (Hrun : update_req_spec_token_ids r sched b = (Ok (cr_set_draft (len spec) r), b')).
  { unfold update_req_spec_token_ids. erewrite bind_ok by exact eq_refl. cbn beta. rewrite Hid. erewrite bind_ok by (apply on_list_ok; by apply arr_set_ok). fold spec. cbv zeta.
    rewrite Hm. destruct (decide (spec = [])) as [Es|Es].
    - unfold ret. f_equal. apply batch_eq; try exact eq_refl; [cbn; by rewrite Es|]. cbn. symmetry. apply list_insert_id. rewrite Hr. f_equal. symmetry. by apply Hnil.
    - erewrite bind_ok by (eapply on_row_ok; [exact Hr|]; fold start; rewrite Hw; exact eq_refl).
      erewrite bind_ok by (apply on_list_ok; apply arr_set_ok; cbn; by rewrite length_insert). unfold ret. f_equal. apply batch_eq; try exact eq_refl. cbn. unfold set_specs. cbn. by rewrite list_insert_insert_eq. }
  assert (Hlen' : length (token_ids_cpu row') = length (token_ids_cpu row)) by (apply write_length; unfold start, len in *; lia).
  assert (Ht : touched b i b').
  { apply (touched_trans b b1 b'); [by eapply touch_spec|]. assert (Hc1 : rows b1 !! i = Some row) by exact Hr.
    split; cbn; try done; [|by rewrite list_lookup_insert_eq, Hr|intros Hall; apply Forall_insert; [done|]; split; cbn; [rewrite <-W1; unfold len; f_equal; exact Hlen'|done]|split; [by apply (ic_tables _ _ Hc)|done]].
    split; [by rewrite length_insert|]. intros j Hj. by rewrite list_lookup_insert_ne. }
  assert (Hr' : rows b' !! i = Some row') by (by apply list_lookup_insert_eq).
  assert (Hk : known row' = Z.to_nat start) by done.
  assert (Hpre : take (Z.to_nat start) (token_ids_cpu row') = take (Z.to_nat start) (token_ids_cpu row)).
  { cbn. rewrite take_app_le by (rewrite length_take; unfold start, len in *; lia). rewrite take_take. f_equal. lia. }
  assert (Hshow' : shows b' i (cr_set_draft (len spec) r)).
  { apply (update_shows b i b' r (cr_set_draft (len spec) r) row row' (length (output_of b r))); try done.
    change (output_of b' (cr_set_draft (len spec) r)) with (output_of b r). by rewrite take_ge. }
  assert (Hview : ∃ v, view b' i = Some v ∧ v_spec v = spec ∧ v_tokens v = take (active row' spec) (token_ids_cpu row') ∧ (v_counts v).1.1 = start).
  { unfold view. rewrite Hr'. cbn. rewrite list_lookup_insert_eq by done. cbn. rewrite Ho. cbn. eexists. by split_and!. }
  destruct Hview as (v & Hv & Hvs & Hvt & Hvc). exists b', v. split_and!; [done|done|done|done| |done|].
  - split; [done|]. rewrite Hvt, Hvc. assert (Ha : active row' spec = (Z.to_nat start + length spec)%nat) by (unfold active; cbn; fold start; unfold len; lia). rewrite Ha. cbn.
    rewrite write_prefix by (unfold start, len in *; lia). rewrite drop_app_length'; [done|]. rewrite length_take. unfold start, len in *. lia.
  - eapply (touched_core b i b' Ht holes v Hc Hv); [|done]. eapply shows_view_ok; [exact Hshow'|done|exact Hv|]. rewrite Hvs. exact Hle.
Qed.
End shows.
