(* ===== verification/RunnerStep.v ===== *)
(** * One step of the model runner

    [_update_states] keeps the worker's copies of the requests in step with the
    scheduler: afterwards the persistent batch holds exactly the scheduled requests,
    and each row shows the cached state of its request, updated as the scheduler's
    output says. *)
From Stdlib Require Import QArith.
From stdpp Require Import gmap sorting.
From S2P Require Import Prelude.
From S2P Require Import RequestModel.
From S2P Require Import SchedulerState.
From S2P Require Import Arrays.
From S2P Require Import BlockTable.
From S2P Require Import InputBatch.
From S2P Require Import InputBatchInv.
From S2P Require Import InputBatchOps.
From S2P Require Import InputBatchAdd.
From S2P Require Import Reorder.
From S2P Require Import ModelRunner.
From S2P Require Import RunnerRows.
#[local] Open Scope Z_scope.

(** ** What cached states rely on *)

Record stable (b b' : InputBatch) : Prop := {
  st_config : is_pooling_model b' = is_pooling_model b ∧ ib_max_num_reqs b' = ib_max_num_reqs b ∧ max_model_len b' = max_model_len b ∧ vocab_size b' = vocab_size b;
  st_shape : Forall2 same_shape (tables b) (tables b');
}.

#[global] Instance stable_preorder : PreOrder stable.
Proof.
  split; [intros b; split; [done|apply shape_refl]|]. intros b1 b2 b3 [(A1 & A2 & A3 & A4) H] [(A1' & A2' & A3' & A4') H']. split; [split_and!; congruence|by eapply shape_trans].
Qed.

Lemma removal_stable b id i b' : removal b id i b' → stable b b'.
Proof. intros []. by split. Qed.
Lemma addition_stable float32 b r i b' : addition float32 b r i b' → stable b b'.
Proof. intros []. by split. Qed.
Lemma touched_stable b i b' : touched b i b' → stable b b'.
Proof. intros []. by split. Qed.
Lemma rearranged_stable b b' : rearranged b b' → stable b b'.
Proof. intros []. by split. Qed.
Lemma lists_stable m b : stable b (set_lists m b).
Proof. split; [done|apply shape_refl]. Qed.

Create HintDb stable.
#[export] Hint Resolve removal_stable addition_stable touched_stable rearranged_stable lists_stable : stable.

(** A cached request the batch can hold. *)
Record request_ok (b : InputBatch) (r : CachedRequestState) : Prop := {
  ro_fits : cached_fits b r;
  ro_kind : cached_kind b r;
  ro_lora : ∀ l, cr_lora_request r = Some l → lora_int_id l ≠ 0;
}.

Lemma request_ok_stable b b' r : stable b b' → output_of b' r = output_of b r → request_ok b r → request_ok b' r.
Proof.
  intros [(A1 & A2 & A3 & A4) Hsh] Ho [[F1 F2 F3] [K1 K2] L]. split; [split|split|]; rewrite ?A1, ?A3, ?A4, ?Ho; try done. by eapply fits_shape.
Qed.

(** Requests with other blocks, computed tokens or drafts. *)
Lemma request_ok_same b b' r r' : stable b b' → same_request r r' → len (output_of b' r') ≤ len (output_of b r) → blocks_fit (cr_block_ids r') (tables b) →
  request_ok b r → request_ok b' r'.
Proof.
  intros [(A1 & A2 & A3 & A4) Hsh] Hs Ho Hb [[F1 F2 F3] [K1 K2] L]. split; [split|split|].
  - by rewrite Hs.
  - rewrite A3. replace (cr_num_prompt_tokens r') with (cr_num_prompt_tokens r) by (by rewrite Hs). lia.
  - by eapply fits_shape.
  - rewrite A1, A4. replace (cr_sampling_params r') with (cr_sampling_params r) by (by rewrite Hs). done.
  - rewrite A1. replace (cr_sampling_params r') with (cr_sampling_params r) by (by rewrite Hs). replace (cr_pooling_params r') with (cr_pooling_params r) by (by rewrite Hs).
    replace (cr_pooling_states r') with (cr_pooling_states r) by (by rewrite Hs). done.
  - replace (cr_lora_request r') with (cr_lora_request r) by (by rewrite Hs). done.
Qed.

Section step.
Variable float32 : Q → Q.

(** ** The invariant between the phases *)

(** Requests for which [live] fails may be gone from the cache already. *)
Record synced (s : ModelRunner) (live : string → Prop) : Prop := {
  sy_inv : ib_inv (input_batch s);
  sy_lora : lora_ok (input_batch s);
  sy_ids : ∀ id r, mr_requests s !! id = Some r → cr_req_id r = id ∧ request_ok (input_batch s) r ∧ (cr_output_token_ids r < next_list s)%nat;
  sy_lists : ∀ id id' r r', mr_requests s !! id = Some r → mr_requests s !! id' = Some r' → cr_output_token_ids r = cr_output_token_ids r' → id = id';
  sy_shows : ∀ id i, req_id_to_index (slots (input_batch s)) !! id = Some i → live id → ∃ r, mr_requests s !! id = Some r ∧ shows float32 (input_batch s) i r;
}.

(** The drafts of a request in the batch. *)
Definition drafted (s : ModelRunner) (id : string) (spec : list Z) : Prop :=
  ∃ i v, req_id_to_index (slots (input_batch s)) !! id = Some i ∧ view (input_batch s) i = Some v ∧ drafts spec v.

(** The batch changes, but neither the cached requests nor their tokens, and every
    request of the new batch is as it was. *)
Lemma synced_batch s b' live live' : synced s live → ib_inv b' → lora_ok b' → stable (input_batch s) b' → output_lists b' = output_lists (input_batch s) →
  (∀ id i', req_id_to_index (slots b') !! id = Some i' → live' id → live id ∧ ∃ i, req_id_to_index (slots (input_batch s)) !! id = Some i ∧ view b' i' = view (input_batch s) i) →
  synced (set_input_batch b' s) live'.
Proof.
  intros [Hi Hl Hids Hls Hsh] Hi' Hl' Hst Ho Hv. assert (Hout : ∀ r, output_of b' r = output_of (input_batch s) r) by (intros r; unfold output_of; by rewrite Ho).
  split; cbn; try done.
  - intros id r Hr. destruct (Hids id r Hr) as (? & ? & ?). split_and!; [done|by eapply request_ok_stable|done].
  - intros id i' Hi2 Hlive. destruct (Hv id i' Hi2 Hlive) as (Hl2 & i & Hidx & Hview). destruct (Hsh id i Hidx Hl2) as (r & Hr & Hs). exists r. split; [done|].
    assert (Hb : base_view b' i' = base_view (input_batch s) i).
    { destruct Hi as [Hc _]. destruct (core_view _ _ _ _ Hc Hidx) as (v & Hv1 & _). rewrite (view_base _ _ _ Hv1). rewrite Hv1 in Hview. by apply view_base. }
    eapply shows_eq; [exact Hb|done|apply (st_config _ _ Hst)|apply (st_shape _ _ Hst)|done].
Qed.

(** ** Removal *)

Lemma remove_all_ok ids s live : synced s live → is_removed_sorted (batch_update_builder (input_batch s)) = false →
  wp (remove_all ids) (λ _ s', synced s' live ∧ is_removed_sorted (batch_update_builder (input_batch s')) = false ∧ stable (input_batch s) (input_batch s') ∧
    output_lists (input_batch s') = output_lists (input_batch s) ∧ s' = set_input_batch (input_batch s') s ∧
    (∀ id j, req_id_to_index (slots (input_batch s')) !! id = Some j ↔ id ∉ ids ∧ req_id_to_index (slots (input_batch s)) !! id = Some j)) s.
Proof.
  intros Hs Hf. unfold remove_all. apply (wp_for_each (λ pre s', synced s' live ∧ is_removed_sorted (batch_update_builder (input_batch s')) = false ∧ stable (input_batch s) (input_batch s') ∧
    output_lists (input_batch s') = output_lists (input_batch s) ∧ s' = set_input_batch (input_batch s') s ∧
    (∀ id j, req_id_to_index (slots (input_batch s')) !! id = Some j ↔ id ∉ pre ∧ req_id_to_index (slots (input_batch s)) !! id = Some j))).
  { split_and!; [done|done|done|done|by destruct s|]. intros id j. set_solver. }
  intros pre x post s1 _ (Hs1 & Hf1 & Hst & Ho & Hset & Hidx). apply wp_bind. unfold on_batch. apply wp_zoom. destruct (req_id_to_index (slots (input_batch s1)) !! x) as [i|] eqn:Hx.
  - destruct (remove_ok (input_batch s1) x i (sy_inv _ _ Hs1) (sy_lora _ _ Hs1) Hf1 Hx) as (b' & Hrun & Hi' & Hl' & Hr). unfold wp. rewrite Hrun. cbn.
    pose proof (ii_core _ (sy_inv _ _ Hs1)) as Hc. split_and!.
    + eapply synced_batch; [exact Hs1|done|done|by eauto with stable|by apply (rm_lists _ _ _ _ Hr)|]. intros id j Hj Hlive. split; [done|].
      destruct (removal_view _ _ _ _ _ Hc Hx Hr id j Hj) as [Hv _]. destruct (removal_other _ _ _ _ _ Hc Hx Hr id j Hj) as (_ & Hj' & _). eauto.
    + by rewrite (rm_builder _ _ _ _ Hr).
    + etrans; [exact Hst|]. by eauto with stable.
    + by rewrite (rm_lists _ _ _ _ Hr).
    + rewrite Hset. by destruct s.
    + intros id j. rewrite (removal_index _ _ _ _ Hr), Hidx, elem_of_app, list_elem_of_singleton. tauto.
  - unfold wp, remove_request, bind, gets. rewrite Hx. cbn. assert (Hsame : set_input_batch (input_batch s1) s1 = s1) by (by destruct s1). rewrite Hsame. split_and!; try done.
    intros id j. rewrite Hidx, elem_of_app, list_elem_of_singleton. split; [|tauto]. intros [Hn Hj]. split; [|done]. intros [?| ->]; [done|].
    assert (req_id_to_index (slots (input_batch s1)) !! x = Some j) by (by apply Hidx). congruence.
Qed.

Lemma synced_live s live live' : synced s live → (∀ id i, req_id_to_index (slots (input_batch s)) !! id = Some i → live' id → live id) → synced s live'.
Proof. intros [H1 H2 H3 H4 H5] Hl. split; try done. intros id i Hi Hlive. apply (H5 id i); [done|]. by eapply Hl. Qed.

(** ** Finished requests leave the cache *)

Lemma forget_ok ids s live : synced s live →
  wp (forget_finished ids) (λ _ s', synced s' (λ id, live id ∧ id ∉ ids) ∧ input_batch s' = input_batch s ∧ next_list s' = next_list s ∧
    (∀ id r, mr_requests s' !! id = Some r ↔ id ∉ ids ∧ mr_requests s !! id = Some r)) s.
Proof.
  intros Hs. unfold forget_finished. eapply wp_mono; [apply (wp_for_each (λ pre s', input_batch s' = input_batch s ∧ next_list s' = next_list s ∧
    (∀ id r, mr_requests s' !! id = Some r ↔ id ∉ pre ∧ mr_requests s !! id = Some r)))|].
  - split_and!; [done|done|]. set_solver.
  - intros pre x post s1 _ (Hb & Hn & Hr). apply wp_bind, wp_modify, wp_modify. cbn. split_and!; [done|done|]. intros id r.
    rewrite lookup_delete_Some, Hr, elem_of_app, list_elem_of_singleton. intuition congruence.
  - intros [] s' (Hb & Hn & Hr). split_and!; try done. destruct Hs as [H1 H2 H3 H4 H5]. split; rewrite ?Hb, ?Hn; try done.
    + intros id r [_ Hid]%Hr. by apply H3.
    + intros id id' r r' [_ Hid]%Hr [_ Hid']%Hr. by apply H4.
    + intros id i Hi [Hlive Hin]. destruct (H5 id i Hi Hlive) as (r & Hid & Hsh). exists r. split; [by apply Hr|done].
Qed.

Lemma zoom_ok' {S A T} (get : S → T) put (m : M T A) s a t s' : m (get s) = (Ok a, t) → put t s = s' → zoom get put m s = (Ok a, s').
Proof. intros Hm <-. unfold zoom. by rewrite Hm. Qed.

Lemma alter_insert {A} (f : A → A) i (l : list A) x : l !! i = Some x → alter f i l = <[i := f x]> l.
Proof. intros Hx. apply list_eq. intros j. destruct (decide (j = i)) as [->|]; [rewrite list_lookup_alter_eq, list_lookup_insert_eq, Hx by (by apply lookup_lt_Some in Hx); done|by rewrite list_lookup_alter_ne, list_lookup_insert_ne]. Qed.

(** ** Lists of output tokens *)

Lemma lists_core m b holes : ib_core b holes → ib_core (set_lists m b) holes.
Proof. intros []. by split. Qed.

Lemma lists_lora m b : lora_ok b → lora_ok (set_lists m b).
Proof. intros []. by split. Qed.

Lemma lists_shows m b i r : output_of (set_lists m b) r = output_of b r → shows float32 b i r → shows float32 (set_lists m b) i r.
Proof. intros Ho. by apply shows_eq; [done|exact Ho|done|apply shape_refl]. Qed.

Lemma output_other m b r n l : output_lists b = m → cr_output_token_ids r ≠ n → output_of (set_lists (<[n := l]> m) b) r = output_of b r.
Proof. intros <- Hne. unfold output_of. cbn. by rewrite lookup_insert_ne. Qed.

(** ** New requests *)

Section new.
Variable sampler_params : SamplingParams → SampleParams.
Variable pool_params : PoolingParams → PoolParams.
Variable manual_seed : Z → nat.
Variable pooling_update : PoolParams → res PoolParams.
Let new_state := new_cached_state sampler_params pool_params manual_seed pooling_update.

(** The data of a new request give a cached state the batch can hold. *)
Definition new_ok (b : InputBatch) (n : NewRequestData) : Prop :=
  ∀ k, ∃ r, new_state n (is_pooling_model b) k = Ok r ∧ request_ok (set_lists (<[k := []]> (output_lists b)) b) r.

Lemma new_state_fields n p k r : new_state n p k = Ok r → cr_req_id r = nr_req_id n ∧ cr_output_token_ids r = k.
Proof.
  unfold new_state, new_cached_state. intros (g & _ & (q & _ & (m & _ & [= <-])%res_bind_ok)%res_bind_ok)%res_bind_ok. done.
Qed.

Lemma new_ok_stable b b' n : stable b b' → new_ok b n → new_ok b' n.
Proof.
  intros Hst Hok k. destruct (Hok k) as (r & Hr & Hro). exists r. rewrite (proj1 (st_config _ _ Hst)). split; [done|].
  eapply request_ok_stable; [| |exact Hro].
  - split; [apply (st_config _ _ Hst)|apply (st_shape _ _ Hst)].
  - apply new_state_fields in Hr as [_ Hk]. unfold output_of. rewrite Hk. cbn. by rewrite !lookup_insert_eq.
Qed.

Lemma add_new_ok n s : synced s (λ _, True) → new_ok (input_batch s) n → mr_requests s !! nr_req_id n = None →
  wp (add_new_request sampler_params pool_params manual_seed pooling_update n) (λ id s', id = nr_req_id n ∧ synced s' (λ _, True) ∧
    (∃ r, new_state n (is_pooling_model (input_batch s)) (next_list s) = Ok r ∧ mr_requests s' = <[nr_req_id n := r]> (mr_requests s)) ∧
    input_batch s' = set_lists (<[next_list s := []]> (output_lists (input_batch s))) (input_batch s) ∧ next_list s' = S (next_list s)) s.
Proof.
  intros Hs Hok Hnone. destruct (Hok (next_list s)) as (r & Hr & Hro). pose proof (new_state_fields _ _ _ _ Hr) as [Fid Fout].
  set (b' := set_lists (<[next_list s := []]> (output_lists (input_batch s))) (input_batch s)).
  assert (Hres : ∀ s', mr_requests s' = <[nr_req_id n := r]> (mr_requests s) → input_batch s' = b' → next_list s' = S (next_list s) → synced s' (λ _, True)).
  { intros s' E1 E2 E3. destruct Hs as [H1 H2 H3 H4 H5].
    assert (Hold : ∀ id r0, mr_requests s !! id = Some r0 → output_of b' r0 = output_of (input_batch s) r0).
    { intros id r0 Hid. apply output_other; [done|]. destruct (H3 id r0 Hid) as (_ & _ & Hlt). lia. }
    split; rewrite ?E1, ?E2, ?E3.
    - destruct H1 as [Hc Hs1]. split; [by apply lists_core|done].
    - by apply lists_lora.
    - intros id r0. rewrite lookup_insert_Some. intros [[<- <-]|[Hne Hid]]; [split_and!; [done|done|lia]|]. destruct (H3 id r0 Hid) as (? & ? & ?).
      split_and!; [done| |lia]. eapply request_ok_stable; [apply lists_stable|by eapply Hold|done].
    - intros id id' r0 r0'. rewrite !lookup_insert_Some. intros [[<- <-]|[Hne Hid]] [[<- <-]|[Hne' Hid']] E; [done| | |by eapply H4].
      + destruct (H3 id' r0' Hid') as (_ & _ & Hlt). lia.
      + destruct (H3 id r0 Hid) as (_ & _ & Hlt). lia.
    - intros id i Hi _. destruct (H5 id i Hi I) as (r0 & Hid & Hsh). exists r0. split; [|apply lists_shows; [by eapply Hold|done]]. rewrite lookup_insert_ne; [done|congruence]. }
  unfold add_new_request. cbv zeta. apply wp_bind, wp_gets. rewrite Hnone. apply wp_bind, wp_gets. apply wp_bind. unfold new_list. apply wp_bind, wp_gets. apply wp_bind, wp_modify. apply wp_bind.
  unfold on_batch. apply wp_zoom, wp_modify, wp_ret. eapply wp_bind_ok; [apply lift_ok; exact Hr|]. apply wp_bind. unfold put_request. apply wp_modify. apply wp_bind, wp_gets. apply wp_bind.
  destruct (cr_sampling_params r ≫= sp_prompt_logprobs); [apply wp_modify|apply wp_ret]; apply wp_ret; (split_and!; [done|apply Hres; cbn; rewrite ?Fid; done|exists r; cbn; rewrite ?Fid; done|done|done]).
Qed.
End new.

(** ** Requests that stay in the batch *)

(** Row [row] with the counts of [r], whose output is now [out]. *)
Definition stay_row (r : CachedRequestState) (out : list Z) (row : Row) : Row :=
  row_counts (cr_num_prompt_tokens r + len out) (cr_num_prompt_tokens r) (cr_num_computed_tokens r) row.

Definition stay_batch (b : InputBatch) (i : nat) (r : CachedRequestState) (out : list Z) (row : Row) (m : gmap nat (list Z)) (ts' : MultiGroupBlockTable) : InputBatch :=
  set_tables ts' (set_rows (<[i := stay_row r out row]> (rows b)) (set_lists m b)).

Lemma stay_ok b holes i r r' row m k ts' : ib_core b holes → req_id_to_index (slots b) !! cr_req_id r = Some i → shows float32 b i r →
  length_from_prompt_token_ids_or_embeds (cr_prompt_token_ids r) (cr_prompt_embeds r) = Ok (cr_num_prompt_tokens r) → rows b !! i = Some row →
  output_of (set_lists m b) r = take k (output_of b r) → same_request r r' →
  (∃ gs', mg_rep ts' gs' ∧ Forall (λ g, length g.1 = ib_max_num_reqs b) gs') →
  (∀ j, (j < ib_max_num_reqs b)%nat → j ≠ i → (λ t, row_blocks t j) <$> ts' = (λ t, row_blocks t j) <$> tables b) →
  (λ t, row_blocks t i) <$> ts' = shown_blocks (cr_block_ids r') (tables b) → Forall2 same_shape (tables b) ts' →
  let b' := stay_batch b i r' (take k (output_of b r)) row m ts' in
  touched b i b' ∧ shows float32 b' i r' ∧ ib_core b' holes.
Proof.
  intros Hc Hid Hsh Hlen Hr Ho Hsame Hgs Hoth Hblk Hshape b'. destruct (shows_parts _ _ _ _ _ _ Hc Hid Hsh) as (row0 & spec & Hr0 & Hs & Ec & Ep & En & _ & [W1 W2]).
  rewrite Hr in Hr0. injection Hr0 as <-. destruct (prompt_length r Hlen) as [H0 _]. assert (Fn : cr_num_prompt_tokens r' = cr_num_prompt_tokens r) by (by rewrite Hsame).
  set (out := take k (output_of b r)). set (row' := stay_row r' out row). pose proof (lookup_lt_Some _ _ _ Hr) as Hi. pose proof (len_nonneg out).
  assert (Hol : len out ≤ len (output_of b r)) by (unfold out, len; rewrite length_take; lia).
  assert (Ho' : output_of b' r' = out) by (unfold output_of; replace (cr_output_token_ids r') with (cr_output_token_ids r) by (by rewrite Hsame); exact Ho).
  assert (Ht : touched b i b').
  { split; cbn; try done.
    - split; [by rewrite length_insert|]. intros j Hj. by rewrite list_lookup_insert_ne.
    - rewrite list_lookup_insert_eq, Hr by done. done.
    - intros Hall. apply Forall_insert; [done|]. by split. }
  assert (Hr' : rows b' !! i = Some row') by (by apply list_lookup_insert_eq).
  assert (Hshow : shows float32 b' i r').
  { apply (update_shows float32 b i b' r r' row row' k); try done.
    - cbn. rewrite Fn, Ho'. done.
    - cbn. congruence.
    - rewrite (shown_shape _ _ _ Hshape). exact Hblk. }
  split_and!; [done|done|]. destruct (core_row _ _ _ _ Hc Hid) as (row0 & spec0 & o & _ & Hs0 & Hoo & _ & _ & _ & Hil & _). rewrite Hs in Hs0. injection Hs0 as <-.
  assert (Hv : ∃ v, view b' i = Some v ∧ v_spec v = spec) by (unfold view; rewrite Hr'; cbn; rewrite Hs, Hoo; cbn; eauto). destruct Hv as (v & Hv & Hvs).
  apply (touched_core b i b' Ht holes v Hc Hv); [|done]. eapply shows_view_ok; [exact Hshow|by rewrite Hsame|exact Hv|]. rewrite Hvs, Ho', Fn.
  pose proof (ic_fit _ _ Hc _ _ _ _ Hid Hr Hs). lia.
Qed.

(** ** Cached requests *)

Section cached.
Variable cfg : RunnerConfig.
Hypothesis Hsync : use_async_scheduling cfg = false.
Hypothesis Hlast : is_last_rank cfg = true.

(** The lists with [out] as the output of [r]. *)
Definition lists_with (b : InputBatch) (m : gmap nat (list Z)) (r : CachedRequestState) (out : list Z) : Prop :=
  default [] (m !! cr_output_token_ids r) = out ∧ ∀ n, n ≠ cr_output_token_ids r → m !! n = output_lists b !! n.

Lemma discard_ok s r index no : 0 ≤ no →
  (∀ i, index = Some i → ∃ row, rows (input_batch s) !! i = Some row ∧ num_prompt_tokens row = cr_num_prompt_tokens r ∧
    num_tokens_no_spec row = cr_num_prompt_tokens r + len (output_of (input_batch s) r)) →
  let out := take (Z.to_nat no) (output_of (input_batch s) r) in
  ∃ m, lists_with (input_batch s) m r out ∧ discard_tokens r index no s = (Ok tt, set_input_batch (match index with
    | Some i => set_rows (alter (λ row, row_counts (cr_num_prompt_tokens r + len out) (num_prompt_tokens row) (num_computed_tokens_cpu row) row) i (rows (input_batch s)))
                  (set_lists m (input_batch s))
    | None => set_lists m (input_batch s) end) s).
Proof.
  intros Hno Hrow out. set (b := input_batch s) in *. unfold discard_tokens. erewrite bind_ok by exact eq_refl. cbn beta. fold b. change (list_of b (cr_output_token_ids r)) with (output_of b r).
  destruct (Z.ltb_spec no (len (output_of b r))) as [Hlt|Hge]; cbn beta iota.
  - exists (<[cr_output_token_ids r := out]> (output_lists b)). split; [split; [by rewrite lookup_insert_eq|intros n Hn; by rewrite lookup_insert_ne]|].
    assert (Eo : py_slice_to (list_of b (cr_output_token_ids r)) no = out) by (by apply py_slice_to_nonneg).
    erewrite bind_ok; [|unfold on_output_list, on_batch; eapply zoom_ok'; [unfold modify; fold b; rewrite Eo; exact eq_refl|exact eq_refl]]. destruct index as [i|].
    + destruct (Hrow i eq_refl) as (row & Hr & Hp & Hn). unfold on_batch. eapply zoom_ok'; [eapply on_row_ok; [exact Hr|exact eq_refl]|].
      assert (Hlo : len out = no) by (unfold out, len in *; rewrite length_take; lia). unfold set_input_batch. cbn. f_equal. apply batch_eq; try exact eq_refl. cbn.
      rewrite (alter_insert _ _ _ _ Hr). by rewrite Hlo, Hp.
    + exact eq_refl.
  - assert (Eo : out = output_of b r) by (unfold out; apply take_ge; unfold len in Hge; lia). exists (output_lists b). split; [split; [by rewrite Eo|done]|]. unfold ret. f_equal. destruct index as [i|].
    + destruct (Hrow i eq_refl) as (row & Hr & Hp & Hn). rewrite (alter_insert _ _ _ _ Hr).
      assert (Erow : row_counts (cr_num_prompt_tokens r + len out) (num_prompt_tokens row) (num_computed_tokens_cpu row) row = row) by (rewrite Eo, <-Hn; by destruct row).
      rewrite Erow, (list_insert_id _ _ _ Hr). unfold b. by destruct s as [? ? ? [] ? ?].
    + unfold b. by destruct s as [? ? ? [] ? ?].
Qed.

(** One request and its row change. *)
Lemma synced_update s s' id r r2 out : synced s (λ _, True) → mr_requests s !! id = Some r → same_request r r2 → mr_requests s' = <[id := r2]> (mr_requests s) → next_list s' = next_list s →
  ib_inv (input_batch s') → lora_ok (input_batch s') → stable (input_batch s) (input_batch s') → lists_with (input_batch s) (output_lists (input_batch s')) r out →
  len out ≤ len (output_of (input_batch s) r) → blocks_fit (cr_block_ids r2) (tables (input_batch s)) →
  req_id_to_index (slots (input_batch s')) = req_id_to_index (slots (input_batch s)) →
  (∀ id' j, req_id_to_index (slots (input_batch s)) !! id' = Some j → id' ≠ id → view (input_batch s') j = view (input_batch s) j) →
  (∀ i, req_id_to_index (slots (input_batch s)) !! id = Some i → shows float32 (input_batch s') i r2) → synced s' (λ _, True).
Proof.
  intros [H1 H2 H3 H4 H5] Hr Hsame Hreq Hnext Hi Hl Hst [Lo Ln] Hlen Hfit Hidx Hview Hshow. destruct (H3 id r Hr) as (Fid & Fok & Flt).
  assert (Fo : cr_output_token_ids r2 = cr_output_token_ids r) by (by rewrite Hsame). assert (Fi : cr_req_id r2 = cr_req_id r) by (by rewrite Hsame).
  assert (Hother : ∀ id' r', mr_requests s !! id' = Some r' → id' ≠ id → output_of (input_batch s') r' = output_of (input_batch s) r').
  { intros id' r' Hr' Hne. unfold output_of. rewrite Ln; [done|]. intros E. by apply Hne, (H4 id' id r' r). }
  split; rewrite ?Hreq, ?Hnext; try done.
  - intros id' r'. rewrite lookup_insert_Some. intros [[<- <-]|[Hne Hr']].
    + split_and!; [congruence| |lia]. eapply request_ok_same; [exact Hst|exact Hsame| |exact Hfit|exact Fok]. unfold output_of. by rewrite Fo, Lo.
    + destruct (H3 id' r' Hr') as (? & ? & ?). split_and!; [done| |done]. eapply request_ok_stable; [exact Hst|by eapply Hother|done].
  - intros id1 id2 r1 r2'. rewrite !lookup_insert_Some. intros [[<- <-]|[Hn1 Hr1]] [[<- <-]|[Hn2 Hr2]] E; [done| | |by eapply H4].
    + rewrite Fo in E. by eapply H4.
    + rewrite Fo in E. by eapply H4.
  - rewrite Hidx. intros id' j Hj _. destruct (decide (id' = id)) as [->|Hne]; [exists r2; split; [by rewrite lookup_insert_eq|by apply Hshow]|].
    destruct (H5 id' j Hj I) as (r' & Hr' & Hsh). exists r'. split; [by rewrite lookup_insert_ne|].
    destruct H1 as [Hc _]. destruct (core_view _ _ _ _ Hc Hj) as (v & Hv & _). pose proof (Hview id' j Hj Hne) as Hv'. rewrite Hv in Hv'.
    eapply shows_eq; [by rewrite (view_base _ _ _ Hv), (view_base _ _ _ Hv')|by eapply Hother|apply (st_config _ _ Hst)|apply (st_shape _ _ Hst)|done].
Qed.

(** The blocks of a cached request after the step. *)
Definition next_blocks (resumed : bool) (nb : option (list (list Z))) (r : CachedRequestState) : list (list Z) :=
  if resumed then default [] nb else match nb with Some new => extend_blocks (cr_block_ids r) new | None => cr_block_ids r end.

Record cached_plan (s : ModelRunner) (o : SchedulerOutput) (k : nat) (id : string) (r : CachedRequestState) (c : Z) (nb : option (list (list Z))) (no : Z) : Prop := {
  cp_req : mr_requests s !! id = Some r;
  cp_computed : SchedulerState.cr_num_computed_tokens (so_scheduled_cached_reqs o) !! k = Some c;
  cp_blocks : cr_new_block_ids (so_scheduled_cached_reqs o) !! k = Some nb;
  cp_output : cr_num_output_tokens (so_scheduled_cached_reqs o) !! k = Some no;
  cp_nonneg : 0 ≤ no;
  cp_resumed : id ∈ cr_resumed_req_ids (so_scheduled_cached_reqs o) → is_Some nb;
  cp_groups : ∀ new, nb = Some new → (length (tables (input_batch s)) ≤ length new)%nat;
  cp_fit : blocks_fit (next_blocks (bool_decide (id ∈ cr_resumed_req_ids (so_scheduled_cached_reqs o))) nb r) (tables (input_batch s));
  cp_len : cr_num_prompt_tokens r + len (take (Z.to_nat no) (output_of (input_batch s) r)) + len (default [] (so_scheduled_spec_decode_tokens o !! id)) ≤ max_model_len (input_batch s);
}.

(** The state of the request when the scheduler's data are applied. *)
Definition next_request (o : SchedulerOutput) (id : string) (c : Z) (nb : option (list (list Z))) (r : CachedRequestState) : CachedRequestState :=
  cr_set_blocks (next_blocks (bool_decide (id ∈ cr_resumed_req_ids (so_scheduled_cached_reqs o))) nb r) (cr_set_computed c r).

Lemma update_blocks_ok s id r1 resumed index nb : mr_requests s !! id = Some r1 → cr_req_id r1 = id → (resumed = true → index = None ∧ is_Some nb) →
  ∃ s', update_blocks id resumed index nb s = (Ok tt, s') ∧ s' = upd_requests (<[id := cr_set_blocks (next_blocks resumed nb r1) r1]>) s.
Proof.
  intros Hr Hid Hres. unfold update_blocks, get_request. erewrite bind_ok; [|erewrite bind_ok by exact eq_refl; rewrite Hr; exact eq_refl]. destruct resumed; cbn beta iota.
  - destruct (Hres eq_refl) as [-> [new ->]]. unfold put_request, modify. eexists. split; [done|]. cbn. by rewrite Hid.
  - destruct nb as [new|].
    + unfold put_request, modify. eexists. split; [done|]. cbn. by rewrite Hid.
    + eexists. split; [done|]. destruct s. unfold upd_requests. cbn in *. f_equal. symmetry. apply insert_id. rewrite Hr. f_equal. by destruct r1.
Qed.

Lemma get_request_ok s id r : mr_requests s !! id = Some r → get_request id s = (Ok r, s).
Proof. intros Hr. unfold get_request. erewrite bind_ok by exact eq_refl. cbn. by rewrite Hr. Qed.

Lemma assume_accepted_ok s id r : mr_requests s !! id = Some r → assume_accepted cfg id s = (Ok [], s).
Proof using Hsync.
  intros Hr. unfold assume_accepted. erewrite bind_ok by (by apply get_request_ok). erewrite bind_ok by exact eq_refl. cbv zeta. rewrite Hsync. cbn [negb]. by rewrite orb_true_r.
Qed.

(** The new blocks of a row, if any. *)
Lemma append_new_ok b holes i r nb : ib_core b holes → (i < ib_max_num_reqs b)%nat → (λ t, row_blocks t i) <$> tables b = shown_blocks (cr_block_ids r) (tables b) →
  blocks_fit (next_blocks false nb r) (tables b) → (∀ new, nb = Some new → (length (tables b) ≤ length new)%nat) →
  ∃ ts', (match nb with Some new => mg_append_row new i | None => ret tt end) (tables b) = (Ok tt, ts') ∧
    (∃ gs', mg_rep ts' gs' ∧ Forall (λ g, length g.1 = ib_max_num_reqs b) gs') ∧
    (∀ j, (j < ib_max_num_reqs b)%nat → j ≠ i → (λ t, row_blocks t j) <$> ts' = (λ t, row_blocks t j) <$> tables b) ∧
    (λ t, row_blocks t i) <$> ts' = shown_blocks (next_blocks false nb r) (tables b) ∧ Forall2 same_shape (tables b) ts'.
Proof.
  intros Hc Hi Hb Hfit Hg. destruct nb as [new|].
  - apply append_tables; try done; [apply (ic_tables _ _ Hc)|by apply Hg].
  - exists (tables b). split_and!; try done. apply (ic_tables _ _ Hc).
Qed.

(** The row of a request that stays: counts, blocks, drafts. *)
Lemma update_row_ok s holes i id r r3 d nb spec row m f k : ib_core (input_batch s) holes → req_id_to_index (slots (input_batch s)) !! id = Some i → cr_req_id r = id → shows float32 (input_batch s) i r →
  length_from_prompt_token_ids_or_embeds (cr_prompt_token_ids r) (cr_prompt_embeds r) = Ok (cr_num_prompt_tokens r) → rows (input_batch s) !! i = Some row → same_request r r3 →
  let out := take k (output_of (input_batch s) r) in
  lists_with (input_batch s) m r out → cr_block_ids r3 = next_blocks false nb r → blocks_fit (next_blocks false nb r) (tables (input_batch s)) →
  (∀ new, nb = Some new → (length (tables (input_batch s)) ≤ length new)%nat) →
  f row = row_counts (cr_num_prompt_tokens r + len out) (cr_num_prompt_tokens r) (num_computed_tokens_cpu row) row →
  cr_num_prompt_tokens r + len out + len (default [] (spec !! id)) ≤ max_model_len (input_batch s) →
  ∃ b' v, let s3 := upd_requests (<[id := r3]>) (set_input_batch (set_rows (alter f i (rows (input_batch s))) (set_lists m (input_batch s))) s) in
    update_row cfg d id i (cr_num_computed_tokens r3) nb [] spec s3 =
      (Ok tt, upd_requests (<[id := cr_set_draft (len (default [] (spec !! id))) r3]>) (set_input_batch b' s)) ∧
    touched (input_batch s) i b' ∧ output_lists b' = m ∧ view b' i = Some v ∧ drafts (default [] (spec !! id)) v ∧
    shows float32 b' i (cr_set_draft (len (default [] (spec !! id))) r3) ∧ ib_core b' holes.
Proof using Hlast.
  intros Hc Hid Fid Hsh Hlen Hr Hsame out Hlists Hb3 Hfit Hg Hf Hmax. set (b := input_batch s) in *.
  assert (Fn : cr_num_prompt_tokens r3 = cr_num_prompt_tokens r) by (by rewrite Hsame). assert (Fi : cr_req_id r3 = id) by (rewrite <-Fid; by rewrite Hsame).
  destruct (core_row _ _ _ _ Hc Hid) as (_ & _ & _ & _ & _ & _ & _ & _ & _ & _ & Hi). destruct (shows_parts _ _ _ _ _ _ Hc Hid Hsh) as (_ & _ & _ & _ & _ & _ & _ & Hblk & _).
  destruct (append_new_ok b holes i r nb Hc Hi Hblk Hfit Hg) as (ts' & Hts & Hgs & Hoth & Hblk' & Hshape). rewrite <-Hb3 in Hblk'.
  assert (Ho : output_of (set_lists m b) r = out) by apply Hlists. rewrite <-Fid in Hid.
  destruct (stay_ok b holes i r r3 row m k ts' Hc Hid Hsh Hlen Hr Ho Hsame Hgs Hoth Hblk' Hshape) as (Ht4 & Hsh4 & Hc4). fold out in Ht4, Hsh4, Hc4. set (b4 := stay_batch b i r3 out row m ts') in *.
  assert (Ho4 : output_of b4 r3 = out) by (unfold output_of; replace (cr_output_token_ids r3) with (cr_output_token_ids r) by (by rewrite Hsame); exact Ho).
  assert (Hid4 : req_id_to_index (slots b4) !! cr_req_id r3 = Some i) by (rewrite Fi, <-Fid; exact Hid).
  destruct (spec_ok float32 b4 holes r3 i spec Hc4 Hid4 Hsh4) as (b' & v & Hrun & Ht' & Hl' & Hv & Hd & Hsh' & Hc'); [by rewrite Hsame|rewrite Ho4, Fn, Fi; exact Hmax|].
  rewrite Fi in Hrun, Hd, Hsh'. exists b', v. cbv zeta. split_and!; [|by eapply touched_trans|by rewrite Hl'|done|done|done|done].
  unfold update_row. pose proof (lookup_lt_Some _ _ _ Hr) as Hrl.
  erewrite bind_ok; [|unfold on_batch; eapply zoom_ok'; [eapply on_row_ok; [cbn; rewrite (alter_insert _ _ _ _ Hr); by apply list_lookup_insert_eq|exact eq_refl]|exact eq_refl]].
  set (s4 := set_input_batch _ _).
  erewrite (bind_ok _ _ s4 tt (set_input_batch (set_tables ts' (input_batch s4)) s4)).
  2: { destruct nb as [new|].
       - unfold on_batch, on_tables. eapply zoom_ok'; [eapply zoom_ok'; [exact Hts|exact eq_refl]|exact eq_refl].
       - injection Hts as <-. exact eq_refl. }
  rewrite Hlast. cbn [negb]. erewrite bind_ok by exact eq_refl. erewrite bind_ok by (apply get_request_ok; apply lookup_insert_eq).
  erewrite bind_ok.
  2: { unfold on_batch. eapply zoom_ok'; [|exact eq_refl]. etrans; [|exact Hrun]. f_equal. apply batch_eq; try exact eq_refl. cbn. rewrite (alter_insert _ _ _ _ Hr), list_insert_insert_eq.
       f_equal. rewrite Hf. unfold stay_row. rewrite Fn. done. }
  unfold put_request, modify. f_equal. unfold upd_requests. cbn. rewrite Fi, insert_insert_eq. done.
Qed.

Lemma next_same o id c nb r d : same_request r (cr_set_draft d (next_request o id c nb r)).
Proof. done. Qed.

(** What one row of the cached requests does. *)
Record cached_done (s : ModelRunner) (o : SchedulerOutput) (id : string) (r : CachedRequestState) (c : Z) (nb : option (list (list Z))) (no : Z) (s' : ModelRunner) : Prop := {
  cd_synced : synced s' (λ _, True);
  cd_stable : stable (input_batch s) (input_batch s');
  cd_index : req_id_to_index (slots (input_batch s')) = req_id_to_index (slots (input_batch s));
  cd_builder : batch_update_builder (input_batch s') = batch_update_builder (input_batch s);
  cd_request : ∃ d, mr_requests s' = <[id := cr_set_draft d (next_request o id c nb r)]> (mr_requests s) ∧
    (is_Some (req_id_to_index (slots (input_batch s)) !! id) → d = len (default [] (so_scheduled_spec_decode_tokens o !! id)));
  cd_output : lists_with (input_batch s) (output_lists (input_batch s')) r (take (Z.to_nat no) (output_of (input_batch s) r));
  cd_views : ∀ id' j, req_id_to_index (slots (input_batch s)) !! id' = Some j → id' ≠ id → view (input_batch s') j = view (input_batch s) j;
  cd_drafted : is_Some (req_id_to_index (slots (input_batch s)) !! id) → drafted s' id (default [] (so_scheduled_spec_decode_tokens o !! id));
}.

(** The call up to the point where requests in the batch part from the others. *)
Lemma update_cached_prefix s o k id r c nb no : synced s (λ _, True) → cached_plan s o k id r c nb no → let b := input_batch s in let index := req_id_to_index (slots b) !! id in
  (id ∈ cr_resumed_req_ids (so_scheduled_cached_reqs o) → index = None) → let out := take (Z.to_nat no) (output_of b r) in
  ∃ m, lists_with b m r out ∧ update_cached cfg o k id s = (match index with
     | None => recover_tokens cfg (so_scheduled_cached_reqs o) id no ;;; ret ([], [id])
     | Some i => update_row cfg (so_scheduled_cached_reqs o) id i c nb [] (so_scheduled_spec_decode_tokens o) ;;; ret ([], []) end)
    (upd_requests (<[id := next_request o id c nb r]>) (set_input_batch (match index with
      | Some i => set_rows (alter (λ row, row_counts (cr_num_prompt_tokens r + len out) (num_prompt_tokens row) (num_computed_tokens_cpu row) row) i (rows b)) (set_lists m b)
      | None => set_lists m b end) s)).
Proof using Hlast Hsync.
  intros Hs [Pr Pc Pb Po Pn Pres Pg Pf Pl] b index Hres out. pose proof Hs as [Hinv Hlo H3 H4 H5]. destruct (H3 id r Pr) as (Fid & _ & _).
  set (resumed := bool_decide (id ∈ cr_resumed_req_ids (so_scheduled_cached_reqs o))) in *. set (r1 := cr_set_computed c r). set (s1 := upd_requests (<[id := r1]>) s).
  destruct (discard_ok s1 r1 index no Pn) as (m & Hlists & Hdis).
  { intros i Hi. destruct (H5 id i Hi I) as (r0 & Hr0 & Hsh). rewrite Pr in Hr0. injection Hr0 as <-. destruct (shows_parts _ _ _ _ _ _ (ii_core _ Hinv) Hi Hsh) as (row & sp & E1 & _ & E2 & E3 & _).
    exists row. by split_and!. }
  change (input_batch s1) with b in Hlists, Hdis. change (take (Z.to_nat no) (output_of b r1)) with out in Hlists, Hdis. exists m. split; [exact Hlists|].
  set (b2 := match index with Some _ => _ | None => _ end) in Hdis. set (s2 := set_input_batch b2 s1) in Hdis.
  destruct (update_blocks_ok s2 id r1 resumed index nb) as (s3 & Hub & Hs3); [apply lookup_insert_eq|done| |].
  { intros Hr. apply bool_decide_eq_true in Hr. by split; [apply Hres|apply Pres]. }
  change (next_blocks resumed nb r1) with (next_blocks resumed nb r) in Hs3. change (cr_set_blocks (next_blocks resumed nb r) r1) with (next_request o id c nb r) in Hs3.
  unfold update_cached. cbv zeta. erewrite bind_ok by (by apply get_request_ok). erewrite bind_ok by (apply lift_ok; by apply arr_get_ok).
  erewrite bind_ok by (apply lift_ok; by apply arr_get_ok). erewrite bind_ok by (apply lift_ok; by apply arr_get_ok). erewrite bind_ok by exact eq_refl. erewrite bind_ok by (by eapply assume_accepted_ok).
  erewrite bind_ok by (by apply get_request_ok). erewrite bind_ok; [|unfold put_request, modify; cbn [cr_req_id cr_set_computed cr_with]; rewrite Fid; exact eq_refl]. fold b index r1 s1.
  erewrite bind_ok; [|unfold update_tokens; erewrite bind_ok by (apply get_request_ok; apply lookup_insert_eq); erewrite bind_ok by (apply lift_ok; by apply arr_get_ok);
    rewrite Hlast; cbn [negb]; erewrite bind_ok by exact Hdis; exact eq_refl].
  erewrite bind_ok by exact Hub. rewrite Hs3. unfold s2, s1, b2, upd_requests, set_input_batch. cbn. rewrite insert_insert_eq. by destruct index.
Qed.

Lemma update_cached_ok s o k id r c nb no : synced s (λ _, True) → cached_plan s o k id r c nb no →
  (id ∈ cr_resumed_req_ids (so_scheduled_cached_reqs o) → req_id_to_index (slots (input_batch s)) !! id = None) →
  wp (update_cached cfg o k id) (λ y s', y = ([], if decide (is_Some (req_id_to_index (slots (input_batch s)) !! id)) then [] else [id]) ∧ cached_done s o id r c nb no s') s.
Proof using Hlast Hsync.
  intros Hs Hplan Hres. destruct (update_cached_prefix s o k id r c nb no Hs Hplan Hres) as (m & Hlists & Hrun). cbv zeta in Hrun. pose proof Hplan as [Pr Pc Pb Po Pn Pres Pg Pf Pl].
  pose proof Hs as [Hinv Hlo H3 H4 H5]. destruct (H3 id r Pr) as (Fid & [[Fp Fl Fb] Fk Flo] & Fname). set (out := take (Z.to_nat no) (output_of (input_batch s) r)) in *.
  assert (Hol : len out ≤ len (output_of (input_batch s) r)) by (unfold out, len; rewrite length_take; lia).
  assert (Hds : ∀ s' d, mr_requests s' = <[id := cr_set_draft d (next_request o id c nb r)]> (mr_requests s) → next_list s' = next_list s → ib_inv (input_batch s') → lora_ok (input_batch s') →
     stable (input_batch s) (input_batch s') → output_lists (input_batch s') = m → req_id_to_index (slots (input_batch s')) = req_id_to_index (slots (input_batch s)) →
     (∀ id' j, req_id_to_index (slots (input_batch s)) !! id' = Some j → id' ≠ id → view (input_batch s') j = view (input_batch s) j) →
     (∀ i, req_id_to_index (slots (input_batch s)) !! id = Some i → shows float32 (input_batch s') i (cr_set_draft d (next_request o id c nb r))) → synced s' (λ _, True)).
  { intros s' d E1 E2 E3 E4 E5 E6 E7 E8 E9. refine (synced_update s s' id r (cr_set_draft d (next_request o id c nb r)) out Hs Pr (next_same o id c nb r d) E1 E2 E3 E4 E5 _ Hol Pf E7 E8 E9). by rewrite E6. }
  unfold wp. rewrite Hrun. destruct (req_id_to_index (slots (input_batch s)) !! id) as [i|] eqn:Hi.
  - destruct (H5 id i Hi I) as (r0 & Hr0 & Hsh). rewrite Pr in Hr0. injection Hr0 as <-. destruct (shows_parts _ _ _ _ _ _ (ii_core _ Hinv) Hi Hsh) as (row & sp & Erow & _ & E2 & E3 & _).
    assert (Hnr : bool_decide (id ∈ cr_resumed_req_ids (so_scheduled_cached_reqs o)) = false) by (apply bool_decide_eq_false; intros Hin; by specialize (Hres Hin)). rewrite Hnr in Pf.
    destruct (update_row_ok s (removed_ (batch_update_builder (input_batch s))) i id r (next_request o id c nb r) (so_scheduled_cached_reqs o) nb (so_scheduled_spec_decode_tokens o) row m
      (λ row, row_counts (cr_num_prompt_tokens r + len out) (num_prompt_tokens row) (num_computed_tokens_cpu row) row) (Z.to_nat no)) as (b' & v & Hup & Ht & Hl & Hv & Hd & Hsh' & Hc'); try done;
      [by apply ii_core|unfold next_request; by rewrite Hnr|by rewrite E3|].
    erewrite bind_ok by exact Hup. cbn. split; [by rewrite decide_True by eauto|]. destruct (to_slots _ _ _ Ht) as (_ & _ & T3 & _). destruct (to_rest _ _ _ Ht) as (_ & _ & _ & _ & T5 & _).
    assert (Hviews : ∀ id' j, req_id_to_index (slots (input_batch s)) !! id' = Some j → id' ≠ id → view b' j = view (input_batch s) j).
    { intros id' j Hj Hne. destruct (touched_other _ _ _ Ht _ id' j (ii_core _ Hinv) Hj) as [E _]; [|done]. intros ->. apply Hne. apply (ic_index _ _ (ii_core _ Hinv)) in Hi, Hj. congruence. }
    split; cbn; try done.
    + eapply Hds; try done; [split; cbn; rewrite T5; [done|apply (ii_sorted _ Hinv)]|by eapply touched_lora|by eauto with stable|]. intros j [= <-]. exact Hsh'.
    + by eauto with stable.
    + eexists. by split.
    + by rewrite Hl.
    + intros _. exists i, v. cbn. by rewrite T3.
  - assert (Hrec : recover_tokens cfg (so_scheduled_cached_reqs o) id no = ret tt) by (unfold recover_tokens; by rewrite Hsync). rewrite Hrec. cbn.
    split; [by rewrite decide_False by (by intros [])|]. split; cbn; try done.
    + eapply (Hds _ (cr_prev_num_draft_len r)); try done; [|by apply lists_lora]. destruct Hinv as [Hc Hsr]. split; [by apply lists_core|done].
    + exists (cr_prev_num_draft_len r). split; [done|]. intros [? ?]. congruence.
    + intros [? ?]. congruence.
Qed.
End cached.
End step.
