(* ===== verification/RunnerStates.v ===== *)
(** * The model runner keeps up with the scheduler

    The phases of [_update_states] composed: removal, new requests, cached requests,
    additions, and the tidying of the batch.  Under synchronous scheduling, on the
    last rank, the call succeeds and the batch is what the scheduler's output says. *)
From Stdlib Require Import QArith.
From stdpp Require Import gmap sorting.
From S2P Require Import Prelude.
From S2P Require Import RequestModel.
From S2P Require Import SchedulerState.
From S2P Require Import Arrays.
From S2P Require Import BlockTable.
From S2P Require Import InputBatch.
From S2P Require Import InputBatchInv.
From S2P Require Import InputBatchOps.
From S2P Require Import InputBatchAdd.
From S2P Require Import Reorder.
From S2P Require Import ModelRunner.
From S2P Require Import RunnerRows.
From S2P Require Import RunnerStep.
#[local] Open Scope Z_scope.

(** The rows of the requests. *)
Notation index_of s := (req_id_to_index (slots (input_batch s))).

(** The cached state of [id] and its output tokens are as they were. *)
Definition carried (s s' : ModelRunner) (id : string) : Prop :=
  mr_requests s' !! id = mr_requests s !! id ∧ ∀ r, mr_requests s !! id = Some r → output_of (input_batch s') r = output_of (input_batch s) r.

Lemma carried_refl s id : carried s s id.
Proof. done. Qed.

Lemma carried_trans s1 s2 s3 id : carried s1 s2 id → carried s2 s3 id → carried s1 s3 id.
Proof. intros [H1 O1] [H2 O2]. split; [congruence|]. intros r Hr. rewrite O2 by (by rewrite H1). by apply O1. Qed.

Lemma carried_lists s s' id : mr_requests s' = mr_requests s → output_lists (input_batch s') = output_lists (input_batch s) → carried s s' id.
Proof. intros H1 H2. split; [by rewrite H1|]. intros r _. unfold output_of. by rewrite H2. Qed.

#[export] Hint Resolve carried_refl carried_trans carried_lists : stable.

Section states.
Variable float32 : Q → Q.
#[local] Notation synced := (synced float32).
#[local] Notation live := (λ _ : string, True).

Lemma synced_same s s' l : synced s l → mr_requests s' = mr_requests s → input_batch s' = input_batch s → next_list s' = next_list s → synced s' l.
Proof. intros [] E1 E2 E3. split; rewrite ?E1, ?E2, ?E3; done. Qed.

(** ** Requests that leave *)

Definition leave (o : SchedulerOutput) : MR unit :=
  forget_finished (elements (so_finished_req_ids o)) ;;;
  remove_all (elements (so_finished_req_ids o)) ;;;
  for_each (so_free_encoder_mm_hashes o) (λ h, modify (upd_encoder_cache (delete h))) ;;;
  let! gone := gets (λ s, unscheduled_req_ids o (input_batch s)) in
  remove_all (elements gone).

(** The requests that keep their rows. *)
Definition stays (o : SchedulerOutput) (id : string) : Prop :=
  id ∉ so_finished_req_ids o ∧ id ∈ (so_num_scheduled_tokens o).*1 ∧ id ∉ cr_resumed_req_ids (so_scheduled_cached_reqs o).

Lemma leave_ok s o : synced s live → is_removed_sorted (batch_update_builder (input_batch s)) = false →
  wp (leave o) (λ _ s', synced s' live ∧ stable (input_batch s) (input_batch s') ∧ next_list s' = next_list s ∧
    (∀ id j, index_of s' !! id = Some j ↔ stays o id ∧ index_of s !! id = Some j) ∧
    (∀ id, id ∉ so_finished_req_ids o → carried s s' id) ∧ (∀ id, id ∈ so_finished_req_ids o → mr_requests s' !! id = None)) s.
Proof.
  intros Hs Hf. set (fin := so_finished_req_ids o). unfold leave. fold fin. apply wp_bind. eapply wp_mono; [by apply forget_ok|]. intros [] s1 (Hs1 & Hb1 & Hn1 & Hr1).
  apply wp_bind. eapply wp_mono; [apply remove_all_ok; [exact Hs1|by rewrite Hb1]|]. intros [] s2 (Hs2 & Hf2 & Hst2 & Ho2 & E2 & Hi2). rewrite Hb1 in Hst2, Ho2, Hi2.
  apply wp_bind. eapply wp_mono; [apply (wp_for_each (λ _ s', mr_requests s' = mr_requests s2 ∧ input_batch s' = input_batch s2 ∧ next_list s' = next_list s2)); [done|]|].
  { intros pre x post s' _ H. apply wp_modify. exact H. }
  intros [] s3 (R3 & B3 & N3). apply wp_bind, wp_gets.
  assert (Hs3 : synced s3 live).
  { eapply synced_live; [by eapply synced_same|]. cbn. intros id i Hi _. rewrite B3 in Hi. split; [done|]. apply Hi2 in Hi as [Hi _]. done. }
  eapply wp_mono; [apply remove_all_ok; [exact Hs3|by rewrite B3]|]. intros [] s4 (Hs4 & _ & Hst4 & Ho4 & E4 & Hi4). rewrite B3 in Hst4, Ho4, Hi4.
  assert (Hreq : ∀ id r, mr_requests s4 !! id = Some r ↔ id ∉ fin ∧ mr_requests s !! id = Some r).
  { intros id r. rewrite E4. cbn. rewrite R3, E2. cbn. rewrite Hr1, elem_of_elements. done. }
  split_and!; [done|by etrans| | | |].
  - rewrite E4. cbn. rewrite N3, E2. cbn. done.
  - intros id j. rewrite Hi4, Hi2, !elem_of_elements. unfold unscheduled_req_ids, stays. fold fin. rewrite elem_of_difference, elem_of_difference, elem_of_list_to_set, elem_of_dom. split.
    + intros (Hg & Hfin & Hj). assert (is_Some (index_of s2 !! id)) by (exists j; apply Hi2; by rewrite elem_of_elements). split; [|done]. split; [done|].
      destruct (decide (id ∈ (so_num_scheduled_tokens o).*1)), (decide (id ∈ cr_resumed_req_ids (so_scheduled_cached_reqs o))); tauto.
    + tauto.
  - intros id Hid. split; [|intros r _; unfold output_of; by rewrite Ho4, Ho2]. apply option_eq. intros r. rewrite Hreq. tauto.
  - intros id Hid. destruct (mr_requests s4 !! id) as [r|] eqn:Hr; [|done]. apply Hreq in Hr as [? _]. done.
Qed.

(** ** Requests that come *)

Section new.
Variable sampler_params : SamplingParams → SampleParams.
Variable pool_params : PoolingParams → PoolParams.
Variable manual_seed : Z → nat.
Variable pooling_update : PoolParams → res PoolParams.
#[local] Notation new_state := (new_cached_state sampler_params pool_params manual_seed pooling_update).
#[local] Notation new_ok := (new_ok sampler_params pool_params manual_seed pooling_update).

(** The cached state of a new request is made from its data, with no output yet. *)
Definition new_result (s' : ModelRunner) (n : NewRequestData) (r : CachedRequestState) : Prop :=
  new_state n (is_pooling_model (input_batch s')) (cr_output_token_ids r) = Ok r ∧ mr_requests s' !! nr_req_id n = Some r ∧ output_of (input_batch s') r = [].

Lemma new_result_carried s s' n r : stable (input_batch s) (input_batch s') → carried s s' (nr_req_id n) → new_result s n r → new_result s' n r.
Proof. intros Hst [C1 C2] (H1 & H2 & H3). unfold new_result. rewrite (proj1 (st_config _ _ Hst)), C1, (C2 r H2). done. Qed.

Lemma new_phase l s : synced s live → Forall (new_ok (input_batch s)) l → NoDup (nr_req_id <$> l) → (∀ n, n ∈ l → mr_requests s !! nr_req_id n = None) →
  wp (map_m l (add_new_request sampler_params pool_params manual_seed pooling_update)) (λ ids s', ids = nr_req_id <$> l ∧ synced s' live ∧ stable (input_batch s) (input_batch s') ∧
    index_of s' = index_of s ∧ (∀ id, id ∉ nr_req_id <$> l → carried s s' id) ∧ Forall (λ n, ∃ r, new_result s' n r) l) s.
Proof.
  intros Hs Hok Hnd Hnone. apply (wp_map_m (λ pre ids s', ids = nr_req_id <$> pre ∧ synced s' live ∧ stable (input_batch s) (input_batch s') ∧
    index_of s' = index_of s ∧ (∀ id, id ∉ nr_req_id <$> pre → carried s s' id) ∧ Forall (λ n, ∃ r, new_result s' n r) pre)).
  { split_and!; try done. }
  intros pre n post ids s1 Hl (Hids & Hs1 & Hst & Hidx & Hcar & Hres).
  assert (Hn : nr_req_id n ∉ nr_req_id <$> pre) by (rewrite Hl, fmap_app in Hnd; apply NoDup_app in Hnd as (_ & Hd & _); intros Hin; apply (Hd _ Hin); cbn; set_solver).
  assert (Hin : n ∈ l) by (rewrite Hl; set_solver). destruct (Hcar _ Hn) as [Hc _].
  eapply wp_mono; [apply (add_new_ok float32); [exact Hs1| |by rewrite Hc, Hnone]|].
  { eapply new_ok_stable; [exact Hst|]. by eapply Forall_forall in Hok. }
  intros id s2 (-> & Hs2 & (r & Hr & Hreq) & Hb & _). pose proof (new_state_fields _ _ _ _ _ _ _ _ Hr) as [Fid Fout].
  assert (Hstep : ∀ id', id' ≠ nr_req_id n → carried s1 s2 id').
  { intros id' Hne. split; [by rewrite Hreq, lookup_insert_ne|]. intros r' Hr'. rewrite Hb. apply output_other; [done|]. destruct (sy_ids _ _ _ Hs1 _ _ Hr') as (_ & _ & Hlt). lia. }
  assert (Hst2 : stable (input_batch s1) (input_batch s2)) by (rewrite Hb; apply lists_stable).
  split_and!; [by rewrite fmap_app, Hids|done|by etrans|by rewrite Hb| |].
  - intros id'. rewrite fmap_app, elem_of_app. cbn. rewrite list_elem_of_singleton. intros Hne. eapply carried_trans; [apply Hcar|apply Hstep]; tauto.
  - apply Forall_app. split.
    + eapply Forall_impl; [apply Forall_and; split; [exact Hres|]|]. { apply Forall_forall. intros n' Hn'. exact (list_elem_of_fmap_2 nr_req_id _ _ Hn'). }
      intros n' [[r' Hr'] Hn']. exists r'. eapply new_result_carried; [exact Hst2| |exact Hr']. apply Hstep. congruence.
    + apply Forall_singleton. exists r. unfold new_result. rewrite Hreq, lookup_insert_eq, Hb, Fout. split_and!; [exact Hr|done|]. unfold output_of. rewrite Fout. cbn. by rewrite lookup_insert_eq.
Qed.
End new.

(** ** Requests that continue *)

Lemma drafted_kept s s' id spec : index_of s' !! id = index_of s !! id → (∀ j, index_of s !! id = Some j → view (input_batch s') j = view (input_batch s) j) →
  drafted s id spec → drafted s' id spec.
Proof. intros Hi Hv (i & v & H1 & H2 & H3). exists i, v. rewrite Hi, (Hv i H1). done. Qed.

Lemma plan_carried s s' o k id r c nb no : stable (input_batch s) (input_batch s') → carried s s' id → cached_plan s o k id r c nb no → cached_plan s' o k id r c nb no.
Proof.
  intros [(_ & _ & A3 & _) Hsh] [C1 C2] [P1 P2 P3 P4 P5 P6 P7 P8 P9]. split; try done.
  - by rewrite C1.
  - intros new Hnew. rewrite <-(Forall2_length _ _ _ Hsh). by apply P7.
  - by eapply fits_shape.
  - by rewrite (C2 r P1), A3.
Qed.

Section cached.
Variable cfg : RunnerConfig.
Hypothesis Hsync : use_async_scheduling cfg = false.
Hypothesis Hlast : is_last_rank cfg = true.

(** The drafts scheduled for a request. *)
Definition spec_of (o : SchedulerOutput) (id : string) : list Z := default [] (so_scheduled_spec_decode_tokens o !! id).

(** The cached state of a request the workers know, and its output. *)
Definition cached_result (s : ModelRunner) (o : SchedulerOutput) (s' : ModelRunner) (k : nat) (id : string) (d : Z) : Prop :=
  ∃ r c nb no, cached_plan s o k id r c nb no ∧ mr_requests s' !! id = Some (cr_set_draft d (next_request o id c nb r)) ∧
    output_of (input_batch s') r = take (Z.to_nat no) (output_of (input_batch s) r).

Lemma cached_result_carried s o s1 s2 k id d : carried s1 s2 id → cached_result s o s1 k id d → cached_result s o s2 k id d.
Proof.
  intros [C1 C2] (r & c & nb & no & H1 & H2 & H3). exists r, c, nb, no. rewrite C1. split_and!; [done|done|]. rewrite <-H3. exact (C2 _ H2).
Qed.

Lemma imap_pair_lookup {A} (l : list A) pre x post : imap pair l = pre ++ x :: post → l !! x.1 = Some x.2 ∧ x.1 = length pre ∧ pre = imap pair (take (length pre) l).
Proof.
  intros H. assert (Hx : imap pair l !! length pre = Some x) by (rewrite H; by apply list_lookup_middle). rewrite list_lookup_imap in Hx. destruct (l !! length pre) as [y|] eqn:Hy; [|done].
  cbn in Hx. injection Hx as <-. cbn. split_and!; [done|done|]. rewrite <-(take_drop (length pre) l), imap_app in H. apply lookup_lt_Some in Hy.
  apply app_inj_1 in H as [H _]; [|rewrite length_imap, length_take; lia]. rewrite <-H at 1. f_equal.
Qed.

(** The loop over the first [k] requests. *)
Record cached_upto (s : ModelRunner) (o : SchedulerOutput) (ids : list string) (ys : list (list (string * Z) * list string)) (s' : ModelRunner) : Prop := {
  cu_corrections : concat ys.*1 = [];
  cu_adds : concat ys.*2 = filter (λ id, index_of s !! id = None) ids;
  cu_synced : synced s' live;
  cu_stable : stable (input_batch s) (input_batch s');
  cu_index : index_of s' = index_of s;
  cu_carried : ∀ id, id ∉ ids → carried s s' id;
  cu_result : ∀ k id, ids !! k = Some id → ∃ d, cached_result s o s' k id d ∧ (is_Some (index_of s !! id) → d = len (spec_of o id) ∧ drafted s' id (spec_of o id));
}.

Lemma cached_upto_step s o ids id ys s1 s2 r c nb no : cached_upto s o ids ys s1 → id ∉ ids → cached_plan s o (length ids) id r c nb no → cached_done float32 s1 o id r c nb no s2 →
  cached_upto s o (ids ++ [id]) (ys ++ [([], if decide (is_Some (index_of s1 !! id)) then [] else [id])]) s2.
Proof.
  intros [U1 U2 U3 U4 U5 U6 U7] Hid Hplan [D1 D2 D3 D4 (d & D5 & D5') D6 D7 D8].
  assert (Hstep : ∀ id', id' ≠ id → carried s1 s2 id').
  { intros id' Hne. split; [by rewrite D5, lookup_insert_ne|]. intros r' Hr'. unfold output_of. rewrite (proj2 D6); [done|]. intros E. apply Hne. eapply (sy_lists _ _ _ U3); [exact Hr'| |exact E].
    rewrite (proj1 (U6 id Hid)). apply Hplan. }
  split; [|..|done|by etrans|by rewrite D3| |].
  - rewrite fmap_app, concat_app, U1. done.
  - rewrite fmap_app, concat_app, U2, filter_app. f_equal. cbn. rewrite U5, app_nil_r. destruct (index_of s !! id) as [j|] eqn:Hj.
    + rewrite decide_True by eauto. by rewrite decide_False.
    + rewrite decide_False by (by intros []). by rewrite decide_True.
  - intros id'. rewrite elem_of_app, list_elem_of_singleton. intros Hne. eapply carried_trans; [apply U6|apply Hstep]; tauto.
  - intros k id' Hk. apply lookup_app_Some in Hk as [Hk|[Hle Hk]].
    + assert (Hne : id' ≠ id) by (intros ->; by apply list_elem_of_lookup_2 in Hk). destruct (U7 k id' Hk) as (d' & Hres & Hdr). exists d'. split; [eapply cached_result_carried; [by apply Hstep|done]|].
      intros Hsome. destruct (Hdr Hsome) as [E Hd]. split; [done|]. eapply drafted_kept; [by rewrite D3| |exact Hd]. intros j Hj. by eapply D7.
    + apply list_lookup_singleton_Some in Hk as [Hk <-]. assert (k = length ids) as -> by lia. exists d. split; [|rewrite <-U5; intros Hsome; split; [by apply D5'|by apply D8]].
      exists r, c, nb, no. split_and!; [done|by rewrite D5, lookup_insert_eq|]. rewrite <-(proj2 (U6 id Hid) r) by apply Hplan. unfold output_of. apply (proj1 D6).
Qed.

Lemma cached_phase s o : let ids := cr_req_ids (so_scheduled_cached_reqs o) in synced s live → NoDup ids →
  (∀ k id, ids !! k = Some id → ∃ r c nb no, cached_plan s o k id r c nb no) → (∀ id, id ∈ cr_resumed_req_ids (so_scheduled_cached_reqs o) → index_of s !! id = None) →
  wp (map_m (imap pair ids) (λ x, update_cached cfg o x.1 x.2)) (λ ys s', cached_upto s o ids ys s') s.
Proof using Hsync Hlast.
  intros ids Hs Hnd Hplans Hres. eapply wp_mono; [apply (wp_map_m (λ pre ys s', cached_upto s o pre.*2 ys s'))|].
  - by split.
  - intros pre [k id] post ys s1 (Hk & Ek & Hpre)%imap_pair_lookup Hu. cbn in Hk, Ek |- *. subst k. destruct (Hplans _ _ Hk) as (r & c & nb & no & Hplan).
    assert (E : pre.*2 = take (length pre) ids).
    { rewrite Hpre at 1. apply list_eq. intros j. rewrite list_lookup_fmap, list_lookup_imap. by destruct (take (length pre) ids !! j). }
    assert (Hn : id ∉ pre.*2).
    { rewrite E. intros (j & Hj)%list_elem_of_lookup. apply lookup_take_Some in Hj as [Hj Hlt]. rewrite NoDup_alt in Hnd. specialize (Hnd _ _ _ Hj Hk). lia. }
    assert (Hlen : length pre = length pre.*2) by (by rewrite length_fmap).
    eapply wp_mono; [apply update_cached_ok; [done|done|apply (cu_synced _ _ _ _ _ Hu)|eapply plan_carried; [apply (cu_stable _ _ _ _ _ Hu)|by apply (cu_carried _ _ _ _ _ Hu)|exact Hplan]|]|].
    { intros Hin. rewrite (cu_index _ _ _ _ _ Hu). by apply Hres. }
    intros y s2 [-> Hd]. rewrite fmap_app. cbn. rewrite Hlen in Hplan. by eapply cached_upto_step.
  - cbn. intros ys s'. replace (imap pair ids).*2 with ids; [done|]. apply list_eq. intros j. rewrite list_lookup_fmap, list_lookup_imap. by destruct (ids !! j).
Qed.
End cached.

(** ** Additions to the batch *)

Lemma base_view_nil b i v : view b i = Some v → v_spec v = [] → base_view b i = Some v.
Proof.
  unfold view, base_view. destruct (rows b !! i) as [row|]; [|done]. cbn. destruct (spec_token_ids (slots b) !! i) as [spec|]; [|done]. cbn.
  destruct (req_output_token_ids (slots b) !! i) as [out|]; [|done]. cbn. intros [= <-]. cbn. by intros ->.
Qed.

Lemma added_shows b r i b' : ib_core b (removed_ (batch_update_builder b)) → addable b r → addition float32 b r i b' → free_index b (removed_ (batch_update_builder b')) i → (i < ib_max_num_reqs b)%nat →
  shows float32 b' i r.
Proof.
  intros Hc [F K L N] Ha Hf Hi. destruct (added_view float32 b r _ i b' Hc F K Hf N Hi Ha) as (stale & Hst & Hv).
  exists stale. split; [done|]. rewrite (base_view_nil _ _ _ Hv) by done. f_equal. unfold new_view, output_of. destruct (ad_config _ _ _ _ _ Ha) as (_ & _ & _ & ->).
  by rewrite (ad_lists _ _ _ _ _ Ha), (shown_shape _ _ _ (ad_shape _ _ _ _ _ Ha)).
Qed.

Lemma request_ok_draft b r n : request_ok b r → request_ok b (cr_set_draft n r).
Proof. intros [[F1 F2 F3] [K1 K2] L]. by split; [split|split|]. Qed.

(** What one addition does. *)
Record added_back (s : ModelRunner) (id : string) (r : CachedRequestState) (spec : list Z) (s' : ModelRunner) : Prop := {
  ab_synced : synced s' live;
  ab_stable : stable (input_batch s) (input_batch s');
  ab_count : num_reqs (input_batch s') = S (num_reqs (input_batch s));
  ab_index : ∀ id', is_Some (index_of s' !! id') ↔ id' = id ∨ is_Some (index_of s !! id');
  ab_requests : mr_requests s' = <[id := cr_set_draft (len spec) r]> (mr_requests s);
  ab_lists : output_lists (input_batch s') = output_lists (input_batch s);
  ab_others : ∀ id' j, index_of s !! id' = Some j → index_of s' !! id' = Some j ∧ view (input_batch s') j = view (input_batch s) j;
  ab_drafted : drafted s' id spec;
}.

Lemma add_back_ok s id r sched : let spec := default [] (sched !! id) in synced s live → mr_requests s !! id = Some r → index_of s !! id = None →
  cr_num_prompt_tokens r + len (output_of (input_batch s) r) + len spec ≤ max_model_len (input_batch s) → (num_reqs (input_batch s) < ib_max_num_reqs (input_batch s))%nat →
  wp (add_back float32 sched id) (λ _ s', added_back s id r spec s') s.
Proof.
  intros spec Hs Hr Hnone Hle Hroom. pose proof Hs as [H1 H2 H3 H4 H5]. destruct (H3 id r Hr) as (Fid & Hro & Flt). set (b := input_batch s) in *. pose proof Hro as [Ff Fk Fl].
  assert (Hnew : req_id_to_index (slots b) !! cr_req_id r = None) by (by rewrite Fid).
  destruct (add_ok float32 b r H1 H2 Hroom) as (i & b1 & Hrun & Hinv1 & Hlo1 & Ha & Hfr & Hi & Hrg & _); [by split|]. pose proof (ii_core _ H1) as Hc.
  assert (Hsh : shows float32 b1 i r) by (by apply (added_shows b r i b1)). pose proof (ad_config _ _ _ _ _ Ha) as (P1 & P2 & P3 & P4).
  assert (Hid1 : req_id_to_index (slots b1) !! cr_req_id r = Some i) by (apply (added_index float32 b r i b1 Hnew Ha); by left).
  assert (Ho1 : output_of b1 r = output_of b r) by (unfold output_of; by rewrite (ad_lists _ _ _ _ _ Ha)).
  destruct (spec_ok float32 b1 _ r i sched (ii_core _ Hinv1) Hid1 Hsh (cf_prompt _ _ Ff)) as (b2 & v & Hrun2 & Ht & Hl2 & Hv & Hd & Hsh2 & Hc2); [rewrite Ho1, P3, Fid; exact Hle|].
  rewrite Fid in Hrun2, Hd, Hsh2, Hid1. fold spec in Hrun2, Hd, Hsh2. destruct (to_slots _ _ _ Ht) as (_ & _ & T3 & _). destruct (to_rest _ _ _ Ht) as (_ & _ & _ & _ & T5 & _).
  assert (Hoth : ∀ id' j, req_id_to_index (slots b) !! id' = Some j → req_id_to_index (slots b2) !! id' = Some j ∧ view b2 j = view b j).
  { intros id' j Hj. destruct (added_old float32 b r _ i b1 Hc Ff Fk Hfr Hnew Hi Ha id' j Hj) as (Hne & _ & Hj1 & _).
    rewrite T3. split; [done|]. destruct (touched_other _ _ _ Ht _ id' j (ii_core _ Hinv1) Hj1 Hne) as [-> _]. by apply (added_other float32 b r _ i b1 Hc Ff Fk Hfr Hnew Hi Ha id'). }
  assert (Hst : stable b b2) by (etrans; [by eapply addition_stable|by eauto with stable]).
  assert (Hout : ∀ x, output_of b2 x = output_of b x) by (intros x; unfold output_of; by rewrite Hl2, (ad_lists _ _ _ _ _ Ha)).
  unfold add_back. eapply wp_bind_ok; [by apply get_request_ok|]. eapply wp_bind_ok; [unfold on_batch; eapply zoom_ok'; [exact Hrun|exact eq_refl]|].
  eapply wp_bind_ok; [unfold on_batch; eapply zoom_ok'; [exact Hrun2|exact eq_refl]|]. unfold put_request. apply wp_modify. split; cbn.
  - split; cbn; rewrite ?Fid.
    + split; rewrite T5; [done|apply (ii_sorted _ Hinv1)].
    + by eapply touched_lora.
    + intros id' r'. rewrite lookup_insert_Some. intros [[<- <-]|[Hne Hr']]; [split_and!; [done|apply request_ok_draft; by eapply request_ok_stable|done]|].
      destruct (H3 id' r' Hr') as (? & ? & ?). split_and!; [done|by apply (request_ok_stable b b2 r')|done].
    + intros id1 id2 r1 r2. rewrite !lookup_insert_Some. intros [[<- <-]|[Hn1 Hr1]] [[<- <-]|[Hn2 Hr2]] E; [done|by eapply H4|by eapply H4|by eapply H4].
    + intros id' j. rewrite T3, (added_index float32 b r i b1 Hnew Ha). intros [[-> ->]|Hj] _; [exists (cr_set_draft (len spec) r); rewrite Fid, lookup_insert_eq; done|].
      destruct (H5 id' j Hj I) as (r' & Hr' & Hs'). exists r'. split; [rewrite lookup_insert_ne; [done|congruence]|]. destruct (core_view _ _ _ _ Hc Hj) as (w & Hw & _).
      destruct (Hoth id' j Hj) as [_ Hw2]. rewrite Hw in Hw2. eapply shows_eq; [by rewrite (view_base _ _ _ Hw), (view_base _ _ _ Hw2)|done|apply (st_config _ _ Hst)|apply (st_shape _ _ Hst)|done].
  - exact Hst.
  - unfold num_reqs. rewrite T3, (ad_slots _ _ _ _ _ Ha). unfold placed. case_match; cbn; by rewrite map_size_insert_None.
  - intros id'. rewrite T3. unfold is_Some. setoid_rewrite (added_index float32 b r i b1 Hnew Ha). rewrite Fid. naive_solver.
  - by rewrite Fid.
  - by rewrite Hl2, (ad_lists _ _ _ _ _ Ha).
  - exact Hoth.
  - exists i, v. cbn. by rewrite T3.
Qed.

(** All additions. *)
Record adds_done (s : ModelRunner) (sched : gmap string (list Z)) (l : list string) (s' : ModelRunner) : Prop := {
  as_synced : synced s' live;
  as_stable : stable (input_batch s) (input_batch s');
  as_count : num_reqs (input_batch s') = (num_reqs (input_batch s) + length l)%nat;
  as_index : ∀ id, is_Some (index_of s' !! id) ↔ id ∈ l ∨ is_Some (index_of s !! id);
  as_lists : output_lists (input_batch s') = output_lists (input_batch s);
  as_carried : ∀ id, id ∉ l → mr_requests s' !! id = mr_requests s !! id;
  as_added : ∀ id, id ∈ l → mr_requests s' !! id = cr_set_draft (len (default [] (sched !! id))) <$> mr_requests s !! id ∧ drafted s' id (default [] (sched !! id));
  as_drafted : ∀ id spec, drafted s id spec → drafted s' id spec;
}.

Lemma add_phase l s sched : synced s live → NoDup l → (num_reqs (input_batch s) + length l ≤ ib_max_num_reqs (input_batch s))%nat →
  (∀ id, id ∈ l → index_of s !! id = None ∧ ∃ r, mr_requests s !! id = Some r ∧
     cr_num_prompt_tokens r + len (output_of (input_batch s) r) + len (default [] (sched !! id)) ≤ max_model_len (input_batch s)) →
  wp (for_each l (add_back float32 sched)) (λ _ s', adds_done s sched l s') s.
Proof.
  intros Hs Hnd Hroom Hadd. apply (wp_for_each (adds_done s sched)).
  { split; try done; [intros id; set_solver|intros id Hid; by apply elem_of_nil in Hid]. }
  intros pre id post s1 Hl [A1 A2 A3 A4 A5 A6 A7 A8]. assert (Hn : id ∉ pre) by (rewrite Hl in Hnd; apply NoDup_app in Hnd as (_ & Hd & _); intros Hin; apply (Hd _ Hin); set_solver).
  assert (Hin : id ∈ l) by (rewrite Hl; set_solver). destruct (Hadd id Hin) as (Hnone & r & Hr & Hle). assert (Hout : ∀ x, output_of (input_batch s1) x = output_of (input_batch s) x) by (intros x; unfold output_of; by rewrite A5).
  destruct (st_config _ _ A2) as (_ & C2 & C3 & _). eapply wp_mono; [apply (add_back_ok s1 id r sched A1)|].
  - by rewrite A6.
  - destruct (index_of s1 !! id) eqn:E; [|done]. destruct (proj1 (A4 id)) as [?|[? ?]]; [eauto|done|congruence].
  - by rewrite Hout, C3.
  - rewrite A3, C2. rewrite Hl, length_app in Hroom. cbn in Hroom. lia.
  - intros [] s2 [B1 B2 B3 B4 B5 B6 B7 B8].
    assert (Hdr : ∀ id' spec, drafted s1 id' spec → drafted s2 id' spec).
    { intros id' spec Hd. pose proof Hd as (j & _ & Hj & _). destruct (B7 id' j Hj) as [Hj2 Hv]. eapply drafted_kept; [by rewrite Hj2, Hj| |exact Hd]. intros j' Hj'. by eapply B7. }
    split; [done|by etrans|..].
    + rewrite B3, A3, length_app. cbn. lia.
    + intros id'. rewrite B4, A4. set_solver.
    + congruence.
    + intros id' Hid'. rewrite B5, lookup_insert_ne by set_solver. apply A6. set_solver.
    + intros id' Hid'. apply elem_of_app in Hid' as [Hin'|Heq]; [|apply list_elem_of_singleton in Heq as ->].
      * destruct (A7 id' Hin') as [E Hd]. split; [|by apply Hdr]. rewrite B5, lookup_insert_ne by (intros ->; done). done.
      * rewrite B5, lookup_insert_eq, Hr. done.
    + intros id' spec Hd. by apply Hdr, A8.
Qed.

(** ** The batch is tidied *)

Lemma drafted_rearranged s b' id spec : rearranged (input_batch s) b' → drafted s id spec → drafted (set_input_batch b' s) id spec.
Proof.
  intros Hra (i & v & Hi & Hv & Hd). destruct (proj2 (ra_dom _ _ Hra id)) as [i' Hi']; [eauto|]. exists i', v. cbn. split_and!; [done| |done]. by rewrite (ra_view _ _ Hra id i i').
Qed.

Lemma synced_rearranged s b' : synced s live → rearranged (input_batch s) b' → ib_inv b' → lora_ok b' → synced (set_input_batch b' s) live.
Proof.
  intros Hs Hra Hi Hl. eapply synced_batch; [exact Hs|done|done|by eauto with stable|apply (ra_rest _ _ Hra)|]. intros id i' Hi' _. split; [done|].
  destruct (proj1 (ra_dom _ _ Hra id)) as [i Hi1]; [eauto|]. exists i. split; [done|]. by apply (ra_view _ _ Hra id).
Qed.

(** Requests keep their adapters when they move. *)
Lemma view_lora b i v row : view b i = Some v → rows b !! i = Some row → request_lora_mapping row = v_lora v.
Proof.
  unfold view. intros Hv Hr. rewrite Hr in Hv. cbn in Hv. destruct (spec_token_ids (slots b) !! i); [|done]. destruct (req_output_token_ids (slots b) !! i); [|done]. cbn in Hv. by injection Hv as <-.
Qed.

Lemma uses_lora_view b holes id l : ib_core b holes → uses_lora b id l ↔ ∃ i v, req_id_to_index (slots b) !! id = Some i ∧ view b i = Some v ∧ v_lora v = l.
Proof.
  intros Hc. split.
  - intros (i & row & Hi & Hr & <-). destruct (core_view _ _ _ _ Hc Hi) as (v & Hv & _). exists i, v. split_and!; [done|done|]. symmetry. by eapply view_lora.
  - intros (i & v & Hi & Hv & <-). destruct (core_row _ _ _ _ Hc Hi) as (row & _ & _ & Hr & _). exists i, row. split_and!; [done|done|]. by eapply view_lora.
Qed.

Lemma rearranged_lora b b' h h' : ib_core b h → ib_core b' h' → rearranged b b' → lora_ok b → lora_ok b'.
Proof.
  intros Hc Hc' Hra [L1 L2 L3]. assert (Hu : ∀ id l, uses_lora b' id l ↔ uses_lora b id l).
  { intros id l. rewrite (uses_lora_view _ _ _ _ Hc), (uses_lora_view _ _ _ _ Hc'). split.
    - intros (i' & v & Hi' & Hv & Hl). destruct (proj1 (ra_dom _ _ Hra id)) as [i Hi]; [eauto|]. exists i, v. rewrite <-(ra_view _ _ Hra id i i'); done.
    - intros (i & v & Hi & Hv & Hl). destruct (proj2 (ra_dom _ _ Hra id)) as [i' Hi']; [eauto|]. exists i', v. rewrite (ra_view _ _ Hra id i i'); done. }
  destruct (ra_rest _ _ Hra) as (_ & E & _). split; rewrite E; try done.
  - intros l ids Hids. destruct (L1 l ids Hids) as (? & ? & Hin). split_and!; [done|done|]. intros id. by rewrite Hu.
  - intros id l Hul. rewrite Hu in Hul. by eapply L2.
Qed.

Section settle.
Variable cfg : RunnerConfig.

(** The last calls of the step. *)
Definition settle (o : SchedulerOutput) : MR (option BatchUpdate) :=
  on_batch condense ;;;
  may_reorder_batch cfg o ;;;
  on_batch refresh_metadata.

Lemma may_reorder_ok s o : ib_core (input_batch s) [] → (∀ id, is_Some (index_of s !! id) → is_Some (sdict_get id (so_num_scheduled_tokens o))) →
  wp (may_reorder_batch cfg o) (λ _ s', ∃ b', s' = set_input_batch b' s ∧ rearranged (input_batch s) b' ∧ ib_core b' []) s.
Proof.
  intros Hc Hsch. assert (Hsame : ∃ b', s = set_input_batch b' s ∧ rearranged (input_batch s) b' ∧ ib_core b' []) by (exists (input_batch s); split_and!; [by destruct s|done|done]).
  unfold may_reorder_batch. destruct (has_kv_cache_groups cfg); [|by apply wp_ret]. destruct (reorder_batch_threshold cfg) as [n|]; [|by apply wp_ret].
  destruct (reorder_ok n (λ id, sdict_get id (so_num_scheduled_tokens o)) (input_batch s) Hc Hsch) as (b' & ch & regs & Hrun & Hra & Hc' & _).
  eapply wp_bind_ok; [unfold on_batch; eapply zoom_ok'; [exact Hrun|exact eq_refl]|]. apply wp_ret. eauto.
Qed.

Lemma settle_ok s o : synced s live → (∀ id, is_Some (index_of s !! id) → is_Some (sdict_get id (so_num_scheduled_tokens o))) →
  wp (settle o) (λ _ s', ∃ b', s' = set_input_batch b' s ∧ rearranged (input_batch s) b' ∧ synced s' live ∧ batch_update_builder b' = new_builder ∧
    ∃ ids, req_ids_ (slots b') = Some <$> ids) s.
Proof.
  intros Hs Hsch. unfold settle. destruct (condense_ok (input_batch s) (sy_inv _ _ _ Hs)) as (b1 & ids & Hrun & Hra & _ & Hc1 & _).
  eapply wp_bind_ok; [unfold on_batch; eapply zoom_ok'; [exact Hrun|exact eq_refl]|]. apply wp_bind. eapply wp_mono; [apply may_reorder_ok; [exact Hc1|]|].
  { intros id Hid. apply Hsch. by apply (ra_dom _ _ Hra). }
  intros [] s2 (b2 & -> & Hra2 & Hc2). cbn in Hra2. set (b3 := set_builder new_builder b2).
  assert (Hra3 : rearranged (input_batch s) b3) by (etrans; [exact Hra|etrans; [exact Hra2|apply (builder_rearranged b2 new_builder)]]).
  assert (Hc3 : ib_core b3 []) by (by apply builder_core).
  assert (Href : ∃ u, refresh_metadata b2 = (Ok u, b3)).
  { unfold refresh_metadata. erewrite bind_ok by exact eq_refl. cbn beta. destruct (is_pooling_model b2); [eexists; exact eq_refl|]. erewrite bind_ok by exact eq_refl. unfold on_builder, zoom, get_and_reset.
    repeat case_match; simplify_eq; eexists; done. }
  destruct Href as [u Href]. unfold wp, on_batch. erewrite zoom_ok'; [|exact Href|exact eq_refl]. exists b3. split_and!; [done|done| |done|].
  - apply (synced_rearranged s b3 Hs Hra3); [by split|]. eapply rearranged_lora; [apply (sy_inv _ _ _ Hs)|exact Hc3|done|apply (sy_lora _ _ _ Hs)].
  - destruct (trim_ok b3 [] (length (req_ids_ (slots b3))) Hc3) as (_ & _ & _ & l & Hl & _).
    { split; [lia|]. intros i. split; [by intros ?%elem_of_nil|lia]. }
    exists l. rewrite <-Hl. cbn. symmetry. apply take_ge. lia.
Qed.
End settle.

(** ** The step *)

Section step.
Variable sampler_params : SamplingParams → SampleParams.
Variable pool_params : PoolingParams → PoolParams.
Variable manual_seed : Z → nat.
Variable pooling_update : PoolParams → res PoolParams.
Variable cfg : RunnerConfig.
#[local] Notation new_state := (new_cached_state sampler_params pool_params manual_seed pooling_update).
#[local] Notation new_ok := (new_ok sampler_params pool_params manual_seed pooling_update).
#[local] Notation new_result := (new_result sampler_params pool_params manual_seed pooling_update).
#[local] Notation update_states := (update_states float32 sampler_params pool_params manual_seed pooling_update cfg).

(** The requests of the step. *)
Definition scheduled (o : SchedulerOutput) : list string := (nr_req_id <$> so_scheduled_new_reqs o) ++ cr_req_ids (so_scheduled_cached_reqs o).

(** What the scheduler promises of its output.  A new request may have the id of one
    that has finished; every other id is scheduled once, with data that fit. *)
Record step_ok (s : ModelRunner) (o : SchedulerOutput) : Prop := {
  sk_synced : synced s live;
  sk_builder : is_removed_sorted (batch_update_builder (input_batch s)) = false;
  sk_new : ∀ n, n ∈ so_scheduled_new_reqs o → new_ok (input_batch s) n ∧ (nr_req_id n ∈ so_finished_req_ids o ∨ mr_requests s !! nr_req_id n = None) ∧
    ∀ k, length_from_prompt_token_ids_or_embeds (nr_prompt_token_ids n) (nr_prompt_embeds n) = Ok k → k + len (spec_of o (nr_req_id n)) ≤ max_model_len (input_batch s);
  sk_cached : ∀ k id, cr_req_ids (so_scheduled_cached_reqs o) !! k = Some id → id ∉ so_finished_req_ids o ∧ ∃ r c nb no, cached_plan s o k id r c nb no;
  sk_nodup : NoDup (scheduled o);
  sk_keys : ∀ id, id ∈ (so_num_scheduled_tokens o).*1 ↔ id ∈ scheduled o;
  sk_room : (length (scheduled o) ≤ ib_max_num_reqs (input_batch s))%nat;
}.

(** The state after the step. *)
Record stepped (s : ModelRunner) (o : SchedulerOutput) (s' : ModelRunner) : Prop := {
  sp_synced : synced s' live;
  sp_builder : batch_update_builder (input_batch s') = new_builder;
  sp_batch : ∃ ids, req_ids_ (slots (input_batch s')) = Some <$> ids ∧ ids ≡ₚ scheduled o;
  sp_drafted : ∀ id, id ∈ scheduled o → drafted s' id (spec_of o id);
  sp_new : ∀ n, n ∈ so_scheduled_new_reqs o → ∃ r, new_state n (is_pooling_model (input_batch s)) (cr_output_token_ids r) = Ok r ∧
    mr_requests s' !! nr_req_id n = Some (cr_set_draft (len (spec_of o (nr_req_id n))) r) ∧ output_of (input_batch s') r = [];
  sp_cached : ∀ k id, cr_req_ids (so_scheduled_cached_reqs o) !! k = Some id → cached_result s o s' k id (len (spec_of o id));
  sp_finished : ∀ id, id ∈ so_finished_req_ids o → id ∉ scheduled o → mr_requests s' !! id = None;
  sp_others : ∀ id, id ∉ so_finished_req_ids o → id ∉ scheduled o → carried s s' id;
}.

Lemma wp_leave {A} o (K : MR A) (R : A → ModelRunner → Prop) s : wp (leave o ;;; K) R s → wp (
  forget_finished (elements (so_finished_req_ids o)) ;;;
  remove_all (elements (so_finished_req_ids o)) ;;;
  for_each (so_free_encoder_mm_hashes o) (λ h, modify (upd_encoder_cache (delete h))) ;;;
  let! gone := gets (λ s, unscheduled_req_ids o (input_batch s)) in
  remove_all (elements gone) ;;; K) R s.
Proof.
  unfold wp, leave, bind, gets. destruct (forget_finished _ s) as [[[]|] s1]; [|done]. destruct (remove_all _ s1) as [[[]|] s2]; [|done]. destruct (for_each _ _ s2) as [[[]|] s3]; [|done].
  by destruct (remove_all _ s3) as [[[]|] s4].
Qed.

Lemma wp_settle {A} o (K : option BatchUpdate → MR A) (R : A → ModelRunner → Prop) s : wp (let! u := settle cfg o in K u) R s → wp (
  on_batch condense ;;;
  may_reorder_batch cfg o ;;;
  let! u := on_batch refresh_metadata in K u) R s.
Proof.
  unfold wp, settle, bind. destruct (on_batch condense s) as [[[]|] s1]; [|done]. by destruct (may_reorder_batch cfg o s1) as [[[]|] s2].
Qed.

Lemma new_state_prompt n p k r : new_state n p k = Ok r → length_from_prompt_token_ids_or_embeds (nr_prompt_token_ids n) (nr_prompt_embeds n) = Ok (cr_num_prompt_tokens r).
Proof.
  unfold new_cached_state. intros (g & _ & (q & _ & (m & Hm & [= <-])%res_bind_ok)%res_bind_ok)%res_bind_ok. exact Hm.
Qed.

Lemma plan_unique s o k id r c nb no r' c' nb' no' : cached_plan s o k id r c nb no → cached_plan s o k id r' c' nb' no' → r' = r ∧ c' = c ∧ nb' = nb ∧ no' = no.
Proof. intros [P1 P2 P3 P4 _ _ _ _ _] [P1' P2' P3' P4' _ _ _ _ _]. by simplify_eq. Qed.

Lemma size_dom_le (m : gmap string nat) (l : list string) : (∀ id, is_Some (m !! id) → id ∈ l) → (size m ≤ length l)%nat.
Proof.
  intros H. rewrite <-length_map_to_list, <-(length_fmap fst). apply submseteq_length, NoDup_submseteq; [apply NoDup_fst_map_to_list|].
  intros id ([id' i] & -> & Hin%elem_of_map_to_list)%list_elem_of_fmap. apply H. cbn. eauto.
Qed.

Section compose.
Variables (s sA sB sC : ModelRunner) (o : SchedulerOutput) (ys : list (list (string * Z) * list string)).
#[local] Notation new := (nr_req_id <$> so_scheduled_new_reqs o).
#[local] Notation ids := (cr_req_ids (so_scheduled_cached_reqs o)).
#[local] Notation adds := (new ++ filter (λ id, index_of sB !! id = None) ids).
Hypothesis Hok : step_ok s o.
Hypothesis HsA : synced sA live.
Hypothesis HstA : stable (input_batch s) (input_batch sA).
Hypothesis HiA : ∀ id j, index_of sA !! id = Some j ↔ stays o id ∧ index_of s !! id = Some j.
Hypothesis HcA : ∀ id, id ∉ so_finished_req_ids o → carried s sA id.
Hypothesis HfA : ∀ id, id ∈ so_finished_req_ids o → mr_requests sA !! id = None.

Lemma new_unknown n : n ∈ so_scheduled_new_reqs o → mr_requests sA !! nr_req_id n = None.
Proof using Hok HcA HfA.
  intros Hn. destruct (sk_new _ _ Hok n Hn) as (_ & Hor & _). destruct (decide (nr_req_id n ∈ so_finished_req_ids o)) as [|Hf]; [by apply HfA|].
  destruct Hor as [|E]; [done|]. by rewrite (proj1 (HcA _ Hf)).
Qed.

Lemma kept_cached id : is_Some (index_of sA !! id) → id ∈ ids.
Proof using Hok HsA HiA HcA HfA.
  intros [j Hj]. pose proof Hj as [(_ & Hin & _) _]%HiA. apply (sk_keys _ _ Hok) in Hin. apply elem_of_app in Hin as [(n & -> & Hn)%list_elem_of_fmap|]; [|done].
  destruct (sy_shows _ _ _ HsA _ _ Hj I) as (r & Hr & _). by rewrite new_unknown in Hr.
Qed.

Hypothesis HsB : synced sB live.
Hypothesis HstB : stable (input_batch sA) (input_batch sB).
Hypothesis HiB : index_of sB = index_of sA.
Hypothesis HcB : ∀ id, id ∉ new → carried sA sB id.
Hypothesis HnB : Forall (λ n, ∃ r, new_result sB n r) (so_scheduled_new_reqs o).

Lemma cached_not_new k id : ids !! k = Some id → id ∉ new.
Proof using Hok. intros Hk Hin. pose proof (sk_nodup _ _ Hok) as (_ & Hd & _)%NoDup_app. apply (Hd id Hin). by eapply list_elem_of_lookup_2. Qed.

Lemma new_not_cached n : n ∈ so_scheduled_new_reqs o → nr_req_id n ∉ ids.
Proof using Hok. intros Hn [k Hk]%list_elem_of_lookup. apply (cached_not_new k _ Hk). by apply list_elem_of_fmap_2. Qed.

Lemma cached_carried k id : ids !! k = Some id → carried s sB id.
Proof using Hok HcA HcB. intros Hk. destruct (sk_cached _ _ Hok k id Hk) as [Hf _]. eapply carried_trans; [by apply HcA|]. apply HcB. by eapply cached_not_new. Qed.

Lemma plans_kept k id : ids !! k = Some id → ∃ r c nb no, cached_plan s o k id r c nb no ∧ cached_plan sB o k id r c nb no.
Proof using Hok HstA HcA HstB HcB.
  intros Hk. destruct (sk_cached _ _ Hok k id Hk) as (_ & r & c & nb & no & Hp). exists r, c, nb, no. split; [done|]. apply (plan_carried s sB); [by etrans|by eapply cached_carried|done].
Qed.

Lemma resumed_out id : id ∈ cr_resumed_req_ids (so_scheduled_cached_reqs o) → index_of sB !! id = None.
Proof using HiA HiB. intros Hr. rewrite HiB. destruct (index_of sA !! id) as [j|] eqn:Hj; [|done]. apply HiA in Hj as [(_ & _ & ?) _]. done. Qed.

Lemma adds_room : (num_reqs (input_batch sB) + length adds ≤ ib_max_num_reqs (input_batch s))%nat.
Proof using Hok HsA HiA HcA HfA HiB.
  assert (Hn : (num_reqs (input_batch sB) ≤ length (filter (λ id, ¬ index_of sB !! id = None) ids))%nat).
  { unfold num_reqs. apply size_dom_le. intros id Hid. apply list_elem_of_filter. split; [by apply not_eq_None_Some|]. apply kept_cached. by rewrite <-HiB. }
  pose proof (sk_room _ _ Hok) as Hroom. unfold scheduled in Hroom. rewrite length_app in Hroom |- *. pose proof (filter_app_complement (λ id, index_of sB !! id = None) ids) as Hp.
  apply Permutation_length in Hp. rewrite length_app in Hp. lia.
Qed.

Lemma adds_nodup : NoDup adds.
Proof using Hok.
  pose proof (sk_nodup _ _ Hok) as (N1 & N2 & N3)%NoDup_app. apply NoDup_app. split_and!; [done| |by apply NoDup_filter]. intros id Hid [_ Hin]%list_elem_of_filter. by apply (N2 id).
Qed.

Hypothesis HC : cached_upto sB o ids ys sC.

Lemma adds_fit id : id ∈ adds → index_of sC !! id = None ∧ ∃ r, mr_requests sC !! id = Some r ∧
  cr_num_prompt_tokens r + len (output_of (input_batch sC) r) + len (spec_of o id) ≤ max_model_len (input_batch sC).
Proof using Hok HsA HiA HcA HfA HstA HstB HiB HcB HnB HC.
  destruct HC as [_ _ _ Hst Hi Hc Hr]. destruct (st_config _ _ Hst) as (_ & _ & M1 & _). destruct (st_config _ _ HstB) as (_ & _ & M2 & _). destruct (st_config _ _ HstA) as (_ & _ & M3 & _).
  rewrite Hi. intros [Hin|[Hnone [k Hk]%list_elem_of_lookup]%list_elem_of_filter]%elem_of_app.
  - apply list_elem_of_fmap in Hin as (n & -> & Hn). split.
    { rewrite HiB. destruct (index_of sA !! nr_req_id n) as [j|] eqn:Hj; [|done]. exfalso. apply (new_not_cached n Hn). apply kept_cached. eauto. }
    eapply Forall_forall in HnB; [|exact Hn]. destruct HnB as [r Hres]. apply (new_result_carried _ _ _ _ _ sC n r Hst) in Hres as (H1 & H2 & H3); [|apply Hc; by apply new_not_cached].
    exists r. split; [done|]. rewrite H3, M1, M2, M3. destruct (sk_new _ _ Hok n Hn) as (_ & _ & Hfit). specialize (Hfit _ (new_state_prompt _ _ _ _ H1)). unfold len at 1. cbn. lia.
  - split; [done|]. destruct (Hr k id Hk) as (d & (r & c & nb & no & Hplan & Hreq & Hout) & _). eexists. split; [exact Hreq|]. rewrite M1.
    change (output_of (input_batch sC) (cr_set_draft d (next_request o id c nb r))) with (output_of (input_batch sC) r). rewrite Hout. apply (cp_len _ _ _ _ _ _ _ _ Hplan).
Qed.

Variables (sD : ModelRunner) (bE : InputBatch).
Hypothesis HD : adds_done sC (so_scheduled_spec_decode_tokens o) adds sD.
Hypothesis Hra : rearranged (input_batch sD) bE.
#[local] Notation sE := (set_input_batch bE sD).
Hypothesis HsE : synced sE live.
Hypothesis Hbuilder : batch_update_builder bE = new_builder.
Hypothesis Hdense : ∃ l, req_ids_ (slots bE) = Some <$> l.

Lemma final_output r : output_of bE r = output_of (input_batch sC) r.
Proof using HD Hra. unfold output_of. destruct (ra_rest _ _ Hra) as (_ & _ & _ & ->). by rewrite (as_lists _ _ _ _ HD). Qed.

(** A request is added, or it kept its row. *)
Lemma cached_cases k id : ids !! k = Some id → (id ∈ adds ∧ index_of sB !! id = None) ∨ (id ∉ adds ∧ is_Some (index_of sB !! id)).
Proof using Hok.
  intros Hk. destruct (index_of sB !! id) as [j|] eqn:Hj; [right|left]; split; eauto.
  - rewrite elem_of_app, list_elem_of_filter. intros [Hin|[? _]]; [by eapply cached_not_new|congruence].
  - apply elem_of_app. right. apply list_elem_of_filter. split; [done|]. by eapply list_elem_of_lookup_2.
Qed.

Lemma in_final id : is_Some (index_of sE !! id) ↔ id ∈ scheduled o.
Proof using Hok HsA HiA HcA HfA HiB HC HD Hra.
  cbn. rewrite (ra_dom _ _ Hra), (as_index _ _ _ _ HD), (cu_index _ _ _ _ _ HC). unfold scheduled. rewrite !elem_of_app, list_elem_of_filter. split.
  - intros [[?|[_ ?]]|Hid]; [by left|by right|right]. apply kept_cached. by rewrite <-HiB.
  - intros [?|Hid]; [by left; left|]. destruct (index_of sB !! id) as [j|] eqn:Hj; [right; eauto|left; right; done].
Qed.

Lemma final_drafted id : id ∈ scheduled o → drafted sE id (spec_of o id).
Proof using Hok HC HD Hra.
  intros Hid. apply drafted_rearranged; [done|]. unfold scheduled in Hid. apply elem_of_app in Hid as [Hid|[k Hk]%list_elem_of_lookup].
  - apply (as_added _ _ _ _ HD). apply elem_of_app. by left.
  - destruct (cached_cases k id Hk) as [[Hin _]|[_ Hs]]; [by apply (as_added _ _ _ _ HD)|]. apply (as_drafted _ _ _ _ HD). destruct (cu_result _ _ _ _ _ HC k id Hk) as (d & _ & Hdr). by apply Hdr.
Qed.

Lemma final_new n : n ∈ so_scheduled_new_reqs o → ∃ r, new_state n (is_pooling_model (input_batch s)) (cr_output_token_ids r) = Ok r ∧
  mr_requests sE !! nr_req_id n = Some (cr_set_draft (len (spec_of o (nr_req_id n))) r) ∧ output_of bE r = [].
Proof using Hok HstA HstB HnB HC HD Hra.
  intros Hn. pose proof HnB as Hres. eapply Forall_forall in Hres; [|exact Hn]. destruct Hres as [r Hres]. pose proof (cu_stable _ _ _ _ _ HC) as Hst.
  apply (new_result_carried _ _ _ _ _ sC n r Hst) in Hres as (H1 & H2 & H3); [|apply (cu_carried _ _ _ _ _ HC); by apply new_not_cached].
  exists r. rewrite final_output. split_and!; [|cbn|done].
  - rewrite <-H1. f_equal. destruct (st_config _ _ Hst) as [-> _], (st_config _ _ HstB) as [-> _], (st_config _ _ HstA) as [-> _]. done.
  - destruct (as_added _ _ _ _ HD (nr_req_id n)) as [E _]; [apply elem_of_app; left; by apply list_elem_of_fmap_2|]. by rewrite E, H2.
Qed.

Lemma final_cached k id : ids !! k = Some id → cached_result s o sE k id (len (spec_of o id)).
Proof using Hok HstA HcA HstB HcB HC HD Hra.
  intros Hk. destruct (cu_result _ _ _ _ _ HC k id Hk) as (d & (r & c & nb & no & Hplan & Hreq & Hout) & Hd). destruct (plans_kept k id Hk) as (r' & c' & nb' & no' & Hps & Hpb).
  destruct (plan_unique _ _ _ _ _ _ _ _ _ _ _ _ Hplan Hpb) as (-> & -> & -> & ->). exists r, c, nb, no. split_and!; [done| |].
  - cbn. destruct (cached_cases k id Hk) as [[Hin _]|[Hin Hs]].
    + destruct (as_added _ _ _ _ HD id Hin) as [E _]. rewrite E, Hreq. done.
    + rewrite (as_carried _ _ _ _ HD id Hin), Hreq. by destruct (Hd Hs) as [-> _].
  - cbn. rewrite final_output, Hout. f_equal. apply (cached_carried k id Hk). apply Hps.
Qed.

Lemma final_others id : id ∉ scheduled o → carried sA sE id.
Proof using HcB HC HD Hra.
  unfold scheduled. rewrite elem_of_app. intros Hid. apply (carried_trans _ sB); [apply HcB; tauto|]. apply (carried_trans _ sC); [apply (cu_carried _ _ _ _ _ HC); tauto|].
  split; [cbn; apply (as_carried _ _ _ _ HD); rewrite elem_of_app, list_elem_of_filter; tauto|]. intros r _. apply final_output.
Qed.

Lemma compose_ok : stepped s o sE.
Proof using All.
  split; [done|done|..].
  - destruct Hdense as [l Hl]. exists l. split; [done|]. pose proof (ii_core _ (sy_inv _ _ _ HsE)) as Hc. cbn in Hc.
    assert (Hi : ∀ i id, l !! i = Some id ↔ index_of sE !! id = Some i) by (intros i id; cbn; rewrite (ic_index _ _ Hc), Hl, list_lookup_fmap; destruct (l !! i); cbn; naive_solver).
    apply NoDup_Permutation; [|apply (sk_nodup _ _ Hok)|].
    + apply NoDup_alt. intros i j id Hi1%Hi Hj%Hi. congruence.
    + intros id. rewrite <-in_final, list_elem_of_lookup. unfold is_Some. by setoid_rewrite Hi.
  - apply final_drafted.
  - apply final_new.
  - apply final_cached.
  - intros id Hf Hid. rewrite (proj1 (final_others id Hid)). by apply HfA.
  - intros id Hf Hid. eapply carried_trans; [by apply HcA|by apply final_others].
Qed.
End compose.

Hypothesis Hsync : use_async_scheduling cfg = false.
Hypothesis Hlast : is_last_rank cfg = true.

Lemma update_states_ok s o : step_ok s o → wp (update_states o) (λ y s', y.1 = [] ∧ stepped s o s') s.
Proof using Hsync Hlast.
  intros Hok. unfold update_states. cbv zeta. apply wp_leave, wp_bind. eapply wp_mono; [apply leave_ok; [apply (sk_synced _ _ Hok)|apply (sk_builder _ _ Hok)]|].
  intros [] sA (HsA & HstA & _ & HiA & HcA & HfA). apply wp_bind. eapply wp_mono; [apply new_phase; [exact HsA| | |]|].
  { apply Forall_forall. intros n Hn. eapply new_ok_stable; [exact HstA|]. by apply (sk_new _ _ Hok). }
  { pose proof (sk_nodup _ _ Hok) as Hnd. unfold scheduled in Hnd. by apply NoDup_app in Hnd as (? & _). }
  { by apply (new_unknown s sA o). }
  intros new sB (-> & HsB & HstB & HiB & HcB & HnB). apply wp_bind.
  assert (HB : ∀ sB', mr_requests sB' = mr_requests sB → input_batch sB' = input_batch sB → next_list sB' = next_list sB →
    wp (let! cached := map_m (imap pair (cr_req_ids (so_scheduled_cached_reqs o))) (λ x, update_cached cfg o x.1 x.2) in
        for_each ((nr_req_id <$> so_scheduled_new_reqs o) ++ concat cached.*2) (add_back float32 (so_scheduled_spec_decode_tokens o)) ;;;
        on_batch condense ;;; may_reorder_batch cfg o ;;; let! update := on_batch refresh_metadata in ret (concat cached.*1, update)) (λ y s', y.1 = [] ∧ stepped s o s') sB').
  2: { destruct (use_async_spec_decode cfg); [apply wp_modify|apply wp_ret]; by apply HB. }
  intros sB' E1 E2 E3. apply (synced_same _ sB') in HsB; [|done|done|done]. rewrite <-E2 in HstB, HiB. assert (HcB' : ∀ id, id ∉ nr_req_id <$> so_scheduled_new_reqs o → carried sA sB' id).
  { intros id Hid. eapply carried_trans; [by apply HcB|apply carried_lists; congruence]. }
  assert (HnB' : Forall (λ n, ∃ r, new_result sB' n r) (so_scheduled_new_reqs o)) by (eapply Forall_impl; [exact HnB|]; intros n [r Hr]; exists r; unfold new_result; by rewrite E1, E2).
  apply wp_bind. eapply wp_mono; [apply cached_phase; [done|done|exact HsB| | |]|].
  { pose proof (sk_nodup _ _ Hok) as Hnd. unfold scheduled in Hnd. by apply NoDup_app in Hnd as (_ & _ & ?). }
  { intros k id Hk. destruct (plans_kept s sA sB' o Hok HstA HcA HstB HcB' k id Hk) as (r & c & nb & no & _ & Hp). eauto. }
  { intros id. by apply (resumed_out s sA sB' o). }
  intros ys sC HC. pose proof (cu_adds _ _ _ _ _ HC) as Ha. cbn zeta in Ha. rewrite Ha. apply wp_bind.
  eapply wp_mono; [apply add_phase; [apply (cu_synced _ _ _ _ _ HC)|by apply (adds_nodup s sB' o)| |by apply (adds_fit s sA sB' sC o ys)]|].
  { unfold num_reqs. rewrite (cu_index _ _ _ _ _ HC). destruct (st_config _ _ (cu_stable _ _ _ _ _ HC)) as (_ & -> & _), (st_config _ _ HstB) as (_ & -> & _), (st_config _ _ HstA) as (_ & -> & _).
    by apply (adds_room s sA sB' o). }
  intros [] sD HD. apply wp_settle, wp_bind. eapply wp_mono; [apply settle_ok; [apply (as_synced _ _ _ _ HD)|]|].
  { intros id Hid. apply sdict_get_in. apply (sk_keys _ _ Hok). apply (in_final s sA sB' sC o ys Hok HsA HiA HcA HfA HiB HC sD (input_batch sD) HD (reflexivity _)). by destruct sD. }
  intros u sE (bE & -> & Hra & HsE & Hbu & Hde). apply wp_ret. split; [apply (cu_corrections _ _ _ _ _ HC)|]. by apply (compose_ok s sA sB' sC o ys).
Qed.
End step.

(** C8.  One step of [_update_states], with synchronous scheduling and on the last
    rank, for an output the scheduler may send whose new requests are not updates
    of a streaming request that is cached already: the call returns, the batch
    holds exactly the scheduled requests, without gaps, and each row shows the
    tokens, counts, blocks, adapter, sampling parameters, generator, banned words
    and embeddings of its cached request, followed by the drafts scheduled for it;
    new requests get the state their data describe, running and resumed ones the
    computed tokens, blocks and output length the scheduler names, finished ones
    are gone and all others are as they were.  The result satisfies the invariant
    the next step starts from.  The rows of the mask of allowed tokens and the flag
    of the pooling rows are not part of what a row shows: the rows of the mask do
    not follow the requests (see [swap_duplicates_mask], [stale_mask_bans_tokens]). *)
Theorem update_states_exact sampler_params pool_params manual_seed pooling_update cfg s o :
  use_async_scheduling cfg = false → is_last_rank cfg = true → step_ok sampler_params pool_params manual_seed pooling_update s o →
  ∃ u s', update_states float32 sampler_params pool_params manual_seed pooling_update cfg o s = (Ok ([], u), s') ∧
    stepped sampler_params pool_params manual_seed pooling_update s o s'.
Proof.
  intros Hsync Hlast Hok. pose proof (update_states_ok sampler_params pool_params manual_seed pooling_update cfg Hsync Hlast s o Hok) as H. unfold wp in H.
  destruct (update_states _ _ _ _ _ _ _ _) as [[[c u]|] s']; [|done]. destruct H as [E Hst]. cbn in E. subst c. eauto.
Qed.
End states.
