(* ===== verification/RunnerSampling.v ===== *)
(** * Sampled tokens

    After the model has run, the sampled tokens of each row are written to the batch
    and to the output of the cached request: rows and cached states stay in step, so
    the next step starts from the invariant of [_update_states]. *)
From Stdlib Require Import QArith.
From stdpp Require Import gmap sorting.
From S2P Require Import Prelude.
From S2P Require Import RequestModel.
From S2P Require Import SchedulerState.
From S2P Require Import Arrays.
From S2P Require Import BlockTable.
From S2P Require Import InputBatch.
From S2P Require Import InputBatchInv.
From S2P Require Import InputBatchOps.
From S2P Require Import InputBatchAdd.
From S2P Require Import ModelRunner.
From S2P Require Import RunnerRows.
From S2P Require Import RunnerStep.
From S2P Require Import RunnerStates.
#[local] Open Scope Z_scope.

Section sampling.
Variable float32 : Q → Q.
#[local] Notation synced := (synced float32).
#[local] Notation live := (λ _ : string, True).

(** The row with sampled tokens after the known ones. *)
Definition sampled_row (sampled : list Z) (row : Row) : Row :=
  let start := num_tokens_no_spec row in
  row_counts (start + len sampled) (num_prompt_tokens row) (num_computed_tokens_cpu row)
    (row_tokens (take (Z.to_nat start) (token_ids_cpu row) ++ sampled ++ drop (Z.to_nat start + length sampled) (token_ids_cpu row))
      (arr_fill (is_token_ids row) start (start + len sampled) true) row).

Definition sampled_batch (b : InputBatch) (i : nat) (row : Row) (r : CachedRequestState) (sampled : list Z) : InputBatch :=
  set_lists (<[cr_output_token_ids r := output_of b r ++ sampled]> (output_lists b)) (set_rows (<[i := sampled_row sampled row]> (rows b)) b).

Section row.
Variables (b : InputBatch) (holes : list nat) (id : string) (i : nat) (r : CachedRequestState) (row : Row) (spec sampled : list Z).
Hypothesis Hc : ib_core b holes.
Hypothesis Hid : req_id_to_index (slots b) !! id = Some i.
Hypothesis Hsh : shows float32 b i r.
Hypothesis Hrow : rows b !! i = Some row.
Hypothesis Hspec : spec_token_ids (slots b) !! i = Some spec.
Hypothesis Hlen : length_from_prompt_token_ids_or_embeds (cr_prompt_token_ids r) (cr_prompt_embeds r) = Ok (cr_num_prompt_tokens r).
Hypothesis Hroom : num_tokens_no_spec row + len sampled + len spec ≤ max_model_len b.

Let b' := sampled_batch b i row r sampled.
Let start := Z.to_nat (num_tokens_no_spec row).

Lemma sampled_bounds : num_tokens_no_spec row = cr_num_prompt_tokens r + len (output_of b r) ∧ 0 ≤ num_tokens_no_spec row ∧ (start + length sampled ≤ length (token_ids_cpu row))%nat ∧
  (start + length sampled ≤ length (is_token_ids row))%nat ∧ row_wf (max_model_len b) row.
Proof using Hc Hid Hsh Hrow Hlen Hroom.
  destruct (shows_parts _ _ _ _ _ _ Hc Hid Hsh) as (row0 & sp & Hr0 & _ & E & _ & _ & _ & W). rewrite Hrow in Hr0. injection Hr0 as <-. destruct (prompt_length r Hlen) as [H0 _].
  pose proof (len_nonneg (output_of b r)). pose proof (len_nonneg spec). pose proof W as [W1 W2]. unfold start, len in *. split_and!; try done; lia.
Qed.

Lemma sampled_fill : is_token_ids (sampled_row sampled row) = take start (is_token_ids row) ++ replicate (length sampled) true ++ drop (start + length sampled) (is_token_ids row).
Proof using Hc Hid Hsh Hrow Hlen Hroom.
  destruct sampled_bounds as (_ & H0 & _ & Hl & _). cbn. rewrite arr_fill_ok; [|done|apply len_nonneg|unfold start, len in *; lia]. fold start. unfold len. by rewrite Nat2Z.id.
Qed.

Lemma sampled_touched : touched b i b'.
Proof using Hc Hid Hsh Hrow Hlen Hroom.
  destruct sampled_bounds as (_ & H0 & Ht & Hl & W1 & W2). pose proof (lookup_lt_Some _ _ _ Hrow) as Hi. split; try done.
  - split; [cbn; by rewrite length_insert|]. intros j Hj. cbn. by rewrite list_lookup_insert_ne.
  - cbn. rewrite list_lookup_insert_eq, Hrow by done. done.
  - intros Hall. cbn. apply Forall_insert; [done|]. split.
    + rewrite <-W1. cbn. fold start. unfold len. f_equal. by apply write_length.
    + rewrite sampled_fill, <-W2. unfold len. f_equal. rewrite <-(length_replicate (length sampled) true) at 2. apply write_length. by rewrite length_replicate.
  - split; [apply (ic_tables _ _ Hc)|done].
Qed.

Lemma sampled_output : output_of b' r = output_of b r ++ sampled.
Proof using. unfold output_of at 1. cbn. by rewrite lookup_insert_eq. Qed.

Lemma sampled_shows : shows float32 b' i r.
Proof using Hc Hid Hsh Hrow Hlen Hroom.
  destruct sampled_bounds as (Es & H0 & Ht & Hl & _). pose proof (lookup_lt_Some _ _ _ Hrow) as Hi. destruct Hsh as (stale & Hst & Hb). exists stale. split; [done|].
  unfold base_view in *. rewrite Hrow in Hb. assert (Hr' : rows b' !! i = Some (sampled_row sampled row)) by (by apply list_lookup_insert_eq). rewrite Hr'.
  change (slots b') with (slots b). destruct (req_output_token_ids (slots b) !! i) as [out|]; [|done]. cbn [mbind option_bind] in Hb |- *. f_equal. injection Hb as Et Ei Ec1 Ec2 Ec3 El Es' Eo Eb Eg Ew Ee.
  rewrite active_nil in Et, Ei. assert (Hk : known (sampled_row sampled row) = (start + length sampled)%nat) by (unfold known, start; cbn; unfold len; lia).
  assert (Et' : take (start + length sampled) (token_ids_cpu (sampled_row sampled row)) = default stale (cr_prompt_token_ids r) ++ output_of b r ++ sampled).
  { cbn. fold start. rewrite write_prefix by done. change start with (known row). by rewrite Et, app_assoc. }
  assert (Ei' : take (start + length sampled) (is_token_ids (sampled_row sampled row)) = take start (is_token_ids row) ++ replicate (length sampled) true).
  { rewrite sampled_fill. pose proof (write_prefix (is_token_ids row) (replicate (length sampled) true) start) as Hw. rewrite length_replicate in Hw. by apply Hw. }
  assert (Hemb : has_embeds (sampled_row sampled row) (known (sampled_row sampled row)) = has_embeds row (known row)).
  { unfold has_embeds. rewrite Hk, Ei'. assert (Hk0 : ∀ m, existsb negb (replicate m true) = false) by (intros m; induction m; done). by rewrite existsb_app, Hk0, orb_false_r. }
  unfold mk_view, new_view. rewrite active_nil, Hemb, Hk, Et', Ei', sampled_output. change (take start (is_token_ids row)) with (take (known row) (is_token_ids row)). rewrite Ei.
  change (sampling_of (sampled_row sampled row)) with (sampling_of row). rewrite <-app_assoc, <-replicate_add, length_app. unfold b', sampled_batch. cbn. rewrite Es', Eo, Eb, Eg, Ew, Ee, El, Ec2, Ec3.
  f_equal. f_equal. f_equal. rewrite Es. unfold len. rewrite length_app. lia.
Qed.

Lemma sampled_core : ib_core b' holes.
Proof using Hc Hid Hsh Hrow Hspec Hlen Hroom.
  destruct (core_row _ _ _ _ Hc Hid) as (row0 & spec0 & o & _ & Hs0 & Ho & _ & _ & _ & Hil & _). rewrite Hspec in Hs0. injection Hs0 as <-. destruct sampled_bounds as (Es & _).
  assert (Hv : ∃ v, view b' i = Some v ∧ v_spec v = spec).
  { unfold view. cbn. rewrite list_lookup_insert_eq by (by apply lookup_lt_Some in Hrow). cbn. rewrite Hspec, Ho. cbn. eauto. }
  destruct Hv as (v & Hv & Hvs). apply (touched_core b i b' sampled_touched holes v Hc Hv); [|done]. eapply shows_view_ok; [exact sampled_shows|done|exact Hv|].
  rewrite Hvs, sampled_output. unfold len in *. rewrite length_app. lia.
Qed.
End row.

(** ** One row *)

(** The tokens [sampled] of row [i] fit, with the drafts the row still holds. *)
Definition fits_row (b : InputBatch) (i : nat) (sampled : list Z) : Prop :=
  ∀ row spec, rows b !! i = Some row → spec_token_ids (slots b) !! i = Some spec → num_tokens_no_spec row + len sampled + len spec ≤ max_model_len b.

Lemma synced_sampled s id i r row sampled : synced s live → index_of s !! id = Some i → mr_requests s !! id = Some r → shows float32 (input_batch s) i r →
  rows (input_batch s) !! i = Some row → fits_row (input_batch s) i sampled → synced (set_input_batch (sampled_batch (input_batch s) i row r sampled) s) live.
Proof.
  intros [H1 H2 H3 H4 H5] Hid Hr Hsh Hrow Hfit. set (b := input_batch s) in *. set (b' := sampled_batch b i row r sampled). pose proof (ii_core _ H1) as Hc.
  destruct (H3 id r Hr) as (Fid & [[F1 F2 F3] F4 F5] & Flt). destruct (core_row _ _ _ _ Hc Hid) as (row0 & spec & out & Hr0 & Hs & _). rewrite Hrow in Hr0. injection Hr0 as <-.
  pose proof (Hfit row spec Hrow Hs) as Hroom. pose proof (sampled_touched b _ id i r row spec sampled Hc Hid Hsh Hrow F1 Hroom) as Ht. pose proof (touched_stable _ _ _ Ht) as Hst.
  destruct (sampled_bounds b _ id i r row spec sampled Hc Hid Hsh Hrow F1 Hroom) as (Es & _). pose proof (sampled_output b i r row sampled) as Ho. pose proof (len_nonneg spec).
  assert (Hoth : ∀ id' r', mr_requests s !! id' = Some r' → id' ≠ id → output_of b' r' = output_of b r').
  { intros id' r' Hr' Hne. unfold output_of. cbn. rewrite lookup_insert_ne; [done|]. intros E. by apply Hne, (H4 id' id r' r). }
  split; cbn; fold b'; try done.
  - split; [by apply (sampled_core b _ id i r row spec sampled Hc Hid Hsh Hrow Hs F1 Hroom)|apply (ii_sorted _ H1)].
  - by eapply touched_lora.
  - intros id' r' Hr'. destruct (H3 id' r' Hr') as (G1 & G2 & G3). split_and!; [done| |done]. destruct (decide (id' = id)) as [->|Hne]; [|eapply request_ok_stable; [exact Hst|by eapply Hoth|done]].
    rewrite Hr in Hr'. injection Hr' as <-. destruct (st_config _ _ Hst) as (A1 & A2 & A3 & A4). destruct F4 as [K1 K2]. split; [split|split|done]; rewrite ?A1, ?A3, ?A4; try done.
    unfold b'. rewrite Ho, A3. unfold len in *. rewrite length_app. lia.
  - intros id' j Hj _. destruct (decide (id' = id)) as [->|Hne].
    + exists r. split; [done|]. rewrite Hid in Hj. injection Hj as <-. by apply (sampled_shows b _ id i r row spec sampled Hc Hid Hsh Hrow F1 Hroom).
    + destruct (H5 id' j Hj I) as (r' & Hr' & Hs'). exists r'. split; [done|]. assert (Hji : j ≠ i).
      { intros ->. apply Hne. apply (ic_index _ _ Hc) in Hid, Hj. congruence. }
      destruct (touched_other _ _ _ Ht _ id' j Hc Hj Hji) as [Hv _]. destruct (core_view _ _ _ _ Hc Hj) as (v & Hvj & _). rewrite Hvj in Hv. fold b' in Hv.
      eapply shows_eq; [by rewrite (view_base _ _ _ Hvj), (view_base _ _ _ Hv)|by eapply Hoth|apply (st_config _ _ Hst)|apply (st_shape _ _ Hst)|done].
Qed.

Lemma record_sampled_ok s id i r sampled : synced s live → index_of s !! id = Some i → mr_requests s !! id = Some r → shows float32 (input_batch s) i r → sampled ≠ [] →
  fits_row (input_batch s) i sampled → ∃ row, rows (input_batch s) !! i = Some row ∧
    record_sampled i sampled s = (Ok tt, set_input_batch (sampled_batch (input_batch s) i row r sampled) s).
Proof.
  intros Hs Hid Hr Hsh Hne Hfit. pose proof Hs as [H1 _ H3 _ _]. pose proof (ii_core _ H1) as Hc. set (b := input_batch s) in *.
  destruct (core_row _ _ _ _ Hc Hid) as (row & spec & out & Hrow & Hsp & _). exists row. split; [done|]. destruct (H3 id r Hr) as (Fid & [[F1 F2 F3] _ _] & _). pose proof (Hfit _ _ Hrow Hsp) as Hroom.
  destruct (sampled_bounds b _ id i r row spec sampled Hc Hid Hsh Hrow F1 Hroom) as (Es & H0 & Ht & _). pose proof (len_nonneg spec).
  unfold record_sampled. assert (Hm : ∀ A (x y : A), match sampled with [] => x | _ => y end = y) by (intros; by destruct sampled). rewrite Hm.
  erewrite bind_ok; [|unfold on_batch; eapply zoom_ok'; [unfold get_row; erewrite bind_ok by exact eq_refl; apply lift_ok; by apply arr_get_ok|exact eq_refl]].
  erewrite bind_ok by exact eq_refl. cbv zeta. erewrite bind_ok; [|cbn; fold b; unfold py_assert; rewrite (proj2 (Z.leb_le _ _)) by lia; exact eq_refl].
  erewrite bind_ok; [|unfold on_batch; eapply zoom_ok'; [eapply on_row_ok; [exact Hrow|rewrite arr_write_ok by (unfold len in *; lia); exact eq_refl]|exact eq_refl]].
  erewrite bind_ok by exact eq_refl. cbn beta. erewrite bind_ok; [|apply lift_ok, arr_get_ok; cbn; by apply (ic_index _ _ Hc) in Hid]. cbn beta iota.
  erewrite bind_ok by (by apply get_request_ok). unfold on_output_list, on_batch. eapply zoom_ok'; [exact eq_refl|]. reflexivity.
Qed.

(** ** All rows *)

(** The state after the loop over the rows of [sampled]. *)
Record recorded (s : ModelRunner) (sampled : list (list Z)) (s' : ModelRunner) : Prop := {
  rc_synced : synced s' live;
  rc_slots : slots (input_batch s') = slots (input_batch s);
  rc_builder : batch_update_builder (input_batch s') = batch_update_builder (input_batch s);
  rc_requests : mr_requests s' = mr_requests s;
  rc_output : ∀ id r, mr_requests s !! id = Some r → output_of (input_batch s') r = output_of (input_batch s) r ++ default [] (index_of s !! id ≫= (sampled !!.));
  rc_rows : max_model_len (input_batch s') = max_model_len (input_batch s) ∧ ∀ j, (length sampled ≤ j)%nat → rows (input_batch s') !! j = rows (input_batch s) !! j;
}.

Lemma lookup_snoc {A} (l : list A) x j : (l ++ [x]) !! j = if decide (j = length l) then Some x else l !! j.
Proof. case_decide as E; [subst j; by apply list_lookup_middle|]. destruct (decide (j < length l)%nat); [by apply lookup_app_l|]. rewrite lookup_app_r by lia. rewrite !lookup_ge_None_2; [done|lia|cbn; lia]. Qed.

Lemma recorded_step s pre x s1 : synced s live → recorded s pre s1 → (∃ id, req_ids_ (slots (input_batch s)) !! length pre = Some (Some id)) → (x ≠ [] → fits_row (input_batch s) (length pre) x) →
  wp (record_sampled (length pre) x) (λ _ s', recorded s (pre ++ [x]) s') s1.
Proof.
  intros Hs [R1 R2 R3 R4 R5 [R6 R7]] [id Hid] Hfit. set (i := length pre) in *. pose proof (ii_core _ (sy_inv _ _ _ Hs)) as Hc. apply (ic_index _ _ Hc) in Hid.
  assert (Hmore : ∀ id', default [] (index_of s !! id' ≫= ((pre ++ [x]) !!.)) = default [] (index_of s !! id' ≫= (pre !!.)) ++ (if decide (id' = id) then x else [])).
  { intros id'. destruct (index_of s !! id') as [j|] eqn:Hj; cbn; [|case_decide; [congruence|done]]. rewrite lookup_snoc. fold i. destruct (decide (j = i)) as [->|Hne].
    - assert (id' = id) as -> by (apply (ic_index _ _ Hc) in Hj, Hid; congruence). rewrite decide_True, (lookup_ge_None_2 pre) by (done || (unfold i; lia)). done.
    - rewrite decide_False; [by rewrite app_nil_r|]. intros ->. congruence. }
  destruct (decide (x = [])) as [->|Hx].
  { apply wp_ret. split; try done; [|split; [done|]; intros j Hj; apply R7; rewrite length_app in Hj; cbn in Hj; lia]. intros id' r Hr. rewrite Hmore, (R5 _ _ Hr). by case_decide; rewrite app_nil_r. }
  destruct (sy_shows _ _ _ R1 id i) as (r & Hr & Hsh); [by rewrite R2|done|].
  assert (Hfit1 : fits_row (input_batch s1) i x) by (intros row spec; rewrite R6, R2, R7 by (unfold i; lia); by apply Hfit).
  destruct (record_sampled_ok s1 id i r x R1 ltac:(by rewrite R2) Hr Hsh Hx Hfit1) as (row & Hrow & Hrun). unfold wp. rewrite Hrun. split; cbn; try done.
  - by apply (synced_sampled s1 id i r row x); [done|rewrite R2|..].
  - intros id' r' Hr'. rewrite Hmore, app_assoc, <-(R5 _ _ Hr'). rewrite <-R4 in Hr'. case_decide as E.
    + subst id'. rewrite Hr in Hr'. injection Hr' as <-. apply sampled_output.
    + rewrite app_nil_r. unfold output_of at 1. cbn. rewrite lookup_insert_ne; [done|]. intros E'. apply E. by eapply (sy_lists _ _ _ R1).
  - split; [done|]. intros j Hj. rewrite length_app in Hj. cbn in Hj. rewrite list_lookup_insert_ne by (unfold i; lia). apply R7. lia.
Qed.

Lemma bookkeeping_ok s sampled ids : synced s live → req_ids_ (slots (input_batch s)) = Some <$> ids → (length sampled ≤ length ids)%nat →
  (∀ i x, sampled !! i = Some x → x ≠ [] → fits_row (input_batch s) i x) → wp (bookkeeping sampled) (λ _ s', recorded s sampled s') s.
Proof.
  intros Hs Hids Hlen Hfit. unfold bookkeeping. eapply wp_mono; [apply (wp_for_each (λ pre s', recorded s pre.*2 s'))|].
  - split; try done. intros id r _. destruct (index_of s !! id); cbn; by rewrite app_nil_r.
  - intros pre [i x] post s1 (Hx & Ei & Hpre)%imap_pair_lookup Hrec. cbn in Hx, Ei |- *. assert (Hl : length pre = length pre.*2) by (by rewrite length_fmap). rewrite Ei, Hl in Hx |- *. rewrite fmap_app.
    apply recorded_step; [done|done| |by apply Hfit]. apply lookup_lt_Some in Hx. destruct (lookup_lt_is_Some_2 ids (length pre.*2)) as [id Hid]; [lia|]. exists id. by rewrite Hids, list_lookup_fmap, Hid.
  - cbn. intros [] s'. replace (imap pair sampled).*2 with sampled; [done|]. apply list_eq. intros j. rewrite list_lookup_fmap, list_lookup_imap. by destruct (sampled !! j).
Qed.

(** C10.  Recording the sampled tokens, one list per row of a batch without gaps:
    when they fit below the model length the loop returns, the output of every request
    of the batch grows by exactly the tokens sampled in its row, no other request
    changes, and every row still shows its cached request, so the invariant the next
    [_update_states] starts from holds again. *)
Theorem bookkeeping_exact s sampled ids : synced s live → req_ids_ (slots (input_batch s)) = Some <$> ids → (length sampled ≤ length ids)%nat →
  (∀ i x, sampled !! i = Some x → x ≠ [] → fits_row (input_batch s) i x) →
  ∃ s', bookkeeping sampled s = (Ok tt, s') ∧ synced s' live ∧ slots (input_batch s') = slots (input_batch s) ∧ mr_requests s' = mr_requests s ∧
    ∀ id r, mr_requests s !! id = Some r → output_of (input_batch s') r = output_of (input_batch s) r ++ default [] (index_of s !! id ≫= (sampled !!.)).
Proof.
  intros Hs Hids Hlen Hfit. pose proof (bookkeeping_ok s sampled ids Hs Hids Hlen Hfit) as H. unfold wp in H. destruct (bookkeeping sampled s) as [[[]|] s']; [|done].
  destruct H as [H1 H2 H3 H4 H5 H6]. exists s'. done.
Qed.
End sampling.
