(* ===== verification/RunnerRuns.v ===== *)
(** * Runs of the model runner

    A runner with two rows: a request arrives, a token is sampled for it, and it
    continues with a draft while a second request joins.  The states on which the
    theorems about the runner and the reordering of the batch are seen to apply. *)
From Stdlib Require Import QArith.
From stdpp Require Import gmap sorting.
From S2P Require Import Prelude.
From S2P Require Import RequestModel.
From S2P Require Import SchedulerState.
From S2P Require Import Arrays.
From S2P Require Import BlockTable.
From S2P Require Import InputBatch.
From S2P Require Import InputBatchInv.
From S2P Require Import InputBatchOps.
From S2P Require Import InputBatchAdd.
From S2P Require Import InputBatchRuns.
From S2P Require Import Reorder.
From S2P Require Import ModelRunner.
From S2P Require Import RunnerRows.
From S2P Require Import RunnerStep.
From S2P Require Import RunnerStates.
From S2P Require Import RunnerSampling.
#[local] Open Scope string_scope.
#[local] Open Scope Z_scope.

(** ** The runner *)

Definition greedy_params (_ : SamplingParams) : SampleParams := sample None.
Definition no_pool (_ : PoolingParams) : PoolParams := MkPool false.
Definition plain_seed (z : Z) : nat := Z.to_nat z.
Definition keep_pool (p : PoolParams) : res PoolParams := Ok p.

Definition sync_config : RunnerConfig := MkRunnerConfig false true false true (Some 1).
Definition runner0 : ModelRunner := MkRunner ∅ ∅ ∅ (empty_batch false) [] 0.

Definition step_runner : SchedulerOutput → MR (list (string * Z) * option BatchUpdate) := update_states keep greedy_params no_pool plain_seed keep_pool sync_config.
#[local] Notation small_step_ok := (step_ok keep greedy_params no_pool plain_seed keep_pool).
#[local] Notation small_new_ok := (new_ok greedy_params no_pool plain_seed keep_pool).

Definition new_data (id : string) (prompt blocks : list Z) : NewRequestData :=
  MkNewRequestData id (Some prompt) [] (Some (MkSampling (Some 5) false None 0 None [] None)) None [blocks] 0 None None None.

Definition output_with (new : list NewRequestData) (cached : CachedRequestData) (num : list (string * Z)) (spec : gmap string (list Z)) : SchedulerOutput :=
  MkSchedulerOutput new cached num 0 spec ∅ [] ∅ ∅ [] None false false None.

Lemma new_data_ok b id prompt blocks : is_pooling_model b = false → len prompt ≤ max_model_len b → length (tables b) = 1%nat →
  (∀ t, tables b !! 0%nat = Some t → len (kernel_ids t blocks) ≤ max_num_blocks_per_req t) → small_new_ok b (new_data id prompt blocks).
Proof.
  intros Hp Hl Ht Hb k. rewrite Hp. eexists. split; [exact eq_refl|]. split.
  - eapply cached_fits_one; [exact eq_refl| |exact Ht|exact eq_refl|exact Hb]. unfold output_of. cbn. rewrite lookup_insert_eq. cbn. unfold len at 2. cbn. lia.
  - split; [intros _; eexists; split; [exact eq_refl|done]|]. cbn. by rewrite Hp.
  - done.
Qed.

Lemma runner0_synced : synced keep runner0 (λ _, True).
Proof. destruct (empty_batch_ok false) as [Hi Hl]. split; [exact Hi|exact Hl|..]; intros; exfalso; discriminate. Qed.

(** ** Two steps *)

Definition output0 : SchedulerOutput := output_with [new_data "a" [1; 2] [5]] (MkCachedRequestData [] ∅ [] ∅ [] [] []) [("a", 2)] ∅.

Ltac small_tables := intros t Ht; vm_compute in Ht; injection Ht as <-; vm_compute; discriminate.

Lemma step0_ok : small_step_ok runner0 output0.
Proof.
  split.
  - exact runner0_synced.
  - reflexivity.
  - intros n Hn. cbn in Hn. apply list_elem_of_singleton in Hn as ->. split_and!.
    + apply new_data_ok; [reflexivity|vm_compute; discriminate|reflexivity|small_tables].
    + right. reflexivity.
    + intros k [= <-]. vm_compute. discriminate.
  - intros k id Hk. discriminate.
  - apply (bool_decide_unpack (NoDup _)). vm_compute. exact I.
  - reflexivity.
  - vm_compute. lia.
Qed.

(** After the step and a token sampled for [a]. *)
Definition run {A} (m : MR A) (s : ModelRunner) : ModelRunner := snd (m s).
Definition runner0' : ModelRunner := run (step_runner output0) runner0.
Definition runner1 : ModelRunner := run (bookkeeping [[3]]) runner0'.

Lemma runner0'_synced : synced keep runner0' (λ _, True).
Proof.
  pose proof (update_states_ok keep greedy_params no_pool plain_seed keep_pool sync_config eq_refl eq_refl runner0 output0 step0_ok) as H.
  unfold wp in H. unfold runner0', run, step_runner. destruct (update_states _ _ _ _ _ _ _ _) as [[y|] s']; [|done]. exact (sp_synced _ _ _ _ _ _ _ _ (proj2 H)).
Qed.

Lemma sampled_fits i x : [[3]] !! i = Some x → x ≠ [] → fits_row (input_batch runner0') i x.
Proof.
  intros Hx _ row spec Hr Hs. destruct i as [|i]; [|discriminate Hx]. injection Hx as <-. vm_compute in Hr, Hs. injection Hr as <-. injection Hs as <-. vm_compute. discriminate.
Qed.

Lemma bookkeeping_exact_witness : ∃ s', bookkeeping [[3]] runner0' = (Ok tt, s') ∧ synced keep s' (λ _, True) ∧
  (∀ r, mr_requests runner0' !! "a" = Some r → output_of (input_batch s') r = [3]).
Proof.
  destruct (bookkeeping_exact keep runner0' [[3]] ["a"] runner0'_synced ltac:(vm_compute; reflexivity) ltac:(cbn; lia) sampled_fits) as (s' & Hrun & Hs & _ & _ & Hout).
  exists s'. split; [exact Hrun|]. split; [exact Hs|]. intros r Hr. rewrite (Hout "a" r Hr). vm_compute in Hr. injection Hr as <-. vm_compute. reflexivity.
Defined.

Lemma runner1_synced : synced keep runner1 (λ _, True).
Proof.
  pose proof (bookkeeping_ok keep runner0' [[3]] ["a"] runner0'_synced ltac:(vm_compute; reflexivity) ltac:(cbn; lia) sampled_fits) as H.
  unfold wp in H. unfold runner1, run. destruct (bookkeeping _ _) as [[[]|] s']; [|done]. exact (rc_synced _ _ _ _ H).
Qed.

(** [a] gets a block and a draft, and [b] joins. *)
Definition output1 : SchedulerOutput :=
  output_with [new_data "b" [3] [7]] (MkCachedRequestData ["a"] ∅ [] ∅ [Some [[6]]] [2] [1]) [("a", 2); ("b", 1)] {[ "a" := [2] ]}.

Definition state_a : CachedRequestState := default (cached "a" [] [] None) (mr_requests runner1 !! "a").

Lemma plan_a : cached_plan runner1 output1 0 "a" state_a 2 (Some [[6]]) 1.
Proof.
  split; try (vm_compute; reflexivity).
  - lia.
  - intros _. eauto.
  - intros new [= <-]. vm_compute. lia.
  - intros g t Ht. destruct g as [|g]; [|vm_compute in Ht; discriminate]. exists [5; 6]. split; [vm_compute; reflexivity|]. vm_compute in Ht. injection Ht as <-. vm_compute. discriminate.
  - vm_compute. discriminate.
Qed.

Lemma step1_ok : small_step_ok runner1 output1.
Proof.
  split.
  - exact runner1_synced.
  - vm_compute. reflexivity.
  - intros n Hn. cbn in Hn. apply list_elem_of_singleton in Hn as ->. split_and!.
    + apply new_data_ok; [vm_compute; reflexivity|vm_compute; discriminate|vm_compute; reflexivity|small_tables].
    + right. vm_compute. reflexivity.
    + intros k [= <-]. vm_compute. discriminate.
  - intros k id Hk. destruct k as [|k]; [|discriminate Hk]. injection Hk as <-. split; [apply not_elem_of_empty|]. do 4 eexists. exact plan_a.
  - apply (bool_decide_unpack (NoDup _)). vm_compute. exact I.
  - intros id. cbn. set_solver.
  - vm_compute. lia.
Qed.

Lemma update_states_exact_witness : ∃ u s', step_runner output1 runner1 = (Ok ([], u), s') ∧
  stepped keep greedy_params no_pool plain_seed keep_pool runner1 output1 s' ∧
  (∃ ids, req_ids_ (slots (input_batch s')) = Some <$> ids ∧ ids ≡ₚ ["b"; "a"]) ∧ drafted s' "a" [2].
Proof.
  destruct (update_states_exact keep greedy_params no_pool plain_seed keep_pool sync_config runner1 output1 eq_refl eq_refl step1_ok) as (u & s' & Hrun & Hst).
  exists u, s'. unfold step_runner. split; [exact Hrun|]. split; [exact Hst|]. split; [exact (sp_batch _ _ _ _ _ _ _ _ Hst)|].
  apply (sp_drafted _ _ _ _ _ _ _ _ Hst "a"). apply elem_of_app. right. apply list_elem_of_singleton. reflexivity.
Defined.

(** The draft of [a] is written to the tokens of its row, but its position is not
    marked as holding a token, so with prompt embeddings it is not embedded. *)
Example draft_not_marked : let b := input_batch (run (step_runner output1) runner1) in
  v_tokens <$> view b 0 = Some [1; 2; 3; 2] ∧ v_spec <$> view b 0 = Some [2] ∧ v_is_token <$> view b 0 = Some [true; true; true; false].
Proof. split_and!; vm_compute; reflexivity. Qed.

(** ** Reordering *)

(** A prefill before a decode. *)
Definition mixed_batch : InputBatch := after condense (after (ib_add_request keep (cr_set_computed 1 req_b)) batch_a).

Lemma add_decode : addable batch_a (cr_set_computed 1 req_b).
Proof. small_addable. Qed.

Lemma mixed_core : ib_core mixed_batch [].
Proof.
  destruct batch_a_ok as [Hi Hl]. destruct (add_ok keep _ (cr_set_computed 1 req_b) Hi Hl ltac:(vm_compute; lia) add_decode) as (i & b' & Hrun & Hi' & _).
  unfold mixed_batch, after. rewrite Hrun. cbn [snd]. destruct (condense_ok b' Hi') as (b2 & ids & Hrun2 & _ & _ & Hc & _). rewrite Hrun2. exact Hc.
Qed.

Definition one_token (id : string) : option Z := Some (if decide (id = "a") then 2 else 1).

Lemma reorder_exact_witness : ∃ b' changed regs, reorder_batch 1 one_token mixed_batch = (Ok changed, b') ∧ changed = true ∧ req_ids_ (slots b') = [Some "b"; Some "a"] ∧ StronglySorted Z.le regs ∧
  req_regions 1 one_token b' = Ok regs.
Proof.
  destruct (reorder_exact 1 one_token mixed_batch mixed_core ltac:(intros id _; unfold one_token; eauto)) as (b' & ch & regs & Hrun & _ & _ & Hregs & Hsort & _).
  exists b', ch, regs. assert (E : fst (reorder_batch 1 one_token mixed_batch) = Ok true ∧ req_ids_ (slots (snd (reorder_batch 1 one_token mixed_batch))) = [Some "b"; Some "a"]) by (split; vm_compute; reflexivity).
  rewrite Hrun in E. destruct E as [E1 E2]. split_and!; [exact Hrun| |exact E2|exact Hsort|exact Hregs]. injection E1 as ->. reflexivity.
Defined.
