(* ===== verification/EngineRunner.v ===== *)
(** * The engine core and its worker

    The scheduler's output meets what the model runner expects of it: for every state
    an engine reaches, [schedule] returns an output that [_update_states] takes in,
    whenever the worker knows the running requests and their blocks fit its tables;
    afterwards the worker computes the tokens the scheduler has counted. *)
From Stdlib Require Import QArith.
From stdpp Require Import gmap sorting.
From S2P Require Import Prelude.
From S2P Require Import RequestModel.
From S2P Require Import BlockHash.
From S2P Require Import KVService.
From S2P Require Import SchedulerState.
From S2P Require Import Scheduler.
From S2P Require Import Engine.
From S2P Require Import SchedulerInv.
From S2P Require Import SchedulerSafety.
From S2P Require Import EngineSafety.
From S2P Require Import EngineReach.
From S2P Require Import Arrays.
From S2P Require Import BlockTable.
From S2P Require Import InputBatch.
From S2P Require Import InputBatchInv.
From S2P Require Import InputBatchOps.
From S2P Require Import InputBatchAdd.
From S2P Require Import InputBatchRuns.
From S2P Require Import ModelRunner.
From S2P Require Import RunnerRows.
From S2P Require Import RunnerStep.
From S2P Require Import RunnerStates.
From S2P Require Import RunnerRuns.
#[local] Open Scope Z_scope.

Section both.
Variable float32 : Q → Q.
Variable sampler_params : SamplingParams → SampleParams.
Variable pool_params : PoolingParams → PoolParams.
Variable manual_seed : Z → nat.
Variable pooling_update : PoolParams → res PoolParams.

(** The worker can take in the output: it has rows for the running requests, new
    requests are new to it, it knows the others, and their blocks fit. *)
Record runner_ready (max_num_running : Z) (w : ModelRunner) (o : SchedulerOutput) : Prop := {
  rr_synced : synced float32 w (λ _, True);
  rr_builder : is_removed_sorted (batch_update_builder (input_batch w)) = false;
  rr_room : max_num_running ≤ Z.of_nat (ib_max_num_reqs (input_batch w));
  rr_new n : n ∈ so_scheduled_new_reqs o → new_ok sampler_params pool_params manual_seed pooling_update (input_batch w) n ∧
    (nr_req_id n ∈ so_finished_req_ids o ∨ mr_requests w !! nr_req_id n = None);
  rr_cached i id nb : cr_req_ids (so_scheduled_cached_reqs o) !! i = Some id → cr_new_block_ids (so_scheduled_cached_reqs o) !! i = Some nb →
    id ∉ so_finished_req_ids o ∧ (id ∈ cr_resumed_req_ids (so_scheduled_cached_reqs o) → is_Some nb) ∧
    (∀ new, nb = Some new → (length (tables (input_batch w)) ≤ length new)%nat) ∧
    ∃ r, mr_requests w !! id = Some r ∧ blocks_fit (next_blocks (bool_decide (id ∈ cr_resumed_req_ids (so_scheduled_cached_reqs o))) nb r) (tables (input_batch w));
}.

Lemma scheduled_perm o (s : list string) : (nr_req_id <$> so_scheduled_new_reqs o) ++ cr_req_ids (so_scheduled_cached_reqs o) ≡ₚ s → NoDup s → NoDup (scheduled o) ∧ ∀ id, id ∈ s ↔ id ∈ scheduled o.
Proof. intros Hp Hnd. unfold scheduled. split; [by rewrite Hp|]. intros id. by rewrite Hp. Qed.

Section engine.
Context {E : Type} (cfg : SchedulerConfig) (plug : Plugins E) (bs cap : Z).
Context `{HC : !PlainConfig cfg plug bs} `{HF : !CollisionFree (h_hash cfg) (h_none cfg)}.

(** The scheduler's side of the contract. *)
Lemma output_step_ok o B (s : Sched E) w : output_ok o B s → len (running s) ≤ max_num_running_reqs cfg → runner_ready (max_num_running_reqs cfg) w o →
  step_ok float32 sampler_params pool_params manual_seed pooling_update w o.
Proof.
  intros [_ Hnd Hs [Hspec _] (Hp & Hnew & Hrows)] Hlen [R1 R2 R3 R4 R5]. cbv zeta in Hp, Hrows. destruct (scheduled_perm o _ Hp Hnd) as [Hnd' Hin].
  assert (Hsp : ∀ id, spec_of o id = []) by (intros id; unfold spec_of; by rewrite Hspec, lookup_empty). split; try done.
  - intros n Hn. destruct (R4 n Hn) as [Hok Hfr]. split_and!; [done|done|]. intros k Hk. destruct (Hok (next_list w)) as (r & Hr & [[F1 F2 F3] _ _]). rewrite Hsp.
    rewrite (new_state_prompt _ _ _ _ _ _ _ _ Hr) in Hk. injection Hk as <-. cbn in F2. pose proof (len_nonneg (output_of (set_lists (<[next_list w:=[]]> (output_lists (input_batch w))) (input_batch w)) r)). change (len []) with 0. lia.
  - intros i id Hi. destruct (Hrows i id Hi) as (k & r & nb & _ & _ & E1 & E2 & E3). destruct (R5 i id nb Hi E3) as (Hf & Hre & Hg & rw & Hw & Hfit). split; [done|].
    destruct (sy_ids _ _ _ R1 id rw Hw) as (_ & [[F1 F2 F3] _ _] & _). exists rw, (num_computed_tokens r - k), nb, (num_output_tokens r). split; try done; [apply len_nonneg|].
    change (default [] (so_scheduled_spec_decode_tokens o !! id)) with (spec_of o id). rewrite Hsp. change (len []) with 0. unfold len in *. rewrite length_take. lia.
  - assert (Hle : (length (so_num_scheduled_tokens o).*1 ≤ length (running s))%nat).
    { apply submseteq_length, NoDup_submseteq; [done|]. intros id ([i n] & -> & Hi)%list_elem_of_fmap. by apply (Hs i n). }
    apply Permutation_length in Hp. unfold scheduled. unfold len in *. lia.
Qed.

(** The worker's row of a scheduled request and the scheduler's object. *)
Lemma counts_agree o B (s : Sched E) w w' : output_ok o B s → step_ok float32 sampler_params pool_params manual_seed pooling_update w o →
  stepped float32 sampler_params pool_params manual_seed pooling_update w o w' → ∀ rid k, (rid, k) ∈ so_num_scheduled_tokens o →
  ∃ i row r, index_of w' !! rid = Some i ∧ rows (input_batch w') !! i = Some row ∧ s_objs s !! rid = Some r ∧ num_computed_tokens_cpu row + k = num_computed_tokens r.
Proof.
  intros [_ Hnd _ _ (Hp & Hnew & Hrows)] Hok Hst rid k Hk. cbv zeta in Hp, Hrows.
  assert (Huniq : ∀ k', (rid, k') ∈ so_num_scheduled_tokens o → k' = k).
  { intros k' Hk'. apply list_elem_of_lookup in Hk as [a Ha], Hk' as [b Hb]. rewrite NoDup_alt in Hnd.
    assert (a = b) as ->; [|congruence]. apply (Hnd a b rid); rewrite list_lookup_fmap; [by rewrite Ha|by rewrite Hb]. }
  assert (Hsc : rid ∈ scheduled o) by (apply (sk_keys _ _ _ _ _ _ _ Hok); by apply (list_elem_of_fmap_2 fst) in Hk).
  destruct (sp_drafted _ _ _ _ _ _ _ _ Hst rid Hsc) as (i & _ & Hi & _). pose proof (sp_synced _ _ _ _ _ _ _ _ Hst) as Hsy.
  destruct (sy_shows _ _ _ Hsy rid i Hi I) as (rw & Hrw & Hsh). destruct (shows_parts _ _ _ _ _ _ (ii_core _ (sy_inv _ _ _ Hsy)) Hi Hsh) as (row & _ & Hrow & _ & _ & _ & Ec & _).
  assert (Hr : ∃ r, s_objs s !! rid = Some r ∧ cr_num_computed_tokens rw + k = num_computed_tokens r).
  { unfold scheduled in Hsc. apply elem_of_app in Hsc as [(n & -> & Hn)%list_elem_of_fmap|[j Hj]%list_elem_of_lookup].
    - destruct (Hnew n Hn) as (k' & r & Hk' & Hr & E1 & _). apply Huniq in Hk' as ->. exists r. split; [done|]. destruct (sp_new _ _ _ _ _ _ _ _ Hst n Hn) as (r1 & H1 & H2 & _).
      rewrite Hrw in H2. injection H2 as ->. cbn. unfold new_cached_state in H1. apply res_bind_ok in H1 as (g & _ & (q & _ & (m & _ & [= <-])%res_bind_ok)%res_bind_ok). cbn. lia.
    - destruct (Hrows j rid Hj) as (k' & r & nb & Hk' & Hr & E1 & _). apply Huniq in Hk' as ->. exists r. split; [done|].
      destruct (sp_cached _ _ _ _ _ _ _ _ Hst j rid Hj) as (r0 & c & nb' & no & Hplan & Hreq & _). rewrite Hrw in Hreq. injection Hreq as ->. cbn. pose proof (cp_computed _ _ _ _ _ _ _ _ Hplan) as Hc.
      rewrite E1 in Hc. injection Hc as <-. lia. }
  destruct Hr as (r & Hr & Ek). exists i, row, r. split_and!; [done|done|done|]. by rewrite Ec.
Qed.

End engine.
End both.

(** ** A worker for a small engine *)

(** Four rows for sequences of at most 12 tokens, with blocks of two tokens. *)
Definition wide_batch : InputBatch :=
  match new_input_batch small_cp (λ _, junk_row) 4 12 8 8 [2] [2] None false 1 ∅ with
  | Ok b => b
  | Raise _ => empty_batch false
  end.
Definition idle_runner : ModelRunner := MkRunner ∅ ∅ ∅ wide_batch [] 0.

Lemma wide_batch_ok : ib_inv wide_batch ∧ lora_ok wide_batch.
Proof. apply (new_batch_ok small_cp (λ _, junk_row) 4 12 8 8 [2] [2] None false 1 ∅); try (cbn; lia); try (repeat constructor; lia). Qed.

Definition small_output : option SchedulerOutput := match schedule small_cfg no_plugins (e_sched small_busy) with (Ok o, _) => Some o | _ => None end.

Lemma new_text_ok b n p sp l : is_pooling_model b = false → nr_prompt_token_ids n = Some p → nr_sampling_params n = Some sp → nr_pooling_params n = None → nr_lora_request n = None → nr_prompt_embeds n = None →
  nr_block_ids n = [l] → len p ≤ max_model_len b → length (tables b) = 1%nat → (∀ t, tables b !! 0%nat = Some t → len (kernel_ids t l) ≤ max_num_blocks_per_req t) →
  new_ok greedy_params no_pool plain_seed keep_pool b n.
Proof.
  intros Hp H1 H2 H3 H4 H6 H5 Hl Ht Hb k. rewrite Hp. unfold new_cached_state. rewrite H1, H2, H3, H4, H5, H6. eexists. split; [exact eq_refl|]. split.
  - eapply cached_fits_one; [exact eq_refl| |exact Ht|exact eq_refl|exact Hb]. unfold output_of. cbn. rewrite lookup_insert_eq. change (len (default [] (Some []))) with 0. lia.
  - split; [intros _; eexists; split; [exact eq_refl|done]|]. cbn. by rewrite Hp.
  - done.
Qed.

Lemma idle_ready o : small_output = Some o → runner_ready keep greedy_params no_pool plain_seed keep_pool (max_num_running_reqs small_cfg) idle_runner o.
Proof.
  intros Ho. vm_compute in Ho. injection Ho as <-. destruct wide_batch_ok as [Hi Hl]. split.
  - split; [exact Hi|exact Hl|..]; intros; exfalso; discriminate.
  - reflexivity.
  - vm_compute. discriminate.
  - intros n Hn. cbn in Hn. apply list_elem_of_singleton in Hn as ->. split; [|right; reflexivity].
    eapply new_text_ok; [reflexivity..|vm_compute; discriminate|reflexivity|]. intros t Ht. vm_compute in Ht. injection Ht as <-. vm_compute. discriminate.
  - intros i id nb Hi'. discriminate Hi'.
Qed.

#[local] Existing Instance small_plain.

