(* ===== verification/SchedulerRuns.v ===== *)
(** * Runs of the scheduler outside the plain configuration

    Streaming sessions and LoRA adapters leave the fragment of SchedulerInv.
    The runs below evaluate the scheduler on short call sequences and show
    where its own expectations fail there. *)

From S2P Require Import Prelude FreeQueue RequestModel BlockHash KVCacheMetrics BlockPool KVCacheManager KVCacheSafety.
From S2P Require Import SchedUtils EncoderCache RequestQueue SchedulerState Scheduler SchedulerUpdate Engine EngineReach.

Definition run_args (rid : string) (toks : list Z) (max_tokens : Z) (lora : option LoRARequest) (resumable : bool) : RequestArgs :=
  MkArgs rid (Some toks) (Some (MkSampling (Some max_tokens) false None 0 None [] None)) None 0 0 None [] lora None 0 resumable.
Definition sampled (toks : list (string * list Z)) : ModelRunnerOutput :=
  MkModelRunnerOutput (list_to_map (imap (λ i x, (x.1, i)) toks)) (toks.*2) [] ∅ None None.

(** Blocks of two tokens, eight blocks; with pipeline parallelism and one
    adapter slot in the second configuration. *)
Definition base_cfg : SchedulerConfig := toy_cfg FCFS.
Definition lora_cfg : SchedulerConfig :=
  MkSchedulerConfig FCFS 4 8 64 0 true false 0 false false 0 0 false false 2 2 (Some 1) true false false false false true None 1 (Some 2)
    (λ b, b) code_hash [x03].
Definition start : Sched unit := toy_sched FCFS.

Definition turn (toks : list (string * list Z)) : M (Sched unit) SchedulerOutput :=
  let! o := schedule base_cfg no_plugins in
  update_from_output base_cfg no_plugins o (sampled toks) ;;;
  ret o.

(** ** Streaming sessions *)

(** A session computes tokens 1 2 3, samples 9 and stops; the next chunk is 4 5.
    Then another request arrives whose prompt does contain 9. *)
Definition stale_run : M (Sched unit) (Request * SchedulerOutput) :=
  engine_add_request base_cfg no_plugins (run_args "s" [1; 2; 3] 1 None true) ;;;
  turn [("s", [9])] ;;;
  engine_add_request base_cfg no_plugins (run_args "s" [4; 5] 5 None true) ;;;
  let! session := get_req "s" in
  turn [("s", [7])] ;;;
  engine_add_request base_cfg no_plugins (run_args "t" [1; 2; 3; 9; 8] 5 None false) ;;;
  let! o := turn [("t", [7])] in
  ret (session, o).

(** [_update_request_as_session] drops the last sampled token but not the
    block hash that covers it: the session goes on with tokens 1 2 3 4 5 and
    the hash of block 3 9 for its second block, its block of 3 4 is cached
    under that hash, and a request with prompt 1 2 3 9 8 is scheduled with
    four of its five tokens taken from the cache. *)
Theorem session_keeps_stale_hash :
  match (stale_run start).1 with
  | Ok (session, o) =>
      all_token_ids session = [1; 2; 3; 4; 5] ∧
      RequestModel.block_hashes session ≠ ref_hashes (h_sha256 base_cfg) (h_hash base_cfg) (h_none base_cfg) session 2 ∧
      so_num_scheduled_tokens o = [("t", 1)]
  | Raise _ => False
  end.
Proof. vm_compute. split_and!; [reflexivity|discriminate|reflexivity]. Qed.

(** The [max_tokens] of the second chunk, 5, is not taken over. *)
Lemma session_keeps_max_tokens :
  match (stale_run start).1 with
  | Ok (session, _) => max_tokens session = 1 ∧ (sp_max_tokens <$> sampling_params session) = Some (Some 5)
  | Raise _ => False
  end.
Proof. vm_compute. split; reflexivity. Qed.

(** The session is preempted while its batch is in flight, and the batch ends
    it; [queued] says whether the next chunk has already arrived. *)
Definition preempted_run (queued : bool) : M (Sched unit) (Request * Sched unit) :=
  let next := engine_add_request base_cfg no_plugins (run_args "s" [4; 5] 5 None true) in
  engine_add_request base_cfg no_plugins (run_args "s" [1; 2; 3] 1 None true) ;;;
  let! o := schedule base_cfg no_plugins in
  (if queued then next else ret tt) ;;;
  sched_reset_prefix_cache no_plugins true false ;;;
  update_from_output base_cfg no_plugins o (sampled [("s", [9])]) ;;;
  (if queued then ret tt else next) ;;;
  let! session := get_req "s" in
  let! s := gets id in
  ret (session, s).

(** A session that is preempted while its batch is in flight, and stops
    with the next chunk queued, is lost: it is put back into the waiting queue
    and then removed from it with the stopped requests.  It stays in
    [requests], WAITING, in no queue, and the scheduler reports no unfinished
    request. *)
Theorem preempted_session_lost :
  match (preempted_run true start).1 with
  | Ok (session, s) =>
      requests s = ["s"] ∧ status session = WAITING ∧ running s = [] ∧ q_ids (waiting s) = [] ∧ q_ids (skipped_waiting s) = [] ∧
      has_unfinished_requests s = false
  | Raise _ => False
  end.
Proof. vm_compute. split_and!; reflexivity. Qed.

(** A preempted session has no computed tokens, so the next chunk replaces its
    tokens, while its prompt keeps them. *)
Lemma preempted_session_forgets_prompt :
  match (preempted_run false start).1 with
  | Ok (session, _) => prompt_token_ids session = Some [1; 2; 3; 4; 5] ∧ all_token_ids session = [4; 5]
  | Raise _ => False
  end.
Proof. vm_compute. split; reflexivity. Qed.

(** ** LoRA adapters *)

(** Two requests with different adapters and one adapter slot; the first is in
    flight when the second is considered. *)
Definition lora_run : M (Sched unit) SchedulerOutput :=
  engine_add_request lora_cfg no_plugins (run_args "a" [1; 2; 3] 16 (Some (MkLoRA "x" 1)) false) ;;;
  let! o := schedule lora_cfg no_plugins in
  engine_add_request lora_cfg no_plugins (run_args "b" [4; 5] 16 (Some (MkLoRA "y" 2)) false) ;;;
  let! o' := schedule lora_cfg no_plugins in
  update_from_output lora_cfg no_plugins o (sampled [("a", [9])]) ;;;
  update_from_output lora_cfg no_plugins o' (sampled [("b", [9])]) ;;;
  schedule lora_cfg no_plugins.

(** The LoRA limit is checked against the running requests of the current
    step only: a request whose batch is in flight does not count, so a second
    adapter is admitted into a single slot, and the assertion on the number of
    adapters fails once both requests run in one step. *)
Theorem lora_limit_assertion_fails : max_loras lora_cfg = Some 1 ∧ (lora_run start).1 = Raise AssertionError.
Proof. split; vm_compute; reflexivity. Qed.
